(* ===== verification/_CoqProject ===== *)
-Q . S2P
Prelude.v
ZendTypes.v
NumericStr.v
HashTable.v
HashDict.v
HashChain.v
HashInv.v
HashRehash.v
HashFind.v
HashAdd.v
HashIndex.v
HashDel.v
HashOps.v
HashTraverse.v
HashSymtable.v
ZendSort.v
HashCopy.v
HashSort.v
HashPos.v
HashMerge.v
HashDup.v
HashRename.v
HashCompare.v
HashList.v
HashFill.v
HashRenumber.v
CompileRuntime.v
Sse.v
Base64.v
Base64Simd.v
UrlCodec.v
StrSearch.v
StrExplode.v
GcBuffer.v
GcRoots.v
GcCompact.v
GcGraph.v
GcVisit.v
GcMark.v
GcScan.v
GcCollect.v
GcCycles.v
GcFree.v
GcRelease.v
GcDestroy.v
GcCollectCycles.v
GcWitnesses.v
RandomRange.v
RandomPcg.v
RandomXoshiro.v
RandomMt.v
RandomSerialize.v
MmBitset.v
MmBins.v
MmChunk.v
MmRuns.v
MmSlots.v
MmHeap.v
MmGc.v
MmPages.v
MmAlloc.v
MmHuge.v
MmRegions.v
MmHugeList.v
MmHugeOps.v
MmClient.v
MmCopy.v
MmRealloc.v
MmLimit.v
MmHistory.v
MmWitnesses.v
Witnesses.v
CompareWitnesses.v
