(* ===== verification/Prelude.v ===== *)
(** * Verification of the runtime library of php-nano

    php-nano is a reduced build of the Zend engine: values and containers
    (src/Zend), a memory manager, a library of random engines (src/ext/random)
    and a compiler-free runtime (src/src).  This development models the parts of
    it that the rest of the engine stands on, as executable definitions that
    follow the C code, and proves what they promise to their callers.  The
    configuration is 64-bit, release build.

    ** The parts and how they interact

    - _Integer-like strings_: [NumericStr] models [_zend_handle_numeric_str] and
      [zend_long_to_str] (Zend/zend_hash.c, Zend/zend_operators.c).  A string is
      an integer key exactly when it is what PHP prints for an integer.
    - _Values, strings and the string hash_: [ZendTypes] (Zend/zend_types.h,
      Zend/zend_string.h).  The unrolled hash is equal to the textbook hash.
    - _Hash table_ (Zend/zend_hash.c and .h): [HashTable] has the layout
      ([zend_array], with the index area below the bucket vector), construction,
      lookup, insertion, deletion, growth and conversion; [HashOps] counting,
      destruction, [apply], traversal; [HashCompare] comparison of tables and of
      nested arrays; [HashRename] the exchange of a key in place; [HashSymtable] the wrappers
      for symbol tables; [HashCopy] copying, merging, duplicating, sorting and
      iterators.  [HashDict] is the abstract specification, an insertion-ordered
      dictionary; [HashInv] the representation invariant [wf] and the abstraction
      [elems]; [HashChain] what the collision chains represent.  Refinement, one
      file for each group of operations: [HashRehash] (growth, compaction,
      conversion), [HashFind], [HashAdd], [HashIndex], [HashDel],
      [HashTraverse], [HashSort], [HashPos] (positions across compaction),
      [HashMerge], [HashDup], [HashList] (lists as packed tables), [HashFill] (the
      macros that fill packed tables), [HashRenumber] (the sort that renumbers,
      and with [HashSort] the whole function).  Merging follows indirect values
      into the slots they point to, on both sides.  Destructor
      calls and changes of reference counts are recorded in order in a log, so
      that the theorems count them.
    - _Hybrid sort_: [ZendSort] (Zend/zend_sort.c), on an array with callbacks
      for comparison and exchange; [HashSort] uses it on buckets, [HashRenumber]
      on the values under them, through a simulation.
    - _Helpers of the compiled code_: [CompileRuntime]
      (src/zend_compile_runtime.c): mangled property names, directory names,
      reserved names, argument flags, on byte buffers with checked accesses.
    - _String functions_ (ext/standard, Zend/zend_operators.c and .h): [Base64]
      (base64.c) the portable codec with its RFC 4648 reference, [Base64Simd] the
      routines with vector instructions and the choice between them, [UrlCodec]
      (url.c) percent encoding and decoding in place, [StrSearch] the searches
      for a string in a string, [StrExplode] (string.c) [explode] and [implode],
      which use the search, the printing of integers and packed tables; the
      length of a joined string is a [size_t], and its allocation checks the
      block for overflow.  [Sse]
      has the 128-bit instructions as the compiler documents them.
    - _Random_ (src/ext/random): [RandomRange] has the interface of an engine
      (the classes [php_random_algo] and [engine_ok]) and the uniform ranges,
      which are proved against the interface; [RandomPcg], [RandomXoshiro] and
      [RandomMt] are the engines and discharge it.  [RandomSerialize] stores
      engine states in PHP arrays through the hash table.
    - _Memory manager_ (Zend/zend_alloc.c): [MmBitset] the page bitmaps,
      [MmBins] the size classes, [MmChunk] the pages of one chunk with the
      contract in [MmRuns] (a chunk represents a finite map of disjoint runs),
      [MmSlots] the free lists of small blocks, proved against an interface for
      the source of pages, [MmHeap] the ring and the cache of chunks,
      [MmGc] the collection of idle small runs, [MmPages] page allocation over all
      chunks, with the collection as its last resort,
      [MmAlloc] allocation and release by address inside of the chunks.
      [MmHuge] adds blocks that do not fit into a chunk, with their linked list
      in memory: [MmRegions] has the invariant of the whole heap, [MmHugeList]
      and [MmHugeOps] the list and the operations on it.  [MmClient] gives the
      view of the clients, a finite map from addresses to sizes, on which
      requests, releases and [zend_mm_size] are specified; [MmCopy] and
      [MmRealloc] reallocation, [MmLimit] the memory limit, and [MmHistory]
      all operations as a step relation with the theorems for every history.
      The system call behind [zend_mm_chunk_alloc] is a parameter with its
      documented contract (aligned, not in use).
    - _Cycle collector_ (Zend/zend_gc.c): [GcBuffer] has the root buffer with its
      tagged words, the list of unused ones and the compressed indices, [GcRoots]
      its invariant [buf_ok] and what the operations on it do, [GcCompact] its
      compaction.  [GcGraph] has the four depth-first traversals of the graph of
      counted nodes and the passes over the buffer, up to the point where
      [zend_gc_collect_cycles] knows the garbage.  [GcVisit] proves once, for a
      visitor of children, what a traversal does to colours and counts;
      [GcMark], [GcScan] and [GcCollect] apply it to the passes, and [GcCycles]
      composes them.  [GcFree] has the rest of [zend_gc_collect_cycles]:
      destructors, destruction of the garbage and its release, on top of the
      destruction by reference counts (Zend/zend_variables.c, zend_objects.c,
      zend_objects_API.c); freed nodes leave the heap, so that an access to one
      fails.  [GcRelease] has the invariant of nested destruction, [GcDestroy] the
      loops over the garbage, and [GcCollectCycles] a whole collection, from the
      invariant of the collector back to it.  The contents of an array are a hash
      table of [HashTable].
    - [Prelude] has machine integers, buffers with checked accesses, the option
      notation and the tactics and lemmas the files share; [Witnesses],
      [CompareWitnesses], [MmWitnesses] and [GcWitnesses] evaluate the theorems with hypotheses at concrete inputs.

    ** What the theorems show

    - Refinement: every operation of the hash table, in each representation and
      through initialisation, conversion, compaction and growth, preserves [wf]
      and acts on [elems] as a function of [HashDict]; the Mersenne Twister
      refines a shift register; the emulated 128-bit arithmetic the native one.
    - Functional behaviour with effects: what is destroyed, released and
      referenced, and that a refused request changes nothing.
    - Round trips: integer keys, mangled names, serialised engine states, Base64
      and percent encoding, [explode] and [implode].
    - Equivalence: the routines with vector instructions give the results of the
      portable ones, and both those of the reference; Sunday's algorithm finds
      the occurrence that a search from left to right finds.
    - Bounds, errors, termination: uniform ranges end within their limits and
      report broken engines; the sort ends with a sorted permutation,
      and the comparison of cyclic arrays returns.
    - Safety: runs of pages never overlap, blocks that live together are aligned
      and disjoint, double releases of runs are detected, and no history of
      requests of any size, releases, reallocations and collections corrupts a
      free list or the list of huge blocks, or changes a byte of another block.
    - Garbage: the analysis of the collector takes exactly the nodes for garbage
      that the roots reach and nothing outside of them holds, it finds
      every isolated cycle, and it leaves all reference counts as they were.  A
      collection frees exactly the garbage, once each, and takes from the other
      nodes only the references that the garbage held; the theorem is for runs
      in which no destructor has to be called, and for arrays without indirect
      entries among the garbage ([freeable]).

    ** Bounds and fuel

    Loops over pointers or indices have fuel where the recursion is not
    structural.  [None] stands for an access outside of a buffer or for fuel
    that ran out, and the theorems prove [Some] of the result, so the fuel is
    enough: chain walks have the number of buckets plus one; the draw of a random
    word as many steps as the word has bytes (an engine yields at least one);
    the rejection loop 51 words, the limit in the code; the advance by squaring 64
    steps, one for each bit; word-wise loops on page bitmaps 8 words; the
    best-fit search 512 pages; linking the slots of a run 1024 slots, more than
    any run has; a walk of the list of huge blocks one step more than there are
    regions; the loops of
    the collection have one step for each slot the heap can hold.  A traversal of
    the cycle collector meets each node at most once and has the number of nodes
    plus one; decompression of an index has 2048 steps, the largest buffer divided
    by the modulus of compressed indices; compaction the length of the buffer; nested destruction
    the number of nodes plus one, since each level frees a node.  The loops
    of the string functions have the length of their input; the searches one step
    for each place of the haystack, for needles below 2^31 bytes.  The sort has the length of the array as
    fuel of its outer recursion; each round shortens it, and the result is sorted.

    ** Not modelled

    - Of the components above: weak maps and weak references; what destructors of
      the cycle collector do is a parameter; the Base64 routines for AVX2, AVX-512 and NEON;
      custom and tracked heaps and the shutdown of the memory manager, debug
      builds, and the seeding of engines from the operating system.
    - The executor (its handlers are generated from a description that is not
      in the repository), classes and objects, generators, fibers and signals,
      floating point conversions.
    - Streams, SAPI, I/O and network functions, and the platform layers: system
      calls with little logic of their own.
    - Bundled third-party libraries (lexbor, PCRE2, timelib, uriparser, libbcmath,
      xxHash, sha3) and the extensions that bind them.

    ** Order of the work

    Containers first, since everything else stores its state in them; then sorting
    and random engines as their clients; then the memory manager from the pages
    upwards.  The cycle collector stands on the hash table and follows it.
    The string functions use the containers and the number printing.  Next are
    the destructor phase of the collector and the array functions of ext/standard. *)

From stdpp Require Import base numbers list gmap.
#[global] Open Scope Z_scope.

(** * Machine integers *)

Definition ZEND_LONG_MAX : Z := 9223372036854775807.
Definition ZEND_LONG_MIN : Z := -9223372036854775808.

(** Conversion to [uint8_t], [uint32_t], [uint64_t]: reduction modulo the width. *)
Definition u8 (z : Z) : Z := z mod 2 ^ 8.
Definition u32 (z : Z) : Z := z mod 2 ^ 32.
Definition u64 (z : Z) : Z := z mod 2 ^ 64.

(** Conversion to [int64_t] ([zend_long]): two's complement. *)
Definition s64 (z : Z) : Z := (z + 2 ^ 63) mod 2 ^ 64 - 2 ^ 63.

(** * Arrays as lists, indexed by [Z] *)

Definition lget {A} (d : A) (l : list A) (i : Z) : A := default d (l !! Z.to_nat i).
Definition lset {A} (l : list A) (i : Z) (x : A) : list A := <[Z.to_nat i := x]> l.
Definition llen {A} (l : list A) : Z := Z.of_nat (length l).

(** Reads and writes of a buffer; [None] is an access outside of it. *)
Definition lload {A} (l : list A) (i : Z) : option A := if i <? 0 then None else l !! Z.to_nat i.
Definition lstore {A} (l : list A) (i : Z) (x : A) : option (list A) :=
  if (i <? 0) || (llen l <=? i) then None else Some (lset l i x).

(** Pointwise update of a function, for small address spaces. *)
Definition fset {A} (f : Z -> A) (i : Z) (x : A) : Z -> A :=
  fun j => if j =? i then x else f j.

(** Consecutive integers [i, i+1, ..., i+n-1]. *)
Definition zrange (i : Z) (n : nat) : list Z := (fun k => i + Z.of_nat k) <$> seq 0 n.

(** * Tactics *)

(** [lia] with division and modulo by constants. *)
Ltac zlia := Z.to_euclidean_division_equations; lia.

(** Turn boolean integer tests of the code into propositions. *)
Ltac zbool :=
  repeat match goal with
  | H : context [Z.eqb ?a ?b] |- _ => destruct (Z.eqb_spec a b); simpl in H
  | |- context [Z.eqb ?a ?b] => destruct (Z.eqb_spec a b); simpl
  | H : context [Z.ltb ?a ?b] |- _ => destruct (Z.ltb_spec a b); simpl in H
  | |- context [Z.ltb ?a ?b] => destruct (Z.ltb_spec a b); simpl
  | H : context [Z.leb ?a ?b] |- _ => destruct (Z.leb_spec a b); simpl in H
  | |- context [Z.leb ?a ?b] => destruct (Z.leb_spec a b); simpl
  end.

(** * Lemmas on machine integers *)

Lemma u32_range z : 0 <= u32 z < 2 ^ 32.
Proof. unfold u32. zlia. Qed.

Lemma u64_range z : 0 <= u64 z < 2 ^ 64.
Proof. unfold u64. zlia. Qed.

Lemma u8_range z : 0 <= u8 z < 2 ^ 8.
Proof. unfold u8. zlia. Qed.

Lemma u32_small z : 0 <= z < 2 ^ 32 -> u32 z = z.
Proof. intros. unfold u32. zlia. Qed.

Lemma u64_small z : 0 <= z < 2 ^ 64 -> u64 z = z.
Proof. intros. unfold u64. zlia. Qed.

Lemma s64_range z : ZEND_LONG_MIN <= s64 z <= ZEND_LONG_MAX.
Proof. unfold s64, ZEND_LONG_MIN, ZEND_LONG_MAX. zlia. Qed.

(** [u64] as a congruence: reductions inside a sum of products can be dropped. *)
Lemma u64_split z : exists k, u64 z = z + k * 2 ^ 64.
Proof. exists (- (z / 2 ^ 64)). unfold u64. zlia. Qed.

Lemma u64_congr x y k : x = y + k * 2 ^ 64 -> u64 x = u64 y.
Proof. intros ->. unfold u64. apply Z_mod_plus_full. Qed.

Lemma u32_split z : exists k, u32 z = z + k * 2 ^ 32.
Proof. exists (- (z / 2 ^ 32)). unfold u32. zlia. Qed.

Lemma u32_congr x y k : x = y + k * 2 ^ 32 -> u32 x = u32 y.
Proof. intros ->. unfold u32. apply Z_mod_plus_full. Qed.

Lemma s64_small z : ZEND_LONG_MIN <= z <= ZEND_LONG_MAX -> s64 z = z.
Proof. unfold s64, ZEND_LONG_MIN, ZEND_LONG_MAX. zlia. Qed.

Lemma s64_u64 z : s64 (u64 z) = s64 z.
Proof. unfold s64, u64. zlia. Qed.

Lemma u64_s64 z : u64 (s64 z) = u64 z.
Proof. unfold s64, u64. zlia. Qed.

(** * Lemmas on bit operations *)

Lemma lor_range a b w : 0 <= w -> 0 <= a < 2 ^ w -> 0 <= b < 2 ^ w -> 0 <= Z.lor a b < 2 ^ w.
Proof.
  intros Hw Ha Hb. split; [apply Z.lor_nonneg; lia|].
  destruct (decide (Z.lor a b = 0)) as [->|Hn]; [lia|].
  assert (0 <= Z.lor a b) by (apply Z.lor_nonneg; lia).
  apply Z.log2_lt_pow2; [lia|]. rewrite Z.log2_lor by lia.
  destruct (decide (w = 0)) as [->|Hw0].
  { assert (a = 0) as -> by lia. assert (b = 0) as -> by lia. done. }
  apply Z.max_lub_lt.
  - destruct (decide (a = 0)) as [->|]; [cbn; lia|apply Z.log2_lt_pow2; lia].
  - destruct (decide (b = 0)) as [->|]; [cbn; lia|apply Z.log2_lt_pow2; lia].
Qed.

Lemma lxor_range a b w : 0 <= w -> 0 <= a < 2 ^ w -> 0 <= b < 2 ^ w -> 0 <= Z.lxor a b < 2 ^ w.
Proof.
  intros Hw Ha Hb. assert (0 <= Z.lxor a b) by (apply Z.lxor_nonneg; lia). split; [done|].
  destruct (lor_range a b w Hw Ha Hb) as [_ Hlt]. apply (Z.le_lt_trans _ (Z.lor a b)); [|done].
  assert (Z.lor a b = Z.lxor a b + Z.land a b) as ->; [|pose proof (proj2 (Z.land_nonneg a b)); lia].
  rewrite Z.add_nocarry_lxor.
  - apply Z.bits_inj'. intros i _. rewrite Z.lor_spec, !Z.lxor_spec, Z.land_spec.
    destruct (Z.testbit a i), (Z.testbit b i); done.
  - apply Z.bits_inj_0. intros i. rewrite !Z.land_spec, Z.lxor_spec.
    destruct (Z.testbit a i), (Z.testbit b i); done.
Qed.

Lemma land_pred_mod x k : 0 <= k -> Z.land x (2 ^ k - 1) = x mod 2 ^ k.
Proof. intros. rewrite <- Z.land_ones by done. by rewrite Z.ones_equiv, Z.sub_1_r. Qed.

(** * Lemmas on arrays *)

Lemma lget_lset_eq {A} (d : A) l i x :
  0 <= i < llen l -> lget d (lset l i x) i = x.
Proof. unfold llen, lget, lset. intros. rewrite list_lookup_insert_eq by lia. done. Qed.

Lemma lget_lset_ne {A} (d : A) l i j x :
  0 <= i -> 0 <= j -> i <> j -> lget d (lset l i x) j = lget d l j.
Proof. unfold lget, lset. intros. rewrite list_lookup_insert_ne by lia. done. Qed.

Lemma llen_lset {A} (l : list A) i x : llen (lset l i x) = llen l.
Proof. unfold llen, lset. by rewrite length_insert. Qed.

Lemma lget_app_l {A} (d : A) l1 l2 i :
  0 <= i < llen l1 -> lget d (l1 ++ l2) i = lget d l1 i.
Proof. unfold llen, lget. intros. rewrite lookup_app_l by lia. done. Qed.

Lemma lget_lookup {A} (d : A) l i :
  0 <= i < llen l -> l !! Z.to_nat i = Some (lget d l i).
Proof.
  unfold llen, lget. intros.
  destruct (lookup_lt_is_Some_2 l (Z.to_nat i)) as [x Hx]; [lia|]. by rewrite Hx.
Qed.

Lemma lget_replicate {A} (d : A) n x i :
  0 <= i < Z.of_nat n -> lget d (replicate n x) i = x.
Proof. intros. unfold lget. rewrite lookup_replicate_2 by lia. done. Qed.

Lemma llen_nonneg {A} (l : list A) : 0 <= llen l.
Proof. unfold llen. lia. Qed.

Lemma lload_nat {A} (l : list A) n : lload l (Z.of_nat n) = l !! n.
Proof. unfold lload. destruct (Z.ltb_spec (Z.of_nat n) 0); [lia|]. by rewrite Nat2Z.id. Qed.

Lemma lload_app_r {A} (l1 l2 : list A) i : 0 <= i -> lload (l1 ++ l2) (llen l1 + i) = lload l2 i.
Proof.
  intros Hi. unfold llen. replace i with (Z.of_nat (Z.to_nat i)) by lia. rewrite <- Nat2Z.inj_add, !lload_nat.
  rewrite lookup_app_r by lia. f_equal. lia.
Qed.

Lemma lload_middle {A} (l1 l2 : list A) x : lload (l1 ++ x :: l2) (llen l1) = Some x.
Proof. unfold llen. rewrite lload_nat. apply list_lookup_middle. done. Qed.

Lemma lstore_middle {A} (l1 l2 : list A) x y : lstore (l1 ++ x :: l2) (llen l1) y = Some (l1 ++ y :: l2).
Proof.
  unfold lstore, llen, lset. rewrite length_app. cbn [length]. zbool; try lia.
  rewrite Nat2Z.id, insert_app_r_alt by lia. by rewrite Nat.sub_diag.
Qed.

Lemma llen_app {A} (l1 l2 : list A) : llen (l1 ++ l2) = llen l1 + llen l2.
Proof. unfold llen. rewrite length_app. lia. Qed.

Lemma llen_cons {A} (x : A) l : llen (x :: l) = 1 + llen l.
Proof. unfold llen. cbn [length]. lia. Qed.

(** [l] is what is read at [i]. *)
Definition reads {A} (m : list A) (i : Z) (l : list A) : Prop := 0 <= i /\ forall k c, l !! k = Some c -> lload m (i + Z.of_nat k) = Some c.

Lemma reads_cons {A} (m : list A) i c l : reads m i (c :: l) -> lload m i = Some c /\ reads m (i + 1) l.
Proof.
  intros [Hi H]. split; [rewrite <- (H 0%nat c eq_refl); f_equal; lia|]. split; [lia|]. intros k x Hk. rewrite <- (H (S k) x Hk). f_equal. lia.
Qed.

Lemma reads_store {A} (m : list A) i l d c : reads m i l -> 0 <= d -> (d < i \/ i + llen l <= d) -> reads (lset m d c) i l.
Proof.
  intros [Hi H] Hd Hout. split; [done|]. intros k x Hk. pose proof (lookup_lt_Some _ _ _ Hk). rewrite <- (H k x Hk). unfold lload, lset.
  destruct (Z.ltb_spec (i + Z.of_nat k) 0); [done|]. unfold llen in Hout. apply list_lookup_insert_ne. lia.
Qed.

Lemma lstore_in {A} (m : list A) d c : 0 <= d < llen m -> lstore m d c = Some (lset m d c).
Proof. intros Hd. unfold lstore. by zbool; try lia. Qed.

(** * Lemmas on integer ranges *)

Lemma zrange_S i n : zrange i (S n) = zrange i n ++ [i + Z.of_nat n].
Proof. unfold zrange. rewrite seq_S, fmap_app. done. Qed.

Lemma zrange_cons i n : zrange i (S n) = i :: zrange (i + 1) n.
Proof.
  unfold zrange. simpl. f_equal; [lia|].
  rewrite <- fmap_S_seq, <- list_fmap_compose. apply list_fmap_ext. intros ? k _. simpl. lia.
Qed.

Lemma elem_of_zrange i n j : j ∈ zrange i n <-> i <= j < i + Z.of_nat n.
Proof.
  unfold zrange. rewrite list_elem_of_fmap. split.
  - intros (k & -> & Hk%elem_of_seq). lia.
  - intros. exists (Z.to_nat (j - i)). split; [lia|]. apply elem_of_seq. lia.
Qed.

Lemma NoDup_zrange i n : NoDup (zrange i n).
Proof.
  unfold zrange. apply NoDup_fmap_2_strong; [|apply NoDup_seq]. intros. lia.
Qed.

Lemma zrange_app i n m : zrange i (n + m) = zrange i n ++ zrange (i + Z.of_nat n) m.
Proof.
  induction m as [|m IH]; [by rewrite Nat.add_0_r, app_nil_r|].
  rewrite Nat.add_succ_r, !zrange_S, IH, <- app_assoc. do 3 f_equal. lia.
Qed.

Lemma length_zrange i n : length (zrange i n) = n.
Proof. unfold zrange. by rewrite length_fmap, length_seq. Qed.

Lemma some_bind {A B} (f : A -> option B) (x : A) : (Some x ≫= f) = f x.
Proof. reflexivity. Qed.

(** * Lemmas on lists *)

Lemma filter_true {A} (P : A -> Prop) `{!forall x, Decision (P x)} (l : list A) :
  (forall x, x ∈ l -> P x) -> filter P l = l.
Proof.
  induction l as [|x l IH]; intros Hp; [done|].
  rewrite filter_cons_True by (apply Hp; by left). rewrite IH; [done|]. intros. apply Hp. by right.
Qed.

Lemma length_omap_le {A B} (f : A -> option B) (l : list A) : (length (omap f l) <= length l)%nat.
Proof. induction l as [|x l IH]; [done|]. csimpl. destruct (f x); csimpl; lia. Qed.

(** Replace every inner [u64 e] by [e] plus a multiple of 2^64. *)
Ltac drop_u64 :=
  repeat match goal with
  | |- context [u64 ?e] =>
      lazymatch e with context [u64 _] => fail | _ => idtac end;
      lazymatch goal with |- u64 e = _ => fail | |- _ = u64 e => fail | _ => idtac end;
      let k := fresh "k" in let E := fresh "E" in
      destruct (u64_split e) as [k E]; rewrite E in *; clear E
  end.

Create HintDb nano.
#[export] Hint Rewrite @llen_lset : nano.
#[export] Hint Resolve u32_range u64_range s64_range NoDup_zrange : nano.
