(* ===== verification/ZendTypes.v ===== *)
(** Values, strings and the string hash: [zval] type tags that the data
    structures inspect (Zend/zend_types.h), [zend_string] contents and the
    unrolled times-33 hash [zend_inline_hash_func] (Zend/zend_string.h). *)

From stdpp Require Import base numbers list gmap.
From S2P Require Import Prelude.

(** * zval *)

(** The containers distinguish only these tags; every other PHP value (longs,
    doubles, strings, arrays, objects, references) is an opaque payload of type
    [V].  [IS_INDIRECT] holds the address of another zval slot. *)
Inductive zval (V : Type) : Type :=
| IS_UNDEF
| IS_NULL
| IS_INDIRECT (slot : Z)
| IS_VALUE (v : V).
Arguments IS_UNDEF {V}.
Arguments IS_NULL {V}.
Arguments IS_INDIRECT {V} slot.
Arguments IS_VALUE {V} v.

Definition Z_ISUNDEF {V} (z : zval V) : bool :=
  match z with IS_UNDEF => true | _ => false end.

(** * zend_string *)

Record zend_string := mk_zend_string { zs_val : list Z; zs_interned : bool }.

(** [char] is signed on x86-64: byte values 128..255 enter the hash negative. *)
Definition schar (c : Z) : Z := if c <? 128 then c else c - 256.

(** One step of the tail: [len <= 3] characters. *)
Definition hash_tail (hash : Z) (s : list Z) : Z :=
  match s with
  | [] => hash
  | [a] => u64 (hash * 33 + schar a)
  | [a; b] => u64 (hash * (33 * 33) + schar a * 33 + schar b)
  | a :: b :: c :: _ =>
      u64 (hash * (33 * 33 * 33) + schar a * (33 * 33) + schar b * 33 + schar c)
  end.

Definition hash_4 (hash a b c d : Z) : Z :=
  u64 (hash * (33 * 33 * 33 * 33) + schar a * (33 * 33 * 33)
       + schar b * (33 * 33) + schar c * 33 + schar d).

(** The loop over 8-byte blocks, then the block of 4, then the tail. *)
Fixpoint hash_blocks (hash : Z) (s : list Z) : Z :=
  match s with
  | a :: b :: c :: d :: e :: f :: g :: h :: rest =>
      hash_blocks (hash_4 (hash_4 hash a b c d) e f g h) rest
  | a :: b :: c :: d :: rest => hash_tail (hash_4 hash a b c d) rest
  | _ => hash_tail hash s
  end.

Definition zend_inline_hash_func (s : list Z) : Z :=
  Z.lor (hash_blocks 5381 s) (2 ^ 63).

(** Reference definition: Bernstein's hash, one character at a time. *)
Definition djb_step (hash c : Z) : Z := u64 (hash * 33 + schar c).
Definition djb_hash (s : list Z) : Z := foldl djb_step 5381 s.

(** * Properties of the hash *)

Lemma djb_step_congr h h' c : u64 h = u64 h' -> djb_step h c = djb_step h' c.
Proof.
  unfold djb_step. intros E.
  destruct (u64_split h) as [k Ek], (u64_split h') as [k' Ek'].
  apply (u64_congr _ _ (33 * (k' - k))). lia.
Qed.

Lemma hash_4_djb hash a b c d :
  hash_4 hash a b c d = foldl djb_step hash [a; b; c; d].
Proof.
  unfold hash_4; simpl; unfold djb_step.
  generalize (schar a) (schar b) (schar c) (schar d). intros a' b' c' d'.
  drop_u64.
  apply (u64_congr _ _ (- 33 * (k1 + 33 * (k0 + 33 * k)))). lia.
Qed.

Lemma hash_tail_djb hash s :
  (length s <= 3)%nat -> hash_tail hash s = foldl djb_step hash s.
Proof.
  intros Hl. destruct s as [|a [|b [|c [|d s]]]]; simpl in *; try lia; try done;
    unfold djb_step; repeat match goal with |- context [schar ?x] => generalize (schar x); intros end;
    drop_u64.
  - apply (u64_congr _ _ (- 33 * k)). lia.
  - apply (u64_congr _ _ (- 33 * (k0 + 33 * k))). lia.
Qed.

Lemma hash_blocks_djb n : forall s hash,
  (length s < n)%nat -> hash_blocks hash s = foldl djb_step hash s.
Proof.
  induction n as [|n IH]; intros s hash Hn; [lia|].
  destruct s as [|a [|b [|c [|d [|e [|f [|g [|h s]]]]]]]];
    try (apply hash_tail_djb; simpl; lia).
  1-4: match goal with |- hash_blocks _ (?a :: ?b :: ?c :: ?d :: ?r) = _ =>
         change (hash_tail (hash_4 hash a b c d) r = foldl djb_step hash ([a; b; c; d] ++ r))
       end; rewrite foldl_app, <- hash_4_djb; apply hash_tail_djb; simpl; lia.
  change (hash_blocks (hash_4 (hash_4 hash a b c d) e f g h) s
          = foldl djb_step hash ([a; b; c; d] ++ [e; f; g; h] ++ s)).
  rewrite !foldl_app, <- !hash_4_djb. apply IH. simpl in Hn. lia.
Qed.

Lemma djb_range s : forall hash, 0 <= hash < 2 ^ 64 -> 0 <= foldl djb_step hash s < 2 ^ 64.
Proof.
  induction s as [|c s IH]; intros hash Hh; simpl; [done|]. apply IH, u64_range.
Qed.

Lemma hash_func_range s : 2 ^ 63 <= zend_inline_hash_func s < 2 ^ 64.
Proof.
  unfold zend_inline_hash_func. rewrite (hash_blocks_djb (S (length s))) by lia.
  pose proof (djb_range s 5381) as Hr. set (x := foldl _ _ _) in *.
  assert (0 <= x < 2 ^ 64) as Hx by (apply Hr; lia). clearbody x. clear Hr.
  assert (0 <= Z.lor x (2 ^ 63)) by (apply Z.lor_nonneg; lia). split.
  - destruct (Z.le_gt_cases (2 ^ 63) (Z.lor x (2 ^ 63))) as [|Hlt]; [done|exfalso].
    assert (Z.testbit (Z.lor x (2 ^ 63)) 63 = true) as Hb.
    { rewrite Z.lor_spec. rewrite (Z.pow2_bits_true 63) by lia. by rewrite orb_true_r. }
    rewrite Z.testbit_eqb, Z.div_small in Hb by lia. done.
  - destruct (Z.eq_dec (Z.lor x (2 ^ 63)) 0) as [->|]; [lia|].
    apply Z.log2_lt_pow2; [lia|]. rewrite Z.log2_lor by lia.
    apply Z.max_lub_lt; [|rewrite Z.log2_pow2; lia].
    destruct (Z.eq_dec x 0) as [->|]; [simpl; lia|]. apply Z.log2_lt_pow2; lia.
Qed.

(** the unrolled, block-wise hash of the runtime equals Bernstein's
    times-33 hash taken one signed character at a time, with the top bit set;
    in particular it is a 64-bit value that is never zero. *)
Theorem zend_inline_hash_func_djb (s : list Z) :
  zend_inline_hash_func s = Z.lor (djb_hash s) (2 ^ 63) /\
  2 ^ 63 <= zend_inline_hash_func s < 2 ^ 64.
Proof.
  split; [|apply hash_func_range].
  unfold zend_inline_hash_func, djb_hash. by rewrite (hash_blocks_djb (S (length s))) by lia.
Qed.
