(* ===== verification/NumericStr.v ===== *)
(** Integer-like strings: [_zend_handle_numeric_str] (Zend/zend_hash.h,
    Zend/zend_hash.c), which turns the canonical decimal strings of integers
    into integer keys, and [zend_long_to_str] (Zend/zend_operators.[ch]),
    which prints them. *)

From stdpp Require Import base numbers list.
From S2P Require Import Prelude ZendTypes.

(** * Printing *)

(** [do { *--buf = num % 10 + '0'; num /= 10; } while (num > 0)]: characters
    are written before [buf].  A 64-bit number has at most 20 digits. *)
Fixpoint print_ulong_loop (n : nat) (buf : list Z) (num : Z) : list Z :=
  match n with
  | O => buf
  | S n =>
      let buf := (num mod 10 + 48) :: buf in
      let num := num / 10 in
      if 0 <? num then print_ulong_loop n buf num else buf
  end.

Definition zend_print_ulong_to_buf (num : Z) : list Z := print_ulong_loop 20 [] num.

Definition zend_print_long_to_buf (num : Z) : list Z :=
  if num <? 0 then 45 :: zend_print_ulong_to_buf (u64 (Z.lnot (u64 num) + 1))
  else zend_print_ulong_to_buf num.

(** The characters of the string. *)
Definition zend_long_to_str (num : Z) : list Z :=
  if u64 num <=? 9 then [48 + num] else zend_print_long_to_buf num.

(** * Recognition *)

Definition MAX_LENGTH_OF_LONG : Z := 20.

(** [*tmp] at offset [i]; the string is followed by a NUL. *)
Definition char_at (key : list Z) (i : Z) : Z := schar (lget 0 key i).

(** The loop [while (1) { ++tmp; ... }]. *)
Fixpoint numeric_loop (n : nat) (key : list Z) (tmp idx : Z) : option Z :=
  match n with
  | O => None
  | S n =>
      let tmp := tmp + 1 in
      if tmp =? llen key then
        if char_at key 0 =? 45 then
          if ZEND_LONG_MAX <? u64 (idx - 1) then None else Some (u64 (0 - idx))
        else if ZEND_LONG_MAX <? idx then None else Some idx
      else
        let c := char_at key tmp in
        if (c <=? 57) && (48 <=? c) then numeric_loop n key tmp (u64 (idx * 10 + (c - 48))) else None
  end.

Definition zend_handle_numeric_str_ex (key : list Z) : option Z :=
  let length := llen key in
  let tmp := if char_at key 0 =? 45 then 1 else 0 in
  if ((char_at key tmp =? 48) && (1 <? length)) || (MAX_LENGTH_OF_LONG - 1 <? length - tmp) then None
  else numeric_loop (Z.to_nat length) key tmp (u64 (char_at key tmp - 48)).

Definition zend_handle_numeric_str (key : list Z) : option Z :=
  let c := char_at key 0 in
  if 57 <? c then None
  else if c <? 48 then
    if negb (c =? 45) then None
    else
      let c := char_at key 1 in
      if (57 <? c) || (c <? 48) then None else zend_handle_numeric_str_ex key
  else zend_handle_numeric_str_ex key.

(** * Decimal notation *)

Definition is_digit (c : Z) : Prop := 48 <= c <= 57.

(** Value of a string of digits, most significant first. *)
Definition dec_val (acc : Z) (l : list Z) : Z := foldl (fun a c => a * 10 + (c - 48)) acc l.

(** No leading zero but in "0" itself. *)
Definition canonical (l : list Z) : Prop :=
  Forall is_digit l /\ l <> [] /\ (head l = Some 48 -> l = [48]).

Lemma dec_val_snoc a l c : dec_val a (l ++ [c]) = dec_val a l * 10 + (c - 48).
Proof. unfold dec_val. by rewrite foldl_snoc. Qed.

Lemma dec_val_bounds l : forall a, 0 <= a -> Forall is_digit l ->
  a * 10 ^ llen l <= dec_val a l < (a + 1) * 10 ^ llen l.
Proof.
  induction l as [|c l IH]; intros a Ha Hl; cbn [dec_val foldl].
  - change (llen (@nil Z)) with 0. lia.
  - apply Forall_cons in Hl as [Hc Hl]. unfold is_digit in Hc.
    specialize (IH (a * 10 + (c - 48)) ltac:(lia) Hl). unfold dec_val in *.
    replace (llen (c :: l)) with (Z.succ (llen l)) by (unfold llen; cbn; lia).
    rewrite Z.pow_succ_r by apply llen_nonneg. nia.
Qed.

Lemma canonical_pos l : canonical l -> l <> [48] -> 0 < dec_val 0 l.
Proof.
  intros (Hd & Hn & Hh) Hne. destruct l as [|c l]; [done|].
  apply Forall_cons in Hd as [Hc Hd]. unfold is_digit in Hc. cbn [dec_val foldl].
  assert (c <> 48) by (intros ->; auto).
  pose proof (dec_val_bounds l (c - 48) ltac:(lia) Hd) as Hb. unfold dec_val in Hb.
  replace (0 * 10 + (c - 48)) with (c - 48) by lia.
  pose proof (Z.pow_pos_nonneg 10 (llen l) ltac:(lia) (llen_nonneg l)). nia.
Qed.

Lemma canonical_snoc_inv l c : l <> [] -> canonical (l ++ [c]) -> canonical l /\ l <> [48] /\ is_digit c.
Proof.
  intros Hn (Hd & _ & Hh). apply Forall_app in Hd as [Hd Hc]. rewrite Forall_singleton in Hc.
  destruct l as [|x l]; [done|]. cbn in Hh. split; [|split; [|done]].
  - split; [done|]. split; [done|]. intros [= ->]. specialize (Hh eq_refl).
    injection Hh as Hh. by destruct l.
  - intros [= -> ->]. by specialize (Hh eq_refl).
Qed.

(** Printing the value of a canonical notation gives it back. *)
Lemma print_loop_dec_val l : forall n buf, canonical l -> (length l <= n)%nat ->
  print_ulong_loop n buf (dec_val 0 l) = l ++ buf.
Proof.
  induction l as [|c l IH] using rev_ind; intros n buf Hc Hn; [by destruct Hc as (_ & ? & _)|].
  rewrite length_app in Hn. cbn in Hn. destruct n as [|n]; [lia|]. cbn [print_ulong_loop].
  rewrite dec_val_snoc. destruct (decide (l = [])) as [->|Hne].
  - destruct Hc as (Hd & _ & _). cbn in Hd. rewrite Forall_singleton in Hd. unfold is_digit in Hd.
    cbn [dec_val foldl app]. replace (0 * 10 + (c - 48)) with (c - 48) by lia.
    rewrite Z.mod_small, Z.div_small by lia. cbn. by replace (c - 48 + 48) with c by lia.
  - destruct (canonical_snoc_inv l c Hne Hc) as (Hcl & H48 & Hd). unfold is_digit in Hd.
    pose proof (canonical_pos l Hcl H48) as Hpos.
    replace ((dec_val 0 l * 10 + (c - 48)) mod 10) with (c - 48) by zlia.
    replace ((dec_val 0 l * 10 + (c - 48)) / 10) with (dec_val 0 l) by zlia.
    rewrite (proj2 (Z.ltb_lt _ _)) by done. rewrite IH by (done || lia).
    rewrite <- app_assoc. cbn. by replace (c - 48 + 48) with c by lia.
Qed.

(** What is printed is canonical, and has the value printed. *)
Lemma print_loop_spec n : forall buf num, 0 <= num < 10 ^ Z.of_nat n -> (0 < n)%nat ->
  exists l, print_ulong_loop n buf num = l ++ buf /\ canonical l /\ dec_val 0 l = num /\ (length l <= n)%nat.
Proof.
  induction n as [|n IH]; intros buf num Hnum Hn; [lia|]. cbn [print_ulong_loop].
  rewrite Nat2Z.inj_succ, Z.pow_succ_r in Hnum by lia.
  destruct (Z.ltb_spec 0 (num / 10)) as [Hpos|Hz].
  - assert (0 < n)%nat as Hn'. { destruct n; [|lia]. change (10 ^ Z.of_nat 0) with 1 in Hnum. zlia. }
    destruct (IH ((num mod 10 + 48) :: buf) (num / 10)) as (l & -> & Hc & Hv & Hl); [zlia|done|].
    exists (l ++ [num mod 10 + 48]). split; [by rewrite <- app_assoc|].
    rewrite dec_val_snoc, Hv, length_app. cbn [length]. split; [|split; [zlia|lia]].
    destruct Hc as (Hd & Hne & Hh). split; [apply Forall_app; split; [done|apply Forall_singleton; unfold is_digit; zlia]|].
    split; [by destruct l|]. destruct l as [|x l]; [done|]. cbn. intros [= ->].
    specialize (Hh eq_refl). injection Hh as ->. cbn in Hv. lia.
  - exists [num mod 10 + 48]. split; [done|]. cbn. split; [|split; [zlia|lia]].
    split; [apply Forall_singleton; unfold is_digit; zlia|]. split; [done|]. by intros [= ->].
Qed.

(** The decimal notation of a natural number below 2^64 is unique. *)
Lemma print_ulong_unique l num : 0 <= num < 2 ^ 64 -> canonical l -> dec_val 0 l = num -> (length l <= 20)%nat ->
  zend_print_ulong_to_buf num = l.
Proof.
  intros Hn Hc <- Hl. unfold zend_print_ulong_to_buf. rewrite print_loop_dec_val by done. apply app_nil_r.
Qed.

Lemma print_ulong_ok num : 0 <= num < 2 ^ 64 ->
  canonical (zend_print_ulong_to_buf num) /\ dec_val 0 (zend_print_ulong_to_buf num) = num /\
  (length (zend_print_ulong_to_buf num) <= 20)%nat.
Proof.
  intros Hn. destruct (print_loop_spec 20 [] num) as (l & Heq & Hc & Hv & Hl); [lia|lia|].
  unfold zend_print_ulong_to_buf. by rewrite Heq, app_nil_r.
Qed.

(** * Correctness of the recognition *)

Definition byte_str (l : list Z) : Prop := Forall (fun c => 0 <= c < 256) l.

Lemma schar_digit c : 0 <= c < 256 -> (48 <= schar c <= 57 <-> is_digit c) /\ (is_digit c -> schar c = c).
Proof. intros Hc. unfold schar, is_digit. destruct (Z.ltb_spec c 128); split; lia. Qed.

Lemma char_at_app l1 c l2 : char_at (l1 ++ c :: l2) (llen l1) = schar c.
Proof.
  unfold char_at. f_equal. unfold lget, llen. rewrite Nat2Z.id. by rewrite list_lookup_middle.
Qed.

(** The acceptance test at the end of the loop. *)
Definition numeric_final (neg : bool) (idx : Z) : option Z :=
  if neg then if ZEND_LONG_MAX <? u64 (idx - 1) then None else Some (u64 (0 - idx))
  else if ZEND_LONG_MAX <? idx then None else Some idx.

Lemma numeric_loop_spec rest : forall n pre idx, byte_str rest -> (length rest < n)%nat ->
  0 <= idx -> (idx + 1) * 10 ^ llen rest <= 2 ^ 64 ->
  let key := pre ++ rest in
  (Forall is_digit rest -> numeric_loop n key (llen pre - 1) idx =
     numeric_final (char_at key 0 =? 45) (dec_val idx rest)) /\
  (~ Forall is_digit rest -> numeric_loop n key (llen pre - 1) idx = None).
Proof.
  induction rest as [|c rest IH]; intros n pre idx Hb Hn Hi Hmax; cbn zeta;
    (destruct n as [|n]; [cbn in Hn; lia|]); cbn [numeric_loop];
    replace (llen pre - 1 + 1) with (llen pre) by lia.
  - rewrite app_nil_r, Z.eqb_refl. split; [done|]. intros H. by destruct H.
  - apply Forall_cons in Hb as [Hc Hb]. destruct (schar_digit c Hc) as [Hd Hs].
    destruct (Z.eqb_spec (llen pre) (llen (pre ++ c :: rest))) as [He|_].
    { unfold llen in He. rewrite length_app in He. cbn in He. lia. }
    rewrite char_at_app. replace (llen (c :: rest)) with (Z.succ (llen rest)) in Hmax by (unfold llen; cbn; lia).
    rewrite Z.pow_succ_r in Hmax by apply llen_nonneg.
    pose proof (Z.pow_pos_nonneg 10 (llen rest) ltac:(lia) (llen_nonneg rest)) as Hp.
    destruct (Z.leb_spec (schar c) 57), (Z.leb_spec 48 (schar c)); cbn [andb];
      try (split; [intros [Hdc _]%Forall_cons; apply Hd in Hdc; lia|done]).
    assert (is_digit c) as Hdc by (by apply Hd). rewrite (Hs Hdc). unfold is_digit in Hdc.
    rewrite u64_small by nia.
    specialize (IH n (pre ++ [c]) (idx * 10 + (c - 48)) Hb). cbn zeta in IH.
    rewrite <- app_assoc in IH. cbn [app] in IH.
    replace (llen (pre ++ [c]) - 1) with (llen pre) in IH by (unfold llen; rewrite length_app; cbn; lia).
    destruct IH as [IH1 IH2]; [cbn in Hn; lia|lia|nia|].
    split; [intros [_ Hr]%Forall_cons; by apply IH1|].
    intros Hnd. apply IH2. intros Hr. apply Hnd. by apply Forall_cons.
Qed.

(** The digits after an optional minus sign. *)
Lemma numeric_ex_spec pre l : byte_str l -> (pre = [] \/ pre = [45]) ->
  (pre = [] -> head l <> Some 45) -> (exists c l', l = c :: l' /\ is_digit c) ->
  zend_handle_numeric_str_ex (pre ++ l) =
  if decide (canonical l /\ (length l <= 19)%nat /\ ~ (pre = [45] /\ l = [48]))
  then numeric_final (if decide (pre = [45]) then true else false) (dec_val 0 l) else None.
Proof.
  intros Hb Hpre Hhd (c & l' & -> & Hd). apply Forall_cons in Hb as [Hc Hb].
  destruct (schar_digit c Hc) as [_ Hs]. specialize (Hs Hd). pose proof Hd as Hd'. unfold is_digit in Hd'.
  unfold zend_handle_numeric_str_ex.
  assert (char_at (pre ++ c :: l') 0 =? 45 = if decide (pre = [45]) then true else false) as Hneg.
  { destruct Hpre as [-> | ->]; cbn [app]; [|done]. rewrite decide_False by done.
    change (char_at (c :: l') 0) with (schar c). rewrite Hs. apply Z.eqb_neq. lia. }
  rewrite Hneg. assert ((if (if decide (pre = [45]) then true else false) then 1 else 0) = llen pre) as ->
    by (destruct Hpre as [-> | ->]; done).
  rewrite char_at_app, Hs, (u64_small (c - 48)) by lia.
  replace (llen (pre ++ c :: l') - llen pre) with (llen (c :: l')) by (unfold llen; rewrite length_app; lia).
  unfold MAX_LENGTH_OF_LONG. destruct (decide (length (c :: l') <= 19)%nat) as [Hlen|Hlen].
  2:{ rewrite decide_False by tauto. rewrite (proj2 (Z.ltb_lt (20 - 1) _)) by (unfold llen; lia).
      by rewrite orb_true_r. }
  rewrite (proj2 (Z.ltb_ge (20 - 1) _)), orb_false_r by (unfold llen; lia).
  pose proof (numeric_loop_spec l' (Z.to_nat (llen (pre ++ c :: l'))) (pre ++ [c]) (c - 48) Hb) as Hloop.
  cbn zeta in Hloop. rewrite <- app_assoc in Hloop. cbn [app] in Hloop.
  replace (llen (pre ++ [c]) - 1) with (llen pre) in Hloop by (unfold llen; rewrite length_app; cbn; lia).
  rewrite Hneg in Hloop.
  assert ((c - 48 + 1) * 10 ^ llen l' <= 2 ^ 64) as Hmax.
  { assert (10 ^ llen l' <= 10 ^ 18). { apply Z.pow_le_mono_r; [lia|]. cbn in Hlen. unfold llen. lia. }
    pose proof (Z.pow_pos_nonneg 10 (llen l') ltac:(lia) (llen_nonneg l')).
    transitivity (10 * 10 ^ 18); [|lia]. apply Z.mul_le_mono_nonneg; lia. }
  destruct Hloop as [H1 H2]; [unfold llen; rewrite length_app; cbn; lia|lia|done|].
  assert (dec_val (c - 48) l' = dec_val 0 (c :: l')) as Hv by (cbn; done).
  destruct (Z.eqb_spec c 48) as [->|Hz]; cbn [andb].
  - destruct (Z.ltb_spec 1 (llen (pre ++ 48 :: l'))) as [Hl|Hl].
    + rewrite decide_False; [done|]. intros ((_ & _ & Hcan) & _ & Hn). specialize (Hcan eq_refl).
      injection Hcan as ->. destruct Hpre as [-> | ->]; [|by apply Hn].
      unfold llen in Hl. cbn in Hl. lia.
    + destruct Hpre as [-> | ->], l' as [|? ?]; unfold llen in Hl; cbn in Hl; try lia.
      rewrite decide_True; [by apply H1|]. split; [|by split; [|intros [? _]]].
      split; [by apply Forall_singleton|done].
  - destruct (decide (Forall is_digit l')) as [Hall|Hnall].
    + rewrite H1, Hv by done.
      assert (canonical (c :: l') /\ (length (c :: l') <= 19)%nat /\ ~ (pre = [45] /\ c :: l' = [48])) as Hx;
        [|by rewrite (decide_True _ _ Hx)].
      split; [|split; [done|]].
      * split; [by apply Forall_cons|]. split; [done|]. intros [= ->]. lia.
      * intros [_ [= ]]. lia.
    + rewrite H2 by done. rewrite decide_False; [done|]. intros ((Hall%Forall_cons & _) & _). tauto.
Qed.

(** ** The theorem *)

Lemma canonical_19 l : canonical l -> dec_val 0 l <= 2 ^ 63 -> (length l <= 19)%nat.
Proof.
  intros Hc Hv. destruct (decide (l = [48])) as [->|Hne]; [cbn; lia|].
  destruct (Nat.le_gt_cases (length l) 19) as [|Hgt]; [done|]. exfalso.
  destruct Hc as (Hd & Hn & Hh). destruct l as [|c l]; [done|].
  apply Forall_cons in Hd as [Hc Hd]. unfold is_digit in Hc.
  assert (c <> 48) by (intros ->; auto). cbn [dec_val foldl] in Hv.
  pose proof (dec_val_bounds l (0 * 10 + (c - 48)) ltac:(lia) Hd) as Hb. unfold dec_val in Hb.
  assert (10 ^ 19 <= 10 ^ llen l) by (apply Z.pow_le_mono_r; [lia|]; cbn in Hgt; unfold llen; lia).
  assert (1 * 10 ^ 19 <= (0 * 10 + (c - 48)) * 10 ^ llen l) by (apply Z.mul_le_mono_nonneg; lia). lia.
Qed.

(** [zend_long_to_str] prints a sign and canonical digits. *)
Lemma long_to_str_spec n : ZEND_LONG_MIN <= n <= ZEND_LONG_MAX -> exists l,
  zend_long_to_str n = (if n <? 0 then [45] else []) ++ l /\ canonical l /\ dec_val 0 l = Z.abs n.
Proof.
  unfold ZEND_LONG_MIN, ZEND_LONG_MAX. intros Hn. unfold zend_long_to_str, zend_print_long_to_buf.
  destruct (Z.ltb_spec n 0) as [Hneg|Hpos].
  - rewrite (proj2 (Z.leb_gt _ _)) by (unfold u64; zlia).
    assert (u64 (Z.lnot (u64 n) + 1) = - n) as ->.
    { unfold Z.lnot. replace (Z.pred (- u64 n) + 1) with (- u64 n) by lia. unfold u64. zlia. }
    destruct (print_ulong_ok (- n)) as (Hc & Hv & _); [lia|].
    eexists. split; [done|]. split; [done|]. rewrite Hv. lia.
  - rewrite (u64_small n) by lia. destruct (Z.leb_spec n 9).
    + exists [48 + n]. split; [done|]. split; [|cbn; lia]. split; [|split; [done|]].
      * apply Forall_singleton. unfold is_digit. lia.
      * by intros [= ->].
    + destruct (print_ulong_ok n) as (Hc & Hv & _); [lia|]. exists (zend_print_ulong_to_buf n).
      split; [done|]. split; [done|]. rewrite Hv. lia.
Qed.

Lemma canonical_unique l1 l2 : canonical l1 -> canonical l2 -> dec_val 0 l1 = dec_val 0 l2 -> l1 = l2.
Proof.
  intros H1 H2 He. pose proof (print_loop_dec_val l1 (length l1 + length l2) [] H1 ltac:(lia)) as P1.
  pose proof (print_loop_dec_val l2 (length l1 + length l2) [] H2 ltac:(lia)) as P2.
  rewrite app_nil_r in P1, P2. congruence.
Qed.

Lemma canonical_byte l : canonical l -> byte_str l.
Proof. intros (Hd & _). eapply Forall_impl; [done|]. unfold is_digit. intros c Hc. cbn in Hc. lia. Qed.

(** The wrapper only looks at the first characters. *)
Lemma handle_numeric_split key idx : byte_str key -> zend_handle_numeric_str key = Some idx ->
  exists pre l, key = pre ++ l /\ (pre = [] \/ pre = [45]) /\ (pre = [] -> head l <> Some 45) /\
    (exists c l', l = c :: l' /\ is_digit c) /\ zend_handle_numeric_str_ex key = Some idx.
Proof.
  intros Hb. unfold zend_handle_numeric_str. destruct key as [|c key]; [done|].
  apply Forall_cons in Hb as [Hc Hb]. destruct (schar_digit c Hc) as [Hd Hs].
  change (char_at (c :: key) 0) with (schar c).
  destruct (Z.ltb_spec 57 (schar c)); [done|]. destruct (Z.ltb_spec (schar c) 48) as [Hlt|Hge].
  - destruct (Z.eqb_spec (schar c) 45) as [He|]; cbn [negb]; [|done].
    assert (c = 45) as -> by (unfold schar in He; destruct (Z.ltb_spec c 128); lia).
    destruct key as [|c2 key]; [done|]. apply Forall_cons in Hb as [Hc2 Hb].
    destruct (schar_digit c2 Hc2) as [Hd2 _]. change (char_at (45 :: c2 :: key) 1) with (schar c2).
    destruct (Z.ltb_spec 57 (schar c2)); [done|]. destruct (Z.ltb_spec (schar c2) 48); [done|]. cbn [orb].
    intros Hex. exists [45], (c2 :: key). split; [done|]. split; [by right|]. split; [done|].
    split; [|done]. exists c2, key. split; [done|]. apply Hd2. lia.
  - intros Hex. assert (is_digit c) as Hdc by (apply Hd; lia). exists [], (c :: key). split; [done|].
    split; [by left|]. split; [|split; [by exists c, key|done]]. intros _ [= ->]. unfold is_digit in Hdc. lia.
Qed.

(** C16: a string is taken as an integer key exactly when it is the decimal
    representation that PHP prints for an integer of the platform, and the key
    is that integer: no leading zeros or plus sign, no "-0", nothing out of
    range, up to and including ZEND_LONG_MIN and ZEND_LONG_MAX. *)
Theorem zend_handle_numeric_str_correct key idx : byte_str key ->
  zend_handle_numeric_str key = Some idx <->
  exists n, ZEND_LONG_MIN <= n <= ZEND_LONG_MAX /\ key = zend_long_to_str n /\ idx = u64 n.
Proof.
  intros Hb. split.
  - intros Hex. destruct (handle_numeric_split key idx Hb Hex) as (pre & l & -> & Hpre & Hhd & Hd & Hex').
    apply Forall_app in Hb as [_ Hb]. rewrite numeric_ex_spec in Hex' by done.
    destruct (decide _) as [(Hc & Hlen & Hz)|]; [|done]. unfold numeric_final in Hex'.
    pose proof (dec_val_bounds l 0 ltac:(lia) (proj1 Hc)) as Hv0.
    assert (dec_val 0 l < 10 ^ 19) as Hv.
    { eapply Z.lt_le_trans; [apply Hv0|]. rewrite Z.add_0_l, Z.mul_1_l. apply Z.pow_le_mono_r; [lia|unfold llen; lia]. }
    change (10 ^ 19) with 10000000000000000000 in Hv.
    destruct Hpre as [-> | ->].
    + rewrite decide_False in Hex' by done. destruct (Z.ltb_spec ZEND_LONG_MAX (dec_val 0 l)); [done|].
      injection Hex' as <-. exists (dec_val 0 l). unfold ZEND_LONG_MIN, ZEND_LONG_MAX in *.
      split; [lia|]. rewrite u64_small by lia. split; [|done].
      destruct (long_to_str_spec (dec_val 0 l)) as (l' & -> & Hc' & Hv'); [unfold ZEND_LONG_MIN, ZEND_LONG_MAX; lia|].
      rewrite (proj2 (Z.ltb_ge _ _)) by lia. cbn [app]. apply canonical_unique; [exact Hc|exact Hc'|]. lia.
    + rewrite decide_True in Hex' by done. assert (0 < dec_val 0 l) as Hpos by (apply canonical_pos; [exact Hc|]; intros ->; apply Hz; split; reflexivity).
      rewrite (u64_small (dec_val 0 l - 1)) in Hex' by lia.
      destruct (Z.ltb_spec ZEND_LONG_MAX (dec_val 0 l - 1)); [done|]. unfold ZEND_LONG_MAX in *.
      injection Hex' as <-. exists (- dec_val 0 l). split; [unfold ZEND_LONG_MIN; lia|]. split; [|f_equal; lia].
      destruct (long_to_str_spec (- dec_val 0 l)) as (l' & -> & Hc' & Hv'); [unfold ZEND_LONG_MIN, ZEND_LONG_MAX; lia|].
      rewrite (proj2 (Z.ltb_lt _ _)) by lia. f_equal. apply canonical_unique; [exact Hc|exact Hc'|]. lia.
  - intros (n & Hn & -> & ->). destruct (long_to_str_spec n Hn) as (l & Heq & Hc & Hv). rewrite Heq in *.
    unfold ZEND_LONG_MIN, ZEND_LONG_MAX in Hn.
    pose proof (canonical_19 l Hc ltac:(lia)) as Hlen. pose proof Hc as (Hd & Hne & _).
    destruct l as [|c l]; [done|]. apply Forall_cons in Hd as [Hdc Hd].
    assert (zend_handle_numeric_str ((if n <? 0 then [45] else []) ++ c :: l) =
      zend_handle_numeric_str_ex ((if n <? 0 then [45] else []) ++ c :: l)) as ->.
    { unfold zend_handle_numeric_str. pose proof Hdc as Hdr. unfold is_digit in Hdr.
      destruct (schar_digit c ltac:(lia)) as [_ Hs]. specialize (Hs Hdc). destruct (n <? 0); cbn [app].
      - change (char_at (45 :: c :: l) 0) with 45. change (char_at (45 :: c :: l) 1) with (schar c). rewrite Hs.
        rewrite (proj2 (Z.ltb_ge 57 c)), (proj2 (Z.ltb_ge c 48)) by lia. done.
      - change (char_at (c :: l) 0) with (schar c). rewrite Hs.
        by rewrite (proj2 (Z.ltb_ge 57 c)), (proj2 (Z.ltb_ge c 48)) by lia. }
    rewrite numeric_ex_spec; [|by apply canonical_byte|by destruct (n <? 0); auto| |by exists c, l].
    2:{ intros _ [= ->]. unfold is_digit in Hdc. lia. }
    destruct (Z.ltb_spec n 0) as [Hneg|Hpos].
    + rewrite decide_True; [|split; [done|]; split; [done|]; intros [_ [= -> ->]]; cbn in Hv; lia].
      rewrite decide_True by done. unfold numeric_final, ZEND_LONG_MAX. rewrite Hv.
      rewrite (u64_small (Z.abs n - 1)) by lia. rewrite (proj2 (Z.ltb_ge _ _)) by lia. do 2 f_equal. lia.
    + rewrite decide_True by (split; [done|]; split; [done|]; by intros [? _]).
      rewrite decide_False by done. unfold numeric_final, ZEND_LONG_MAX. rewrite Hv.
      rewrite (proj2 (Z.ltb_ge _ _)) by lia. rewrite u64_small by lia. f_equal. lia.
Qed.
