(* ===== verification/HashTable.v ===== *)
(** The Zend hash table (Zend/zend_hash.c, Zend/zend_hash.h and the layout
    macros of Zend/zend_types.h): data layout, initialisation, lookup,
    insertion, deletion, growth, compaction and the conversions between the
    packed (vector) and mixed (hash) representations.

    Configuration modelled: 64-bit ([SIZEOF_SIZE_T == 8]), release build
    ([ZEND_DEBUG == 0]).  A call that ends in [zend_error_noreturn] yields
    [None].  Freshly allocated memory has arbitrary contents ([junk]). *)

From stdpp Require Import base numbers list gmap.
From S2P Require Import Prelude ZendTypes.

(** * Data *)

(** A bucket: the value, its [u2.next] word (also used as [u2.extra]), the
    hash or integer key, and the string key ([None] for a NULL [key]).
    Strings are referred to by address. *)
Record Bucket (V : Type) := mk_Bucket {
  b_val : zval V;
  b_next : Z;
  b_h : Z;
  b_key : option Z
}.
Arguments mk_Bucket {V}.
Arguments b_val {V}.
Arguments b_next {V}.
Arguments b_h {V}.
Arguments b_key {V}.

Definition set_b_val {V} (x : zval V) (b : Bucket V) := mk_Bucket x (b_next b) (b_h b) (b_key b).
Definition set_b_next {V} (x : Z) (b : Bucket V) := mk_Bucket (b_val b) x (b_h b) (b_key b).
Definition set_b_h {V} (x : Z) (b : Bucket V) := mk_Bucket (b_val b) (b_next b) x (b_key b).
Definition set_b_key {V} (x : option Z) (b : Bucket V) := mk_Bucket (b_val b) (b_next b) (b_h b) x.

(** What the surrounding process provides: the contents of fresh memory and
    the (immutable) contents of the string at an address. *)
Class ZEnv (V : Type) := {
  junk : nat -> Bucket V;
  ZSTR : Z -> zend_string
}.

(** [struct _zend_array].  [ht_id] is the address of the table; the flag byte
    is split into its bits; [nIteratorsCount] is the byte [u.v.nIteratorsCount].
    Of the union [arHash]/[arData]/[arPacked], [arHash] is the index area
    below the pointer and [arData] or [arPacked] (by [fl_PACKED]) the area
    above it. *)
Record HashTable (V : Type) := mk_HashTable {
  ht_id : Z;
  fl_PACKED : bool;
  fl_UNINITIALIZED : bool;
  fl_STATIC_KEYS : bool;
  fl_HAS_EMPTY_IND : bool;
  nIteratorsCount : Z;
  nTableMask : Z;
  arHash : list Z;
  arData : list (Bucket V);
  arPacked : list (zval V);
  nNumUsed : Z;
  nNumOfElements : Z;
  nTableSize : Z;
  nInternalPointer : Z;
  nNextFreeElement : Z;
  pDestructor : bool
}.
Arguments mk_HashTable {V}.
Arguments ht_id {V}.
Arguments fl_PACKED {V}.
Arguments fl_UNINITIALIZED {V}.
Arguments fl_STATIC_KEYS {V}.
Arguments fl_HAS_EMPTY_IND {V}.
Arguments nIteratorsCount {V}.
Arguments nTableMask {V}.
Arguments arHash {V}.
Arguments arData {V}.
Arguments arPacked {V}.
Arguments nNumUsed {V}.
Arguments nNumOfElements {V}.
Arguments nTableSize {V}.
Arguments nInternalPointer {V}.
Arguments nNextFreeElement {V}.
Arguments pDestructor {V}.

Definition set_ht_id {V} (x : Z) (t : HashTable V) : HashTable V :=
  mk_HashTable x (fl_PACKED t) (fl_UNINITIALIZED t) (fl_STATIC_KEYS t) (fl_HAS_EMPTY_IND t) (nIteratorsCount t) (nTableMask t) (arHash t) (arData t) (arPacked t) (nNumUsed t) (nNumOfElements t) (nTableSize t) (nInternalPointer t) (nNextFreeElement t) (pDestructor t).
Definition set_fl_PACKED {V} (x : bool) (t : HashTable V) : HashTable V :=
  mk_HashTable (ht_id t) x (fl_UNINITIALIZED t) (fl_STATIC_KEYS t) (fl_HAS_EMPTY_IND t) (nIteratorsCount t) (nTableMask t) (arHash t) (arData t) (arPacked t) (nNumUsed t) (nNumOfElements t) (nTableSize t) (nInternalPointer t) (nNextFreeElement t) (pDestructor t).
Definition set_fl_UNINITIALIZED {V} (x : bool) (t : HashTable V) : HashTable V :=
  mk_HashTable (ht_id t) (fl_PACKED t) x (fl_STATIC_KEYS t) (fl_HAS_EMPTY_IND t) (nIteratorsCount t) (nTableMask t) (arHash t) (arData t) (arPacked t) (nNumUsed t) (nNumOfElements t) (nTableSize t) (nInternalPointer t) (nNextFreeElement t) (pDestructor t).
Definition set_fl_STATIC_KEYS {V} (x : bool) (t : HashTable V) : HashTable V :=
  mk_HashTable (ht_id t) (fl_PACKED t) (fl_UNINITIALIZED t) x (fl_HAS_EMPTY_IND t) (nIteratorsCount t) (nTableMask t) (arHash t) (arData t) (arPacked t) (nNumUsed t) (nNumOfElements t) (nTableSize t) (nInternalPointer t) (nNextFreeElement t) (pDestructor t).
Definition set_fl_HAS_EMPTY_IND {V} (x : bool) (t : HashTable V) : HashTable V :=
  mk_HashTable (ht_id t) (fl_PACKED t) (fl_UNINITIALIZED t) (fl_STATIC_KEYS t) x (nIteratorsCount t) (nTableMask t) (arHash t) (arData t) (arPacked t) (nNumUsed t) (nNumOfElements t) (nTableSize t) (nInternalPointer t) (nNextFreeElement t) (pDestructor t).
Definition set_nIteratorsCount {V} (x : Z) (t : HashTable V) : HashTable V :=
  mk_HashTable (ht_id t) (fl_PACKED t) (fl_UNINITIALIZED t) (fl_STATIC_KEYS t) (fl_HAS_EMPTY_IND t) x (nTableMask t) (arHash t) (arData t) (arPacked t) (nNumUsed t) (nNumOfElements t) (nTableSize t) (nInternalPointer t) (nNextFreeElement t) (pDestructor t).
Definition set_nTableMask {V} (x : Z) (t : HashTable V) : HashTable V :=
  mk_HashTable (ht_id t) (fl_PACKED t) (fl_UNINITIALIZED t) (fl_STATIC_KEYS t) (fl_HAS_EMPTY_IND t) (nIteratorsCount t) x (arHash t) (arData t) (arPacked t) (nNumUsed t) (nNumOfElements t) (nTableSize t) (nInternalPointer t) (nNextFreeElement t) (pDestructor t).
Definition set_arHash {V} (x : list Z) (t : HashTable V) : HashTable V :=
  mk_HashTable (ht_id t) (fl_PACKED t) (fl_UNINITIALIZED t) (fl_STATIC_KEYS t) (fl_HAS_EMPTY_IND t) (nIteratorsCount t) (nTableMask t) x (arData t) (arPacked t) (nNumUsed t) (nNumOfElements t) (nTableSize t) (nInternalPointer t) (nNextFreeElement t) (pDestructor t).
Definition set_arData {V} (x : list (Bucket V)) (t : HashTable V) : HashTable V :=
  mk_HashTable (ht_id t) (fl_PACKED t) (fl_UNINITIALIZED t) (fl_STATIC_KEYS t) (fl_HAS_EMPTY_IND t) (nIteratorsCount t) (nTableMask t) (arHash t) x (arPacked t) (nNumUsed t) (nNumOfElements t) (nTableSize t) (nInternalPointer t) (nNextFreeElement t) (pDestructor t).
Definition set_arPacked {V} (x : list (zval V)) (t : HashTable V) : HashTable V :=
  mk_HashTable (ht_id t) (fl_PACKED t) (fl_UNINITIALIZED t) (fl_STATIC_KEYS t) (fl_HAS_EMPTY_IND t) (nIteratorsCount t) (nTableMask t) (arHash t) (arData t) x (nNumUsed t) (nNumOfElements t) (nTableSize t) (nInternalPointer t) (nNextFreeElement t) (pDestructor t).
Definition set_nNumUsed {V} (x : Z) (t : HashTable V) : HashTable V :=
  mk_HashTable (ht_id t) (fl_PACKED t) (fl_UNINITIALIZED t) (fl_STATIC_KEYS t) (fl_HAS_EMPTY_IND t) (nIteratorsCount t) (nTableMask t) (arHash t) (arData t) (arPacked t) x (nNumOfElements t) (nTableSize t) (nInternalPointer t) (nNextFreeElement t) (pDestructor t).
Definition set_nNumOfElements {V} (x : Z) (t : HashTable V) : HashTable V :=
  mk_HashTable (ht_id t) (fl_PACKED t) (fl_UNINITIALIZED t) (fl_STATIC_KEYS t) (fl_HAS_EMPTY_IND t) (nIteratorsCount t) (nTableMask t) (arHash t) (arData t) (arPacked t) (nNumUsed t) x (nTableSize t) (nInternalPointer t) (nNextFreeElement t) (pDestructor t).
Definition set_nTableSize {V} (x : Z) (t : HashTable V) : HashTable V :=
  mk_HashTable (ht_id t) (fl_PACKED t) (fl_UNINITIALIZED t) (fl_STATIC_KEYS t) (fl_HAS_EMPTY_IND t) (nIteratorsCount t) (nTableMask t) (arHash t) (arData t) (arPacked t) (nNumUsed t) (nNumOfElements t) x (nInternalPointer t) (nNextFreeElement t) (pDestructor t).
Definition set_nInternalPointer {V} (x : Z) (t : HashTable V) : HashTable V :=
  mk_HashTable (ht_id t) (fl_PACKED t) (fl_UNINITIALIZED t) (fl_STATIC_KEYS t) (fl_HAS_EMPTY_IND t) (nIteratorsCount t) (nTableMask t) (arHash t) (arData t) (arPacked t) (nNumUsed t) (nNumOfElements t) (nTableSize t) x (nNextFreeElement t) (pDestructor t).
Definition set_nNextFreeElement {V} (x : Z) (t : HashTable V) : HashTable V :=
  mk_HashTable (ht_id t) (fl_PACKED t) (fl_UNINITIALIZED t) (fl_STATIC_KEYS t) (fl_HAS_EMPTY_IND t) (nIteratorsCount t) (nTableMask t) (arHash t) (arData t) (arPacked t) (nNumUsed t) (nNumOfElements t) (nTableSize t) (nInternalPointer t) x (pDestructor t).
Definition set_pDestructor {V} (x : bool) (t : HashTable V) : HashTable V :=
  mk_HashTable (ht_id t) (fl_PACKED t) (fl_UNINITIALIZED t) (fl_STATIC_KEYS t) (fl_HAS_EMPTY_IND t) (nIteratorsCount t) (nTableMask t) (arHash t) (arData t) (arPacked t) (nNumUsed t) (nNumOfElements t) (nTableSize t) (nInternalPointer t) (nNextFreeElement t) x.

(** One slot of [EG(ht_iterators)]; [it_ht] is a table address, 0 for NULL
    and -1 for [HT_POISONED_PTR]. *)
Record HashTableIterator := mk_iter { it_ht : Z; it_pos : Z; it_next_copy : Z }.

Definition HT_POISONED_PTR : Z := -1.

(** Observable calls out of the table code, in order: reference counting of
    string keys and of copied values, and the destructor on a value. *)
Inductive event (V : Type) : Type :=
| EvAddref (key : Z)
| EvRelease (key : Z)
| EvDtor (v : zval V)
| EvAddrefVal (v : zval V).
Arguments EvAddref {V}.
Arguments EvRelease {V}.
Arguments EvDtor {V}.
Arguments EvAddrefVal {V}.

(** The executor globals and memory outside the table that its code touches:
    the iterator array with its used count, the slots that [IS_INDIRECT]
    values point to, and the trace of calls made. *)
Record EG (V : Type) := mk_EG {
  ht_iterators : list HashTableIterator;
  ht_iterators_used : Z;
  slots : gmap Z (zval V);
  trace : list (event V)
}.
Arguments mk_EG {V}.
Arguments ht_iterators {V}.
Arguments ht_iterators_used {V}.
Arguments slots {V}.
Arguments trace {V}.

Definition set_ht_iterators {V} x (w : EG V) := mk_EG x (ht_iterators_used w) (slots w) (trace w).
Definition set_ht_iterators_used {V} x (w : EG V) := mk_EG (ht_iterators w) x (slots w) (trace w).
Definition set_slots {V} x (w : EG V) := mk_EG (ht_iterators w) (ht_iterators_used w) x (trace w).
Definition emit {V} (e : event V) (w : EG V) :=
  mk_EG (ht_iterators w) (ht_iterators_used w) (slots w) (trace w ++ [e]).

Notation state V := (HashTable V * EG V)%type.

(** A [zval *] returned by the code: a bucket's value, a packed element, an
    indirect slot. *)
Inductive zptr := PBucket (idx : Z) | PPacked (idx : Z) | PSlot (a : Z).

Inductive zend_result := SUCCESS | FAILURE.

(** * Constants and layout macros *)

Definition HT_INVALID_IDX : Z := 2 ^ 32 - 1.
Definition HT_MIN_MASK : Z := 2 ^ 32 - 2.
Definition HT_MIN_SIZE : Z := 8.
Definition HT_MAX_SIZE : Z := 1073741824.

Definition HASH_UPDATE : Z := 1.
Definition HASH_ADD : Z := 2.
Definition HASH_UPDATE_INDIRECT : Z := 4.
Definition HASH_ADD_NEW : Z := 8.
Definition HASH_ADD_NEXT : Z := 16.
Definition HASH_LOOKUP : Z := 32.

(** [flag & bit] as a truth value. *)
Definition has_flag (flag bit : Z) : bool := negb (Z.land flag bit =? 0).

Definition HT_SIZE_TO_MASK (nTableSize : Z) : Z := u32 (- (nTableSize + nTableSize)).

(** Number of [uint32_t] cells of the index area: [-nTableMask]. *)
Definition HT_HASH_CELLS (mask : Z) : Z := u32 (- mask).

(** [nIndex = h | mask], truncated to 32 bits. *)
Definition nIndex_of (h mask : Z) : Z := u32 (Z.lor h mask).

(** [HT_HASH(ht, nIndex)]: the index area starts at [(int32_t)nTableMask], so
    the cell of [nIndex] is [nIndex - nTableMask]. *)
Definition HT_HASH {V} (t : HashTable V) (nIndex : Z) : Z :=
  lget HT_INVALID_IDX (arHash t) (nIndex - nTableMask t).

Definition set_HT_HASH {V} (nIndex x : Z) (t : HashTable V) : HashTable V :=
  set_arHash (lset (arHash t) (nIndex - nTableMask t) x) t.

Definition HT_HASH_RESET {V} (t : HashTable V) : HashTable V :=
  set_arHash (replicate (Z.to_nat (HT_HASH_CELLS (nTableMask t))) HT_INVALID_IDX) t.

Definition HT_HASH_RESET_PACKED {V} (t : HashTable V) : HashTable V :=
  set_HT_HASH (2 ^ 32 - 1) HT_INVALID_IDX (set_HT_HASH (2 ^ 32 - 2) HT_INVALID_IDX t).

(** [HT_IS_WITHOUT_HOLES(ht)]: [nNumUsed == nNumOfElements]. *)
Definition HT_IS_WITHOUT_HOLES {V} (t : HashTable V) : bool := nNumUsed t =? nNumOfElements t.

Definition HT_HAS_STATIC_KEYS_ONLY {V} (t : HashTable V) : bool := fl_PACKED t || fl_STATIC_KEYS t.

Definition HT_HAS_ITERATORS {V} (t : HashTable V) : bool := negb (nIteratorsCount t =? 0).
Definition HT_ITERATORS_OVERFLOW {V} (t : HashTable V) : bool := nIteratorsCount t =? 255.
Definition HT_INC_ITERATORS_COUNT {V} (t : HashTable V) := set_nIteratorsCount (u8 (nIteratorsCount t + 1)) t.
Definition HT_DEC_ITERATORS_COUNT {V} (t : HashTable V) := set_nIteratorsCount (u8 (nIteratorsCount t - 1)) t.

(** [ht->u.v.flags = ...]: assigns the flag byte only. *)
Definition assign_v_flags {V} (packed uninit static empty_ind : bool) (t : HashTable V) : HashTable V :=
  set_fl_PACKED packed (set_fl_UNINITIALIZED uninit
    (set_fl_STATIC_KEYS static (set_fl_HAS_EMPTY_IND empty_ind t))).

(** [HT_FLAGS(ht) = ...]: assigns the whole 32-bit word, iterator count included. *)
Definition assign_HT_FLAGS {V} (packed uninit static empty_ind : bool) (t : HashTable V) : HashTable V :=
  set_nIteratorsCount 0 (assign_v_flags packed uninit static empty_ind t).

Section Ops.
Context {V : Type} {E : ZEnv V}.
Implicit Types (t : HashTable V) (w : EG V) (b : Bucket V) (v : zval V).

(** * Memory access *)

Definition bucket t (idx : Z) : Bucket V := lget (junk 0) (arData t) idx.
Definition upd_bucket (idx : Z) (f : Bucket V -> Bucket V) t : HashTable V :=
  set_arData (lset (arData t) idx (f (bucket t idx))) t.
Definition packed t (idx : Z) : zval V := lget (b_val (junk 0)) (arPacked t) idx.
Definition set_packed (idx : Z) v t : HashTable V := set_arPacked (lset (arPacked t) idx v) t.
Definition slot w (a : Z) : zval V := default IS_UNDEF (slots w !! a).
Definition set_slot (a : Z) v w : EG V := set_slots (<[a := v]> (slots w)) w.

(** [*p] and [ZVAL_COPY_VALUE(p, v)] (which leaves the [u2] word alone). *)
Definition zload (s : state V) (p : zptr) : zval V :=
  match p with
  | PBucket i => b_val (bucket s.1 i)
  | PPacked i => packed s.1 i
  | PSlot a => slot s.2 a
  end.
Definition zstore (p : zptr) v (s : state V) : state V :=
  match p with
  | PBucket i => (upd_bucket i (set_b_val v) s.1, s.2)
  | PPacked i => (set_packed i v s.1, s.2)
  | PSlot a => (s.1, set_slot a v s.2)
  end.

(** Memory returned by the allocator for [n] buckets, or [n] zvals. *)
Definition fresh_buckets (n : Z) : list (Bucket V) := junk <$> seq 0 (Z.to_nat n).
Definition fresh_zvals (n : Z) : list (zval V) := b_val <$> fresh_buckets n.

(** [if (ht->pDestructor) ht->pDestructor(p)] *)
Definition run_dtor t v w : EG V := if pDestructor t then emit (EvDtor v) w else w.

(** * Construction *)

(** Round up to a power of two, between [HT_MIN_SIZE] and [HT_MAX_SIZE]. *)
Definition zend_hash_check_size (nSize : Z) : option Z :=
  if nSize <=? HT_MIN_SIZE then Some HT_MIN_SIZE
  else if HT_MAX_SIZE <? nSize then None
  else
    let n := u32 (nSize - 1) in
    let n := Z.lor n (Z.shiftr n 1) in
    let n := Z.lor n (Z.shiftr n 2) in
    let n := Z.lor n (Z.shiftr n 4) in
    let n := Z.lor n (Z.shiftr n 8) in
    let n := Z.lor n (Z.shiftr n 16) in
    Some (u32 (n + 1)).

Definition zend_hash_real_init_packed_ex t : HashTable V :=
  let t := set_arHash (replicate 2 (b_next (junk 0))) t in
  let t := set_arPacked (fresh_zvals (nTableSize t)) t in
  let t := assign_v_flags true false true false t in
  HT_HASH_RESET_PACKED t.

Definition zend_hash_real_init_mixed_ex t : HashTable V :=
  let nSize := nTableSize t in
  if nSize =? HT_MIN_SIZE then
    let t := set_nTableMask (HT_SIZE_TO_MASK HT_MIN_SIZE) t in
    let t := set_arData (fresh_buckets HT_MIN_SIZE) t in
    let t := assign_v_flags false false true false t in
    set_arHash (replicate 16 HT_INVALID_IDX) t
  else
    let t := set_nTableMask (HT_SIZE_TO_MASK nSize) t in
    let t := set_arData (fresh_buckets nSize) t in
    let t := assign_HT_FLAGS false false true false t in
    HT_HASH_RESET t.

Definition zend_hash_real_init_ex t (pckd : bool) : HashTable V :=
  if pckd then zend_hash_real_init_packed_ex t else zend_hash_real_init_mixed_ex t.

(** [_zend_hash_init_int] at address [id]. *)
Definition zend_hash_init_int (id nSize : Z) (dtor : bool) : option (HashTable V) :=
  size ← zend_hash_check_size nSize;
  Some (mk_HashTable id false true false false 0 HT_MIN_MASK
          [HT_INVALID_IDX; HT_INVALID_IDX] [] [] 0 0 size 0 ZEND_LONG_MIN dtor).

Definition zend_new_array (id nSize : Z) : option (HashTable V) :=
  zend_hash_init_int id nSize true.

Definition zend_new_pair (id : Z) (val1 val2 : zval V) : option (HashTable V) :=
  t ← zend_hash_init_int id HT_MIN_SIZE true;
  let t := set_nNumUsed 2 (set_nNumOfElements 2 (set_nNextFreeElement 2 t)) in
  let t := zend_hash_real_init_packed_ex t in
  Some (set_packed 1 val2 (set_packed 0 val1 t)).

(** [perealloc2] of the element area keeps the first [nNumUsed] elements. *)
Definition zend_hash_packed_grow t : option (HashTable V) :=
  if HT_MAX_SIZE <=? nTableSize t then None
  else
    let newTableSize := nTableSize t * 2 in
    let kept := take (Z.to_nat (nNumUsed t)) (arPacked t) in
    let t := set_arPacked (kept ++ drop (length kept) (fresh_zvals newTableSize)) t in
    Some (set_nTableSize newTableSize t).


(** * Positions and iterators *)

Definition pos_undef t (i : Z) : bool :=
  if fl_PACKED t then Z_ISUNDEF (packed t i) else Z_ISUNDEF (b_val (bucket t i)).

(** The first defined position at or after [pos], [n] positions at most. *)
Fixpoint valid_pos_loop (n : nat) t (pos : Z) : Z :=
  match n with
  | O => pos
  | S n => if (pos <? nNumUsed t) && pos_undef t pos then valid_pos_loop n t (pos + 1) else pos
  end.

Definition zend_hash_get_valid_pos t (pos : Z) : Z :=
  valid_pos_loop (Z.to_nat (nNumUsed t - pos)) t pos.

Definition zend_hash_get_current_pos t : Z := zend_hash_get_valid_pos t (nInternalPointer t).

(** The slots in use: indices below [ht_iterators_used]. *)
Definition used_iterators w : list HashTableIterator :=
  take (Z.to_nat (ht_iterators_used w)) (ht_iterators w).

Definition map_used_iterators (f : HashTableIterator -> HashTableIterator) w : EG V :=
  let n := Z.to_nat (ht_iterators_used w) in
  set_ht_iterators ((f <$> take n (ht_iterators w)) ++ drop n (ht_iterators w)) w.

Definition set_it_pos (p : Z) (it : HashTableIterator) := mk_iter (it_ht it) p (it_next_copy it).
Definition set_it_ht (h : Z) (it : HashTableIterator) := mk_iter h (it_pos it) (it_next_copy it).
Definition set_it_next_copy (c : Z) (it : HashTableIterator) := mk_iter (it_ht it) (it_pos it) c.

Definition zend_hash_iterators_lower_pos t w (start : Z) : Z :=
  foldl (fun res it =>
    if (it_ht it =? ht_id t) && ((start <=? it_pos it) && (it_pos it <? res))
    then it_pos it else res) (nNumUsed t) (used_iterators w).

Definition zend_hash_iterators_update_ t w (from to : Z) : EG V :=
  map_used_iterators (fun it =>
    if (it_ht it =? ht_id t) && (it_pos it =? from) then set_it_pos to it else it) w.

Definition zend_hash_iterators_update t w (from to : Z) : EG V :=
  if HT_HAS_ITERATORS t then zend_hash_iterators_update_ t w from to else w.

Definition zend_hash_iterators_advance t w (step : Z) : EG V :=
  map_used_iterators (fun it =>
    if it_ht it =? ht_id t then set_it_pos (u32 (it_pos it + step)) it else it) w.

Definition zend_hash_iterators_remove t w : EG V :=
  if HT_HAS_ITERATORS t then
    map_used_iterators (fun it => if it_ht it =? ht_id t then set_it_ht HT_POISONED_PTR it else it) w
  else w.

Definition zend_hash_iterators_clamp_max t w (max : Z) : EG V :=
  if HT_HAS_ITERATORS t then
    map_used_iterators (fun it =>
      if it_ht it =? ht_id t then set_it_pos (Z.min (it_pos it) max) it else it) w
  else w.

(** * Rehashing and growth *)

(** [nIndex = p->h | mask; Z_NEXT(p->val) = HT_HASH(nIndex); HT_HASH(nIndex) = i]
    for the bucket at [i]. *)
Definition link_bucket (i : Z) t : HashTable V :=
  let nIndex := nIndex_of (b_h (bucket t i)) (nTableMask t) in
  let t := upd_bucket i (set_b_next (HT_HASH t nIndex)) t in
  set_HT_HASH nIndex i t.

(** The loop of the table without holes: buckets [i, i+1, ..., i+n-1]. *)
Fixpoint rehash_link (n : nat) (i : Z) t : HashTable V :=
  match n with
  | O => t
  | S n => rehash_link n (i + 1) (link_bucket i t)
  end.

(** [do { update(iter_pos, j); iter_pos = lower_pos(iter_pos + 1) } while (iter_pos < i)];
    the position grows at each turn, so [n = i] turns are enough. *)
Fixpoint iter_move_loop (n : nat) t w (i j iter_pos : Z) : EG V * Z :=
  let w := zend_hash_iterators_update t w iter_pos j in
  let iter_pos := zend_hash_iterators_lower_pos t w (iter_pos + 1) in
  match n with
  | O => (w, iter_pos)
  | S n => if iter_pos <? i then iter_move_loop n t w i j iter_pos else (w, iter_pos)
  end.

(** Move the bucket at [i] down to [j] (value, hash and key) and link it. *)
Definition move_bucket (i j : Z) t : HashTable V :=
  let p := bucket t i in
  link_bucket j (upd_bucket j (fun q =>
    mk_Bucket (b_val p) (b_next q) (b_h p) (b_key p)) t).

(** The compaction loop: source index [i], target index [j].  [iter_pos] is
    [Some] in the loop for tables with iterators. *)
Fixpoint rehash_compact (n : nat) (i j : Z) (iter_pos : option Z) (s : state V) : state V * Z :=
  match n with
  | O => (s, j)
  | S n =>
      let (t, w) := s in
      if Z_ISUNDEF (b_val (bucket t i)) then rehash_compact n (i + 1) j iter_pos s
      else
        let t := move_bucket i j t in
        let t := if (j <? nInternalPointer t) && (nInternalPointer t <=? i)
                 then set_nInternalPointer j t else t in
        let (w, iter_pos) :=
          match iter_pos with
          | Some ip =>
              if ip <=? i then
                let (w, ip) := iter_move_loop (Z.to_nat i) t w i j ip in (w, Some ip)
              else (w, Some ip)
          | None => (w, None)
          end in
        rehash_compact n (i + 1) (j + 1) iter_pos (t, w)
  end.

(** The loop of the table with holes: link up to the first hole, then compact. *)
Fixpoint rehash_holes (n : nat) (i : Z) (s : state V) : state V :=
  match n with
  | O => s
  | S n =>
      let (t, w) := s in
      if Z_ISUNDEF (b_val (bucket t i)) then
        let iter_pos := if HT_HAS_ITERATORS t
                        then Some (zend_hash_iterators_lower_pos t w (i + 1)) else None in
        let '((t, w), j) := rehash_compact n (i + 1) i iter_pos (t, w) in
        (set_nNumUsed j t, w)
      else rehash_holes n (i + 1) (link_bucket i t, w)
  end.

Definition zend_hash_rehash (s : state V) : state V :=
  let (t, w) := s in
  if nNumOfElements t =? 0 then
    if fl_UNINITIALIZED t then s
    else
      let t := set_nInternalPointer 0 (HT_HASH_RESET (set_nNumUsed 0 t)) in
      let w := if HT_HAS_ITERATORS t then
                 map_used_iterators (fun it => if it_ht it =? ht_id t then set_it_pos 0 it else it) w
               else w in
      (t, w)
  else
    let t := HT_HASH_RESET t in
    if HT_IS_WITHOUT_HOLES t then (rehash_link (Z.to_nat (nNumUsed t)) 0 t, w)
    else
      let old_num_used := nNumUsed t in
      let (t, w) := rehash_holes (Z.to_nat (nNumUsed t)) 0 (t, w) in
      let w := if HT_HAS_ITERATORS t
               then zend_hash_iterators_update_ t w old_num_used (nNumUsed t) else w in
      (t, w).

(** Allocate element and index areas for [nSize] buckets and copy the used ones. *)
Definition grow_data (nSize : Z) t : HashTable V :=
  let kept := take (Z.to_nat (nNumUsed t)) (arData t) in
  let t := set_nTableMask (HT_SIZE_TO_MASK nSize) (set_nTableSize nSize t) in
  let t := set_arHash (replicate (Z.to_nat (HT_HASH_CELLS (nTableMask t))) (b_next (junk 0))) t in
  set_arData (kept ++ drop (length kept) (fresh_buckets nSize)) t.

Definition zend_hash_do_resize (s : state V) : option (state V) :=
  let (t, w) := s in
  if nNumOfElements t + Z.shiftr (nNumOfElements t) 5 <? nNumUsed t then
    Some (zend_hash_rehash s)
  else if nTableSize t <? HT_MAX_SIZE then
    Some (zend_hash_rehash (grow_data (nTableSize t + nTableSize t) t, w))
  else None.

Definition ZEND_HASH_IF_FULL_DO_RESIZE (s : state V) : option (state V) :=
  if nTableSize s.1 <=? nNumUsed s.1 then zend_hash_do_resize s else Some s.

(** Copy the packed elements [i, i+1, ..., i+n-1] into buckets. *)
Fixpoint packed_to_buckets (n : nat) (i : Z) t : HashTable V :=
  match n with
  | O => t
  | S n =>
      packed_to_buckets n (i + 1)
        (upd_bucket i (fun b => mk_Bucket (packed t i) (b_next b) i None) t)
  end.

Definition zend_hash_packed_to_hash (s : state V) : state V :=
  let (t, w) := s in
  let nSize := nTableSize t in
  let t := set_fl_PACKED false t in
  let t := set_nTableMask (HT_SIZE_TO_MASK nSize) t in
  let t := set_arHash (replicate (Z.to_nat (HT_HASH_CELLS (nTableMask t))) (b_next (junk 0))) t in
  let t := set_arData (fresh_buckets nSize) t in
  let t := packed_to_buckets (Z.to_nat (nNumUsed t)) 0 t in
  let t := set_arPacked [] t in
  zend_hash_rehash (t, w).

(** Copy the bucket values [i, i+1, ..., i+n-1] into packed elements. *)
Fixpoint buckets_to_packed (n : nat) (i : Z) t : HashTable V :=
  match n with
  | O => t
  | S n => buckets_to_packed n (i + 1) (set_packed i (b_val (bucket t i)) t)
  end.

Definition zend_hash_to_packed t : HashTable V :=
  let t := set_fl_STATIC_KEYS true (set_fl_PACKED true t) in
  let t := set_nTableMask HT_MIN_MASK t in
  let t := set_arHash (replicate 2 (b_next (junk 0))) t in
  let t := set_arPacked (fresh_zvals (nTableSize t)) t in
  let t := HT_HASH_RESET_PACKED t in
  let t := buckets_to_packed (Z.to_nat (nNumUsed t)) 0 t in
  set_arData [] t.

Definition zend_hash_extend (nSize : Z) (pckd : bool) (s : state V) : option (state V) :=
  let (t, w) := s in
  if nSize =? 0 then Some s
  else if fl_UNINITIALIZED t then
    t ← (if nTableSize t <? nSize
         then size ← zend_hash_check_size nSize; Some (set_nTableSize size t)
         else Some t);
    Some (zend_hash_real_init_ex t pckd, w)
  else if nTableSize t <? nSize then
    size ← zend_hash_check_size nSize;
    if pckd then
      let kept := take (Z.to_nat (nNumUsed t)) (arPacked t) in
      let t := set_arPacked (kept ++ drop (length kept) (fresh_zvals size)) t in
      Some (set_nTableSize size t, w)
    else Some (zend_hash_rehash (grow_data size t, w))
  else Some s.

(** Drop the buckets from the end down to [nNumUsed], unhooking each from its chain. *)
Fixpoint discard_loop (n : nat) (p : Z) t : HashTable V :=
  match n with
  | O => t
  | S n =>
      let p := p - 1 in
      let b := bucket t p in
      if Z_ISUNDEF (b_val b) then discard_loop n p t
      else
        let t := set_nNumOfElements (nNumOfElements t - 1) t in
        discard_loop n p (set_HT_HASH (nIndex_of (b_h b) (nTableMask t)) (b_next b) t)
  end.

Definition zend_hash_discard (t0 : HashTable V) (nNumUsed' : Z) : HashTable V :=
  discard_loop (Z.to_nat (nNumUsed t0 - nNumUsed')) (nNumUsed t0) (set_nNumUsed nNumUsed' t0).

(** * Lookup *)

(** Walk a collision chain from [idx] until [test] holds; [n] buckets at most. *)
Fixpoint chain_find (n : nat) t (test : Bucket V -> bool) (idx : Z) : option Z :=
  match n with
  | O => None
  | S n =>
      if idx =? HT_INVALID_IDX then None
      else
        let p := bucket t idx in
        if test p then Some idx else chain_find n t test (b_next p)
  end.

(** A chain visits each bucket at most once. *)
Definition chain_fuel t : nat := S (length (arData t)).

Definition chain_head t (h : Z) : Z := HT_HASH t (nIndex_of h (nTableMask t)).

Definition ZSTR_VAL (key : Z) : list Z := zs_val (ZSTR key).
Definition ZSTR_IS_INTERNED (key : Z) : bool := zs_interned (ZSTR key).
Definition ZSTR_H (key : Z) : Z := zend_inline_hash_func (ZSTR_VAL key).

(** [p->h == h && p->key && same contents]. *)
Definition match_content (h : Z) (str : list Z) (p : Bucket V) : bool :=
  (b_h p =? h) &&
  match b_key p with Some k => bool_decide (ZSTR_VAL k = str) | None => false end.

(** The pointer test comes first, then hash and contents. *)
Definition match_key (key : Z) (p : Bucket V) : bool :=
  bool_decide (b_key p = Some key) || match_content (ZSTR_H key) (ZSTR_VAL key) p.

Definition match_index (h : Z) (p : Bucket V) : bool :=
  (b_h p =? h) && match b_key p with None => true | Some _ => false end.

Definition zend_hash_find_bucket t (key : Z) : option Z :=
  chain_find (chain_fuel t) t (match_key key) (chain_head t (ZSTR_H key)).

Definition zend_hash_str_find_bucket t (str : list Z) (h : Z) : option Z :=
  chain_find (chain_fuel t) t (match_content h str) (chain_head t h).

Definition zend_hash_index_find_bucket t (h : Z) : option Z :=
  chain_find (chain_fuel t) t (match_index h) (chain_head t h).

Definition zend_hash_find t (key : Z) : option zptr := PBucket <$> zend_hash_find_bucket t key.

Definition zend_hash_str_find t (str : list Z) : option zptr :=
  PBucket <$> zend_hash_str_find_bucket t str (zend_inline_hash_func str).

Definition zend_hash_index_find t (h : Z) : option zptr :=
  if fl_PACKED t then
    if h <? nNumUsed t then
      if Z_ISUNDEF (packed t h) then None else Some (PPacked h)
    else None
  else PBucket <$> zend_hash_index_find_bucket t h.

(** * Insertion with a string key *)

(** The code at label [add_to_hash]: append a bucket for [key] and link it.
    [flag & HASH_LOOKUP] stores NULL instead of [pData]. *)
Definition add_to_hash (key : Z) (pData : zval V) (flag : Z) (s : state V) : state V * option zptr :=
  let (t, w) := s in
  let '(t, w) :=
    if ZSTR_IS_INTERNED key then (t, w)
    else (set_fl_STATIC_KEYS false t, emit (EvAddref key) w) in
  let idx := nNumUsed t in
  let t := set_nNumUsed (u32 (idx + 1)) t in
  let t := set_nNumOfElements (u32 (nNumOfElements t + 1)) t in
  let h := ZSTR_H key in
  let nIndex := nIndex_of h (nTableMask t) in
  let t := upd_bucket idx (fun p => mk_Bucket (b_val p) (HT_HASH t nIndex) h (Some key)) t in
  let t := set_HT_HASH nIndex idx t in
  let t := upd_bucket idx (set_b_val (if has_flag flag HASH_LOOKUP then IS_NULL else pData)) t in
  ((t, w), Some (PBucket idx)).

(** What happens when the key is already at bucket [idx]. *)
Definition update_existing (idx : Z) (pData : zval V) (flag : Z) (s : state V) : state V * option zptr :=
  let (t, w) := s in
  let overwrite (data : zptr) :=
    let w := run_dtor t (zload s data) w in
    (zstore data pData (t, w), Some data) in
  if has_flag flag HASH_LOOKUP then (s, Some (PBucket idx))
  else if has_flag flag HASH_ADD then
    if negb (has_flag flag HASH_UPDATE_INDIRECT) then (s, None)
    else
      match b_val (bucket t idx) with
      | IS_INDIRECT a => if negb (Z_ISUNDEF (slot w a)) then (s, None) else overwrite (PSlot a)
      | _ => (s, None)
      end
  else
    match b_val (bucket t idx) with
    | IS_INDIRECT a => overwrite (if has_flag flag HASH_UPDATE_INDIRECT then PSlot a else PBucket idx)
    | _ => overwrite (PBucket idx)
    end.

Definition zend_hash_add_or_update_i (key : Z) (pData : zval V) (flag : Z) (s : state V)
    : option (state V * option zptr) :=
  let (t, w) := s in
  let grow_and_add s := s ← ZEND_HASH_IF_FULL_DO_RESIZE s; Some (add_to_hash key pData flag s) in
  if fl_UNINITIALIZED t || fl_PACKED t then
    if fl_UNINITIALIZED t then
      Some (add_to_hash key pData flag (zend_hash_real_init_mixed_ex t, w))
    else grow_and_add (zend_hash_packed_to_hash s)
  else if negb (has_flag flag HASH_ADD_NEW) then
    match zend_hash_find_bucket t key with
    | Some idx => Some (update_existing idx pData flag s)
    | None => grow_and_add s
    end
  else grow_and_add s.

Definition zend_hash_add key pData := zend_hash_add_or_update_i key pData HASH_ADD.
Definition zend_hash_update key pData := zend_hash_add_or_update_i key pData HASH_UPDATE.
Definition zend_hash_update_ind key pData :=
  zend_hash_add_or_update_i key pData (Z.lor HASH_UPDATE HASH_UPDATE_INDIRECT).
Definition zend_hash_add_new key pData := zend_hash_add_or_update_i key pData HASH_ADD_NEW.
Definition zend_hash_lookup key := zend_hash_add_or_update_i key IS_NULL HASH_LOOKUP.
Definition zend_hash_add_empty_element key := zend_hash_add key IS_NULL.

Definition zend_hash_add_or_update (key : Z) (pData : zval V) (flag : Z) (s : state V)
    : option (state V * option zptr) :=
  if flag =? HASH_ADD then zend_hash_add key pData s
  else if flag =? HASH_ADD_NEW then zend_hash_add_new key pData s
  else if flag =? HASH_UPDATE then zend_hash_update key pData s
  else zend_hash_update_ind key pData s.

(** Insertion by character data: [np] is the address of the string that
    [zend_string_init(str, len)] allocates if the key is new. *)
Definition add_str_to_hash (str : list Z) (np : Z) (h : Z) (pData : zval V) (flag : Z) (s : state V)
    : state V * option zptr :=
  let (t, w) := s in
  let idx := nNumUsed t in
  let t := set_nNumUsed (u32 (idx + 1)) t in
  let t := set_nNumOfElements (u32 (nNumOfElements t + 1)) t in
  let t := upd_bucket idx (fun p => mk_Bucket (b_val p) (b_next p) h (Some np)) t in
  let t := set_fl_STATIC_KEYS false t in
  let t := upd_bucket idx (set_b_val (if has_flag flag HASH_LOOKUP then IS_NULL else pData)) t in
  let nIndex := nIndex_of h (nTableMask t) in
  let t := upd_bucket idx (set_b_next (HT_HASH t nIndex)) t in
  let t := set_HT_HASH nIndex idx t in
  ((t, w), Some (PBucket idx)).

Definition zend_hash_str_add_or_update_i (str : list Z) (np : Z) (h : Z) (pData : zval V) (flag : Z)
    (s : state V) : option (state V * option zptr) :=
  let (t, w) := s in
  let grow_and_add s :=
    s ← ZEND_HASH_IF_FULL_DO_RESIZE s; Some (add_str_to_hash str np h pData flag s) in
  if fl_UNINITIALIZED t || fl_PACKED t then
    if fl_UNINITIALIZED t then
      Some (add_str_to_hash str np h pData flag (zend_hash_real_init_mixed_ex t, w))
    else grow_and_add (zend_hash_packed_to_hash s)
  else if negb (has_flag flag HASH_ADD_NEW) then
    match zend_hash_str_find_bucket t str h with
    | Some idx => Some (update_existing idx pData flag s)
    | None => grow_and_add s
    end
  else grow_and_add s.

Definition zend_hash_str_update str np pData :=
  zend_hash_str_add_or_update_i str np (zend_inline_hash_func str) pData HASH_UPDATE.
Definition zend_hash_str_update_ind str np pData :=
  zend_hash_str_add_or_update_i str np (zend_inline_hash_func str) pData
    (Z.lor HASH_UPDATE HASH_UPDATE_INDIRECT).
Definition zend_hash_str_add str np pData :=
  zend_hash_str_add_or_update_i str np (zend_inline_hash_func str) pData HASH_ADD.
Definition zend_hash_str_add_new str np pData :=
  zend_hash_str_add_or_update_i str np (zend_inline_hash_func str) pData HASH_ADD_NEW.
Definition zend_hash_str_lookup str np :=
  zend_hash_str_add_or_update_i str np (zend_inline_hash_func str) IS_NULL HASH_LOOKUP.

(** [np]: the address of a new key, as in [zend_hash_str_add_or_update_i]. *)
Definition zend_hash_str_add_or_update (str : list Z) (np : Z) (pData : zval V) (flag : Z) (s : state V)
    : option (state V * option zptr) :=
  if flag =? HASH_ADD then zend_hash_str_add str np pData s
  else if flag =? HASH_ADD_NEW then zend_hash_str_add_new str np pData s
  else if flag =? HASH_UPDATE then zend_hash_str_update str np pData s
  else zend_hash_str_update_ind str np pData s.
Definition zend_hash_str_add_empty_element str np := zend_hash_str_add str np IS_NULL.

(** Appending to a table with room, without a search: the value is written
    first, [key_guaranteed_interned] saves the reference to the key. *)
Definition zend_hash_append_ex (key : Z) (zv : zval V) (key_guaranteed_interned : bool) (s : state V) : state V * option zptr :=
  let (t, w) := s in
  let idx := nNumUsed t in
  let t := set_nNumUsed (u32 (idx + 1)) t in
  let t := upd_bucket idx (set_b_val zv) t in
  let '(t, w) :=
    if negb key_guaranteed_interned && negb (ZSTR_IS_INTERNED key)
    then (set_fl_STATIC_KEYS false t, emit (EvAddref key) w) else (t, w) in
  let nIndex := nIndex_of (ZSTR_H key) (nTableMask t) in
  let t := upd_bucket idx (fun p => mk_Bucket (b_val p) (HT_HASH t nIndex) (ZSTR_H key) (Some key)) t in
  let t := set_HT_HASH nIndex idx t in
  let t := set_nNumOfElements (u32 (nNumOfElements t + 1)) t in
  ((t, w), Some (PBucket idx)).
Definition zend_hash_append key zv := zend_hash_append_ex key zv false.
Definition zend_hash_append_ptr_ex key (ptr : V) := zend_hash_append_ex key (IS_VALUE ptr).
Definition zend_hash_append_ptr key (ptr : V) := zend_hash_append_ptr_ex key ptr false.
Definition zend_hash_append_ind key (a : Z) := zend_hash_append_ex key (IS_INDIRECT a) false.

(** * Insertion with an integer key *)

(** Label [replace]. *)
Definition replace_at (zv : zptr) (pData : zval V) (flag : Z) (s : state V) : state V * option zptr :=
  if has_flag flag HASH_ADD then (s, None)
  else (zstore zv pData (s.1, run_dtor s.1 (zload s zv) s.2), Some zv).

(** [while (q != zv) ZVAL_UNDEF(q++)]: elements [i, ..., i+n-1]. *)
Fixpoint undef_packed (n : nat) (i : Z) t : HashTable V :=
  match n with
  | O => t
  | S n => undef_packed n (i + 1) (set_packed i IS_UNDEF t)
  end.

(** Both [HASH_ADD_NEW] and [HASH_ADD_NEXT] are set. *)
Definition flag_new_next (flag : Z) : bool :=
  Z.land flag (Z.lor HASH_ADD_NEW HASH_ADD_NEXT) =? Z.lor HASH_ADD_NEW HASH_ADD_NEXT.

(** Label [add_to_packed]. *)
Definition add_to_packed (h : Z) (pData : zval V) (flag : Z) (s : state V) : state V * option zptr :=
  let (t, w) := s in
  let t := if negb (flag_new_next flag) && (nNumUsed t <? h)
           then undef_packed (Z.to_nat (h - nNumUsed t)) (nNumUsed t) t else t in
  let t := set_nNumUsed (u32 (h + 1)) t in
  let t := set_nNextFreeElement (s64 (u32 (h + 1))) t in
  let t := set_nNumOfElements (u32 (nNumOfElements t + 1)) t in
  let t := set_packed h (if has_flag flag HASH_LOOKUP then IS_NULL else pData) t in
  ((t, w), Some (PPacked h)).

(** The end of the function: append a bucket with integer key [h]. *)
Definition add_index_to_hash (h : Z) (pData : zval V) (flag : Z) (s : state V) : state V * option zptr :=
  let (t, w) := s in
  let idx := nNumUsed t in
  let t := set_nNumUsed (u32 (idx + 1)) t in
  let nIndex := nIndex_of h (nTableMask t) in
  let t := upd_bucket idx (set_b_next (HT_HASH t nIndex)) t in
  let t := set_HT_HASH nIndex idx t in
  let t := if nNextFreeElement t <=? s64 h
           then set_nNextFreeElement (if s64 h <? ZEND_LONG_MAX then s64 (h + 1) else ZEND_LONG_MAX) t
           else t in
  let t := set_nNumOfElements (u32 (nNumOfElements t + 1)) t in
  let t := upd_bucket idx (fun p => mk_Bucket
             (if has_flag flag HASH_LOOKUP then IS_NULL else pData) (b_next p) h None) t in
  ((t, w), Some (PBucket idx)).

Definition zend_hash_index_add_or_update_i (h : Z) (pData : zval V) (flag : Z) (s : state V)
    : option (state V * option zptr) :=
  let (t, w) := s in
  let h := if has_flag flag HASH_ADD_NEXT && (h =? u64 ZEND_LONG_MIN) then 0 else h in
  let convert_to_hash s := Some (add_index_to_hash h pData flag (zend_hash_packed_to_hash s)) in
  if fl_PACKED t then
    if negb (flag_new_next flag) && (h <? nNumUsed t) then
      if has_flag flag HASH_ADD_NEW then convert_to_hash s
      else if negb (Z_ISUNDEF (packed t h)) then
        if has_flag flag HASH_LOOKUP then Some (s, Some (PPacked h))
        else Some (replace_at (PPacked h) pData flag s)
      else convert_to_hash s
    else if h <? nTableSize t then Some (add_to_packed h pData flag s)
    else if (Z.shiftr h 1 <? nTableSize t) && (Z.shiftr (nTableSize t) 1 <? nNumOfElements t) then
      t ← zend_hash_packed_grow t; Some (add_to_packed h pData flag (t, w))
    else
      let t := if nTableSize t <=? nNumUsed t
               then set_nTableSize (u32 (nTableSize t + nTableSize t)) t else t in
      convert_to_hash (t, w)
  else if fl_UNINITIALIZED t then
    if h <? nTableSize t then Some (add_to_packed h pData flag (zend_hash_real_init_packed_ex t, w))
    else Some (add_index_to_hash h pData flag (zend_hash_real_init_mixed_ex t, w))
  else
    match (if negb (has_flag flag HASH_ADD_NEW) then zend_hash_index_find_bucket t h else None) with
    | Some idx =>
        if has_flag flag HASH_LOOKUP then Some (s, Some (PBucket idx))
        else Some (replace_at (PBucket idx) pData flag s)
    | None => s ← ZEND_HASH_IF_FULL_DO_RESIZE s; Some (add_index_to_hash h pData flag s)
    end.

Definition zend_hash_index_add h pData := zend_hash_index_add_or_update_i h pData HASH_ADD.
Definition zend_hash_index_add_new h pData :=
  zend_hash_index_add_or_update_i h pData (Z.lor HASH_ADD HASH_ADD_NEW).
Definition zend_hash_index_update h pData := zend_hash_index_add_or_update_i h pData HASH_UPDATE.
Definition zend_hash_next_index_insert pData (s : state V) :=
  zend_hash_index_add_or_update_i (u64 (nNextFreeElement s.1)) pData (Z.lor HASH_ADD HASH_ADD_NEXT) s.
Definition zend_hash_next_index_insert_new pData (s : state V) :=
  zend_hash_index_add_or_update_i (u64 (nNextFreeElement s.1)) pData
    (Z.lor HASH_ADD (Z.lor HASH_ADD_NEW HASH_ADD_NEXT)) s.
Definition zend_hash_index_lookup h := zend_hash_index_add_or_update_i h IS_NULL HASH_LOOKUP.
Definition zend_hash_index_add_empty_element h := zend_hash_index_add h IS_NULL.

Definition zend_hash_index_add_or_update (h : Z) (pData : zval V) (flag : Z) (s : state V)
    : option (state V * option zptr) :=
  if flag =? HASH_ADD then zend_hash_index_add h pData s
  else if flag =? Z.lor HASH_ADD HASH_ADD_NEW then zend_hash_index_add_new h pData s
  else if flag =? Z.lor HASH_ADD HASH_ADD_NEXT then zend_hash_next_index_insert pData s
  else if flag =? Z.lor HASH_ADD (Z.lor HASH_ADD_NEW HASH_ADD_NEXT)
       then zend_hash_next_index_insert_new pData s
  else zend_hash_index_update h pData s.

(** * Deletion *)

(** [do { nNumUsed--; } while (nNumUsed > 0 && UNDEF(nNumUsed-1))], after the
    first decrement: skip undefined positions below [n]. *)
Fixpoint trim_used (n : nat) t : Z :=
  match n with
  | O => 0
  | S m => if pos_undef t (Z.of_nat m) then trim_used m t else Z.of_nat n
  end.

(** The common part of both deletions: shrink [nNumUsed] if the last position
    [idx] is deleted, and clamp the positions that point past the end. *)
Definition shrink_used (idx : Z) (s : state V) : state V :=
  let (t, w) := s in
  if nNumUsed t - 1 =? idx then
    let t := set_nNumUsed (trim_used (Z.to_nat (nNumUsed t - 1)) t) t in
    let t := set_nInternalPointer (Z.min (nInternalPointer t) (nNumUsed t)) t in
    (t, zend_hash_iterators_clamp_max t w (nNumUsed t))
  else s.

(** Undefine the element, then run the destructor on the saved value. *)
Definition undef_and_dtor (zv : zptr) (s : state V) : state V :=
  let tmp := zload s zv in
  let (t, w) := zstore zv IS_UNDEF s in
  (t, run_dtor t tmp w).

Definition zend_hash_packed_del_val (idx : Z) (s : state V) : state V :=
  let (t, w) := s in
  let t := set_nNumOfElements (u32 (nNumOfElements t - 1)) t in
  undef_and_dtor (PPacked idx) (shrink_used idx (t, w)).

Definition zend_hash_del_el_ex (idx : Z) (prev : option Z) (s : state V) : state V :=
  let (t, w) := s in
  let p := bucket t idx in
  let t := match prev with
           | Some pr => upd_bucket pr (set_b_next (b_next p)) t
           | None => set_HT_HASH (nIndex_of (b_h p) (nTableMask t)) (b_next p) t
           end in
  let t := set_nNumOfElements (u32 (nNumOfElements t - 1)) t in
  undef_and_dtor (PBucket idx) (shrink_used idx (t, w)).

(** The bucket of the chain whose successor is [idx], searched from [i]. *)
Fixpoint chain_prev (n : nat) t (i idx : Z) : Z :=
  match n with
  | O => i
  | S n => if b_next (bucket t i) =? idx then i else chain_prev n t (b_next (bucket t i)) idx
  end.

(** [zend_string_release(p->key); p->key = NULL] *)
Definition release_key (idx : Z) (s : state V) : state V :=
  let (t, w) := s in
  match b_key (bucket t idx) with
  | Some k => (upd_bucket idx (set_b_key None) t, emit (EvRelease k) w)
  | None => s
  end.

Definition zend_hash_del_el (idx : Z) (s : state V) : state V :=
  let (t, w) := s in
  let i := chain_head t (b_h (bucket t idx)) in
  let prev := if i =? idx then None else Some (chain_prev (chain_fuel t) t i idx) in
  zend_hash_del_el_ex idx prev (release_key idx s).

Definition zend_hash_del_bucket := zend_hash_del_el.

(** The chain walk of the deletions: the matching bucket and its predecessor. *)
Fixpoint chain_find_prev (n : nat) t (test : Bucket V -> bool) (idx : Z) (prev : option Z)
    : option (Z * option Z) :=
  match n with
  | O => None
  | S n =>
      if idx =? HT_INVALID_IDX then None
      else
        let p := bucket t idx in
        if test p then Some (idx, prev) else chain_find_prev n t test (b_next p) (Some idx)
  end.

Definition zend_hash_del (key : Z) (s : state V) : state V * zend_result :=
  let t := s.1 in
  match chain_find_prev (chain_fuel t) t (match_key key) (chain_head t (ZSTR_H key)) None with
  | Some (idx, prev) => (zend_hash_del_el_ex idx prev (release_key idx s), SUCCESS)
  | None => (s, FAILURE)
  end.

Definition zend_hash_str_del (str : list Z) (s : state V) : state V * zend_result :=
  let t := s.1 in
  let h := zend_inline_hash_func str in
  match chain_find_prev (chain_fuel t) t (match_content h str) (chain_head t h) None with
  | Some (idx, prev) => (zend_hash_del_el_ex idx prev (release_key idx s), SUCCESS)
  | None => (s, FAILURE)
  end.

Definition zend_hash_del_ind (key : Z) (s : state V) : state V * zend_result :=
  let t := s.1 in
  match chain_find_prev (chain_fuel t) t (match_key key) (chain_head t (ZSTR_H key)) None with
  | Some (idx, prev) =>
      match b_val (bucket t idx) with
      | IS_INDIRECT a =>
          if Z_ISUNDEF (slot s.2 a) then (s, FAILURE)
          else let (t, w) := undef_and_dtor (PSlot a) s in ((set_fl_HAS_EMPTY_IND true t, w), SUCCESS)
      | _ => (zend_hash_del_el_ex idx prev (release_key idx s), SUCCESS)
      end
  | None => (s, FAILURE)
  end.

(** Unlike [zend_hash_del_ind], the destructor runs before the slot is undefined. *)
Definition zend_hash_str_del_ind (str : list Z) (s : state V) : state V * zend_result :=
  let t := s.1 in
  let h := zend_inline_hash_func str in
  match chain_find_prev (chain_fuel t) t (match_content h str) (chain_head t h) None with
  | Some (idx, prev) =>
      match b_val (bucket t idx) with
      | IS_INDIRECT a =>
          if Z_ISUNDEF (slot s.2 a) then (s, FAILURE)
          else
            let w := run_dtor t (slot s.2 a) s.2 in
            ((set_fl_HAS_EMPTY_IND true t, set_slot a IS_UNDEF w), SUCCESS)
      | _ => (zend_hash_del_el_ex idx prev (release_key idx s), SUCCESS)
      end
  | None => (s, FAILURE)
  end.

Definition zend_hash_index_del (h : Z) (s : state V) : state V * zend_result :=
  let t := s.1 in
  if fl_PACKED t then
    if (h <? nNumUsed t) && negb (Z_ISUNDEF (packed t h))
    then (zend_hash_packed_del_val h s, SUCCESS) else (s, FAILURE)
  else
    match chain_find_prev (chain_fuel t) t (match_index h) (chain_head t h) None with
    | Some (idx, prev) => (zend_hash_del_el_ex idx prev s, SUCCESS)
    | None => (s, FAILURE)
    end.

End Ops.
