(* ===== verification/HashDict.v ===== *)
(** The abstract specification of the hash table: an insertion-ordered
    dictionary, a list of key/value pairs without repeated keys.  Each
    operation of Zend/zend_hash.c is proved to refine one of the functions of
    this file. *)

From stdpp Require Import base numbers list gmap.
From S2P Require Import Prelude ZendTypes.

(** A key of a table: an integer ([zend_ulong]) or string contents. *)
Inductive hkey := KInt (h : Z) | KStr (s : list Z).

#[export] Instance hkey_eq_dec : EqDecision hkey.
Proof. solve_decision. Defined.

(** The 64-bit hash under which a key is filed. *)
Definition key_hash (k : hkey) : Z :=
  match k with KInt h => h | KStr s => zend_inline_hash_func s end.

Section Dict.
Context {A : Type}.
Implicit Types (d : list (hkey * A)) (k : hkey) (v : A).

Fixpoint dict_lookup k d : option A :=
  match d with
  | [] => None
  | (k', v) :: d => if decide (k = k') then Some v else dict_lookup k d
  end.

(** Replace the value in place, or append. *)
Fixpoint dict_set k v d : list (hkey * A) :=
  match d with
  | [] => [(k, v)]
  | (k', v') :: d => if decide (k = k') then (k', v) :: d else (k', v') :: dict_set k v d
  end.

Definition dict_del k d : list (hkey * A) := filter (fun e => e.1 <> k) d.

(** Append unless present. *)
Definition dict_add k v d : list (hkey * A) :=
  match dict_lookup k d with Some _ => d | None => d ++ [(k, v)] end.

Definition dict_ok d : Prop := NoDup d.*1.

(** ** Laws *)

Lemma dict_lookup_None k d : dict_lookup k d = None <-> k ∉ d.*1.
Proof.
  induction d as [|[k' v'] d IH]; simpl; [set_solver|].
  destruct (decide (k = k')) as [->|]; set_solver.
Qed.

Lemma dict_lookup_Some k v d : dict_ok d -> (dict_lookup k d = Some v <-> (k, v) ∈ d).
Proof.
  unfold dict_ok. induction d as [|[k' v'] d IH]; simpl; intros Hd; [set_solver|].
  apply NoDup_cons in Hd as [Hn Hd]. specialize (IH Hd).
  destruct (decide (k = k')) as [->|].
  - split; [intros [= ->]; set_solver|]. intros [Heq|Hin]%elem_of_cons; [congruence|].
    exfalso. apply Hn, (list_elem_of_fmap_2 fst _ (k', v)). done.
  - rewrite IH. set_solver.
Qed.

Lemma dict_set_absent k v d : k ∉ d.*1 -> dict_set k v d = d ++ [(k, v)].
Proof.
  induction d as [|[k' v'] d IH]; simpl; intros Hn; [done|].
  rewrite decide_False by set_solver. rewrite IH by set_solver. done.
Qed.

Lemma dict_set_lookup_eq k v d : dict_lookup k (dict_set k v d) = Some v.
Proof.
  induction d as [|[k' v'] d IH]; simpl; [by rewrite decide_True|].
  destruct (decide (k = k')) as [->|]; simpl; [by rewrite decide_True|].
  by rewrite decide_False.
Qed.

Lemma dict_set_lookup_ne k k' v d : k <> k' -> dict_lookup k' (dict_set k v d) = dict_lookup k' d.
Proof.
  intros Hne. induction d as [|[k1 v1] d IH]; simpl; [by rewrite decide_False|].
  destruct (decide (k = k1)) as [->|]; simpl.
  - by rewrite !decide_False by done.
  - destruct (decide (k' = k1)); [done|]. apply IH.
Qed.

Lemma dict_set_keys_present k v d : k ∈ d.*1 -> (dict_set k v d).*1 = d.*1.
Proof.
  induction d as [|[k1 v1] d IH]; csimpl; [set_solver|]. intros Hin.
  destruct (decide (k = k1)) as [->|]; [done|]. csimpl. rewrite IH; [done|]. set_solver.
Qed.

Lemma dict_app_lookup k d1 d2 :
  dict_lookup k (d1 ++ d2) =
  match dict_lookup k d1 with Some v => Some v | None => dict_lookup k d2 end.
Proof.
  induction d1 as [|[k1 v1] d IH]; simpl; [done|]. by destruct (decide (k = k1)).
Qed.

Lemma dict_ok_snoc k v d : dict_ok d -> k ∉ d.*1 -> dict_ok (d ++ [(k, v)]).
Proof.
  unfold dict_ok. intros Hd Hn. rewrite fmap_app. apply NoDup_app. split; [done|].
  split; [set_solver|]. apply NoDup_singleton.
Qed.

Lemma dict_set_ok k v d : dict_ok d -> dict_ok (dict_set k v d).
Proof.
  intros Hd. destruct (decide (k ∈ d.*1)) as [Hin|Hn].
  - unfold dict_ok. by rewrite dict_set_keys_present.
  - rewrite dict_set_absent by done. by apply dict_ok_snoc.
Qed.

Lemma dict_del_lookup_eq k d : dict_lookup k (dict_del k d) = None.
Proof.
  apply dict_lookup_None. unfold dict_del.
  intros ([k' v'] & -> & [? ?]%list_elem_of_filter)%list_elem_of_fmap. done.
Qed.

Lemma dict_del_lookup_ne k k' d : k <> k' -> dict_lookup k' (dict_del k d) = dict_lookup k' d.
Proof.
  intros Hne. unfold dict_del. induction d as [|[k1 v1] d IH]; simpl; [done|].
  rewrite filter_cons. simpl. destruct (decide (k1 <> k)) as [Hn|Heq]; simpl.
  - by rewrite IH.
  - rewrite decide_False; [done|]. intros ->. apply Heq. done.
Qed.

Lemma dict_del_absent k d : k ∉ d.*1 -> dict_del k d = d.
Proof.
  unfold dict_del. induction d as [|[k1 v1] d IH]; simpl; [done|]. intros Hn.
  rewrite filter_cons_True by set_solver. rewrite IH by set_solver. done.
Qed.

Lemma dict_del_ok k d : dict_ok d -> dict_ok (dict_del k d).
Proof.
  unfold dict_ok, dict_del. induction d as [|[k1 v1] d IH]; csimpl; intros Hd; [done|].
  apply NoDup_cons in Hd as [Hn Hd]. rewrite filter_cons.
  destruct (decide _); csimpl; [|by apply IH].
  apply NoDup_cons. split; [|by apply IH].
  intros (e & -> & [_ He]%list_elem_of_filter)%list_elem_of_fmap.
  apply Hn. by apply list_elem_of_fmap_2.
Qed.

Lemma dict_set_app k v d1 d2 : k ∉ d1.*1 -> dict_set k v (d1 ++ d2) = d1 ++ dict_set k v d2.
Proof.
  induction d1 as [|[k' v'] d IH]; csimpl; intros Hn; [done|].
  rewrite decide_False by set_solver. rewrite IH by set_solver. done.
Qed.

(** Replacing or deleting a binding in the middle of a dictionary. *)
Lemma dict_set_mid k v v0 d1 d2 :
  dict_ok (d1 ++ (k, v0) :: d2) -> dict_set k v (d1 ++ (k, v0) :: d2) = d1 ++ (k, v) :: d2.
Proof.
  unfold dict_ok. rewrite fmap_app, NoDup_app. intros (_ & Hn & _).
  rewrite dict_set_app; [simpl; by rewrite decide_True|]. intros Hin. apply (Hn k Hin). set_solver.
Qed.

Lemma dict_del_mid k v0 d1 d2 :
  dict_ok (d1 ++ (k, v0) :: d2) -> dict_del k (d1 ++ (k, v0) :: d2) = d1 ++ d2.
Proof.
  unfold dict_ok. rewrite fmap_app, NoDup_app. csimpl. intros (_ & Hn & Hd).
  apply NoDup_cons in Hd as [Hn2 _]. unfold dict_del.
  rewrite filter_app, filter_cons_False by (simpl; congruence).
  fold (dict_del k d1). fold (dict_del k d2). rewrite !dict_del_absent; [done|done|].
  intros Hin. apply (Hn k Hin). set_solver.
Qed.

Lemma dict_set_key_in k k' v d : k' ∈ (dict_set k v d).*1 <-> k' = k \/ k' ∈ d.*1.
Proof.
  destruct (decide (k ∈ d.*1)) as [Hin|Hn].
  - rewrite dict_set_keys_present by done. naive_solver.
  - rewrite dict_set_absent, fmap_app by done. csimpl. set_solver.
Qed.

End Dict.
