(* ===== verification/HashChain.v ===== *)
(** Collision chains: what the index area and the [Z_NEXT] words of a mixed
    table represent, and how linking and unlinking a bucket change it. *)

From stdpp Require Import base numbers list gmap.
From S2P Require Import Prelude ZendTypes HashTable HashDict.

(** * Masks and cells *)

Lemma lor_ge_r a b : 0 <= a -> 0 <= b -> b <= Z.lor a b.
Proof.
  intros Ha Hb.
  assert (Z.ldiff b (Z.lor a b) = 0) as H.
  { apply Z.bits_inj'. intros n Hn. rewrite Z.ldiff_spec, Z.lor_spec, Z.bits_0.
    by destruct (Z.testbit a n), (Z.testbit b n). }
  apply Z.ldiff_le in H; [lia|]. apply Z.lor_nonneg. done.
Qed.

Lemma lor_lt_pow2 a b n : 0 <= n -> 0 <= a < 2 ^ n -> 0 <= b < 2 ^ n -> 0 <= Z.lor a b < 2 ^ n.
Proof.
  intros Hn Ha Hb. split; [apply Z.lor_nonneg; lia|].
  destruct (Z.eq_dec (Z.lor a b) 0) as [->|Hne]; [lia|].
  assert (0 <= Z.lor a b) by (apply Z.lor_nonneg; lia).
  apply Z.log2_lt_pow2; [lia|]. rewrite Z.log2_lor by lia.
  apply Z.max_lub_lt.
  - destruct (Z.eq_dec a 0) as [->|]; [simpl|apply Z.log2_lt_pow2; lia].
    destruct (Z.eq_dec n 0) as [->|]; [|lia]. assert (b = 0) as -> by lia. done.
  - destruct (Z.eq_dec b 0) as [->|]; [simpl|apply Z.log2_lt_pow2; lia].
    destruct (Z.eq_dec n 0) as [->|]; [|lia]. assert (a = 0) as -> by lia. done.
Qed.

Lemma u32_lor a b : u32 (Z.lor a b) = Z.lor (u32 a) (u32 b).
Proof.
  unfold u32. rewrite <- !Z.land_ones by lia. apply Z.bits_inj'. intros n Hn.
  rewrite Z.lor_spec, !Z.land_spec, Z.lor_spec.
  by destruct (Z.testbit a n), (Z.testbit b n), (Z.testbit (Z.ones 32) n).
Qed.

(** The computed index never leaves the index area. *)
Lemma nIndex_of_range h mask :
  0 <= mask < 2 ^ 32 -> mask <= nIndex_of h mask < 2 ^ 32.
Proof.
  intros Hm. unfold nIndex_of. pose proof (u32_range (Z.lor h mask)). split; [|lia].
  rewrite u32_lor, (u32_small mask) by lia. apply lor_ge_r; [|lia].
  pose proof (u32_range h). lia.
Qed.

Section Chain.
Context {V : Type} {E : ZEnv V}.
Implicit Types (t : HashTable V) (w : EG V) (b : Bucket V) (v : zval V).

(** * Access lemmas *)

Lemma bucket_upd_eq i f t : 0 <= i < llen (arData t) -> bucket (upd_bucket i f t) i = f (bucket t i).
Proof. intros. unfold bucket at 1, upd_bucket. simpl. by rewrite lget_lset_eq. Qed.

Lemma bucket_upd_ne i j f t : 0 <= i -> 0 <= j -> i <> j -> bucket (upd_bucket i f t) j = bucket t j.
Proof. intros. unfold bucket at 1, upd_bucket. simpl. by rewrite lget_lset_ne. Qed.

Lemma llen_upd_bucket i f t : llen (arData (upd_bucket i f t)) = llen (arData t).
Proof. apply llen_lset. Qed.

(** * Live buckets and their cells *)

Definition live t (i : Z) : bool := negb (Z_ISUNDEF (b_val (bucket t i))).

(** The cell of the index area where bucket [i] is filed. *)
Definition cell t (i : Z) : Z := nIndex_of (b_h (bucket t i)) (nTableMask t).

(** Abstract key of a bucket. *)
Definition bucket_key b : hkey :=
  match b_key b with Some k => KStr (ZSTR_VAL k) | None => KInt (b_h b) end.

(** A bucket stores the hash of its key. *)
Definition bucket_ok b : Prop := b_h b = key_hash (bucket_key b).

(** [chain_list t idx l]: following [Z_NEXT] from [idx] visits exactly [l]. *)
Fixpoint chain_list t (idx : Z) (l : list Z) : Prop :=
  match l with
  | [] => idx = HT_INVALID_IDX
  | i :: l => idx = i /\ chain_list t (b_next (bucket t i)) l
  end.

(** The live buckets below [n] filed in cell [c], from high to low. *)
Definition cell_list t (n : nat) (c : Z) : list Z :=
  filter (fun i => live t i = true /\ cell t i = c) (reverse (zrange 0 n)).

(** Every cell of the index area heads the chain of its buckets below [n]. *)
Definition linked t (n : nat) : Prop :=
  forall c, nTableMask t <= c < 2 ^ 32 -> chain_list t (HT_HASH t c) (cell_list t n c).

(** Shape of the areas of a mixed table. *)
Record areas_ok t : Prop := {
  ao_mask : 0 <= nTableMask t < 2 ^ 32;
  ao_hash : llen (arHash t) = 2 ^ 32 - nTableMask t;
  ao_data : llen (arData t) = nTableSize t;
  ao_size : 8 <= nTableSize t <= HT_MAX_SIZE
}.

(** ** Basic facts *)

Lemma elem_of_cell_list t n c i :
  i ∈ cell_list t n c <-> (0 <= i < Z.of_nat n) /\ live t i = true /\ cell t i = c.
Proof.
  unfold cell_list. rewrite list_elem_of_filter, elem_of_reverse, elem_of_zrange. naive_solver lia.
Qed.

Lemma NoDup_cell_list t n c : NoDup (cell_list t n c).
Proof. apply NoDup_filter. rewrite reverse_Permutation. apply NoDup_zrange. Qed.

Lemma length_cell_list t n c : (length (cell_list t n c) <= n)%nat.
Proof.
  unfold cell_list. etrans; [apply length_filter|]. rewrite length_reverse.
  unfold zrange. by rewrite length_fmap, length_seq.
Qed.

Lemma cell_list_S t n c :
  cell_list t (S n) c =
  if live t (Z.of_nat n) && (cell t (Z.of_nat n) =? c)
  then Z.of_nat n :: cell_list t n c else cell_list t n c.
Proof.
  unfold cell_list. rewrite zrange_S, reverse_snoc, filter_cons.
  change (0 + Z.of_nat n) with (Z.of_nat n).
  case_decide as Hd; destruct (live t (Z.of_nat n)); cbn [andb]; try naive_solver.
  - destruct Hd as [_ ->]. by rewrite Z.eqb_refl.
  - destruct (Z.eqb_spec (cell t (Z.of_nat n)) c); naive_solver.
Qed.

(** [cell_list] depends only on liveness and hashes below [n]. *)
Lemma cell_list_ext t t' n c :
  (forall i, 0 <= i < Z.of_nat n -> live t' i = live t i /\ cell t' i = cell t i) ->
  cell_list t' n c = cell_list t n c.
Proof.
  intros H. unfold cell_list.
  assert (forall l : list Z, (forall i, i ∈ l -> 0 <= i < Z.of_nat n) ->
    filter (fun i => live t' i = true /\ cell t' i = c) l =
    filter (fun i => live t i = true /\ cell t i = c) l) as Hf.
  { induction l as [|i l IH]; intros Hl; [done|]. rewrite !filter_cons.
    destruct (H i) as [-> ->]; [apply Hl; set_solver|].
    rewrite IH by set_solver. done. }
  apply Hf. intros i. rewrite elem_of_reverse, elem_of_zrange. lia.
Qed.

(** A chain is unaffected by changes outside its buckets. *)
Lemma chain_list_ext t t' l : forall idx,
  (forall i, i ∈ l -> b_next (bucket t' i) = b_next (bucket t i)) ->
  chain_list t idx l -> chain_list t' idx l.
Proof.
  induction l as [|i l IH]; simpl; intros idx H; [done|].
  intros [-> Hc]. split; [done|]. rewrite H by set_solver. apply IH; [|done]. set_solver.
Qed.

Lemma linked_ext t t' n :
  nTableMask t' = nTableMask t -> arHash t' = arHash t ->
  (forall k, 0 <= k < Z.of_nat n -> bucket t' k = bucket t k) -> linked t n -> linked t' n.
Proof.
  intros Hm Hh Hb Hl c. rewrite Hm. intros Hc.
  rewrite (cell_list_ext t t').
  2:{ intros i Hi. unfold live, cell. by rewrite Hb, Hm. }
  unfold HT_HASH. rewrite Hm, Hh. apply (chain_list_ext t); [|by apply Hl].
  intros i (Hi & _)%elem_of_cell_list. by rewrite Hb.
Qed.

(** ** Searching a chain *)

Definition last_or (prev : option Z) (l : list Z) : option Z :=
  match last l with Some p => Some p | None => prev end.

Lemma last_or_cons prev i l : last_or prev (i :: l) = last_or (Some i) l.
Proof. unfold last_or. rewrite last_cons. by destruct (last l). Qed.

Lemma chain_find_spec t test l : forall fuel idx,
  chain_list t idx l -> (forall i, i ∈ l -> i <> HT_INVALID_IDX) -> (length l < fuel)%nat ->
  chain_find fuel t test idx = head (filter (fun i => test (bucket t i) = true) l).
Proof.
  induction l as [|i l IH]; intros fuel idx Hc Hl Hf; (destruct fuel as [|fuel]; [simpl in Hf; lia|]).
  - simpl in *. by rewrite Hc.
  - destruct Hc as [-> Hc]. simpl. destruct (Z.eqb_spec i HT_INVALID_IDX) as [Heq|_].
    { exfalso. apply (Hl i); [set_solver|done]. }
    rewrite filter_cons. destruct (test (bucket t i)) eqn:Ht.
    + by rewrite decide_True.
    + rewrite decide_False by naive_solver. apply IH; [done|set_solver|simpl in Hf; lia].
Qed.

Lemma chain_find_prev_spec t test l : forall fuel idx prev,
  chain_list t idx l -> (forall i, i ∈ l -> i <> HT_INVALID_IDX) -> (length l < fuel)%nat ->
  match chain_find_prev fuel t test idx prev with
  | None => filter (fun i => test (bucket t i) = true) l = []
  | Some (j, pr) =>
      exists l1 l2, l = l1 ++ j :: l2 /\ test (bucket t j) = true /\
        (forall i, i ∈ l1 -> test (bucket t i) = false) /\
        pr = last_or prev l1
  end.
Proof.
  induction l as [|i l IH]; intros fuel idx prev Hc Hl Hf; (destruct fuel as [|fuel]; [simpl in Hf; lia|]).
  - simpl in *. by rewrite Hc.
  - destruct Hc as [-> Hc]. simpl. destruct (Z.eqb_spec i HT_INVALID_IDX) as [Heq|_].
    { exfalso. apply (Hl i); [set_solver|done]. }
    destruct (test (bucket t i)) eqn:Ht.
    + exists [], l. split; [done|]. split; [done|]. split; [set_solver|done].
    + specialize (IH fuel (b_next (bucket t i)) (Some i) Hc).
      destruct (chain_find_prev fuel t test (b_next (bucket t i)) (Some i)) as [[j pr]|].
      * destruct IH as (l1 & l2 & -> & Hj & Hn & ->); [set_solver|simpl in Hf; lia|].
        exists (i :: l1), l2. split; [done|]. split; [done|]. split; [set_solver|].
        by rewrite last_or_cons.
      * rewrite filter_cons_False by congruence. apply IH; [set_solver|simpl in Hf; lia].
Qed.

(** The search for the predecessor of a bucket of the chain. *)
Lemma chain_prev_spec t l1 j l2 : forall fuel p idx,
  chain_list t idx (p :: l1 ++ j :: l2) -> j ∉ l1 -> (length l1 < fuel)%nat ->
  Some (chain_prev fuel t p j) = last_or (Some p) l1.
Proof.
  induction l1 as [|q l1 IH]; intros fuel p idx [-> Hc] Hj Hf; (destruct fuel as [|fuel]; [simpl in Hf; lia|]).
  - simpl. destruct Hc as [-> _]. by rewrite Z.eqb_refl.
  - simpl. destruct Hc as [Hq Hc]. rewrite Hq.
    destruct (Z.eqb_spec q j) as [->|Hne]; [exfalso; set_solver|].
    rewrite last_or_cons. apply (IH fuel q q); [done|set_solver|simpl in Hf; lia].
Qed.

End Chain.
