(* ===== verification/HashInv.v ===== *)
(** The representation invariant of a hash table, and what linking,
    unlinking, rehashing and growing do to it.

    [entries] is the content of a mixed table (value, hash, key of each live
    bucket, in bucket order); the chain structure is redundant with it
    ([linked]).  [elems] is the abstract dictionary a table represents. *)

From stdpp Require Import base numbers list gmap.
From S2P Require Import Prelude ZendTypes HashTable HashDict HashChain.

Section Inv.
Context {V : Type} {E : ZEnv V}.
Implicit Types (t : HashTable V) (w : EG V) (b : Bucket V) (v : zval V).

(** * Contents *)

Definition entry : Type := zval V * Z * option Z.

Definition content b : entry := (b_val b, b_h b, b_key b).

Definition entry_key (e : entry) : hkey :=
  match e.2 with Some k => KStr (ZSTR_VAL k) | None => KInt e.1.2 end.

Definition entry_elem (e : entry) : hkey * zval V := (entry_key e, e.1.1).

(** The stored hash is the hash of the key; integer keys are 64-bit. *)
Definition entry_ok (e : entry) : Prop := e.1.2 = key_hash (entry_key e) /\ 0 <= e.1.2 < 2 ^ 64.

Definition live_entry t (i : Z) : option entry :=
  if live t i then Some (content (bucket t i)) else None.

(** The live buckets among [i, i+1, ..., i+n-1]. *)
Definition entries t (i : Z) (n : nat) : list entry := omap (live_entry t) (zrange i n).

Definition mixed_entries t : list entry := entries t 0 (Z.to_nat (nNumUsed t)).

Definition packed_elem t (i : Z) : option (hkey * zval V) :=
  if Z_ISUNDEF (packed t i) then None else Some (KInt i, packed t i).

Definition packed_elems t (i : Z) (n : nat) : list (hkey * zval V) :=
  omap (packed_elem t) (zrange i n).

(** The dictionary represented by a table. *)
Definition elems t : list (hkey * zval V) :=
  if fl_PACKED t then packed_elems t 0 (Z.to_nat (nNumUsed t))
  else entry_elem <$> mixed_entries t.

(** * Invariants *)

(** The table size is a power of two between [HT_MIN_SIZE] and [HT_MAX_SIZE]. *)
Definition size_ok (n : Z) : Prop := exists k, 3 <= k <= 30 /\ n = 2 ^ k.

(** Everything about a mixed table but the chains. *)
Record data_ok t : Prop := {
  do_packed : fl_PACKED t = false;
  do_init : fl_UNINITIALIZED t = false;
  do_size : size_ok (nTableSize t);
  do_mask : nTableMask t = HT_SIZE_TO_MASK (nTableSize t);
  do_data : llen (arData t) = nTableSize t;
  do_used : 0 <= nNumUsed t <= nTableSize t;
  do_count : nNumOfElements t = llen (mixed_entries t);
  do_entries : Forall entry_ok (mixed_entries t);
  do_keys : NoDup (entry_key <$> mixed_entries t)
}.

Record mixed_ok t : Prop := {
  mx_data : data_ok t;
  mx_hash : llen (arHash t) = 2 ^ 32 - nTableMask t;
  mx_linked : linked t (Z.to_nat (nNumUsed t))
}.

Record packed_ok t : Prop := {
  pk_packed : fl_PACKED t = true;
  pk_init : fl_UNINITIALIZED t = false;
  pk_size : size_ok (nTableSize t);
  pk_mask : nTableMask t = HT_MIN_MASK;
  pk_hash : arHash t = [HT_INVALID_IDX; HT_INVALID_IDX];
  pk_data : llen (arPacked t) = nTableSize t;
  pk_used : 0 <= nNumUsed t <= nTableSize t;
  pk_count : nNumOfElements t = llen (elems t)
}.

Record uninit_ok t : Prop := {
  un_packed : fl_PACKED t = false;
  un_init : fl_UNINITIALIZED t = true;
  un_size : size_ok (nTableSize t);
  un_mask : nTableMask t = HT_MIN_MASK;
  un_hash : arHash t = [HT_INVALID_IDX; HT_INVALID_IDX];
  un_used : nNumUsed t = 0;
  un_count : nNumOfElements t = 0
}.

(** [nNextFreeElement] is above every integer key, until it saturates. *)
Definition next_free_ok t : Prop :=
  ZEND_LONG_MIN <= nNextFreeElement t <= ZEND_LONG_MAX /\
  forall h, KInt h ∈ (elems t).*1 ->
    s64 h < nNextFreeElement t \/ nNextFreeElement t = ZEND_LONG_MAX.

(** Well-formed tables: the three states of the representation. *)
Definition repr_ok t : Prop := uninit_ok t \/ packed_ok t \/ mixed_ok t.

Definition wf t : Prop := repr_ok t /\ next_free_ok t.

(** * Sizes and masks *)

Lemma size_ok_bounds n : size_ok n -> 8 <= n <= HT_MAX_SIZE.
Proof.
  intros (k & Hk & ->). unfold HT_MAX_SIZE.
  change 8 with (2 ^ 3). change 1073741824 with (2 ^ 30).
  split; apply Z.pow_le_mono_r; lia.
Qed.

Lemma size_ok_double n : size_ok n -> n < HT_MAX_SIZE -> size_ok (n + n).
Proof.
  intros (k & Hk & ->) Hlt. exists (k + 1). split.
  - split; [lia|]. destruct (Z.eq_dec k 30) as [->|]; [|lia]. unfold HT_MAX_SIZE in Hlt. simpl in Hlt. lia.
  - rewrite Z.pow_add_r by lia. lia.
Qed.

Lemma mask_eq n : size_ok n -> HT_SIZE_TO_MASK n = 2 ^ 32 - 2 * n.
Proof.
  intros Hn%size_ok_bounds. unfold HT_MAX_SIZE in Hn. unfold HT_SIZE_TO_MASK, u32.
  symmetry. apply (Z.mod_unique _ _ (-1)); lia.
Qed.

Lemma cells_eq n : size_ok n -> HT_HASH_CELLS (HT_SIZE_TO_MASK n) = 2 * n.
Proof.
  intros Hn. rewrite mask_eq by done. apply size_ok_bounds in Hn. unfold HT_MAX_SIZE in Hn.
  unfold HT_HASH_CELLS, u32. symmetry. apply (Z.mod_unique _ _ (-1)); lia.
Qed.

Lemma data_ok_mask_range t : data_ok t -> 0 <= nTableMask t < 2 ^ 32.
Proof.
  intros H. pose proof (do_size _ H) as Hs. rewrite (do_mask _ H), mask_eq by done.
  apply size_ok_bounds in Hs. unfold HT_MAX_SIZE in Hs. lia.
Qed.

Lemma mixed_areas t : mixed_ok t -> areas_ok t.
Proof.
  intros [Hd Hh _]. split; [by apply data_ok_mask_range|done|by apply do_data|].
  by apply size_ok_bounds, do_size.
Qed.

(** * Entries *)

Lemma entries_S t i n :
  entries t i (S n) = entries t i n ++ option_list (live_entry t (i + Z.of_nat n)).
Proof.
  unfold entries. rewrite zrange_S, omap_app. done.
Qed.

Lemma entries_cons t i n :
  entries t i (S n) = option_list (live_entry t i) ++ entries t (i + 1) n.
Proof. unfold entries. rewrite zrange_cons. simpl. by destruct (live_entry _ _). Qed.

Lemma entries_ext t t' i n :
  (forall k, i <= k < i + Z.of_nat n -> content (bucket t' k) = content (bucket t k)) ->
  entries t' i n = entries t i n.
Proof.
  intros H. revert i H. induction n as [|n IH]; intros i H; [done|].
  rewrite !entries_cons. rewrite IH by (intros; apply H; lia). f_equal. f_equal.
  unfold live_entry, live. specialize (H i ltac:(lia)). unfold content in *. injection H as -> -> ->. done.
Qed.

Lemma entries_app t i n m :
  entries t i (n + m) = entries t i n ++ entries t (i + Z.of_nat n) m.
Proof. unfold entries. by rewrite zrange_app, omap_app. Qed.

Lemma elem_of_entries t i n e :
  e ∈ entries t i n <->
  exists k, i <= k < i + Z.of_nat n /\ live t k = true /\ content (bucket t k) = e.
Proof.
  unfold entries. rewrite list_elem_of_omap. unfold live_entry. split.
  - intros (k & Hk%elem_of_zrange & He). exists k. destruct (live t k); naive_solver.
  - intros (k & Hk & Hl & He). exists k. rewrite elem_of_zrange, Hl. naive_solver.
Qed.

Lemma content_live t t' k : content (bucket t' k) = content (bucket t k) -> live t' k = live t k.
Proof. unfold live, content. intros [= -> _ _]. done. Qed.

Lemma bucket_key_content b : bucket_key b = entry_key (content b).
Proof. done. Qed.

(** * The frame of the chain operations *)

(** All the fields other than the two areas, the fill mark and the internal pointer. *)
Definition frame t : HashTable V :=
  set_arHash [] (set_arData [] (set_nNumUsed 0 (set_nInternalPointer 0 t))).

Lemma frame_fields t t' : frame t' = frame t ->
  nTableMask t' = nTableMask t /\ nTableSize t' = nTableSize t /\
  nNumOfElements t' = nNumOfElements t /\ fl_PACKED t' = fl_PACKED t /\
  fl_UNINITIALIZED t' = fl_UNINITIALIZED t /\ nNextFreeElement t' = nNextFreeElement t /\
  nIteratorsCount t' = nIteratorsCount t /\ ht_id t' = ht_id t.
Proof. destruct t, t'. unfold frame. simpl. intros H. injection H. intros; subst. tauto. Qed.

(** * Linking a bucket *)

Lemma link_bucket_content t i j : 0 <= i -> 0 <= j ->
  content (bucket (link_bucket i t) j) = content (bucket t j).
Proof.
  intros Hi Hj. unfold link_bucket.
  change (bucket (set_HT_HASH ?n ?x ?u) j) with (bucket u j).
  unfold bucket at 1, upd_bucket, lget, lset. simpl.
  destruct (decide (Z.to_nat i = Z.to_nat j)) as [Heq|Hne].
  - rewrite Heq. rewrite list_lookup_insert. case_decide; simpl.
    + unfold bucket, lget. replace i with j by lia. done.
    + unfold bucket, lget. destruct (arData t !! Z.to_nat j) eqn:Hl; [|done].
      apply lookup_lt_Some in Hl. lia.
  - rewrite list_lookup_insert_ne by done. done.
Qed.

Lemma HT_HASH_set_eq t n x :
  nTableMask t <= n < 2 ^ 32 -> llen (arHash t) = 2 ^ 32 - nTableMask t ->
  HT_HASH (set_HT_HASH n x t) n = x.
Proof. intros. unfold HT_HASH. simpl. apply lget_lset_eq. lia. Qed.

Lemma HT_HASH_set_ne t n c x :
  nTableMask t <= n -> nTableMask t <= c -> c <> n ->
  HT_HASH (set_HT_HASH n x t) c = HT_HASH t c.
Proof. intros. unfold HT_HASH. simpl. apply lget_lset_ne; lia. Qed.

Lemma cell_range t i : 0 <= nTableMask t < 2 ^ 32 -> nTableMask t <= cell t i < 2 ^ 32.
Proof. intros. by apply nIndex_of_range. Qed.

Lemma link_bucket_linked t n :
  areas_ok t -> Z.of_nat n < nTableSize t -> live t (Z.of_nat n) = true ->
  linked t n -> linked (link_bucket (Z.of_nat n) t) (S n).
Proof.
  intros Ha Hn Hl Hlk c Hc. set (t' := link_bucket (Z.of_nat n) t).
  change (nTableMask t') with (nTableMask t) in Hc.
  pose proof (cell_range t (Z.of_nat n) (ao_mask _ Ha)) as Hr.
  assert (forall j, 0 <= j -> live t' j = live t j /\ cell t' j = cell t j) as Hsame.
  { intros j Hj. pose proof (link_bucket_content t (Z.of_nat n) j ltac:(lia) Hj) as Hcj.
    split; [by apply content_live|]. unfold cell. unfold content in Hcj. injection Hcj as _ Hh _.
    unfold t'. by rewrite Hh. }
  rewrite cell_list_S. destruct (Hsame (Z.of_nat n) ltac:(lia)) as [-> ->]. rewrite Hl. cbn [andb].
  rewrite (cell_list_ext t t') by (intros; apply Hsame; lia).
  assert (forall i, i ∈ cell_list t n c -> b_next (bucket t' i) = b_next (bucket t i)) as Hnx.
  { intros i (Hi & _ & _)%elem_of_cell_list. unfold t', link_bucket.
    change (bucket (set_HT_HASH ?n ?x ?u) i) with (bucket u i). by rewrite bucket_upd_ne by lia. }
  specialize (Hlk c Hc). unfold t' at 2, link_bucket. fold (cell t (Z.of_nat n)).
  destruct (Z.eqb_spec (cell t (Z.of_nat n)) c) as [<-|Hne].
  - rewrite HT_HASH_set_eq; [|done|exact (ao_hash _ Ha)].
    split; [done|]. apply (chain_list_ext t); [done|].
    replace (b_next (bucket t' (Z.of_nat n))) with (HT_HASH t (cell t (Z.of_nat n))); [done|].
    unfold t', link_bucket. change (bucket (set_HT_HASH ?n ?x ?u) ?i) with (bucket u i).
    rewrite bucket_upd_eq; [done|]. rewrite (ao_data _ Ha). lia.
  - rewrite HT_HASH_set_ne; [|exact (proj1 Hr)|exact (proj1 Hc)|done].
    by apply (chain_list_ext t).
Qed.

Lemma linked_skip t n : live t (Z.of_nat n) = false -> linked t n -> linked t (S n).
Proof. intros Hl Hlk c Hc. rewrite cell_list_S, Hl. simpl. by apply Hlk. Qed.

Lemma linked_reset t :
  0 < nTableMask t < 2 ^ 32 -> linked (HT_HASH_RESET t) 0.
Proof.
  intros Hm c Hc. simpl in Hc. unfold cell_list. simpl. unfold HT_HASH, HT_HASH_RESET. simpl.
  rewrite lget_replicate; [done|].
  assert (HT_HASH_CELLS (nTableMask t) = 2 ^ 32 - nTableMask t) as ->; [|lia].
  unfold HT_HASH_CELLS, u32. symmetry. apply (Z.mod_unique _ _ (-1)); lia.
Qed.

End Inv.
