(* ===== verification/HashRehash.v ===== *)
(** Rehashing, compaction, growth and the packed/mixed conversions preserve
    the represented dictionary and (re)establish the chain invariant. *)

From stdpp Require Import base numbers list gmap.
From S2P Require Import Prelude ZendTypes HashTable HashDict HashChain HashInv.

Section Rehash.
Context {V : Type} {E : ZEnv V}.
Implicit Types (t : HashTable V) (w : EG V) (b : Bucket V) (v : zval V).

(** * Content-preserving steps *)

(** [t'] differs from [t] at most in the index area, the [Z_NEXT] words and
    the internal pointer. *)
Record same_content t t' : Prop := {
  sc_frame : frame t' = frame t;
  sc_used : nNumUsed t' = nNumUsed t;
  sc_data : llen (arData t') = llen (arData t);
  sc_hash : llen (arHash t') = llen (arHash t);
  sc_content : forall k, 0 <= k -> content (bucket t' k) = content (bucket t k)
}.

Lemma same_content_refl t : same_content t t.
Proof. by split. Qed.

Lemma same_content_trans t1 t2 t3 : same_content t1 t2 -> same_content t2 t3 -> same_content t1 t3.
Proof.
  intros [] []. split; try congruence. intros k Hk. by rewrite sc_content1, sc_content0.
Qed.

Lemma same_content_areas t t' : same_content t t' -> areas_ok t -> areas_ok t'.
Proof.
  intros [Hf _ Hd Hh _] [? ? ? ?]. apply frame_fields in Hf as (Hm & Hs & _).
  split; by rewrite ?Hm, ?Hs, ?Hd, ?Hh.
Qed.

Lemma same_content_entries t t' i n : 0 <= i -> same_content t t' -> entries t' i n = entries t i n.
Proof. intros Hi H. apply entries_ext. intros. apply (sc_content _ _ H). lia. Qed.

Lemma link_bucket_same t i : 0 <= i -> same_content t (link_bucket i t).
Proof.
  intros Hi. split; try done.
  - simpl. apply llen_lset.
  - simpl. apply llen_lset.
  - intros. by apply link_bucket_content.
Qed.

Lemma set_nInternalPointer_same t x : same_content t (set_nInternalPointer x t).
Proof. by split. Qed.

Lemma linked_set_nInternalPointer t x n : linked t n -> linked (set_nInternalPointer x t) n.
Proof. by apply linked_ext. Qed.

(** * The loop without holes *)

Lemma rehash_link_spec n : forall i t,
  areas_ok t -> Z.of_nat i + Z.of_nat n <= nTableSize t -> linked t i ->
  (forall k, Z.of_nat i <= k < Z.of_nat i + Z.of_nat n -> live t k = true) ->
  linked (rehash_link n (Z.of_nat i) t) (i + n) /\
  same_content t (rehash_link n (Z.of_nat i) t).
Proof.
  induction n as [|n IH]; intros i t Ha Hs Hl Hlive; simpl.
  - rewrite Nat.add_0_r. split; [done|]. apply same_content_refl.
  - pose proof (link_bucket_same t (Z.of_nat i) ltac:(lia)) as Hsame.
    replace (Z.of_nat i + 1) with (Z.of_nat (S i)) by lia.
    rewrite Nat.add_succ_r, <- Nat.add_succ_l.
    destruct (IH (S i) (link_bucket (Z.of_nat i) t)) as [Hl' Hsame'].
    + by apply (same_content_areas t).
    + change (nTableSize (link_bucket _ t)) with (nTableSize t). lia.
    + apply link_bucket_linked; [done|lia|apply Hlive; lia|done].
    + intros k Hk. erewrite content_live; [apply Hlive; lia|]. apply (sc_content _ _ Hsame). lia.
    + split; [done|]. by apply (same_content_trans _ (link_bucket (Z.of_nat i) t)).
Qed.

(** * Compaction *)

(** Store an entry in bucket [j] and link it. *)
Definition put_bucket (j : Z) (e : entry) t : HashTable V :=
  link_bucket j (upd_bucket j (fun q => mk_Bucket e.1.1 (b_next q) e.1.2 e.2) t).

(** A stored live entry extends the linked prefix. *)
Lemma put_bucket_spec t j e :
  areas_ok t -> Z.of_nat j < nTableSize t -> Z_ISUNDEF e.1.1 = false -> linked t j ->
  let t' := put_bucket (Z.of_nat j) e t in
  linked t' (S j) /\ frame t' = frame t /\ nNumUsed t' = nNumUsed t /\
  llen (arData t') = llen (arData t) /\ llen (arHash t') = llen (arHash t) /\
  (forall k, 0 <= k -> content (bucket t' k) = if k =? Z.of_nat j then e else content (bucket t k)).
Proof.
  intros Ha Hj Hlive Hl t'. unfold t', put_bucket.
  set (t1 := upd_bucket (Z.of_nat j) _ t).
  assert (forall k, 0 <= k -> content (bucket t1 k) =
     if k =? Z.of_nat j then e else content (bucket t k)) as Hc.
  { intros k Hk. unfold t1. destruct (Z.eqb_spec k (Z.of_nat j)) as [->|Hne].
    - rewrite bucket_upd_eq by (rewrite (ao_data _ Ha); lia). by destruct e as [[]].
    - by rewrite bucket_upd_ne by lia. }
  assert (areas_ok t1) as Ha1.
  { destruct Ha. split; try done. simpl. by rewrite llen_lset. }
  assert (linked t1 j) as Hl1.
  { intros c Hcr. rewrite (cell_list_ext t t1).
    - apply (chain_list_ext t); [|by apply Hl].
      intros k (Hk & _)%elem_of_cell_list. unfold t1. by rewrite bucket_upd_ne by lia.
    - intros k Hk. specialize (Hc k ltac:(lia)). rewrite (proj2 (Z.eqb_neq _ _)) in Hc by lia.
      split; [by apply content_live|]. unfold cell. unfold content in Hc. by injection Hc as _ -> _. }
  assert (live t1 (Z.of_nat j) = true) as Hlive1.
  { specialize (Hc (Z.of_nat j) ltac:(lia)). rewrite Z.eqb_refl in Hc.
    unfold live. rewrite <- (f_equal (fun x : entry => x.1.1) Hc) in Hlive. cbn in Hlive. by rewrite Hlive. }
  split; [apply link_bucket_linked; [done|simpl; lia|done|done]|].
  split; [done|]. split; [done|]. split; [|split].
  - simpl. by rewrite !llen_lset.
  - simpl. by rewrite llen_lset.
  - intros k Hk. rewrite link_bucket_content by lia. by apply Hc.
Qed.

(** One move: the bucket at [i] becomes the last of the compacted prefix. *)
Lemma move_bucket_spec t i j :
  areas_ok t -> Z.of_nat j <= i -> i < nTableSize t -> live t i = true -> linked t j ->
  let t' := move_bucket i (Z.of_nat j) t in
  linked t' (S j) /\ frame t' = frame t /\ nNumUsed t' = nNumUsed t /\
  llen (arData t') = llen (arData t) /\ llen (arHash t') = llen (arHash t) /\
  (forall k, 0 <= k -> content (bucket t' k) =
     content (bucket t (if k =? Z.of_nat j then i else k))).
Proof.
  intros Ha Hji Hi Hlive Hl.
  destruct (put_bucket_spec t j (content (bucket t i)) Ha ltac:(lia)) as (H1 & H2 & H3 & H4 & H5 & H6); [|done|].
  { unfold live in Hlive. cbn. by apply negb_true_iff. }
  cbn zeta. do 5 (split; [done|]). intros k Hk. etransitivity; [exact (H6 k Hk)|]. by destruct (k =? Z.of_nat j).
Qed.

(** What the compaction loops guarantee: [j'] live, linked buckets whose
    entries are [es]. *)
Record compacted t0 (es : list entry) t' (j' : nat) : Prop := {
  cp_linked : linked t' j';
  cp_live : forall k, 0 <= k < Z.of_nat j' -> live t' k = true;
  cp_entries : entries t' 0 j' = es;
  cp_frame : frame t' = frame t0;
  cp_used : nNumUsed t' = nNumUsed t0;
  cp_data : llen (arData t') = llen (arData t0);
  cp_hash : llen (arHash t') = llen (arHash t0)
}.

Lemma compacted_weaken t0 t1 es t' j' :
  frame t1 = frame t0 -> nNumUsed t1 = nNumUsed t0 -> llen (arData t1) = llen (arData t0) ->
  llen (arHash t1) = llen (arHash t0) -> compacted t1 es t' j' -> compacted t0 es t' j'.
Proof. intros ???? []. split; try done; congruence. Qed.

Lemma rehash_compact_spec n : forall i j ip t w,
  areas_ok t -> Z.of_nat j <= i -> i + Z.of_nat n <= nTableSize t -> linked t j ->
  (forall k, 0 <= k < Z.of_nat j -> live t k = true) ->
  exists t' w' j', rehash_compact n i (Z.of_nat j) ip (t, w) = ((t', w'), Z.of_nat j') /\
    compacted t (entries t 0 j ++ entries t i n) t' j' /\ (j' <= j + n)%nat.
Proof.
  induction n as [|n IH]; intros i j ip t w Ha Hji Hs Hl Hlive.
  - exists t, w, j. split; [done|]. split; [|lia]. split; try done. by rewrite app_nil_r.
  - cbn [rehash_compact]. rewrite entries_cons. unfold live_entry. destruct (Z_ISUNDEF (b_val (bucket t i))) eqn:Hu.
    + assert (live t i = false) as -> by (unfold live; by rewrite Hu). simpl.
      destruct (IH (i + 1) j ip t w) as (t' & w' & j' & -> & Hc & Hj'); try done; try lia.
      exists t', w', j'. split; [done|]. split; [done|lia].
    + assert (live t i = true) as Hli by (unfold live; by rewrite Hu). rewrite Hli. cbn [option_list app].
      destruct (move_bucket_spec t i j) as (Hl1 & Hf1 & Hu1 & Hd1 & Hh1 & Hc1); try done; try lia.
      set (t1 := move_bucket i (Z.of_nat j) t) in *.
      set (t2 := if (Z.of_nat j <? nInternalPointer t1) && (nInternalPointer t1 <=? i)
                 then set_nInternalPointer (Z.of_nat j) t1 else t1).
      assert (same_content t1 t2) as Hs2.
      { unfold t2. destruct (_ && _); [apply set_nInternalPointer_same|apply same_content_refl]. }
      assert (linked t2 (S j)) as Hl2
        by (unfold t2; destruct (_ && _); [by apply linked_set_nInternalPointer|done]).
      match goal with |- context [let (_, _) := ?x in _] => destruct x as [w2 ip2] end.
      assert (forall k, 0 <= k -> content (bucket t2 k) =
        content (bucket t (if k =? Z.of_nat j then i else k))) as Hc2.
      { intros k Hk. by rewrite (sc_content _ _ Hs2), Hc1. }
      replace (Z.of_nat j + 1) with (Z.of_nat (S j)) by lia.
      destruct (frame_fields _ _ Hf1) as (Hm & Hsz & _).
      assert (areas_ok t1) as Ha1.
      { destruct Ha. split; rewrite ?Hm, ?Hsz, ?Hd1, ?Hh1; done. }
      destruct (frame_fields _ _ (sc_frame _ _ Hs2)) as (Hm2 & Hsz2 & _).
      destruct (IH (i + 1) (S j) ip2 t2 w2) as (t' & w' & j' & -> & Hc & Hj').
      * by apply (same_content_areas t1).
      * lia.
      * lia.
      * done.
      * intros k Hk. destruct (decide (k = Z.of_nat j)) as [->|Hne].
        -- unfold live. specialize (Hc2 (Z.of_nat j) ltac:(lia)). rewrite Z.eqb_refl in Hc2.
           unfold content in Hc2. injection Hc2 as -> _ _. by rewrite Hu.
        -- rewrite (content_live t t2 k); [apply Hlive; lia|].
           rewrite Hc2 by lia. by rewrite (proj2 (Z.eqb_neq _ _)) by done.
      * exists t', w', j'. split; [done|]. split; [|lia].
        apply (compacted_weaken _ t2).
        -- rewrite (sc_frame _ _ Hs2). done.
        -- rewrite (sc_used _ _ Hs2). done.
        -- rewrite (sc_data _ _ Hs2). done.
        -- rewrite (sc_hash _ _ Hs2). done.
        -- match goal with |- compacted _ ?es _ _ =>
             replace es with (entries t2 0 (S j) ++ entries t2 (i + 1) n); [done|] end.
           rewrite entries_S, Z.add_0_l.
           rewrite (entries_ext t t2 0 j).
           2:{ intros k Hk. rewrite Hc2 by lia. by rewrite (proj2 (Z.eqb_neq _ _)) by lia. }
           rewrite (entries_ext t t2 (i + 1) n).
           2:{ intros k Hk. rewrite Hc2 by lia. by rewrite (proj2 (Z.eqb_neq _ _)) by lia. }
           rewrite <- app_assoc. f_equal.
           specialize (Hc2 (Z.of_nat j) ltac:(lia)). rewrite Z.eqb_refl in Hc2.
           unfold live_entry, live. rewrite Hc2.
           unfold content in Hc2. injection Hc2 as -> _ _. by rewrite Hu.
Qed.

(** * The whole loop *)

Lemma rehash_holes_spec n : forall (i : nat) t w,
  areas_ok t -> Z.of_nat i + Z.of_nat n <= nTableSize t -> nNumUsed t = Z.of_nat (i + n) ->
  linked t i -> (forall k, 0 <= k < Z.of_nat i -> live t k = true) ->
  exists t' w' j', rehash_holes n (Z.of_nat i) (t, w) = (t', w') /\
    nNumUsed t' = Z.of_nat j' /\ (j' <= i + n)%nat /\
    compacted (set_nNumUsed (Z.of_nat j') t) (entries t 0 (i + n)) t' j'.
Proof.
  induction n as [|n IH]; intros i t w Ha Hs Hu Hl Hlive; cbn [rehash_holes].
  - rewrite Nat.add_0_r in *. exists t, w, i. split; [done|]. split; [done|]. split; [lia|].
    rewrite <- Hu. by split; try (by destruct t).
  - destruct (Z_ISUNDEF (b_val (bucket t (Z.of_nat i)))) eqn:Hundef.
    + assert (live t (Z.of_nat i) = false) as Hli by (unfold live; by rewrite Hundef).
      match goal with |- context [rehash_compact _ _ _ ?x _] => set (ip := x) end.
      destruct (rehash_compact_spec n (Z.of_nat i + 1) i ip t w) as (t' & w' & j' & -> & Hc & Hj');
        try done; try lia.
      exists (set_nNumUsed (Z.of_nat j') t'), w', j'. split; [done|]. split; [done|]. split; [lia|].
      destruct Hc as [Hcl Hcv Hce Hcf Hcu Hcd Hch]. split; try done.
      * by apply (linked_ext t').
      * rewrite Nat.add_succ_r, <- Nat.add_succ_l, entries_app, entries_S, Z.add_0_l.
        unfold live_entry. rewrite Hli. cbn [option_list]. rewrite app_nil_r.
        replace (0 + Z.of_nat (S i)) with (Z.of_nat i + 1) by lia. by rewrite <- Hce.
    + assert (live t (Z.of_nat i) = true) as Hli by (unfold live; by rewrite Hundef).
      pose proof (link_bucket_same t (Z.of_nat i) ltac:(lia)) as Hsame.
      replace (Z.of_nat i + 1) with (Z.of_nat (S i)) by lia.
      destruct (IH (S i) (link_bucket (Z.of_nat i) t) w) as (t' & w' & j' & -> & Hu' & Hj' & Hc).
      * by apply (same_content_areas t).
      * change (nTableSize (link_bucket _ t)) with (nTableSize t). lia.
      * change (nNumUsed (link_bucket _ t)) with (nNumUsed t). lia.
      * apply link_bucket_linked; [done|lia|done|done].
      * intros k Hk. erewrite content_live; [|apply (sc_content _ _ Hsame); lia].
        destruct (decide (k = Z.of_nat i)) as [->|]; [done|]. apply Hlive. lia.
      * exists t', w', j'. split; [done|]. split; [done|]. split; [lia|].
        rewrite Nat.add_succ_r, <- Nat.add_succ_l.
        rewrite <- (same_content_entries t _ 0 (S i + n) ltac:(lia) Hsame).
        revert Hc. apply compacted_weaken; try done; simpl; by rewrite ?llen_lset.
Qed.

Lemma length_entries_le t i n : (length (entries t i n) <= n)%nat.
Proof.
  revert i. induction n as [|n IH]; intros i; [done|]. rewrite entries_cons, length_app.
  specialize (IH (i + 1)). destruct (live_entry t i); simpl; lia.
Qed.

Lemma entries_full t i n : length (entries t i n) = n ->
  forall k, i <= k < i + Z.of_nat n -> live t k = true.
Proof.
  revert i. induction n as [|n IH]; intros i Hlen k Hk; [lia|].
  rewrite entries_cons, length_app in Hlen. pose proof (length_entries_le t (i + 1) n).
  unfold live_entry in Hlen. destruct (live t i) eqn:Hli; simpl in Hlen; [|lia].
  destruct (decide (k = i)) as [->|]; [done|]. apply (IH (i + 1)); lia.
Qed.

Lemma reset_areas t : data_ok t -> areas_ok (HT_HASH_RESET t).
Proof.
  intros Hd. pose proof (data_ok_mask_range _ Hd). split; simpl; [done| |by apply do_data|].
  - rewrite (do_mask _ Hd) at 1. unfold llen. rewrite length_replicate, cells_eq by apply Hd.
    rewrite (do_mask _ Hd), mask_eq by apply Hd.
    pose proof (size_ok_bounds _ (do_size _ Hd)). lia.
  - by apply size_ok_bounds, Hd.
Qed.

Lemma mask_pos t : data_ok t -> 0 < nTableMask t < 2 ^ 32.
Proof.
  intros H. pose proof (do_size _ H) as Hs. rewrite (do_mask _ H), mask_eq by done.
  apply size_ok_bounds in Hs. unfold HT_MAX_SIZE in Hs. lia.
Qed.

(** Building [mixed_ok] from a compacted, linked table. *)
Lemma mixed_ok_intro t0 t' n' :
  data_ok t0 -> frame t' = frame t0 -> nNumUsed t' = Z.of_nat n' -> Z.of_nat n' <= nTableSize t0 ->
  llen (arData t') = llen (arData t0) -> llen (arHash t') = 2 ^ 32 - nTableMask t0 ->
  mixed_entries t' = mixed_entries t0 -> linked t' n' -> mixed_ok t'.
Proof.
  intros Hd Hf Hu Hle Hda Hh He Hl.
  destruct (frame_fields _ _ Hf) as (Hm & Hs & Hn & Hp & Hun & _).
  split.
  - destruct Hd. split; try congruence.
    + rewrite Hu, Hs. lia.
  - congruence.
  - by rewrite Hu, Nat2Z.id.
Qed.

(** Rehashing: the content is unchanged, the chains are rebuilt, holes are gone. *)
Lemma rehash_ok t w : data_ok t ->
  exists t' w', zend_hash_rehash (t, w) = (t', w') /\ mixed_ok t' /\
    frame t' = frame t /\ mixed_entries t' = mixed_entries t /\
    nNumUsed t' = nNumOfElements t /\
    (forall k, 0 <= k < nNumUsed t' -> live t' k = true).
Proof.
  intros Hd. pose proof (reset_areas _ Hd) as Ha. pose proof (mask_pos _ Hd) as Hmp.
  pose proof (do_used _ Hd) as Hu. pose proof (do_count _ Hd) as Hcnt.
  assert (llen (arHash (HT_HASH_RESET t)) = 2 ^ 32 - nTableMask t) as Hh by apply (ao_hash _ Ha).
  assert (linked (HT_HASH_RESET t) 0) as Hl0 by (by apply linked_reset).
  unfold zend_hash_rehash. rewrite (do_init _ Hd).
  destruct (Z.eqb_spec (nNumOfElements t) 0) as [Hz|Hnz].
  - eexists _, _. split; [done|].
    assert (mixed_entries t = []) as He by (apply nil_length_inv; unfold llen in Hcnt; lia).
    split; [|split; [done|split; [done|split; [by rewrite Hz|simpl; intros; lia]]]].
    apply (mixed_ok_intro t _ 0); try done; simpl; try lia.
  - unfold HT_IS_WITHOUT_HOLES. simpl.
    destruct (Z.eqb_spec (nNumUsed t) (nNumOfElements t)) as [Hfull|Hholes].
    + set (n := Z.to_nat (nNumUsed t)).
      assert (forall k, 0 <= k < Z.of_nat n -> live t k = true) as Hlive.
      { apply (entries_full t 0 n). fold (mixed_entries t). unfold llen in Hcnt.
        unfold n, mixed_entries in *. lia. }
      destruct (rehash_link_spec n 0 (HT_HASH_RESET t) Ha) as [Hl Hsame].
      { simpl. lia. } { done. } { intros k Hk. apply Hlive. lia. }
      eexists _, _. split; [done|]. change (Z.of_nat 0) with 0 in *. rewrite Nat.add_0_l in Hl.
      assert (mixed_entries (rehash_link n 0 (HT_HASH_RESET t)) = mixed_entries t) as He.
      { unfold mixed_entries. rewrite (sc_used _ _ Hsame).
        change (nNumUsed (HT_HASH_RESET t)) with (nNumUsed t). fold n.
        by rewrite (same_content_entries _ _ 0 n ltac:(lia) Hsame). }
      split; [|split; [by rewrite (sc_frame _ _ Hsame)|split; [done|split]]].
      * apply (mixed_ok_intro t _ n); try done; try lia.
        -- by rewrite (sc_frame _ _ Hsame).
        -- rewrite (sc_used _ _ Hsame). simpl. lia.
        -- by rewrite (sc_data _ _ Hsame).
        -- by rewrite (sc_hash _ _ Hsame).
      * rewrite (sc_used _ _ Hsame). done.
      * intros k Hk. erewrite content_live; [apply Hlive|apply (sc_content _ _ Hsame); lia].
        rewrite (sc_used _ _ Hsame) in Hk. simpl in Hk. lia.
    + set (n := Z.to_nat (nNumUsed t)).
      destruct (rehash_holes_spec n 0 (HT_HASH_RESET t) w Ha) as (t' & w' & j' & Heq & Hu' & Hj' & Hc).
      { simpl. lia. } { simpl. lia. } { done. } { lia. }
      change (Z.of_nat 0) with 0 in *. rewrite Nat.add_0_l in *. rewrite Heq. destruct Hc.
      assert (mixed_entries t' = mixed_entries t) as He.
      { unfold mixed_entries. rewrite Hu', Nat2Z.id. rewrite cp_entries0. done. }
      assert (Z.of_nat j' = nNumOfElements t) as Hjn.
      { rewrite Hcnt, <- He. unfold mixed_entries, llen. rewrite Hu', Nat2Z.id. f_equal.
        symmetry. clear - cp_live0. revert cp_live0. induction j' as [|j IH]; intros Hlv; [done|].
        rewrite entries_S, length_app, IH by (intros; apply Hlv; lia).
        unfold live_entry. rewrite Z.add_0_l, Hlv by lia. simpl. lia. }
      eexists _, _. split; [done|]. split; [|split; [done|split; [done|split]]].
      * apply (mixed_ok_intro t _ j'); try done; try lia. by rewrite cp_hash0.
      * lia.
      * rewrite Hu'. done.
Qed.

(** * Growing *)

(** The attributes that growth and conversion leave alone. *)
Definition keeps t t' : Prop :=
  nNumOfElements t' = nNumOfElements t /\ nNextFreeElement t' = nNextFreeElement t /\
  pDestructor t' = pDestructor t /\ nIteratorsCount t' = nIteratorsCount t /\ ht_id t' = ht_id t.

Lemma frame_keeps t t' : frame t' = frame t -> keeps t t'.
Proof.
  intros H. destruct (frame_fields _ _ H) as (_ & _ & Hn & _ & _ & Hx & Hi & Hd).
  split; [done|]. split; [done|]. split; [|done].
  destruct t, t'. unfold frame in H. simpl in *. by injection H.
Qed.

Lemma keeps_trans t1 t2 t3 : keeps t1 t2 -> keeps t2 t3 -> keeps t1 t3.
Proof. unfold keeps. intuition congruence. Qed.

Lemma keeps_refl t : keeps t t.
Proof. by unfold keeps. Qed.

Lemma llen_fresh_buckets n : 0 <= n -> llen (fresh_buckets (V:=V) n) = n.
Proof. intros. unfold llen, fresh_buckets. rewrite length_fmap, length_seq. lia. Qed.

Lemma llen_take_drop {A} (l1 l2 : list A) :
  (length l1 <= length l2)%nat -> llen (l1 ++ drop (length l1) l2) = llen l2.
Proof. intros. unfold llen. rewrite length_app, length_drop. lia. Qed.

Lemma lget_take {A} (d : A) l n i : 0 <= i < Z.of_nat n -> lget d (take n l) i = lget d l i.
Proof. intros. unfold lget. by rewrite lookup_take_lt by lia. Qed.

Lemma lget_kept {A} (d : A) l l2 n i :
  0 <= i < Z.of_nat n -> (n <= length l)%nat ->
  lget d (take n l ++ drop (length (take n l)) l2) i = lget d l i.
Proof.
  intros Hi Hn. rewrite lget_app_l by (unfold llen; rewrite length_take; lia). by apply lget_take.
Qed.

Lemma grow_data_ok t nSize :
  data_ok t -> size_ok nSize -> nTableSize t <= nSize ->
  data_ok (grow_data nSize t) /\ mixed_entries (grow_data nSize t) = mixed_entries t.
Proof.
  intros Hd Hs Hle. pose proof (do_used _ Hd) as Hu. pose proof (do_data _ Hd) as Hda.
  pose proof (size_ok_bounds _ Hs) as Hb. unfold llen in Hda.
  set (n := Z.to_nat (nNumUsed t)).
  assert (forall k, 0 <= k < Z.of_nat n -> bucket (grow_data nSize t) k = bucket t k) as Hbk.
  { intros k Hk. unfold bucket, grow_data. simpl. apply lget_kept; lia. }
  assert (mixed_entries (grow_data nSize t) = mixed_entries t) as He.
  { unfold mixed_entries. simpl. fold n. apply entries_ext. intros k Hk. by rewrite Hbk by lia. }
  split; [|done]. destruct Hd. split; rewrite ?He; try done; simpl.
  - rewrite llen_take_drop; [apply llen_fresh_buckets; lia|].
    unfold fresh_buckets. rewrite length_fmap, length_seq, length_take. lia.
  - lia.
Qed.

Lemma elems_mixed t : fl_PACKED t = false -> elems t = entry_elem <$> mixed_entries t.
Proof. unfold elems. by intros ->. Qed.

(** Rehashing, with everything the callers need. *)
Lemma rehash_keeps t w : data_ok t ->
  exists t' w', zend_hash_rehash (t, w) = (t', w') /\ mixed_ok t' /\ elems t' = elems t /\
    keeps t t' /\ nTableSize t' = nTableSize t /\ nNumUsed t' = nNumOfElements t.
Proof.
  intros Hd. destruct (rehash_ok t w Hd) as (t' & w' & Hr & Hok & Hf & He & Hu & _).
  exists t', w'. split; [done|]. split; [done|].
  destruct (frame_fields _ _ Hf) as (_ & Hs & _).
  split; [|split; [by apply frame_keeps|done]].
  rewrite !elems_mixed by (apply Hd || apply Hok). by rewrite He.
Qed.

Lemma count_le_used t : data_ok t -> 0 <= nNumOfElements t <= nNumUsed t.
Proof.
  intros Hd. rewrite (do_count _ Hd). unfold mixed_entries, llen.
  pose proof (length_entries_le t 0 (Z.to_nat (nNumUsed t))). pose proof (do_used _ Hd). lia.
Qed.

(** A full mixed table makes room by compaction or doubling, unless it has
    reached the maximal size without holes. *)
Lemma do_resize_ok t w : mixed_ok t -> nTableSize t <= nNumUsed t ->
  (nTableSize t < HT_MAX_SIZE \/ nNumOfElements t + Z.shiftr (nNumOfElements t) 5 < nNumUsed t) ->
  exists t' w', zend_hash_do_resize (t, w) = Some (t', w') /\ mixed_ok t' /\ elems t' = elems t /\
    keeps t t' /\ nNumUsed t' < nTableSize t'.
Proof.
  intros Hm Hfull Hroom. pose proof (mx_data _ Hm) as Hd.
  pose proof (count_le_used _ Hd) as Hc. pose proof (do_used _ Hd) as Hu.
  unfold zend_hash_do_resize.
  destruct (Z.ltb_spec (nNumOfElements t + Z.shiftr (nNumOfElements t) 5) (nNumUsed t)) as [Hlt|Hge].
  - destruct (rehash_keeps t w Hd) as (t' & w' & -> & Hok & He & Hk & Hs & Hu').
    exists t', w'. do 4 (split; [done|]).
    assert (0 <= Z.shiftr (nNumOfElements t) 5) by (apply Z.shiftr_nonneg; lia). lia.
  - destruct (Z.ltb_spec (nTableSize t) HT_MAX_SIZE) as [Hmax|]; [|lia].
    destruct (grow_data_ok t (nTableSize t + nTableSize t)) as [Hg He]; [done| |lia|].
    { apply size_ok_double; [apply Hd|done]. }
    set (tg := grow_data (nTableSize t + nTableSize t) t) in *.
    destruct (rehash_keeps tg w Hg) as (t' & w' & -> & Hok & He' & Hk & Hs & Hu').
    exists t', w'. split; [done|]. split; [done|]. split.
    { rewrite He', !elems_mixed by (apply Hd || apply Hg). by rewrite He. }
    split; [by apply (keeps_trans _ tg)|]. rewrite Hs, Hu'. simpl.
    pose proof (size_ok_bounds _ (do_size _ Hd)). lia.
Qed.

(** * From packed to mixed *)

Lemma packed_to_buckets_spec n : forall i t,
  i + Z.of_nat n <= llen (arData t) -> 0 <= i ->
  let t' := packed_to_buckets n i t in
  frame t' = frame t /\ nNumUsed t' = nNumUsed t /\ llen (arData t') = llen (arData t) /\
  arPacked t' = arPacked t /\
  (forall k, 0 <= k -> content (bucket t' k) =
     if (i <=? k) && (k <? i + Z.of_nat n) then (packed t k, k, None) else content (bucket t k)).
Proof.
  induction n as [|n IH]; intros i t Hn Hi; cbn [packed_to_buckets].
  - do 4 (split; [done|]). intros k Hk. destruct (Z.leb_spec i k); simpl; [|done].
    by rewrite (proj2 (Z.ltb_ge _ _)) by lia.
  - set (t1 := upd_bucket i _ t).
    destruct (IH (i + 1) t1) as (Hf & Hu & Hl & Hp & Hc); [unfold t1; rewrite llen_upd_bucket; lia|lia|].
    split; [by rewrite Hf|]. split; [done|]. split; [rewrite Hl; apply llen_upd_bucket|].
    split; [done|]. intros k Hk. rewrite Hc by done. change (packed t1 k) with (packed t k).
    destruct (Z.leb_spec (i + 1) k), (Z.leb_spec i k), (Z.ltb_spec k (i + 1 + Z.of_nat n)),
      (Z.ltb_spec k (i + Z.of_nat (S n))); simpl; try lia; try done.
    all: try (unfold t1; rewrite bucket_upd_ne by lia; done).
    replace k with i by lia. unfold t1. by rewrite bucket_upd_eq by lia.
Qed.

Lemma packed_elems_entries t t' n : forall i, 0 <= i ->
  (forall k, i <= k < i + Z.of_nat n -> content (bucket t' k) = (packed t k, k, None)) ->
  entry_elem <$> entries t' i n = packed_elems t i n.
Proof.
  induction n as [|n IH]; intros i Hi Hk; [done|].
  rewrite entries_cons. unfold packed_elems. rewrite zrange_cons. rewrite fmap_app.
  rewrite IH by (intros; try apply Hk; lia). simpl. fold (packed_elems t (i + 1) n).
  specialize (Hk i ltac:(lia)). unfold live_entry, live, packed_elem. rewrite Hk.
  assert (b_val (bucket t' i) = packed t i) as -> by (unfold content in Hk; congruence).
  by destruct (Z_ISUNDEF (packed t i)).
Qed.

Lemma packed_elems_cons t i n :
  packed_elems t i (S n) = option_list (packed_elem t i) ++ packed_elems t (i + 1) n.
Proof. unfold packed_elems. rewrite zrange_cons. simpl. by destruct (packed_elem t i). Qed.

Lemma packed_elems_keys t i n h : KInt h ∈ (packed_elems t i n).*1 -> i <= h < i + Z.of_nat n.
Proof.
  unfold packed_elems. intros ([k v] & Hh & Hin)%list_elem_of_fmap.
  apply list_elem_of_omap in Hin as (j & Hj%elem_of_zrange & Hp).
  unfold packed_elem in Hp. destruct (Z_ISUNDEF (packed t j)); simplify_eq/=. lia.
Qed.

Lemma packed_elems_NoDup t n : forall i, NoDup (packed_elems t i n).*1.
Proof.
  induction n as [|n IH]; intros i; [by apply NoDup_nil|].
  unfold packed_elems. rewrite zrange_cons. simpl. fold (packed_elems t (i + 1) n).
  unfold packed_elem at 1. destruct (Z_ISUNDEF (packed t i)); [apply IH|].
  csimpl. apply NoDup_cons. split; [|apply IH]. intros Hin%packed_elems_keys. lia.
Qed.

(** The conversion needs only the packed element area; the table size may
    just have been doubled. *)
Record packed_data t : Prop := {
  pd_packed : fl_PACKED t = true;
  pd_init : fl_UNINITIALIZED t = false;
  pd_size : size_ok (nTableSize t);
  pd_used : 0 <= nNumUsed t <= nTableSize t;
  pd_count : nNumOfElements t = llen (elems t)
}.

Lemma packed_ok_data t : packed_ok t -> packed_data t.
Proof. by intros []. Qed.

Lemma packed_to_hash_ok t w : packed_data t ->
  exists t' w', zend_hash_packed_to_hash (t, w) = (t', w') /\ mixed_ok t' /\ elems t' = elems t /\
    keeps t t' /\ nTableSize t' = nTableSize t /\ nNumUsed t' = nNumOfElements t.
Proof.
  intros Hp. pose proof (pd_size _ Hp) as Hs. pose proof (size_ok_bounds _ Hs) as Hb.
  pose proof (pd_used _ Hp) as Hu.
  unfold zend_hash_packed_to_hash. cbv zeta.
  match goal with |- context [packed_to_buckets ?m 0 ?x] => set (n := m); set (t0 := x) end.
  assert (llen (arData t0) = nTableSize t) as Hl0 by (simpl; apply llen_fresh_buckets; lia).
  assert (Z.of_nat n = nNumUsed t) as Hn by (unfold n; simpl; lia).
  destruct (packed_to_buckets_spec n 0 t0) as (Hf & Hu1 & Hl1 & _ & Hc); [lia|lia|].
  destruct (frame_fields _ _ Hf) as (Hm1 & Hs1 & Hn1 & Hpk1 & Hun1 & _).
  set (t1 := set_arPacked [] (packed_to_buckets n 0 t0)).
  assert (keeps t t1) as Hk1 by (apply frame_keeps in Hf; exact Hf).
  assert (forall k, 0 <= k < Z.of_nat n -> content (bucket t1 k) = (packed t k, k, None)) as Hc1.
  { intros k Hk. change (bucket t1 k) with (bucket (packed_to_buckets n 0 t0) k).
    rewrite Hc by lia. rewrite (proj2 (Z.leb_le _ _)), (proj2 (Z.ltb_lt _ _)) by lia. done. }
  assert (entry_elem <$> mixed_entries t1 = elems t) as He.
  { unfold elems. rewrite (pd_packed _ Hp). unfold mixed_entries.
    change (nNumUsed t1) with (nNumUsed (packed_to_buckets n 0 t0)). rewrite Hu1.
    apply packed_elems_entries; [lia|]. intros k Hk. apply Hc1. unfold n. simpl in *. lia. }
  assert (data_ok t1) as Hd1.
  { split.
    - exact Hpk1.
    - rewrite <- (pd_init _ Hp). exact Hun1.
    - change (size_ok (nTableSize (packed_to_buckets n 0 t0))). by rewrite Hs1.
    - change (nTableMask (packed_to_buckets n 0 t0) = HT_SIZE_TO_MASK (nTableSize (packed_to_buckets n 0 t0))).
      by rewrite Hm1, Hs1.
    - change (llen (arData (packed_to_buckets n 0 t0)) = nTableSize (packed_to_buckets n 0 t0)).
      by rewrite Hl1, Hs1.
    - change (0 <= nNumUsed (packed_to_buckets n 0 t0) <= nTableSize (packed_to_buckets n 0 t0)).
      by rewrite Hu1, Hs1.
    - rewrite (proj1 Hk1), (pd_count _ Hp), <- He. unfold llen. by rewrite length_fmap.
    - apply Forall_forall. intros e (k & Hk & _ & <-)%elem_of_entries.
      change (nNumUsed t1) with (nNumUsed (packed_to_buckets n 0 t0)) in Hk. rewrite Hu1 in Hk.
      simpl in Hk. rewrite Hc1 by lia. unfold entry_ok, entry_key. simpl. unfold HT_MAX_SIZE in Hb. lia.
    - replace (entry_key <$> mixed_entries t1) with (elems t).*1.
      + unfold elems. rewrite (pd_packed _ Hp). apply packed_elems_NoDup.
      + rewrite <- He, <- list_fmap_compose. done. }
  destruct (rehash_keeps t1 w Hd1) as (t' & w' & -> & Hok & He' & Hk & Hs' & Hu').
  exists t', w'. split; [done|]. split; [done|]. split.
  { rewrite He', (elems_mixed t1) by apply Hd1. done. }
  split; [by apply (keeps_trans _ t1)|]. split.
  - rewrite Hs'. exact Hs1.
  - rewrite Hu'. apply Hk1.
Qed.

End Rehash.
