(* ===== verification/HashFind.v ===== *)
(** Lookup: the three bucket searches and the public find functions compute
    the dictionary lookup, in every state of the representation. *)

From stdpp Require Import base numbers list gmap.
From S2P Require Import Prelude ZendTypes HashTable HashDict HashChain HashInv HashRehash.

Section Find.
Context {V : Type} {E : ZEnv V}.
Implicit Types (t : HashTable V) (w : EG V) (b : Bucket V) (v : zval V) (k : hkey).

(** Bucket [i] holds key [k]. *)
Definition holds t (i : Z) k : Prop :=
  0 <= i < nNumUsed t /\ live t i = true /\ bucket_key (bucket t i) = k.

Lemma mixed_bucket_ok t i : data_ok t -> 0 <= i < nNumUsed t -> live t i = true ->
  entry_ok (content (bucket t i)).
Proof.
  intros Hd Hi Hl. apply (proj1 (Forall_forall _ _) (do_entries _ Hd)).
  apply elem_of_entries. exists i. split; [lia|done].
Qed.

(** ** The tests used by the searches decide key equality *)

Lemma match_content_spec str b : entry_ok (content b) ->
  match_content (zend_inline_hash_func str) str b = true <-> bucket_key b = KStr str.
Proof.
  intros [Hh _]. unfold match_content, bucket_key, content, entry_key in *. simpl in *.
  destruct (b_key b) as [k|]; [|by rewrite andb_false_r].
  rewrite andb_true_iff, bool_decide_eq_true, Z.eqb_eq. split; [by intros [_ ->]|].
  intros [= <-]. done.
Qed.

Lemma match_key_spec key b : entry_ok (content b) ->
  match_key key b = true <-> bucket_key b = KStr (ZSTR_VAL key).
Proof.
  intros Hb. unfold match_key. rewrite orb_true_iff, bool_decide_eq_true.
  unfold ZSTR_H. rewrite match_content_spec by done. split; [|by right].
  intros [Hk|]; [|done]. unfold bucket_key. by rewrite Hk.
Qed.

Lemma match_index_spec h b : match_index h b = true <-> bucket_key b = KInt h.
Proof.
  unfold match_index, bucket_key. destruct (b_key b); [by rewrite andb_false_r|].
  rewrite andb_true_r, Z.eqb_eq. split; [by intros ->|by intros [= ->]].
Qed.

(** ** Chains hold every bucket of their key *)

Lemma holds_cell t i k : data_ok t -> holds t i k ->
  i ∈ cell_list t (Z.to_nat (nNumUsed t)) (nIndex_of (key_hash k) (nTableMask t)).
Proof.
  intros Hd (Hi & Hl & Hk). apply elem_of_cell_list. split; [lia|]. split; [done|].
  unfold cell. destruct (mixed_bucket_ok t i Hd Hi Hl) as [Hh _].
  rewrite <- bucket_key_content, Hk in Hh. simpl in Hh. by rewrite Hh.
Qed.

Lemma cell_list_valid t c i : data_ok t ->
  i ∈ cell_list t (Z.to_nat (nNumUsed t)) c -> i <> HT_INVALID_IDX.
Proof.
  intros Hd (Hi & _)%elem_of_cell_list. pose proof (do_used _ Hd).
  pose proof (size_ok_bounds _ (do_size _ Hd)). unfold HT_INVALID_IDX, HT_MAX_SIZE in *. lia.
Qed.

Lemma cell_list_fuel t c : data_ok t ->
  (length (cell_list t (Z.to_nat (nNumUsed t)) c) < chain_fuel t)%nat.
Proof.
  intros Hd. pose proof (length_cell_list t (Z.to_nat (nNumUsed t)) c).
  pose proof (do_used _ Hd). pose proof (do_data _ Hd). unfold chain_fuel, llen in *. lia.
Qed.

Lemma mixed_chain t h : mixed_ok t ->
  chain_list t (chain_head t h)
    (cell_list t (Z.to_nat (nNumUsed t)) (nIndex_of h (nTableMask t))).
Proof.
  intros Hm. apply (mx_linked _ Hm). apply nIndex_of_range, data_ok_mask_range, Hm.
Qed.

Lemma chain_find_holds t test k : mixed_ok t ->
  (forall i, 0 <= i < nNumUsed t -> live t i = true ->
     (test (bucket t i) = true <-> bucket_key (bucket t i) = k)) ->
  match chain_find (chain_fuel t) t test (chain_head t (key_hash k)) with
  | Some i => holds t i k
  | None => forall i, ~ holds t i k
  end.
Proof.
  intros Hm Ht. pose proof (mx_data _ Hm) as Hd.
  erewrite chain_find_spec; [|by apply mixed_chain|by intros; eapply cell_list_valid|by apply cell_list_fuel].
  set (l := cell_list _ _ _).
  destruct (filter (fun i => test (bucket t i) = true) l) as [|i l'] eqn:Hf; simpl.
  - intros i Hi. assert (i ∈ filter (fun i => test (bucket t i) = true) l) as Hin.
    { apply list_elem_of_filter. split; [|by apply holds_cell].
      destruct Hi as (Hi & Hl & Hk). by apply Ht. }
    rewrite Hf in Hin. set_solver.
  - assert (i ∈ filter (fun i => test (bucket t i) = true) l) as Hin by (rewrite Hf; set_solver).
    apply list_elem_of_filter in Hin as [Hti (Hi & Hl & _)%elem_of_cell_list].
    assert (0 <= i < nNumUsed t) as Hi' by lia. split; [done|]. split; [done|]. by apply Ht.
Qed.

(** ** Buckets and the dictionary *)

Lemma elems_keys t : data_ok t -> dict_ok (elems t).
Proof.
  intros Hd. unfold dict_ok. rewrite elems_mixed by apply Hd.
  rewrite <- list_fmap_compose. apply (do_keys _ Hd).
Qed.

Lemma holds_lookup t i k : data_ok t -> holds t i k ->
  dict_lookup k (elems t) = Some (b_val (bucket t i)).
Proof.
  intros Hd (Hi & Hl & Hk). apply dict_lookup_Some; [by apply elems_keys|].
  rewrite elems_mixed by apply Hd. apply list_elem_of_fmap.
  exists (content (bucket t i)). unfold entry_elem. rewrite <- bucket_key_content, Hk.
  split; [done|]. apply elem_of_entries. exists i. split; [lia|done].
Qed.

Lemma not_holds_lookup t k : data_ok t -> (forall i, ~ holds t i k) -> k ∉ (elems t).*1.
Proof.
  intros Hd Hn. rewrite elems_mixed by apply Hd. rewrite <- list_fmap_compose.
  intros (e & -> & (i & Hi & Hl & <-)%elem_of_entries)%list_elem_of_fmap.
  apply (Hn i). split; [lia|]. done.
Qed.

(** ** The empty index area of packed and uninitialised tables *)

Lemma chain_head_none t h :
  nTableMask t = HT_MIN_MASK -> arHash t = [HT_INVALID_IDX; HT_INVALID_IDX] ->
  chain_head t h = HT_INVALID_IDX.
Proof.
  intros Hm Hh. unfold chain_head, HT_HASH. rewrite Hm, Hh.
  assert (0 <= HT_MIN_MASK < 2 ^ 32) as Hr by done.
  pose proof (nIndex_of_range h HT_MIN_MASK Hr) as Hn. unfold HT_MIN_MASK in *.
  assert (nIndex_of h (2 ^ 32 - 2) - (2 ^ 32 - 2) = 0 \/ nIndex_of h (2 ^ 32 - 2) - (2 ^ 32 - 2) = 1)
    as [-> | ->] by lia; done.
Qed.

Lemma chain_find_none n t test : chain_find n t test HT_INVALID_IDX = None.
Proof. by destruct n. Qed.

Lemma elems_uninit t : uninit_ok t -> elems t = [].
Proof.
  intros H. unfold elems. rewrite (un_packed _ H). unfold mixed_entries. by rewrite (un_used _ H).
Qed.

Lemma elems_packed t : packed_ok t -> elems t = packed_elems t 0 (Z.to_nat (nNumUsed t)).
Proof. intros H. unfold elems. by rewrite (pk_packed _ H). Qed.

(** Bucket searches on the three states. *)
Lemma find_bucket_repr t test k : repr_ok t -> fl_PACKED t = false ->
  (forall b, entry_ok (content b) -> (test b = true <-> bucket_key b = k)) ->
  match chain_find (chain_fuel t) t test (chain_head t (key_hash k)) with
  | Some i => mixed_ok t /\ holds t i k
  | None => k ∉ (elems t).*1
  end.
Proof.
  intros [Hu|[Hp|Hm]] Hpk Ht.
  - rewrite chain_head_none by apply Hu. rewrite chain_find_none, elems_uninit by done. set_solver.
  - rewrite (pk_packed _ Hp) in Hpk. done.
  - pose proof (mx_data _ Hm) as Hd.
    assert (Hc := chain_find_holds t test k Hm). destruct (chain_find _ _ _ _) as [i|].
    + split; [done|]. apply Hc. intros j Hj Hl. apply Ht. by apply mixed_bucket_ok.
    + apply not_holds_lookup; [done|]. apply Hc. intros j Hj Hl. apply Ht. by apply mixed_bucket_ok.
Qed.

Lemma str_find_packed t str : packed_ok t -> dict_lookup (KStr str) (elems t) = None.
Proof.
  intros Hp. apply dict_lookup_None. rewrite elems_packed by done.
  unfold packed_elems. intros ([k v] & Hk & Hin)%list_elem_of_fmap.
  apply list_elem_of_omap in Hin as (j & _ & Hp'). unfold packed_elem in Hp'.
  destruct (Z_ISUNDEF _); simplify_eq/=.
Qed.

Lemma packed_lookup t h : packed_ok t -> 0 <= h ->
  dict_lookup (KInt h) (elems t) =
  if (h <? nNumUsed t) && negb (Z_ISUNDEF (packed t h)) then Some (packed t h) else None.
Proof.
  intros Hp Hh. rewrite elems_packed by done. pose proof (pk_used _ Hp) as Hu.
  destruct (Z.ltb_spec h (nNumUsed t)); simpl.
  2:{ apply dict_lookup_None. intros Hin%packed_elems_keys. lia. }
  destruct (Z_ISUNDEF (packed t h)) eqn:Hun; simpl.
  - apply dict_lookup_None. unfold packed_elems. intros ([k v] & Hk & Hin)%list_elem_of_fmap.
    apply list_elem_of_omap in Hin as (j & _ & Hp'). unfold packed_elem in Hp'.
    destruct (Z_ISUNDEF (packed t j)) eqn:Hj; simplify_eq/=. congruence.
  - apply dict_lookup_Some; [apply packed_elems_NoDup|]. apply list_elem_of_omap.
    exists h. rewrite elem_of_zrange. split; [lia|]. unfold packed_elem. by rewrite Hun.
Qed.

Lemma hash_find_ok t w key : repr_ok t ->
  (fun p => zload (t, w) p) <$> zend_hash_find t key = dict_lookup (KStr (ZSTR_VAL key)) (elems t).
Proof.
  intros Hr. unfold zend_hash_find, zend_hash_find_bucket.
  destruct (fl_PACKED t) eqn:Hpk.
  { destruct Hr as [Hu|[Hp|Hm]].
    - rewrite (un_packed _ Hu) in Hpk. done.
    - rewrite chain_head_none by apply Hp. by rewrite chain_find_none, str_find_packed.
    - rewrite (do_packed _ (mx_data _ Hm)) in Hpk. done. }
  pose proof (find_bucket_repr t (match_key key) (KStr (ZSTR_VAL key)) Hr Hpk (match_key_spec key)) as Hf.
  unfold ZSTR_H. cbn [key_hash] in Hf. destruct (chain_find _ _ _ _) as [i|].
  - destruct Hf as [Hm Hf]. simpl. symmetry. apply holds_lookup; [apply Hm|done].
  - symmetry. by apply dict_lookup_None.
Qed.

(** C12: looking a key up by its string finds the element of the dictionary
    that the table represents, and NULL exactly when the key is absent; the
    bounded chain walk never runs out of fuel on a well-formed table. *)
Theorem zend_hash_find_correct t w key : repr_ok t ->
  (fun p => zload (t, w) p) <$> zend_hash_find t key = dict_lookup (KStr (ZSTR_VAL key)) (elems t).
Proof. apply hash_find_ok. Qed.

(** the same for lookup by character data. *)
Theorem zend_hash_str_find_correct t w str : repr_ok t ->
  (fun p => zload (t, w) p) <$> zend_hash_str_find t str = dict_lookup (KStr str) (elems t).
Proof.
  intros Hr. unfold zend_hash_str_find, zend_hash_str_find_bucket.
  destruct (fl_PACKED t) eqn:Hpk.
  { destruct Hr as [Hu|[Hp|Hm]].
    - rewrite (un_packed _ Hu) in Hpk. done.
    - rewrite chain_head_none by apply Hp. by rewrite chain_find_none, str_find_packed.
    - rewrite (do_packed _ (mx_data _ Hm)) in Hpk. done. }
  pose proof (find_bucket_repr t (match_content (zend_inline_hash_func str) str) (KStr str)
    Hr Hpk (match_content_spec str)) as Hf.
  cbn [key_hash] in Hf. destruct (chain_find _ _ _ _) as [i|].
  - destruct Hf as [Hm Hf]. simpl. symmetry. apply holds_lookup; [apply Hm|done].
  - symmetry. by apply dict_lookup_None.
Qed.

Lemma hash_index_find_ok t w h : repr_ok t -> 0 <= h ->
  (fun p => zload (t, w) p) <$> zend_hash_index_find t h = dict_lookup (KInt h) (elems t).
Proof.
  intros Hr Hh. unfold zend_hash_index_find, zend_hash_index_find_bucket.
  destruct (fl_PACKED t) eqn:Hpk.
  - destruct Hr as [Hu|[Hp|Hm]].
    + rewrite (un_packed _ Hu) in Hpk. done.
    + rewrite packed_lookup by done. destruct (h <? nNumUsed t); [|done]. simpl.
      by destruct (Z_ISUNDEF (packed t h)).
    + rewrite (do_packed _ (mx_data _ Hm)) in Hpk. done.
  - pose proof (find_bucket_repr t (match_index h) (KInt h) Hr Hpk (fun b _ => match_index_spec h b)) as Hf.
    cbn [key_hash] in Hf. destruct (chain_find _ _ _ _) as [i|].
    + destruct Hf as [Hm Hf]. simpl. symmetry. apply holds_lookup; [apply Hm|done].
    + symmetry. by apply dict_lookup_None.
Qed.

(** lookup of an integer key, packed or hashed, is dictionary lookup. *)
Theorem zend_hash_index_find_correct t w h : repr_ok t -> 0 <= h ->
  (fun p => zload (t, w) p) <$> zend_hash_index_find t h = dict_lookup (KInt h) (elems t).
Proof. apply hash_index_find_ok. Qed.

End Find.
