(* ===== verification/HashAdd.v ===== *)
(** Insertion and update with string keys refine the dictionary operations;
    shared lemmas on appending and overwriting a bucket. *)

From stdpp Require Import base numbers list gmap.
From S2P Require Import Prelude ZendTypes HashTable HashDict HashChain HashInv HashRehash HashFind.

Section Add.
Context {V : Type} {E : ZEnv V}.
Implicit Types (t : HashTable V) (w : EG V) (b : Bucket V) (v : zval V).

(** * Appending a bucket *)

(** [t'] is [t] with one more bucket, filed at the head of its chain. *)
Record appended t t' v (h : Z) (ko : option Z) : Prop := {
  ap_packed : fl_PACKED t' = false;
  ap_init : fl_UNINITIALIZED t' = false;
  ap_size : nTableSize t' = nTableSize t;
  ap_mask : nTableMask t' = nTableMask t;
  ap_data : llen (arData t') = llen (arData t);
  ap_hash : arHash t' =
    lset (arHash t) (nIndex_of h (nTableMask t) - nTableMask t) (nNumUsed t);
  ap_used : nNumUsed t' = nNumUsed t + 1;
  ap_count : nNumOfElements t' = nNumOfElements t + 1;
  ap_new : bucket t' (nNumUsed t) = mk_Bucket v (HT_HASH t (nIndex_of h (nTableMask t))) h ko;
  ap_old : forall k, 0 <= k -> k <> nNumUsed t -> bucket t' k = bucket t k
}.

Lemma appended_entries t t' v h ko : 0 <= nNumUsed t -> Z_ISUNDEF v = false ->
  appended t t' v h ko -> mixed_entries t' = mixed_entries t ++ [(v, h, ko)].
Proof.
  intros Hu Hv []. unfold mixed_entries. rewrite ap_used0.
  replace (Z.to_nat (nNumUsed t + 1)) with (S (Z.to_nat (nNumUsed t))) by lia.
  rewrite entries_S. replace (0 + Z.of_nat (Z.to_nat (nNumUsed t))) with (nNumUsed t) by lia.
  rewrite (entries_ext t t') by (intros; rewrite ap_old0 by lia; done). f_equal.
  unfold live_entry, live. rewrite ap_new0. simpl. by rewrite Hv.
Qed.

Lemma appended_linked t t' v h ko : mixed_ok t -> nNumUsed t < nTableSize t ->
  Z_ISUNDEF v = false -> appended t t' v h ko -> linked t' (Z.to_nat (nNumUsed t')).
Proof.
  intros Hm Hroom Hv []. pose proof (mx_data _ Hm) as Hd. pose proof (do_used _ Hd) as Hu.
  set (n := Z.to_nat (nNumUsed t)). assert (nNumUsed t = Z.of_nat n) as Hn by lia.
  set (t1 := upd_bucket (Z.of_nat n) (fun _ => mk_Bucket v 0 h ko) t).
  assert (bucket t1 (Z.of_nat n) = mk_Bucket v 0 h ko) as Hb1.
  { apply bucket_upd_eq. rewrite (do_data _ Hd). lia. }
  assert (areas_ok t1) as Ha1.
  { destruct (mixed_areas _ Hm). split; try done. simpl. by rewrite llen_lset. }
  assert (linked (link_bucket (Z.of_nat n) t1) (S n)) as Hl.
  { apply link_bucket_linked; [done|simpl; lia| |].
    - unfold live. rewrite Hb1. simpl. by rewrite Hv.
    - apply (linked_ext t); [done|done| |apply Hm].
      intros k Hk. unfold t1. by rewrite bucket_upd_ne by lia. }
  rewrite ap_used0. replace (Z.to_nat (nNumUsed t + 1)) with (S n) by lia.
  apply (linked_ext (link_bucket (Z.of_nat n) t1)); [done| |  |done].
  - rewrite ap_hash0. simpl. rewrite Hb1. simpl. by rewrite <- Hn.
  - intros k Hk. unfold link_bucket. rewrite Hb1. simpl b_h.
    change (bucket (set_HT_HASH ?n ?x ?u) k) with (bucket u k).
    destruct (decide (k = Z.of_nat n)) as [->|Hne].
    + rewrite bucket_upd_eq by (rewrite (ao_data _ Ha1); simpl; lia).
      rewrite Hb1, <- Hn, ap_new0. done.
    + rewrite bucket_upd_ne by lia. unfold t1. rewrite bucket_upd_ne by lia. apply ap_old0; lia.
Qed.

Lemma append_ok t t' v h ko : mixed_ok t -> nNumUsed t < nTableSize t ->
  Z_ISUNDEF v = false -> entry_ok (v, h, ko) -> entry_key (v, h, ko) ∉ (elems t).*1 ->
  appended t t' v h ko ->
  mixed_ok t' /\ elems t' = elems t ++ [(entry_key (v, h, ko), v)].
Proof.
  intros Hm Hroom Hv Hok Hnew Hap. pose proof (mx_data _ Hm) as Hd.
  pose proof (do_used _ Hd) as Hu.
  pose proof (appended_entries t t' v h ko ltac:(lia) Hv Hap) as He.
  pose proof (appended_linked t t' v h ko Hm Hroom Hv Hap) as Hl.
  rewrite elems_mixed, <- list_fmap_compose in Hnew by apply Hd.
  destruct Hap. destruct Hd. split.
  - split; [split| |done]; try congruence; try lia.
    + rewrite He. unfold llen in *. rewrite length_app. simpl. lia.
    + rewrite He. apply Forall_app. split; [done|]. by apply Forall_singleton.
    + rewrite He, fmap_app. apply NoDup_app. split; [done|]. split; [|apply NoDup_singleton].
      intros k Hk ->%list_elem_of_singleton. done.
    + rewrite ap_hash0, llen_lset, ap_mask0. apply Hm.
  - rewrite !elems_mixed by done. rewrite He, fmap_app. done.
Qed.

(** * Overwriting a value *)

Lemma entries_split t i : 0 <= i < nNumUsed t -> live t i = true ->
  mixed_entries t = entries t 0 (Z.to_nat i) ++ content (bucket t i) ::
    entries t (i + 1) (Z.to_nat (nNumUsed t - i - 1)).
Proof.
  intros Hi Hl. unfold mixed_entries.
  replace (Z.to_nat (nNumUsed t)) with (Z.to_nat i + S (Z.to_nat (nNumUsed t - i - 1)))%nat by lia.
  rewrite entries_app, entries_cons. replace (0 + Z.of_nat (Z.to_nat i)) with i by lia.
  unfold live_entry. by rewrite Hl.
Qed.

Lemma set_val_same_links t i v n : 0 <= i -> live t i = true -> Z_ISUNDEF v = false ->
  linked t n -> linked (upd_bucket i (set_b_val v) t) n.
Proof.
  intros Hi Hl Hv Hlk c Hc.
  assert (forall k, 0 <= k -> b_next (bucket (upd_bucket i (set_b_val v) t) k) = b_next (bucket t k) /\
    b_h (bucket (upd_bucket i (set_b_val v) t) k) = b_h (bucket t k) /\
    live (upd_bucket i (set_b_val v) t) k = live t k) as Hs.
  { intros k Hk. destruct (decide (k = i)) as [->|Hne].
    - destruct (decide (i < llen (arData t))).
      + unfold live. rewrite bucket_upd_eq by lia. simpl. unfold live in Hl. by rewrite Hl, Hv.
      + unfold live, bucket, upd_bucket, lget, lset. simpl.
        rewrite list_insert_ge by (unfold llen in *; lia). done.
    - unfold live. by rewrite bucket_upd_ne by lia. }
  rewrite (cell_list_ext t).
  - apply (chain_list_ext t); [|by apply Hlk]. intros k (Hk & _)%elem_of_cell_list. apply Hs. lia.
  - intros k Hk. split; [apply Hs; lia|]. unfold cell. by rewrite (proj1 (proj2 (Hs k ltac:(lia)))).
Qed.

Lemma overwrite_ok t i (k : hkey) v : mixed_ok t -> holds t i k -> Z_ISUNDEF v = false ->
  let t' := upd_bucket i (set_b_val v) t in
  mixed_ok t' /\ elems t' = dict_set k v (elems t) /\ keeps t t'.
Proof.
  intros Hm Hh Hv t'. pose proof Hh as (Hi & Hl & Hk). pose proof (mx_data _ Hm) as Hd.
  pose proof (do_used _ Hd) as Hu.
  assert (bucket t' i = set_b_val v (bucket t i)) as Hb.
  { apply bucket_upd_eq. rewrite (do_data _ Hd). lia. }
  assert (forall j, 0 <= j -> j <> i -> bucket t' j = bucket t j) as Ho.
  { intros. unfold t'. by rewrite bucket_upd_ne by lia. }
  assert (live t' i = true) as Hl' by (unfold live; by rewrite Hb; simpl; rewrite Hv).
  pose proof (entries_split t i Hi Hl) as He.
  pose proof (entries_split t' i Hi Hl') as He'.
  change (nNumUsed t') with (nNumUsed t) in He'.
  rewrite (entries_ext t t' 0) in He' by (intros; rewrite Ho by lia; done).
  rewrite (entries_ext t t' (i + 1)) in He' by (intros; rewrite Ho by lia; done).
  rewrite Hb in He'.
  assert (entry_key <$> mixed_entries t' = entry_key <$> mixed_entries t) as Hkeys.
  { rewrite He, He', !fmap_app. done. }
  split; [split; [destruct Hd; split|..]|split]; try done.
  - simpl. by rewrite llen_lset.
  - change (nNumOfElements t') with (nNumOfElements t). rewrite do_count, He, He'.
    unfold llen. by rewrite !length_app.
  - rewrite He'. rewrite He in do_entries. apply Forall_app in do_entries as [H1 H2].
    apply Forall_cons in H2 as [H2 H3]. apply Forall_app. split; [done|].
    apply Forall_cons. split; [done|done].
  - by rewrite Hkeys.
  - simpl. apply Hm.
  - apply set_val_same_links; [lia|done|done|apply Hm].
  - assert (dict_ok (elems t)) as Hok by (by apply elems_keys).
    rewrite !elems_mixed in * by apply Hd. rewrite He', He in *. rewrite !fmap_app in *. csimpl in *.
    assert (entry_elem (content (bucket t i)) = (k, b_val (bucket t i))) as Hc
      by (unfold entry_elem; by rewrite <- bucket_key_content, Hk).
    assert (entry_elem (content (set_b_val v (bucket t i))) = (k, v)) as Hc'
      by (unfold entry_elem; rewrite <- bucket_key_content; unfold bucket_key; simpl; by rewrite <- Hk).
    rewrite Hc in *. rewrite Hc'. by rewrite dict_set_mid.
Qed.

(** * Nothing outside the iterators changes while growing *)

Definition same_outside w w' : Prop := slots w' = slots w /\ trace w' = trace w.

Lemma same_outside_refl w : same_outside w w.
Proof. done. Qed.

Lemma same_outside_trans w1 w2 w3 : same_outside w1 w2 -> same_outside w2 w3 -> same_outside w1 w3.
Proof. unfold same_outside. intuition congruence. Qed.

Lemma map_used_outside f w : same_outside w (map_used_iterators f w).
Proof. done. Qed.

Lemma iterators_update_outside t w x y : same_outside w (zend_hash_iterators_update t w x y).
Proof. unfold zend_hash_iterators_update. destruct (HT_HAS_ITERATORS t); apply same_outside_refl || apply map_used_outside. Qed.

Lemma iter_move_loop_outside n : forall t w i j ip,
  same_outside w (iter_move_loop n t w i j ip).1.
Proof.
  induction n as [|n IH]; intros; cbn [iter_move_loop]; [apply iterators_update_outside|].
  destruct (_ <? i); [|apply iterators_update_outside].
  eapply same_outside_trans; [apply iterators_update_outside|apply IH].
Qed.

Lemma rehash_compact_outside n : forall i j ip t w,
  same_outside w (rehash_compact n i j ip (t, w)).1.2.
Proof.
  induction n as [|n IH]; intros; cbn [rehash_compact]; [apply same_outside_refl|].
  destruct (Z_ISUNDEF _); [apply IH|].
  destruct ip as [ip|]; [|apply IH].
  destruct (ip <=? i); [|apply IH].
  pose proof (iter_move_loop_outside (Z.to_nat i)
    (if (j <? nInternalPointer (move_bucket i j t)) && (nInternalPointer (move_bucket i j t) <=? i)
     then set_nInternalPointer j (move_bucket i j t) else move_bucket i j t) w i j ip) as Ho.
  destruct (iter_move_loop _ _ _ _ _ _) as [w' ip']. simpl in Ho.
  eapply same_outside_trans; [exact Ho|apply IH].
Qed.

Lemma rehash_holes_outside n : forall i t w, same_outside w (rehash_holes n i (t, w)).2.
Proof.
  induction n as [|n IH]; intros; cbn [rehash_holes]; [apply same_outside_refl|].
  destruct (Z_ISUNDEF _); [|apply IH].
  match goal with |- context [rehash_compact n ?a ?b ?c ?d] =>
    pose proof (rehash_compact_outside n a b c t w) as Ho;
    destruct (rehash_compact n a b c d) as [[t' w'] j] end.
  exact Ho.
Qed.

Lemma rehash_outside t w : same_outside w (zend_hash_rehash (t, w)).2.
Proof.
  unfold zend_hash_rehash. destruct (_ =? 0).
  - destruct (fl_UNINITIALIZED t); [apply same_outside_refl|]. simpl.
    destruct (HT_HAS_ITERATORS _); [apply map_used_outside|apply same_outside_refl].
  - destruct (HT_IS_WITHOUT_HOLES _); [apply same_outside_refl|].
    match goal with |- context [rehash_holes ?n ?i ?s] =>
      pose proof (rehash_holes_outside n i (HT_HASH_RESET t) w) as Ho;
      destruct (rehash_holes n i s) as [t' w'] end.
    simpl in *. destruct (HT_HAS_ITERATORS t'); [|done].
    eapply same_outside_trans; [exact Ho|apply map_used_outside].
Qed.

(** * Making room *)

(** Facts about the table that insertion continues with. *)
Definition ready t w t1 w1 : Prop :=
  mixed_ok t1 /\ elems t1 = elems t /\ nNextFreeElement t1 = nNextFreeElement t /\
  pDestructor t1 = pDestructor t /\ nNumUsed t1 < nTableSize t1 /\ same_outside w w1.

Lemma resize_ready t w : mixed_ok t -> nNumUsed t < HT_MAX_SIZE ->
  exists t1 w1, ZEND_HASH_IF_FULL_DO_RESIZE (t, w) = Some (t1, w1) /\ ready t w t1 w1.
Proof.
  intros Hm Hmax. pose proof (do_used _ (mx_data _ Hm)) as Hu.
  unfold ZEND_HASH_IF_FULL_DO_RESIZE. cbn [fst snd].
  destruct (Z.leb_spec (nTableSize t) (nNumUsed t)) as [Hfull|Hroom].
  - destruct (do_resize_ok t w Hm Hfull) as (t' & w' & Hr & Hok & He & Hk & Hroom); [left; lia|].
    exists t', w'. split; [done|]. destruct Hk as (_ & Hn & Hdt & _).
    do 5 (split; [done|]). unfold zend_hash_do_resize in Hr.
    destruct (_ <? nNumUsed t).
    + apply (inj Some) in Hr. pose proof (rehash_outside t w) as Ho. by rewrite Hr in Ho.
    + destruct (_ <? HT_MAX_SIZE); [|done]. apply (inj Some) in Hr.
      match type of Hr with zend_hash_rehash (?g, _) = _ => pose proof (rehash_outside g w) as Ho end.
      by rewrite Hr in Ho.
  - exists t, w. split; [done|]. do 5 (split; [done|]). apply same_outside_refl.
Qed.

Lemma conv_ready t w : packed_data t -> nNumOfElements t < nTableSize t ->
  exists t1 w1, zend_hash_packed_to_hash (t, w) = (t1, w1) /\ ready t w t1 w1.
Proof.
  intros Hp Hroom.
  destruct (packed_to_hash_ok t w Hp) as (t1 & w1 & Heq & Hok & He & (Hc & Hn & Hdt & _) & Hs & Hu).
  exists t1, w1. split; [done|]. do 4 (split; [done|]). split; [lia|].
  unfold zend_hash_packed_to_hash in Heq. cbv zeta in Heq.
  match type of Heq with zend_hash_rehash (?g, _) = _ => pose proof (rehash_outside g w) as Ho end.
  by rewrite Heq in Ho.
Qed.

Lemma linked_invalid t n :
  (forall c, nTableMask t <= c < 2 ^ 32 -> HT_HASH t c = HT_INVALID_IDX) -> n = 0%nat -> linked t n.
Proof. intros H -> c Hc. by apply H. Qed.

Lemma init_mixed_ready t w : uninit_ok t ->
  ready t w (zend_hash_real_init_mixed_ex t) w.
Proof.
  intros Hu. pose proof (un_size _ Hu) as Hs. pose proof (size_ok_bounds _ Hs) as Hb.
  unfold zend_hash_real_init_mixed_ex.
  assert (forall t', fl_PACKED t' = false -> fl_UNINITIALIZED t' = false ->
    nTableSize t' = nTableSize t -> nTableMask t' = HT_SIZE_TO_MASK (nTableSize t) ->
    llen (arData t') = nTableSize t -> nNumUsed t' = 0 -> nNumOfElements t' = 0 ->
    arHash t' = replicate (Z.to_nat (2 * nTableSize t)) HT_INVALID_IDX ->
    nNextFreeElement t' = nNextFreeElement t -> pDestructor t' = pDestructor t -> ready t w t' w) as Hgen.
  { intros t' H1 H2 H3 H4 H5 H6 H7 H8 H9 H10.
    assert (mixed_entries t' = []) as He by (unfold mixed_entries; by rewrite H6).
    assert (mixed_ok t') as Hm.
    { split; [split|..]; rewrite ?He; try done; rewrite ?H3; try done; try lia; try constructor.
      - rewrite H8, H4, mask_eq by done. unfold llen. rewrite length_replicate. lia.
      - apply linked_invalid; [|by rewrite H6]. rewrite H4, mask_eq by done. intros c Hc.
        unfold HT_HASH. rewrite H8, H4, mask_eq by done. apply lget_replicate. lia. }
    split; [done|]. split; [by rewrite elems_mixed, He, elems_uninit|].
    do 2 (split; [done|]). split; [lia|apply same_outside_refl]. }
  destruct (Z.eqb_spec (nTableSize t) HT_MIN_SIZE) as [Hmin|Hbig].
  - apply Hgen; try done; simpl; rewrite ?Hmin; try done; by apply Hu.
  - apply Hgen; try done; simpl; try by apply Hu.
    + apply llen_fresh_buckets. lia.
    + by rewrite cells_eq.
Qed.

(** * The new bucket of a string key *)

Lemma bucket_upd2 t i f g k : 0 <= i < llen (arData t) -> 0 <= k ->
  bucket (upd_bucket i f (upd_bucket i g t)) k = if k =? i then f (g (bucket t i)) else bucket t k.
Proof.
  intros Hi Hk. destruct (Z.eqb_spec k i) as [->|].
  - rewrite !bucket_upd_eq by (rewrite ?llen_upd_bucket; lia). done.
  - by rewrite !bucket_upd_ne by lia.
Qed.

Definition stored_value (flag : Z) (pData : zval V) : zval V :=
  if has_flag flag HASH_LOOKUP then IS_NULL else pData.

Definition addref_if_new (key : Z) w : EG V :=
  if ZSTR_IS_INTERNED key then w else emit (EvAddref key) w.

Lemma zstr_entry_ok v key : entry_ok (v, ZSTR_H key, Some key).
Proof.
  split; [done|]. simpl. pose proof (hash_func_range (ZSTR_VAL key)). unfold ZSTR_H. lia.
Qed.

Lemma u32_succ_used t : mixed_ok t -> nNumUsed t < nTableSize t ->
  u32 (nNumUsed t + 1) = nNumUsed t + 1 /\ u32 (nNumOfElements t + 1) = nNumOfElements t + 1.
Proof.
  intros Hm Hroom. pose proof (mx_data _ Hm) as Hd. pose proof (do_used _ Hd).
  pose proof (count_le_used _ Hd). pose proof (size_ok_bounds _ (do_size _ Hd)) as Hb.
  unfold HT_MAX_SIZE in Hb. split; apply u32_small; lia.
Qed.

Lemma add_to_hash_ok key pData flag t w :
  mixed_ok t -> nNumUsed t < nTableSize t -> KStr (ZSTR_VAL key) ∉ (elems t).*1 ->
  Z_ISUNDEF (stored_value flag pData) = false ->
  exists t', add_to_hash key pData flag (t, w) =
      ((t', addref_if_new key w), Some (PBucket (nNumUsed t))) /\
    mixed_ok t' /\ elems t' = elems t ++ [(KStr (ZSTR_VAL key), stored_value flag pData)] /\
    nNextFreeElement t' = nNextFreeElement t /\ b_val (bucket t' (nNumUsed t)) = stored_value flag pData.
Proof.
  intros Hm Hroom Hnew Hv. destruct (u32_succ_used t Hm Hroom) as [Hu1 Hu2].
  pose proof (mx_data _ Hm) as Hd. pose proof (do_used _ Hd) as Hu.
  unfold add_to_hash, addref_if_new. fold (stored_value flag pData).
  set (ts := if ZSTR_IS_INTERNED key then t else set_fl_STATIC_KEYS false t).
  set (ws := if ZSTR_IS_INTERNED key then w else emit (EvAddref key) w).
  replace (if ZSTR_IS_INTERNED key then (t, w) else (set_fl_STATIC_KEYS false t, emit (EvAddref key) w))
    with (ts, ws) by (unfold ts, ws; by destruct (ZSTR_IS_INTERNED key)).
  assert (nNumUsed ts = nNumUsed t) as E1 by (unfold ts; by destruct (ZSTR_IS_INTERNED key)).
  match goal with |- exists t', ((?x, _), _) = _ /\ _ => set (t' := x) end.
  exists t'. rewrite E1. split; [done|].
  assert (appended t t' (stored_value flag pData) (ZSTR_H key) (Some key)) as Hap.
  { assert (0 <= nNumUsed t < llen (arData t)) as Hin by (rewrite (do_data _ Hd); lia).
    subst t'. unfold ts. clear E1. destruct (ZSTR_IS_INTERNED key);
      (split; [apply Hd|apply Hd|done|done|simpl; by rewrite !llen_lset|done|exact Hu1|exact Hu2| |]).
    1,3: unfold upd_bucket, bucket; simpl; rewrite !lget_lset_eq by (rewrite ?llen_lset; lia); done.
    all: intros k Hk Hne; unfold upd_bucket, bucket; simpl; by rewrite !lget_lset_ne by lia. }
  destruct (append_ok t t' (stored_value flag pData) (ZSTR_H key) (Some key) Hm Hroom Hv
    (zstr_entry_ok _ key) Hnew Hap) as [Hok He].
  split; [done|]. split; [done|]. split; [|by rewrite (ap_new _ _ _ _ _ Hap)].
  unfold t', ts. by destruct (ZSTR_IS_INTERNED key).
Qed.

(** [_zend_hash_append_ex] sets the value first, otherwise it is [add_to_hash]:
    the caller vouches for the room and for a key that is not in the table. *)
Lemma append_ex_ok key v interned t w :
  mixed_ok t -> nNumUsed t < nTableSize t -> KStr (ZSTR_VAL key) ∉ (elems t).*1 -> Z_ISUNDEF v = false ->
  exists t', zend_hash_append_ex key v interned (t, w) =
      ((t', if interned then w else addref_if_new key w), Some (PBucket (nNumUsed t))) /\
    mixed_ok t' /\ elems t' = elems t ++ [(KStr (ZSTR_VAL key), v)] /\ nNextFreeElement t' = nNextFreeElement t.
Proof.
  intros Hm Hroom Hnew Hv. destruct (u32_succ_used t Hm Hroom) as [Hu1 Hu2].
  pose proof (mx_data _ Hm) as Hd. pose proof (do_used _ Hd) as Hu.
  assert (0 <= nNumUsed t < llen (arData t)) as Hin by (rewrite (do_data _ Hd); lia).
  unfold zend_hash_append_ex, addref_if_new. cbv zeta.
  set (ap := negb interned && negb (ZSTR_IS_INTERNED key)).
  assert ((if interned then w else if ZSTR_IS_INTERNED key then w else emit (EvAddref key) w) =
    if ap then emit (EvAddref key) w else w) as -> by (unfold ap; by destruct interned, (ZSTR_IS_INTERNED key)).
  match goal with |- context [if ap then (set_fl_STATIC_KEYS false ?x, _) else _] =>
    replace (if ap then (set_fl_STATIC_KEYS false x, emit (EvAddref key) w) else (x, w))
      with (if ap then set_fl_STATIC_KEYS false x else x, if ap then emit (EvAddref key) w else w) by (by destruct ap) end.
  match goal with |- exists t', ((?x, _), _) = _ /\ _ => set (t' := x) end.
  exists t'. split; [done|].
  assert (appended t t' v (ZSTR_H key) (Some key)) as Hap.
  { subst t'. clearbody ap. destruct ap;
      (split; [apply Hd|apply Hd|done|done|simpl; by rewrite !llen_lset|done|exact Hu1|exact Hu2| |]).
    1,3: unfold upd_bucket, bucket; simpl; rewrite !lget_lset_eq by (rewrite ?llen_lset; lia); done.
    all: intros k Hk Hne; unfold upd_bucket, bucket; simpl; by rewrite !lget_lset_ne by lia. }
  destruct (append_ok t t' v (ZSTR_H key) (Some key) Hm Hroom Hv (zstr_entry_ok _ key) Hnew Hap) as [Hok He].
  split; [done|]. split; [done|]. unfold t'. by destruct ap.
Qed.

(** * The operations *)

Lemma packed_elems_length t i n : (length (packed_elems t i n) <= n)%nat.
Proof.
  revert i. induction n as [|n IH]; intros i; [done|].
  rewrite packed_elems_cons, length_app. specialize (IH (i + 1)).
  destruct (packed_elem t i); simpl; lia.
Qed.

Lemma packed_count_le t : packed_data t -> 0 <= nNumOfElements t <= nNumUsed t.
Proof.
  intros H. rewrite (pd_count _ H). unfold elems. rewrite (pd_packed _ H). unfold llen.
  pose proof (packed_elems_length t 0 (Z.to_nat (nNumUsed t))). pose proof (pd_used _ H). lia.
Qed.

Lemma ready_trans t w t1 w1 t2 w2 : ready t w t1 w1 -> ready t1 w1 t2 w2 -> ready t w t2 w2.
Proof.
  intros (_ & He1 & Hn1 & Hd1 & _ & Ho1) (Hm & He2 & Hn2 & Hd2 & Hr & Ho2).
  split; [done|]. do 3 (split; [congruence|]). split; [done|]. by eapply same_outside_trans.
Qed.

(** What an insertion of a fresh key produces. *)
Definition inserted (t : HashTable V) w (k : hkey) v (evs : list (event V))
    (r : option (state V * option zptr)) : Prop :=
  exists t' w' p, r = Some ((t', w'), Some p) /\ mixed_ok t' /\ elems t' = elems t ++ [(k, v)] /\
    nNextFreeElement t' = nNextFreeElement t /\ zload (t', w') p = v /\
    slots w' = slots w /\ trace w' = trace w ++ evs.

Definition addref_events (key : Z) : list (event V) :=
  if ZSTR_IS_INTERNED key then [] else [EvAddref key].

Lemma add_ready key pData flag t w t1 w1 :
  ready t w t1 w1 -> KStr (ZSTR_VAL key) ∉ (elems t).*1 ->
  Z_ISUNDEF (stored_value flag pData) = false ->
  inserted t w (KStr (ZSTR_VAL key)) (stored_value flag pData) (addref_events key)
    (Some (add_to_hash key pData flag (t1, w1))).
Proof.
  intros (Hm & He & Hn & Hdt & Hr & [Hsl Htr]) Hnew Hv.
  destruct (add_to_hash_ok key pData flag t1 w1 Hm Hr) as (t' & Heq & Hok & He' & Hn' & Hb);
    [by rewrite He|done|].
  exists t', (addref_if_new key w1), (PBucket (nNumUsed t1)).
  split; [by rewrite Heq|]. split; [done|]. split; [by rewrite He', He|]. split; [by rewrite Hn', Hn|].
  split; [done|]. unfold addref_if_new, addref_events.
  destruct (ZSTR_IS_INTERNED key); simpl; rewrite ?Hsl, ?Htr, ?app_nil_r; done.
Qed.

Lemma packed_resize_ready t w : packed_ok t -> nNumUsed t < HT_MAX_SIZE ->
  exists t1 w1, ZEND_HASH_IF_FULL_DO_RESIZE (zend_hash_packed_to_hash (t, w)) = Some (t1, w1) /\
    ready t w t1 w1.
Proof.
  intros Hp%packed_ok_data Hmax. pose proof (packed_count_le _ Hp) as Hc.
  destruct (packed_to_hash_ok t w Hp) as (t1 & w1 & Heq & Hok & He & (Hcn & Hn & Hdt & _) & Hs & Hu).
  rewrite Heq. destruct (resize_ready t1 w1 Hok) as (t2 & w2 & -> & Hr); [lia|].
  exists t2, w2. split; [done|].
  destruct Hr as (Hm & He2 & Hn2 & Hd2 & Hr & Ho).
  split; [done|]. do 3 (split; [congruence|]). split; [done|].
  eapply same_outside_trans; [|exact Ho].
  unfold zend_hash_packed_to_hash in Heq. cbv zeta in Heq.
  match type of Heq with zend_hash_rehash (?g, _) = _ => pose proof (rehash_outside g w) as Hg end.
  by rewrite Heq in Hg.
Qed.

Lemma add_new_key key pData flag t w :
  repr_ok t -> nNumUsed t < HT_MAX_SIZE -> KStr (ZSTR_VAL key) ∉ (elems t).*1 ->
  Z_ISUNDEF (stored_value flag pData) = false ->
  inserted t w (KStr (ZSTR_VAL key)) (stored_value flag pData) (addref_events key)
    (zend_hash_add_or_update_i key pData flag (t, w)).
Proof.
  intros Hr Hmax Hnew Hv. unfold zend_hash_add_or_update_i.
  destruct Hr as [Hu|[Hp|Hm]].
  - rewrite (un_init _ Hu). cbn [orb]. by apply add_ready; [apply init_mixed_ready| |].
  - rewrite (pk_init _ Hp), (pk_packed _ Hp). cbn [orb].
    destruct (packed_resize_ready t w Hp Hmax) as (t1 & w1 & -> & Hrd). by apply add_ready.
  - rewrite (do_init _ (mx_data _ Hm)), (do_packed _ (mx_data _ Hm)). cbn [orb].
    destruct (resize_ready t w Hm Hmax) as (t1 & w1 & Heq & Hrd). rewrite Heq.
    destruct (negb (has_flag flag HASH_ADD_NEW)); [|by apply add_ready].
    pose proof (find_bucket_repr t (match_key key) (KStr (ZSTR_VAL key)) (or_intror (or_intror Hm))
      (do_packed _ (mx_data _ Hm)) (match_key_spec key)) as Hf.
    unfold zend_hash_find_bucket, ZSTR_H. cbn [key_hash] in Hf. destruct (chain_find _ _ _ _) as [i|].
    + destruct Hf as [_ Hh]. exfalso. apply Hnew.
      destruct (decide (KStr (ZSTR_VAL key) ∈ (elems t).*1)) as [|Hn%dict_lookup_None]; [done|].
      rewrite (holds_lookup t i _ (mx_data _ Hm) Hh) in Hn. done.
    + by apply add_ready.
Qed.

(** Present keys live in a mixed table, at a bucket that the search returns. *)
Lemma find_present key t w : repr_ok t -> KStr (ZSTR_VAL key) ∈ (elems t).*1 ->
  exists i, mixed_ok t /\ holds t i (KStr (ZSTR_VAL key)) /\ zend_hash_find_bucket t key = Some i /\
  forall pData flag, has_flag flag HASH_ADD_NEW = false ->
    zend_hash_add_or_update_i key pData flag (t, w) = Some (update_existing i pData flag (t, w)).
Proof.
  intros Hr Hin. destruct (fl_PACKED t) eqn:Hpk.
  { destruct Hr as [Hu|[Hp|Hm]].
    - rewrite (un_packed _ Hu) in Hpk. done.
    - exfalso. by apply (proj1 (dict_lookup_None _ _) (str_find_packed t (ZSTR_VAL key) Hp)).
    - rewrite (do_packed _ (mx_data _ Hm)) in Hpk. done. }
  pose proof (find_bucket_repr t (match_key key) (KStr (ZSTR_VAL key)) Hr Hpk (match_key_spec key)) as Hf.
  cbn [key_hash] in Hf. fold (ZSTR_H key) in Hf. fold (zend_hash_find_bucket t key) in Hf.
  destruct (zend_hash_find_bucket t key) as [i|] eqn:Hfb; [|done].
  destruct Hf as [Hm Hh]. exists i. split; [done|]. split; [done|]. split; [done|].
  intros pData flag Hfl. unfold zend_hash_add_or_update_i.
  rewrite (do_init _ (mx_data _ Hm)), Hpk. cbn [orb]. rewrite Hfl. cbn [negb]. by rewrite Hfb.
Qed.

Lemma next_free_str t t' k v : next_free_ok t -> nNextFreeElement t' = nNextFreeElement t ->
  elems t' = dict_set (KStr k) v (elems t) -> next_free_ok t'.
Proof.
  intros [Hr Hb] Hn He. split; [by rewrite Hn|]. rewrite Hn. intros h. rewrite He.
  rewrite dict_set_key_in. intros [?|Hin]; [done|]. by apply Hb.
Qed.

(** Events of an update: destructor of the overwritten value, or a new
    reference to the key. *)
Definition update_events t (key : Z) : list (event V) :=
  match dict_lookup (KStr (ZSTR_VAL key)) (elems t) with
  | Some old => if pDestructor t then [EvDtor old] else []
  | None => addref_events key
  end.

(** The result of a successful update of key [k] with [v], with its events. *)
Definition updated t w (k : hkey) v (evs : list (event V)) (r : option (state V * option zptr)) : Prop :=
  exists t' w' p, r = Some ((t', w'), Some p) /\
    wf t' /\ elems t' = dict_set k v (elems t) /\
    zload (t', w') p = v /\ slots w' = slots w /\ trace w' = trace w ++ evs.

Lemma update_ok key pData t w :
  wf t -> nNumUsed t < HT_MAX_SIZE -> Z_ISUNDEF pData = false ->
  updated t w (KStr (ZSTR_VAL key)) pData (update_events t key) (zend_hash_update key pData (t, w)).
Proof.
  intros [Hr Hnf] Hmax Hv. unfold zend_hash_update, update_events.
  destruct (dict_lookup (KStr (ZSTR_VAL key)) (elems t)) as [old|] eqn:Hlk.
  - destruct (decide (KStr (ZSTR_VAL key) ∈ (elems t).*1)) as [Hin|Hn%dict_lookup_None]; [|congruence].
    destruct (find_present key t w Hr Hin) as (i & Hm & Hh & _ & Heq). rewrite Heq by done.
    rewrite (holds_lookup t i _ (mx_data _ Hm) Hh) in Hlk. apply (inj Some) in Hlk as <-.
    destruct (overwrite_ok t i _ pData Hm Hh Hv) as (Hok & He & Hk).
    set (t' := upd_bucket i (set_b_val pData) t) in *.
    exists t', (run_dtor t (b_val (bucket t i)) w), (PBucket i).
    split. { unfold update_existing. destruct (b_val (bucket t i)) eqn:Hb; rewrite <- ?Hb; reflexivity. }
    split; [split; [by right; right|by apply (next_free_str t _ _ _ Hnf (proj1 (proj2 Hk)) He)]|].
    split; [done|]. split.
    { cbn. unfold t'. rewrite bucket_upd_eq; [done|]. rewrite (do_data _ (mx_data _ Hm)).
      pose proof (do_used _ (mx_data _ Hm)). destruct Hh. lia. }
    unfold run_dtor. destruct (pDestructor t); cbn; rewrite ?app_nil_r; done.
  - apply dict_lookup_None in Hlk.
    destruct (add_new_key key pData HASH_UPDATE t w Hr Hmax Hlk Hv)
      as (t' & w' & p & -> & Hok & He & Hn & Hl & Hsl & Htr).
    exists t', w', p. split; [done|]. rewrite <- (dict_set_absent _ _ _ Hlk) in He.
    split; [split; [by right; right|by eapply next_free_str]|]. done.
Qed.

(** C1: [zend_hash_update] succeeds on every well-formed table below the
    maximal size, keeps it well-formed and implements the dictionary update:
    in place for a present key, at the end for a new one.  The returned
    pointer designates the stored value, the old value is destroyed exactly
    when it is overwritten, and a non-interned key gains exactly one
    reference when it is inserted. *)
Theorem zend_hash_update_correct key pData t w :
  wf t -> nNumUsed t < HT_MAX_SIZE -> Z_ISUNDEF pData = false ->
  updated t w (KStr (ZSTR_VAL key)) pData (update_events t key) (zend_hash_update key pData (t, w)).
Proof. apply update_ok. Qed.

(** The result of adding key [k]: inserted at the end, or refused. *)
Definition added t w (k : hkey) v (evs : list (event V)) (r : option (state V * option zptr)) : Prop :=
  match dict_lookup k (elems t) with
  | Some _ => r = Some ((t, w), None)
  | None => exists t' w' p, r = Some ((t', w'), Some p) /\
      wf t' /\ elems t' = elems t ++ [(k, v)] /\
      zload (t', w') p = v /\ slots w' = slots w /\ trace w' = trace w ++ evs
  end.

Lemma added_present t w k v evs r old : added t w k v evs r -> dict_lookup k (elems t) = Some old ->
  r = Some ((t, w), None).
Proof. unfold added. intros H Hl. by rewrite Hl in H. Qed.

Lemma added_fresh t w k v evs r : added t w k v evs r -> dict_lookup k (elems t) = None ->
  exists t' w' p, r = Some ((t', w'), Some p) /\
    wf t' /\ elems t' = elems t ++ [(k, v)] /\
    zload (t', w') p = v /\ slots w' = slots w /\ trace w' = trace w ++ evs.
Proof. unfold added. intros H Hl. by rewrite Hl in H. Qed.

Lemma add_ok key pData t w :
  wf t -> nNumUsed t < HT_MAX_SIZE -> Z_ISUNDEF pData = false ->
  added t w (KStr (ZSTR_VAL key)) pData (addref_events key) (zend_hash_add key pData (t, w)).
Proof.
  intros [Hr Hnf] Hmax Hv. unfold zend_hash_add, added.
  destruct (dict_lookup (KStr (ZSTR_VAL key)) (elems t)) as [old|] eqn:Hlk.
  - destruct (decide (KStr (ZSTR_VAL key) ∈ (elems t).*1)) as [Hin|Hn%dict_lookup_None]; [|congruence].
    destruct (find_present key t w Hr Hin) as (i & Hm & Hh & _ & Heq). by rewrite Heq by done.
  - apply dict_lookup_None in Hlk.
    destruct (add_new_key key pData HASH_ADD t w Hr Hmax Hlk Hv)
      as (t' & w' & p & -> & Hok & He & Hn & Hl & Hsl & Htr).
    exists t', w', p. split; [done|].
    split; [split; [by right; right|eapply next_free_str; [done|done|by rewrite dict_set_absent]]|]. done.
Qed.

(** [zend_hash_add] inserts a new key at the end, and returns NULL leaving
    table and world untouched when the key is present. *)
Theorem zend_hash_add_correct key pData t w :
  wf t -> nNumUsed t < HT_MAX_SIZE -> Z_ISUNDEF pData = false ->
  added t w (KStr (ZSTR_VAL key)) pData (addref_events key) (zend_hash_add key pData (t, w)).
Proof. apply add_ok. Qed.

End Add.
