(* ===== verification/HashIndex.v ===== *)
(** Insertion and update with integer keys, on the packed and the mixed
    representation, refine the dictionary operations. *)

From stdpp Require Import base numbers list gmap.
From S2P Require Import Prelude ZendTypes HashTable HashDict HashChain HashInv HashRehash HashFind.
From S2P Require Import HashAdd.

Section Index.
Context {V : Type} {E : ZEnv V}.
Implicit Types (t : HashTable V) (w : EG V) (b : Bucket V) (v : zval V).

(** * The new bucket of an integer key *)

Definition bumped_next (h : Z) t : Z :=
  if nNextFreeElement t <=? s64 h
  then (if s64 h <? ZEND_LONG_MAX then s64 (h + 1) else ZEND_LONG_MAX)
  else nNextFreeElement t.

Lemma add_index_to_hash_ok h pData flag t w :
  mixed_ok t -> nNumUsed t < nTableSize t -> 0 <= h < 2 ^ 64 -> KInt h ∉ (elems t).*1 ->
  Z_ISUNDEF (stored_value flag pData) = false ->
  exists t', add_index_to_hash h pData flag (t, w) = ((t', w), Some (PBucket (nNumUsed t))) /\
    mixed_ok t' /\ elems t' = elems t ++ [(KInt h, stored_value flag pData)] /\
    nNextFreeElement t' = bumped_next h t /\ b_val (bucket t' (nNumUsed t)) = stored_value flag pData.
Proof.
  intros Hm Hroom Hh Hnew Hv. destruct (u32_succ_used t Hm Hroom) as [Hu1 Hu2].
  pose proof (mx_data _ Hm) as Hd. pose proof (do_used _ Hd) as Hu.
  unfold add_index_to_hash. fold (stored_value flag pData).
  match goal with |- exists t', ((?x, _), _) = _ /\ _ => set (t' := x) end.
  exists t'. split; [done|].
  assert (0 <= nNumUsed t < llen (arData t)) as Hin by (rewrite (do_data _ Hd); lia).
  assert (appended t t' (stored_value flag pData) h None) as Hap.
  { subst t'. cbv zeta.
    match goal with |- context [if ?c then set_nNextFreeElement _ _ else _] => destruct c end.
    all: (split; [apply Hd|apply Hd|done|done|simpl; by rewrite !llen_lset|done|exact Hu1|exact Hu2| |]).
    1,3: unfold upd_bucket, bucket; simpl; rewrite !lget_lset_eq by (rewrite ?llen_lset; lia); done.
    all: intros k Hk Hne; unfold upd_bucket, bucket; simpl; by rewrite !lget_lset_ne by lia. }
  destruct (append_ok t t' (stored_value flag pData) h None Hm Hroom Hv) as [Hok He]; [done|done|done|].
  split; [done|]. split; [done|]. split; [|by rewrite (ap_new _ _ _ _ _ Hap)].
  unfold t', bumped_next. cbn. by destruct (nNextFreeElement t <=? s64 h).
Qed.

Lemma bumped_next_ok h t t' : 0 <= h < 2 ^ 64 -> next_free_ok t ->
  nNextFreeElement t' = bumped_next h t -> (forall k, KInt k ∈ (elems t').*1 -> k = h \/ KInt k ∈ (elems t).*1) ->
  next_free_ok t'.
Proof.
  intros Hh [Hr Hb] Hn He. unfold bumped_next in Hn. pose proof (s64_range h) as Hs.
  assert (s64 h < ZEND_LONG_MAX -> s64 (h + 1) = s64 h + 1) as Hsucc.
  { unfold ZEND_LONG_MAX, s64. intros. zlia. }
  pose proof (s64_range (h + 1)) as Hs1. split.
  - rewrite Hn. destruct (_ <=? _); [|done]. destruct (_ <? _); [done|].
    unfold ZEND_LONG_MAX, ZEND_LONG_MIN; lia.
  - intros k Hk. rewrite Hn. destruct (Z.leb_spec (nNextFreeElement t) (s64 h)) as [Hle|Hgt].
    + destruct (Z.ltb_spec (s64 h) ZEND_LONG_MAX) as [Hlt|]; [|by right].
      rewrite Hsucc by done. destruct (He k Hk) as [->|Hin]; [left; lia|].
      destruct (Hb k Hin); left; lia.
    + destruct (He k Hk) as [->|Hin]; [left; lia|]. by apply Hb.
Qed.

(** * Packed elements *)

Lemma packed_set_eq t i v : 0 <= i < llen (arPacked t) -> packed (set_packed i v t) i = v.
Proof. intros. unfold packed, set_packed. simpl. by apply lget_lset_eq. Qed.

Lemma packed_set_ne t i k v : 0 <= i -> 0 <= k -> k <> i -> packed (set_packed i v t) k = packed t k.
Proof. intros. unfold packed, set_packed. simpl. by apply lget_lset_ne. Qed.

Lemma packed_elems_ext t t' i n :
  (forall k, i <= k < i + Z.of_nat n -> packed t' k = packed t k) ->
  packed_elems t' i n = packed_elems t i n.
Proof.
  revert i. induction n as [|n IH]; intros i H; [done|].
  rewrite !packed_elems_cons, IH by (intros; apply H; lia). f_equal. f_equal.
  unfold packed_elem. by rewrite H by lia.
Qed.

Lemma packed_elems_app t i n m :
  packed_elems t i (n + m) = packed_elems t i n ++ packed_elems t (i + Z.of_nat n) m.
Proof. unfold packed_elems. by rewrite zrange_app, omap_app. Qed.

Lemma packed_elems_undef t i n :
  (forall k, i <= k < i + Z.of_nat n -> Z_ISUNDEF (packed t k) = true) -> packed_elems t i n = [].
Proof.
  revert i. induction n as [|n IH]; intros i H; [done|].
  rewrite packed_elems_cons, IH by (intros; apply H; lia). unfold packed_elem. by rewrite H by lia.
Qed.

Lemma packed_elems_one t i v : packed t i = v -> Z_ISUNDEF v = false ->
  packed_elems t i 1 = [(KInt i, v)].
Proof. intros <- Hv. rewrite packed_elems_cons. unfold packed_elem. by rewrite Hv. Qed.

Lemma undef_packed_spec n : forall i t, 0 <= i -> i + Z.of_nat n <= llen (arPacked t) ->
  let t' := undef_packed n i t in
  frame t' = set_arPacked (arPacked t') (frame t) /\ nNumUsed t' = nNumUsed t /\
  llen (arPacked t') = llen (arPacked t) /\ arHash t' = arHash t /\
  (forall k, 0 <= k -> packed t' k = if (i <=? k) && (k <? i + Z.of_nat n) then IS_UNDEF else packed t k).
Proof.
  induction n as [|n IH]; intros i t Hi Hn; cbn [undef_packed].
  - split; [by destruct t|]. do 3 (split; [done|]). intros k Hk.
    destruct (Z.leb_spec i k); simpl; [|done]. by rewrite (proj2 (Z.ltb_ge _ _)) by lia.
  - set (t1 := set_packed i IS_UNDEF t).
    destruct (IH (i + 1) t1) as (Hf & Hu & Hl & Hh & Hp); [lia| |].
    { unfold t1, set_packed. simpl. rewrite llen_lset. lia. }
    split; [by rewrite Hf|]. split; [done|]. split; [rewrite Hl; apply llen_lset|]. split; [done|].
    intros k Hk. rewrite Hp by done.
    destruct (Z.leb_spec (i + 1) k), (Z.leb_spec i k), (Z.ltb_spec k (i + 1 + Z.of_nat n)),
      (Z.ltb_spec k (i + Z.of_nat (S n))); simpl; try lia; try done.
    all: try (unfold t1; rewrite packed_set_ne by lia; done).
    replace k with i by lia. unfold t1. apply packed_set_eq. lia.
Qed.

(** A packed table after appending [v] at position [h], with the positions
    between the old end and [h] undefined. *)
Lemma add_to_packed_ok h pData flag t w :
  packed_ok t -> nNumUsed t <= h < nTableSize t ->
  (flag_new_next flag = true -> h = nNumUsed t) ->
  Z_ISUNDEF (stored_value flag pData) = false ->
  exists t', add_to_packed h pData flag (t, w) = ((t', w), Some (PPacked h)) /\
    packed_ok t' /\ elems t' = elems t ++ [(KInt h, stored_value flag pData)] /\
    nNextFreeElement t' = h + 1 /\ packed t' h = stored_value flag pData.
Proof.
  intros Hp Hh Hnn Hv. pose proof (pk_used _ Hp) as Hu. pose proof (pk_size _ Hp) as Hs.
  pose proof (size_ok_bounds _ Hs) as Hb. unfold HT_MAX_SIZE in Hb. pose proof (pk_data _ Hp) as Hda.
  unfold add_to_packed. fold (stored_value flag pData).
  set (n := Z.to_nat (h - nNumUsed t)).
  set (t1 := if negb (flag_new_next flag) && (nNumUsed t <? h)
             then undef_packed n (nNumUsed t) t else t).
  assert (frame t1 = set_arPacked (arPacked t1) (frame t) /\ nNumUsed t1 = nNumUsed t /\
    llen (arPacked t1) = llen (arPacked t) /\ arHash t1 = arHash t /\
    (forall k, 0 <= k < nNumUsed t -> packed t1 k = packed t k) /\
    (forall k, nNumUsed t <= k < h -> packed t1 k = IS_UNDEF)) as (Hf & Hu1 & Hl1 & Hh1 & Hold & Hgap).
  { destruct (undef_packed_spec n (nNumUsed t) t) as (Hf & Hu1 & Hl1 & Hh1 & Hpk); [lia|lia|].
    unfold t1. destruct (flag_new_next flag) eqn:Hfl; simpl.
    { specialize (Hnn eq_refl). split; [by destruct t|]. do 4 (split; [done|]). intros. lia. }
    destruct (Z.ltb_spec (nNumUsed t) h).
    - do 4 (split; [done|]). split; intros k Hk; rewrite Hpk by lia.
      + by rewrite (proj2 (Z.leb_gt _ _)) by lia.
      + by rewrite (proj2 (Z.leb_le _ _)), (proj2 (Z.ltb_lt _ _)) by lia.
    - split; [by destruct t|]. do 4 (split; [done|]). intros. lia. }
  assert (u32 (h + 1) = h + 1) as Hu32 by (apply u32_small; lia).
  assert (s64 (h + 1) = h + 1) as Hs64 by (apply s64_small; unfold ZEND_LONG_MIN, ZEND_LONG_MAX; lia).
  assert (nNumOfElements t1 = nNumOfElements t /\ fl_PACKED t1 = true /\ fl_UNINITIALIZED t1 = false /\
    nTableSize t1 = nTableSize t /\ nTableMask t1 = HT_MIN_MASK) as (Hc1 & Hp1 & Hi1 & Hs1 & Hm1).
  { rewrite <- (pk_packed _ Hp), <- (pk_init _ Hp), <- (pk_mask _ Hp).
    clear - Hf. destruct t, t1. unfold frame in Hf. simpl in *. injection Hf. intros. subst. done. }
  pose proof (pk_count _ Hp) as Hcnt.
  assert (llen (elems t) <= nNumUsed t) as Hle.
  { rewrite <- Hcnt. apply packed_count_le. by apply packed_ok_data. }
  assert (u32 (nNumOfElements t1 + 1) = nNumOfElements t + 1) as Hu32'.
  { rewrite Hc1. apply u32_small. pose proof (llen_nonneg (elems t)). lia. }
  match goal with |- exists t', ((?x, _), _) = _ /\ _ => set (t' := x) end.
  exists t'. split; [done|].
  assert (packed t' h = stored_value flag pData) as Hnew.
  { apply packed_set_eq. simpl. lia. }
  assert (elems t' = elems t ++ [(KInt h, stored_value flag pData)]) as He.
  { rewrite (elems_packed t Hp). unfold elems. change (fl_PACKED t') with (fl_PACKED t1). rewrite Hp1.
    change (nNumUsed t') with (u32 (h + 1)). rewrite Hu32.
    replace (Z.to_nat (h + 1)) with (Z.to_nat (nNumUsed t) + (n + 1))%nat by lia.
    rewrite !packed_elems_app.
    replace (0 + Z.of_nat (Z.to_nat (nNumUsed t))) with (nNumUsed t) by lia.
    replace (nNumUsed t + Z.of_nat n) with h by lia.
    rewrite (packed_elems_undef t' (nNumUsed t) n).
    2:{ intros k Hk. unfold t'. rewrite packed_set_ne by lia.
        change (Z_ISUNDEF (packed t1 k) = true). by rewrite Hgap by lia. }
    rewrite (packed_elems_one t' h _ Hnew Hv). simpl. f_equal.
    apply packed_elems_ext. intros k Hk. unfold t'. rewrite packed_set_ne by lia.
    change (packed t1 k = packed t k). apply Hold. lia. }
  split; [|split; [done|split; [|done]]].
  - split; try done.
    + by rewrite <- Hs1 in Hs.
    + change (arHash t') with (arHash t1). rewrite Hh1. apply Hp.
    + simpl. rewrite llen_lset, Hl1, Hs1. done.
    + change (0 <= u32 (h + 1) <= nTableSize t1). rewrite Hu32, Hs1. lia.
    + rewrite He. change (nNumOfElements t') with (u32 (nNumOfElements t1 + 1)). rewrite Hu32', Hcnt.
      unfold llen. rewrite length_app. simpl. lia.
  - change (nNextFreeElement t') with (s64 (u32 (h + 1))). by rewrite Hu32.
Qed.

Lemma packed_split t h : packed_ok t -> 0 <= h < nNumUsed t -> Z_ISUNDEF (packed t h) = false ->
  elems t = packed_elems t 0 (Z.to_nat h) ++ (KInt h, packed t h) ::
    packed_elems t (h + 1) (Z.to_nat (nNumUsed t - h - 1)).
Proof.
  intros Hp Hh Hv. rewrite elems_packed by done.
  replace (Z.to_nat (nNumUsed t)) with (Z.to_nat h + S (Z.to_nat (nNumUsed t - h - 1)))%nat by lia.
  rewrite packed_elems_app, packed_elems_cons. replace (0 + Z.of_nat (Z.to_nat h)) with h by lia.
  unfold packed_elem. by rewrite Hv.
Qed.

Lemma packed_dict_ok t : packed_ok t -> dict_ok (elems t).
Proof. intros Hp. unfold dict_ok. rewrite elems_packed by done. apply packed_elems_NoDup. Qed.

Lemma packed_overwrite_ok t h v : packed_ok t -> 0 <= h < nNumUsed t ->
  Z_ISUNDEF (packed t h) = false -> Z_ISUNDEF v = false ->
  let t' := set_packed h v t in
  packed_ok t' /\ elems t' = dict_set (KInt h) v (elems t) /\ packed t' h = v.
Proof.
  intros Hp Hh Hlive Hv t'. pose proof (pk_used _ Hp). pose proof (pk_data _ Hp) as Hda.
  assert (packed t' h = v) as Hnew by (apply packed_set_eq; lia).
  assert (elems t' = dict_set (KInt h) v (elems t)) as He.
  { pose proof (packed_dict_ok t Hp) as Hok. rewrite (packed_split t h) in * by done.
    rewrite dict_set_mid by done. unfold elems. change (fl_PACKED t') with (fl_PACKED t).
    rewrite (pk_packed _ Hp). change (nNumUsed t') with (nNumUsed t).
    replace (Z.to_nat (nNumUsed t)) with (Z.to_nat h + S (Z.to_nat (nNumUsed t - h - 1)))%nat by lia.
    rewrite packed_elems_app, packed_elems_cons. replace (0 + Z.of_nat (Z.to_nat h)) with h by lia.
    unfold packed_elem. rewrite Hnew, Hv. cbn [option_list app].
    rewrite (packed_elems_ext t t' 0), (packed_elems_ext t t' (h + 1)); [done| |];
      intros k Hk; unfold t'; rewrite packed_set_ne by lia; done. }
  split; [|done]. split; try apply Hp.
  - simpl. rewrite llen_lset. done.
  - change (nNumOfElements t') with (nNumOfElements t). rewrite (pk_count _ Hp), He.
    assert (KInt h ∈ (elems t).*1) as Hin.
    { rewrite (packed_split t h) by done. rewrite fmap_app. csimpl. set_solver. }
    pose proof (dict_set_keys_present (KInt h) v _ Hin) as Hk. unfold llen. f_equal.
    rewrite <- (length_fmap fst (elems t)), <- Hk. by rewrite length_fmap.
Qed.

Lemma llen_fresh_zvals n : 0 <= n -> llen (fresh_zvals (V:=V) n) = n.
Proof.
  intros. unfold fresh_zvals. pose proof (llen_fresh_buckets n ltac:(lia)) as Hl.
  unfold llen in *. by rewrite length_fmap.
Qed.

Lemma packed_grow_ok t : packed_ok t -> nTableSize t < HT_MAX_SIZE ->
  exists t', zend_hash_packed_grow t = Some t' /\ packed_ok t' /\ elems t' = elems t /\
    nTableSize t' = nTableSize t * 2 /\ nNumUsed t' = nNumUsed t /\ nNextFreeElement t' = nNextFreeElement t.
Proof.
  intros Hp Hmax. unfold zend_hash_packed_grow. rewrite (proj2 (Z.leb_gt _ _)) by done.
  eexists. split; [done|].
  match goal with |- packed_ok ?x /\ _ => set (t' := x) end.
  pose proof (size_ok_bounds _ (pk_size _ Hp)) as Hb. pose proof (pk_used _ Hp) as Hu.
  pose proof (pk_data _ Hp) as Hda. unfold llen in Hda.
  assert (forall k, 0 <= k < nNumUsed t -> packed t' k = packed t k) as Hk.
  { intros k Hk. unfold packed. simpl. apply lget_kept; lia. }
  assert (elems t' = elems t) as He.
  { rewrite (elems_packed t Hp). unfold elems. change (fl_PACKED t') with (fl_PACKED t).
    rewrite (pk_packed _ Hp). apply packed_elems_ext. intros k Hkr. apply Hk. simpl in Hkr. lia. }
  split; [|done]. split; try apply Hp.
  - simpl. replace (nTableSize t * 2) with (nTableSize t + nTableSize t) by lia.
    apply size_ok_double; [apply Hp|done].
  - simpl. rewrite llen_take_drop; [apply llen_fresh_zvals; lia|].
    pose proof (llen_fresh_zvals (nTableSize t * 2) ltac:(lia)) as Hl. unfold llen in Hl.
    rewrite length_take. lia.
  - simpl. lia.
  - rewrite He. apply Hp.
Qed.

Lemma init_packed_ok t : uninit_ok t ->
  let t' := zend_hash_real_init_packed_ex t in
  packed_ok t' /\ elems t' = [] /\ nNumUsed t' = 0 /\ nTableSize t' = nTableSize t /\
  nNextFreeElement t' = nNextFreeElement t.
Proof.
  intros Hu t'. pose proof (size_ok_bounds _ (un_size _ Hu)) as Hb.
  assert (elems t' = []) as He.
  { unfold elems. simpl. rewrite (un_used _ Hu). done. }
  split; [|split; [done|split; [apply Hu|done]]]. split; try done; try apply Hu.
  - simpl. rewrite (un_mask _ Hu). done.
  - simpl. apply llen_fresh_zvals. lia.
  - simpl. rewrite (un_used _ Hu). lia.
  - rewrite He. apply Hu.
Qed.

(** * Insertion of a new integer key *)

(** The key an append ([HASH_ADD_NEXT]) really uses. *)
Definition effective_key (flag h : Z) : Z :=
  if has_flag flag HASH_ADD_NEXT && (h =? u64 ZEND_LONG_MIN) then 0 else h.

Definition index_inserted (t : HashTable V) w (h : Z) v (r : option (state V * option zptr)) : Prop :=
  exists t' w' p, r = Some ((t', w'), Some p) /\ wf t' /\ elems t' = elems t ++ [(KInt h, v)] /\
    zload (t', w') p = v /\ same_outside w w'.

Lemma index_hash_insert h pData flag t w t1 w1 :
  next_free_ok t -> ready t w t1 w1 -> 0 <= h < 2 ^ 64 -> KInt h ∉ (elems t).*1 ->
  Z_ISUNDEF (stored_value flag pData) = false ->
  index_inserted t w h (stored_value flag pData) (Some (add_index_to_hash h pData flag (t1, w1))).
Proof.
  intros Hnf (Hm & He & Hn & Hdt & Hr & Ho) Hh Hnew Hv.
  destruct (add_index_to_hash_ok h pData flag t1 w1 Hm Hr Hh) as (t' & Heq & Hok & He' & Hn' & Hb);
    [by rewrite He|done|].
  exists t', w1, (PBucket (nNumUsed t1)). split; [by rewrite Heq|]. rewrite He in He'.
  split; [split; [by right; right|]|done].
  apply (bumped_next_ok h t t'); [done|done| |].
  - rewrite Hn'. unfold bumped_next. by rewrite Hn.
  - intros k. rewrite He', fmap_app. csimpl. intros [?|[= ->]%list_elem_of_singleton]%elem_of_app; auto.
Qed.

Lemma index_packed_insert h pData flag t w t1 :
  packed_ok t1 -> elems t1 = elems t -> nNumUsed t1 <= h < nTableSize t1 -> 
  (flag_new_next flag = true -> h = nNumUsed t1) -> Z_ISUNDEF (stored_value flag pData) = false ->
  index_inserted t w h (stored_value flag pData) (Some (add_to_packed h pData flag (t1, w))).
Proof.
  intros Hp He Hh Hnn Hv. pose proof (pk_used _ Hp) as Hu.
  pose proof (size_ok_bounds _ (pk_size _ Hp)) as Hb. unfold HT_MAX_SIZE in Hb.
  destruct (add_to_packed_ok h pData flag t1 w Hp Hh Hnn Hv) as (t' & Heq & Hok & He' & Hn' & Hb').
  exists t', w, (PPacked h). split; [by rewrite Heq|]. rewrite He in He'.
  split; [|done]. split; [by right; left|]. split; [rewrite Hn'; unfold ZEND_LONG_MIN, ZEND_LONG_MAX; lia|].
  intros k Hk. left. rewrite Hn'. rewrite He', <- He, (elems_packed t1 Hp), fmap_app in Hk.
  apply elem_of_app in Hk as [Hk%packed_elems_keys|Hk].
  - rewrite s64_small; unfold ZEND_LONG_MIN, ZEND_LONG_MAX; lia.
  - csimpl in Hk. apply list_elem_of_singleton in Hk. injection Hk as ->.
    rewrite s64_small; unfold ZEND_LONG_MIN, ZEND_LONG_MAX; lia.
Qed.

(** Appending with both NEW and NEXT leaves the gap before the new position
    unwritten, so it needs the position to be the end of the packed area. *)
Definition no_gap (flag h : Z) t : Prop :=
  flag_new_next flag = true -> fl_PACKED t || fl_UNINITIALIZED t = true -> h = nNumUsed t.

Lemma packed_absent_hole t h : packed_ok t -> KInt h ∉ (elems t).*1 -> 0 <= h < nNumUsed t ->
  Z_ISUNDEF (packed t h) = true /\ nNumOfElements t < nNumUsed t.
Proof.
  intros Hp Hnew Hh. assert (Z_ISUNDEF (packed t h) = true) as Hun.
  { destruct (Z_ISUNDEF (packed t h)) eqn:Hun; [done|]. exfalso. apply Hnew.
    rewrite (packed_split t h) by done. rewrite fmap_app. csimpl. set_solver. }
  split; [done|]. rewrite (pk_count _ Hp), elems_packed by done.
  replace (Z.to_nat (nNumUsed t)) with (Z.to_nat h + S (Z.to_nat (nNumUsed t - h - 1)))%nat by lia.
  rewrite packed_elems_app, packed_elems_cons. replace (0 + Z.of_nat (Z.to_nat h)) with h by lia.
  unfold packed_elem. rewrite Hun. cbn [option_list app]. unfold llen. rewrite length_app.
  pose proof (packed_elems_length t 0 (Z.to_nat h)).
  pose proof (packed_elems_length t (h + 1) (Z.to_nat (nNumUsed t - h - 1))). unfold option_list, option_rect in *. cbn [app] in *. lia.
Qed.

Lemma packed_double_data t : packed_ok t -> nTableSize t < HT_MAX_SIZE ->
  packed_data (set_nTableSize (u32 (nTableSize t + nTableSize t)) t) /\
  u32 (nTableSize t + nTableSize t) = nTableSize t + nTableSize t.
Proof.
  intros Hp Hmax. pose proof (size_ok_bounds _ (pk_size _ Hp)) as Hb. unfold HT_MAX_SIZE in *.
  assert (u32 (nTableSize t + nTableSize t) = nTableSize t + nTableSize t) as Hu by (apply u32_small; lia).
  split; [|done]. rewrite Hu. destruct Hp. split; try done; cbn; [by apply size_ok_double|lia].
Qed.

(** A packed table that cannot take the key in place is converted. *)
Lemma index_convert h pData flag t w t1 :
  next_free_ok t -> packed_data t1 -> elems t1 = elems t -> nNextFreeElement t1 = nNextFreeElement t ->
  pDestructor t1 = pDestructor t -> nNumOfElements t1 < nTableSize t1 ->
  0 <= h < 2 ^ 64 -> KInt h ∉ (elems t).*1 -> Z_ISUNDEF (stored_value flag pData) = false ->
  index_inserted t w h (stored_value flag pData)
    (Some (add_index_to_hash h pData flag (zend_hash_packed_to_hash (t1, w)))).
Proof.
  intros Hnf Hp He Hn Hdt Hroom Hh Hnew Hv.
  destruct (conv_ready t1 w Hp Hroom) as (t2 & w2 & Heq & Hrd).
  destruct (zend_hash_packed_to_hash (t1, w)) as [t2' w2']. injection Heq as -> ->.
  apply index_hash_insert; try done.
  destruct Hrd as (Hm & He2 & Hn2 & Hd2 & Hr & Ho).
  split; [done|]. do 3 (split; [congruence|]). done.
Qed.

Lemma index_new_packed k pData flag t w :
  packed_ok t -> next_free_ok t -> nTableSize t < HT_MAX_SIZE -> 0 <= k < 2 ^ 64 ->
  nNumUsed t <= k -> (flag_new_next flag = true -> k = nNumUsed t) -> KInt k ∉ (elems t).*1 ->
  Z_ISUNDEF (stored_value flag pData) = false ->
  index_inserted t w k (stored_value flag pData)
    (if k <? nTableSize t then Some (add_to_packed k pData flag (t, w))
     else if (Z.shiftr k 1 <? nTableSize t) && (Z.shiftr (nTableSize t) 1 <? nNumOfElements t)
     then t' ← zend_hash_packed_grow t; Some (add_to_packed k pData flag (t', w))
     else Some (add_index_to_hash k pData flag (zend_hash_packed_to_hash
       (if nTableSize t <=? nNumUsed t
        then set_nTableSize (u32 (nTableSize t + nTableSize t)) t else t, w)))).
Proof.
  intros Hp Hnf Hmax Hk Hge Hnn Hnew Hv.
  pose proof (size_ok_bounds _ (pk_size _ Hp)) as Hb. pose proof (pk_used _ Hp) as Hu.
  pose proof (packed_count_le _ (packed_ok_data _ Hp)) as Hc.
  destruct (Z.ltb_spec k (nTableSize t)); [by apply index_packed_insert|].
  destruct (Z.ltb_spec (Z.shiftr k 1) (nTableSize t)) as [Hsm|]; cbn [andb].
  - destruct (Z.ltb_spec (Z.shiftr (nTableSize t) 1) (nNumOfElements t)).
    + destruct (packed_grow_ok t Hp Hmax) as (t' & Hg & Hp' & He' & Hs' & Hu' & Hn'). rewrite Hg.
      cbn [mbind option_bind]. apply index_packed_insert; try done; [|intros Hfl; rewrite Hu'; auto].
      rewrite Hs', Hu'. rewrite Z.shiftr_div_pow2 in Hsm by lia. change (2 ^ 1) with 2 in Hsm. zlia.
    + destruct (Z.leb_spec (nTableSize t) (nNumUsed t)); [|by apply index_convert; try apply packed_ok_data; try lia].
      destruct (packed_double_data t Hp Hmax) as [Hpd Hu2]. apply index_convert; try done. cbn. lia.
  - destruct (Z.leb_spec (nTableSize t) (nNumUsed t)); [|by apply index_convert; try apply packed_ok_data; try lia].
    destruct (packed_double_data t Hp Hmax) as [Hpd Hu2]. apply index_convert; try done. cbn. lia.
Qed.

Lemma index_new_key h pData flag t w :
  wf t -> nTableSize t < HT_MAX_SIZE -> 0 <= h < 2 ^ 64 ->
  let k := effective_key flag h in
  KInt k ∉ (elems t).*1 -> no_gap flag k t -> Z_ISUNDEF (stored_value flag pData) = false ->
  index_inserted t w k (stored_value flag pData) (zend_hash_index_add_or_update_i h pData flag (t, w)).
Proof.
  intros [Hr Hnf] Hmax Hh k Hnew Hgap Hv.
  assert (0 <= k < 2 ^ 64) as Hk by (unfold k, effective_key; destruct (_ && _); lia).
  unfold zend_hash_index_add_or_update_i. fold (effective_key flag h). fold k. cbv zeta.
  unfold no_gap in Hgap. destruct Hr as [Hu|[Hp|Hm]].
  - rewrite (un_packed _ Hu), (un_init _ Hu) in *.
    destruct (init_packed_ok t Hu) as (Hpk & He & Hu0 & Hs & Hn).
    destruct (Z.ltb_spec k (nTableSize t)).
    + apply index_packed_insert; [done|by rewrite He, elems_uninit|rewrite Hu0, Hs; lia| |done].
      intros Hfl. rewrite Hu0, <- (un_used _ Hu). by apply Hgap.
    + by apply index_hash_insert; [|apply init_mixed_ready| | |].
  - rewrite (pk_packed _ Hp) in *. cbn [orb] in Hgap.
    destruct (flag_new_next flag) eqn:Hfl; cbn [negb andb].
    { specialize (Hgap eq_refl eq_refl). apply index_new_packed; try done. lia. }
    destruct (Z.ltb_spec k (nNumUsed t)) as [Hlt|Hge]; [|by apply index_new_packed; try done; rewrite Hfl].
    destruct (packed_absent_hole t k Hp Hnew) as [Hun Hcnt]; [lia|].
    pose proof (pk_used _ Hp) as Hu. rewrite Hun. cbn [negb].
    destruct (has_flag flag HASH_ADD_NEW); apply index_convert; try done; try lia; by apply packed_ok_data.
  - rewrite (do_packed _ (mx_data _ Hm)), (do_init _ (mx_data _ Hm)).
    pose proof (do_used _ (mx_data _ Hm)) as Hu.
    destruct (resize_ready t w Hm ltac:(lia)) as (t1 & w1 & Heq & Hrd). rewrite Heq.
    destruct (negb (has_flag flag HASH_ADD_NEW)); [|by apply index_hash_insert].
    pose proof (find_bucket_repr t (match_index k) (KInt k) (or_intror (or_intror Hm))
      (do_packed _ (mx_data _ Hm)) (fun b _ => match_index_spec k b)) as Hf.
    unfold zend_hash_index_find_bucket. cbn [key_hash] in Hf. destruct (chain_find _ _ _ _) as [i|].
    + destruct Hf as [_ Hh']. exfalso. apply Hnew.
      destruct (decide (KInt k ∈ (elems t).*1)) as [|Hn%dict_lookup_None]; [done|].
      by rewrite (holds_lookup t i _ (mx_data _ Hm) Hh') in Hn.
    + by apply index_hash_insert.
Qed.

(** ** A key that is present *)

(** The flags NEW|NEXT include NEW. *)
Lemma flag_new_next_new flag : has_flag flag HASH_ADD_NEW = false -> flag_new_next flag = false.
Proof.
  unfold flag_new_next, has_flag. intros Hnew. apply Z.eqb_neq. apply negb_false_iff, Z.eqb_eq in Hnew.
  intros Heq. rewrite Z.land_lor_distr_r in Heq. unfold HASH_ADD_NEW, HASH_ADD_NEXT in *.
  rewrite Hnew in Heq. apply (f_equal (fun z => Z.testbit z 3)) in Heq.
  rewrite Z.lor_0_l, Z.land_spec in Heq. change (Z.testbit (Z.lor 8 16) 3) with true in Heq.
  change (Z.testbit 16 3) with false in Heq. by rewrite andb_false_r in Heq.
Qed.

(** What holds of the position of a present integer key. *)
Definition present_at (k : Z) t (p : zptr) : Prop :=
  (forall w, dict_lookup (KInt k) (elems t) = Some (zload (t, w) p)) /\
  (match p with PSlot _ => False | _ => True end) /\
  (forall v w, Z_ISUNDEF v = false -> exists t', zstore p v (t, w) = (t', w) /\ repr_ok t' /\
       elems t' = dict_set (KInt k) v (elems t) /\ nNextFreeElement t' = nNextFreeElement t /\
       pDestructor t' = pDestructor t /\ (forall w', zload (t', w') p = v)).

Lemma present_at_packed k t : packed_ok t -> 0 <= k < nNumUsed t -> Z_ISUNDEF (packed t k) = false ->
  present_at k t (PPacked k).
Proof.
  intros Hp Hk Hun. split; [|split; [done|]].
  - intros w. rewrite packed_lookup by (done || lia). destruct (Z.ltb_spec k (nNumUsed t)); [|lia]. by rewrite Hun.
  - intros v w Hv. destruct (packed_overwrite_ok t k v Hp Hk Hun Hv) as (Hok & He & Hpk).
    exists (set_packed k v t). split; [done|]. split; [by right; left|]. done.
Qed.

Lemma present_at_mixed k t i : mixed_ok t -> holds t i (KInt k) -> present_at k t (PBucket i).
Proof.
  intros Hm Hh. split; [|split; [done|]]; [intros w; by apply holds_lookup; [apply Hm|]|].
  intros v w Hv. destruct (overwrite_ok t i _ v Hm Hh Hv) as (Hok & He & Hkp).
  exists (upd_bucket i (set_b_val v) t). split; [reflexivity|]. split; [by right; right|]. split; [done|].
  split; [apply Hkp|]. split; [apply Hkp|].
  intros w'. unfold zload. cbn [fst]. rewrite bucket_upd_eq; [done|]. rewrite (do_data _ (mx_data _ Hm)).
  pose proof (do_used _ (mx_data _ Hm)). destruct Hh. lia.
Qed.

Lemma index_present k pData flag t w :
  repr_ok t -> 0 <= k -> effective_key flag k = k -> has_flag flag HASH_ADD_NEW = false ->
  KInt k ∈ (elems t).*1 ->
  exists p, present_at k t p /\
    zend_hash_index_add_or_update_i k pData flag (t, w) =
      Some (if has_flag flag HASH_LOOKUP then ((t, w), Some p) else replace_at p pData flag (t, w)).
Proof.
  intros Hr Hk Hek Hnew Hin.
  assert (~ uninit_ok t) as Hnu by (intros Hu; rewrite elems_uninit in Hin by done; set_solver).
  unfold zend_hash_index_add_or_update_i. fold (effective_key flag k).
  rewrite Hek. cbv zeta. destruct Hr as [Hu|[Hp|Hm]].
  - by destruct Hnu.
  - rewrite (pk_packed _ Hp).
    pose proof (packed_lookup t k Hp Hk) as Hl.
    destruct (dict_lookup (KInt k) (elems t)) as [v0|] eqn:Hlk; [|by apply dict_lookup_None in Hlk].
    destruct (Z.ltb_spec k (nNumUsed t)) as [Hlt|]; [|done].
    destruct (Z_ISUNDEF (packed t k)) eqn:Hun; [done|].
    exists (PPacked k). split; [by apply present_at_packed|].
    rewrite (flag_new_next_new _ Hnew), Hnew. cbn [negb andb]. by destruct (has_flag flag HASH_LOOKUP).
  - rewrite (do_packed _ (mx_data _ Hm)), (do_init _ (mx_data _ Hm)), Hnew. cbn [negb].
    pose proof (find_bucket_repr t (match_index k) (KInt k) (or_intror (or_intror Hm))
      (do_packed _ (mx_data _ Hm)) (fun b _ => match_index_spec k b)) as Hf.
    unfold zend_hash_index_find_bucket. cbn [key_hash] in Hf. destruct (chain_find _ _ _ _) as [i|]; [|done].
    destruct Hf as [_ Hh]. exists (PBucket i).
    split; [by apply present_at_mixed|]. by destruct (has_flag flag HASH_LOOKUP).
Qed.

(** ** The operations *)

Lemma next_free_int t t' k v : next_free_ok t -> nNextFreeElement t' = nNextFreeElement t ->
  KInt k ∈ (elems t).*1 -> elems t' = dict_set (KInt k) v (elems t) -> next_free_ok t'.
Proof.
  intros [Hr Hb] Hn Hk He. split; [by rewrite Hn|]. rewrite Hn. intros h. rewrite He.
  rewrite dict_set_keys_present by done. apply Hb.
Qed.

Lemma effective_key_plain flag h : has_flag flag HASH_ADD_NEXT = false -> effective_key flag h = h.
Proof. intros H. unfold effective_key. by rewrite H. Qed.

Lemma no_gap_plain flag h t : has_flag flag HASH_ADD_NEW = false -> no_gap flag h t.
Proof. intros H. unfold no_gap. by rewrite (flag_new_next_new _ H). Qed.

(** Events of an update with an integer key: the destructor of the overwritten value. *)
Definition index_update_events t (h : Z) : list (event V) :=
  match dict_lookup (KInt h) (elems t) with
  | Some old => if pDestructor t then [EvDtor old] else []
  | None => []
  end.

Lemma index_update_ok h pData t w :
  wf t -> nTableSize t < HT_MAX_SIZE -> 0 <= h < 2 ^ 64 -> Z_ISUNDEF pData = false ->
  updated t w (KInt h) pData (index_update_events t h) (zend_hash_index_update h pData (t, w)).
Proof.
  intros Hwf Hmax Hh Hv. unfold zend_hash_index_update, index_update_events.
  destruct (dict_lookup (KInt h) (elems t)) as [old|] eqn:Hlk.
  - destruct (decide (KInt h ∈ (elems t).*1)) as [Hin|Hn%dict_lookup_None]; [|congruence].
    destruct (index_present h pData HASH_UPDATE t w (proj1 Hwf) (proj1 Hh) eq_refl eq_refl Hin)
      as (p & (Hl & _ & Hst) & ->).
    rewrite (Hl w) in Hlk. apply (inj Some) in Hlk as <-.
    change (has_flag HASH_UPDATE HASH_LOOKUP) with false. unfold replace_at.
    change (has_flag HASH_UPDATE HASH_ADD) with false. cbn [fst snd].
    destruct (Hst pData (run_dtor t (zload (t, w) p) w) Hv) as (t' & -> & Hok & He & Hn & _ & Hz).
    exists t', (run_dtor t (zload (t, w) p) w), p. split; [done|].
    split; [split; [done|by eapply next_free_int; try apply Hwf]|]. do 2 (split; [done|]).
    unfold run_dtor. destruct (pDestructor t); cbn; rewrite ?app_nil_r; done.
  - apply dict_lookup_None in Hlk.
    destruct (index_new_key h pData HASH_UPDATE t w Hwf Hmax Hh Hlk
      (no_gap_plain HASH_UPDATE _ _ eq_refl) Hv)
      as (t' & w' & p & -> & Hok & He & Hl & Ho).
    exists t', w', p. split; [done|]. split; [done|].
    rewrite (dict_set_absent _ _ _ Hlk), app_nil_r. by destruct Ho.
Qed.

(** C2: [zend_hash_index_update] implements the dictionary update for integer
    keys in every state of the table: uninitialised, packed (in place, in a
    grown vector, or after the conversion to a hash) and hashed.  The old
    value is destroyed exactly when it is overwritten. *)
Theorem zend_hash_index_update_correct h pData t w :
  wf t -> nTableSize t < HT_MAX_SIZE -> 0 <= h < 2 ^ 64 -> Z_ISUNDEF pData = false ->
  updated t w (KInt h) pData (index_update_events t h) (zend_hash_index_update h pData (t, w)).
Proof. apply index_update_ok. Qed.

Lemma index_add_ok h pData t w :
  wf t -> nTableSize t < HT_MAX_SIZE -> 0 <= h < 2 ^ 64 -> Z_ISUNDEF pData = false ->
  added t w (KInt h) pData [] (zend_hash_index_add h pData (t, w)).
Proof.
  intros Hwf Hmax Hh Hv. unfold zend_hash_index_add, added.
  destruct (dict_lookup (KInt h) (elems t)) as [old|] eqn:Hlk.
  - destruct (decide (KInt h ∈ (elems t).*1)) as [Hin|Hn%dict_lookup_None]; [|congruence].
    destruct (index_present h pData HASH_ADD t w (proj1 Hwf) (proj1 Hh) eq_refl eq_refl Hin)
      as (p & _ & ->). reflexivity.
  - apply dict_lookup_None in Hlk.
    destruct (index_new_key h pData HASH_ADD t w Hwf Hmax Hh Hlk (no_gap_plain HASH_ADD _ _ eq_refl) Hv)
      as (t' & w' & p & -> & Hok & He & Hl & Ho).
    exists t', w', p. rewrite app_nil_r. by destruct Ho.
Qed.

(** [zend_hash_index_add] appends a new integer key, and returns NULL
    leaving table and world untouched when the key is present. *)
Theorem zend_hash_index_add_correct h pData t w :
  wf t -> nTableSize t < HT_MAX_SIZE -> 0 <= h < 2 ^ 64 -> Z_ISUNDEF pData = false ->
  added t w (KInt h) pData [] (zend_hash_index_add h pData (t, w)).
Proof. apply index_add_ok. Qed.

(** The key that [$array[] = v] uses. *)
Definition next_key t : Z :=
  if nNextFreeElement t =? ZEND_LONG_MIN then 0 else u64 (nNextFreeElement t).

Lemma next_key_effective t flag : has_flag flag HASH_ADD_NEXT = true -> next_free_ok t ->
  effective_key flag (u64 (nNextFreeElement t)) = next_key t.
Proof.
  intros Hf [Hr _]. unfold effective_key, next_key. rewrite Hf. cbn [andb].
  replace (u64 (nNextFreeElement t) =? u64 ZEND_LONG_MIN) with (nNextFreeElement t =? ZEND_LONG_MIN); [done|].
  apply Bool.eq_iff_eq_true. rewrite !Z.eqb_eq. split; [by intros ->|].
  unfold u64, ZEND_LONG_MIN, ZEND_LONG_MAX in *. zlia.
Qed.

Lemma next_key_present t : next_free_ok t -> KInt (next_key t) ∈ (elems t).*1 ->
  nNextFreeElement t = ZEND_LONG_MAX.
Proof.
  intros [Hr Hb] Hin. destruct (Hb _ Hin) as [Hlt|]; [|done]. exfalso. revert Hlt.
  unfold next_key. destruct (Z.eqb_spec (nNextFreeElement t) ZEND_LONG_MIN) as [->|Hne].
  - change (s64 0) with 0. unfold ZEND_LONG_MIN. lia.
  - rewrite s64_u64, s64_small by done. lia.
Qed.

Lemma next_key_idem t flag : next_free_ok t -> effective_key flag (next_key t) = next_key t.
Proof.
  intros [Hr _]. unfold effective_key, next_key. destruct (has_flag _ _); [|done]. cbn [andb].
  destruct (Z.eqb_spec (nNextFreeElement t) ZEND_LONG_MIN); [done|].
  destruct (Z.eqb_spec (u64 (nNextFreeElement t)) (u64 ZEND_LONG_MIN)); [|done].
  unfold u64, ZEND_LONG_MIN, ZEND_LONG_MAX in *. zlia.
Qed.

(** C13: [zend_hash_next_index_insert] appends the element under the next free
    index (0 in a table that never held an integer key), for every state of
    the table; it fails, changing nothing, exactly when the key
    ZEND_LONG_MAX is taken. *)
Theorem zend_hash_next_index_insert_correct pData t w :
  wf t -> nTableSize t < HT_MAX_SIZE -> Z_ISUNDEF pData = false ->
  (KInt ZEND_LONG_MAX ∈ (elems t).*1 /\ nNextFreeElement t = ZEND_LONG_MAX /\
     zend_hash_next_index_insert pData (t, w) = Some ((t, w), None)) \/
  (KInt (next_key t) ∉ (elems t).*1 /\
   exists t' w' p, zend_hash_next_index_insert pData (t, w) = Some ((t', w'), Some p) /\
     wf t' /\ elems t' = elems t ++ [(KInt (next_key t), pData)] /\ zload (t', w') p = pData /\
     slots w' = slots w /\ trace w' = trace w).
Proof.
  intros Hwf Hmax Hv. unfold zend_hash_next_index_insert. cbn [fst].
  set (fl := Z.lor HASH_ADD HASH_ADD_NEXT).
  pose proof (next_key_effective t fl eq_refl (proj2 Hwf)) as Hek.
  assert (0 <= u64 (nNextFreeElement t) < 2 ^ 64) as Hu by (unfold u64; zlia).
  destruct (decide (KInt (next_key t) ∈ (elems t).*1)) as [Hin|Hn].
  - left. pose proof (next_key_present t (proj2 Hwf) Hin) as Hmx.
    assert (next_key t = ZEND_LONG_MAX) as Hkm by (unfold next_key; rewrite Hmx; reflexivity).
    split; [by rewrite <- Hkm|]. split; [done|].
    assert (u64 (nNextFreeElement t) = next_key t) as -> by (rewrite Hkm, Hmx; reflexivity).
    destruct (index_present (next_key t) pData fl t w (proj1 Hwf)) as (p & _ & ->);
      [by rewrite Hkm|by apply next_key_idem, Hwf|done|done|]. reflexivity.
  - right. split; [done|].
    destruct (index_new_key (u64 (nNextFreeElement t)) pData fl t w Hwf Hmax Hu)
      as (t' & w' & p & -> & Hok & He & Hl & Ho); [by rewrite Hek|by apply no_gap_plain|done|].
    rewrite Hek in He. exists t', w', p. by destruct Ho.
Qed.

End Index.
