(* ===== verification/HashDel.v ===== *)
(** Deletion: unlinking a bucket from its collision chain, trimming the fill
    mark, clamping the positions beyond it; deletion by string, by integer
    key (packed or hashed) and by bucket refine deletion in the dictionary. *)

From stdpp Require Import base numbers list gmap.
From S2P Require Import Prelude ZendTypes HashTable HashDict HashChain HashInv HashRehash HashFind.
From S2P Require Import HashAdd HashIndex.

Section Del.
Context {V : Type} {E : ZEnv V}.
Implicit Types (t : HashTable V) (w : EG V) (b : Bucket V) (v : zval V).

(** * Chains with one bucket less *)

Lemma filter_ne_mid (l1 l2 : list Z) i : NoDup (l1 ++ i :: l2) ->
  filter (fun j => j <> i) (l1 ++ i :: l2) = l1 ++ l2.
Proof.
  intros Hnd. apply NoDup_app in Hnd as (_ & Hn & Hd). apply NoDup_cons in Hd as [Hi _].
  assert (forall l : list Z, i ∉ l -> filter (fun j => j <> i) l = l) as Hf.
  { induction l as [|j l IH]; intros Hl; [done|].
    apply not_elem_of_cons in Hl as [Hj Hl]. rewrite filter_cons_True by done. by rewrite IH. }
  rewrite filter_app, filter_cons_False by auto. rewrite !Hf; [done|done|].
  intros Hin. apply (Hn i Hin). by left.
Qed.

(** Bypassing bucket [i]: its predecessor, or the head, takes over its successor. *)
Lemma chain_remove t t' i l2 : forall l1 idx,
  chain_list t idx (l1 ++ i :: l2) -> NoDup (l1 ++ i :: l2) ->
  (forall j, j ∈ l1 ++ l2 -> last l1 <> Some j -> b_next (bucket t' j) = b_next (bucket t j)) ->
  (forall p, last l1 = Some p -> b_next (bucket t' p) = b_next (bucket t i)) ->
  chain_list t' (match l1 with [] => b_next (bucket t i) | _ => idx end) (l1 ++ l2).
Proof.
  induction l1 as [|j l1 IH]; intros idx Hc Hnd Hs Hp.
  - destruct Hc as [-> Hc]. apply (chain_list_ext t); [|done]. intros j Hj. by apply Hs.
  - destruct Hc as [-> Hc]. split; [done|]. cbn [app] in Hnd. apply NoDup_cons in Hnd as [Hj Hnd].
    destruct l1 as [|q l1].
    + rewrite (Hp j) by done. apply (IH (b_next (bucket t j))); [done|done| |done].
      intros k Hk _. apply Hs; [by right|]. intros [= ->]. apply Hj. by right.
    + rewrite Hs; [|by left|].
      * apply (IH (b_next (bucket t j))); [done|done| |].
        -- intros k Hk Hl. apply Hs; [by right|]. by rewrite last_cons_cons.
        -- intros p Hl. apply Hp. by rewrite last_cons_cons.
      * rewrite last_cons_cons. intros Hl. apply last_Some in Hl as [l' Hl]. rewrite Hl in Hj.
        set_solver.
Qed.

(** * A table with one bucket removed *)

Record removed (t t' : HashTable V) (i : Z) (prev : option Z) : Prop := {
  rm_mask : nTableMask t' = nTableMask t;
  rm_size : nTableSize t' = nTableSize t;
  rm_packed : fl_PACKED t' = fl_PACKED t;
  rm_init : fl_UNINITIALIZED t' = fl_UNINITIALIZED t;
  rm_next_free : nNextFreeElement t' = nNextFreeElement t;
  rm_dtor : pDestructor t' = pDestructor t;
  rm_count : nNumOfElements t' = u32 (nNumOfElements t - 1);
  rm_used : 0 <= nNumUsed t' <= nNumUsed t;
  rm_dead : forall j, nNumUsed t' <= j < nNumUsed t -> j <> i -> live t j = false;
  rm_data : llen (arData t') = llen (arData t);
  rm_undef : live t' i = false;
  rm_old : forall j, 0 <= j -> j <> i -> content (bucket t' j) = content (bucket t j);
  rm_next : forall j, 0 <= j -> j <> i -> prev <> Some j -> b_next (bucket t' j) = b_next (bucket t j);
  rm_prev : match prev with
            | Some p => b_next (bucket t' p) = b_next (bucket t i) /\ arHash t' = arHash t
            | None => arHash t' = arHash (set_HT_HASH (cell t i) (b_next (bucket t i)) t)
            end
}.

Lemma removed_entries t t' i prev : 0 <= i < nNumUsed t -> live t i = true -> removed t t' i prev ->
  mixed_entries t = entries t 0 (Z.to_nat i) ++ content (bucket t i) ::
    entries t (i + 1) (Z.to_nat (nNumUsed t - i - 1)) /\
  mixed_entries t' = entries t 0 (Z.to_nat i) ++ entries t (i + 1) (Z.to_nat (nNumUsed t - i - 1)).
Proof.
  intros Hi Hl Hrm. split; [by apply entries_split|].
  pose proof (rm_used _ _ _ _ Hrm) as Hu. unfold mixed_entries.
  assert (forall j, nNumUsed t' <= j < nNumUsed t -> live t' j = false) as Hdead.
  { intros j Hj. destruct (decide (j = i)) as [->|Hne]; [by apply (rm_undef _ _ _ _ Hrm)|].
    rewrite (content_live t t'); [by apply (rm_dead _ _ _ _ Hrm)|]. apply (rm_old _ _ _ _ Hrm); lia. }
  assert (entries t' 0 (Z.to_nat (nNumUsed t)) = entries t' 0 (Z.to_nat (nNumUsed t'))) as <-.
  { replace (Z.to_nat (nNumUsed t)) with (Z.to_nat (nNumUsed t') + Z.to_nat (nNumUsed t - nNumUsed t'))%nat by lia.
    rewrite entries_app. replace (entries t' _ (Z.to_nat (nNumUsed t - nNumUsed t'))) with (@nil (entry (V:=V)));
      [by rewrite app_nil_r|].
    symmetry. apply elem_of_nil_inv. intros e (k & Hk & Hlk & _)%elem_of_entries.
    rewrite Hdead in Hlk; [done|lia]. }
  replace (Z.to_nat (nNumUsed t)) with (Z.to_nat i + S (Z.to_nat (nNumUsed t - i - 1)))%nat by lia.
  rewrite entries_app, entries_cons. replace (0 + Z.of_nat (Z.to_nat i)) with i by lia.
  unfold live_entry. rewrite (rm_undef _ _ _ _ Hrm). cbn [option_list option_rect app].
  rewrite (entries_ext t t' 0), (entries_ext t t' (i + 1)); [done| |];
    intros k Hk; apply (rm_old _ _ _ _ Hrm); lia.
Qed.

Lemma removed_cell_list t t' i prev c : removed t t' i prev -> 0 <= i ->
  cell_list t' (Z.to_nat (nNumUsed t')) c =
  filter (fun j => j <> i) (cell_list t (Z.to_nat (nNumUsed t)) c).
Proof.
  intros Hrm Hi. pose proof (rm_used _ _ _ _ Hrm) as Hu.
  replace (Z.to_nat (nNumUsed t)) with (Z.to_nat (nNumUsed t') + Z.to_nat (nNumUsed t - nNumUsed t'))%nat by lia.
  assert (forall k, (k <= Z.to_nat (nNumUsed t - nNumUsed t'))%nat ->
    filter (fun j => j <> i) (cell_list t (Z.to_nat (nNumUsed t') + k) c) =
    filter (fun j => j <> i) (cell_list t (Z.to_nat (nNumUsed t')) c)) as Hcut.
  { induction k as [|k IH]; intros Hk; [by rewrite Nat.add_0_r|].
    rewrite Nat.add_succ_r, cell_list_S. destruct (decide (Z.of_nat (Z.to_nat (nNumUsed t') + k) = i)) as [He|Hne].
    - destruct (_ && _); [rewrite filter_cons_False by naive_solver|]; apply IH; lia.
    - rewrite (rm_dead _ _ _ _ Hrm) by (done || lia). cbn [andb]. apply IH. lia. }
  rewrite Hcut by done. unfold cell_list. rewrite list_filter_filter.
  assert (forall l : list Z, (forall j, j ∈ l -> 0 <= j) ->
    filter (fun j => live t' j = true /\ cell t' j = c) l =
    filter (fun j => j <> i /\ live t j = true /\ cell t j = c) l) as Hf.
  { induction l as [|j l IH]; intros Hl; [done|]. rewrite !filter_cons. rewrite IH by (intros; apply Hl; by right).
    destruct (decide (j = i)) as [->|Hne].
    - rewrite (rm_undef _ _ _ _ Hrm). rewrite !decide_False by naive_solver. done.
    - assert (0 <= j) as Hj by (apply Hl; by left).
      pose proof (rm_old _ _ _ _ Hrm j Hj Hne) as Hc. rewrite (content_live t t' j Hc).
      replace (cell t' j) with (cell t j).
      2:{ unfold cell. rewrite (rm_mask _ _ _ _ Hrm). unfold content in Hc. by injection Hc as _ <- _. }
      destruct (decide (live t j = true /\ cell t j = c)).
      + by rewrite decide_True.
      + rewrite decide_False by tauto. done. }
  rewrite Hf; [done|]. intros j. rewrite elem_of_reverse, elem_of_zrange. lia.
Qed.

(** Every chain without the bucket, when its predecessor or its cell takes over. *)
Lemma bypass_linked t t' i l1 l2 : mixed_ok t -> 0 <= i < nNumUsed t -> nTableMask t' = nTableMask t ->
  cell_list t (Z.to_nat (nNumUsed t)) (cell t i) = l1 ++ i :: l2 ->
  (forall j, 0 <= j -> j <> i -> last l1 <> Some j -> b_next (bucket t' j) = b_next (bucket t j)) ->
  match last l1 with
  | Some p => b_next (bucket t' p) = b_next (bucket t i) /\ arHash t' = arHash t
  | None => arHash t' = arHash (set_HT_HASH (cell t i) (b_next (bucket t i)) t)
  end ->
  forall c, nTableMask t <= c < 2 ^ 32 ->
  chain_list t' (HT_HASH t' c) (filter (fun j => j <> i) (cell_list t (Z.to_nat (nNumUsed t)) c)).
Proof.
  intros Hm Hi Hmask Hcl Hnext Hp c Hc.
  pose proof (mx_linked _ Hm c Hc) as Hch.
  pose proof (NoDup_cell_list t (Z.to_nat (nNumUsed t)) c) as Hnd.
  assert (forall j, j ∈ cell_list t (Z.to_nat (nNumUsed t)) c -> 0 <= j) as Hpos
    by (intros j (Hj & _)%elem_of_cell_list; lia).
  destruct (decide (c = cell t i)) as [->|Hne].
  - rewrite Hcl in *. rewrite filter_ne_mid by done.
    assert (chain_list t' (match l1 with [] => b_next (bucket t i) | _ => HT_HASH t (cell t i) end) (l1 ++ l2)) as Hch'.
    { apply (chain_remove t t' i); try done.
      - intros j Hj Hl. apply Hnext; [apply Hpos; set_solver| |done].
        intros ->. apply (NoDup_app l1 (i :: l2)) in Hnd as (_ & Hn & Hd).
        apply elem_of_app in Hj as [Hj|Hj]; [apply (Hn i Hj); by left|by apply NoDup_cons in Hd as [? _]].
      - intros p Hl. rewrite Hl in Hp. apply Hp. }
    replace (HT_HASH t' (cell t i)) with
      (match l1 with [] => b_next (bucket t i) | _ => HT_HASH t (cell t i) end); [done|].
    unfold HT_HASH at 2. rewrite Hmask.
    destruct l1 as [|j l1].
    + simpl in Hp. rewrite Hp. symmetry. apply (HT_HASH_set_eq t); [done|apply Hm].
    + destruct (last (j :: l1)) eqn:Hl; [|by apply last_None in Hl]. by destruct Hp as [_ ->].
  - rewrite filter_true by (intros j (_ & _ & Hj)%elem_of_cell_list ->; done).
    replace (HT_HASH t' c) with (HT_HASH t c).
    + apply (chain_list_ext t); [|done]. intros j Hj. apply Hnext; [by apply Hpos| |].
      * intros ->. apply elem_of_cell_list in Hj as (_ & _ & Hj). congruence.
      * intros Hl. apply last_Some in Hl as [l' ->].
        assert (j ∈ cell_list t (Z.to_nat (nNumUsed t)) (cell t i)) as Hj2 by (rewrite Hcl; set_solver).
        apply elem_of_cell_list in Hj as (_ & _ & <-). by apply elem_of_cell_list in Hj2 as (_ & _ & ?).
    + unfold HT_HASH at 2. rewrite Hmask.
      destruct (last l1); [by destruct Hp as [_ ->]|]. rewrite Hp. symmetry.
      pose proof (cell_range t i (data_ok_mask_range _ (mx_data _ Hm))).
      apply (HT_HASH_set_ne t); (done || lia).
Qed.

Lemma removed_linked t t' i prev l1 l2 : mixed_ok t -> 0 <= i < nNumUsed t -> removed t t' i prev ->
  cell_list t (Z.to_nat (nNumUsed t)) (cell t i) = l1 ++ i :: l2 -> prev = last l1 ->
  linked t' (Z.to_nat (nNumUsed t')).
Proof.
  intros Hm Hi Hrm Hcl -> c Hc. pose proof (rm_mask _ _ _ _ Hrm) as Hmask. rewrite Hmask in Hc.
  rewrite (removed_cell_list t t' i (last l1)) by (done || lia).
  apply (bypass_linked t t' i l1 l2); try done; [apply Hrm|apply (rm_prev _ _ _ _ Hrm)].
Qed.

Lemma removed_ok t t' i k prev l1 l2 : mixed_ok t -> holds t i k -> removed t t' i prev ->
  cell_list t (Z.to_nat (nNumUsed t)) (cell t i) = l1 ++ i :: l2 -> prev = last l1 ->
  mixed_ok t' /\ elems t' = dict_del k (elems t).
Proof.
  intros Hm (Hi & Hl & Hk) Hrm Hcl Hpr. pose proof (mx_data _ Hm) as Hd.
  destruct (removed_entries t t' i prev Hi Hl Hrm) as [He He'].
  pose proof (removed_linked t t' i prev l1 l2 Hm Hi Hrm Hcl Hpr) as Hlk.
  pose proof (do_used _ Hd). pose proof (size_ok_bounds _ (do_size _ Hd)) as Hsz. unfold HT_MAX_SIZE in Hsz.
  assert (mixed_ok t') as Hm'.
  { destruct Hrm. split; [destruct Hd; split; try congruence; try lia| |done].
    - rewrite rm_count0, do_count, He, He'. unfold llen. rewrite !length_app. cbn [length].
      pose proof (length_omap_le (live_entry t) (zrange 0 (Z.to_nat i))).
      pose proof (length_omap_le (live_entry t) (zrange (i + 1) (Z.to_nat (nNumUsed t - i - 1)))).
      fold (entries t 0 (Z.to_nat i)) in *. fold (entries t (i + 1) (Z.to_nat (nNumUsed t - i - 1))) in *.
      rewrite !length_zrange in *. rewrite u32_small; lia.
    - rewrite He'. rewrite He in do_entries. apply Forall_app in do_entries as [H1 H2].
      apply Forall_cons in H2 as [_ H2]. by apply Forall_app.
    - rewrite He', fmap_app. rewrite He, fmap_app, fmap_cons in do_keys.
      apply NoDup_app in do_keys as (H1 & H2 & H3). apply NoDup_cons in H3 as [H3 H4].
      apply NoDup_app. split; [done|]. split; [|done]. intros x Hx Hx2. apply (H2 x Hx). by right.
    - rewrite rm_mask0, <- (mx_hash _ Hm). destruct prev; [by destruct rm_prev0 as [_ ->]|].
      rewrite rm_prev0. apply llen_lset. }
  split; [done|]. rewrite (elems_mixed t'), (elems_mixed t), He' by (apply Hd || apply Hm').
  pose proof (elems_keys t Hd) as Hok. rewrite elems_mixed, He in Hok by apply Hd. rewrite He.
  rewrite fmap_app, fmap_cons in *. rewrite fmap_app.
  assert (entry_elem (content (bucket t i)) = (k, b_val (bucket t i))) as Hc
    by (unfold entry_elem; by rewrite <- bucket_key_content, Hk).
  rewrite Hc in Hok. rewrite fmap_cons, Hc. by rewrite dict_del_mid.
Qed.

(** * Trimming the fill mark *)

Lemma trim_used_spec n t :
  0 <= trim_used n t <= Z.of_nat n /\
  forall j, trim_used n t <= j < Z.of_nat n -> pos_undef t j = true.
Proof.
  induction n as [|n [IH1 IH2]]; cbn [trim_used]; [split; [lia|]; intros; lia|].
  destruct (pos_undef t (Z.of_nat n)) eqn:Hp; [|split; [lia|]; intros; lia].
  split; [lia|]. intros j Hj. destruct (decide (j = Z.of_nat n)) as [->|]; [done|]. apply IH2. lia.
Qed.

Lemma trim_used_pos n t : 0 < trim_used n t -> pos_undef t (trim_used n t - 1) = false.
Proof.
  induction n as [|n IH]; cbn [trim_used]; [lia|]. intros Hpos.
  destruct (pos_undef t (Z.of_nat n)) eqn:Hp; [by apply IH|].
  by replace (Z.of_nat (S n) - 1) with (Z.of_nat n) by lia.
Qed.

(** Only the fill mark and the positions change: the mark loses positions
    that are undefined, or the deleted one. *)
Lemma shrink_used_spec i t w : 0 <= i < nNumUsed t ->
  exists n ip w', shrink_used i (t, w) = (set_nInternalPointer ip (set_nNumUsed n t), w') /\
    0 <= n <= nNumUsed t /\ (i = nNumUsed t - 1 -> n <= i) /\
    (forall j, n <= j < nNumUsed t -> j <> i -> pos_undef t j = true) /\
    (nInternalPointer t <= nNumUsed t -> ip = Z.min (nInternalPointer t) n) /\
    (i < nNumUsed t - 1 -> n = nNumUsed t) /\
    (i = nNumUsed t - 1 -> 0 < n -> pos_undef t (n - 1) = false) /\ same_outside w w'.
Proof.
  intros Hi. unfold shrink_used. destruct (Z.eqb_spec (nNumUsed t - 1) i) as [He|Hne].
  - destruct (trim_used_spec (Z.to_nat (nNumUsed t - 1)) t) as [Hn Hd].
    eexists _, _, _. split; [reflexivity|]. cbn. split; [lia|]. split; [lia|].
    split; [intros j Hj Hji; apply Hd; lia|]. split; [done|]. split; [lia|].
    split; [intros _; apply trim_used_pos|]. unfold zend_hash_iterators_clamp_max.
    destruct (HT_HAS_ITERATORS _); done.
  - exists (nNumUsed t), (nInternalPointer t), w. split; [by destruct t|]. split; [lia|].
    split; [lia|]. split; [lia|]. split; [lia|]. split; [lia|]. split; [lia|]. done.
Qed.

(** * Deleting a bucket *)

Definition release_events b : list (event V) :=
  match b_key b with Some k => [EvRelease k] | None => [] end.

Definition dtor_events t v : list (event V) := if pDestructor t then [EvDtor v] else [].

Lemma release_key_spec i t w : 0 <= i < llen (arData t) ->
  exists t0, release_key i (t, w) = (t0, (release_key i (t, w)).2) /\
    arHash t0 = arHash t /\ llen (arData t0) = llen (arData t) /\
    set_arData (arData t) t0 = t /\
    (forall j, 0 <= j -> j <> i -> bucket t0 j = bucket t j) /\
    b_next (bucket t0 i) = b_next (bucket t i) /\ b_h (bucket t0 i) = b_h (bucket t i) /\
    b_val (bucket t0 i) = b_val (bucket t i) /\
    slots (release_key i (t, w)).2 = slots w /\
    trace (release_key i (t, w)).2 = trace w ++ release_events (bucket t i).
Proof.
  intros Hi. unfold release_key, release_events. destruct (b_key (bucket t i)) as [k|].
  - eexists. split; [reflexivity|]. split; [done|]. split; [apply llen_upd_bucket|].
    split; [by destruct t|]. split; [intros; apply bucket_upd_ne; lia|].
    rewrite bucket_upd_eq by done. done.
  - exists t. split; [done|]. do 2 (split; [done|]). split; [by destruct t|]. cbn [snd]. by rewrite app_nil_r.
Qed.

(** Agreement on everything but the two areas. *)
Definition same_but_areas (t t' : HashTable V) : Prop :=
  forall A (f : HashTable V -> A), (forall a u, f (set_arData a u) = f u) ->
    (forall a u, f (set_arHash a u) = f u) -> f t' = f t.

Lemma same_but_areas_frame t t' : set_arData (arData t) (set_arHash (arHash t) t') = t ->
  same_but_areas t t'.
Proof.
  intros He A f H1 H2. transitivity (f (set_arData (arData t) (set_arHash (arHash t) t'))).
  - by rewrite H1, H2.
  - by rewrite He.
Qed.

(** The table after the release of the key and the unlinking, before the count
    and the fill mark change. *)
Definition unlinked (t t1 : HashTable V) (i : Z) (prev : option Z) : Prop :=
  same_but_areas t t1 /\ llen (arData t1) = llen (arData t) /\
  b_val (bucket t1 i) = b_val (bucket t i) /\
  (forall j, 0 <= j -> j <> i -> content (bucket t1 j) = content (bucket t j)) /\
  (forall j, 0 <= j -> j <> i -> prev <> Some j -> b_next (bucket t1 j) = b_next (bucket t j)) /\
  match prev with
  | Some p => b_next (bucket t1 p) = b_next (bucket t i) /\ arHash t1 = arHash t
  | None => arHash t1 = arHash (set_HT_HASH (cell t i) (b_next (bucket t i)) t)
  end.

Lemma unlink_spec i prev t t0 : 0 <= i < llen (arData t) ->
  (forall p, prev = Some p -> 0 <= p < llen (arData t) /\ p <> i) ->
  arHash t0 = arHash t -> llen (arData t0) = llen (arData t) -> set_arData (arData t) t0 = t ->
  (forall j, 0 <= j -> j <> i -> bucket t0 j = bucket t j) ->
  b_next (bucket t0 i) = b_next (bucket t i) -> b_h (bucket t0 i) = b_h (bucket t i) ->
  b_val (bucket t0 i) = b_val (bucket t i) ->
  unlinked t (match prev with
              | Some pr => upd_bucket pr (set_b_next (b_next (bucket t0 i))) t0
              | None => set_HT_HASH (nIndex_of (b_h (bucket t0 i)) (nTableMask t0)) (b_next (bucket t0 i)) t0
              end) i prev.
Proof.
  intros Hi Hpr Hh0 Hl0 Hf0 Ho0 Hn0 Hb0 Hv0.
  assert (same_but_areas t t0) as Hsame.
  { apply same_but_areas_frame. rewrite <- Hh0. rewrite <- Hf0 at 2. by destruct t0. }
  rewrite Hn0, Hb0, (Hsame _ nTableMask) by done. fold (cell t i). destruct prev as [p|].
  - destruct (Hpr p eq_refl) as [Hp Hpi].
    assert (forall j, 0 <= j -> j <> p -> bucket (upd_bucket p (set_b_next (b_next (bucket t i))) t0) j = bucket t0 j)
      as Hne by (intros; apply bucket_upd_ne; lia).
    split; [intros A f H1 H2; unfold upd_bucket; rewrite H1; by apply Hsame|].
    split; [by rewrite llen_upd_bucket|]. split; [by rewrite Hne by lia|]. repeat split.
    + intros j Hj Hji. destruct (decide (j = p)) as [->|]; [|by rewrite Hne, Ho0 by done].
      rewrite bucket_upd_eq, Ho0 by lia. done.
    + intros j Hj Hji Hjp. rewrite Hne, Ho0 by congruence. done.
    + by rewrite bucket_upd_eq by lia.
    + done.
  - split; [intros A f H1 H2; unfold set_HT_HASH; rewrite H2; by apply Hsame|].
    split; [done|]. split; [done|]. split; [intros j Hj Hji; change (content (bucket t0 j) = content (bucket t j)); by rewrite Ho0|].
    split; [intros j Hj Hji _; change (b_next (bucket t0 j) = b_next (bucket t j)); by rewrite Ho0|].
    unfold set_HT_HASH. cbn. by rewrite Hh0, (Hsame _ nTableMask).
Qed.

Lemma del_el_ex_removed i prev k t w : mixed_ok t -> holds t i k ->
  (forall p, prev = Some p -> 0 <= p < nNumUsed t /\ p <> i) ->
  exists t' w', zend_hash_del_el_ex i prev (release_key i (t, w)) = (t', w') /\
    removed t t' i prev /\ slots w' = slots w /\
    trace w' = trace w ++ release_events (bucket t i) ++ dtor_events t (b_val (bucket t i)).
Proof.
  intros Hm (Hi & Hl & _) Hpr. pose proof (mx_data _ Hm) as Hd. pose proof (do_used _ Hd) as Hu.
  pose proof (do_data _ Hd) as Hda.
  destruct (release_key_spec i t w ltac:(lia)) as (t0 & -> & Hh0 & Hl0 & Hf0 & Ho0 & Hn0 & Hb0 & Hv0 & Hs & Htr).
  destruct (release_key i (t, w)) as [tx w0]. cbn [snd] in *. clear tx.
  assert (unlinked t (match prev with
    | Some pr => upd_bucket pr (set_b_next (b_next (bucket t0 i))) t0
    | None => set_HT_HASH (nIndex_of (b_h (bucket t0 i)) (nTableMask t0)) (b_next (bucket t0 i)) t0
    end) i prev) as Hun.
  { apply unlink_spec; try done; [lia|]. intros p Hp. destruct (Hpr p Hp). lia. }
  unfold zend_hash_del_el_ex. revert Hun. generalize (match prev with
    | Some pr => upd_bucket pr (set_b_next (b_next (bucket t0 i))) t0
    | None => set_HT_HASH (nIndex_of (b_h (bucket t0 i)) (nTableMask t0)) (b_next (bucket t0 i)) t0
    end). clear t0 Hh0 Hl0 Hf0 Ho0 Hn0 Hb0 Hv0. intros t1 (Hg & Hl1 & Hv1 & Hc1 & Hn1 & Hp1).
  set (t2 := set_nNumOfElements _ t1).
  assert (nNumUsed t2 = nNumUsed t) as Hu2 by (apply (Hg _ nNumUsed); done).
  destruct (shrink_used_spec i t2 w0 ltac:(lia)) as (n & ip & w' & -> & Hn & Hni & Hdead & _ & _ & _ & [Hs1 Ht1]).
  rewrite Hu2 in *. set (t3 := set_nInternalPointer ip _). unfold undef_and_dtor.
  cbn [zstore zload fst snd]. set (t4 := upd_bucket i _ t3).
  assert (live t4 i = false) as Hi4.
  { unfold live, t4. rewrite bucket_upd_eq; [done|]. change (arData t3) with (arData t1). lia. }
  assert (forall j, 0 <= j -> j <> i -> bucket t4 j = bucket t1 j) as Ho4.
  { intros j Hj Hji. unfold t4. by rewrite bucket_upd_ne by lia. }
  eexists _, _. split; [reflexivity|]. split; [|change (bucket t3 i) with (bucket t1 i); rewrite Hv1].
  - split; [apply (Hg _ nTableMask)|apply (Hg _ nTableSize)|apply (Hg _ fl_PACKED)|apply (Hg _ fl_UNINITIALIZED)
      |apply (Hg _ nNextFreeElement)|apply (Hg _ pDestructor)| | | | | | | |]; try done.
    + unfold t4, t3, t2. cbn. by rewrite (Hg _ nNumOfElements).
    + intros j Hj Hji. change (nNumUsed t4) with n in Hj. specialize (Hdead j Hj Hji). unfold pos_undef in Hdead.
      change (fl_PACKED t2) with (fl_PACKED t1) in Hdead. rewrite (Hg _ fl_PACKED), (do_packed _ Hd) in Hdead by done.
      change (bucket t2 j) with (bucket t1 j) in Hdead.
      rewrite <- (content_live t t1 j) by (apply Hc1; lia). unfold live. by rewrite Hdead.
    + unfold t4. by rewrite llen_upd_bucket.
    + intros j Hj Hji. rewrite Ho4 by done. by apply Hc1.
    + intros j Hj Hji Hp. rewrite Ho4 by done. by apply Hn1.
    + change (arHash t4) with (arHash t1). destruct prev as [p|]; [|done].
      destruct (Hpr p eq_refl) as [Hp Hpi]. rewrite Ho4; [done|lia|done].
  - unfold run_dtor, dtor_events. replace (pDestructor t4) with (pDestructor t)
      by (symmetry; apply (Hg _ pDestructor); done).
    rewrite app_assoc, <- Htr. destruct (pDestructor t); cbn; [by rewrite Hs1, Hs, Ht1|].
    by rewrite Hs1, Hs, Ht1, app_nil_r.
Qed.

Lemma dict_del_key_in {A} k k' (d : list (hkey * A)) : k' ∈ (dict_del k d).*1 -> k' ∈ d.*1.
Proof.
  intros (e & -> & [_ He]%list_elem_of_filter)%list_elem_of_fmap.
  apply list_elem_of_fmap. eauto.
Qed.

Lemma next_free_del t t' k : next_free_ok t -> nNextFreeElement t' = nNextFreeElement t ->
  elems t' = dict_del k (elems t) -> next_free_ok t'.
Proof.
  intros [Hr Hb] Hn He. split; [by rewrite Hn|]. rewrite Hn. intros h. rewrite He.
  intros Hin%dict_del_key_in. by apply Hb.
Qed.

(** What a deletion of key [k] with value [v] does. *)
Definition deleted t w (k : hkey) v (rel : list (event V)) (s' : state V) : Prop :=
  wf s'.1 /\ elems s'.1 = dict_del k (elems t) /\ slots s'.2 = slots w /\
  trace s'.2 = trace w ++ rel ++ dtor_events t v.

Lemma chain_find_prev_holds t test k : mixed_ok t ->
  (forall i, 0 <= i < nNumUsed t -> live t i = true ->
     (test (bucket t i) = true <-> bucket_key (bucket t i) = k)) ->
  match chain_find_prev (chain_fuel t) t test (chain_head t (key_hash k)) None with
  | Some (i, prev) => holds t i k /\ exists l1 l2,
      cell_list t (Z.to_nat (nNumUsed t)) (cell t i) = l1 ++ i :: l2 /\ prev = last l1
  | None => k ∉ (elems t).*1
  end.
Proof.
  intros Hm Ht. pose proof (mx_data _ Hm) as Hd.
  pose proof (chain_find_prev_spec t test _ (chain_fuel t) _ None (mixed_chain t (key_hash k) Hm)
    (fun i => cell_list_valid t _ i Hd) (cell_list_fuel t _ Hd)) as Hf.
  destruct (chain_find_prev _ _ _ _ _) as [[i prev]|].
  - destruct Hf as (l1 & l2 & Hl & Hti & _ & ->).
    assert (i ∈ cell_list t (Z.to_nat (nNumUsed t)) (nIndex_of (key_hash k) (nTableMask t))) as Hin
      by (rewrite Hl; set_solver).
    apply elem_of_cell_list in Hin as (Hi & Hlv & Hc). rewrite Hc.
    split; [split; [lia|]; split; [done|apply Ht; [lia|done|done]]|].
    exists l1, l2. split; [done|]. unfold last_or. by destruct (last l1).
  - apply not_holds_lookup; [done|]. intros i Hh. pose proof Hh as (Hi & Hlv & Hk).
    assert (i ∈ filter (fun i => test (bucket t i) = true)
      (cell_list t (Z.to_nat (nNumUsed t)) (nIndex_of (key_hash k) (nTableMask t)))) as Hin.
    { apply list_elem_of_filter. split; [by apply Ht|by apply holds_cell]. }
    rewrite Hf in Hin. by apply elem_of_nil in Hin.
Qed.

Lemma prev_valid t i c l1 l2 : cell_list t (Z.to_nat (nNumUsed t)) c = l1 ++ i :: l2 ->
  forall p, last l1 = Some p -> 0 <= p < nNumUsed t /\ p <> i.
Proof.
  intros Hl p [l' Hp]%last_Some. pose proof (NoDup_cell_list t (Z.to_nat (nNumUsed t)) c) as Hnd.
  rewrite Hl in Hnd. assert (p ∈ cell_list t (Z.to_nat (nNumUsed t)) c) as (Hr & _)%elem_of_cell_list
    by (rewrite Hl, Hp; set_solver).
  split; [lia|]. intros ->. apply NoDup_app in Hnd as (_ & Hn & _).
  apply (Hn i); [rewrite Hp; set_solver|by left].
Qed.

Lemma del_bucket_ok i prev k t w l1 l2 : wf t -> mixed_ok t -> holds t i k ->
  cell_list t (Z.to_nat (nNumUsed t)) (cell t i) = l1 ++ i :: l2 -> prev = last l1 ->
  deleted t w k (b_val (bucket t i)) (release_events (bucket t i))
    (zend_hash_del_el_ex i prev (release_key i (t, w))).
Proof.
  intros [_ Hnf] Hm Hh Hl Hpr.
  destruct (del_el_ex_removed i prev k t w Hm Hh) as (t' & w' & -> & Hrm & Hs & Htr).
  { intros p Hp. apply (prev_valid t i _ l1 l2 Hl). congruence. }
  destruct (removed_ok t t' i k prev l1 l2 Hm Hh Hrm Hl Hpr) as [Hm' He].
  split; [|done]. split; [by right; right|]. by eapply next_free_del; [|apply Hrm|].
Qed.

(** ** Tables without buckets *)

Lemma chain_find_prev_none n t test prev : chain_find_prev n t test HT_INVALID_IDX prev = None.
Proof. destruct n; done. Qed.

(** String keys are searched in the chains of every kind of table. *)
Lemma str_find_prev t test str : repr_ok t ->
  (forall b, entry_ok (content b) -> test b = true <-> bucket_key b = KStr str) ->
  match chain_find_prev (chain_fuel t) t test (chain_head t (zend_inline_hash_func str)) None with
  | Some (i, prev) => mixed_ok t /\ holds t i (KStr str) /\ exists l1 l2,
      cell_list t (Z.to_nat (nNumUsed t)) (cell t i) = l1 ++ i :: l2 /\ prev = last l1
  | None => KStr str ∉ (elems t).*1
  end.
Proof.
  intros Hr Ht. destruct Hr as [Hu|[Hp|Hm]].
  - rewrite chain_head_none by apply Hu. rewrite chain_find_prev_none, elems_uninit by done. apply not_elem_of_nil.
  - rewrite chain_head_none by apply Hp. rewrite chain_find_prev_none.
    by apply dict_lookup_None, str_find_packed.
  - pose proof (chain_find_prev_holds t test (KStr str) Hm
      (fun i Hi Hl => Ht _ (mixed_bucket_ok t i (mx_data _ Hm) Hi Hl))) as Hf. cbn [key_hash] in Hf.
    destruct (chain_find_prev _ _ _ _ _) as [[i prev]|]; [|done]. by split.
Qed.

Lemma holds_str_key t i str : holds t i (KStr str) ->
  exists k, b_key (bucket t i) = Some k /\ ZSTR_VAL k = str.
Proof.
  intros (_ & _ & Hk). unfold bucket_key in Hk. destruct (b_key (bucket t i)) as [k|]; [|done].
  exists k. split; [done|]. congruence.
Qed.

Lemma str_del_ok test str t w : wf t ->
  (forall b, entry_ok (content b) -> test b = true <-> bucket_key b = KStr str) ->
  let r := match chain_find_prev (chain_fuel t) t test (chain_head t (zend_inline_hash_func str)) None with
    | Some (idx, prev) => (zend_hash_del_el_ex idx prev (release_key idx (t, w)), SUCCESS)
    | None => ((t, w), FAILURE)
    end in
  match dict_lookup (KStr str) (elems t) with
  | Some v => r.2 = SUCCESS /\ exists k, ZSTR_VAL k = str /\ deleted t w (KStr str) v [EvRelease k] r.1
  | None => r = ((t, w), FAILURE)
  end.
Proof.
  intros Hwf Ht r. unfold r. clear r. pose proof (str_find_prev t test str (proj1 Hwf) Ht) as Hf.
  destruct (chain_find_prev _ _ _ _ _) as [[i prev]|].
  - destruct Hf as (Hm & Hh & l1 & l2 & Hl & Hpr).
    rewrite (holds_lookup t i _ (mx_data _ Hm) Hh). split; [done|]. cbn [fst].
    pose proof (del_bucket_ok i prev _ t w l1 l2 Hwf Hm Hh Hl Hpr) as Hdel.
    destruct (holds_str_key t i str Hh) as (k & Hk & Hs). exists k. split; [done|].
    unfold release_events in Hdel. by rewrite Hk in Hdel.
  - apply dict_lookup_None in Hf. by rewrite Hf.
Qed.

Lemma hash_del_ok key t w : wf t ->
  match dict_lookup (KStr (ZSTR_VAL key)) (elems t) with
  | Some v => (zend_hash_del key (t, w)).2 = SUCCESS /\ exists k, ZSTR_VAL k = ZSTR_VAL key /\
      deleted t w (KStr (ZSTR_VAL key)) v [EvRelease k] (zend_hash_del key (t, w)).1
  | None => zend_hash_del key (t, w) = ((t, w), FAILURE)
  end.
Proof. intros Hwf. exact (str_del_ok _ _ t w Hwf (match_key_spec key)). Qed.

(** C11: [zend_hash_del] on a well-formed table removes exactly the binding of
    the key, releases the key and then destroys the value, each exactly once,
    and keeps the table well-formed (the chain is unlinked, the fill mark is
    trimmed); for an absent key it fails and changes nothing. *)
Theorem zend_hash_del_correct key t w : wf t ->
  match dict_lookup (KStr (ZSTR_VAL key)) (elems t) with
  | Some v => (zend_hash_del key (t, w)).2 = SUCCESS /\ exists k, ZSTR_VAL k = ZSTR_VAL key /\
      deleted t w (KStr (ZSTR_VAL key)) v [EvRelease k] (zend_hash_del key (t, w)).1
  | None => zend_hash_del key (t, w) = ((t, w), FAILURE)
  end.
Proof. apply hash_del_ok. Qed.

(** deletion by character data is the same deletion. *)
Theorem zend_hash_str_del_correct str t w : wf t ->
  match dict_lookup (KStr str) (elems t) with
  | Some v => (zend_hash_str_del str (t, w)).2 = SUCCESS /\ exists k, ZSTR_VAL k = str /\
      deleted t w (KStr str) v [EvRelease k] (zend_hash_str_del str (t, w)).1
  | None => zend_hash_str_del str (t, w) = ((t, w), FAILURE)
  end.
Proof. intros Hwf. exact (str_del_ok _ _ t w Hwf (match_content_spec str)). Qed.

(** ** Packed tables *)

(** A packed table with one element removed. *)
Record packed_removed (t t' : HashTable V) (h : Z) : Prop := {
  pr_mask : nTableMask t' = nTableMask t;
  pr_size : nTableSize t' = nTableSize t;
  pr_packed : fl_PACKED t' = fl_PACKED t;
  pr_init : fl_UNINITIALIZED t' = fl_UNINITIALIZED t;
  pr_next_free : nNextFreeElement t' = nNextFreeElement t;
  pr_dtor : pDestructor t' = pDestructor t;
  pr_hash : arHash t' = arHash t;
  pr_data : llen (arPacked t') = llen (arPacked t);
  pr_count : nNumOfElements t' = u32 (nNumOfElements t - 1);
  pr_used : 0 <= nNumUsed t' <= nNumUsed t;
  pr_dead : forall j, nNumUsed t' <= j < nNumUsed t -> j <> h -> Z_ISUNDEF (packed t j) = true;
  pr_old : forall j, 0 <= j -> j <> h -> packed t' j = packed t j;
  pr_undef : Z_ISUNDEF (packed t' h) = true
}.

Lemma packed_removed_ok t t' h : packed_ok t -> 0 <= h < nNumUsed t -> Z_ISUNDEF (packed t h) = false ->
  packed_removed t t' h -> packed_ok t' /\ elems t' = dict_del (KInt h) (elems t).
Proof.
  intros Hp Hh Hl [Hm Hs Hpk Hi _ _ Har Hda Hc Hu Hd Ho Hun].
  pose proof (packed_split t h Hp Hh Hl) as He. pose proof (packed_dict_ok t Hp) as Hok.
  pose proof (size_ok_bounds _ (pk_size _ Hp)) as Hsz. pose proof (pk_used _ Hp) as Hus. unfold HT_MAX_SIZE in Hsz.
  assert (elems t' = dict_del (KInt h) (elems t)) as He'.
  { rewrite He in Hok. rewrite He, dict_del_mid by done. unfold elems. rewrite Hpk, (pk_packed _ Hp).
    assert (packed_elems t' 0 (Z.to_nat (nNumUsed t)) = packed_elems t' 0 (Z.to_nat (nNumUsed t'))) as <-.
    { replace (Z.to_nat (nNumUsed t)) with (Z.to_nat (nNumUsed t') + Z.to_nat (nNumUsed t - nNumUsed t'))%nat by lia.
      rewrite packed_elems_app. rewrite (packed_elems_undef t' _ (Z.to_nat (nNumUsed t - nNumUsed t'))); [by rewrite app_nil_r|].
      intros k Hk. destruct (decide (k = h)) as [->|]; [done|]. rewrite Ho by lia. apply Hd; lia. }
    replace (Z.to_nat (nNumUsed t)) with (Z.to_nat h + S (Z.to_nat (nNumUsed t - h - 1)))%nat by lia.
    rewrite packed_elems_app, packed_elems_cons. replace (0 + Z.of_nat (Z.to_nat h)) with h by lia.
    unfold packed_elem. rewrite Hun. cbn [option_list option_rect app].
    rewrite (packed_elems_ext t t' 0), (packed_elems_ext t t' (h + 1)); [done| |]; intros k Hk; apply Ho; lia. }
  split; [|done]. pose proof (pk_count _ Hp) as Hcnt. destruct Hp. split; try congruence; try lia.
  rewrite He', Hc, Hcnt. rewrite He in *. rewrite dict_del_mid by done. unfold llen.
  rewrite !length_app. cbn [length].
  pose proof (packed_elems_length t 0 (Z.to_nat h)).
  pose proof (packed_elems_length t (h + 1) (Z.to_nat (nNumUsed t - h - 1))).
  rewrite u32_small; lia.
Qed.

Lemma packed_del_removed h t w : packed_ok t -> 0 <= h < nNumUsed t ->
  exists t' w', zend_hash_packed_del_val h (t, w) = (t', w') /\ packed_removed t t' h /\
    slots w' = slots w /\ trace w' = trace w ++ dtor_events t (packed t h).
Proof.
  intros Hp Hh. unfold zend_hash_packed_del_val. set (t1 := set_nNumOfElements _ t).
  destruct (shrink_used_spec h t1 w Hh) as (n & ip & w' & -> & Hn & _ & Hd & _ & _ & _ & [Hs Htr]).
  unfold undef_and_dtor. cbn [zload zstore fst snd]. set (t2 := set_packed h _ _).
  pose proof (pk_used _ Hp) as Hu. pose proof (pk_data _ Hp) as Hda.
  eexists _, _. split; [reflexivity|]. split.
  - split; try done.
    + unfold t2. cbn. apply llen_lset.
    + intros j Hj Hjh. specialize (Hd j Hj Hjh). unfold pos_undef in Hd.
      change (fl_PACKED t1) with (fl_PACKED t) in Hd. by rewrite (pk_packed _ Hp) in Hd.
    + intros j Hj Hjh. unfold t2. rewrite packed_set_ne by lia. done.
    + unfold t2. rewrite packed_set_eq; [done|]. cbn. lia.
  - unfold run_dtor, dtor_events. change (pDestructor t2) with (pDestructor t).
    destruct (pDestructor t); cbn; rewrite Hs, Htr; [done|]. by rewrite app_nil_r.
Qed.

Lemma packed_del_ok h t w : wf t -> packed_ok t -> 0 <= h < nNumUsed t -> Z_ISUNDEF (packed t h) = false ->
  deleted t w (KInt h) (packed t h) [] (zend_hash_packed_del_val h (t, w)).
Proof.
  intros [_ Hnf] Hp Hh Hl. destruct (packed_del_removed h t w Hp Hh) as (t' & w' & -> & Hrm & Hs & Htr).
  destruct (packed_removed_ok t t' h Hp Hh Hl Hrm) as [Hok He].
  split; [split; [by right; left|by eapply next_free_del; [|apply Hrm|]]|]. done.
Qed.

Lemma index_del_ok h t w : wf t -> 0 <= h ->
  match dict_lookup (KInt h) (elems t) with
  | Some v => (zend_hash_index_del h (t, w)).2 = SUCCESS /\
      deleted t w (KInt h) v [] (zend_hash_index_del h (t, w)).1
  | None => zend_hash_index_del h (t, w) = ((t, w), FAILURE)
  end.
Proof.
  intros Hwf Hh. unfold zend_hash_index_del. cbn [fst]. destruct (proj1 Hwf) as [Hu|[Hp|Hm]].
  - rewrite (un_packed _ Hu), chain_head_none by apply Hu. by rewrite chain_find_prev_none, elems_uninit.
  - rewrite (pk_packed _ Hp), packed_lookup by done. destruct (Z.ltb_spec h (nNumUsed t)); cbn [andb]; [|done].
    destruct (Z_ISUNDEF (packed t h)) eqn:Hl; cbn [negb]; [done|].
    split; [done|]. apply packed_del_ok; try done; lia.
  - rewrite (do_packed _ (mx_data _ Hm)).
    pose proof (chain_find_prev_holds t (match_index h) (KInt h) Hm (fun i _ _ => match_index_spec h _)) as Hf.
    cbn [key_hash] in Hf. destruct (chain_find_prev _ _ _ _ _) as [[i prev]|].
    + destruct Hf as (Hhd & l1 & l2 & Hl & Hpr). rewrite (holds_lookup t i _ (mx_data _ Hm) Hhd).
      split; [done|]. cbn [fst]. pose proof (del_bucket_ok i prev _ t w l1 l2 Hwf Hm Hhd Hl Hpr) as Hdel.
      assert (b_key (bucket t i) = None) as Hk.
      { destruct Hhd as (_ & _ & Hk). unfold bucket_key in Hk. by destruct (b_key (bucket t i)). }
      unfold release_key, release_events in Hdel. by rewrite Hk in Hdel.
    + apply dict_lookup_None in Hf. by rewrite Hf.
Qed.

(** [zend_hash_index_del] removes exactly the binding of the integer key,
    packed or hashed, destroys its value once, and keeps the table
    well-formed; for an absent key it fails and changes nothing. *)
Theorem zend_hash_index_del_correct h t w : wf t -> 0 <= h ->
  match dict_lookup (KInt h) (elems t) with
  | Some v => (zend_hash_index_del h (t, w)).2 = SUCCESS /\
      deleted t w (KInt h) v [] (zend_hash_index_del h (t, w)).1
  | None => zend_hash_index_del h (t, w) = ((t, w), FAILURE)
  end.
Proof. apply index_del_ok. Qed.

Lemma holds_mixed t i k : wf t -> fl_PACKED t = false -> holds t i k -> mixed_ok t.
Proof.
  intros [[Hu|[Hp|Hm]] _] Hpk [Hi _]; [|by rewrite (pk_packed _ Hp) in Hpk|done]. rewrite (un_used _ Hu) in Hi. lia.
Qed.

(** The search of the predecessor of a bucket in its chain, from the cell of the index area. *)
Lemma bucket_prev i k t : mixed_ok t -> holds t i k ->
  exists l1 l2, cell_list t (Z.to_nat (nNumUsed t)) (cell t i) = l1 ++ i :: l2 /\
    (let h := chain_head t (b_h (bucket t i)) in
     (if h =? i then None else Some (chain_prev (chain_fuel t) t h i)) = last l1).
Proof.
  intros Hm Hh. pose proof (mx_data _ Hm) as Hd. pose proof (holds_cell t i k Hd Hh) as Hin.
  pose proof Hh as (Hi & Hl & Hk). destruct (mixed_bucket_ok t i Hd Hi Hl) as [Hhash _].
  rewrite <- bucket_key_content, Hk in Hhash. cbn in Hhash.
  assert (cell t i = nIndex_of (key_hash k) (nTableMask t)) as Hc by (unfold cell; by rewrite Hhash).
  rewrite <- Hc in Hin. apply list_elem_of_split in Hin as (l1 & l2 & Hcl).
  pose proof (mixed_chain t (b_h (bucket t i)) Hm) as Hch. fold (cell t i) in Hch.
  pose proof (cell_list_fuel t (cell t i) Hd) as Hf.
  pose proof (NoDup_cell_list t (Z.to_nat (nNumUsed t)) (cell t i)) as Hnd.
  rewrite Hcl in *. exists l1, l2. split; [done|]. cbv zeta. destruct l1 as [|p l1].
  - destruct Hch as [-> _]. by rewrite Z.eqb_refl.
  - pose proof (chain_prev_spec t l1 i l2 (chain_fuel t) p _ Hch) as Hpr.
    destruct Hch as [-> _]. apply NoDup_app in Hnd as (_ & Hn & _).
    destruct (Z.eqb_spec p i) as [->|_]; [exfalso; apply (Hn i); by left|].
    rewrite Hpr; [unfold last_or; rewrite last_cons; by destruct (last l1)| |].
    + intros Hin2. apply (Hn i); [by right|by left].
    + rewrite length_app in Hf. cbn [length] in Hf. lia.
Qed.

(** [_zend_hash_del_el] finds the predecessor of its bucket. *)
Lemma del_el_prev i k t w : mixed_ok t -> holds t i k ->
  exists prev l1 l2, zend_hash_del_el i (t, w) = zend_hash_del_el_ex i prev (release_key i (t, w)) /\
    cell_list t (Z.to_nat (nNumUsed t)) (cell t i) = l1 ++ i :: l2 /\ prev = last l1.
Proof. intros Hm Hh. destruct (bucket_prev i k t Hm Hh) as (l1 & l2 & Hcl & Hp). by eexists _, l1, l2. Qed.

(** deletion by bucket ([zend_hash_del_bucket], [_zend_hash_del_el]) finds
    the predecessor of the bucket by its chain, and removes exactly its key. *)
Theorem zend_hash_del_bucket_correct i k t w : wf t -> fl_PACKED t = false -> holds t i k ->
  deleted t w k (b_val (bucket t i)) (release_events (bucket t i)) (zend_hash_del_bucket i (t, w)).
Proof.
  intros Hwf Hpk Hh. pose proof (holds_mixed t i k Hwf Hpk Hh) as Hm.
  destruct (del_el_prev i k t w Hm Hh) as (prev & l1 & l2 & Heq & Hcl & Hpr).
  unfold zend_hash_del_bucket. rewrite Heq. by apply (del_bucket_ok i prev k t w l1 l2).
Qed.

End Del.
