(* ===== verification/HashOps.v ===== *)
(** The whole-table operations of Zend/zend_hash.c and Zend/zend_hash.h:
    counting, destruction, cleaning, [apply] and its variants, positions and
    the internal pointer, lists. *)

From stdpp Require Import base numbers list gmap.
From S2P Require Import Prelude ZendTypes HashTable.

Section Ops.
Context {V : Type} {E : ZEnv V}.
Implicit Types (t : HashTable V) (w : EG V) (b : Bucket V) (v : zval V).

(** The value at a position of either layout, and its address. *)
Definition pos_val t (i : Z) : zval V := if fl_PACKED t then packed t i else b_val (bucket t i).
Definition pos_ptr (pckd : bool) (i : Z) : zptr := if pckd then PPacked i else PBucket i.

(** * Counting *)

(** [ZEND_HASH_MAP_FOREACH_VAL]: defined positions in order. *)
Definition zend_array_recalc_elements t w : Z :=
  foldl (fun num i =>
    match b_val (bucket t i) with
    | IS_INDIRECT a => if Z_ISUNDEF (slot w a) then u32 (num - 1) else num
    | _ => num
    end) (nNumOfElements t) (zrange 0 (Z.to_nat (nNumUsed t))).

(** [is_symbol_table]: the table is [EG(symbol_table)]. *)
Definition zend_array_count (is_symbol_table : bool) t w : HashTable V * Z :=
  if fl_HAS_EMPTY_IND t then
    let num := zend_array_recalc_elements t w in
    (if nNumOfElements t =? num then set_fl_HAS_EMPTY_IND false t else t, num)
  else if is_symbol_table then (t, zend_array_recalc_elements t w)
  else (t, nNumOfElements t).

(** * Destruction *)

Definition release_string (k : option Z) w : EG V :=
  match k with Some k => emit (EvRelease k) w | None => w end.

(** [do { if (check && UNDEF) continue; dtor(zv); } while (++zv != end)] *)
Fixpoint dtor_packed (n : nat) (i : Z) (check : bool) t w : EG V :=
  match n with
  | O => w
  | S n =>
      let w := if check && Z_ISUNDEF (packed t i) then w else emit (EvDtor (packed t i)) w in
      dtor_packed n (i + 1) check t w
  end.

(** The same loop on buckets, releasing the keys too when [keys]. *)
Fixpoint dtor_buckets (n : nat) (i : Z) (check keys : bool) t w : EG V :=
  match n with
  | O => w
  | S n =>
      let p := bucket t i in
      let w := if check && Z_ISUNDEF (b_val p) then w
               else let w := emit (EvDtor (b_val p)) w in
                    if keys then release_string (b_key p) w else w in
      dtor_buckets n (i + 1) check keys t w
  end.

Fixpoint release_keys (n : nat) (i : Z) t w : EG V :=
  match n with
  | O => w
  | S n => release_keys n (i + 1) t (release_string (b_key (bucket t i)) w)
  end.

(** The destructor calls of [zend_hash_destroy] and [zend_hash_clean]. *)
Definition destroy_packed t w : EG V :=
  if pDestructor t
  then dtor_packed (Z.to_nat (nNumUsed t)) 0 (negb (HT_IS_WITHOUT_HOLES t)) t w else w.

Definition destroy_buckets t w : EG V :=
  let n := Z.to_nat (nNumUsed t) in
  if pDestructor t then
    dtor_buckets n 0 (negb (HT_IS_WITHOUT_HOLES t)) (negb (HT_HAS_STATIC_KEYS_ONLY t)) t w
  else if negb (HT_HAS_STATIC_KEYS_ONLY t) then release_keys n 0 t w else w.

(** The table itself is freed: only the world is left. *)
Definition zend_hash_destroy (s : state V) : EG V :=
  let (t, w) := s in
  if negb (nNumUsed t =? 0) then
    zend_hash_iterators_remove t (if fl_PACKED t then destroy_packed t w else destroy_buckets t w)
  else w.

(** [ptr_dtor]: the destructor is [ZVAL_PTR_DTOR].  In the loop of tables with
    static keys, and of packed tables, holes are passed to [i_zval_ptr_dtor]
    too, which ignores them. *)
Definition zend_array_destroy (ptr_dtor : bool) (s : state V) : EG V :=
  let (t, w) := s in
  let n := Z.to_nat (nNumUsed t) in
  let w :=
    if negb (nNumUsed t =? 0) then
      if negb ptr_dtor then zend_hash_destroy (t, w)
      else if fl_PACKED t then dtor_packed n 0 false t w
      else if HT_HAS_STATIC_KEYS_ONLY t then dtor_buckets n 0 false false t w
      else dtor_buckets n 0 (negb (HT_IS_WITHOUT_HOLES t)) true t w
    else w in
  zend_hash_iterators_remove t w.

Definition clean_fields t : HashTable V :=
  set_nInternalPointer 0 (set_nNextFreeElement ZEND_LONG_MIN
    (set_nNumOfElements 0 (set_nNumUsed 0 t))).

Definition zend_hash_clean (s : state V) : state V :=
  let (t, w) := s in
  let (t, w) :=
    if negb (nNumUsed t =? 0) then
      if fl_PACKED t then (t, destroy_packed t w)
      else (HT_HASH_RESET t, destroy_buckets t w)
    else (t, w) in
  (clean_fields t, w).

Definition zend_symtable_clean (s : state V) : state V :=
  let (t, w) := s in
  let n := Z.to_nat (nNumUsed t) in
  let (t, w) :=
    if negb (nNumUsed t =? 0) then
      (HT_HASH_RESET t,
       if HT_HAS_STATIC_KEYS_ONLY t then dtor_buckets n 0 false false t w
       else dtor_buckets n 0 (negb (HT_IS_WITHOUT_HOLES t)) true t w)
    else (t, w) in
  (clean_fields t, w).

(** [_zend_hash_packed_del_val] or [_zend_hash_del_el] at a position. *)
Definition del_pos (pckd : bool) (idx : Z) (s : state V) : state V :=
  if pckd then zend_hash_packed_del_val idx s else zend_hash_del_el idx s.

Definition undef_at (pckd : bool) t (idx : Z) : bool :=
  Z_ISUNDEF (if pckd then packed t idx else b_val (bucket t idx)).

(** [for (idx = 0; idx < ht->nNumUsed; idx++)] with the bound read at each
    turn; it only shrinks, so its initial value is enough turns. *)
Fixpoint graceful_loop (n : nat) (pckd : bool) (idx : Z) (s : state V) : state V :=
  match n with
  | O => s
  | S n =>
      if idx <? nNumUsed s.1 then
        graceful_loop n pckd (idx + 1) (if undef_at pckd s.1 idx then s else del_pos pckd idx s)
      else s
  end.

(** State of the table just before its memory is freed. *)
Definition zend_hash_graceful_destroy (s : state V) : state V :=
  graceful_loop (Z.to_nat (nNumUsed s.1)) (fl_PACKED s.1) 0 s.

(** [while (idx > 0) { idx--; ... }] *)
Fixpoint graceful_reverse_loop (n : nat) (pckd : bool) (s : state V) : state V :=
  match n with
  | O => s
  | S n =>
      let idx := Z.of_nat n in
      graceful_reverse_loop n pckd (if undef_at pckd s.1 idx then s else del_pos pckd idx s)
  end.

Definition zend_hash_graceful_reverse_destroy (s : state V) : state V :=
  graceful_reverse_loop (Z.to_nat (nNumUsed s.1)) (fl_PACKED s.1) s.

(** * Apply *)

Definition ZEND_HASH_APPLY_KEEP : Z := 0.
Definition ZEND_HASH_APPLY_REMOVE : Z := 1.
Definition ZEND_HASH_APPLY_STOP : Z := 2.

(** The loop of the three [apply] functions: the callback runs on the state
    and the element at [idx].  [None]: the callback made the table grow
    beyond [n] turns. *)
Fixpoint apply_loop (cb : Z -> state V -> state V * Z) (n : nat) (pckd : bool) (idx : Z)
    (s : state V) : option (state V) :=
  if idx <? nNumUsed s.1 then
    match n with
    | O => None
    | S n =>
        if undef_at pckd s.1 idx then apply_loop cb n pckd (idx + 1) s
        else
          let (s, result) := cb idx s in
          let s := if has_flag result ZEND_HASH_APPLY_REMOVE then del_pos pckd idx s else s in
          if has_flag result ZEND_HASH_APPLY_STOP then Some s
          else apply_loop cb n pckd (idx + 1) s
    end
  else Some s.

Definition zend_hash_apply (n : nat) (apply_func : zptr -> state V -> state V * Z) (s : state V)
    : option (state V) :=
  apply_loop (fun idx => apply_func (pos_ptr (fl_PACKED s.1) idx)) n (fl_PACKED s.1) 0 s.

Definition zend_hash_apply_with_argument {A} (n : nat)
    (apply_func : zptr -> A -> state V -> state V * Z) (argument : A) (s : state V) : option (state V) :=
  apply_loop (fun idx => apply_func (pos_ptr (fl_PACKED s.1) idx) argument) n (fl_PACKED s.1) 0 s.

(** The callback also receives the key of the element. *)
Definition zend_hash_apply_with_arguments {A} (n : nat)
    (apply_func : zptr -> A -> Z * option Z -> state V -> state V * Z) (args : A) (s : state V)
    : option (state V) :=
  let pckd := fl_PACKED s.1 in
  apply_loop (fun idx s =>
    let hash_key := if pckd then (idx, None) else (b_h (bucket s.1 idx), b_key (bucket s.1 idx)) in
    apply_func (pos_ptr pckd idx) args hash_key s) n pckd 0 s.

Fixpoint reverse_apply_loop (cb : Z -> state V -> state V * Z) (n : nat) (pckd : bool)
    (s : state V) : state V :=
  match n with
  | O => s
  | S n =>
      let idx := Z.of_nat n in
      if undef_at pckd s.1 idx then reverse_apply_loop cb n pckd s
      else
        let (s, result) := cb idx s in
        let s := if has_flag result ZEND_HASH_APPLY_REMOVE then del_pos pckd idx s else s in
        if has_flag result ZEND_HASH_APPLY_STOP then s else reverse_apply_loop cb n pckd s
  end.

Definition zend_hash_reverse_apply (apply_func : zptr -> state V -> state V * Z) (s : state V) : state V :=
  reverse_apply_loop (fun idx => apply_func (pos_ptr (fl_PACKED s.1) idx))
    (Z.to_nat (nNumUsed s.1)) (fl_PACKED s.1) s.

(** * Positions *)

Definition zend_hash_get_current_pos_ex t (pos : Z) : Z := zend_hash_get_valid_pos t pos.

Definition zend_hash_internal_pointer_reset_ex t : Z := zend_hash_get_valid_pos t 0.

(** The last defined position below [n]. *)
Fixpoint last_pos (n : nat) t : option Z :=
  match n with
  | O => None
  | S n => if pos_undef t (Z.of_nat n) then last_pos n t else Some (Z.of_nat n)
  end.

Definition zend_hash_internal_pointer_end_ex t : Z :=
  default (nNumUsed t) (last_pos (Z.to_nat (nNumUsed t)) t).

(** [while (1) { idx++; ... }] *)
Fixpoint forward_loop (n : nat) t (idx : Z) : Z :=
  match n with
  | O => nNumUsed t
  | S n =>
      let idx := idx + 1 in
      if nNumUsed t <=? idx then nNumUsed t
      else if negb (pos_undef t idx) then idx else forward_loop n t idx
  end.

Definition zend_hash_move_forward_ex t (pos : Z) : Z * zend_result :=
  let idx := zend_hash_get_valid_pos t pos in
  if idx <? nNumUsed t then (forward_loop (Z.to_nat (nNumUsed t - idx)) t idx, SUCCESS)
  else (pos, FAILURE).

Definition zend_hash_move_backwards_ex t (pos : Z) : Z * zend_result :=
  if pos <? nNumUsed t then (default (nNumUsed t) (last_pos (Z.to_nat pos) t), SUCCESS)
  else (pos, FAILURE).

(** [HASH_KEY_IS_STRING], [HASH_KEY_IS_LONG] with the key they carry. *)
Inductive current_key := HASH_KEY_IS_STRING (key : Z) | HASH_KEY_IS_LONG (h : Z) | HASH_KEY_NON_EXISTENT.

Definition zend_hash_get_current_key_ex t (pos : Z) : current_key :=
  let idx := zend_hash_get_valid_pos t pos in
  if idx <? nNumUsed t then
    if fl_PACKED t then HASH_KEY_IS_LONG idx
    else match b_key (bucket t idx) with
         | Some k => HASH_KEY_IS_STRING k
         | None => HASH_KEY_IS_LONG (b_h (bucket t idx))
         end
  else HASH_KEY_NON_EXISTENT.

(** The key zval: [ZVAL_STR_COPY] adds a reference unless the string is interned. *)
Inductive key_zval := KZ_NULL | KZ_LONG (h : Z) | KZ_STR (key : Z).

Definition zend_hash_get_current_key_zval_ex t w (pos : Z) : key_zval * EG V :=
  let idx := zend_hash_get_valid_pos t pos in
  if nNumUsed t <=? idx then (KZ_NULL, w)
  else if fl_PACKED t then (KZ_LONG idx, w)
  else match b_key (bucket t idx) with
       | Some k => (KZ_STR k, if ZSTR_IS_INTERNED k then w else emit (EvAddref k) w)
       | None => (KZ_LONG (s64 (b_h (bucket t idx))), w)
       end.

Inductive key_type := KEY_STRING | KEY_LONG | KEY_NON_EXISTENT.

Definition zend_hash_get_current_key_type_ex t (pos : Z) : key_type :=
  let idx := zend_hash_get_valid_pos t pos in
  if idx <? nNumUsed t then
    if fl_PACKED t then KEY_LONG
    else if b_key (bucket t idx) then KEY_STRING else KEY_LONG
  else KEY_NON_EXISTENT.

Definition zend_hash_get_current_data_ex t (pos : Z) : option zptr :=
  let idx := zend_hash_get_valid_pos t pos in
  if idx <? nNumUsed t then Some (pos_ptr (fl_PACKED t) idx) else None.

(** The variants on the internal pointer of the table. *)
Definition zend_hash_has_more_elements t : zend_result :=
  match zend_hash_get_current_key_type_ex t (nInternalPointer t) with
  | KEY_NON_EXISTENT => FAILURE | _ => SUCCESS
  end.
Definition zend_hash_move_forward t : HashTable V * zend_result :=
  let (p, r) := zend_hash_move_forward_ex t (nInternalPointer t) in (set_nInternalPointer p t, r).
Definition zend_hash_move_backwards t : HashTable V * zend_result :=
  let (p, r) := zend_hash_move_backwards_ex t (nInternalPointer t) in (set_nInternalPointer p t, r).
Definition zend_hash_get_current_key t := zend_hash_get_current_key_ex t (nInternalPointer t).
Definition zend_hash_get_current_data t := zend_hash_get_current_data_ex t (nInternalPointer t).
Definition zend_hash_internal_pointer_reset t :=
  set_nInternalPointer (zend_hash_internal_pointer_reset_ex t) t.
Definition zend_hash_internal_pointer_end t :=
  set_nInternalPointer (zend_hash_internal_pointer_end_ex t) t.

(** * Lists *)

Definition key_at t (i : Z) : Z * option Z :=
  if fl_PACKED t then (i, None) else (b_h (bucket t i), b_key (bucket t i)).

(** The loop of [zend_array_is_list]: [expected_idx] counts the elements. *)
Fixpoint is_list_loop (n : nat) t (i expected_idx : Z) : bool :=
  match n with
  | O => true
  | S n =>
      if pos_undef t i then is_list_loop n t (i + 1) expected_idx
      else
        let (num_idx, str_idx) := key_at t i in
        if (if str_idx then true else false) || negb (num_idx =? expected_idx) then false
        else is_list_loop n t (i + 1) (u64 (expected_idx + 1))
  end.

Definition zend_array_is_list t : bool :=
  if nNumOfElements t =? 0 then true
  else if fl_PACKED t && HT_IS_WITHOUT_HOLES t then true
  else is_list_loop (Z.to_nat (nNumUsed t)) t 0 0.

Definition deref_indirect w v : zval V := match v with IS_INDIRECT a => slot w a | _ => v end.

End Ops.
