(* ===== verification/HashTraverse.v ===== *)
(** Traversal, cleaning and selective deletion: positions enumerate the
    dictionary in order, [zend_hash_clean] empties the table destroying every
    element once, [zend_hash_apply] filters it. *)

From stdpp Require Import base numbers list gmap.
From S2P Require Import Prelude ZendTypes HashTable HashDict HashChain HashInv HashRehash HashFind.
From S2P Require Import HashAdd HashIndex HashDel HashOps.

Section Traverse.
Context {V : Type} {E : ZEnv V}.
Implicit Types (t : HashTable V) (w : EG V) (b : Bucket V) (v : zval V).

(** * Elements by position *)

(** The abstract key of a position. *)
Definition pos_key t (i : Z) : hkey := if fl_PACKED t then KInt i else bucket_key (bucket t i).

Definition pos_elem t (i : Z) : option (hkey * zval V) :=
  if pos_undef t i then None else Some (pos_key t i, pos_val t i).

(** The elements at positions [i, ..., i+n-1]. *)
Definition pos_elems t (i : Z) (n : nat) : list (hkey * zval V) := omap (pos_elem t) (zrange i n).

Lemma elems_pos t : elems t = pos_elems t 0 (Z.to_nat (nNumUsed t)).
Proof.
  unfold elems, pos_elems, pos_elem, pos_undef, pos_key, pos_val. destruct (fl_PACKED t); [done|].
  unfold mixed_entries, entries. generalize (zrange 0 (Z.to_nat (nNumUsed t))). intros l.
  induction l as [|i l IH]; [done|]. csimpl. unfold live_entry at 1, live.
  destruct (Z_ISUNDEF (b_val (bucket t i))); csimpl; [done|]. by rewrite IH.
Qed.

Lemma pos_elems_cons t i n : pos_elems t i (S n) = option_list (pos_elem t i) ++ pos_elems t (i + 1) n.
Proof. unfold pos_elems. rewrite zrange_cons. csimpl. by destruct (pos_elem t i). Qed.

Lemma pos_elems_S t i n : pos_elems t i (S n) = pos_elems t i n ++ option_list (pos_elem t (i + Z.of_nat n)).
Proof. unfold pos_elems. by rewrite zrange_S, omap_app. Qed.

Lemma pos_elems_app t i n m : pos_elems t i (n + m) = pos_elems t i n ++ pos_elems t (i + Z.of_nat n) m.
Proof. unfold pos_elems. by rewrite zrange_app, omap_app. Qed.

Lemma pos_elems_undef t i n : (forall k, i <= k < i + Z.of_nat n -> pos_undef t k = true) ->
  pos_elems t i n = [].
Proof.
  revert i. induction n as [|n IH]; intros i H; [done|].
  rewrite pos_elems_cons. unfold pos_elem. rewrite H by lia. apply IH. intros. apply H. lia.
Qed.

Lemma pos_elems_ext t t' i n : fl_PACKED t' = fl_PACKED t ->
  (forall k, i <= k < i + Z.of_nat n -> pos_elem t' k = pos_elem t k) -> pos_elems t' i n = pos_elems t i n.
Proof.
  intros Hp. revert i. induction n as [|n IH]; intros i H; [done|].
  rewrite !pos_elems_cons, H, IH by (intros; try apply H; lia). done.
Qed.

(** The elements from a position to the end of the table. *)
Definition elems_from t (i : Z) : list (hkey * zval V) := pos_elems t i (Z.to_nat (nNumUsed t - i)).
Definition elems_below t (i : Z) : list (hkey * zval V) := pos_elems t 0 (Z.to_nat i).

Lemma elems_from_end t i : nNumUsed t <= i -> elems_from t i = [].
Proof. intros. unfold elems_from. by replace (Z.to_nat (nNumUsed t - i)) with 0%nat by lia. Qed.

Lemma elems_from_step t i : i < nNumUsed t ->
  elems_from t i = option_list (pos_elem t i) ++ elems_from t (i + 1).
Proof.
  intros. unfold elems_from. rewrite <- pos_elems_cons. f_equal. lia.
Qed.

Lemma elems_split t i : 0 <= i <= nNumUsed t -> elems t = elems_below t i ++ elems_from t i.
Proof.
  intros Hi. rewrite elems_pos. unfold elems_below, elems_from.
  replace (Z.to_nat (nNumUsed t)) with (Z.to_nat i + Z.to_nat (nNumUsed t - i))%nat by lia.
  rewrite pos_elems_app. do 2 f_equal; lia.
Qed.

(** * Valid positions *)

Lemma valid_pos_loop_spec n : forall t pos, nNumUsed t - pos <= Z.of_nat n ->
  let r := valid_pos_loop n t pos in
  pos <= r /\ (pos <= nNumUsed t -> r <= nNumUsed t) /\
  (forall k, pos <= k < r -> pos_undef t k = true) /\ (r < nNumUsed t -> pos_undef t r = false).
Proof.
  induction n as [|n IH]; intros t pos Hn; cbn [valid_pos_loop].
  - cbn zeta. split; [lia|]. split; [done|]. split; [lia|]. lia.
  - destruct (Z.ltb_spec pos (nNumUsed t)) as [Hlt|Hge]; cbn [andb].
    + destruct (pos_undef t pos) eqn:Hu.
      * destruct (IH t (pos + 1) ltac:(lia)) as (H1 & H2 & H3 & H4). cbn zeta.
        split; [lia|]. split; [intros; apply H2; lia|]. split; [|done].
        intros k Hk. destruct (decide (k = pos)) as [->|]; [done|]. apply H3. lia.
      * cbn zeta. split; [lia|]. split; [lia|]. split; [lia|]. done.
    + cbn zeta. split; [lia|]. split; [done|]. split; [lia|]. lia.
Qed.

Lemma valid_pos_spec t pos : let r := zend_hash_get_valid_pos t pos in
  pos <= r /\ (pos <= nNumUsed t -> r <= nNumUsed t) /\
  (forall k, pos <= k < r -> pos_undef t k = true) /\ (r < nNumUsed t -> pos_undef t r = false).
Proof. apply valid_pos_loop_spec. lia. Qed.

Lemma elems_from_valid t pos : pos <= nNumUsed t ->
  elems_from t pos = elems_from t (zend_hash_get_valid_pos t pos).
Proof.
  intros Hp. destruct (valid_pos_spec t pos) as (H1 & H2 & H3 & _). specialize (H2 Hp).
  set (r := zend_hash_get_valid_pos t pos) in *. unfold elems_from.
  replace (Z.to_nat (nNumUsed t - pos)) with (Z.to_nat (r - pos) + Z.to_nat (nNumUsed t - r))%nat by lia.
  rewrite pos_elems_app, (pos_elems_undef t pos) by (intros; apply H3; lia). cbn [app]. f_equal. lia.
Qed.

Lemma valid_pos_idem t pos : zend_hash_get_valid_pos t (zend_hash_get_valid_pos t pos) = zend_hash_get_valid_pos t pos.
Proof.
  destruct (valid_pos_spec t pos) as (_ & _ & _ & H). set (r := zend_hash_get_valid_pos t pos) in *.
  unfold zend_hash_get_valid_pos. destruct (Z.to_nat (nNumUsed t - r)) eqn:Hn; [done|]. cbn.
  destruct (Z.ltb_spec r (nNumUsed t)); [|done]. by rewrite H.
Qed.

Lemma forward_loop_spec n : forall t idx, nNumUsed t - idx <= Z.of_nat n -> idx < nNumUsed t ->
  elems_from t (forward_loop n t idx) = elems_from t (idx + 1) /\ idx < forward_loop n t idx <= nNumUsed t.
Proof.
  induction n as [|n IH]; intros t idx Hn Hi; cbn [forward_loop]; [lia|].
  destruct (Z.leb_spec (nNumUsed t) (idx + 1)).
  { split; [|lia]. rewrite !elems_from_end; [done|lia|lia]. }
  destruct (pos_undef t (idx + 1)) eqn:Hu; cbn [negb]; [|split; [done|lia]].
  destruct (IH t (idx + 1) ltac:(lia) ltac:(lia)) as [He Hr]. split; [|lia].
  rewrite He, (elems_from_step t (idx + 1)) by lia. unfold pos_elem. by rewrite Hu.
Qed.

(** * Traversal *)

Definition abstract_key (k : current_key) : hkey :=
  match k with
  | HASH_KEY_IS_STRING k => KStr (ZSTR_VAL k)
  | HASH_KEY_IS_LONG h => KInt h
  | HASH_KEY_NON_EXISTENT => KInt 0
  end.

(** The client loop [while ((data = get_current_data(pos))) { ...; move_forward(pos); }]. *)
Fixpoint traverse (n : nat) t w (pos : Z) : option (list (hkey * zval V)) :=
  match zend_hash_get_current_data_ex t pos with
  | None => Some []
  | Some p =>
      match n with
      | O => None
      | S n =>
          l ← traverse n t w (zend_hash_move_forward_ex t pos).1;
          Some ((abstract_key (zend_hash_get_current_key_ex t pos), zload (t, w) p) :: l)
      end
  end.

Lemma current_elem t w pos : let idx := zend_hash_get_valid_pos t pos in idx < nNumUsed t ->
  pos_elem t idx = Some (abstract_key (zend_hash_get_current_key_ex t pos),
                         zload (t, w) (pos_ptr (fl_PACKED t) idx)).
Proof.
  intros idx Hi. destruct (valid_pos_spec t pos) as (_ & _ & _ & Hu). fold idx in Hu.
  unfold pos_elem. rewrite Hu by done. unfold zend_hash_get_current_key_ex. fold idx.
  rewrite (proj2 (Z.ltb_lt _ _) Hi). unfold pos_key, pos_val, pos_ptr, bucket_key.
  destruct (fl_PACKED t); [done|]. by destruct (b_key (bucket t idx)).
Qed.

Lemma traverse_from n : forall t w pos, pos <= nNumUsed t -> nNumUsed t - pos <= Z.of_nat n ->
  traverse n t w pos = Some (elems_from t pos).
Proof.
  induction n as [|n IH]; intros t w pos Hp Hn; rewrite elems_from_valid by done;
    cbn [traverse]; unfold zend_hash_get_current_data_ex;
    destruct (valid_pos_spec t pos) as (H1 & H2 & _ & _); specialize (H2 Hp);
    destruct (Z.ltb_spec (zend_hash_get_valid_pos t pos) (nNumUsed t)) as [Hlt|]; try lia;
    try (by rewrite elems_from_end).
  unfold zend_hash_move_forward_ex. rewrite (proj2 (Z.ltb_lt _ _) Hlt). cbn [fst].
  destruct (forward_loop_spec (Z.to_nat (nNumUsed t - zend_hash_get_valid_pos t pos)) t
    (zend_hash_get_valid_pos t pos) ltac:(lia) Hlt) as [He Hr].
  rewrite IH by lia. cbn [mbind option_bind].
  rewrite He, (elems_from_step t (zend_hash_get_valid_pos t pos)) by done.
  by rewrite (current_elem t w pos Hlt).
Qed.

(** C25: iterating from the reset position with [move_forward] until there is
    no current element visits exactly the elements of the dictionary, in
    order, whatever holes deletions left, and ends. *)
Theorem traverse_forward_correct t w n : 0 <= nNumUsed t -> nNumUsed t <= Z.of_nat n ->
  traverse n t w (zend_hash_internal_pointer_reset_ex t) = Some (elems t).
Proof.
  intros H0 Hn. unfold zend_hash_internal_pointer_reset_ex.
  destruct (valid_pos_spec t 0) as (H1 & H2 & _ & _). specialize (H2 H0).
  rewrite traverse_from by lia. rewrite <- elems_from_valid by done.
  rewrite (elems_split t 0) by lia. done.
Qed.

Lemma last_pos_spec n t :
  match last_pos n t with
  | Some i => 0 <= i < Z.of_nat n /\ pos_undef t i = false /\
      pos_elems t 0 n = elems_below t i ++ option_list (pos_elem t i)
  | None => pos_elems t 0 n = []
  end.
Proof.
  induction n as [|n IH]; cbn [last_pos]; [done|]. rewrite pos_elems_S.
  change (0 + Z.of_nat n) with (Z.of_nat n).
  destruct (pos_undef t (Z.of_nat n)) eqn:Hu.
  - replace (pos_elem t (Z.of_nat n)) with (@None (hkey * zval V)) by (unfold pos_elem; by rewrite Hu).
    cbn [option_list option_rect]. rewrite app_nil_r.
    destruct (last_pos n t); [|done]. destruct IH as (? & ? & ?). split; [lia|done].
  - split; [lia|]. split; [done|]. unfold elems_below. by rewrite Nat2Z.id.
Qed.

(** The backward client loop. *)
Fixpoint traverse_back (n : nat) t w (pos : Z) : option (list (hkey * zval V)) :=
  match zend_hash_get_current_data_ex t pos with
  | None => Some []
  | Some p =>
      match n with
      | O => None
      | S n =>
          l ← traverse_back n t w (zend_hash_move_backwards_ex t pos).1;
          Some ((abstract_key (zend_hash_get_current_key_ex t pos), zload (t, w) p) :: l)
      end
  end.

Lemma valid_pos_defined t pos : pos_undef t pos = false -> zend_hash_get_valid_pos t pos = pos.
Proof.
  intros Hu. unfold zend_hash_get_valid_pos. destruct (Z.to_nat _); [done|]. cbn.
  rewrite Hu. by rewrite andb_false_r.
Qed.

Lemma traverse_back_end n t w : traverse_back n t w (nNumUsed t) = Some [].
Proof.
  assert (zend_hash_get_current_data_ex t (nNumUsed t) = None) as Hd.
  { unfold zend_hash_get_current_data_ex. destruct (valid_pos_spec t (nNumUsed t)) as (H1 & _).
    by rewrite (proj2 (Z.ltb_ge _ _) H1). }
  destruct n; cbn [traverse_back]; by rewrite Hd.
Qed.

Lemma traverse_back_from n : forall t w m, (m <= n)%nat -> Z.of_nat m <= nNumUsed t ->
  traverse_back n t w (default (nNumUsed t) (last_pos m t)) = Some (reverse (pos_elems t 0 m)).
Proof.
  induction n as [|n IH]; intros t w m Hm Hu; pose proof (last_pos_spec m t) as Hl;
    destruct (last_pos m t) as [i|]; cbn [default]; try (rewrite Hl; apply traverse_back_end).
  - lia.
  - destruct Hl as (Hi & Hd & ->). unfold id. cbn [traverse_back]. unfold zend_hash_get_current_data_ex.
    pose proof (valid_pos_defined t i Hd) as Hv. rewrite Hv. rewrite (proj2 (Z.ltb_lt _ _)) by lia.
    unfold zend_hash_move_backwards_ex. rewrite (proj2 (Z.ltb_lt _ _)) by lia. cbn [fst].
    rewrite IH by lia. cbn [mbind option_bind].
    pose proof (current_elem t w i) as Hc. rewrite Hv in Hc. rewrite Hc by lia.
    cbn [option_list option_rect]. by rewrite reverse_snoc.
Qed.

(** iterating from the end position with [move_backwards] visits the
    elements in reverse order, and ends. *)
Theorem traverse_backward_correct t w n : 0 <= nNumUsed t -> nNumUsed t <= Z.of_nat n ->
  traverse_back n t w (zend_hash_internal_pointer_end_ex t) = Some (reverse (elems t)).
Proof.
  intros H0 Hn. rewrite elems_pos. apply traverse_back_from; lia.
Qed.

(** * Destruction of all elements *)

Lemma count_elems t : repr_ok t -> nNumOfElements t = llen (elems t).
Proof.
  intros [Hu|[Hp|Hm]].
  - rewrite elems_uninit by done. apply Hu.
  - apply Hp.
  - rewrite elems_mixed by apply Hm. unfold llen. rewrite length_fmap. apply (do_count _ (mx_data _ Hm)).
Qed.

Lemma used_nonneg t : repr_ok t -> 0 <= nNumUsed t.
Proof.
  intros [Hu|[Hp|Hm]]; [rewrite (un_used _ Hu); lia|apply Hp|apply (do_used _ (mx_data _ Hm))].
Qed.

Lemma pos_elems_length t i n : (length (pos_elems t i n) <= n)%nat.
Proof. unfold pos_elems. etrans; [apply length_omap_le|]. by rewrite length_zrange. Qed.

Lemma pos_elems_full t n : forall i, length (pos_elems t i n) = n ->
  forall k, i <= k < i + Z.of_nat n -> pos_undef t k = false.
Proof.
  induction n as [|n IH]; intros i Hl k Hk; [lia|]. rewrite pos_elems_cons, length_app in Hl.
  pose proof (pos_elems_length t (i + 1) n) as Hle. unfold pos_elem in Hl.
  destruct (pos_undef t i) eqn:Hu; cbn in Hl; [lia|].
  destruct (decide (k = i)) as [->|]; [done|]. apply (IH (i + 1)); lia.
Qed.

(** A table without holes has no undefined position. *)
Lemma without_holes_live t : repr_ok t -> HT_IS_WITHOUT_HOLES t = true ->
  forall k, 0 <= k < nNumUsed t -> pos_undef t k = false.
Proof.
  intros Hr Hh%Z.eqb_eq k Hk. pose proof (count_elems t Hr) as Hc. rewrite elems_pos in Hc.
  apply (pos_elems_full t (Z.to_nat (nNumUsed t)) 0); unfold llen in *; lia.
Qed.

(** Events of the destruction of the element at a position. *)
Definition destroy_at t (i : Z) : list (event V) :=
  if pos_undef t i then [] else
    EvDtor (pos_val t i) :: (if fl_PACKED t || HT_HAS_STATIC_KEYS_ONLY t then [] else release_events (bucket t i)).

Definition destroy_events t (i : Z) (n : nat) : list (event V) := zrange i n ≫= destroy_at t.

Lemma destroy_events_cons t i n : destroy_events t i (S n) = destroy_at t i ++ destroy_events t (i + 1) n.
Proof. unfold destroy_events. by rewrite zrange_cons. Qed.

Lemma dtor_packed_events t check n : forall i w, fl_PACKED t = true ->
  (check = false -> forall k, i <= k < i + Z.of_nat n -> pos_undef t k = false) ->
  slots (dtor_packed n i check t w) = slots w /\
  trace (dtor_packed n i check t w) = trace w ++ destroy_events t i n.
Proof.
  induction n as [|n IH]; intros i w Hp Hc; [by cbn; rewrite app_nil_r|]. cbn [dtor_packed].
  rewrite destroy_events_cons. unfold destroy_at. rewrite Hp. cbn [orb].
  destruct (pos_undef t i) eqn:Hu; pose proof Hu as Hu'; unfold pos_undef in Hu'; rewrite Hp in Hu'; rewrite Hu'.
  - destruct check; [|by rewrite Hc in Hu by lia]. cbn [andb app]. apply IH; [done|]. done.
  - rewrite andb_false_r. destruct (IH (i + 1) (emit (EvDtor (packed t i)) w) Hp) as [-> ->].
    { intros H k Hk. apply Hc; [done|lia]. }
    split; [done|]. unfold pos_val. rewrite Hp. cbn. by rewrite <- app_assoc.
Qed.

Lemma dtor_buckets_events t check keys n : forall i w, fl_PACKED t = false ->
  keys = negb (HT_HAS_STATIC_KEYS_ONLY t) ->
  (check = false -> forall k, i <= k < i + Z.of_nat n -> pos_undef t k = false) ->
  slots (dtor_buckets n i check keys t w) = slots w /\
  trace (dtor_buckets n i check keys t w) = trace w ++ destroy_events t i n.
Proof.
  intros i w Hp Hk. revert i w. induction n as [|n IH]; intros i w Hc; [by cbn; rewrite app_nil_r|].
  cbn [dtor_buckets]. rewrite destroy_events_cons. unfold destroy_at. rewrite Hp. cbn [orb].
  destruct (pos_undef t i) eqn:Hu; pose proof Hu as Hu'; unfold pos_undef in Hu'; rewrite Hp in Hu'; rewrite Hu'.
  - destruct check; [|by rewrite Hc in Hu by lia]. cbn [andb app]. apply IH. done.
  - rewrite andb_false_r. set (w1 := if keys then _ else _).
    destruct (IH (i + 1) w1) as [-> ->]. { intros H k Hkr. apply Hc; [done|lia]. }
    assert (slots w1 = slots w /\ trace w1 = trace w ++ EvDtor (b_val (bucket t i)) ::
      (if HT_HAS_STATIC_KEYS_ONLY t then [] else release_events (bucket t i))) as [-> ->].
    { unfold w1, release_string, release_events. rewrite Hk.
      destruct (HT_HAS_STATIC_KEYS_ONLY t), (b_key (bucket t i)); cbn; rewrite <- ?app_assoc; done. }
    split; [done|]. unfold pos_val. rewrite Hp. by rewrite <- !app_assoc.
Qed.

(** The values destroyed and the keys released by a list of events. *)
Definition destroyed_values (l : list (event V)) : list (zval V) :=
  omap (fun e => match e with EvDtor v => Some v | _ => None end) l.
Definition released_keys (l : list (event V)) : list (list Z) :=
  omap (fun e => match e with EvRelease k => Some (ZSTR_VAL k) | _ => None end) l.
Definition string_keys (d : list (hkey * zval V)) : list (list Z) :=
  omap (fun e => match e.1 with KStr s => Some s | KInt _ => None end) d.

Lemma destroyed_values_all t n : forall i,
  destroyed_values (destroy_events t i n) = (pos_elems t i n).*2.
Proof.
  induction n as [|n IH]; intros i; [done|]. rewrite destroy_events_cons, pos_elems_cons.
  unfold destroyed_values in *. rewrite omap_app, fmap_app, IH. f_equal.
  unfold destroy_at, pos_elem, release_events.
  destruct (pos_undef t i); [done|]. destruct (_ || _); [done|]. by destruct (b_key (bucket t i)).
Qed.

Lemma released_keys_all t n : fl_PACKED t = false -> HT_HAS_STATIC_KEYS_ONLY t = false -> forall i,
  released_keys (destroy_events t i n) = string_keys (pos_elems t i n).
Proof.
  intros Hp Hs. induction n as [|n IH]; intros i; [done|]. rewrite destroy_events_cons, pos_elems_cons.
  unfold released_keys, string_keys in *. rewrite !omap_app, IH. f_equal.
  unfold destroy_at, pos_elem, pos_key, bucket_key, release_events. rewrite Hp, Hs. cbn [orb].
  destruct (pos_undef t i); [done|]. by destruct (b_key (bucket t i)).
Qed.

Lemma destroy_buckets_events t w : repr_ok t -> fl_PACKED t = false -> pDestructor t = true ->
  slots (destroy_buckets t w) = slots w /\
  trace (destroy_buckets t w) = trace w ++ destroy_events t 0 (Z.to_nat (nNumUsed t)).
Proof.
  intros Hr Hp Hd. unfold destroy_buckets. rewrite Hd. apply dtor_buckets_events; [done|done|].
  intros Hh%negb_false_iff k Hk. apply without_holes_live; [done|done|].
  pose proof (used_nonneg t Hr). lia.
Qed.

Lemma destroy_packed_events t w : repr_ok t -> fl_PACKED t = true -> pDestructor t = true ->
  slots (destroy_packed t w) = slots w /\
  trace (destroy_packed t w) = trace w ++ destroy_events t 0 (Z.to_nat (nNumUsed t)).
Proof.
  intros Hr Hp Hd. unfold destroy_packed. rewrite Hd. apply dtor_packed_events; [done|].
  intros Hh%negb_false_iff k Hk. apply without_holes_live; [done|done|].
  pose proof (used_nonneg t Hr). lia.
Qed.

(** A cleaned table is empty and well-formed. *)
Lemma clean_packed_ok t : packed_ok t -> packed_ok (clean_fields t) /\ elems (clean_fields t) = [].
Proof.
  intros Hp. pose proof (size_ok_bounds _ (pk_size _ Hp)) as Hb.
  assert (elems (clean_fields t) = []) as He by (by rewrite elems_pos).
  split; [|done]. destruct Hp. split; try done; cbn; [lia|by rewrite He].
Qed.

Lemma clean_mixed_ok t : mixed_ok t ->
  mixed_ok (clean_fields (HT_HASH_RESET t)) /\ elems (clean_fields (HT_HASH_RESET t)) = [].
Proof.
  intros Hm. pose proof (mx_data _ Hm) as Hd. pose proof (size_ok_bounds _ (do_size _ Hd)) as Hb.
  pose proof (ao_hash _ (reset_areas t Hd)) as Ha.
  split; [|by rewrite elems_pos]. split; [|exact Ha|].
  - destruct Hd. split; try done; cbn; try lia; apply NoDup_nil_2.
  - pose proof (linked_reset t (mask_pos t Hd)) as Hl. done.
Qed.

Lemma clean_uninit_ok t : uninit_ok t -> uninit_ok (clean_fields t) /\ elems (clean_fields t) = [].
Proof. intros Hu. split; [|by rewrite elems_pos]. destruct Hu. by split. Qed.

Lemma next_free_empty t : elems t = [] -> nNextFreeElement t = ZEND_LONG_MIN -> next_free_ok t.
Proof. intros He Hn. split; [rewrite Hn; done|]. intros h. rewrite He. set_solver. Qed.

(** [zend_hash_clean] leaves an empty well-formed table that will number
    its elements from 0 again, after destroying every value exactly once in
    order and, unless all keys are static, releasing every string key once. *)
Theorem zend_hash_clean_correct t w : wf t -> pDestructor t = true ->
  exists t' w' evs, zend_hash_clean (t, w) = (t', w') /\ wf t' /\ elems t' = [] /\
    nInternalPointer t' = 0 /\ next_key t' = 0 /\ slots w' = slots w /\ trace w' = trace w ++ evs /\
    destroyed_values evs = (elems t).*2 /\
    (fl_PACKED t = false -> HT_HAS_STATIC_KEYS_ONLY t = false -> released_keys evs = string_keys (elems t)).
Proof.
  intros [Hr _] Hd. unfold zend_hash_clean.
  assert (exists t1 w1, (if negb (nNumUsed t =? 0) then
      if fl_PACKED t then (t, destroy_packed t w) else (HT_HASH_RESET t, destroy_buckets t w)
    else (t, w)) = (t1, w1) /\ repr_ok (clean_fields t1) /\ slots w1 = slots w /\
    trace w1 = trace w ++ destroy_events t 0 (Z.to_nat (nNumUsed t))) as (t1 & w1 & -> & Hok & Hs & Htr).
  { destruct (Z.eqb_spec (nNumUsed t) 0) as [Hz|Hnz]; cbn [negb].
    - exists t, w. split; [done|]. split; [|rewrite Hz; cbn; by rewrite app_nil_r].
      destruct Hr as [Hu|[Hp|Hm]]; [by left; apply clean_uninit_ok|by right; left; apply clean_packed_ok|].
      right; right. pose proof (mx_data _ Hm) as Hda. pose proof (size_ok_bounds _ (do_size _ Hda)).
      split; [destruct Hda; split; try done; cbn; try lia; apply NoDup_nil_2|apply Hm|].
      pose proof (mx_linked _ Hm) as Hl. rewrite Hz in Hl. exact Hl.
    - destruct (fl_PACKED t) eqn:Hp.
      + destruct (destroy_packed_events t w Hr Hp Hd). eexists _, _. split; [done|]. split; [|done].
        destruct Hr as [Hu|[Hpk|Hm]]; [by rewrite (un_packed _ Hu) in Hp|by right; left; apply clean_packed_ok|].
        by rewrite (do_packed _ (mx_data _ Hm)) in Hp.
      + destruct (destroy_buckets_events t w Hr Hp Hd). eexists _, _. split; [done|]. split; [|done].
        destruct Hr as [Hu|[Hpk|Hm]]; [by rewrite (un_used _ Hu) in Hnz|by rewrite (pk_packed _ Hpk) in Hp|].
        right; right. by apply clean_mixed_ok. }
  assert (elems (clean_fields t1) = []) as He by (by rewrite elems_pos).
  eexists _, _, _. split; [done|]. split; [split; [done|by apply next_free_empty]|].
  do 3 (split; [done|]). split; [done|]. split; [exact Htr|].
  rewrite destroyed_values_all, <- elems_pos. split; [done|]. intros Hp Hst.
  by rewrite released_keys_all, <- elems_pos.
Qed.

(** * Deleting at a position *)

Definition dtor_values (dtor : bool) (l : list (zval V)) : list (zval V) := if dtor then l else [].

Lemma pos_undef_live t i : fl_PACKED t = false -> pos_undef t i = negb (live t i).
Proof. intros Hp. unfold pos_undef, live. rewrite Hp. by rewrite negb_involutive. Qed.

Lemma pos_elem_content t t' j : fl_PACKED t = false -> fl_PACKED t' = false ->
  content (bucket t' j) = content (bucket t j) -> pos_elem t' j = pos_elem t j.
Proof.
  intros Hp Hp' [= Hv Hh Hk]. unfold pos_elem, pos_undef, pos_key, pos_val, bucket_key.
  by rewrite Hp, Hp', Hv, Hh, Hk.
Qed.

Lemma pos_elem_packed t t' j : fl_PACKED t = true -> fl_PACKED t' = true ->
  packed t' j = packed t j -> pos_elem t' j = pos_elem t j.
Proof. intros Hp Hp' Hv. unfold pos_elem, pos_undef, pos_key, pos_val. by rewrite Hp, Hp', Hv. Qed.

(** What deletion at a position does, for both layouts. *)
Record removed_at (t : HashTable V) (w : EG V) (i : Z) (t' : HashTable V) (w' : EG V) : Prop := {
  ra_wf : wf t';
  ra_packed : fl_PACKED t' = fl_PACKED t;
  ra_dtor : pDestructor t' = pDestructor t;
  ra_used : 0 <= nNumUsed t' <= nNumUsed t;
  ra_self : pos_elem t' i = None;
  ra_old : forall j, 0 <= j -> j <> i -> pos_elem t' j = pos_elem t j;
  ra_dead : forall j, nNumUsed t' <= j < nNumUsed t -> pos_elem t' j = None;
  ra_trace : exists evs, trace w' = trace w ++ evs /\
    destroyed_values evs = dtor_values (pDestructor t) [pos_val t i]
}.

Lemma pos_elem_undef t i : pos_undef t i = true -> pos_elem t i = None.
Proof. intros H. unfold pos_elem. by rewrite H. Qed.

Lemma del_pos_spec i t w : wf t -> 0 <= i < nNumUsed t -> pos_undef t i = false ->
  exists t' w', del_pos (fl_PACKED t) i (t, w) = (t', w') /\ removed_at t w i t' w'.
Proof.
  intros Hwf Hi Hun. destruct (proj1 Hwf) as [Hu|[Hp|Hm]]; [rewrite (un_used _ Hu) in Hi; lia| |].
  - pose proof (pk_packed _ Hp) as Hpk. rewrite Hpk. cbn [del_pos].
    pose proof Hun as Hl. unfold pos_undef in Hl. rewrite Hpk in Hl.
    pose proof (packed_del_ok i t w Hwf Hp Hi Hl) as (Hwf' & _ & _ & _).
    destruct (packed_del_removed i t w Hp Hi) as (t' & w' & Heq & Hrm & _ & Htr). rewrite Heq in *.
    exists t', w'. split; [done|]. pose proof (pr_packed _ _ _ Hrm) as Hpk'. rewrite Hpk in Hpk'.
    destruct Hrm. split; try done; try congruence.
    + apply pos_elem_undef. unfold pos_undef. by rewrite Hpk'.
    + intros j Hj Hji. apply pos_elem_packed; [done|done|]. by apply pr_old.
    + intros j Hj. apply pos_elem_undef. unfold pos_undef. rewrite Hpk'.
      destruct (decide (j = i)) as [->|]; [done|]. rewrite pr_old by lia. by apply pr_dead.
    + eexists. split; [done|]. unfold dtor_events, dtor_values, pos_val. rewrite Hpk. by destruct (pDestructor t).
  - pose proof (mx_data _ Hm) as Hd. pose proof (do_packed _ Hd) as Hpk. rewrite Hpk. cbn [del_pos].
    pose proof Hun as Hl. rewrite pos_undef_live in Hl by done. apply negb_false_iff in Hl.
    assert (holds t i (bucket_key (bucket t i))) as Hh by done.
    destruct (del_el_prev i _ t w Hm Hh) as (prev & l1 & l2 & Heq & Hcl & Hpr).
    pose proof (del_bucket_ok i prev _ t w l1 l2 Hwf Hm Hh Hcl Hpr) as (Hwf' & _ & _ & _).
    rewrite Heq. destruct (del_el_ex_removed i prev _ t w Hm Hh) as (t' & w' & Heq' & Hrm & _ & Htr).
    { intros p Hp. apply (prev_valid t i _ l1 l2 Hcl). congruence. }
    rewrite Heq' in *. exists t', w'. split; [done|]. pose proof (rm_packed _ _ _ _ Hrm) as Hpk'. rewrite Hpk in Hpk'.
    destruct Hrm. split; try done; try congruence.
    + apply pos_elem_undef. by rewrite pos_undef_live, rm_undef.
    + intros j Hj Hji. apply pos_elem_content; [done|done|]. by apply rm_old.
    + intros j Hj. apply pos_elem_undef. rewrite pos_undef_live by done.
      destruct (decide (j = i)) as [->|]; [by rewrite rm_undef|].
      rewrite (content_live t t'), rm_dead; [done|lia|done|]. apply rm_old; [lia|done].
    + eexists. split; [done|]. unfold release_events, dtor_events, dtor_values, pos_val. rewrite Hpk.
      destruct (b_key (bucket t i)); by destruct (pDestructor t).
Qed.

(** The elements before a position, that may lie beyond the end. *)
Definition elems_before t (i : Z) : list (hkey * zval V) :=
  pos_elems t 0 (Z.to_nat (Z.min i (nNumUsed t))).

Lemma elems_before_from t i : 0 <= i -> 0 <= nNumUsed t -> elems t = elems_before t i ++ elems_from t i.
Proof.
  intros Hi Hu. unfold elems_before. destruct (Z.leb_spec i (nNumUsed t)).
  - replace (Z.min i (nNumUsed t)) with i by lia. apply elems_split. lia.
  - replace (Z.min i (nNumUsed t)) with (nNumUsed t) by lia.
    rewrite elems_from_end by lia. by rewrite app_nil_r, elems_pos.
Qed.

Lemma pos_elems_none t i n : (forall k, i <= k < i + Z.of_nat n -> pos_elem t k = None) -> pos_elems t i n = [].
Proof.
  revert i. induction n as [|n IH]; intros i H; [done|].
  rewrite pos_elems_cons, H by lia. apply IH. intros. apply H. lia.
Qed.

Lemma removed_at_elems t w i t' w' : removed_at t w i t' w' -> 0 <= i < nNumUsed t ->
  elems_before t' (i + 1) = elems_before t i /\ elems_from t' (i + 1) = elems_from t (i + 1).
Proof.
  intros [_ Hpk _ Hu Hs Ho Hd _] Hi.
  assert (forall a n m, (n <= m)%nat -> nNumUsed t' <= a + Z.of_nat n -> a + Z.of_nat m <= nNumUsed t -> 
    pos_elems t' a n = pos_elems t' a m) as Hcut.
  { intros a n m Hnm Hn Hm. replace m with (n + (m - n))%nat by lia. rewrite pos_elems_app.
    rewrite (pos_elems_none t' (a + Z.of_nat n)); [by rewrite app_nil_r|]. intros k Hk. apply Hd. lia. }
  split.
  - unfold elems_before. replace (Z.min i (nNumUsed t)) with i by lia.
    assert (pos_elems t' 0 (Z.to_nat (Z.min (i + 1) (nNumUsed t'))) = pos_elems t' 0 (S (Z.to_nat i))) as ->.
    { destruct (Z.leb_spec (i + 1) (nNumUsed t')).
      - f_equal. lia.
      - apply Hcut; lia. }
    rewrite pos_elems_S. replace (0 + Z.of_nat (Z.to_nat i)) with i by lia. rewrite Hs.
    cbn [option_list option_rect]. rewrite app_nil_r. apply pos_elems_ext; [done|]. intros k Hk. apply Ho; lia.
  - unfold elems_from. assert (pos_elems t' (i + 1) (Z.to_nat (nNumUsed t' - (i + 1))) =
      pos_elems t' (i + 1) (Z.to_nat (nNumUsed t - (i + 1)))) as -> by (apply Hcut; lia).
    apply pos_elems_ext; [done|]. intros k Hk. apply Ho; lia.
Qed.

(** * Apply with a decision on the value *)

Section Apply.
Variable d : zval V -> Z.

(** What remains of a dictionary, and the values removed from it. *)
Fixpoint apply_dict (l : list (hkey * zval V)) : list (hkey * zval V) :=
  match l with
  | [] => []
  | (k, v) :: l =>
      let rest := if has_flag (d v) ZEND_HASH_APPLY_STOP then l else apply_dict l in
      if has_flag (d v) ZEND_HASH_APPLY_REMOVE then rest else (k, v) :: rest
  end.

Fixpoint apply_removed (l : list (hkey * zval V)) : list (zval V) :=
  match l with
  | [] => []
  | (_, v) :: l =>
      let rest := if has_flag (d v) ZEND_HASH_APPLY_STOP then [] else apply_removed l in
      if has_flag (d v) ZEND_HASH_APPLY_REMOVE then v :: rest else rest
  end.

Variable cb : Z -> state V -> state V * Z.
Variable pckd : bool.
Hypothesis cb_pure : forall i s, fl_PACKED s.1 = pckd -> cb i s = (s, d (pos_val s.1 i)).

Definition applied t w i t' w' : Prop :=
  wf t' /\ elems t' = elems_before t i ++ apply_dict (elems_from t i) /\
  exists evs, trace w' = trace w ++ evs /\
    destroyed_values evs = dtor_values (pDestructor t) (apply_removed (elems_from t i)).

Lemma dtor_values_app dt l1 l2 : dtor_values dt (l1 ++ l2) = dtor_values dt l1 ++ dtor_values dt l2.
Proof. by destruct dt. Qed.

Lemma elems_before_snoc t i : 0 <= i < nNumUsed t ->
  elems_before t (i + 1) = elems_before t i ++ option_list (pos_elem t i).
Proof.
  intros Hi. unfold elems_before. replace (Z.to_nat (Z.min (i + 1) (nNumUsed t))) with (S (Z.to_nat i)) by lia.
  rewrite pos_elems_S. replace (0 + Z.of_nat (Z.to_nat i)) with i by lia. by rewrite Z.min_l by lia.
Qed.

(** One turn, on an element that is kept. *)
Lemma applied_keep t w i t' w' : 0 <= i < nNumUsed t ->
  (pos_undef t i = true \/ has_flag (d (pos_val t i)) ZEND_HASH_APPLY_REMOVE = false /\
     has_flag (d (pos_val t i)) ZEND_HASH_APPLY_STOP = false) ->
  applied t w (i + 1) t' w' -> applied t w i t' w'.
Proof.
  intros Hi Hc (Hwf & He & evs & Htr & Hev). split; [done|]. rewrite elems_from_step by lia.
  rewrite elems_before_snoc in He by done. unfold pos_elem in *.
  destruct (pos_undef t i).
  - cbn [option_list option_rect app] in *. rewrite app_nil_r in He. split; [done|]. by exists evs.
  - destruct Hc as [|[Hr Hst]]; [done|]. cbn [option_list option_rect app apply_dict apply_removed] in *.
    rewrite Hr, Hst. rewrite <- app_assoc in He. split; [done|]. by exists evs.
Qed.

Lemma apply_loop_spec n : forall i t w, wf t -> fl_PACKED t = pckd -> 0 <= i ->
  nNumUsed t - i <= Z.of_nat n ->
  exists t' w', apply_loop cb n pckd i (t, w) = Some (t', w') /\ applied t w i t' w'.
Proof.
  induction n as [|n IH]; intros i t w Hwf Hp Hi Hn; cbn [apply_loop fst];
    pose proof (used_nonneg t (proj1 Hwf)) as Hu;
    (destruct (Z.ltb_spec i (nNumUsed t)) as [Hlt|Hge]; [|
      exists t, w; split; [done|]; split; [done|]; rewrite elems_from_end by done;
      split; [rewrite (elems_before_from t i), elems_from_end by done; done|];
      exists []; rewrite app_nil_r; split; [done|]; by destruct (pDestructor t)]); [lia|].
  assert (undef_at pckd t i = pos_undef t i) as ->
    by (unfold undef_at, pos_undef; rewrite Hp; by destruct pckd).
  destruct (pos_undef t i) eqn:Hun.
  { destruct (IH (i + 1) t w Hwf Hp ltac:(lia) ltac:(lia)) as (t' & w' & Heq & Ha).
    exists t', w'. split; [done|]. apply applied_keep; [lia|by left|done]. }
  rewrite cb_pure by done. cbn [fst].
  assert (elems_from t i = (pos_key t i, pos_val t i) :: elems_from t (i + 1)) as Hfrom
    by (rewrite elems_from_step by done; unfold pos_elem; by rewrite Hun).
  destruct (has_flag (d (pos_val t i)) ZEND_HASH_APPLY_REMOVE) eqn:Hrm.
  - destruct (del_pos_spec i t w Hwf ltac:(lia) Hun) as (t1 & w1 & Heq & Hra). rewrite Hp in Heq. rewrite Heq.
    destruct (removed_at_elems t w i t1 w1 Hra ltac:(lia)) as [Hb Hf].
    destruct (ra_trace _ _ _ _ _ Hra) as (evs1 & Htr1 & Hev1).
    pose proof (ra_used _ _ _ _ _ Hra) as Hu1.
    destruct (has_flag (d (pos_val t i)) ZEND_HASH_APPLY_STOP) eqn:Hst.
    + exists t1, w1. split; [done|]. split; [apply Hra|]. rewrite Hfrom. cbn [apply_dict apply_removed].
      rewrite Hrm, Hst. split; [rewrite (elems_before_from t1 (i + 1)) by lia; congruence|]. by exists evs1.
    + destruct (IH (i + 1) t1 w1) as (t' & w' & Heq' & Hwf' & He' & evs & Htr & Hev);
        [apply Hra|rewrite <- Hp; apply Hra|lia|lia|].
      exists t', w'. split; [done|]. split; [done|]. rewrite Hfrom. cbn [apply_dict apply_removed].
      rewrite Hrm, Hst. rewrite <- Hb, <- Hf. split; [done|]. exists (evs1 ++ evs).
      split; [by rewrite Htr, Htr1, app_assoc|]. unfold destroyed_values in *. rewrite omap_app, Hev1, Hev.
      rewrite (ra_dtor _ _ _ _ _ Hra). by rewrite <- dtor_values_app.
  - destruct (has_flag (d (pos_val t i)) ZEND_HASH_APPLY_STOP) eqn:Hst.
    + exists t, w. split; [done|]. split; [done|]. rewrite Hfrom. cbn [apply_dict apply_removed].
      rewrite Hrm, Hst. split; [rewrite (elems_before_from t i), Hfrom by lia; done|].
      exists []. rewrite app_nil_r. split; [done|]. by destruct (pDestructor t).
    + destruct (IH (i + 1) t w Hwf Hp ltac:(lia) ltac:(lia)) as (t' & w' & Heq & Ha).
      exists t', w'. split; [done|]. apply applied_keep; [lia|by right|done].
Qed.

End Apply.

(** [zend_hash_apply] with a callback that decides on the value filters
    the dictionary: exactly the elements marked REMOVE before the first STOP
    (that one included) are deleted and destroyed, the others keep their
    order; at most [nNumUsed] turns are made although deletion moves the fill
    mark. *)
Theorem zend_hash_apply_correct n apply_func d t w :
  wf t -> nNumUsed t <= Z.of_nat n -> (forall p s, apply_func p s = (s, d (zload s p))) ->
  exists t' w', zend_hash_apply n apply_func (t, w) = Some (t', w') /\
    wf t' /\ elems t' = apply_dict d (elems t) /\
    exists evs, trace w' = trace w ++ evs /\
      destroyed_values evs = dtor_values (pDestructor t) (apply_removed d (elems t)).
Proof.
  intros Hwf Hn Hf. pose proof (used_nonneg t (proj1 Hwf)) as Hu.
  destruct (apply_loop_spec d (fun idx => apply_func (pos_ptr (fl_PACKED t) idx)) (fl_PACKED t)) with
    (n := n) (i := 0) (t := t) (w := w) as (t' & w' & Heq & Hwf' & He & Hev); try done; try lia.
  { intros i [t0 w0] Hp. cbn [fst] in *. rewrite Hf. unfold pos_val, pos_ptr. rewrite Hp. by destruct (fl_PACKED t). }
  exists t', w'. split; [exact Heq|]. split; [done|].
  assert (elems_from t 0 = elems t) as H0 by (rewrite (elems_before_from t 0) by lia; by unfold elems_before; rewrite Z.min_l by lia).
  rewrite H0 in *. split; [|done]. rewrite He. unfold elems_before. by rewrite Z.min_l by lia.
Qed.

(** * Lists *)

Lemma is_list_loop_spec t n : forall i e, 0 <= e -> e + Z.of_nat n < 2 ^ 64 ->
  is_list_loop n t i e = true <->
  (pos_elems t i n).*1 = KInt <$> zrange e (length (pos_elems t i n)).
Proof.
  induction n as [|n IH]; intros i e He Hn; [done|]. cbn [is_list_loop]. rewrite pos_elems_cons.
  unfold pos_elem. destruct (pos_undef t i) eqn:Hu; cbn [option_list option_rect app]; [apply IH; lia|].
  cbn [length]. rewrite zrange_cons, !fmap_cons. cbn [fst].
  assert (key_at t i = (match pos_key t i with KInt h => h | KStr _ => b_h (bucket t i) end,
    match pos_key t i with KInt _ => None | KStr _ => b_key (bucket t i) end)) as ->.
  { unfold key_at, pos_key, bucket_key. destruct (fl_PACKED t); [done|]. by destruct (b_key (bucket t i)). }
  destruct (pos_key t i) as [h|k] eqn:Hk; cbn [orb].
  - destruct (Z.eqb_spec h e) as [->|Hne]; cbn [negb orb].
    + rewrite u64_small by lia. rewrite IH by lia. split; [by intros ->|congruence].
    + split; [done|]. intros [= ? _]. done.
  - assert (exists k', b_key (bucket t i) = Some k') as [k' ->].
    { unfold pos_key, bucket_key in Hk. destruct (fl_PACKED t); [done|]. destruct (b_key (bucket t i)); eauto. done. }
    cbn [orb]. split; [done|]. intros [= ?].
Qed.

Lemma used_bound t : repr_ok t -> nNumUsed t <= HT_MAX_SIZE.
Proof.
  intros [Hu|[Hp|Hm]]; [by rewrite (un_used _ Hu)| |].
  - pose proof (pk_used _ Hp). pose proof (size_ok_bounds _ (pk_size _ Hp)). lia.
  - pose proof (do_used _ (mx_data _ Hm)). pose proof (size_ok_bounds _ (do_size _ (mx_data _ Hm))). lia.
Qed.

(** [zend_array_is_list] holds exactly when the keys are 0, 1, ..., n-1 in
    this order, in every representation (packed with or without holes, hashed). *)
Theorem zend_array_is_list_correct t : repr_ok t ->
  zend_array_is_list t = true <-> (elems t).*1 = KInt <$> zrange 0 (length (elems t)).
Proof.
  intros Hr. pose proof (count_elems t Hr) as Hc. pose proof (used_bound t Hr) as Hb.
  pose proof (used_nonneg t Hr) as Hu. unfold HT_MAX_SIZE in Hb. unfold zend_array_is_list.
  destruct (Z.eqb_spec (nNumOfElements t) 0) as [Hz|_].
  { rewrite Hc in Hz. unfold llen in Hz. split; [|done]. intros _. by destruct (elems t). }
  rewrite elems_pos. destruct (fl_PACKED t && HT_IS_WITHOUT_HOLES t) eqn:Hp; [|apply is_list_loop_spec; lia].
  apply andb_true_iff in Hp as [Hp Hh]. split; [intros _|done].
  pose proof (without_holes_live t Hr Hh) as Hl.
  assert (forall n i, 0 <= i -> i + Z.of_nat n <= nNumUsed t -> (pos_elems t i n).*1 = KInt <$> zrange i n) as Hk.
  { induction n as [|n IH]; intros i Hi Hn; [done|]. rewrite pos_elems_cons, zrange_cons, fmap_app, IH by lia.
    unfold pos_elem, pos_key. rewrite Hl by lia. by rewrite Hp. }
  rewrite Hk by lia. rewrite <- (length_fmap fst), Hk, length_fmap, length_zrange by lia. done.
Qed.

End Traverse.
