(* ===== verification/HashSymtable.v ===== *)
(** Symbol tables (Zend/zend_hash.h, Zend/zend_hash.c): the wrappers that store
    integer-like string keys as integer keys, lookup through [IS_INDIRECT]
    values, and the conversions between symbol and property tables. *)

From stdpp Require Import base numbers list gmap.
From S2P Require Import Prelude ZendTypes NumericStr HashTable HashDict HashChain HashInv.
From S2P Require Import HashRehash HashFind HashAdd HashIndex HashDel.

Section Symtable.
Context {V : Type} {E : ZEnv V}.
Implicit Types (t : HashTable V) (w : EG V) (b : Bucket V) (v : zval V) (key : Z) (str : list Z).

(** [ZEND_HANDLE_NUMERIC(key, idx)] *)
Definition ZEND_HANDLE_NUMERIC (key : Z) : option Z := zend_handle_numeric_str (ZSTR_VAL key).

(** * Lookup through [IS_INDIRECT] *)

(** [(zv && Z_TYPE_P(zv) == IS_INDIRECT) ? (slot defined ? slot : NULL) : zv] *)
Definition find_ind_result t w (zv : option zptr) : option zptr :=
  match zv with
  | Some p =>
      match zload (t, w) p with
      | IS_INDIRECT a => if negb (Z_ISUNDEF (slot w a)) then Some (PSlot a) else None
      | _ => Some p
      end
  | None => None
  end.

Definition zend_hash_find_ind t w key : option zptr := find_ind_result t w (zend_hash_find t key).
Definition zend_hash_find_ex_ind t w key (known_hash : bool) : option zptr :=
  find_ind_result t w (zend_hash_find t key).
Definition zend_hash_str_find_ind t w str : option zptr := find_ind_result t w (zend_hash_str_find t str).

Definition exists_ind_result t w (zv : option zptr) : bool :=
  match zv with
  | Some p =>
      match zload (t, w) p with
      | IS_INDIRECT a => negb (Z_ISUNDEF (slot w a))
      | _ => true
      end
  | None => false
  end.

Definition zend_hash_exists_ind t w key : bool := exists_ind_result t w (zend_hash_find t key).
Definition zend_hash_str_exists_ind t w str : bool := exists_ind_result t w (zend_hash_str_find t str).

Definition is_some {A} (o : option A) : bool := if o then true else false.
Definition zend_hash_exists t key : bool := is_some (zend_hash_find t key).
Definition zend_hash_str_exists t str : bool := is_some (zend_hash_str_find t str).
Definition zend_hash_index_exists t h : bool := is_some (zend_hash_index_find t h).

(** * Symbol tables *)

Definition zend_symtable_add key (pData : zval V) (s : state V) :=
  match ZEND_HANDLE_NUMERIC key with
  | Some idx => zend_hash_index_add idx pData s
  | None => zend_hash_add key pData s
  end.
Definition zend_symtable_add_new key (pData : zval V) (s : state V) :=
  match ZEND_HANDLE_NUMERIC key with
  | Some idx => zend_hash_index_add_new idx pData s
  | None => zend_hash_add_new key pData s
  end.
Definition zend_symtable_update key (pData : zval V) (s : state V) :=
  match ZEND_HANDLE_NUMERIC key with
  | Some idx => zend_hash_index_update idx pData s
  | None => zend_hash_update key pData s
  end.
Definition zend_symtable_update_ind key (pData : zval V) (s : state V) :=
  match ZEND_HANDLE_NUMERIC key with
  | Some idx => zend_hash_index_update idx pData s
  | None => zend_hash_update_ind key pData s
  end.
Definition zend_symtable_del key (s : state V) : state V * zend_result :=
  match ZEND_HANDLE_NUMERIC key with
  | Some idx => zend_hash_index_del idx s
  | None => zend_hash_del key s
  end.
Definition zend_symtable_del_ind key (s : state V) : state V * zend_result :=
  match ZEND_HANDLE_NUMERIC key with
  | Some idx => zend_hash_index_del idx s
  | None => zend_hash_del_ind key s
  end.
Definition zend_symtable_find t key : option zptr :=
  match ZEND_HANDLE_NUMERIC key with
  | Some idx => zend_hash_index_find t idx
  | None => zend_hash_find t key
  end.
Definition zend_symtable_find_ind t w key : option zptr :=
  match ZEND_HANDLE_NUMERIC key with
  | Some idx => zend_hash_index_find t idx
  | None => zend_hash_find_ind t w key
  end.
Definition zend_symtable_exists t key : bool :=
  match ZEND_HANDLE_NUMERIC key with
  | Some idx => zend_hash_index_exists t idx
  | None => zend_hash_exists t key
  end.
Definition zend_symtable_exists_ind t w key : bool :=
  match ZEND_HANDLE_NUMERIC key with
  | Some idx => zend_hash_index_exists t idx
  | None => zend_hash_exists_ind t w key
  end.
(** [np]: the address that a string allocated for a new key would get. *)
Definition zend_symtable_str_update str (np : Z) (pData : zval V) (s : state V) :=
  match zend_handle_numeric_str str with
  | Some idx => zend_hash_index_update idx pData s
  | None => zend_hash_str_update str np pData s
  end.
Definition zend_symtable_str_update_ind str (np : Z) (pData : zval V) (s : state V) :=
  match zend_handle_numeric_str str with
  | Some idx => zend_hash_index_update idx pData s
  | None => zend_hash_str_update_ind str np pData s
  end.
Definition zend_symtable_str_del str (s : state V) : state V * zend_result :=
  match zend_handle_numeric_str str with
  | Some idx => zend_hash_index_del idx s
  | None => zend_hash_str_del str s
  end.
Definition zend_symtable_str_del_ind str (s : state V) : state V * zend_result :=
  match zend_handle_numeric_str str with
  | Some idx => zend_hash_index_del idx s
  | None => zend_hash_str_del_ind str s
  end.
Definition zend_symtable_str_find t str : option zptr :=
  match zend_handle_numeric_str str with
  | Some idx => zend_hash_index_find t idx
  | None => zend_hash_str_find t str
  end.
Definition zend_symtable_str_exists t str : bool :=
  match zend_handle_numeric_str str with
  | Some idx => zend_hash_index_exists t idx
  | None => zend_hash_str_exists t str
  end.

(** * The key of a symbol table *)

(** The abstract key under which a string is stored. *)
Definition sym_key str : hkey :=
  match zend_handle_numeric_str str with Some idx => KInt idx | None => KStr str end.

(** A recognised key is a 64-bit value. *)
Lemma numeric_range str idx : zend_handle_numeric_str str = Some idx -> 0 <= idx < 2 ^ 64.
Proof.
  assert (forall n k tmp i, 0 <= i < 2 ^ 64 -> numeric_loop n k tmp i = Some idx -> 0 <= idx < 2 ^ 64) as Hl.
  { induction n as [|n IH]; intros k tmp i Hi; cbn [numeric_loop]; [done|].
    destruct (tmp + 1 =? llen k).
    - destruct (char_at k 0 =? 45); [destruct (ZEND_LONG_MAX <? _); [done|]|destruct (ZEND_LONG_MAX <? _); [done|]];
        intros H%(inj Some); subst idx; [apply u64_range|done].
    - destruct (_ && _); [|done]. apply IH. apply u64_range. }
  unfold zend_handle_numeric_str, zend_handle_numeric_str_ex.
  destruct (57 <? _); [done|]. destruct (_ <? 48).
  - destruct (negb _); [done|]. destruct (_ || _); [done|]. destruct (_ || _); [done|]. apply Hl, u64_range.
  - destruct (_ || _); [done|]. apply Hl, u64_range.
Qed.

(** updating a symbol table binds the key under its integer when the
    string is integer-like and under the string otherwise, so that "7" and 7
    are the same element. *)
Theorem zend_symtable_update_correct key pData t w :
  wf t -> nTableSize t < HT_MAX_SIZE -> Z_ISUNDEF pData = false ->
  exists evs, updated t w (sym_key (ZSTR_VAL key)) pData evs (zend_symtable_update key pData (t, w)).
Proof.
  intros Hwf Hmax Hv. unfold zend_symtable_update, ZEND_HANDLE_NUMERIC, sym_key.
  destruct (zend_handle_numeric_str (ZSTR_VAL key)) as [idx|] eqn:Hn.
  - eexists. apply index_update_ok; try done. by apply numeric_range in Hn.
  - eexists. apply update_ok; [done| |done]. destruct (proj1 Hwf) as [Hu|[Hp|Hm]].
    + rewrite (un_used _ Hu). unfold HT_MAX_SIZE. lia.
    + pose proof (pk_used _ Hp). lia.
    + pose proof (do_used _ (mx_data _ Hm)). lia.
Qed.

(** lookup in a symbol table is dictionary lookup of that key. *)
Theorem zend_symtable_find_correct key t w : repr_ok t ->
  (fun p => zload (t, w) p) <$> zend_symtable_find t key =
  dict_lookup (sym_key (ZSTR_VAL key)) (elems t).
Proof.
  intros Hr. unfold zend_symtable_find, ZEND_HANDLE_NUMERIC, sym_key.
  destruct (zend_handle_numeric_str (ZSTR_VAL key)) as [idx|] eqn:Hn.
  - apply hash_index_find_ok; [done|]. apply (numeric_range _ _ Hn).
  - by apply hash_find_ok.
Qed.

End Symtable.
