(* ===== verification/ZendSort.v ===== *)
(** The hybrid sort of Zend/zend_sort.c: sorting networks for up to five
    elements, insertion sort up to sixteen, quicksort with median pivots
    above.  The array is a list indexed from [base]; [cmp] and [swp] are the
    callbacks.  For a comparison that is a total preorder and a [swp] that
    exchanges its arguments, the result is sorted and a permutation of the
    input, and nothing outside the sorted range changes. *)

From stdpp Require Import base numbers list.
From S2P Require Import Prelude.

Section Sort.
Context {A : Type} (dflt : A) (cmp : A -> A -> Z) (swp : A -> A -> A * A).
Implicit Types l : list A.

(** [*(base + i * siz)] *)
Definition elt l (i : Z) : A := lget dflt l i.

(** [cmp(a, b) > 0] for the elements at [a] and [b]. *)
Definition gt_at l (a b : Z) : bool := 0 <? cmp (elt l a) (elt l b).

(** [swp(a, b)] *)
Definition swp_at l (a b : Z) : list A :=
  let (x, y) := swp (elt l a) (elt l b) in lset (lset l a x) b y.

Definition zend_sort_2 (a b : Z) l : list A := if gt_at l a b then swp_at l a b else l.

Definition zend_sort_3 (a b c : Z) l : list A :=
  if negb (gt_at l a b) then
    if negb (gt_at l b c) then l
    else
      let l := swp_at l b c in
      if gt_at l a b then swp_at l a b else l
  else if negb (gt_at l c b) then swp_at l a c
  else
    let l := swp_at l a b in
    if gt_at l b c then swp_at l b c else l.

Definition zend_sort_4 (a b c d : Z) l : list A :=
  let l := zend_sort_3 a b c l in
  if gt_at l c d then
    let l := swp_at l c d in
    if gt_at l b c then
      let l := swp_at l b c in
      if gt_at l a b then swp_at l a b else l
    else l
  else l.

Definition zend_sort_5 (a b c d e : Z) l : list A :=
  let l := zend_sort_4 a b c d l in
  if gt_at l d e then
    let l := swp_at l d e in
    if gt_at l c d then
      let l := swp_at l c d in
      if gt_at l b c then
        let l := swp_at l b c in
        if gt_at l a b then swp_at l a b else l
      else l
    else l
  else l.

(** [while (j != start) { j -= siz; if (!(cmp(j, i) > 0)) { j += siz; break; } }] *)
Fixpoint insert_pos_1 (n : nat) (start i j : Z) l : Z :=
  match n with
  | O => j
  | S n =>
      if j =? start then j
      else
        let j := j - 1 in
        if negb (gt_at l j i) then j + 1 else insert_pos_1 n start i j l
  end.

(** The [do ... while (1)] of the second loop, in steps of two elements. *)
Fixpoint insert_pos_2 (n : nat) (start i j : Z) l : Z :=
  match n with
  | O => j
  | S n =>
      let j := j - 2 in
      if negb (gt_at l j i) then
        let j := j + 1 in
        if negb (gt_at l j i) then j + 1 else j
      else if j =? start then j
      else if j =? start + 1 then
        let j := j - 1 in
        if gt_at l i j then j + 1 else j
      else insert_pos_2 n start i j l
  end.

(** [for (k = i; k > j; k -= siz) swp(k, k - siz);] for [n = i - j]. *)
Fixpoint shift_down (n : nat) (k : Z) l : list A :=
  match n with
  | O => l
  | S n => shift_down n (k - 1) (swp_at l k (k - 1))
  end.

(** One turn of the loops of the insertion sort; [sentry] is the bound of the
    first loop. *)
Definition insert_step (start sentry i : Z) l : list A :=
  if negb (gt_at l (i - 1) i) then l
  else
    let n := Z.to_nat (i - start) in
    let j := if i <? sentry then insert_pos_1 n start i (i - 1) l
             else insert_pos_2 n start i (i - 1) l in
    shift_down (Z.to_nat (i - j)) i l.

Fixpoint insert_loop (n : nat) (start sentry i : Z) l : list A :=
  match n with
  | O => l
  | S n => insert_loop n start sentry (i + 1) (insert_step start sentry i l)
  end.

Definition zend_insert_sort (base nmemb : Z) l : list A :=
  if nmemb <=? 1 then l
  else if nmemb =? 2 then zend_sort_2 base (base + 1) l
  else if nmemb =? 3 then zend_sort_3 base (base + 1) (base + 2) l
  else if nmemb =? 4 then zend_sort_4 base (base + 1) (base + 2) (base + 3) l
  else if nmemb =? 5 then zend_sort_5 base (base + 1) (base + 2) (base + 3) (base + 4) l
  else insert_loop (Z.to_nat (nmemb - 1)) base (base + 6) (base + 1) l.

(** [while (cmp(pivot, i) > 0) { i += siz; if (i == j) goto done; }]; [true]: done. *)
Fixpoint scan_up (n : nat) (pivot i j : Z) l : Z * bool :=
  match n with
  | O => (i, true)
  | S n =>
      if gt_at l pivot i then
        let i := i + 1 in
        if i =? j then (i, true) else scan_up n pivot i j l
      else (i, false)
  end.

(** [while (cmp(j, pivot) > 0) { j -= siz; if (j == i) goto done; }] *)
Fixpoint scan_down (n : nat) (pivot i j : Z) l : Z * bool :=
  match n with
  | O => (j, true)
  | S n =>
      if gt_at l j pivot then
        let j := j - 1 in
        if j =? i then (j, true) else scan_down n pivot i j l
      else (j, false)
  end.

(** The partition loop: the final [i] and the array. *)
Fixpoint partition_loop (n : nat) (pivot i j : Z) l : Z * list A :=
  match n with
  | O => (i, l)
  | S n =>
      let (i, fin) := scan_up (Z.to_nat (j - i)) pivot i j l in
      if fin then (i, l)
      else
        let j := j - 1 in
        if j =? i then (i, l)
        else
          let (j, fin) := scan_down (Z.to_nat (j - i)) pivot i j l in
          if fin then (i, l)
          else
            let l := swp_at l i j in
            let i := i + 1 in
            if i =? j then (i, l) else partition_loop n pivot i j l
  end.

(** Pivot selection and partition of [base, ..., base + nmemb - 1]. *)
Definition sort_partition (base nmemb : Z) l : Z * list A :=
  let start := base in
  let end_ := start + nmemb in
  let offset := Z.shiftr nmemb 1 in
  let pivot := start + offset in
  let l :=
    if negb (Z.shiftr nmemb 10 =? 0) then
      let delta := Z.shiftr offset 1 in
      zend_sort_5 start (start + delta) pivot (pivot + delta) (end_ - 1) l
    else zend_sort_3 start pivot (end_ - 1) l in
  let l := swp_at l (start + 1) pivot in
  let pivot := start + 1 in
  let (i, l) := partition_loop (Z.to_nat nmemb) pivot (pivot + 1) (end_ - 1) l in
  (i, swp_at l pivot (i - 1)).

(** The recursive call on the smaller part comes first, the larger part is the
    next turn of the loop.  Each call has fewer elements, so [nmemb] turns are
    enough. *)
Fixpoint sort_loop (n : nat) (base nmemb : Z) l : list A :=
  if nmemb <=? 16 then zend_insert_sort base nmemb l
  else
    match n with
    | O => l
    | S n =>
        let (i, l) := sort_partition base nmemb l in
        let end_ := base + nmemb in
        if (i - 1) - base <? end_ - i
        then sort_loop n i (end_ - i) (sort_loop n base (i - base - 1) l)
        else sort_loop n base (i - base - 1) (sort_loop n i (end_ - i) l)
    end.

Definition zend_sort l : list A := sort_loop (length l) 0 (llen l) l.

(** * Rearrangements *)

Hypothesis swp_exchange : forall a b, swp a b = (b, a).

(** [l'] is [l] with the elements of [lo, ..., hi-1] permuted. *)
Definition rearr (lo hi : Z) l l' : Prop :=
  l ≡ₚ l' /\ forall i, 0 <= i -> ~ (lo <= i < hi) -> elt l' i = elt l i.

Lemma rearr_refl lo hi l : rearr lo hi l l.
Proof. done. Qed.

Lemma rearr_trans lo hi l1 l2 l3 : rearr lo hi l1 l2 -> rearr lo hi l2 l3 -> rearr lo hi l1 l3.
Proof. intros [P1 H1] [P2 H2]. split; [by etrans|]. intros i Hi Ho. by rewrite H2, H1. Qed.

Lemma rearr_mono lo hi lo' hi' l l' : lo' <= lo -> hi <= hi' -> rearr lo hi l l' -> rearr lo' hi' l l'.
Proof. intros ? ? [P H]. split; [done|]. intros i Hi Ho. apply H; lia. Qed.

Lemma rearr_llen lo hi l l' : rearr lo hi l l' -> llen l' = llen l.
Proof. intros [P _]. unfold llen. by rewrite P. Qed.

(** Where the element at [k] comes from after exchanging [a] and [b]. *)
Definition swap_idx (a b k : Z) : Z := if k =? b then a else if k =? a then b else k.

Lemma elt_swp l a b k : 0 <= a < llen l -> 0 <= b < llen l -> 0 <= k ->
  elt (swp_at l a b) k = elt l (swap_idx a b k).
Proof.
  intros Ha Hb Hk. unfold swp_at, elt, swap_idx. rewrite swp_exchange.
  destruct (Z.eqb_spec k b) as [->|Hkb].
  - rewrite lget_lset_eq; [done|]. by rewrite llen_lset.
  - rewrite lget_lset_ne by lia. destruct (Z.eqb_spec k a) as [->|Hka].
    + by rewrite lget_lset_eq.
    + by rewrite lget_lset_ne by lia.
Qed.

Lemma llen_swp l a b : llen (swp_at l a b) = llen l.
Proof. unfold swp_at. rewrite swp_exchange. by rewrite !llen_lset. Qed.

Lemma elt_lookup l i : 0 <= i < llen l -> l !! Z.to_nat i = Some (elt l i).
Proof.
  intros Hi. unfold elt, lget. destruct (l !! Z.to_nat i) eqn:He; [done|].
  apply lookup_ge_None in He. unfold llen in Hi. lia.
Qed.

Lemma swp_perm l a b : 0 <= a < llen l -> 0 <= b < llen l -> l ≡ₚ swp_at l a b.
Proof.
  intros Ha Hb. symmetry. apply Permutation_inj. split; [pose proof (llen_swp l a b); unfold llen in *; lia|].
  exists (fun k => Z.to_nat (swap_idx a b (Z.of_nat k))). split.
  - intros x y. unfold swap_idx. repeat case_match; lia.
  - intros k. destruct (decide (Z.of_nat k < llen l)) as [Hk|Hk].
    + replace k with (Z.to_nat (Z.of_nat k)) at 1 by lia.
      rewrite !elt_lookup; [|unfold swap_idx; repeat case_match; lia|rewrite llen_swp; lia].
      by rewrite elt_swp by lia.
    + rewrite !lookup_ge_None_2; [done| |pose proof (llen_swp l a b); unfold llen in *; lia].
      unfold swap_idx. repeat case_match; unfold llen in *; lia.
Qed.

Lemma swp_rearr lo hi l a b : 0 <= lo -> hi <= llen l -> lo <= a < hi -> lo <= b < hi ->
  rearr lo hi l (swp_at l a b).
Proof.
  intros Hl Hh Ha Hb. split; [apply swp_perm; lia|]. intros i Hi Ho. rewrite elt_swp by lia.
  unfold swap_idx. by repeat case_match; lia || done.
Qed.

(** What holds of all the elements of the range still does. *)
Lemma rearr_forall lo hi l l' (P : A -> Prop) : 0 <= lo <= hi -> hi <= llen l -> rearr lo hi l l' ->
  (forall i, lo <= i < hi -> P (elt l i)) -> forall i, lo <= i < hi -> P (elt l' i).
Proof.
  intros Hlo Hhi Hr HP i Hi. pose proof (rearr_llen _ _ _ _ Hr) as Hlen. destruct Hr as [Hp Ho].
  set (n := Z.to_nat lo). set (m := Z.to_nat (hi - lo)).
  assert (forall u : list A, llen u = llen l -> u = take n u ++ take m (drop n u) ++ drop (n + m) u) as Hsplit.
  { intros u _. rewrite <- drop_drop, !take_drop. done. }
  assert (take n l' = take n l /\ drop (n + m) l' = drop (n + m) l) as [Ht Hd].
  { split; apply list_eq; intros k.
    - destruct (decide (k < n)%nat) as [Hk|Hk].
      + rewrite !lookup_take_lt by done. replace k with (Z.to_nat (Z.of_nat k)) by lia.
        rewrite !elt_lookup by lia. rewrite Ho by lia. done.
      + rewrite !lookup_take_ge by lia. done.
    - rewrite !lookup_drop. destruct (decide (Z.of_nat (n + m + k) < llen l)) as [Hk|Hk].
      + replace (n + m + k)%nat with (Z.to_nat (Z.of_nat (n + m + k))) by lia.
        rewrite !elt_lookup by lia. rewrite Ho by lia. done.
      + rewrite !lookup_ge_None_2; [done| |]; unfold llen in *; lia. }
  rewrite (Hsplit l), (Hsplit l') in Hp by done. rewrite Ht, Hd in Hp.
  apply Permutation_app_inv_l, Permutation_app_inv_r in Hp.
  assert (elt l' i ∈ take m (drop n l')) as Hin.
  { apply list_elem_of_lookup. exists (Z.to_nat (i - lo)). rewrite lookup_take_lt, lookup_drop by lia.
    replace (n + Z.to_nat (i - lo))%nat with (Z.to_nat i) by lia. apply elt_lookup. lia. }
  rewrite <- Hp in Hin. apply list_elem_of_lookup in Hin as [k Hk].
  assert (k < m)%nat as Hkm.
  { apply lookup_lt_Some in Hk. rewrite length_take in Hk. lia. }
  rewrite lookup_take_lt, lookup_drop in Hk by done.
  replace (n + k)%nat with (Z.to_nat (lo + Z.of_nat k)) in Hk by lia.
  rewrite elt_lookup in Hk by lia. injection Hk as <-. apply HP. lia.
Qed.

(** * The order *)

Definition le (a b : A) : Prop := cmp a b <= 0.

Hypothesis cmp_trans : forall a b c, le a b -> le b c -> le a c.
Hypothesis cmp_total : forall a b, 0 < cmp a b -> le b a.

Lemma le_refl a : le a a.
Proof. destruct (Z.leb_spec (cmp a a) 0); [done|]. by apply cmp_total. Qed.

Lemma gt_at_true l a b : gt_at l a b = true -> le (elt l b) (elt l a).
Proof. intros H%Z.ltb_lt. by apply cmp_total. Qed.

Lemma gt_at_false l a b : gt_at l a b = false -> le (elt l a) (elt l b).
Proof. intros H%Z.ltb_ge. done. Qed.

Lemma swap_idx_l a b : swap_idx a b a = b.
Proof. unfold swap_idx. destruct (Z.eqb_spec a b); [done|]. by rewrite Z.eqb_refl. Qed.

Lemma swap_idx_r a b : swap_idx a b b = a.
Proof. unfold swap_idx. by rewrite Z.eqb_refl. Qed.

Lemma swap_idx_ne a b k : k <> a -> k <> b -> swap_idx a b k = k.
Proof. intros. unfold swap_idx. by rewrite !(proj2 (Z.eqb_neq _ _)). Qed.

Definition sorted_seg (l : list A) (lo hi : Z) : Prop :=
  forall i j, lo <= i < j -> j < hi -> le (elt l i) (elt l j).

(** [lia] on the bounds only: disequalities make it split. *)
Ltac bounds := repeat match goal with H : _ <> _ |- _ => clear H end; rewrite ?llen_swp; lia.
Ltac distinct := solve [assumption | apply not_eq_sym; assumption | lia].

(** Evaluate reads after exchanges at distinct positions. *)
Ltac swp_step :=
  match goal with
  | H : context [elt (swp_at ?l ?a ?b) ?k] |- _ => rewrite (elt_swp l a b k) in H by bounds
  | |- context [elt (swp_at ?l ?a ?b) ?k] => rewrite (elt_swp l a b k) by bounds
  | H : context [swap_idx ?a ?b ?a] |- _ => rewrite (swap_idx_l a b) in H
  | |- context [swap_idx ?a ?b ?a] => rewrite (swap_idx_l a b)
  | H : context [swap_idx ?a ?b ?b] |- _ => rewrite (swap_idx_r a b) in H
  | |- context [swap_idx ?a ?b ?b] => rewrite (swap_idx_r a b)
  | H : context [swap_idx ?a ?b ?k] |- _ => rewrite (swap_idx_ne a b k) in H by distinct
  | |- context [swap_idx ?a ?b ?k] => rewrite (swap_idx_ne a b k) by distinct
  end.

(** Branch on a comparison and remember the order it establishes. *)
Ltac gt_case :=
  match goal with
  | |- context [if gt_at ?l ?a ?b then _ else _] =>
      let H := fresh "H" in destruct (gt_at l a b) eqn:H;
      [apply gt_at_true in H|apply gt_at_false in H]
  | |- context [if negb (gt_at ?l ?a ?b) then _ else _] =>
      let H := fresh "H" in destruct (gt_at l a b) eqn:H; cbn [negb];
      [apply gt_at_true in H|apply gt_at_false in H]
  end.

(** A chain of exchanges inside the range. *)
Ltac swp_rearr_tac :=
  repeat first [apply rearr_refl | eapply rearr_trans; [|apply swp_rearr; bounds]].

Ltac sort_leaf := split; [swp_rearr_tac|repeat split; repeat swp_step; first [assumption | intros; repeat swp_step; done]].

Lemma sort_2_spec lo hi a b l : 0 <= lo -> hi <= llen l -> lo <= a < hi -> lo <= b < hi -> a <> b ->
  let l' := zend_sort_2 a b l in
  rearr lo hi l l' /\ le (elt l' a) (elt l' b) /\ (forall k, 0 <= k -> k <> a -> k <> b -> elt l' k = elt l k).
Proof. intros ? ? ? ? ?. cbv zeta. unfold zend_sort_2. gt_case; sort_leaf. Qed.

Lemma sort_3_spec lo hi a b c l : 0 <= lo -> hi <= llen l -> lo <= a < hi -> lo <= b < hi -> lo <= c < hi ->
  a <> b -> a <> c -> b <> c ->
  let l' := zend_sort_3 a b c l in
  rearr lo hi l l' /\ le (elt l' a) (elt l' b) /\ le (elt l' b) (elt l' c) /\
  (forall k, 0 <= k -> k <> a -> k <> b -> k <> c -> elt l' k = elt l k).
Proof.
  intros ? ? ? ? ? ? ? ?. cbv zeta. unfold zend_sort_3. repeat gt_case; sort_leaf.
Qed.

Lemma sort_4_spec lo hi a b c d l : 0 <= lo -> hi <= llen l ->
  lo <= a < hi -> lo <= b < hi -> lo <= c < hi -> lo <= d < hi ->
  a <> b -> a <> c -> b <> c -> a <> d -> b <> d -> c <> d ->
  let l' := zend_sort_4 a b c d l in
  rearr lo hi l l' /\ le (elt l' a) (elt l' b) /\ le (elt l' b) (elt l' c) /\ le (elt l' c) (elt l' d) /\
  (forall k, 0 <= k -> k <> a -> k <> b -> k <> c -> k <> d -> elt l' k = elt l k).
Proof.
  intros ? ? ? ? ? ? ? ? ? ? ? ?. cbv zeta. unfold zend_sort_4.
  destruct (sort_3_spec lo hi a b c l) as (Hr & Hab & Hbc & Ho); try done.
  set (l1 := zend_sort_3 a b c l) in *. pose proof (rearr_llen _ _ _ _ Hr) as Hlen.
  repeat gt_case; (split; [eapply rearr_trans; [exact Hr|]; swp_rearr_tac|]);
    repeat split; intros; repeat swp_step; first [assumption | by apply Ho].
Qed.

Lemma sort_5_spec lo hi a b c d e l : 0 <= lo -> hi <= llen l ->
  lo <= a < hi -> lo <= b < hi -> lo <= c < hi -> lo <= d < hi -> lo <= e < hi ->
  a <> b -> a <> c -> b <> c -> a <> d -> b <> d -> c <> d -> a <> e -> b <> e -> c <> e -> d <> e ->
  let l' := zend_sort_5 a b c d e l in
  rearr lo hi l l' /\ le (elt l' a) (elt l' b) /\ le (elt l' b) (elt l' c) /\
  le (elt l' c) (elt l' d) /\ le (elt l' d) (elt l' e).
Proof.
  intros ? ? ? ? ? ? ? ? ? ? ? ? ? ? ? ? ?. cbv zeta. unfold zend_sort_5.
  destruct (sort_4_spec lo hi a b c d l) as (Hr & Hab & Hbc & Hcd & Ho); try done.
  set (l1 := zend_sort_4 a b c d l) in *. pose proof (rearr_llen _ _ _ _ Hr) as Hlen.
  repeat gt_case; (split; [eapply rearr_trans; [exact Hr|]; swp_rearr_tac|]);
    repeat split; intros; repeat swp_step; assumption.
Qed.

(** * Insertion sort *)

(** Adjacent order is enough. *)
Lemma sorted_seg_adjacent l lo hi :
  (forall i, lo <= i -> i + 1 < hi -> le (elt l i) (elt l (i + 1))) -> sorted_seg l lo hi.
Proof.
  intros H i j Hi Hj.
  assert (forall n : nat, i + 1 + Z.of_nat n < hi -> le (elt l i) (elt l (i + 1 + Z.of_nat n))) as Hn.
  { induction n as [|n IH]; intros Hlt.
    - rewrite Z.add_0_r. apply H; lia.
    - apply (cmp_trans _ (elt l (i + 1 + Z.of_nat n))); [apply IH; lia|]. rewrite Nat2Z.inj_succ.
      replace (i + 1 + Z.succ (Z.of_nat n)) with (i + 1 + Z.of_nat n + 1) by lia. apply H; lia. }
  specialize (Hn (Z.to_nat (j - i - 1))). replace (i + 1 + Z.of_nat (Z.to_nat (j - i - 1))) with j in Hn by lia.
  by apply Hn.
Qed.

(** The insertion point: [j] splits the sorted prefix around the element at [i]. *)
Definition insert_point (l : list A) (start i j : Z) : Prop :=
  start <= j < i /\ (forall k, start <= k < j -> le (elt l k) (elt l i)) /\
  (forall k, j <= k < i -> le (elt l i) (elt l k)).

(** Extend a bound along the sorted prefix. *)
Lemma sorted_below l start i j x : sorted_seg l start i -> start <= j < i -> le (elt l j) x ->
  forall k, start <= k <= j -> le (elt l k) x.
Proof.
  intros Hs Hj Hx k Hk. destruct (decide (k = j)) as [->|]; [done|].
  apply (cmp_trans _ (elt l j)); [apply Hs; lia|done].
Qed.

Lemma sorted_above l start i j x : sorted_seg l start i -> start <= j -> le x (elt l j) ->
  forall k, j <= k < i -> le x (elt l k).
Proof.
  intros Hs Hj Hx k Hk. destruct (decide (k = j)) as [->|]; [done|].
  apply (cmp_trans _ (elt l j)); [done|]. apply Hs; lia.
Qed.

Lemma insert_pos_1_spec n : forall start i j l, sorted_seg l start i -> start <= j < i ->
  j - start < Z.of_nat n -> le (elt l i) (elt l j) -> insert_point l start i (insert_pos_1 n start i j l).
Proof.
  induction n as [|n IH]; intros start i j l Hs Hj Hn Hle; [lia|]. cbn [insert_pos_1].
  destruct (Z.eqb_spec j start) as [->|Hne].
  - split; [lia|]. split; [lia|]. by apply (sorted_above l start i).
  - gt_case; [by apply IH; [|lia|lia|]|]. replace (j - 1 + 1) with j by lia. split; [lia|]. split.
    + intros k Hk. apply (sorted_below l start i (j - 1)); [done|lia|done|lia].
    + apply (sorted_above l start i); [done|lia|done].
Qed.

Lemma insert_pos_2_spec n : forall start i j l, sorted_seg l start i -> start + 2 <= j < i ->
  j - start < 2 * Z.of_nat n -> le (elt l i) (elt l j) -> insert_point l start i (insert_pos_2 n start i j l).
Proof.
  induction n as [|n IH]; intros start i j l Hs Hj Hn Hle; [lia|]. cbn [insert_pos_2].
  assert (forall m x, start <= m <= j -> le (elt l m) x -> forall k, start <= k <= m -> le (elt l k) x) as Hbelow
    by (intros m x Hm Hx; apply (sorted_below l start i); [done|lia|done]).
  assert (forall m, start <= m -> le (elt l i) (elt l m) -> forall k, m <= k < i -> le (elt l i) (elt l k)) as Habove
    by (intros m Hm Hx; apply (sorted_above l start i); [done|lia|done]).
  destruct (gt_at l (j - 2) i) eqn:Hc; [apply gt_at_true in Hc|apply gt_at_false in Hc]; cbn [negb].
  - destruct (Z.eqb_spec (j - 2) start) as [He|Hne].
    { split; [lia|]. split; [lia|]. apply Habove; [lia|done]. }
    destruct (Z.eqb_spec (j - 2) (start + 1)) as [He|Hne2]; [|by apply IH; [|lia|lia|]].
    gt_case.
    + replace (j - 2 - 1 + 1) with (j - 2) by lia. split; [lia|]. split; [|by apply Habove; [lia|]].
      intros k Hk. apply (Hbelow (j - 2 - 1)); [lia|done|lia].
    + split; [lia|]. split; [lia|]. apply Habove; [lia|done].
  - gt_case.
    + split; [lia|]. split; [|by apply Habove; [lia|]]. intros k Hk. apply (Hbelow (j - 2)); [lia|done|lia].
    + replace (j - 2 + 1 + 1) with j by lia. split; [lia|]. split; [|by apply Habove; [lia|]].
      intros k Hk. apply (Hbelow (j - 2 + 1)); [lia|done|lia].
Qed.

Lemma shift_down_spec n : forall lo hi k l, 0 <= lo -> hi <= llen l -> lo <= k - Z.of_nat n -> k < hi ->
  let l' := shift_down n k l in
  rearr lo hi l l' /\ elt l' (k - Z.of_nat n) = elt l k /\
  (forall m, k - Z.of_nat n < m <= k -> elt l' m = elt l (m - 1)) /\
  (forall m, 0 <= m -> (m < k - Z.of_nat n \/ k < m) -> elt l' m = elt l m).
Proof.
  induction n as [|n IH]; intros lo hi k l Hlo Hhi Hk Hkh; cbv zeta; cbn [shift_down].
  - split; [apply rearr_refl|]. rewrite Z.sub_0_r. split; [done|]. split; [intros; lia|done].
  - destruct (IH lo hi (k - 1) (swp_at l k (k - 1))) as (Hr & H1 & H2 & H3); [lia|rewrite llen_swp; lia|lia|lia|].
    replace (k - 1 - Z.of_nat n) with (k - Z.of_nat (S n)) in * by lia.
    split; [apply (rearr_trans lo hi _ (swp_at l k (k - 1))); [apply swp_rearr; lia|exact Hr]|].
    split; [rewrite H1; repeat swp_step; done|]. split.
    + intros m Hm. destruct (decide (m = k)) as [->|].
      * rewrite H3 by lia. repeat swp_step. done.
      * rewrite H2 by lia. repeat swp_step. done.
    + intros m Hm Ho. rewrite H3 by lia. by repeat swp_step.
Qed.

Lemma insert_step_spec lo start sentry i l : 0 <= start -> lo <= start -> start < i < llen l -> 0 <= lo ->
  (sentry <= i -> start + 6 <= i) -> sorted_seg l start i ->
  rearr lo (i + 1) l (insert_step start sentry i l) /\ sorted_seg (insert_step start sentry i l) start (i + 1).
Proof.
  intros Hst Hlo Hi Hlo0 Hsen Hs. unfold insert_step. gt_case.
  - assert (insert_point l start i (if i <? sentry then insert_pos_1 (Z.to_nat (i - start)) start i (i - 1) l
      else insert_pos_2 (Z.to_nat (i - start)) start i (i - 1) l)) as Hp.
    { destruct (Z.ltb_spec i sentry); [apply insert_pos_1_spec|apply insert_pos_2_spec]; try done; lia. }
    set (j := if i <? sentry then _ else _) in *. destruct Hp as (Hj & Hb & Ha).
    destruct (shift_down_spec (Z.to_nat (i - j)) lo (i + 1) i l) as (Hr & H1 & H2 & H3); try lia.
    replace (i - Z.of_nat (Z.to_nat (i - j))) with j in * by lia.
    set (l' := shift_down _ _ _) in *. split; [done|]. apply sorted_seg_adjacent. intros k Hk Hk1.
    destruct (Z.lt_trichotomy k j) as [Hlt|[->|Hgt]].
    + rewrite (H3 k) by lia. destruct (decide (k + 1 = j)) as [->|].
      * rewrite H1. apply Hb. lia.
      * rewrite H3 by lia. apply Hs; lia.
    + rewrite H1, H2 by lia. replace (j + 1 - 1) with j by lia. apply Ha. lia.
    + rewrite !H2 by lia. apply Hs; lia.
  - split; [apply rearr_refl|]. apply sorted_seg_adjacent. intros k Hk Hk1.
    destruct (decide (k + 1 = i)) as [<-|]; [by replace k with (k + 1 - 1) at 1 by lia|]. apply Hs; lia.
Qed.

Lemma insert_loop_spec n : forall start sentry i l, 0 <= start -> start < i ->
  i + Z.of_nat n <= llen l -> (sentry = start + 6) -> sorted_seg l start i ->
  rearr start (i + Z.of_nat n) l (insert_loop n start sentry i l) /\
  sorted_seg (insert_loop n start sentry i l) start (i + Z.of_nat n).
Proof.
  induction n as [|n IH]; intros start sentry i l Hst Hi Hn Hsen Hs; cbn [insert_loop].
  - rewrite Z.add_0_r. split; [apply rearr_refl|done].
  - destruct (insert_step_spec start start sentry i l) as [Hr Hs']; try done; try lia.
    destruct (IH start sentry (i + 1) (insert_step start sentry i l)) as [Hr2 Hs2]; try done; try lia.
    { rewrite (rearr_llen _ _ _ _ Hr). lia. }
    replace (i + 1 + Z.of_nat n) with (i + Z.of_nat (S n)) in * by lia. split; [|done].
    eapply rearr_trans; [|exact Hr2]. eapply rearr_mono; [| |exact Hr]; lia.
Qed.

Lemma insert_sort_spec base nmemb l : 0 <= base -> 0 <= nmemb -> base + nmemb <= llen l ->
  rearr base (base + nmemb) l (zend_insert_sort base nmemb l) /\
  sorted_seg (zend_insert_sort base nmemb l) base (base + nmemb).
Proof.
  intros Hb Hn Hl. unfold zend_insert_sort. destruct (Z.leb_spec nmemb 1).
  { split; [apply rearr_refl|]. intros i j Hi Hj. lia. }
  assert (forall l', (forall i, base <= i -> i + 1 < base + nmemb -> le (elt l' i) (elt l' (i + 1))) ->
    sorted_seg l' base (base + nmemb)) as Hadj by (intros; by apply sorted_seg_adjacent).
  destruct (Z.eqb_spec nmemb 2) as [->|].
  { destruct (sort_2_spec base (base + 2) base (base + 1) l) as (Hr & H1 & _); try lia.
    split; [done|]. apply Hadj. intros i Hi Hi2. by replace i with base by lia. }
  destruct (Z.eqb_spec nmemb 3) as [->|].
  { destruct (sort_3_spec base (base + 3) base (base + 1) (base + 2) l) as (Hr & H1 & H2 & _); try lia.
    split; [done|]. apply Hadj. intros i Hi Hi2.
    assert (i = base \/ i = base + 1) as [-> | ->] by lia; [done|by rewrite <- Z.add_assoc]. }
  destruct (Z.eqb_spec nmemb 4) as [->|].
  { destruct (sort_4_spec base (base + 4) base (base + 1) (base + 2) (base + 3) l) as (Hr & H1 & H2 & H3 & _); try lia.
    split; [done|]. apply Hadj. intros i Hi Hi2.
    assert (i = base \/ i = base + 1 \/ i = base + 2) as [-> | [-> | ->]] by lia; [done| |]; by rewrite <- Z.add_assoc. }
  destruct (Z.eqb_spec nmemb 5) as [->|].
  { destruct (sort_5_spec base (base + 5) base (base + 1) (base + 2) (base + 3) (base + 4) l)
      as (Hr & H1 & H2 & H3 & H4); try lia.
    split; [done|]. apply Hadj. intros i Hi Hi2.
    assert (i = base \/ i = base + 1 \/ i = base + 2 \/ i = base + 3) as [-> | [-> | [-> | ->]]] by lia;
      [done| | |]; by rewrite <- Z.add_assoc. }
  pose proof (insert_loop_spec (Z.to_nat (nmemb - 1)) base (base + 6) (base + 1) l) as H'.
  replace (base + 1 + Z.of_nat (Z.to_nat (nmemb - 1))) with (base + nmemb) in H' by lia.
  apply H'; try lia. intros i j Hi Hj. lia.
Qed.

(** * Partition *)

Lemma scan_up_spec n : forall pivot i j l, i < j -> j - i <= Z.of_nat n ->
  let (i', fin) := scan_up n pivot i j l in
  i <= i' <= j /\ (forall k, i <= k < i' -> le (elt l k) (elt l pivot)) /\
  (if fin then i' = j else i' < j /\ le (elt l pivot) (elt l i')).
Proof.
  induction n as [|n IH]; intros pivot i j l Hij Hn; [lia|]. cbn [scan_up]. gt_case.
  - destruct (Z.eqb_spec (i + 1) j) as [He|Hne].
    + split; [lia|]. split; [|lia]. intros k Hk. by replace k with i by lia.
    + specialize (IH pivot (i + 1) j l ltac:(lia) ltac:(lia)). destruct (scan_up _ _ _ _ _) as [i' fin].
      destruct IH as (H1 & H2 & H3). split; [lia|]. split; [|done].
      intros k Hk. destruct (decide (k = i)) as [->|]; [done|]. apply H2. lia.
  - split; [lia|]. split; [lia|]. split; [lia|done].
Qed.

Lemma scan_down_spec n : forall pivot i j l, i < j -> j - i <= Z.of_nat n ->
  let (j', fin) := scan_down n pivot i j l in
  i <= j' <= j /\ (forall k, j' < k <= j -> le (elt l pivot) (elt l k)) /\
  (if fin then j' = i else i < j' /\ le (elt l j') (elt l pivot)).
Proof.
  induction n as [|n IH]; intros pivot i j l Hij Hn; [lia|]. cbn [scan_down]. gt_case.
  - destruct (Z.eqb_spec (j - 1) i) as [He|Hne].
    + split; [lia|]. split; [|lia]. intros k Hk. by replace k with j by lia.
    + specialize (IH pivot i (j - 1) l ltac:(lia) ltac:(lia)). destruct (scan_down _ _ _ _ _) as [j' fin].
      destruct IH as (H1 & H2 & H3). split; [lia|]. split; [|done].
      intros k Hk. destruct (decide (k = j)) as [->|]; [done|]. apply H2. lia.
  - split; [lia|]. split; [lia|]. split; [lia|done].
Qed.

(** [l] is split at [i] around [v]. *)
Definition split_at (l : list A) (lo i hi : Z) (v : A) : Prop :=
  (forall k, lo <= k < i -> le (elt l k) v) /\ (forall k, i <= k < hi -> le v (elt l k)).

Lemma partition_loop_spec n : forall p hi i j l, 0 <= p -> p + 1 <= i -> i < j -> j < hi -> hi <= llen l ->
  j - i <= Z.of_nat n ->
  (forall k, p + 1 <= k < i -> le (elt l k) (elt l p)) -> (forall k, j <= k < hi -> le (elt l p) (elt l k)) ->
  let (i', l') := partition_loop n p i j l in
  rearr (p + 1) hi l l' /\ i <= i' <= j /\ split_at l' (p + 1) i' hi (elt l p).
Proof.
  induction n as [|n IH]; intros p hi i j l Hp Hi Hij Hj Hhi Hn Hlow Hhigh; [lia|]. cbn [partition_loop].
  pose proof (scan_up_spec (Z.to_nat (j - i)) p i j l Hij ltac:(lia)) as Hup.
  destruct (scan_up _ _ _ _ _) as [i1 fin]. destruct Hup as (Hi1 & Hu & Hf).
  assert (forall k, p + 1 <= k < i1 -> le (elt l k) (elt l p)) as Hlow1.
  { intros k Hk. destruct (decide (k < i)); [apply Hlow; lia|apply Hu; lia]. }
  destruct fin.
  { subst i1. split; [apply rearr_refl|]. split; [lia|]. by split. }
  destruct Hf as [Hij1 Hge]. destruct (Z.eqb_spec (j - 1) i1) as [He|Hne].
  { split; [apply rearr_refl|]. split; [lia|]. split; [done|]. intros k Hk.
    destruct (decide (k = i1)) as [->|]; [done|]. apply Hhigh. lia. }
  pose proof (scan_down_spec (Z.to_nat (j - 1 - i1)) p i1 (j - 1) l ltac:(lia) ltac:(lia)) as Hdn.
  destruct (scan_down _ _ _ _ _) as [j1 fin]. destruct Hdn as (Hj1 & Hd & Hf).
  assert (forall k, j1 < k < hi -> le (elt l p) (elt l k)) as Hhigh1.
  { intros k Hk. destruct (decide (k < j)); [apply Hd; lia|apply Hhigh; lia]. }
  destruct fin.
  { subst j1. split; [apply rearr_refl|]. split; [lia|]. split; [done|]. intros k Hk.
    destruct (decide (k = i1)) as [->|]; [done|]. apply Hhigh1. lia. }
  destruct Hf as [Hlt Hle]. set (l1 := swp_at l i1 j1).
  assert (rearr (p + 1) hi l l1) as Hr1 by (apply swp_rearr; lia).
  assert (elt l1 p = elt l p) as Hpv by (apply Hr1; lia).
  assert (forall k, p + 1 <= k < i1 + 1 -> le (elt l1 k) (elt l p)) as Hlow2.
  { intros k Hk. unfold l1. rewrite elt_swp by lia. unfold swap_idx.
    destruct (Z.eqb_spec k j1) as [->|]; [lia|]. destruct (Z.eqb_spec k i1) as [->|]; [done|]. apply Hlow1. lia. }
  assert (forall k, j1 <= k < hi -> le (elt l p) (elt l1 k)) as Hhigh2.
  { intros k Hk. unfold l1. rewrite elt_swp by lia. unfold swap_idx.
    destruct (Z.eqb_spec k j1) as [->|]; [done|]. destruct (Z.eqb_spec k i1) as [->|]; [lia|]. apply Hhigh1. lia. }
  destruct (Z.eqb_spec (i1 + 1) j1) as [He|Hne1].
  { split; [done|]. split; [lia|]. split; [done|]. intros k Hk. apply Hhigh2. lia. }
  specialize (IH p hi (i1 + 1) j1 l1). rewrite Hpv in IH. pose proof (rearr_llen _ _ _ _ Hr1).
  destruct (partition_loop _ _ _ _ _) as [i' l'].
  destruct IH as (Hr & Hi' & Hsp); try done; try lia.
  split; [by eapply rearr_trans|]. split; [lia|done].
Qed.

Lemma shiftr_1 z : 0 <= z -> Z.shiftr z 1 = z / 2.
Proof. intros. by rewrite Z.shiftr_div_pow2. Qed.

(** The pivot selection puts a median between two other elements. *)
Lemma pivot_spec base nmemb l : 0 <= base -> 16 < nmemb -> base + nmemb <= llen l ->
  let offset := Z.shiftr nmemb 1 in
  let l' :=
    if negb (Z.shiftr nmemb 10 =? 0) then
      let delta := Z.shiftr offset 1 in
      zend_sort_5 base (base + delta) (base + offset) (base + offset + delta) (base + nmemb - 1) l
    else zend_sort_3 base (base + offset) (base + nmemb - 1) l in
  rearr base (base + nmemb) l l' /\ le (elt l' base) (elt l' (base + offset)) /\
  le (elt l' (base + offset)) (elt l' (base + nmemb - 1)).
Proof.
  intros Hb Hn Hl. cbv zeta. rewrite (shiftr_1 nmemb) by lia. rewrite (shiftr_1 (nmemb / 2)) by zlia.
  destruct (Z.eqb_spec (Z.shiftr nmemb 10) 0) as [He|Hne]; cbn [negb].
  - destruct (sort_3_spec base (base + nmemb) base (base + nmemb / 2) (base + nmemb - 1) l) as (Hr & H1 & H2 & _);
      try done; zlia.
  - rewrite Z.shiftr_div_pow2 in Hne by lia. change (2 ^ 10) with 1024 in Hne.
    assert (1024 <= nmemb) by zlia.
    destruct (sort_5_spec base (base + nmemb) base (base + nmemb / 2 / 2) (base + nmemb / 2)
      (base + nmemb / 2 + nmemb / 2 / 2) (base + nmemb - 1) l) as (Hr & H1 & H2 & H3 & H4); try done; try zlia.
    split; [done|]. split; eapply cmp_trans; done.
Qed.

Lemma sort_partition_spec base nmemb l : 0 <= base -> 16 < nmemb -> base + nmemb <= llen l ->
  let (i, l') := sort_partition base nmemb l in
  rearr base (base + nmemb) l l' /\ base + 2 <= i <= base + nmemb - 1 /\
  (forall k, base <= k < i - 1 -> le (elt l' k) (elt l' (i - 1))) /\
  (forall k, i <= k < base + nmemb -> le (elt l' (i - 1)) (elt l' k)).
Proof.
  intros Hb Hn Hl. unfold sort_partition.
  pose proof (pivot_spec base nmemb l Hb Hn Hl) as Hpv. cbv zeta in Hpv.
  set (l1 := if negb (Z.shiftr nmemb 10 =? 0) then _ else _) in *. destruct Hpv as (Hr1 & Hlo & Hhi).
  rewrite shiftr_1 in * by lia. pose proof (rearr_llen _ _ _ _ Hr1) as Hlen1.
  assert (base + 1 < base + nmemb / 2 < base + nmemb - 1) as Hoff by zlia. generalize dependent (base + nmemb / 2).
  intros piv Hlo Hhi Hoff. set (l2 := swp_at l1 (base + 1) piv).
  assert (rearr base (base + nmemb) l1 l2) as Hr2 by (apply swp_rearr; lia).
  pose proof (rearr_llen _ _ _ _ Hr2) as Hlen2.
  assert (elt l2 (base + 1) = elt l1 piv) as Hv by (unfold l2; by repeat swp_step).
  pose proof (partition_loop_spec (Z.to_nat nmemb) (base + 1) (base + nmemb) (base + 1 + 1) (base + nmemb - 1) l2) as Hpart.
  destruct (partition_loop _ _ _ _ _) as [i l3]. rewrite Hv in Hpart.
  destruct Hpart as (Hr3 & Hi & Hlow & Hhigh); try lia.
  { intros k Hk. replace k with (base + nmemb - 1) by lia. unfold l2. by repeat swp_step. }
  pose proof (rearr_llen _ _ _ _ Hr3) as Hlen3.
  assert (elt l3 (base + 1) = elt l1 piv) as Hv3 by (rewrite <- Hv; apply Hr3; lia).
  assert (elt l3 base = elt l1 base) as Hb3.
  { transitivity (elt l2 base); [apply Hr3; lia|]. unfold l2. by repeat swp_step. }
  set (l4 := swp_at l3 (base + 1) (i - 1)).
  assert (elt l4 (i - 1) = elt l1 piv) as Hv4 by (unfold l4; repeat swp_step; done).
  split; [|split; [lia|]].
  - eapply rearr_trans; [exact Hr1|]. eapply rearr_trans; [exact Hr2|]. eapply rearr_trans; [|apply swp_rearr; lia].
    eapply rearr_mono; [| |exact Hr3]; lia.
  - rewrite Hv4. split; intros k Hk; unfold l4; rewrite elt_swp by lia; unfold swap_idx;
      destruct (Z.eqb_spec k (i - 1)) as [->|Hk1]; try lia;
      destruct (Z.eqb_spec k (base + 1)) as [->|Hk2]; try lia; [apply Hlow; lia| |apply Hhigh; lia].
    destruct (decide (k = base)) as [->|]; [by rewrite Hb3|]. apply Hlow. lia.
Qed.

(** * The sort *)

Lemma sorted_seg_outside l l' lo hi lo' hi' : rearr lo' hi' l l' -> 0 <= lo -> (hi <= lo' \/ hi' <= lo) ->
  sorted_seg l lo hi -> sorted_seg l' lo hi.
Proof. intros [_ Ho] Hlo Hd Hs i j Hi Hj. rewrite !Ho by lia. by apply Hs. Qed.

(** Sorting the two parts of a partition sorts the whole. *)
Lemma join_sorted base m hi l l1 l2 lo1 hi1 lo2 hi2 : 0 <= base -> base <= m < hi -> hi <= llen l ->
  (forall k, base <= k < m -> le (elt l k) (elt l m)) -> (forall k, m + 1 <= k < hi -> le (elt l m) (elt l k)) ->
  (lo1, hi1, lo2, hi2) = (base, m, m + 1, hi) \/ (lo1, hi1, lo2, hi2) = (m + 1, hi, base, m) ->
  rearr lo1 hi1 l l1 -> sorted_seg l1 lo1 hi1 -> rearr lo2 hi2 l1 l2 -> sorted_seg l2 lo2 hi2 ->
  rearr base hi l l2 /\ sorted_seg l2 base hi.
Proof.
  intros Hb Hm Hl Hlow Hhigh Hcase Hr1 Hs1 Hr2 Hs2.
  assert (lo1 <= hi1 /\ lo2 <= hi2 /\ base <= lo1 /\ base <= lo2 /\ hi1 <= hi /\ hi2 <= hi /\
    (hi1 <= lo2 \/ hi2 <= lo1)) as (? & ? & ? & ? & ? & ? & Hdis)
    by (destruct Hcase as [[= -> -> -> ->]|[= -> -> -> ->]]; lia).
  assert (rearr base hi l l2) as Hr.
  { eapply rearr_trans; (eapply rearr_mono; [| |done]); lia. }
  split; [done|]. pose proof (rearr_llen _ _ _ _ Hr1) as Hlen1.
  assert (elt l1 m = elt l m) as Hm1 by (apply Hr1; [lia|]; destruct Hcase as [[= -> -> -> ->]|[= -> -> -> ->]]; lia).
  assert (elt l2 m = elt l m) as Hm2
    by (rewrite <- Hm1; apply Hr2; [lia|]; destruct Hcase as [[= -> -> -> ->]|[= -> -> -> ->]]; lia).
  assert (sorted_seg l2 lo1 hi1) as Hs1' by (apply (sorted_seg_outside l1 l2 lo1 hi1 lo2 hi2); [done|lia|lia|done]).
  assert (forall (P : A -> Prop) lo' hi', (lo', hi') = (base, m) \/ (lo', hi') = (m + 1, hi) ->
    (forall k, lo' <= k < hi' -> P (elt l k)) -> forall k, lo' <= k < hi' -> P (elt l2 k)) as Hpres.
  { intros P lo' hi' Hc HP. assert ((lo', hi') = (lo1, hi1) \/ (lo', hi') = (lo2, hi2)) as [[= -> ->]|[= -> ->]].
    { destruct Hcase as [[= -> -> -> ->]|[= -> -> -> ->]]; tauto. }
    - intros k Hk. destruct Hr2 as [_ Ho]. rewrite Ho by lia. by apply (rearr_forall lo1 hi1 l l1 P); try lia.
    - apply (rearr_forall lo2 hi2 l1 l2 P); try lia; try done.
      intros k Hk. destruct Hr1 as [_ Ho]. rewrite Ho by lia. by apply HP. }
  pose proof (Hpres (fun x => le x (elt l m)) base m (or_introl eq_refl) Hlow) as Hlow2.
  pose proof (Hpres (fun x => le (elt l m) x) (m + 1) hi (or_intror eq_refl) Hhigh) as Hhigh2.
  assert (sorted_seg l2 base m /\ sorted_seg l2 (m + 1) hi) as [Hsl Hsr]
    by (destruct Hcase as [[= -> -> -> ->]|[= -> -> -> ->]]; done).
  apply sorted_seg_adjacent. intros i Hi Hi1. destruct (Z.lt_trichotomy i m) as [Hlt|[->|Hgt]].
  - destruct (decide (i + 1 = m)) as [->|]; [rewrite Hm2; apply Hlow2; lia|apply Hsl; lia].
  - rewrite Hm2. apply Hhigh2. lia.
  - apply Hsr; lia.
Qed.

Lemma sort_loop_spec n : forall base nmemb l, 0 <= base -> 0 <= nmemb -> base + nmemb <= llen l ->
  nmemb <= Z.of_nat n ->
  rearr base (base + nmemb) l (sort_loop n base nmemb l) /\ sorted_seg (sort_loop n base nmemb l) base (base + nmemb).
Proof.
  induction n as [|n IH]; intros base nmemb l Hb Hn Hl Hf; cbn [sort_loop];
    (destruct (Z.leb_spec nmemb 16); [by apply insert_sort_spec|]); [lia|].
  pose proof (sort_partition_spec base nmemb l Hb ltac:(lia) Hl) as Hp.
  destruct (sort_partition base nmemb l) as [i l0]. destruct Hp as (Hr0 & Hi & Hlow & Hhigh).
  pose proof (rearr_llen _ _ _ _ Hr0) as Hlen0.
  assert (forall k, i - 1 + 1 <= k < base + nmemb -> le (elt l0 (i - 1)) (elt l0 k)) as Hhigh'
    by (intros k Hk; apply Hhigh; lia).
  assert (forall l', llen l' = llen l0 -> let r := sort_loop n base (i - base - 1) l' in
    rearr base (i - 1) l' r /\ sorted_seg r base (i - 1)) as Hleft.
  { intros l' Hl'. pose proof (IH base (i - base - 1) l' Hb ltac:(lia) ltac:(lia) ltac:(lia)) as H'.
    by replace (base + (i - base - 1)) with (i - 1) in H' by lia. }
  assert (forall l', llen l' = llen l0 -> let r := sort_loop n i (base + nmemb - i) l' in
    rearr i (base + nmemb) l' r /\ sorted_seg r i (base + nmemb)) as Hright.
  { intros l' Hl'. pose proof (IH i (base + nmemb - i) l' ltac:(lia) ltac:(lia) ltac:(lia) ltac:(lia)) as H'.
    by replace (i + (base + nmemb - i)) with (base + nmemb) in H' by lia. }
  destruct (Z.ltb_spec (i - 1 - base) (base + nmemb - i)).
  - destruct (Hleft l0 eq_refl) as [Hr1 Hs1]. pose proof (rearr_llen _ _ _ _ Hr1) as Hlen1.
    destruct (Hright _ Hlen1) as [Hr2 Hs2].
    destruct (join_sorted base (i - 1) (base + nmemb) l0 _ _ base (i - 1) i (base + nmemb)
      Hb ltac:(lia) ltac:(lia) Hlow Hhigh' ltac:(left; do 2 f_equal; lia) Hr1 Hs1 Hr2 Hs2) as [Hr Hs].
    split; [by eapply rearr_trans|done].
  - destruct (Hright l0 eq_refl) as [Hr1 Hs1]. pose proof (rearr_llen _ _ _ _ Hr1) as Hlen1.
    destruct (Hleft _ Hlen1) as [Hr2 Hs2].
    destruct (join_sorted base (i - 1) (base + nmemb) l0 _ _ i (base + nmemb) base (i - 1)
      Hb ltac:(lia) ltac:(lia) Hlow Hhigh' ltac:(right; do 3 f_equal; lia) Hr1 Hs1 Hr2 Hs2) as [Hr Hs].
    split; [by eapply rearr_trans|done].
Qed.

Lemma zend_sort_ok l :
  zend_sort l ≡ₚ l /\
  forall i j x y, (i < j)%nat -> zend_sort l !! i = Some x -> zend_sort l !! j = Some y -> cmp x y <= 0.
Proof.
  destruct (sort_loop_spec (length l) 0 (llen l) l) as [Hr Hs]; [lia|apply llen_nonneg|lia|unfold llen; lia|].
  fold (zend_sort l) in *. pose proof (rearr_llen _ _ _ _ Hr) as Hlen. split; [by symmetry; apply Hr|].
  intros i j x y Hij Hx Hy. pose proof (lookup_lt_Some _ _ _ Hy) as Hj. unfold llen in *.
  specialize (Hs (Z.of_nat i) (Z.of_nat j) ltac:(lia) ltac:(lia)). unfold le, elt, lget in Hs.
  rewrite !Nat2Z.id, Hx, Hy in Hs. exact Hs.
Qed.

(** C14: [zend_sort] terminates with a sorted permutation of the array, for
    every length and every comparison that is a total preorder; in particular
    the partition never runs out of the array and each part shrinks. *)
Theorem zend_sort_correct l :
  zend_sort l ≡ₚ l /\
  forall i j x y, (i < j)%nat -> zend_sort l !! i = Some x -> zend_sort l !! j = Some y -> cmp x y <= 0.
Proof. apply zend_sort_ok. Qed.

(** [zend_insert_sort] on a range sorts the range, permutes only the
    elements of the range and leaves the rest of the array alone; for six and
    more elements its insertion point is found in steps of two. *)
Theorem zend_insert_sort_correct base nmemb l : 0 <= base -> 0 <= nmemb -> base + nmemb <= llen l ->
  zend_insert_sort base nmemb l ≡ₚ l /\
  (forall i, 0 <= i -> ~ (base <= i < base + nmemb) -> elt (zend_insert_sort base nmemb l) i = elt l i) /\
  (forall i j, base <= i < j -> j < base + nmemb ->
     cmp (elt (zend_insert_sort base nmemb l) i) (elt (zend_insert_sort base nmemb l) j) <= 0).
Proof.
  intros Hb Hn Hl. destruct (insert_sort_spec base nmemb l Hb Hn Hl) as [[Hp Ho] Hs].
  split; [by symmetry|]. by split.
Qed.

End Sort.

(** * Sorting seen through a projection *)

(** If the comparison looks at [f] of the elements only, and [swpA] exchanges
    what [f] shows of them, the sort does to [f <$> l] what the other one does;
    the rest of the elements may stay in place. *)
Section Simulation.
Context {A B : Type} (f : A -> B) (dA : A) (cmpA : A -> A -> Z) (swpA : A -> A -> A * A) (cmpB : B -> B -> Z) (swpB : B -> B -> B * B).
Hypothesis cmp_f : forall a b, cmpA a b = cmpB (f a) (f b).
Hypothesis swp_f : forall a b, swpB (f a) (f b) = (f (swpA a b).1, f (swpA a b).2).
Local Notation dB := (f dA).

Lemma sim_elt l i : elt dB (f <$> l) i = f (elt dA l i).
Proof. unfold elt, lget. rewrite list_lookup_fmap. by destruct (l !! Z.to_nat i). Qed.

Lemma sim_gt_at l a b : gt_at dB cmpB (f <$> l) a b = gt_at dA cmpA l a b.
Proof. unfold gt_at. by rewrite !sim_elt, <- cmp_f. Qed.

Lemma sim_swp_at l a b : swp_at dB swpB (f <$> l) a b = f <$> swp_at dA swpA l a b.
Proof.
  unfold swp_at. rewrite !sim_elt, swp_f. destruct (swpA (elt dA l a) (elt dA l b)) as [x y]. cbn [fst snd].
  unfold lset. by rewrite !list_fmap_insert.
Qed.

Ltac sim := repeat first [rewrite sim_gt_at | rewrite sim_swp_at]; repeat case_match; try done.

Lemma sim_sort_2 a b l : zend_sort_2 dB cmpB swpB a b (f <$> l) = f <$> zend_sort_2 dA cmpA swpA a b l.
Proof. unfold zend_sort_2. by sim. Qed.

Lemma sim_sort_3 a b c l : zend_sort_3 dB cmpB swpB a b c (f <$> l) = f <$> zend_sort_3 dA cmpA swpA a b c l.
Proof. unfold zend_sort_3. by sim. Qed.

Lemma sim_sort_4 a b c d l : zend_sort_4 dB cmpB swpB a b c d (f <$> l) = f <$> zend_sort_4 dA cmpA swpA a b c d l.
Proof. unfold zend_sort_4. rewrite sim_sort_3. generalize (zend_sort_3 dA cmpA swpA a b c l). intros u. by sim. Qed.

Lemma sim_sort_5 a b c d e l : zend_sort_5 dB cmpB swpB a b c d e (f <$> l) = f <$> zend_sort_5 dA cmpA swpA a b c d e l.
Proof. unfold zend_sort_5. rewrite sim_sort_4. generalize (zend_sort_4 dA cmpA swpA a b c d l). intros u. by sim. Qed.

Lemma sim_insert_pos_1 n : forall start i j l, insert_pos_1 dB cmpB n start i j (f <$> l) = insert_pos_1 dA cmpA n start i j l.
Proof. induction n as [|n IH]; intros; cbn [insert_pos_1]; [done|]. rewrite sim_gt_at. case_match; [done|]. case_match; [done|]. apply IH. Qed.

Lemma sim_insert_pos_2 n : forall start i j l, insert_pos_2 dB cmpB n start i j (f <$> l) = insert_pos_2 dA cmpA n start i j l.
Proof. induction n as [|n IH]; intros; cbn [insert_pos_2]; [done|]. cbv zeta. rewrite !sim_gt_at, IH. done. Qed.

Lemma sim_shift_down n : forall k l, shift_down dB swpB n k (f <$> l) = f <$> shift_down dA swpA n k l.
Proof. induction n as [|n IH]; intros; cbn [shift_down]; [done|]. by rewrite sim_swp_at, IH. Qed.

Lemma sim_insert_loop n : forall start sentry i l, insert_loop dB cmpB swpB n start sentry i (f <$> l) = f <$> insert_loop dA cmpA swpA n start sentry i l.
Proof.
  induction n as [|n IH]; intros; cbn [insert_loop]; [done|]. rewrite <- IH. f_equal. unfold insert_step. cbv zeta.
  rewrite sim_gt_at, sim_insert_pos_1, sim_insert_pos_2. case_match; [done|]. by rewrite sim_shift_down.
Qed.

Lemma sim_insert_sort base nmemb l : zend_insert_sort dB cmpB swpB base nmemb (f <$> l) = f <$> zend_insert_sort dA cmpA swpA base nmemb l.
Proof.
  unfold zend_insert_sort. rewrite sim_sort_2, sim_sort_3, sim_sort_4, sim_sort_5, sim_insert_loop. by repeat case_match.
Qed.

Lemma sim_scan_up n : forall pivot i j l, scan_up dB cmpB n pivot i j (f <$> l) = scan_up dA cmpA n pivot i j l.
Proof. induction n as [|n IH]; intros; cbn [scan_up]; [done|]. cbv zeta. by rewrite sim_gt_at, IH. Qed.

Lemma sim_scan_down n : forall pivot i j l, scan_down dB cmpB n pivot i j (f <$> l) = scan_down dA cmpA n pivot i j l.
Proof. induction n as [|n IH]; intros; cbn [scan_down]; [done|]. cbv zeta. by rewrite sim_gt_at, IH. Qed.

Lemma sim_partition_loop n : forall pivot i j l,
  partition_loop dB cmpB swpB n pivot i j (f <$> l) =
    ((partition_loop dA cmpA swpA n pivot i j l).1, f <$> (partition_loop dA cmpA swpA n pivot i j l).2).
Proof.
  induction n as [|n IH]; intros; cbn [partition_loop]; [done|]. rewrite sim_scan_up. destruct (scan_up dA cmpA _ pivot i j l) as [i1 fin].
  destruct fin; [done|]. cbv zeta. case_match; [done|]. rewrite sim_scan_down. destruct (scan_down dA cmpA _ pivot i1 (j - 1) l) as [j1 fin].
  destruct fin; [done|]. case_match; [by rewrite sim_swp_at|]. by rewrite sim_swp_at, IH.
Qed.

Lemma sim_partition base nmemb l :
  sort_partition dB cmpB swpB base nmemb (f <$> l) =
    ((sort_partition dA cmpA swpA base nmemb l).1, f <$> (sort_partition dA cmpA swpA base nmemb l).2).
Proof.
  unfold sort_partition. cbv zeta. set (c := negb _).
  assert (forall u, (let (i, l) := partition_loop dB cmpB swpB (Z.to_nat nmemb) (base + 1) (base + 1 + 1) (base + nmemb - 1)
      (swp_at dB swpB (f <$> u) (base + 1) (base + Z.shiftr nmemb 1)) in (i, swp_at dB swpB l (base + 1) (i - 1))) =
    ((let (i, l) := partition_loop dA cmpA swpA (Z.to_nat nmemb) (base + 1) (base + 1 + 1) (base + nmemb - 1)
      (swp_at dA swpA u (base + 1) (base + Z.shiftr nmemb 1)) in (i, swp_at dA swpA l (base + 1) (i - 1))).1,
     f <$> (let (i, l) := partition_loop dA cmpA swpA (Z.to_nat nmemb) (base + 1) (base + 1 + 1) (base + nmemb - 1)
      (swp_at dA swpA u (base + 1) (base + Z.shiftr nmemb 1)) in (i, swp_at dA swpA l (base + 1) (i - 1))).2)) as H.
  { intros u. rewrite sim_swp_at, sim_partition_loop. destruct (partition_loop dA cmpA swpA _ _ _ _ _) as [i v]. cbn [fst snd]. by rewrite sim_swp_at. }
  destruct c; [rewrite sim_sort_5|rewrite sim_sort_3]; apply H.
Qed.

Lemma sim_sort_loop n : forall base nmemb l, sort_loop dB cmpB swpB n base nmemb (f <$> l) = f <$> sort_loop dA cmpA swpA n base nmemb l.
Proof.
  induction n as [|n IH]; intros; cbn [sort_loop]; rewrite sim_insert_sort; [by case_match|]. case_match; [done|].
  rewrite sim_partition. destruct (sort_partition dA cmpA swpA base nmemb l) as [i u]. cbn [fst snd]. cbv zeta.
  case_match; by rewrite !IH.
Qed.

Lemma zend_sort_sim l : zend_sort dB cmpB swpB (f <$> l) = f <$> zend_sort dA cmpA swpA l.
Proof. unfold zend_sort. rewrite <- sim_sort_loop, length_fmap. f_equal. unfold llen. by rewrite length_fmap. Qed.
End Simulation.
