(* ===== verification/HashCopy.v ===== *)
(** Copying, merging, duplicating and sorting tables (Zend/zend_hash.c), the
    iterators that follow a table through its copies, and the conversions
    between symbol and property tables. *)

From stdpp Require Import base numbers list gmap.
From S2P Require Import Prelude ZendTypes NumericStr HashTable HashOps HashSymtable ZendSort.

(** What copying asks of a value: [Z_OPT_REFCOUNTED]; the referenced value when
    it is a reference with a single owner ([Z_ISREF] and a refcount of 1); the
    address of the table when it is an array. *)
Class ZValue (V : Type) := {
  Z_OPT_REFCOUNTED : V -> bool;
  Z_REFVAL_1 : V -> option (zval V);
  Z_ARRVAL : V -> option Z
}.

Section Copy.
Context {V : Type} {E : ZEnv V} {Z_ops : ZValue V}.
Implicit Types (t : HashTable V) (w : EG V) (b : Bucket V) (v : zval V).

(** * Iterators *)

Definition null_iter : HashTableIterator := mk_iter 0 0 0.
Definition iter_at w (idx : Z) : HashTableIterator := lget null_iter (ht_iterators w) idx.
Definition upd_iter (idx : Z) (f : HashTableIterator -> HashTableIterator) w : EG V :=
  set_ht_iterators (lset (ht_iterators w) idx (f (iter_at w idx))) w.

(** The first slot whose table is NULL, from [i]. *)
Fixpoint free_iter (l : list HashTableIterator) (i : Z) : option Z :=
  match l with
  | [] => None
  | it :: l => if it_ht it =? 0 then Some i else free_iter l (i + 1)
  end.

Definition inc_iterators t : HashTable V :=
  if negb (HT_ITERATORS_OVERFLOW t) then HT_INC_ITERATORS_COUNT t else t.
Definition dec_iterators t : HashTable V :=
  if negb (HT_ITERATORS_OVERFLOW t) then HT_DEC_ITERATORS_COUNT t else t.

Definition zend_hash_iterator_add (pos : Z) (s : state V) : state V * Z :=
  let (t, w) := s in
  let t := inc_iterators t in
  match free_iter (ht_iterators w) 0 with
  | Some idx =>
      let w := upd_iter idx (fun _ => mk_iter (ht_id t) pos idx) w in
      ((t, if ht_iterators_used w <? idx + 1 then set_ht_iterators_used (idx + 1) w else w), idx)
  | None =>
      let idx := llen (ht_iterators w) in
      let w := set_ht_iterators (ht_iterators w ++ mk_iter (ht_id t) pos idx :: replicate 7 null_iter) w in
      ((t, set_ht_iterators_used (idx + 1) w), idx)
  end.

(** Operations on iterators of several tables work on the tables by address. *)
Definition tables : Type := gmap Z (HashTable V) * EG V.

(** [if (iter->ht && iter->ht != HT_POISONED_PTR && !overflow) HT_DEC_ITERATORS_COUNT(iter->ht)] *)
Definition dec_table (h : Z) (m : gmap Z (HashTable V)) : gmap Z (HashTable V) :=
  if negb (h =? 0) && negb (h =? HT_POISONED_PTR) then alter dec_iterators h m else m.
Definition inc_table (h : Z) (m : gmap Z (HashTable V)) : gmap Z (HashTable V) := alter inc_iterators h m.

(** [while (idx > 0 && EG(ht_iterators)[idx - 1].ht == NULL) idx--;] *)
Fixpoint trim_iterators (n : nat) w : Z :=
  match n with
  | O => 0
  | S m => if it_ht (iter_at w (Z.of_nat m)) =? 0 then trim_iterators m w else Z.of_nat n
  end.

(** [zend_hash_iterator_del] without the removal of copies. *)
Definition iterator_del_one (idx : Z) (s : tables) : tables :=
  let (m, w) := s in
  (dec_table (it_ht (iter_at w idx)) m, upd_iter idx (set_it_ht 0) w).

Definition iterator_del_trim (idx : Z) (s : tables) : tables :=
  let (m, w) := s in
  if idx =? ht_iterators_used w - 1 then (m, set_ht_iterators_used (trim_iterators (Z.to_nat idx) w) w) else s.

(** The loop of [zend_hash_remove_iterator_copies]: each copy is made its own
    only copy before it is deleted, so the deletion does not recurse. *)
Fixpoint remove_copies_loop (n : nat) (idx next_idx : Z) (s : tables) : tables :=
  match n with
  | O => s
  | S n =>
      if next_idx =? idx then s
      else
        let (m, w) := s in
        let cur_idx := next_idx in
        let next_idx := it_next_copy (iter_at w cur_idx) in
        let w := upd_iter cur_idx (set_it_next_copy cur_idx) w in
        remove_copies_loop n idx next_idx (iterator_del_trim cur_idx (iterator_del_one cur_idx (m, w)))
  end.

Definition zend_hash_remove_iterator_copies (idx : Z) (s : tables) : tables :=
  let (m, w) := remove_copies_loop (length (ht_iterators s.2)) idx (it_next_copy (iter_at s.2 idx)) s in
  (m, upd_iter idx (set_it_next_copy idx) w).

Definition zend_hash_iterator_del (idx : Z) (s : tables) : tables :=
  let s := iterator_del_one idx s in
  let s := if negb (it_next_copy (iter_at s.2 idx) =? idx) then zend_hash_remove_iterator_copies idx s else s in
  iterator_del_trim idx s.

(** Search the ring of copies for one on table [h]. *)
Fixpoint find_copy (n : nat) w (idx next_idx h : Z) : option Z :=
  match n with
  | O => None
  | S n =>
      if next_idx =? idx then None
      else if it_ht (iter_at w next_idx) =? h then Some next_idx
      else find_copy n w idx (it_next_copy (iter_at w next_idx)) h
  end.

Definition zend_hash_iterator_find_copy_pos (idx h : Z) (s : tables) : tables * bool :=
  let (m, w) := s in
  let next_idx := it_next_copy (iter_at w idx) in
  if negb (next_idx =? idx) then
    match find_copy (length (ht_iterators w)) w idx next_idx h with
    | Some c =>
        let m := inc_table h (dec_table (it_ht (iter_at w idx)) m) in
        let copy := iter_at w c in
        let w := upd_iter idx (fun it => mk_iter (it_ht copy) (it_pos copy) (it_next_copy it)) w in
        (zend_hash_remove_iterator_copies idx (m, w), true)
    | None => (zend_hash_remove_iterator_copies idx s, false)
    end
  else (s, false).

Definition current_pos_of (h : Z) (m : gmap Z (HashTable V)) : Z :=
  match m !! h with Some t => zend_hash_get_current_pos t | None => 0 end.

Definition zend_hash_iterator_pos (idx h : Z) (s : tables) : tables * Z :=
  if negb (it_ht (iter_at s.2 idx) =? h) then
    let (s, found) := zend_hash_iterator_find_copy_pos idx h s in
    if found then (s, it_pos (iter_at s.2 idx))
    else
      let (m, w) := s in
      let m := inc_table h (dec_table (it_ht (iter_at w idx)) m) in
      let pos := current_pos_of h m in
      ((m, upd_iter idx (fun it => mk_iter h pos (it_next_copy it)) w), pos)
  else (s, it_pos (iter_at s.2 idx)).

(** * Copy and merge *)

(** [pCopyConstructor(p)], if there is one and [p] is not NULL. *)
Definition run_ctor (ctor : option (zptr -> state V -> state V)) (p : option zptr) (s : state V) : state V :=
  match ctor, p with
  | Some f, Some p => f p s
  | _, _ => s
  end.

(** Insert with [op], then run the constructor on the new element. *)
Definition insert_ctor ctor (r : option (state V * option zptr)) : option (state V) :=
  '(s, p) ← r; Some (run_ctor ctor p s).

(** The body of the loop of [zend_hash_copy] for the element at [idx]. *)
Definition copy_element (ctor : option (zptr -> state V -> state V)) (src : HashTable V) (idx : Z) (s : state V)
    : option (state V) :=
  if pos_undef src idx then Some s
  else if fl_PACKED src then insert_ctor ctor (zend_hash_index_update idx (packed src idx) s)
  else
    let p := bucket src idx in
    let data := deref_indirect s.2 (b_val p) in
    if Z_ISUNDEF data then Some s
    else match b_key p with
         | Some key => insert_ctor ctor (zend_hash_update key data s)
         | None => insert_ctor ctor (zend_hash_index_update (b_h p) data s)
         end.

(** [for (idx = 0; idx < source->nNumUsed; idx++)] *)
Fixpoint source_loop (body : Z -> state V -> option (state V)) (n : nat) (idx : Z) (s : state V)
    : option (state V) :=
  match n with
  | O => Some s
  | S n => s ← body idx s; source_loop body n (idx + 1) s
  end.

(** The source is another table: the target operations leave it unchanged. *)
Definition zend_hash_copy ctor (src : HashTable V) (s : state V) : option (state V) :=
  source_loop (copy_element ctor src) (Z.to_nat (nNumUsed src)) 0 s.

Definition merge_element ctor (overwrite : bool) (src : HashTable V) (idx : Z) (s : state V)
    : option (state V) :=
  let data := if fl_PACKED src then packed src idx else deref_indirect s.2 (b_val (bucket src idx)) in
  if Z_ISUNDEF data then Some s
  else
    match key_at src idx with
    | (_, Some key) =>
        insert_ctor ctor (zend_hash_add_or_update_i key data
          (Z.lor (if overwrite then HASH_UPDATE else HASH_ADD) HASH_UPDATE_INDIRECT) s)
    | (h, None) =>
        insert_ctor ctor (if overwrite then zend_hash_index_update h data s else zend_hash_index_add h data s)
    end.

Definition zend_hash_merge ctor (overwrite : bool) (src : HashTable V) (s : state V) : option (state V) :=
  source_loop (merge_element ctor overwrite src) (Z.to_nat (nNumUsed src)) 0 s.

(** [checker] is [zend_hash_replace_checker_wrapper] with its parameter: it sees
    the target, the source value and the source key.  Elements without a
    string key cannot be merged this way. *)
Definition merge_ex_element ctor (checker : state V -> zval V -> Z * option Z -> bool)
    (src : HashTable V) (idx : Z) (s : state V) : option (state V) :=
  let p := bucket src idx in
  if Z_ISUNDEF (b_val p) then Some s
  else if checker s (b_val p) (b_h p, b_key p) then
    match b_key p with
    | Some key => insert_ctor ctor (zend_hash_update key (b_val p) s)
    | None => None
    end
  else Some s.

Definition zend_hash_merge_ex ctor checker (src : HashTable V) (s : state V) : option (state V) :=
  source_loop (merge_ex_element ctor checker src) (Z.to_nat (nNumUsed src)) 0 s.

(** * Duplication *)

Definition zval_refcounted v : bool := match v with IS_VALUE x => Z_OPT_REFCOUNTED x | _ => false end.

(** The [do { ... } while (0)] of the copies: a reference with a single owner is
    replaced by its value (unless that value is the array [self] itself), and
    a refcounted value gains a reference. *)
Definition copy_zval (self : option Z) v w : zval V * EG V :=
  match v with
  | IS_VALUE x =>
      if Z_OPT_REFCOUNTED x then
        match Z_REFVAL_1 x with
        | Some y =>
            let is_self := match self, y with
                           | Some a, IS_VALUE z => bool_decide (Z_ARRVAL z = Some a)
                           | _, _ => false
                           end in
            if is_self then (v, emit (EvAddrefVal v) w)
            else if zval_refcounted y then (y, emit (EvAddrefVal y) w) else (y, w)
        | None => (v, emit (EvAddrefVal v) w)
        end
      else (v, w)
  | _ => (v, w)
  end.

Definition zend_array_dup_value (self : Z) data (pckd with_holes : bool) w : option (zval V * EG V) :=
  if with_holes then
    let data := if negb pckd then deref_indirect w data else data in
    if Z_ISUNDEF data then None else Some (copy_zval (Some self) data w)
  else if negb pckd then
    match data with
    | IS_INDIRECT a => if Z_ISUNDEF (slot w a) then None else Some (copy_zval (Some self) (slot w a) w)
    | _ => Some (copy_zval (Some self) data w)
    end
  else Some (copy_zval (Some self) data w).

(** Copy bucket [p] of the source to bucket [idx] of the target and link it. *)
Definition zend_array_dup_element (src : HashTable V) (idx p : Z) (static_keys with_holes : bool) (s : state V)
    : option (state V) :=
  let (t, w) := s in
  let bp := bucket src p in
  '(v, w) ← zend_array_dup_value (ht_id src) (b_val bp) false with_holes w;
  let t := upd_bucket idx (fun q => mk_Bucket v (b_next q) (b_h bp) (b_key bp)) t in
  let w := if negb static_keys then
             match b_key bp with
             | Some k => if ZSTR_IS_INTERNED k then w else emit (EvAddref k) w
             | None => w
             end
           else w in
  Some (link_bucket idx t, w).

(** Register a copy, on the target, of every iterator of the source. *)
Fixpoint dup_iterators_loop (n : nat) (i source : Z) (s : state V) : state V :=
  match n with
  | O => s
  | S n =>
      let it := iter_at s.2 i in
      if it_ht it =? source then
        let '((t, w), copy_idx) := zend_hash_iterator_add (it_pos it) s in
        let w := upd_iter copy_idx (set_it_next_copy (it_next_copy (iter_at w i))) w in
        dup_iterators_loop n (i + 1) source (t, upd_iter i (set_it_next_copy copy_idx) w)
      else dup_iterators_loop n (i + 1) source s
  end.

Definition zend_array_dup_ht_iterators (src : HashTable V) (s : state V) : state V :=
  dup_iterators_loop (Z.to_nat (ht_iterators_used s.2)) 0 (ht_id src) s.

Fixpoint dup_packed_loop (n : nat) (i : Z) (src : HashTable V) (with_holes : bool) (s : state V) : state V :=
  match n with
  | O => s
  | S n =>
      let (t, w) := s in
      let s := match zend_array_dup_value (ht_id src) (packed src i) true with_holes w with
               | Some (v, w) => (set_packed i v t, w)
               | None => if with_holes then (set_packed i IS_UNDEF t, w) else s
               end in
      dup_packed_loop n (i + 1) src with_holes s
  end.

Definition zend_array_dup_packed_elements (src : HashTable V) (with_holes : bool) (s : state V) : state V :=
  let s := dup_packed_loop (Z.to_nat (nNumUsed src)) 0 src with_holes s in
  if HT_HAS_ITERATORS src then zend_array_dup_ht_iterators src s else s.

(** The loop after the first skipped element: source position [idx], target
    position [target_idx].  [iter_pos] is [Some] when the target has iterators. *)
Fixpoint dup_shift_loop (n : nat) (idx target_idx : Z) (iter_pos : option Z) (src : HashTable V)
    (static_keys with_holes : bool) (s : state V) : state V * Z :=
  match n with
  | O => (s, target_idx)
  | S n =>
      match zend_array_dup_element src target_idx idx static_keys with_holes s with
      | Some (t, w) =>
          let t := if nInternalPointer src =? idx then set_nInternalPointer target_idx t else t in
          let (w, iter_pos) :=
            match iter_pos with
            | Some ip =>
                if ip <=? idx then
                  let (w, ip) := iter_move_loop (Z.to_nat idx) t w idx target_idx ip in (w, Some ip)
                else (w, Some ip)
            | None => (w, None)
            end in
          dup_shift_loop n (idx + 1) (target_idx + 1) iter_pos src static_keys with_holes (t, w)
      | None => dup_shift_loop n (idx + 1) target_idx iter_pos src static_keys with_holes s
      end
  end.

(** The loop while nothing has been skipped. *)
Fixpoint dup_elements_loop (n : nat) (idx : Z) (src : HashTable V) (static_keys with_holes : bool)
    (s : state V) : state V * Z :=
  match n with
  | O => (s, idx)
  | S n =>
      match zend_array_dup_element src idx idx static_keys with_holes s with
      | Some s => dup_elements_loop n (idx + 1) src static_keys with_holes s
      | None =>
          let (t, w) := s in
          if negb (HT_HAS_ITERATORS t) then
            dup_shift_loop n (idx + 1) idx None src static_keys with_holes s
          else
            let t := set_nNumUsed (nNumUsed src) t in
            dup_shift_loop n (idx + 1) idx (Some (zend_hash_iterators_lower_pos t w (idx + 1)))
              src static_keys with_holes (t, w)
      end
  end.

Definition zend_array_dup_elements (src : HashTable V) (static_keys with_holes : bool) (s : state V)
    : state V * Z :=
  let s := if HT_HAS_ITERATORS src then zend_array_dup_ht_iterators src s else s in
  dup_elements_loop (Z.to_nat (nNumUsed src)) 0 src static_keys with_holes s.

(** [id] is the address of the new table, [immutable] the flag of the source;
    the destructor of the copy is [ZVAL_PTR_DTOR]. *)
Definition zend_array_dup (id : Z) (immutable : bool) (src : HashTable V) w : state V :=
  let used := Z.to_nat (nNumUsed src) in
  let size := nTableSize src in
  if nNumOfElements src =? 0 then
    (mk_HashTable id false true false false 0 HT_MIN_MASK [HT_INVALID_IDX; HT_INVALID_IDX] [] []
       0 0 HT_MIN_SIZE 0 (nNextFreeElement src) true, w)
  else if immutable then
    let t := mk_HashTable id (fl_PACKED src) (fl_UNINITIALIZED src) (fl_STATIC_KEYS src) (fl_HAS_EMPTY_IND src) 0
               (nTableMask src) (arHash src) [] [] (nNumUsed src) (nNumOfElements src) size
               (nInternalPointer src) (nNextFreeElement src) true in
    (if fl_PACKED src then
       set_arPacked (take used (arPacked src) ++ drop used (fresh_zvals size)) t
     else set_arData (take used (arData src) ++ drop used (fresh_buckets size)) t, w)
  else if fl_PACKED src then
    let t := mk_HashTable id true (fl_UNINITIALIZED src) (fl_STATIC_KEYS src) (fl_HAS_EMPTY_IND src) 0
               HT_MIN_MASK (replicate 2 (b_next (junk 0))) [] (fresh_zvals size)
               (nNumUsed src) (nNumOfElements src) size
               (if nInternalPointer src <? nNumUsed src then nInternalPointer src else 0)
               (nNextFreeElement src) true in
    let t := HT_HASH_RESET_PACKED t in
    zend_array_dup_packed_elements src (negb (HT_IS_WITHOUT_HOLES t)) (t, w)
  else
    (* nNumUsed and nNumOfElements of the fresh memory are set at the end. *)
    let t := mk_HashTable id false (fl_UNINITIALIZED src) (fl_STATIC_KEYS src) false 0
               (nTableMask src) (replicate (Z.to_nat (HT_HASH_CELLS (nTableMask src))) HT_INVALID_IDX)
               (fresh_buckets size) [] 0 0 size
               (if nInternalPointer src <? nNumUsed src then nInternalPointer src else 0)
               (nNextFreeElement src) true in
    let '((t, w), idx) :=
      zend_array_dup_elements src (HT_HAS_STATIC_KEYS_ONLY t) (negb (HT_IS_WITHOUT_HOLES src)) (t, w) in
    (set_nNumOfElements idx (set_nNumUsed idx t), w).

(** * Iterators of arrays that are shared *)

(** [zend_hash_iterator_pos_ex] on the variable with the array at [h]: [shared]
    is [GC_REFCOUNT(ht) > 1], [id] the address of the copy that separates it.
    The address of the array of the variable is returned before the position.
    The test for an overflown count looks at the new table, not at the one whose
    count is decremented. *)
Definition zend_hash_iterator_pos_ex (idx h : Z) (shared immutable : bool) (id : Z) (s : tables) : tables * Z * Z :=
  if negb (it_ht (iter_at s.2 idx) =? h) then
    let (s, found) := zend_hash_iterator_find_copy_pos idx h s in
    if found then (s, h, it_pos (iter_at s.2 idx))
    else
      let (m, w) := s in
      let old := it_ht (iter_at w idx) in
      let overflow := match m !! h with Some t => HT_ITERATORS_OVERFLOW t | None => false end in
      let m := if negb (old =? 0) && negb (old =? HT_POISONED_PTR) && negb overflow
               then alter HT_DEC_ITERATORS_COUNT old m else m in
      let '(m, w, h) :=
        match (if shared then m !! h else None) with
        | Some t => let (t', w) := zend_array_dup id immutable t w in (<[id := t']> m, w, id)
        | None => (m, w, h)
        end in
      let m := inc_table h m in
      let pos := current_pos_of h m in
      ((m, upd_iter idx (fun it => mk_iter h pos (it_next_copy it)) w), h, pos)
  else (s, h, it_pos (iter_at s.2 idx)).

(** * Lists *)

(** Fill the packed elements of [t] from [fill_idx] with the values of [src]. *)
Fixpoint to_list_loop (n : nat) (idx fill_idx : Z) (src : HashTable V) (s : state V) : state V * Z :=
  match n with
  | O => (s, fill_idx)
  | S n =>
      if pos_undef src idx then to_list_loop n (idx + 1) fill_idx src s
      else
        let (t, w) := s in
        let (v, w) := copy_zval None (pos_val src idx) w in
        to_list_loop n (idx + 1) (fill_idx + 1) src (set_packed fill_idx v t, w)
  end.

(** [ZEND_HASH_FILL_FINISH] *)
Definition fill_finish (fill_idx : Z) t : HashTable V :=
  set_nInternalPointer 0 (set_nNextFreeElement fill_idx (set_nNumUsed fill_idx
    (set_nNumOfElements (u32 (nNumOfElements t + (fill_idx - nNumUsed t))) t))).

Definition zend_array_to_list (id : Z) (src : HashTable V) w : option (state V) :=
  result ← zend_new_array id (nNumOfElements src);
  let result := zend_hash_real_init_packed_ex result in
  let '((t, w), n) := to_list_loop (Z.to_nat (nNumUsed src)) 0 (nNumUsed result) src (result, w) in
  Some (fill_finish n t, w).

(** * Symbol and property tables *)

(** [None]: the table itself is returned, with one more reference unless it is
    immutable. *)
Definition needs_property_conversion (src : HashTable V) : bool :=
  fl_PACKED src ||
  existsb (fun i => negb (pos_undef src i) && negb (is_some (b_key (bucket src i))))
    (zrange 0 (Z.to_nat (nNumUsed src))).

(** [long_str h]: the address of the string that [zend_long_to_str(h)] returns. *)
Definition property_element (long_str : Z -> Z) (src : HashTable V) (idx : Z) (s : state V) : option (state V) :=
  if pos_undef src idx then Some s
  else
    let key := match key_at src idx with (_, Some k) => k | (h, None) => long_str h end in
    let (t, w) := s in
    let (v, w) := copy_zval None (pos_val src idx) w in
    '(s, _) ← zend_hash_update key v (t, w); Some s.

Definition zend_symtable_to_proptable (id : Z) (long_str : Z -> Z) (src : HashTable V) w
    : option (option (state V)) :=
  if needs_property_conversion src then
    t ← zend_new_array id (nNumOfElements src);
    s ← source_loop (property_element long_str src) (Z.to_nat (nNumUsed src)) 0 (t, w);
    Some (Some s)
  else Some None.

Definition needs_symtable_conversion (src : HashTable V) : bool :=
  negb (fl_PACKED src) &&
  existsb (fun i => negb (pos_undef src i) &&
    match b_key (bucket src i) with Some k => is_some (ZEND_HANDLE_NUMERIC k) | None => false end)
    (zrange 0 (Z.to_nat (nNumUsed src))).

(** [ZEND_HASH_MAP_FOREACH_KEY_VAL_IND] skips undefined slots. *)
Definition symtable_element (src : HashTable V) (idx : Z) (s : state V) : option (state V) :=
  let p := bucket src idx in
  let (t, w) := s in
  let data := deref_indirect w (b_val p) in
  if Z_ISUNDEF data then Some s
  else
    let (v, w) := copy_zval None data w in
    '(s, _) ← match b_key p with
              | None => zend_hash_index_update (b_h p) v (t, w)
              | Some k => match ZEND_HANDLE_NUMERIC k with
                          | Some num_key => zend_hash_index_update num_key v (t, w)
                          | None => zend_hash_update k v (t, w)
                          end
              end;
    Some s.

Definition zend_proptable_to_symtable (id : Z) (immutable always_duplicate : bool) (src : HashTable V) w
    : option (option (state V)) :=
  if needs_symtable_conversion src then
    t ← zend_new_array id (nNumOfElements src);
    s ← source_loop (symtable_element src) (Z.to_nat (nNumUsed src)) 0 (t, w);
    Some (Some s)
  else if always_duplicate then Some (Some (zend_array_dup id immutable src w))
  else Some None.

(** * Sorting *)

(** The swaps exchange whole [zval]s, the [u2] word included. *)
Definition zend_hash_bucket_swap (p q : Bucket V) : Bucket V * Bucket V := (q, p).
Definition zend_hash_bucket_renum_swap (p q : Bucket V) : Bucket V * Bucket V :=
  (mk_Bucket (b_val q) (b_next q) (b_h p) (b_key p), mk_Bucket (b_val p) (b_next p) (b_h q) (b_key q)).
Definition zend_hash_bucket_packed_swap (p q : Bucket V) : Bucket V * Bucket V :=
  (mk_Bucket (b_val q) (b_next q) (b_h q) (b_key p), mk_Bucket (b_val p) (b_next p) (b_h p) (b_key q)).

Definition sort_func : Type :=
  (Bucket V -> Bucket V -> Z) -> (Bucket V -> Bucket V -> Bucket V * Bucket V) ->
  list (Bucket V) -> list (Bucket V).

(** [Z_EXTRA(ht->arData[i].val) = i]; [Z_EXTRA] and [Z_NEXT] share the [u2] word. *)
Fixpoint label_loop (n : nat) (i : Z) t : HashTable V :=
  match n with
  | O => t
  | S n => label_loop n (i + 1) (upd_bucket i (set_b_next i) t)
  end.

(** Remove the holes and store the order. *)
Fixpoint label_compact_loop (n : nat) (j i : Z) t : HashTable V * Z :=
  match n with
  | O => (t, i)
  | S n =>
      if Z_ISUNDEF (b_val (bucket t j)) then label_compact_loop n (j + 1) i t
      else
        let p := bucket t j in
        let t := if negb (i =? j) then upd_bucket i (fun _ => p) t else t in
        label_compact_loop n (j + 1) (i + 1) (upd_bucket i (set_b_next i) t)
  end.

(** [p->h = j; release the key] for buckets [j, ..., j+n-1]. *)
Fixpoint renumber_loop (n : nat) (j : Z) (s : state V) : state V :=
  match n with
  | O => s
  | S n =>
      let (t, w) := s in
      let p := bucket t j in
      renumber_loop n (j + 1)
        (upd_bucket j (fun p => mk_Bucket (b_val p) (b_next p) j None) t, release_string (b_key p) w)
  end.

Definition zend_hash_sort_internal (sort : sort_func) (is_zend_sort : bool)
    (compar : Bucket V -> Bucket V -> Z) (renumber : bool) (s : state V) : state V :=
  let (t, w) := s in
  if (nNumOfElements t <=? 1) && (negb renumber || (nNumOfElements t =? 0)) then s
  else if (nNumOfElements t <=? 1) && (is_zend_sort && fl_PACKED t && HT_IS_WITHOUT_HOLES t) then
    (set_nNextFreeElement 1 (set_nInternalPointer 0 t), w)
  else
    let (t, w) := if fl_PACKED t then zend_hash_packed_to_hash (t, w) else (t, w) in
    let (t, i) :=
      if HT_IS_WITHOUT_HOLES t then (label_loop (Z.to_nat (nNumUsed t)) 0 t, nNumUsed t)
      else let (t, i) := label_compact_loop (Z.to_nat (nNumUsed t)) 0 0 t in (set_nNumUsed i t, i) in
    let t := if negb (fl_PACKED t) then HT_HASH_RESET t else t in
    let swap := if renumber then zend_hash_bucket_renum_swap
                else if fl_PACKED t then zend_hash_bucket_packed_swap else zend_hash_bucket_swap in
    let used := Z.to_nat (nNumUsed t) in
    let t := set_arData (sort compar swap (take used (arData t)) ++ drop used (arData t)) t in
    let t := set_nInternalPointer 0 t in
    let (t, w) :=
      if renumber then
        let (t, w) := renumber_loop (Z.to_nat i) 0 (t, w) in (set_nNextFreeElement i t, w)
      else (t, w) in
    if fl_PACKED t then (if negb renumber then zend_hash_packed_to_hash (t, w) else (t, w))
    else if renumber then
      let old := t in
      let t := set_fl_STATIC_KEYS true (set_fl_PACKED true t) in
      let t := set_nTableMask HT_MIN_MASK t in
      let t := set_arPacked (b_val <$> take (Z.to_nat (nTableSize t)) (arData old)) t in
      let t := set_arHash (replicate 2 (b_next (junk 0))) (set_arData [] t) in
      (HT_HASH_RESET_PACKED t, w)
    else zend_hash_rehash (t, w).

Definition zend_hash_sort_ex := zend_hash_sort_internal.

(** The reference held on the array during the sort is not modelled. *)
Definition zend_array_sort_ex (sort : sort_func) (is_zend_sort : bool) compar (renumber : bool) (s : state V)
    : state V :=
  let s := if fl_PACKED s.1 then zend_hash_packed_to_hash s else s in
  zend_hash_sort_internal sort is_zend_sort compar renumber s.

Definition zend_hash_sort compar (renumber : bool) (s : state V) : state V :=
  zend_hash_sort_ex (zend_sort (junk 0)) true compar renumber s.

Definition zend_array_sort compar (renumber : bool) (s : state V) : state V :=
  if nNumOfElements s.1 <=? 1 then zend_hash_sort_ex (zend_sort (junk 0)) true compar renumber s
  else zend_array_sort_ex (zend_sort (junk 0)) true compar renumber s.

End Copy.
