(* ===== verification/HashSort.v ===== *)
(** [zend_hash_sort] without renumbering: the elements are permuted into the
    order of the comparison, which sees the original position of each element
    (so it can be made stable), holes disappear and the chains are rebuilt. *)

From stdpp Require Import base numbers list gmap.
From S2P Require Import Prelude ZendTypes HashTable HashDict HashChain HashInv HashRehash HashFind.
From S2P Require Import HashAdd HashIndex HashDel HashOps HashTraverse ZendSort HashCopy.

Section HashSort.
Context {V : Type} {E : ZEnv V} {Z_ops : ZValue V}.
Implicit Types (t : HashTable V) (w : EG V) (b : Bucket V) (v : zval V).

(** * Buckets as a list *)

Lemma take_buckets t n : (n <= length (arData t))%nat -> take n (arData t) = bucket t <$> zrange 0 n.
Proof.
  intros Hn. apply list_eq. intros k. rewrite list_lookup_fmap. unfold zrange. rewrite list_lookup_fmap.
  destruct (decide (k < n)%nat) as [Hk|Hk].
  - rewrite lookup_take_lt, lookup_seq_lt by done. cbn. unfold bucket, lget.
    replace (Z.to_nat (0 + Z.of_nat k)) with k by lia.
    destruct (lookup_lt_is_Some_2 (arData t) k) as [x Hx]; [lia|]. rewrite Hx. done.
  - rewrite lookup_take_ge, lookup_seq_ge by lia. done.
Qed.

Definition live_content b : option (entry (V:=V)) := if Z_ISUNDEF (b_val b) then None else Some (content b).

Lemma mixed_entries_data t : (Z.to_nat (nNumUsed t) <= length (arData t))%nat ->
  mixed_entries t = omap live_content (take (Z.to_nat (nNumUsed t)) (arData t)).
Proof.
  intros Hn. rewrite take_buckets by done. unfold mixed_entries, entries.
  generalize (zrange 0 (Z.to_nat (nNumUsed t))). intros l. induction l as [|i l IH]; [done|].
  csimpl. unfold live_entry at 1, live, live_content at 1. rewrite IH.
  by destruct (Z_ISUNDEF (b_val (bucket t i))).
Qed.

(** * Labelling *)

(** Buckets with the given contents, numbered from [i] in their [u2] word. *)
Fixpoint label_from (i : Z) (es : list (entry (V:=V))) : list (Bucket V) :=
  match es with
  | [] => []
  | e :: es => mk_Bucket e.1.1 i e.1.2 e.2 :: label_from (i + 1) es
  end.

Lemma length_label_from es : forall i, length (label_from i es) = length es.
Proof. induction es as [|e es IH]; intros i; [done|]. cbn. by rewrite IH. Qed.

Lemma content_label_from es : forall i, content <$> label_from i es = es.
Proof. induction es as [|[[v h] k] es IH]; intros i; [done|]. cbn. by rewrite IH. Qed.

Lemma label_bucket t i e : content (bucket t i) = e -> set_b_next i (bucket t i) = mk_Bucket e.1.1 i e.1.2 e.2.
Proof. intros <-. by destruct (bucket t i). Qed.

Lemma label_loop_spec n : forall i t, 0 <= i -> i + Z.of_nat n <= llen (arData t) ->
  (forall k, i <= k < i + Z.of_nat n -> live t k = true) ->
  let t' := label_loop n i t in
  frame t' = frame t /\ llen (arData t') = llen (arData t) /\ nNumUsed t' = nNumUsed t /\
  (forall k, 0 <= k < i -> bucket t' k = bucket t k) /\
  bucket t' <$> zrange i n = label_from i (entries t i n).
Proof.
  induction n as [|n IH]; intros i t Hi Hn Hl; cbn [label_loop]; [done|]. cbv zeta.
  set (t1 := upd_bucket i (set_b_next i) t).
  assert (forall k, 0 <= k -> k <> i -> bucket t1 k = bucket t k) as Ho by (intros; apply bucket_upd_ne; lia).
  assert (llen (arData t1) = llen (arData t)) as Hl1 by apply llen_upd_bucket.
  destruct (IH (i + 1) t1) as (Hf & Hlen & Hu & Hb & Hz); [lia|lia| |].
  { intros k Hk. unfold live. rewrite Ho by lia. apply Hl. lia. }
  split; [done|]. split; [congruence|]. split; [done|].
  split; [intros k Hk; rewrite Hb, Ho by lia; done|].
  rewrite zrange_cons, fmap_cons, Hz, entries_cons. unfold live_entry. rewrite Hl by lia.
  cbn [option_list option_rect app label_from]. rewrite Hb by lia. f_equal.
  - unfold t1. rewrite bucket_upd_eq by lia. by apply label_bucket.
  - f_equal. apply entries_ext. intros k Hk. by rewrite Ho by lia.
Qed.

Lemma label_compact_spec n : forall j i t, 0 <= i <= j -> j + Z.of_nat n <= llen (arData t) ->
  let r := label_compact_loop n j i t in
  frame r.1 = frame t /\ llen (arData r.1) = llen (arData t) /\
  r.2 = i + llen (entries t j n) /\ (forall k, 0 <= k < i -> bucket r.1 k = bucket t k) /\
  bucket r.1 <$> zrange i (length (entries t j n)) = label_from i (entries t j n).
Proof.
  induction n as [|n IH]; intros j i t Hi Hn; cbn [label_compact_loop]; cbv zeta.
  { split; [done|]. split; [done|]. split; [unfold llen; cbn; lia|]. done. }
  rewrite entries_cons. unfold live_entry, live. destruct (Z_ISUNDEF (b_val (bucket t j))) eqn:Hun.
  { cbn [negb option_list option_rect app]. apply IH; lia. }
  cbn [negb option_list option_rect app length label_from]. set (t1 := upd_bucket i (set_b_next i) _).
  assert (bucket t1 i = set_b_next i (bucket t j) /\ (forall k, 0 <= k -> k <> i -> bucket t1 k = bucket t k) /\
    llen (arData t1) = llen (arData t) /\ frame t1 = frame t) as (Hbi & Ho & Hlen1 & Hf1).
  { unfold t1. destruct (Z.eqb_spec i j) as [->|Hne]; cbn [negb].
    - rewrite bucket_upd_eq, llen_upd_bucket by lia. split; [done|]. split; [|done].
      intros k Hk Hkj. apply bucket_upd_ne; lia.
    - rewrite bucket_upd_eq by (rewrite ?llen_upd_bucket; lia). rewrite bucket_upd_eq by lia.
      rewrite !llen_upd_bucket. split; [done|]. split; [|done].
      intros k Hk Hkj. rewrite !bucket_upd_ne by lia. done. }
  assert (entries t1 (j + 1) n = entries t (j + 1) n) as He
    by (apply entries_ext; intros k Hk; by rewrite Ho by lia).
  destruct (IH (j + 1) (i + 1) t1) as (Hf & Hlen & Hr & Hb & Hz); [lia|lia|]. rewrite He in *.
  split; [congruence|]. split; [congruence|]. split; [rewrite Hr; unfold llen; cbn [length]; lia|].
  split; [intros k Hk; rewrite Hb, Ho by lia; done|].
  rewrite zrange_cons, fmap_cons, Hz. f_equal. rewrite Hb, Hbi by lia. by destruct (bucket t j).
Qed.

(** The two ways of numbering the elements before sorting. *)
Lemma label_phase t : data_ok t ->
  let r := if HT_IS_WITHOUT_HOLES t then (label_loop (Z.to_nat (nNumUsed t)) 0 t, nNumUsed t)
           else let (t, i) := label_compact_loop (Z.to_nat (nNumUsed t)) 0 0 t in (set_nNumUsed i t, i) in
  frame r.1 = frame t /\ llen (arData r.1) = llen (arData t) /\ nNumUsed r.1 = nNumOfElements t /\
  r.2 = nNumOfElements t /\
  take (Z.to_nat (nNumOfElements t)) (arData r.1) = label_from 0 (mixed_entries t).
Proof.
  intros Hd. pose proof (do_used _ Hd) as Hu. pose proof (do_data _ Hd) as Hda. pose proof (do_count _ Hd) as Hc.
  pose proof (length_entries_le t 0 (Z.to_nat (nNumUsed t))) as Hle. fold (mixed_entries t) in Hle.
  unfold HT_IS_WITHOUT_HOLES. destruct (Z.eqb_spec (nNumUsed t) (nNumOfElements t)) as [He|Hne].
  - destruct (label_loop_spec (Z.to_nat (nNumUsed t)) 0 t) as (Hf & Hlen & Hun & _ & Hz); [lia|lia| |].
    { apply entries_full. fold (mixed_entries t). unfold llen in Hc. lia. }
    cbn [fst snd]. split; [done|]. split; [done|]. split; [congruence|]. split; [done|].
    rewrite <- He, take_buckets; [exact Hz|]. unfold llen in *. lia.
  - pose proof (label_compact_spec (Z.to_nat (nNumUsed t)) 0 0 t ltac:(lia) ltac:(lia)) as Hs. cbv zeta in Hs.
    destruct (label_compact_loop _ _ _ _) as [t2 i]. cbn [fst snd] in *.
    fold (mixed_entries t) in Hs. destruct Hs as (Hf & Hlen & -> & _ & Hz).
    split; [rewrite <- Hf; by destruct t2|]. split; [done|]. cbn. split; [lia|]. split; [lia|].
    rewrite Hc. change (take _ (arData (set_nNumUsed _ t2))) with (take (Z.to_nat (llen (mixed_entries t))) (arData t2)).
    rewrite take_buckets by (unfold llen in *; lia). unfold llen at 1. by rewrite Nat2Z.id.
Qed.

(** * Sorting *)

(** A mixed table whose used buckets are [bs]. *)
Lemma sorted_data_ok t t2 bs : data_ok t -> frame t2 = frame t -> llen (arData t2) = llen (arData t) ->
  nNumUsed t2 = nNumOfElements t -> bs ≡ₚ label_from 0 (mixed_entries t) ->
  let t3 := set_nInternalPointer 0 (set_arData (bs ++ drop (Z.to_nat (nNumUsed t2)) (arData t2)) (HT_HASH_RESET t2)) in
  data_ok t3 /\ mixed_entries t3 = content <$> bs.
Proof.
  intros Hd Hf Hlen Hu Hbs t3. destruct (frame_fields _ _ Hf) as (Hm & Hs & Hn & Hp & Hi & Hnx & _).
  pose proof (count_le_used _ Hd) as Hcu. pose proof (do_used _ Hd) as Hus. pose proof (do_data _ Hd) as Hda.
  assert (length bs = Z.to_nat (nNumOfElements t)) as Hlb.
  { rewrite Hbs, length_label_from, (do_count _ Hd). unfold llen. lia. }
  assert (llen (arData t3) = llen (arData t)) as Hl3.
  { unfold t3, llen in *. cbn. rewrite length_app, length_drop. lia. }
  assert (content <$> bs ≡ₚ mixed_entries t) as Hperm.
  { rewrite Hbs. by rewrite content_label_from. }
  assert (mixed_entries t3 = content <$> bs) as He.
  { rewrite mixed_entries_data by (unfold llen in *; cbn in *; lia). change (nNumUsed t3) with (nNumUsed t2).
    change (arData t3) with (bs ++ drop (Z.to_nat (nNumUsed t2)) (arData t2)).
    rewrite Hu, <- Hlb, take_app_length. 
    assert (forall b, b ∈ bs -> Z_ISUNDEF (b_val b) = false) as Hlive.
    { intros b Hb. assert (content b ∈ mixed_entries t) as Hin.
      { rewrite <- Hperm. by apply list_elem_of_fmap_2. }
      apply elem_of_entries in Hin as (k & _ & Hlk & [= He _ _]). unfold live in Hlk. rewrite He in Hlk.
      by apply negb_true_iff in Hlk. }
    clear -Hlive. induction bs as [|b bs IH]; [done|]. csimpl. unfold live_content at 1.
    rewrite Hlive by (by left). rewrite IH; [done|]. intros x Hx. apply Hlive. by right. }
  split; [|done]. destruct Hd. split; try congruence.
  - exact (eq_trans Hp do_packed).
  - exact (eq_trans Hi do_init).
  - change (nTableSize t3) with (nTableSize t2). by rewrite Hs.
  - change (nTableSize t3) with (nTableSize t2). change (nTableMask t3) with (nTableMask t2). by rewrite Hs, Hm.
  - change (nTableSize t3) with (nTableSize t2). congruence.
  - change (nTableSize t3) with (nTableSize t2). change (nNumUsed t3) with (nNumUsed t2). rewrite Hs. lia.
  - change (nNumOfElements t3) with (nNumOfElements t2). rewrite He, Hn, do_count. unfold llen. by rewrite Hperm.
  - rewrite He, Hperm. done.
  - rewrite He, Hperm. done.
Qed.

(** [compar] is a total preorder on buckets. *)
Definition total_preorder (compar : Bucket V -> Bucket V -> Z) : Prop :=
  (forall a b c, compar a b <= 0 -> compar b c <= 0 -> compar a c <= 0) /\
  (forall a b, 0 < compar a b -> compar b a <= 0).

Definition sorted_by (compar : Bucket V -> Bucket V -> Z) (bs : list (Bucket V)) : Prop :=
  forall i j x y, (i < j)%nat -> bs !! i = Some x -> bs !! j = Some y -> compar x y <= 0.

Lemma next_free_perm t t' : next_free_ok t -> nNextFreeElement t' = nNextFreeElement t ->
  elems t' ≡ₚ elems t -> next_free_ok t'.
Proof.
  intros [Hr Hb] Hn Hp. split; [by rewrite Hn|]. intros h. rewrite Hp, Hn. apply Hb.
Qed.

Lemma sort_mixed compar t w : total_preorder compar -> wf t -> mixed_ok t -> 1 < nNumOfElements t ->
  exists t' w' bs, zend_hash_sort compar false (t, w) = (t', w') /\ wf t' /\
    bs ≡ₚ label_from 0 (mixed_entries t) /\ sorted_by compar bs /\
    elems t' = (fun b => entry_elem (content b)) <$> bs /\ nNumUsed t' = nNumOfElements t.
Proof.
  intros [Htr Htot] [_ Hnf] Hm Hn. pose proof (mx_data _ Hm) as Hd.
  unfold zend_hash_sort, zend_hash_sort_ex, zend_hash_sort_internal.
  rewrite (proj2 (Z.leb_gt _ _)) by done. cbn [andb]. rewrite (do_packed _ Hd).
  pose proof (label_phase t Hd) as Hl. cbv zeta in Hl. set (r := if HT_IS_WITHOUT_HOLES t then _ else _) in *.
  destruct r as [t2 i]. cbn [fst snd] in Hl. destruct Hl as (Hf & Hlen & Hu & -> & Htake).
  destruct (frame_fields _ _ Hf) as (_ & _ & _ & Hp2 & _ & Hnx & _). rewrite (do_packed _ Hd) in Hp2.
  rewrite Hp2. cbn [negb]. change (fl_PACKED (HT_HASH_RESET t2)) with (fl_PACKED t2). rewrite Hp2.
  change (nNumUsed (HT_HASH_RESET t2)) with (nNumUsed t2). change (arData (HT_HASH_RESET t2)) with (arData t2).
  rewrite Hu, Htake.
  destruct (zend_sort_ok (junk 0) compar zend_hash_bucket_swap (fun a b => eq_refl) Htr Htot
    (label_from 0 (mixed_entries t))) as [Hperm Hsort].
  set (bs := zend_sort _ _ _ _) in *.
  pose proof (sorted_data_ok t t2 bs Hd Hf Hlen Hu Hperm) as Hs3. rewrite Hu in Hs3. cbv zeta in Hs3.
  set (t3 := set_nInternalPointer 0 _) in *. destruct Hs3 as [Hd3 He3].
  change (fl_PACKED t3) with (fl_PACKED t2). rewrite Hp2.
  destruct (rehash_keeps t3 w Hd3) as (t' & w' & Heq & Hok & He & Hk & Hs & Hu').
  exists t', w', bs. split; [exact Heq|].
  assert (elems t' = (fun b => entry_elem (content b)) <$> bs) as Hel.
  { rewrite He, elems_mixed by apply Hd3. by rewrite He3, <- list_fmap_compose. }
  split; [split; [by right; right|]|].
  - apply (next_free_perm t); [done| |].
    + destruct Hk as (_ & -> & _). exact Hnx.
    + rewrite Hel, Hperm, (elems_mixed t) by apply Hd.
      change (fun b => entry_elem (content b)) with (entry_elem ∘ content (V:=V)).
      by rewrite list_fmap_compose, content_label_from.
  - split; [done|]. split; [done|]. split; [done|]. rewrite Hu'.
    change (nNumOfElements t3) with (nNumOfElements t2). by destruct (frame_fields _ _ Hf) as (_ & _ & -> & _).
Qed.

(** A packed table is converted first. *)
Lemma sort_packed compar t w : packed_ok t -> 1 < nNumOfElements t ->
  zend_hash_sort compar false (t, w) = zend_hash_sort compar false (zend_hash_packed_to_hash (t, w)).
Proof.
  intros Hp Hn. destruct (packed_to_hash_ok t w (packed_ok_data _ Hp)) as (t1 & w1 & Heq & Hm & _ & Hk & _).
  rewrite Heq. unfold zend_hash_sort, zend_hash_sort_ex, zend_hash_sort_internal.
  rewrite (proj1 Hk), (proj2 (Z.leb_gt _ _)) by done. cbn [andb].
  by rewrite (pk_packed _ Hp), Heq, (do_packed _ (mx_data _ Hm)).
Qed.

(** [t'] holds the elements of [t] in the order of [compar]; each bucket is
    compared with its original position in its [u2] word. *)
Definition sorted_table compar t t' : Prop :=
  exists es bs, entry_elem <$> es = elems t /\ bs ≡ₚ label_from 0 es /\ sorted_by compar bs /\
    elems t' = (fun b => entry_elem (content b)) <$> bs.

Lemma elems_entries t : exists es : list (entry (V:=V)), entry_elem <$> es = elems t.
Proof.
  destruct (fl_PACKED t) eqn:Hp; [|exists (mixed_entries t); by rewrite elems_mixed].
  unfold elems. rewrite Hp. exists ((fun i => (packed t i, i, None)) <$>
    filter (fun i => Z_ISUNDEF (packed t i) = false) (zrange 0 (Z.to_nat (nNumUsed t)))).
  unfold packed_elems. generalize (zrange 0 (Z.to_nat (nNumUsed t))). intros l.
  induction l as [|i l IH]; [done|]. csimpl. rewrite filter_cons. unfold packed_elem at 1.
  destruct (Z_ISUNDEF (packed t i)); csimpl; [done|]. by rewrite <- IH.
Qed.

Lemma hash_sort_plain compar t w : total_preorder compar -> wf t ->
  exists t' w', zend_hash_sort compar false (t, w) = (t', w') /\ wf t' /\ sorted_table compar t t'.
Proof.
  intros Hc Hwf. destruct (Z.leb_spec (nNumOfElements t) 1) as [Hle|Hgt].
  - exists t, w. split; [|split; [done|]].
    { unfold zend_hash_sort, zend_hash_sort_ex, zend_hash_sort_internal.
      by rewrite (proj2 (Z.leb_le _ _) Hle). }
    destruct (elems_entries t) as [es Hes]. exists es, (label_from 0 es).
    split; [done|]. split; [done|]. split.
    + intros i j x y Hij Hx Hy. apply lookup_lt_Some in Hy. rewrite length_label_from in Hy.
      rewrite (count_elems t (proj1 Hwf)), <- Hes in Hle. unfold llen in Hle. rewrite length_fmap in Hle. lia.
    + change (fun b => entry_elem (content b)) with (entry_elem ∘ content (V:=V)).
      by rewrite list_fmap_compose, content_label_from.
  - destruct (proj1 Hwf) as [Hu|[Hp|Hm]]; [rewrite (un_count _ Hu) in Hgt; lia| |].
    + rewrite sort_packed by done.
      destruct (packed_to_hash_ok t w (packed_ok_data _ Hp)) as (t1 & w1 & -> & Hm & He & Hk & _).
      assert (wf t1) as Hwf1.
      { split; [by right; right|]. apply (next_free_perm t); [apply Hwf|apply Hk|by rewrite He]. }
      destruct (sort_mixed compar t1 w1 Hc Hwf1 Hm) as (t' & w' & bs & Heq & Hwf' & Hb & Hs & Hel & _).
      { rewrite (proj1 Hk). done. }
      exists t', w'. split; [done|]. split; [done|]. exists (mixed_entries t1), bs.
      split; [|done]. by rewrite <- He, elems_mixed by apply Hm.
    + destruct (sort_mixed compar t w Hc Hwf Hm Hgt) as (t' & w' & bs & Heq & Hwf' & Hb & Hs & Hel & _).
      exists t', w'. split; [done|]. split; [done|]. exists (mixed_entries t), bs.
      split; [|done]. by rewrite elems_mixed by apply Hm.
Qed.

End HashSort.
