(* ===== verification/HashPos.v ===== *)
(** Positions across compaction: where [zend_hash_rehash] moves the internal
    pointer and the registered iterators of a table, when they keep their
    element, and a case in which two iterators do not. *)

From stdpp Require Import base numbers list gmap.
From S2P Require Import Prelude ZendTypes HashTable HashDict HashChain HashInv HashRehash HashFind.
From S2P Require Import HashAdd HashIndex HashDel HashOps HashTraverse.

Section Pos.
Context {V : Type} {E : ZEnv V}.
Implicit Types (t : HashTable V) (w : EG V) (p q : Z) (ps : list Z).

(** * Counting live buckets *)

(** The number of live buckets at positions [a, ..., b-1]. *)
Definition cnt t (a b : Z) : Z := llen (entries t a (Z.to_nat (b - a))).

Lemma cnt_empty t a b : b <= a -> cnt t a b = 0.
Proof. intros. unfold cnt. by replace (Z.to_nat (b - a)) with 0%nat by lia. Qed.

Lemma cnt_nonneg t a b : 0 <= cnt t a b.
Proof. apply llen_nonneg. Qed.

Lemma cnt_step t a b : a < b -> cnt t a b = (if live t a then 1 else 0) + cnt t (a + 1) b.
Proof.
  intros. unfold cnt. replace (Z.to_nat (b - a)) with (S (Z.to_nat (b - (a + 1)))) by lia.
  rewrite entries_cons. unfold live_entry, llen. destruct (live t a); csimpl; lia.
Qed.

Lemma cnt_split t a c b : a <= c <= b -> cnt t a b = cnt t a c + cnt t c b.
Proof.
  intros. unfold cnt. replace (Z.to_nat (b - a)) with (Z.to_nat (c - a) + Z.to_nat (b - c))%nat by lia.
  rewrite entries_app. replace (a + Z.of_nat (Z.to_nat (c - a))) with c by lia.
  unfold llen. rewrite length_app. lia.
Qed.

Lemma cnt_le t a b : a <= b -> cnt t a b <= b - a.
Proof. intros. unfold cnt, llen. pose proof (length_entries_le t a (Z.to_nat (b - a))). lia. Qed.

Lemma cnt_ext t t' a b : (forall k, a <= k < b -> content (bucket t' k) = content (bucket t k)) ->
  cnt t' a b = cnt t a b.
Proof. intros H. unfold cnt. rewrite (entries_ext t t'); [done|]. intros. apply H. lia. Qed.

Lemma cnt_skip t a b c : a <= c -> (forall k, a <= k < c -> live t k = false) -> cnt t a b = cnt t c b.
Proof.
  intros Hac Hd. destruct (Z.le_gt_cases b a) as [|Hb]; [by rewrite !cnt_empty by lia|].
  assert (forall n, Z.of_nat n <= c - a -> cnt t a b = cnt t (a + Z.of_nat n) b) as H.
  { induction n as [|n IH]; intros Hn; [f_equal; lia|]. rewrite IH by lia.
    destruct (Z.le_gt_cases b (a + Z.of_nat n)); [rewrite !cnt_empty by lia; done|].
    rewrite cnt_step, Hd by lia. rewrite Z.add_0_l. f_equal; lia. }
  rewrite (H (Z.to_nat (c - a))) by lia. f_equal; lia.
Qed.

(** * Where a position goes *)

(** In a compaction with source index [i], target index [j] and end [e]:
    positions up to [j] stay, a position with a live bucket at or after it
    goes to the target of the first such bucket, the others stay. *)
Definition moved t (i j e p : Z) : Z :=
  if p <=? j then p else if 0 <? cnt t (Z.max p i) e then j + cnt t i p else p.

Lemma moved_dead t i j e p : i < e -> live t i = false -> moved t (i + 1) j e p = moved t i j e p.
Proof.
  intros Hi Hl. unfold moved. destruct (Z.leb_spec p j); [done|].
  replace (cnt t (Z.max p i) e) with (cnt t (Z.max p (i + 1)) e).
  - destruct (Z.le_gt_cases p i).
    + by rewrite (cnt_empty t i p), (cnt_empty t (i + 1) p) by lia.
    + by rewrite (cnt_step t i p), Hl by lia.
  - symmetry. apply cnt_skip; [lia|]. intros k Hk. by replace k with i by lia.
Qed.

(** A step that moves the live bucket at [i] down to [j]. *)
Lemma moved_live t t' i j e p : j < i < e -> live t i = true ->
  (forall k, i < k < e -> content (bucket t' k) = content (bucket t k)) ->
  moved t' (i + 1) (j + 1) e (if (j <? p) && (p <=? i) then j else p) = moved t i j e p.
Proof.
  intros Hi Hl Hc. unfold moved.
  destruct (Z.ltb_spec j p), (Z.leb_spec p i), (Z.leb_spec p j); try lia; cbn [andb].
  - rewrite (proj2 (Z.leb_le _ _)) by lia. replace (Z.max p i) with i by lia.
    rewrite (cnt_step t i e), Hl by lia. pose proof (cnt_nonneg t (i + 1) e).
    rewrite (proj2 (Z.ltb_lt _ _)) by lia. rewrite cnt_empty by lia. lia.
  - rewrite (proj2 (Z.leb_gt _ _)) by lia. replace (Z.max p (i + 1)) with p by lia.
    replace (Z.max p i) with p by lia. rewrite (cnt_ext t t' p e) by (intros; apply Hc; lia).
    destruct (Z.ltb_spec 0 (cnt t p e)) as [Hpos|]; [|done].
    assert (p < e) by (destruct (Z.le_gt_cases e p); [rewrite cnt_empty in Hpos by lia; lia|lia]).
    rewrite (cnt_ext t t' (i + 1) p) by (intros; apply Hc; lia).
    rewrite (cnt_step t i p), Hl by lia. lia.
  - by rewrite (proj2 (Z.leb_le _ _)) by lia.
Qed.

Lemma moved_end t i j p : moved t i j i p = p.
Proof. unfold moved. rewrite (cnt_empty t (Z.max p i) i) by lia. by destruct (p <=? j). Qed.

Lemma move_bucket_content t i j k : 0 <= j -> 0 <= k -> k <> j ->
  content (bucket (move_bucket i j t) k) = content (bucket t k).
Proof.
  intros. unfold move_bucket. rewrite link_bucket_content by done. by rewrite bucket_upd_ne by lia.
Qed.

(** * Iterators *)

(** The positions of the registered iterators of [t]. *)
Definition iter_positions t w : list Z :=
  it_pos <$> filter (fun it => it_ht it = ht_id t) (used_iterators w).

Lemma iter_positions_id t t' w : ht_id t' = ht_id t -> iter_positions t' w = iter_positions t w.
Proof. unfold iter_positions. by intros ->. Qed.

Lemma iter_positions_map t w (f : HashTableIterator -> HashTableIterator) (g : Z -> Z) :
  (forall it, it_ht it = ht_id t -> it_ht (f it) = ht_id t /\ it_pos (f it) = g (it_pos it)) ->
  (forall it, it_ht it <> ht_id t -> f it = it) ->
  iter_positions t (map_used_iterators f w) = g <$> iter_positions t w.
Proof.
  intros Hs Ho. unfold iter_positions, used_iterators, map_used_iterators. cbn [ht_iterators ht_iterators_used set_ht_iterators].
  set (n := Z.to_nat (ht_iterators_used w)). set (l := ht_iterators w).
  assert (take n ((f <$> take n l) ++ drop n l) = f <$> take n l) as ->.
  { destruct (Nat.le_gt_cases n (length l)).
    - rewrite take_app_le by (rewrite length_fmap, length_take; lia).
      apply take_ge. rewrite length_fmap, length_take. lia.
    - rewrite drop_ge, app_nil_r by lia. apply take_ge. rewrite length_fmap, length_take. lia. }
  generalize (take n l). clear l n. intros l. induction l as [|it l IH]; [done|]. csimpl.
  rewrite !filter_cons. destruct (decide (it_ht it = ht_id t)) as [Heq|Hne].
  - destruct (Hs it Heq) as [H1 H2]. destruct (decide _); [|done]. csimpl. by rewrite H2, IH.
  - rewrite (Ho it Hne). destruct (decide _); [done|]. done.
Qed.

Lemma iter_positions_update t w from to : HT_HAS_ITERATORS t = true ->
  iter_positions t (zend_hash_iterators_update t w from to) =
  (fun p => if p =? from then to else p) <$> iter_positions t w.
Proof.
  intros Hi. unfold zend_hash_iterators_update. rewrite Hi. apply iter_positions_map.
  - intros it Heq. rewrite (proj2 (Z.eqb_eq _ _)) by done. cbn [andb]. by destruct (it_pos it =? from).
  - intros it Hne. by rewrite (proj2 (Z.eqb_neq _ _)) by done.
Qed.

(** The least position at or after [start], or the end. *)
Definition least_from (used : Z) ps (start m : Z) : Prop :=
  m <= used /\ (m = used \/ m ∈ ps /\ start <= m) /\ forall p, p ∈ ps -> start <= p -> p < used -> m <= p.

Lemma least_from_unique used ps s m m' : least_from used ps s m -> least_from used ps s m' -> m = m'.
Proof.
  intros (Ha & Hb & Hc) (Ha' & Hb' & Hc').
  destruct Hb as [->|[Hm Hs]], Hb' as [->|[Hm' Hs']]; try done.
  - destruct (Z.eq_dec m' used); [done|]. specialize (Hc m' Hm' Hs'). lia.
  - destruct (Z.eq_dec m used); [done|]. specialize (Hc' m Hm Hs). lia.
  - destruct (Z.eq_dec m used), (Z.eq_dec m' used); try lia.
    + specialize (Hc m' Hm' Hs'). lia.
    + specialize (Hc' m Hm Hs). lia.
    + specialize (Hc m' Hm' Hs'). specialize (Hc' m Hm Hs). lia.
Qed.

Lemma lower_pos_least t w start :
  least_from (nNumUsed t) (iter_positions t w) start (zend_hash_iterators_lower_pos t w start).
Proof.
  unfold zend_hash_iterators_lower_pos, iter_positions.
  assert (forall l res qs, least_from (nNumUsed t) qs start res ->
    least_from (nNumUsed t) (qs ++ (it_pos <$> filter (fun it => it_ht it = ht_id t) l)) start
      (foldl (fun res it => if (it_ht it =? ht_id t) && ((start <=? it_pos it) && (it_pos it <? res))
                            then it_pos it else res) res l)) as H.
  { induction l as [|it l IH]; intros res qs Hl; [by rewrite app_nil_r|].
    cbn [foldl]. rewrite filter_cons. destruct (decide (it_ht it = ht_id t)) as [Heq|Hne].
    - rewrite (proj2 (Z.eqb_eq _ _)) by done. cbn [andb]. csimpl.
      rewrite (cons_middle (it_pos it)), app_assoc. apply IH. clear IH.
      destruct Hl as (Ha & Hb & Hc).
      destruct (Z.leb_spec start (it_pos it)) as [Hs|Hs]; cbn [andb].
      + destruct (Z.ltb_spec (it_pos it) res).
        * split; [lia|]. split; [right; split; [set_solver|done]|].
          intros p [Hp|Hp%list_elem_of_singleton]%elem_of_app Hsp Hu; [|subst p]; [|lia]. specialize (Hc p Hp Hsp Hu). lia.
        * split; [done|]. split; [destruct Hb as [|[]]; [by left|right; split; [set_solver|done]]|].
          intros p [Hp|Hp%list_elem_of_singleton]%elem_of_app Hsp Hu; [|subst p]; [by apply Hc|done].
      + split; [done|]. split; [destruct Hb as [|[]]; [by left|right; split; [set_solver|done]]|].
        intros p [Hp|Hp%list_elem_of_singleton]%elem_of_app Hsp Hu; [|subst p]; [by apply Hc|lia].
    - rewrite (proj2 (Z.eqb_neq _ _)) by done. cbn [andb]. by apply IH. }
  apply (H _ _ []). split; [done|]. split; [by left|]. set_solver.
Qed.

(** Updating the position [from] to a position [j] below all pending ones. *)
Lemma least_from_step used ps j s m i :
  j < s -> (forall p, p ∈ ps -> p <= j \/ s <= p) -> least_from used ps s m -> m <= i -> i < used ->
  let ps' := (fun p => if p =? m then j else p) <$> ps in
  (forall p, p ∈ ps' -> p <= j \/ m + 1 <= p) /\
  (fun p => if (j <? p) && (p <=? i) then j else p) <$> ps' =
  (fun p => if (j <? p) && (p <=? i) then j else p) <$> ps.
Proof.
  intros Hj Hs (Ha & Hb & Hc) Hm Hi ps'.
  assert (s <= m) as Hsm by (destruct Hb as [->|[]]; lia). split.
  - intros p (q & -> & Hq)%list_elem_of_fmap. destruct (Z.eqb_spec q m); [lia|].
    destruct (Hs q Hq) as [|Hsq]; [by left|]. right.
    destruct (Z.lt_ge_cases q used); [|lia]. specialize (Hc q Hq Hsq ltac:(lia)). lia.
  - unfold ps'. rewrite <- list_fmap_compose. apply list_fmap_ext. intros k p _. simpl.
    destruct (Z.eqb_spec p m) as [->|]; [|done].
    rewrite (proj2 (Z.ltb_ge j j)) by lia. cbn [andb].
    by rewrite (proj2 (Z.ltb_lt j m)), (proj2 (Z.leb_le m i)) by lia.
Qed.

(** The inner loop moves every pending position up to [i] to [j], unless it
    meets an iterator exactly at [i] after one before it. *)
Lemma iter_move_loop_spec n : forall t w i j s m,
  HT_HAS_ITERATORS t = true -> i < nNumUsed t -> j < s -> i - m <= Z.of_nat n ->
  (forall p, p ∈ iter_positions t w -> p <= j \/ s <= p) ->
  least_from (nNumUsed t) (iter_positions t w) s m -> m <= i ->
  (i ∈ iter_positions t w -> forall p, p ∈ iter_positions t w -> s <= p -> p < i -> False) ->
  let r := iter_move_loop n t w i j m in
  iter_positions t r.1 = (fun p => if (j <? p) && (p <=? i) then j else p) <$> iter_positions t w /\
  least_from (nNumUsed t) (iter_positions t r.1) (i + 1) r.2.
Proof.
  induction n as [|n IH]; intros t w i j s m Hi Hu Hj Hn Hs Hl Hm Hsep; cbn [iter_move_loop].
  all: set (w1 := zend_hash_iterators_update t w m j).
  all: pose proof (iter_positions_update t w m j Hi) as Hp1; fold w1 in Hp1.
  all: pose proof (lower_pos_least t w1 (m + 1)) as Hl1; set (m1 := zend_hash_iterators_lower_pos t w1 (m + 1)) in *.
  all: destruct (least_from_step (nNumUsed t) (iter_positions t w) j s m i Hj Hs Hl Hm Hu) as [Hs1 Hf1].
  all: rewrite <- Hp1 in Hs1, Hf1.
  all: assert (s <= m) as Hsm by (destruct Hl as (_ & [->|[]] & _); lia).
  all: assert (i ∈ iter_positions t w1 -> m < i -> False) as Hno
    by (rewrite Hp1; intros (q & Hq & Hin)%list_elem_of_fmap Hmi;
        destruct (Z.eqb_spec q m); [lia|subst q; destruct Hl as (_ & [->|[Hmin _]] & _); [lia|];
        by apply (Hsep Hin m)]).
  all: assert (forall (H : i < m1), iter_positions t w1 =
        ((fun p => if (j <? p) && (p <=? i) then j else p) <$> iter_positions t w) /\
      least_from (nNumUsed t) (iter_positions t w1) (i + 1) m1) as Hdone.
  1,3: intros H; rewrite <- Hf1; split;
    [symmetry; rewrite <- (list_fmap_id (iter_positions t w1)) at 2; apply list_fmap_ext; intros k p Hk;
     apply list_elem_of_lookup_2 in Hk; destruct (Hs1 p Hk) as [Hp|Hp];
       [by rewrite (proj2 (Z.ltb_ge _ _)) by lia|];
     destruct Hl1 as (_ & _ & Hc1); destruct (Z.lt_ge_cases p (nNumUsed t));
       [specialize (Hc1 p Hk Hp ltac:(lia))|];
     rewrite (proj2 (Z.leb_gt p i)) by lia; by rewrite andb_false_r
    |destruct Hl1 as (Ha1 & Hb1 & Hc1); split; [done|]; split;
       [destruct Hb1 as [|[]]; [by left|right; split; [done|lia]]|];
     intros p Hp Hip; apply Hc1; [done|lia]].
  - cbn zeta. cbn [fst snd]. apply Hdone.
    destruct Hl1 as (_ & [->|[]] & _); lia.
  - destruct (Z.ltb_spec m1 i) as [Hlt|Hge].
    + destruct (IH t w1 i j (m + 1) m1) as [HA HB]; try done; try lia.
      * destruct Hl1 as (_ & [->|[]] & _); lia.
      * intros Hin p Hp Hmp Hpi. apply Hno; [done|]. lia.
      * cbn zeta. split; [|done]. by rewrite HA.
    + cbn zeta. cbn [fst snd]. apply Hdone. destruct (Z.eq_dec m1 i) as [Heq|]; [|lia]. exfalso.
      destruct Hl1 as (_ & [|[Hin Hge1]] & _); [lia|]. rewrite Heq in *. apply Hno; [done|lia].
Qed.

(** * The compaction loop *)

(** Between two pending positions, the second on a live bucket, there is
    another live bucket. *)
Definition separated t (i j e : Z) ps : Prop :=
  forall p q, p ∈ ps -> q ∈ ps -> j < p < q -> i <= q < e -> live t q = true -> 0 < cnt t (Z.max p i) q.

Lemma separated_dead t i j e ps : live t i = false -> separated t i j e ps -> separated t (i + 1) j e ps.
Proof.
  intros Hl Hs p q Hp Hq Hpq Hqe Hlq. specialize (Hs p q Hp Hq Hpq ltac:(lia) Hlq).
  erewrite <- cnt_skip; [exact Hs|lia|]. intros k Hk. by replace k with i by lia.
Qed.

Lemma separated_live t t' i j e ps : 0 <= j < i ->
  (forall k, i < k < e -> content (bucket t' k) = content (bucket t k)) -> separated t i j e ps ->
  separated t' (i + 1) (j + 1) e ((fun p => if (j <? p) && (p <=? i) then j else p) <$> ps).
Proof.
  intros Hj Hc Hs p' q' (p & -> & Hp)%list_elem_of_fmap (q & -> & Hq)%list_elem_of_fmap.
  destruct (Z.ltb_spec j p), (Z.leb_spec p i), (Z.ltb_spec j q), (Z.leb_spec q i); cbn [andb]; try lia.
  intros Hpq Hqe Hlq. rewrite (content_live t) in Hlq by (apply Hc; lia).
  specialize (Hs p q Hp Hq ltac:(lia) ltac:(lia) Hlq).
  rewrite (cnt_ext t) by (intros; apply Hc; lia).
  by replace (Z.max p (i + 1)) with (Z.max p i) by lia.
Qed.

Lemma least_from_shift used ps j i m : j < i -> (forall p, p ∈ ps -> p <= j + 1 \/ i < p) ->
  least_from used ps (i + 1) m -> least_from used ps (j + 1 + 1) m.
Proof.
  intros Hj Hs (Ha & Hb & Hc). split; [done|]. split.
  - destruct Hb as [|[]]; [by left|right; split; [done|lia]].
  - intros p Hp Hjp. apply Hc; [done|]. destruct (Hs p Hp); lia.
Qed.

(** The iterators after the step on the live bucket at [i]. *)
Lemma compact_step_iterators t w i j m :
  HT_HAS_ITERATORS t = true -> 0 <= j < i -> i < nNumUsed t -> live t i = true ->
  least_from (nNumUsed t) (iter_positions t w) (j + 1) m ->
  separated t i j (nNumUsed t) (iter_positions t w) ->
  let r := if m <=? i then iter_move_loop (Z.to_nat i) t w i j m else (w, m) in
  iter_positions t r.1 = (fun p => if (j <? p) && (p <=? i) then j else p) <$> iter_positions t w /\
  least_from (nNumUsed t) (iter_positions t r.1) (j + 1 + 1) r.2.
Proof.
  intros Hi Hj Hu Hl Hm Hsep. destruct (Z.leb_spec m i) as [Hle|Hgt].
  - destruct (iter_move_loop_spec (Z.to_nat i) t w i j (j + 1) m) as [HA HB]; try done; try lia.
    + destruct Hm as (_ & [->|[]] & _); lia.
    + intros Hin p Hp Hjp Hpi. specialize (Hsep p i Hp Hin ltac:(lia) ltac:(lia) Hl).
      rewrite cnt_empty in Hsep by lia. lia.
    + cbn zeta. split; [done|]. apply (least_from_shift _ _ j i); [lia| |done].
      rewrite HA. intros p (q & -> & _)%list_elem_of_fmap.
      destruct (Z.ltb_spec j q), (Z.leb_spec q i); cbn [andb]; lia.
  - cbn zeta. cbn [fst snd]. assert (forall p, p ∈ iter_positions t w -> p <= j \/ i < p) as Hno.
    { intros p Hp. destruct (Z.le_gt_cases p j); [by left|]. right.
      destruct Hm as (_ & _ & Hc). destruct (Z.lt_ge_cases p (nNumUsed t)); [|lia].
      specialize (Hc p Hp ltac:(lia) ltac:(lia)). lia. }
    split.
    + symmetry. rewrite <- (list_fmap_id (iter_positions t w)) at 2. apply list_fmap_ext. intros k p Hk.
      apply list_elem_of_lookup_2, Hno in Hk. destruct (Z.ltb_spec j p), (Z.leb_spec p i); cbn [andb]; try done; lia.
    + destruct Hm as (Ha & Hb & Hc). split; [done|]. split.
      * destruct Hb as [|[]]; [by left|]. right. split; [done|]. lia.
      * intros p Hp Hjp. apply Hc; [done|lia].
Qed.

Lemma rehash_compact_frame n : forall i j ipo t w,
  ht_id (rehash_compact n i j ipo (t, w)).1.1 = ht_id t /\
  nIteratorsCount (rehash_compact n i j ipo (t, w)).1.1 = nIteratorsCount t.
Proof.
  induction n as [|n IH]; intros; cbn [rehash_compact]; [done|]. destruct (Z_ISUNDEF _); [apply IH|].
  match goal with |- context [let (_, _) := ?x in _] => destruct x as [w2 ip2] end.
  match goal with |- context [rehash_compact n ?a ?b ?c (?x, ?y)] => destruct (IH a b c x y) as [-> ->] end.
  by destruct (_ && _).
Qed.

Lemma rehash_compact_pos n : forall i j ipo t w,
  0 <= j < i -> i + Z.of_nat n = nNumUsed t ->
  let r := rehash_compact n i j ipo (t, w) in
  nInternalPointer r.1.1 = moved t i j (nNumUsed t) (nInternalPointer t) /\
  forall m, ipo = Some m -> HT_HAS_ITERATORS t = true ->
    least_from (nNumUsed t) (iter_positions t w) (j + 1) m ->
    separated t i j (nNumUsed t) (iter_positions t w) ->
    iter_positions t r.1.2 = moved t i j (nNumUsed t) <$> iter_positions t w.
Proof.
  induction n as [|n IH]; intros i j ipo t w Hj Hn; cbn [rehash_compact]; cbn zeta.
  - cbn [fst snd]. replace (nNumUsed t) with i by lia. split; [by rewrite moved_end|].
    intros m _ _ _ _. symmetry. rewrite <- (list_fmap_id (iter_positions t w)) at 2.
    apply list_fmap_ext. intros. apply moved_end.
  - destruct (Z_ISUNDEF (b_val (bucket t i))) eqn:Hu.
    + assert (live t i = false) as Hl by (unfold live; by rewrite Hu).
      destruct (IH (i + 1) j ipo t w ltac:(lia) ltac:(lia)) as [H1 H2]. split.
      * rewrite H1. by apply moved_dead; [lia|].
      * intros m Hm Hi Hlf Hsep. rewrite (H2 m) by (done || by apply separated_dead).
        apply list_fmap_ext. intros. by apply moved_dead; [lia|].
    + assert (live t i = true) as Hl by (unfold live; by rewrite Hu).
      set (t1 := move_bucket i j t).
      set (t2 := if (j <? nInternalPointer t1) && (nInternalPointer t1 <=? i)
                 then set_nInternalPointer j t1 else t1).
      assert (nNumUsed t2 = nNumUsed t /\ ht_id t2 = ht_id t /\ HT_HAS_ITERATORS t2 = HT_HAS_ITERATORS t /\
              nInternalPointer t2 = if (j <? nInternalPointer t) && (nInternalPointer t <=? i)
                                    then j else nInternalPointer t) as (Hu2 & Hid2 & Hit2 & Hip2).
      { unfold t2, t1. change (nInternalPointer (move_bucket i j t)) with (nInternalPointer t).
        destruct ((j <? nInternalPointer t) && (nInternalPointer t <=? i)); by split. }
      assert (forall k, i < k < nNumUsed t -> content (bucket t2 k) = content (bucket t k)) as Hc2.
      { intros k Hk. assert (bucket t2 k = bucket t1 k) as -> by (unfold t2; by destruct (_ && _)).
        apply move_bucket_content; lia. }
      set (r := match ipo with Some ip => if ip <=? i then
                  let (w, ip) := iter_move_loop (Z.to_nat i) t2 w i j ip in (w, Some ip) else (w, Some ip)
                | None => (w, None) end).
      destruct r as [w2 ipo2] eqn:Hr.
      destruct (IH (i + 1) (j + 1) ipo2 t2 w2 ltac:(lia) ltac:(lia)) as [H1 H2]. split.
      * rewrite H1, Hip2, Hu2. by apply moved_live; [lia| |].
      * intros m -> Hi Hlf Hsep.
        assert (iter_positions t2 w = iter_positions t w) as Hps by (by apply iter_positions_id).
        destruct (compact_step_iterators t2 w i j m) as [HA HB].
        { by rewrite Hit2. } { done. } { lia. }
        { rewrite (content_live t t2 i); [done|]. assert (bucket t2 i = bucket t1 i) as -> by (unfold t2; by destruct (_ && _)).
          apply move_bucket_content; lia. }
        { by rewrite Hu2, Hps. }
        { rewrite Hu2, Hps. intros p q Hp Hq Hpq Hqe Hlq.
          assert (forall k, i <= k < nNumUsed t -> content (bucket t2 k) = content (bucket t k)) as Hc3.
          { intros k Hk. assert (bucket t2 k = bucket t1 k) as -> by (unfold t2; by destruct (_ && _)).
            apply move_bucket_content; lia. }
          rewrite (content_live t) in Hlq by (apply Hc3; lia).
          rewrite (cnt_ext t) by (intros; apply Hc3; lia). by apply Hsep. }
        assert ((w2, ipo2) = (let (w3, ip3) := if m <=? i then iter_move_loop (Z.to_nat i) t2 w i j m else (w, m) in (w3, Some ip3))) as Hr2.
        { rewrite <- Hr. unfold r. by destruct (m <=? i). }
        revert HA HB Hr2. cbn zeta.
        set (q := if m <=? i then iter_move_loop (Z.to_nat i) t2 w i j m else (w, m)). clearbody q.
        destruct q as [w3 m3]. intros HA HB Hr2. injection Hr2 as Hw2 Hi2; subst w2 ipo2. cbn [fst snd] in *.
        match goal with |- iter_positions t ?x = _ => rewrite <- (iter_positions_id t t2 x) by done end.
        rewrite (H2 m3), HA, Hps, Hu2.
        -- rewrite <- list_fmap_compose. apply list_fmap_ext. intros k p _. cbn [compose].
           by apply moved_live; [lia| |].
        -- done.
        -- by rewrite Hit2.
        -- done.
        -- rewrite HA, Hps, Hu2. apply (separated_live t); [lia|done|done].
Qed.

(** * The loop before the first hole *)

Lemma moved_prefix t t' i e p : i < e -> live t i = true ->
  (forall k, i < k < e -> content (bucket t' k) = content (bucket t k)) ->
  moved t' (i + 1) (i + 1) e p = moved t i i e p.
Proof.
  intros Hi Hl Hc. unfold moved. destruct (Z.leb_spec p i), (Z.leb_spec p (i + 1)); try lia; try done.
  - replace p with (i + 1) by lia. rewrite (cnt_step t i (i + 1)), Hl, (cnt_empty t (i + 1) (i + 1)) by lia.
    destruct (0 <? _); lia.
  - replace (Z.max p (i + 1)) with p by lia. replace (Z.max p i) with p by lia.
    rewrite (cnt_ext t t' p e) by (intros; apply Hc; lia).
    destruct (Z.ltb_spec 0 (cnt t p e)) as [Hpos|]; [|done].
    assert (p < e) by (destruct (Z.le_gt_cases e p); [rewrite cnt_empty in Hpos by lia; lia|lia]).
    rewrite (cnt_ext t t' (i + 1) p) by (intros; apply Hc; lia).
    rewrite (cnt_step t i p), Hl by lia. lia.
Qed.

Lemma separated_prefix t t' i e ps :
  (forall k, i < k < e -> content (bucket t' k) = content (bucket t k)) -> separated t i i e ps ->
  separated t' (i + 1) (i + 1) e ps.
Proof.
  intros Hc Hs p q Hp Hq Hpq Hqe Hlq. rewrite (content_live t) in Hlq by (apply Hc; lia).
  specialize (Hs p q Hp Hq ltac:(lia) ltac:(lia) Hlq).
  rewrite (cnt_ext t) by (intros; apply Hc; lia).
  by replace (Z.max p (i + 1)) with (Z.max p i) by lia.
Qed.

Lemma rehash_holes_pos n : forall i t w, 0 <= i -> i + Z.of_nat n = nNumUsed t ->
  let r := rehash_holes n i (t, w) in
  nInternalPointer r.1 = moved t i i (nNumUsed t) (nInternalPointer t) /\
  ht_id r.1 = ht_id t /\ nIteratorsCount r.1 = nIteratorsCount t /\
  (HT_HAS_ITERATORS t = true -> separated t i i (nNumUsed t) (iter_positions t w) ->
   iter_positions t r.2 = moved t i i (nNumUsed t) <$> iter_positions t w).
Proof.
  induction n as [|n IH]; intros i t w Hi Hn; cbn [rehash_holes]; cbn zeta.
  - cbn [fst snd]. replace (nNumUsed t) with i by lia. split; [by rewrite moved_end|].
    do 2 (split; [done|]). intros _ _. symmetry. rewrite <- (list_fmap_id (iter_positions t w)) at 2.
    apply list_fmap_ext. intros. apply moved_end.
  - destruct (Z_ISUNDEF (b_val (bucket t i))) eqn:Hu.
    + assert (live t i = false) as Hl by (unfold live; by rewrite Hu).
      set (ipo := if HT_HAS_ITERATORS t then Some (zend_hash_iterators_lower_pos t w (i + 1)) else None).
      destruct (rehash_compact_pos n (i + 1) i ipo t w ltac:(lia) ltac:(lia)) as [H1 H2].
      pose proof (rehash_compact_frame n (i + 1) i ipo t w) as Hf.
      destruct (rehash_compact n (i + 1) i ipo (t, w)) as [[t' w'] j]. cbn [fst snd] in *.
      change (nInternalPointer (set_nNumUsed j t')) with (nInternalPointer t').
      change (ht_id (set_nNumUsed j t')) with (ht_id t').
      change (nIteratorsCount (set_nNumUsed j t')) with (nIteratorsCount t').
      split; [rewrite H1; by apply moved_dead; [lia|]|]. split; [apply Hf|]. split; [apply Hf|].
      intros Hh Hsep. rewrite (H2 (zend_hash_iterators_lower_pos t w (i + 1))).
      * apply list_fmap_ext. intros. by apply moved_dead; [lia|].
      * unfold ipo. by rewrite Hh.
      * done.
      * apply lower_pos_least.
      * by apply separated_dead.
    + assert (live t i = true) as Hl by (unfold live; by rewrite Hu).
      set (t1 := link_bucket i t).
      assert (forall k, i < k < nNumUsed t -> content (bucket t1 k) = content (bucket t k)) as Hc.
      { intros k Hk. apply link_bucket_content; lia. }
      destruct (IH (i + 1) t1 w ltac:(lia)) as (H1 & H2 & H3 & H4).
      { change (nNumUsed t1) with (nNumUsed t). lia. }
      change (nNumUsed t1) with (nNumUsed t) in *. change (nInternalPointer t1) with (nInternalPointer t) in *.
      split; [rewrite H1; apply moved_prefix; [lia|done|done]|]. do 2 (split; [done|]).
      intros Hh Hsep. change (iter_positions t ?x) with (iter_positions t1 x).
      rewrite H4.
      * change (iter_positions t1 w) with (iter_positions t w). apply list_fmap_ext. intros.
        apply moved_prefix; [lia|done|done].
      * exact Hh.
      * by apply (separated_prefix t).
Qed.

(** * Elements from a moved position *)

Lemma pos_elem_live t i : fl_PACKED t = false -> pos_elem t i = entry_elem <$> live_entry t i.
Proof.
  intros Hp. unfold pos_elem, pos_undef, live_entry, live. rewrite Hp.
  destruct (Z_ISUNDEF _); [done|]. unfold pos_key, pos_val. by rewrite Hp.
Qed.

Lemma pos_elems_entries t i n : fl_PACKED t = false -> pos_elems t i n = entry_elem <$> entries t i n.
Proof.
  intros Hp. revert i. induction n as [|n IH]; intros i; [done|].
  rewrite pos_elems_cons, entries_cons, fmap_app, IH, pos_elem_live by done. by destruct (live_entry t i).
Qed.

Lemma llen_elems_from t p : fl_PACKED t = false -> llen (elems_from t p) = cnt t p (nNumUsed t).
Proof. intros Hp. unfold elems_from. rewrite pos_elems_entries by done. unfold llen. by rewrite length_fmap. Qed.

Lemma llen_elems_below t p : fl_PACKED t = false -> llen (elems_below t p) = cnt t 0 p.
Proof.
  intros Hp. unfold elems_below, cnt. rewrite pos_elems_entries by done. unfold llen. rewrite length_fmap.
  by rewrite Z.sub_0_r.
Qed.

Lemma moved_elems t t' p : fl_PACKED t = false -> fl_PACKED t' = false -> 0 <= p -> 0 <= nNumUsed t ->
  elems t' = elems t -> 0 <= nNumUsed t' -> nNumUsed t' = cnt t 0 (nNumUsed t) ->
  (forall k, 0 <= k < nNumUsed t' -> live t' k = true) ->
  elems_from t' (moved t 0 0 (nNumUsed t) p) = elems_from t p.
Proof.
  intros Hp Hp' H0 Hu He Hu' Hcu Hl. unfold moved. replace (Z.max p 0) with p by lia.
  assert (elems_from t 0 = elems t /\ elems_from t' 0 = elems t') as [Hz Hz'].
  { rewrite (elems_split t 0), (elems_split t' 0) by lia. by split. }
  destruct (Z.leb_spec p 0).
  { replace p with 0 by lia. by rewrite Hz, Hz', He. }
  destruct (Z.ltb_spec 0 (cnt t p (nNumUsed t))) as [Hpos|Hnone].
  - assert (p < nNumUsed t) as Hpu by (destruct (Z.le_gt_cases (nNumUsed t) p); [rewrite cnt_empty in Hpos by lia; lia|lia]).
    rewrite Z.add_0_l. set (q := cnt t 0 p). pose proof (cnt_nonneg t 0 p) as Hq. fold q in Hq.
    assert (q <= nNumUsed t') as Hqu by (rewrite Hcu, (cnt_split t 0 p) by lia; lia).
    pose proof (elems_split t p ltac:(lia)) as Hs. pose proof (elems_split t' q ltac:(lia)) as Hs'.
    rewrite He, Hs in Hs'. apply app_inj_1 in Hs' as [_ ->]; [done|].
    pose proof (llen_elems_below t p Hp) as L. pose proof (llen_elems_below t' q Hp') as L'.
    assert (cnt t' 0 q = q) as Hcq.
    { assert (forall n, Z.of_nat n <= q -> cnt t' 0 (Z.of_nat n) = Z.of_nat n) as Hall.
      { induction n as [|n IH]; intros Hn; [by rewrite cnt_empty|].
        rewrite (cnt_split t' 0 (Z.of_nat n)) by lia. rewrite IH by lia. rewrite (cnt_step t' (Z.of_nat n)), Hl by lia.
        rewrite cnt_empty by lia. lia. }
      specialize (Hall (Z.to_nat q)). rewrite Z2Nat.id in Hall by lia. apply Hall. lia. }
    unfold llen in *. fold q in L. lia.
  - pose proof (cnt_nonneg t p (nNumUsed t)).
    assert (elems_from t p = []) as ->.
    { apply nil_length_inv. pose proof (llen_elems_from t p Hp). unfold llen in *. lia. }
    apply elems_from_end. rewrite Hcu. destruct (Z.le_gt_cases p (nNumUsed t)).
    + rewrite (cnt_split t 0 p) by lia. pose proof (cnt_le t 0 p ltac:(lia)). lia.
    + pose proof (cnt_le t 0 (nNumUsed t) ltac:(lia)). lia.
Qed.

(** * The whole rehash *)

Lemma elems_from_content t t' p : fl_PACKED t = false -> fl_PACKED t' = false -> nNumUsed t' = nNumUsed t ->
  (forall k, 0 <= k -> content (bucket t' k) = content (bucket t k)) -> 0 <= p ->
  elems_from t' p = elems_from t p.
Proof.
  intros Hp Hp' Hu Hc H0. unfold elems_from. rewrite Hu. apply pos_elems_ext; [congruence|].
  intros k Hk. apply pos_elem_content; [done|done|]. apply Hc. lia.
Qed.

(** The table and the iterators when the table has holes. *)
Lemma rehash_holes_follow t w : data_ok t -> nNumOfElements t <> 0 -> nNumUsed t <> nNumOfElements t ->
  let r := zend_hash_rehash (t, w) in
  nInternalPointer r.1 = moved t 0 0 (nNumUsed t) (nInternalPointer t) /\
  (HT_HAS_ITERATORS t = true -> separated t 0 0 (nNumUsed t) (iter_positions t w) ->
   iter_positions r.1 r.2 = (fun p => if p =? nNumUsed t then nNumUsed r.1 else p) <$>
     (moved t 0 0 (nNumUsed t) <$> iter_positions t w)).
Proof.
  intros Hd Hnz Hho. pose proof (do_used _ Hd) as Hu. unfold zend_hash_rehash. cbn zeta.
  rewrite (proj2 (Z.eqb_neq _ _)) by done. unfold HT_IS_WITHOUT_HOLES.
  change (nNumUsed (HT_HASH_RESET t)) with (nNumUsed t).
  change (nNumOfElements (HT_HASH_RESET t)) with (nNumOfElements t).
  rewrite (proj2 (Z.eqb_neq _ _)) by done.
  destruct (rehash_holes_pos (Z.to_nat (nNumUsed t)) 0 (HT_HASH_RESET t) w) as (H1 & H2 & H3 & H4);
    [lia|change (nNumUsed (HT_HASH_RESET t)) with (nNumUsed t); lia|].
  destruct (rehash_holes _ _ _) as [t1 w1]. cbn [fst snd] in *.
  change (nNumUsed (HT_HASH_RESET t)) with (nNumUsed t) in *.
  split; [exact H1|]. intros Hi Hsep. change (ht_id (HT_HASH_RESET t)) with (ht_id t) in H2.
  change (nIteratorsCount (HT_HASH_RESET t)) with (nIteratorsCount t) in H3.
  assert (HT_HAS_ITERATORS t1 = true) as Hi1 by (unfold HT_HAS_ITERATORS in *; by rewrite H3).
  rewrite Hi1. cbn [fst snd]. pose proof (iter_positions_update t1 w1 (nNumUsed t) (nNumUsed t1) Hi1) as Hup.
  unfold zend_hash_iterators_update in Hup. rewrite Hi1 in Hup. rewrite Hup.
  f_equal. rewrite (iter_positions_id t t1) by done. exact (H4 Hi Hsep).
Qed.

Lemma rehash_follow t w : data_ok t -> 0 <= nInternalPointer t ->
  let r := zend_hash_rehash (t, w) in
  elems_from r.1 (nInternalPointer r.1) = elems_from t (nInternalPointer t) /\
  (HT_HAS_ITERATORS t = true -> separated t 0 0 (nNumUsed t) (iter_positions t w) ->
   Forall (Z.le 0) (iter_positions t w) ->
   elems_from r.1 <$> iter_positions r.1 r.2 = elems_from t <$> iter_positions t w).
Proof.
  intros Hd Hip. pose proof (do_used _ Hd) as Hu. pose proof (do_count _ Hd) as Hcnt.
  destruct (rehash_ok t w Hd) as (t' & w' & Hr & Hok & Hf & He & Hu' & Hlive).
  assert (fl_PACKED t' = false) as Hp' by apply Hok. pose proof (do_packed _ Hd) as Hp.
  assert (elems t' = elems t) as Hel by (by rewrite !elems_mixed, He by done).
  assert (nNumUsed t' = cnt t 0 (nNumUsed t)) as Hc0.
  { rewrite Hu', Hcnt. unfold cnt, mixed_entries. by rewrite Z.sub_0_r. }
  assert (forall p, 0 <= p -> elems_from t' (moved t 0 0 (nNumUsed t) p) = elems_from t p) as Hm.
  { intros p H0. pose proof (do_used _ (mx_data _ Hok)). apply moved_elems; try done; try lia. }
  rewrite Hr. cbn zeta. cbn [fst snd].
  destruct (Z.eq_dec (nNumOfElements t) 0) as [Hz|Hnz]; [|destruct (Z.eq_dec (nNumUsed t) (nNumOfElements t)) as [Hfull|Hho]].
  - assert (forall p, 0 <= p -> elems_from t p = []) as Hn.
    { intros p H0. destruct (Z.le_gt_cases p (nNumUsed t)); [|apply elems_from_end; lia].
      apply nil_length_inv. pose proof (llen_elems_from t p Hp) as L. rewrite (cnt_split t 0 p) in Hc0 by lia.
      pose proof (cnt_nonneg t 0 p). unfold llen in L. lia. }
    unfold zend_hash_rehash in Hr. rewrite (proj2 (Z.eqb_eq _ _)), (do_init _ Hd) in Hr by done.
    destruct (HT_HAS_ITERATORS _) eqn:Hi in Hr; injection Hr as Ht Hw; subst t' w'.
    + split; [by rewrite Hn, elems_from_end|]. intros _ _ Hps.
      rewrite (iter_positions_map _ _ _ (fun _ => 0)).
      * change (iter_positions (set_nInternalPointer _ _) w) with (iter_positions t w).
        rewrite <- list_fmap_compose. apply list_fmap_ext. intros k p Hk.
        rewrite Forall_lookup in Hps. rewrite Hn by (by apply (Hps k)). by apply elems_from_end.
      * intros it Heq. rewrite (proj2 (Z.eqb_eq _ _)) by done. done.
      * intros it Hne. by rewrite (proj2 (Z.eqb_neq _ _)) by done.
    + split; [by rewrite Hn, elems_from_end|]. intros Hi'. unfold HT_HAS_ITERATORS in *. simpl in Hi. congruence.
  - assert (forall k, 0 <= k < nNumUsed t -> live t k = true) as Hall.
    { intros k Hk. apply (entries_full t 0 (Z.to_nat (nNumUsed t))); [|lia].
      unfold mixed_entries, llen in Hcnt. lia. }
    unfold zend_hash_rehash in Hr. rewrite (proj2 (Z.eqb_neq _ _)) in Hr by done.
    unfold HT_IS_WITHOUT_HOLES in Hr. change (nNumUsed (HT_HASH_RESET t)) with (nNumUsed t) in Hr.
    change (nNumOfElements (HT_HASH_RESET t)) with (nNumOfElements t) in Hr.
    rewrite (proj2 (Z.eqb_eq _ _)) in Hr by done.
    destruct (rehash_link_spec (Z.to_nat (nNumUsed t)) 0 (HT_HASH_RESET t) (reset_areas _ Hd)) as [_ Hs].
    { change (nTableSize (HT_HASH_RESET t)) with (nTableSize t). lia. }
    { apply linked_reset. by apply mask_pos. }
    { intros k Hk. apply Hall. lia. }
    change (Z.of_nat 0) with 0 in Hs. injection Hr as Ht Hw. rewrite Ht in Hs. subst w'.
    assert (forall p, 0 <= p -> elems_from t' p = elems_from t p) as Hsame.
    { intros p H0. apply elems_from_content; [done|done|exact (sc_used _ _ Hs)|exact (sc_content _ _ Hs)|done]. }
    assert (nInternalPointer t' = nInternalPointer t) as ->.
    { rewrite <- Ht. assert (forall n i u, nInternalPointer (rehash_link n i u) = nInternalPointer u) as Hl.
      { induction n as [|n IH]; intros i u; cbn [rehash_link]; [done|]. by rewrite IH. } rewrite Hl. done. }
    split; [by apply Hsame|]. intros _ _ Hps.
    rewrite (iter_positions_id t t') by apply (frame_fields _ _ Hf).
    apply list_fmap_ext. intros k p Hk. rewrite Forall_lookup in Hps. by apply Hsame, (Hps k).
  - destruct (rehash_holes_follow t w Hd Hnz Hho) as [H1 H2]. rewrite Hr in H1, H2. cbn [fst snd] in *.
    split; [rewrite H1; by apply Hm|]. intros Hi Hsep Hps. rewrite H2 by done.
    rewrite <- !list_fmap_compose. apply list_fmap_ext. intros k p Hk. cbn [compose].
    rewrite Forall_lookup in Hps. specialize (Hps k p Hk).
    destruct (Z.eqb_spec (moved t 0 0 (nNumUsed t) p) (nNumUsed t)) as [Heq|]; [|by apply Hm].
    rewrite <- (Hm p), Heq by done. rewrite !elems_from_end; [done| |lia].
    rewrite Hu'. apply count_le_used. done.
Qed.

(** C26: [zend_hash_rehash] rebuilds a well-formed table without holes that
    represents the same dictionary in the same order, and the internal
    pointer keeps designating the same remaining elements. *)
Theorem zend_hash_rehash_correct t w : wf t -> mixed_ok t -> 0 <= nInternalPointer t ->
  exists t' w', zend_hash_rehash (t, w) = (t', w') /\ wf t' /\ elems t' = elems t /\
    nNumUsed t' = nNumOfElements t' /\ nNumOfElements t' = nNumOfElements t /\
    elems_from t' (nInternalPointer t') = elems_from t (nInternalPointer t) /\
    slots w' = slots w /\ trace w' = trace w.
Proof.
  intros Hwf Hm Hip. pose proof (mx_data _ Hm) as Hd.
  destruct (rehash_keeps t w Hd) as (t' & w' & Hr & Hok & He & (Hn & Hf & _) & _ & Hu).
  destruct (rehash_follow t w Hd Hip) as [H1 _]. pose proof (rehash_outside t w) as Ho.
  rewrite Hr in H1, Ho. exists t', w'. split; [done|]. split.
  { split; [by right; right|]. destruct (proj2 Hwf) as [H2 H3]. split; [by rewrite Hf|].
    intros h. rewrite He, Hf. apply H3. }
  split; [done|]. split; [congruence|]. split; [done|]. split; [done|]. exact Ho.
Qed.

(** C27: compaction keeps every registered iterator of the table at its
    element, provided that no iterator waits on deleted positions directly
    before the live element of another iterator. *)
Theorem zend_hash_rehash_iterators t w : wf t -> mixed_ok t -> 0 <= nInternalPointer t ->
  HT_HAS_ITERATORS t = true -> Forall (Z.le 0) (iter_positions t w) ->
  separated t 0 0 (nNumUsed t) (iter_positions t w) ->
  let (t', w') := zend_hash_rehash (t, w) in
  elems_from t' <$> iter_positions t' w' = elems_from t <$> iter_positions t w.
Proof.
  intros _ Hm Hip Hi Hps Hsep. destruct (rehash_follow t w (mx_data _ Hm) Hip) as [_ H].
  destruct (zend_hash_rehash (t, w)) as [t' w']. by apply H.
Qed.

End Pos.
