(* ===== verification/HashMerge.v ===== *)
(** Copying and merging tables: [zend_hash_copy] is the right-biased union of
    dictionaries and [zend_hash_merge] the union in either direction; bounds
    on the growth of the target show that neither can overflow the table size. *)

From stdpp Require Import base numbers list gmap.
From S2P Require Import Prelude ZendTypes NumericStr HashTable HashDict HashChain HashInv.
From S2P Require Import HashRehash HashFind HashAdd HashIndex HashDel HashOps HashTraverse.
From S2P Require Import HashSymtable ZendSort HashCopy.

Section Merge.
Context {V : Type} {E : ZEnv V} {Z_ops : ZValue V}.
Implicit Types (t src : HashTable V) (w : EG V) (v : zval V) (B : Z).

(** * Growth of the table size *)

Definition same_size t t' : Prop :=
  nTableSize t' = nTableSize t /\ fl_PACKED t' = fl_PACKED t /\ fl_UNINITIALIZED t' = fl_UNINITIALIZED t.

Lemma same_size_refl t : same_size t t.
Proof. by unfold same_size. Qed.

Lemma same_size_trans t1 t2 t3 : same_size t1 t2 -> same_size t2 t3 -> same_size t1 t3.
Proof. unfold same_size. intuition congruence. Qed.

Lemma same_size_frame t t' : frame t' = frame t -> same_size t t'.
Proof. intros (_ & ? & _ & ? & ? & _)%frame_fields. by split. Qed.

Lemma rehash_compact_frame_all n : forall i j ipo t w,
  frame (rehash_compact n i j ipo (t, w)).1.1 = frame t.
Proof.
  induction n as [|n IH]; intros; cbn [rehash_compact]; [done|]. destruct (Z_ISUNDEF _); [apply IH|].
  match goal with |- context [let (_, _) := ?x in _] => destruct x as [w2 ip2] end.
  rewrite IH. by destruct (_ && _).
Qed.

Lemma rehash_holes_frame n : forall i t w, frame (rehash_holes n i (t, w)).1 = frame t.
Proof.
  induction n as [|n IH]; intros; cbn [rehash_holes]; [done|]. destruct (Z_ISUNDEF _).
  - match goal with |- context [rehash_compact n ?a ?b ?c (t, w)] =>
      pose proof (rehash_compact_frame_all n a b c t w) as Hf;
      destruct (rehash_compact n a b c (t, w)) as [[t' w'] j] end. exact Hf.
  - by rewrite IH.
Qed.

Lemma rehash_link_frame n : forall i t, frame (rehash_link n i t) = frame t.
Proof. induction n as [|n IH]; intros; cbn [rehash_link]; [done|]. by rewrite IH. Qed.

Lemma rehash_frame t w : frame (zend_hash_rehash (t, w)).1 = frame t.
Proof.
  unfold zend_hash_rehash. destruct (_ =? 0); [by destruct (fl_UNINITIALIZED t)|].
  destruct (HT_IS_WITHOUT_HOLES _); [cbn [fst]; rewrite rehash_link_frame; done|].
  match goal with |- context [rehash_holes ?n ?i (?u, w)] =>
    pose proof (rehash_holes_frame n i u w) as Hf; destruct (rehash_holes n i (u, w)) as [t' w'] end.
  exact Hf.
Qed.

(** The bound: a hash may be twice as large as a vector. *)
Definition bounded B t : Prop :=
  nTableSize t <= 2 * B /\ (fl_PACKED t = true \/ fl_UNINITIALIZED t = true -> nTableSize t <= B).

Lemma bounded_same B t t' : same_size t t' -> bounded B t -> bounded B t'.
Proof. unfold same_size, bounded. intros (-> & -> & ->). done. Qed.

Lemma bounded_hash B t : fl_PACKED t = false -> fl_UNINITIALIZED t = false -> nTableSize t <= 2 * B -> bounded B t.
Proof. unfold bounded. intros -> -> H. split; [done|]. by intros [|]. Qed.

Lemma packed_to_hash_frame t w :
  nTableSize (zend_hash_packed_to_hash (t, w)).1 = nTableSize t /\
  fl_PACKED (zend_hash_packed_to_hash (t, w)).1 = false /\
  fl_UNINITIALIZED (zend_hash_packed_to_hash (t, w)).1 = fl_UNINITIALIZED t.
Proof.
  unfold zend_hash_packed_to_hash. cbv zeta.
  match goal with |- context [zend_hash_rehash (?u, w)] => pose proof (rehash_frame u w) as Hf; set (u0 := u) in * end.
  apply same_size_frame in Hf as (Hs & Hp & Hu). rewrite Hs, Hp, Hu. subst u0.
  assert (forall n i u, same_size u (packed_to_buckets n i u)) as Hpb.
  { induction n as [|n IH]; intros i u; cbn [packed_to_buckets]; [apply same_size_refl|].
    apply (same_size_trans _ (upd_bucket i (fun b => mk_Bucket (packed u i) (b_next b) i None) u)); [done|apply IH]. }
  match goal with |- context [packed_to_buckets ?n 0 ?u] => destruct (Hpb n 0 u) as (H1 & H2 & H3) end.
  split; [exact H1|]. split; [exact H2|exact H3].
Qed.

Lemma resize_bounded B t w t' w' : fl_PACKED t = false -> fl_UNINITIALIZED t = false -> 0 <= nNumOfElements t ->
  nTableSize t <= 2 * B -> 4 * nNumOfElements t <= 2 * B ->
  ZEND_HASH_IF_FULL_DO_RESIZE (t, w) = Some (t', w') ->
  fl_PACKED t' = false /\ fl_UNINITIALIZED t' = false /\ nTableSize t' <= 2 * B.
Proof.
  intros Hp Hu Hc Hs HB. unfold ZEND_HASH_IF_FULL_DO_RESIZE, zend_hash_do_resize. cbn [fst].
  destruct (Z.leb_spec (nTableSize t) (nNumUsed t)) as [Hfull|]; [|by intros [= -> ->]].
  destruct (Z.ltb_spec (nNumOfElements t + Z.shiftr (nNumOfElements t) 5) (nNumUsed t)) as [|Hge].
  - intros Hr%(inj Some). pose proof (rehash_frame t w) as Hf. rewrite Hr in Hf. cbn [fst] in Hf.
    apply same_size_frame in Hf as (-> & -> & ->). done.
  - destruct (_ <? HT_MAX_SIZE); [|done]. intros Hr%(inj Some).
    match type of Hr with zend_hash_rehash (?u, w) = _ => pose proof (rehash_frame u w) as Hf end.
    rewrite Hr in Hf. cbn [fst] in Hf. apply same_size_frame in Hf as (-> & -> & ->). cbn.
    split; [done|]. split; [done|]. rewrite Z.shiftr_div_pow2 in Hge by lia. zlia.
Qed.

Lemma undef_packed_size n : forall i t, same_size t (undef_packed n i t).
Proof.
  induction n as [|n IH]; intros; cbn [undef_packed]; [apply same_size_refl|].
  apply (same_size_trans _ (set_packed i IS_UNDEF t)); [done|apply IH].
Qed.

Lemma add_to_packed_size h v flag t w : same_size t (add_to_packed h v flag (t, w)).1.1.
Proof.
  unfold add_to_packed. cbn. destruct (_ && _); [|done].
  exact (undef_packed_size (Z.to_nat (h - nNumUsed t)) (nNumUsed t) t).
Qed.

Lemma add_index_to_hash_size h v flag t w : same_size t (add_index_to_hash h v flag (t, w)).1.1.
Proof. unfold add_index_to_hash. cbn. by destruct (_ <=? _). Qed.

Lemma zstore_size p v t w : same_size t (zstore p v (t, w)).1.
Proof. by destruct p. Qed.

Lemma replace_at_size p v flag t w : same_size t (replace_at p v flag (t, w)).1.1.
Proof. unfold replace_at. destruct (has_flag _ _); [done|]. apply zstore_size. Qed.

Lemma update_existing_size i v flag t w : same_size t (update_existing i v flag (t, w)).1.1.
Proof.
  unfold update_existing. cbv zeta. destruct (has_flag flag HASH_LOOKUP); [done|].
  destruct (has_flag flag HASH_ADD).
  - destruct (negb _); [done|]. destruct (b_val _); try done. destruct (negb _); done.
  - destruct (b_val _); try done. destruct (has_flag flag HASH_UPDATE_INDIRECT); done.
Qed.

Lemma add_to_hash_size key v flag t w : same_size t (add_to_hash key v flag (t, w)).1.1.
Proof. unfold add_to_hash. by destruct (ZSTR_IS_INTERNED key). Qed.

Lemma init_mixed_size t : nTableSize (zend_hash_real_init_mixed_ex t) = nTableSize t /\
  fl_PACKED (zend_hash_real_init_mixed_ex t) = false /\ fl_UNINITIALIZED (zend_hash_real_init_mixed_ex t) = false.
Proof. unfold zend_hash_real_init_mixed_ex. by destruct (_ =? _). Qed.

Lemma hashed_keep B t t' u : same_size t t' -> fl_PACKED t = false -> fl_UNINITIALIZED t = false ->
  nTableSize t <= 2 * B -> t' = u -> bounded B u.
Proof. intros (H1 & H2 & H3) Hp Hu Hs <-. apply bounded_hash; congruence. Qed.

(** Both insertions keep the bound, as long as the table has few elements. *)
Lemma index_update_bounded B h v flag t w t' w' p : repr_ok t -> 0 <= B -> 4 * nNumOfElements t <= B ->
  zend_hash_index_add_or_update_i h v flag (t, w) = Some ((t', w'), p) -> bounded B t -> bounded B t'.
Proof.
  intros Hr HB Hc. unfold zend_hash_index_add_or_update_i. cbv zeta.
  set (h' := if has_flag flag HASH_ADD_NEXT && (h =? u64 ZEND_LONG_MIN) then 0 else h). clearbody h'.
  assert (forall u, fl_UNINITIALIZED u = false -> nTableSize u <= 2 * B ->
    Some (add_index_to_hash h' v flag (zend_hash_packed_to_hash (u, w))) = Some ((t', w'), p) -> bounded B t') as Hconv.
  { intros u Hu Hs Heq%(inj Some). destruct (packed_to_hash_frame u w) as (H1 & H2 & H3).
    destruct (zend_hash_packed_to_hash (u, w)) as [u1 w1]. cbn [fst] in *.
    pose proof (add_index_to_hash_size h' v flag u1 w1) as Hsz. rewrite Heq in Hsz.
    apply (bounded_same B u1); [done|]. apply bounded_hash; [done|congruence|lia]. }
  assert (forall f (u : HashTable V) (w1 : EG V), (forall u w, same_size u (f (u, w)).1.1) -> bounded B u ->
    Some (f (u, w1)) = Some ((t', w'), p) -> bounded B t') as Hsame.
  { intros f u w1 Hf Hbu Heq%(inj Some). specialize (Hf u w1). rewrite Heq in Hf. by apply (bounded_same B u). }
  intros Heq Hb. destruct Hr as [Hu|[Hp|Hm]].
  - rewrite (un_packed _ Hu), (un_init _ Hu) in Heq. destruct (h' <? nTableSize t); revert Heq.
    + apply (Hsame (add_to_packed h' v flag)); [intros; apply add_to_packed_size|].
      destruct Hb as [_ Hb]. specialize (Hb (or_intror (un_init _ Hu))). split; [cbn; lia|]. intros _. exact Hb.
    + apply (Hsame (add_index_to_hash h' v flag)); [intros; apply add_index_to_hash_size|].
      destruct (init_mixed_size t) as (H1 & H2 & H3). apply bounded_hash; [done|done|]. rewrite H1. apply Hb.
  - rewrite (pk_packed _ Hp) in Heq. pose proof (proj2 Hb (or_introl (pk_packed _ Hp))) as HsB.
    pose proof (size_ok_bounds _ (pk_size _ Hp)) as Hsz.
    destruct (_ && _); [destruct (has_flag flag HASH_ADD_NEW);
      [apply (Hconv t); [apply Hp|lia|done]|destruct (negb _);
        [destruct (has_flag _ _); [by injection Heq as <- _ _|];
         revert Heq; apply (Hsame (replace_at (PPacked h') v flag)); [intros; apply replace_at_size|done]
        |apply (Hconv t); [apply Hp|lia|done]]]|].
    destruct (h' <? nTableSize t).
    { revert Heq. apply (Hsame (add_to_packed h' v flag)); [intros; apply add_to_packed_size|done]. }
    destruct (_ <? nTableSize t); cbn [andb] in Heq; [destruct (Z.ltb_spec (Z.shiftr (nTableSize t) 1) (nNumOfElements t)) as [Hd|]|].
    + unfold zend_hash_packed_grow in Heq. destruct (HT_MAX_SIZE <=? nTableSize t); [done|]. cbn [mbind option_bind] in Heq.
      revert Heq. apply (Hsame (add_to_packed h' v flag)); [intros; apply add_to_packed_size|].
      rewrite Z.shiftr_div_pow2 in Hd by lia.
      assert (nTableSize t * 2 <= B) by zlia.
      split; [cbn; lia|intros _; cbn; lia].
    + revert Heq. apply Hconv; destruct (nTableSize t <=? nNumUsed t); try apply Hp; cbn; try lia.
      rewrite u32_small by (unfold HT_MAX_SIZE in Hsz; lia). lia.
    + revert Heq. apply Hconv; destruct (nTableSize t <=? nNumUsed t); try apply Hp; cbn; try lia.
      rewrite u32_small by (unfold HT_MAX_SIZE in Hsz; lia). lia.
  - pose proof (mx_data _ Hm) as Hd. rewrite (do_packed _ Hd), (do_init _ Hd) in Heq.
    destruct (if negb _ then _ else _) as [idx|].
    + destruct (has_flag _ _); [by injection Heq as <- _ _|].
      revert Heq. apply (Hsame (replace_at (PBucket idx) v flag)); [intros; apply replace_at_size|done].
    + destruct (ZEND_HASH_IF_FULL_DO_RESIZE (t, w)) as [[u w1]|] eqn:Hre; [|done]. cbn [mbind option_bind] in Heq.
      pose proof (count_le_used _ Hd). destruct (resize_bounded B t w u w1) as (H1 & H2 & H3); try done;
        [by apply Hd|by apply Hd|lia|apply Hb|lia|].
      revert Heq. apply (Hsame (add_index_to_hash h' v flag)); [intros; apply add_index_to_hash_size|].
      by apply bounded_hash.
Qed.

Lemma str_update_bounded B key v flag t w t' w' p : repr_ok t -> 0 <= B -> 4 * nNumOfElements t <= B ->
  zend_hash_add_or_update_i key v flag (t, w) = Some ((t', w'), p) -> bounded B t -> bounded B t'.
Proof.
  intros Hr HB Hc. unfold zend_hash_add_or_update_i. cbv zeta.
  assert (forall f (u : HashTable V) (w1 : EG V), (forall u w, same_size u (f (u, w)).1.1) -> bounded B u ->
    Some (f (u, w1)) = Some ((t', w'), p) -> bounded B t') as Hsame.
  { intros f u w1 Hf Hbu Heq%(inj Some). specialize (Hf u w1). rewrite Heq in Hf. by apply (bounded_same B u). }
  assert (forall u w1, fl_PACKED u = false -> fl_UNINITIALIZED u = false -> nTableSize u <= 2 * B ->
    0 <= nNumOfElements u -> 4 * nNumOfElements u <= B ->
    (s ← ZEND_HASH_IF_FULL_DO_RESIZE (u, w1); Some (add_to_hash key v flag s)) = Some ((t', w'), p) -> bounded B t') as Hgrow.
  { intros u w1 Hp Hu Hs Hc0 Hc1. destruct (ZEND_HASH_IF_FULL_DO_RESIZE (u, w1)) as [[u2 w2]|] eqn:Hre; [|done].
    cbn [mbind option_bind]. destruct (resize_bounded B u w1 u2 w2) as (H1 & H2 & H3); try done; [lia|].
    apply (Hsame (add_to_hash key v flag)); [intros; apply add_to_hash_size|]. by apply bounded_hash. }
  intros Heq Hb. destruct Hr as [Hu|[Hp|Hm]].
  - rewrite (un_packed _ Hu), (un_init _ Hu) in Heq. rewrite orb_true_l in Heq. revert Heq.
    apply (Hsame (add_to_hash key v flag)); [intros; apply add_to_hash_size|].
    destruct (init_mixed_size t) as (H1 & H2 & H3). apply bounded_hash; [done|done|]. rewrite H1. apply Hb.
  - rewrite (pk_packed _ Hp), (pk_init _ Hp) in Heq. rewrite orb_true_r in Heq.
    destruct (packed_to_hash_ok t w (packed_ok_data _ Hp)) as (u & w1 & Hr & Hok & _ & (Hn & _) & Hs & _).
    rewrite Hr in Heq. pose proof (packed_count_le t (packed_ok_data _ Hp)).
    revert Heq. apply Hgrow; [apply Hok|apply Hok|rewrite Hs; apply Hb|rewrite Hn; lia|rewrite Hn; lia].
  - pose proof (mx_data _ Hm) as Hd. rewrite (do_packed _ Hd), (do_init _ Hd) in Heq. rewrite orb_false_l in Heq.
    pose proof (count_le_used _ Hd).
    destruct (negb (has_flag flag HASH_ADD_NEW)).
    + destruct (zend_hash_find_bucket t key) as [idx|].
      * revert Heq. apply (Hsame (update_existing idx v flag)); [intros; apply update_existing_size|done].
      * revert Heq. apply Hgrow; [apply Hd|apply Hd|apply Hb|lia|lia].
    + revert Heq. apply Hgrow; [apply Hd|apply Hd|apply Hb|lia|lia].
Qed.

(** * Folding insertions over a source table *)

Definition dict := list (hkey * zval V).
Implicit Types (d : dict).

(** One insertion of the loop: [op] is its effect on the dictionary, [slot0]
    the slots that indirect values refer to, [I] an invariant of the target. *)
Definition inserts (B : Z) (slot0 : gmap Z (zval V)) (I : dict -> Prop) (op : dict -> dict)
    (body : state V -> option (state V)) : Prop :=
  forall t w, wf t -> bounded B t -> 4 * nNumOfElements t <= B -> slots w = slot0 -> I (elems t) ->
    exists t' w', body (t, w) = Some (t', w') /\ wf t' /\ bounded B t' /\ slots w' = slot0 /\
      elems t' = op (elems t) /\ I (elems t') /\ nNumOfElements t' <= nNumOfElements t + 1.

Lemma source_loop_inserts B slot0 I (ops : list (dict -> dict)) body n : forall idx t w,
  (forall k op, ops !! k = Some op -> inserts B slot0 I op (body (idx + Z.of_nat k))) -> length ops = n ->
  wf t -> bounded B t -> 4 * (nNumOfElements t + Z.of_nat n) <= B -> slots w = slot0 -> I (elems t) ->
  exists t' w', source_loop body n idx (t, w) = Some (t', w') /\ wf t' /\ slots w' = slot0 /\
    elems t' = foldl (fun d op => op d) (elems t) ops.
Proof.
  revert ops. induction n as [|n IH]; intros ops idx t w Hb Hlen Hwf Hbd Hc Hs HI; cbn [source_loop].
  - destruct ops; [|done]. by exists t, w.
  - destruct ops as [|op ops]; [done|]. injection Hlen as Hlen.
    destruct (Hb 0%nat op eq_refl t w Hwf Hbd ltac:(lia) Hs HI)
      as (t1 & w1 & Heq & Hwf1 & Hbd1 & Hs1 & He1 & HI1 & Hc1).
    change (Z.of_nat 0) with 0 in Heq. rewrite Z.add_0_r in Heq. rewrite Heq. cbn [mbind option_bind].
    destruct (IH ops (idx + 1) t1 w1) as (t' & w' & -> & Hwf' & Hs' & He'); try done; try lia.
    + intros k op' Hk. replace (idx + 1 + Z.of_nat k) with (idx + Z.of_nat (S k)) by lia. by apply (Hb (S k)).
    + exists t', w'. do 3 (split; [done|]). by rewrite He', He1.
Qed.

(** The constructor is called on the new element; it may record events but
    writes neither to the tables nor to the slots. *)
Definition pure_ctor (ctor : option (zptr -> state V -> state V)) : Prop :=
  forall f p s, ctor = Some f -> (f p s).1 = s.1 /\ slots (f p s).2 = slots s.2.

Lemma run_ctor_pure ctor p s : pure_ctor ctor ->
  (run_ctor ctor p s).1 = s.1 /\ slots (run_ctor ctor p s).2 = slots s.2.
Proof. intros Hc. unfold run_ctor. destruct ctor as [f|], p as [p|]; try done. by apply Hc. Qed.

Definition is_indirect v : bool := match v with IS_INDIRECT _ => true | _ => false end.

(** No value of the dictionary is a reference to a slot. *)
Definition no_indirect d : Prop := Forall (fun e => is_indirect e.2 = false) d.

Lemma no_indirect_set k v d : is_indirect v = false -> no_indirect d -> no_indirect (dict_set k v d).
Proof.
  unfold no_indirect. intros Hv. induction d as [|[k' v'] d IH]; cbn [dict_set]; [by repeat constructor|].
  intros [H1 H2]%Forall_cons. destruct (decide (k = k')); constructor; auto.
Qed.

Lemma no_indirect_add k v d : is_indirect v = false -> no_indirect d -> no_indirect (dict_add k v d).
Proof.
  unfold no_indirect, dict_add. intros Hv Hd. destruct (dict_lookup k d); [done|].
  apply Forall_app. split; [done|]. by constructor.
Qed.

Lemma length_dict_set k v d : (length (dict_set k v d) <= length d + 1)%nat.
Proof. induction d as [|[k' v'] d IH]; cbn; [lia|]. destruct (decide (k = k')); cbn; lia. Qed.

Lemma length_dict_add k v d : (length (dict_add k v d) <= length d + 1)%nat.
Proof. unfold dict_add. destruct (dict_lookup k d); [lia|]. rewrite length_app. cbn. lia. Qed.

Lemma bounded_max B t : B <= 2 ^ 28 -> bounded B t -> nTableSize t < HT_MAX_SIZE.
Proof. intros HB [H _]. unfold HT_MAX_SIZE. lia. Qed.

Lemma used_below t : repr_ok t -> nTableSize t < HT_MAX_SIZE -> nNumUsed t < HT_MAX_SIZE.
Proof.
  intros [H|[H|H]] Hm.
  - rewrite (un_used _ H). unfold HT_MAX_SIZE. lia.
  - pose proof (pk_used _ H). lia.
  - pose proof (do_used _ (mx_data _ H)). lia.
Qed.

Section Inserts.
Variables (B : Z) (slot0 : gmap Z (zval V)) (I : dict -> Prop).
Hypothesis HB : 0 <= B <= 2 ^ 28.

Lemma inserts_id body : (forall s, slots s.2 = slot0 -> body s = Some s) -> inserts B slot0 I (fun d => d) body.
Proof. intros Hb t w Hwf Hbd Hc Hs HI. exists t, w. rewrite Hb by done. do 6 (split; [done|]). lia. Qed.

Lemma inserts_updated k v ctor body : (forall d, I d -> I (dict_set k v d)) -> pure_ctor ctor ->
  (forall t w, wf t -> nTableSize t < HT_MAX_SIZE -> slots w = slot0 -> I (elems t) -> exists r evs,
     body (t, w) = insert_ctor ctor r /\ updated t w k v evs r /\
     forall t' w' p, r = Some ((t', w'), p) -> 4 * nNumOfElements t <= B -> bounded B t -> bounded B t') ->
  inserts B slot0 I (dict_set k v) body.
Proof.
  intros HI Hct Hb t w Hwf Hbd Hc Hs Hi.
  destruct (Hb t w Hwf (bounded_max B t (proj2 HB) Hbd) Hs Hi) as (r & evs & Heq & Hup & Hbo).
  destruct Hup as (t' & w' & p & -> & Hwf' & He & Hz & Hsl & Htr).
  rewrite Heq. unfold insert_ctor. cbn [mbind option_bind].
  destruct (run_ctor_pure ctor (Some p) (t', w') Hct) as [H1 H2].
  destruct (run_ctor ctor (Some p) (t', w')) as [t2 w2]. cbn [fst snd] in *. subst t2.
  exists t', w2. split; [done|]. split; [done|]. split; [by eapply Hbo|].
  split; [congruence|]. split; [done|]. split; [rewrite He; by apply HI|].
  rewrite !count_elems, He by apply Hwf || apply Hwf'. unfold llen.
  pose proof (length_dict_set k v (elems t)). lia.
Qed.

End Inserts.

(** * The elements of the source *)

(** What an element at position [i] contributes: indirect values are followed,
    holes and undefined slots are skipped. *)
Definition source_value w src (i : Z) : option (zval V) :=
  if pos_undef src i then None
  else
    let v := if fl_PACKED src then packed src i else deref_indirect w (b_val (bucket src i)) in
    if Z_ISUNDEF v then None else Some v.

Definition deref_elem w (e : hkey * zval V) : option (hkey * zval V) :=
  let v := deref_indirect w e.2 in if Z_ISUNDEF v then None else Some (e.1, v).

Definition source_elems w src : dict :=
  if fl_PACKED src then elems src else omap (deref_elem w) (elems src).

Lemma source_elems_pos w src :
  source_elems w src = omap (fun i => pair (pos_key src i) <$> source_value w src i)
                            (zrange 0 (Z.to_nat (nNumUsed src))).
Proof.
  unfold source_elems. rewrite elems_pos. unfold pos_elems, source_value, pos_elem, pos_val, pos_undef.
  generalize (zrange 0 (Z.to_nat (nNumUsed src))). intros l. destruct (fl_PACKED src).
  - induction l as [|i l IH]; [done|]. csimpl.
    destruct (Z_ISUNDEF (packed src i)) eqn:Hu; csimpl; [exact IH|]. f_equal. exact IH.
  - induction l as [|i l IH]; [done|]. csimpl. destruct (Z_ISUNDEF (b_val (bucket src i))); csimpl; [exact IH|].
    unfold deref_elem at 1. csimpl. destruct (Z_ISUNDEF (deref_indirect w _)); csimpl; rewrite IH; done.
Qed.

Lemma source_value_slots w w' src i : slots w' = slots w -> source_value w' src i = source_value w src i.
Proof. intros H. unfold source_value, deref_indirect, slot. by rewrite H. Qed.

Definition apply_op (op : hkey -> zval V -> dict -> dict) (o : option (hkey * zval V)) : dict -> dict :=
  match o with Some (k, v) => op k v | None => fun d => d end.

Lemma foldl_apply_op op (l : list (option (hkey * zval V))) : forall d,
  foldl (fun d f => f d) d (apply_op op <$> l) = foldl (fun d e => op e.1 e.2 d) d (omap id l).
Proof. induction l as [|[[k v]|] l IH]; intros d; csimpl; [done|apply IH|apply IH]. Qed.

(** The keys of a well-formed source are 64-bit values. *)
Lemma source_key src i : repr_ok src -> 0 <= i < nNumUsed src -> pos_undef src i = false ->
  match key_at src i with
  | (h, None) => pos_key src i = KInt h /\ 0 <= h < 2 ^ 64
  | (_, Some k) => pos_key src i = KStr (ZSTR_VAL k) /\ fl_PACKED src = false
  end.
Proof.
  intros Hr Hi Hu. unfold key_at, pos_key, pos_undef in *. destruct Hr as [H|[H|H]].
  - rewrite (un_used _ H) in Hi. lia.
  - rewrite (pk_packed _ H). pose proof (pk_used _ H). pose proof (size_ok_bounds _ (pk_size _ H)) as Hs.
    unfold HT_MAX_SIZE in Hs. split; [done|lia].
  - pose proof (mx_data _ H) as Hd. rewrite (do_packed _ Hd) in *.
    pose proof (mixed_bucket_ok src i Hd Hi) as Hb. unfold live in Hb. rewrite Hu in Hb. specialize (Hb eq_refl).
    unfold bucket_key, entry_ok, content in *. cbn in Hb. destruct (b_key (bucket src i)); [done|]. split; [done|apply Hb].
Qed.

Definition source_op op w src (i : Z) : dict -> dict :=
  apply_op op (pair (pos_key src i) <$> source_value w src i).

(** A loop whose body inserts each element of the source. *)
Lemma source_union B I op body src t w : 0 <= B <= 2 ^ 28 ->
  (forall i, 0 <= i < nNumUsed src -> inserts B (slots w) I (source_op op w src i) (body i)) ->
  repr_ok src -> wf t -> bounded B t -> 4 * (nNumOfElements t + nNumUsed src) <= B -> I (elems t) ->
  exists t' w', source_loop body (Z.to_nat (nNumUsed src)) 0 (t, w) = Some (t', w') /\ wf t' /\
    slots w' = slots w /\ elems t' = foldl (fun d e => op e.1 e.2 d) (elems t) (source_elems w src).
Proof.
  intros HB Hb Hr Hwf Hbd Hc HI. pose proof (used_nonneg src Hr) as Hu.
  destruct (source_loop_inserts B (slots w) I
    (source_op op w src <$> zrange 0 (Z.to_nat (nNumUsed src))) body
    (Z.to_nat (nNumUsed src)) 0 t w) as (t' & w' & Heq & H1 & H2 & H3); try done.
  - intros k f Hk. rewrite list_lookup_fmap in Hk.
    destruct (zrange 0 (Z.to_nat (nNumUsed src)) !! k) as [i|] eqn:Hi; [|done]. injection Hk as <-.
    assert (i = 0 + Z.of_nat k /\ (k < Z.to_nat (nNumUsed src))%nat) as [-> Hk].
    { unfold zrange in Hi. rewrite list_lookup_fmap in Hi.
      destruct (seq 0 _ !! k) as [j|] eqn:Hj; [|done]. injection Hi as <-. apply lookup_seq in Hj as [-> Hj]. lia. }
    apply Hb. lia.
  - by rewrite length_fmap, length_zrange.
  - lia.
  - exists t', w'. split; [done|]. split; [done|]. split; [done|]. rewrite H3, source_elems_pos.
    replace (source_op op w src <$> zrange 0 (Z.to_nat (nNumUsed src))) with
      (apply_op op <$> ((fun i => pair (pos_key src i) <$> source_value w src i) <$> zrange 0 (Z.to_nat (nNumUsed src))))
      by (by rewrite <- list_fmap_compose).
    rewrite foldl_apply_op. f_equal. generalize (zrange 0 (Z.to_nat (nNumUsed src))). intros l.
    induction l as [|i l IH]; [done|]. csimpl. destruct (source_value w src i); csimpl; by rewrite IH.
Qed.

(** * Copy *)

Definition dict_union d (l : dict) : dict := foldl (fun d e => dict_set e.1 e.2 d) d l.
Definition dict_complete d (l : dict) : dict := foldl (fun d e => dict_add e.1 e.2 d) d l.

Lemma updated_bounded_index B h v t w : repr_ok t -> 0 <= B ->
  forall t' w' p, zend_hash_index_update h v (t, w) = Some ((t', w'), p) -> 4 * nNumOfElements t <= B ->
  bounded B t -> bounded B t'.
Proof. intros Hr HB t' w' p Heq Hc. by apply (index_update_bounded B h v HASH_UPDATE t w t' w' p). Qed.

Lemma copy_inserts B ctor src w i : 0 <= B <= 2 ^ 28 -> pure_ctor ctor -> repr_ok src -> 0 <= i < nNumUsed src ->
  inserts B (slots w) (fun _ => True) (source_op dict_set w src i) (copy_element ctor src i).
Proof.
  intros HB Hct Hr Hi. unfold source_op, source_value, copy_element.
  destruct (pos_undef src i) eqn:Hu; [by apply inserts_id|].
  pose proof (source_key src i Hr Hi Hu) as Hk. unfold key_at in Hk.
  assert (forall h v, Z_ISUNDEF v = false -> 0 <= h < 2 ^ 64 -> pos_key src i = KInt h ->
    inserts B (slots w) (fun _ => True) (dict_set (KInt h) v)
      (fun s => insert_ctor ctor (zend_hash_index_update h v s))) as Hint.
  { intros h v Hv Hh _. apply (inserts_updated B (slots w) _ HB _ _ ctor); [done|done|].
    intros u x Hwf Hm Hs _. exists (zend_hash_index_update h v (u, x)), (index_update_events u h).
    split; [done|]. split; [by apply index_update_ok|]. apply updated_bounded_index; [apply Hwf|lia]. }
  destruct (fl_PACKED src) eqn:Hp.
  - unfold pos_undef in Hu. rewrite Hp in Hu. rewrite Hu. cbn [fmap option_fmap option_map apply_op].
    destruct Hk as [-> Hh]. by apply Hint; [|done|unfold pos_key; rewrite Hp].
  - cbn zeta. destruct (Z_ISUNDEF (deref_indirect w (b_val (bucket src i)))) eqn:Hd.
    + apply inserts_id. intros s Hs. unfold deref_indirect, slot in *. by rewrite Hs, Hd.
    + cbn [fmap option_fmap option_map apply_op].
      assert (forall s : state V, slots s.2 = slots w -> deref_indirect s.2 (b_val (bucket src i)) = deref_indirect w (b_val (bucket src i))) as Hds.
      { intros s Hs. unfold deref_indirect, slot. by rewrite Hs. }
      set (v := deref_indirect w (b_val (bucket src i))) in *.
      destruct (b_key (bucket src i)) as [key|].
      * destruct Hk as [-> _]. apply (inserts_updated B (slots w) _ HB _ _ ctor); [done|done|].
        intros u x Hwf Hm Hs _. exists (zend_hash_update key v (u, x)), (update_events u key).
        rewrite Hds, Hd by done. split; [done|].
        split; [apply update_ok; [done|by apply used_below; [apply Hwf|]|done]|].
        intros t' w' p Heq Hc. apply (str_update_bounded B key v HASH_UPDATE u x t' w' p); [apply Hwf|lia|done|done].
      * destruct Hk as [Hkey Hh]. rewrite Hkey.
        intros u x Hwf Hbd Hc Hs HI. rewrite Hds, Hd by done.
        by apply (Hint (b_h (bucket src i)) v Hd Hh Hkey u x).
Qed.

(** [zend_hash_copy] succeeds on every pair of tables whose elements fit
    and makes the target the right-biased union of the dictionaries: every
    element of the source, indirect ones followed and undefined ones skipped,
    updates the target in order; the growth of the target stays below the
    maximal size. *)
Theorem zend_hash_copy_correct ctor src t w :
  wf t -> repr_ok src -> pure_ctor ctor -> nTableSize t <= 2 ^ 28 -> nNumOfElements t + nNumUsed src <= 2 ^ 26 ->
  exists t' w', zend_hash_copy ctor src (t, w) = Some (t', w') /\ wf t' /\ slots w' = slots w /\
    elems t' = dict_union (elems t) (source_elems w src).
Proof.
  intros Hwf Hr Hct Hs Hc. apply (source_union (2 ^ 28) (fun _ => True) dict_set); try done; try lia.
  - intros i Hi. by apply copy_inserts.
  - split; [lia|]. by intros _.
Qed.

(** * Merge *)

Lemma add_to_hash_flag key v f g s : has_flag f HASH_LOOKUP = has_flag g HASH_LOOKUP ->
  add_to_hash key v f s = add_to_hash key v g s.
Proof. unfold add_to_hash. by intros ->. Qed.

(** Without an indirect value under the key, [HASH_UPDATE_INDIRECT] changes nothing. *)
Lemma indirect_flag key v t w f g : repr_ok t ->
  (forall x, dict_lookup (KStr (ZSTR_VAL key)) (elems t) = Some x -> is_indirect x = false) ->
  has_flag f HASH_LOOKUP = has_flag g HASH_LOOKUP -> has_flag f HASH_ADD_NEW = has_flag g HASH_ADD_NEW ->
  has_flag f HASH_ADD = has_flag g HASH_ADD ->
  zend_hash_add_or_update_i key v f (t, w) = zend_hash_add_or_update_i key v g (t, w).
Proof.
  intros Hr Hx H1 H2 H3. unfold zend_hash_add_or_update_i.
  assert (forall s, add_to_hash key v f s = add_to_hash key v g s) as Ha by (intros; by apply add_to_hash_flag).
  destruct (fl_UNINITIALIZED t) eqn:Hu; cbn [orb]; [by rewrite Ha|].
  destruct (fl_PACKED t) eqn:Hp.
  { destruct (ZEND_HASH_IF_FULL_DO_RESIZE _); cbn; [by rewrite Ha|done]. }
  rewrite H2. destruct (negb (has_flag g HASH_ADD_NEW)).
  2:{ destruct (ZEND_HASH_IF_FULL_DO_RESIZE _); cbn; [by rewrite Ha|done]. }
  pose proof (hash_find_ok t w key Hr) as Hf. unfold zend_hash_find in Hf.
  destruct (zend_hash_find_bucket t key) as [i|].
  - cbn [fmap option_fmap option_map zload fst] in Hf. symmetry in Hf. apply Hx in Hf.
    unfold update_existing. rewrite H1, H3.
    destruct (b_val (bucket t i)); try done; destruct (has_flag g HASH_LOOKUP), (has_flag g HASH_ADD),
      (has_flag f HASH_UPDATE_INDIRECT), (has_flag g HASH_UPDATE_INDIRECT); done.
  - destruct (ZEND_HASH_IF_FULL_DO_RESIZE _); cbn; [by rewrite Ha|done].
Qed.

(** Tables and slots together: a value that is a reference to a slot stands for
    what the slot holds, and a string key with such a value is set through it. *)
Definition dstate : Type := dict * gmap Z (zval V).
Implicit Types (s : dstate).

Definition slot_of (m : gmap Z (zval V)) (a : Z) : zval V := default IS_UNDEF (m !! a).
Definition follow (m : gmap Z (zval V)) v : zval V := match v with IS_INDIRECT a => slot_of m a | _ => v end.

Definition merge_op (overwrite : bool) : hkey -> zval V -> dict -> dict :=
  if overwrite then dict_set else dict_add.

Definition merge_value (overwrite : bool) (k : hkey) v s : dstate :=
  match k, dict_lookup k s.1 with
  | KStr _, Some (IS_INDIRECT a) => if overwrite || Z_ISUNDEF (slot_of s.2 a) then (s.1, <[a := v]> s.2) else s
  | _, _ => (merge_op overwrite k v s.1, s.2)
  end.

(** One element of the source; [packed]: no values of the source are followed. *)
Definition merge_elem (overwrite packed : bool) s (e : hkey * zval V) : dstate :=
  let v := if packed then e.2 else follow s.2 e.2 in
  if Z_ISUNDEF v then s else merge_value overwrite e.1 v s.

Definition merges B (op : dstate -> dstate) (body : state V -> option (state V)) : Prop :=
  forall t w, wf t -> bounded B t -> 4 * nNumOfElements t <= B ->
    exists t' w', body (t, w) = Some (t', w') /\ wf t' /\ bounded B t' /\
      (elems t', slots w') = op (elems t, slots w) /\ nNumOfElements t' <= nNumOfElements t + 1.

Lemma merge_loop B overwrite src body n : forall idx t w,
  (forall k, 0 <= k < Z.of_nat n ->
    merges B (fun s => foldl (merge_elem overwrite (fl_PACKED src)) s (option_list (pos_elem src (idx + k)))) (body (idx + k))) ->
  wf t -> bounded B t -> 4 * (nNumOfElements t + Z.of_nat n) <= B ->
  exists t' w', source_loop body n idx (t, w) = Some (t', w') /\ wf t' /\
    (elems t', slots w') = foldl (merge_elem overwrite (fl_PACKED src)) (elems t, slots w) (pos_elems src idx n).
Proof.
  induction n as [|n IH]; intros idx t w Hb Hwf Hbd Hc; cbn [source_loop]; [by exists t, w|].
  destruct (Hb 0 ltac:(lia) t w Hwf Hbd ltac:(lia)) as (t1 & w1 & E1 & Hwf1 & Hbd1 & He1 & Hc1).
  rewrite Z.add_0_r in E1, He1. rewrite E1. cbn [mbind option_bind].
  destruct (IH (idx + 1) t1 w1) as (t' & w' & E' & Hwf' & He'); [|done|done|lia|].
  - intros k Hk. rewrite <- Z.add_assoc. apply Hb. lia.
  - exists t', w'. split; [done|]. split; [done|]. by rewrite He', He1, pos_elems_cons, foldl_app.
Qed.

Lemma length_merge_value overwrite k v s : (length (merge_value overwrite k v s).1 <= length s.1 + 1)%nat.
Proof.
  assert (length (merge_op overwrite k v s.1) <= length s.1 + 1)%nat as Hop
    by (destruct overwrite; [apply length_dict_set|apply length_dict_add]).
  unfold merge_value. destruct k as [h|x]; [done|]. destruct (dict_lookup (KStr x) s.1) as [[| |a|]|]; try done.
  destruct (_ || _); cbn; lia.
Qed.

(** The insertion of a string key with [HASH_UPDATE_INDIRECT]. *)
Lemma merge_str_ok (overwrite : bool) key v t w : wf t -> nNumUsed t < HT_MAX_SIZE -> Z_ISUNDEF v = false ->
  exists t' w' p, zend_hash_add_or_update_i key v (Z.lor (if overwrite then HASH_UPDATE else HASH_ADD) HASH_UPDATE_INDIRECT) (t, w) =
      Some ((t', w'), p) /\ wf t' /\ (elems t', slots w') = merge_value overwrite (KStr (ZSTR_VAL key)) v (elems t, slots w).
Proof.
  intros Hwf Hu Hv. pose proof (proj1 Hwf) as Hr. unfold merge_value. cbn [fst snd].
  assert ((forall x, dict_lookup (KStr (ZSTR_VAL key)) (elems t) = Some x -> is_indirect x = false) ->
    exists t' w' p, zend_hash_add_or_update_i key v (Z.lor (if overwrite then HASH_UPDATE else HASH_ADD) HASH_UPDATE_INDIRECT) (t, w) =
      Some ((t', w'), p) /\ wf t' /\ (elems t', slots w') = (merge_op overwrite (KStr (ZSTR_VAL key)) v (elems t), slots w)) as Hplain.
  { intros Hx. destruct overwrite; cbn [merge_op].
    - rewrite (indirect_flag key v t w _ HASH_UPDATE) by done.
      destruct (update_ok key v t w Hwf Hu Hv) as (t' & w' & p & E' & Hwf' & He & _ & Hs & _).
      exists t', w', (Some p). split; [exact E'|]. split; [done|]. by rewrite He, Hs.
    - rewrite (indirect_flag key v t w _ HASH_ADD) by done. pose proof (add_ok key v t w Hwf Hu Hv) as Ha.
      unfold added in Ha. unfold dict_add. destruct (dict_lookup (KStr (ZSTR_VAL key)) (elems t)).
      + exists t, w, None. split; [exact Ha|]. by split.
      + destruct Ha as (t' & w' & p & E' & Hwf' & He & _ & Hs & _). exists t', w', (Some p). split; [exact E'|]. split; [done|]. by rewrite He, Hs. }
  destruct (dict_lookup (KStr (ZSTR_VAL key)) (elems t)) as [[| |a|]|] eqn:Hlk; try (apply Hplain; by intros ? [= <-]).
  assert (KStr (ZSTR_VAL key) ∈ (elems t).*1) as Hin.
  { destruct (decide (KStr (ZSTR_VAL key) ∈ (elems t).*1)) as [|Hn%dict_lookup_None]; [done|congruence]. }
  destruct (find_present key t w Hr Hin) as (i & Hm & Hh & _ & Heq).
  rewrite (holds_lookup t i _ (mx_data _ Hm) Hh) in Hlk. apply (inj Some) in Hlk. rewrite Heq by (by destruct overwrite).
  assert (forall p, p = PSlot a -> exists t' w' q, Some (zstore p v (t, run_dtor t (zload (t, w) p) w), Some p) = Some ((t', w'), q) /\
    wf t' /\ (elems t', slots w') = (elems t, <[a := v]> (slots w))) as Hover.
  { intros p ->. exists t, (set_slot a v (run_dtor t (zload (t, w) (PSlot a)) w)), (Some (PSlot a)). split; [done|]. split; [done|].
    cbn. by unfold run_dtor; destruct (pDestructor t). }
  unfold update_existing. rewrite Hlk.
  destruct overwrite; cbn [orb negb has_flag].
  - destruct (Hover (PSlot a) eq_refl) as (t' & w' & q & E' & H). exists t', w', q. split; [exact E'|done].
  - change (slot_of (slots w) a) with (slot w a). destruct (Z_ISUNDEF (slot w a)) eqn:Hua.
    + destruct (Hover (PSlot a) eq_refl) as (t' & w' & q & E' & H). exists t', w', q. split; [|done]. rewrite <- E'. reflexivity.
    + exists t, w, None. split; [|by split]. reflexivity.
Qed.

Lemma merge_int_ok (overwrite : bool) h v t w : wf t -> nTableSize t < HT_MAX_SIZE -> 0 <= h < 2 ^ 64 -> Z_ISUNDEF v = false ->
  exists t' w' p, (if overwrite then zend_hash_index_update h v (t, w) else zend_hash_index_add h v (t, w)) = Some ((t', w'), p) /\
    wf t' /\ (elems t', slots w') = merge_value overwrite (KInt h) v (elems t, slots w).
Proof.
  intros Hwf Hm Hh Hv. unfold merge_value, merge_op. cbn [fst snd]. destruct overwrite.
  - destruct (index_update_ok h v t w Hwf Hm Hh Hv) as (t' & w' & p & E' & Hwf' & He & _ & Hs & _).
    exists t', w', (Some p). split; [exact E'|]. split; [done|]. rewrite He, Hs. by destruct (dict_lookup (KInt h) (elems t)) as [[]|].
  - pose proof (index_add_ok h v t w Hwf Hm Hh Hv) as Ha. unfold added in Ha. unfold dict_add.
    destruct (dict_lookup (KInt h) (elems t)) as [old|].
    + exists t, w, None. split; [exact Ha|]. split; [done|]. by destruct old.
    + destruct Ha as (t' & w' & p & E' & Hwf' & He & _ & Hs & _). exists t', w', (Some p). split; [exact E'|]. split; [done|]. by rewrite He, Hs.
Qed.

(** The constructor after an insertion. *)
Lemma merges_value B ctor (overwrite : bool) k v t w r : 0 <= B <= 2 ^ 28 -> pure_ctor ctor -> wf t -> bounded B t ->
  (exists t' w' p, r = Some ((t', w'), p) /\ wf t' /\ (elems t', slots w') = merge_value overwrite k v (elems t, slots w)) ->
  (forall t' w' p, r = Some ((t', w'), p) -> bounded B t -> bounded B t') ->
  exists t' w', insert_ctor ctor r = Some (t', w') /\ wf t' /\ bounded B t' /\
    (elems t', slots w') = merge_value overwrite k v (elems t, slots w) /\ nNumOfElements t' <= nNumOfElements t + 1.
Proof.
  intros HB Hct Hwf Hbd (t' & w' & p & -> & Hwf' & He) Hbo. unfold insert_ctor. cbn [mbind option_bind].
  destruct (run_ctor_pure ctor p (t', w') Hct) as [H1 H2]. destruct (run_ctor ctor p (t', w')) as [t2 w2]. cbn [fst snd] in *. subst t2.
  exists t', w2. split; [done|]. split; [done|]. split; [by eapply Hbo|]. split; [by rewrite H2|].
  rewrite !count_elems by apply Hwf || apply Hwf'. pose proof (length_merge_value overwrite k v (elems t, slots w)) as Hl.
  rewrite <- He in Hl. cbn [fst] in Hl. unfold llen. lia.
Qed.

Lemma merge_element_ok B ctor overwrite src i : 0 <= B <= 2 ^ 28 -> pure_ctor ctor -> repr_ok src -> 0 <= i < nNumUsed src ->
  merges B (fun s => foldl (merge_elem overwrite (fl_PACKED src)) s (option_list (pos_elem src i))) (merge_element ctor overwrite src i).
Proof.
  intros HB Hct Hr Hi t w Hwf Hbd Hc. pose proof (bounded_max B t (proj2 HB) Hbd) as Hm.
  unfold merge_element, pos_elem. cbn [snd].
  set (data := if fl_PACKED src then packed src i else deref_indirect w (b_val (bucket src i))).
  assert (data = if fl_PACKED src then pos_val src i else follow (slots w) (pos_val src i)) as Ed by (unfold data, pos_val; by destruct (fl_PACKED src)).
  destruct (pos_undef src i) eqn:Hun.
  { assert (Z_ISUNDEF data = true) as ->.
    { unfold pos_undef in Hun. unfold data. destruct (fl_PACKED src); [done|]. by destruct (b_val (bucket src i)). }
    exists t, w. do 4 (split; [done|]). lia. }
  cbn [option_list option_rect foldl]. unfold merge_elem. cbn [fst snd]. rewrite <- Ed.
  destruct (Z_ISUNDEF data) eqn:Hd. { exists t, w. do 4 (split; [done|]). lia. }
  pose proof (source_key src i Hr Hi Hun) as Hk. destruct (key_at src i) as [h [key|]].
  - destruct Hk as [-> _]. apply (merges_value B ctor overwrite); [done|done|done|done| |].
    + apply merge_str_ok; [done|by apply used_below; [apply Hwf|]|done].
    + intros t' w' p E' _. by apply (str_update_bounded B key data (Z.lor (if overwrite then HASH_UPDATE else HASH_ADD) HASH_UPDATE_INDIRECT) t w t' w' p);
        [apply Hwf|lia|lia|..].
  - destruct Hk as [-> Hh]. apply (merges_value B ctor overwrite); [done|done|done|done|by apply merge_int_ok|].
    intros t' w' p E' _. destruct overwrite; [by apply (index_update_bounded B h data HASH_UPDATE t w t' w' p); [apply Hwf|lia|lia|..]|].
    by apply (index_update_bounded B h data HASH_ADD t w t' w' p); [apply Hwf|lia|lia|..].
Qed.

(** Without indirect values this is a union of dictionaries. *)
Lemma no_indirect_lookup d k x : no_indirect d -> dict_lookup k d = Some x -> is_indirect x = false.
Proof.
  unfold no_indirect. induction d as [|[k' v'] d IH]; [done|]. intros [H1 H2]%Forall_cons. cbn.
  destruct (decide (k = k')); [by intros [= ->]|by apply IH].
Qed.

Lemma merge_elems_union (overwrite packed : bool) m (l : dict) : forall d, no_indirect d ->
  no_indirect (omap (fun e => let v := if packed then e.2 else follow m e.2 in if Z_ISUNDEF v then None else Some (e.1, v)) l) ->
  foldl (merge_elem overwrite packed) (d, m) l =
    ((if overwrite then dict_union else dict_complete) d (omap (fun e => let v := if packed then e.2 else follow m e.2 in if Z_ISUNDEF v then None else Some (e.1, v)) l), m).
Proof.
  induction l as [|[k x] l IH]; intros d Hd Hl; csimpl in *; [by destruct overwrite|]. unfold merge_elem at 2. cbn [fst snd].
  destruct (Z_ISUNDEF (if packed then x else follow m x)); [by apply IH|]. set (v := if packed then x else follow m x) in *.
  apply Forall_cons in Hl as [Hv Hl]. cbn [snd] in Hv.
  assert (merge_value overwrite k v (d, m) = (merge_op overwrite k v d, m)) as ->.
  { unfold merge_value. cbn [fst snd]. destruct k as [h|y]; [done|].
    destruct (dict_lookup (KStr y) d) as [z|] eqn:Hlk; [|done]. apply (no_indirect_lookup d _ _ Hd) in Hlk. by destruct z. }
  rewrite IH; [by destruct overwrite| |done]. unfold merge_op. destruct overwrite; [by apply no_indirect_set|by apply no_indirect_add].
Qed.

(** C28: [zend_hash_merge] succeeds for every pair of tables whose elements fit
    (2^26 elements, tables of at most 2^28 slots), with a copy constructor that writes to no
    table and no slot.  The elements of the source are merged in
    order, indirect ones followed and undefined ones skipped: with [overwrite]
    they win, without it only absent keys are appended; a string key whose
    value is an indirect one is written through it, without [overwrite] only
    if the slot is undefined.  If no indirect values are involved, this is the right-
    or left-biased union of the dictionaries and no slot changes. *)
Theorem zend_hash_merge_correct ctor (overwrite : bool) src t w :
  wf t -> repr_ok src -> pure_ctor ctor -> nTableSize t <= 2 ^ 28 -> nNumOfElements t + nNumUsed src <= 2 ^ 26 ->
  exists t' w', zend_hash_merge ctor overwrite src (t, w) = Some (t', w') /\ wf t' /\
    (elems t', slots w') = foldl (merge_elem overwrite (fl_PACKED src)) (elems t, slots w) (elems src) /\
    (no_indirect (elems t) -> no_indirect (source_elems w src) -> slots w' = slots w /\
      elems t' = (if overwrite then dict_union else dict_complete) (elems t) (source_elems w src)).
Proof.
  intros Hwf Hr Hct Hs Hc. pose proof (used_nonneg src Hr).
  destruct (merge_loop (2 ^ 28) overwrite src (merge_element ctor overwrite src) (Z.to_nat (nNumUsed src)) 0 t w)
    as (t' & w' & E' & Hwf' & He); [|done|split; [lia|by intros _]|lia|].
  - intros k Hk. rewrite Z.add_0_l. apply merge_element_ok; [done|done|done|lia].
  - exists t', w'. rewrite <- elems_pos in He. split; [exact E'|]. split; [done|]. split; [done|]. intros Ht Hsrc.
    assert (source_elems w src = omap (fun e => let v := if fl_PACKED src then e.2 else follow (slots w) e.2 in if Z_ISUNDEF v then None else Some (e.1, v)) (elems src)) as Es.
    { unfold source_elems. destruct (fl_PACKED src) eqn:Hp; [|done].
      assert (forall i, pos_undef src i = false -> Z_ISUNDEF (pos_val src i) = false) as Hdef by (unfold pos_undef, pos_val; by rewrite Hp).
      rewrite elems_pos. unfold pos_elems. generalize (zrange 0 (Z.to_nat (nNumUsed src))). intros l.
      induction l as [|i l IH]; [done|]. csimpl. destruct (pos_elem src i) as [[k x]|] eqn:Hpe; [|exact IH]. csimpl.
      assert (Z_ISUNDEF x = false) as -> by (unfold pos_elem in Hpe; destruct (pos_undef src i) eqn:Hu; [done|]; injection Hpe as _ <-; by apply Hdef).
      by f_equal. }
    rewrite Es in Hsrc |- *. rewrite (merge_elems_union _ _ _ _ _ Ht Hsrc) in He. by injection He as -> ->.
Qed.

End Merge.
