(* ===== verification/HashDup.v ===== *)
(** Duplicating arrays: [zend_array_dup] yields a well-formed table with the
    same keys in the same order, whatever the representation of the source. *)

From stdpp Require Import base numbers list gmap.
From S2P Require Import Prelude ZendTypes NumericStr HashTable HashDict HashChain HashInv.
From S2P Require Import HashRehash HashFind HashAdd HashIndex HashDel HashOps HashTraverse.
From S2P Require Import HashSymtable ZendSort HashCopy HashMerge.

Section Dup.
Context {V : Type} {E : ZEnv V} {Z_ops : ZValue V}.
Implicit Types (t src : HashTable V) (w : EG V) (v : zval V).

(** * Copies of values *)

(** The value that a copy of [v] holds: a reference with a single owner is
    replaced by its value, unless that is the array itself. *)
Definition copy_result (self : option Z) v : zval V :=
  match v with
  | IS_VALUE x =>
      if Z_OPT_REFCOUNTED x then
        match Z_REFVAL_1 x with
        | Some y =>
            if (match self, y with
                | Some a, IS_VALUE z => bool_decide (Z_ARRVAL z = Some a)
                | _, _ => false
                end) then v else y
        | None => v
        end
      else v
  | _ => v
  end.

Lemma copy_zval_result self v w : exists w', copy_zval self v w = (copy_result self v, w') /\ slots w' = slots w.
Proof.
  unfold copy_zval, copy_result. destruct v as [| | |x]; [by eexists..|].
  destruct (Z_OPT_REFCOUNTED x); [|by eexists]. destruct (Z_REFVAL_1 x) as [y|]; [|by eexists].
  destruct (match self with Some _ => _ | None => _ end); [by eexists|].
  destruct (zval_refcounted y); by eexists.
Qed.

(** References hold defined values. *)
Definition refs_defined : Prop := forall x y, Z_REFVAL_1 (V:=V) x = Some y -> Z_ISUNDEF y = false.

Lemma copy_result_defined self v : refs_defined -> Z_ISUNDEF v = false -> Z_ISUNDEF (copy_result self v) = false.
Proof.
  intros Hr Hv. unfold copy_result. destruct v as [| | |x]; try done.
  destruct (Z_OPT_REFCOUNTED x); [|done]. destruct (Z_REFVAL_1 x) as [y|] eqn:Hy; [|done].
  destruct (match self with Some _ => _ | None => _ end); [done|]. by apply (Hr x).
Qed.

(** The value of a bucket of the source as the copy sees it. *)
Lemma dup_value_mixed src i holes w : fl_PACKED src = false -> (holes = false -> pos_undef src i = false) ->
  match source_value w src i with
  | None => zend_array_dup_value (ht_id src) (b_val (bucket src i)) false holes w = None
  | Some v => exists w', zend_array_dup_value (ht_id src) (b_val (bucket src i)) false holes w =
                Some (copy_result (Some (ht_id src)) v, w') /\ slots w' = slots w
  end.
Proof.
  intros Hp Hh. unfold source_value, zend_array_dup_value, pos_undef, deref_indirect in *. rewrite Hp in *.
  destruct (b_val (bucket src i)) as [| |a|x] eqn:Hb; destruct holes; cbn [Z_ISUNDEF negb] in *;
    try (by specialize (Hh eq_refl)); try done.
  all: try (destruct (Z_ISUNDEF (slot w a)); [done|]).
  all: match goal with |- exists w', Some (copy_zval ?s ?v ?w) = _ /\ _ =>
         destruct (copy_zval_result s v w) as (w' & -> & Hs); by exists w' end.
Qed.

Lemma dup_value_packed src i holes w : fl_PACKED src = true -> (holes = false -> pos_undef src i = false) ->
  match source_value w src i with
  | None => zend_array_dup_value (ht_id src) (packed src i) true holes w = None /\ holes = true
  | Some v => exists w', zend_array_dup_value (ht_id src) (packed src i) true holes w =
                Some (copy_result (Some (ht_id src)) v, w') /\ slots w' = slots w
  end.
Proof.
  intros Hp Hh. unfold source_value, zend_array_dup_value, pos_undef in *. rewrite Hp in *.
  destruct (Z_ISUNDEF (packed src i)) eqn:Hu; destruct holes; cbn [negb]; try (by specialize (Hh eq_refl));
    rewrite ?Hu; try done.
  all: match goal with |- exists w', Some (copy_zval ?s ?v ?w) = _ /\ _ =>
         destruct (copy_zval_result s v w) as (w' & -> & Hs); by exists w' end.
Qed.

(** * Hashes *)

(** The entry that position [i] of the source contributes to the copy. *)
Definition dup_entry w src (i : Z) : option (entry (V:=V)) :=
  (fun v => (copy_result (Some (ht_id src)) v, b_h (bucket src i), b_key (bucket src i))) <$> source_value w src i.

Definition dup_entries w src (i : Z) (n : nat) : list (entry (V:=V)) := omap (dup_entry w src) (zrange i n).

Lemma dup_entries_cons w src i n :
  dup_entries w src i (S n) = option_list (dup_entry w src i) ++ dup_entries w src (i + 1) n.
Proof. unfold dup_entries. rewrite zrange_cons. csimpl. by destruct (dup_entry w src i). Qed.

Lemma dup_entries_slots w w' src i n : slots w' = slots w -> dup_entries w' src i n = dup_entries w src i n.
Proof.
  intros Hs. unfold dup_entries. generalize (zrange i n). intros l. induction l as [|k l IH]; [done|].
  assert (dup_entry w' src k = dup_entry w src k) as Hk by (unfold dup_entry; by rewrite (source_value_slots w w')).
  cbn [omap list_omap]. by rewrite Hk, IH.
Qed.

(** The target holds [j] linked live buckets with entries [es]. *)
Record dup_state t0 (es : list (entry (V:=V))) t (j : nat) : Prop := {
  du_linked : linked t j;
  du_live : forall k, 0 <= k < Z.of_nat j -> live t k = true;
  du_entries : entries t 0 j = es;
  du_frame : frame t = frame t0;
  du_data : llen (arData t) = llen (arData t0);
  du_hash : llen (arHash t) = llen (arHash t0)
}.

Lemma dup_state_areas t0 es t j : dup_state t0 es t j -> areas_ok t0 -> areas_ok t.
Proof.
  intros [_ _ _ Hf Hd Hh] [? ? ? ?]. apply frame_fields in Hf as (Hm & Hs & _).
  split; by rewrite ?Hm, ?Hs, ?Hd, ?Hh.
Qed.

Lemma dup_state_same t0 es t t' j : same_content t t' -> arHash t' = arHash t ->
  (forall k, 0 <= k -> bucket t' k = bucket t k) -> dup_state t0 es t j -> dup_state t0 es t' j.
Proof.
  intros [Hf _ Hd Hh Hc] Ha Hb []. pose proof (frame_fields _ _ Hf) as (Hm & _). split.
  - apply (linked_ext t); [done|done| |done]. intros. apply Hb. lia.
  - intros k Hk. unfold live. rewrite Hb by lia. by apply du_live0.
  - rewrite <- du_entries0. apply entries_ext. intros. apply Hc. lia.
  - congruence.
  - congruence.
  - congruence.
Qed.

Lemma dup_state_put t0 es t j e : areas_ok t0 -> Z.of_nat j < nTableSize t0 -> Z_ISUNDEF e.1.1 = false ->
  dup_state t0 es t j -> dup_state t0 (es ++ [e]) (put_bucket (Z.of_nat j) e t) (S j).
Proof.
  intros Ha Hj He Hdu. pose proof (dup_state_areas _ _ _ _ Hdu Ha) as Hat. destruct Hdu.
  destruct (frame_fields _ _ du_frame0) as (_ & Hs & _).
  destruct (put_bucket_spec t j e Hat) as (H1 & H2 & H3 & H4 & H5 & H6); [lia|done|done|].
  assert (forall k, 0 <= k < Z.of_nat j -> content (bucket (put_bucket (Z.of_nat j) e t) k) = content (bucket t k)) as Hold.
  { intros k Hk. rewrite H6 by lia. by rewrite (proj2 (Z.eqb_neq _ _)) by lia. }
  assert (content (bucket (put_bucket (Z.of_nat j) e t) (Z.of_nat j)) = e) as Hnew.
  { rewrite H6 by lia. by rewrite Z.eqb_refl. }
  assert (live (put_bucket (Z.of_nat j) e t) (Z.of_nat j) = true) as Hlv.
  { rewrite <- Hnew in He. unfold live. cbn in He. by rewrite He. }
  split; try congruence; [exact H1| |].
  - intros k Hk. destruct (decide (k = Z.of_nat j)) as [->|]; [done|].
    rewrite (content_live t) by (apply Hold; lia). apply du_live0. lia.
  - rewrite entries_S, Z.add_0_l. f_equal.
    + rewrite <- du_entries0. apply entries_ext. intros. apply Hold. lia.
    + unfold live_entry. by rewrite Hlv, Hnew.
Qed.

Lemma dup_element_spec src t w j i static holes t0 es :
  refs_defined -> fl_PACKED src = false -> (holes = false -> pos_undef src i = false) ->
  areas_ok t0 -> Z.of_nat j < nTableSize t0 -> dup_state t0 es t j ->
  match dup_entry w src i with
  | None => zend_array_dup_element src (Z.of_nat j) i static holes (t, w) = None
  | Some e => exists w', zend_array_dup_element src (Z.of_nat j) i static holes (t, w) =
      Some (put_bucket (Z.of_nat j) e t, w') /\ slots w' = slots w /\
      dup_state t0 (es ++ [e]) (put_bucket (Z.of_nat j) e t) (S j)
  end.
Proof.
  intros Hrd Hp Hh Ha Hj Hdu. unfold zend_array_dup_element, dup_entry.
  pose proof (dup_value_mixed src i holes w Hp Hh) as Hv.
  destruct (source_value w src i) as [v|] eqn:Hsv; cbn [fmap option_fmap option_map].
  - destruct Hv as (w' & -> & Hs). cbn [mbind option_bind].
    set (w2 := if negb static then _ else w'). exists w2. split; [done|]. split.
    { rewrite <- Hs. unfold w2. destruct (negb static); [|done].
      destruct (b_key (bucket src i)); [|done]. by destruct (ZSTR_IS_INTERNED _). }
    apply dup_state_put; try done. apply copy_result_defined; [done|].
    unfold source_value in Hsv. destruct (pos_undef src i); [done|].
    destruct (fl_PACKED src); [destruct (Z_ISUNDEF (packed src i)) eqn:Hu|destruct (Z_ISUNDEF (deref_indirect w _)) eqn:Hu];
      congruence.
  - by rewrite Hv.
Qed.

(** ** The loops *)

Lemma dup_shift_spec src t0 static holes n : refs_defined -> fl_PACKED src = false -> areas_ok t0 ->
  forall i j ipo es t w, (holes = false -> forall k, i <= k < i + Z.of_nat n -> pos_undef src k = false) ->
  Z.of_nat j <= i -> i + Z.of_nat n <= nTableSize t0 -> dup_state t0 es t j ->
  exists t' w' j', dup_shift_loop n i (Z.of_nat j) ipo src static holes (t, w) = ((t', w'), Z.of_nat j') /\
    dup_state t0 (es ++ dup_entries w src i n) t' j' /\ slots w' = slots w /\ (j' <= j + n)%nat.
Proof.
  intros Hrd Hp Ha. induction n as [|n IH]; intros i j ipo es t w Hh Hji Hi Hdu; cbn [dup_shift_loop].
  - exists t, w, j. split; [done|]. split; [by rewrite app_nil_r|]. split; [done|lia].
  - pose proof (dup_element_spec src t w j i static holes t0 es Hrd Hp) as He.
    specialize (He (fun H => Hh H i ltac:(lia)) Ha ltac:(lia) Hdu).
    rewrite dup_entries_cons. destruct (dup_entry w src i) as [e|].
    + destruct He as (w1 & -> & Hs1 & Hdu1). set (t1 := put_bucket (Z.of_nat j) e t) in *.
      set (t2 := if nInternalPointer src =? i then set_nInternalPointer (Z.of_nat j) t1 else t1).
      assert (dup_state t0 (es ++ [e]) t2 (S j)) as Hdu2.
      { unfold t2. destruct (nInternalPointer src =? i); [|done].
        by apply (dup_state_same _ _ t1); [apply set_nInternalPointer_same|..]. }
      match goal with |- context [let (_, _) := ?x in _] => assert (slots x.1 = slots w1) as Hs2 end.
      { destruct ipo as [ip|]; [|done]. destruct (ip <=? i); [|done].
        pose proof (iter_move_loop_outside (Z.to_nat i) t2 w1 i (Z.of_nat j) ip) as [Ho _].
        destruct (iter_move_loop _ _ _ _ _ _) as [w3 ip3]. exact Ho. }
      match goal with |- context [let (_, _) := ?x in _] => destruct x as [w3 ipo3] end. cbn [fst] in Hs2.
      replace (Z.of_nat j + 1) with (Z.of_nat (S j)) by lia.
      destruct (IH (i + 1) (S j) ipo3 (es ++ [e]) t2 w3) as (t' & w' & j' & -> & Hdu' & Hs' & Hj'); [|lia|lia|done|].
      { intros H k Hk. apply (Hh H). lia. }
      exists t', w', j'. split; [done|]. split; [|split; [congruence|lia]].
      rewrite (dup_entries_slots w w3) in Hdu' by congruence. by rewrite <- app_assoc in Hdu'.
    + rewrite He. destruct (IH (i + 1) j ipo es t w) as (t' & w' & j' & -> & Hdu' & Hs' & Hj'); [|lia|lia|done|].
      { intros H k Hk. apply (Hh H). lia. }
      exists t', w', j'. split; [done|]. split; [done|]. split; [done|lia].
Qed.

Lemma dup_elements_loop_spec src t0 static holes n : refs_defined -> fl_PACKED src = false -> areas_ok t0 ->
  forall (i : nat) es t w,
  (holes = false -> forall k, Z.of_nat i <= k < Z.of_nat i + Z.of_nat n -> pos_undef src k = false) ->
  Z.of_nat i + Z.of_nat n <= nTableSize t0 -> dup_state t0 es t i ->
  exists t' w' j', dup_elements_loop n (Z.of_nat i) src static holes (t, w) = ((t', w'), Z.of_nat j') /\
    dup_state t0 (es ++ dup_entries w src (Z.of_nat i) n) t' j' /\ slots w' = slots w /\ (j' <= i + n)%nat.
Proof.
  intros Hrd Hp Ha. induction n as [|n IH]; intros i es t w Hh Hi Hdu; cbn [dup_elements_loop].
  - exists t, w, i. split; [done|]. split; [by rewrite app_nil_r|]. split; [done|lia].
  - pose proof (dup_element_spec src t w i (Z.of_nat i) static holes t0 es Hrd Hp) as He.
    specialize (He (fun H => Hh H (Z.of_nat i) ltac:(lia)) Ha ltac:(lia) Hdu).
    rewrite dup_entries_cons. destruct (dup_entry w src (Z.of_nat i)) as [e|].
    + destruct He as (w1 & -> & Hs1 & Hdu1). replace (Z.of_nat i + 1) with (Z.of_nat (S i)) by lia.
      destruct (IH (S i) (es ++ [e]) (put_bucket (Z.of_nat i) e t) w1) as (t' & w' & j' & -> & Hdu' & Hs' & Hj');
        [|lia|done|].
      { intros H k Hk. apply (Hh H). lia. }
      exists t', w', j'. split; [done|]. split; [|split; [congruence|lia]].
      rewrite (dup_entries_slots w w1) in Hdu' by congruence. by rewrite <- app_assoc in Hdu'.
    + rewrite He. cbn [option_list app].
      assert (forall ipo t1, dup_state t0 es t1 i -> exists t' w' j',
        dup_shift_loop n (Z.of_nat i + 1) (Z.of_nat i) ipo src static holes (t1, w) = ((t', w'), Z.of_nat j') /\
        dup_state t0 (es ++ dup_entries w src (Z.of_nat i + 1) n) t' j' /\ slots w' = slots w /\ (j' <= i + S n)%nat) as Hsh.
      { intros ipo t1 Hdu1.
        destruct (dup_shift_spec src t0 static holes n Hrd Hp Ha (Z.of_nat i + 1) i ipo es t1 w)
          as (t' & w' & j' & Heq & H1 & H2 & H3); [|lia|lia|done|].
        { intros H k Hk. apply (Hh H). lia. }
        exists t', w', j'. do 3 (split; [done|]). lia. }
      destruct (negb (HT_HAS_ITERATORS t)); [by apply Hsh|]. apply Hsh.
      destruct Hdu. split; try done. by apply (linked_ext t).
Qed.

(** ** The copy of a hash *)

Lemma dup_entry_key w src i e : fl_PACKED src = false -> dup_entry w src i = Some e ->
  live src i = true /\ e.1.2 = b_h (bucket src i) /\ e.2 = b_key (bucket src i) /\
  exists v, source_value w src i = Some v /\ e.1.1 = copy_result (Some (ht_id src)) v.
Proof.
  unfold dup_entry. intros Hp. destruct (source_value w src i) as [v|] eqn:Hs; [|done]. intros [= <-].
  unfold source_value, pos_undef in Hs. rewrite Hp in Hs. unfold live.
  destruct (Z_ISUNDEF (b_val (bucket src i))); [done|]. do 3 (split; [done|]). by exists v.
Qed.

Lemma dup_entries_sublist w src i n : fl_PACKED src = false ->
  sublist ((fun e : entry => (e.1.2, e.2)) <$> dup_entries w src i n) ((fun e : entry => (e.1.2, e.2)) <$> entries src i n).
Proof.
  intros Hp. revert i. induction n as [|n IH]; intros i; [done|].
  rewrite dup_entries_cons, entries_cons, !fmap_app. apply sublist_app; [|apply IH].
  destruct (dup_entry w src i) as [e|] eqn:He; [|apply sublist_nil_l].
  destruct (dup_entry_key w src i e Hp He) as (Hl & H1 & H2 & _). unfold live_entry. rewrite Hl.
  unfold content. cbn. by rewrite H1, H2.
Qed.

Lemma dup_entries_elems w src n : fl_PACKED src = false -> n = Z.to_nat (nNumUsed src) ->
  entry_elem <$> dup_entries w src 0 n =
  (fun e => (e.1, copy_result (Some (ht_id src)) e.2)) <$> source_elems w src.
Proof.
  intros Hp ->. rewrite source_elems_pos. unfold dup_entries, dup_entry.
  generalize (zrange 0 (Z.to_nat (nNumUsed src))). intros l. induction l as [|i l IH]; [done|].
  cbn [omap list_omap]. destruct (source_value w src i) as [v|]; cbn; [|exact IH].
  f_equal; [|exact IH]. unfold entry_elem, entry_key, pos_key, bucket_key. rewrite Hp. cbn. done.
Qed.

Lemma entry_key_pair (l1 l2 : list (entry (V:=V))) :
  sublist ((fun e : entry => (e.1.2, e.2)) <$> l1) ((fun e : entry => (e.1.2, e.2)) <$> l2) ->
  sublist (entry_key <$> l1) (entry_key <$> l2).
Proof.
  intros H. assert (forall l : list (entry (V:=V)), entry_key <$> l =
    (fun p : Z * option Z => match p.2 with Some k => KStr (ZSTR_VAL k) | None => KInt p.1 end) <$>
      ((fun e : entry => (e.1.2, e.2)) <$> l)) as Hk.
  { intros l. by rewrite <- list_fmap_compose. }
  rewrite !Hk. by apply fmap_sublist.
Qed.

Lemma dup_mixed_final w src t0 t j : mixed_ok src -> next_free_ok src -> areas_ok t0 ->
  nTableMask t0 = nTableMask src -> nTableSize t0 = nTableSize src -> fl_PACKED t0 = fl_PACKED src ->
  fl_UNINITIALIZED t0 = fl_UNINITIALIZED src -> nNextFreeElement t0 = nNextFreeElement src ->
  dup_state t0 (dup_entries w src 0 (Z.to_nat (nNumUsed src))) t j -> (j <= Z.to_nat (nNumUsed src))%nat ->
  let t' := set_nNumOfElements (Z.of_nat j) (set_nNumUsed (Z.of_nat j) t) in
  wf t' /\ elems t' = (fun e => (e.1, copy_result (Some (ht_id src)) e.2)) <$> source_elems w src.
Proof.
  intros Hm Hnf Ha Hm2 Hs2 Hp2 Hu2 Hn2 Hdu Hj. cbn zeta. pose proof (mx_data _ Hm) as Hd.
  pose proof (dup_state_areas _ _ _ _ Hdu Ha) as Hat. destruct Hdu.
  set (t' := set_nNumOfElements (Z.of_nat j) (set_nNumUsed (Z.of_nat j) t)).
  destruct (frame_fields _ _ du_frame0) as (Hm1 & Hs1 & _ & Hp1 & Hu1 & Hn1 & _).
  pose proof (do_used _ Hd) as Hus.
  assert (mixed_entries t' = dup_entries w src 0 (Z.to_nat (nNumUsed src))) as He.
  { unfold mixed_entries. change (nNumUsed t') with (Z.of_nat j). rewrite Nat2Z.id. exact du_entries0. }
  assert (fl_PACKED t' = false) as Hp' by (change (fl_PACKED t = false); rewrite Hp1, Hp2; apply Hd).
  assert (elems t' = (fun e => (e.1, copy_result (Some (ht_id src)) e.2)) <$> source_elems w src) as Hel.
  { rewrite elems_mixed by done. rewrite He. apply dup_entries_elems; [apply Hd|done]. }
  pose proof (dup_entries_sublist w src 0 (Z.to_nat (nNumUsed src)) (do_packed _ Hd)) as Hsub.
  assert (length (mixed_entries t') = j) as Hlen.
  { unfold mixed_entries. change (nNumUsed t') with (Z.of_nat j). rewrite Nat2Z.id.
    clear - du_live0. change (entries t' 0 j) with (entries t 0 j). induction j as [|j IH]; [done|].
    rewrite entries_S, length_app, IH by (intros; apply du_live0; lia).
    unfold live_entry. rewrite Z.add_0_l, du_live0 by lia. cbn. lia. }
  split; [|done]. split.
  - right; right. split; [split|..]; try done.
    + change (fl_UNINITIALIZED t = false). rewrite Hu1, Hu2. apply Hd.
    + change (size_ok (nTableSize t)). rewrite Hs1, Hs2. apply Hd.
    + change (nTableMask t = HT_SIZE_TO_MASK (nTableSize t)). rewrite Hm1, Hs1, Hm2, Hs2. apply Hd.
    + change (llen (arData t) = nTableSize t). apply Hat.
    + change (0 <= Z.of_nat j <= nTableSize t). rewrite Hs1, Hs2. lia.
    + change (nNumOfElements t') with (Z.of_nat j). unfold llen. by rewrite Hlen.
    + rewrite He. rewrite Forall_forall. intros e Hin. apply list_elem_of_omap in Hin as (i & Hi%elem_of_zrange & Hde).
      destruct (dup_entry_key w src i e (do_packed _ Hd) Hde) as (Hl & H1 & H2 & _).
      pose proof (mixed_bucket_ok src i Hd ltac:(lia) Hl) as Hb. unfold entry_ok, entry_key, content in *. cbn in Hb.
      by rewrite H1, H2.
    + rewrite He. eapply sublist_NoDup; [apply (do_keys _ Hd)|]. by apply entry_key_pair.
    + apply Hat.
    + change (nNumUsed t') with (Z.of_nat j). rewrite Nat2Z.id. by apply (linked_ext t).
  - destruct Hnf as [Hr Hb]. unfold next_free_ok.
    assert (nNextFreeElement t' = nNextFreeElement src) as -> by (change (nNextFreeElement t = nNextFreeElement src); congruence).
    split; [done|]. intros h Hin. apply Hb. rewrite elems_mixed in Hin |- * by (done || apply Hd).
    rewrite He in Hin. rewrite <- list_fmap_compose in Hin |- *.
    eapply elem_of_submseteq; [exact Hin|]. apply sublist_submseteq. exact (entry_key_pair _ _ Hsub).
Qed.

(** * Iterators of the source *)

Lemma inc_iterators_count t : exists c, inc_iterators t = set_nIteratorsCount c t.
Proof.
  unfold inc_iterators. destruct (negb (HT_ITERATORS_OVERFLOW t)).
  - by eexists.
  - exists (nIteratorsCount t). by destruct t.
Qed.

Lemma iterator_add_spec pos t w : exists c w' idx,
  zend_hash_iterator_add pos (t, w) = ((set_nIteratorsCount c t, w'), idx) /\ slots w' = slots w.
Proof.
  unfold zend_hash_iterator_add. destruct (inc_iterators_count t) as [c ->]. exists c.
  destruct (free_iter (ht_iterators w) 0) as [idx|].
  - eexists _, idx. split; [reflexivity|]. by destruct (_ <? _).
  - by eexists _, _.
Qed.

Lemma dup_ht_iterators_spec src t w : exists c w',
  zend_array_dup_ht_iterators src (t, w) = (set_nIteratorsCount c t, w') /\ slots w' = slots w.
Proof.
  unfold zend_array_dup_ht_iterators.
  assert (forall n i c w, exists c' w', dup_iterators_loop n i (ht_id src) (set_nIteratorsCount c t, w) =
    (set_nIteratorsCount c' t, w') /\ slots w' = slots w) as H.
  { clear w. induction n as [|n IH]; intros i c w; cbn [dup_iterators_loop]; [by exists c, w|]. cbn [snd].
    destruct (it_ht (iter_at w i) =? ht_id src); [|apply IH].
    destruct (iterator_add_spec (it_pos (iter_at w i)) (set_nIteratorsCount c t) w) as (c1 & w1 & idx & -> & Hs).
    change (set_nIteratorsCount c1 (set_nIteratorsCount c t)) with (set_nIteratorsCount c1 t).
    match goal with |- context [dup_iterators_loop n ?a ?b (_, ?x)] => destruct (IH a c1 x) as (c' & w' & Heq & Hs') end.
    exists c', w'. split; [exact Heq|]. rewrite Hs'. cbn. exact Hs. }
  cbn [snd]. destruct (H (Z.to_nat (ht_iterators_used w)) 0 (nIteratorsCount t) w) as (c & w' & Heq & Hs).
  exists c, w'. split; [|done]. rewrite <- Heq. by destruct t.
Qed.

(** * Vectors *)

Definition dup_packed_value w src (k : Z) : zval V :=
  match source_value w src k with Some v => copy_result (Some (ht_id src)) v | None => IS_UNDEF end.

Lemma dup_packed_loop_spec src holes n : fl_PACKED src = true -> forall i t w,
  0 <= i -> i + Z.of_nat n <= llen (arPacked t) ->
  (holes = false -> forall k, i <= k < i + Z.of_nat n -> pos_undef src k = false) ->
  exists l w', dup_packed_loop n i src holes (t, w) = (set_arPacked l t, w') /\ slots w' = slots w /\
    llen l = llen (arPacked t) /\
    forall k, 0 <= k -> packed (set_arPacked l t) k =
      if (i <=? k) && (k <? i + Z.of_nat n) then dup_packed_value w src k else packed t k.
Proof.
  intros Hp. induction n as [|n IH]; intros i t w H0 Hn Hh; cbn [dup_packed_loop].
  - exists (arPacked t), w. split; [by destruct t|]. do 2 (split; [done|]). intros k Hk.
    replace ((i <=? k) && (k <? i + Z.of_nat 0)) with false; [by destruct t|].
    symmetry. destruct (Z.leb_spec i k); [|done]. cbn [andb]. apply Z.ltb_ge. lia.
  - pose proof (dup_value_packed src i holes w Hp (fun H => Hh H i ltac:(lia))) as Hv.
    assert (exists w1, (match zend_array_dup_value (ht_id src) (packed src i) true holes w with
        | Some (v, w) => (set_packed i v t, w)
        | None => if holes then (set_packed i IS_UNDEF t, w) else (t, w) end)
        = (set_packed i (dup_packed_value w src i) t, w1) /\ slots w1 = slots w) as (w1 & Heq & Hs1).
    { unfold dup_packed_value. destruct (source_value w src i).
      - destruct Hv as (w' & -> & Hs). by exists w'.
      - destruct Hv as [-> ->]. by exists w. }
    rewrite Heq. set (t1 := set_packed i (dup_packed_value w src i) t).
    destruct (IH (i + 1) t1 w1) as (l & w' & Hl & Hs' & Hlen & Hk); [lia| | |].
    { unfold t1, set_packed. cbn. rewrite llen_lset. lia. }
    { intros H k Hk. apply (Hh H). lia. }
    exists l, w'. split; [exact Hl|]. split; [congruence|]. split.
    { rewrite Hlen. unfold t1, set_packed. cbn. apply llen_lset. }
    intros k Hk0. specialize (Hk k Hk0). change (packed (set_arPacked l t) k) with (packed (set_arPacked l t1) k).
    rewrite Hk. unfold dup_packed_value. rewrite (source_value_slots w w1) by done.
    fold (dup_packed_value w src k).
    destruct (Z.leb_spec (i + 1) k), (Z.leb_spec i k), (Z.ltb_spec k (i + 1 + Z.of_nat n)),
      (Z.ltb_spec k (i + Z.of_nat (S n))); cbn [andb]; try lia; try done.
    all: unfold t1; try (rewrite packed_set_ne by lia; done).
    replace k with i by lia. rewrite packed_set_eq by lia. done.
Qed.

Lemma dup_packed_elems w src t : refs_defined -> fl_PACKED src = true -> fl_PACKED t = true ->
  nNumUsed t = nNumUsed src -> 
  (forall k, 0 <= k < nNumUsed src -> packed t k = dup_packed_value w src k) ->
  elems t = (fun e => (e.1, copy_result (Some (ht_id src)) e.2)) <$> source_elems w src.
Proof.
  intros Hrd Hp Hpt Hu Hk. unfold source_elems, elems. rewrite Hp, Hpt, Hu. unfold packed_elems.
  assert (forall l : list Z, (forall i, i ∈ l -> 0 <= i < nNumUsed src) -> omap (packed_elem t) l =
    (fun e => (e.1, copy_result (Some (ht_id src)) e.2)) <$> omap (packed_elem src) l) as H.
  { induction l as [|i l IH]; intros Hl; [done|]. cbn [omap list_omap].
    rewrite IH by (intros; apply Hl; set_solver).
    assert (packed_elem t i = (fun e => (e.1, copy_result (Some (ht_id src)) e.2)) <$> packed_elem src i) as ->.
    { unfold packed_elem. rewrite Hk by (apply Hl; set_solver).
      unfold dup_packed_value, source_value, pos_undef. rewrite Hp.
      destruct (Z_ISUNDEF (packed src i)) eqn:Hun; cbn; [done|]. by rewrite copy_result_defined. }
    by destruct (packed_elem src i). }
  apply H. intros i Hi%elem_of_zrange. lia.
Qed.

(** * The operation *)

Lemma elems_nil_count t : repr_ok t -> nNumOfElements t = 0 -> elems t = [].
Proof. intros Hr Hc. rewrite count_elems in Hc by done. apply nil_length_inv. unfold llen in Hc. lia. Qed.

Lemma copied_next_free t t' w : next_free_ok t -> nNextFreeElement t' = nNextFreeElement t ->
  elems t' = (fun e => (e.1, copy_result (Some (ht_id t)) e.2)) <$> source_elems w t -> next_free_ok t'.
Proof.
  intros [H1 H2] Hn He. split; [by rewrite Hn|]. intros h Hin. rewrite Hn. apply H2. rewrite He in Hin.
  rewrite <- list_fmap_compose in Hin. apply list_elem_of_fmap in Hin as ([k v] & Hk & Hin).
  cbn in Hk. subst k. apply list_elem_of_fmap. unfold source_elems in Hin. destruct (fl_PACKED t).
  - by exists (KInt h, v).
  - apply list_elem_of_omap in Hin as ([k' v'] & Hin & Hd). unfold deref_elem in Hd. cbn in Hd.
    destruct (Z_ISUNDEF _); [done|]. injection Hd as -> _. by exists (KInt h, v').
Qed.

Lemma dup_immutable_ok id src : wf src -> nNumOfElements src <> 0 ->
  let used := Z.to_nat (nNumUsed src) in
  let t := mk_HashTable id (fl_PACKED src) (fl_UNINITIALIZED src) (fl_STATIC_KEYS src) (fl_HAS_EMPTY_IND src) 0
             (nTableMask src) (arHash src) [] [] (nNumUsed src) (nNumOfElements src) (nTableSize src)
             (nInternalPointer src) (nNextFreeElement src) true in
  let t' := if fl_PACKED src then set_arPacked (take used (arPacked src) ++ drop used (fresh_zvals (nTableSize src))) t
            else set_arData (take used (arData src) ++ drop used (fresh_buckets (nTableSize src))) t in
  wf t' /\ elems t' = elems src.
Proof.
  intros [Hr Hnf] Hnz. cbn zeta. destruct Hr as [H|[H|H]]; [by rewrite (un_count _ H) in Hnz| |].
  - rewrite (pk_packed _ H). pose proof (pk_used _ H) as Hu. pose proof (pk_data _ H) as Hd. unfold llen in Hd.
    pose proof (size_ok_bounds _ (pk_size _ H)) as Hs.
    pose proof (llen_fresh_zvals (nTableSize src) ltac:(lia)) as Hf. unfold llen in Hf.
    match goal with |- wf ?x /\ _ => set (t' := x) end.
    assert (forall k, 0 <= k < nNumUsed src -> packed t' k = packed src k) as Hk.
    { intros k Hk. unfold packed, t'. cbn. rewrite lget_app_l by (unfold llen; rewrite length_take; lia).
      apply lget_take. lia. }
    assert (elems t' = elems src) as He.
    { unfold elems, t'. cbn. rewrite (pk_packed _ H). apply packed_elems_ext. intros. apply Hk. lia. }
    split; [|done]. split.
    + right; left. destruct H. split; try done.
      * unfold t', llen. cbn. rewrite length_app, length_take, length_drop. lia.
      * by rewrite He.
    + destruct Hnf as [H1 H2]. split; [done|]. by rewrite He.
  - pose proof (mx_data _ H) as Hd. rewrite (do_packed _ Hd). pose proof (do_used _ Hd) as Hu.
    pose proof (do_data _ Hd) as Hl. unfold llen in Hl. pose proof (size_ok_bounds _ (do_size _ Hd)) as Hs.
    pose proof (llen_fresh_buckets (nTableSize src) ltac:(lia)) as Hf. unfold llen in Hf.
    match goal with |- wf ?x /\ _ => set (t' := x) end.
    assert (forall k, 0 <= k < nNumUsed src -> bucket t' k = bucket src k) as Hk.
    { intros k Hk. unfold bucket, t'. cbn. rewrite lget_app_l by (unfold llen; rewrite length_take; lia).
      apply lget_take. lia. }
    assert (mixed_entries t' = mixed_entries src) as He.
    { unfold mixed_entries. apply entries_ext. intros. by rewrite Hk by lia. }
    assert (elems t' = elems src) as Hel by (rewrite !elems_mixed by (done || apply Hd); by rewrite He).
    split; [|done]. split.
    + right; right. split; [destruct Hd; split; rewrite ?He; try done|apply H|].
      * unfold t', llen. cbn. rewrite length_app, length_take, length_drop. lia.
      * apply (linked_ext src); [done|done| |apply H]. intros k Hk'. apply Hk. change (nNumUsed t') with (nNumUsed src) in Hk'. lia.
    + destruct Hnf as [H1 H2]. split; [done|]. by rewrite Hel.
Qed.

Lemma dup_packed_ok id src w : refs_defined -> wf src -> packed_ok src ->
  let t := HT_HASH_RESET_PACKED (mk_HashTable id true (fl_UNINITIALIZED src) (fl_STATIC_KEYS src) (fl_HAS_EMPTY_IND src) 0
             HT_MIN_MASK (replicate 2 (b_next (junk 0))) [] (fresh_zvals (nTableSize src))
             (nNumUsed src) (nNumOfElements src) (nTableSize src)
             (if nInternalPointer src <? nNumUsed src then nInternalPointer src else 0)
             (nNextFreeElement src) true) in
  exists t' w', zend_array_dup_packed_elements src (negb (HT_IS_WITHOUT_HOLES t)) (t, w) = (t', w') /\
    wf t' /\ slots w' = slots w /\
    elems t' = (fun e => (e.1, copy_result (Some (ht_id src)) e.2)) <$> source_elems w src.
Proof.
  intros Hrd Hwf H t. pose proof (pk_used _ H) as Hu. pose proof (size_ok_bounds _ (pk_size _ H)) as Hsz.
  unfold zend_array_dup_packed_elements.
  assert (llen (arPacked t) = nTableSize src) as Hla by (apply llen_fresh_zvals; lia).
  destruct (dup_packed_loop_spec src (negb (HT_IS_WITHOUT_HOLES t)) (Z.to_nat (nNumUsed src)) (pk_packed _ H) 0 t w)
    as (l & w1 & -> & Hs1 & Hlen & Hk); [lia|lia| |].
  { intros Hh k Hk. apply negb_false_iff in Hh.
    apply (without_holes_live src); [by right; left|exact Hh|lia]. }
  set (t1 := set_arPacked l t) in *.
  assert (forall k, 0 <= k < nNumUsed src -> packed t1 k = dup_packed_value w src k) as Hv.
  { intros k Hkk. rewrite Hk by lia. rewrite (proj2 (Z.leb_le _ _)), (proj2 (Z.ltb_lt _ _)) by lia. done. }
  assert (exists c t' w', (if HT_HAS_ITERATORS src then zend_array_dup_ht_iterators src (t1, w1) else (t1, w1)) = (t', w') /\
    t' = set_nIteratorsCount c t1 /\ slots w' = slots w1) as (c & t' & w' & -> & -> & Hs2).
  { destruct (HT_HAS_ITERATORS src).
    - destruct (dup_ht_iterators_spec src t1 w1) as (c & w' & -> & Hs). by exists c, (set_nIteratorsCount c t1), w'.
    - by exists (nIteratorsCount t1), t1, w1. }
  assert (elems (set_nIteratorsCount c t1) =
    (fun e => (e.1, copy_result (Some (ht_id src)) e.2)) <$> source_elems w src) as He.
  { apply dup_packed_elems; try done. apply H. }
  exists (set_nIteratorsCount c t1), w'. split; [done|]. split; [|split; [congruence|done]]. split.
  - right; left. split; try done; try apply H.
    + change (llen l = nTableSize src). lia.
    + rewrite He. change (nNumOfElements (set_nIteratorsCount c t1)) with (nNumOfElements src).
      rewrite (pk_count _ H). unfold source_elems. rewrite (pk_packed _ H). unfold llen. by rewrite length_fmap.
  - apply (copied_next_free src _ w); [apply Hwf|done|done].
Qed.

Lemma dup_mixed_ok id src w : refs_defined -> wf src -> mixed_ok src ->
  let t := mk_HashTable id false (fl_UNINITIALIZED src) (fl_STATIC_KEYS src) false 0
             (nTableMask src) (replicate (Z.to_nat (HT_HASH_CELLS (nTableMask src))) HT_INVALID_IDX)
             (fresh_buckets (nTableSize src)) [] 0 0 (nTableSize src)
             (if nInternalPointer src <? nNumUsed src then nInternalPointer src else 0)
             (nNextFreeElement src) true in
  exists t' w' idx, zend_array_dup_elements src (HT_HAS_STATIC_KEYS_ONLY t) (negb (HT_IS_WITHOUT_HOLES src)) (t, w) =
      ((t', w'), idx) /\ slots w' = slots w /\
    wf (set_nNumOfElements idx (set_nNumUsed idx t')) /\
    elems (set_nNumOfElements idx (set_nNumUsed idx t')) =
      (fun e => (e.1, copy_result (Some (ht_id src)) e.2)) <$> source_elems w src.
Proof.
  intros Hrd Hwf H t. pose proof (mx_data _ H) as Hd. pose proof (do_used _ Hd) as Hu.
  pose proof (size_ok_bounds _ (do_size _ Hd)) as Hsz. pose proof (data_ok_mask_range _ Hd) as Hmr.
  unfold zend_array_dup_elements.
  assert (exists c t1 w1, (if HT_HAS_ITERATORS src then zend_array_dup_ht_iterators src (t, w) else (t, w)) = (t1, w1) /\
    t1 = set_nIteratorsCount c t /\ slots w1 = slots w) as (c & t1 & w1 & -> & -> & Hs1).
  { destruct (HT_HAS_ITERATORS src).
    - destruct (dup_ht_iterators_spec src t w) as (c & w' & -> & Hs). by exists c, (set_nIteratorsCount c t), w'.
    - by exists (nIteratorsCount t), t, w. }
  set (t1 := set_nIteratorsCount c t).
  assert (areas_ok t1) as Ha.
  { split; cbn; [done| |apply llen_fresh_buckets; lia|lia].
    unfold llen. rewrite length_replicate, (do_mask _ Hd), cells_eq, mask_eq by apply Hd. lia. }
  assert (dup_state t1 [] t1 0) as Hdu.
  { split; try done.
    - apply (linked_ext (HT_HASH_RESET src)); [done|done|lia|]. apply linked_reset. by apply mask_pos.
    - intros; lia. }
  destruct (dup_elements_loop_spec src t1 (HT_HAS_STATIC_KEYS_ONLY t) (negb (HT_IS_WITHOUT_HOLES src))
    (Z.to_nat (nNumUsed src)) Hrd (do_packed _ Hd) Ha 0 [] t1 w1) as (t' & w' & j & Heq & Hdu' & Hs' & Hj); [|cbn; lia|done|].
  { intros Hh k Hk. apply negb_false_iff in Hh. apply (without_holes_live src); [by right; right|exact Hh|lia]. }
  exists t', w', (Z.of_nat j). split; [exact Heq|]. split; [congruence|].
  cbn [app] in Hdu'. rewrite (dup_entries_slots w w1) in Hdu' by done.
  apply (dup_mixed_final w src t1); [done|apply Hwf|done|done|done| |done|done|done|lia].
  symmetry. apply (do_packed _ Hd).
Qed.

(** C31: [zend_array_dup] yields a well-formed table with the keys of the
    source in the same order: the same values for an immutable source, and
    otherwise the values of its defined elements, indirect ones followed and
    references with a single owner replaced by their value. *)
Theorem zend_array_dup_correct id (immutable : bool) src w : refs_defined -> wf src ->
  exists t w', zend_array_dup id immutable src w = (t, w') /\ wf t /\ slots w' = slots w /\
    elems t = if immutable then elems src
              else (fun e => (e.1, copy_result (Some (ht_id src)) e.2)) <$> source_elems w src.
Proof.
  intros Hrd Hwf. unfold zend_array_dup. cbv zeta. destruct (Z.eqb_spec (nNumOfElements src) 0) as [Hz|Hnz].
  - eexists _, w. split; [reflexivity|]. pose proof (elems_nil_count src (proj1 Hwf) Hz) as He. split; [|split; [done|]].
    + split; [left; split; try done; exists 3; done|]. split; [apply Hwf|]. intros h Hin. by apply elem_of_nil in Hin.
    + unfold source_elems. rewrite He. by destruct immutable, (fl_PACKED src).
  - destruct immutable.
    { eexists _, w. split; [reflexivity|]. destruct (dup_immutable_ok id src Hwf Hnz) as [H1 H2].
      split; [exact H1|]. split; [done|exact H2]. }
    destruct (proj1 Hwf) as [H|[H|H]]; [by rewrite (un_count _ H) in Hnz| |].
    + rewrite (pk_packed _ H). destruct (dup_packed_ok id src w Hrd Hwf H) as (t' & w' & Heq & H1 & H2 & H3).
      exists t', w'. split; [exact Heq|]. done.
    + rewrite (do_packed _ (mx_data _ H)).
      destruct (dup_mixed_ok id src w Hrd Hwf H) as (t' & w' & idx & Heq & H1 & H2 & H3).
      eexists _, w'. rewrite Heq. split; [reflexivity|]. done.
Qed.

End Dup.
