(* ===== verification/HashRename.v ===== *)
(** Replacing the key of a bucket in place ([zend_hash_set_bucket_key] in
    Zend/zend_hash.c): the bucket leaves its chain and is inserted into the
    chain of the new key, which stays ordered by position. *)

From stdpp Require Import base numbers list gmap.
From S2P Require Import Prelude ZendTypes HashTable HashDict HashChain HashInv HashRehash HashFind.
From S2P Require Import HashAdd HashDel.

Section Rename.
Context {V : Type} {E : ZEnv V}.
Implicit Types (t : HashTable V) (w : EG V) (b : Bucket V) (v : zval V).

(** * Operation *)

(** The bucket of a chain behind which a bucket with index [idx] belongs. *)
Fixpoint insert_after (n : nat) t (i idx : Z) : Z :=
  match n with
  | O => i
  | S n =>
      let next := b_next (bucket t i) in
      if negb (next =? HT_INVALID_IDX) && (idx <? next) then insert_after n t next idx else i
  end.

(** "del from hash" *)
Definition unlink_bucket (idx : Z) t : HashTable V :=
  let i := chain_head t (b_h (bucket t idx)) in
  if i =? idx then set_HT_HASH (nIndex_of (b_h (bucket t idx)) (nTableMask t)) (b_next (bucket t idx)) t
  else upd_bucket (chain_prev (chain_fuel t) t i idx) (set_b_next (b_next (bucket t idx))) t.

(** "add to hash": the bucket enters the chain of cell [nIndex]. *)
Definition link_sorted (idx nIndex : Z) t : HashTable V :=
  let i := HT_HASH t nIndex in
  if (i =? HT_INVALID_IDX) || (i <? idx) then set_HT_HASH nIndex idx (upd_bucket idx (set_b_next i) t)
  else
    let p := insert_after (chain_fuel t) t i idx in
    upd_bucket p (set_b_next idx) (upd_bucket idx (set_b_next (b_next (bucket t p))) t).

Definition relink_bucket (idx key : Z) t : HashTable V :=
  let t := upd_bucket idx (fun b => mk_Bucket (b_val b) (b_next b) (ZSTR_H key) (Some key)) t in
  link_sorted idx (nIndex_of (ZSTR_H key) (nTableMask t)) t.

(** [None]: the bucket has an integer key, whose string would be released. *)
Definition zend_hash_set_bucket_key (idx key : Z) (s : state V) : option (state V * option zptr) :=
  let (t, w) := s in
  match zend_hash_find_bucket t key with
  | Some p => Some (s, if p =? idx then Some (PBucket p) else None)
  | None =>
      old ← b_key (bucket t idx);
      let '(t, w) :=
        if ZSTR_IS_INTERNED key then (t, w)
        else (set_fl_STATIC_KEYS false t, emit (EvAddref key) w) in
      let t := unlink_bucket idx t in
      let w := emit (EvRelease old) w in
      Some ((relink_bucket idx key t, w), Some (PBucket idx))
  end.

(** * Specification *)

Definition dict_rename {A} (k k' : hkey) (d : list (hkey * A)) : list (hkey * A) :=
  (fun e => if decide (e.1 = k) then (k', e.2) else e) <$> d.

(** * Chains *)

(** Inserting [i] behind the last bucket of [l1]. *)
Lemma chain_insert t t' i l2 : forall l1 idx, chain_list t idx (l1 ++ l2) -> NoDup (l1 ++ l2) ->
  (forall j, j ∈ l1 ++ l2 -> last l1 <> Some j -> b_next (bucket t' j) = b_next (bucket t j)) ->
  (forall p, last l1 = Some p -> b_next (bucket t' p) = i /\ b_next (bucket t' i) = b_next (bucket t p)) ->
  (l1 = [] -> b_next (bucket t' i) = idx) ->
  chain_list t' (match l1 with [] => i | _ => idx end) (l1 ++ i :: l2).
Proof.
  induction l1 as [|j l1 IH]; intros idx Hc Hnd Hs Hp Hn.
  - split; [done|]. rewrite Hn by done. apply (chain_list_ext t); [|done]. intros j Hj. by apply Hs.
  - destruct Hc as [-> Hc]. split; [done|]. cbn [app] in Hnd. apply NoDup_cons in Hnd as [Hj Hnd].
    destruct l1 as [|q l1].
    + destruct (Hp j) as [-> Hi]; [done|]. split; [done|]. rewrite Hi. apply (chain_list_ext t); [|done].
      intros k Hk. apply Hs; [by right|]. intros [= ->]. by apply Hj.
    + rewrite Hs; [|by left|].
      * apply (IH (b_next (bucket t j))); [done|done| | |done].
        -- intros k Hk Hl. apply Hs; [by right|]. by rewrite last_cons_cons.
        -- intros p Hl. apply Hp. by rewrite last_cons_cons.
      * rewrite last_cons_cons. intros Hl. apply last_Some in Hl as [l' Hl]. rewrite Hl in Hj. set_solver.
Qed.

Lemma insert_after_spec t idx l2 : forall l1 fuel p h, chain_list t h (p :: l1 ++ l2) ->
  (forall j, j ∈ l1 -> idx < j /\ j <> HT_INVALID_IDX) -> (forall j, j ∈ l2 -> j < idx) ->
  (length l1 < fuel)%nat -> Some (insert_after fuel t p idx) = last_or (Some p) l1.
Proof.
  induction l1 as [|q l1 IH]; intros fuel p h [-> Hc] H1 H2 Hf; (destruct fuel as [|fuel]; [cbn in Hf; lia|]); cbn [insert_after].
  - destruct l2 as [|q l2]; cbn in Hc; [by rewrite Hc|]. destruct Hc as [-> _]. specialize (H2 q ltac:(by left)).
    destruct (Z.ltb_spec idx q); [lia|]. by rewrite andb_false_r.
  - destruct Hc as [Hq Hc]. rewrite Hq. destruct (H1 q ltac:(by left)) as [Hlt Hne].
    destruct (Z.eqb_spec q HT_INVALID_IDX); [done|]. destruct (Z.ltb_spec idx q); [|lia]. cbn [negb andb].
    rewrite last_or_cons. apply (IH fuel q q); [done| |done|cbn in Hf; lia]. intros j Hj. apply H1. by right.
Qed.

(** The buckets of a cell above and below the position [i]. *)
Definition cell_above t (n : nat) (i c : Z) : list Z :=
  filter (fun j => live t j = true /\ cell t j = c) (reverse (zrange (i + 1) (n - Z.to_nat (i + 1)))).
Definition cell_below t (i c : Z) : list Z := cell_list t (Z.to_nat i) c.

Lemma cell_list_split t n i c : 0 <= i < Z.of_nat n -> live t i = true ->
  cell_list t n c = cell_above t n i c ++ (if decide (cell t i = c) then [i] else []) ++ cell_below t i c.
Proof.
  intros Hi Hl. unfold cell_below, cell_above. unfold cell_list at 1.
  replace n with (Z.to_nat i + (1 + (n - Z.to_nat (i + 1))))%nat at 1 by lia.
  rewrite !zrange_app, !reverse_app, !filter_app, <- app_assoc. replace (0 + Z.of_nat (Z.to_nat i) + Z.of_nat 1) with (i + 1) by lia.
  f_equal. f_equal. replace (0 + Z.of_nat (Z.to_nat i)) with i by lia. change (reverse (zrange i 1)) with [i + Z.of_nat 0].
  rewrite Z.add_0_r, filter_cons. destruct (decide (cell t i = c)).
  - by rewrite decide_True.
  - by rewrite decide_False by tauto.
Qed.

Lemma elem_of_cell_above t n i c j : j ∈ cell_above t n i c -> i < j < Z.of_nat n /\ live t j = true /\ cell t j = c.
Proof. unfold cell_above. rewrite list_elem_of_filter, elem_of_reverse, elem_of_zrange. intros ([? ?] & ?). split; [lia|done]. Qed.
Lemma length_cell_above t n i c : (length (cell_above t n i c) <= n)%nat.
Proof. unfold cell_above. etrans; [apply length_filter|]. rewrite length_reverse, length_zrange. lia. Qed.
Lemma elem_of_cell_below t i c j : j ∈ cell_below t i c -> 0 <= j < i /\ live t j = true /\ cell t j = c.
Proof. unfold cell_below. rewrite elem_of_cell_list. intros (? & ? & ?). split; [lia|done]. Qed.

Lemma cell_parts_ext t t' n i c : 0 <= i -> (forall j, 0 <= j -> j <> i -> live t' j = live t j /\ cell t' j = cell t j) ->
  cell_above t' n i c = cell_above t n i c /\ cell_below t' i c = cell_below t i c.
Proof.
  intros Hi H. split; [|apply cell_list_ext; intros j Hj; apply H; lia].
  assert (forall l : list Z, (forall j, j ∈ l -> 0 <= j /\ j <> i) ->
    filter (fun j => live t' j = true /\ cell t' j = c) l = filter (fun j => live t j = true /\ cell t j = c) l) as Hf.
  { induction l as [|j l IH]; intros Hl; [done|]. rewrite !filter_cons. destruct (H j) as [-> ->]; [by apply Hl; left..|].
    rewrite IH by (intros; apply Hl; by right). done. }
  apply Hf. intros j. rewrite elem_of_reverse, elem_of_zrange. lia.
Qed.

Lemma content_parts t t' i : nTableMask t' = nTableMask t ->
  (forall j, 0 <= j -> j <> i -> content (bucket t' j) = content (bucket t j)) ->
  forall j, 0 <= j -> j <> i -> live t' j = live t j /\ cell t' j = cell t j.
Proof.
  intros Hm Hc j Hj Hne. specialize (Hc j Hj Hne). split; [by apply content_live|]. unfold cell. rewrite Hm.
  unfold content in Hc. by injection Hc as _ -> _.
Qed.

Lemma upd_next_content q x t j : 0 <= q < llen (arData t) -> 0 <= j ->
  content (bucket (upd_bucket q (set_b_next x) t) j) = content (bucket t j).
Proof.
  intros Hq Hj. destruct (decide (q = j)) as [->|Hne]; [by rewrite bucket_upd_eq|].
  by rewrite bucket_upd_ne by lia.
Qed.

Lemma cell_without t n i c : 0 <= i < Z.of_nat n -> live t i = true ->
  filter (fun j => j <> i) (cell_list t n c) = cell_above t n i c ++ cell_below t i c.
Proof.
  intros Hi Hl. rewrite (cell_list_split t n i c Hi Hl), !filter_app.
  rewrite (filter_true _ (cell_above _ _ _ _)) by (intros j (? & _)%elem_of_cell_above; lia).
  rewrite (filter_true _ (cell_below _ _ _)) by (intros j (? & _)%elem_of_cell_below; lia).
  destruct (decide (cell t i = c)); [|done]. by rewrite filter_cons_False by tauto.
Qed.

(** What the chains are while bucket [i] is in none of them. *)
Definition all_but (t : HashTable V) (n : nat) (i : Z) : Prop :=
  forall c, nTableMask t <= c < 2 ^ 32 -> chain_list t (HT_HASH t c) (cell_above t n i c ++ cell_below t i c).

Lemma unlink_bucket_ok i k t : mixed_ok t -> holds t i k ->
  let t1 := unlink_bucket i t in
  same_but_areas t t1 /\ llen (arData t1) = llen (arData t) /\ llen (arHash t1) = llen (arHash t) /\
  (forall j, 0 <= j -> content (bucket t1 j) = content (bucket t j)) /\ all_but t1 (Z.to_nat (nNumUsed t)) i.
Proof.
  intros Hm Hh t1. pose proof Hh as (Hi & Hl & Hk). pose proof (mx_data _ Hm) as Hd.
  pose proof (do_used _ Hd) as Hu. pose proof (do_data _ Hd) as Hda.
  destruct (bucket_prev i k t Hm Hh) as (l1 & l2 & Hcl & Hp). cbv zeta in Hp.
  assert (forall p, last l1 = Some p -> 0 <= p < llen (arData t) /\ p <> i) as Hpr.
  { intros p Hl1. apply last_Some in Hl1 as [l' ->].
    pose proof (NoDup_cell_list t (Z.to_nat (nNumUsed t)) (cell t i)) as Hnd.
    assert (p ∈ cell_list t (Z.to_nat (nNumUsed t)) (cell t i)) as (? & _)%elem_of_cell_list by (rewrite Hcl; set_solver).
    split; [lia|]. intros ->. rewrite Hcl in Hnd. apply NoDup_app in Hnd as (_ & Hn & _). apply (Hn i); set_solver. }
  assert (unlinked t t1 i (last l1)) as (Hs & Hl1 & Hv1 & Hc1 & Hn1 & Hp1).
  { unfold t1, unlink_bucket. rewrite <- Hp in *. destruct (_ =? i).
    - apply (unlink_spec i None t t); try done; [lia|by destruct t].
    - apply (unlink_spec i (Some _) t t); try done; [lia|by destruct t]. }
  assert (nTableMask t1 = nTableMask t) as Hmask by (by apply (Hs _ nTableMask)).
  assert (forall j, 0 <= j -> content (bucket t1 j) = content (bucket t j)) as Hc.
  { intros j Hj. destruct (decide (j = i)) as [->|]; [|by apply Hc1]. unfold t1, unlink_bucket. destruct (_ =? i) eqn:Ee; [done|].
    specialize (Hpr _ (eq_sym Hp)). rewrite bucket_upd_ne; [done|lia|done|]. lia. }
  split; [done|]. split; [done|]. split.
  { destruct (last l1); [by destruct Hp1 as [_ ->]|]. rewrite Hp1. unfold set_HT_HASH. cbn. apply llen_lset. }
  split; [done|]. intros c Hcr. rewrite Hmask in Hcr.
  destruct (cell_parts_ext t t1 (Z.to_nat (nNumUsed t)) i c (proj1 Hi)) as [-> ->].
  { apply content_parts; [done|]. intros j Hj _. by apply Hc. }
  rewrite <- (cell_without t) by (lia || done). by apply (bypass_linked t t1 i l1 l2).
Qed.

(** The two ways into the chain, by the buckets above. *)
Lemma link_sorted_eq t n i : all_but t n i -> 0 <= nTableMask t < 2 ^ 32 ->
  0 <= i < Z.of_nat n -> Z.of_nat n <= llen (arData t) <= HT_MAX_SIZE ->
  let u x := upd_bucket i (set_b_next x) t in
  link_sorted i (cell t i) t =
    match last (cell_above t n i (cell t i)) with
    | None => set_HT_HASH (cell t i) i (u (HT_HASH t (cell t i)))
    | Some p => upd_bucket p (set_b_next i) (u (b_next (bucket t p)))
    end.
Proof.
  intros Hall Hmask Hi Hn u. pose proof (Hall (cell t i) (nIndex_of_range _ _ Hmask)) as Hch. unfold link_sorted.
  set (c0 := cell t i) in *.
  pose proof (length_cell_above t n i c0) as Hlen.
  assert (forall j, j ∈ cell_above t n i c0 -> i < j < Z.of_nat n) as HA by (intros j (? & _)%elem_of_cell_above; done).
  assert (forall j, j ∈ cell_below t i c0 -> 0 <= j < i) as HB by (intros j (? & _)%elem_of_cell_below; done).
  destruct (cell_above t n i c0) as [|a A'].
  - cbn [app] in Hch. assert ((HT_HASH t c0 =? HT_INVALID_IDX) || (HT_HASH t c0 <? i) = true) as ->; [|done].
    destruct (cell_below t i c0) as [|b B']; cbn in Hch; [by rewrite Hch|]. destruct Hch as [-> _].
    destruct (HB b ltac:(by left)). destruct (Z.ltb_spec b i); [|lia]. by rewrite orb_true_r.
  - pose proof Hch as Hch'. destruct Hch' as [Eh _]. destruct (HA a ltac:(by left)).
    assert ((HT_HASH t c0 =? HT_INVALID_IDX) || (HT_HASH t c0 <? i) = false) as ->.
    { rewrite Eh. unfold HT_INVALID_IDX, HT_MAX_SIZE in *. apply orb_false_iff. split; lia. }
    rewrite Eh in Hch |- *. rewrite last_cons.
    assert (Some (insert_after (chain_fuel t) t a i) = last_or (Some a) A') as Hp.
    { apply (insert_after_spec t i (cell_below t i c0) A' (chain_fuel t) a a); [done| | |].
      - intros j Hj. destruct (HA j ltac:(by right)). unfold HT_INVALID_IDX, HT_MAX_SIZE in *. lia.
      - intros j Hj. by apply HB.
      - unfold chain_fuel. cbn [length] in Hlen. unfold llen in *. lia. }
    unfold last_or in Hp.
    destruct (last A') as [p|]; [replace (insert_after (chain_fuel t) t a i) with p by congruence
                                |replace (insert_after (chain_fuel t) t a i) with a by congruence]; done.
Qed.

(** What the insertion behind the buckets [A] changes. *)
Record chained (t t' : HashTable V) (i : Z) (A : list Z) : Prop := {
  cd_same : same_but_areas t t';
  cd_data : llen (arData t') = llen (arData t);
  cd_hash : llen (arHash t') = llen (arHash t);
  cd_content j : 0 <= j -> content (bucket t' j) = content (bucket t j);
  cd_next j : 0 <= j -> j <> i -> last A <> Some j -> b_next (bucket t' j) = b_next (bucket t j);
  cd_self : A = [] -> b_next (bucket t' i) = HT_HASH t (cell t i);
  cd_last p : last A = Some p -> b_next (bucket t' p) = i /\ b_next (bucket t' i) = b_next (bucket t p);
  cd_cell : HT_HASH t' (cell t i) = match A with [] => i | _ => HT_HASH t (cell t i) end;
  cd_cells c : nTableMask t <= c -> c <> cell t i -> HT_HASH t' c = HT_HASH t c
}.

Lemma link_sorted_chained t n i : all_but t n i -> 0 <= nTableMask t < 2 ^ 32 -> llen (arHash t) = 2 ^ 32 - nTableMask t ->
  0 <= i < Z.of_nat n -> Z.of_nat n <= llen (arData t) <= HT_MAX_SIZE ->
  chained t (link_sorted i (cell t i) t) i (cell_above t n i (cell t i)).
Proof.
  intros Hall Hmask Hhash Hi Hn. rewrite (link_sorted_eq t n i Hall Hmask Hi Hn). cbv zeta.
  pose proof (nIndex_of_range (b_h (bucket t i)) _ Hmask) as Hc0. fold (cell t i) in Hc0.
  pose proof (elem_of_cell_above t n i (cell t i)) as HA. set (A := cell_above t n i (cell t i)) in *.
  destruct (last A) as [p|] eqn:El.
  - assert (i < p < llen (arData t)) as Hp.
    { apply last_Some in El as [l El]. destruct (HA p) as (? & _); [rewrite El; set_solver|lia]. }
    set (u := upd_bucket i _ t). assert (llen (arData u) = llen (arData t)) as Hdu by (unfold u; by rewrite llen_upd_bucket).
    split; try done.
    + intros X f H1 H2. unfold u, upd_bucket. by rewrite !H1.
    + by rewrite llen_upd_bucket.
    + intros j Hj. unfold u. rewrite upd_next_content by (fold u; lia). apply upd_next_content; lia.
    + intros j Hj Hne Hlj. unfold u. rewrite bucket_upd_ne, bucket_upd_ne; [done|lia..|congruence].
    + intros E0. by rewrite E0 in El.
    + intros q Hq. assert (q = p) as -> by congruence. rewrite bucket_upd_eq by lia. split; [done|].
      unfold u. rewrite bucket_upd_ne, bucket_upd_eq by lia. done.
    + by destruct A.
  - apply last_None in El. rewrite El. set (u := upd_bucket i _ t). assert (nTableMask u = nTableMask t) as Hmu by done. split; try done.
    + intros X f H1 H2. unfold set_HT_HASH, u, upd_bucket. by rewrite H2, H1.
    + unfold set_HT_HASH, u. cbn. apply llen_lset.
    + unfold set_HT_HASH. cbn. by rewrite llen_lset.
    + intros j Hj. apply upd_next_content; lia.
    + intros j Hj Hne _. change (bucket (set_HT_HASH (cell t i) i u) j) with (bucket u j). unfold u. by rewrite bucket_upd_ne by lia.
    + intros _. change (bucket (set_HT_HASH (cell t i) i u) i) with (bucket u i). unfold u. by rewrite bucket_upd_eq by lia.
    + apply HT_HASH_set_eq; by rewrite Hmu.
    + intros c Hc Hne. rewrite HT_HASH_set_ne; [done|rewrite Hmu; lia..|done].
Qed.

(** Afterwards every live bucket is in its chain. *)
Lemma chained_linked t t' n i : all_but t n i -> 0 <= nTableMask t < 2 ^ 32 -> 0 <= i < Z.of_nat n -> live t i = true ->
  chained t t' i (cell_above t n i (cell t i)) -> linked t' n.
Proof.
  intros Hall Hmask Hi Hl [Hst _ _ Hcont Hnext Hni Hlast Hh0 Hh]. set (c0 := cell t i) in *. set (A := cell_above t n i c0) in *.
  assert (nTableMask t' = nTableMask t) as Hm' by (by apply (Hst _ nTableMask)).
  assert (nTableMask t <= c0 < 2 ^ 32) as Hc0 by (by apply nIndex_of_range).
  assert (cell t' i = c0 /\ live t' i = true) as [Hci Hli].
  { pose proof (Hcont i ltac:(lia)) as Hci. split; [|by rewrite (content_live t t' i Hci)]. unfold c0, cell. rewrite Hm'.
    unfold content in Hci. by injection Hci as _ -> _. }
  intros c Hc. rewrite Hm' in Hc. destruct (cell_parts_ext t t' n i c (proj1 Hi)) as [Ea Eb].
  { apply content_parts; [done|]. intros j Hj _. by apply Hcont. }
  rewrite (cell_list_split t' n i c Hi Hli), Ea, Eb, Hci. destruct (decide (c0 = c)) as [<-|Hne].
  - rewrite Hh0. apply (chain_insert t t'); [by apply (Hall c0)| | |done|done].
    + apply NoDup_app. split; [apply NoDup_filter; rewrite reverse_Permutation; apply NoDup_zrange|]. split; [|apply NoDup_cell_list].
      intros j (? & _)%elem_of_cell_above (? & _)%elem_of_cell_below. lia.
    + intros j Hj Hlj. apply Hnext; [..|done]; apply elem_of_app in Hj as [(? & _)%elem_of_cell_above|(? & _)%elem_of_cell_below]; lia.
  - rewrite Hh by (done || lia). cbn [app]. apply (chain_list_ext t); [|by apply Hall]. intros j Hj.
    assert (0 <= j /\ j <> i /\ cell t j = c) as (Hj0 & Hji & Hjc)
      by (apply elem_of_app in Hj as [(? & _ & ?)%elem_of_cell_above|(? & _ & ?)%elem_of_cell_below]; split; done || lia).
    rewrite Hnext; [done..|]. intros El. apply last_Some in El as [l El].
    assert (j ∈ A) as (_ & _ & ?)%elem_of_cell_above by (rewrite El; set_solver). congruence.
Qed.
(** * The table with the new key *)

Lemma rename_mid {A} (k k' : hkey) (d1 d2 : list (hkey * A)) (v : A) : dict_ok (d1 ++ (k, v) :: d2) ->
  dict_rename k k' (d1 ++ (k, v) :: d2) = d1 ++ (k', v) :: d2.
Proof.
  intros Hok. unfold dict_ok in Hok. rewrite fmap_app in Hok. apply NoDup_app in Hok as (_ & H1 & H2).
  cbn in H2. apply NoDup_cons in H2 as [H2 _].
  assert (forall d : list (hkey * A), k ∉ d.*1 -> dict_rename k k' d = d) as Hid.
  { induction d as [|e d IH]; intros Hd; [done|]. cbn in Hd. apply not_elem_of_cons in Hd as [He Hd].
    unfold dict_rename in *. cbn. rewrite decide_False by done. by rewrite IH. }
  unfold dict_rename in *. rewrite fmap_app. cbn. rewrite decide_True by done.
  rewrite !Hid; [done|done|]. intros Hin. apply (H1 k Hin). by left.
Qed.

Lemma elem_of_rename {A} k s (d : list (hkey * A)) h : KInt h ∈ (dict_rename k (KStr s) d).*1 -> KInt h ∈ d.*1.
Proof.
  unfold dict_rename. rewrite <- list_fmap_compose. intros (e & Ee & He)%list_elem_of_fmap. cbn in Ee.
  destruct (decide (e.1 = k)); [done|]. rewrite Ee. by apply list_elem_of_fmap_2.
Qed.

Lemma NoDup_replace {A} (l1 l2 : list A) x y : NoDup (l1 ++ x :: l2) -> y ∉ l1 ++ x :: l2 -> NoDup (l1 ++ y :: l2).
Proof.
  rewrite !NoDup_app. intros (H1 & H2 & H3) Hy. apply NoDup_cons in H3 as [H3 H4].
  split; [done|]. split; [|apply NoDup_cons; set_solver]. intros z Hz Hz'. apply elem_of_cons in Hz' as [->|Hz']; [set_solver|].
  apply (H2 z Hz). by right.
Qed.

Lemma renamed_ok t t' i k key : mixed_ok t -> holds t i k -> KStr (ZSTR_VAL key) ∉ (elems t).*1 ->
  (forall A (f : HashTable V -> A), (forall a u, f (set_arData a u) = f u) -> (forall a u, f (set_arHash a u) = f u) ->
     (forall a u, f (set_fl_STATIC_KEYS a u) = f u) -> f t' = f t) ->
  llen (arData t') = llen (arData t) -> llen (arHash t') = llen (arHash t) ->
  (forall j, 0 <= j -> j <> i -> content (bucket t' j) = content (bucket t j)) ->
  content (bucket t' i) = (b_val (bucket t i), ZSTR_H key, Some key) -> linked t' (Z.to_nat (nNumUsed t)) ->
  mixed_ok t' /\ elems t' = dict_rename k (KStr (ZSTR_VAL key)) (elems t).
Proof.
  intros Hm Hh Hnew Hs Hd' Hh' Hc Hci Hlk. pose proof Hh as (Hi & Hl & Hk). pose proof (mx_data _ Hm) as Hd.
  assert (nNumUsed t' = nNumUsed t) as Hu by (by apply (Hs _ nNumUsed)).
  assert (live t' i = true) as Hl' by (unfold live, content in *; injection Hci as -> _ _; done).
  assert (fl_PACKED t' = false) as Hp' by (rewrite (Hs _ fl_PACKED) by done; apply Hd).
  assert (entry_elem (content (bucket t i)) = (k, b_val (bucket t i))) as Hek
    by (unfold entry_elem; by rewrite <- bucket_key_content, Hk).
  pose proof (entries_split t i Hi Hl) as He.
  pose proof (entries_split t' i ltac:(lia) Hl') as He'. rewrite Hu, Hci in He'.
  rewrite (entries_ext t t' 0) in He' by (intros; apply Hc; lia).
  rewrite (entries_ext t t' (i + 1)) in He' by (intros; apply Hc; lia).
  assert (dict_ok (elems t)) as Hok by (by apply elems_keys).
  assert (elems t' = dict_rename k (KStr (ZSTR_VAL key)) (elems t)) as Hel.
  { rewrite !elems_mixed in * by (apply Hd || done). rewrite He', He in *. rewrite !fmap_app in *. csimpl in *. rewrite Hek in *.
    by rewrite rename_mid. }
  split; [|done]. split; [destruct Hd; split|..]; rewrite ?(Hs _ nTableSize), ?(Hs _ nTableMask), ?(Hs _ nNumOfElements), ?(Hs _ fl_UNINITIALIZED), ?Hu by done; try done.
  - by rewrite Hd'.
  - rewrite do_count, He, He'. unfold llen. by rewrite !length_app.
  - rewrite He'. rewrite He in do_entries. apply Forall_app in do_entries as [H1 H2]. apply Forall_cons in H2 as [_ H3].
    apply Forall_app. split; [done|]. apply Forall_cons. split; [|done]. split; [done|]. pose proof (hash_func_range (ZSTR_VAL key)). unfold ZSTR_H. cbn. lia.
  - rewrite He'. rewrite He in do_keys. rewrite elems_mixed, <- list_fmap_compose in Hnew by apply do_packed.
    change (fst ∘ entry_elem) with entry_key in Hnew. rewrite He in Hnew. rewrite !fmap_app in *. csimpl in *.
    by eapply NoDup_replace.
  - rewrite Hh'. apply Hm.
Qed.
Lemma all_but_key t n i key : all_but t n i -> 0 <= i < llen (arData t) ->
  all_but (upd_bucket i (fun b => mk_Bucket (b_val b) (b_next b) (ZSTR_H key) (Some key)) t) n i.
Proof.
  intros Hall Hi c Hc. set (t2 := upd_bucket i _ t).
  assert (forall j, 0 <= j -> j <> i -> bucket t2 j = bucket t j) as Ho by (intros; apply bucket_upd_ne; lia).
  destruct (cell_parts_ext t t2 n i c (proj1 Hi)) as [-> ->].
  { apply content_parts; [done|]. intros j Hj Hne. by rewrite Ho. }
  apply (chain_list_ext t); [|by apply (Hall c)]. intros j Hj.
  rewrite Ho; [done|..]; apply elem_of_app in Hj as [(? & _)%elem_of_cell_above|(? & _)%elem_of_cell_below]; lia.
Qed.

Lemma mixed_static t (x : bool) : mixed_ok t -> mixed_ok (set_fl_STATIC_KEYS x t).
Proof. intros [[H1 H2 H3 H4 H5 H6 H7 H8 H9] Hh Hl]. split; [split; assumption|exact Hh|by apply (linked_ext t)]. Qed.

Lemma set_key_ok i k key t : mixed_ok t -> holds t i k -> KStr (ZSTR_VAL key) ∉ (elems t).*1 ->
  let t' := relink_bucket i key (unlink_bucket i t) in
  mixed_ok t' /\ elems t' = dict_rename k (KStr (ZSTR_VAL key)) (elems t) /\ nNextFreeElement t' = nNextFreeElement t.
Proof.
  intros Hm Hh Hnew t'. pose proof Hh as (Hi & Hl & _). pose proof (mx_data _ Hm) as Hd. pose proof (do_used _ Hd) as Hu.
  pose proof (do_data _ Hd) as Hda. pose proof (size_ok_bounds _ (do_size _ Hd)) as Hsz.
  pose proof (data_ok_mask_range _ Hd) as Hmask. pose proof (mx_hash _ Hm) as Hhash.
  destruct (unlink_bucket_ok i k t Hm Hh) as (Hs1 & Hd1 & Hh1 & Hc1 & Hall1). cbv zeta in *. set (t1 := unlink_bucket i t) in *.
  assert (nTableMask t1 = nTableMask t) as Hm1 by (by apply (Hs1 _ nTableMask)).
  pose proof (all_but_key t1 _ i key Hall1 ltac:(lia)) as Hall2. unfold relink_bucket in t'.
  set (t2 := upd_bucket i _ t1) in *. change (nTableMask t1) with (nTableMask t2) in *.
  assert (bucket t2 i = mk_Bucket (b_val (bucket t1 i)) (b_next (bucket t1 i)) (ZSTR_H key) (Some key)) as Hb2
    by (unfold t2; by rewrite bucket_upd_eq by lia).
  assert (llen (arData t2) = llen (arData t)) as Hd2 by (unfold t2; by rewrite llen_upd_bucket).
  pose proof (Hc1 i ltac:(lia)) as Hci. unfold content in Hci. injection Hci as Hv1 Hh1' Hk1.
  assert (live t2 i = true) as Hl2 by (unfold live; rewrite Hb2; cbn; rewrite Hv1; exact Hl).
  assert (cell t2 i = nIndex_of (ZSTR_H key) (nTableMask t2)) as Hcell by (unfold cell; by rewrite Hb2).
  assert (t' = link_sorted i (cell t2 i) t2) as Et by (by rewrite Hcell). clearbody t'.
  assert (chained t2 t' i (cell_above t2 (Z.to_nat (nNumUsed t)) i (cell t2 i))) as Hch.
  { rewrite Et. apply link_sorted_chained; [done|by rewrite Hm1| |lia|lia]. change (arHash t2) with (arHash t1). by rewrite Hm1, Hh1. }
  pose proof (chained_linked t2 t' _ i Hall2 ltac:(by rewrite Hm1) ltac:(lia) Hl2 Hch) as Hlk.
  destruct Hch as [Hs3 Hd3 Hh3 Hc3 _ _ _ _ _].
  assert (forall A (f : HashTable V -> A), (forall a u, f (set_arData a u) = f u) -> (forall a u, f (set_arHash a u) = f u) -> f t' = f t) as Hs.
  { intros A f H1 H2. rewrite (Hs3 A f H1 H2), <- (Hs1 A f H1 H2). unfold t2, upd_bucket. apply H1. }
  destruct (renamed_ok t t' i k key Hm Hh Hnew) as [Hm' He']; [|lia| | | |done|].
  - intros A f H1 H2 _. by apply Hs.
  - rewrite Hh3. change (arHash t2) with (arHash t1). done.
  - intros j Hj Hne. rewrite Hc3, <- Hc1 by done. unfold t2. by rewrite bucket_upd_ne by lia.
  - rewrite Hc3, Hb2 by lia. unfold content. cbn. by rewrite Hv1.
  - split; [done|]. split; [done|]. by apply (Hs _ nNextFreeElement).
Qed.

Lemma holds_unique t i j k : data_ok t -> holds t i k -> holds t j k -> i = j.
Proof.
  intros Hd (Hi & Hli & Hki) (Hj & Hlj & Hkj). destruct (decide (i = j)) as [|Hne]; [done|]. exfalso.
  pose proof (do_keys _ Hd) as Hnd. rewrite (entries_split t i Hi Hli), fmap_app in Hnd. csimpl in Hnd.
  rewrite <- bucket_key_content, Hki, <- Hkj, bucket_key_content in Hnd. apply NoDup_app in Hnd as (_ & H1 & H2). apply NoDup_cons in H2 as [H2 _].
  assert (forall a n, a <= j < a + Z.of_nat n -> entry_key (content (bucket t j)) ∈ entry_key <$> entries t a n) as Hin.
  { intros a n Hr. apply list_elem_of_fmap_2, elem_of_entries. by exists j. }
  destruct (decide (j < i)); [|by apply H2, Hin; lia]. apply (H1 (entry_key (content (bucket t j)))); [apply Hin; lia|by left].
Qed.

(** C29: [zend_hash_set_bucket_key] renames the key of a bucket in place, keeps
    the order of the elements and the table well-formed, and references the new
    key and releases the old one once; a key that is present already is left
    alone, and refused if it belongs to another bucket. *)
Theorem zend_hash_set_bucket_key_correct i k key old t w : wf t -> fl_PACKED t = false -> holds t i k ->
  b_key (bucket t i) = Some old ->
  let k' := KStr (ZSTR_VAL key) in
  match dict_lookup k' (elems t) with
  | Some _ => zend_hash_set_bucket_key i key (t, w) = Some ((t, w), if decide (k' = k) then Some (PBucket i) else None)
  | None => exists t' w', zend_hash_set_bucket_key i key (t, w) = Some ((t', w'), Some (PBucket i)) /\
      wf t' /\ elems t' = dict_rename k k' (elems t) /\ slots w' = slots w /\
      trace w' = trace w ++ addref_events key ++ [EvRelease old]
  end.
Proof.
  intros Hwf Hpk Hh Hold k'. pose proof (holds_mixed t i k Hwf Hpk Hh) as Hm. pose proof (mx_data _ Hm) as Hd.
  pose proof (find_bucket_repr t (match_key key) k' (proj1 Hwf) Hpk (match_key_spec key)) as Hf.
  unfold zend_hash_set_bucket_key, zend_hash_find_bucket, ZSTR_H. cbn [key_hash k'] in Hf.
  destruct (chain_find _ _ _ _) as [j|].
  - destruct Hf as [_ Hj]. rewrite (holds_lookup t j k' Hd Hj). do 2 f_equal. destruct (decide (k' = k)) as [<-|Hne].
    + rewrite (holds_unique t j i k' Hd Hj Hh). by rewrite Z.eqb_refl.
    + destruct (Z.eqb_spec j i) as [->|]; [|done]. destruct Hh as (_ & _ & <-), Hj as (_ & _ & <-). done.
  - rewrite (proj2 (dict_lookup_None k' (elems t)) Hf), Hold. cbn [mbind option_bind].
    set (ts := if ZSTR_IS_INTERNED key then t else set_fl_STATIC_KEYS false t).
    replace (if ZSTR_IS_INTERNED key then (t, w) else (set_fl_STATIC_KEYS false t, emit (EvAddref key) w))
      with (ts, addref_if_new key w) by (unfold ts, addref_if_new; by destruct (ZSTR_IS_INTERNED key)).
    assert (mixed_ok ts /\ holds ts i k /\ elems ts = elems t /\ nNextFreeElement ts = nNextFreeElement t) as (Hms & Hhs & Hes & Hns).
    { unfold ts. destruct (ZSTR_IS_INTERNED key); [done|]. by split; [apply mixed_static|]. }
    destruct (set_key_ok i k key ts Hms Hhs ltac:(by rewrite Hes)) as (Hm' & He' & Hn').
    eexists _, _. split; [reflexivity|]. split; [split; [by right; right|]|].
    + rewrite Hes in He'. destruct (proj2 Hwf) as [Hr Hnf]. unfold next_free_ok. rewrite Hn', Hns. split; [done|].
      intros h Hin. apply Hnf. rewrite He' in Hin. by eapply elem_of_rename.
    + split; [by rewrite He', Hes|]. unfold addref_if_new, addref_events. destruct (ZSTR_IS_INTERNED key); cbn; [done|].
      by rewrite <- app_assoc.
Qed.
End Rename.
