(* ===== verification/HashCompare.v ===== *)
(** Comparison of tables (Zend/zend_hash.c) and of arrays (Zend/zend_operators.c):
    ordered and unordered, with the recursion guard in the flags of the first
    table.  The unordered comparison is a comparison of dictionaries, and the
    guard makes the comparison of nested, even cyclic arrays terminate. *)

From stdpp Require Import base numbers list gmap.
From S2P Require Import Prelude ZendTypes NumericStr HashTable HashDict HashChain HashInv HashRehash HashFind.
From S2P Require Import HashOps HashTraverse HashSymtable ZendSort HashCopy.

Section Compare.
Context {V : Type} {E : ZEnv V} {Z_ops : ZValue V}.
Implicit Types (t : HashTable V) (w : EG V) (v : zval V).

(** * Tables *)

(** The sign of [memcmp] on strings of the same length. *)
Fixpoint memcmp (a b : list Z) : Z :=
  match a, b with
  | x :: a, y :: b => if x <? y then -1 else if y <? x then 1 else memcmp a b
  | _, _ => 0
  end.

Definition zend_hash_key_compare (k1 k2 : Z * option Z) : Z :=
  let '(h1, key1) := k1 in
  let '(h2, key2) := k2 in
  match key1, key2 with
  | None, None => if negb (h1 =? h2) then (if h2 <? h1 then 1 else -1) else 0
  | Some key1, Some key2 =>
      let l1 := llen (ZSTR_VAL key1) in
      let l2 := llen (ZSTR_VAL key2) in
      if negb (l1 =? l2) then (if l2 <? l1 then 1 else -1)
      else memcmp (ZSTR_VAL key1) (ZSTR_VAL key2)
  | Some _, None => 1
  | None, Some _ => -1
  end.

(** Skip the holes of [ht2] from [idx2]. *)
Definition skip_holes t (idx : Z) : Z := zend_hash_get_valid_pos t idx.

(** The addresses of the tables whose flag [GC_PROTECTED] is set.  A callback
    may compare further tables; [None] is a callback that does not return. *)
Definition guards : Type := gset Z.
Definition compare_func : Type := guards -> zval V -> zval V -> option (guards * Z).

(** The end of the loop body: both values are known. *)
Definition compare_values (compar : compare_func) w (g : guards) (pData1 pData2 : zval V) : option (guards * Z) :=
  let pData1 := deref_indirect w pData1 in
  let pData2 := deref_indirect w pData2 in
  if Z_ISUNDEF pData1 then Some (g, if negb (Z_ISUNDEF pData2) then -1 else 0)
  else if Z_ISUNDEF pData2 then Some (g, 1) else compar g pData1 pData2.

(** The value to compare with: the next position, or the same key; [inl] ends the comparison. *)
Definition compare_partner (ordered : bool) t1 t2 w (idx1 idx2 : Z) : Z + zval V * Z :=
  if ordered then
    let idx2 := skip_holes t2 idx2 in
    let c := zend_hash_key_compare (key_at t1 idx1) (key_at t2 idx2) in
    if c =? 0 then inr (pos_val t2 idx2, idx2 + 1) else inl c
  else
    match (match key_at t1 idx1 with
           | (h1, None) => zend_hash_index_find t2 h1
           | (_, Some key1) => zend_hash_find t2 key1
           end) with
    | Some p => inr (zload (t2, w) p, idx2)
    | None => inl 1
    end.

(** The loop of [zend_hash_compare_impl]. *)
Fixpoint compare_loop (compar : compare_func) (ordered : bool) (n : nat) t1 t2 w (g : guards) (idx1 idx2 : Z)
    : option (guards * Z) :=
  match n with
  | O => Some (g, 0)
  | S n =>
      if pos_undef t1 idx1 then compare_loop compar ordered n t1 t2 w g (idx1 + 1) idx2
      else
        match compare_partner ordered t1 t2 w idx1 idx2 with
        | inl c => Some (g, c)
        | inr (pData2, idx2) =>
            r ← compare_values compar w g (pos_val t1 idx1) pData2;
            let '(g, c) := r in
            if negb (c =? 0) then Some (g, c) else compare_loop compar ordered n t1 t2 w g (idx1 + 1) idx2
        end
  end.

Definition zend_hash_compare_impl compar (ordered : bool) t1 t2 w (g : guards) : option (guards * Z) :=
  if negb (nNumOfElements t1 =? nNumOfElements t2)
  then Some (g, if nNumOfElements t2 <? nNumOfElements t1 then 1 else -1)
  else compare_loop compar ordered (Z.to_nat (nNumUsed t1)) t1 t2 w g 0 0.

Definition ZEND_UNCOMPARABLE : Z := 1.

(** [immutable]: the flag [GC_IMMUTABLE] of the first table, which is then not
    protected; [overflowed]: the stack is used up. *)
Definition zend_hash_compare compar (ordered immutable overflowed : bool) t1 t2 w (g : guards) : option (guards * Z) :=
  if ht_id t1 =? ht_id t2 then Some (g, 0)
  else if overflowed then Some (g, ZEND_UNCOMPARABLE)
  else if bool_decide (ht_id t1 ∈ g) then Some (g, ZEND_UNCOMPARABLE)
  else
    let g := if immutable then g else {[ht_id t1]} ∪ g in
    r ← zend_hash_compare_impl compar ordered t1 t2 w g;
    let '(g, c) := r in
    Some (if immutable then g else g ∖ {[ht_id t1]}, c).

(** * Arrays *)

Section Arrays.
(** The arrays by address; which of them are immutable; the stack limit by
    the number of frames left ([zend_call_stack_overflowed]); the pairs of types that
    [zend_compare] compares without entering an array. *)
Context (arrays : gmap Z (HashTable V)) (immutable : Z -> bool) (overflowed : nat -> bool)
  (compare_others : zval V -> zval V -> Z) (w : EG V).

Definition Z_ARR v : option (HashTable V) :=
  match v with IS_VALUE x => a ← Z_ARRVAL x; arrays !! a | _ => None end.

(** [zend_compare_symbol_tables] under [zend_compare_arrays], with [compar] for
    [hash_zval_compare_function] and [n] frames left; the references it holds on
    both tables meanwhile are not represented. *)
Definition zend_compare_symbol_tables (compar : compare_func) (n : nat) t1 t2 (g : guards) : option (guards * Z) :=
  if ht_id t1 =? ht_id t2 then Some (g, 0)
  else zend_hash_compare compar false (immutable (ht_id t1)) (overflowed n) t1 t2 w g.

(** [zend_compare] with the case [TYPE_PAIR(IS_ARRAY, IS_ARRAY)]; [n] is the depth of the machine stack. *)
Fixpoint zend_compare (n : nat) (g : guards) v1 v2 : option (guards * Z) :=
  match n with
  | O => None
  | S n =>
      match Z_ARR v1, Z_ARR v2 with
      | Some ht1, Some ht2 => zend_compare_symbol_tables (zend_compare n) n ht1 ht2 g
      | _, _ => Some (g, compare_others v1 v2)
      end
  end.
End Arrays.

(** * What a comparison decides *)

Lemma memcmp_eq a : forall b, llen a = llen b -> memcmp a b = 0 <-> a = b.
Proof.
  induction a as [|x a IH]; intros [|y b] Hl; try done; unfold llen in *; cbn [length memcmp] in *; try lia.
  destruct (Z.ltb_spec x y); [split; [done|intros [= -> ->]; lia]|].
  destruct (Z.ltb_spec y x); [split; [done|intros [= -> ->]; lia]|].
  assert (x = y) as -> by lia. rewrite IH by lia. split; [by intros ->|by intros [= ->]].
Qed.

(** The key of a position as a dictionary key. *)
Lemma key_at_pos t i : pos_key t i = match key_at t i with (_, Some k) => KStr (ZSTR_VAL k) | (h, None) => KInt h end.
Proof. unfold pos_key, key_at, bucket_key. destruct (fl_PACKED t); [done|]. by destruct (b_key (bucket t i)). Qed.

Lemma key_compare_eq t1 t2 i1 i2 : zend_hash_key_compare (key_at t1 i1) (key_at t2 i2) = 0 <-> pos_key t1 i1 = pos_key t2 i2.
Proof.
  rewrite !key_at_pos. destruct (key_at t1 i1) as [h1 [k1|]], (key_at t2 i2) as [h2 [k2|]]; cbn; try done.
  - destruct (Z.eqb_spec (llen (ZSTR_VAL k1)) (llen (ZSTR_VAL k2))) as [El|Hne]; cbn [negb].
    + rewrite memcmp_eq by done. split; [by intros ->|by intros [= ->]].
    + split; [destruct (_ <? _); done|]. intros [= E1]. by rewrite E1 in Hne.
  - destruct (Z.eqb_spec h1 h2) as [->|Hne]; cbn [negb]; [done|]. split; [destruct (_ <? _); done|by intros [= ->]].
Qed.

(** A callback that does not touch the guards and orders values by [f]. *)
Section Pure.
Context (compar : compare_func) (f : zval V -> zval V -> Z) (w : EG V).
Context (pure : forall g v1 v2, compar g v1 v2 = Some (g, f v1 v2)).

Definition value_order (v1 v2 : zval V) : Z :=
  let v1 := deref_indirect w v1 in
  let v2 := deref_indirect w v2 in
  if Z_ISUNDEF v1 then (if negb (Z_ISUNDEF v2) then -1 else 0) else if Z_ISUNDEF v2 then 1 else f v1 v2.

Lemma compare_values_pure g v1 v2 : compare_values compar w g v1 v2 = Some (g, value_order v1 v2).
Proof. unfold compare_values, value_order. destruct (Z_ISUNDEF _); [done|]. destruct (Z_ISUNDEF _); [done|apply pure]. Qed.

Definition same_binding (e1 e2 : hkey * zval V) : Prop := e1.1 = e2.1 /\ value_order e1.2 e2.2 = 0.
Definition same_lookup (d2 : list (hkey * zval V)) (e1 : hkey * zval V) : Prop :=
  exists v2, dict_lookup e1.1 d2 = Some v2 /\ value_order e1.2 v2 = 0.

Lemma compare_ordered t1 t2 g n : forall idx1 idx2, 0 <= idx2 <= nNumUsed t2 -> nNumUsed t1 = idx1 + Z.of_nat n ->
  length (elems_from t1 idx1) = length (elems_from t2 idx2) ->
  exists c, compare_loop compar true n t1 t2 w g idx1 idx2 = Some (g, c) /\
    (c = 0 <-> Forall2 same_binding (elems_from t1 idx1) (elems_from t2 idx2)).
Proof.
  induction n as [|n IH]; intros idx1 idx2 Hi2 Hn Hlen; cbn [compare_loop].
  { exists 0. split; [done|]. rewrite elems_from_end in * by lia. destruct (elems_from t2 idx2); [done|discriminate]. }
  rewrite (elems_from_step t1) in * by lia. unfold pos_elem in *. destruct (pos_undef t1 idx1) eqn:Hu.
  { cbn [option_list option_rect app] in *. apply IH; [done|lia|done]. }
  cbn [option_list option_rect app length] in *. unfold compare_partner, skip_holes.
  rewrite (elems_from_valid t2 idx2) in * by lia. destruct (valid_pos_spec t2 idx2) as (Hr1 & Hr2 & Hr3 & Hr4).
  specialize (Hr2 ltac:(lia)). set (r := zend_hash_get_valid_pos t2 idx2) in *.
  destruct (decide (r < nNumUsed t2)) as [Hr|Hr]; [|rewrite (elems_from_end t2 r) in Hlen by lia; discriminate].
  rewrite (elems_from_step t2 r) in Hlen |- * by lia. unfold pos_elem in Hlen |- *. rewrite Hr4 in Hlen |- * by done.
  cbn [option_list option_rect app length] in Hlen |- *. pose proof (key_compare_eq t1 t2 idx1 r) as Hk.
  destruct (Z.eqb_spec (zend_hash_key_compare (key_at t1 idx1) (key_at t2 r)) 0) as [Ek|Hne].
  - apply Hk in Ek. rewrite compare_values_pure, some_bind. destruct (Z.eqb_spec (value_order (pos_val t1 idx1) (pos_val t2 r)) 0) as [Ev|Hnv]; cbn [negb].
    + destruct (IH (idx1 + 1) (r + 1) ltac:(lia) ltac:(lia) ltac:(lia)) as (c & -> & Hc). exists c. split; [done|]. rewrite Hc, Forall2_cons.
      split; [by intros H; split|by intros [_ ?]].
    + eexists. split; [done|]. rewrite Forall2_cons. split; [done|]. by intros [[_ ?] _].
  - eexists. split; [done|]. rewrite Forall2_cons. split; [done|]. intros [[E1 _] _]. by apply Hk in E1.
Qed.
(** The key of a live position, looked up in the other table. *)
Lemma partner_unordered t1 t2 idx1 idx2 : wf t1 -> wf t2 -> 0 <= idx1 < nNumUsed t1 -> pos_undef t1 idx1 = false ->
  compare_partner false t1 t2 w idx1 idx2 =
  match dict_lookup (pos_key t1 idx1) (elems t2) with Some v => inr (v, idx2) | None => inl 1 end.
Proof.
  intros Hw1 [Hw2 _] Hi Hu. unfold compare_partner. rewrite key_at_pos.
  assert (match key_at t1 idx1 with (h, None) => 0 <= h | _ => True end) as Hh.
  { unfold key_at, pos_undef in *. destruct (fl_PACKED t1) eqn:Hp; [lia|]. destruct (proj1 Hw1) as [Hun|[Hpk|Hm]].
    - rewrite (un_used _ Hun) in Hi. lia.
    - rewrite (pk_packed _ Hpk) in Hp. done.
    - destruct (b_key (bucket t1 idx1)); [done|].
      destruct (mixed_bucket_ok t1 idx1 (mx_data _ Hm) Hi) as [_ ?]; [unfold live; by rewrite Hu|]. cbn in *. lia. }
  destruct (key_at t1 idx1) as [h [k|]].
  - pose proof (hash_find_ok t2 w k Hw2) as <-. by destruct (zend_hash_find t2 k).
  - pose proof (hash_index_find_ok t2 w h Hw2 Hh) as <-. by destruct (zend_hash_index_find t2 h).
Qed.

Lemma compare_unordered t1 t2 g n : wf t1 -> wf t2 -> forall idx1, 0 <= idx1 -> nNumUsed t1 = idx1 + Z.of_nat n ->
  exists c, compare_loop compar false n t1 t2 w g idx1 0 = Some (g, c) /\
    (c = 0 <-> Forall (same_lookup (elems t2)) (elems_from t1 idx1)).
Proof.
  intros Hw1 Hw2. induction n as [|n IH]; intros idx1 H0 Hn; cbn [compare_loop].
  { exists 0. split; [done|]. by rewrite elems_from_end by lia. }
  rewrite (elems_from_step t1) by lia. unfold pos_elem. destruct (pos_undef t1 idx1) eqn:Hu.
  { cbn [option_list option_rect app]. apply IH; lia. }
  cbn [option_list option_rect app]. rewrite partner_unordered by (done || lia).
  destruct (dict_lookup (pos_key t1 idx1) (elems t2)) as [v2|] eqn:El.
  - rewrite compare_values_pure, some_bind. destruct (Z.eqb_spec (value_order (pos_val t1 idx1) v2) 0) as [Ev|Hnv]; cbn [negb].
    + destruct (IH (idx1 + 1)) as (c & -> & Hc); [lia|lia|]. exists c. split; [done|]. rewrite Hc, Forall_cons.
      split; [|by intros [_ ?]]. intros H. split; [by exists v2|done].
    + eexists. split; [done|]. rewrite Forall_cons. split; [done|]. intros [(v & E1 & E2) _]. cbn in E1, E2. congruence.
  - eexists. split; [done|]. rewrite Forall_cons. split; [done|]. intros [(v & E1 & _) _]. cbn in E1. congruence.
Qed.

Lemma wf_count t : wf t -> nNumOfElements t = llen (elems t).
Proof.
  intros [[Hu|[Hp|Hm]] _].
  - by rewrite (un_count _ Hu), elems_uninit.
  - apply (pk_count _ Hp).
  - rewrite (do_count _ (mx_data _ Hm)), elems_mixed by apply (mx_data _ Hm). unfold llen. by rewrite length_fmap.
Qed.

Lemma elems_from_all t : elems_from t 0 = elems t.
Proof. rewrite elems_pos. unfold elems_from. by rewrite Z.sub_0_r. Qed.

Lemma wf_used t : wf t -> 0 <= nNumUsed t.
Proof. intros [[Hu|[Hp|Hm]] _]; [rewrite (un_used _ Hu); lia|apply (pk_used _ Hp)|apply (do_used _ (mx_data _ Hm))]. Qed.

(** C30: [zend_hash_compare] on two tables that are not being compared already
    returns 0 exactly when they have the same elements: in the unordered case
    the same number of elements, and for each key of the first table an equal
    value under that key in the second one; in the ordered case pairwise equal
    keys and values in the same order.  The recursion flags are restored. *)
Theorem zend_hash_compare_correct (ordered immutable : bool) t1 t2 g : wf t1 -> wf t2 -> ht_id t1 <> ht_id t2 -> ht_id t1 ∉ g ->
  exists c, zend_hash_compare compar ordered immutable false t1 t2 w g = Some (g, c) /\
    (c = 0 <-> if ordered then Forall2 same_binding (elems t1) (elems t2)
              else length (elems t1) = length (elems t2) /\ Forall (same_lookup (elems t2)) (elems t1)).
Proof.
  intros Hw1 Hw2 Hid Hg. unfold zend_hash_compare. destruct (Z.eqb_spec (ht_id t1) (ht_id t2)); [done|].
  rewrite bool_decide_false by done. cbv zeta. set (g1 := if immutable then g else {[ht_id t1]} ∪ g).
  assert ((if immutable then g1 else g1 ∖ {[ht_id t1]}) = g) as Hback by (unfold g1; destruct immutable; [done|set_solver]).
  unfold zend_hash_compare_impl. rewrite (wf_count t1 Hw1), (wf_count t2 Hw2).
  pose proof (wf_used t1 Hw1). pose proof (wf_used t2 Hw2).
  destruct (Z.eqb_spec (llen (elems t1)) (llen (elems t2))) as [Hlen|Hlen]; cbn [negb].
  - unfold llen in Hlen. apply Nat2Z.inj in Hlen. destruct ordered.
    + destruct (compare_ordered t1 t2 g1 (Z.to_nat (nNumUsed t1)) 0 0) as (c & -> & Hc); [lia|lia|by rewrite !elems_from_all|].
      rewrite !elems_from_all in Hc. exists c. by rewrite some_bind, Hback.
    + destruct (compare_unordered t1 t2 g1 (Z.to_nat (nNumUsed t1)) Hw1 Hw2 0) as (c & -> & Hc); [lia|lia|].
      rewrite elems_from_all in Hc. exists c. rewrite some_bind, Hback. split; [done|]. rewrite Hc. tauto.
  - rewrite some_bind, Hback. eexists. split; [done|]. split; [by destruct (_ <? _)|].
    intros Heq. exfalso. apply Hlen. unfold llen. f_equal. destruct ordered; [by eapply Forall2_length|apply Heq].
Qed.
End Pure.

(** * Nested arrays *)

(** The loop ends, and leaves the guards alone, if the callback does so on the
    elements of the first table. *)
Lemma compare_loop_returns compar ordered t1 t2 w g n : forall idx1 idx2,
  (forall i v2, pos_undef t1 i = false -> exists c, compar g (deref_indirect w (pos_val t1 i)) v2 = Some (g, c)) ->
  exists c, compare_loop compar ordered n t1 t2 w g idx1 idx2 = Some (g, c).
Proof.
  induction n as [|n IH]; intros idx1 idx2 Hc; cbn [compare_loop]; [by exists 0|].
  destruct (pos_undef t1 idx1) eqn:Hu; [by apply IH|].
  destruct (compare_partner ordered t1 t2 w idx1 idx2) as [c|[v2 idx2']]; [by exists c|].
  assert (exists c, compare_values compar w g (pos_val t1 idx1) v2 = Some (g, c)) as [c ->].
  { unfold compare_values. destruct (Z_ISUNDEF _); [by eexists|]. destruct (Z_ISUNDEF _); [by eexists|]. by apply Hc. }
  rewrite some_bind. destruct (negb _); [by exists c|by apply IH].
Qed.

Section Nested.
Context (arrays : gmap Z (HashTable V)) (immutable : Z -> bool) (overflowed : nat -> bool)
  (compare_others : zval V -> zval V -> Z) (w : EG V).
(** Tables know their address; immutable arrays contain only immutable arrays
    of a lower rank (they are built from constant expressions). *)
Context (rank : Z -> nat) (R : nat).
Context (addressed : forall a t, arrays !! a = Some t -> ht_id t = a).
Context (constant : forall t i t', arrays !! ht_id t = Some t -> immutable (ht_id t) = true -> pos_undef t i = false ->
  Z_ARR arrays (deref_indirect w (pos_val t i)) = Some t' -> immutable (ht_id t') = true /\ (rank (ht_id t') < rank (ht_id t))%nat).
Context (bounded : forall a, (rank a <= R)%nat).

Lemma Z_ARR_stored v t : Z_ARR arrays v = Some t -> arrays !! ht_id t = Some t.
Proof.
  unfold Z_ARR. destruct v as [| | |x]; try done. destruct (Z_ARRVAL x) as [a|]; [|done]. cbn. intros Ha.
  by rewrite (addressed a t Ha).
Qed.

(** How often the comparison can still descend below [v]. *)
Definition depth (g : guards) v : nat :=
  match Z_ARR arrays v with
  | Some t => if immutable (ht_id t) then S (rank (ht_id t)) else (R + 2 + size (dom arrays ∖ g))%nat
  | None => 0%nat
  end.

(** The elements of a table that has been entered are less deep. *)
Lemma depth_element g v t i : Z_ARR arrays v = Some t -> ht_id t ∉ g -> pos_undef t i = false ->
  (depth (if immutable (ht_id t) then g else {[ht_id t]} ∪ g) (deref_indirect w (pos_val t i)) < depth g v)%nat.
Proof.
  intros Hv Hg Hu. pose proof (Z_ARR_stored v t Hv) as Ht. unfold depth. rewrite Hv.
  destruct (Z_ARR arrays (deref_indirect w (pos_val t i))) as [t'|] eqn:Ht'; [|destruct (immutable (ht_id t)); lia].
  destruct (immutable (ht_id t)) eqn:Hi.
  - destruct (constant t i t' Ht Hi Hu Ht') as [-> ?]. lia.
  - pose proof (bounded (ht_id t')). destruct (immutable (ht_id t')); [lia|].
    assert (size (dom arrays ∖ ({[ht_id t]} ∪ g)) < size (dom arrays ∖ g))%nat; [|lia].
    apply subset_size. split; [set_solver|]. intros Hsub. assert (ht_id t ∈ dom arrays) as Hd by (by apply elem_of_dom_2 in Ht).
    set_solver.
Qed.

Lemma compare_returns n : forall g v1 v2, (depth g v1 < n)%nat ->
  exists c, zend_compare arrays immutable overflowed compare_others w n g v1 v2 = Some (g, c).
Proof.
  induction n as [|n IH]; intros g v1 v2 Hn; [lia|]. cbn [zend_compare].
  destruct (Z_ARR arrays v1) as [t1|] eqn:H1; [|by eexists]. destruct (Z_ARR arrays v2) as [t2|] eqn:H2; [|by eexists].
  unfold zend_compare_symbol_tables, zend_hash_compare. destruct (_ =? _); [by eexists|]. destruct (overflowed n); [by eexists|].
  case_bool_decide as Hg; [by eexists|]. cbv zeta. set (g1 := if immutable (ht_id t1) then g else {[ht_id t1]} ∪ g).
  assert ((if immutable (ht_id t1) then g1 else g1 ∖ {[ht_id t1]}) = g) as Hback
    by (unfold g1; destruct (immutable (ht_id t1)); [done|set_solver]).
  unfold zend_hash_compare_impl. destruct (negb _); [rewrite some_bind, Hback; by eexists|].
  destruct (compare_loop_returns (zend_compare arrays immutable overflowed compare_others w n) false t1 t2 w g1
    (Z.to_nat (nNumUsed t1)) 0 0) as [c ->]; [|rewrite some_bind, Hback; by eexists].
  intros i v Hu. apply IH. pose proof (depth_element g v1 t1 i H1 Hg Hu). fold g1 in H. lia.
Qed.

(** The comparison of arrays that contain arrays, even themselves, returns:
    the guard bounds the depth of the recursion by the number of arrays, and all
    recursion flags are restored at the end. *)
Theorem zend_compare_arrays_terminates g v1 v2 :
  exists c, zend_compare arrays immutable overflowed compare_others w (R + size (dom arrays) + 3) g v1 v2 = Some (g, c).
Proof.
  apply compare_returns. unfold depth. destruct (Z_ARR arrays v1) as [t|]; [|lia].
  assert (size (dom arrays ∖ g) <= size (dom arrays))%nat by (apply subseteq_size; set_solver).
  pose proof (bounded (ht_id t)). destruct (immutable (ht_id t)); lia.
Qed.
End Nested.

End Compare.
