(* ===== verification/HashList.v ===== *)
(** Lists as packed tables: appending to an empty table with
    [zend_hash_next_index_insert] keeps the table packed, without holes, with
    the keys 0, 1, 2, ...; the way internal code builds and reads arrays. *)

From stdpp Require Import base numbers list gmap.
From S2P Require Import Prelude ZendTypes HashTable HashDict HashChain HashInv.
From S2P Require Import HashFind HashAdd HashIndex.
From S2P Require Import HashSymtable ZendSort HashCopy HashMerge.

Section Lists.
Context {V : Type} `{E : ZEnv V}.
Implicit Types (t : HashTable V) (w : EG V) (vs : list (zval V)).

(** The elements of a list from index [i]. *)
Fixpoint list_elems (i : Z) vs : list (hkey * zval V) :=
  match vs with [] => [] | v :: vs => (KInt i, v) :: list_elems (i + 1) vs end.

Lemma list_elems_snoc vs v : forall i, list_elems i (vs ++ [v]) = list_elems i vs ++ [(KInt (i + llen vs), v)].
Proof.
  induction vs as [|u vs IH]; intros i; cbn [list_elems app]; [by rewrite Z.add_0_r|].
  rewrite IH. do 2 f_equal. rewrite llen_cons. do 3 f_equal. lia.
Qed.

Lemma list_elems_lookup vs : forall i k, i <= k -> dict_lookup (KInt k) (list_elems i vs) = vs !! Z.to_nat (k - i).
Proof.
  induction vs as [|u vs IH]; intros i k Hk; cbn [list_elems dict_lookup]; [done|].
  destruct (decide (KInt k = KInt i)) as [[= ->]|Hne]; [by rewrite Z.sub_diag|].
  assert (k <> i) by congruence. rewrite IH by lia.
  replace (Z.to_nat (k - i)) with (S (Z.to_nat (k - (i + 1)))) by lia. done.
Qed.

Lemma length_list_elems vs : forall i, length (list_elems i vs) = length vs.
Proof. induction vs as [|u vs IH]; intros i; cbn [list_elems length]; [done|]. by rewrite IH. Qed.

(** [t] is the list [vs]. *)
Record list_table vs t : Prop := {
  lt_wf : (vs = [] /\ uninit_ok t /\ nNextFreeElement t = ZEND_LONG_MIN) \/
          (packed_ok t /\ nNumUsed t = llen vs /\ nNextFreeElement t = llen vs);
  lt_elems : elems t = list_elems 0 vs;
  lt_size : nTableSize t <= Z.max 8 (2 * llen vs)
}.

Lemma list_table_repr vs t : list_table vs t -> repr_ok t.
Proof. intros [[(_ & H & _)|(H & _)] _ _]; [by left|by right; left]. Qed.

Lemma list_table_count vs t : list_table vs t -> nNumOfElements t = llen vs.
Proof.
  intros [[(-> & H & _)|(H & _)] He _]; [by rewrite (un_count _ H)|].
  rewrite (pk_count _ H), He. unfold llen. by rewrite length_list_elems.
Qed.

Lemma list_table_find vs t w i : list_table vs t -> 0 <= i ->
  (fun p => zload (t, w) p) <$> zend_hash_index_find t i = vs !! Z.to_nat i.
Proof.
  intros H Hi. rewrite hash_index_find_ok by (done || by eapply list_table_repr).
  rewrite (lt_elems _ _ H), list_elems_lookup by done. by rewrite Z.sub_0_r.
Qed.

Lemma add_to_packed_used h v fl t w : nNumUsed (add_to_packed h v fl (t, w)).1.1 = u32 (h + 1).
Proof. unfold add_to_packed. by destruct (_ && _). Qed.

Lemma list_added vs t w v fl : packed_ok t -> elems t = list_elems 0 vs -> nNumUsed t = llen vs ->
  llen vs < nTableSize t -> nTableSize t <= Z.max 8 (2 * llen (vs ++ [v])) ->
  stored_value fl v = v -> Z_ISUNDEF v = false ->
  exists t', add_to_packed (llen vs) v fl (t, w) = ((t', w), Some (PPacked (llen vs))) /\ list_table (vs ++ [v]) t'.
Proof.
  intros Hp He Hu Hlt Hs Hst Hv.
  destruct (add_to_packed_ok (llen vs) v fl t w Hp) as (t' & Heq & Hp' & He' & Hn' & _); [lia|congruence|by rewrite Hst|].
  exists t'. split; [done|]. pose proof (add_to_packed_size (llen vs) v fl t w) as Hsz. rewrite Heq in Hsz. cbn in Hsz.
  destruct Hsz as (Hsz & _). assert (llen (vs ++ [v]) = llen vs + 1) as El by (by rewrite llen_app).
  split.
  - right. split; [done|]. split; [|lia]. pose proof (add_to_packed_used (llen vs) v fl t w) as Hus. rewrite Heq in Hus. cbn in Hus.
    rewrite Hus. rewrite u32_small; [lia|]. pose proof (size_ok_bounds _ (pk_size _ Hp)) as Hb. unfold HT_MAX_SIZE in Hb.
    pose proof (llen_nonneg vs). lia.
  - by rewrite He', He, list_elems_snoc, Hst.
  - lia.
Qed.

(** Inserting at the index behind a list. *)
Lemma list_append_at h fl vs t w v : list_table vs t -> llen vs <= 2 ^ 28 -> Z_ISUNDEF v = false -> stored_value fl v = v ->
  (if has_flag fl HASH_ADD_NEXT && (h =? u64 ZEND_LONG_MIN) then 0 else h) = llen vs ->
  exists t' p, zend_hash_index_add_or_update_i h v fl (t, w) = Some ((t', w), Some p) /\ list_table (vs ++ [v]) t'.
Proof.
  intros Ht Hl Hv Hst Hh. unfold zend_hash_index_add_or_update_i. rewrite Hh. clear Hh h. cbv zeta.
  pose proof (llen_nonneg vs) as H0.
  destruct Ht as [[(-> & Hun & Hn)|(Hp & Hu & Hn)] He Hs].
  - rewrite (un_packed _ Hun), (un_init _ Hun).
    change (llen (@nil (zval V))) with 0. pose proof (size_ok_bounds _ (un_size _ Hun)) as Hb. destruct (Z.ltb_spec 0 (nTableSize t)); [|lia].
    destruct (init_packed_ok t Hun) as (Hpk & He0 & Hu0 & Hs0 & _). change (llen (@nil (zval V))) with 0 in *.
    destruct (list_added [] (zend_hash_real_init_packed_ex t) w v fl Hpk He0 Hu0) as (t' & Heq & Ht'); try done.
    change (llen (@nil (zval V))) with 0 in Heq. rewrite Heq. by eexists _, _.
  - rewrite (pk_packed _ Hp). destruct (Z.ltb_spec (llen vs) (nNumUsed t)); [lia|]. rewrite andb_false_r.
    pose proof (pk_used _ Hp) as Hus. pose proof (size_ok_bounds _ (pk_size _ Hp)) as Hb.
    assert (llen (vs ++ [v]) = llen vs + 1) as El by (by rewrite llen_app).
    destruct (Z.ltb_spec (llen vs) (nTableSize t)) as [Hroom|Hfull].
    + destruct (list_added vs t w v fl Hp He Hu Hroom) as (t' & Heq & Ht'); try done; [lia|]. rewrite Heq. by eexists _, _.
    + assert (nNumOfElements t = llen vs) as Hc by (rewrite (pk_count _ Hp), He; unfold llen; by rewrite length_list_elems).
      rewrite !Z.shiftr_div_pow2 by lia. change (2 ^ 1) with 2. rewrite Hc.
      destruct (Z.ltb_spec (llen vs / 2) (nTableSize t)); [|zlia].
      destruct (Z.ltb_spec (nTableSize t / 2) (llen vs)); [|zlia]. cbn [andb].
      destruct (packed_grow_ok t Hp) as (t1 & Hg & Hp1 & He1 & Hs1 & Hu1 & _); [unfold HT_MAX_SIZE; lia|]. rewrite Hg.
      cbn [mbind option_bind].
      destruct (list_added vs t1 w v fl Hp1) as (t' & Heq & Ht'); try done; try congruence; [lia|lia|].
      rewrite Heq. by eexists _, _.
Qed.

(** The index that the table hands out. *)
Lemma list_next_index fl vs t : list_table vs t -> llen vs <= 2 ^ 28 -> has_flag fl HASH_ADD_NEXT = true ->
  (if has_flag fl HASH_ADD_NEXT && (u64 (nNextFreeElement t) =? u64 ZEND_LONG_MIN) then 0 else u64 (nNextFreeElement t)) = llen vs.
Proof.
  intros Ht Hl ->. pose proof (llen_nonneg vs). cbn [andb]. destruct Ht as [[(-> & _ & Hn)|(_ & _ & Hn)] _ _]; rewrite Hn; [done|].
  rewrite u64_small by lia. destruct (Z.eqb_spec (llen vs) (u64 ZEND_LONG_MIN)) as [Hx|_]; [|done].
  assert (u64 ZEND_LONG_MIN = 2 ^ 63) as E2 by reflexivity. lia.
Qed.

(** Appending to a list. *)
Lemma list_append vs t w v : list_table vs t -> llen vs <= 2 ^ 28 -> Z_ISUNDEF v = false ->
  exists t' p, zend_hash_next_index_insert v (t, w) = Some ((t', w), Some p) /\ list_table (vs ++ [v]) t'.
Proof. intros Ht Hl Hv. apply list_append_at; [done..|]. by apply list_next_index. Qed.

Lemma list_append_new vs t w v : list_table vs t -> llen vs <= 2 ^ 28 -> Z_ISUNDEF v = false ->
  exists t' p, zend_hash_next_index_insert_new v (t, w) = Some ((t', w), Some p) /\ list_table (vs ++ [v]) t'.
Proof. intros Ht Hl Hv. apply list_append_at; [done..|]. by apply list_next_index. Qed.

(** An array under construction, as [array_init] makes it. *)
Lemma list_new id : exists t, zend_new_array id HT_MIN_SIZE = Some t /\ list_table [] t.
Proof.
  eexists. split; [reflexivity|]. split; [|done|].
  - left. split; [done|]. split; [|done]. split; try done. exists 3. done.
  - by vm_compute.
Qed.

(** Append the values in order. *)
Fixpoint append_all (l : list (zval V)) (s : state V) : option (state V) :=
  match l with
  | [] => Some s
  | v :: l => r ← zend_hash_next_index_insert v s; append_all l r.1
  end.

Lemma append_all_ok l : forall vs t w, list_table vs t -> llen vs + llen l <= 2 ^ 28 -> Forall (fun v => Z_ISUNDEF v = false) l ->
  exists t', append_all l (t, w) = Some (t', w) /\ list_table (vs ++ l) t'.
Proof.
  induction l as [|v l IH]; intros vs t w Ht Hl Hf; cbn [append_all].
  { exists t. by rewrite app_nil_r. }
  apply Forall_cons in Hf as [Hv Hf]. rewrite llen_cons in Hl. pose proof (llen_nonneg l).
  destruct (list_append vs t w v Ht ltac:(lia) Hv) as (t1 & p & Heq & Ht1). rewrite Heq. cbn [mbind option_bind fst].
  destruct (IH (vs ++ [v]) t1 w Ht1) as (t' & Heq' & Ht'); [rewrite llen_app; change (llen [v]) with 1; lia|done|].
  exists t'. split; [done|]. by rewrite <- app_assoc in Ht'.
Qed.

End Lists.
