(* ===== verification/HashFill.v ===== *)
(** Filling a packed table in place (the ZEND_HASH_FILL macros of
    Zend/zend_hash.h): the values are stored behind the used part, the counters
    are set when the table grows and at the end. *)

From stdpp Require Import base numbers list gmap.
From S2P Require Import Prelude ZendTypes HashTable HashDict HashChain HashInv HashRehash.
From S2P Require Import HashFind HashAdd HashIndex HashSymtable ZendSort HashCopy HashMerge HashList.

Section Fill.
Context {V : Type} {E : ZEnv V}.
Implicit Types (t : HashTable V) (vs : list (zval V)).

(** [ZEND_HASH_FILL_GROW] *)
Definition fill_grow (fill_idx : Z) t : option (HashTable V) :=
  if nTableSize t <=? fill_idx then
    let t := set_nNumOfElements (u32 (nNumOfElements t + (fill_idx - nNumUsed t))) t in
    let t := set_nNumUsed fill_idx t in
    let t := set_nNextFreeElement fill_idx t in
    zend_hash_packed_grow t
  else Some t.

(** [vs] has been stored; the counters are those of the last growth. *)
Record filling vs t : Prop := {
  fi_ok : packed_ok t;
  fi_used : nNumUsed t <= llen vs <= nTableSize t;
  fi_count : nNumOfElements t = nNumUsed t;
  fi_vals : forall k v, vs !! k = Some v -> packed t (Z.of_nat k) = v;
  fi_defined : Forall (fun v => Z_ISUNDEF v = false) vs;
  fi_size : nTableSize t <= Z.max 8 (2 * llen vs)
}.

Lemma packed_elems_list vs t : Forall (fun v => Z_ISUNDEF v = false) vs -> forall i, 0 <= i ->
  (forall k v, vs !! k = Some v -> packed t (i + Z.of_nat k) = v) -> packed_elems t i (length vs) = list_elems i vs.
Proof.
  induction 1 as [|v vs Hv Hd IH]; intros i Hi Hvs; [done|]. cbn [length list_elems]. rewrite packed_elems_cons. unfold packed_elem.
  pose proof (Hvs 0%nat v eq_refl) as H0. rewrite Z.add_0_r in H0. rewrite H0, Hv. cbn. f_equal. apply IH; [lia|].
  intros k x Hk. rewrite <- (Hvs (S k) x Hk). f_equal. lia.
Qed.

(** Setting the counters to what has been stored. *)
Lemma filling_counted vs t t1 : filling vs t -> fl_PACKED t1 = fl_PACKED t -> fl_UNINITIALIZED t1 = fl_UNINITIALIZED t ->
  nTableSize t1 = nTableSize t -> nTableMask t1 = nTableMask t -> arHash t1 = arHash t -> arPacked t1 = arPacked t ->
  nNumUsed t1 = llen vs -> nNumOfElements t1 = llen vs -> packed_ok t1 /\ elems t1 = list_elems 0 vs.
Proof.
  intros [Hp Hu Hc Hv Hd Hs] E1 E2 E3 E4 E5 E6 E7 E8. pose proof (pk_used _ Hp). assert (elems t1 = list_elems 0 vs) as He.
  { unfold elems. rewrite E1, (pk_packed _ Hp), E7. unfold llen. rewrite Nat2Z.id. apply packed_elems_list; [done|done|].
    intros k v Hk. rewrite Z.add_0_l, <- (Hv k v Hk). unfold packed. by rewrite E6. }
  split; [|done]. split; rewrite ?E1, ?E2, ?E3, ?E4, ?E5, ?E6, ?E7, ?E8; try apply Hp; [lia|].
  rewrite He. unfold llen. by rewrite length_list_elems.
Qed.

Lemma filling_new t : uninit_ok t -> nTableSize t <= 8 -> filling [] (zend_hash_real_init_packed_ex t).
Proof.
  intros Hu Hs. destruct (init_packed_ok t Hu) as (Hp & He & Hu0 & Hs0 & _). pose proof (pk_count _ Hp) as Hc. rewrite He in Hc.
  pose proof (pk_used _ Hp). split; [done|change (llen []) with 0; lia|rewrite Hc, Hu0; done|done|done|lia].
Qed.

Lemma fill_grow_ok vs t : filling vs t -> llen vs <= 2 ^ 28 -> exists t', fill_grow (llen vs) t = Some t' /\ filling vs t' /\ llen vs < nTableSize t'.
Proof.
  intros Hf Hl. pose proof Hf as [Hp Hu Hc Hv Hd Hs]. pose proof (pk_used _ Hp). pose proof (llen_nonneg vs). unfold fill_grow.
  destruct (Z.leb_spec (nTableSize t) (llen vs)) as [Hfull|Hroom]; [|by exists t].
  set (t1 := set_nNextFreeElement _ _).
  destruct (filling_counted vs t t1 Hf) as [Hp1 He1]; try done.
  { cbn. rewrite Hc. rewrite u32_small; lia. }
  pose proof (size_ok_bounds _ (pk_size _ Hp)) as Hb.
  destruct (packed_grow_ok t1 Hp1) as (t' & Hg & Hp' & He' & Hs' & Hu' & _); [cbn; unfold HT_MAX_SIZE; lia|].
  exists t'. split; [done|]. change (nTableSize t1) with (nTableSize t) in Hs'. change (nNumUsed t1) with (llen vs) in Hu'. split; [|lia]. split; [done|lia| | |done|lia].
  - rewrite (pk_count _ Hp'), He', He1, Hu'. unfold llen. by rewrite length_list_elems.
  - intros k v Hk. rewrite <- (Hv k v Hk). pose proof (lookup_lt_Some _ _ _ Hk). unfold zend_hash_packed_grow in Hg.
    destruct (HT_MAX_SIZE <=? nTableSize t1); [done|]. injection Hg as <-. unfold packed. cbn [arPacked set_nTableSize set_arPacked].
    change (packed t (Z.of_nat k)) with (packed t1 (Z.of_nat k)). unfold packed. pose proof (pk_data _ Hp) as Hda. unfold llen in *.
    change (arPacked t1) with (arPacked t). change (nNumUsed t1) with (Z.of_nat (length vs)). change (nTableSize t1) with (nTableSize t) in *. apply lget_kept; lia.
Qed.

Lemma fill_set_ok vs t v : filling vs t -> llen vs < nTableSize t -> Z_ISUNDEF v = false -> filling (vs ++ [v]) (set_packed (llen vs) v t).
Proof.
  intros [Hp Hu Hc Hv Hd Hs] Hroom Hdef. pose proof (llen_nonneg vs). pose proof (pk_used _ Hp).
  assert (llen (vs ++ [v]) = llen vs + 1) as El by (by rewrite llen_app).
  assert (elems (set_packed (llen vs) v t) = elems t) as He.
  { unfold elems. change (fl_PACKED (set_packed (llen vs) v t)) with (fl_PACKED t). rewrite (pk_packed _ Hp). apply packed_elems_ext.
    intros k Hk. change (nNumUsed (set_packed (llen vs) v t)) with (nNumUsed t) in Hk. apply packed_set_ne; lia. }
  split; [|change (nNumUsed t <= llen (vs ++ [v]) <= nTableSize t); lia|done| |apply Forall_app; split; [done|by apply Forall_singleton]|change (nTableSize t <= Z.max 8 (2 * llen (vs ++ [v]))); lia].
  - split; try apply Hp; [cbn; rewrite llen_lset; apply Hp|]. rewrite He. apply Hp.
  - intros k x Hk. destruct (decide (k = length vs)) as [->|Hne].
    + rewrite lookup_app_r, Nat.sub_diag in Hk by done. injection Hk as <-. apply packed_set_eq. rewrite (pk_data _ Hp). unfold llen in *. lia.
    + pose proof (lookup_lt_Some _ _ _ Hk) as Hlt. rewrite length_app in Hlt. cbn in Hlt. rewrite lookup_app_l in Hk by lia.
      rewrite packed_set_ne by (unfold llen; lia). by apply Hv.
Qed.

Lemma fill_finish_ok vs t : filling vs t -> list_table vs (fill_finish (llen vs) t).
Proof.
  intros Hf. pose proof Hf as [Hp Hu Hc Hv Hd Hs]. pose proof (pk_used _ Hp). pose proof (size_ok_bounds _ (pk_size _ Hp)) as Hb. unfold HT_MAX_SIZE in Hb.
  destruct (filling_counted vs t (fill_finish (llen vs) t) Hf) as [Hp1 He1]; try done.
  { cbn. rewrite Hc. rewrite u32_small; lia. }
  split; [right; by split_and!|done|done].
Qed.
End Fill.
