(* ===== verification/HashRenumber.v ===== *)
(** [zend_hash_sort] with renumbering: the values are sorted in place under
    the buckets, which then get the keys 0, 1, 2, ... and become a packed
    array; with the result of HashSort, the whole function. *)

From stdpp Require Import base numbers list gmap.
From S2P Require Import Prelude ZendTypes HashTable HashDict HashChain HashInv HashRehash HashFind.
From S2P Require Import HashAdd HashIndex HashDel HashOps HashTraverse HashSymtable ZendSort HashCopy HashSort HashMerge HashList HashFill.

Section Renumber.
Context {V : Type} {E : ZEnv V} {Z_ops : ZValue V}.
Implicit Types (t : HashTable V) (w : EG V) (b : Bucket V) (v : zval V).

(** * What a comparison of values sees *)

Definition erase b : Bucket V := mk_Bucket (b_val b) (b_next b) 0 None.

(** The comparison looks at values and original positions only. *)
Definition by_value (compar : Bucket V -> Bucket V -> Z) : Prop := forall a b, compar a b = compar (erase a) (erase b).

(** Values with their positions from [i] on. *)
Fixpoint number_from (i : Z) (vs : list (zval V)) : list (Bucket V) :=
  match vs with [] => [] | v :: vs => mk_Bucket v i 0 None :: number_from (i + 1) vs end.

Lemma erase_label_from (es : list (entry (V:=V))) : forall i, erase <$> label_from i es = number_from i ((fun e => e.1.1) <$> es).
Proof. induction es as [|e es IH]; intros i; [done|]. cbn. by rewrite IH. Qed.

Lemma entry_values (es : list (entry (V:=V))) : (entry_elem <$> es).*2 = (fun e => e.1.1) <$> es.
Proof. induction es as [|[[v h] k] es IH]; [done|]. cbn. by rewrite IH. Qed.

Lemma vals_erase (bs : list (Bucket V)) : b_val <$> (erase <$> bs) = b_val <$> bs.
Proof. by rewrite <- list_fmap_compose. Qed.

Lemma vals_number_from (vs : list (zval V)) : forall i, b_val <$> number_from i vs = vs.
Proof. induction vs as [|v vs IH]; intros i; [done|]. cbn. by rewrite IH. Qed.

(** The sort exchanges values under the keys. *)
Lemma sort_renum compar l : total_preorder compar -> by_value compar ->
  erase <$> zend_sort (junk 0) compar zend_hash_bucket_renum_swap l ≡ₚ erase <$> l /\
  sorted_by compar (erase <$> zend_sort (junk 0) compar zend_hash_bucket_renum_swap l).
Proof.
  intros [Htr Htot] Hv.
  rewrite <- (zend_sort_sim erase (junk 0) compar zend_hash_bucket_renum_swap compar zend_hash_bucket_swap Hv (fun a b => eq_refl)).
  apply zend_sort_ok; done.
Qed.

(** * Renumbering *)

Lemma renumber_loop_ok n : forall j t w,
  let r := renumber_loop n j (t, w) in
  frame r.1 = frame t /\ nNumUsed r.1 = nNumUsed t /\ b_val <$> arData r.1 = b_val <$> arData t.
Proof.
  induction n as [|n IH]; intros j t w; cbn [renumber_loop]; [done|]. cbv zeta.
  set (t1 := upd_bucket j _ t). destruct (IH (j + 1) t1 (release_string (b_key (bucket t j)) w)) as (Hf & Hu & Hb).
  split; [by rewrite Hf|]. split; [by rewrite Hu|]. rewrite Hb. unfold t1, upd_bucket, lset. cbn [arData set_arData].
  rewrite list_fmap_insert. cbn [b_val]. unfold lget. destruct (arData t !! Z.to_nat j) as [x|] eqn:Hx.
  - apply list_insert_id. unfold bucket, lget. by rewrite list_lookup_fmap, Hx.
  - apply list_insert_ge. rewrite length_fmap. by apply lookup_ge_None in Hx.
Qed.

Lemma defined_values t : (Z.to_nat (nNumUsed t) <= length (arData t))%nat -> Forall (fun v => Z_ISUNDEF v = false) ((fun e : entry => e.1.1) <$> mixed_entries t).
Proof.
  intros Hl. apply Forall_fmap, Forall_forall. intros e He. rewrite mixed_entries_data in He by done.
  apply list_elem_of_omap in He as (b & _ & Hb). unfold live_content in Hb. destruct (Z_ISUNDEF (b_val b)) eqn:Hu; [done|].
  injection Hb as <-. exact Hu.
Qed.

(** [t'] is the list of the sorted values of [t]. *)
Definition renumbered compar t t' : Prop :=
  exists bs, bs ≡ₚ number_from 0 (elems t).*2 /\ sorted_by compar bs /\ elems t' = list_elems 0 (b_val <$> bs).

Lemma packed_list_next t (vs : list (zval V)) : packed_ok t -> elems t = list_elems 0 vs -> nNextFreeElement t = llen vs -> llen vs <= HT_MAX_SIZE -> wf t.
Proof.
  intros Hp He Hn Hl. split; [by right; left|]. pose proof (llen_nonneg vs). unfold HT_MAX_SIZE in Hl. split; [rewrite Hn; unfold ZEND_LONG_MIN, ZEND_LONG_MAX; lia|].
  intros h Hh. left. rewrite He in Hh. rewrite Hn. assert (forall i, KInt h ∈ (list_elems i vs).*1 -> i <= h < i + llen vs) as Hr.
  { clear. induction vs as [|v vs IH]; intros i Hin; [by apply elem_of_nil in Hin|]. cbn in Hin. rewrite llen_cons. pose proof (llen_nonneg vs).
    apply elem_of_cons in Hin as [[= ->]|Hin]; [lia|]. apply IH in Hin. lia. }
  apply Hr in Hh. rewrite s64_small by (unfold ZEND_LONG_MIN, ZEND_LONG_MAX; lia). lia.
Qed.

Lemma sort_mixed_renum compar t w : total_preorder compar -> by_value compar -> mixed_ok t -> 1 <= nNumOfElements t ->
  exists t' w', zend_hash_sort compar true (t, w) = (t', w') /\ wf t' /\ renumbered compar t t'.
Proof.
  intros Hc Hv Hm Hn. pose proof (mx_data _ Hm) as Hd. unfold zend_hash_sort, zend_hash_sort_ex, zend_hash_sort_internal.
  cbn [negb orb]. rewrite (proj2 (Z.eqb_neq _ _)) by lia. rewrite andb_false_r, (do_packed _ Hd). cbn [andb]. rewrite !andb_false_r.
  pose proof (label_phase t Hd) as Hl. cbv zeta in Hl. set (r := if HT_IS_WITHOUT_HOLES t then _ else _) in *.
  destruct r as [t2 i]. cbn [fst snd] in Hl. destruct Hl as (Hf & Hlen & Hu & -> & Htake).
  destruct (frame_fields _ _ Hf) as (_ & Hs2 & Hn2 & Hp2 & Hi2 & _). rewrite (do_packed _ Hd) in Hp2. rewrite (do_init _ Hd) in Hi2.
  rewrite Hp2. cbn [negb]. change (nNumUsed (HT_HASH_RESET t2)) with (nNumUsed t2). change (arData (HT_HASH_RESET t2)) with (arData t2).
  rewrite Hu, Htake. destruct (sort_renum compar (label_from 0 (mixed_entries t)) Hc Hv) as [Hperm Hsort].
  set (ss := zend_sort _ _ _ _) in *. set (t3 := set_nInternalPointer 0 _).
  pose proof (renumber_loop_ok (Z.to_nat (nNumOfElements t)) 0 t3 w) as Hr. cbv zeta in Hr.
  destruct (renumber_loop (Z.to_nat (nNumOfElements t)) 0 (t3, w)) as [t4 w4]. cbn [fst] in Hr. destruct Hr as (Hf4 & Hu4 & Hb4).
  destruct (frame_fields _ _ Hf4) as (_ & Hs4 & Hn4 & Hp4 & Hi4 & _).
  change (fl_PACKED t3) with (fl_PACKED t2) in Hp4. change (fl_UNINITIALIZED t3) with (fl_UNINITIALIZED t2) in Hi4.
  change (nTableSize t3) with (nTableSize t2) in Hs4. change (nNumOfElements t3) with (nNumOfElements t2) in Hn4. change (nNumUsed t3) with (nNumUsed t2) in Hu4.
  change (fl_PACKED (set_nNextFreeElement (nNumOfElements t) t4)) with (fl_PACKED t4). rewrite Hp4, Hp2.
  set (vs := b_val <$> ss).
  assert (length ss = Z.to_nat (nNumOfElements t)) as Hlss.
  { apply Permutation_length in Hperm. rewrite !length_fmap, length_label_from in Hperm. rewrite (do_count _ Hd). unfold llen. lia. }
  assert (llen vs = nNumOfElements t) as Hlv by (unfold vs, llen; rewrite length_fmap; lia).
  pose proof (count_le_used _ Hd) as Hcu. pose proof (do_used _ Hd) as Hus. pose proof (do_data _ Hd) as Hda. pose proof (size_ok_bounds _ (do_size _ Hd)) as Hsz.
  assert (elems t = entry_elem <$> mixed_entries t) as Het by (apply elems_mixed, Hd).
  assert (vs ≡ₚ (fun e => e.1.1) <$> mixed_entries t) as Hvp.
  { unfold vs. rewrite <- (vals_erase ss), Hperm, erase_label_from. by rewrite vals_number_from. }
  eexists _, w4. split; [reflexivity|]. match goal with |- wf ?x /\ _ => set (t' := x) end.
  assert (arPacked t' = vs ++ (b_val <$> drop (Z.to_nat (nNumOfElements t)) (arData t2))) as Hpk.
  { unfold t'. cbn. rewrite fmap_take, Hb4. unfold t3. cbn. rewrite fmap_app. apply take_ge. rewrite length_app, !length_fmap, length_drop.
    unfold llen in *. lia. }
  assert (fl_PACKED t' = true) as Hp' by done. assert (nNumUsed t' = llen vs) as Hu' by (unfold t'; cbn; lia).
  assert (elems t' = list_elems 0 vs) as He'.
  { unfold elems. rewrite Hp', Hu'. unfold llen. rewrite Nat2Z.id. apply packed_elems_list; [|done|].
    - rewrite Hvp. apply defined_values. unfold llen in *. lia.
    - intros k v Hk. rewrite Z.add_0_l. unfold packed, lget. rewrite Hpk, Nat2Z.id, (lookup_app_l_Some _ _ _ _ Hk). done. }
  assert (nNumOfElements t' = llen vs) as Hn' by (unfold t'; cbn; lia).
  split.
  - apply (packed_list_next t' vs); [|done|by unfold t'; cbn; rewrite Hlv|lia].
    split; try done.
    + unfold t'. cbn. by rewrite Hi4.
    + change (nTableSize t') with (nTableSize t4). rewrite Hs4, Hs2. apply Hd.
    + rewrite Hpk. change (nTableSize t') with (nTableSize t4). rewrite Hs4, Hs2. rewrite llen_app, Hlv. unfold llen in *. rewrite length_fmap, length_drop. lia.
    + rewrite Hu'. change (nTableSize t') with (nTableSize t4). rewrite Hs4, Hs2. lia.
    + rewrite Hn', He'. unfold llen. by rewrite length_list_elems.
  - exists (erase <$> ss). rewrite Het, entry_values, <- erase_label_from. split; [done|]. split; [done|]. by rewrite He', vals_erase.
Qed.

(** A packed table with holes, or with several elements, is converted first. *)
Lemma sort_packed_renum compar t w : packed_ok t -> 1 <= nNumOfElements t -> ~ (nNumOfElements t = 1 /\ nNumUsed t = 1) ->
  zend_hash_sort compar true (t, w) = zend_hash_sort compar true (zend_hash_packed_to_hash (t, w)).
Proof.
  intros Hp Hn Hs. destruct (packed_to_hash_ok t w (packed_ok_data _ Hp)) as (t1 & w1 & Heq & Hm & _ & Hk & _).
  rewrite Heq. unfold zend_hash_sort, zend_hash_sort_ex, zend_hash_sort_internal. cbn [negb orb].
  rewrite (proj1 Hk), (proj2 (Z.eqb_neq (nNumOfElements t) 0)) by lia. rewrite !andb_false_r, (do_packed _ (mx_data _ Hm)), (pk_packed _ Hp).
  unfold HT_IS_WITHOUT_HOLES at 1. cbn [andb]. assert ((nNumOfElements t <=? 1) && (nNumUsed t =? nNumOfElements t) = false) as ->.
  { apply andb_false_iff. destruct (Z.leb_spec (nNumOfElements t) 1); [right; apply Z.eqb_neq; lia|by left]. }
  rewrite andb_false_r, Heq. done.
Qed.

Lemma hash_sort_renum compar t w : total_preorder compar -> by_value compar -> wf t ->
  exists t' w', zend_hash_sort compar true (t, w) = (t', w') /\ wf t' /\ renumbered compar t t'.
Proof.
  intros Hc Hv Hwf. pose proof (count_elems t (proj1 Hwf)) as Hce.
  destruct (decide (nNumOfElements t = 0)) as [H0|H0].
  { exists t, w. split; [|split; [done|]].
    - unfold zend_hash_sort, zend_hash_sort_ex, zend_hash_sort_internal. by rewrite H0.
    - assert (elems t = []) as He by (apply nil_length_inv; unfold llen in Hce; lia). exists []. rewrite He. by split. }
  assert (1 <= nNumOfElements t) as H1 by (unfold llen in Hce; lia).
  destruct (proj1 Hwf) as [Hu|[Hp|Hm]]; [rewrite (un_count _ Hu) in H0; done| |by apply sort_mixed_renum].
  destruct (decide (nNumOfElements t = 1 /\ nNumUsed t = 1)) as [[Hc1 Hu1]|Hs].
  - exists (set_nNextFreeElement 1 (set_nInternalPointer 0 t)), w. split; [|].
    { unfold zend_hash_sort, zend_hash_sort_ex, zend_hash_sort_internal, HT_IS_WITHOUT_HOLES. by rewrite Hc1, (pk_packed _ Hp), Hu1. }
    assert (exists v, elems t = list_elems 0 [v]) as [v He].
    { unfold elems in Hce |- *. rewrite (pk_packed _ Hp), Hu1 in Hce |- *. change (Z.to_nat 1) with 1%nat in *. rewrite packed_elems_cons in Hce |- *.
      unfold packed_elem in *. destruct (Z_ISUNDEF (packed t 0)); [exfalso; rewrite Hc1 in Hce; discriminate Hce|]. by exists (packed t 0). }
    set (t' := set_nNextFreeElement 1 _). assert (elems t' = list_elems 0 [v]) as He' by exact He. split.
    + apply (packed_list_next t' [v]); [|done|done|by vm_compute]. destruct Hp. by split.
    + exists (number_from 0 [v]). rewrite He. split; [done|]. split; [|done]. intros a b x y Hab Hx Hy. apply lookup_lt_Some in Hy. cbn in Hy. lia.
  - rewrite sort_packed_renum by done. destruct (packed_to_hash_ok t w (packed_ok_data _ Hp)) as (t1 & w1 & -> & Hm & He & Hk & _).
    destruct (sort_mixed_renum compar t1 w1 Hc Hv Hm) as (t' & w' & E' & Hwf' & Hr); [by rewrite (proj1 Hk)|].
    exists t', w'. split; [done|]. split; [done|]. unfold renumbered in *. by rewrite <- He.
Qed.

(** C15: [zend_hash_sort] ends, for every comparison that is a total preorder,
    with a well-formed table.  Not renumbering, it has the same elements in sorted
    order, keys included.  Renumbering (with a comparison of the values), it is
    the list of the values in sorted order under the keys 0, 1, 2, ...  A comparison that breaks
    ties by the original position, as PHP's sorts do, makes both stable. *)
Theorem zend_hash_sort_correct compar (renumber : bool) t w : total_preorder compar -> (renumber = true -> by_value compar) -> wf t ->
  exists t' w', zend_hash_sort compar renumber (t, w) = (t', w') /\ wf t' /\
    if renumber then renumbered compar t t' else sorted_table compar t t'.
Proof. intros Hc Hv Hwf. destruct renumber; [by apply hash_sort_renum; [|apply Hv|]|by apply hash_sort_plain]. Qed.
End Renumber.
