(* ===== verification/CompileRuntime.v ===== *)
(** The helpers of src/src/zend_compile_runtime.c that outlive the compiler:
    mangled property names, reserved class names, directory names and the
    argument flags of functions.  Buffers are byte lists with checked accesses:
    [None] would be a read or a write outside of a buffer. *)

From stdpp Require Import base numbers list gmap.
From S2P Require Import Prelude.

(** * C library functions on buffers *)

(** [memcpy(dst + off, src, n)] *)
Definition memcpy (dst : list Z) (off : Z) (src : list Z) (n : Z) : option (list Z) :=
  if (off <? 0) || (n <? 0) || (llen dst <? off + n) || (llen src <? n) then None
  else Some (take (Z.to_nat off) dst ++ take (Z.to_nat n) src ++ drop (Z.to_nat (off + n)) dst).

(** [zend_strnlen(s + off, maxlen)] *)
Fixpoint strnlen_loop (n : nat) (s : list Z) (i count : Z) : option Z :=
  match n with
  | O => Some count
  | S n => c ← lload s i; if c =? 0 then Some count else strnlen_loop n s (i + 1) (count + 1)
  end.
Definition zend_strnlen (s : list Z) (off maxlen : Z) : option Z :=
  strnlen_loop (Z.to_nat maxlen) s off 0.

(** * Mangled property names *)

Section Mangle.

(** The content of freshly allocated memory. *)
Context (heap_junk : Z -> Z).

Definition zend_string_alloc (len : Z) : list Z := heap_junk <$> zrange 0 (Z.to_nat (len + 1)).

Definition zend_mangle_property_name (src1 : list Z) (src1_length : Z) (src2 : list Z) (src2_length : Z)
    : option (list Z) :=
  let prop_name_length := 1 + src1_length + 1 + src2_length in
  let prop_name := zend_string_alloc prop_name_length in
  prop_name ← lstore prop_name 0 0;
  prop_name ← memcpy prop_name 1 src1 (src1_length + 1);
  memcpy prop_name (1 + src1_length + 1) src2 (src2_length + 1).

End Mangle.

Inductive notice := IllegalName | CorruptName.

(** The output parameters (offsets into [name]; [None] is [NULL]), the notice
    raised, and the result. *)
Record unmangled := mk_unmangled {
  um_class_name : option Z; um_prop_name : Z; um_prop_len : Z;
  um_notice : option notice; um_success : bool
}.

(** [name]: the bytes of the string with its terminator; [len]: its length. *)
Definition zend_unmangle_property_name_ex (name : list Z) (len : Z) : option unmangled :=
  starts ← (if len =? 0 then Some false else c ← lload name 0; Some (c =? 0));
  if negb starts then Some (mk_unmangled None 0 len None true)
  else
    illegal ← (if len <? 3 then Some true else c ← lload name 1; Some (c =? 0));
    if (illegal : bool) then Some (mk_unmangled None 0 len (Some IllegalName) false)
    else
      class_name_len ← zend_strnlen name 1 (len - 2);
      corrupt ← (if len - 2 <=? class_name_len then Some true
                 else c ← lload name (class_name_len + 1); Some (negb (c =? 0)));
      if (corrupt : bool) then Some (mk_unmangled None 0 len (Some CorruptName) false)
      else
        anonclass_src_len ← zend_strnlen name (1 + class_name_len + 1) (len - class_name_len - 2);
        let class_name_len :=
          if negb (class_name_len + anonclass_src_len + 2 =? len)
          then class_name_len + (anonclass_src_len + 1) else class_name_len in
        Some (mk_unmangled (Some 1) (class_name_len + 2) (len - class_name_len - 2) None true).

Definition nul_free (l : list Z) : Prop := Forall (fun c => c <> 0) l.

Lemma memcpy_app pre old post src rest n : llen old = n -> llen src = n ->
  memcpy (pre ++ old ++ post) (llen pre) (src ++ rest) n = Some (pre ++ src ++ post).
Proof.
  unfold llen. intros Ho Hs. unfold memcpy, llen. rewrite !length_app. zbool; try lia.
  rewrite take_app_length', (take_app_length' src) by lia. do 3 f_equal.
  rewrite app_assoc, drop_app_length'; [done|]. rewrite length_app. lia.
Qed.

(** Scanning the segment [c] of [pre ++ c ++ post]: either it is long enough or a terminator follows. *)
Lemma strnlen_short n c : forall pre post count, nul_free c -> (n <= length c)%nat ->
  strnlen_loop n (pre ++ c ++ post) (llen pre) count = Some (count + Z.of_nat n).
Proof.
  revert c. induction n as [|n IH]; intros [|x c] pre post count Hc Hn; cbn [length] in Hn; try lia;
    cbn [strnlen_loop]; [f_equal; lia|f_equal; lia|].
  apply Forall_cons in Hc as [Hx Hc]. cbn [app]. rewrite lload_middle. cbn.
  destruct (Z.eqb_spec x 0); [done|].
  replace (pre ++ x :: c ++ post) with ((pre ++ [x]) ++ c ++ post) by (by rewrite <- app_assoc).
  replace (llen pre + 1) with (llen (pre ++ [x])) by (rewrite llen_app; done).
  rewrite IH by (done || lia). f_equal. lia.
Qed.

Lemma strnlen_long n c : forall pre post count, nul_free c -> (length c < n)%nat ->
  strnlen_loop n (pre ++ c ++ 0 :: post) (llen pre) count = Some (count + llen c).
Proof.
  revert c. induction n as [|n IH]; intros c pre post count Hc Hn; [lia|].
  destruct c as [|x c]; cbn [strnlen_loop app].
  { rewrite lload_middle. cbn. f_equal. unfold llen. cbn. lia. }
  apply Forall_cons in Hc as [Hx Hc]. rewrite lload_middle. cbn.
  destruct (Z.eqb_spec x 0); [done|]. cbn [length] in Hn.
  replace (pre ++ x :: c ++ 0 :: post) with ((pre ++ [x]) ++ c ++ 0 :: post) by (by rewrite <- app_assoc).
  replace (llen pre + 1) with (llen (pre ++ [x])) by (rewrite llen_app; done).
  rewrite IH by (done || lia). f_equal. rewrite llen_cons. lia.
Qed.

Lemma nul_split l : nul_free l \/ exists c r, l = c ++ 0 :: r /\ nul_free c.
Proof.
  induction l as [|x l IH]; [by left; constructor|]. destruct (decide (x = 0)) as [->|Hx].
  - right. exists [], l. split; [done|constructor].
  - destruct IH as [IH|(c & r & -> & Hc)]; [by left; constructor|].
    right. exists (x :: c), r. split; [done|by constructor].
Qed.

Lemma nul_split_unique c r c' r' : nul_free c -> nul_free c' -> c ++ 0 :: r = c' ++ 0 :: r' -> c = c' /\ r = r'.
Proof.
  revert c'. induction c as [|x c IH]; intros [|x' c'] Hc Hc' Heq; cbn in Heq.
  - by injection Heq.
  - injection Heq as <- _. by apply Forall_cons in Hc' as [? _].
  - injection Heq as -> _. by apply Forall_cons in Hc as [? _].
  - injection Heq as -> Heq. apply Forall_cons in Hc as [_ Hc]. apply Forall_cons in Hc' as [_ Hc'].
    destruct (IH c' Hc Hc' Heq) as [-> ->]. done.
Qed.

(** What follows the class name: an anonymous class has a second part. *)
Definition prop_part (rest p : list Z) : Prop :=
  (nul_free rest /\ p = rest) \/ exists src, nul_free src /\ rest = src ++ 0 :: p.

Lemma prop_part_total rest : exists p, prop_part rest p.
Proof.
  destruct (nul_split rest) as [H|(c & r & -> & H)].
  - exists rest. by left.
  - exists r. right. by exists c.
Qed.

Lemma unmangle_mangled c rest p : c <> [] -> nul_free c -> rest <> [] -> prop_part rest p ->
  let name := 0 :: c ++ 0 :: rest in
  zend_unmangle_property_name_ex (name ++ [0]) (llen name) =
  Some (mk_unmangled (Some 1) (llen name - llen p) (llen p) None true).
Proof.
  intros Hc0 Hc Hr Hp name. unfold zend_unmangle_property_name_ex.
  assert (llen name = llen c + llen rest + 2) as Hlen by (unfold name; rewrite llen_cons, llen_app, llen_cons; lia).
  assert (0 < llen c) by (destruct c; [done|rewrite llen_cons; pose proof (llen_nonneg c); lia]).
  assert (0 < llen rest) by (destruct rest; [done|rewrite llen_cons; pose proof (llen_nonneg rest); lia]).
  destruct (Z.eqb_spec (llen name) 0); [lia|]. change (lload (name ++ [0]) 0) with (Some 0). cbn [mbind option_bind negb].
  destruct (Z.ltb_spec (llen name) 3); [lia|].
  assert (lload (name ++ [0]) 1 = c !! 0%nat) as ->.
  { destruct c as [|x c]; [done|]. reflexivity. }
  assert (exists x c', c = x :: c' /\ x <> 0) as (x & c' & -> & Hx).
  { destruct c as [|x c']; [done|]. exists x, c'. split; [done|]. by apply Forall_cons in Hc as [? _]. }
  cbn [lookup list_lookup mbind option_bind]. destruct (Z.eqb_spec x 0); [done|]. set (c := x :: c') in *.
  assert (name ++ [0] = [0] ++ c ++ 0 :: rest ++ [0]) as Hname.
  { unfold name. cbn [app]. rewrite <- !app_assoc. done. }
  assert (zend_strnlen (name ++ [0]) 1 (llen name - 2) = Some (llen c)) as ->.
  { rewrite Hname. apply (strnlen_long _ c [0]); [done|]. unfold llen in *. lia. }
  cbn [mbind option_bind]. destruct (Z.leb_spec (llen name - 2) (llen c)); [lia|]. rewrite Hname.
  replace (llen c + 1) with (llen ([0] ++ c)) by (rewrite llen_app; unfold llen at 1; cbn; lia).
  rewrite (app_assoc [0]), lload_middle. cbn [mbind option_bind negb Z.eqb]. unfold zend_strnlen.
  replace (([0] ++ c) ++ 0 :: rest ++ [0]) with (([0] ++ c ++ [0]) ++ rest ++ [0]) by (by rewrite <- !app_assoc).
  replace (1 + llen c + 1) with (llen ([0] ++ c ++ [0])) by (rewrite !llen_app; unfold llen at 1 3; cbn; lia).
  destruct Hp as [[Hf ->]|(src & Hs & Hrest)].
  - rewrite strnlen_short by (done || unfold llen in *; lia). cbn [mbind option_bind].
    clear Hname. clearbody name. zbool; [|lia]. f_equal; f_equal; lia.
  - replace (rest ++ [0]) with (src ++ 0 :: p ++ [0]) by (rewrite Hrest, <- app_assoc; done).
    assert (llen rest = llen src + 1 + llen p) by (rewrite Hrest, llen_app, llen_cons; lia).
    pose proof (llen_nonneg p).
    rewrite strnlen_long by (done || unfold llen in *; lia). cbn [mbind option_bind].
    clear Hname. clearbody name. zbool; [lia|]. f_equal; f_equal; lia.
Qed.

(** The strings that [zend_unmangle_property_name_ex] takes apart. *)
Definition mangled (name c p : list Z) : Prop :=
  exists rest, name = 0 :: c ++ 0 :: rest /\ c <> [] /\ nul_free c /\ rest <> [] /\ prop_part rest p.

Definition unmangle_failure (name : list Z) (n : notice) : unmangled :=
  mk_unmangled None 0 (llen name) (Some n) false.

Lemma unmangle_corrupt l : l <> [] -> head l <> Some 0 -> (2 <= length l)%nat ->
  (nul_free l \/ exists c, l = c ++ [0] /\ nul_free c) ->
  zend_unmangle_property_name_ex ((0 :: l) ++ [0]) (llen (0 :: l)) = Some (unmangle_failure (0 :: l) CorruptName).
Proof.
  intros Hl Hh Hlen Hcase. unfold zend_unmangle_property_name_ex.
  assert (llen (0 :: l) = 1 + llen l) as E by apply llen_cons.
  assert (2 <= llen l) by (unfold llen; lia).
  destruct (Z.eqb_spec (llen (0 :: l)) 0); [lia|]. change (lload ((0 :: l) ++ [0]) 0) with (Some 0).
  cbn [mbind option_bind negb Z.eqb]. destruct (Z.ltb_spec (llen (0 :: l)) 3); [lia|].
  assert (lload ((0 :: l) ++ [0]) 1 = head l) as -> by (by destruct l).
  destruct l as [|x l]; [done|]. cbn [head mbind option_bind]. destruct (Z.eqb_spec x 0); [by subst|].
  set (l' := x :: l) in *.
  assert (zend_strnlen ((0 :: l') ++ [0]) 1 (llen (0 :: l') - 2) = Some (llen (0 :: l') - 2)) as ->.
  { unfold zend_strnlen. destruct Hcase as [Hf|(c & Hc & Hf)].
    - change ((0 :: l') ++ [0]) with ([0] ++ l' ++ [0]). change 1 with (llen [0]).
      rewrite strnlen_short by (done || unfold llen in *; lia). f_equal. lia.
    - assert (llen l' = llen c + 1) by (rewrite Hc, llen_app; done).
      replace ((0 :: l') ++ [0]) with ([0] ++ c ++ [0; 0]) by (cbn [app]; rewrite Hc, <- app_assoc; done).
      change 1 with (llen [0]).
      rewrite strnlen_short by (done || unfold llen in *; lia). f_equal. lia. }
  cbn [mbind option_bind]. by rewrite Z.leb_refl.
Qed.

Lemma mangled_tail l c p : mangled (0 :: l) c p -> exists rest, l = c ++ 0 :: rest /\ nul_free c /\ c <> [] /\ rest <> [].
Proof. intros (rest & [= ->] & ? & ? & ? & _). by exists rest. Qed.

(** [zend_unmangle_property_name_ex] reads only inside the string and its
    terminator and classifies every byte string: a name that does not start
    with a NUL byte is its own property; a name of the form NUL class NUL
    property is taken apart (with the two-part names of anonymous classes);
    anything else is refused with the notice the code gives, and the output
    parameters then designate the whole string. *)
Theorem zend_unmangle_property_name_correct (name : list Z) :
  exists u, zend_unmangle_property_name_ex (name ++ [0]) (llen name) = Some u /\
    ((head name <> Some 0 /\ u = mk_unmangled None 0 (llen name) None true) \/
     (exists c p, mangled name c p /\ u = mk_unmangled (Some 1) (llen name - llen p) (llen p) None true) \/
     (head name = Some 0 /\ (forall c p, ~ mangled name c p) /\
      u = unmangle_failure name (if decide (llen name < 3 \/ name !! 1%nat = Some 0) then IllegalName else CorruptName))).
Proof.
  destruct name as [|x l].
  { eexists. split; [reflexivity|]. left. done. }
  destruct (decide (x = 0)) as [->|Hx]; last first.
  { eexists. split; [|left; split; [by intros [= ?]|reflexivity]]. unfold zend_unmangle_property_name_ex.
    assert (llen (x :: l) <> 0) by (rewrite llen_cons; pose proof (llen_nonneg l); lia).
    destruct (Z.eqb_spec (llen (x :: l)) 0); [done|]. change (lload ((x :: l) ++ [0]) 0) with (Some x). cbn.
    by destruct (Z.eqb_spec x 0). }
  destruct (decide (llen (0 :: l) < 3 \/ (0 :: l) !! 1%nat = Some 0)) as [Hi|Hi].
  { eexists. split; [|right; right; split; [done|split; [|reflexivity]]].
    - unfold zend_unmangle_property_name_ex.
      assert (llen (0 :: l) <> 0) by (rewrite llen_cons; pose proof (llen_nonneg l); lia).
      destruct (Z.eqb_spec (llen (0 :: l)) 0); [done|]. change (lload ((0 :: l) ++ [0]) 0) with (Some 0).
      cbn [mbind option_bind negb Z.eqb]. destruct (Z.ltb_spec (llen (0 :: l)) 3); [done|].
      destruct Hi as [|Hi]; [lia|]. destruct l as [|y l]; [done|]. cbn in Hi. injection Hi as ->. done.
    - intros c p Hm. destruct (mangled_tail _ _ _ Hm) as (rest & -> & Hf & Hc & Hr). destruct Hi as [Hi|Hi].
      + rewrite llen_cons, llen_app, llen_cons in Hi. destruct c, rest; try done.
        rewrite !llen_cons in Hi. pose proof (llen_nonneg c). pose proof (llen_nonneg rest). lia.
      + destruct c as [|y c]; [done|]. cbn in Hi. apply Forall_cons in Hf as [Hy _]. congruence. }
  assert (2 <= length l)%nat by (rewrite llen_cons in Hi; unfold llen in Hi; lia).
  assert (head l <> Some 0) by (destruct l; cbn in *; tauto).
  destruct (nul_split l) as [Hf|(c & r & -> & Hf)].
  { eexists. split; [apply unmangle_corrupt; try done; [intros ->; cbn in *; lia|by left]|].
    right; right. split; [done|]. split; [|done]. intros c p Hm.
    destruct (mangled_tail _ _ _ Hm) as (rest & -> & _). apply Forall_app in Hf as [_ Hf].
    by apply Forall_cons in Hf as [? _]. }
  assert (c <> []) by (by intros ->). destruct (decide (r = [])) as [->|Hr].
  { eexists. split; [apply unmangle_corrupt; try done; [by destruct c|right; by exists c]|].
    right; right. split; [done|]. split; [|done]. intros c' p Hm.
    destruct (mangled_tail _ _ _ Hm) as (rest & Heq & Hf' & _ & Hr').
    by destruct (nul_split_unique _ _ _ _ Hf Hf' Heq) as [_ <-]. }
  destruct (prop_part_total r) as [p Hp]. eexists. split; [by apply unmangle_mangled|].
  right; left. exists c, p. split; [by exists r|reflexivity].
Qed.

Lemma llen_string_alloc junk n : 0 <= n -> llen (zend_string_alloc junk n) = n + 1.
Proof. intros. unfold zend_string_alloc, llen. rewrite length_fmap, length_zrange. lia. Qed.

(** [src1] and [src2] point into larger buffers, each followed by a NUL byte. *)
Lemma mangle_result junk c p after1 after2 :
  zend_mangle_property_name junk (c ++ 0 :: after1) (llen c) (p ++ 0 :: after2) (llen p) =
  Some (0 :: c ++ 0 :: p ++ [0]).
Proof.
  unfold zend_mangle_property_name. pose proof (llen_nonneg c). pose proof (llen_nonneg p).
  pose proof (llen_string_alloc junk (1 + llen c + 1 + llen p) ltac:(lia)) as Hl.
  set (b := zend_string_alloc _ _) in *. clearbody b. destruct b as [|b0 b]; [unfold llen in Hl; cbn in Hl; lia|].
  change (lstore (b0 :: b) 0 0) with (lstore ([] ++ b0 :: b) (llen (@nil Z)) 0). rewrite lstore_middle. cbn [mbind option_bind app].
  rewrite llen_cons in Hl.
  set (b1 := take (Z.to_nat (llen c + 1)) b). set (b2 := drop (Z.to_nat (llen c + 1)) b).
  assert (llen b1 = llen c + 1) as Hb1 by (unfold b1, llen in *; rewrite length_take; lia).
  assert (llen b2 = llen p + 1) as Hb2 by (unfold b2, llen in *; rewrite length_drop; lia).
  replace (0 :: b) with ([0] ++ b1 ++ b2) by (unfold b1, b2; rewrite take_drop; done).
  replace (c ++ 0 :: after1) with ((c ++ [0]) ++ after1) by (rewrite <- app_assoc; done).
  change (memcpy ([0] ++ b1 ++ b2) 1) with (memcpy ([0] ++ b1 ++ b2) (llen [0])).
  rewrite memcpy_app by (rewrite ?llen_app; done). cbn [mbind option_bind].
  replace ([0] ++ (c ++ [0]) ++ b2) with (([0] ++ c ++ [0]) ++ b2 ++ []) by (rewrite app_nil_r, <- !app_assoc; done).
  replace (1 + llen c + 1) with (llen ([0] ++ c ++ [0])) by (rewrite !llen_app; unfold llen at 1 3; cbn; lia).
  replace (p ++ 0 :: after2) with ((p ++ [0]) ++ after2) by (rewrite <- app_assoc; done).
  rewrite memcpy_app by (rewrite ?llen_app; done). by rewrite app_nil_r, <- !app_assoc.
Qed.

(** C32: mangling and taking apart are inverse.  For a class name (possibly the
    two-part name of an anonymous class) and a non-empty property name without
    NUL bytes, [zend_mangle_property_name] stays inside the memory it allocates
    and builds a terminated string, from which
    [zend_unmangle_property_name_ex] recovers the property and a class name
    that reads, as a C string, as the part before the first NUL. *)
Theorem zend_mangle_unmangle junk c src p after1 after2 :
  c <> [] -> nul_free c -> nul_free p -> p <> [] -> (src = [] \/ exists s, src = 0 :: s /\ nul_free s) ->
  let cls := c ++ src in
  exists name, zend_mangle_property_name junk (cls ++ 0 :: after1) (llen cls) (p ++ 0 :: after2) (llen p) = Some (name ++ [0]) /\
    llen name = llen cls + llen p + 2 /\
    exists off, zend_unmangle_property_name_ex (name ++ [0]) (llen name) =
        Some (mk_unmangled (Some 1) off (llen p) None true) /\
      drop (Z.to_nat off) name = p /\
      zend_strnlen (name ++ [0]) 1 (llen name) = Some (llen c) /\ take (length c) (drop 1 name) = c.
Proof.
  intros Hc0 Hc Hp Hp0 Hsrc cls. exists (0 :: cls ++ 0 :: p). split.
  { rewrite mangle_result. cbn [app]. rewrite <- !app_assoc. done. }
  split; [rewrite llen_cons, llen_app, llen_cons; lia|].
  set (rest := match src with [] => p | _ :: s => s ++ 0 :: p end).
  assert (0 :: cls ++ 0 :: p = 0 :: c ++ 0 :: rest) as Hname.
  { unfold cls, rest. destruct Hsrc as [->|(s & -> & _)]; [by rewrite app_nil_r|]. rewrite <- !app_assoc. done. }
  assert (prop_part rest p) as Hpart.
  { unfold rest. destruct Hsrc as [->|(s & -> & Hs)]; [by left|]. right. by exists s. }
  exists (llen (0 :: cls ++ 0 :: p) - llen p). split.
  { rewrite Hname. apply unmangle_mangled; try done. unfold rest. destruct src as [|? [|]]; done. }
  split.
  { replace (0 :: cls ++ 0 :: p) with ((0 :: cls ++ [0]) ++ p) by (cbn [app]; rewrite <- app_assoc; done).
    apply drop_app_length'. rewrite llen_app. unfold llen. lia. }
  rewrite Hname. split.
  - replace ((0 :: c ++ 0 :: rest) ++ [0]) with ([0] ++ c ++ 0 :: rest ++ [0]) by (cbn [app]; rewrite <- !app_assoc; done).
    apply (strnlen_long _ c [0]); [done|]. rewrite llen_cons, llen_app. unfold llen. lia.
  - cbn [drop]. by apply take_app_length'.
Qed.

(** * Directory names *)

Definition DEFAULT_SLASH : Z := 47.
Definition IS_SLASH (c : Z) : bool := c =? 47.

(** [while (end >= path && test( *end)) end--;] with [end] as an index. *)
Fixpoint scan_end (n : nat) (test : Z -> bool) (path : list Z) (e : Z) : option Z :=
  if e <? 0 then Some e
  else match n with
       | O => None
       | S n => c ← lload path e; if test c then scan_end n test path (e - 1) else Some e
       end.

(** The two-byte results "/" and ".": new buffer and length. *)
Definition dirname_short (path : list Z) (c : Z) : option (list Z * Z) :=
  path ← lstore path 0 c;
  path ← lstore path 1 0;
  Some (path, 1).

(** [path] is a mutable buffer; [None]: an access outside of it. *)
Definition zend_dirname (path : list Z) (len : Z) : option (list Z * Z) :=
  if len =? 0 then Some (path, 0)
  else
    let n := Z.to_nat len in
    e ← scan_end n IS_SLASH path (len - 1);
    if e <? 0 then dirname_short path DEFAULT_SLASH
    else
      e ← scan_end n (fun c => negb (IS_SLASH c)) path e;
      if e <? 0 then dirname_short path 46
      else
        e ← scan_end n IS_SLASH path e;
        if e <? 0 then dirname_short path DEFAULT_SLASH
        else
          path ← lstore path (e + 1) 0;
          Some (path, e + 1).

Definition slashes (l : list Z) : Prop := Forall (fun c => c = 47) l.
Definition no_slash (l : list Z) : Prop := Forall (fun c => c <> 47) l.

(** The directory of a path, by the shape of the path. *)
Inductive dirname_of : list Z -> list Z -> Prop :=
| dirname_root s : slashes s -> s <> [] -> dirname_of s [47]
| dirname_here base s : no_slash base -> base <> [] -> slashes s -> dirname_of (base ++ s) [46]
| dirname_top s1 base s2 : slashes s1 -> s1 <> [] -> no_slash base -> base <> [] -> slashes s2 ->
    dirname_of (s1 ++ base ++ s2) [47]
| dirname_dir d c s1 base s2 : c <> 47 -> slashes s1 -> s1 <> [] -> no_slash base -> base <> [] -> slashes s2 ->
    dirname_of (d ++ [c] ++ s1 ++ base ++ s2) (d ++ [c]).

(** Scanning back over a segment whose characters pass the test, down to one that fails or the start. *)
Lemma scan_end_segment test seg : forall n pre post, (length pre + length seg <= n)%nat ->
  Forall (fun c => test c = true) seg -> (pre = [] \/ exists d c, pre = d ++ [c] /\ test c = false) ->
  scan_end n test (pre ++ seg ++ post) (llen pre + llen seg - 1) = Some (llen pre - 1).
Proof.
  induction seg as [|x seg IH] using rev_ind; intros n pre post Hn Hs Hpre.
  - unfold llen at 2. cbn [length]. rewrite Z.add_0_r. cbn [app]. destruct Hpre as [->|(d & c & -> & Hc)].
    + destruct n; reflexivity.
    + rewrite llen_app. unfold llen at 2. cbn [length Z.of_nat]. change (Z.of_nat 1) with 1.
      replace (llen d + 1 - 1) with (llen d) by lia. rewrite !length_app in Hn. cbn [length] in Hn.
      destruct n as [|n]; [lia|]. cbn [scan_end]. destruct (Z.ltb_spec (llen d) 0); [pose proof (llen_nonneg d); lia|].
      rewrite <- app_assoc. cbn [app]. rewrite lload_middle. cbn. rewrite Hc. f_equal. unfold llen. cbn [length]. lia.
  - apply Forall_app in Hs as [Hs Hx]. apply Forall_cons in Hx as [Hx _]. rewrite length_app in Hn. cbn in Hn.
    rewrite llen_app. change (llen [x]) with 1. destruct n as [|n]; [lia|]. cbn [scan_end].
    replace (llen pre + (llen seg + 1) - 1) with (llen (pre ++ seg)) by (rewrite llen_app; lia).
    destruct (Z.ltb_spec (llen (pre ++ seg)) 0); [pose proof (llen_nonneg (pre ++ seg)); lia|].
    replace (pre ++ (seg ++ [x]) ++ post) with ((pre ++ seg) ++ x :: post) by (rewrite <- !app_assoc; done).
    rewrite lload_middle. cbn [mbind option_bind]. rewrite Hx, <- app_assoc, llen_app. apply IH; [lia|done|done].
Qed.

(** Every list ends in a maximal segment of characters that pass the test. *)
Lemma split_end (test : Z -> bool) l : exists pre seg, l = pre ++ seg /\ Forall (fun c => test c = true) seg /\
  (pre = [] \/ exists d c, pre = d ++ [c] /\ test c = false).
Proof.
  induction l as [|x l IH] using rev_ind.
  - exists [], []. split; [done|]. split; [constructor|by left].
  - destruct (test x) eqn:Hx.
    + destruct IH as (pre & seg & -> & Hs & Hp). exists pre, (seg ++ [x]). split; [by rewrite app_assoc|].
      split; [|done]. apply Forall_app. split; [done|by constructor].
    + exists (l ++ [x]), []. split; [by rewrite app_nil_r|]. split; [constructor|]. right. by exists l, x.
Qed.

Lemma slashes_test s : Forall (fun c => IS_SLASH c = true) s <-> slashes s.
Proof. apply Forall_iff. intros c. unfold IS_SLASH. apply Z.eqb_eq. Qed.

Lemma no_slash_test s : Forall (fun c => negb (IS_SLASH c) = true) s <-> no_slash s.
Proof. apply Forall_iff. intros c. unfold IS_SLASH. destruct (Z.eqb_spec c 47); cbn; split; congruence. Qed.

Lemma dirname_short_ok (path : list Z) c x : path <> [] ->
  exists rest, dirname_short (path ++ [x]) c = Some ([c] ++ 0 :: rest, 1).
Proof.
  destruct path as [|a path]; [done|]. intros _. unfold dirname_short.
  change (lstore ((a :: path) ++ [x]) 0 c) with (lstore ([] ++ a :: path ++ [x]) (llen (@nil Z)) c).
  rewrite lstore_middle. cbn [mbind option_bind app].
  destruct (path ++ [x]) as [|b q] eqn:E; [by destruct path|].
  change (lstore (c :: b :: q) 1 0) with (lstore ([c] ++ b :: q) (llen [c]) 0). rewrite lstore_middle. by exists q.
Qed.

(** [zend_dirname] stays inside the buffer of a non-empty path and its
    terminator, terminates, and leaves in the buffer the NUL-terminated
    directory of the path, whose length it returns. *)
Theorem zend_dirname_correct (s : list Z) : s <> [] ->
  exists d rest, zend_dirname (s ++ [0]) (llen s) = Some (d ++ 0 :: rest, llen d) /\ dirname_of s d.
Proof.
  intros Hs0. unfold zend_dirname.
  assert (0 < llen s) as Hpos by (destruct s; [done|rewrite llen_cons; pose proof (llen_nonneg s); lia]).
  destruct (Z.eqb_spec (llen s) 0); [lia|].
  destruct (split_end IS_SLASH s) as (p1 & s2 & Hs & Hs2 & Hp1).
  assert (llen s = llen p1 + llen s2) as Hlen by (by rewrite Hs, llen_app).
  rewrite Hlen, Hs, <- !app_assoc, scan_end_segment by (done || unfold llen in *; lia). cbn [mbind option_bind].
  apply slashes_test in Hs2. destruct Hp1 as [->|(d1 & c1 & -> & Hc1)].
  { cbn [app] in *. subst s2. destruct (dirname_short_ok s DEFAULT_SLASH 0 Hs0) as [rest Hd].
    exists [47], rest. split; [exact Hd|]. by constructor. }
  set (p1 := d1 ++ [c1]) in *.
  assert (llen p1 = llen d1 + 1) as Hl1 by (unfold p1; by rewrite llen_app). pose proof (llen_nonneg d1).
  destruct (Z.ltb_spec (llen p1 - 1) 0); [lia|].
  destruct (split_end (fun c => negb (IS_SLASH c)) p1) as (p2 & base & Hp & Hb & Hp2).
  assert (llen p1 = llen p2 + llen base) as Hl2 by (by rewrite Hp, llen_app).
  assert (base <> []) as Hb0.
  { intros ->. rewrite app_nil_r in Hp. destruct Hp2 as [->|(d & c & -> & Hc)].
    - destruct d1; done.
    - unfold p1 in Hp. apply app_inj_tail in Hp as [_ <-]. by rewrite Hc1 in Hc. }
  rewrite Hl2, Hp, <- !app_assoc, scan_end_segment by (done || unfold llen in *; lia). cbn [mbind option_bind].
  apply no_slash_test in Hb. destruct Hp2 as [->|(d2 & c2 & -> & Hc2)].
  { cbn [app] in *. destruct (dirname_short_ok (base ++ s2) 46 0) as [rest Hd]; [by destruct base|].
    rewrite <- app_assoc in Hd. exists [46], rest. split; [exact Hd|]. by constructor. }
  set (p2 := d2 ++ [c2]) in *.
  assert (llen p2 = llen d2 + 1) as Hl3 by (unfold p2; by rewrite llen_app). pose proof (llen_nonneg d2).
  destruct (Z.ltb_spec (llen p2 - 1) 0); [lia|].
  destruct (split_end IS_SLASH p2) as (p3 & s1 & Hp' & Hs1 & Hp3).
  assert (llen p2 = llen p3 + llen s1) as Hl4 by (by rewrite Hp', llen_app).
  assert (s1 <> []) as Hs10.
  { intros ->. rewrite app_nil_r in Hp'. destruct Hp3 as [->|(d & c & -> & Hc)].
    - destruct d2; done.
    - unfold p2 in Hp'. apply app_inj_tail in Hp' as [_ <-]. rewrite Hc in Hc2. done. }
  rewrite Hl4, Hp', <- !app_assoc, scan_end_segment by (done || unfold llen in *; lia). cbn [mbind option_bind].
  apply slashes_test in Hs1. destruct Hp3 as [->|(d3 & c3 & -> & Hc3)].
  { cbn [app] in *. destruct (dirname_short_ok (s1 ++ base ++ s2) DEFAULT_SLASH 0) as [rest Hd]; [by intros [? _]%app_nil|].
    rewrite <- !app_assoc in Hd. exists [47], rest. split; [exact Hd|].
    by constructor. }
  set (p3 := d3 ++ [c3]) in *.
  assert (llen p3 = llen d3 + 1) as Hl5 by (unfold p3; by rewrite llen_app). pose proof (llen_nonneg d3).
  destruct (Z.ltb_spec (llen p3 - 1) 0); [lia|]. replace (llen p3 - 1 + 1) with (llen p3) by lia.
  destruct s1 as [|x s1]; [done|]. cbn [app]. rewrite lstore_middle. cbn [mbind option_bind].
  eexists p3, _. split; [reflexivity|]. unfold p3. rewrite <- !app_assoc.
  apply (dirname_dir d3 c3 (x :: s1) base s2); try done. unfold IS_SLASH in Hc3. by apply Z.eqb_neq in Hc3.
Qed.

(** * Reserved class names *)

(** [zend_tolower_map] *)
Definition zend_tolower_ascii (c : Z) : Z := if (65 <=? c) && (c <=? 90) then c + 32 else c.

(** [zend_binary_strcasecmp] on two different buffers; only its sign is used. *)
Fixpoint zend_binary_strcasecmp_loop (s1 s2 : list Z) : option Z :=
  match s1, s2 with
  | a :: s1, b :: s2 =>
      let c1 := zend_tolower_ascii a in let c2 := zend_tolower_ascii b in
      if negb (c1 =? c2) then Some (c1 - c2) else zend_binary_strcasecmp_loop s1 s2
  | _, _ => None
  end.
Definition ZEND_THREEWAY_COMPARE (a b : Z) : Z := if a =? b then 0 else if a <? b then -1 else 1.
Definition zend_binary_strcasecmp (s1 s2 : list Z) : Z :=
  match zend_binary_strcasecmp_loop s1 s2 with
  | Some d => d
  | None => ZEND_THREEWAY_COMPARE (llen s1) (llen s2)
  end.

(** [zend_memrchr]: the last position of [c] in the first [n] bytes. *)
Fixpoint zend_memrchr (s : list Z) (c : Z) (n : nat) : option Z :=
  match n with
  | O => None
  | S n => if lget 0 s (Z.of_nat n) =? c then Some (Z.of_nat n) else zend_memrchr s c n
  end.

(** The part after the last backslash, when there is one. *)
Definition zend_get_unqualified_name (name : list Z) : option (list Z) :=
  match zend_memrchr name 92 (length name) with
  | Some ns_separator => Some (drop (Z.to_nat (ns_separator + 1)) name)
  | None => None
  end.

Definition reserved_class_names : list (list Z) :=
  [[98; 111; 111; 108]; [102; 97; 108; 115; 101]; [102; 108; 111; 97; 116]; [105; 110; 116]; [110; 117; 108; 108];
   [112; 97; 114; 101; 110; 116]; [115; 101; 108; 102]; [115; 116; 97; 116; 105; 99]; [115; 116; 114; 105; 110; 103];
   [116; 114; 117; 101]; [118; 111; 105; 100]; [110; 101; 118; 101; 114]; [105; 116; 101; 114; 97; 98; 108; 101];
   [111; 98; 106; 101; 99; 116]; [109; 105; 120; 101; 100]; [97; 114; 114; 97; 121]; [99; 97; 108; 108; 97; 98; 108; 101]].

Fixpoint reserved_loop (uqname : list Z) (reserved : list (list Z)) : bool :=
  match reserved with
  | [] => false
  | r :: reserved =>
      if (llen uqname =? llen r) && (zend_binary_strcasecmp uqname r =? 0) then true
      else reserved_loop uqname reserved
  end.

Definition zend_is_reserved_class_name (name : list Z) : bool :=
  let uqname := default name (zend_get_unqualified_name name) in
  reserved_loop uqname reserved_class_names.

(** The last component of a qualified name. *)
Definition last_component (name c : list Z) : Prop :=
  Forall (fun x => x <> 92) c /\ (name = c \/ exists ns, name = ns ++ 92 :: c).

Lemma strcasecmp_zero s1 s2 : length s1 = length s2 ->
  zend_binary_strcasecmp s1 s2 = 0 <-> zend_tolower_ascii <$> s1 = zend_tolower_ascii <$> s2.
Proof.
  unfold zend_binary_strcasecmp. intros Hl.
  assert (llen s1 = llen s2) as -> by (unfold llen; lia). unfold ZEND_THREEWAY_COMPARE. rewrite Z.eqb_refl.
  revert s2 Hl. induction s1 as [|a s1 IH]; intros [|b s2] Hl; try done. cbn in Hl. cbn [zend_binary_strcasecmp_loop fmap list_fmap].
  destruct (Z.eqb_spec (zend_tolower_ascii a) (zend_tolower_ascii b)) as [E|E]; cbn [negb].
  - rewrite IH by lia. rewrite E. split; [by intros ->|by intros [= ->]].
  - split; [intros; lia|]. by intros [= ?].
Qed.

Lemma memrchr_spec c s n : (n <= length s)%nat ->
  match zend_memrchr s c n with
  | Some i => exists a b, take n s = a ++ c :: b /\ i = llen a /\ Forall (fun x => x <> c) b
  | None => Forall (fun x => x <> c) (take n s)
  end.
Proof.
  induction n as [|n IH]; intros Hn; cbn [zend_memrchr]; [constructor|].
  destruct (lookup_lt_is_Some_2 s n) as [x Hx]; [lia|]. rewrite (take_S_r _ _ _ Hx).
  assert (lget 0 s (Z.of_nat n) = x) as -> by (unfold lget; by rewrite Nat2Z.id, Hx).
  destruct (Z.eqb_spec x c) as [->|Hc].
  - exists (take n s), []. split; [done|]. split; [unfold llen; rewrite length_take; lia|constructor].
  - specialize (IH ltac:(lia)). destruct (zend_memrchr s c n) as [i|].
    + destruct IH as (a & b & -> & -> & Hb). exists a, (b ++ [x]). rewrite <- app_assoc. split; [done|]. split; [done|].
      apply Forall_app. split; [done|by constructor].
    + apply Forall_app. split; [done|by constructor].
Qed.

Lemma unqualified_spec name : last_component name (default name (zend_get_unqualified_name name)).
Proof.
  unfold zend_get_unqualified_name. pose proof (memrchr_spec 92 name (length name) ltac:(lia)) as H.
  destruct (zend_memrchr _ _ _) as [i|]; rewrite firstn_all in H.
  - destruct H as (a & b & -> & -> & Hb). cbn [default from_option id].
    replace (drop _ _) with b; [split; [done|right; by exists a]|].
    replace (a ++ 92 :: b) with ((a ++ [92]) ++ b) by (by rewrite <- app_assoc).
    symmetry. apply drop_app_length'. rewrite length_app. unfold llen. cbn [length]. lia.
  - split; [done|by left].
Qed.

Lemma reserved_loop_spec u l :
  reserved_loop u l = true <-> exists r, r ∈ l /\ zend_tolower_ascii <$> u = zend_tolower_ascii <$> r.
Proof.
  induction l as [|r l IH]; cbn [reserved_loop].
  { split; [done|]. by intros (r & Hr%elem_of_nil & _). }
  destruct (Z.eqb_spec (llen u) (llen r)) as [El|El].
  - assert (length u = length r) as El' by (unfold llen in El; lia). pose proof (strcasecmp_zero u r El') as Hs. cbn [andb].
    destruct (Z.eqb_spec (zend_binary_strcasecmp u r) 0) as [E|E].
    + split; [|done]. intros _. exists r. split; [by left|tauto].
    + rewrite IH. split; intros (r' & Hin & Heq); [exists r'; split; [by right|done]|].
      apply elem_of_cons in Hin as [->|Hin]; [tauto|]. by exists r'.
  - cbn [andb]. rewrite IH. split; intros (r' & Hin & Heq); [exists r'; split; [by right|done]|].
    apply elem_of_cons in Hin as [->|Hin]; [|by exists r']. apply (f_equal length) in Heq.
    rewrite !length_fmap in Heq. unfold llen in El. lia.
Qed.

(** a class name is reserved exactly when its last namespace component
    is, up to the case of ASCII letters, one of the reserved names. *)
Theorem zend_is_reserved_class_name_correct (name : list Z) :
  exists c, last_component name c /\
    (zend_is_reserved_class_name name = true <->
     exists r, r ∈ reserved_class_names /\ zend_tolower_ascii <$> c = r).
Proof.
  eexists. split; [apply unqualified_spec|]. unfold zend_is_reserved_class_name. rewrite reserved_loop_spec.
  assert (forall r, r ∈ reserved_class_names -> zend_tolower_ascii <$> r = r) as Hr.
  { apply Forall_forall. vm_compute. repeat constructor. }
  split; intros (r & Hin & Heq); exists r; (split; [done|]).
  - by rewrite Heq, Hr.
  - by rewrite Heq, Hr.
Qed.

(** * Argument flags *)

Definition MAX_ARG_FLAG_NUM : Z := 12.
Definition _ZEND_SEND_MODE_SHIFT : Z := 25.
Definition ZEND_ARG_SEND_MODE (type_mask : Z) : Z := Z.land (Z.shiftr type_mask _ZEND_SEND_MODE_SHIFT) 3.

(** The fields of [zend_function] involved: [quick_arg_flags] overlays the type
    byte and [arg_flags]; [arg_info] lists the type masks, [None] is [NULL]. *)
Record zend_function := mk_zend_function {
  quick_arg_flags : Z; num_args : Z; fn_variadic : bool; arg_info : option (list Z)
}.
Definition set_quick_arg_flags x f := mk_zend_function x (num_args f) (fn_variadic f) (arg_info f).

Definition ZEND_SET_ARG_FLAG (f : zend_function) (arg_num mask : Z) : zend_function :=
  set_quick_arg_flags (Z.lor (quick_arg_flags f) (u32 (Z.shiftl (u32 (Z.shiftl mask 6)) (arg_num * 2)))) f.
Definition ZEND_CHECK_ARG_FLAG (f : zend_function) (arg_num mask : Z) : Z :=
  Z.land (Z.shiftr (quick_arg_flags f) ((arg_num + 3) * 2)) mask.

(** [while (i < n) { ZEND_SET_ARG_FLAG(func, i + 1, mode(i)); i++; }] *)
Fixpoint set_flags_loop (n : nat) (i : Z) (mode : Z -> Z) (f : zend_function) : zend_function :=
  match n with
  | O => f
  | S n => set_flags_loop n (i + 1) mode (ZEND_SET_ARG_FLAG f (i + 1) (mode i))
  end.

Definition send_mode (infos : list Z) (i : Z) : Z := ZEND_ARG_SEND_MODE (lget 0 infos i).

Definition zend_set_function_arg_flags (f : zend_function) : zend_function :=
  let f := set_quick_arg_flags (Z.land (quick_arg_flags f) 255) f in
  match arg_info f with
  | None => f
  | Some infos =>
      let n := Z.min (num_args f) MAX_ARG_FLAG_NUM in
      let f := set_flags_loop (Z.to_nat n) 0 (send_mode infos) f in
      let pass_by_reference := send_mode infos n in
      if fn_variadic f && negb (pass_by_reference =? 0)
      then set_flags_loop (Z.to_nat (MAX_ARG_FLAG_NUM - n)) n (fun _ => pass_by_reference) f else f
  end.

(** The general check, from the argument information. *)
Definition zend_check_arg_send_type (f : zend_function) (infos : list Z) (arg_num mask : Z) : bool :=
  let arg_num := arg_num - 1 in
  if num_args f <=? arg_num then
    if fn_variadic f then negb (Z.land (send_mode infos (num_args f)) mask =? 0) else false
  else negb (Z.land (send_mode infos arg_num) mask =? 0).

Lemma testbit_small m i : 0 <= m < 4 -> 2 <= i -> Z.testbit m i = false.
Proof.
  intros Hm Hi. rewrite Z.testbit_eqb by lia. rewrite Z.div_small; [done|].
  assert (2 ^ 2 <= 2 ^ i) by (apply Z.pow_le_mono_r; lia). lia.
Qed.

Lemma shl_2 m k : 0 <= m < 4 -> 0 <= k <= 30 -> 0 <= Z.shiftl m k < 2 ^ 32.
Proof.
  intros Hm Hk. rewrite Z.shiftl_mul_pow2 by lia. assert (0 < 2 ^ k <= 2 ^ 30).
  { split; [lia|]. apply Z.pow_le_mono_r; lia. } nia.
Qed.

(** The two-bit field of an argument after setting one. *)
Lemma field_set f m a b : 0 <= m < 4 -> 1 <= a <= 12 -> 1 <= b <= 12 ->
  ZEND_CHECK_ARG_FLAG (ZEND_SET_ARG_FLAG f b m) a 3 =
  if decide (a = b) then Z.lor (ZEND_CHECK_ARG_FLAG f a 3) m else ZEND_CHECK_ARG_FLAG f a 3.
Proof.
  intros Hm Ha Hb. unfold ZEND_CHECK_ARG_FLAG, ZEND_SET_ARG_FLAG. cbn [quick_arg_flags set_quick_arg_flags].
  rewrite (u32_small (Z.shiftl m 6)) by (apply shl_2; lia).
  rewrite Z.shiftl_shiftl by lia. rewrite u32_small by (apply shl_2; lia).
  replace ((a + 3) * 2) with (2 * a + 6) by lia.
  apply Z.bits_inj'. intros i Hi. change 3 with (Z.ones 2).
  destruct (Z.ltb_spec i 2) as [Hi2|Hi2].
  - destruct (decide (a = b)) as [<-|Hab];
      rewrite ?Z.lor_spec, !Z.land_spec, Z.shiftr_spec, Z.lor_spec, Z.shiftl_spec, Z.ones_spec_low by lia.
    + rewrite Z.shiftr_spec by lia. rewrite !andb_true_r. do 2 f_equal. lia.
    + rewrite Z.shiftr_spec by lia. rewrite !andb_true_r. destruct (Z.ltb_spec a b).
      * rewrite (Z.testbit_neg_r m) by lia. by rewrite orb_false_r.
      * rewrite (testbit_small m) by lia. by rewrite orb_false_r.
  - rewrite Z.land_spec, Z.ones_spec_high, andb_false_r by lia.
    destruct (decide (a = b)); rewrite ?Z.lor_spec, Z.land_spec, Z.ones_spec_high, andb_false_r by lia; [|done].
    by rewrite (testbit_small m).
Qed.

Lemma field_set_loop mode n : forall i f a, (forall k, 0 <= mode k < 4) -> 0 <= i -> i + Z.of_nat n <= 12 -> 1 <= a <= 12 ->
  ZEND_CHECK_ARG_FLAG (set_flags_loop n i mode f) a 3 =
  if decide (i < a <= i + Z.of_nat n) then Z.lor (ZEND_CHECK_ARG_FLAG f a 3) (mode (a - 1)) else ZEND_CHECK_ARG_FLAG f a 3.
Proof.
  induction n as [|n IH]; intros i f a Hm Hi Hn Ha; cbn [set_flags_loop].
  { destruct (decide _); [lia|done]. }
  rewrite IH by (done || lia). rewrite field_set by (done || lia).
  destruct (decide (i + 1 < a <= i + 1 + Z.of_nat n)), (decide (i < a <= i + Z.of_nat (S n))), (decide (a = i + 1));
    try lia; try done. f_equal. f_equal. lia.
Qed.

Lemma set_flags_loop_fields mode n : forall i f,
  num_args (set_flags_loop n i mode f) = num_args f /\ fn_variadic (set_flags_loop n i mode f) = fn_variadic f /\
  arg_info (set_flags_loop n i mode f) = arg_info f.
Proof.
  induction n as [|n IH]; intros i f; cbn [set_flags_loop]; [done|].
  destruct (IH (i + 1) (ZEND_SET_ARG_FLAG f (i + 1) (mode i))) as (-> & -> & ->). done.
Qed.

Lemma land_3_range x : 0 <= Z.land x 3 < 4.
Proof. change 3 with (Z.ones 2). rewrite Z.land_ones by lia. apply Z.mod_pos_bound. lia. Qed.

Lemma check_mask f a mask : 0 <= mask < 4 ->
  ZEND_CHECK_ARG_FLAG f a mask = Z.land (ZEND_CHECK_ARG_FLAG f a 3) mask.
Proof.
  intros Hm. unfold ZEND_CHECK_ARG_FLAG. rewrite <- Z.land_assoc. f_equal.
  rewrite Z.land_comm. change 3 with (Z.ones 2). rewrite Z.land_ones by lia. symmetry. by apply Z.mod_small.
Qed.

(** after [zend_set_function_arg_flags] the quick check of one of the
    first twelve arguments agrees with the general check of the argument
    information, for fixed and variadic functions alike. *)
Theorem zend_set_function_arg_flags_correct (f : zend_function) infos arg_num mask :
  arg_info f = Some infos -> 0 <= num_args f -> 1 <= arg_num <= MAX_ARG_FLAG_NUM -> 0 <= mask < 4 ->
  negb (ZEND_CHECK_ARG_FLAG (zend_set_function_arg_flags f) arg_num mask =? 0) =
  zend_check_arg_send_type f infos arg_num mask.
Proof.
  unfold MAX_ARG_FLAG_NUM. intros Hinfo Hnum Ha Hmask. rewrite check_mask by done.
  unfold zend_set_function_arg_flags. cbn zeta. set (f0 := set_quick_arg_flags _ f).
  change (arg_info f0) with (arg_info f). rewrite Hinfo. change (num_args f0) with (num_args f).
  set (n := Z.min (num_args f) MAX_ARG_FLAG_NUM). set (f1 := set_flags_loop (Z.to_nat n) 0 (send_mode infos) f0).
  assert (fn_variadic f1 = fn_variadic f) as -> by apply (set_flags_loop_fields (send_mode infos) (Z.to_nat n) 0 f0).
  assert (forall k, 0 <= send_mode infos k < 4) as Hr by (intros; apply land_3_range).
  assert (0 <= n <= 12) as Hn by (unfold n, MAX_ARG_FLAG_NUM; lia).
  assert (ZEND_CHECK_ARG_FLAG f0 arg_num 3 = 0) as H0.
  { apply Z.bits_inj'. intros i Hi. unfold ZEND_CHECK_ARG_FLAG, f0. cbn [quick_arg_flags set_quick_arg_flags].
    change 255 with (Z.ones 8). rewrite Z.land_spec, Z.shiftr_spec, Z.land_spec by lia.
    rewrite Z.ones_spec_high by lia. by rewrite andb_false_r, Z.bits_0. }
  assert (ZEND_CHECK_ARG_FLAG f1 arg_num 3 = if decide (arg_num <= n) then send_mode infos (arg_num - 1) else 0) as H1.
  { unfold f1. rewrite field_set_loop by (done || lia). rewrite H0, Z.lor_0_l.
    destruct (decide (0 < arg_num <= _)), (decide (arg_num <= n)); try lia; done. }
  assert (ZEND_CHECK_ARG_FLAG (if fn_variadic f && negb (send_mode infos n =? 0)
    then set_flags_loop (Z.to_nat (MAX_ARG_FLAG_NUM - n)) n (fun _ => send_mode infos n) f1 else f1) arg_num 3 =
    if decide (arg_num <= n) then send_mode infos (arg_num - 1) else if fn_variadic f then send_mode infos n else 0) as H2.
  { destruct (fn_variadic f); cbn [andb]; [|exact H1]. destruct (Z.eqb_spec (send_mode infos n) 0) as [E|E]; cbn [negb].
    - rewrite H1. destruct (decide _); [done|]. by rewrite E.
    - rewrite field_set_loop by (done || (unfold MAX_ARG_FLAG_NUM; lia)). rewrite H1. unfold MAX_ARG_FLAG_NUM.
      destruct (decide (n < arg_num <= _)), (decide (arg_num <= n)); try lia; by rewrite ?Z.lor_0_l. }
  rewrite H2. unfold zend_check_arg_send_type. destruct (decide (arg_num <= n)) as [Hle|Hgt].
  - destruct (Z.leb_spec (num_args f) (arg_num - 1)); [unfold n in Hle; lia|done].
  - assert (n = num_args f) as -> by (unfold n, MAX_ARG_FLAG_NUM in *; lia).
    destruct (Z.leb_spec (num_args f) (arg_num - 1)); [|lia]. by destruct (fn_variadic f).
Qed.

(** * Concrete instances *)

Lemma zend_mangle_unmangle_witness :
  zend_mangle_property_name (fun _ => 170) [65; 64; 0; 47; 120; 0; 9] 5 [112; 0] 1 = Some [0; 65; 64; 0; 47; 120; 0; 112; 0] /\
  exists name, zend_mangle_property_name (fun _ => 170) [65; 64; 0; 47; 120; 0; 9] 5 [112; 0] 1 = Some (name ++ [0]) /\
    llen name = 8 /\
    exists off, zend_unmangle_property_name_ex (name ++ [0]) (llen name) = Some (mk_unmangled (Some 1) off 1 None true) /\
      drop (Z.to_nat off) name = [112] /\
      zend_strnlen (name ++ [0]) 1 (llen name) = Some 2 /\ take 2 (drop 1 name) = [65; 64].
Proof.
  split; [vm_compute; reflexivity|].
  assert (nul_free [65; 64]) as H1 by (repeat constructor; lia).
  assert (nul_free [112]) as H2 by (repeat constructor; lia).
  assert ([65; 64] <> @nil Z) as H3 by done. assert ([112] <> @nil Z) as H4 by done.
  refine (zend_mangle_unmangle (fun _ => 170) [65; 64] [0; 47; 120] [112] [9] [] H3 H1 H2 H4 _).
  right. exists [47; 120]. split; [done|]. repeat constructor; lia.
Defined.

Lemma zend_dirname_correct_witness :
  zend_dirname ([47; 97; 47; 47; 98; 47] ++ [0]) 6 = Some ([47; 97; 0; 47; 98; 47; 0], 2) /\
  exists d rest, zend_dirname ([47; 97; 47; 47; 98; 47] ++ [0]) (llen [47; 97; 47; 47; 98; 47]) = Some (d ++ 0 :: rest, llen d) /\
    dirname_of [47; 97; 47; 47; 98; 47] d.
Proof. split; [vm_compute; reflexivity|]. by apply (zend_dirname_correct [47; 97; 47; 47; 98; 47]). Defined.

(** One by-value argument, then variadic by reference: [f($a, &...$rest)]. *)
Lemma zend_set_function_arg_flags_correct_witness :
  let f := mk_zend_function 5 1 true (Some [0; Z.shiftl 1 25]) in
  negb (ZEND_CHECK_ARG_FLAG (zend_set_function_arg_flags f) 9 1 =? 0) = true /\
  zend_check_arg_send_type f [0; Z.shiftl 1 25] 9 1 = true.
Proof.
  intros f. split; [vm_compute; reflexivity|].
  assert (0 <= num_args f) as H1 by (vm_compute; congruence).
  assert (1 <= 9 <= MAX_ARG_FLAG_NUM) as H2 by (unfold MAX_ARG_FLAG_NUM; lia).
  assert (0 <= 1 < 4) as H3 by lia.
  rewrite <- (zend_set_function_arg_flags_correct f [0; Z.shiftl 1 25] 9 1 eq_refl H1 H2 H3).
  vm_compute. reflexivity.
Defined.
