(* ===== verification/Sse.v ===== *)
(** The 128-bit vector instructions of x86 that the string functions use, as
    the compiler's intrinsics document them.  A vector is the list of its bytes,
    least significant first; lanes of 16 and 32 bits are views of it.  The
    operations work on vectors of any length, so that a vector of 16 bytes can
    be cut into lanes. *)

From stdpp Require Import base numbers list.
From S2P Require Import Prelude CompileRuntime.

(** * Views *)

Definition schar8 (b : Z) : Z := if b <? 128 then b else b - 256.

(** Little-endian words of 16 bits and back. *)
Fixpoint words16 (v : list Z) : list Z :=
  match v with b0 :: b1 :: v => b0 + 256 * b1 :: words16 v | _ => [] end.
Definition bytes16 (w : Z) : list Z := [w mod 256; (w / 256) mod 256].
Definition of_words16 (ws : list Z) : list Z := ws ≫= bytes16.

Definition s16 (w : Z) : Z := (w + 2 ^ 15) mod 2 ^ 16 - 2 ^ 15.

Fixpoint words32 (v : list Z) : list Z :=
  match v with
  | b0 :: b1 :: b2 :: b3 :: v => b0 + 2 ^ 8 * b1 + 2 ^ 16 * b2 + 2 ^ 24 * b3 :: words32 v
  | _ => []
  end.
Definition bytes32 (w : Z) : list Z := [w mod 256; (w / 2 ^ 8) mod 256; (w / 2 ^ 16) mod 256; (w / 2 ^ 24) mod 256].
Definition of_words32 (ws : list Z) : list Z := ws ≫= bytes32.

(** * Loads, stores, constants *)

Definition _mm_loadu_si128 (p : list Z) (off : Z) : option (list Z) :=
  if (off <? 0) || (llen p <? off + 16) then None else Some (take 16 (drop (Z.to_nat off) p)).
Definition _mm_storeu_si128 (p : list Z) (off : Z) (v : list Z) : option (list Z) := memcpy p off v 16.

Definition _mm_set1_epi8 (z : Z) : list Z := replicate 16 (u8 z).
Definition _mm_setr_epi8 (zs : list Z) : list Z := u8 <$> zs.
Definition _mm_set_epi8 (zs : list Z) : list Z := u8 <$> reverse zs.
Definition _mm_set1_epi32 (z : Z) : list Z := replicate 4 z ≫= bytes32.

(** * Bytes *)

Definition _mm_and_si128 : list Z -> list Z -> list Z := zip_with Z.land.
Definition _mm_or_si128 : list Z -> list Z -> list Z := zip_with Z.lor.
Definition mask8 (b : bool) : Z := if b then 255 else 0.
Definition _mm_cmpeq_epi8 : list Z -> list Z -> list Z := zip_with (fun x y => mask8 (x =? y)).
Definition _mm_cmpgt_epi8 : list Z -> list Z -> list Z := zip_with (fun x y => mask8 (schar8 y <? schar8 x)).
Definition _mm_cmplt_epi8 : list Z -> list Z -> list Z := zip_with (fun x y => mask8 (schar8 x <? schar8 y)).
Definition _mm_add_epi8 : list Z -> list Z -> list Z := zip_with (fun x y => u8 (x + y)).
Definition _mm_sub_epi8 : list Z -> list Z -> list Z := zip_with (fun x y => u8 (x - y)).
Definition _mm_subs_epu8 : list Z -> list Z -> list Z := zip_with (fun x y => Z.max 0 (x - y)).

(** [a] is looked up at the indices in [b]; an index with its top bit set gives 0. *)
Definition _mm_shuffle_epi8 (a b : list Z) : list Z :=
  (fun i => if 128 <=? i then 0 else lget 0 a (Z.land i 15)) <$> b.

(** The top bits of the bytes. *)
Definition _mm_movemask_epi8 : list Z -> Z := foldr (fun b bits => b / 128 + 2 * bits) 0.

(** * Words *)

Definition _mm_mulhi_epu16 (a b : list Z) : list Z :=
  of_words16 (zip_with (fun x y => (x * y) / 2 ^ 16) (words16 a) (words16 b)).
Definition _mm_mullo_epi16 (a b : list Z) : list Z :=
  of_words16 (zip_with (fun x y => (x * y) mod 2 ^ 16) (words16 a) (words16 b)).
Definition _mm_srli_epi32 (a : list Z) (n : Z) : list Z := of_words32 ((fun x => Z.shiftr x n) <$> words32 a).

(** Unsigned by signed bytes, adjacent products added with signed saturation. *)
Fixpoint madd_pairs8 (a b : list Z) : list Z :=
  match a, b with
  | a0 :: a1 :: a, b0 :: b1 :: b =>
      Z.max (- 2 ^ 15) (Z.min (2 ^ 15 - 1) (a0 * schar8 b0 + a1 * schar8 b1)) :: madd_pairs8 a b
  | _, _ => []
  end.
Definition _mm_maddubs_epi16 (a b : list Z) : list Z := of_words16 (madd_pairs8 a b).

(** Signed words, adjacent products added. *)
Fixpoint madd_pairs16 (a b : list Z) : list Z :=
  match a, b with
  | a0 :: a1 :: a, b0 :: b1 :: b => s16 a0 * s16 b0 + s16 a1 * s16 b1 :: madd_pairs16 a b
  | _, _ => []
  end.
Definition _mm_madd_epi16 (a b : list Z) : list Z := of_words32 (madd_pairs16 (words16 a) (words16 b)).

(** * Theory *)

Definition is_byte (b : Z) : Prop := 0 <= b < 256.
Definition vector (v : list Z) : Prop := length v = 16%nat.

(** Checking a statement on all bytes, on all pairs of bytes. *)
Definition all_below (n : nat) (P : Z -> bool) : bool := forallb P (zrange 0 n).

Lemma all_below_spec n P : all_below n P = true -> forall b, 0 <= b < Z.of_nat n -> P b = true.
Proof.
  intros H b Hb. unfold all_below in H. rewrite forallb_forall in H. apply H, list_elem_of_In, elem_of_zrange. lia.
Qed.

Lemma all_below2_spec n m (P : Z -> Z -> bool) : all_below n (fun a => all_below m (P a)) = true ->
  forall a b, 0 <= a < Z.of_nat n -> 0 <= b < Z.of_nat m -> P a b = true.
Proof. intros H a b Ha Hb. apply (all_below_spec m); [|done]. by apply (all_below_spec n (fun a => all_below m (P a))). Qed.

(** Bytewise operations on images of one vector. *)
Lemma zip_with_map {A B C D} (f : B -> C -> D) (g : A -> B) (h : A -> C) (v : list A) :
  zip_with f (g <$> v) (h <$> v) = (fun x => f (g x) (h x)) <$> v.
Proof. induction v as [|x v IH]; [done|]. cbn. by f_equal. Qed.

Lemma zip_with_self {A C D} (f : A -> C -> D) (h : A -> C) (v : list A) : zip_with f v (h <$> v) = (fun x => f x (h x)) <$> v.
Proof. induction v as [|x v IH]; [done|]. cbn. by f_equal. Qed.

Lemma set1_map z v : vector v -> _mm_set1_epi8 z = (fun _ => u8 z) <$> v.
Proof. intros Hv. unfold _mm_set1_epi8. rewrite <- Hv. clear. induction v as [|x v IH]; [done|]. cbn. by f_equal. Qed.

Lemma movemask_range v : Forall is_byte v -> 0 <= _mm_movemask_epi8 v < 2 ^ llen v.
Proof.
  induction 1 as [|b v Hb Hv IH]; [done|]. rewrite llen_cons. cbn [foldr _mm_movemask_epi8]. fold (_mm_movemask_epi8 v).
  rewrite Z.pow_add_r by (pose proof (llen_nonneg v); lia). unfold is_byte in Hb. zlia.
Qed.

Lemma movemask_bit v i : Forall is_byte v -> Z.testbit (_mm_movemask_epi8 v) (Z.of_nat i) = (128 <=? default 0 (v !! i)).
Proof.
  intros Hv. revert i. induction Hv as [|b v Hb Hv IH]; intros i; [by rewrite lookup_nil, Z.testbit_0_l|].
  cbn [foldr _mm_movemask_epi8]. fold (_mm_movemask_epi8 v). unfold is_byte in Hb.
  assert (b / 128 = Z.b2z (128 <=? b)) as -> by (destruct (Z.leb_spec 128 b); cbn; zlia).
  rewrite Z.add_comm. destruct i as [|i]; cbn [lookup list_lookup].
  - change (Z.of_nat 0) with 0. by rewrite Z.testbit_0_r.
  - rewrite Nat2Z.inj_succ, Z.testbit_succ_r by lia. apply IH.
Qed.

Lemma movemask_any {A} (f : A -> bool) (l : list A) : negb (_mm_movemask_epi8 ((fun p => mask8 (f p)) <$> l) =? 0) = existsb f l.
Proof.
  induction l as [|p l IH]; [done|]. cbn [fmap list_fmap existsb]. rewrite <- IH. cbn [foldr _mm_movemask_epi8].
  fold (_mm_movemask_epi8 ((fun p => mask8 (f p)) <$> l)).
  assert (0 <= _mm_movemask_epi8 ((fun p => mask8 (f p)) <$> l)).
  { apply movemask_range, Forall_fmap, Forall_true. intros q. unfold is_byte, mask8; cbn. destruct (f q); lia. }
  set (m := _mm_movemask_epi8 _) in *. unfold mask8. destruct (f p); cbn [orb]; zbool; try done; try zlia.
Qed.

Lemma movemask_test {A} (f : A -> bool) (l : list A) k p : l !! k = Some p ->
  Z.testbit (_mm_movemask_epi8 ((fun p => mask8 (f p)) <$> l)) (Z.of_nat k) = f p.
Proof.
  intros Hk. rewrite movemask_bit.
  - rewrite list_lookup_fmap, Hk. cbn. by destruct (f p).
  - apply Forall_fmap, Forall_true. intros q. unfold is_byte, mask8; cbn. destruct (f q); lia.
Qed.

Lemma land_bit bits k : 0 <= k -> negb (Z.land bits (Z.shiftl 1 k) =? 0) = Z.testbit bits k.
Proof.
  intros Hk. rewrite Z.shiftl_1_l. destruct (Z.eqb_spec (Z.land bits (2 ^ k)) 0) as [E|E]; cbn [negb].
  - apply (f_equal (fun z => Z.testbit z k)) in E. rewrite Z.land_spec, Z.pow2_bits_true, Z.bits_0, andb_true_r in E by done. done.
  - destruct (Z.testbit bits k) eqn:Et; [done|]. exfalso. apply E, Z.bits_inj'. intros i Hi. rewrite Z.land_spec, Z.bits_0.
    destruct (decide (i = k)) as [->|]; [by rewrite Et|]. by rewrite Z.pow2_bits_false, andb_false_r.
Qed.

(** All of sixteen bits. *)
Lemma land_all bits : Z.land bits 0xffff = 0xffff -> forall k, 0 <= k < 16 -> Z.testbit bits k = true.
Proof.
  intros E k Hk. apply (f_equal (fun z => Z.testbit z k)) in E. rewrite Z.land_spec in E.
  change 0xffff with (Z.ones 16) in E. rewrite Z.ones_spec_low, andb_true_r in E by done. done.
Qed.

Lemma length_take_drop_16 (p : list Z) off : 0 <= off -> off + 16 <= llen p -> vector (take 16 (drop (Z.to_nat off) p)).
Proof. unfold llen, vector. intros. rewrite length_take, length_drop. lia. Qed.

Lemma loadu_app pre v post : vector v -> _mm_loadu_si128 (pre ++ v ++ post) (llen pre) = Some v.
Proof.
  unfold vector, _mm_loadu_si128, llen. intros Hv. rewrite !length_app. zbool; try lia.
  rewrite Nat2Z.id, drop_app_length. f_equal. by apply take_app_length'.
Qed.

Lemma storeu_app pre old post v : vector old -> vector v ->
  _mm_storeu_si128 (pre ++ old ++ post) (llen pre) v = Some (pre ++ v ++ post).
Proof.
  intros Ho Hv. unfold _mm_storeu_si128. rewrite <- (app_nil_r v) at 1. apply memcpy_app; unfold llen; [by rewrite Ho|by rewrite Hv].
Qed.

(** The sixteen bytes of a vector. *)
Lemma vector_split v : vector v -> exists b0 b1 b2 b3 b4 b5 b6 b7 b8 b9 b10 b11 b12 b13 b14 b15,
  v = [b0; b1; b2; b3; b4; b5; b6; b7; b8; b9; b10; b11; b12; b13; b14; b15].
Proof. unfold vector. intros H. do 16 (destruct v as [|? v]; [done|]). destruct v; [|done]. repeat eexists. Qed.
