(* ===== verification/Base64.v ===== *)
(** Base64 (ext/standard/base64.c), the portable routines: the encoder and the
    decoder on buffers with checked accesses, and what they compute in terms of
    RFC 4648. *)

From stdpp Require Import base numbers list.
From S2P Require Import Prelude CompileRuntime Sse.

(** * Tables *)

(** "A..Za..z0..9+/" and the terminator. *)
Definition base64_table : list Z := zrange 65 26 ++ zrange 97 26 ++ zrange 48 10 ++ [43; 47; 0].

Definition base64_pad : Z := 61.

Definition base64_reverse_table : list Z :=
  [-2; -2; -2; -2; -2; -2; -2; -2; -2; -1; -1; -2; -2; -1; -2; -2;
   -2; -2; -2; -2; -2; -2; -2; -2; -2; -2; -2; -2; -2; -2; -2; -2;
   -1; -2; -2; -2; -2; -2; -2; -2; -2; -2; -2; 62; -2; -2; -2; 63;
   52; 53; 54; 55; 56; 57; 58; 59; 60; 61; -2; -2; -2; -2; -2; -2;
   -2; 0; 1; 2; 3; 4; 5; 6; 7; 8; 9; 10; 11; 12; 13; 14;
   15; 16; 17; 18; 19; 20; 21; 22; 23; 24; 25; -2; -2; -2; -2; -2;
   -2; 26; 27; 28; 29; 30; 31; 32; 33; 34; 35; 36; 37; 38; 39; 40;
   41; 42; 43; 44; 45; 46; 47; 48; 49; 50; 51; -2; -2; -2; -2; -2;
   -2; -2; -2; -2; -2; -2; -2; -2; -2; -2; -2; -2; -2; -2; -2; -2;
   -2; -2; -2; -2; -2; -2; -2; -2; -2; -2; -2; -2; -2; -2; -2; -2;
   -2; -2; -2; -2; -2; -2; -2; -2; -2; -2; -2; -2; -2; -2; -2; -2;
   -2; -2; -2; -2; -2; -2; -2; -2; -2; -2; -2; -2; -2; -2; -2; -2;
   -2; -2; -2; -2; -2; -2; -2; -2; -2; -2; -2; -2; -2; -2; -2; -2;
   -2; -2; -2; -2; -2; -2; -2; -2; -2; -2; -2; -2; -2; -2; -2; -2;
   -2; -2; -2; -2; -2; -2; -2; -2; -2; -2; -2; -2; -2; -2; -2; -2;
   -2; -2; -2; -2; -2; -2; -2; -2; -2; -2; -2; -2; -2; -2; -2; -2].

Definition PHP_BASE64_NO_PADDING : Z := 1.

(** [*out++ = c] for the characters of a list. *)
Fixpoint put (out : list Z) (o : Z) (cs : list Z) : option (list Z * Z) :=
  match cs with
  | [] => Some (out, o)
  | c :: cs => out ← lstore out o c; put out (o + 1) cs
  end.

(** * The encoder *)

(** "keep going until we have less than 24 bits" *)
Fixpoint encode_loop (n : nat) (s : list Z) (i inl : Z) (out : list Z) (o : Z) : option (Z * Z * list Z * Z) :=
  if negb (2 <? inl) then Some (i, inl, out, o)
  else match n with
  | O => None
  | S n =>
      in0 ← lload s i; in1 ← lload s (i + 1); in2 ← lload s (i + 2);
      c0 ← lload base64_table (Z.shiftr in0 2);
      c1 ← lload base64_table (Z.shiftl (Z.land in0 3) 4 + Z.shiftr in1 4);
      c2 ← lload base64_table (Z.shiftl (Z.land in1 15) 2 + Z.shiftr in2 6);
      c3 ← lload base64_table (Z.land in2 63);
      '(out, o) ← put out o [c0; c1; c2; c3];
      encode_loop n s (i + 3) (inl - 3) out o
  end.

(** "now deal with the tail end of things" *)
Definition encode_tail (flags : Z) (s : list Z) (i inl : Z) (out : list Z) (o : Z) : option (list Z * Z) :=
  if inl =? 0 then Some (out, o)
  else
    let padded := Z.land flags PHP_BASE64_NO_PADDING =? 0 in
    in0 ← lload s i;
    c0 ← lload base64_table (Z.shiftr in0 2);
    '(out, o) ← put out o [c0];
    if 1 <? inl then
      in1 ← lload s (i + 1);
      c1 ← lload base64_table (Z.shiftl (Z.land in0 3) 4 + Z.shiftr in1 4);
      c2 ← lload base64_table (Z.shiftl (Z.land in1 15) 2);
      '(out, o) ← put out o [c1; c2];
      if padded then put out o [base64_pad] else Some (out, o)
    else
      c1 ← lload base64_table (Z.shiftl (Z.land in0 3) 4);
      '(out, o) ← put out o [c1];
      if padded then put out o [base64_pad; base64_pad] else Some (out, o).

(** From offset [i] of [s]; the buffer, and the end of the text in it. *)
Definition php_base64_encode_impl (s : list Z) (i inl : Z) (out : list Z) (o flags : Z) : option (list Z * Z) :=
  '(i, inl, out, o) ← encode_loop (Z.to_nat inl) s i inl out o;
  '(out, o) ← encode_tail flags s i inl out o;
  out ← lstore out o 0;
  Some (out, o).

(** * The decoder *)

(** The switch on [i % 4]. *)
Definition decode_put (ch i : Z) (out : list Z) (j : Z) : option (list Z * Z) :=
  let or_at v := old ← lload out j; lstore out j (Z.lor old v) in
  if i mod 4 =? 0 then out ← lstore out j (u8 (Z.shiftl ch 2)); Some (out, j)
  else if i mod 4 =? 1 then
    out ← or_at (Z.shiftr ch 4);
    out ← lstore out (j + 1) (Z.shiftl (Z.land ch 15) 4); Some (out, j + 1)
  else if i mod 4 =? 2 then
    out ← or_at (Z.shiftr ch 2);
    out ← lstore out (j + 1) (Z.shiftl (Z.land ch 3) 6); Some (out, j + 1)
  else out ← or_at ch; Some (out, j + 1).

Record decoding := mk_decoding { d_i : Z; d_padding : Z; d_j : Z; d_out : list Z }.

(** One character; the inner [None] is the jump to [fail]. *)
Definition decode_char (strict : bool) (c : Z) (d : decoding) : option (option decoding) :=
  if c =? base64_pad then Some (Some (mk_decoding (d_i d) (d_padding d + 1) (d_j d) (d_out d)))
  else
    ch ← lload base64_reverse_table c;
    if negb strict && (ch <? 0) then Some (Some d)
    else if strict && (ch =? -1) then Some (Some d)
    else if strict && ((ch =? -2) || negb (d_padding d =? 0)) then Some None
    else
      '(out, j) ← decode_put ch (d_i d) (d_out d) (d_j d);
      Some (Some (mk_decoding (d_i d + 1) (d_padding d) j out)).

(** [while (inl-- > 0)], [n] being [inl] *)
Fixpoint decode_loop (strict : bool) (s : list Z) (n : nat) (i : Z) (d : decoding) : option (option decoding) :=
  match n with
  | O => Some (Some d)
  | S n =>
      c ← lload s i;
      r ← decode_char strict c d;
      match r with None => Some None | Some d => decode_loop strict s n (i + 1) d end
  end.

(** [None] inside: the result 0, else the buffer and [*outl]. *)
Definition php_base64_decode_impl (s : list Z) (i inl : Z) (out : list Z) (outl : Z) (strict : bool) : option (option (list Z * Z)) :=
  r ← decode_loop strict s (Z.to_nat inl) i (mk_decoding 0 0 outl out);
  match r with
  | None => Some None
  | Some d =>
      if strict && (d_i d mod 4 =? 1) then Some None
      else if strict && negb (d_padding d =? 0) && ((2 <? d_padding d) || negb ((d_i d + d_padding d) mod 4 =? 0)) then Some None
      else out ← lstore (d_out d) (d_j d) 0; Some (Some (out, d_j d))
  end.

Section Alloc.
Context (heap_junk : Z -> Z).

(** The characters of the string that is returned, and its length. *)
Definition php_base64_encode_default (s : list Z) (flags : Z) : option (list Z * Z) :=
  php_base64_encode_impl s 0 (llen s) (zend_string_alloc heap_junk ((llen s + 2) / 3 * 4)) 0 flags.

(** [NULL] is the inner [None]. *)
Definition php_base64_decode_ex_default (s : list Z) (strict : bool) : option (option (list Z * Z)) :=
  php_base64_decode_impl s 0 (llen s) (zend_string_alloc heap_junk (llen s)) 0 strict.
End Alloc.

(** * RFC 4648 *)

(** The alphabet. *)
Definition b64_char (v : Z) : Z :=
  if v <? 26 then 65 + v else if v <? 52 then 97 + (v - 26) else if v <? 62 then 48 + (v - 52) else if v =? 62 then 43 else 47.
Definition b64_value (c : Z) : option Z :=
  if (65 <=? c) && (c <=? 90) then Some (c - 65)
  else if (97 <=? c) && (c <=? 122) then Some (c - 97 + 26)
  else if (48 <=? c) && (c <=? 57) then Some (c - 48 + 52)
  else if c =? 43 then Some 62 else if c =? 47 then Some 63 else None.

(** Groups of 24 bits as four digits in base 64; the last group is filled with
    zero bits to whole digits. *)
Fixpoint b64_text (padded : bool) (s : list Z) : list Z :=
  match s with
  | a :: b :: c :: s =>
      let n := a * 2 ^ 16 + b * 2 ^ 8 + c in
      (b64_char <$> [n / 2 ^ 18; n / 2 ^ 12 mod 64; n / 2 ^ 6 mod 64; n mod 64]) ++ b64_text padded s
  | [a; b] =>
      let n := (a * 2 ^ 8 + b) * 2 ^ 2 in
      (b64_char <$> [n / 2 ^ 12; n / 2 ^ 6 mod 64; n mod 64]) ++ (if padded then [base64_pad] else [])
  | [a] =>
      let n := a * 2 ^ 4 in
      (b64_char <$> [n / 2 ^ 6; n mod 64]) ++ (if padded then [base64_pad; base64_pad] else [])
  | [] => []
  end.

(** The whole bytes in a sequence of digits. *)
Fixpoint b64_bytes (vs : list Z) : list Z :=
  match vs with
  | a :: b :: c :: d :: vs =>
      let n := a * 2 ^ 18 + b * 2 ^ 12 + c * 2 ^ 6 + d in
      [n / 2 ^ 16; n / 2 ^ 8 mod 256; n mod 256] ++ b64_bytes vs
  | [a; b; c] => let n := a * 2 ^ 12 + b * 2 ^ 6 + c in [n / 2 ^ 10; n / 2 ^ 2 mod 256]
  | [a; b] => let n := a * 2 ^ 6 + b in [n / 2 ^ 4]
  | _ => []
  end.

Definition is_space (c : Z) : Prop := c ∈ [9; 10; 13; 32].
#[export] Instance is_space_dec c : Decision (is_space c).
Proof. unfold is_space. apply _. Defined.

(** What the strict mode accepts: without its whitespace, digits followed by
    padding; no digit that stands alone in its group, and padding either absent
    or right. *)
Definition strict_text (s : list Z) : Prop := exists vs p,
  filter (fun c => ~ is_space c) s = (b64_char <$> vs) ++ replicate p base64_pad /\ Forall (fun v => 0 <= v < 64) vs /\
  (length vs mod 4 <> 1)%nat /\ (p = 0 \/ (p <= 2 /\ (length vs + p) mod 4 = 0))%nat.

(** * The encoder computes the text *)

Lemma land_3 x : Z.land x 3 = x mod 4.
Proof. exact (land_pred_mod x 2 ltac:(lia)). Qed.
Lemma land_15 x : Z.land x 15 = x mod 16.
Proof. exact (land_pred_mod x 4 ltac:(lia)). Qed.
Lemma land_mask_63 x : Z.land x 63 = x mod 64.
Proof. exact (land_pred_mod x 6 ltac:(lia)). Qed.

(** Shifts and masks as arithmetic. *)
Ltac bits := rewrite ?land_3, ?land_15, ?land_mask_63, ?Z.shiftr_div_pow2, ?Z.shiftl_mul_pow2 by lia.

Lemma put_bytes_ok cs : forall don free, (length cs <= length free)%nat ->
  put (don ++ free) (llen don) cs = Some (don ++ cs ++ drop (length cs) free, llen (don ++ cs)).
Proof.
  induction cs as [|c cs IH]; intros don free Hl; cbn [put length] in *; [by rewrite app_nil_r|].
  destruct free as [|x free]; [cbn in Hl; lia|]. cbn [length] in Hl. rewrite lstore_middle. cbn [mbind option_bind drop].
  replace (don ++ c :: free) with ((don ++ [c]) ++ free) by (by rewrite <- app_assoc).
  replace (llen don + 1) with (llen (don ++ [c])) by (rewrite llen_app; done).
  rewrite IH by lia. by rewrite <- !app_assoc.
Qed.

Lemma base64_table_char v : 0 <= v < 64 -> lload base64_table v = Some (b64_char v).
Proof.
  intros Hv. set (P v := bool_decide (lload base64_table v = Some (b64_char v))).
  apply (bool_decide_eq_true_1 _), (all_below_spec 64 P); [vm_compute; reflexivity|exact Hv].
Qed.

#[global] Arguments put : simpl never.

(** Loads at the first offsets of what is left of the input. *)
Lemma lload_rest {A} (pre rest : list A) k : lload (pre ++ rest) (llen pre + Z.of_nat k) = rest !! k.
Proof. rewrite lload_app_r by lia. apply lload_nat. Qed.

Lemma lload_rest0 {A} (pre rest : list A) : lload (pre ++ rest) (llen pre) = rest !! 0%nat.
Proof. rewrite <- (lload_rest pre rest 0). f_equal. lia. Qed.

(** The four digits of three bytes. *)
Definition text3 (a b c : Z) : list Z :=
  let n := a * 2 ^ 16 + b * 2 ^ 8 + c in b64_char <$> [n / 2 ^ 18; n / 2 ^ 12 mod 64; n / 2 ^ 6 mod 64; n mod 64].

Lemma encode_loop_step n pre a b c rest don free : is_byte a -> is_byte b -> is_byte c -> (4 <= length free)%nat ->
  encode_loop (S n) (pre ++ a :: b :: c :: rest) (llen pre) (llen (a :: b :: c :: rest)) (don ++ free) (llen don) =
  encode_loop n ((pre ++ [a; b; c]) ++ rest) (llen (pre ++ [a; b; c])) (llen rest) ((don ++ text3 a b c) ++ drop 4 free) (llen (don ++ text3 a b c)).
Proof.
  unfold is_byte. intros Ha Hb Hc Hf. cbn [encode_loop]. rewrite (proj2 (Z.ltb_lt 2 _)) by (unfold llen; cbn [length]; lia). cbn [negb].
  rewrite lload_rest0, (lload_rest pre _ 1), (lload_rest pre _ 2). cbn [lookup list_lookup]. rewrite !some_bind.
  rewrite !base64_table_char by (bits; zlia). rewrite !some_bind, put_bytes_ok by done. rewrite some_bind.
  replace (llen pre + 3) with (llen (pre ++ [a; b; c])) by (rewrite llen_app; done).
  replace (llen (a :: b :: c :: rest) - 3) with (llen rest) by (unfold llen; cbn [length]; lia).
  rewrite <- (app_assoc pre). cbn [app length].
  assert ([b64_char (Z.shiftr a 2); b64_char (Z.shiftl (Z.land a 3) 4 + Z.shiftr b 4);
    b64_char (Z.shiftl (Z.land b 15) 2 + Z.shiftr c 6); b64_char (Z.land c 63)] = text3 a b c) as E.
  { unfold text3. cbn [fmap list_fmap]. bits. repeat (apply f_equal2; [apply f_equal; zlia|]); done. }
  rewrite <- E, <- !app_assoc. reflexivity.
Qed.

Lemma encode_loop_ok padded n : forall pre rest don free, Forall is_byte rest -> (length rest <= n)%nat ->
  (length (b64_text padded rest) <= length free)%nat ->
  exists mid tail text, rest = mid ++ tail /\ (length tail < 3)%nat /\ b64_text padded rest = text ++ b64_text padded tail /\
    encode_loop n (pre ++ rest) (llen pre) (llen rest) (don ++ free) (llen don)
      = Some (llen (pre ++ mid), llen tail, don ++ text ++ drop (length text) free, llen (don ++ text)).
Proof.
  induction n as [n IH] using lt_wf_ind. intros pre rest don free Hb Hn Hf.
  destruct rest as [|a [|b [|c rest]]]; [exists [], [], []|exists [], [a], []|exists [], [a; b], []|].
  1-3: rewrite !app_nil_r; split_and!; try done; [cbn; lia|by destruct n].
  destruct n as [|n]; [cbn in Hn; lia|]. do 3 (apply Forall_cons in Hb as [? Hb]). cbn [length] in Hn.
  change (b64_text padded (a :: b :: c :: rest)) with (text3 a b c ++ b64_text padded rest) in *.
  rewrite length_app in Hf. change (length (text3 a b c)) with 4%nat in Hf. rewrite encode_loop_step by (done || lia).
  destruct (IH n ltac:(lia) (pre ++ [a; b; c]) rest (don ++ text3 a b c) (drop 4 free)) as (mid & tail & text & -> & Ht & Etext & E);
    [done|lia|rewrite length_drop; lia|].
  exists (a :: b :: c :: mid), tail, (text3 a b c ++ text). rewrite Etext, E, <- !app_assoc, drop_drop. by split_and!.
Qed.

Definition is_padded (flags : Z) : bool := Z.land flags PHP_BASE64_NO_PADDING =? 0.

Lemma encode_tail_ok flags pre tail don free : Forall is_byte tail -> (length tail < 3)%nat ->
  (length (b64_text (is_padded flags) tail) <= length free)%nat ->
  let text := b64_text (is_padded flags) tail in
  encode_tail flags (pre ++ tail) (llen pre) (llen tail) (don ++ free) (llen don) = Some (don ++ text ++ drop (length text) free, llen (don ++ text)).
Proof.
  intros Hb Ht Hf text. unfold encode_tail. fold (is_padded flags). subst text. destruct tail as [|a [|b [|c tail]]]; [| | |cbn in Ht; lia].
  - cbn. by rewrite !app_nil_r.
  - apply Forall_cons in Hb as [Ha _]. unfold is_byte in Ha. change (llen [a]) with 1. cbn [Z.eqb Z.ltb Z.compare].
    change (1 <? 1) with false. change (1 =? 0) with false. cbn match. rewrite lload_rest0. cbn [lookup list_lookup]. rewrite !some_bind.
    rewrite !base64_table_char by (bits; zlia). rewrite !some_bind. cbn [b64_text fmap list_fmap app length] in Hf. rewrite put_bytes_ok by (cbn; lia). rewrite some_bind. cbn beta iota. rewrite !some_bind.
    rewrite (app_assoc don), put_bytes_ok by (rewrite length_drop; cbn [length] in *; lia). rewrite some_bind, drop_drop. cbn beta iota.
    assert (Z.shiftr a 2 = a * 2 ^ 4 / 2 ^ 6 /\ Z.shiftl (Z.land a 3) 4 = a * 2 ^ 4 mod 64) as [-> ->] by (bits; zlia).
    destruct (is_padded flags).
    + rewrite (app_assoc (don ++ _)), put_bytes_ok by (rewrite length_drop; cbn [length app] in *; lia). rewrite drop_drop, <- !app_assoc. reflexivity.
    + rewrite <- !app_assoc. reflexivity.
  - apply Forall_cons in Hb as [Ha Hb]. apply Forall_cons in Hb as [Hb _]. unfold is_byte in *. change (llen [a; b]) with 2.
    change (1 <? 2) with true. change (2 =? 0) with false. cbn match. rewrite lload_rest0, (lload_rest pre _ 1). cbn [lookup list_lookup]. rewrite !some_bind.
    rewrite !base64_table_char by (bits; zlia). rewrite !some_bind. cbn [b64_text fmap list_fmap app length] in Hf. rewrite put_bytes_ok by (cbn; lia). rewrite some_bind. cbn beta iota. rewrite !some_bind.
    rewrite !base64_table_char by (bits; zlia). rewrite !some_bind.
    rewrite (app_assoc don), put_bytes_ok by (rewrite length_drop; cbn [length] in *; lia). rewrite some_bind, drop_drop. cbn beta iota.
    assert (Z.shiftr a 2 = (a * 2 ^ 8 + b) * 2 ^ 2 / 2 ^ 12 /\ Z.shiftl (Z.land a 3) 4 + Z.shiftr b 4 = (a * 2 ^ 8 + b) * 2 ^ 2 / 2 ^ 6 mod 64 /\
      Z.shiftl (Z.land b 15) 2 = (a * 2 ^ 8 + b) * 2 ^ 2 mod 64) as (-> & -> & ->) by (bits; zlia).
    destruct (is_padded flags).
    + rewrite (app_assoc (don ++ _)), put_bytes_ok by (rewrite length_drop; cbn [length app] in *; lia). rewrite drop_drop, <- !app_assoc. reflexivity.
    + rewrite <- !app_assoc. reflexivity.
Qed.

Lemma php_base64_encode_impl_ok flags pre rest don free : Forall is_byte rest ->
  let text := b64_text (is_padded flags) rest in (length text < length free)%nat ->
  php_base64_encode_impl (pre ++ rest) (llen pre) (llen rest) (don ++ free) (llen don) flags =
    Some ((don ++ text) ++ 0 :: drop (S (length text)) free, llen (don ++ text)).
Proof.
  intros Hb text Hf. unfold php_base64_encode_impl. subst text.
  destruct (encode_loop_ok (is_padded flags) (Z.to_nat (llen rest)) pre rest don free) as (mid & tail & text & E & Ht & Etext & ->);
    [done|unfold llen; lia|lia|]. rewrite some_bind.
  rewrite Etext in *. subst rest. rewrite length_app in Hf. apply Forall_app in Hb as [_ Hb].
  rewrite !app_assoc. rewrite encode_tail_ok by (try rewrite length_drop; done || lia). rewrite some_bind, drop_drop, <- length_app.
  set (t := text ++ b64_text (is_padded flags) tail) in *. rewrite <- !app_assoc, !(app_assoc text). fold t. rewrite <- length_app in Hf. fold t in Hf.
  destruct (drop (length t) free) as [|x free'] eqn:Ed.
  { apply (f_equal length) in Ed. rewrite length_drop in Ed. cbn in Ed. lia. }
  rewrite !(app_assoc don t), lstore_middle, some_bind. replace (drop (S (length t)) free) with free'; [done|].
  replace (S (length t)) with (length t + 1)%nat by lia. by rewrite <- drop_drop, Ed.
Qed.

Lemma b64_text_length padded s : (length (b64_text padded s) <= (length s + 2) / 3 * 4)%nat.
Proof.
  remember (length s) as n eqn:E. revert s E. induction n as [n IH] using lt_wf_ind. intros s ->.
  destruct s as [|a [|b [|c s]]]; [cbn; lia|destruct padded; cbn; lia|destruct padded; cbn; lia|].
  change (b64_text padded (a :: b :: c :: s)) with (text3 a b c ++ b64_text padded s). rewrite length_app. cbn [length].
  specialize (IH (length s) ltac:(cbn; lia) s eq_refl). change (length (text3 a b c)) with 4%nat.
  replace (S (S (S (length s))) + 2)%nat with (length s + 2 + 1 * 3)%nat by lia. rewrite Nat.div_add by lia. lia.
Qed.

(** * The decoder computes the bytes *)

Lemma b64_value_char v : 0 <= v < 64 -> b64_value (b64_char v) = Some v.
Proof.
  intros Hv. set (P v := bool_decide (b64_value (b64_char v) = Some v)).
  apply (bool_decide_eq_true_1 _), (all_below_spec 64 P); [vm_compute; reflexivity|exact Hv].
Qed.

Lemma b64_char_value c v : is_byte c -> b64_value c = Some v -> 0 <= v < 64 /\ c = b64_char v /\ c <> base64_pad /\ ~ is_space c.
Proof.
  intros Hc. set (Q (v : Z) := 0 <= v < 64 /\ c = b64_char v /\ c <> base64_pad /\ ~ is_space c).
  set (P c := match b64_value c with Some v => bool_decide (0 <= v < 64 /\ c = b64_char v /\ c <> base64_pad /\ ~ is_space c) | None => true end).
  assert (P c = true) as H by (apply (all_below_spec 256 P); [vm_compute; reflexivity|exact Hc]). unfold P in H.
  intros E. rewrite E in H. by apply bool_decide_eq_true_1 in H.
Qed.

Lemma b64_char_byte v : 0 <= v < 64 -> is_byte (b64_char v) /\ b64_char v <> base64_pad /\ ~ is_space (b64_char v).
Proof.
  intros Hv. set (P v := bool_decide (0 <= b64_char v < 256 /\ b64_char v <> base64_pad /\ ~ is_space (b64_char v))).
  apply (bool_decide_eq_true_1 _), (all_below_spec 64 P); [vm_compute; reflexivity|exact Hv].
Qed.

Lemma base64_reverse_table_value c : is_byte c ->
  lload base64_reverse_table c = Some (match b64_value c with Some v => v | None => if decide (is_space c) then -1 else -2 end).
Proof.
  intros Hc. set (P c := bool_decide (lload base64_reverse_table c = Some (match b64_value c with Some v => v | None => if decide (is_space c) then -1 else -2 end))).
  apply (bool_decide_eq_true_1 _), (all_below_spec 256 P); [vm_compute; reflexivity|exact Hc].
Qed.

(** The bits that do not fill a byte yet, in the place where they are kept. *)
Fixpoint b64_part (vs : list Z) : list Z :=
  match vs with
  | _ :: _ :: _ :: _ :: vs => b64_part vs
  | [a; b; c] => [c mod 4 * 64]
  | [a; b] => [b mod 16 * 16]
  | [a] => [a * 4]
  | [] => []
  end.

(** Whole groups in front do not matter. *)
Lemma groups_split (vs : list Z) : exists gs rest, vs = gs ++ rest /\ (length rest < 4)%nat /\ (length gs mod 4 = 0)%nat /\
  forall l, b64_bytes (gs ++ l) = b64_bytes gs ++ b64_bytes l /\ b64_part (gs ++ l) = b64_part l.
Proof.
  remember (length vs) as n eqn:E. revert vs E. induction n as [n IH] using lt_wf_ind. intros vs ->.
  destruct vs as [|a [|b [|c [|d vs]]]]; [exists [], []|exists [], [a]|exists [], [a; b]|exists [], [a; b; c]|].
  1-4: split_and!; [done|cbn; lia|done|done].
  destruct (IH (length vs) ltac:(cbn; lia) vs eq_refl) as (gs & rest & -> & Hl & Hg & H). exists (a :: b :: c :: d :: gs), rest.
  split; [done|]. split; [done|]. split; [|intros l; destruct (H l) as [E1 E2]; cbn [app b64_bytes b64_part]; by rewrite E1].
  cbn [length]. replace (S (S (S (S (length gs))))) with (length gs + 1 * 4)%nat by lia. by rewrite Nat.Div0.mod_add.
Qed.

Lemma b64_part_length vs : (length (b64_bytes vs) + length (b64_part vs) <= length vs)%nat.
Proof.
  remember (length vs) as n eqn:E. revert vs E. induction n as [n IH] using lt_wf_ind. intros vs ->.
  destruct vs as [|a [|b [|c [|d vs]]]]; [cbn; lia..|]. specialize (IH (length vs) ltac:(cbn; lia) vs eq_refl). cbn. lia.
Qed.

Definition is_digit64 (v : Z) : Prop := 0 <= v < 64.

(** The or with the bits that are kept is a sum. *)
Lemma lor_parts v : is_digit64 v -> (forall a, is_digit64 a -> Z.lor (a * 4) (Z.shiftr v 4) = a * 4 + v / 16) /\
  (forall b, is_digit64 b -> Z.lor (b mod 16 * 16) (Z.shiftr v 2) = b mod 16 * 16 + v / 4) /\
  (forall c, is_digit64 c -> Z.lor (c mod 4 * 64) v = c mod 4 * 64 + v).
Proof.
  unfold is_digit64. intros Hv. set (P a v := bool_decide (Z.lor (a * 4) (Z.shiftr v 4) = a * 4 + v / 16 /\
    Z.lor (a mod 16 * 16) (Z.shiftr v 2) = a mod 16 * 16 + v / 4 /\ Z.lor (a mod 4 * 64) v = a mod 4 * 64 + v)).
  assert (forall a, 0 <= a < 64 -> P a v = true) as H.
  { intros a Ha. apply (all_below2_spec 64 64); [vm_compute; reflexivity|exact Ha|exact Hv]. }
  split_and!; intros a Ha; specialize (H a Ha); apply bool_decide_eq_true_1 in H; tauto.
Qed.

Lemma or_at_ok (D : list Z) p F w : (old ← lload (D ++ p :: F) (llen D); lstore (D ++ p :: F) (llen D) (Z.lor old w)) = Some (D ++ Z.lor p w :: F).
Proof. by rewrite lload_middle, some_bind, lstore_middle. Qed.

Lemma store_next (D : list Z) q x F y : lstore (D ++ q :: x :: F) (llen D + 1) y = Some (D ++ q :: y :: F).
Proof.
  replace (D ++ q :: x :: F) with ((D ++ [q]) ++ x :: F) by (by rewrite <- app_assoc).
  replace (llen D + 1) with (llen (D ++ [q])) by (by rewrite llen_app). by rewrite lstore_middle, <- app_assoc.
Qed.

(** A digit put behind whole groups and fewer than four digits. *)
Lemma decode_put_rest v rest D x free i : is_digit64 v -> Forall is_digit64 rest -> (length rest < 4)%nat -> i mod 4 = llen rest ->
  exists free', decode_put v i (D ++ b64_bytes rest ++ b64_part rest ++ x :: free) (llen (D ++ b64_bytes rest)) =
    Some (D ++ b64_bytes (rest ++ [v]) ++ b64_part (rest ++ [v]) ++ free', llen (D ++ b64_bytes (rest ++ [v]))) /\
    (length (b64_bytes (rest ++ [v]) ++ b64_part (rest ++ [v]) ++ free') = length (b64_bytes rest ++ b64_part rest ++ x :: free))%nat.
Proof.
  intros Hv Hr Hl Hi. destruct (lor_parts v Hv) as (L1 & L2 & L3). unfold decode_put. rewrite Hi. unfold is_digit64 in *.
  destruct rest as [|a [|b [|c [|d rest]]]]; [..|cbn in Hl; lia]; decompose_Forall_hyps; cbn [app b64_bytes b64_part]; cbn zeta.
  - change (llen [] =? 0) with true. cbn match. rewrite app_nil_r, lstore_middle, some_bind. exists free. split; [|done].
    unfold u8. rewrite Z.shiftl_mul_pow2 by lia. replace ((v * 2 ^ 2) mod 2 ^ 8) with (v * 4) by zlia. done.
  - change (llen [a] =? 0) with false. change (llen [a] =? 1) with true. cbn match.
    rewrite app_nil_r, or_at_ok, some_bind, store_next, some_bind, L1 by done. exists free. split; [|done]. bits.
    replace ((a * 2 ^ 6 + v) / 2 ^ 4) with (a * 4 + v / 16) by zlia. by rewrite llen_app.
  - change (llen [a; b] =? 0) with false. change (llen [a; b] =? 1) with false. change (llen [a; b] =? 2) with true. cbn match.
    set (y := (a * 2 ^ 6 + b) / 2 ^ 4). change (D ++ y :: b mod 16 * 16 :: x :: free) with (D ++ [y] ++ b mod 16 * 16 :: x :: free). rewrite app_assoc.
    rewrite or_at_ok, some_bind, store_next, some_bind, L2 by done. exists free. split; [|done]. bits.
    replace ((a * 2 ^ 12 + b * 2 ^ 6 + v) / 2 ^ 10) with y by (unfold y; zlia).
    replace ((a * 2 ^ 12 + b * 2 ^ 6 + v) / 2 ^ 2 mod 256) with (b mod 16 * 16 + v / 4) by zlia.
    rewrite <- app_assoc. cbn [app]. do 2 f_equal. rewrite !llen_app. unfold llen. cbn [length]. lia.
  - change (llen [a; b; c] =? 0) with false. change (llen [a; b; c] =? 1) with false. change (llen [a; b; c] =? 2) with false. cbn match.
    set (y := (a * 2 ^ 12 + b * 2 ^ 6 + c) / 2 ^ 10). set (z := (a * 2 ^ 12 + b * 2 ^ 6 + c) / 2 ^ 2 mod 256).
    change (D ++ y :: z :: c mod 4 * 64 :: x :: free) with (D ++ [y; z] ++ c mod 4 * 64 :: x :: free). rewrite app_assoc.
    rewrite or_at_ok, some_bind, L3 by done. exists (x :: free). split; [|done].
    replace ((a * 2 ^ 18 + b * 2 ^ 12 + c * 2 ^ 6 + v) / 2 ^ 16) with y by (unfold y; zlia).
    replace ((a * 2 ^ 18 + b * 2 ^ 12 + c * 2 ^ 6 + v) / 2 ^ 8 mod 256) with z by (unfold z; zlia).
    replace ((a * 2 ^ 18 + b * 2 ^ 12 + c * 2 ^ 6 + v) mod 256) with (c mod 4 * 64 + v) by zlia.
    rewrite <- app_assoc. cbn [app]. do 2 f_equal. rewrite !llen_app. unfold llen. cbn [length]. lia.
Qed.

Lemma decode_put_ok v vs don free : is_digit64 v -> Forall is_digit64 vs -> (0 < length free)%nat ->
  exists free', decode_put v (llen vs) (don ++ b64_bytes vs ++ b64_part vs ++ free) (llen (don ++ b64_bytes vs)) =
    Some (don ++ b64_bytes (vs ++ [v]) ++ b64_part (vs ++ [v]) ++ free', llen (don ++ b64_bytes (vs ++ [v]))) /\
    (length (b64_bytes (vs ++ [v]) ++ b64_part (vs ++ [v]) ++ free') = length (b64_bytes vs ++ b64_part vs ++ free))%nat.
Proof.
  intros Hv Hvs Hf. destruct (groups_split vs) as (gs & rest & -> & Hl & Hg & H). apply Forall_app in Hvs as [_ Hr].
  destruct free as [|x free]; [cbn in Hf; lia|].
  destruct (decode_put_rest v rest (don ++ b64_bytes gs) x free (llen (gs ++ rest))) as (free' & E & El); [done..| |].
  { unfold llen. rewrite length_app. apply Nat.Div0.mod_divides in Hg as [k ->]. zlia. }
  exists free'. rewrite <- (app_assoc gs), !(proj1 (H _)), !(proj2 (H _)), <- !(app_assoc (b64_bytes gs)), !(app_assoc don).
  split; [exact E|]. rewrite !(length_app (b64_bytes gs)). lia.
Qed.

(** The scan of the text: the digits and the amount of padding, or a refusal. *)
Fixpoint b64_scan (strict : bool) (s : list Z) (vs : list Z) (p : nat) : option (list Z * nat) :=
  match s with
  | [] => Some (vs, p)
  | c :: s =>
      if decide (c = base64_pad) then b64_scan strict s vs (S p)
      else match b64_value c with
      | Some v => if strict && negb (Nat.eqb p 0) then None else b64_scan strict s (vs ++ [v]) p
      | None => if strict && negb (bool_decide (is_space c)) then None else b64_scan strict s vs p
      end
  end.

(** The decoder after the digits [vs]; the [size] of the buffer behind [don] does not change. *)
Definition decoder_at (don : list Z) (size : nat) (vs : list Z) (p : nat) (d : decoding) : Prop := exists free,
  d = mk_decoding (llen vs) (Z.of_nat p) (llen (don ++ b64_bytes vs)) (don ++ b64_bytes vs ++ b64_part vs ++ free) /\
  Forall is_digit64 vs /\ length (b64_bytes vs ++ b64_part vs ++ free) = size.

Definition scan_result (don : list Z) (size max : nat) (scan : option (list Z * nat)) (r : option (option decoding)) : Prop :=
  match scan with
  | None => r = Some None
  | Some (vs, p) => (length vs <= max)%nat /\ exists d, r = Some (Some d) /\ decoder_at don size vs p d
  end.

Lemma decoder_put don size vs p d v : decoder_at don size vs p d -> is_digit64 v -> (length vs < size)%nat ->
  exists d', ('(out, j) ← decode_put v (d_i d) (d_out d) (d_j d); Some (Some (mk_decoding (d_i d + 1) (d_padding d) j out))) = Some (Some d') /\
    decoder_at don size (vs ++ [v]) p d'.
Proof.
  intros (free & -> & Hd & El) Hv Hl. cbn [d_i d_padding d_j d_out].
  destruct (decode_put_ok v vs don free) as (free' & -> & El'); [done|done| |].
  { rewrite !length_app in El. pose proof (b64_part_length vs). lia. }
  rewrite some_bind. eexists. split; [reflexivity|]. exists free'. split_and!.
  - f_equal. by rewrite llen_app.
  - apply Forall_app. split; [done|by constructor].
  - lia.
Qed.

Lemma decode_char_ok strict c don size vs p d : is_byte c -> decoder_at don size vs p d -> (length vs < size)%nat ->
  scan_result don size (S (length vs)) (b64_scan strict [c] vs p) (decode_char strict c d).
Proof.
  intros Hc Hd Hl. unfold decode_char, scan_result. cbn [b64_scan]. destruct (Z.eqb_spec c base64_pad) as [Ep|Ep].
  { rewrite decide_True by done. split; [lia|]. eexists. split; [reflexivity|]. destruct Hd as (free & -> & Hd & El).
    exists free. split; [|done]. cbn. f_equal. lia. }
  rewrite decide_False by done. rewrite base64_reverse_table_value, some_bind by done.
  destruct (b64_value c) as [v|] eqn:Ev.
  - apply b64_char_value in Ev as (Hv & _); [|done].
    rewrite (proj2 (Z.ltb_ge v 0)), (proj2 (Z.eqb_neq v (-1))), (proj2 (Z.eqb_neq v (-2))), !andb_false_r by lia. cbn [orb].
    assert ((d_padding d =? 0) = Nat.eqb p 0) as -> by (destruct Hd as (free & -> & _); destruct p; done).
    destruct (strict && negb (Nat.eqb p 0)); [done|].
    destruct (decoder_put don size vs p d v Hd Hv Hl) as (d' & E & Hd'). cbn match. split; [rewrite length_app; cbn; lia|]. by exists d'.
  - destruct (decide (is_space c)) as [Hs|Hs].
    + rewrite bool_decide_true by done. rewrite andb_false_r. split; [lia|]. exists d. by destruct strict.
    + rewrite bool_decide_false by done. rewrite andb_true_r. destruct strict; [done|]. split; [lia|]. by exists d.
Qed.

Lemma b64_scan_cons strict c s vs p :
  b64_scan strict (c :: s) vs p = match b64_scan strict [c] vs p with Some (vs, p) => b64_scan strict s vs p | None => None end.
Proof.
  cbn [b64_scan]. destruct (decide _); [done|]. destruct (b64_value c); [by destruct (strict && _)|]. by destruct (strict && _).
Qed.

Lemma decode_loop_ok strict don size rest : forall pre vs p d, Forall is_byte rest -> decoder_at don size vs p d ->
  (length vs + length rest < size)%nat ->
  scan_result don size (length vs + length rest) (b64_scan strict rest vs p) (decode_loop strict (pre ++ rest) (length rest) (llen pre) d).
Proof.
  induction rest as [|c rest IH]; intros pre vs p d Hb Hd Hl; cbn [decode_loop length].
  { split; [lia|]. by exists d. }
  apply Forall_cons in Hb as [Hc Hb]. cbn [length] in Hl. rewrite lload_middle, some_bind, b64_scan_cons.
  pose proof (decode_char_ok strict c don size vs p d Hc Hd ltac:(lia)) as H. unfold scan_result at 1 in H.
  destruct (b64_scan strict [c] vs p) as [[vs' p']|]; [|by rewrite H].
  destruct H as (Hle & d' & -> & Hd'). rewrite some_bind.
  replace (pre ++ c :: rest) with ((pre ++ [c]) ++ rest) by (by rewrite <- app_assoc).
  replace (llen pre + 1) with (llen (pre ++ [c])) by (by rewrite llen_app).
  specialize (IH (pre ++ [c]) vs' p' d' Hb Hd' ltac:(lia)). unfold scan_result in *.
  destruct (b64_scan strict rest vs' p') as [[vs2 p2]|]; [|done]. destruct IH as (? & d2 & ? & ?). split; [lia|]. by exists d2.
Qed.

(** ** What the scan finds *)

Lemma scan_lax s : forall vs p, exists p', b64_scan false s vs p = Some (vs ++ omap b64_value s, p').
Proof.
  induction s as [|c s IH]; intros vs p; cbn [b64_scan]; [exists p; by rewrite app_nil_r|].
  destruct (decide (c = base64_pad)) as [->|Hc].
  - destruct (IH vs (S p)) as [p' ->]. by exists p'.
  - cbn [andb]. csimpl. destruct (b64_value c) as [v|].
    + destruct (IH (vs ++ [v]) p) as [p' ->]. exists p'. by rewrite <- app_assoc.
    + destruct (IH vs p) as [p' ->]. by exists p'.
Qed.

Lemma scan_strict s : forall vs p vs' p', Forall is_byte s -> Forall is_digit64 vs' ->
  b64_scan true s vs p = Some (vs', p') <->
  exists ws q, vs' = vs ++ ws /\ p' = (p + q)%nat /\ (ws = [] \/ p = 0%nat) /\ filter (fun c => ~ is_space c) s = (b64_char <$> ws) ++ replicate q base64_pad.
Proof.
  induction s as [|c s IH]; intros vs p vs' p' Hb Hd; cbn [b64_scan].
  { split.
    - intros [= -> ->]. exists [], 0%nat. rewrite app_nil_r. split_and!; [done|lia|by left|done].
    - intros ([|w ws] & [|q] & -> & -> & _ & H); try done. by rewrite app_nil_r, Nat.add_0_r. }
  apply Forall_cons in Hb as [Hc Hb]. destruct (decide (c = base64_pad)) as [->|Hp].
  - rewrite IH by done. rewrite filter_cons_True by (intros H; by rewrite <- (bool_decide_spec (is_space base64_pad)) in H). split.
    + intros (ws & q & -> & -> & [->|[=]] & ->). exists [], (S q). split_and!; [done|lia|by left|done].
    + intros ([|w ws] & q & -> & -> & Hor & H).
      * destruct q as [|q]; [done|]. injection H as H. exists [], q. split_and!; [done|lia|by left|done].
      * cbn in H. injection H as Hw _. apply Forall_app in Hd as [_ Hd]. apply Forall_cons in Hd as [Hd _]. by destruct (b64_char_byte w Hd) as (_ & [] & _).
  - destruct (b64_value c) as [v|] eqn:Ev.
    + apply b64_char_value in Ev as (Hv & Ec & _ & Hs); [|done]. rewrite filter_cons_True by done. cbn [andb]. destruct (Nat.eqb_spec p 0) as [->|Hp0]; cbn [negb].
      * rewrite IH by done. split.
        -- intros (ws & q & -> & -> & _ & ->). exists (v :: ws), q. rewrite <- app_assoc. split_and!; [done|done|by right|by rewrite Ec].
        -- intros ([|w ws] & q & -> & -> & _ & H).
           ++ destruct q; [done|]. injection H as H1 _. done.
           ++ cbn in H. injection H as Hw H. apply Forall_app in Hd as [_ Hd]. apply Forall_cons in Hd as [Hdw _].
              assert (w = v) as -> by (apply (f_equal b64_value) in Hw; rewrite Ec, !b64_value_char in Hw by done; congruence).
              exists ws, q. rewrite <- app_assoc. split_and!; [done|done|by right|done].
      * split; [done|]. intros (ws & q & -> & -> & [->|Hp1] & Hq); [|done]. destruct q; [done|]. injection Hq as H1 _. done.
    + destruct (decide (is_space c)) as [Hs|Hs].
      * rewrite bool_decide_true by done. cbn [negb andb]. rewrite filter_cons_False by (intros H; by apply H). by apply IH.
      * rewrite bool_decide_false by done. cbn [negb andb]. rewrite filter_cons_True by done. split; [done|].
        intros ([|w ws] & q & -> & -> & _ & H).
        -- destruct q; [done|]. injection H as H1 _. done.
        -- cbn in H. injection H as Hw H. apply Forall_app in Hd as [_ Hd]. apply Forall_cons in Hd as [Hdw _].
           rewrite Hw, b64_value_char in Ev by done. done.
Qed.

Definition bad_padding (vs : list Z) (p : nat) : bool :=
  (length vs mod 4 =? 1)%nat || negb (p =? 0)%nat && ((2 <? p)%nat || negb ((length vs + p) mod 4 =? 0)%nat).

(** The decoder in terms of the scan. *)
Definition scan_bytes (strict : bool) (s : list Z) : option (list Z) :=
  match b64_scan strict s [] 0 with
  | Some (vs, p) => if strict && bad_padding vs p then None else Some (b64_bytes vs)
  | None => None
  end.

Lemma php_base64_decode_impl_ok strict pre rest don free : Forall is_byte rest -> (length rest < length free)%nat ->
  match scan_bytes strict rest with
  | None => php_base64_decode_impl (pre ++ rest) (llen pre) (llen rest) (don ++ free) (llen don) strict = Some None
  | Some bs => exists free', length (bs ++ 0 :: free') = length free /\
      php_base64_decode_impl (pre ++ rest) (llen pre) (llen rest) (don ++ free) (llen don) strict = Some (Some ((don ++ bs) ++ 0 :: free', llen (don ++ bs)))
  end.
Proof.
  intros Hb Hf. unfold scan_bytes, php_base64_decode_impl.
  assert (decoder_at don (length free) [] 0 (mk_decoding 0 0 (llen don) (don ++ free))) as H0 by (exists free; cbn; rewrite app_nil_r; by split_and!).
  pose proof (decode_loop_ok strict don (length free) rest pre [] 0 _ Hb H0 ltac:(cbn; lia)) as H.
  replace (Z.to_nat (llen rest)) with (length rest) by (unfold llen; lia). unfold scan_result in H.
  destruct (b64_scan strict rest [] 0) as [[vs p]|]; [|by rewrite H]. destruct H as (Hle & d & -> & free' & -> & Hd & El).
  rewrite some_bind. cbn [d_i d_padding d_j d_out].
  assert (strict && (llen vs mod 4 =? 1) || strict && negb (Z.of_nat p =? 0) && ((2 <? Z.of_nat p) || negb ((llen vs + Z.of_nat p) mod 4 =? 0)) =
    strict && bad_padding vs p) as Ebad.
  { unfold bad_padding, llen. rewrite <- andb_assoc, <- andb_orb_distrib_r. f_equal. rewrite <- Nat2Z.inj_add. f_equal; [|f_equal; [f_equal|f_equal; [|f_equal]]].
    - pose proof (Nat2Z.inj_mod (length vs) 4). destruct (Nat.eqb_spec (length vs mod 4) 1), (Z.eqb_spec (Z.of_nat (length vs) mod 4) 1); lia.
    - destruct (Nat.eqb_spec p 0), (Z.eqb_spec (Z.of_nat p) 0); lia.
    - destruct (Nat.ltb_spec 2 p), (Z.ltb_spec 2 (Z.of_nat p)); lia.
    - pose proof (Nat2Z.inj_mod (length vs + p) 4). destruct (Nat.eqb_spec ((length vs + p) mod 4) 0), (Z.eqb_spec (Z.of_nat (length vs + p) mod 4) 0); lia. }
  destruct (strict && bad_padding vs p).
  - apply orb_true_iff in Ebad as [-> | ->]; [done|]. by destruct (strict && (llen vs mod 4 =? 1)).
  - apply orb_false_iff in Ebad as [-> ->]. rewrite !length_app in El. pose proof (b64_part_length vs).
    destruct (b64_part vs ++ free') as [|x free2] eqn:Ep; [apply (f_equal length) in Ep; rewrite length_app in Ep; cbn in Ep, Hle; lia|].
    rewrite app_assoc, lstore_middle, some_bind. exists free2. split; [|done]. apply (f_equal length) in Ep. rewrite !length_app in *. cbn in *. lia.
Qed.

Lemma omap_chars vs q : Forall is_digit64 vs -> omap b64_value ((b64_char <$> vs) ++ replicate q base64_pad) = vs.
Proof.
  intros Hd. rewrite omap_app. replace (omap b64_value (replicate q base64_pad)) with (@nil Z) by (by induction q).
  rewrite app_nil_r. induction Hd as [|v vs Hv Hd IH]; [done|]. csimpl. rewrite b64_value_char by done. by rewrite IH.
Qed.

Lemma omap_spaces s : Forall is_byte s -> omap b64_value s = omap b64_value (filter (fun c => ~ is_space c) s).
Proof.
  induction 1 as [|c s Hc Hs IH]; [done|]. csimpl. destruct (decide (is_space c)) as [Hsp|Hsp].
  - rewrite filter_cons_False by tauto. destruct (b64_value c) as [v|] eqn:Ev; [|done]. by apply b64_char_value in Ev as (_ & _ & _ & []).
  - rewrite filter_cons_True by done. csimpl. by rewrite IH.
Qed.

Lemma scan_bytes_lax s : scan_bytes false s = Some (b64_bytes (omap b64_value s)).
Proof. unfold scan_bytes. by destruct (scan_lax s [] 0) as [p ->]. Qed.

Lemma bad_padding_spec vs p : bad_padding vs p = false <-> (length vs mod 4 <> 1)%nat /\ (p = 0 \/ (p <= 2 /\ (length vs + p) mod 4 = 0))%nat.
Proof.
  unfold bad_padding. destruct (Nat.eqb_spec (length vs mod 4) 1), (Nat.eqb_spec p 0), (Nat.ltb_spec 2 p), (Nat.eqb_spec ((length vs + p) mod 4) 0);
    cbn [negb andb orb]; split; intros; try done; try lia; split; (done || lia).
Qed.

Lemma b64_scan_digits strict s : forall vs p vs' p', Forall is_byte s -> Forall is_digit64 vs -> b64_scan strict s vs p = Some (vs', p') -> Forall is_digit64 vs'.
Proof.
  induction s as [|c s IH]; intros vs p vs' p' Hb Hd; cbn [b64_scan]; [by intros [= <- _]|].
  apply Forall_cons in Hb as [Hc Hb]. destruct (decide _); [by apply IH|]. destruct (b64_value c) as [v|] eqn:Ev.
  - destruct (strict && _); [done|]. apply IH; [done|]. apply Forall_app. split; [done|]. constructor; [|done]. by apply b64_char_value in Ev as (? & _).
  - destruct (strict && _); [done|]. by apply IH.
Qed.

Lemma scan_bytes_strict s : Forall is_byte s ->
  (strict_text s -> scan_bytes true s = Some (b64_bytes (omap b64_value s))) /\ (~ strict_text s -> scan_bytes true s = None).
Proof.
  intros Hb. unfold scan_bytes. split.
  - intros (vs & p & E & Hd & Hpad). rewrite (proj2 (scan_strict s [] 0 vs p Hb Hd)).
    + rewrite (proj2 (bad_padding_spec vs p)) by done. cbn [andb]. by rewrite omap_spaces, E, omap_chars.
    + exists vs, p. split_and!; [done|done|by right|done].
  - intros Hn. destruct (b64_scan true s [] 0) as [[vs p]|] eqn:E; [|done]. cbn [andb].
    destruct (bad_padding vs p) eqn:Ebad; [done|]. exfalso. apply Hn.
    pose proof (b64_scan_digits _ _ _ _ _ _ Hb (Forall_nil_2 _) E) as Hd. apply scan_strict in E as (ws & q & -> & -> & _ & E); [|done..].
    cbn [app Nat.add] in *. apply bad_padding_spec in Ebad as [? ?]. exists ws, q. by split_and!.
Qed.

(** ** Texts *)

Lemma b64_text_shape padded s : Forall is_byte s -> exists vs p, b64_text padded s = (b64_char <$> vs) ++ replicate p base64_pad /\
  Forall is_digit64 vs /\ (length vs mod 4 <> 1)%nat /\ (p = 0 \/ (p <= 2 /\ (length vs + p) mod 4 = 0))%nat /\ b64_bytes vs = s.
Proof.
  remember (length s) as len eqn:E. revert s E. induction len as [len IH] using lt_wf_ind. intros s -> Hb. unfold is_byte in *.
  destruct s as [|a [|b [|c s]]]; repeat (apply Forall_cons in Hb as [? Hb]).
  - exists [], 0%nat. split_and!; [done|constructor|done|by left|done].
  - exists [a * 2 ^ 4 / 2 ^ 6; a * 2 ^ 4 mod 64], (if padded then 2 else 0)%nat. split_and!; [by destruct padded| |done|destruct padded; cbn; lia|].
    + repeat constructor; unfold is_digit64; zlia.
    + cbn [b64_bytes]. f_equal. zlia.
  - set (n := (a * 2 ^ 8 + b) * 2 ^ 2). exists [n / 2 ^ 12; n / 2 ^ 6 mod 64; n mod 64], (if padded then 1 else 0)%nat.
    split_and!; [by destruct padded| |done|destruct padded; cbn; lia|].
    + repeat constructor; unfold n, is_digit64; zlia.
    + cbn [b64_bytes]. f_equal; [unfold n; zlia|]. f_equal. unfold n; zlia.
  - destruct (IH (length s) ltac:(cbn; lia) s eq_refl) as (vs & p & E & Hd & Hm & Hp & Es); [done|].
    set (n := a * 2 ^ 16 + b * 2 ^ 8 + c). exists (n / 2 ^ 18 :: n / 2 ^ 12 mod 64 :: n / 2 ^ 6 mod 64 :: n mod 64 :: vs), p.
    change (b64_text padded (a :: b :: c :: s)) with (text3 a b c ++ b64_text padded s). rewrite E.
    assert (forall k : nat, (length (n / 2 ^ 18 :: n / 2 ^ 12 mod 64 :: n / 2 ^ 6 mod 64 :: n mod 64 :: vs)%Z + k) mod 4 = (length vs + k) mod 4)%nat as Hlen.
    { intros k. rewrite <- (Nat.Div0.mod_add (length vs + k) 1). f_equal. cbn. lia. }
    rewrite Hlen, <- (Nat.add_0_r (length (_ :: _))), Hlen, Nat.add_0_r.
    split; [done|]. assert (n / 2 ^ 16 = a /\ n / 2 ^ 8 mod 256 = b /\ n mod 256 = c /\ 0 <= n < 2 ^ 24) as (Ea & Eb & Ec & Hn) by (unfold n; zlia). clearbody n.
    split_and!; [|done|done|].
    + repeat (apply Forall_cons; split; [unfold is_digit64; zlia|]). done.
    + assert (n / 2 ^ 18 * 2 ^ 18 + n / 2 ^ 12 mod 64 * 2 ^ 12 + n / 2 ^ 6 mod 64 * 2 ^ 6 + n mod 64 = n) as En by zlia.
      cbn [b64_bytes]. by rewrite Es, En, Ea, Eb, Ec.
Qed.

Lemma digits_not_space vs q : Forall is_digit64 vs -> filter (fun c => ~ is_space c) ((b64_char <$> vs) ++ replicate q base64_pad) = (b64_char <$> vs) ++ replicate q base64_pad.
Proof.
  intros Hd. apply filter_true. intros c [(v & -> & Hv)%list_elem_of_fmap|[-> _]%elem_of_replicate]%elem_of_app.
  - rewrite Forall_forall in Hd. by apply b64_char_byte, Hd.
  - intros H. by rewrite <- (bool_decide_spec (is_space base64_pad)) in H.
Qed.

Lemma b64_text_bytes padded s : Forall is_byte s -> Forall is_byte (b64_text padded s).
Proof.
  intros Hb. destruct (b64_text_shape padded s Hb) as (vs & p & -> & Hd & _). apply Forall_app.
  split; [|apply Forall_replicate; unfold is_byte, base64_pad; lia].
  apply Forall_fmap. eapply Forall_impl; [exact Hd|]. intros v Hv. by apply b64_char_byte.
Qed.

(** A text decodes to what was encoded, in both modes. *)
Lemma scan_bytes_text strict padded s : Forall is_byte s -> scan_bytes strict (b64_text padded s) = Some s.
Proof.
  intros Hb. pose proof (b64_text_bytes padded s Hb) as Ht. destruct (b64_text_shape padded s Hb) as (vs & p & E & Hd & Hm & Hp & Es).
  rewrite E in *. pose proof (omap_chars vs p Hd) as Eo. destruct strict; [|by rewrite scan_bytes_lax, Eo, Es].
  rewrite (proj1 (scan_bytes_strict _ Ht)), Eo, Es; [done|]. exists vs, p. by rewrite digits_not_space.
Qed.
