(* ===== verification/Base64Simd.v ===== *)
(** Base64 with the SSSE3 instructions (ext/standard/base64.c): sixteen
    characters at a time, then the portable routines; the choice of the
    routines when the program starts; and the theorems for both choices. *)

From stdpp Require Import base numbers list.
From S2P Require Import Prelude CompileRuntime Sse Base64.

(** * The encoder *)

Definition php_base64_encode_ssse3_reshuffle (i : list Z) : list Z :=
  let i := _mm_shuffle_epi8 i (_mm_set_epi8 [10; 11; 9; 10; 7; 8; 6; 7; 4; 5; 3; 4; 1; 2; 0; 1]) in
  let t0 := _mm_and_si128 i (_mm_set1_epi32 0x0fc0fc00) in
  let t1 := _mm_mulhi_epu16 t0 (_mm_set1_epi32 0x04000040) in
  let t2 := _mm_and_si128 i (_mm_set1_epi32 0x003f03f0) in
  let t3 := _mm_mullo_epi16 t2 (_mm_set1_epi32 0x01000010) in
  _mm_or_si128 t1 t3.

Definition php_base64_encode_ssse3_translate (i : list Z) : list Z :=
  let lut := _mm_setr_epi8 [65; 71; -4; -4; -4; -4; -4; -4; -4; -4; -4; -4; -19; -16; 0; 0] in
  let indices := _mm_subs_epu8 i (_mm_set1_epi8 51) in
  let mask := _mm_cmpgt_epi8 i (_mm_set1_epi8 25) in
  let indices := _mm_sub_epi8 indices mask in
  _mm_add_epi8 i (_mm_shuffle_epi8 lut indices).

(** [PHP_BASE64_ENCODE_SSSE3_LOOP] *)
Fixpoint encode_ssse3_loop (n : nat) (str : list Z) (c length : Z) (out : list Z) (o : Z) : option (Z * Z * list Z * Z) :=
  if negb (15 <? length) then Some (c, length, out, o)
  else match n with
  | O => None
  | S n =>
      s ← _mm_loadu_si128 str c;
      let s := php_base64_encode_ssse3_reshuffle s in
      let s := php_base64_encode_ssse3_translate s in
      out ← _mm_storeu_si128 out o s;
      encode_ssse3_loop n str (c + 12) (length - 12) out (o + 16)
  end.

(** * The decoder *)

Definition php_base64_decode_ssse3_reshuffle (i : list Z) : list Z :=
  let merge_ab_and_bc := _mm_maddubs_epi16 i (_mm_set1_epi32 0x01400140) in
  let out := _mm_madd_epi16 merge_ab_and_bc (_mm_set1_epi32 0x00011000) in
  _mm_shuffle_epi8 out (_mm_setr_epi8 [2; 1; 0; 6; 5; 4; 10; 9; 8; 14; 13; 12; -1; -1; -1; -1]).

Definition lut_lo : list Z := _mm_setr_epi8
  [0x15; 0x11; 0x11; 0x11; 0x11; 0x11; 0x11; 0x11; 0x11; 0x11; 0x13; 0x1A; 0x1B; 0x1B; 0x1B; 0x1A].
Definition lut_hi : list Z := _mm_setr_epi8
  [0x10; 0x10; 0x01; 0x02; 0x04; 0x08; 0x04; 0x08; 0x10; 0x10; 0x10; 0x10; 0x10; 0x10; 0x10; 0x10].
Definition lut_roll : list Z := _mm_setr_epi8 [0; 16; 19; 4; -65; -65; -71; -71; 0; 0; 0; 0; 0; 0; 0; 0].

Definition hi_nibbles (s : list Z) : list Z := _mm_and_si128 (_mm_srli_epi32 s 4) (_mm_set1_epi8 0x2f).

(** Some character is not in the alphabet. *)
Definition decode_ssse3_unexpected (s : list Z) : bool :=
  let lo_nibbles := _mm_and_si128 s (_mm_set1_epi8 0x2f) in
  let hi := _mm_shuffle_epi8 lut_hi (hi_nibbles s) in
  let lo := _mm_shuffle_epi8 lut_lo lo_nibbles in
  negb (_mm_movemask_epi8 (_mm_cmpgt_epi8 (_mm_and_si128 lo hi) (_mm_set1_epi8 0)) =? 0).

(** The characters as digits. *)
Definition decode_ssse3_digits (s : list Z) : list Z :=
  let eq_2f := _mm_cmpeq_epi8 s (_mm_set1_epi8 0x2f) in
  let roll := _mm_shuffle_epi8 lut_roll (_mm_add_epi8 eq_2f (hi_nibbles s)) in
  _mm_add_epi8 s roll.

(** [PHP_BASE64_DECODE_SSSE3_LOOP] *)
Fixpoint decode_ssse3_loop (n : nat) (str : list Z) (c length : Z) (out : list Z) (o outl : Z) : option (Z * Z * list Z * Z) :=
  if negb (15 + 6 + 2 <? length) then Some (c, length, out, outl)
  else match n with
  | O => None
  | S n =>
      s ← _mm_loadu_si128 str c;
      if decode_ssse3_unexpected s then Some (c, length, out, outl)
      else
        out ← _mm_storeu_si128 out o (php_base64_decode_ssse3_reshuffle (decode_ssse3_digits s));
        decode_ssse3_loop n str (c + 16) (length - 16) out (o + 12) (outl + 12)
  end.

Section Alloc.
Context (heap_junk : Z -> Z).

Definition php_base64_encode_ssse3 (str : list Z) (flags : Z) : option (list Z * Z) :=
  let result := zend_string_alloc heap_junk ((llen str + 2) / 3 * 4) in
  '(c, length, out, o) ← encode_ssse3_loop (Z.to_nat (llen str)) str 0 (llen str) result 0;
  php_base64_encode_impl str c length out o flags.

Definition php_base64_decode_ex_ssse3 (str : list Z) (strict : bool) : option (option (list Z * Z)) :=
  let result := zend_string_alloc heap_junk (llen str) in
  '(c, length, out, outl) ← decode_ssse3_loop (Z.to_nat (llen str)) str 0 (llen str) result 0 0;
  php_base64_decode_impl str c length out outl strict.

(** The routine that is bound to the name when the program is loaded;
    [zend_cpu_supports_ssse3]: what the processor reports. *)
Definition php_base64_encode_ex (zend_cpu_supports_ssse3 : bool) : list Z -> Z -> option (list Z * Z) :=
  if zend_cpu_supports_ssse3 then php_base64_encode_ssse3 else php_base64_encode_default heap_junk.
Definition php_base64_decode_ex (zend_cpu_supports_ssse3 : bool) : list Z -> bool -> option (option (list Z * Z)) :=
  if zend_cpu_supports_ssse3 then php_base64_decode_ex_ssse3 else php_base64_decode_ex_default heap_junk.
End Alloc.

(** * Lanes of the encoder *)

(** [reshuffle] behind its shuffle, on a vector of one lane. *)
Definition reshuffle_lane (v : list Z) : list Z :=
  _mm_or_si128 (_mm_mulhi_epu16 (_mm_and_si128 v (bytes32 0x0fc0fc00)) (bytes32 0x04000040))
    (_mm_mullo_epi16 (_mm_and_si128 v (bytes32 0x003f03f0)) (bytes32 0x01000010)).

Lemma encode_reshuffle_lanes b0 b1 b2 b3 b4 b5 b6 b7 b8 b9 b10 b11 b12 b13 b14 b15 :
  php_base64_encode_ssse3_reshuffle [b0; b1; b2; b3; b4; b5; b6; b7; b8; b9; b10; b11; b12; b13; b14; b15] =
  reshuffle_lane [b1; b0; b2; b1] ++ reshuffle_lane [b4; b3; b5; b4] ++ reshuffle_lane [b7; b6; b8; b7] ++ reshuffle_lane [b10; b9; b11; b10].
Proof. reflexivity. Qed.

(** The masks of the lanes. *)
Lemma byte_masks x : is_byte x -> Z.land x 0xfc = x / 4 * 4 /\ Z.land x 0xc0 = x / 64 * 64 /\ Z.land x 0xf0 = x / 16 * 16.
Proof.
  intros Hx. set (P x := bool_decide (Z.land x 0xfc = x / 4 * 4 /\ Z.land x 0xc0 = x / 64 * 64 /\ Z.land x 0xf0 = x / 16 * 16)).
  apply (bool_decide_eq_true_1 _), (all_below_spec 256 P); [vm_compute; reflexivity|exact Hx].
Qed.

Lemma bytes16_parts x y : 0 <= x < 256 -> 0 <= y < 256 -> bytes16 (x + 256 * y) = [x; y].
Proof. intros. unfold bytes16. repeat (apply f_equal2; [zlia|]). done. Qed.

Lemma reshuffle_lane_ok a b c : is_byte a -> is_byte b -> is_byte c ->
  reshuffle_lane [b; a; c; b] = [a / 4; a mod 4 * 16 + b / 16; b mod 16 * 4 + c / 64; c mod 64].
Proof.
  intros Ha Hb Hc. destruct (byte_masks a Ha) as (Ma & _ & _), (byte_masks b Hb) as (_ & _ & Mb), (byte_masks c Hc) as (_ & Mc & _).
  assert (reshuffle_lane [b; a; c; b] = zip_with Z.lor
    (of_words16 [(Z.land b 0 + 256 * Z.land a 0xfc) * 0x40 / 2 ^ 16; (Z.land c 0xc0 + 256 * Z.land b 15) * 0x400 / 2 ^ 16])
    (of_words16 [((Z.land b 0xf0 + 256 * Z.land a 3) * 0x10) mod 2 ^ 16; ((Z.land c 63 + 256 * Z.land b 0) * 0x100) mod 2 ^ 16])) as -> by reflexivity.
  rewrite Z.land_0_r, land_15, land_3, land_mask_63, Ma, Mb, Mc. unfold is_byte in *.
  assert ((0 + 256 * (a / 4 * 4)) * 0x40 / 2 ^ 16 = a / 4 + 256 * 0) as -> by zlia.
  assert ((c / 64 * 64 + 256 * (b mod 16)) * 0x400 / 2 ^ 16 = (b mod 16 * 4 + c / 64) + 256 * 0) as -> by zlia.
  assert (((b / 16 * 16 + 256 * (a mod 4)) * 0x10) mod 2 ^ 16 = 0 + 256 * (a mod 4 * 16 + b / 16)) as -> by zlia.
  assert (((c mod 64 + 256 * 0) * 0x100) mod 2 ^ 16 = 0 + 256 * (c mod 64)) as -> by zlia.
  unfold of_words16. cbn [mbind list_bind]. rewrite !bytes16_parts by zlia. cbn. by rewrite !Z.lor_0_r.
Qed.

(** [translate] is the alphabet, byte by byte. *)
Lemma translate_ok v : vector v -> Forall is_digit64 v -> php_base64_encode_ssse3_translate v = b64_char <$> v.
Proof.
  intros Hv Hd. unfold php_base64_encode_ssse3_translate, _mm_subs_epu8, _mm_cmpgt_epi8, _mm_sub_epi8, _mm_add_epi8, _mm_shuffle_epi8.
  rewrite !(set1_map _ v) by done. rewrite <- (list_fmap_id v) at 1 2 4. rewrite !zip_with_map, <- list_fmap_compose, zip_with_map.
  apply list_fmap_ext. intros i x Hx. rewrite Forall_lookup in Hd. specialize (Hd i x Hx).
  set (P x := u8 (id x + (let i := u8 (Z.max 0 (id x - u8 51) - mask8 (schar8 (u8 25) <? schar8 (id x))) in
    if 128 <=? i then 0 else lget 0 (_mm_setr_epi8 [65; 71; -4; -4; -4; -4; -4; -4; -4; -4; -4; -4; -19; -16; 0; 0]) (Z.land i 15))) =? b64_char x).
  apply Z.eqb_eq, (all_below_spec 64 P); [vm_compute; reflexivity|exact Hd].
Qed.

Lemma encode_block_ok b0 b1 b2 b3 b4 b5 b6 b7 b8 b9 b10 b11 b12 b13 b14 b15 :
  let v := [b0; b1; b2; b3; b4; b5; b6; b7; b8; b9; b10; b11; b12; b13; b14; b15] in
  Forall is_byte v ->
  php_base64_encode_ssse3_translate (php_base64_encode_ssse3_reshuffle v) = text3 b0 b1 b2 ++ text3 b3 b4 b5 ++ text3 b6 b7 b8 ++ text3 b9 b10 b11.
Proof.
  intros v Hv. subst v. repeat (apply Forall_cons in Hv as [? Hv]). rewrite encode_reshuffle_lanes, !reshuffle_lane_ok by done. clear Hv.
  assert (forall a b c, is_byte a -> is_byte b -> is_byte c -> Forall is_digit64 [a / 4; a mod 4 * 16 + b / 16; b mod 16 * 4 + c / 64; c mod 64]) as Hd
    by (unfold is_byte; intros; repeat constructor; unfold is_digit64; zlia).
  assert (forall a b c, is_byte a -> is_byte b -> is_byte c -> b64_char <$> [a / 4; a mod 4 * 16 + b / 16; b mod 16 * 4 + c / 64; c mod 64] = text3 a b c) as Ht.
  { unfold is_byte, text3. intros a b c Ha Hb Hc. f_equal. repeat (apply f_equal2; [zlia|]). done. }
  rewrite translate_ok; [|done|repeat (apply Forall_app; split); by apply Hd]. by rewrite !fmap_app, !Ht.
Qed.

Lemma encode_ssse3_loop_ok padded n : forall pre rest don free, Forall is_byte rest -> (length rest <= n)%nat ->
  (length (b64_text padded rest) < length free)%nat ->
  exists mid tail text free', rest = mid ++ tail /\ b64_text padded rest = text ++ b64_text padded tail /\ length free = length (text ++ free') /\
    encode_ssse3_loop n (pre ++ rest) (llen pre) (llen rest) (don ++ free) (llen don)
      = Some (llen (pre ++ mid), llen tail, (don ++ text) ++ free', llen (don ++ text)).
Proof.
  induction n as [|n IH]; intros pre rest don free Hb Hn Hf; cbn [encode_ssse3_loop].
  all: destruct (Z.ltb_spec 15 (llen rest)) as [Hl|Hl]; cbn [negb].
  1: unfold llen in Hl; lia.
  1,3: exists [], rest, [], free; by rewrite !app_nil_r.
  unfold llen in Hl. set (v := take 16 rest). assert (vector v) as Hv by (unfold vector, v; rewrite length_take; lia).
  assert (rest = v ++ drop 16 rest) as E by (symmetry; apply take_drop).
  destruct (vector_split v Hv) as (b0 & b1 & b2 & b3 & b4 & b5 & b6 & b7 & b8 & b9 & b10 & b11 & b12 & b13 & b14 & b15 & Ev).
  set (rest' := [b12; b13; b14; b15] ++ drop 16 rest). set (mid := [b0; b1; b2; b3; b4; b5; b6; b7; b8; b9; b10; b11]).
  set (text := text3 b0 b1 b2 ++ text3 b3 b4 b5 ++ text3 b6 b7 b8 ++ text3 b9 b10 b11).
  assert (rest = mid ++ rest') as E' by (rewrite E at 1; rewrite Ev; reflexivity).
  assert (b64_text padded rest = text ++ b64_text padded rest') as Et by (rewrite E'; reflexivity).
  assert (Forall is_byte v) as Hbv by (by apply Forall_take). assert (length text = 16%nat) as Elt by done.
  assert (_mm_loadu_si128 (pre ++ rest) (llen pre) = Some v) as -> by (rewrite E; by apply loadu_app). rewrite some_bind. clear E. rewrite Ev in Hbv |- *. rewrite encode_block_ok by done. fold text.
  rewrite Et, length_app, Elt in Hf.
  assert (_mm_storeu_si128 (don ++ free) (llen don) text = Some (don ++ text ++ drop 16 free)) as ->.
  { rewrite <- (take_drop 16 free) at 1. apply storeu_app; [|done]. unfold vector. rewrite length_take. lia. }
  rewrite some_bind.
  assert (Forall is_byte rest') as Hb' by (rewrite E' in Hb; by apply Forall_app in Hb as [_ Hb]).
  destruct (IH (pre ++ mid) rest' (don ++ text) (drop 16 free)) as (mid' & tail & text' & free' & Er & Ert & El & IHE); [done| | |].
  { apply (f_equal length) in E'. rewrite length_app in E'. change (length mid) with 12%nat in E'. lia. } { rewrite length_drop. lia. }
  exists (mid ++ mid'), tail, (text ++ text'), free'. split; [by rewrite E', Er, app_assoc|]. split; [by rewrite Et, Ert, app_assoc|].
  split. { rewrite length_drop, length_app in El. rewrite <- app_assoc, !(length_app text), length_app, Elt. lia. }
  replace (llen pre + 12) with (llen (pre ++ mid)) by (by rewrite llen_app). replace (llen don + 16) with (llen (don ++ text)) by (by rewrite llen_app).
  replace (llen rest - 12) with (llen rest') by (rewrite E', llen_app; change (llen mid) with 12; lia).
  rewrite E', !app_assoc in *. exact IHE.
Qed.

(** * Lanes of the decoder *)

(** What [hi_nibbles] has for a character: its high nibble, and a bit of the
    next character of its lane, which no table lookup sees. *)
Definition hi_nibble (b next : Z) : Z := Z.land ((b / 16 + 16 * next) mod 256) 0x2f.

Definition lut (table : list Z) (i : Z) : Z := if 128 <=? i then 0 else lget 0 table (Z.land i 15).
Definition unexpected_char (b next : Z) : bool :=
  0 <? schar8 (Z.land (lut lut_lo (Z.land b 0x2f)) (lut lut_hi (hi_nibble b next))).
Definition char_digit (b next : Z) : Z := u8 (b + lut lut_roll (u8 (mask8 (b =? 0x2f) + hi_nibble b next))).

Lemma lane_ok b next : is_byte b -> is_byte next ->
  match b64_value b with Some v => unexpected_char b next = false /\ char_digit b next = v | None => unexpected_char b next = true end.
Proof.
  intros Hb Hn. assert (exists k, 0 <= k < 16 /\ hi_nibble b next = hi_nibble b k) as (k & Hk & E).
  { exists (next mod 16). split; [zlia|]. unfold hi_nibble. f_equal. unfold is_byte in *. zlia. }
  unfold unexpected_char, char_digit. rewrite E.
  set (P b k := match b64_value b with
    | Some v => negb (0 <? schar8 (Z.land (lut lut_lo (Z.land b 0x2f)) (lut lut_hi (hi_nibble b k)))) &&
                (u8 (b + lut lut_roll (u8 (mask8 (b =? 0x2f) + hi_nibble b k))) =? v)
    | None => 0 <? schar8 (Z.land (lut lut_lo (Z.land b 0x2f)) (lut lut_hi (hi_nibble b k))) end).
  assert (P b k = true) as H by (apply (all_below2_spec 256 16); [vm_compute; reflexivity|exact Hb|exact Hk]). unfold P in H.
  destruct (b64_value b) as [v|]; [|done]. apply andb_true_iff in H as [H1%negb_true_iff H2%Z.eqb_eq]. by split.
Qed.

(** The neighbours inside the lanes of 32 bits. *)
Definition with_next (v : list Z) : list (Z * Z) :=
  match v with
  | [b0; b1; b2; b3; b4; b5; b6; b7; b8; b9; b10; b11; b12; b13; b14; b15] =>
      [(b0, b1); (b1, b2); (b2, b3); (b3, 0); (b4, b5); (b5, b6); (b6, b7); (b7, 0);
       (b8, b9); (b9, b10); (b10, b11); (b11, 0); (b12, b13); (b13, b14); (b14, b15); (b15, 0)]
  | _ => []
  end.

Lemma with_next_ok v : vector v -> Forall is_byte v -> fst <$> with_next v = v /\ Forall (fun p => is_byte p.1 /\ is_byte p.2) (with_next v).
Proof.
  intros Hv Hb. destruct (vector_split v Hv) as (b0 & b1 & b2 & b3 & b4 & b5 & b6 & b7 & b8 & b9 & b10 & b11 & b12 & b13 & b14 & b15 & ->).
  split; [done|]. repeat (apply Forall_cons in Hb as [? Hb]). assert (is_byte 0) by (unfold is_byte; lia).
  cbn [with_next]. repeat (apply Forall_cons; split; [by split|]). constructor.
Qed.

Lemma srli_lane b0 b1 b2 b3 : is_byte b0 -> is_byte b1 -> is_byte b2 -> is_byte b3 ->
  bytes32 (Z.shiftr (b0 + 2 ^ 8 * b1 + 2 ^ 16 * b2 + 2 ^ 24 * b3) 4) =
  [(b0 / 16 + 16 * b1) mod 256; (b1 / 16 + 16 * b2) mod 256; (b2 / 16 + 16 * b3) mod 256; (b3 / 16 + 16 * 0) mod 256].
Proof. unfold is_byte, bytes32. intros. rewrite Z.shiftr_div_pow2 by lia. repeat (apply f_equal2; [zlia|]). done. Qed.

Lemma hi_nibbles_ok v : vector v -> Forall is_byte v -> hi_nibbles v = (fun p => hi_nibble p.1 p.2) <$> with_next v.
Proof.
  intros Hv Hb. destruct (vector_split v Hv) as (b0 & b1 & b2 & b3 & b4 & b5 & b6 & b7 & b8 & b9 & b10 & b11 & b12 & b13 & b14 & b15 & ->).
  repeat (apply Forall_cons in Hb as [? Hb]). unfold hi_nibbles, _mm_srli_epi32. cbn [words32 fmap list_fmap]. unfold of_words32.
  cbn [mbind list_bind]. by rewrite !srli_lane by done.
Qed.

Lemma fmap_fst_map {A B C} (f : A -> C) (l : list (A * B)) v : fst <$> l = v -> f <$> v = (fun p => f p.1) <$> l.
Proof. intros <-. by rewrite <- list_fmap_compose. Qed.

Lemma decode_lanes v : vector v -> Forall is_byte v ->
  decode_ssse3_unexpected v = existsb (fun p => unexpected_char p.1 p.2) (with_next v) /\
  decode_ssse3_digits v = (fun p => char_digit p.1 p.2) <$> with_next v.
Proof.
  intros Hv Hb. destruct (with_next_ok v Hv Hb) as [Ef _]. set (l := with_next v) in *.
  assert (forall z, _mm_set1_epi8 z = (fun _ => u8 z) <$> l) as Hset.
  { intros z. rewrite (set1_map z v Hv). by apply (fmap_fst_map (fun _ => u8 z)). }
  assert (v = (fun p => p.1) <$> l) as Ev by done. split.
  - unfold decode_ssse3_unexpected. rewrite hi_nibbles_ok by done. fold l. rewrite !Hset. rewrite Ev at 1.
    unfold _mm_shuffle_epi8, _mm_cmpgt_epi8, _mm_and_si128. rewrite zip_with_map, <- !list_fmap_compose, zip_with_map, zip_with_map.
    apply (movemask_any (fun p => unexpected_char p.1 p.2)).
  - unfold decode_ssse3_digits. rewrite hi_nibbles_ok by done. fold l. rewrite Hset, Ev at 1. rewrite Ev at 1.
    unfold _mm_shuffle_epi8, _mm_cmpeq_epi8, _mm_add_epi8. rewrite !zip_with_map, <- !list_fmap_compose, zip_with_map. reflexivity.
Qed.

(** [reshuffle] before its shuffle, on a vector of one lane. *)
Definition merge_lane (v : list Z) : list Z :=
  _mm_madd_epi16 (_mm_maddubs_epi16 v (bytes32 0x01400140)) (bytes32 0x00011000).

Lemma decode_reshuffle_lanes d0 d1 d2 d3 d4 d5 d6 d7 d8 d9 d10 d11 d12 d13 d14 d15 :
  php_base64_decode_ssse3_reshuffle [d0; d1; d2; d3; d4; d5; d6; d7; d8; d9; d10; d11; d12; d13; d14; d15] =
  _mm_shuffle_epi8 (merge_lane [d0; d1; d2; d3] ++ merge_lane [d4; d5; d6; d7] ++ merge_lane [d8; d9; d10; d11] ++ merge_lane [d12; d13; d14; d15])
    (_mm_setr_epi8 [2; 1; 0; 6; 5; 4; 10; 9; 8; 14; 13; 12; -1; -1; -1; -1]).
Proof. reflexivity. Qed.

Lemma words16_bytes16 w w' : 0 <= w < 2 ^ 16 -> 0 <= w' < 2 ^ 16 -> words16 (of_words16 [w; w']) = [w; w'].
Proof. intros. cbn. repeat (apply f_equal2; [zlia|]). done. Qed.

Lemma merge_lane_ok a b c d : is_digit64 a -> is_digit64 b -> is_digit64 c -> is_digit64 d ->
  merge_lane [a; b; c; d] = bytes32 (a * 2 ^ 18 + b * 2 ^ 12 + c * 2 ^ 6 + d).
Proof.
  unfold is_digit64. intros. unfold merge_lane, _mm_maddubs_epi16, _mm_madd_epi16.
  assert (madd_pairs8 [a; b; c; d] (bytes32 0x01400140) = [a * 64 + b; c * 64 + d]) as ->.
  { change (madd_pairs8 [a; b; c; d] (bytes32 0x01400140)) with
      [Z.max (- 2 ^ 15) (Z.min (2 ^ 15 - 1) (a * 0x40 + b * 1)); Z.max (- 2 ^ 15) (Z.min (2 ^ 15 - 1) (c * 0x40 + d * 1))].
    repeat (apply f_equal2; [lia|]). done. }
  rewrite words16_bytes16 by lia. change (words16 (bytes32 0x00011000)) with [4096; 1]. cbn [madd_pairs16]. unfold of_words32. cbn [mbind list_bind].
  change (s16 4096) with 4096. change (s16 1) with 1. unfold s16. rewrite !Z.mod_small by lia. rewrite app_nil_r. f_equal. lia.
Qed.

Lemma decode_block_ok ds : vector ds -> Forall is_digit64 ds -> exists junk, length junk = 4%nat /\ length (b64_bytes ds) = 12%nat /\
  php_base64_decode_ssse3_reshuffle ds = b64_bytes ds ++ junk.
Proof.
  intros Hv Hd. destruct (vector_split ds Hv) as (d0 & d1 & d2 & d3 & d4 & d5 & d6 & d7 & d8 & d9 & d10 & d11 & d12 & d13 & d14 & d15 & ->).
  repeat (apply Forall_cons in Hd as [? Hd]). rewrite decode_reshuffle_lanes, !merge_lane_ok by done. exists [0; 0; 0; 0]. split; [done|]. split; [done|].
  assert (forall a b c d, is_digit64 a -> is_digit64 b -> is_digit64 c -> is_digit64 d ->
    (a * 2 ^ 18 + b * 2 ^ 12 + c * 2 ^ 6 + d) / 2 ^ 16 = (a * 2 ^ 18 + b * 2 ^ 12 + c * 2 ^ 6 + d) / 2 ^ 16 mod 256) as Hg by (unfold is_digit64; intros; zlia).
  cbn [b64_bytes]. cbn zeta. rewrite (Hg d0 d1 d2 d3), (Hg d4 d5 d6 d7), (Hg d8 d9 d10 d11), (Hg d12 d13 d14 d15) by done. reflexivity.
Qed.

(** A block without an unexpected character is the text of its digits. *)
Lemma expected_block v : vector v -> Forall is_byte v -> decode_ssse3_unexpected v = false ->
  vector (decode_ssse3_digits v) /\ Forall is_digit64 (decode_ssse3_digits v) /\ v = b64_char <$> decode_ssse3_digits v.
Proof.
  intros Hv Hb Hu. destruct (decode_lanes v Hv Hb) as [Eu ->]. rewrite Eu in Hu. destruct (with_next_ok v Hv Hb) as [Ef Hl].
  assert (forall p, p ∈ with_next v -> is_digit64 (char_digit p.1 p.2) /\ p.1 = b64_char (char_digit p.1 p.2)) as Hp.
  { intros p Hp. rewrite Forall_forall in Hl. destruct (Hl p Hp) as [H1 H2]. pose proof (lane_ok p.1 p.2 H1 H2) as H.
    destruct (b64_value p.1) as [w|] eqn:Ew.
    - destruct H as [_ ->]. by apply b64_char_value in Ew as (? & ? & _).
    - rewrite <- not_true_iff_false, existsb_exists in Hu. exfalso. apply Hu. exists p. by rewrite <- list_elem_of_In. }
  split_and!.
  - unfold vector. rewrite length_fmap, <- (length_fmap fst (with_next v)), Ef. done.
  - apply Forall_fmap, Forall_forall. intros p Hpl. by apply Hp.
  - rewrite <- list_fmap_compose. rewrite <- Ef at 1. apply list_fmap_ext. intros i p Hi. by apply Hp, (list_elem_of_lookup_2 _ i).
Qed.

Lemma decode_ssse3_loop_ok n : forall pre rest don free, Forall is_byte rest -> (length rest <= n)%nat -> (length rest < length free)%nat ->
  exists ws tail free', rest = (b64_char <$> ws) ++ tail /\ Forall is_digit64 ws /\ (length ws mod 4 = 0)%nat /\ (length tail < length free')%nat /\
    decode_ssse3_loop n (pre ++ rest) (llen pre) (llen rest) (don ++ free) (llen don) (llen don)
      = Some (llen (pre ++ (b64_char <$> ws)), llen tail, (don ++ b64_bytes ws) ++ free', llen (don ++ b64_bytes ws)).
Proof.
  induction n as [|n IH]; intros pre rest don free Hb Hn Hf; cbn [decode_ssse3_loop].
  all: destruct (Z.ltb_spec (15 + 6 + 2) (llen rest)) as [Hl|Hl]; cbn [negb].
  1: unfold llen in Hl; lia.
  1,3: exists [], rest, free; by rewrite !app_nil_r.
  unfold llen in Hl. set (v := take 16 rest). assert (vector v) as Hv by (unfold vector, v; rewrite length_take; lia).
  assert (rest = v ++ drop 16 rest) as E by (symmetry; apply take_drop).
  assert (_mm_loadu_si128 (pre ++ rest) (llen pre) = Some v) as -> by (rewrite E; by apply loadu_app). rewrite some_bind.
  assert (Forall is_byte v) as Hbv by (by apply Forall_take).
  destruct (decode_ssse3_unexpected v) eqn:Eu; [exists [], rest, free; by rewrite !app_nil_r|].
  destruct (expected_block v Hv Hbv Eu) as (Hdv & Hdd & Ev). set (ds := decode_ssse3_digits v) in *. clearbody ds.
  destruct (decode_block_ok ds Hdv Hdd) as (junk & Hj & Hbl & ->).
  assert (_mm_storeu_si128 (don ++ free) (llen don) (b64_bytes ds ++ junk) = Some (don ++ (b64_bytes ds ++ junk) ++ drop 16 free)) as ->.
  { rewrite <- (take_drop 16 free) at 1. apply storeu_app; unfold vector; [rewrite length_take; lia|rewrite length_app; lia]. }
  rewrite some_bind. destruct (IH (pre ++ v) (drop 16 rest) (don ++ b64_bytes ds) (junk ++ drop 16 free)) as (ws & tail & free' & Er & Hdw & Hmod & Hlt & IHE);
    [by apply Forall_drop|rewrite length_drop; lia|rewrite length_app, !length_drop; lia|].
  exists (ds ++ ws), tail, free'.
  assert (length ds = 16%nat) as Elds by done. destruct (groups_split ds) as (gs & rs & Eds & Hrs & Hgs & Happ).
  assert (b64_bytes (ds ++ ws) = b64_bytes ds ++ b64_bytes ws) as Ebytes.
  { assert (rs = []) as ->.
    { apply (f_equal length) in Eds. rewrite length_app in Eds. apply Nat.Div0.mod_divides in Hgs as [k Hk]. destruct rs; [done|]. cbn [length] in *. lia. }
    rewrite app_nil_r in Eds. subst gs. apply Happ. }
  split; [by rewrite fmap_app, <- app_assoc, <- Ev, <- Er|]. split; [by apply Forall_app|]. split.
  { rewrite length_app, Elds, Nat.add_comm. replace 16%nat with (4 * 4)%nat by lia. by rewrite Nat.Div0.mod_add. }
  split; [done|]. rewrite Ebytes, fmap_app, <- Ev, !app_assoc.
  replace (llen pre + 16) with (llen (pre ++ v)) by (rewrite llen_app; unfold llen at 2; rewrite Hv; lia).
  replace (llen don + 12) with (llen (don ++ b64_bytes ds)) by (rewrite llen_app; unfold llen at 2; rewrite Hbl; lia).
  replace (llen rest - 16) with (llen (drop 16 rest)) by (unfold llen; rewrite length_drop; lia).
  rewrite E at 1. rewrite !app_assoc in *. exact IHE.
Qed.

(** * Both choices of the routines *)

(** A string in its buffer: the characters, the terminator, what is unused. *)
Definition zstr_holds (r : list Z * Z) (t : list Z) : Prop := exists unused, r = (t ++ 0 :: unused, llen t).

Lemma zstr_contents r t : zstr_holds r t -> take (Z.to_nat r.2) r.1 = t /\ lload r.1 r.2 = Some 0.
Proof.
  intros (unused & ->). cbn [fst snd]. split; [|apply lload_middle]. unfold llen. by rewrite Nat2Z.id, take_app_length.
Qed.

Lemma length_zend_string_alloc hj n : 0 <= n -> length (zend_string_alloc hj n) = S (Z.to_nat n).
Proof. intros. unfold zend_string_alloc. rewrite length_fmap, length_zrange. lia. Qed.

Lemma encode_room hj padded s : (length (b64_text padded s) < length (zend_string_alloc hj ((llen s + 2) / 3 * 4)))%nat.
Proof.
  rewrite length_zend_string_alloc by (unfold llen; zlia). pose proof (b64_text_length padded s).
  assert (Z.to_nat ((llen s + 2) / 3 * 4) = (length s + 2) / 3 * 4)%nat as ->; [|lia].
  unfold llen. rewrite <- (Nat2Z.id ((length s + 2) / 3 * 4)). f_equal. rewrite Nat2Z.inj_mul, Nat2Z.inj_div. lia.
Qed.

Lemma php_base64_encode_ex_ok hj cpu s flags : Forall is_byte s ->
  exists r, php_base64_encode_ex hj cpu s flags = Some r /\ zstr_holds r (b64_text (is_padded flags) s).
Proof.
  intros Hb. pose proof (encode_room hj (is_padded flags) s) as Hroom. destruct cpu; unfold php_base64_encode_ex.
  - unfold php_base64_encode_ssse3. destruct (encode_ssse3_loop_ok (is_padded flags) (Z.to_nat (llen s)) [] s [] _ Hb ltac:(unfold llen; lia) Hroom)
      as (mid & tail & text & free' & -> & Et & El & Eq).
    cbn [app] in Eq. change (llen []) with 0 in Eq. rewrite Eq, some_bind. apply Forall_app in Hb as [_ Hb].
    rewrite php_base64_encode_impl_ok; [|done|rewrite Et, El, !length_app in Hroom; lia].
    eexists. split; [reflexivity|]. rewrite Et. by eexists.
  - pose proof (php_base64_encode_impl_ok flags [] s [] _ Hb Hroom) as E. eexists. split; [exact E|]. by eexists.
Qed.

(** Digits in front of a text. *)
Lemma scan_after strict rest ws : forall vs p, b64_scan strict rest (ws ++ vs) p = (fun r => (ws ++ r.1, r.2)) <$> b64_scan strict rest vs p.
Proof.
  induction rest as [|c rest IH]; intros vs p; cbn [b64_scan]; [done|]. destruct (decide _); [apply IH|].
  destruct (b64_value c); [destruct (strict && _); [done|]; by rewrite <- app_assoc, IH|]. destruct (strict && _); [done|]. apply IH.
Qed.

Lemma scan_digits strict ws rest : forall vs, Forall is_digit64 ws -> b64_scan strict ((b64_char <$> ws) ++ rest) vs 0 = b64_scan strict rest (vs ++ ws) 0.
Proof.
  induction ws as [|w ws IH]; intros vs Hd; [by rewrite app_nil_r|]. apply Forall_cons in Hd as [Hw Hd]. cbn [fmap list_fmap app b64_scan].
  rewrite decide_False by (by apply b64_char_byte). rewrite b64_value_char, Nat.eqb_refl, andb_false_r, IH, <- app_assoc; done.
Qed.

Lemma scan_bytes_app strict ws rest : Forall is_digit64 ws -> (length ws mod 4 = 0)%nat ->
  scan_bytes strict ((b64_char <$> ws) ++ rest) = (b64_bytes ws ++.) <$> scan_bytes strict rest.
Proof.
  intros Hd Hm. unfold scan_bytes. rewrite scan_digits by done. cbn [app]. rewrite <- (app_nil_r ws) at 1. rewrite scan_after.
  destruct (b64_scan strict rest [] 0) as [[vs p]|]; [|done]. cbn [fmap option_fmap option_map fst snd].
  assert (bad_padding (ws ++ vs) p = bad_padding vs p) as ->.
  { apply Nat.Div0.mod_divides in Hm as [k Hk]. unfold bad_padding. rewrite length_app, Hk, <- Nat.add_assoc, (Nat.mul_comm 4 k), !(Nat.add_comm (k * 4)).
    by rewrite !Nat.Div0.mod_add. }
  destruct (strict && bad_padding vs p); [done|]. cbn. f_equal.
  destruct (groups_split ws) as (gs & rs & E & Hrs & Hgs & Happ). assert (rs = []) as ->.
  { apply (f_equal length) in E. rewrite length_app in E. apply Nat.Div0.mod_divides in Hgs as [k Hk], Hm as [k' Hk']. destruct rs; [done|]. cbn [length] in *. lia. }
  rewrite app_nil_r in E. subst gs. apply Happ.
Qed.

Lemma php_base64_decode_ex_ok hj cpu s strict : Forall is_byte s ->
  match scan_bytes strict s with
  | None => php_base64_decode_ex hj cpu s strict = Some None
  | Some bs => exists r, php_base64_decode_ex hj cpu s strict = Some (Some r) /\ zstr_holds r bs
  end.
Proof.
  intros Hb. set (result := zend_string_alloc hj (llen s)).
  assert (length s < length result)%nat as Hroom by (unfold result; rewrite length_zend_string_alloc; unfold llen; lia).
  destruct cpu; unfold php_base64_decode_ex.
  - unfold php_base64_decode_ex_ssse3. fold result.
    destruct (decode_ssse3_loop_ok (Z.to_nat (llen s)) [] s [] result Hb ltac:(unfold llen; lia) Hroom) as (ws & tail & free' & -> & Hd & Hm & Hlt & Eq).
    cbn [app] in Eq. change (llen []) with 0 in Eq. rewrite Eq, some_bind. apply Forall_app in Hb as [_ Hb]. rewrite scan_bytes_app by done.
    pose proof (php_base64_decode_impl_ok strict (b64_char <$> ws) tail (b64_bytes ws) free' Hb Hlt) as H.
    destruct (scan_bytes strict tail) as [bs|]; cbn [fmap option_fmap option_map]; [|done].
    destruct H as (free2 & _ & ->). eexists. split; [reflexivity|]. by eexists.
  - unfold php_base64_decode_ex_default. fold result. pose proof (php_base64_decode_impl_ok strict [] s [] result Hb Hroom) as H.
    change (llen []) with 0 in H. cbn [app] in H. destruct (scan_bytes strict s) as [bs|]; [|done].
    destruct H as (free2 & _ & ->). eexists. split; [reflexivity|]. by eexists.
Qed.

(** C17: [php_base64_encode_ex] and [php_base64_decode_ex], each with or without
    SSSE3, never leave their buffers; the encoder writes the RFC 4648 text of the
    input, padded unless the flag says otherwise, and the decoder gets the input
    back from it in both modes, whatever memory the allocator returned. *)
Theorem php_base64_roundtrip hj hj' cpu cpu' s flags strict : Forall is_byte s ->
  exists r, php_base64_encode_ex hj cpu s flags = Some r /\ zstr_holds r (b64_text (is_padded flags) s) /\
  exists r', php_base64_decode_ex hj' cpu' (take (Z.to_nat r.2) r.1) strict = Some (Some r') /\ zstr_holds r' s.
Proof.
  intros Hb. destruct (php_base64_encode_ex_ok hj cpu s flags Hb) as (r & E & Hr). exists r. split; [done|]. split; [done|].
  destruct (zstr_contents _ _ Hr) as [-> _]. pose proof (php_base64_decode_ex_ok hj' cpu' _ strict (b64_text_bytes (is_padded flags) s Hb)) as H.
  by rewrite scan_bytes_text in H.
Qed.

Lemma php_base64_roundtrip_witness : let s := [104; 101; 108; 108; 111; 0; 255; 32; 33; 34; 35; 36; 37; 38; 39; 40; 41] in
  Forall is_byte s /\ exists r, php_base64_encode_ex (fun _ => 170) true s 0 = Some r /\ zstr_holds r (b64_text (is_padded 0) s) /\
  exists r', php_base64_decode_ex (fun _ => 85) false (take (Z.to_nat r.2) r.1) true = Some (Some r') /\ zstr_holds r' s.
Proof.
  intros s. assert (Forall is_byte s) as Hs by (repeat (apply Forall_cons; split; [unfold is_byte; lia|]); constructor).
  split; [exact Hs|]. exact (php_base64_roundtrip (fun _ => 170) (fun _ => 85) true false s 0 true Hs).
Defined.

(** C22: [php_base64_decode_ex] on any input, with or without SSSE3.  The lax
    mode never fails and decodes the characters of the alphabet; the strict mode
    refuses exactly the inputs that are not digits followed by correct padding,
    whitespace apart, and else returns the same bytes. *)
Theorem php_base64_decode_ex_correct hj cpu s : Forall is_byte s ->
  (exists r, php_base64_decode_ex hj cpu s false = Some (Some r) /\ zstr_holds r (b64_bytes (omap b64_value s))) /\
  (strict_text s -> exists r, php_base64_decode_ex hj cpu s true = Some (Some r) /\ zstr_holds r (b64_bytes (omap b64_value s))) /\
  (~ strict_text s -> php_base64_decode_ex hj cpu s true = Some None).
Proof.
  intros Hb. pose proof (php_base64_decode_ex_ok hj cpu s false Hb) as Hl. rewrite scan_bytes_lax in Hl. split; [done|].
  pose proof (php_base64_decode_ex_ok hj cpu s true Hb) as Hs. destruct (scan_bytes_strict s Hb) as [H1 H2].
  split; intros Ht; [by rewrite (H1 Ht) in Hs|by rewrite (H2 Ht) in Hs].
Qed.

Lemma php_base64_decode_ex_correct_witness : let s := [81; 81; 61; 10; 61] in
  Forall is_byte s /\ exists r, php_base64_decode_ex (fun _ => 7) true s true = Some (Some r) /\ zstr_holds r [65].
Proof.
  intros s. assert (Forall is_byte s) as Hs by (repeat (apply Forall_cons; split; [unfold is_byte; lia|]); constructor).
  split; [exact Hs|]. destruct (php_base64_decode_ex_correct (fun _ => 7) true s Hs) as (_ & H & _).
  apply H. exists [16; 16], 2%nat. split_and!; [vm_compute; reflexivity| |cbn; lia|right; cbn; lia].
  repeat (apply Forall_cons; split; [lia|]). constructor.
Defined.
