(* ===== verification/UrlCodec.v ===== *)
(** URL encoding (ext/standard/url.c): the encoder with its loop for SSE2 and
    its loop for single characters, and the decoder, which may write into the
    memory it reads. *)

From stdpp Require Import base numbers list.
From S2P Require Import Prelude CompileRuntime Sse Base64.

(** * Hexadecimal digits *)

Definition isxdigit (c : Z) : bool :=
  (48 <=? c) && (c <=? 57) || (65 <=? c) && (c <=? 70) || (97 <=? c) && (c <=? 102).

Definition php_htoi_single (x : Z) : Z := 9 * Z.shiftr x 6 + Z.land x 0xf.

(** The number of the two digits at [s]. *)
Definition php_htoi (m : list Z) (s : Z) : option Z :=
  c ← lload m s;
  let value := php_htoi_single c * 16 in
  c ← lload m (s + 1);
  Some (value + php_htoi_single c).

(** "0123456789ABCDEF" *)
Definition hexchars : list Z := zrange 48 10 ++ zrange 65 6 ++ [0].

(** * The encoder *)

(** The characters that stay as they are, byte by byte, 255 or 0. *)
Definition url_mask (raw : bool) (i : list Z) : list Z :=
  let upper := _mm_and_si128 (_mm_cmplt_epi8 i (_mm_set1_epi8 (90 + 1))) (_mm_cmpgt_epi8 i (_mm_set1_epi8 (65 - 1))) in
  let lower := _mm_and_si128 (_mm_cmplt_epi8 i (_mm_set1_epi8 (122 + 1))) (_mm_cmpgt_epi8 i (_mm_set1_epi8 (97 - 1))) in
  let mask := _mm_or_si128 upper lower in
  let number := _mm_and_si128 (_mm_cmplt_epi8 i (_mm_set1_epi8 (57 + 1))) (_mm_cmpgt_epi8 i (_mm_set1_epi8 (48 - 1))) in
  let mask := _mm_or_si128 mask number in
  let mask := _mm_or_si128 mask (_mm_cmpeq_epi8 i (_mm_set1_epi8 46)) in
  let mask := _mm_or_si128 mask (_mm_cmpeq_epi8 i (_mm_set1_epi8 45)) in
  _mm_or_si128 mask (_mm_cmpeq_epi8 i (_mm_set1_epi8 95)).

(** The block with its blanks replaced, and the mask. *)
Definition url_block (raw : bool) (i : list Z) : list Z * list Z :=
  let mask := url_mask raw i in
  if negb raw then
    let eq := _mm_cmpeq_epi8 i (_mm_set1_epi8 32) in
    if negb (_mm_movemask_epi8 eq =? 0)
    then (_mm_add_epi8 i (_mm_and_si128 eq (_mm_set1_epi8 (43 - 32))), _mm_or_si128 mask eq)
    else (i, mask)
  else (i, _mm_or_si128 mask (_mm_cmpeq_epi8 i (_mm_set1_epi8 126))).

(** The loop over the bytes of a block of which some are escaped. *)
Fixpoint url_escape_loop (xmm : list Z) (bits i : Z) (to_ : list Z) (o : Z) : option (list Z * Z) :=
  match xmm with
  | [] => Some (to_, o)
  | x :: xmm =>
      '(to_, o) ← (if negb (Z.land bits (Z.shiftl 1 i) =? 0) then put to_ o [x]
                   else h ← lload hexchars (Z.shiftr x 4); l ← lload hexchars (Z.land x 0xf); put to_ o [37; h; l]);
      url_escape_loop xmm bits (i + 1) to_ o
  end.

Fixpoint url_encode_sse2_loop (n : nat) (raw : bool) (s : list Z) (from end_ : Z) (to_ : list Z) (o : Z) : option (Z * list Z * Z) :=
  if negb (from + 16 <? end_) then Some (from, to_, o)
  else match n with
  | O => None
  | S n =>
      i ← _mm_loadu_si128 s from;
      let (i, mask) := url_block raw i in
      let bits := _mm_movemask_epi8 mask in
      '(to_, o) ← (if Z.land bits 0xffff =? 0xffff then to_ ← _mm_storeu_si128 to_ o i; Some (to_, o + 16)
                   else url_escape_loop i bits 0 to_ o);
      url_encode_sse2_loop n raw s (from + 16) end_ to_ o
  end.

Fixpoint url_encode_loop (n : nat) (raw : bool) (s : list Z) (from end_ : Z) (to_ : list Z) (o : Z) : option (list Z * Z) :=
  if negb (from <? end_) then Some (to_, o)
  else match n with
  | O => None
  | S n =>
      c ← lload s from;
      '(to_, o) ← (
        if negb raw && (c =? 32) then put to_ o [43]
        else if (c <? 48) && negb (c =? 45) && negb (c =? 46) || (c <? 65) && (57 <? c) || (90 <? c) && (c <? 97) && negb (c =? 95)
                || (122 <? c) && (negb raw || negb (c =? 126))
        then h ← lload hexchars (Z.shiftr c 4); l ← lload hexchars (Z.land c 15); put to_ o [37; h; l]
        else put to_ o [c]);
      url_encode_loop n raw s (from + 1) end_ to_ o
  end.

(** [have_sse2]: the compilation for a processor with SSE2.  The buffer and the length of the text. *)
Definition php_url_encode_impl (have_sse2 : bool) (to_ s : list Z) (len : Z) (raw : bool) : option (list Z * Z) :=
  '(from, to_, o) ← (if have_sse2 then url_encode_sse2_loop (Z.to_nat len) raw s 0 len to_ 0 else Some (0, to_, 0));
  url_encode_loop (Z.to_nat len) raw s from len to_ o.

(** [zend_string_truncate]: the characters that are kept, with the terminator. *)
Definition zend_string_truncate (s : list Z) (len : Z) : list Z := take (Z.to_nat (len + 1)) s.

Section Alloc.
Context (heap_junk : Z -> Z) (have_sse2 : bool).

Definition php_url_encode_helper (s : list Z) (raw : bool) : option (list Z * Z) :=
  let result := zend_string_alloc heap_junk (3 * llen s) in
  '(result, length) ← php_url_encode_impl have_sse2 result s (llen s) raw;
  result ← lstore result length 0;
  Some (zend_string_truncate result length, length).

Definition php_url_encode (s : list Z) : option (list Z * Z) := php_url_encode_helper s false.
Definition php_raw_url_encode (s : list Z) : option (list Z * Z) := php_url_encode_helper s true.
End Alloc.

(** * The decoder *)

(** Both decoders, in a memory [m] with the source at [data] and the
    destination at [dest]; [plus]: whether '+' is a blank. *)
Fixpoint url_decode_loop (n : nat) (plus : bool) (m : list Z) (dest data src_len : Z) : option (list Z * Z) :=
  if src_len =? 0 then Some (m, dest)
  else match n with
  | O => None
  | S n =>
      let src_len := src_len - 1 in
      c ← lload m data;
      if plus && (c =? 43) then m ← lstore m dest 32; url_decode_loop n plus m (dest + 1) (data + 1) src_len
      else
        escape ← (if (c =? 37) && (2 <=? src_len)
                  then c1 ← lload m (data + 1); if isxdigit c1 then c2 ← lload m (data + 2); Some (isxdigit c2) else Some false
                  else Some false);
        if (escape : bool)
        then v ← php_htoi m (data + 1); m ← lstore m dest (u8 v); url_decode_loop n plus m (dest + 1) (data + 3) (src_len - 2)
        else m ← lstore m dest c; url_decode_loop n plus m (dest + 1) (data + 1) src_len
  end.

Definition url_decode_terminated (plus : bool) (m : list Z) (dest src src_len : Z) : option (list Z * Z) :=
  '(m, e) ← url_decode_loop (Z.to_nat src_len) plus m dest src src_len;
  m ← lstore m e 0;
  Some (m, e - dest).

Definition php_url_decode_ex : list Z -> Z -> Z -> Z -> option (list Z * Z) := url_decode_terminated true.
Definition php_raw_url_decode_ex : list Z -> Z -> Z -> Z -> option (list Z * Z) := url_decode_terminated false.

(** In place. *)
Definition php_url_decode (m : list Z) (str len : Z) : option (list Z * Z) := php_url_decode_ex m str str len.
Definition php_raw_url_decode (m : list Z) (str len : Z) : option (list Z * Z) := php_raw_url_decode_ex m str str len.

(** * Reference *)

(** The characters that a URL may have anywhere. *)
Definition unreserved (raw : bool) (c : Z) : bool :=
  (48 <=? c) && (c <=? 57) || (65 <=? c) && (c <=? 90) || (97 <=? c) && (c <=? 122) || (c =? 45) || (c =? 46) || (c =? 95) || raw && (c =? 126).

Definition upper_hex_digit (v : Z) : Z := if v <? 10 then 48 + v else 65 + (v - 10).
Definition hex_value (c : Z) : Z := if c <=? 57 then c - 48 else if c <=? 70 then c - 65 + 10 else c - 97 + 10.

Definition url_char (raw : bool) (c : Z) : list Z :=
  if negb raw && (c =? 32) then [43] else if unreserved raw c then [c] else [37; upper_hex_digit (c / 16); upper_hex_digit (c mod 16)].
Definition url_text (raw : bool) (s : list Z) : list Z := s ≫= url_char raw.

Fixpoint url_bytes (plus : bool) (t : list Z) : list Z :=
  match t with
  | [] => []
  | c :: t' =>
      if plus && (c =? 43) then 32 :: url_bytes plus t'
      else match t' with
      | h :: l :: t2 => if (c =? 37) && isxdigit h && isxdigit l then hex_value h * 16 + hex_value l :: url_bytes plus t2 else c :: url_bytes plus t'
      | _ => c :: url_bytes plus t'
      end
  end.

(** * The encoder writes the text *)

Lemma hexchars_digit v : 0 <= v < 16 -> lload hexchars v = Some (upper_hex_digit v).
Proof.
  intros Hv. set (P v := bool_decide (lload hexchars v = Some (upper_hex_digit v))).
  apply (bool_decide_eq_true_1 _), (all_below_spec 16 P); [vm_compute; reflexivity|exact Hv].
Qed.

(** What one character becomes in a block. *)
Definition kept (raw : bool) (c : Z) : bool := unreserved raw c || negb raw && (c =? 32).
Definition replaced (raw : bool) (c : Z) : Z := if negb raw && (c =? 32) then 43 else c.

Lemma url_mask_ok v raw : vector v -> Forall is_byte v -> url_mask raw v = (fun c => mask8 (unreserved false c)) <$> v.
Proof.
  intros Hv Hb. unfold url_mask, _mm_or_si128, _mm_and_si128, _mm_cmplt_epi8, _mm_cmpgt_epi8, _mm_cmpeq_epi8.
  rewrite !(set1_map _ v), !zip_with_self, !zip_with_map by done.
  apply list_fmap_ext. intros i c Hc. rewrite Forall_lookup in Hb. specialize (Hb i c Hc). cbn beta.
  match goal with |- ?l = _ => let f := eval pattern c in l in match f with ?g _ => set (P := fun c => g c =? mask8 (unreserved false c)) end end.
  apply Z.eqb_eq, (all_below_spec 256 P); [vm_compute; reflexivity|exact Hb].
Qed.

Lemma mask8_or a b : Z.lor (mask8 a) (mask8 b) = mask8 (a || b).
Proof. by destruct a, b. Qed.

Lemma unreserved_raw c : unreserved true c = unreserved false c || (c =? 126).
Proof. unfold unreserved. cbn [andb]. by rewrite orb_false_r. Qed.

Lemma url_block_ok v raw : vector v -> Forall is_byte v ->
  url_block raw v = (replaced raw <$> v, (fun c => mask8 (kept raw c)) <$> v).
Proof.
  intros Hv Hb. unfold url_block. rewrite url_mask_ok by done. destruct raw; cbn [negb].
  - unfold _mm_cmpeq_epi8, _mm_or_si128. rewrite (set1_map _ v), zip_with_self, zip_with_map by done. f_equal; [by rewrite list_fmap_id|].
    apply list_fmap_ext. intros i c Hc. unfold kept. cbn [negb andb]. by rewrite mask8_or, orb_false_r, unreserved_raw.
  - unfold _mm_cmpeq_epi8. rewrite !(set1_map _ v), zip_with_self by done. change (u8 32) with 32. rewrite movemask_any.
    destruct (existsb (fun x => x =? 32) v) eqn:Ex.
    + unfold _mm_and_si128, _mm_or_si128, _mm_add_epi8. rewrite !zip_with_map, zip_with_self. f_equal; apply list_fmap_ext; intros i c Hc.
      * rewrite Forall_lookup in Hb. specialize (Hb i c Hc). unfold replaced, u8, is_byte in *. cbn [negb andb].
        destruct (Z.eqb_spec c 32) as [->|]; [done|]. cbn [mask8]. rewrite Z.land_0_l. zlia.
      * by rewrite mask8_or.
    + assert (forall i c, v !! i = Some c -> (c =? 32) = false) as Hno.
      { intros i c Hc. apply not_true_iff_false. intros E. apply not_true_iff_false in Ex. apply Ex, existsb_exists. exists c.
        split; [|done]. by apply list_elem_of_In, (list_elem_of_lookup_2 _ i). }
      f_equal.
      * rewrite <- (list_fmap_id v) at 1. apply list_fmap_ext. intros i c Hc. unfold replaced. by rewrite (Hno i c Hc).
      * apply list_fmap_ext. intros i c Hc. unfold kept. by rewrite (Hno i c Hc), orb_false_r.
Qed.

(** Both ways to write a character. *)
Lemma url_char_kept raw c : kept raw c = true -> url_char raw c = [replaced raw c].
Proof.
  unfold kept, url_char, replaced. destruct (negb raw && (c =? 32)); [done|]. rewrite orb_false_r. by intros ->.
Qed.
Lemma url_char_escaped raw c : kept raw c = false -> url_char raw c = [37; upper_hex_digit (replaced raw c / 16); upper_hex_digit (replaced raw c mod 16)].
Proof. unfold kept, url_char, replaced. destruct (negb raw && (c =? 32)); [by rewrite orb_true_r|]. rewrite orb_false_r. by intros ->. Qed.

Lemma replaced_byte raw c : is_byte c -> is_byte (replaced raw c).
Proof. unfold replaced, is_byte. destruct (negb raw && (c =? 32)); lia. Qed.

Lemma put_escaped x don free : is_byte x -> (3 <= length free)%nat ->
  (h ← lload hexchars (Z.shiftr x 4); l ← lload hexchars (Z.land x 0xf); put (don ++ free) (llen don) [37; h; l]) =
  Some (don ++ [37; upper_hex_digit (x / 16); upper_hex_digit (x mod 16)] ++ drop 3 free, llen (don ++ [37; upper_hex_digit (x / 16); upper_hex_digit (x mod 16)])).
Proof.
  intros Hx Hf. rewrite (Z.shiftr_div_pow2 x 4) by lia. change (Z.land x 0xf) with (Z.land x 15). rewrite land_15. unfold is_byte in Hx.
  rewrite !hexchars_digit, !some_bind by zlia. by apply put_bytes_ok.
Qed.

Lemma url_char_length raw c : (1 <= length (url_char raw c) <= 3)%nat.
Proof. unfold url_char. destruct (negb raw && _); [cbn; lia|]. destruct (unreserved raw c); cbn; lia. Qed.

Lemma url_text_length raw s : (length (url_text raw s) <= 3 * length s)%nat.
Proof.
  induction s as [|c s IH]; [done|]. change (url_text raw (c :: s)) with (url_char raw c ++ url_text raw s).
  rewrite length_app. pose proof (url_char_length raw c). cbn [length]. lia.
Qed.

Lemma url_escape_loop_ok raw bits cs : forall i don free, 0 <= i -> Forall is_byte cs ->
  (forall k c, cs !! k = Some c -> Z.testbit bits (i + Z.of_nat k) = kept raw c) -> (length (url_text raw cs) <= length free)%nat ->
  url_escape_loop (replaced raw <$> cs) bits i (don ++ free) (llen don) =
    Some (don ++ url_text raw cs ++ drop (length (url_text raw cs)) free, llen (don ++ url_text raw cs)).
Proof.
  induction cs as [|c cs IH]; intros i don free Hi Hb Hbits Hf; [cbn; by rewrite app_nil_r|]. cbn [fmap list_fmap url_escape_loop].
  apply Forall_cons in Hb as [Hc Hb]. rewrite land_bit by done. pose proof (Hbits 0%nat c eq_refl) as H0. rewrite Z.add_0_r in H0. rewrite H0.
  change (url_text raw (c :: cs)) with (url_char raw c ++ url_text raw cs) in *. rewrite length_app in *.
  assert ((if kept raw c then put (don ++ free) (llen don) [replaced raw c]
           else h ← lload hexchars (Z.shiftr (replaced raw c) 4); l ← lload hexchars (Z.land (replaced raw c) 15); put (don ++ free) (llen don) [37; h; l])
    = Some (don ++ url_char raw c ++ drop (length (url_char raw c)) free, llen (don ++ url_char raw c))) as ->.
  { destruct (kept raw c) eqn:Ek.
    - rewrite (url_char_kept raw c Ek) in *. apply put_bytes_ok. lia.
    - rewrite (url_char_escaped raw c Ek) in *. apply put_escaped; [by apply replaced_byte|cbn [length] in Hf; lia]. }
  rewrite some_bind, app_assoc, IH; [|lia|done| |rewrite length_drop; lia].
  - by rewrite drop_drop, <- !app_assoc.
  - intros k x Hk. rewrite <- (Hbits (S k) x Hk). f_equal. lia.
Qed.

Lemma scalar_test raw c : is_byte c -> negb raw && (c =? 32) = false ->
  (c <? 48) && negb (c =? 45) && negb (c =? 46) || (c <? 65) && (57 <? c) || (90 <? c) && (c <? 97) && negb (c =? 95)
    || (122 <? c) && (negb raw || negb (c =? 126)) = negb (unreserved raw c).
Proof.
  intros Hc. set (P c := forallb (fun raw => (negb raw && (c =? 32)) || Bool.eqb ((c <? 48) && negb (c =? 45) && negb (c =? 46) || (c <? 65) && (57 <? c) ||
    (90 <? c) && (c <? 97) && negb (c =? 95) || (122 <? c) && (negb raw || negb (c =? 126))) (negb (unreserved raw c))) [true; false]).
  assert (P c = true) as H by (apply (all_below_spec 256 P); [vm_compute; reflexivity|exact Hc]). unfold P in H. cbn [forallb] in H.
  apply andb_true_iff in H as [H1 H]. apply andb_true_iff in H as [H2 _]. intros Hn.
  destruct raw; [rewrite Hn in H1; by apply eqb_prop in H1|rewrite Hn in H2; by apply eqb_prop in H2].
Qed.

Lemma url_encode_loop_ok raw n : forall pre rest don free, Forall is_byte rest -> (length rest <= n)%nat -> (length (url_text raw rest) <= length free)%nat ->
  url_encode_loop n raw (pre ++ rest) (llen pre) (llen (pre ++ rest)) (don ++ free) (llen don) =
    Some (don ++ url_text raw rest ++ drop (length (url_text raw rest)) free, llen (don ++ url_text raw rest)).
Proof.
  induction n as [|n IH]; intros pre [|c rest] don free Hb Hn Hf; cbn [length] in Hn; try lia; cbn [url_encode_loop].
  1,2: rewrite app_nil_r, (proj2 (Z.ltb_ge (llen pre) (llen pre))) by lia; cbn; by rewrite app_nil_r.
  rewrite (proj2 (Z.ltb_lt _ _)) by (rewrite llen_app, llen_cons; pose proof (llen_nonneg rest); lia). cbn [negb].
  apply Forall_cons in Hb as [Hc Hb]. rewrite lload_middle, some_bind.
  change (url_text raw (c :: rest)) with (url_char raw c ++ url_text raw rest) in *. rewrite length_app in *.
  match goal with |- (?step ≫= _) = _ => assert (step = Some (don ++ url_char raw c ++ drop (length (url_char raw c)) free, llen (don ++ url_char raw c))) as -> end.
  { unfold url_char in *. destruct (negb raw && (c =? 32)) eqn:Eb; [apply put_bytes_ok; lia|]. rewrite scalar_test by done.
    destruct (unreserved raw c); cbn [negb]; [apply put_bytes_ok; lia|]. apply put_escaped; [done|cbn [length] in Hf; lia]. }
  rewrite some_bind, !app_assoc. replace (pre ++ c :: rest) with ((pre ++ [c]) ++ rest) by (by rewrite <- app_assoc).
  replace (llen pre + 1) with (llen (pre ++ [c])) by (by rewrite llen_app). rewrite IH; [|done|lia|rewrite length_drop; lia].
  by rewrite drop_drop, <- !app_assoc.
Qed.

Lemma url_text_app raw s t : url_text raw (s ++ t) = url_text raw s ++ url_text raw t.
Proof. apply bind_app. Qed.

Lemma url_encode_sse2_loop_ok raw n : forall pre rest don free, Forall is_byte rest -> (length rest <= n)%nat -> (3 * length rest < length free)%nat ->
  exists mid tail free', rest = mid ++ tail /\ (3 * length tail < length free')%nat /\
    url_encode_sse2_loop n raw (pre ++ rest) (llen pre) (llen (pre ++ rest)) (don ++ free) (llen don) =
      Some (llen (pre ++ mid), (don ++ url_text raw mid) ++ free', llen (don ++ url_text raw mid)).
Proof.
  induction n as [|n IH]; intros pre rest don free Hb Hn Hf; cbn [url_encode_sse2_loop].
  all: destruct (Z.ltb_spec (llen pre + 16) (llen (pre ++ rest))) as [Hl|Hl]; cbn [negb].
  1: rewrite llen_app in Hl; unfold llen in Hl; lia.
  1,3: exists [], rest, free; by rewrite !app_nil_r.
  rewrite llen_app in Hl. unfold llen in Hl. set (v := take 16 rest). assert (vector v) as Hv by (unfold vector, v; rewrite length_take; lia).
  assert (rest = v ++ drop 16 rest) as E by (symmetry; apply take_drop).
  assert (_mm_loadu_si128 (pre ++ rest) (llen pre) = Some v) as -> by (rewrite E; by apply loadu_app). rewrite some_bind.
  assert (Forall is_byte v) as Hbv by (by apply Forall_take). rewrite url_block_ok by done.
  set (bits := _mm_movemask_epi8 _).
  assert (forall k c, v !! k = Some c -> Z.testbit bits (0 + Z.of_nat k) = kept raw c) as Hbits.
  { intros k c Hk. cbn [Z.add]. by apply (movemask_test (kept raw)). }
  pose proof (url_text_length raw v) as Hvl. rewrite Hv in Hvl.
  assert (exists free', (3 * length (drop 16 rest) < length free')%nat /\
    (if Z.land bits 0xffff =? 0xffff then to_ ← _mm_storeu_si128 (don ++ free) (llen don) (replaced raw <$> v); Some (to_, llen don + 16)
     else url_escape_loop (replaced raw <$> v) bits 0 (don ++ free) (llen don)) = Some ((don ++ url_text raw v) ++ free', llen (don ++ url_text raw v)))
    as (free' & Hf' & ->).
  { exists (drop (length (url_text raw v)) free). rewrite !length_drop. split; [lia|]. destruct (Z.eqb_spec (Z.land bits 0xffff) 0xffff) as [Eb|_].
    - assert (url_text raw v = replaced raw <$> v) as ->.
      { assert (forall c, c ∈ v -> kept raw c = true) as Hk.
        { intros c [k Hk]%list_elem_of_lookup. rewrite <- (Hbits k c Hk). apply land_all; [done|]. apply lookup_lt_Some in Hk. unfold vector in Hv. lia. }
        clear -Hk. induction v as [|c v IH]; [done|]. change (url_text raw (c :: v)) with (url_char raw c ++ url_text raw v).
        rewrite IH by (intros; apply Hk; by right). by rewrite url_char_kept by (apply Hk; by left). }
      assert (_mm_storeu_si128 (don ++ free) (llen don) (replaced raw <$> v) = Some (don ++ (replaced raw <$> v) ++ drop 16 free)) as ->.
      { rewrite <- (take_drop 16 free) at 1. apply storeu_app; unfold vector; [rewrite length_take; lia|by rewrite length_fmap]. }
      rewrite length_fmap, Hv, some_bind, app_assoc, llen_app. unfold llen at 3. by rewrite length_fmap, Hv.
    - rewrite url_escape_loop_ok by (done || lia). by rewrite app_assoc. }
  rewrite some_bind. destruct (IH (pre ++ v) (drop 16 rest) (don ++ url_text raw v) free') as (mid & tail & free2 & Er & Hf2 & IHE);
    [by apply Forall_drop|rewrite length_drop; lia|done|].
  exists (v ++ mid), tail, free2. split; [by rewrite <- app_assoc, <- Er|]. split; [done|].
  replace (llen pre + 16) with (llen (pre ++ v)) by (rewrite llen_app; unfold llen at 2; rewrite Hv; lia).
  rewrite url_text_app, !app_assoc. rewrite <- (app_assoc pre), <- E in IHE. exact IHE.
Qed.

Lemma php_url_encode_helper_ok hj have_sse2 s raw : Forall is_byte s ->
  php_url_encode_helper hj have_sse2 s raw = Some (url_text raw s ++ [0], llen (url_text raw s)).
Proof.
  intros Hb. unfold php_url_encode_helper. set (to_ := zend_string_alloc hj (3 * llen s)).
  assert (3 * length s < length to_)%nat as Hroom.
  { unfold to_, zend_string_alloc. rewrite length_fmap, length_zrange. unfold llen. lia. }
  assert (exists free, (0 < length free)%nat /\ php_url_encode_impl have_sse2 to_ s (llen s) raw = Some (url_text raw s ++ free, llen (url_text raw s))) as (free & Hfree & ->).
  { unfold php_url_encode_impl. assert (exists mid tail free', s = mid ++ tail /\ (3 * length tail < length free')%nat /\
      (if have_sse2 then url_encode_sse2_loop (Z.to_nat (llen s)) raw s 0 (llen s) to_ 0 else Some (0, to_, 0)) =
        Some (llen mid, url_text raw mid ++ free', llen (url_text raw mid))) as (mid & tail & free' & Es & Hf' & ->).
    { destruct have_sse2; [apply (url_encode_sse2_loop_ok raw _ [] s [] to_); [done|unfold llen; lia|done]|]. by exists [], s, to_. }
    rewrite some_bind. cbn beta iota. rewrite Es in *. apply Forall_app in Hb as [_ Hb]. pose proof (url_text_length raw tail).
    rewrite url_encode_loop_ok; [|done|unfold llen; rewrite length_app; lia|lia].
    exists (drop (length (url_text raw tail)) free'). rewrite length_drop. split; [lia|]. by rewrite url_text_app, app_assoc. }
  rewrite some_bind. cbn beta iota. destruct free as [|x free]; [cbn in Hfree; lia|]. rewrite lstore_middle, some_bind. do 2 f_equal.
  unfold zend_string_truncate. replace (Z.to_nat (llen (url_text raw s) + 1)) with (length (url_text raw s) + 1)%nat by (unfold llen; lia).
  rewrite take_app_add. done.
Qed.

(** * The decoder in any memory *)

(** The memory after [l] has been stored at [d], byte after byte. *)
Fixpoint overwrite (m : list Z) (d : Z) (l : list Z) : list Z :=
  match l with [] => m | c :: l => overwrite (lset m d c) (d + 1) l end.

Lemma overwrite_length l : forall m d, length (overwrite m d l) = length m.
Proof. induction l as [|c l IH]; intros m d; [done|]. cbn [overwrite]. rewrite IH. apply length_insert. Qed.

Lemma overwrite_out l : forall m d i, 0 <= i -> 0 <= d -> (i < d \/ d + llen l <= i) -> lload (overwrite m d l) i = lload m i.
Proof.
  induction l as [|c l IH]; intros m d i Hi Hd Hout; [done|]. cbn [overwrite]. rewrite llen_cons in Hout. pose proof (llen_nonneg l).
  rewrite IH by lia. unfold lload, lset. destruct (Z.ltb_spec i 0); [done|]. apply list_lookup_insert_ne. lia.
Qed.

Lemma overwrite_in l : forall m d k, 0 <= d -> d + llen l <= llen m -> (k < length l)%nat -> lload (overwrite m d l) (d + Z.of_nat k) = l !! k.
Proof.
  induction l as [|c l IH]; intros m d k Hd Hm Hk; cbn [length] in Hk; [lia|]. cbn [overwrite]. rewrite llen_cons in Hm. pose proof (llen_nonneg l).
  destruct k as [|k].
  - rewrite overwrite_out by lia. rewrite Z.add_0_r. unfold lload, lset. destruct (Z.ltb_spec d 0); [lia|].
    rewrite list_lookup_insert_eq by (unfold llen in Hm; lia). done.
  - replace (d + Z.of_nat (S k)) with (d + 1 + Z.of_nat k) by lia. rewrite IH; [done|lia|rewrite llen_lset; lia|lia].
Qed.

Lemma overwrite_app l1 : forall m d l2, overwrite m d (l1 ++ l2) = overwrite (overwrite m d l1) (d + llen l1) l2.
Proof.
  induction l1 as [|c l1 IH]; intros m d l2; cbn [overwrite app]; [by rewrite Z.add_0_r|]. rewrite IH, llen_cons. f_equal. lia.
Qed.

Lemma htoi_digit c : is_byte c -> isxdigit c = true -> php_htoi_single c = hex_value c /\ 0 <= hex_value c < 16.
Proof.
  intros Hc. set (P c := negb (isxdigit c) || bool_decide (php_htoi_single c = hex_value c /\ 0 <= hex_value c < 16)).
  assert (P c = true) as H by (apply (all_below_spec 256 P); [vm_compute; reflexivity|exact Hc]). unfold P in H.
  intros E. rewrite E in H. by apply bool_decide_eq_true_1 in H.
Qed.

Lemma url_bytes_length plus t : (length (url_bytes plus t) <= length t)%nat.
Proof.
  remember (length t) as n eqn:E. revert t E. induction n as [n IH] using lt_wf_ind. intros [|c t] ->; [done|]. cbn [url_bytes].
  pose proof (IH (length t) ltac:(cbn; lia) t eq_refl) as H1. destruct (plus && (c =? 43)); [cbn; lia|].
  destruct t as [|h [|l t2]]; [cbn in *; lia..|]. pose proof (IH (length t2) ltac:(cbn; lia) t2 eq_refl). destruct ((c =? 37) && _ && _); cbn [length] in *; lia.
Qed.

Lemma url_decode_loop_ok plus n : forall m dest data rest, Forall is_byte rest -> (length rest <= n)%nat -> reads m data rest ->
  0 <= dest -> dest + llen rest <= llen m -> (dest <= data \/ data + llen rest <= dest) ->
  url_decode_loop n plus m dest data (llen rest) = Some (overwrite m dest (url_bytes plus rest), dest + llen (url_bytes plus rest)).
Proof.
  induction n as [n IH] using lt_wf_ind. intros m dest data rest Hb Hn Hr Hd Hroom Hsep.
  destruct rest as [|c t]; [destruct n; cbn; by rewrite Z.add_0_r|]. destruct n as [|n]; [cbn in Hn; lia|]. cbn [length] in Hn.
  apply Forall_cons in Hb as [Hc Hb]. apply reads_cons in Hr as [Hrc Hrt]. cbn [url_decode_loop]. rewrite llen_cons in *. pose proof (llen_nonneg t).
  destruct (Z.eqb_spec (1 + llen t) 0); [lia|]. rewrite Hrc, some_bind. replace (1 + llen t - 1) with (llen t) by lia.
  (* one byte is stored, [skip] more are read over *)
  assert (forall v t2, t2 = t \/ (exists h l, t = h :: l :: t2) -> reads m (data + 1 + (llen t - llen t2)) t2 ->
    url_decode_loop n plus (lset m dest v) (dest + 1) (data + 1 + (llen t - llen t2)) (llen t2) =
    Some (overwrite m dest (v :: url_bytes plus t2), dest + llen (v :: url_bytes plus t2))) as Hgo.
  { intros v t2 Ht2 Hrt2. assert (llen t2 <= llen t /\ (length t2 <= length t)%nat /\ Forall is_byte t2) as (Hle & Hle' & Hb2).
    { destruct Ht2 as [->|(h & l & ->)]; [split_and!; [lia|lia|done]|]. rewrite !llen_cons. apply Forall_cons in Hb as [_ Hb]. apply Forall_cons in Hb as [_ Hb].
      split_and!; [lia|cbn; lia|done]. }
    rewrite IH; [cbn [overwrite]; rewrite llen_cons; do 2 f_equal; lia|lia|done|lia| |lia|rewrite llen_lset; lia|lia].
    apply reads_store; [done|done|]. lia. }
  assert (url_decode_loop n plus (lset m dest c) (dest + 1) (data + 1) (llen t) = Some (overwrite m dest (c :: url_bytes plus t), dest + llen (c :: url_bytes plus t))) as Hplain.
  { specialize (Hgo c t ltac:(by left)). rewrite Z.sub_diag, Z.add_0_r in Hgo. by apply Hgo. }
  cbn [url_bytes]. rewrite !lstore_in by lia. destruct (plus && (c =? 43)).
  { rewrite some_bind. specialize (Hgo 32 t ltac:(by left)). rewrite Z.sub_diag, Z.add_0_r in Hgo. by apply Hgo. }
  destruct t as [|h [|l t2]].
  - change (2 <=? llen []) with false. rewrite andb_false_r, !some_bind. exact Hplain.
  - change (2 <=? llen [h]) with false. rewrite andb_false_r, !some_bind. exact Hplain.
  - assert (2 <=? llen (h :: l :: t2) = true) as -> by (rewrite !llen_cons; pose proof (llen_nonneg t2); apply Z.leb_le; lia).
    apply reads_cons in Hrt as [Hrh Hr2]. apply reads_cons in Hr2 as [Hrl Hr2]. replace (data + 1 + 1) with (data + 2) in * by lia.
    apply Forall_cons in Hb as [Hh Hb]. apply Forall_cons in Hb as [Hl Hb].
    rewrite andb_true_r, Hrh, Hrl, !some_bind. destruct (c =? 37); cbn [andb]; [|rewrite some_bind; exact Hplain].
    destruct (isxdigit h) eqn:Eh; cbn [andb]; rewrite ?some_bind; [|exact Hplain]. destruct (isxdigit l) eqn:El; [|rewrite ?some_bind; exact Hplain].
    destruct (htoi_digit h Hh Eh) as [Vh Rh], (htoi_digit l Hl El) as [Vl Rl]. unfold php_htoi. replace (data + 1 + 1) with (data + 2) by lia.
    rewrite Hrh, Hrl, !some_bind, Vh, Vl. assert (u8 (hex_value h * 16 + hex_value l) = hex_value h * 16 + hex_value l) as -> by (unfold u8; zlia).
    rewrite lstore_in, some_bind by lia. specialize (Hgo (hex_value h * 16 + hex_value l) t2 ltac:(right; by exists h, l)).
    rewrite !llen_cons in *. replace (data + 1 + (1 + (1 + llen t2) - llen t2)) with (data + 3) in Hgo by lia.
    replace (1 + (1 + llen t2) - 2) with (llen t2) by lia. apply Hgo. by replace (data + 2 + 1) with (data + 3) in Hr2 by lia.
Qed.

Lemma url_decode_terminated_ok plus m dest src t : Forall is_byte t -> reads m src t -> 0 <= dest -> dest + llen t < llen m ->
  (dest <= src \/ src + llen t <= dest) ->
  url_decode_terminated plus m dest src (llen t) = Some (overwrite m dest (url_bytes plus t ++ [0]), llen (url_bytes plus t)).
Proof.
  intros Hb Hr Hd Hroom Hsep. unfold url_decode_terminated. pose proof (url_bytes_length plus t). pose proof (llen_nonneg (url_bytes plus t)).
  rewrite url_decode_loop_ok by (done || (unfold llen; lia) || lia). rewrite some_bind. cbn beta iota.
  rewrite lstore_in; [|assert (llen (overwrite m dest (url_bytes plus t)) = llen m) as -> by (unfold llen; by rewrite overwrite_length); unfold llen in *; lia]. rewrite some_bind, overwrite_app. do 2 f_equal. lia.
Qed.

(** * Round trips *)

Lemma hex_digit_ok v : 0 <= v < 16 -> isxdigit (upper_hex_digit v) = true /\ hex_value (upper_hex_digit v) = v.
Proof.
  intros Hv. set (P v := bool_decide (isxdigit (upper_hex_digit v) = true /\ hex_value (upper_hex_digit v) = v)).
  apply (bool_decide_eq_true_1 _), (all_below_spec 16 P); [vm_compute; reflexivity|exact Hv].
Qed.

Lemma url_bytes_char raw plus c t : is_byte c -> raw || plus = true -> url_bytes plus (url_char raw c ++ t) = c :: url_bytes plus t.
Proof.
  unfold is_byte. intros Hc Hrp. unfold url_char. destruct (negb raw && (c =? 32)) eqn:Eb.
  { apply andb_true_iff in Eb as [Er%negb_true_iff ->%Z.eqb_eq]. rewrite Er in Hrp. cbn in Hrp. by rewrite Hrp. }
  destruct (unreserved raw c) eqn:Eu.
  - assert (c <> 43 /\ c <> 37) as [H1 H2] by (split; intros ->; by destruct raw).
    cbn [app url_bytes]. rewrite (proj2 (Z.eqb_neq c 43)), (proj2 (Z.eqb_neq c 37)), andb_false_r by done. by destruct t as [|? [|? ?]].
  - destruct (hex_digit_ok (c / 16)) as [D1 V1]; [zlia|]. destruct (hex_digit_ok (c mod 16)) as [D2 V2]; [zlia|].
    cbn [app url_bytes]. change (37 =? 43) with false. change (37 =? 37) with true. rewrite andb_false_r, D1, D2, V1, V2. cbn [andb]. f_equal. zlia.
Qed.

Lemma url_bytes_text raw plus s : Forall is_byte s -> raw || plus = true -> url_bytes plus (url_text raw s) = s.
Proof.
  intros Hb Hrp. induction Hb as [|c s Hc Hb IH]; [done|]. change (url_text raw (c :: s)) with (url_char raw c ++ url_text raw s).
  by rewrite url_bytes_char, IH.
Qed.

Lemma url_text_bytes raw s : Forall is_byte s -> Forall is_byte (url_text raw s).
Proof.
  induction 1 as [|c s Hc Hb IH]; [constructor|]. change (url_text raw (c :: s)) with (url_char raw c ++ url_text raw s). apply Forall_app. split; [|done].
  assert (forall v, 0 <= v < 16 -> is_byte (upper_hex_digit v)) as Hh by (intros v Hv; unfold is_byte, upper_hex_digit; destruct (v <? 10); lia).
  unfold url_char. destruct (negb raw && _); [apply Forall_singleton; unfold is_byte; lia|]. destruct (unreserved raw c); [by apply Forall_singleton|].
  unfold is_byte in Hc. apply Forall_cons. split; [unfold is_byte; lia|]. apply Forall_cons. split; [apply Hh; zlia|]. apply Forall_singleton, Hh. zlia.
Qed.

Lemma overwrite_take l m d : 0 <= d -> d + llen l <= llen m -> take (length l) (drop (Z.to_nat d) (overwrite m d l)) = l.
Proof.
  intros Hd Hm. apply list_eq. intros k. destruct (decide (k < length l)%nat) as [Hk|Hk].
  - rewrite lookup_take_lt, lookup_drop by done. rewrite <- (overwrite_in l m d k) by done. rewrite <- lload_nat. f_equal. lia.
  - rewrite lookup_take_ge, (lookup_ge_None_2 l) by lia. done.
Qed.

Lemma overwrite_app_l a b m d : 0 <= d -> forall i, 0 <= i < d + llen a -> lload (overwrite m d (a ++ b)) i = lload (overwrite m d a) i.
Proof. intros Hd i Hi. rewrite overwrite_app. pose proof (llen_nonneg a). apply overwrite_out; lia. Qed.

(** C23: [php_url_decode_ex] and [php_raw_url_decode_ex] in any memory that
    holds the [t] to be decoded at [src] and has room at [dest], where [dest] may
    be [src] itself (as [php_url_decode] has it), any address below, or one behind
    the source: the decoded bytes and a terminator are stored at [dest], their
    number is returned, and no other byte of the memory changes. *)
Theorem php_url_decode_ex_correct (raw : bool) m dest src t : Forall is_byte t -> reads m src t -> 0 <= dest -> dest + llen t < llen m ->
  (dest <= src \/ src + llen t <= dest) ->
  let bs := url_bytes (negb raw) t in
  exists m', (if raw then php_raw_url_decode_ex else php_url_decode_ex) m dest src (llen t) = Some (m', llen bs) /\ llen m' = llen m /\
    take (length bs) (drop (Z.to_nat dest) m') = bs /\ lload m' (dest + llen bs) = Some 0 /\
    (forall i, 0 <= i -> i < dest \/ dest + llen bs < i -> lload m' i = lload m i).
Proof.
  intros Hb Hr Hd Hroom Hsep bs. exists (overwrite m dest (bs ++ [0])). pose proof (url_bytes_length (negb raw) t) as Hl. fold bs in Hl.
  assert (dest + llen (bs ++ [0]) <= llen m) as Hin by (rewrite llen_app; unfold llen in *; cbn [length]; lia). split_and!.
  - destruct raw; by apply url_decode_terminated_ok.
  - unfold llen. by rewrite overwrite_length.
  - transitivity (take (length bs) (take (length (bs ++ [0])) (drop (Z.to_nat dest) (overwrite m dest (bs ++ [0]))))).
    + rewrite take_take, length_app. f_equal. lia.
    + rewrite overwrite_take by done. apply take_app_length.
  - unfold llen at 1. rewrite overwrite_in; [|done|done|rewrite length_app; cbn; lia]. by rewrite lookup_app_r, Nat.sub_diag by lia.
  - intros i Hi Hout. apply overwrite_out; [done|done|]. rewrite llen_app. change (llen [0]) with 1. lia.
Qed.

Lemma php_url_decode_ex_correct_witness : let m := [97; 43; 37; 52; 49; 98; 9; 8] in
  reads m 0 (take 6 m) /\ exists m', php_url_decode_ex m 0 0 6 = Some (m', 4) /\ llen m' = 8 /\ take 4 (drop 0 m') = [97; 32; 65; 98] /\
    lload m' (0 + 4) = Some 0 /\ (forall i, 0 <= i -> i < 0 \/ 0 + 4 < i -> lload m' i = lload m i).
Proof.
  intros m. assert (reads m 0 (take 6 m)) as Hr.
  { split; [lia|]. intros k c Hk. pose proof (lookup_lt_Some _ _ _ Hk) as Hlt. rewrite Z.add_0_l, lload_nat. by rewrite lookup_take_lt in Hk. }
  split; [exact Hr|].
  apply (php_url_decode_ex_correct false m 0 0 (take 6 m)); [|exact Hr|lia|vm_compute; reflexivity|left; lia].
  repeat (apply Forall_cons; split; [unfold is_byte; lia|]). constructor.
Defined.

(** C24: [php_url_encode] and [php_raw_url_encode] never leave their buffers, and
    with or without SSE2 they return the same text: letters, digits and "-_."
    (raw: "~" too) for themselves, else a blank as "+" (not raw), else two upper
    case hexadecimal digits behind "%".  Decoded in its own buffer by the function
    that belongs to it, the text becomes the input again. *)
Theorem php_url_roundtrip hj have_sse2 (raw : bool) s : Forall is_byte s ->
  exists m len, (if raw then php_raw_url_encode else php_url_encode) hj have_sse2 s = Some (m, len) /\ m = url_text raw s ++ [0] /\ len = llen (url_text raw s) /\
  exists m', (if raw then php_raw_url_decode else php_url_decode) m 0 len = Some (m', llen s) /\ take (length s) m' = s.
Proof.
  intros Hb. exists (url_text raw s ++ [0]), (llen (url_text raw s)).
  split; [destruct raw; by apply php_url_encode_helper_ok|]. split; [done|]. split; [done|].
  set (t := url_text raw s). assert (url_bytes (negb raw) t = s) as Es by (apply url_bytes_text; [done|by destruct raw]).
  exists (overwrite (t ++ [0]) 0 (s ++ [0])).
  assert (url_decode_terminated (negb raw) (t ++ [0]) 0 0 (llen t) = Some (overwrite (t ++ [0]) 0 (s ++ [0]), llen s)) as Ed.
  { rewrite url_decode_terminated_ok, Es; [done|by apply url_text_bytes| |lia|rewrite llen_app; change (llen [0]) with 1; lia|left; lia].
    split; [lia|]. intros k c Hk. rewrite Z.add_0_l, lload_nat. by apply lookup_app_l_Some. }
  split; [by destruct raw|].
  pose proof (url_bytes_length (negb raw) t) as Hl. rewrite Es in Hl.
  pose proof (overwrite_take (s ++ [0]) (t ++ [0]) 0) as Ht. rewrite !llen_app in Ht. change (llen [0]) with 1 in Ht.
  specialize (Ht ltac:(lia) ltac:(unfold llen; lia)). rewrite drop_0 in Ht. apply (f_equal (take (length s))) in Ht.
  rewrite take_take, take_app_length, length_app, Nat.min_l in Ht by lia. exact Ht.
Qed.

Lemma php_url_roundtrip_witness : let s := [97; 32; 47; 126; 255; 37; 43; 48; 49; 50; 51; 52; 53; 54; 55; 56; 57; 45] in Forall is_byte s /\
  exists m len, php_url_encode (fun _ => 170) true s = Some (m, len) /\ m = url_text false s ++ [0] /\ len = llen (url_text false s) /\
  exists m', php_url_decode m 0 len = Some (m', llen s) /\ take (length s) m' = s.
Proof.
  intros s. assert (Forall is_byte s) as Hs by (repeat (apply Forall_cons; split; [unfold is_byte; lia|]); constructor).
  split; [exact Hs|]. exact (php_url_roundtrip (fun _ => 170) true false s Hs).
Defined.
