(* ===== verification/StrSearch.v ===== *)
(** Searching for a string in a string: [zend_memnstr] and [zend_memnrstr]
    (Zend/zend_operators.h) with the routines for long inputs (Zend/zend_operators.c),
    Sunday's algorithm in both directions.  A pointer is an offset into the
    haystack; an outer [None] is a read outside of it or a loop without end, an
    inner one is [NULL]. *)

From stdpp Require Import base numbers list.
From S2P Require Import Prelude CompileRuntime Sse.

(** * The C library *)

Fixpoint memchr_loop (n : nat) (h : list Z) (p c : Z) : option (option Z) :=
  match n with
  | O => Some None
  | S n => x ← lload h p; if x =? c then Some (Some p) else memchr_loop n h (p + 1) c
  end.
Definition memchr (h : list Z) (p c n : Z) : option (option Z) := memchr_loop (Z.to_nat n) h p c.

Fixpoint memcmp_loop (n : nat) (a : list Z) (i : Z) (b : list Z) (j : Z) : option Z :=
  match n with
  | O => Some 0
  | S n => x ← lload a i; y ← lload b j; if x =? y then memcmp_loop n a (i + 1) b (j + 1) else Some (x - y)
  end.
Definition memcmp (a : list Z) (i : Z) (b : list Z) (j n : Z) : option Z := memcmp_loop (Z.to_nat n) a i b j.

(** [zend_memrchr] *)
Fixpoint memrchr_loop (n : nat) (h : list Z) (s e c : Z) : option (option Z) :=
  if negb (s <=? e) then Some None
  else match n with
  | O => None
  | S n => x ← lload h e; if x =? c then Some (Some e) else memrchr_loop n h s (e - 1) c
  end.
Definition zend_memrchr (h : list Z) (s c n : Z) : option (option Z) :=
  if n =? 0 then Some None else memrchr_loop (Z.to_nat n) h s (s + n - 1) c.

(** Conversion to [int]. *)
Definition s32 (z : Z) : Z := (z + 2 ^ 31) mod 2 ^ 32 - 2 ^ 31.

(** * The table of skips *)

Fixpoint pre_forward (n : nat) (needle : list Z) (needle_len i : Z) (td : list Z) : option (list Z) :=
  match n with
  | O => Some td
  | S n => c ← lload needle i; td ← lstore td c (u32 (s32 needle_len - i)); pre_forward n needle needle_len (i + 1) td
  end.

(** [i] is an [int]. *)
Fixpoint pre_reverse (n : nat) (needle : list Z) (i : Z) (td : list Z) : option (list Z) :=
  match n with
  | O => Some td
  | S n => c ← lload needle i; td ← lstore td c (u32 (i + 1)); pre_reverse n needle (i - 1) td
  end.

Definition zend_memnstr_ex_pre (needle : list Z) (reverse : bool) : option (list Z) :=
  let needle_len := llen needle in
  let td := replicate 256 (u32 (needle_len + 1)) in
  if reverse then let i := s32 (needle_len - 1) in pre_reverse (Z.to_nat (i + 1)) needle i td
  else pre_forward (Z.to_nat needle_len) needle needle_len 0 td.

(** * Sunday's algorithm *)

(** The number of characters of the needle that agree at [p]. *)
Fixpoint agree_loop (n : nat) (needle h : list Z) (p i : Z) : option Z :=
  match n with
  | O => Some i
  | S n => x ← lload needle i; y ← lload h (p + i); if negb (x =? y) then Some i else agree_loop n needle h p (i + 1)
  end.

Fixpoint sunday_loop (n : nat) (td h needle : list Z) (p end_ : Z) : option (option Z) :=
  if negb (p <=? end_) then Some None
  else match n with
  | O => None
  | S n =>
      i ← agree_loop (length needle) needle h p 0;
      if i =? llen needle then Some (Some p)
      else if p =? end_ then Some None
      else c ← lload h (p + llen needle); skip ← lload td c; sunday_loop n td h needle (p + skip) end_
  end.

Definition zend_memnstr_ex (h : list Z) (haystack : Z) (needle : list Z) (end_ : Z) : option (option Z) :=
  if (llen needle =? 0) || (end_ - haystack <? llen needle) then Some None
  else
    td ← zend_memnstr_ex_pre needle false;
    sunday_loop (S (Z.to_nat (end_ - haystack))) td h needle haystack (end_ - llen needle).

Fixpoint sunday_back_loop (n : nat) (td h needle : list Z) (haystack p : Z) : option (option Z) :=
  if negb (haystack <=? p) then Some None
  else match n with
  | O => None
  | S n =>
      i ← agree_loop (length needle) needle h p 0;
      if i =? llen needle then Some (Some p)
      else if p =? haystack then Some None
      else c ← lload h (p - 1); skip ← lload td c; sunday_back_loop n td h needle haystack (p - skip)
  end.

Definition zend_memnrstr_ex (h : list Z) (haystack : Z) (needle : list Z) (end_ : Z) : option (option Z) :=
  if (llen needle =? 0) || (end_ - haystack <? llen needle) then Some None
  else
    td ← zend_memnstr_ex_pre needle true;
    sunday_back_loop (S (Z.to_nat (end_ - haystack))) td h needle haystack (end_ - llen needle).

(** * The inlined searches *)

(** The first character is found; do the others agree? *)
Definition rest_agrees (h needle : list Z) (p : Z) : option bool :=
  ne ← lload needle (llen needle - 1);
  x ← lload h (p + llen needle - 1);
  if ne =? x then r ← memcmp needle 1 h (p + 1) (llen needle - 2); Some (r =? 0) else Some false.

(** [end_]: the last place where the needle could be. *)
Fixpoint memchr_search (n : nat) (h needle : list Z) (p end_ : Z) : option (option Z) :=
  if negb (p <=? end_) then Some None
  else match n with
  | O => None
  | S n =>
      c ← lload needle 0;
      q ← memchr h p c (end_ - p + 1);
      match q with
      | None => Some None
      | Some p => found ← rest_agrees h needle p; if (found : bool) then Some (Some p) else memchr_search n h needle (p + 1) end_
      end
  end.

Definition zend_memnstr (h : list Z) (haystack : Z) (needle : list Z) (end_ : Z) : option (option Z) :=
  let needle_len := llen needle in
  if needle_len =? 1 then c ← lload needle 0; memchr h haystack c (end_ - haystack)
  else if needle_len =? 0 then Some (Some haystack)
  else
    let off_s := end_ - haystack in
    if off_s <? needle_len then Some None
    else if (off_s <? 1024) || (needle_len <? 9)
    then memchr_search (S (Z.to_nat off_s)) h needle haystack (end_ - needle_len)
    else zend_memnstr_ex h haystack needle end_.

Fixpoint memrchr_search (n : nat) (h needle : list Z) (haystack p : Z) : option (option Z) :=
  match n with
  | O => None
  | S n =>
      c ← lload needle 0;
      q ← zend_memrchr h haystack c (p - haystack + 1);
      match q with
      | None => Some None
      | Some p =>
          found ← rest_agrees h needle p;
          if (found : bool) then Some (Some p)
          else if haystack <=? p then memrchr_search n h needle haystack (p - 1) else Some None
      end
  end.

Definition zend_memnrstr (h : list Z) (haystack : Z) (needle : list Z) (end_ : Z) : option (option Z) :=
  let needle_len := llen needle in
  if needle_len =? 0 then Some (Some end_)
  else if needle_len =? 1 then c ← lload needle 0; zend_memrchr h haystack c (end_ - haystack)
  else
    let off_p := end_ - haystack in
    let off_s := if 0 <? off_p then off_p else 0 in
    if off_s <? needle_len then Some None
    else if (off_s <? 1024) || (needle_len <? 3)
    then memrchr_search (S (Z.to_nat off_s)) h needle haystack (end_ - needle_len)
    else zend_memnrstr_ex h haystack needle end_.

(** * What a search finds *)

(** The needle stands at [k] between [lo] and [hi]. *)
Definition occurs (h needle : list Z) (lo hi k : Z) : Prop := lo <= k /\ k + llen needle <= hi /\ reads h k needle.

Definition first_occurrence (h needle : list Z) (lo hi : Z) (r : option Z) : Prop :=
  match r with
  | Some k => occurs h needle lo hi k /\ forall j, j < k -> ~ occurs h needle lo hi j
  | None => forall j, ~ occurs h needle lo hi j
  end.
Definition last_occurrence (h needle : list Z) (lo hi : Z) (r : option Z) : Prop :=
  match r with
  | Some k => occurs h needle lo hi k /\ forall j, k < j -> ~ occurs h needle lo hi j
  | None => forall j, ~ occurs h needle lo hi j
  end.

(** The search backwards for a character is the one by which names are cut
    into their components. *)
Lemma memrchr_loop_pure s c n : (n <= length s)%nat -> memrchr_loop n s 0 (Z.of_nat n - 1) c = Some (CompileRuntime.zend_memrchr s c n).
Proof.
  induction n as [|n IH]; intros Hn; [done|]. cbn [memrchr_loop CompileRuntime.zend_memrchr]. replace (Z.of_nat (S n) - 1) with (Z.of_nat n) by lia.
  rewrite (proj2 (Z.leb_le 0 (Z.of_nat n))), lload_nat by lia. cbn [negb]. destruct (lookup_lt_is_Some_2 s n Hn) as [x Hx]. rewrite Hx, some_bind.
  assert (lget 0 s (Z.of_nat n) = x) as -> by (unfold lget; by rewrite Nat2Z.id, Hx). destruct (x =? c); [done|apply IH; lia].
Qed.

Lemma zend_memrchr_pure s c n : 0 <= n <= llen s -> zend_memrchr s 0 c n = Some (CompileRuntime.zend_memrchr s c (Z.to_nat n)).
Proof.
  unfold zend_memrchr, llen. intros Hn. destruct (Z.eqb_spec n 0) as [->|]; [done|]. rewrite <- memrchr_loop_pure by lia. f_equal. lia.
Qed.

Section Search.
Context (h needle : list Z).
Context (Hh : Forall is_byte h) (Hneedle : Forall is_byte needle).

(** ** Loads *)

Lemma load_ok {A} (l : list A) i : 0 <= i < llen l -> exists x, lload l i = Some x.
Proof.
  intros Hi. unfold lload. destruct (Z.ltb_spec i 0); [lia|]. apply lookup_lt_is_Some_2. unfold llen in Hi. lia.
Qed.

Lemma load_byte (l : list Z) i x : Forall is_byte l -> lload l i = Some x -> is_byte x.
Proof. unfold lload. intros Hl. destruct (i <? 0); [done|]. by apply Forall_lookup_1. Qed.

Lemma load_at (l : list Z) i c : lload l i = Some c -> 0 <= i < llen l /\ l !! Z.to_nat i = Some c.
Proof.
  unfold lload. destruct (Z.ltb_spec i 0); [done|]. intros Hc. split; [|done]. apply lookup_lt_Some in Hc. unfold llen. lia.
Qed.

(** The characters of the needle at [p]. *)
Lemma reads_at p i c : reads h p needle -> lload needle i = Some c -> lload h (p + i) = Some c.
Proof. intros [Hp H] [Hi Hc]%load_at. rewrite <- (H _ _ Hc). f_equal. lia. Qed.

(** ** Comparing *)

Lemma agree_loop_ok n : forall p i, 0 <= p -> 0 <= i -> i + Z.of_nat n = llen needle -> p + llen needle <= llen h ->
  (forall k, 0 <= k < i -> exists c, lload needle k = Some c /\ lload h (p + k) = Some c) ->
  exists j, agree_loop n needle h p i = Some j /\ (j = llen needle <-> reads h p needle).
Proof.
  induction n as [|n IH]; intros p i Hp Hi Hn Hh' Hpre; cbn [agree_loop].
  - exists i. split; [done|]. split; [|lia]. intros _. split; [done|]. intros k c Hk. pose proof (lookup_lt_Some _ _ _ Hk) as Hlt.
    destruct (Hpre (Z.of_nat k)) as (c' & Hc' & ->); [unfold llen in Hn; lia|]. rewrite lload_nat, Hk in Hc'. congruence.
  - destruct (load_ok needle i) as [x Hx]; [lia|]. destruct (load_ok h (p + i)) as [y Hy]; [lia|]. rewrite Hx, Hy, !some_bind.
    destruct (Z.eqb_spec x y) as [->|Hne]; cbn [negb].
    + apply IH; [done|lia|lia|done|]. intros k Hk. destruct (decide (k = i)) as [->|]; [by exists y|apply Hpre; lia].
    + exists i. split; [done|]. split; [lia|]. intros Hr. rewrite (reads_at p i x Hr Hx) in Hy. congruence.
Qed.

Lemma memcmp_loop_ok n : forall i p, 0 <= i -> 0 <= p -> i + Z.of_nat n <= llen needle -> p + Z.of_nat n <= llen h ->
  exists r, memcmp_loop n needle i h p = Some r /\ (r = 0 <-> forall k, 0 <= k < Z.of_nat n -> lload h (p + k) = lload needle (i + k)).
Proof.
  induction n as [|n IH]; intros i p Hi Hp Hn Hh'; cbn [memcmp_loop]; [exists 0; split; [done|]; split; [lia|done]|].
  destruct (load_ok needle i) as [x Hx]; [lia|]. destruct (load_ok h p) as [y Hy]; [lia|]. rewrite Hx, Hy, !some_bind.
  destruct (Z.eqb_spec x y) as [->|Hne].
  - destruct (IH (i + 1) (p + 1)) as (r & -> & Hr); [lia..|]. exists r. split; [done|]. rewrite Hr. split.
    + intros H k Hk. destruct (decide (k = 0)) as [->|]; [by rewrite !Z.add_0_r, Hx|].
      specialize (H (k - 1) ltac:(lia)). replace (p + 1 + (k - 1)) with (p + k) in H by lia. by replace (i + 1 + (k - 1)) with (i + k) in H by lia.
    + intros H k Hk. specialize (H (k + 1) ltac:(lia)). rewrite <- !Z.add_assoc, (Z.add_comm 1 k). done.
  - exists (x - y). split; [done|]. split; [lia|]. intros H. specialize (H 0 ltac:(lia)). rewrite !Z.add_0_r, Hx, Hy in H. congruence.
Qed.

Lemma rest_agrees_ok p c : 0 <= p -> p + llen needle <= llen h -> 2 <= llen needle -> lload needle 0 = Some c -> lload h p = Some c ->
  exists b, rest_agrees h needle p = Some b /\ (b = true <-> reads h p needle).
Proof.
  intros Hp Hh' Hl Hc0 Hp0. unfold rest_agrees. destruct (load_ok needle (llen needle - 1)) as [ne Hne]; [lia|].
  destruct (load_ok h (p + llen needle - 1)) as [x Hx]; [lia|]. rewrite Hne, Hx, !some_bind. destruct (Z.eqb_spec ne x) as [->|Hd].
  - unfold memcmp. destruct (memcmp_loop_ok (Z.to_nat (llen needle - 2)) 1 (p + 1)) as (r & -> & Hr); [lia..|]. rewrite some_bind.
    exists (r =? 0). split; [done|]. rewrite Z.eqb_eq, Hr, Z2Nat.id by lia. split.
    + intros H. split; [done|]. intros k d Hk. pose proof (lookup_lt_Some _ _ _ Hk) as Hlt. rewrite <- lload_nat in Hk. unfold llen in *.
      destruct (decide (k = 0%nat)) as [->|]; [change (Z.of_nat 0) with 0 in *; rewrite Z.add_0_r; congruence|].
      destruct (decide (Z.of_nat k = Z.of_nat (length needle) - 1)) as [Ek|].
      * rewrite Ek in *. replace (p + (Z.of_nat (length needle) - 1)) with (p + Z.of_nat (length needle) - 1) by lia. congruence.
      * specialize (H (Z.of_nat k - 1) ltac:(lia)). replace (p + 1 + (Z.of_nat k - 1)) with (p + Z.of_nat k) in H by lia.
        replace (1 + (Z.of_nat k - 1)) with (Z.of_nat k) in H by lia. congruence.
    + intros Hr' k Hk. destruct (load_ok needle (1 + k)) as [d Hd]; [lia|]. rewrite Hd. rewrite <- (reads_at p (1 + k) d Hr' Hd). f_equal. lia.
  - exists false. split; [done|]. split; [done|]. intros Hr. pose proof (reads_at p _ _ Hr Hne) as H.
    replace (p + (llen needle - 1)) with (p + llen needle - 1) in H by lia. congruence.
Qed.

(** ** The table *)

Context (Hlen : llen needle < 2 ^ 31).

(** The skip for [c] does not pass a place where the needle could stand:
    [bound k] for a [c] at offset [k], for the offsets that satisfy [done_]. *)
Definition skips (bound : Z -> Z) (done_ : Z -> Prop) (td : list Z) : Prop := llen td = 256 /\
  forall c, is_byte c -> exists s, lload td c = Some s /\ 1 <= s <= llen needle + 1 /\ forall k, done_ k -> lload needle k = Some c -> s <= bound k.

Lemma skips_store bound done_ (done' : Z -> Prop) td c i s : skips bound done_ td -> lload needle i = Some c -> 1 <= s <= llen needle + 1 ->
  (forall k, done' k -> lload needle k = Some c -> s <= bound k) -> (forall k, done' k -> k <> i -> done_ k) ->
  exists td', lstore td c s = Some td' /\ skips bound done' td'.
Proof.
  intros [Hl Ht] Hc Hs Hb Hd. pose proof (load_byte _ _ _ Hneedle Hc) as Hcb. unfold is_byte in Hcb. rewrite lstore_in by lia.
  eexists. split; [reflexivity|]. split; [by rewrite llen_lset|]. intros d Hdb. unfold is_byte in Hdb. unfold lload, lset.
  destruct (Z.ltb_spec d 0); [lia|]. destruct (decide (d = c)) as [->|Hne].
  - rewrite list_lookup_insert_eq by (unfold llen in Hl; lia). exists s. split_and!; [done|lia|lia|done].
  - rewrite list_lookup_insert_ne by lia. destruct (Ht d Hdb) as (s' & Hs' & Hr & Hk). unfold lload in Hs'. destruct (Z.ltb_spec d 0); [lia|].
    exists s'. split; [done|]. split; [done|]. intros k Hdk Hkd. apply Hk; [|done]. apply Hd; [done|]. intros ->.
    change (lload needle i = Some d) in Hkd. congruence.
Qed.

Lemma skips_init bound : skips bound (fun _ => False) (replicate 256 (u32 (llen needle + 1))).
Proof.
  split; [done|]. intros c Hc. unfold is_byte in Hc. exists (llen needle + 1). pose proof (llen_nonneg needle).
  split_and!; [|lia|lia|done]. rewrite u32_small by lia. unfold lload. destruct (Z.ltb_spec c 0); [lia|]. apply lookup_replicate. lia.
Qed.

Lemma pre_forward_ok n : forall i td, 0 <= i -> i + Z.of_nat n = llen needle -> skips (fun k => llen needle - k) (fun k => k < i) td ->
  exists td', pre_forward n needle (llen needle) i td = Some td' /\ skips (fun k => llen needle - k) (fun k => k < llen needle) td'.
Proof.
  induction n as [|n IH]; intros i td Hi Hn Ht; cbn [pre_forward].
  { exists td. split; [done|]. assert (i = llen needle) as -> by lia. done. }
  destruct (load_ok needle i) as [c Hc]; [lia|]. rewrite Hc, some_bind.
  assert (u32 (s32 (llen needle) - i) = llen needle - i) as -> by (unfold u32, s32; zlia).
  destruct (skips_store _ _ (fun k => k < i + 1) td c i (llen needle - i) Ht Hc) as (td' & -> & Ht'); [lia| |lia|].
  { intros k Hk _. lia. } rewrite some_bind. apply IH; [lia|lia|done].
Qed.

Lemma pre_reverse_ok n : forall i td, i = Z.of_nat n - 1 -> i < llen needle -> skips (fun k => k + 1) (fun k => i < k) td ->
  exists td', pre_reverse n needle i td = Some td' /\ skips (fun k => k + 1) (fun k => 0 <= k) td'.
Proof.
  induction n as [|n IH]; intros i td Hi Hl Ht; cbn [pre_reverse].
  { exists td. split; [done|]. destruct Ht as [Hlt Ht]. split; [done|]. intros c Hc. destruct (Ht c Hc) as (s & ? & ? & Hk). exists s.
    split_and!; [done|lia|lia|]. intros k Hk0. apply Hk. lia. }
  destruct (load_ok needle i) as [c Hc]; [lia|]. rewrite Hc, some_bind. rewrite u32_small by lia.
  destruct (skips_store _ _ (fun k => i - 1 < k) td c i (i + 1) Ht Hc) as (td' & -> & Ht'); [lia| |lia|].
  { intros k Hk _. lia. } rewrite some_bind. apply IH; [lia|lia|done].
Qed.

Lemma pre_ok reverse : exists td, zend_memnstr_ex_pre needle reverse = Some td /\
  skips (fun k => if reverse then k + 1 else llen needle - k) (fun k => 0 <= k < llen needle) td.
Proof.
  pose proof (llen_nonneg needle). unfold zend_memnstr_ex_pre.
  assert (forall bound (d d' : Z -> Prop) td, skips bound d td -> (forall k, d' k -> d k) -> skips bound d' td) as Hweak.
  { intros bound d d' td [Hl Ht] Hd. split; [done|]. intros c Hc. destruct (Ht c Hc) as (s & ? & ? & ?). exists s. split_and!; auto; lia. }
  destruct reverse.
  - replace (s32 (llen needle - 1)) with (llen needle - 1) by (unfold s32; zlia).
    destruct (pre_reverse_ok (Z.to_nat (llen needle - 1 + 1)) (llen needle - 1) (replicate 256 (u32 (llen needle + 1)))) as (td & -> & Ht); [lia|lia| |].
    + destruct (skips_init (fun k => k + 1)) as [Hl Ht]. split; [done|]. intros c Hc. destruct (Ht c Hc) as (s & ? & ? & _). exists s.
      split_and!; [done|lia|lia|]. intros k Hk Hc'. apply load_at in Hc'. lia.
    + exists td. split; [done|]. eapply Hweak; [exact Ht|]. cbn. lia.
  - destruct (pre_forward_ok (Z.to_nat (llen needle)) 0 (replicate 256 (u32 (llen needle + 1)))) as (td & -> & Ht); [lia|lia| |].
    + destruct (skips_init (fun k => llen needle - k)) as [Hl Ht]. split; [done|]. intros c Hc. destruct (Ht c Hc) as (s & ? & ? & _). exists s.
      split_and!; [done|lia|lia|]. intros k Hk Hc'. apply load_at in Hc'. lia.
    + exists td. split; [done|]. eapply Hweak; [exact Ht|]. cbn. lia.
Qed.

(** ** Sunday's algorithm *)

Context (lo hi : Z) (Hlo : 0 <= lo) (Hhi : hi <= llen h).

Lemma agree_ok p : lo <= p -> p + llen needle <= hi ->
  exists j, agree_loop (length needle) needle h p 0 = Some j /\ (j = llen needle <-> occurs h needle lo hi p).
Proof.
  intros Hp Hp'. destruct (agree_loop_ok (length needle) p 0) as (j & Hj & Hr); [lia|lia|unfold llen; lia|lia|intros; lia|].
  exists j. split; [done|]. rewrite Hr. unfold occurs. tauto.
Qed.

Lemma sunday_loop_ok td n : skips (fun k => llen needle - k) (fun k => 0 <= k < llen needle) td -> forall p, lo <= p -> hi - p < Z.of_nat n -> 0 < llen needle ->
  (forall j, j < p -> ~ occurs h needle lo hi j) ->
  exists r, sunday_loop n td h needle p (hi - llen needle) = Some r /\ first_occurrence h needle lo hi r.
Proof.
  intros [_ Ht]. induction n as [|n IH]; intros p Hp Hn Hl Hno; cbn [sunday_loop].
  all: destruct (Z.leb_spec p (hi - llen needle)) as [Hle|Hgt]; cbn [negb]; [lia||idtac|].
  1,3: exists None; split; [done|]; intros j Hj; apply (Hno j); [|done]; destruct Hj as (_ & Hj & _); lia.
  destruct (agree_ok p) as (i & -> & Hi); [lia|lia|]. rewrite some_bind. destruct (Z.eqb_spec i (llen needle)) as [Ei|Ei].
  { exists (Some p). split; [done|]. split; [tauto|done]. }
  assert (~ occurs h needle lo hi p) as Hnp by tauto. destruct (Z.eqb_spec p (hi - llen needle)) as [Ep|Ep].
  { exists None. split; [done|]. intros j Hj. destruct (Z.lt_trichotomy j p) as [Hlt|[->|Hgt]]; [by apply (Hno j)|done|].
    destruct Hj as (_ & Hj & _). lia. }
  destruct (load_ok h (p + llen needle)) as [c Hc]; [lia|]. rewrite Hc, some_bind.
  destruct (Ht c (load_byte _ _ _ Hh Hc)) as (s & -> & Hs & Hk). rewrite some_bind. apply IH; [lia|lia|done|].
  intros j Hj Hocc. destruct (decide (j < p)); [by apply (Hno j)|]. destruct (decide (j = p)) as [->|]; [done|].
  (* the needle would have [c] at this offset *)
  set (k := p + llen needle - j). assert (0 <= k < llen needle) as Hkr by lia. destruct (load_ok needle k) as [d Hd]; [done|].
  destruct Hocc as (_ & _ & Hr). pose proof (reads_at j k d Hr Hd) as Hd'. replace (j + k) with (p + llen needle) in Hd' by (unfold k; lia).
  assert (d = c) as -> by congruence. specialize (Hk k Hkr Hd). unfold k in Hk. lia.
Qed.

Lemma sunday_back_loop_ok td n : skips (fun k => k + 1) (fun k => 0 <= k < llen needle) td -> forall p, p + llen needle <= hi -> p - lo < Z.of_nat n -> 0 < llen needle ->
  (forall j, p < j -> ~ occurs h needle lo hi j) ->
  exists r, sunday_back_loop n td h needle lo p = Some r /\ last_occurrence h needle lo hi r.
Proof.
  intros [_ Ht]. induction n as [|n IH]; intros p Hp Hn Hl Hno; cbn [sunday_back_loop].
  all: destruct (Z.leb_spec lo p) as [Hle|Hgt]; cbn [negb]; [lia||idtac|].
  1,3: exists None; split; [done|]; intros j Hj; apply (Hno j); [|done]; destruct Hj as (Hj & _ & _); lia.
  destruct (agree_ok p) as (i & -> & Hi); [lia|lia|]. rewrite some_bind. destruct (Z.eqb_spec i (llen needle)) as [Ei|Ei].
  { exists (Some p). split; [done|]. split; [tauto|done]. }
  assert (~ occurs h needle lo hi p) as Hnp by tauto. destruct (Z.eqb_spec p lo) as [Ep|Ep].
  { exists None. split; [done|]. intros j Hj. destruct (Z.lt_trichotomy j p) as [Hlt|[->|Hgt]]; [|done|by apply (Hno j)].
    destruct Hj as (Hj & _ & _). lia. }
  destruct (load_ok h (p - 1)) as [c Hc]; [lia|]. rewrite Hc, some_bind.
  destruct (Ht c (load_byte _ _ _ Hh Hc)) as (s & -> & Hs & Hk). rewrite some_bind. apply IH; [lia|lia|done|].
  intros j Hj Hocc. destruct (decide (p < j)); [by apply (Hno j)|]. destruct (decide (j = p)) as [->|]; [done|].
  set (k := p - 1 - j). assert (0 <= k < llen needle) as Hkr by lia. destruct (load_ok needle k) as [d Hd]; [done|].
  destruct Hocc as (_ & _ & Hr). pose proof (reads_at j k d Hr Hd) as Hd'. replace (j + k) with (p - 1) in Hd' by (unfold k; lia).
  assert (d = c) as -> by congruence. specialize (Hk k Hkr Hd). unfold k in Hk. lia.
Qed.

(** ** The searches for the first character *)

Lemma memchr_loop_ok c n : forall p, 0 <= p -> p + Z.of_nat n <= llen h -> exists r, memchr_loop n h p c = Some r /\
  match r with
  | Some q => p <= q < p + Z.of_nat n /\ lload h q = Some c /\ forall j, p <= j < q -> lload h j <> Some c
  | None => forall j, p <= j < p + Z.of_nat n -> lload h j <> Some c
  end.
Proof.
  induction n as [|n IH]; intros p Hp Hn; cbn [memchr_loop]; [exists None; split; [done|]; lia|].
  destruct (load_ok h p) as [x Hx]; [lia|]. rewrite Hx, some_bind. destruct (Z.eqb_spec x c) as [->|Hne].
  { exists (Some p). split; [done|]. split; [lia|]. split; [done|]. lia. }
  destruct (IH (p + 1)) as (r & -> & Hr); [lia|lia|]. exists r. split; [done|].
  assert (forall j, p <= j -> ~ (p + 1 <= j) -> lload h j <> Some c) as Hj by (intros j ??; replace j with p by lia; congruence).
  destruct r as [q|].
  - destruct Hr as (Hq & Hqc & Hr). split; [lia|]. split; [done|]. intros j Hj'. destruct (decide (p + 1 <= j)); [apply Hr; lia|apply Hj; lia].
  - intros j Hj'. destruct (decide (p + 1 <= j)); [apply Hr; lia|apply Hj; lia].
Qed.

Lemma memrchr_loop_ok c n : forall e, 0 <= lo -> e < llen h -> e - lo < Z.of_nat n -> exists r, memrchr_loop n h lo e c = Some r /\
  match r with
  | Some q => lo <= q <= e /\ lload h q = Some c /\ forall j, q < j <= e -> lload h j <> Some c
  | None => forall j, lo <= j <= e -> lload h j <> Some c
  end.
Proof.
  induction n as [|n IH]; intros e Hl He Hn; cbn [memrchr_loop]; (destruct (Z.leb_spec lo e) as [Hle|Hgt]; cbn [negb]; [|exists None; split; [done|]; lia]); [lia|].
  destruct (load_ok h e) as [x Hx]; [lia|]. rewrite Hx, some_bind. destruct (Z.eqb_spec x c) as [->|Hne].
  { exists (Some e). split; [done|]. split; [lia|]. split; [done|]. lia. }
  destruct (IH (e - 1)) as (r & -> & Hr); [lia|lia|lia|]. exists r. split; [done|].
  assert (forall j, j <= e -> ~ (j <= e - 1) -> lload h j <> Some c) as Hj by (intros j ??; replace j with e by lia; congruence).
  destruct r as [q|].
  - destruct Hr as (Hq & Hqc & Hr). split; [lia|]. split; [done|]. intros j Hj'. destruct (decide (j <= e - 1)); [apply Hr; lia|apply Hj; lia].
  - intros j Hj'. destruct (decide (j <= e - 1)); [apply Hr; lia|apply Hj; lia].
Qed.

(** Where the needle stands, its first character is. *)
Lemma occurs_first c j : lload needle 0 = Some c -> occurs h needle lo hi j -> lload h j = Some c.
Proof. intros Hc (_ & _ & Hr). rewrite <- (reads_at j 0 c Hr Hc). f_equal. lia. Qed.

Lemma memchr_search_ok n : 2 <= llen needle -> forall p, lo <= p -> hi - p < Z.of_nat n -> (forall j, j < p -> ~ occurs h needle lo hi j) ->
  exists r, memchr_search n h needle p (hi - llen needle) = Some r /\ first_occurrence h needle lo hi r.
Proof.
  intros Hl. induction n as [|n IH]; intros p Hp Hn Hno; cbn [memchr_search].
  all: destruct (Z.leb_spec p (hi - llen needle)) as [Hle|Hgt]; cbn [negb]; [lia||idtac|].
  1,3: exists None; split; [done|]; intros j Hj; apply (Hno j); [|done]; destruct Hj as (_ & Hj & _); lia.
  destruct (load_ok needle 0) as [c Hc]; [lia|]. rewrite Hc, some_bind. unfold memchr.
  destruct (memchr_loop_ok c (Z.to_nat (hi - llen needle - p + 1)) p) as (r & -> & Hr); [lia|lia|]. rewrite some_bind. rewrite Z2Nat.id in Hr by lia.
  destruct r as [q|].
  - destruct Hr as (Hq & Hqc & Hbefore). destruct (rest_agrees_ok q c) as (b & -> & Hb); [lia|lia|done|done|done|]. rewrite some_bind.
    assert (forall j, j < q -> ~ occurs h needle lo hi j) as Hno'.
    { intros j Hj Hocc. destruct (decide (j < p)); [by apply (Hno j)|]. by apply (Hbefore j); [lia|apply occurs_first]. }
    destruct b.
    + exists (Some q). split; [done|]. split; [|done]. split; [lia|]. split; [lia|]. by apply Hb.
    + apply IH; [lia|lia|]. intros j Hj Hocc. destruct (decide (j = q)) as [->|]; [|apply (Hno' j); [lia|done]]. destruct Hocc as (_ & _ & Hr). by apply Hb in Hr.
  - exists None. split; [done|]. intros j Hocc. destruct (decide (j < p)); [by apply (Hno j)|].
    apply (Hr j); [|by apply occurs_first]. destruct Hocc as (_ & Hj & _). lia.
Qed.

Lemma zend_memrchr_ok c n : 0 <= n -> lo + n <= llen h -> exists r, zend_memrchr h lo c n = Some r /\
  match r with
  | Some q => lo <= q < lo + n /\ lload h q = Some c /\ forall j, q < j < lo + n -> lload h j <> Some c
  | None => forall j, lo <= j < lo + n -> lload h j <> Some c
  end.
Proof.
  intros Hn Hb. unfold zend_memrchr. destruct (Z.eqb_spec n 0) as [->|Hne]; [exists None; split; [done|]; lia|].
  destruct (memrchr_loop_ok c (Z.to_nat n) (lo + n - 1)) as (r & -> & Hr); [lia..|]. exists r. split; [done|]. destruct r as [q|].
  - destruct Hr as (Hq & Hqc & Hr). split; [lia|]. split; [done|]. intros j Hj. apply Hr. lia.
  - intros j Hj. apply Hr. lia.
Qed.

Lemma memrchr_search_ok n : 2 <= llen needle -> forall p, lo - 1 <= p -> p + llen needle <= hi -> p - lo + 1 < Z.of_nat n -> (forall j, p < j -> ~ occurs h needle lo hi j) ->
  exists r, memrchr_search n h needle lo p = Some r /\ last_occurrence h needle lo hi r.
Proof.
  intros Hl. induction n as [|n IH]; intros p Hp Hp' Hn Hno; cbn [memrchr_search]; [lia|].
  destruct (load_ok needle 0) as [c Hc]; [lia|]. rewrite Hc, some_bind.
  destruct (zend_memrchr_ok c (p - lo + 1)) as (r & -> & Hr); [lia|lia|]. rewrite some_bind. replace (lo + (p - lo + 1)) with (p + 1) in Hr by lia.
  destruct r as [q|].
  - destruct Hr as (Hq & Hqc & Hafter). destruct (rest_agrees_ok q c) as (b & -> & Hb); [lia|lia|done|done|done|]. rewrite some_bind.
    assert (forall j, q < j -> ~ occurs h needle lo hi j) as Hno'.
    { intros j Hj Hocc. destruct (decide (p < j)); [by apply (Hno j)|]. by apply (Hafter j); [lia|apply occurs_first]. }
    destruct b.
    + exists (Some q). split; [done|]. split; [|done]. split; [lia|]. split; [lia|]. by apply Hb.
    + rewrite (proj2 (Z.leb_le lo q)) by lia. apply IH; [lia|lia|lia|]. intros j Hj Hocc.
      destruct (decide (j = q)) as [->|]; [|apply (Hno' j); [lia|done]]. destruct Hocc as (_ & _ & Hr). by apply Hb in Hr.
  - exists None. split; [done|]. intros j Hocc. destruct (decide (p < j)); [by apply (Hno j)|].
    apply (Hr j); [|by apply occurs_first]. destruct Hocc as (Hj & _). lia.
Qed.

(** A needle of one character. *)
Lemma occurs_one c j : needle = [c] -> occurs h needle lo hi j <-> lo <= j < hi /\ lload h j = Some c.
Proof.
  intros En. unfold occurs. assert (llen needle = 1) as -> by (by rewrite En). split.
  - intros (H1 & H2 & Hr). split; [lia|]. rewrite <- (reads_at j 0 c Hr) by (by rewrite En). f_equal. lia.
  - intros (Hj & Hc). split_and!; [lia|lia|]. split; [lia|]. intros k d Hk. rewrite En in Hk. destruct k as [|k]; [|done].
    injection Hk as <-. rewrite <- Hc. f_equal. lia.
Qed.

Lemma one_char : llen needle = 1 -> exists c, needle = [c] /\ lload needle 0 = Some c.
Proof. destruct needle as [|c [|d l]]; [done|by exists c|]. unfold llen. cbn [length]. lia. Qed.

Lemma zend_memnstr_ok : lo <= hi -> exists r, zend_memnstr h lo needle hi = Some r /\ first_occurrence h needle lo hi r.
Proof.
  intros Hlh. pose proof (llen_nonneg needle) as Hnn. unfold zend_memnstr. destruct (Z.eqb_spec (llen needle) 1) as [E1|E1].
  { destruct (one_char E1) as (c & En & ->). rewrite some_bind. unfold memchr.
    destruct (memchr_loop_ok c (Z.to_nat (hi - lo)) lo) as (r & -> & Hr); [lia|lia|]. exists r. split; [done|]. rewrite Z2Nat.id in Hr by lia. destruct r as [q|].
    - destruct Hr as (Hq & Hqc & Hr). split; [apply (occurs_one c q En); split; [lia|done]|]. intros j Hj Hocc%(occurs_one c j En). apply (Hr j); [lia|tauto].
    - intros j Hocc%(occurs_one c j En). apply (Hr j); [lia|tauto]. }
  destruct (Z.eqb_spec (llen needle) 0) as [E0|E0].
  { exists (Some lo). split; [done|]. split; [|intros j Hj (H & _); lia]. unfold occurs. split_and!; [lia|lia|]. split; [done|].
    intros k c Hk. apply lookup_lt_Some in Hk. unfold llen in E0. lia. }
  destruct (Z.ltb_spec (hi - lo) (llen needle)) as [Hs|Hs].
  { exists None. split; [done|]. intros j (H1 & H2 & _). lia. }
  assert (forall j, j < lo -> ~ occurs h needle lo hi j) as Hno by (intros j Hj (H & _); lia).
  destruct ((hi - lo <? 1024) || (llen needle <? 9)); [apply memchr_search_ok; [lia|lia|lia|done]|].
  unfold zend_memnstr_ex. destruct (Z.eqb_spec (llen needle) 0), (Z.ltb_spec (hi - lo) (llen needle)); try lia. cbn [orb].
  destruct (pre_ok false) as (td & -> & Ht). rewrite some_bind. apply sunday_loop_ok; [done|lia|lia|lia|done].
Qed.

Lemma zend_memnrstr_ok : lo <= hi -> exists r, zend_memnrstr h lo needle hi = Some r /\ last_occurrence h needle lo hi r.
Proof.
  intros Hlh. pose proof (llen_nonneg needle) as Hnn. unfold zend_memnrstr. destruct (Z.eqb_spec (llen needle) 0) as [E0|E0].
  { exists (Some hi). split; [done|]. split; [|intros j Hj (_ & H & _); lia]. unfold occurs. split_and!; [lia|lia|]. split; [lia|].
    intros k c Hk. apply lookup_lt_Some in Hk. unfold llen in E0. lia. }
  destruct (Z.eqb_spec (llen needle) 1) as [E1|E1].
  { destruct (one_char E1) as (c & En & ->). rewrite some_bind. destruct (zend_memrchr_ok c (hi - lo)) as (r & -> & Hr); [lia|lia|]. exists r. split; [done|].
    replace (lo + (hi - lo)) with hi in Hr by lia. destruct r as [q|].
    - destruct Hr as (Hq & Hqc & Hr). split; [apply (occurs_one c q En); split; [lia|done]|]. intros j Hj Hocc%(occurs_one c j En). apply (Hr j); [lia|tauto].
    - intros j Hocc%(occurs_one c j En). apply (Hr j); [lia|tauto]. }
  assert ((if 0 <? hi - lo then hi - lo else 0) = hi - lo) as -> by (destruct (Z.ltb_spec 0 (hi - lo)); lia).
  destruct (Z.ltb_spec (hi - lo) (llen needle)) as [Hs|Hs].
  { exists None. split; [done|]. intros j (H1 & H2 & _). lia. }
  assert (forall j, hi - llen needle < j -> ~ occurs h needle lo hi j) as Hno by (intros j Hj (_ & H & _); lia).
  destruct ((hi - lo <? 1024) || (llen needle <? 3)); [apply memrchr_search_ok; [lia|lia|lia|lia|done]|].
  unfold zend_memnrstr_ex. destruct (Z.eqb_spec (llen needle) 0), (Z.ltb_spec (hi - lo) (llen needle)); try lia. cbn [orb].
  destruct (pre_ok true) as (td & -> & Ht). rewrite some_bind. apply sunday_back_loop_ok; [done|lia|lia|lia|done].
Qed.
End Search.

(** C21: [zend_memnstr], the search behind [strpos], [explode] and others, always
    returns: the first place in the given part of the haystack where the needle
    stands, or [NULL] if there is none, by whichever of its strategies (first
    character, Sunday's algorithm with its table of skips), without reading
    outside of the haystack. *)
Theorem zend_memnstr_correct h needle lo hi : Forall is_byte h -> Forall is_byte needle -> llen needle < 2 ^ 31 -> 0 <= lo <= hi -> hi <= llen h ->
  exists r, zend_memnstr h lo needle hi = Some r /\ first_occurrence h needle lo hi r.
Proof. intros. by apply zend_memnstr_ok; lia || done. Qed.

(** [zend_memnrstr] returns the last place where the needle stands, or
    [NULL], on the same terms. *)
Theorem zend_memnrstr_correct h needle lo hi : Forall is_byte h -> Forall is_byte needle -> llen needle < 2 ^ 31 -> 0 <= lo <= hi -> hi <= llen h ->
  exists r, zend_memnrstr h lo needle hi = Some r /\ last_occurrence h needle lo hi r.
Proof. intros. by apply zend_memnrstr_ok; lia || done. Qed.

Lemma zend_memnstr_correct_witness : let h := replicate 1100 97 ++ [98; 97; 98; 97; 98; 97; 98; 97; 98; 99; 97] in
  let needle := [97; 98; 97; 98; 97; 98; 97; 98; 99] in
  llen needle < 2 ^ 31 /\ exists r, zend_memnstr h 3 needle (llen h) = Some r /\ first_occurrence h needle 3 (llen h) r.
Proof.
  intros h needle. assert (forall l, forallb (fun c => (0 <=? c) && (c <? 256)) l = true -> Forall is_byte l) as Hl.
  { intros l. induction l as [|c l IH]; [by constructor|]. cbn [forallb]. intros [Hc Hf]%andb_true_iff. constructor; [unfold is_byte; lia|by apply IH]. }
  split; [vm_compute; reflexivity|].
  apply (zend_memnstr_correct h needle 3 (llen h)); [apply Hl; vm_compute; reflexivity|apply Hl; vm_compute; reflexivity|vm_compute; reflexivity|vm_compute; split; discriminate|reflexivity].
Defined.

Lemma zend_memnrstr_correct_witness : let h := [99; 97; 98] ++ replicate 1100 97 in let needle := [97; 98; 97] in
  llen needle < 2 ^ 31 /\ exists r, zend_memnrstr h 1 needle (llen h) = Some r /\ last_occurrence h needle 1 (llen h) r.
Proof.
  intros h needle. assert (forall l, forallb (fun c => (0 <=? c) && (c <? 256)) l = true -> Forall is_byte l) as Hl.
  { intros l. induction l as [|c l IH]; [by constructor|]. cbn [forallb]. intros [Hc Hf]%andb_true_iff. constructor; [unfold is_byte; lia|by apply IH]. }
  split; [vm_compute; reflexivity|].
  apply (zend_memnrstr_correct h needle 1 (llen h)); [apply Hl; vm_compute; reflexivity|apply Hl; vm_compute; reflexivity|vm_compute; reflexivity|vm_compute; split; discriminate|reflexivity].
Defined.

Example memnstr_runs : zend_memnstr (replicate 1100 97 ++ [98; 97; 98; 97; 98; 97; 98; 97; 98; 99; 97]) 3 [97; 98; 97; 98; 97; 98; 97; 98; 99] 1111 = Some (Some 1101).
Proof. vm_compute. reflexivity. Qed.

Example memnrstr_runs : zend_memnrstr ([99; 97; 98] ++ replicate 1100 97) 1 [97; 98; 97] 1103 = Some (Some 1).
Proof. vm_compute. reflexivity. Qed.

(** ** Needles of 4 GB

    An entry of the table is an [unsigned int]: for a needle of 2^32 - 1
    characters the skip for a character that is not in the needle is 0, and the
    search stays where it is. *)

Lemma pre_forward_absent c needle len n : forall i td td', 0 <= c -> 0 <= i -> (forall k, lload needle k <> Some c) -> Forall is_byte needle ->
  pre_forward n needle len i td = Some td' -> lload td' c = lload td c.
Proof.
  induction n as [|n IH]; intros i td td' Hc Hi Hno Hb; cbn [pre_forward]; [congruence|].
  destruct (lload needle i) as [d|] eqn:Hd; cbn [mbind option_bind]; [|done].
  destruct (lstore td d _) as [td1|] eqn:Hs; cbn [mbind option_bind]; [|done]. intros H. rewrite (IH (i + 1) td1 td'); [|done|lia|done|done|done].
  unfold lstore in Hs. destruct ((d <? 0) || (llen td <=? d)) eqn:Eb; [done|]. injection Hs as <-. apply orb_false_iff in Eb as [Hd0%Z.ltb_ge _].
  unfold lload, lset. destruct (Z.ltb_spec c 0); [done|]. apply list_lookup_insert_ne. assert (d <> c) by (intros ->; by apply (Hno i)). lia.
Qed.

Lemma sunday_never_returns h needle c td : Forall is_byte needle -> is_byte c -> llen needle = 2 ^ 32 - 1 -> (forall k, lload needle k <> Some c) ->
  lload h 0 = Some c -> lload h (llen needle) = Some c -> zend_memnstr_ex_pre needle false = Some td ->
  forall n hi, llen needle < hi -> sunday_loop n td h needle 0 (hi - llen needle) = None.
Proof.
  intros Hb Hc Hl Hno H0 Hend Hpre n hi Hhi. assert (lload td c = Some 0) as Htd.
  { unfold zend_memnstr_ex_pre in Hpre. rewrite (pre_forward_absent c needle _ _ _ _ _ (proj1 Hc) (Z.le_refl 0) Hno Hb Hpre).
    rewrite Hl. unfold is_byte in Hc. unfold lload. destruct (Z.ltb_spec c 0); [lia|]. apply lookup_replicate. split; [done|lia]. }
  destruct needle as [|x needle'] eqn:En; [done|]. rewrite <- En in *.
  assert (agree_loop (length needle) needle h 0 0 = Some 0) as Ha.
  { rewrite En. cbn [length agree_loop]. change (lload (x :: needle') 0) with (Some x). rewrite some_bind. change (0 + 0) with 0. rewrite H0, some_bind.
    assert (x <> c) as Hx by (intros ->; apply (Hno 0); by rewrite En). by rewrite (proj2 (Z.eqb_neq x c) Hx). }
  induction n as [|n IH]; cbn [sunday_loop]; rewrite (proj2 (Z.leb_le 0 (hi - llen needle))) by lia; cbn [negb]; [done|].
  rewrite Ha, some_bind, (proj2 (Z.eqb_neq 0 (llen needle))), (proj2 (Z.eqb_neq 0 (hi - llen needle))) by lia.
  by rewrite Z.add_0_l, Hend, some_bind, Htd, some_bind.
Qed.
