(* ===== verification/StrExplode.v ===== *)
(** Splitting and joining strings (ext/standard/string.c): [explode] and
    [implode], which meet the string search, the hash table and the printing of
    integers.  Strings are lists of bytes, pointers offsets into them. *)

From stdpp Require Import base numbers list gmap.
From S2P Require Import Prelude ZendTypes NumericStr HashTable HashDict HashChain HashInv HashRehash HashFind HashAdd HashIndex.
From S2P Require Import HashOps HashTraverse HashSymtable ZendSort HashCopy HashMerge HashList HashFill CompileRuntime Sse Base64 Base64Simd StrSearch.

(** What the functions distinguish among the values; for other values, the
    string that [zval_get_string_func] converts them to. *)
Inductive typed := T_STRING (s : list Z) | T_LONG (n : Z) | T_OTHER (s : list Z).

Class StrValue (V : Type) := { ZVAL_STR : list Z -> V; Z_TYPED : V -> typed }.
Class StrValueOk (V : Type) `{StrValue V} := ZVAL_STR_typed s : Z_TYPED (ZVAL_STR s) = T_STRING s.

Section Explode.
Context {V : Type} {E : ZEnv V} {SV : StrValue V}.
Implicit Types (t : HashTable V) (w : EG V).

(** [zend_string_init_fast(p, len)] and [ZVAL_STRINGL]: a copy of a part of a string. *)
Definition zend_string_init_fast (str : list Z) (p len : Z) : option (zval V) :=
  if (p <? 0) || (len <? 0) || (llen str <? p + len) then None
  else Some (IS_VALUE (ZVAL_STR (take (Z.to_nat len) (drop (Z.to_nat p) str)))).

(** Grow, set, next. *)
Definition fill_str (str : list Z) (p len : Z) (fill_idx : Z) t : option (HashTable V * Z) :=
  t ← fill_grow fill_idx t;
  v ← zend_string_init_fast str p len;
  Some (set_packed fill_idx v t, fill_idx + 1).

(** The [do] loop: one piece, then the next delimiter. *)
Fixpoint explode_loop (n : nat) (delim str : list Z) (p1 p2 limit : Z) (fill_idx : Z) t : option (HashTable V * Z * Z) :=
  match n with
  | O => None
  | S n =>
      '(t, fill_idx) ← fill_str str p1 (p2 - p1) fill_idx t;
      let p1 := p2 + llen delim in
      q ← zend_memnstr str p1 delim (llen str);
      match q with
      | None => Some (t, fill_idx, p1)
      | Some p2 => if 1 <? limit - 1 then explode_loop n delim str p1 p2 (limit - 1) fill_idx t else Some (t, fill_idx, p1)
      end
  end.

Definition php_explode (delim str : list Z) (limit : Z) (s : state V) : option (state V) :=
  let (t, w) := s in
  let endp := llen str in
  q ← zend_memnstr str 0 delim endp;
  match q with
  | None => '(s, _) ← zend_hash_next_index_insert_new (IS_VALUE (ZVAL_STR str)) (t, w); Some s
  | Some p2 =>
      let t := zend_hash_real_init_packed_ex t in
      '(t, fill_idx, p1) ← explode_loop (S (length str)) delim str 0 p2 limit (nNumUsed t) t;
      '(t, fill_idx) ← (if p1 <=? endp then fill_str str p1 (endp - p1) fill_idx t else Some (t, fill_idx));
      Some (fill_finish fill_idx t, w)
  end.

Definition EXPLODE_ALLOC_STEP : Z := 64.

(** The starts of the pieces, in a buffer that grows. *)
Fixpoint positions_loop (n : nat) (delim str : list Z) (p2 found : Z) (positions : list Z) : option (list Z * Z) :=
  match n with
  | O => None
  | S n =>
      let positions := if llen positions <=? found
                       then positions ++ replicate (Z.to_nat (found + EXPLODE_ALLOC_STEP - llen positions)) 0 else positions in
      let p1 := p2 + llen delim in
      positions ← lstore positions found p1;
      q ← zend_memnstr str p1 delim (llen str);
      match q with
      | None => Some (positions, found + 1)
      | Some p2 => positions_loop n delim str p2 (found + 1) positions
      end
  end.

Fixpoint insert_positions (n : nat) (delim str positions : list Z) (i : Z) (s : state V) : option (state V) :=
  match n with
  | O => Some s
  | S n =>
      p ← lload positions i; p' ← lload positions (i + 1);
      v ← zend_string_init_fast str p (p' - llen delim - p);
      '(s, _) ← zend_hash_next_index_insert_new v s;
      insert_positions n delim str positions (i + 1) s
  end.

Definition php_explode_negative_limit (delim str : list Z) (limit : Z) (s : state V) : option (state V) :=
  q ← zend_memnstr str 0 delim (llen str);
  match q with
  | None => Some s
  | Some p2 =>
      let positions := replicate (Z.to_nat EXPLODE_ALLOC_STEP) 0 in
      positions ← lstore positions 0 0;
      '(positions, found) ← positions_loop (S (length str)) delim str p2 1 positions;
      let to_return := s64 (limit + found) in
      insert_positions (Z.to_nat to_return) delim str positions 0 s
  end.

Inductive explode_result := ExplodeError | ExplodeArray (s : state V).

(** [PHP_FUNCTION(explode)]; [id]: the address of the new array. *)
Definition explode (id : Z) (delim str : list Z) (limit : Z) w : option explode_result :=
  if llen delim =? 0 then Some ExplodeError
  else
    t ← zend_new_array id HT_MIN_SIZE;
    s ← (if llen str =? 0 then
           if 0 <=? limit then '(s, _) ← zend_hash_index_add_new 0 (IS_VALUE (ZVAL_STR [])) (t, w); Some s else Some (t, w)
         else if 1 <? limit then php_explode delim str limit (t, w)
         else if limit <? 0 then php_explode_negative_limit delim str limit (t, w)
         else '(s, _) ← zend_hash_index_add_new 0 (IS_VALUE (ZVAL_STR str)) (t, w); Some s);
    Some (ExplodeArray s).

(** * Joining *)

Definition zval_typed (v : zval V) : option typed :=
  match v with IS_VALUE x => Some (Z_TYPED x) | IS_NULL => Some (T_OTHER []) | _ => None end.

(** [zval_get_string] *)
Definition zval_get_string (ty : typed) : list Z :=
  match ty with T_STRING s => s | T_LONG n => zend_long_to_str n | T_OTHER s => s end.

(** [while (val) { val /= 10; len++; }], [len] a [size_t] *)
Fixpoint count_digits (n : nat) (val len : Z) : option Z :=
  if val =? 0 then Some len else match n with O => None | S n => count_digits n (Z.quot val 10) (u64 (len + 1)) end.

(** An entry of [strings]: a string, or the integer. *)
Definition piece : Type := list Z + Z.

Definition gather_piece (ty : typed) (len : Z) : option (piece * Z) :=
  match ty with
  | T_STRING s | T_OTHER s => Some (inl s, u64 (len + llen s))
  | T_LONG val => len ← count_digits 20 val (if val <=? 0 then u64 (len + 1) else len); Some (inr val, len)
  end.

(** [ZEND_HASH_FOREACH_VAL] over the pieces. *)
Fixpoint gather (n : nat) t (i len : Z) : option (list piece * Z) :=
  match n with
  | O => Some ([], len)
  | S n =>
      if pos_undef t i then gather n t (i + 1) len
      else
        ty ← zval_typed (pos_val t i);
        '(p, len) ← gather_piece ty len;
        '(l, len) ← gather n t (i + 1) len;
        Some (p :: l, len)
  end.

(** [zend_print_long_to_buf(cptr, num)]: a terminator at [cptr], the notation before it. *)
Definition print_long_at (buf : list Z) (cptr num : Z) : option (list Z * Z) :=
  buf ← lstore buf cptr 0;
  let ds := zend_print_long_to_buf num in
  buf ← memcpy buf (cptr - llen ds) ds (llen ds);
  Some (buf, cptr - llen ds).

(** From the last piece to the first, before [cptr]. *)
Fixpoint implode_loop (glue : list Z) (ptr : list piece) (buf : list Z) (cptr : Z) : option (list Z * Z) :=
  match ptr with
  | [] => None
  | p :: ptr =>
      '(buf, cptr) ← match p with
        | inl s => buf ← memcpy buf (cptr - llen s) s (llen s); Some (buf, cptr - llen s)
        | inr lval =>
            oldVal ← lload buf cptr;
            '(buf, cptr') ← print_long_at buf cptr lval;
            buf ← lstore buf cptr oldVal;
            Some (buf, cptr')
        end;
      match ptr with
      | [] => Some (buf, cptr)
      | _ :: _ =>
          let cptr := cptr - llen glue in
          buf ← (if llen glue =? 1 then g ← lload glue 0; lstore buf cptr g else memcpy buf cptr glue (llen glue));
          implode_loop glue ptr buf cptr
      end
  end.

(** [zend_safe_address(nmemb, size, offset)]: [None] is the overflow, which
    [zend_safe_address_guarded] turns into a fatal error. *)
Definition zend_safe_address (nmemb size offset : Z) : option Z :=
  let res := nmemb * size + offset in if res <? 2 ^ 64 then Some res else None.

(** [ZEND_MM_ALIGNED_SIZE] and [_ZSTR_STRUCT_SIZE], on [size_t]. *)
Definition ZEND_MM_ALIGNED_SIZE (size : Z) : Z := Z.land (u64 (size + 8 - 1)) (Z.lnot (8 - 1)).
Definition _ZSTR_HEADER_SIZE : Z := 24.
Definition _ZSTR_STRUCT_SIZE (len : Z) : Z := u64 (_ZSTR_HEADER_SIZE + len + 1).

(** The bytes from [val] to the end of the block, with what the block held, and
    the length: [None] when the size overflows. *)
Definition zend_string_safe_alloc (heap_junk : Z -> Z) (n m l : Z) : option (list Z * Z) :=
  size ← zend_safe_address n m (ZEND_MM_ALIGNED_SIZE (_ZSTR_STRUCT_SIZE l));
  Some (heap_junk <$> zrange 0 (Z.to_nat (size - _ZSTR_HEADER_SIZE)), u64 (u64 (n * m) + l)).

Inductive implode_result := ImplodeError | ImplodeString (r : list Z * Z).

(** The first value that is defined. *)
Fixpoint first_val (n : nat) t (i : Z) : option (zval V) :=
  match n with
  | O => None
  | S n => if pos_undef t i then first_val n t (i + 1) else Some (pos_val t i)
  end.

(** The characters of the string with the terminator, and its length; or the
    fatal error "Possible integer overflow in memory allocation". *)
Definition php_implode (heap_junk : Z -> Z) (glue : list Z) (pieces : HashTable V) : option implode_result :=
  let numelems := nNumOfElements pieces in
  if numelems =? 0 then Some (ImplodeString ([0], 0))
  else if numelems =? 1 then
    v ← first_val (Z.to_nat (nNumUsed pieces)) pieces 0; ty ← zval_typed v;
    Some (ImplodeString (zval_get_string ty ++ [0], llen (zval_get_string ty)))
  else
    '(strings, len) ← gather (Z.to_nat (nNumUsed pieces)) pieces 0 0;
    match zend_string_safe_alloc heap_junk (numelems - 1) (llen glue) len with
    | None => Some ImplodeError
    | Some (str, total) =>
        str ← lstore str total 0;
        '(str, _) ← implode_loop glue (reverse strings) str total;
        Some (ImplodeString (str, total))
    end.
End Explode.

(** * Specification *)

(** The pieces of a string: each ends where the delimiter occurs first. *)
Inductive splits (d : list Z) : list Z -> list (list Z) -> Prop :=
| splits_last s : (forall j, ~ occurs s d 0 (llen s) j) -> splits d s [s]
| splits_next a s ps : (forall j, j < llen a -> ~ occurs (a ++ d ++ s) d 0 (llen (a ++ d ++ s)) j) ->
    splits d s ps -> splits d (a ++ d ++ s) (a :: ps).

Fixpoint join (d : list Z) (ps : list (list Z)) : list Z :=
  match ps with
  | [] => []
  | [p] => p
  | p :: ps => p ++ d ++ join d ps
  end.

(** The [limit] of [explode]: at most that many pieces, the last one with the
    rest; negative: without that many at the end. *)
Definition limit_pieces (d : list Z) (limit : Z) (ps : list (list Z)) : list (list Z) :=
  if limit <? 0 then take (Z.to_nat (llen ps + limit)) ps
  else
    let n := Z.to_nat (Z.max 1 limit) in
    if (length ps <=? n)%nat then ps else take (n - 1) ps ++ [join d (drop (n - 1) ps)].

(** * Pieces *)

Lemma occurs_shift pre rest d j : occurs (pre ++ rest) d (llen pre) (llen (pre ++ rest)) (llen pre + j) <-> occurs rest d 0 (llen rest) j.
Proof.
  unfold occurs, reads. rewrite llen_app. pose proof (llen_nonneg pre).
  assert (forall k c, 0 <= j -> lload (pre ++ rest) (llen pre + j + Z.of_nat k) = Some c <-> lload rest (j + Z.of_nat k) = Some c) as Hl.
  { intros k c Hj. by rewrite <- Z.add_assoc, lload_app_r by lia. }
  split; intros (H1 & H2 & H3 & H4); (split_and!; [lia|lia|lia|]); intros k c Hk; apply Hl; (lia || by apply H4).
Qed.

(** A string that is read at an offset splits its surroundings. *)
Lemma reads_split (s d : list Z) j : reads s j d -> j + llen d <= llen s -> exists a b, s = a ++ d ++ b /\ llen a = j.
Proof.
  intros [Hj Hr] Hl. exists (take (Z.to_nat j) s), (drop (Z.to_nat j + length d) s). unfold llen in *. split; [|rewrite length_take; lia].
  rewrite <- (take_drop (Z.to_nat j) s) at 1. f_equal. rewrite <- (take_drop (length d) (drop (Z.to_nat j) s)), drop_drop. f_equal.
  apply list_eq. intros k. destruct (decide (k < length d)%nat) as [Hk|Hk].
  - rewrite lookup_take_lt, lookup_drop by done. destruct (lookup_lt_is_Some_2 d k Hk) as [c Hc]. rewrite Hc, <- (Hr k c Hc), <- lload_nat. f_equal. lia.
  - rewrite lookup_take_ge, (lookup_ge_None_2 d) by lia. done.
Qed.

Lemma reads_mid (a d b : list Z) : reads (a ++ d ++ b) (llen a) d.
Proof.
  split; [apply llen_nonneg|]. intros k c Hk. rewrite lload_app_r by lia. rewrite lload_nat. by apply lookup_app_l_Some.
Qed.

Section Pieces.
Context (d : list Z) (Hd : Forall is_byte d) (Hdl : 0 < llen d < 2 ^ 31).

(** The next delimiter behind [pre]. *)
Lemma next_piece pre rest : Forall is_byte (pre ++ rest) ->
  (zend_memnstr (pre ++ rest) (llen pre) d (llen (pre ++ rest)) = Some None /\ forall j, ~ occurs rest d 0 (llen rest) j) \/
  (exists a rest', rest = a ++ d ++ rest' /\ zend_memnstr (pre ++ rest) (llen pre) d (llen (pre ++ rest)) = Some (Some (llen pre + llen a)) /\
    forall j, j < llen a -> ~ occurs rest d 0 (llen rest) j).
Proof.
  intros Hb. pose proof (llen_nonneg pre). pose proof (llen_nonneg rest).
  destruct (zend_memnstr_ok (pre ++ rest) d Hb Hd ltac:(lia) (llen pre) (llen (pre ++ rest))) as (r & E & Hr); [lia|lia|rewrite llen_app; lia|].
  destruct r as [k|].
  - right. destruct Hr as [Hk Hno]. replace k with (llen pre + (k - llen pre)) in Hk by lia. apply occurs_shift in Hk as Hk'.
    destruct Hk' as (Hk1 & Hk2 & Hkr). destruct (reads_split rest d (k - llen pre) Hkr ltac:(lia)) as (a & b & -> & Ea).
    exists a, b. split; [done|]. split; [rewrite E; do 2 f_equal; lia|]. intros j Hj Hocc. apply (Hno (llen pre + j)); [lia|]. by apply occurs_shift.
  - left. split; [done|]. intros j Hocc. apply (Hr (llen pre + j)). by apply occurs_shift.
Qed.

(** A string is cut in one way. *)
Lemma splits_unique s ps ps' : splits d s ps -> splits d s ps' -> ps = ps'.
Proof.
  intros Hs. revert ps'. induction Hs as [s Hno|a s ps Hfirst Hs IH]; intros ps' Hs'.
  - inversion Hs' as [|a' s' ps2 Hf Hs2 E]; subst; [done|]. exfalso. apply (Hno (llen a')). unfold occurs. rewrite !llen_app.
    pose proof (llen_nonneg a'). pose proof (llen_nonneg s'). split_and!; [lia|lia|apply reads_mid].
  - assert (forall x y, reads (x ++ d ++ y) (llen x) d /\ llen x + llen d <= llen (x ++ d ++ y)) as Hmid.
    { intros x y. split; [apply reads_mid|]. rewrite !llen_app. pose proof (llen_nonneg y). lia. }
    remember (a ++ d ++ s) as str eqn:Estr. destruct Hs' as [str Hno|a' s' ps2 Hf Hs2].
    + exfalso. apply (Hno (llen a)). destruct (Hmid a s) as [? ?]. subst str. unfold occurs. split_and!; [apply llen_nonneg|lia|done].
    + assert (llen a = llen a') as El.
      { destruct (Z.lt_trichotomy (llen a) (llen a')) as [Hlt|[He|Hgt]]; [|done|]; exfalso.
        - apply (Hf (llen a) Hlt). rewrite Estr. destruct (Hmid a s). unfold occurs. split_and!; [apply llen_nonneg|lia|done].
        - apply (Hfirst (llen a') ltac:(lia)). destruct (Hmid a' s'). unfold occurs. split_and!; [apply llen_nonneg|lia|done]. }
      apply app_inj_1 in Estr as [-> Estr]; [|unfold llen in El; lia]. apply app_inv_head in Estr as ->. f_equal. by apply IH.
Qed.

Lemma splits_nonempty s ps : splits d s ps -> ps <> [].
Proof. by destruct 1. Qed.

Lemma join_splits s ps : splits d s ps -> join d ps = s.
Proof.
  induction 1 as [|a s ps _ Hs IH]; [done|]. pose proof (splits_nonempty _ _ Hs). destruct ps as [|p ps]; [done|].
  change (join d (a :: p :: ps)) with (a ++ d ++ join d (p :: ps)). by rewrite IH.
Qed.

Lemma splits_exists s : Forall is_byte s -> exists ps, splits d s ps.
Proof.
  remember (length s) as n eqn:E. revert s E. induction n as [n IH] using lt_wf_ind. intros s -> Hb.
  destruct (next_piece [] s Hb) as [(_ & Hno)|(a & rest & -> & _ & Hfirst)]; [exists [s]; by constructor|].
  rewrite !length_app in IH. unfold llen in Hdl. apply Forall_app in Hb as [_ Hb]. apply Forall_app in Hb as [_ Hb].
  destruct (IH (length rest) ltac:(lia) rest eq_refl Hb) as [ps Hps]. exists (a :: ps). by constructor.
Qed.

Lemma splits_length s ps : splits d s ps -> (length ps <= length s + 1)%nat.
Proof.
  induction 1 as [|a s ps _ _ IH]; [cbn; lia|]. rewrite !length_app. unfold llen in Hdl. cbn [length]. lia.
Qed.
End Pieces.

(** At most [n] pieces, [n] positive. *)
Definition at_most (d : list Z) (n : nat) (ps : list (list Z)) : list (list Z) :=
  if (length ps <=? n)%nat then ps else take (n - 1) ps ++ [join d (drop (n - 1) ps)].

Lemma at_most_cons d n a ps : (0 < n)%nat -> at_most d (S n) (a :: ps) = a :: at_most d n ps.
Proof.
  intros Hn. unfold at_most. cbn [length]. destruct (Nat.leb_spec (S (length ps)) (S n)), (Nat.leb_spec (length ps) n); try lia; [done|].
  destruct n as [|n]; [lia|]. replace (S (S n) - 1)%nat with (S (S n - 1)) by lia. done.
Qed.

Lemma at_most_one d ps : ps <> [] -> at_most d 1 ps = [join d ps].
Proof.
  intros Hn. unfold at_most. destruct ps as [|p [|q ps]]; done.
Qed.

Section ExplodeOk.
Context {V : Type} {E : ZEnv V} {SV : StrValue V}.
Implicit Types (t : HashTable V) (w : EG V).
Context (d : list Z) (Hd : Forall is_byte d) (Hdl : 0 < llen d < 2 ^ 31).

Definition str_zval (s : list Z) : zval V := IS_VALUE (ZVAL_STR s).

Lemma init_fast_ok (pre a rest : list Z) p : p = llen pre -> zend_string_init_fast (pre ++ a ++ rest) p (llen a) = Some (str_zval a).
Proof.
  intros ->. unfold zend_string_init_fast. rewrite !llen_app. pose proof (llen_nonneg pre). pose proof (llen_nonneg a). pose proof (llen_nonneg rest).
  destruct (Z.ltb_spec (llen pre) 0), (Z.ltb_spec (llen a) 0), (Z.ltb_spec (llen pre + (llen a + llen rest)) (llen pre + llen a)); try lia. cbn [orb].
  unfold llen. by rewrite !Nat2Z.id, drop_app_length, take_app_length.
Qed.

Lemma fill_str_ok str pre a rest vs t p idx : str = pre ++ a ++ rest -> p = llen pre -> idx = llen vs -> filling vs t -> llen vs <= 2 ^ 28 ->
  exists t', fill_str str p (llen a) idx t = Some (t', llen (vs ++ [str_zval a])) /\ filling (vs ++ [str_zval a]) t'.
Proof.
  intros -> Hp -> Hf Hl. unfold fill_str. destruct (fill_grow_ok vs t Hf Hl) as (t1 & -> & Hf1 & Hroom). rewrite some_bind, init_fast_ok, some_bind by done.
  eexists. split; [by rewrite llen_app|]. by apply fill_set_ok.
Qed.

(** The loop and the last piece. *)
Lemma explode_loop_ok n : forall pre a rest ps vs t limit, Forall is_byte (pre ++ a ++ d ++ rest) -> (length rest < n)%nat ->
  splits d rest ps -> filling vs t -> llen vs + llen (a :: ps) <= 2 ^ 28 -> 1 < limit ->
  exists t' idx p1, explode_loop n d (pre ++ a ++ d ++ rest) (llen pre) (llen pre + llen a) limit (llen vs) t = Some (t', idx, p1) /\
  p1 <= llen (pre ++ a ++ d ++ rest) /\
  exists t2, fill_str (pre ++ a ++ d ++ rest) p1 (llen (pre ++ a ++ d ++ rest) - p1) idx t' = Some (t2, llen (vs ++ (str_zval <$> at_most d (Z.to_nat limit) (a :: ps)))) /\
    filling (vs ++ (str_zval <$> at_most d (Z.to_nat limit) (a :: ps))) t2.
Proof.
  induction n as [|n IH]; intros pre a rest ps vs t limit Hb Hn Hps Hf Hl Hlim; [lia|]. cbn [explode_loop].
  pose proof (splits_nonempty d _ _ Hps) as Hne. pose proof (llen_nonneg rest) as Hrest. rewrite llen_cons in Hl. assert (1 <= llen ps) as Hps1 by (destruct ps as [|x ps']; [done|rewrite llen_cons; pose proof (llen_nonneg ps'); lia]).
  set (str := pre ++ a ++ d ++ rest) in *. replace (llen pre + llen a - llen pre) with (llen a) by lia.
  destruct (fill_str_ok str pre a (d ++ rest) vs t (llen pre) (llen vs)) as (t1 & -> & Hf1); [done..|lia|]. rewrite some_bind. cbn beta iota.
  assert (str = (pre ++ a ++ d) ++ rest) as Estr by (unfold str; by rewrite <- !app_assoc).
  assert (llen pre + llen a + llen d = llen (pre ++ a ++ d)) as Ep by (rewrite !llen_app; lia). rewrite Ep.
  (* the text from here on as the last piece *)
  assert (at_most d (Z.to_nat limit) (a :: ps) = [a; rest] -> exists t2,
    fill_str str (llen (pre ++ a ++ d)) (llen str - llen (pre ++ a ++ d)) (llen (vs ++ [str_zval a])) t1 =
      Some (t2, llen (vs ++ (str_zval <$> at_most d (Z.to_nat limit) (a :: ps)))) /\ filling (vs ++ (str_zval <$> at_most d (Z.to_nat limit) (a :: ps))) t2) as Hlast.
  { intros ->. replace (llen str - llen (pre ++ a ++ d)) with (llen rest) by (rewrite Estr, (llen_app (pre ++ a ++ d)); lia).
    destruct (fill_str_ok str (pre ++ a ++ d) rest [] (vs ++ [str_zval a]) t1 (llen (pre ++ a ++ d)) (llen (vs ++ [str_zval a]))) as (t2 & E2 & Hf2);
      [by rewrite app_nil_r|done|done|done|rewrite llen_app; change (llen [str_zval a]) with 1; lia|].
    exists t2. rewrite <- app_assoc in E2, Hf2. by split. }
  assert (llen (pre ++ a ++ d) <= llen str) as Hend by (rewrite Estr, (llen_app (pre ++ a ++ d)); lia).
  rewrite Estr in Hb |- *. destruct (next_piece d Hd Hdl (pre ++ a ++ d) rest Hb) as [(Em & Hno)|(b & rest' & -> & Em & Hfirst)]; rewrite Em, some_bind.
  - exists t1, (llen (vs ++ [str_zval a])), (llen (pre ++ a ++ d)). split; [done|]. rewrite <- Estr. split; [done|]. apply Hlast.
    rewrite (splits_unique d rest ps [rest] Hps) by (by constructor). unfold at_most. by destruct (Nat.leb_spec (length [a; rest]) (Z.to_nat limit)); [|cbn in *; lia].
  - destruct (Z.ltb_spec 1 (limit - 1)) as [Hmore|Hstop].
    + apply Forall_app in Hb as Hb'. destruct Hb' as [_ Hb']. apply Forall_app in Hb' as [_ Hb']. apply Forall_app in Hb' as [_ Hb'].
      destruct (splits_exists d Hd Hdl rest' Hb') as [ps' Hps'].
      assert (ps = b :: ps') as -> by (apply (splits_unique d (b ++ d ++ rest')); [done|by constructor]).
      rewrite !length_app in Hn. unfold llen in Hdl.
      destruct (IH (pre ++ a ++ d) b rest' ps' (vs ++ [str_zval a]) t1 (limit - 1)) as (t' & idx & p1 & E1 & Hp1 & t2 & E2 & Hf2);
        [done|lia|done|done|rewrite llen_app; change (llen [str_zval a]) with 1; lia|lia|].
      exists t', idx, p1. split; [exact E1|]. split; [done|]. exists t2.
      assert (at_most d (Z.to_nat limit) (a :: b :: ps') = a :: at_most d (Z.to_nat (limit - 1)) (b :: ps')) as ->.
      { replace (Z.to_nat limit) with (S (Z.to_nat (limit - 1))) by lia. apply at_most_cons. lia. }
      assert (forall l : list (zval V), vs ++ str_zval a :: l = (vs ++ [str_zval a]) ++ l) as Eapp by (intros; by rewrite <- app_assoc).
      rewrite fmap_cons, Eapp. by split.
    + exists t1, (llen (vs ++ [str_zval a])), (llen (pre ++ a ++ d)). split; [done|]. rewrite <- Estr. split; [done|]. apply Hlast.
      replace (Z.to_nat limit) with 2%nat by lia. rewrite at_most_cons, at_most_one by (done || lia). by rewrite (join_splits d _ _ Hps).
Qed.

Lemma php_explode_ok str t w limit : Forall is_byte str -> llen str < 2 ^ 28 -> 1 < limit -> list_table [] t -> uninit_ok t -> nTableSize t <= 8 ->
  exists ps t', splits d str ps /\ php_explode d str limit (t, w) = Some (t', w) /\ list_table (str_zval <$> at_most d (Z.to_nat limit) ps) t'.
Proof.
  intros Hb Hl Hlim Ht Hun Hsz. unfold php_explode. destruct (next_piece d Hd Hdl [] str Hb) as [(Em & Hno)|(a & rest & -> & Em & Hfirst)];
    cbn [app] in Em; change (llen []) with 0 in Em; rewrite Em, some_bind.
  - exists [str]. destruct (list_append_new [] t w (IS_VALUE (ZVAL_STR str)) Ht) as (t' & p & -> & Ht'); [change (llen []) with 0; lia|done|].
    exists t'. split; [by constructor|]. split; [done|]. unfold at_most. by destruct (Nat.leb_spec (length [str]) (Z.to_nat limit)); [|cbn in *; lia].
  - apply Forall_app in Hb as Hb'. destruct Hb' as [_ Hb']. apply Forall_app in Hb' as [_ Hb'].
    destruct (splits_exists d Hd Hdl rest Hb') as [ps Hps]. exists (a :: ps).
    destruct (init_packed_ok t Hun) as (_ & _ & Hu0 & _ & _). rewrite Hu0.
    pose proof (splits_length d Hdl _ _ Hps) as Hpl. rewrite !llen_app in Hl. pose proof (llen_nonneg a).
    destruct (explode_loop_ok (S (length (a ++ d ++ rest))) [] a rest ps [] (zend_hash_real_init_packed_ex t) limit) as (t1 & idx & p1 & E1 & Hp1 & t2 & E2 & Hf2);
      [done|rewrite !length_app; lia|done|by apply filling_new|rewrite llen_cons; change (llen (@nil (zval V))) with 0; unfold llen in *; lia|done|].
    change (llen (@nil Z)) with 0 in E1. change (llen (@nil (zval V))) with 0 in E1. cbn [app] in E1, E2, Hp1. rewrite E1, some_bind. cbn beta iota.
    rewrite (proj2 (Z.leb_le _ _)) by done. rewrite E2, some_bind. eexists. split; [by constructor|]. split; [reflexivity|]. by apply fill_finish_ok.
Qed.

(** ** A negative limit *)

(** Where the pieces start. *)
Fixpoint starts (p : Z) (ps : list (list Z)) : list Z :=
  match ps with [] => [] | a :: ps => p :: starts (p + llen a + llen d) ps end.

Lemma starts_length ps : forall p, length (starts p ps) = length ps.
Proof. induction ps as [|a ps IH]; intros p; [done|]. cbn [starts length]. by rewrite IH. Qed.

Lemma positions_loop_ok n : forall pre a rest ps l junk, Forall is_byte (pre ++ a ++ d ++ rest) -> (length rest < n)%nat -> splits d rest ps ->
  exists junk', positions_loop n d (pre ++ a ++ d ++ rest) (llen pre + llen a) (llen l) (l ++ junk) =
    Some ((l ++ starts (llen pre + llen a + llen d) ps) ++ junk', llen l + llen ps).
Proof.
  induction n as [|n IH]; intros pre a rest ps l junk Hb Hn Hps; [lia|]. cbn [positions_loop].
  set (p1 := llen pre + llen a + llen d).
  assert (exists x junk1, (if llen (l ++ junk) <=? llen l then (l ++ junk) ++ replicate (Z.to_nat (llen l + EXPLODE_ALLOC_STEP - llen (l ++ junk))) 0 else l ++ junk) = l ++ x :: junk1)
    as (x & junk1 & ->).
  { rewrite llen_app. destruct junk as [|x junk1].
    - change (llen []) with 0. destruct (Z.leb_spec (llen l + 0) (llen l)); [|lia]. replace (Z.to_nat (llen l + EXPLODE_ALLOC_STEP - (llen l + 0))) with 64%nat by (unfold EXPLODE_ALLOC_STEP; lia).
      rewrite app_nil_r. by eexists _, _.
    - rewrite llen_cons. pose proof (llen_nonneg junk1). destruct (Z.leb_spec (llen l + (1 + llen junk1)) (llen l)); [lia|]. by eexists _, _. }
  rewrite lstore_middle, some_bind.
  assert (pre ++ a ++ d ++ rest = (pre ++ a ++ d) ++ rest) as Estr by (by rewrite <- !app_assoc).
  assert (p1 = llen (pre ++ a ++ d)) as Ep by (unfold p1; rewrite !llen_app; lia). rewrite Estr in Hb |- *. rewrite Ep.
  destruct (next_piece d Hd Hdl (pre ++ a ++ d) rest Hb) as [(Em & Hno)|(b & rest' & -> & Em & Hfirst)]; rewrite Em, some_bind.
  - rewrite (splits_unique d rest ps [rest] Hps) by (by constructor). exists junk1. cbn [starts]. change (llen [rest]) with 1. by rewrite <- app_assoc.
  - apply Forall_app in Hb as Hb'. destruct Hb' as [_ Hb']. apply Forall_app in Hb' as [_ Hb']. apply Forall_app in Hb' as [_ Hb'].
    destruct (splits_exists d Hd Hdl rest' Hb') as [ps' Hps'].
    assert (ps = b :: ps') as -> by (apply (splits_unique d (b ++ d ++ rest')); [done|by constructor]).
    rewrite !length_app in Hn. unfold llen in Hdl.
    destruct (IH (pre ++ a ++ d) b rest' ps' (l ++ [llen (pre ++ a ++ d)]) junk1 Hb) as [junk' E']; [lia|done|]. exists junk'.
    rewrite <- (app_assoc l [_]), (llen_app l) in E'. change (llen [llen (pre ++ a ++ d)]) with 1 in E'. cbn [app] in E'. rewrite E'.
    cbn [starts]. rewrite llen_cons, <- (app_assoc l [_]). cbn [app]. do 2 f_equal. lia.
Qed.

Lemma insert_positions_ok n : forall pre rest ps positions i vs t w, (n < length ps)%nat -> splits d rest ps -> reads positions i (starts (llen pre) ps) ->
  list_table vs t -> llen vs + llen ps <= 2 ^ 28 ->
  exists t', insert_positions n d (pre ++ rest) positions i (t, w) = Some (t', w) /\ list_table (vs ++ (str_zval <$> take n ps)) t'.
Proof.
  induction n as [|n IH]; intros pre rest ps positions i vs t w Hn Hps Hr Ht Hl; cbn [insert_positions].
  { exists t. by rewrite app_nil_r. }
  destruct Hps as [rest' Hno|a rest' ps' Hfirst Hps]; [cbn in Hn; lia|]. rename rest' into rest, ps' into ps. cbn [length] in Hn. cbn [starts] in Hr. apply reads_cons in Hr as [Hr0 Hr].
  destruct ps as [|b ps1] eqn:Eps; [by apply splits_nonempty in Hps|]. rewrite <- Eps in *.
  assert (lload positions (i + 1) = Some (llen pre + llen a + llen d)) as Hr1.
  { rewrite Eps in Hr. cbn [starts] in Hr. by apply reads_cons in Hr as [-> _]. }
  rewrite Hr0, Hr1, !some_bind. replace (llen pre + llen a + llen d - llen d - llen pre) with (llen a) by lia.
  rewrite init_fast_ok, some_bind by done. rewrite llen_cons in Hl. pose proof (llen_nonneg ps).
  destruct (list_append_new vs t w (str_zval a) Ht) as (t1 & p & -> & Ht1); [lia|done|]. rewrite some_bind. cbn beta iota.
  destruct (IH (pre ++ a ++ d) rest ps positions (i + 1) (vs ++ [str_zval a]) t1 w) as (t' & E' & Ht');
    [lia|done|by rewrite !llen_app, Z.add_assoc|done|rewrite llen_app; change (llen [str_zval a]) with 1; lia|].
  exists t'. rewrite <- !app_assoc in E'. split; [done|]. cbn [take]. rewrite <- app_assoc in Ht'. exact Ht'.
Qed.

Lemma php_explode_negative_ok str t w limit : Forall is_byte str -> llen str < 2 ^ 28 -> ZEND_LONG_MIN <= limit < 0 -> list_table [] t ->
  exists ps t', splits d str ps /\ php_explode_negative_limit d str limit (t, w) = Some (t', w) /\
    list_table (str_zval <$> take (Z.to_nat (llen ps + limit)) ps) t'.
Proof.
  intros Hb Hl Hlim Ht. unfold php_explode_negative_limit. destruct (next_piece d Hd Hdl [] str Hb) as [(Em & Hno)|(a & rest & -> & Em & Hfirst)];
    cbn [app] in Em; change (llen []) with 0 in Em; rewrite Em, some_bind.
  - exists [str], t. split; [by constructor|]. split; [done|]. change (llen [str]) with 1. by replace (Z.to_nat (1 + limit)) with 0%nat by lia.
  - apply Forall_app in Hb as Hb'. destruct Hb' as [_ Hb']. apply Forall_app in Hb' as [_ Hb'].
    destruct (splits_exists d Hd Hdl rest Hb') as [ps Hps]. exists (a :: ps).
    pose proof (splits_length d Hdl _ _ Hps) as Hpl. rewrite !llen_app in Hl. pose proof (llen_nonneg a).
    change (lstore (replicate (Z.to_nat EXPLODE_ALLOC_STEP) 0) 0 0) with (Some ([0] ++ replicate 63 0)). rewrite some_bind.
    destruct (positions_loop_ok (S (length (a ++ d ++ rest))) [] a rest ps [0] (replicate 63 0)) as (junk & Epos); [done|rewrite !length_app; lia|done|].
    change (llen []) with 0 in Epos. change (llen [0]) with 1 in Epos. cbn [app] in Epos |- *. rewrite Epos, some_bind. cbn beta iota.
    assert (s64 (limit + (1 + llen ps)) = llen (a :: ps) + limit) as Eto.
    { rewrite llen_cons. unfold ZEND_LONG_MIN, llen in *. rewrite s64_small by (unfold ZEND_LONG_MIN, ZEND_LONG_MAX; lia). lia. }
    rewrite Eto. destruct (insert_positions_ok (Z.to_nat (llen (a :: ps) + limit)) [] (a ++ d ++ rest) (a :: ps) (0 :: starts (0 + llen a + llen d) ps ++ junk) 0 [] t w)
      as (t' & E' & Ht'); [rewrite llen_cons; cbn [length]; unfold llen; lia|by constructor| |done|rewrite llen_cons; change (llen (@nil (zval V))) with 0; unfold llen in *; lia|].
    + split; [lia|]. intros k c Hk. rewrite (Z.add_0_l (Z.of_nat k)), lload_nat. change (starts (llen []) (a :: ps)) with (0 :: starts (0 + llen a + llen d) ps) in Hk.
      change (0 :: starts (0 + llen a + llen d) ps ++ junk) with ((0 :: starts (0 + llen a + llen d) ps) ++ junk). by apply lookup_app_l_Some.
    + exists t'. split; [by constructor|]. split; [exact E'|done].
Qed.

Lemma explode_ok id str w limit : Forall is_byte str -> llen str < 2 ^ 28 -> ZEND_LONG_MIN <= limit ->
  exists ps t', splits d str ps /\ explode id d str limit w = Some (ExplodeArray (t', w)) /\ list_table (str_zval <$> limit_pieces d limit ps) t'.
Proof.
  intros Hb Hl Hlim. unfold explode. destruct (Z.eqb_spec (llen d) 0); [lia|].
  assert (exists t, zend_new_array id HT_MIN_SIZE = Some t /\ list_table [] t /\ uninit_ok t /\ nTableSize t <= 8) as (t & -> & Ht & Hun & Hsz).
  { destruct (list_new id) as (t & Et & Ht). exists t. split; [done|]. split; [done|]. injection Et as <-.
    split; [|by vm_compute]. split; try done. exists 3. done. }
  rewrite some_bind. pose proof (llen_nonneg str) as Hnn.
  assert (forall v, Z_ISUNDEF v = false -> exists t' p, zend_hash_index_add_new 0 v (t, w) = Some ((t', w), Some p) /\ list_table [v] t') as Hadd.
  { intros v Hv. apply (list_append_at 0 _ [] t w v Ht); [change (llen []) with 0; lia|done|done|done]. }
  destruct (Z.eqb_spec (llen str) 0) as [E0|E0].
  { assert (str = []) as -> by (destruct str; [done|rewrite llen_cons in E0; pose proof (llen_nonneg str); lia]).
    exists [[]]. assert (splits d [] [[]]) as Hs.
    { constructor. intros j (H1 & H2 & _). change (llen []) with 0 in H2. lia. }
    unfold limit_pieces. destruct (Z.leb_spec 0 limit).
    - destruct (Hadd (str_zval [])) as (t' & p & Ei & Ht'); [done|]. unfold str_zval in Ei. rewrite Ei, !some_bind. exists t'. split; [done|]. split; [done|].
      destruct (Z.ltb_spec limit 0); [lia|]. by destruct (Nat.leb_spec (length [@nil Z]) (Z.to_nat (Z.max 1 limit))); [|cbn in *; lia].
    - rewrite some_bind. exists t. split; [done|]. split; [done|]. destruct (Z.ltb_spec limit 0); [|lia]. change (llen [[]]) with 1.
      by replace (Z.to_nat (1 + limit)) with 0%nat by lia. }
  unfold limit_pieces. destruct (Z.ltb_spec 1 limit) as [H1|H1].
  { destruct (php_explode_ok str t w limit Hb Hl H1 Ht Hun Hsz) as (ps & t' & Hps & -> & Ht'). exists ps, t'. split; [done|]. split; [done|].
    destruct (Z.ltb_spec limit 0); [lia|]. by replace (Z.max 1 limit) with limit by lia. }
  destruct (Z.ltb_spec limit 0) as [H2|H2].
  { destruct (php_explode_negative_ok str t w limit Hb Hl ltac:(lia) Ht) as (ps & t' & Hps & -> & Ht'). by exists ps, t'. }
  destruct (splits_exists d Hd Hdl str Hb) as [ps Hps]. exists ps.
  destruct (Hadd (str_zval str)) as (t' & p & Ei & Ht'); [done|]. unfold str_zval in Ei. rewrite Ei, !some_bind. exists t'. split; [done|]. split; [done|].
  replace (Z.to_nat (Z.max 1 limit)) with 1%nat by lia. change (list_table (str_zval <$> at_most d 1 ps) t').
  rewrite at_most_one by (by eapply splits_nonempty). by rewrite (join_splits d _ _ Hps).
Qed.
End ExplodeOk.

(** * Joining *)

(** ** Integers *)

Lemma u64_add_l x y : u64 (u64 x + y) = u64 (x + y).
Proof. unfold u64. apply Zplus_mod_idemp_l. Qed.

Lemma count_digits_opp n : forall val len, count_digits n (- val) len = count_digits n val len.
Proof.
  induction n as [|n IH]; intros val len; cbn [count_digits]; destruct (Z.eqb_spec (- val) 0), (Z.eqb_spec val 0); try lia; try done.
  rewrite Z.quot_opp_l by lia. apply IH.
Qed.

Lemma count_digits_ok n : forall val len buf, 0 < val < 10 ^ Z.of_nat n ->
  exists m, count_digits n val (u64 len) = Some (u64 (len + m)) /\ llen (print_ulong_loop n buf val) = m + llen buf.
Proof.
  induction n as [|n IH]; intros val len buf Hv; [change (10 ^ Z.of_nat 0) with 1 in Hv; lia|].
  cbn [count_digits print_ulong_loop]. destruct (Z.eqb_spec val 0); [lia|]. rewrite Z.quot_div_nonneg, u64_add_l by lia.
  rewrite Nat2Z.inj_succ, Z.pow_succ_r in Hv by lia. destruct (Z.ltb_spec 0 (val / 10)) as [Hp|Hz].
  - destruct (IH (val / 10) (len + 1) (val mod 10 + 48 :: buf)) as (m & -> & ->); [zlia|]. exists (m + 1). rewrite llen_cons. split; [do 2 f_equal|]; lia.
  - assert (val / 10 = 0) as -> by zlia. exists 1. rewrite llen_cons. split; [by destruct n|lia].
Qed.

Definition is_long (n : Z) : Prop := ZEND_LONG_MIN <= n <= ZEND_LONG_MAX.

Lemma count_long n len : is_long n ->
  count_digits 20 n (if n <=? 0 then u64 (u64 len + 1) else u64 len) = Some (u64 (len + llen (zend_print_long_to_buf n))).
Proof.
  unfold is_long, ZEND_LONG_MIN, ZEND_LONG_MAX. intros Hn. unfold zend_print_long_to_buf. destruct (Z.ltb_spec n 0) as [Hneg|Hpos].
  - destruct (Z.leb_spec n 0); [|lia]. assert (u64 (Z.lnot (u64 n) + 1) = - n) as ->.
    { unfold u64, Z.lnot. zlia. }
    rewrite <- count_digits_opp, u64_add_l. destruct (count_digits_ok 20 (- n) (len + 1) []) as (m & -> & Hm); [lia|].
    rewrite llen_cons. unfold zend_print_ulong_to_buf. rewrite Hm. change (llen []) with 0. do 2 f_equal. lia.
  - destruct (decide (n = 0)) as [->|Hne]; [change (0 <=? 0) with true; cbv iota; by rewrite u64_add_l|]. destruct (Z.leb_spec n 0); [lia|].
    destruct (count_digits_ok 20 n len []) as (m & -> & Hm); [lia|]. unfold zend_print_ulong_to_buf. rewrite Hm. change (llen []) with 0. do 2 f_equal. lia.
Qed.

Lemma long_to_str_print n : is_long n -> zend_long_to_str n = zend_print_long_to_buf n.
Proof.
  unfold is_long, ZEND_LONG_MIN, ZEND_LONG_MAX. intros Hn. unfold zend_long_to_str. destruct (Z.leb_spec (u64 n) 9) as [Hs|]; [|done].
  assert (0 <= n <= 9) as Hr by (unfold u64 in Hs; zlia).
  set (P n := bool_decide ([48 + n] = zend_print_long_to_buf n)). apply (bool_decide_eq_true_1 _), (all_below_spec 10 P); [vm_compute; reflexivity|lia].
Qed.

Lemma print_long_nonempty n : 0 <= llen (zend_print_long_to_buf n).
Proof. apply llen_nonneg. Qed.

(** ** The pieces *)

Definition piece_text (p : piece) : list Z := match p with inl s => s | inr n => zend_print_long_to_buf n end.

Definition typed_ok (ty : typed) : Prop := match ty with T_LONG n => is_long n | _ => True end.

Lemma gather_piece_ok ty len : typed_ok ty ->
  exists p, gather_piece ty (u64 len) = Some (p, u64 (len + llen (zval_get_string ty))) /\ piece_text p = zval_get_string ty.
Proof.
  destruct ty as [s|n|s]; cbn [gather_piece zval_get_string typed_ok]; intros Hok; rewrite ?u64_add_l; [by exists (inl s)| |by exists (inl s)].
  exists (inr n). rewrite <- (u64_add_l len 1), count_long, long_to_str_print by done. done.
Qed.

Section ImplodeOk.
Context {V : Type} {E : ZEnv V} {SV : StrValue V}.
Implicit Types (t : HashTable V).

Definition val_typed (v : zval V) (ty : typed) : Prop := zval_typed v = Some ty /\ typed_ok ty.

Definition texts (tys : list typed) : list (list Z) := zval_get_string <$> tys.
Definition total_length (ss : list (list Z)) : Z := foldr (fun s n => llen s + n) 0 ss.

Lemma gather_ok t n : forall i len tys, Forall2 val_typed (snd <$> pos_elems t i n) tys ->
  exists ps, gather n t i (u64 len) = Some (ps, u64 (len + total_length (texts tys))) /\ piece_text <$> ps = texts tys.
Proof.
  induction n as [|n IH]; intros i len tys Hf; cbn [gather].
  { apply Forall2_nil_inv_l in Hf as ->. exists []. cbn. by rewrite Z.add_0_r. }
  rewrite pos_elems_cons in Hf. unfold pos_elem at 1 in Hf. destruct (pos_undef t i); cbn [option_list app fmap list_fmap] in Hf; [by apply IH|].
  apply Forall2_cons_inv_l in Hf as (ty & tys' & [Hty Hok] & Hf & ->). cbn [snd] in Hty. rewrite Hty, some_bind.
  destruct (gather_piece_ok ty len Hok) as (p & -> & Hp). rewrite some_bind. cbn beta iota.
  destruct (IH (i + 1) (len + llen (zval_get_string ty)) tys' Hf) as (ps & -> & Hps). rewrite some_bind. exists (p :: ps). split.
  - change (total_length (texts (ty :: tys'))) with (llen (zval_get_string ty) + total_length (texts tys')). do 3 f_equal. lia.
  - cbn. by rewrite Hp, Hps.
Qed.

Lemma first_val_ok t n : forall i k v l, pos_elems t i n = (k, v) :: l -> first_val n t i = Some v.
Proof.
  induction n as [|n IH]; intros i k v l He; [done|]. rewrite pos_elems_cons in He. cbn [first_val]. unfold pos_elem at 1 in He.
  destruct (pos_undef t i); cbn [option_list app] in He; [by eapply IH|]. by injection He as _ -> _.
Qed.
End ImplodeOk.

(** ** The buffer *)

Lemma memcpy_at (pre old post src : list Z) off n : off = llen pre -> n = llen src -> llen old = llen src ->
  memcpy (pre ++ old ++ post) off src n = Some (pre ++ src ++ post).
Proof. intros -> -> Ho. rewrite <- (app_nil_r src) at 1. by apply memcpy_app. Qed.

Lemma split_tail (free : list Z) n : 0 <= n <= llen free -> exists a b, free = a ++ b /\ llen b = n.
Proof.
  intros Hn. exists (take (Z.to_nat (llen free - n)) free), (drop (Z.to_nat (llen free - n)) free).
  rewrite take_drop. split; [done|]. unfold llen in *. rewrite length_drop. lia.
Qed.

(** One piece before [cptr]; what stands at [cptr] is kept. *)
Lemma place_piece p free old x suf : llen old = llen (piece_text p) ->
  match p with
  | inl s => buf ← memcpy (free ++ old ++ x :: suf) (llen (free ++ old) - llen s) s (llen s); Some (buf, llen (free ++ old) - llen s)
  | inr lval =>
      oldVal ← lload (free ++ old ++ x :: suf) (llen (free ++ old));
      '(buf, cptr') ← print_long_at (free ++ old ++ x :: suf) (llen (free ++ old)) lval;
      buf ← lstore buf (llen (free ++ old)) oldVal;
      Some (buf, cptr')
  end = Some (free ++ piece_text p ++ x :: suf, llen free).
Proof.
  intros Ho. destruct p as [s|n]; cbn [piece_text] in *.
  - rewrite memcpy_at by (rewrite ?llen_app; lia). rewrite some_bind, llen_app. do 2 f_equal. lia.
  - set (ds := zend_print_long_to_buf n) in *. rewrite (app_assoc free), lload_middle, some_bind. unfold print_long_at. fold ds.
    rewrite lstore_middle, some_bind, <- app_assoc, memcpy_at, !some_bind by (rewrite ?llen_app; lia). cbn beta iota.
    assert (llen (free ++ old) = llen (free ++ ds)) as -> by (rewrite !llen_app; lia). rewrite (app_assoc free ds), lstore_middle, some_bind.
    rewrite <- app_assoc, llen_app. do 2 f_equal. lia.
Qed.

Lemma join_snoc d ps p : ps <> [] -> join d (ps ++ [p]) = join d ps ++ d ++ p.
Proof.
  induction ps as [|q ps IH]; [done|]. intros _. destruct ps as [|r ps]; [done|].
  change (join d ((q :: r :: ps) ++ [p])) with (q ++ d ++ join d ((r :: ps) ++ [p])). rewrite IH by done.
  change (join d (q :: r :: ps)) with (q ++ d ++ join d (r :: ps)). by rewrite <- !app_assoc.
Qed.

Lemma implode_loop_ok glue rp : forall free x suf, rp <> [] -> llen free = llen (join glue (piece_text <$> reverse rp)) ->
  implode_loop glue rp (free ++ x :: suf) (llen free) = Some (join glue (piece_text <$> reverse rp) ++ x :: suf, 0).
Proof.
  induction rp as [|p rp IH]; intros free x suf Hne Hl; [done|]. clear Hne. cbn [implode_loop]. rewrite reverse_cons, fmap_app in *. cbn [fmap list_fmap] in *.
  pose proof (llen_nonneg (piece_text p)) as Hp0. destruct rp as [|q rp].
  - cbn in Hl. pose proof (place_piece p [] free x suf Hl) as E. cbn [app] in E. rewrite E, some_bind. done.
  - assert (piece_text <$> reverse (q :: rp) <> []) as Hne by (rewrite reverse_cons, fmap_app; by destruct (piece_text <$> reverse rp)).
    rewrite join_snoc in * by done. rewrite !llen_app in Hl. pose proof (llen_nonneg (join glue (piece_text <$> reverse (q :: rp)))) as Hj0.
    pose proof (llen_nonneg glue) as Hg0. destruct (split_tail free (llen (piece_text p))) as (free1 & old & -> & Ho); [lia|].
    rewrite <- (app_assoc free1), place_piece, some_bind by done. cbn beta iota. rewrite llen_app in Hl.
    destruct (split_tail free1 (llen glue)) as (free2 & oldg & -> & Hog); [lia|]. rewrite <- (app_assoc free2), llen_app in *.
    replace (llen free2 + llen oldg - llen glue) with (llen free2) by lia.
    assert ((if llen glue =? 1 then g ← lload glue 0; lstore (free2 ++ oldg ++ piece_text p ++ x :: suf) (llen free2) g
             else memcpy (free2 ++ oldg ++ piece_text p ++ x :: suf) (llen free2) glue (llen glue)) = Some (free2 ++ glue ++ piece_text p ++ x :: suf)) as ->.
    { destruct (Z.eqb_spec (llen glue) 1) as [E1|]; [|by apply memcpy_at]. rewrite E1 in Hog.
      destruct glue as [|g [|? ?]]; [done| |unfold llen in E1; cbn [length] in E1; lia].
      destruct oldg as [|o [|? ?]]; [done| |unfold llen in Hog; cbn [length] in Hog; lia]. cbn [app]. change (lload [g] 0) with (Some g). rewrite some_bind. apply lstore_middle. }
    rewrite some_bind. destruct (glue ++ piece_text p ++ x :: suf) as [|y suf'] eqn:Ey.
    { apply (f_equal length) in Ey. rewrite !length_app in Ey. cbn in Ey. lia. }
    rewrite IH; [|done|lia]. rewrite <- Ey. by rewrite <- !app_assoc.
Qed.

Lemma llen_join d ss : ss <> [] -> llen (join d ss) = (llen ss - 1) * llen d + total_length ss.
Proof.
  induction ss as [|s ss IH]; [done|]. intros _. change (total_length (s :: ss)) with (llen s + total_length ss). rewrite llen_cons. destruct ss as [|r ss].
  - cbn. change (llen []) with 0. lia.
  - change (join d (s :: r :: ss)) with (s ++ d ++ join d (r :: ss)). rewrite !llen_app, IH by done. lia.
Qed.

Lemma llen_fmap {A B} (f : A -> B) l : llen (f <$> l) = llen l.
Proof. unfold llen. by rewrite length_fmap. Qed.

Lemma forall2_llen {A B} (R : A -> B -> Prop) l k : Forall2 R l k -> llen l = llen k.
Proof. intros H. unfold llen. by rewrite (Forall2_length _ _ _ H). Qed.

Lemma llen_one {A} (l : list A) : llen l = 1 -> exists x, l = [x].
Proof. destruct l as [|x [|y l]]; [done|by exists x|]. unfold llen. cbn [length]. lia. Qed.

Lemma total_length_nonneg ss : 0 <= total_length ss.
Proof. induction ss as [|s ss IH]; [done|]. change (total_length (s :: ss)) with (llen s + total_length ss). pose proof (llen_nonneg s). lia. Qed.

(** ** The block of the string *)

Lemma aligned_struct_size l : 0 <= l < 2 ^ 64 - 32 -> ZEND_MM_ALIGNED_SIZE (_ZSTR_STRUCT_SIZE l) = (32 + l) / 8 * 8.
Proof.
  intros Hl. unfold ZEND_MM_ALIGNED_SIZE, _ZSTR_STRUCT_SIZE, _ZSTR_HEADER_SIZE. rewrite !u64_small by (rewrite ?u64_small; lia).
  rewrite <- Z.ldiff_land. change (8 - 1) with (Z.ones 3). rewrite Z.ldiff_ones_r, Z.shiftl_mul_pow2, Z.shiftr_div_pow2 by lia.
  change (2 ^ 3) with 8. do 2 f_equal. lia.
Qed.

(** The size that a joined string asks for: its header, its characters and the
    terminator, rounded up to eight bytes. *)
Definition joined_block (glue : list Z) (ss : list (list Z)) : Z := (llen ss - 1) * llen glue + (32 + total_length ss) / 8 * 8.

Lemma safe_alloc_room hj n m l : 0 <= n -> 0 <= m -> 0 <= l < 2 ^ 64 - 32 ->
  (2 ^ 64 <= n * m + (32 + l) / 8 * 8 -> zend_string_safe_alloc hj n m l = None) /\
  (n * m + (32 + l) / 8 * 8 < 2 ^ 64 -> exists block, zend_string_safe_alloc hj n m l = Some (block, n * m + l) /\ n * m + l < llen block).
Proof.
  intros Hn Hm Hl. unfold zend_string_safe_alloc, zend_safe_address. rewrite aligned_struct_size by done. assert (0 <= n * m) as Hnm by lia.
  set (a := (32 + l) / 8 * 8) in *. assert (25 + l <= a) as Ha by (unfold a; zlia). clearbody a. split; intros Hs.
  - destruct (Z.ltb_spec (n * m + a) (2 ^ 64)); [lia|done].
  - destruct (Z.ltb_spec (n * m + a) (2 ^ 64)); [|lia]. rewrite some_bind, !u64_small by (rewrite ?u64_small; lia). eexists. split; [done|].
    unfold llen, _ZSTR_HEADER_SIZE. rewrite length_fmap, length_zrange. lia.
Qed.

(** The sizes wrap around where the length is within 32 bytes of the limit. *)
Lemma aligned_wrapped l : 2 ^ 64 - 32 <= l < 2 ^ 64 -> 0 <= ZEND_MM_ALIGNED_SIZE (_ZSTR_STRUCT_SIZE l) < 32.
Proof.
  intros Hl. unfold ZEND_MM_ALIGNED_SIZE, _ZSTR_STRUCT_SIZE, _ZSTR_HEADER_SIZE. rewrite <- Z.ldiff_land. set (x := u64 (u64 (24 + l + 1) + 8 - 1)).
  assert (0 <= x < 32) as Hx by (unfold x, u64; zlia). clearbody x.
  change (8 - 1) with (Z.ones 3). rewrite Z.ldiff_ones_r, Z.shiftl_mul_pow2, Z.shiftr_div_pow2 by lia. change (2 ^ 3) with 8. zlia.
Qed.

(** ** What a successful run has needed *)

Lemma memcpy_room dst off src n dst' : memcpy dst off src n = Some dst' -> 0 <= off.
Proof. unfold memcpy. destruct (Z.ltb_spec off 0); [done|]. done. Qed.

Lemma place_piece_room p buf cptr buf' c' :
  match p with
  | inl s => buf ← memcpy buf (cptr - llen s) s (llen s); Some (buf, cptr - llen s)
  | inr lval =>
      oldVal ← lload buf cptr;
      '(buf, cptr') ← print_long_at buf cptr lval;
      buf ← lstore buf cptr oldVal;
      Some (buf, cptr')
  end = Some (buf', c') -> 0 <= c' /\ c' = cptr - llen (piece_text p).
Proof.
  destruct p as [s|n]; cbn [piece_text].
  - destruct (memcpy buf _ s _) as [b1|] eqn:Em; [|done]. intros [= <- <-]. by apply memcpy_room in Em.
  - destruct (lload buf cptr) as [v|]; [|done]. rewrite some_bind. unfold print_long_at. destruct (lstore buf cptr 0) as [b1|]; [|done]. rewrite some_bind.
    destruct (memcpy b1 _ _ _) as [b2|] eqn:Em; [|done]. rewrite !some_bind. destruct (lstore b2 cptr v) as [b3|]; [|done]. intros [= <- <-].
    by apply memcpy_room in Em.
Qed.

Lemma implode_loop_room glue rp : forall buf cptr buf' c', implode_loop glue rp buf cptr = Some (buf', c') ->
  0 <= c' /\ c' = cptr - llen (join glue (piece_text <$> reverse rp)).
Proof.
  induction rp as [|p rp IH]; intros buf cptr buf' c' Hi; [done|]. cbn [implode_loop] in Hi. rewrite reverse_cons, fmap_app. cbn [fmap list_fmap].
  match type of Hi with (?m ≫= _) = _ => destruct m as [[b1 c1]|] eqn:Ep end; [|done]. rewrite some_bind in Hi. apply place_piece_room in Ep as [Hc1 ->].
  destruct rp as [|q rp]; [by injection Hi as <- <-|]. match type of Hi with (?m ≫= _) = _ => destruct m as [b2|]; [|done] end. rewrite some_bind in Hi.
  destruct (IH _ _ _ _ Hi) as [Hc' ->]. split; [done|].
  rewrite join_snoc by (rewrite reverse_cons, fmap_app; by destruct (piece_text <$> reverse rp)). rewrite !llen_app. lia.
Qed.

Section Implode.
Context {V : Type} {E : ZEnv V} {SV : StrValue V}.
Implicit Types (t : HashTable V).

(** The pieces that are gathered are written into a block that is large enough,
    without a gap; what follows the terminator is unused. *)
Lemma implode_pieces_ok glue ps block : ps <> [] ->
  let total := (llen ps - 1) * llen glue + total_length (piece_text <$> ps) in
  total < llen block ->
  exists str str', lstore block total 0 = Some str /\ implode_loop glue (reverse ps) str total = Some (str', 0) /\
    zstr_holds (str', total) (join glue (piece_text <$> ps)).
Proof.
  intros Hne total Hroom. assert (total = llen (join glue (piece_text <$> ps))) as Ht by (rewrite llen_join, llen_fmap by (by destruct ps); done).
  pose proof (llen_nonneg (join glue (piece_text <$> ps))). destruct (split_tail block (llen block - total)) as (free & rest & -> & Hx); [lia|].
  rewrite llen_app in *. destruct rest as [|x unused]; [change (llen []) with 0 in *; lia|]. clearbody total. assert (total = llen free) as Ef by lia. rewrite Ef.
  exists (free ++ 0 :: unused), (join glue (piece_text <$> ps) ++ 0 :: unused). split_and!; [apply lstore_middle| |exists unused; f_equal; lia].
  assert (reverse ps <> []) as Hr by (intros Er; apply Hne; by rewrite <- (reverse_involutive ps), Er).
  pose proof (implode_loop_ok glue (reverse ps) free 0 unused Hr) as Hok. rewrite reverse_involutive in Hok. apply Hok. lia.
Qed.

(** A string that does not fit into the address space is not written. *)
Lemma implode_too_long hj glue ps m : ps <> [] -> let total := total_length (piece_text <$> ps) in 2 ^ 64 - 32 <= total -> m = llen ps - 1 ->
  match zend_string_safe_alloc hj m (llen glue) (u64 total) with
  | None => Some ImplodeError
  | Some (str, total) =>
      str ← lstore str total 0;
      '(str, _) ← implode_loop glue (reverse ps) str total;
      Some (ImplodeString (str, total))
  end ∈ [None; Some ImplodeError].
Proof.
  intros Hne total Htot ->. unfold zend_string_safe_alloc, zend_safe_address. pose proof (u64_range total) as Hu.
  destruct (Z.ltb_spec ((llen ps - 1) * llen glue + ZEND_MM_ALIGNED_SIZE (_ZSTR_STRUCT_SIZE (u64 total))) (2 ^ 64)) as [Hsz|]; [|right; left].
  rewrite some_bind. set (size := _ + ZEND_MM_ALIGNED_SIZE _) in *. set (k := u64 (_ + u64 total)). set (block := hj <$> _).
  assert (llen block = Z.max 0 (size - _ZSTR_HEADER_SIZE)) as Hb by (unfold block, llen; rewrite length_fmap, length_zrange; lia).
  destruct (lstore block k 0) as [str|] eqn:Es; [|left]. rewrite some_bind.
  destruct (implode_loop glue (reverse ps) str k) as [[b c]|] eqn:Ei; [exfalso|left].
  apply implode_loop_room in Ei as [Hc ->]. rewrite reverse_involutive, llen_join, llen_fmap in Hc by (by destruct ps). fold total in Hc.
  assert (0 <= (llen ps - 1) * llen glue) as Hg.
  { destruct ps as [|p ps]; [done|]. rewrite llen_cons. pose proof (llen_nonneg ps). pose proof (llen_nonneg glue). nia. }
  unfold lstore in Es. destruct (Z.leb_spec (llen block) k) as [|Hk]; [by rewrite orb_true_r in Es|].
  pose proof (u64_range ((u64 ((llen ps - 1) * llen glue)) + u64 total)) as Hkr. fold k in Hkr. assert (total < 2 ^ 64) as Htl by lia.
  pose proof (aligned_wrapped total ltac:(lia)) as Ha. rewrite <- (u64_small total) in Ha by lia.
  unfold size, _ZSTR_HEADER_SIZE in *. clearbody k block total. lia.
Qed.

Lemma php_implode_ok hj glue t tys : repr_ok t -> Forall2 val_typed (elems t).*2 tys ->
  if decide (2 <= llen tys /\ 2 ^ 64 <= joined_block glue (texts tys))
  then php_implode hj glue t = Some ImplodeError \/ 2 ^ 64 - 32 <= total_length (texts tys) /\ php_implode hj glue t = None
  else exists r, php_implode hj glue t = Some (ImplodeString r) /\ zstr_holds r (join glue (texts tys)).
Proof.
  intros Hr Hf. unfold php_implode. rewrite (count_elems t Hr). rewrite elems_pos in *.
  assert (llen (pos_elems t 0 (Z.to_nat (nNumUsed t))) = llen tys) as El by (rewrite <- (forall2_llen _ _ _ Hf), llen_fmap; done).
  rewrite El. pose proof (llen_nonneg tys). destruct (Z.eqb_spec (llen tys) 0) as [E0|E0].
  { rewrite decide_False by lia. eexists. split; [done|]. destruct tys; [|rewrite llen_cons in E0; pose proof (llen_nonneg tys); lia]. by exists []. }
  destruct (Z.eqb_spec (llen tys) 1) as [E1|E1].
  { rewrite decide_False by lia. rewrite E1 in El. apply llen_one in El as [[k v] El]. apply llen_one in E1 as [ty ->].
    rewrite El in Hf. apply Forall2_cons_1 in Hf as [[Hty _] _]. cbn [snd] in Hty.
    rewrite (first_val_ok t _ 0 k v [] El), some_bind, Hty, some_bind. eexists. split; [done|]. by exists []. }
  destruct (gather_ok t (Z.to_nat (nNumUsed t)) 0 0 tys Hf) as (ps & Hg & Hps). change (u64 0) with 0 in Hg. rewrite Hg, some_bind. cbn beta iota. rewrite Z.add_0_l.
  assert (llen ps = llen tys) as Elp by (rewrite <- (llen_fmap piece_text), Hps; apply llen_fmap).
  assert (ps <> []) as Hne by (intros ->; by change (llen []) with 0 in Elp). pose proof (total_length_nonneg (texts tys)) as Ht0.
  assert (0 <= (llen tys - 1) * llen glue) as Hg0 by (pose proof (llen_nonneg glue); nia).
  unfold joined_block. rewrite (llen_fmap zval_get_string tys : llen (texts tys) = _).
  destruct (decide (2 ^ 64 - 32 <= total_length (texts tys))) as [Hlong|Hshort].
  { rewrite decide_True by (split; [lia|zlia]). pose proof (implode_too_long hj glue ps (llen tys - 1) Hne) as Hbad. cbv zeta in Hbad. rewrite Hps in Hbad.
    specialize (Hbad Hlong ltac:(lia)). apply elem_of_cons in Hbad as [->| ->%list_elem_of_singleton]; [by right|by left]. }
  rewrite u64_small by lia. destruct (safe_alloc_room hj (llen tys - 1) (llen glue) (total_length (texts tys))) as [Herr Hok]; [lia|apply llen_nonneg|lia|].
  destruct (decide _) as [[_ Hbig]|Hfit]; [left; by rewrite Herr|]. destruct Hok as (block & -> & Hroom); [lia|]. rewrite <- Hps, <- Elp in *.
  destruct (implode_pieces_ok glue ps block) as (str & str' & E1' & E2 & Hz); [done|done|].
  rewrite E1', some_bind, E2, some_bind. eexists. split; [done|done].
Qed.

Lemma list_elems_snd (vs : list (zval V)) : forall i, (list_elems i vs).*2 = vs.
Proof. induction vs as [|v vs IH]; intros i; [done|]. cbn [list_elems]. by rewrite fmap_cons, IH. Qed.

Lemma join_at_most d n ps : (0 < n)%nat -> join d (at_most d n ps) = join d ps.
Proof.
  revert ps. induction n as [|n IH]; [lia|]. intros ps _. destruct ps as [|a ps]; [done|]. destruct n as [|n]; [by rewrite at_most_one|].
  rewrite at_most_cons by lia. destruct ps as [|b ps]; [done|]. specialize (IH (b :: ps) ltac:(lia)).
  assert (exists q qs, at_most d (S n) (b :: ps) = q :: qs) as (q & qs & Eq).
  { unfold at_most. destruct (_ <=? _)%nat; [by eexists _, _|]. destruct (take _ _); by eexists _, _. }
  rewrite Eq in *. change (join d (a :: q :: qs)) with (a ++ d ++ join d (q :: qs)). by rewrite IH.
Qed.

Lemma join_limit_pieces d limit ps : 0 <= limit -> join d (limit_pieces d limit ps) = join d ps.
Proof.
  intros Hl. unfold limit_pieces. destruct (Z.ltb_spec limit 0); [lia|]. apply join_at_most. lia.
Qed.

Context {SVO : StrValueOk V}.

Lemma str_values_typed ss : Forall2 val_typed (str_zval <$> ss) (T_STRING <$> ss).
Proof.
  induction ss as [|s ss IH]; [constructor|]. rewrite !fmap_cons. constructor; [|done]. split; [|done]. cbn. by rewrite ZVAL_STR_typed.
Qed.

Lemma texts_strings ss : texts (T_STRING <$> ss) = ss.
Proof. induction ss as [|s ss IH]; [done|]. unfold texts in *. by rewrite !fmap_cons, IH. Qed.

(** What [implode] makes of a list of strings. *)
Lemma implode_list_ok hj glue t ss : list_table (str_zval <$> ss) t -> llen (join glue ss) < 2 ^ 64 - 32 ->
  exists r, php_implode hj glue t = Some (ImplodeString r) /\ zstr_holds r (join glue ss).
Proof.
  intros Ht Hl. pose proof (php_implode_ok hj glue t (T_STRING <$> ss) (list_table_repr _ _ Ht)) as Hok.
  rewrite (lt_elems _ _ Ht), list_elems_snd, texts_strings, llen_fmap in Hok. specialize (Hok (str_values_typed ss)).
  destruct ss as [|s ss]; [by apply Hok|]. rewrite llen_join in Hl by done. unfold joined_block in Hok. rewrite llen_cons in *.
  pose proof (llen_nonneg ss). pose proof (llen_nonneg glue). pose proof (total_length_nonneg (s :: ss)).
  assert (0 <= (llen ss + 1 - 1) * llen glue) as Hg by lia. by rewrite decide_False in Hok by zlia.
Qed.
End Implode.

(** * Properties *)

Section Properties.
Context {V : Type} {E : ZEnv V} {SV : StrValue V}.
Implicit Types (t : HashTable V) (w : EG V).

(** C19: [implode], for every array of strings, integers and values that convert
    to strings.  When the block for two or more pieces would not fit into the
    address space, the result is the fatal overflow error, or, where the sum of
    the lengths is so large that it wraps around unnoticed, a write outside of
    the block.  Otherwise, the texts of the values with the glue between them,
    with a terminator and the right length: the bytes that are counted for the
    integers are the ones [zend_print_long_to_buf] writes, no byte is written
    outside of the block, and the byte that the terminator of an integer
    overwrites is put back. *)
Theorem php_implode_correct hj glue t tys : repr_ok t -> Forall2 val_typed (elems t).*2 tys ->
  if decide (2 <= llen tys /\ 2 ^ 64 <= joined_block glue (texts tys))
  then php_implode hj glue t = Some ImplodeError \/ 2 ^ 64 - 32 <= total_length (texts tys) /\ php_implode hj glue t = None
  else exists r, php_implode hj glue t = Some (ImplodeString r) /\ zstr_holds r (join glue (texts tys)).
Proof. apply php_implode_ok. Qed.

(** C18: [explode] with an empty separator is an error; with any other one, the
    loops end without an access outside of the string, and the new array is the
    packed list 0, 1, 2, ... of the pieces of the string, which are cut at the
    first occurrence of the separator each; a positive limit [n] leaves the rest
    uncut in the [n]-th piece, zero counts as one, and a negative one leaves
    out so many pieces at the end. *)
Theorem explode_correct id d str w limit : Forall is_byte d -> llen d < 2 ^ 31 -> Forall is_byte str -> llen str < 2 ^ 28 -> ZEND_LONG_MIN <= limit ->
  (d = [] -> explode id d str limit w = Some ExplodeError) /\
  (d <> [] -> exists ps t, splits d str ps /\ explode id d str limit w = Some (ExplodeArray (t, w)) /\
    list_table (str_zval <$> limit_pieces d limit ps) t).
Proof.
  intros Hd Hdl Hb Hl Hlim. split; [by intros ->|]. intros Hne. apply explode_ok; try done. destruct d as [|c d]; [done|]. rewrite llen_cons in *. pose proof (llen_nonneg d). lia.
Qed.

(** C20: What [explode] takes apart with a limit that is not negative, [implode]
    with the same separator puts together again. *)
Theorem explode_implode_roundtrip {SVO : StrValueOk V} hj id d str w limit :
  Forall is_byte d -> 0 < llen d < 2 ^ 31 -> Forall is_byte str -> llen str < 2 ^ 28 -> 0 <= limit ->
  exists t r, explode id d str limit w = Some (ExplodeArray (t, w)) /\ php_implode hj d t = Some (ImplodeString r) /\ zstr_holds r str.
Proof.
  intros Hd Hdl Hb Hl Hlim. destruct (explode_ok d Hd Hdl id str w limit Hb Hl) as (ps & t & Hps & He & Ht); [unfold ZEND_LONG_MIN; lia|].
  assert (join d (limit_pieces d limit ps) = str) as Ej by (by rewrite join_limit_pieces, (join_splits d str ps Hps)).
  destruct (implode_list_ok hj d t _ Ht) as (r & Hr & Hh); [rewrite Ej; lia|]. exists t, r. rewrite Ej in Hh. done.
Qed.
End Properties.

(** * Concrete instances *)

#[local] Instance str_env : ZEnv typed := { junk := fun n => mk_Bucket IS_NULL 0 0 None; ZSTR := fun _ => mk_zend_string [] true }.
#[local] Instance str_value : StrValue typed := { ZVAL_STR := T_STRING; Z_TYPED := id }.
Definition no_iterators : EG typed := mk_EG [] 0 ∅ [].
#[local] Instance str_value_ok : StrValueOk typed := fun s => eq_refl.

(** "a", -10 and "" with ", ". *)
Lemma php_implode_correct_witness :
  exists t : HashTable typed, list_table [IS_VALUE (T_STRING [97]); IS_VALUE (T_LONG (-10)); IS_NULL] t /\
  exists r, php_implode (fun _ => 170) [44; 32] t = Some (ImplodeString r) /\ zstr_holds r [97; 44; 32; 45; 49; 48; 44; 32].
Proof.
  destruct (list_new (V:=typed) 1) as (t0 & _ & Ht0).
  destruct (append_all_ok [IS_VALUE (T_STRING [97]); IS_VALUE (T_LONG (-10)); IS_NULL] [] t0 no_iterators Ht0) as (t & _ & Ht); [vm_compute; done|by repeat constructor|].
  exists t. split; [exact Ht|].
  pose proof (php_implode_correct (fun _ => 170) [44; 32] t [T_STRING [97]; T_LONG (-10); T_OTHER []]) as Hok.
  rewrite decide_False in Hok by (vm_compute; intros [_ H]; by apply H). destruct Hok as (r & Hr & Hh).
  - by eapply list_table_repr.
  - rewrite (lt_elems _ _ Ht), list_elems_snd. repeat constructor; vm_compute; congruence.
  - exists r. split; [exact Hr|exact Hh].
Defined.

(** "a,b,,c" and ",": the limit 3 leaves ",c"; -1 leaves out "c". *)
Lemma explode_correct_witness : exists ps (t : HashTable typed),
  splits [44] [97; 44; 98; 44; 44; 99] ps /\ explode 1 [44] [97; 44; 98; 44; 44; 99] 3 no_iterators = Some (ExplodeArray (t, no_iterators)) /\
  list_table (str_zval <$> limit_pieces [44] 3 ps) t.
Proof.
  apply (explode_correct 1 [44] [97; 44; 98; 44; 44; 99] no_iterators 3); [by repeat constructor|by vm_compute|by repeat constructor|by vm_compute|by vm_compute|done].
Defined.

Lemma explode_implode_roundtrip_witness : exists (t : HashTable typed) r,
  explode 1 [44; 32] [97; 44; 32; 44; 32; 98] 0 no_iterators = Some (ExplodeArray (t, no_iterators)) /\ php_implode (fun _ => 0) [44; 32] t = Some (ImplodeString r) /\
  zstr_holds r [97; 44; 32; 44; 32; 98].
Proof.
  apply (explode_implode_roundtrip (fun _ => 0) 1 [44; 32] [97; 44; 32; 44; 32; 98] no_iterators 0); [by repeat constructor|by vm_compute|by repeat constructor|by vm_compute|done].
Defined.
