(* ===== verification/GcBuffer.v ===== *)
(** The root buffer of the cycle collector (Zend/zend_gc.c): tagged entries, the
    list of unused entries threaded through them, the compressed index that a
    node keeps of its entry, growth, and compaction.  64-bit layout. *)

From stdpp Require Import base numbers list gmap.
From S2P Require Import Prelude ZendTypes HashTable.

(** * Layout *)

(** The upper 22 bits of [GC_TYPE_INFO]: an address and a colour. *)
Definition GC_ADDRESS : Z := 0x0fffff.
Definition GC_COLOR : Z := 0x300000.
Definition GC_BLACK : Z := 0x000000.
Definition GC_WHITE : Z := 0x100000.
Definition GC_GREY : Z := 0x200000.
Definition GC_PURPLE : Z := 0x300000.

(** Tags in the lower two bits of an entry. *)
Definition GC_BITS : Z := 0x3.
Definition GC_ROOT : Z := 0x0.
Definition GC_UNUSED : Z := 0x1.
Definition GC_GARBAGE : Z := 0x2.
Definition GC_DTOR_GARBAGE : Z := 0x3.

Definition GC_GET_PTR (p : Z) : Z := Z.ldiff p GC_BITS.
Definition GC_IS_ROOT (p : Z) : bool := Z.land p GC_BITS =? GC_ROOT.
Definition GC_IS_UNUSED (p : Z) : bool := Z.land p GC_BITS =? GC_UNUSED.
Definition GC_IS_GARBAGE (p : Z) : bool := Z.land p GC_BITS =? GC_GARBAGE.
Definition GC_IS_DTOR_GARBAGE (p : Z) : bool := Z.land p GC_BITS =? GC_DTOR_GARBAGE.
Definition GC_MAKE_GARBAGE (p : Z) : Z := Z.lor p GC_GARBAGE.
Definition GC_MAKE_DTOR_GARBAGE (p : Z) : Z := Z.lor p GC_DTOR_GARBAGE.

(** [((idx) * sizeof(void* )) | GC_UNUSED] and [((uint32_t)(uintptr_t)(list)) / sizeof(void* )]. *)
Definition GC_IDX2LIST (idx : Z) : Z := Z.lor (idx * 8) GC_UNUSED.
Definition GC_LIST2IDX (list : Z) : Z := u32 list / 8.

Definition GC_INVALID : Z := 0.
Definition GC_FIRST_ROOT : Z := 1.
Definition GC_DEFAULT_BUF_SIZE : Z := 16 * 1024.
Definition GC_BUF_GROW_STEP : Z := 128 * 1024.
Definition GC_MAX_UNCOMPRESSED : Z := 512 * 1024.
Definition GC_MAX_BUF_SIZE : Z := 0x40000000.
Definition GC_THRESHOLD_DEFAULT : Z := 10000 + GC_FIRST_ROOT.
Definition GC_THRESHOLD_STEP : Z := 10000.
Definition GC_THRESHOLD_MAX : Z := 1000000000.
Definition GC_THRESHOLD_TRIGGER : Z := 100.

(** [zend_object] as far as the collector looks at it: its flags, whether a
    destructor is to be called ([dtor_obj] is not the standard one, or the class
    has one), and the answer of the [get_gc] handler, a properties table by its
    address and an array of values.  Weak maps and their keys are not represented. *)
Record zend_object (V : Type) := mk_zend_object {
  IS_OBJ_FREE_CALLED : bool;
  IS_OBJ_DESTRUCTOR_CALLED : bool;
  has_destructor : bool;
  get_gc : option Z * list (zval V)
}.
Arguments mk_zend_object {V}.
Arguments IS_OBJ_FREE_CALLED {V}.
Arguments IS_OBJ_DESTRUCTOR_CALLED {V}.
Arguments has_destructor {V}.
Arguments get_gc {V}.

(** [GC_NULL]: destroyed, but not freed yet. *)
Inductive gc_type (V : Type) :=
| IS_ARRAY (ht : HashTable V)
| IS_OBJECT (obj : zend_object V)
| IS_REFERENCE (val : zval V)
| GC_NULL.
Arguments IS_ARRAY {V}.
Arguments IS_OBJECT {V}.
Arguments IS_REFERENCE {V}.
Arguments GC_NULL {V}.

(** The header [zend_refcounted_h] and what follows it. *)
Record zend_refcounted (V : Type) := mk_refcounted { GC_REFCOUNT : Z; GC_INFO : Z; GC_TYPE : gc_type V }.
Arguments mk_refcounted {V}.
Arguments GC_REFCOUNT {V}.
Arguments GC_INFO {V}.
Arguments GC_TYPE {V}.

Definition set_GC_INFO {V} x (r : zend_refcounted V) := mk_refcounted (GC_REFCOUNT r) x (GC_TYPE r).
Definition set_GC_REFCOUNT {V} x (r : zend_refcounted V) := mk_refcounted x (GC_INFO r) (GC_TYPE r).

(** Times and the state of the destructor fiber are left out. *)
Record zend_gc_globals := mk_gc {
  buf : list Z;
  gc_enabled : bool;
  gc_active : bool;
  gc_protected : bool;
  gc_full : bool;
  unused : Z;
  first_unused : Z;
  gc_threshold : Z;
  buf_size : Z;
  num_roots : Z;
  gc_runs : Z;
  collected : Z
}.

Definition set_buf x g := mk_gc x (gc_enabled g) (gc_active g) (gc_protected g) (gc_full g) (unused g) (first_unused g)
  (gc_threshold g) (buf_size g) (num_roots g) (gc_runs g) (collected g).
Definition set_gc_enabled x g := mk_gc (buf g) x (gc_active g) (gc_protected g) (gc_full g) (unused g) (first_unused g)
  (gc_threshold g) (buf_size g) (num_roots g) (gc_runs g) (collected g).
Definition set_gc_active x g := mk_gc (buf g) (gc_enabled g) x (gc_protected g) (gc_full g) (unused g) (first_unused g)
  (gc_threshold g) (buf_size g) (num_roots g) (gc_runs g) (collected g).
Definition set_gc_protected x g := mk_gc (buf g) (gc_enabled g) (gc_active g) x (gc_full g) (unused g) (first_unused g)
  (gc_threshold g) (buf_size g) (num_roots g) (gc_runs g) (collected g).
Definition set_gc_full x g := mk_gc (buf g) (gc_enabled g) (gc_active g) (gc_protected g) x (unused g) (first_unused g)
  (gc_threshold g) (buf_size g) (num_roots g) (gc_runs g) (collected g).
Definition set_unused x g := mk_gc (buf g) (gc_enabled g) (gc_active g) (gc_protected g) (gc_full g) x (first_unused g)
  (gc_threshold g) (buf_size g) (num_roots g) (gc_runs g) (collected g).
Definition set_first_unused x g := mk_gc (buf g) (gc_enabled g) (gc_active g) (gc_protected g) (gc_full g) (unused g) x
  (gc_threshold g) (buf_size g) (num_roots g) (gc_runs g) (collected g).
Definition set_gc_threshold x g := mk_gc (buf g) (gc_enabled g) (gc_active g) (gc_protected g) (gc_full g) (unused g)
  (first_unused g) x (buf_size g) (num_roots g) (gc_runs g) (collected g).
Definition set_buf_size x g := mk_gc (buf g) (gc_enabled g) (gc_active g) (gc_protected g) (gc_full g) (unused g)
  (first_unused g) (gc_threshold g) x (num_roots g) (gc_runs g) (collected g).
Definition set_num_roots x g := mk_gc (buf g) (gc_enabled g) (gc_active g) (gc_protected g) (gc_full g) (unused g)
  (first_unused g) (gc_threshold g) (buf_size g) x (gc_runs g) (collected g).
Definition set_gc_runs x g := mk_gc (buf g) (gc_enabled g) (gc_active g) (gc_protected g) (gc_full g) (unused g)
  (first_unused g) (gc_threshold g) (buf_size g) (num_roots g) x (collected g).
Definition set_collected x g := mk_gc (buf g) (gc_enabled g) (gc_active g) (gc_protected g) (gc_full g) (unused g)
  (first_unused g) (gc_threshold g) (buf_size g) (num_roots g) (gc_runs g) x.

(** * Indices *)

Definition gc_compress (idx : Z) : Z :=
  if idx <? GC_MAX_UNCOMPRESSED then idx else Z.lor (idx mod GC_MAX_UNCOMPRESSED) GC_MAX_UNCOMPRESSED.

(** [*GC_IDX2PTR(idx)]. *)
Definition entry g (idx : Z) : Z := lget 0 (buf g) idx.
Definition set_entry (idx p : Z) g : zend_gc_globals := set_buf (lset (buf g) idx p) g.

(** [None]: the assertion that the index is below [first_unused] fails. *)
Fixpoint decompress_loop (n : nat) g (ref idx : Z) : option Z :=
  match n with
  | O => None
  | S n =>
      let idx := u32 (idx + GC_MAX_UNCOMPRESSED) in
      if negb (idx <? first_unused g) then None
      else if GC_GET_PTR (entry g idx) =? ref then Some idx else decompress_loop n g ref idx
  end.

Definition gc_decompress g (ref idx : Z) : option Z :=
  if GC_GET_PTR (entry g idx) =? ref then Some idx
  else decompress_loop (Z.to_nat (GC_MAX_BUF_SIZE / GC_MAX_UNCOMPRESSED)) g ref idx.

(** * Unused entries *)

Definition GC_HAS_UNUSED g : bool := negb (unused g =? GC_INVALID).
Definition GC_HAS_NEXT_UNUSED_UNDER_THRESHOLD g : bool := first_unused g <? gc_threshold g.
Definition GC_HAS_NEXT_UNUSED g : bool := negb (first_unused g =? buf_size g).

Definition gc_fetch_unused g : Z * zend_gc_globals := (unused g, set_unused (GC_LIST2IDX (entry g (unused g))) g).
Definition gc_link_unused (root : Z) g : zend_gc_globals := set_unused root (set_entry root (GC_IDX2LIST (unused g)) g).
Definition gc_fetch_next_unused g : Z * zend_gc_globals := (first_unused g, set_first_unused (u32 (first_unused g + 1)) g).
Definition gc_remove_from_roots (root : Z) g : zend_gc_globals :=
  let g := gc_link_unused root g in
  set_num_roots (u32 (num_roots g - 1)) g.

(** * Set-up *)

Definition gc_globals_ctor_ex : zend_gc_globals :=
  mk_gc [] false false true false GC_INVALID GC_INVALID GC_INVALID GC_INVALID 0 0 0.

Definition root_buffer_dtor g : zend_gc_globals := set_buf [] g.

Definition gc_reset g : zend_gc_globals :=
  match buf g with
  | [] => g
  | _ => mk_gc (buf g) (gc_enabled g) false false false GC_INVALID GC_FIRST_ROOT (gc_threshold g) (buf_size g) 0 0 0
  end.

Definition gc_protect (protect : bool) g : bool * zend_gc_globals := (gc_protected g, set_gc_protected protect g).

(** What the fields of [zend_gc_status] report, without the times. *)
Definition zend_gc_get_status g : (bool * bool * bool) * (Z * Z * Z * Z * Z) :=
  ((gc_active g, gc_protected g, gc_full g), (gc_runs g, collected g, gc_threshold g, buf_size g, num_roots g)).

(** * Growth *)

Section Growth.
(** What fresh memory holds. *)
Context (junk_word : nat -> Z).

Definition junk_words (n : Z) : list Z := junk_word <$> seq 0 (Z.to_nat n).

Definition gc_enable (enable : bool) g : bool * zend_gc_globals :=
  let old_enabled := gc_enabled g in
  let g := set_gc_enabled enable g in
  (old_enabled,
   match buf g with
   | [] =>
       if enable && negb old_enabled then
         let g := set_buf (lset (junk_words GC_DEFAULT_BUF_SIZE) 0 0) g in
         let g := set_gc_threshold GC_THRESHOLD_DEFAULT (set_buf_size GC_DEFAULT_BUF_SIZE g) in
         gc_reset g
       else g
   | _ => g
   end).

(** "GC buffer overflow (GC disabled)" is reported the first time the limit is hit. *)
Definition gc_grow_root_buffer g : zend_gc_globals :=
  if (GC_MAX_BUF_SIZE <=? buf_size g) && negb (gc_full g)
  then set_gc_full true (set_gc_protected true (set_gc_active true g))
  else
    let new_size := if buf_size g <? GC_BUF_GROW_STEP then buf_size g * 2 else buf_size g + GC_BUF_GROW_STEP in
    let new_size := if GC_MAX_BUF_SIZE <? new_size then GC_MAX_BUF_SIZE else new_size in
    set_buf_size new_size (set_buf (take (Z.to_nat new_size) (buf g ++ junk_words (new_size - buf_size g))) g).

Definition gc_adjust_threshold (count : Z) g : zend_gc_globals :=
  if (count <? GC_THRESHOLD_TRIGGER) || (gc_threshold g <=? num_roots g) then
    if gc_threshold g <? GC_THRESHOLD_MAX then
      let new_threshold := gc_threshold g + GC_THRESHOLD_STEP in
      let new_threshold := if GC_THRESHOLD_MAX <? new_threshold then GC_THRESHOLD_MAX else new_threshold in
      let g := if buf_size g <? new_threshold then gc_grow_root_buffer g else g in
      if new_threshold <=? buf_size g then set_gc_threshold new_threshold g else g
    else g
  else if GC_THRESHOLD_DEFAULT <? gc_threshold g then
    let new_threshold := gc_threshold g - GC_THRESHOLD_STEP in
    let new_threshold := if new_threshold <? GC_THRESHOLD_DEFAULT then GC_THRESHOLD_DEFAULT else new_threshold in
    set_gc_threshold new_threshold g
  else g.

(** An entry off the list of unused ones, or behind the used part, which grows
    if it must; [None] is a full buffer. *)
Definition fetch_entry g : option Z * zend_gc_globals :=
  if GC_HAS_UNUSED g then let (idx, g) := gc_fetch_unused g in (Some idx, g)
  else if GC_HAS_NEXT_UNUSED g then let (idx, g) := gc_fetch_next_unused g in (Some idx, g)
  else
    let g := gc_grow_root_buffer g in
    if negb (GC_HAS_NEXT_UNUSED g) then (None, g) else let (idx, g) := gc_fetch_next_unused g in (Some idx, g).

(** * Nodes in the buffer *)

Section Nodes.
Context {V : Type}.
Implicit Types (h : gmap Z (zend_refcounted V)).

Definition gc_state : Type := gmap Z (zend_refcounted V) * zend_gc_globals.

Definition info_of h (ref : Z) : Z := from_option GC_INFO 0 (h !! ref).
Definition GC_REF_ADDRESS h (ref : Z) : Z := Z.land (info_of h ref) GC_ADDRESS.
Definition GC_REF_COLOR h (ref : Z) : Z := Z.land (info_of h ref) GC_COLOR.
Definition GC_REF_CHECK_COLOR h (ref color : Z) : bool := GC_REF_COLOR h ref =? color.
Definition GC_REF_SET_INFO (ref info : Z) h : gmap Z (zend_refcounted V) := alter (set_GC_INFO info) ref h.
Definition GC_REF_SET_COLOR (ref c : Z) h : gmap Z (zend_refcounted V) :=
  alter (fun r => set_GC_INFO (Z.lor (Z.ldiff (GC_INFO r) GC_COLOR) c) r) ref h.
Definition GC_REF_SET_BLACK (ref : Z) h : gmap Z (zend_refcounted V) :=
  alter (fun r => set_GC_INFO (Z.ldiff (GC_INFO r) GC_COLOR) r) ref h.

Definition refcount_of h (ref : Z) : Z := from_option GC_REFCOUNT 0 (h !! ref).
Definition GC_ADDREF (ref : Z) h : gmap Z (zend_refcounted V) :=
  alter (fun r => set_GC_REFCOUNT (u32 (GC_REFCOUNT r + 1)) r) ref h.
Definition GC_DELREF (ref : Z) h : gmap Z (zend_refcounted V) :=
  alter (fun r => set_GC_REFCOUNT (u32 (GC_REFCOUNT r - 1)) r) ref h.

(** The new entry [idx] with the tagged pointer [p] to [ref]; [color] is merged into the address. *)
Definition put_root (idx ref p color : Z) (s : gc_state) : gc_state :=
  let (h, g) := s in
  let g := set_entry idx p g in
  let h := GC_REF_SET_INFO ref (Z.lor (gc_compress idx) color) h in
  (h, set_num_roots (u32 (num_roots g + 1)) g).

(** The collection is called through the pointer [gc_collect_cycles];
    [rc_dtor_func] destroys a node whose count dropped to zero.  [None]: an
    access to memory that was freed. *)
Definition gc_possible_root_when_full (gc_collect_cycles : gc_state -> option (gc_state * Z)) (rc_dtor_func : Z -> gc_state -> option gc_state)
    (ref : Z) (s : gc_state) : option gc_state :=
  let root (s : gc_state) :=
    match fetch_entry s.2 with
    | (Some idx, g) => put_root idx ref ref GC_PURPLE (s.1, g)
    | (None, g) => (s.1, g)
    end in
  if gc_enabled s.2 && negb (gc_active s.2) then
    '((h, g), count) ← gc_collect_cycles (GC_ADDREF ref s.1, s.2);
    let g := gc_adjust_threshold count g in
    let h := GC_DELREF ref h in
    if refcount_of h ref =? 0 then rc_dtor_func ref (h, g)
    else if negb (info_of h ref =? 0) then Some (h, g)
    else Some (root (h, g))
  else Some (root s).

Definition gc_possible_root (gc_collect_cycles : gc_state -> option (gc_state * Z)) (rc_dtor_func : Z -> gc_state -> option gc_state)
    (ref : Z) (s : gc_state) : option gc_state :=
  let (h, g) := s in
  if gc_protected g then Some s
  else if GC_HAS_UNUSED g then let (idx, g) := gc_fetch_unused g in Some (put_root idx ref ref GC_PURPLE (h, g))
  else if GC_HAS_NEXT_UNUSED_UNDER_THRESHOLD g
  then let (idx, g) := gc_fetch_next_unused g in Some (put_root idx ref ref GC_PURPLE (h, g))
  else gc_possible_root_when_full gc_collect_cycles rc_dtor_func ref s.

Definition gc_extra_root (ref : Z) (s : gc_state) : gc_state :=
  match fetch_entry s.2 with
  | (Some idx, g) => put_root idx ref ref (GC_REF_COLOR s.1 ref) (s.1, g)
  | (None, g) => (s.1, g)
  end.

Definition gc_add_garbage (ref : Z) (s : gc_state) : gc_state :=
  match fetch_entry s.2 with
  | (Some idx, g) => put_root idx ref (GC_MAKE_GARBAGE ref) GC_BLACK (s.1, g)
  | (None, g) => (s.1, g)
  end.

Definition gc_remove_compressed (ref idx : Z) g : option zend_gc_globals :=
  root ← gc_decompress g ref idx;
  Some (gc_remove_from_roots root g).

Definition gc_remove_from_buffer (ref : Z) (s : gc_state) : option gc_state :=
  let (h, g) := s in
  let idx := GC_REF_ADDRESS h ref in
  let h := GC_REF_SET_INFO ref 0 h in
  if GC_MAX_UNCOMPRESSED <=? first_unused g then g ← gc_remove_compressed ref idx g; Some (h, g)
  else Some (h, gc_remove_from_roots idx g).

(** * Compaction *)

(** [while (!GC_IS_UNUSED(free->ref)) free++] and its mirror image. *)
Fixpoint free_up (n : nat) g (free : Z) : option Z :=
  match n with
  | O => None
  | S n => if negb (GC_IS_UNUSED (entry g free)) then free_up n g (free + 1) else Some free
  end.
Fixpoint scan_down (n : nat) g (scan : Z) : option Z :=
  match n with
  | O => None
  | S n => if GC_IS_UNUSED (entry g scan) then scan_down n g (scan - 1) else Some scan
  end.

Definition move_root (free scan : Z) (s : gc_state) : gc_state :=
  let (h, g) := s in
  let p := entry g scan in
  let g := set_entry free p g in
  let p := GC_GET_PTR p in
  (GC_REF_SET_INFO p (Z.lor (gc_compress free) (GC_REF_COLOR h p)) h, g).

Fixpoint compact_loop (n : nat) (free scan end_ : Z) (s : gc_state) : option gc_state :=
  match n with
  | O => None
  | S n =>
      if free <? scan then
        free ← free_up (S (length (buf s.2))) s.2 free;
        scan ← scan_down (S (length (buf s.2))) s.2 scan;
        if free <? scan then
          let s := move_root free scan s in
          if scan - 1 <=? end_ then Some s else compact_loop n (free + 1) (scan - 1) end_ s
        else compact_loop n free scan end_ s
      else Some s
  end.

Definition gc_compact (s : gc_state) : option gc_state :=
  let g := s.2 in
  if negb (num_roots g + GC_FIRST_ROOT =? first_unused g) then
    s ← (if negb (num_roots g =? 0)
         then compact_loop (S (length (buf g))) GC_FIRST_ROOT (first_unused g - 1) (num_roots g) s
         else Some s);
    let (h, g) := (s : gc_state) in
    Some (h, set_first_unused (num_roots g + GC_FIRST_ROOT) (set_unused GC_INVALID g))
  else Some s.
End Nodes.
End Growth.
