(* ===== verification/GcRoots.v ===== *)
(** The root buffer represents a set of tagged pointers: its invariant, and what
    adding, removing and compacting do to the set and to the nodes. *)

From stdpp Require Import base numbers list gmap.
From S2P Require Import Prelude ZendTypes HashTable GcBuffer.

(** * Words *)

Lemma land_mask_mask x m m' : Z.land (Z.land x m) m' = Z.land x (Z.land m m').
Proof. symmetry. apply Z.land_assoc. Qed.

Lemma lor_disjoint x y k : 0 <= k -> 0 <= y < 2 ^ k -> Z.lor (x * 2 ^ k) y = x * 2 ^ k + y.
Proof.
  intros Hk Hy. assert (Z.land (x * 2 ^ k) y = 0) as Hl.
  { destruct (decide (y = 0)) as [->|Hy0]; [apply Z.land_0_r|]. apply Z.bits_inj_0. intros i. rewrite Z.land_spec. destruct (decide (i < k)).
    - rewrite Z.mul_pow2_bits_low by lia. done.
    - rewrite (Z.bits_above_log2 y i); [by rewrite andb_false_r|lia|].
      apply (Z.lt_le_trans _ k); [|lia]. apply Z.log2_lt_pow2; lia. }
  pose proof (Z.add_lor_land (x * 2 ^ k) y). lia.
Qed.

Lemma list2idx_idx2list i : 0 <= i < 2 ^ 29 -> GC_LIST2IDX (GC_IDX2LIST i) = i.
Proof.
  intros Hi. unfold GC_LIST2IDX, GC_IDX2LIST, GC_UNUSED. change 8 with (2 ^ 3). rewrite lor_disjoint by lia. rewrite u32_small by lia.
  change (2 ^ 3) with 8. zlia.
Qed.

(** The indices above 2^29 do not survive the conversion to 32 bits. *)
Lemma list2idx_truncates : GC_LIST2IDX (GC_IDX2LIST (2 ^ 29)) = 0 /\ 2 ^ 29 < GC_MAX_BUF_SIZE.
Proof. vm_compute. by split. Qed.

Lemma idx2list_unused i : GC_IS_UNUSED (GC_IDX2LIST i) = true.
Proof.
  unfold GC_IS_UNUSED, GC_IDX2LIST, GC_BITS, GC_UNUSED. rewrite Z.land_lor_distr_l. replace (i * 8) with (Z.shiftl i 3) by (rewrite Z.shiftl_mul_pow2; lia).
  replace (Z.land (Z.shiftl i 3) 3) with 0; [done|]. symmetry. change 3 with (Z.ones 2) at 2. rewrite Z.land_ones, Z.shiftl_mul_pow2 by lia. zlia.
Qed.

(** Pointers leave the tag bits clear. *)
Definition aligned (a : Z) : Prop := Z.land a GC_BITS = 0.

Lemma aligned_tag a t : aligned a -> 0 <= t < 4 -> Z.land (Z.lor a t) GC_BITS = t /\ GC_GET_PTR (Z.lor a t) = a.
Proof.
  intros Ha Ht. unfold aligned, GC_GET_PTR in *. rewrite Z.land_lor_distr_l, Ha, Z.lor_0_l. split.
  - change GC_BITS with (Z.ones 2). rewrite Z.land_ones by lia. zlia.
  - assert (Z.ldiff a GC_BITS = a) as Hd by (pose proof (Z.lor_ldiff_and a GC_BITS) as H; rewrite Ha, Z.lor_0_r in H; done).
    assert (Z.ldiff t GC_BITS = 0) as Ht0 by (assert (t = 0 \/ t = 1 \/ t = 2 \/ t = 3) as [->|[->|[->| ->]]] by lia; done).
    apply Z.bits_inj'. intros i _. rewrite Z.ldiff_spec, Z.lor_spec. pose proof (f_equal (fun z => Z.testbit z i) Hd) as H1.
    pose proof (f_equal (fun z => Z.testbit z i) Ht0) as H2. cbn beta in H1, H2. rewrite Z.ldiff_spec in H1, H2. rewrite Z.bits_0 in H2.
    destruct (Z.testbit a i), (Z.testbit t i), (Z.testbit GC_BITS i); done.
Qed.

Lemma aligned_root a : aligned a -> GC_IS_ROOT a = true /\ GC_GET_PTR a = a /\ GC_IS_UNUSED a = false.
Proof.
  intros Ha. destruct (aligned_tag a 0 Ha ltac:(lia)) as [_ Hp]. rewrite Z.lor_0_r in Hp. unfold GC_IS_ROOT, GC_IS_UNUSED. by rewrite Ha.
Qed.

Lemma aligned_garbage a : aligned a ->
  GC_IS_ROOT (GC_MAKE_GARBAGE a) = false /\ GC_IS_GARBAGE (GC_MAKE_GARBAGE a) = true /\
  GC_GET_PTR (GC_MAKE_GARBAGE a) = a /\ GC_IS_UNUSED (GC_MAKE_GARBAGE a) = false.
Proof.
  intros Ha. unfold GC_MAKE_GARBAGE, GC_IS_ROOT, GC_IS_GARBAGE, GC_IS_UNUSED. destruct (aligned_tag a GC_GARBAGE Ha) as [-> ->]; [unfold GC_GARBAGE; lia|done].
Qed.

(** * The info word *)

Definition is_color (c : Z) : Prop := c = GC_BLACK \/ c = GC_WHITE \/ c = GC_GREY \/ c = GC_PURPLE.

Lemma land_is_color x : is_color (Z.land x GC_COLOR).
Proof.
  assert (Z.land x GC_COLOR = Z.shiftl (Z.shiftr x 20 mod 2 ^ 2) 20) as ->.
  { rewrite <- Z.land_ones by lia. rewrite Z.shiftl_land, <- Z.ldiff_ones_r by lia. rewrite Z.ldiff_land, land_mask_mask. done. }
  pose proof (Z.mod_pos_bound (Z.shiftr x 20) (2 ^ 2) ltac:(lia)) as H. unfold is_color. set (y := Z.shiftr x 20 mod 2 ^ 2) in *. clearbody y.
  assert (y = 0 \/ y = 1 \/ y = 2 \/ y = 3) as [->|[->|[->| ->]]] by lia; vm_compute; tauto.
Qed.

Lemma color_bits c : is_color c -> Z.land c GC_COLOR = c /\ Z.land c GC_ADDRESS = 0.
Proof. intros [->|[->|[->| ->]]]; done. Qed.

Lemma address_bits a : 0 <= a <= GC_ADDRESS -> Z.land a GC_ADDRESS = a /\ Z.land a GC_COLOR = 0.
Proof.
  intros Ha. assert (Z.land a GC_ADDRESS = a) as E.
  { change GC_ADDRESS with (Z.ones 20) in *. rewrite Z.land_ones by lia. rewrite Z.mod_small; [done|]. rewrite Z.ones_equiv in Ha. lia. }
  split; [done|]. rewrite <- E, land_mask_mask. apply Z.land_0_r.
Qed.

Lemma info_pack a c : 0 <= a <= GC_ADDRESS -> is_color c ->
  Z.land (Z.lor a c) GC_ADDRESS = a /\ Z.land (Z.lor a c) GC_COLOR = c.
Proof.
  intros Ha Hc. destruct (color_bits c Hc) as [E1 E2]. destruct (address_bits a Ha) as [E3 E4].
  rewrite !Z.land_lor_distr_l, E1, E2, E3, E4. by rewrite Z.lor_0_r.
Qed.

Lemma ldiff_color x : Z.land (Z.ldiff x GC_COLOR) GC_ADDRESS = Z.land x GC_ADDRESS /\ Z.land (Z.ldiff x GC_COLOR) GC_COLOR = 0.
Proof. rewrite !Z.ldiff_land, !land_mask_mask. split; [done|apply Z.land_0_r]. Qed.

Lemma info_recolor x c : is_color c ->
  Z.land (Z.lor (Z.ldiff x GC_COLOR) c) GC_ADDRESS = Z.land x GC_ADDRESS /\ Z.land (Z.lor (Z.ldiff x GC_COLOR) c) GC_COLOR = c.
Proof.
  intros Hc. destruct (color_bits c Hc) as [E1 E2]. destruct (ldiff_color x) as [E3 E4].
  rewrite !Z.land_lor_distr_l, E1, E2, E3, E4. by rewrite Z.lor_0_r.
Qed.

Lemma compress_range i : 1 <= i -> 0 < gc_compress i <= GC_ADDRESS.
Proof.
  intros Hi. unfold gc_compress, GC_MAX_UNCOMPRESSED, GC_ADDRESS. destruct (Z.ltb_spec i (512 * 1024)); [lia|].
  pose proof (Z.mod_pos_bound i (512 * 1024) ltac:(lia)). rewrite Z.lor_comm.
  replace (Z.lor (512 * 1024) (i mod (512 * 1024))) with (1 * 2 ^ 19 + i mod (512 * 1024)); [lia|].
  symmetry. apply (lor_disjoint 1 _ 19); lia.
Qed.

Lemma pack_range a c : 0 < a <= GC_ADDRESS -> is_color c -> 0 <= Z.lor a c < 2 ^ 22.
Proof.
  intros Ha Hc. apply lor_range; [lia|unfold GC_ADDRESS in *; lia|]. destruct Hc as [->|[->|[->| ->]]]; done.
Qed.

Lemma compress_small i : 0 <= i < GC_MAX_UNCOMPRESSED -> gc_compress i = i.
Proof. intros Hi. unfold gc_compress. destruct (Z.ltb_spec i GC_MAX_UNCOMPRESSED); [done|lia]. Qed.

(** * The invariant *)

Definition is_used g (i : Z) : Prop := 1 <= i < first_unused g /\ GC_IS_UNUSED (entry g i) = false.

(** Indices of [uint32_t] that survive [GC_LIST2IDX]. *)
Definition GC_SAFE_SIZE : Z := 2 ^ 29.

(** The unused list from [i] on. *)
Fixpoint unused_list g (i : Z) (l : list Z) : Prop :=
  match l with
  | [] => i = GC_INVALID
  | j :: l => i = j /\ exists k, 0 <= k < GC_SAFE_SIZE /\ entry g j = GC_IDX2LIST k /\ unused_list g k l
  end.

Section Roots.
Context {V : Type}.
Implicit Types (h : gmap Z (zend_refcounted V)).

(** The buffer [g] with the unused entries [l], and the addresses its nodes keep. *)
Record buf_ok h g (l : list Z) : Prop := {
  bo_size : buf_size g = llen (buf g);
  bo_first : 1 <= first_unused g <= buf_size g;
  bo_limit : first_unused g <= GC_SAFE_SIZE;
  bo_max : buf_size g <= GC_MAX_BUF_SIZE;
  bo_threshold : gc_threshold g <= buf_size g;
  bo_list : unused_list g (unused g) l;
  bo_nodup : NoDup l;
  bo_unused i : i ∈ l <-> 1 <= i < first_unused g /\ GC_IS_UNUSED (entry g i) = true;
  bo_count : first_unused g = 1 + num_roots g + llen l;
  bo_node i : is_used g i -> exists r, h !! GC_GET_PTR (entry g i) = Some r /\ Z.land (GC_INFO r) GC_ADDRESS = gc_compress i;
  bo_address a r : h !! a = Some r -> Z.land (GC_INFO r) GC_ADDRESS <> 0 -> exists i, is_used g i /\ GC_GET_PTR (entry g i) = a;
  bo_inj i j : is_used g i -> is_used g j -> GC_GET_PTR (entry g i) = GC_GET_PTR (entry g j) -> i = j
}.

Definition buffered g (p : Z) : Prop := exists i, is_used g i /\ entry g i = p.

Definition body (r : zend_refcounted V) := (GC_REFCOUNT r, GC_TYPE r).
Definition same_bodies h h' : Prop := body <$> h' = body <$> h.

(** ** Changing the info of one node *)

Lemma same_bodies_refl h : same_bodies h h.
Proof. done. Qed.
Lemma same_bodies_trans h1 h2 h3 : same_bodies h1 h2 -> same_bodies h2 h3 -> same_bodies h1 h3.
Proof. unfold same_bodies. intros. etrans; eassumption. Qed.

Lemma same_bodies_alter f a h : (forall r, body (f r) = body r) -> same_bodies h (alter f a h).
Proof.
  intros Hf. unfold same_bodies. apply map_eq. intros b. rewrite !lookup_fmap. destruct (decide (a = b)) as [<-|].
  - rewrite lookup_alter_eq. destruct (h !! a); cbn; [by rewrite Hf|done].
  - by rewrite lookup_alter_ne.
Qed.

Lemma same_bodies_lookup h h' a r : same_bodies h h' -> h !! a = Some r -> exists r', h' !! a = Some r' /\ body r' = body r.
Proof.
  intros Hs Ha. assert (body <$> h' !! a = Some (body r)) as H by (rewrite <- lookup_fmap, Hs, lookup_fmap, Ha; done).
  apply fmap_Some in H as (r' & ? & ?). by exists r'.
Qed.

Lemma same_bodies_sym h h' : same_bodies h h' -> same_bodies h' h.
Proof. unfold same_bodies. by intros ->. Qed.

Lemma same_bodies_refcount h h' a : same_bodies h h' -> refcount_of h' a = refcount_of h a.
Proof.
  intros Hs. unfold refcount_of. destruct (h !! a) as [r|] eqn:Ha.
  - destruct (same_bodies_lookup _ _ _ _ Hs Ha) as (r' & -> & Hb). cbn. by injection Hb.
  - destruct (h' !! a) as [r'|] eqn:Ha'; [|done].
    destruct (same_bodies_lookup _ _ _ _ (same_bodies_sym _ _ Hs) Ha') as (r & ? & _). congruence.
Qed.

Lemma same_bodies_dom h h' : same_bodies h h' -> dom h' = dom h.
Proof. intros Hs. rewrite <- (dom_fmap_L body h'), Hs. apply dom_fmap_L. Qed.

Lemma info_of_alter f a b h : a ∈ dom h ->
  info_of (alter f a h) b = if decide (a = b) then from_option (fun r => GC_INFO (f r)) 0 (h !! a) else info_of h b.
Proof.
  intros Ha. unfold info_of. destruct (decide (a = b)) as [<-|].
  - rewrite lookup_alter_eq. by destruct (h !! a).
  - by rewrite lookup_alter_ne.
Qed.

(** ** Counting *)

Lemma used_length g l (k : list Z) : (forall i, i ∈ l <-> 1 <= i < first_unused g /\ GC_IS_UNUSED (entry g i) = true) -> NoDup l ->
  NoDup k -> (forall i, i ∈ k -> is_used g i) -> 1 <= first_unused g -> llen l + llen k <= first_unused g - 1.
Proof.
  intros Hl Hnl Hnk Hk Hf. assert (l ++ k ⊆+ zrange 1 (Z.to_nat (first_unused g - 1))) as Hs.
  { apply NoDup_submseteq.
    - apply NoDup_app. split; [done|]. split; [|done]. intros i Hi%Hl Hi'%Hk. destruct Hi' as [_ Hi']. destruct Hi. congruence.
    - intros i [Hi%Hl|Hi%Hk]%elem_of_app; apply elem_of_zrange; [|destruct Hi]; lia. }
  apply submseteq_length in Hs. rewrite length_app, length_zrange in Hs. unfold llen. lia.
Qed.

Lemma roots_nonneg h g l : buf_ok h g l -> 0 <= num_roots g.
Proof.
  intros Hok. pose proof (used_length g l [] (bo_unused _ _ _ Hok) (bo_nodup _ _ _ Hok) ltac:(constructor)) as H.
  specialize (H ltac:(intros i Hi; by apply elem_of_nil in Hi) ltac:(apply Hok)). pose proof (bo_count _ _ _ Hok). unfold llen in *. cbn in H. lia.
Qed.

Lemma roots_pos h g l i : buf_ok h g l -> is_used g i -> 0 < num_roots g.
Proof.
  intros Hok Hi. pose proof (used_length g l [i] (bo_unused _ _ _ Hok) (bo_nodup _ _ _ Hok) ltac:(apply NoDup_singleton)) as H.
  specialize (H ltac:(intros j ->%list_elem_of_singleton; done) ltac:(apply Hok)). pose proof (bo_count _ _ _ Hok). unfold llen in *. cbn in H. lia.
Qed.

(** ** Adding an entry *)

(** A root that is not in the buffer enters at [idx]: an unused entry, or the
    first one behind the used part. *)
Definition opened g l (idx : Z) g1 l' : Prop :=
  (forall i, 1 <= i < first_unused g -> entry g1 i = entry g i) /\
  buf_size g1 = llen (buf g1) /\ buf_size g <= buf_size g1 <= GC_MAX_BUF_SIZE /\ gc_threshold g1 = gc_threshold g /\
  num_roots g1 = num_roots g /\
  ((l = idx :: l' /\ first_unused g1 = first_unused g /\ unused g1 = GC_LIST2IDX (entry g idx)) \/
   (l' = l /\ idx = first_unused g /\ first_unused g1 = first_unused g + 1 /\ first_unused g1 <= buf_size g1 /\ unused g1 = unused g)).

Lemma unused_list_ext g g' l : forall i, unused_list g i l -> (forall j, j ∈ l -> entry g' j = entry g j) -> unused_list g' i l.
Proof.
  induction l as [|j l IH]; intros i; cbn; [done|]. intros (-> & k & Hk & Hu & Hl) He. rewrite He by (by left).
  split; [done|]. exists k. split; [done|]. split; [done|]. apply IH; [done|]. intros n Hn. apply He. by right.
Qed.

Lemma entry_set_eq idx p g : 0 <= idx < llen (buf g) -> entry (set_entry idx p g) idx = p.
Proof. apply lget_lset_eq. Qed.
Lemma entry_set_ne idx i p g : 0 <= idx -> 0 <= i -> idx <> i -> entry (set_entry idx p g) i = entry g i.
Proof. apply lget_lset_ne. Qed.

Lemma put_ok h g l idx g1 l' ref p color :
  buf_ok h g l -> opened g l idx g1 l' -> first_unused g1 <= GC_SAFE_SIZE ->
  ref ∈ dom h -> GC_REF_ADDRESS h ref = 0 -> GC_GET_PTR p = ref -> GC_IS_UNUSED p = false -> is_color color ->
  exists h' g', put_root idx ref p color (h, g1) = (h', g') /\ buf_ok h' g' l' /\ same_bodies h h' /\
    (forall a, a <> ref -> info_of h' a = info_of h a) /\ GC_REF_COLOR h' ref = color /\
    (forall q, buffered g' q <-> buffered g q \/ q = p) /\ first_unused g' = first_unused g1 /\ num_roots g' = num_roots g + 1 /\
    0 <= info_of h' ref < 2 ^ 22 /\ (forall i, is_used g i -> is_used g' i /\ entry g' i = entry g i).
Proof.
  intros Hok (He1 & Hs1 & Hsz & Ht1 & Hn1 & Hcase) Hlim Hin Ha0 Hp Hu Hc. pose proof (bo_first _ _ _ Hok) as Hf. pose proof (roots_nonneg _ _ _ Hok) as Hr0.
  pose proof (llen_nonneg l').
  assert (1 <= idx < first_unused g1 /\ idx ∉ l' /\ (forall i, i ∈ l' -> i ∈ l) /\ first_unused g <= first_unused g1 <= buf_size g1 /\
    (forall i, is_used g i -> i <> idx) /\ first_unused g1 = 2 + num_roots g + llen l' /\ unused_list g1 (unused g1) l' /\ NoDup l' /\
    (forall i, 1 <= i < first_unused g1 -> i <> idx -> 1 <= i < first_unused g /\ (i ∈ l' <-> i ∈ l)))
    as (Hidx & Hil & Hsub & Hfb & Hnu & Hcnt & Hul & Hnd & Hrest).
  { pose proof (bo_nodup _ _ _ Hok) as Hnd. pose proof (bo_count _ _ _ Hok) as Hcnt. pose proof (bo_list _ _ _ Hok) as Hul.
    destruct Hcase as [(-> & Ef & Eu)|(-> & -> & Ef & Hle & Eu)].
    - apply NoDup_cons in Hnd as [Hi Hnd]. destruct (proj1 (bo_unused _ _ _ Hok idx)) as [Hr Hiu]; [by left|].
      rewrite llen_cons in Hcnt. repeat split; try done; try lia.
      + intros i. by right.
      + intros i [_ Hi'] ->. congruence.
      + destruct Hul as (_ & k & Hk & Ek & Hul). rewrite Eu, Ek, list2idx_idx2list by done. apply (unused_list_ext g); [done|]. intros j Hj. apply He1.
        apply (bo_unused _ _ _ Hok). by right.
      + by right.
      + intros [->|]%elem_of_cons; done.
    - repeat split; try done; try lia.
      + intros (? & _)%(bo_unused _ _ _ Hok). lia.
      + intros i [? _] ->. lia.
      + rewrite Eu. apply (unused_list_ext g); [done|]. intros j Hj. apply He1. by apply (bo_unused _ _ _ Hok). }
  set (g' := set_num_roots (u32 (num_roots g1 + 1)) (set_entry idx p g1)).
  set (h' := GC_REF_SET_INFO ref (Z.lor (gc_compress idx) color) h).
  exists h', g'. split; [done|].
  assert (same_bodies h h') as Hsb by (by apply same_bodies_alter).
  assert (forall a, info_of h' a = if decide (ref = a) then Z.lor (gc_compress idx) color else info_of h a) as Hinfo.
  { intros a. unfold h', GC_REF_SET_INFO. rewrite info_of_alter by done. destruct (decide (ref = a)); [|done].
    apply elem_of_dom in Hin as [r Hr]. by rewrite Hr. }
  pose proof (compress_range idx ltac:(lia)) as Hcr. destruct (info_pack (gc_compress idx) color ltac:(lia) Hc) as [Epa Epc].
  assert (entry g' idx = p) as Eidx by (apply entry_set_eq; lia).
  assert (forall i, 1 <= i < first_unused g -> i <> idx -> entry g' i = entry g i) as Eoth.
  { intros i Hi Hne. rewrite <- He1 by done. apply entry_set_ne; lia. }
  assert (forall i, is_used g' i <-> is_used g i \/ i = idx) as Hused.
  { intros i. split.
    - intros [Hi Hui]. change (first_unused g') with (first_unused g1) in Hi. destruct (decide (i = idx)) as [|Hne]; [by right|left].
      destruct (Hrest i Hi Hne) as [Hi' _]. split; [done|]. by rewrite <- Eoth.
    - intros [[Hi Hui]| ->].
      + assert (i <> idx) by (by apply Hnu). split; [cbn; lia|]. by rewrite Eoth.
      + split; [done|]. by rewrite Eidx. }
  assert (forall i, is_used g i -> entry g' i = entry g i) as Eused.
  { intros i Hi. apply Eoth; [apply Hi|by apply Hnu]. }
  assert (forall i, is_used g i -> GC_GET_PTR (entry g i) <> ref) as Hold.
  { intros i Hi Hpi. destruct (bo_node _ _ _ Hok i Hi) as (r & Hr & Hra). rewrite Hpi in Hr.
    unfold GC_REF_ADDRESS, info_of in Ha0. rewrite Hr in Ha0. cbn in Ha0. pose proof (compress_range i (proj1 (proj1 Hi))). lia. }
  assert (GC_REFCOUNT <$> h' !! ref = GC_REFCOUNT <$> h !! ref /\ is_Some (h' !! ref)) as [_ Href].
  { split; [|by apply elem_of_dom; rewrite (same_bodies_dom _ _ Hsb)]. unfold h', GC_REF_SET_INFO. rewrite lookup_alter_eq. by destruct (h !! ref). }
  split.
  { split; try done.
    - unfold g'. cbn. by rewrite llen_lset.
    - change (1 <= first_unused g1 <= buf_size g1). lia.
    - change (buf_size g1 <= GC_MAX_BUF_SIZE). lia.
    - change (gc_threshold g1 <= buf_size g1). rewrite Ht1. pose proof (bo_threshold _ _ _ Hok). lia.
    - apply (unused_list_ext g1); [done|]. intros j Hj. apply entry_set_ne; [lia| |by intros ->].
      apply Hsub, (bo_unused _ _ _ Hok) in Hj. lia.
    - intros i. change (first_unused g') with (first_unused g1). split.
      + intros Hi. pose proof (Hsub i Hi) as (Hr & Hiu)%(bo_unused _ _ _ Hok). split; [lia|]. rewrite Eoth; [done|done|]. by intros ->.
      + intros [Hi Hui]. assert (i <> idx) by (intros ->; congruence). destruct (Hrest i Hi) as [Hr Hl]; [done|].
        apply Hl, (bo_unused _ _ _ Hok). by rewrite <- Eoth.
    - change (first_unused g1 = 1 + u32 (num_roots g1 + 1) + llen l'). rewrite Hn1, u32_small; [lia|].
      unfold GC_SAFE_SIZE in *. lia.
    - intros i [Hi| ->]%Hused.
      + rewrite Eused by done. destruct (bo_node _ _ _ Hok i Hi) as (r & Hr & Hra). exists r. split; [|done].
        unfold h', GC_REF_SET_INFO. rewrite lookup_alter_ne; [done|]. intros E. by apply (Hold i Hi).
      + rewrite Eidx, Hp. destruct Href as [r Hr]. exists r. split; [done|]. specialize (Hinfo ref). unfold info_of in Hinfo.
        rewrite Hr, decide_True in Hinfo by done. cbn in Hinfo. by rewrite Hinfo.
    - intros a r Ha Hne. destruct (decide (ref = a)) as [<-|Hna].
      + exists idx. split; [by apply Hused; right|]. by rewrite Eidx.
      + unfold h', GC_REF_SET_INFO in Ha. rewrite lookup_alter_ne in Ha by done.
        destruct (bo_address _ _ _ Hok a r Ha Hne) as (i & Hi & Hpi). exists i. split; [by apply Hused; left|]. by rewrite Eused.
    - intros i j [Hi| ->]%Hused [Hj| ->]%Hused; rewrite ?Eidx, ?Eused, ?Hp by done; intros E; [by apply (bo_inj _ _ _ Hok)| | |done];
        exfalso; [apply (Hold i Hi)|apply (Hold j Hj)]; done. }
  split; [done|]. split; [intros a Hne; rewrite Hinfo; by rewrite decide_False|].
  split; [unfold GC_REF_COLOR; by rewrite Hinfo, decide_True|]. split; [|split; [done|]].
  - intros q. split.
    + intros (i & [Hi| ->]%Hused & <-); [left; exists i; by rewrite Eused|by right].
    + intros [(i & Hi & <-)| ->]; [exists i; split; [by apply Hused; left|by apply Eused]|exists idx; split; [by apply Hused; right|done]].
  - split; [change (u32 (num_roots g1 + 1) = num_roots g + 1); rewrite Hn1, u32_small; [done|unfold GC_SAFE_SIZE in *; lia]|].
    split; [rewrite Hinfo, decide_True by done; by apply pack_range|].
    intros i Hi. split; [by apply Hused; left|by apply Eused].
Qed.

(** ** Fetching an entry *)

Lemma has_no_unused h g l : buf_ok h g l -> GC_HAS_UNUSED g = false -> l = [].
Proof.
  intros Hok Hu. destruct l as [|j l]; [done|]. pose proof (bo_list _ _ _ Hok) as (Ej & _).
  destruct (proj1 (bo_unused _ _ _ Hok j)) as [Hj _]; [by left|]. unfold GC_HAS_UNUSED, GC_INVALID in Hu. rewrite Ej in Hu.
  destruct (Z.eqb_spec j 0); [lia|done].
Qed.

Lemma fetch_unused_opened h g l : buf_ok h g l -> GC_HAS_UNUSED g = true ->
  exists idx g1 l', gc_fetch_unused g = (idx, g1) /\ opened g l idx g1 l' /\ first_unused g1 = first_unused g.
Proof.
  intros Hok Hu. unfold GC_HAS_UNUSED in Hu. pose proof (bo_list _ _ _ Hok) as Hl.
  destruct l as [|j l]; cbn in Hl; [rewrite Hl in Hu; done|]. destruct Hl as (Ej & k & Hk & Ek & Hl).
  exists j, (set_unused (GC_LIST2IDX (entry g j)) g), l. unfold gc_fetch_unused. rewrite Ej. split; [done|]. split; [|done].
  split; [done|]. split; [apply Hok|]. split; [split; [done|apply Hok]|]. split; [done|]. split; [done|]. by left.
Qed.

Lemma fetch_next_opened h g l : buf_ok h g l -> first_unused g < buf_size g ->
  exists g1, gc_fetch_next_unused g = (first_unused g, g1) /\ opened g l (first_unused g) g1 l /\ first_unused g1 = first_unused g + 1.
Proof.
  intros Hok Hlt. pose proof (bo_first _ _ _ Hok). pose proof (bo_max _ _ _ Hok). unfold GC_MAX_BUF_SIZE in *.
  assert (u32 (first_unused g + 1) = first_unused g + 1) as E by (apply u32_small; lia).
  exists (set_first_unused (u32 (first_unused g + 1)) g). split; [done|]. split; [|done]. split; [done|]. split; [apply Hok|].
  split; [split; [done|apply Hok]|]. split; [done|]. split; [done|]. right. cbn. rewrite E. split; [done|]. split; [done|]. split; [done|]. split; [lia|done].
Qed.

Context (junk_word : nat -> Z).

Lemma grow_ok h g l : buf_ok h g l -> buf_size g < GC_MAX_BUF_SIZE ->
  buf_ok h (gc_grow_root_buffer junk_word g) l /\ buf_size g < buf_size (gc_grow_root_buffer junk_word g) /\
  (forall i, 1 <= i < first_unused g -> entry (gc_grow_root_buffer junk_word g) i = entry g i) /\
  first_unused (gc_grow_root_buffer junk_word g) = first_unused g /\ gc_threshold (gc_grow_root_buffer junk_word g) = gc_threshold g /\
  num_roots (gc_grow_root_buffer junk_word g) = num_roots g /\ unused (gc_grow_root_buffer junk_word g) = unused g.
Proof.
  intros Hok Hlt. unfold gc_grow_root_buffer. destruct (Z.leb_spec GC_MAX_BUF_SIZE (buf_size g)); [lia|]. cbn [andb].
  set (n := if GC_MAX_BUF_SIZE <? _ then _ else _). pose proof (bo_first _ _ _ Hok) as Hf. pose proof (bo_size _ _ _ Hok) as Hs.
  assert (buf_size g < n <= GC_MAX_BUF_SIZE) as Hn.
  { unfold n, GC_BUF_GROW_STEP, GC_MAX_BUF_SIZE in *. repeat case_match; zbool; lia. }
  set (g' := set_buf_size n _). assert (llen (buf g') = n) as Hlen.
  { unfold g', junk_words, llen in *. cbn. rewrite length_take, length_app, length_fmap, length_seq. lia. }
  assert (forall i, 1 <= i < first_unused g -> entry g' i = entry g i) as He.
  { intros i Hi. unfold entry, lget, g', llen in *. cbn. rewrite lookup_take_lt by lia. by rewrite lookup_app_l by lia. }
  assert (forall i, is_used g' i <-> is_used g i) as Hused.
  { intros i. split; intros [Hi Hu]; (split; [done|]); [rewrite <- He|rewrite He]; done. }
  split; [|split; [cbn; lia|by split]].
  split; [done| |exact (bo_limit _ _ _ Hok)| | | |exact (bo_nodup _ _ _ Hok)| |exact (bo_count _ _ _ Hok)| | |].
  - change (1 <= first_unused g <= n). lia.
  - change (n <= GC_MAX_BUF_SIZE). lia.
  - change (gc_threshold g <= n). pose proof (bo_threshold _ _ _ Hok). lia.
  - apply (unused_list_ext g); [apply Hok|]. intros j (Hj & _)%(bo_unused _ _ _ Hok). by apply He.
  - intros i. rewrite (bo_unused _ _ _ Hok). change (first_unused g') with (first_unused g).
    split; intros [Hi Hu]; (split; [done|]); [rewrite He|rewrite <- He]; done.
  - intros i Hi%Hused. rewrite He by apply Hi. by apply (bo_node _ _ _ Hok).
  - intros a r Ha Hne. destruct (bo_address _ _ _ Hok a r Ha Hne) as (i & Hi & Hp). exists i. split; [by apply Hused|]. rewrite He; [done|apply Hi].
  - intros i j Hi%Hused Hj%Hused. rewrite !He by (apply Hi || apply Hj). by apply (bo_inj _ _ _ Hok).
Qed.

Lemma fetch_entry_opened h g l : buf_ok h g l -> l <> [] \/ first_unused g < GC_SAFE_SIZE ->
  exists idx g1 l', fetch_entry junk_word g = (Some idx, g1) /\ opened g l idx g1 l' /\
    first_unused g1 <= GC_SAFE_SIZE /\ first_unused g1 <= first_unused g + 1.
Proof.
  intros Hok Hroom. unfold fetch_entry. pose proof (bo_limit _ _ _ Hok) as Hlim. pose proof (bo_first _ _ _ Hok) as Hf.
  destruct (GC_HAS_UNUSED g) eqn:Hu.
  - destruct (fetch_unused_opened h g l Hok Hu) as (idx & g1 & l' & E & Ho & Ef). rewrite E.
    exists idx, g1, l'. split; [done|]. split; [done|]. lia.
  - assert (first_unused g < GC_SAFE_SIZE) as Hr.
    { destruct Hroom as [Hl|]; [|done]. exfalso. by apply Hl, (has_no_unused h g). }
    unfold GC_HAS_NEXT_UNUSED. destruct (Z.eqb_spec (first_unused g) (buf_size g)) as [Ef|Hne]; cbn [negb].
    + destruct (grow_ok h g l Hok) as (Hok1 & Hlt & He & Ef1 & Et1 & En1 & Eu1).
      { rewrite <- Ef. unfold GC_SAFE_SIZE, GC_MAX_BUF_SIZE in *. lia. }
      set (g1 := gc_grow_root_buffer junk_word g) in *. destruct (Z.eqb_spec (first_unused g1) (buf_size g1)); [lia|]. cbn [negb].
      destruct (fetch_next_opened h g1 l Hok1) as (g2 & -> & (He2 & Hs2 & Hb2 & Ht2 & Hn2 & Hc2) & Hf2); [lia|].
      exists (first_unused g1), g2, l. split; [done|]. split; [|lia]. split; [intros i Hi; rewrite He2, He by lia; done|].
      split; [done|]. split; [lia|]. split; [congruence|]. split; [congruence|]. right. destruct Hc2 as [(E & _)|(_ & _ & ? & ? & ?)].
      * apply (f_equal length) in E. cbn in E. lia.
      * split; [done|]. split; [lia|]. split; [lia|]. split; [done|congruence].
    + destruct (fetch_next_opened h g l Hok) as (g1 & -> & Ho & Ef); [lia|]. exists (first_unused g), g1, l. split; [done|]. split; [done|lia].
Qed.

(** ** Removing an entry *)

Lemma unlink_ok h g l i : buf_ok h g l -> is_used g i ->
  let ref := GC_GET_PTR (entry g i) in
  let h' := GC_REF_SET_INFO ref 0 h in
  let g' := gc_remove_from_roots i g in
  buf_ok h' g' (i :: l) /\ same_bodies h h' /\ (forall a, info_of h' a = if decide (ref = a) then 0 else info_of h a) /\
  (forall q, buffered g' q <-> buffered g q /\ GC_GET_PTR q <> ref) /\ first_unused g' = first_unused g /\
  (forall j, j <> i -> 1 <= j < first_unused g -> entry g' j = entry g j) /\ num_roots g' = num_roots g - 1.
Proof.
  intros Hok Hi ref h' g'. pose proof (bo_first _ _ _ Hok) as Hf. pose proof (bo_size _ _ _ Hok) as Hs.
  pose proof (roots_pos _ _ _ _ Hok Hi) as Hr0. destruct Hi as [Hir Hiu]. pose proof (bo_limit _ _ _ Hok) as Hlim.
  destruct (bo_node _ _ _ Hok i (conj Hir Hiu)) as (r & Hr & Hra). fold ref in Hr.
  assert (0 <= unused g < GC_SAFE_SIZE) as Hun.
  { pose proof (bo_list _ _ _ Hok) as Hl. destruct l as [|j l]; cbn in Hl; [rewrite Hl; unfold GC_INVALID, GC_SAFE_SIZE; lia|].
    destruct Hl as [-> _]. destruct (proj1 (bo_unused _ _ _ Hok j)) as [? _]; [by left|]. lia. }
  assert (entry g' i = GC_IDX2LIST (unused g)) as Ei by (apply entry_set_eq; lia).
  assert (forall j, j <> i -> 1 <= j < first_unused g -> entry g' j = entry g j) as Eo by (intros; apply entry_set_ne; lia).
  assert (forall a, info_of h' a = if decide (ref = a) then 0 else info_of h a) as Hinfo.
  { intros a. unfold h', GC_REF_SET_INFO. rewrite info_of_alter by (by apply elem_of_dom_2 in Hr). by rewrite Hr. }
  assert (num_roots g' = num_roots g - 1) as Hnr.
  { change (u32 (num_roots g - 1) = num_roots g - 1). rewrite u32_small; [done|]. pose proof (bo_count _ _ _ Hok). pose proof (llen_nonneg l).
    unfold GC_SAFE_SIZE in *. lia. }
  assert (forall j, is_used g' j <-> is_used g j /\ j <> i) as Hused.
  { intros j. split.
    - intros [Hj Hu]. change (first_unused g') with (first_unused g) in Hj. assert (j <> i) as Hne.
      { intros ->. rewrite Ei, idx2list_unused in Hu. done. } split; [|done]. split; [done|]. by rewrite <- Eo.
    - intros [[Hj Hu] Hne]. split; [done|]. by rewrite Eo. }
  assert (forall j, is_used g j -> j <> i -> GC_GET_PTR (entry g j) <> ref) as Hinj.
  { intros j Hj Hne E. by apply Hne, (bo_inj _ _ _ Hok). }
  split; [|split; [by apply same_bodies_alter|split; [done|split; [|by split]]]].
  - split; [| |exact Hlim|exact (bo_max _ _ _ Hok)|exact (bo_threshold _ _ _ Hok)| | | | | | |].
    + unfold g', gc_remove_from_roots, gc_link_unused. cbn. by rewrite llen_lset.
    + exact Hf.
    + cbn. split; [done|]. exists (unused g). split; [done|]. split; [done|]. apply (unused_list_ext g); [apply Hok|].
      intros j Hj. assert (j <> i) as Hne by (intros ->; apply (bo_unused _ _ _ Hok) in Hj as [_ Hj]; congruence).
      apply Eo; [done|]. by apply (bo_unused _ _ _ Hok).
    + apply NoDup_cons. split; [|apply Hok]. intros [_ Hu]%(bo_unused _ _ _ Hok). congruence.
    + intros j. change (first_unused g') with (first_unused g). rewrite elem_of_cons. destruct (decide (j = i)) as [->|Hne].
      * rewrite Ei, idx2list_unused. tauto.
      * rewrite (bo_unused _ _ _ Hok). split; [intros [?|[? ?]]; [done|]|intros [? Hu]; right]; (split; [done|]); [by rewrite Eo|by rewrite <- Eo].
    + change (first_unused g = 1 + num_roots g' + llen (i :: l)). rewrite Hnr, llen_cons. pose proof (bo_count _ _ _ Hok). lia.
    + intros j [Hj Hne]%Hused. rewrite Eo by (done || apply Hj). destruct (bo_node _ _ _ Hok j Hj) as (r' & Hr' & Ha'). exists r'. split; [|done].
      unfold h', GC_REF_SET_INFO. rewrite lookup_alter_ne; [done|]. intros E. by apply (Hinj j Hj Hne).
    + intros a r' Ha Hne. unfold h', GC_REF_SET_INFO in Ha. destruct (decide (ref = a)) as [<-|Hna].
      * rewrite lookup_alter_eq, Hr in Ha. injection Ha as <-. done.
      * rewrite lookup_alter_ne in Ha by done. destruct (bo_address _ _ _ Hok a r' Ha Hne) as (j & Hj & Hpj).
        assert (j <> i) as Hji by (by intros ->). exists j. split; [by apply Hused|]. rewrite Eo; [done|done|apply Hj].
    + intros j k [Hj Hji]%Hused [Hk Hki]%Hused. rewrite !Eo by (done || apply Hj || apply Hk). by apply (bo_inj _ _ _ Hok).
  - intros q. split.
    + intros (j & [Hj Hne]%Hused & <-). rewrite Eo by (done || apply Hj). split; [by exists j|by apply Hinj].
    + intros [(j & Hj & <-) Hq]. assert (j <> i) as Hne by (by intros ->). exists j. split; [by apply Hused|]. apply Eo; [done|apply Hj].
Qed.

(** ** Decompression *)

(** List entries never look like pointers to nodes: nodes lie above the first
    4 GiB of the address space. *)
Definition heap_above h : Prop := forall a, a ∈ dom h -> 8 * GC_SAFE_SIZE <= a.

Lemma idx2list_ptr k : 0 <= k < GC_SAFE_SIZE -> GC_GET_PTR (GC_IDX2LIST k) < 8 * GC_SAFE_SIZE.
Proof.
  intros Hk. unfold GC_GET_PTR, GC_IDX2LIST, GC_UNUSED. change 8 with (2 ^ 3). rewrite lor_disjoint by lia.
  assert (Z.ldiff (k * 2 ^ 3 + 1) GC_BITS <= k * 2 ^ 3 + 1); [|unfold GC_SAFE_SIZE in *; lia].
  apply Z.ldiff_le; [lia|]. change GC_BITS with 3. apply Z.bits_inj_0. intros i. rewrite !Z.ldiff_spec. destruct (Z.testbit _ i), (Z.testbit 3 i); done.
Qed.

Lemma other_entry h g l i j : buf_ok h g l -> heap_above h -> is_used g i -> 1 <= j < first_unused g -> j <> i ->
  GC_GET_PTR (entry g j) <> GC_GET_PTR (entry g i).
Proof.
  intros Hok Hab Hi Hj Hne E. destruct (GC_IS_UNUSED (entry g j)) eqn:Hu.
  - assert (GC_GET_PTR (entry g j) < 8 * GC_SAFE_SIZE) as Hlt.
    { assert (j ∈ l) as Hin by (by apply (bo_unused _ _ _ Hok)). pose proof (bo_list _ _ _ Hok) as Hl. revert Hl Hin. clear.
      generalize (unused g). induction l as [|k l IH]; intros u; cbn; [intros _ H; by apply elem_of_nil in H|].
      intros (_ & n & Hn & En & Hl) [->|Hin]%elem_of_cons; [rewrite En; by apply idx2list_ptr|by apply (IH n)]. }
    destruct (bo_node _ _ _ Hok i Hi) as (r & Hr & _). apply elem_of_dom_2, Hab in Hr. lia.
  - by apply Hne, (bo_inj _ _ _ Hok).
Qed.

Lemma decompress_ok h g l i : buf_ok h g l -> heap_above h -> is_used g i ->
  gc_decompress g (GC_GET_PTR (entry g i)) (gc_compress i) = Some i.
Proof.
  intros Hok Hab Hi. pose proof Hi as [Hr _]. pose proof (bo_limit _ _ _ Hok) as Hlim. unfold gc_decompress.
  destruct (Z.ltb_spec i GC_MAX_UNCOMPRESSED) as [Hs|Hs]; [rewrite compress_small by lia; by rewrite Z.eqb_refl|].
  set (ref := GC_GET_PTR (entry g i)).
  assert (exists k : nat, gc_compress i + Z.of_nat k * GC_MAX_UNCOMPRESSED = i /\ 1 <= gc_compress i /\
    Z.of_nat k <= GC_MAX_BUF_SIZE / GC_MAX_UNCOMPRESSED) as (k & Ek & Hc & Hk).
  { assert (gc_compress i = i mod GC_MAX_UNCOMPRESSED + GC_MAX_UNCOMPRESSED) as Ec.
    { unfold gc_compress. destruct (Z.ltb_spec i GC_MAX_UNCOMPRESSED); [lia|]. rewrite Z.lor_comm.
      pose proof (Z.mod_pos_bound i GC_MAX_UNCOMPRESSED ltac:(done)). rewrite Z.add_comm. apply (lor_disjoint 1 _ 19); done. }
    exists (Z.to_nat (i / GC_MAX_UNCOMPRESSED - 1)). rewrite Ec.
    unfold GC_MAX_UNCOMPRESSED, GC_MAX_BUF_SIZE, GC_SAFE_SIZE in *. split; [|split]; zlia. }
  assert (forall n c, 1 <= c -> c + Z.of_nat (S n) * GC_MAX_UNCOMPRESSED = i -> forall m, (n < m)%nat -> decompress_loop m g ref c = Some i) as Hloop.
  { clear Hc Ek Hk k. induction n as [|n IH]; intros c Hc1 Hc m Hm; (destruct m as [|m]; [lia|]); cbn [decompress_loop];
      unfold GC_SAFE_SIZE, GC_MAX_UNCOMPRESSED in *; rewrite u32_small by lia.
    - replace (c + 512 * 1024) with i by lia. destruct (Z.ltb_spec i (first_unused g)); [|lia]. cbn [negb]. by rewrite Z.eqb_refl.
    - destruct (Z.ltb_spec (c + 512 * 1024) (first_unused g)); [|lia]. cbn [negb].
      destruct (Z.eqb_spec (GC_GET_PTR (entry g (c + 512 * 1024))) ref) as [E|_]; [|apply IH; lia].
      by apply (other_entry h g l i (c + 512 * 1024) Hok Hab Hi) in E; [|lia|lia]. }
  destruct k as [|k]; [replace (gc_compress i) with i by lia; by rewrite Z.eqb_refl|].
  destruct (Z.eqb_spec (GC_GET_PTR (entry g (gc_compress i))) ref) as [E|_].
  - apply (other_entry h g l i) in E; [done|done|done|done|unfold GC_MAX_UNCOMPRESSED in *; lia|unfold GC_MAX_UNCOMPRESSED in *; lia].
  - apply (Hloop k); [done|done|]. unfold GC_MAX_BUF_SIZE, GC_MAX_UNCOMPRESSED in *. lia.
Qed.

Lemma gc_remove_from_buffer_ok h g l ref : buf_ok h g l -> heap_above h -> ref ∈ dom h -> GC_REF_ADDRESS h ref <> 0 ->
  exists h' g' l', gc_remove_from_buffer ref (h, g) = Some (h', g') /\ buf_ok h' g' l' /\ same_bodies h h' /\
    (forall a, info_of h' a = if decide (ref = a) then 0 else info_of h a) /\
    (forall q, buffered g' q <-> buffered g q /\ GC_GET_PTR q <> ref) /\ num_roots g' = num_roots g - 1 /\
    (forall j, is_used g' j -> is_used g j /\ entry g j = entry g' j) /\ gc_active g' = gc_active g /\ first_unused g' = first_unused g.
Proof.
  intros Hok Hab [r Hr]%elem_of_dom Ha. assert (info_of h ref = GC_INFO r) as Ei by (unfold info_of; by rewrite Hr).
  unfold gc_remove_from_buffer, GC_REF_ADDRESS in *. rewrite Ei in *.
  destruct (bo_address _ _ _ Hok ref r Hr Ha) as (i & Hi & Hp). destruct (bo_node _ _ _ Hok i Hi) as (r' & Hr' & Ea).
  rewrite Hp, Hr in Hr'. injection Hr' as <-. rewrite Ea. subst ref.
  destruct (unlink_ok h g l i Hok Hi) as (Hok' & Hsb & Hinfo & Hq & Hf & He & Hn).
  eexists _, (gc_remove_from_roots i g), (i :: l). split; [|split_and!; try done].
  - destruct (Z.leb_spec GC_MAX_UNCOMPRESSED (first_unused g)).
    + unfold gc_remove_compressed. by rewrite (decompress_ok h g l i Hok Hab Hi).
    + rewrite compress_small; [done|]. destruct Hi as [Hi _]. lia.
  - intros j [Hj Hu]. assert (j <> i) as Hne.
    { intros ->. destruct (proj1 (bo_unused _ _ _ Hok' i)) as [_ Hiu]; [by left|]. congruence. }
    rewrite Hf in Hj. rewrite He in Hu by done. split; [done|]. by rewrite He.
Qed.

(** [gc_remove_from_buffer] finds the entry of a buffered node from the 20 bits
    the node keeps of its index, also when the index had to be compressed, takes exactly this
    entry out of the buffer and clears the info of the node. *)
Theorem gc_remove_from_buffer_correct h g l ref : buf_ok h g l -> heap_above h -> ref ∈ dom h -> GC_REF_ADDRESS h ref <> 0 ->
  exists h' g' l', gc_remove_from_buffer ref (h, g) = Some (h', g') /\ buf_ok h' g' l' /\ same_bodies h h' /\
    (forall a, info_of h' a = if decide (ref = a) then 0 else info_of h a) /\
    (forall q, buffered g' q <-> buffered g q /\ GC_GET_PTR q <> ref) /\ num_roots g' = num_roots g - 1.
Proof.
  intros Hok Hab Hr Ha. destruct (gc_remove_from_buffer_ok h g l ref Hok Hab Hr Ha) as (h' & g' & l' & ? & ? & ? & ? & ? & ? & _). by exists h', g', l'.
Qed.

(** ** A possible root during a collection *)

Lemma fetch_entry_active g : gc_active g = true -> gc_active (fetch_entry junk_word g).2 = true.
Proof.
  intros Ha. unfold fetch_entry, gc_fetch_unused, gc_fetch_next_unused, gc_grow_root_buffer. by repeat (case_match; cbn).
Qed.

Lemma possible_root_active collect dtor h g l ref : buf_ok h g l -> l <> [] \/ first_unused g < GC_SAFE_SIZE -> gc_active g = true ->
  ref ∈ dom h -> aligned ref -> info_of h ref = 0 ->
  exists h' g' l', gc_possible_root junk_word collect dtor ref (h, g) = Some (h', g') /\ buf_ok h' g' l' /\ same_bodies h h' /\ gc_active g' = true /\ first_unused g <= first_unused g' /\
    ((h' = h /\ g' = g) \/
     (GC_REF_COLOR h' ref = GC_PURPLE /\ 0 <= info_of h' ref < 2 ^ 22 /\ (forall a, a <> ref -> info_of h' a = info_of h a) /\
      (forall q, buffered g' q <-> buffered g q \/ q = ref) /\ (forall i, is_used g i -> is_used g' i /\ entry g' i = entry g i))).
Proof.
  intros Hok Hroom Hact Hin Hal Hinfo. unfold gc_possible_root. destruct (gc_protected g) eqn:Hp; [exists h, g, l; split_and!; [done|done|done|done|lia|by left]|].
  assert (GC_REF_ADDRESS h ref = 0) as Ha by (unfold GC_REF_ADDRESS; by rewrite Hinfo).
  destruct (aligned_root ref Hal) as (_ & Hptr & Hu). assert (is_color GC_PURPLE) as Hc by (unfold is_color; tauto).
  assert (forall idx g1 l', opened g l idx g1 l' -> first_unused g1 <= GC_SAFE_SIZE -> gc_active g1 = true ->
    exists h' g' l', Some (put_root idx ref ref GC_PURPLE (h, g1)) = Some (h', g') /\ buf_ok h' g' l' /\ same_bodies h h' /\ gc_active g' = true /\ first_unused g <= first_unused g' /\
    ((h' = h /\ g' = g) \/
     (GC_REF_COLOR h' ref = GC_PURPLE /\ 0 <= info_of h' ref < 2 ^ 22 /\ (forall a, a <> ref -> info_of h' a = info_of h a) /\
      (forall q, buffered g' q <-> buffered g q \/ q = ref) /\ (forall i, is_used g i -> is_used g' i /\ entry g' i = entry g i)))) as Hput.
  { intros idx g1 l' Ho Hl Hg1. destruct (put_ok h g l idx g1 l' ref ref GC_PURPLE Hok Ho Hl Hin Ha Hptr Hu Hc)
      as (h' & g' & Ep & ? & ? & ? & ? & ? & Hfu & ? & ? & ?). exists h', g', l'. rewrite Ep. split; [done|]. split; [done|]. split; [done|].
    split; [injection Ep as _ <-; exact Hg1|]. split; [|by right]. rewrite Hfu. destruct Ho as (_ & _ & _ & _ & _ & [(_ & -> & _)|(_ & _ & -> & _)]); lia. }
  pose proof (bo_limit _ _ _ Hok). destruct (GC_HAS_UNUSED g) eqn:Hhas.
  - destruct (fetch_unused_opened h g l Hok Hhas) as (idx & g1 & l' & E & Ho & Ef). rewrite E. apply (Hput idx g1 l' Ho); [lia|]. by injection E as _ <-.
  - assert (first_unused g < GC_SAFE_SIZE) as Hr by (destruct Hroom as [Hl|]; [exfalso; by apply Hl, (has_no_unused h g)|done]).
    unfold GC_HAS_NEXT_UNUSED_UNDER_THRESHOLD. destruct (Z.ltb_spec (first_unused g) (gc_threshold g)).
    + destruct (fetch_next_opened h g l Hok) as (g1 & E & Ho & Ef); [pose proof (bo_threshold _ _ _ Hok); lia|]. rewrite E.
      apply (Hput _ g1 l Ho); [lia|]. by injection E as <-.
    + unfold gc_possible_root_when_full. cbn [snd fst]. rewrite Hact, andb_false_r.
      destruct (fetch_entry_opened h g l Hok Hroom) as (idx & g1 & l' & E & Ho & Hlim & _). pose proof (fetch_entry_active g Hact) as Hg1. rewrite E in *.
      by apply (Hput idx g1 l' Ho).
Qed.

(** C39: [gc_possible_root] adds the node to the buffer as a purple root while
    there is an unused entry or the threshold is not reached, and changes nothing
    else; a protected buffer stays as it is. *)
Theorem gc_possible_root_correct collect dtor h g l ref : buf_ok h g l -> first_unused g < GC_SAFE_SIZE ->
  ref ∈ dom h -> aligned ref -> info_of h ref = 0 -> l <> [] \/ first_unused g < gc_threshold g ->
  exists h' g' l', gc_possible_root junk_word collect dtor ref (h, g) = Some (h', g') /\ buf_ok h' g' l' /\
    if gc_protected g then h' = h /\ g' = g
    else same_bodies h h' /\ GC_REF_COLOR h' ref = GC_PURPLE /\ (forall a, a <> ref -> info_of h' a = info_of h a) /\
         (forall q, buffered g' q <-> buffered g q \/ q = ref) /\ num_roots g' = num_roots g + 1.
Proof.
  intros Hok Hlim Hin Hal Hinfo Hroom. unfold gc_possible_root. destruct (gc_protected g) eqn:Hp; [by exists h, g, l|].
  assert (GC_REF_ADDRESS h ref = 0) as Ha by (unfold GC_REF_ADDRESS; by rewrite Hinfo).
  destruct (aligned_root ref Hal) as (_ & Hptr & Hu). assert (is_color GC_PURPLE) as Hc by (unfold is_color; tauto).
  assert (forall idx g1 l', opened g l idx g1 l' -> first_unused g1 <= GC_SAFE_SIZE ->
    exists h' g' l', Some (put_root idx ref ref GC_PURPLE (h, g1)) = Some (h', g') /\ buf_ok h' g' l' /\
      same_bodies h h' /\ GC_REF_COLOR h' ref = GC_PURPLE /\ (forall a, a <> ref -> info_of h' a = info_of h a) /\
      (forall q, buffered g' q <-> buffered g q \/ q = ref) /\ num_roots g' = num_roots g + 1) as Hput.
  { intros idx g1 l' Ho Hl. destruct (put_ok h g l idx g1 l' ref ref GC_PURPLE Hok Ho Hl Hin Ha Hptr Hu Hc)
      as (h' & g' & -> & ? & ? & ? & ? & ? & ? & ? & _). by exists h', g', l'. }
  destruct (GC_HAS_UNUSED g) eqn:Hhas.
  - destruct (fetch_unused_opened h g l Hok Hhas) as (idx & g1 & l' & E & Ho & Ef). rewrite E. apply (Hput idx g1 l' Ho). lia.
  - assert (first_unused g < gc_threshold g) as Ht.
    { destruct Hroom as [Hl|]; [|done]. exfalso. by apply Hl, (has_no_unused h g). }
    unfold GC_HAS_NEXT_UNUSED_UNDER_THRESHOLD. destruct (Z.ltb_spec (first_unused g) (gc_threshold g)); [|lia].
    destruct (fetch_next_opened h g l Hok) as (g1 & E & Ho & Ef); [pose proof (bo_threshold _ _ _ Hok); lia|]. rewrite E.
    apply (Hput _ g1 l Ho). lia.
Qed.
End Roots.
