(* ===== verification/GcCompact.v ===== *)
(** Compaction of the root buffer by two fingers ([gc_compact] in Zend/zend_gc.c):
    afterwards the entries are the first [num_roots] ones, the set of tagged
    pointers and the colours are the same, and every node knows its new index. *)

From stdpp Require Import base numbers list gmap.
From S2P Require Import Prelude ZendTypes HashTable GcBuffer GcRoots.

Section Compact.
Context {V : Type}.
Implicit Types (h : gmap Z (zend_refcounted V)).

Definition is_filled g (i : Z) : Prop := GC_IS_UNUSED (entry g i) = false.
#[local] Instance is_filled_dec g i : Decision (is_filled g i).
Proof. unfold is_filled. apply _. Defined.

(** The fingers stop at the next hole and at the last entry. *)
Lemma compact_free_up_spec g k : is_filled g k \/ GC_IS_UNUSED (entry g k) = true -> forall n free, free <= k -> (Z.to_nat (k - free) < n)%nat ->
  GC_IS_UNUSED (entry g k) = true ->
  exists j, free_up n g free = Some j /\ free <= j <= k /\ GC_IS_UNUSED (entry g j) = true /\ (forall i, free <= i < j -> is_filled g i).
Proof.
  intros _. induction n as [|n IH]; intros free Hf Hn Hk; [lia|]. cbn [free_up].
  destruct (GC_IS_UNUSED (entry g free)) eqn:Hu; cbn [negb].
  - exists free. split; [done|]. split; [lia|]. split; [done|]. intros i. lia.
  - assert (free <> k) by (intros ->; congruence). destruct (IH (free + 1)) as (j & -> & Hj & Huj & Hall); [lia|lia|done|].
    exists j. split; [done|]. split; [lia|]. split; [done|]. intros i Hi. destruct (decide (i = free)) as [->|]; [done|apply Hall; lia].
Qed.

Lemma compact_scan_down_spec g k : is_filled g k -> forall n scan, k <= scan -> (Z.to_nat (scan - k) < n)%nat ->
  exists j, scan_down n g scan = Some j /\ k <= j <= scan /\ is_filled g j /\ (forall i, j < i <= scan -> GC_IS_UNUSED (entry g i) = true).
Proof.
  intros Hk. induction n as [|n IH]; intros scan Hs Hn; [lia|]. cbn [scan_down].
  destruct (GC_IS_UNUSED (entry g scan)) eqn:Hu.
  - assert (scan <> k) by (intros ->; unfold is_filled in Hk; congruence). destruct (IH (scan - 1)) as (j & -> & Hj & Hf & Hall); [lia|lia|].
    exists j. split; [done|]. split; [lia|]. split; [done|]. intros i Hi. destruct (decide (i = scan)) as [->|]; [done|apply Hall; lia].
  - exists scan. split; [done|]. split; [lia|]. split; [done|]. intros i. lia.
Qed.

(** The entries up to [scan] are in use at the indices [L]. *)
Record compacting (h0 : gmap Z (zend_refcounted V)) g0 h g (L : list Z) (scan : Z) : Prop := {
  cp_first : first_unused g = first_unused g0;
  cp_roots : num_roots g = num_roots g0;
  cp_len : llen (buf g) = llen (buf g0);
  cp_rest : buf_size g = buf_size g0 /\ gc_threshold g = gc_threshold g0;
  cp_filled i : i ∈ L <-> 1 <= i <= scan /\ is_filled g i;
  cp_nodup : NoDup L;
  cp_count : llen L = num_roots g;
  cp_node i : i ∈ L -> exists r, h !! GC_GET_PTR (entry g i) = Some r /\ Z.land (GC_INFO r) GC_ADDRESS = gc_compress i;
  cp_address a r : h !! a = Some r -> Z.land (GC_INFO r) GC_ADDRESS <> 0 -> exists i, i ∈ L /\ GC_GET_PTR (entry g i) = a;
  cp_inj i j : i ∈ L -> j ∈ L -> GC_GET_PTR (entry g i) = GC_GET_PTR (entry g j) -> i = j;
  cp_words p : (exists i, i ∈ L /\ entry g i = p) <-> buffered g0 p;
  cp_bodies : same_bodies h0 h;
  cp_colors a : GC_REF_COLOR h a = GC_REF_COLOR h0 a;
  cp_info : (forall a, 0 <= info_of h0 a < 2 ^ 22) -> forall a, 0 <= info_of h a < 2 ^ 22
}.

Lemma short_of_range (L : list Z) a n : NoDup L -> (forall i, a <= i < a + Z.of_nat n -> i ∈ L) -> (n <= length L)%nat.
Proof.
  intros Hnd Hin. rewrite <- (length_zrange a n). apply submseteq_length, NoDup_submseteq; [apply NoDup_zrange|].
  intros i Hi%elem_of_zrange. by apply Hin.
Qed.

(** A hole below the scan finger, and an entry. *)
Lemma compacting_hole h0 g0 h g L scan free : compacting h0 g0 h g L scan -> num_roots g < scan ->
  (forall i, 1 <= i < free -> is_filled g i) -> 1 <= free <= scan -> exists k, free <= k <= scan /\ GC_IS_UNUSED (entry g k) = true.
Proof.
  intros Hc Hs Hfill Hf.
  destruct (decide (Exists (fun i => GC_IS_UNUSED (entry g i) = true) (zrange free (Z.to_nat (scan - free + 1))))) as [He|Hne].
  - apply Exists_exists in He as (k & Hk%elem_of_zrange & Hu). exists k. split; [lia|done].
  - exfalso. assert (Z.to_nat scan <= length L)%nat as Hle.
    { apply (short_of_range L 1); [apply Hc|]. intros i Hi. apply (cp_filled _ _ _ _ _ _ Hc). split; [lia|].
      destruct (decide (i < free)); [apply Hfill; lia|]. unfold is_filled. apply not_true_iff_false. intros Hu. apply Hne, Exists_exists.
      exists i. split; [apply elem_of_zrange; lia|done]. }
    pose proof (cp_count _ _ _ _ _ _ Hc) as Hcnt. unfold llen in Hcnt. lia.
Qed.

Lemma compacting_entry h0 g0 h g L scan : compacting h0 g0 h g L scan -> 0 < num_roots g -> exists k, 1 <= k <= scan /\ is_filled g k.
Proof.
  intros Hc Hr. pose proof (cp_count _ _ _ _ _ _ Hc) as Hcnt. destruct L as [|k L]; [unfold llen in Hcnt; cbn in Hcnt; lia|].
  exists k. apply (cp_filled _ _ _ _ _ _ Hc). by left.
Qed.

(** Nothing changes while the scan finger passes holes. *)
Lemma compacting_lower h0 g0 h g L scan scan' : compacting h0 g0 h g L scan -> scan' <= scan ->
  (forall i, scan' < i <= scan -> GC_IS_UNUSED (entry g i) = true) -> compacting h0 g0 h g L scan'.
Proof.
  intros Hc Hs Hu. destruct Hc. split; try done. intros i. rewrite cp_filled0. split; [|intros [? ?]; split; [lia|done]].
  intros [Hi Hf]. split; [|done]. destruct (decide (i <= scan')); [lia|]. unfold is_filled in Hf. rewrite Hu in Hf by lia. done.
Qed.

Lemma compacting_move h0 g0 h g L scan free : compacting h0 g0 h g L scan -> 1 <= free < scan -> scan < first_unused g <= llen (buf g) ->
  GC_IS_UNUSED (entry g free) = true -> is_filled g scan ->
  exists h' g' L', move_root free scan (h, g) = (h', g') /\ compacting h0 g0 h' g' L' (scan - 1) /\
    (forall i, 0 <= i -> i <> free -> entry g' i = entry g i) /\ is_filled g' free.
Proof.
  intros Hc Hfs Hr Hu Hf. set (p := entry g scan). set (a := GC_GET_PTR p).
  set (h' := GC_REF_SET_INFO a (Z.lor (gc_compress free) (GC_REF_COLOR h a)) h). set (g' := set_entry free p g).
  assert (scan ∈ L) as Hs by (apply (cp_filled _ _ _ _ _ _ Hc); split; [lia|done]).
  apply elem_of_Permutation in Hs as [L0 HL]. pose proof (cp_nodup _ _ _ _ _ _ Hc) as Hnd. rewrite HL in Hnd. apply NoDup_cons in Hnd as [Hs0 Hnd].
  assert (forall i, i ∈ L <-> i = scan \/ i ∈ L0) as HinL by (intros i; by rewrite HL, elem_of_cons).
  assert (free ∉ L0) as Hf0.
  { intros Hin. assert (free ∈ L) as [_ Hfill]%(cp_filled _ _ _ _ _ _ Hc) by (apply HinL; by right). unfold is_filled in Hfill. congruence. }
  assert (entry g' free = p) as Ef by (apply entry_set_eq; lia).
  assert (forall i, 0 <= i -> i <> free -> entry g' i = entry g i) as Eo by (intros; apply entry_set_ne; lia).
  assert (forall i, i ∈ L0 -> 1 <= i <= scan /\ i <> free /\ i <> scan /\ is_filled g i /\ entry g' i = entry g i) as HL0.
  { intros i Hi. assert (i ∈ L) as [Hir Hif]%(cp_filled _ _ _ _ _ _ Hc) by (apply HinL; by right).
    assert (i <> free) by (by intros ->). repeat split; try done; try lia; [by intros ->|apply Eo; lia]. }
  destruct (cp_node _ _ _ _ _ _ Hc scan) as (r & Hra & Hrc); [apply HinL; by left|]. fold p a in Hra.
  pose proof (compress_range free ltac:(lia)) as Hcr.
  destruct (info_pack (gc_compress free) (GC_REF_COLOR h a) ltac:(lia) (land_is_color _)) as [Epa Epc].
  assert (forall b, info_of h' b = if decide (a = b) then Z.lor (gc_compress free) (GC_REF_COLOR h a) else info_of h b) as Hinfo.
  { intros b. unfold h', GC_REF_SET_INFO. rewrite info_of_alter by (by apply elem_of_dom_2 in Hra). by rewrite Hra. }
  assert (forall i, i ∈ free :: L0 -> exists j, j ∈ L /\ entry g' i = entry g j /\ (i = free -> j = scan) /\ (i <> free -> j = i)) as Hmap.
  { intros i [->|Hi]%elem_of_cons; [exists scan|exists i]; (split; [apply HinL; tauto|]); [by rewrite Ef|].
    destruct (HL0 i Hi) as (_ & ? & _ & _ & ?). by split. }
  exists h', g', (free :: L0). split; [done|]. split; [|split; [done|]].
  - split; [exact (cp_first _ _ _ _ _ _ Hc)|exact (cp_roots _ _ _ _ _ _ Hc)| |exact (cp_rest _ _ _ _ _ _ Hc)| | | | | | | | | |].
    + unfold g'. cbn. rewrite llen_lset. exact (cp_len _ _ _ _ _ _ Hc).
    + intros i. rewrite elem_of_cons. split.
      * intros [->|Hi]; [split; [lia|]; unfold is_filled; by rewrite Ef|]. destruct (HL0 i Hi) as (? & ? & ? & ? & E). unfold is_filled. rewrite E. split; [lia|done].
      * intros [Hi Hfi]. destruct (decide (i = free)) as [->|Hne]; [by left|right]. unfold is_filled in Hfi. rewrite Eo in Hfi by lia.
        assert (i ∈ L) as [->|?]%HinL by (apply (cp_filled _ _ _ _ _ _ Hc); split; [lia|done]); [lia|done].
    + by apply NoDup_cons.
    + change (num_roots g') with (num_roots g). rewrite <- (cp_count _ _ _ _ _ _ Hc). unfold llen. by rewrite HL.
    + intros i Hi. destruct (Hmap i Hi) as (j & Hj & -> & H1 & H2). destruct (cp_node _ _ _ _ _ _ Hc j Hj) as (rj & Hrj & Haj).
      unfold h', GC_REF_SET_INFO. destruct (decide (i = free)) as [->|Hne].
      * rewrite (H1 eq_refl) in *. fold p a in Hrj |- *. rewrite lookup_alter_eq, Hrj. by eexists.
      * rewrite (H2 Hne) in *. exists rj. split; [|done]. rewrite lookup_alter_ne; [done|]. intros E.
        apply Hne. apply elem_of_cons in Hi as [?|Hi]; [done|]. destruct (HL0 i Hi) as (_ & _ & Hns & _).
        exfalso. apply Hns. symmetry. apply (cp_inj _ _ _ _ _ _ Hc); [apply HinL; by left|done|done].
    + intros b rb Hb Hne. destruct (decide (a = b)) as [<-|Hna]; [exists free; split; [by left|by rewrite Ef]|].
      unfold h', GC_REF_SET_INFO in Hb. rewrite lookup_alter_ne in Hb by done.
      destruct (cp_address _ _ _ _ _ _ Hc b rb Hb Hne) as (i & [->|Hi]%HinL & Hp); [done|]. exists i. split; [by right|].
      destruct (HL0 i Hi) as (_ & _ & _ & _ & ->). done.
    + intros i j Hi Hj E. destruct (Hmap i Hi) as (i' & Hi' & Ei & H1 & H2), (Hmap j Hj) as (j' & Hj' & Ej & H3 & H4).
      rewrite Ei, Ej in E. apply (cp_inj _ _ _ _ _ _ Hc) in E; [|done|done]. subst j'.
      destruct (decide (i = free)) as [->|Hi0], (decide (j = free)) as [->|Hj0]; [done| | |by rewrite <- (H2 Hi0), <- (H4 Hj0)].
      * specialize (H1 eq_refl). specialize (H4 Hj0). subst. apply elem_of_cons in Hj as [?|Hj]; [done|]. by destruct (HL0 _ Hj) as (_ & _ & ? & _).
      * specialize (H3 eq_refl). specialize (H2 Hi0). subst. apply elem_of_cons in Hi as [?|Hi]; [done|]. by destruct (HL0 _ Hi) as (_ & _ & ? & _).
    + intros q. rewrite <- (cp_words _ _ _ _ _ _ Hc q). split.
      * intros (i & Hi & <-). destruct (Hmap i Hi) as (j & Hj & -> & _). by exists j.
      * intros (i & [->|Hi]%HinL & <-); [exists free; split; [by left|done]|]. exists i. split; [by right|]. by destruct (HL0 i Hi) as (_ & _ & _ & _ & ->).
    + eapply same_bodies_trans; [apply Hc|]. by apply same_bodies_alter.
    + intros b. rewrite <- (cp_colors _ _ _ _ _ _ Hc b). unfold GC_REF_COLOR at 1. rewrite Hinfo. destruct (decide (a = b)) as [<-|]; [done|done].
    + intros H0 b. rewrite Hinfo. destruct (decide (a = b)); [apply pack_range; [done|apply land_is_color]|by apply (cp_info _ _ _ _ _ _ Hc)].
  - unfold is_filled. by rewrite Ef.
Qed.

(** ** The loop *)

Lemma compact_loop_ok h0 g0 n : forall free scan h g L, compacting h0 g0 h g L scan -> 0 < num_roots g -> num_roots g < scan < first_unused g ->
  first_unused g <= llen (buf g) -> 1 <= free -> (forall i, 1 <= i < free -> is_filled g i) ->
  (Z.to_nat (scan - free) + 2 <= n)%nat ->
  exists h' g' L' scan', compact_loop n free scan (num_roots g) (h, g) = Some (h', g') /\ compacting h0 g0 h' g' L' scan' /\
    (forall i, 1 <= i <= num_roots g -> is_filled g' i /\ i ∈ L').
Proof.
  induction n as [|n IH]; intros free scan h g L Hc Hr Hs Hlen Hf Hfill Hn; [lia|]. cbn [compact_loop].
  destruct (Z.ltb_spec free scan) as [Hlt|Hge].
  2: { exists h, g, L, scan. split; [done|]. split; [done|]. intros i Hi. assert (is_filled g i) by (apply Hfill; lia).
       split; [done|]. apply (cp_filled _ _ _ _ _ _ Hc). split; [lia|done]. }
  destruct (compacting_hole _ _ _ _ _ _ free Hc ltac:(lia) Hfill ltac:(lia)) as (k & Hk & Huk).
  destruct (compacting_entry _ _ _ _ _ _ Hc Hr) as (e & He & Hfe). unfold llen in Hlen. cbn [snd].
  destruct (compact_free_up_spec g k ltac:(by right) (S (length (buf g))) free) as (f & Ef & Hfk & Huf & Hff); [lia|lia|done|].
  destruct (compact_scan_down_spec g e Hfe (S (length (buf g))) scan) as (s & Es & Hes & Hfs & Hus); [lia|lia|].
  rewrite Ef, Es, !some_bind.
  assert (forall i, 1 <= i < f -> is_filled g i) as Hfill'.
  { intros i Hi. destruct (decide (i < free)); [apply Hfill|apply Hff]; lia. }
  pose proof (compacting_lower _ _ _ _ _ _ s Hc ltac:(lia) Hus) as Hcs.
  assert (num_roots g < s \/ s < f) as Hpos.
  { destruct (decide (s < f)); [by right|left]. pose proof (cp_count _ _ _ _ _ _ Hcs) as Hcnt. 
    (* a hole and an entry above it: more positions than entries *)
    assert (length (f :: L) <= length (zrange 1 (Z.to_nat s)))%nat as Hle.
    { apply submseteq_length, NoDup_submseteq.
      - apply NoDup_cons. split; [|apply Hcs]. intros [_ H]%(cp_filled _ _ _ _ _ _ Hcs). unfold is_filled in H. congruence.
      - intros i [->|[? _]%(cp_filled _ _ _ _ _ _ Hcs)]%elem_of_cons; apply elem_of_zrange; lia. }
    rewrite length_zrange in Hle. unfold llen in Hcnt. cbn in Hle. lia. }
  destruct (Z.ltb_spec f s) as [Hfs'|Hfs'].
  - destruct (compacting_move _ _ _ _ _ _ f Hcs ltac:(lia) ltac:(unfold llen; lia) Huf Hfs) as (h1 & g1 & L1 & E1 & Hc1 & Eo1 & Hf1).
    rewrite E1. assert (num_roots g1 = num_roots g /\ first_unused g1 = first_unused g /\ llen (buf g1) = llen (buf g)) as (Er1 & Efu1 & El1).
    { destruct Hc, Hc1. split; [|split]; congruence. }
    assert (forall i, 1 <= i < f + 1 -> is_filled g1 i) as Hfill1.
    { intros i Hi. destruct (decide (i = f)) as [->|]; [done|]. unfold is_filled. rewrite Eo1 by lia. apply Hfill'; lia. }
    destruct (Z.leb_spec (s - 1) (num_roots g)) as [Hle|Hgt].
    + exists h1, g1, L1, (s - 1). split; [done|]. split; [done|]. intros i Hi.
      assert (i ∈ L1) as Hin; [|split; [|done]; by apply (cp_filled _ _ _ _ _ _ Hc1) in Hin as [_ ?]].
      destruct (decide (i ∈ L1)) as [|Hni]; [done|exfalso]. pose proof (cp_count _ _ _ _ _ _ Hc1) as Hcnt.
      assert (length (i :: L1) <= length (zrange 1 (Z.to_nat (num_roots g))))%nat as Hle'.
      { apply submseteq_length, NoDup_submseteq; [apply NoDup_cons; split; [done|apply Hc1]|].
        intros j [->|[? _]%(cp_filled _ _ _ _ _ _ Hc1)]%elem_of_cons; apply elem_of_zrange; lia. }
      rewrite length_zrange in Hle'. unfold llen in Hcnt. cbn in Hle'. lia.
    + rewrite <- Er1. apply (IH (f + 1) (s - 1) h1 g1 L1 Hc1); [lia|lia|unfold llen in *; lia|lia|done|lia].
  - assert (f <> s) as Hne by (intros ->; unfold is_filled in Hfs; congruence).
    (* the fingers have met: one more test of the loop condition *)
    destruct n as [|n]; [lia|]. cbn [compact_loop]. destruct (Z.ltb_spec f s); [lia|].
    exists h, g, L, s. split; [done|]. split; [done|]. intros i Hi.
    assert (i ∈ L /\ 1 <= i <= s) as [Hin ?]; [|split; [|done]; by apply (cp_filled _ _ _ _ _ _ Hcs) in Hin as [_ ?]].
    assert (forall j, j ∈ L <-> 1 <= j <= s) as HL.
    { intros j. rewrite (cp_filled _ _ _ _ _ _ Hcs). split; [by intros [? _]|]. intros Hj. split; [done|]. apply Hfill'. lia. }
    assert (num_roots g <= s) as Hns; [|split; [apply HL; lia|lia]].
    assert (length L <= length (zrange 1 (Z.to_nat s)))%nat as Hle.
    { apply submseteq_length, NoDup_submseteq; [apply Hcs|]. intros j Hj%HL. apply elem_of_zrange. lia. }
    rewrite length_zrange in Hle. pose proof (cp_count _ _ _ _ _ _ Hcs) as Hcnt. unfold llen in Hcnt. lia.
Qed.

Lemma compacting_start h g l : buf_ok h g l -> exists L, compacting h g h g L (first_unused g - 1).
Proof.
  intros Hok. exists (filter (fun i => is_filled g i) (zrange 1 (Z.to_nat (first_unused g - 1)))).
  assert (forall i, i ∈ filter (fun i => is_filled g i) (zrange 1 (Z.to_nat (first_unused g - 1))) <-> is_used g i) as HL.
  { intros i. rewrite list_elem_of_filter, elem_of_zrange. unfold is_used, is_filled. pose proof (bo_first _ _ _ Hok). split; intros [? ?]; split; done || lia. }
  split; try done.
  - intros i. rewrite HL. unfold is_used, is_filled. split; intros [? ?]; split; done || lia.
  - apply NoDup_filter, NoDup_zrange.
  - pose proof (bo_count _ _ _ Hok) as Hcnt. pose proof (bo_first _ _ _ Hok) as Hf.
    set (L := filter _ _) in *. assert (zrange 1 (Z.to_nat (first_unused g - 1)) ≡ₚ l ++ L) as HP.
    { apply NoDup_Permutation; [apply NoDup_zrange| |].
      - apply NoDup_app. split; [apply Hok|]. split; [|apply NoDup_filter, NoDup_zrange].
        intros i [_ Hu]%(bo_unused _ _ _ Hok) [_ Hf']%HL. congruence.
      - intros i. rewrite elem_of_app, HL, (bo_unused _ _ _ Hok), elem_of_zrange. unfold is_used.
        destruct (GC_IS_UNUSED (entry g i)); split; intros; [left; split; [lia|done]|lia|right; split; [lia|done]|lia]. }
    apply Permutation_length in HP. rewrite length_app, length_zrange in HP. unfold llen in *. lia.
  - intros i Hi%HL. by apply (bo_node _ _ _ Hok).
  - intros a r Ha Hne. destruct (bo_address _ _ _ Hok a r Ha Hne) as (i & Hi & Hp). exists i. split; [by apply HL|done].
  - intros i j Hi%HL Hj%HL. by apply (bo_inj _ _ _ Hok).
  - intros p. unfold buffered. split; intros (i & Hi & Hp); exists i; (split; [by apply HL|done]).
Qed.

(** The first [num_roots] entries are all in use. *)
Lemma compacted_ok h0 g0 l h g L scan : buf_ok h0 g0 l -> compacting h0 g0 h g L scan ->
  (forall i, 1 <= i <= num_roots g -> is_filled g i /\ i ∈ L) ->
  let g' := set_first_unused (num_roots g + GC_FIRST_ROOT) (set_unused GC_INVALID g) in
  buf_ok h g' [] /\ (forall p, buffered g' p <-> buffered g0 p).
Proof.
  intros Hok Hc Hfill g'. pose proof (roots_nonneg _ _ _ Hok) as Hr0. pose proof (cp_count _ _ _ _ _ _ Hc) as Hcnt.
  pose proof (bo_count _ _ _ Hok) as Hcnt0. pose proof (llen_nonneg l). pose proof (bo_first _ _ _ Hok). pose proof (bo_limit _ _ _ Hok).
  assert (num_roots g = num_roots g0) as Er by apply Hc. destruct (cp_rest _ _ _ _ _ _ Hc) as [Ebs Eth].
  assert (forall i, i ∈ L <-> 1 <= i <= num_roots g) as HL.
  { intros i. split; [|intros Hi; by apply Hfill]. intros Hi. destruct (decide (1 <= i <= num_roots g)) as [|Hne]; [done|exfalso].
    assert (length (i :: zrange 1 (Z.to_nat (num_roots g))) <= length L)%nat as Hle.
    { apply submseteq_length, NoDup_submseteq.
      - apply NoDup_cons. split; [|apply NoDup_zrange]. rewrite elem_of_zrange. lia.
      - intros j [->|Hj%elem_of_zrange]%elem_of_cons; [done|]. apply Hfill. lia. }
    cbn in Hle. rewrite length_zrange in Hle. unfold llen in Hcnt. lia. }
  assert (forall i, is_used g' i <-> i ∈ L) as Hused.
  { intros i. rewrite HL. unfold is_used. change (first_unused g') with (num_roots g + 1). change (entry g' i) with (entry g i).
    split; [intros [? _]; lia|]. intros Hi. split; [lia|]. by apply Hfill. }
  split.
  - split; try done.
    + cbn. rewrite Ebs, (cp_len _ _ _ _ _ _ Hc). apply Hok.
    + change (1 <= num_roots g + 1 <= buf_size g). lia.
    + change (num_roots g + 1 <= GC_SAFE_SIZE). lia.
    + cbn. rewrite Ebs. exact (bo_max _ _ _ Hok).
    + cbn. rewrite Ebs, Eth. exact (bo_threshold _ _ _ Hok).
    + constructor.
    + intros i. split; [intros Hi; by apply elem_of_nil in Hi|]. intros [Hi Hu]. change (first_unused g') with (num_roots g + 1) in Hi.
      destruct (Hfill i) as [Hf _]; [lia|]. unfold is_filled in Hf. change (entry g' i) with (entry g i) in Hu. congruence.
    + change (num_roots g + 1 = 1 + num_roots g + 0). lia.
    + intros i Hi%Hused. exact (cp_node _ _ _ _ _ _ Hc i Hi).
    + intros a r Ha Hne. destruct (cp_address _ _ _ _ _ _ Hc a r Ha Hne) as (i & Hi & Hp). exists i. split; [by apply Hused|done].
    + intros i j Hi%Hused Hj%Hused. exact (cp_inj _ _ _ _ _ _ Hc i j Hi Hj).
  - intros p. rewrite <- (cp_words _ _ _ _ _ _ Hc p). unfold buffered. split; intros (i & Hi & Hp); exists i; (split; [by apply Hused|done]).
Qed.

Lemma gc_compact_ok h g l : buf_ok h g l ->
  exists h' g', gc_compact (h, g) = Some (h', g') /\ buf_ok h' g' [] /\ (forall p, buffered g' p <-> buffered g p) /\
    same_bodies h h' /\ (forall a, GC_REF_COLOR h' a = GC_REF_COLOR h a) /\ num_roots g' = num_roots g /\
    ((forall a, 0 <= info_of h a < 2 ^ 22) -> forall a, 0 <= info_of h' a < 2 ^ 22).
Proof.
  intros Hok. unfold gc_compact, GC_FIRST_ROOT. cbn [snd]. pose proof (bo_count _ _ _ Hok) as Hcnt.
  destruct (Z.eqb_spec (num_roots g + 1) (first_unused g)) as [E|Hne]; cbn [negb].
  { exists h, g. split; [done|]. split; [|done]. assert (l = []) as ->; [|done]. destruct l; [done|]. rewrite llen_cons in Hcnt. pose proof (llen_nonneg l). lia. }
  destruct (compacting_start h g l Hok) as [L Hc]. pose proof (roots_nonneg _ _ _ Hok). pose proof (llen_nonneg l).
  assert (exists h' g' L' scan', (if negb (num_roots g =? 0) then compact_loop (S (length (buf g))) 1 (first_unused g - 1) (num_roots g) (h, g) else Some (h, g))
     = Some (h', g') /\ compacting h g h' g' L' scan' /\ (forall i, 1 <= i <= num_roots g' -> is_filled g' i /\ i ∈ L')) as (h' & g' & L' & scan' & E & Hc' & Hf).
  { destruct (Z.eqb_spec (num_roots g) 0) as [E0|Hn0]; cbn [negb].
    - exists h, g, L, (first_unused g - 1). split; [done|]. split; [done|]. intros i. lia.
    - pose proof (bo_first _ _ _ Hok) as Hff. pose proof (bo_size _ _ _ Hok) as Hsz.
      destruct (compact_loop_ok h g (S (length (buf g))) 1 (first_unused g - 1) h g L Hc) as (h' & g' & L' & scan' & E & Hc' & Hf);
        [lia|lia|lia|lia|intros; lia|unfold llen in *; lia|]. exists h', g', L', scan'. split; [done|]. split; [done|].
      by rewrite (cp_roots _ _ _ _ _ _ Hc'). }
  match goal with |- context [mbind _ ?r] => change r with (if negb (num_roots g =? 0) then compact_loop (S (length (buf g))) 1 (first_unused g - 1) (num_roots g) (h, g) else Some (h, g)) end.
  rewrite E, some_bind. destruct (compacted_ok h g l h' g' L' scan' Hok Hc' Hf) as [Hok' Hq].
  eexists h', _. split; [reflexivity|]. split; [exact Hok'|]. split; [done|]. split; [apply Hc'|]. split; [apply Hc'|].
  split; [exact (cp_roots _ _ _ _ _ _ Hc')|exact (cp_info _ _ _ _ _ _ Hc')].
Qed.

(** C40: [gc_compact] moves the entries of the root buffer to its start.  It ends
    with the same set of tagged pointers, no unused entries, every node told its
    new index, and colours, counts and contents of the nodes unchanged. *)
Theorem gc_compact_correct h g l : buf_ok h g l ->
  exists h' g', gc_compact (h, g) = Some (h', g') /\ buf_ok h' g' [] /\ (forall p, buffered g' p <-> buffered g p) /\
    same_bodies h h' /\ (forall a, GC_REF_COLOR h' a = GC_REF_COLOR h a) /\ num_roots g' = num_roots g /\
    ((forall a, 0 <= info_of h a < 2 ^ 22) -> forall a, 0 <= info_of h' a < 2 ^ 22).
Proof. apply gc_compact_ok. Qed.
End Compact.
