(* ===== verification/GcGraph.v ===== *)
(** The traversals of the cycle collector (Zend/zend_gc.c): depth-first over the
    graph of counted nodes with an explicit stack, colouring nodes and changing
    their counts, the passes over the root buffer that start them, and the
    analysis that is made of the passes.  [GcVisit] has their theory. *)

From stdpp Require Import base numbers list gmap.
From S2P Require Import Prelude ZendTypes HashTable HashOps GcBuffer GcRoots GcCompact.

(** The node that a value refers to, if the value is collectable. *)
Class Collectable (V : Type) := Z_COUNTED : V -> option Z.

Section Traversals.
Context {V : Type} {E : ZEnv V} {C : Collectable V}.
Implicit Types (h : gmap Z (zend_refcounted V)).
(** The memory that [IS_INDIRECT] values point to. *)
Context (w : EG V).

Definition gc_heap : Type := gmap Z (zend_refcounted V).

Definition Z_COLLECTABLE (v : zval V) : option Z := match v with IS_VALUE x => Z_COUNTED x | _ => None end.

(** * One node *)

(** The values of a table in the order of the loops at label [handle_ht]. *)
Definition ht_zvals (t : HashTable V) : list (zval V) :=
  (fun i => if fl_PACKED t then pos_val t i else deref_indirect w (pos_val t i)) <$> zrange 0 (Z.to_nat (nNumUsed t)).

Definition table_zvals h (ht : Z) : list (zval V) :=
  match GC_TYPE <$> h !! ht with Some (IS_ARRAY t) => ht_zvals t | _ => [] end.

(** What each traversal does to a child; true: the child has to be visited. *)
Definition grey_child (ref : Z) h : gc_heap * bool :=
  let h := GC_DELREF ref h in
  if negb (GC_REF_CHECK_COLOR h ref GC_GREY) then (GC_REF_SET_COLOR ref GC_GREY h, true) else (h, false).
Definition black_child (ref : Z) h : gc_heap * bool :=
  let h := GC_ADDREF ref h in
  if negb (GC_REF_CHECK_COLOR h ref GC_BLACK) then (GC_REF_SET_BLACK ref h, true) else (h, false).
Definition white_child (ref : Z) h : gc_heap * bool :=
  if GC_REF_CHECK_COLOR h ref GC_GREY then (GC_REF_SET_COLOR ref GC_WHITE h, true) else (h, false).
Definition garbage_child (ref : Z) h : gc_heap * bool :=
  let h := GC_ADDREF ref h in
  if GC_REF_CHECK_COLOR h ref GC_WHITE then (GC_REF_SET_BLACK ref h, true) else (h, false).

(** The loop over values; the children to be visited, in order. *)
Fixpoint visit_zvals (visit : Z -> gc_heap -> gc_heap * bool) (zs : list (zval V)) h : gc_heap * list Z :=
  match zs with
  | [] => (h, [])
  | zv :: zs =>
      match Z_COLLECTABLE zv with
      | None => visit_zvals visit zs h
      | Some ref =>
          let (h, new) := visit ref h in
          let (h, found) := visit_zvals visit zs h in
          (h, if new : bool then ref :: found else found)
      end
  end.

(** The children of [ref]: those pushed, and those found by the last loop, of
    which the first is visited next.  A properties table that is new is
    entered at once; [push_table]: it is pushed as well. *)
Definition visit_children (visit : Z -> gc_heap -> gc_heap * bool) (push_table : bool) (ref : Z) h : gc_heap * (list Z * list Z) :=
  match GC_TYPE <$> h !! ref with
  | Some (IS_OBJECT obj) =>
      if IS_OBJ_FREE_CALLED obj then (h, ([], []))
      else
        let (ht, zvals) := get_gc obj in
        match ht with
        | Some ht =>
            let (h, new) := visit ht h in
            if new : bool then
              let (h, pushed) := visit_zvals visit zvals h in
              let (h, found) := visit_zvals visit (table_zvals h ht) h in
              (h, (if push_table then ht :: pushed else pushed, found))
            else let (h, found) := visit_zvals visit zvals h in (h, ([], found))
        | None => let (h, found) := visit_zvals visit zvals h in (h, ([], found))
        end
  | Some (IS_ARRAY t) => let (h, found) := visit_zvals visit (ht_zvals t) h in (h, ([], found))
  | Some (IS_REFERENCE val) => let (h, found) := visit_zvals visit [val] h in (h, ([], found))
  | Some GC_NULL | None => (h, ([], []))
  end.

(** The next node, by a jump or from the stack, and the rest of the stack. *)
Definition next_refs (pushed found stack : list Z) : list Z :=
  match found with
  | [] => reverse pushed ++ stack
  | ref :: found => ref :: reverse found ++ reverse pushed ++ stack
  end.

(** * The traversals *)

Fixpoint traverse_from (visit : Z -> gc_heap -> gc_heap * bool) (n : nat) (ref : Z) (stack : list Z) h : option gc_heap :=
  match n with
  | O => None
  | S n =>
      let '(h, (pushed, found)) := visit_children visit false ref h in
      match next_refs pushed found stack with
      | [] => Some h
      | ref :: stack => traverse_from visit n ref stack h
      end
  end.

Definition gc_scan_black : nat -> Z -> list Z -> gc_heap -> option gc_heap := traverse_from black_child.
Definition gc_mark_grey : nat -> Z -> list Z -> gc_heap -> option gc_heap := traverse_from grey_child.

(** [fuel] is for the nested [gc_scan_black], which starts with a stack of its own. *)
Fixpoint gc_scan (fuel n : nat) (ref : Z) (stack : list Z) h : option gc_heap :=
  match n with
  | O => None
  | S n =>
      let next (h : gc_heap) (refs : list Z) := match refs with [] => Some h | ref :: stack => gc_scan fuel n ref stack h end in
      if negb (GC_REF_CHECK_COLOR h ref GC_WHITE) then next h stack
      else if 0 <? refcount_of h ref then
        h ← (if negb (GC_REF_CHECK_COLOR h ref GC_BLACK) then gc_scan_black fuel ref [] (GC_REF_SET_BLACK ref h) else Some h);
        next h stack
      else
        let '(h, (pushed, found)) := visit_children white_child true ref h in
        next h (next_refs pushed found stack)
  end.

Section Garbage.
Context (junk_word : nat -> Z).

Definition GC_HAS_DESTRUCTORS : Z := 1.

(** What happens to a node before its children are visited. *)
Definition enter_garbage (ref : Z) (s : gc_state) (flags : Z) : gc_state (V := V) * Z :=
  match GC_TYPE <$> s.1 !! ref with
  | Some (IS_OBJECT obj) =>
      if IS_OBJ_FREE_CALLED obj then (s, flags)
      else (if info_of s.1 ref =? 0 then gc_add_garbage junk_word ref s else s,
            if negb (IS_OBJ_DESTRUCTOR_CALLED obj) && has_destructor obj then Z.lor flags GC_HAS_DESTRUCTORS else flags)
  | Some (IS_ARRAY _) => (if info_of s.1 ref =? 0 then gc_add_garbage junk_word ref s else s, flags)
  | _ => (s, flags)
  end.

(** [gc_collect_white] on the heap, the buffer, the flags and the count. *)
Fixpoint gc_collect_white (n : nat) (ref : Z) (stack : list Z) (s : gc_state) (flags count : Z) : option (gc_state * Z * Z) :=
  match n with
  | O => None
  | S n =>
      let count := match GC_TYPE <$> s.1 !! ref with Some (IS_REFERENCE _) => count | _ => count + 1 end in
      let (s, flags) := enter_garbage ref s flags in
      let '(h, (pushed, found)) := visit_children garbage_child false ref s.1 in
      match next_refs pushed found stack with
      | [] => Some ((h, s.2), flags, count)
      | ref :: stack => gc_collect_white n ref stack (h, s.2) flags count
      end
  end.

(** * The passes over the buffer *)

(** Each traversal meets a node at most once. *)
Definition fuel_of h : nat := S (size h).

Fixpoint mark_roots_loop (n : nat) (current : Z) (s : gc_state) : option gc_state :=
  match n with
  | O => Some s
  | S n =>
      let (h, g) := s in
      let ref := entry g current in
      h ← (if GC_IS_ROOT ref && GC_REF_CHECK_COLOR h ref GC_PURPLE
           then gc_mark_grey (fuel_of h) ref [] (GC_REF_SET_COLOR ref GC_GREY h) else Some h);
      mark_roots_loop n (current + 1) (h, g)
  end.

Definition gc_mark_roots (s : gc_state (V := V)) : option gc_state :=
  s ← gc_compact s;
  mark_roots_loop (Z.to_nat (first_unused s.2 - GC_FIRST_ROOT)) GC_FIRST_ROOT s.

(** Both loops of [gc_scan_roots]: without weak maps no roots are added meanwhile. *)
Fixpoint scan_roots_loop (n : nat) (idx : Z) (s : gc_state) : option gc_state :=
  match n with
  | O => Some s
  | S n =>
      let (h, g) := s in
      let ref := entry g idx in
      h ← (if GC_IS_ROOT ref && GC_REF_CHECK_COLOR h ref GC_GREY
           then gc_scan (fuel_of h) (fuel_of h) ref [] (GC_REF_SET_COLOR ref GC_WHITE h) else Some h);
      scan_roots_loop n (idx + 1) (h, g)
  end.

Definition gc_scan_roots (s : gc_state (V := V)) : option gc_state :=
  scan_roots_loop (Z.to_nat (first_unused s.2 - GC_FIRST_ROOT)) GC_FIRST_ROOT s.

(** "remove non-garbage from the list" *)
Fixpoint remove_black_loop (n : nat) (current : Z) (s : gc_state (V := V)) : gc_state :=
  match n with
  | O => s
  | S n =>
      let (h, g) := s in
      let ref := entry g current in
      remove_black_loop n (current + 1)
        (if GC_IS_ROOT ref && GC_REF_CHECK_COLOR h ref GC_BLACK
         then (GC_REF_SET_INFO ref 0 h, gc_remove_from_roots current g) else s)
  end.

Fixpoint collect_roots_loop (n : nat) (idx : Z) (s : gc_state) (flags count : Z) : option (gc_state * Z * Z) :=
  match n with
  | O => Some (s, flags, count)
  | S n =>
      let (h, g) := s in
      let ref := entry g idx in
      let g := set_entry idx (GC_MAKE_GARBAGE ref) g in
      r ← (if GC_REF_CHECK_COLOR h ref GC_WHITE
           then gc_collect_white (fuel_of h) ref [] (GC_REF_SET_BLACK ref h, g) flags count else Some ((h, g), flags, count));
      let '(s, flags, count) := (r : gc_state * Z * Z) in
      collect_roots_loop n (idx + 1) s flags count
  end.

Definition gc_collect_roots (s : gc_state (V := V)) (flags : Z) : option (gc_state * Z * Z) :=
  s ← gc_compact (remove_black_loop (Z.to_nat (first_unused s.2 - GC_FIRST_ROOT)) GC_FIRST_ROOT s);
  collect_roots_loop (Z.to_nat (first_unused s.2 - GC_FIRST_ROOT)) GC_FIRST_ROOT s flags 0.

(** The analysis in [zend_gc_collect_cycles]: the buffer with the garbage, the
    flags and the count of nodes. *)
Definition gc_analyse (s : gc_state (V := V)) : option (gc_state * Z * Z) :=
  s ← gc_mark_roots s;
  s ← gc_scan_roots s;
  gc_collect_roots s 0.
End Garbage.
End Traversals.
