(* ===== verification/GcVisit.v ===== *)
(** What a traversal of the cycle collector does: the nodes it discovers, the
    edges it counts, and that it ends.  Proved once, for every visitor. *)

From stdpp Require Import base numbers list gmap relations.
From S2P Require Import Prelude ZendTypes HashTable HashOps GcBuffer GcRoots GcCompact GcGraph.

(** * Occurrences *)

Definition occ (b : Z) (l : list Z) : Z := Z.of_nat (length (filter (fun x => x = b) l)).

Lemma occ_nil b : occ b [] = 0.
Proof. done. Qed.
Lemma occ_cons b x l : occ b (x :: l) = (if decide (x = b) then 1 else 0) + occ b l.
Proof. unfold occ. rewrite filter_cons. destruct (decide (x = b)); cbn [length]; lia. Qed.
Lemma occ_app b l k : occ b (l ++ k) = occ b l + occ b k.
Proof. unfold occ. rewrite filter_app, length_app. lia. Qed.
Lemma occ_nonneg b l : 0 <= occ b l.
Proof. unfold occ. lia. Qed.
Lemma occ_perm b l k : l ≡ₚ k -> occ b l = occ b k.
Proof. intros H. unfold occ. by rewrite H. Qed.
Lemma occ_elem b l : b ∈ l -> 0 < occ b l.
Proof.
  intros H%elem_of_Permutation. destruct H as [k H]. rewrite (occ_perm _ _ _ H), occ_cons, decide_True by done. pose proof (occ_nonneg b k). lia.
Qed.
Lemma occ_not_elem b l : b ∉ l -> occ b l = 0.
Proof.
  induction l as [|x l IH]; [done|]. intros [Hx Hl]%not_elem_of_cons. rewrite occ_cons, decide_False by done. by rewrite IH.
Qed.

Section Visit.
Context {V : Type} {E : ZEnv V} {C : Collectable V} (w : EG V).
Implicit Types (h : gmap Z (zend_refcounted V)).

(** * The graph *)

Definition types_of h : gmap Z (gc_type V) := GC_TYPE <$> h.

Definition children (ts : gmap Z (gc_type V)) (a : Z) : list Z :=
  match ts !! a with
  | Some (IS_OBJECT obj) =>
      if IS_OBJ_FREE_CALLED obj then [] else option_list (get_gc obj).1 ++ omap Z_COLLECTABLE (get_gc obj).2
  | Some (IS_ARRAY t) => omap Z_COLLECTABLE (ht_zvals w t)
  | Some (IS_REFERENCE val) => omap Z_COLLECTABLE [val]
  | Some GC_NULL | None => []
  end.
Definition edges ts (l : list Z) : list Z := l ≫= children ts.
Definition succ ts (a b : Z) : Prop := b ∈ children ts a.

(** All children are nodes, and the properties table of an object that is not freed is a table. *)
Record graph_ok ts : Prop := {
  go_closed a b : succ ts a b -> b ∈ dom ts;
  go_table a obj ht : ts !! a = Some (IS_OBJECT obj) -> IS_OBJ_FREE_CALLED obj = false -> (get_gc obj).1 = Some ht -> exists t, ts !! ht = Some (IS_ARRAY t)
}.

Lemma edges_nil ts : edges ts [] = [].
Proof. done. Qed.
Lemma edges_cons ts a l : edges ts (a :: l) = children ts a ++ edges ts l.
Proof. done. Qed.
Lemma edges_app ts l k : edges ts (l ++ k) = edges ts l ++ edges ts k.
Proof. unfold edges. by rewrite bind_app. Qed.
Lemma elem_of_edges ts l b : b ∈ edges ts l <-> exists a, a ∈ l /\ succ ts a b.
Proof. unfold edges, succ. rewrite list_elem_of_bind. split; intros (a & ? & ?); by exists a. Qed.
Lemma edges_perm ts l k : l ≡ₚ k -> edges ts l ≡ₚ edges ts k.
Proof. intros H. unfold edges. by rewrite H. Qed.

Lemma types_lookup h a : types_of h !! a = GC_TYPE <$> h !! a.
Proof. apply lookup_fmap. Qed.
Lemma types_dom h : dom (types_of h) = dom h.
Proof. apply dom_fmap_L. Qed.

(** * The effect of a traversal *)

Definition node_ok (r : zend_refcounted V) : Prop := 0 <= GC_REFCOUNT r < 2 ^ 32 /\ 0 <= GC_INFO r < 2 ^ 22.
Definition heap_ok h : Prop := forall a r, h !! a = Some r -> node_ok r.

Lemma heap_ok_count h a : heap_ok h -> 0 <= refcount_of h a < 2 ^ 32.
Proof. intros Ho. unfold refcount_of. destruct (h !! a) as [r|] eqn:Ha; cbn; [|lia]. by destruct (Ho a r Ha). Qed.

(** The nodes [N] are discovered and coloured [c], the edges to [L] counted with [delta]. *)
Record visited (delta : Z) (todo : Z -> bool) (c : Z) h h' (N L : list Z) : Prop := {
  vs_types : types_of h' = types_of h;
  vs_ok : heap_ok h';
  vs_address b : GC_REF_ADDRESS h' b = GC_REF_ADDRESS h b;
  vs_nodup : NoDup N;
  vs_new b : b ∈ N -> todo (GC_REF_COLOR h b) = true /\ b ∈ dom h;
  vs_color b : GC_REF_COLOR h' b = if decide (b ∈ N) then c else GC_REF_COLOR h b;
  vs_count b : refcount_of h' b = u32 (refcount_of h b + delta * occ b L)
}.

(** What a visitor does with one child. *)
Definition visitor (delta : Z) (todo : Z -> bool) (c : Z) (visit : Z -> gmap Z (zend_refcounted V) -> gmap Z (zend_refcounted V) * bool) : Prop :=
  is_color c /\ todo c = false /\
  forall ref h, ref ∈ dom h -> heap_ok h ->
    visited delta todo c h (visit ref h).1 (if todo (GC_REF_COLOR h ref) then [ref] else []) [ref] /\
    (visit ref h).2 = todo (GC_REF_COLOR h ref).

Lemma u32_add x y : u32 (u32 x + y) = u32 (x + y).
Proof. unfold u32. by rewrite Zplus_mod_idemp_l. Qed.

Lemma visited_refl delta todo c h : heap_ok h -> visited delta todo c h h [] [].
Proof.
  intros Ho. split; try done; [constructor|by intros b Hb%elem_of_nil|]. intros b. rewrite occ_nil, Z.mul_0_r, Z.add_0_r.
  symmetry. apply u32_small. by apply heap_ok_count.
Qed.

Lemma visited_dom delta todo c h h' N L : visited delta todo c h h' N L -> dom h' = dom h.
Proof. intros Hv. by rewrite <- !types_dom, (vs_types _ _ _ _ _ _ _ Hv). Qed.

Lemma visited_trans delta todo c h1 h2 h3 N1 L1 N2 L2 : todo c = false ->
  visited delta todo c h1 h2 N1 L1 -> visited delta todo c h2 h3 N2 L2 -> visited delta todo c h1 h3 (N1 ++ N2) (L1 ++ L2).
Proof.
  intros Hc H1 H2. assert (forall b, b ∈ N2 -> b ∉ N1 /\ todo (GC_REF_COLOR h1 b) = true /\ b ∈ dom h1) as HN2.
  { intros b Hb. destruct (vs_new _ _ _ _ _ _ _ H2 b Hb) as [Ht Hd]. rewrite (vs_color _ _ _ _ _ _ _ H1) in Ht.
    rewrite (visited_dom _ _ _ _ _ _ _ H1) in Hd. destruct (decide (b ∈ N1)); [congruence|done]. }
  split.
  - rewrite (vs_types _ _ _ _ _ _ _ H2). apply H1.
  - apply H2.
  - intros b. rewrite (vs_address _ _ _ _ _ _ _ H2). apply H1.
  - apply NoDup_app. split; [apply H1|]. split; [|apply H2]. intros b Hb Hb2. by apply (HN2 b).
  - intros b [Hb|Hb]%elem_of_app; [by apply (vs_new _ _ _ _ _ _ _ H1)|by apply HN2].
  - intros b. rewrite (vs_color _ _ _ _ _ _ _ H2), (vs_color _ _ _ _ _ _ _ H1).
    destruct (decide (b ∈ N2)), (decide (b ∈ N1)), (decide (b ∈ N1 ++ N2)) as [Hi|Hi]; try done; rewrite elem_of_app in Hi; tauto.
  - intros b. rewrite (vs_count _ _ _ _ _ _ _ H2), (vs_count _ _ _ _ _ _ _ H1), u32_add, occ_app. f_equal. lia.
Qed.

Lemma visited_perm delta todo c h h' N N' L : N ≡ₚ N' -> visited delta todo c h h' N L -> visited delta todo c h h' N' L.
Proof.
  intros HN Hv. destruct Hv. split; try done; [by rewrite <- HN|intros b; rewrite <- HN; apply vs_new0|].
  intros b. rewrite vs_color0. destruct (decide (b ∈ N)) as [H|H], (decide (b ∈ N')) as [H'|H']; try done; rewrite HN in H; done.
Qed.

(** Discovered nodes and nodes that need no visit do not need one afterwards. *)
Lemma visited_seen delta todo c h h' N L b : todo c = false -> visited delta todo c h h' N L ->
  todo (GC_REF_COLOR h b) = false \/ b ∈ N -> todo (GC_REF_COLOR h' b) = false.
Proof.
  intros Hc Hv Hb. rewrite (vs_color _ _ _ _ _ _ _ Hv). destruct (decide (b ∈ N)); [done|]. by destruct Hb.
Qed.

(** * The loops over values *)

Section Visitor.
Context (delta : Z) (todo : Z -> bool) (c : Z) (visit : Z -> gmap Z (zend_refcounted V) -> gmap Z (zend_refcounted V) * bool).
Context (Hvisit : visitor delta todo c visit).

Lemma visit_zvals_ok zs : forall h, heap_ok h -> (forall b, b ∈ omap Z_COLLECTABLE zs -> b ∈ dom h) ->
  exists h' N, visit_zvals visit zs h = (h', N) /\ visited delta todo c h h' N (omap Z_COLLECTABLE zs) /\
    (forall b, b ∈ N -> b ∈ omap Z_COLLECTABLE zs) /\ (forall b, b ∈ omap Z_COLLECTABLE zs -> todo (GC_REF_COLOR h' b) = false).
Proof.
  destruct Hvisit as (Hc & Htc & Hv). induction zs as [|zv zs IH]; intros h Ho Hin; cbn [visit_zvals].
  { exists h, []. split; [done|]. split; [by apply visited_refl|]. split; intros b Hb; by apply elem_of_nil in Hb. }
  destruct (Z_COLLECTABLE zv) as [ref|] eqn:Hz; csimpl in *; rewrite Hz in *.
  2: { by apply IH. }
  destruct (Hv ref h (Hin ref ltac:(by left)) Ho) as [H1 Hn]. destruct (visit ref h) as [h1 new]. cbn in H1, Hn. subst new.
  destruct (IH h1) as (h2 & N & -> & H2 & HN & Hs).
  { apply H1. } { intros b Hb. rewrite (visited_dom _ _ _ _ _ _ _ H1). apply Hin. by right. }
  exists h2, ((if todo (GC_REF_COLOR h ref) then [ref] else []) ++ N). split; [by destruct (todo (GC_REF_COLOR h ref))|].
  split; [exact (visited_trans _ _ _ _ _ _ _ _ _ _ Htc H1 H2)|]. split.
  - intros b [Hb|Hb]%elem_of_app; [|right; by apply HN]. destruct (todo (GC_REF_COLOR h ref)); [|by apply elem_of_nil in Hb].
    apply list_elem_of_singleton in Hb as ->. by left.
  - intros b [->|Hb]%elem_of_cons; [|by apply Hs]. apply (visited_seen delta todo c h1 h2 N (omap Z_COLLECTABLE zs)); [done|done|left].
    apply (visited_seen delta todo c h h1 _ _ ref Htc H1). destruct (todo (GC_REF_COLOR h ref)) eqn:Et; [right; by left|by left].
Qed.

(** [tables] is the properties table entered along with the object, if it was new. *)
Lemma visit_children_ok push ref h : graph_ok (types_of h) -> heap_ok h -> ref ∈ dom h ->
  exists h' pushed found tables,
    visit_children w visit push ref h = (h', (pushed, found)) /\
    let N := (if push then [] else tables) ++ pushed ++ found in
    visited delta todo c h h' N (edges (types_of h) (ref :: tables)) /\
    (forall b, b ∈ edges (types_of h) (ref :: tables) -> todo (GC_REF_COLOR h' b) = false) /\
    (forall b, b ∈ N -> succ (types_of h) ref b \/ exists a, a ∈ tables /\ a ∈ N /\ succ (types_of h) ref a /\ succ (types_of h) a b) /\
    (forall a, a ∈ tables -> a ∈ N /\ exists obj, types_of h !! ref = Some (IS_OBJECT obj) /\ IS_OBJ_FREE_CALLED obj = false /\ (get_gc obj).1 = Some a).
Proof.
  intros Hg Ho Hin. destruct Hvisit as (Hc & Htc & Hv). set (ts := types_of h) in *.
  assert (forall b, succ ts ref b -> b ∈ dom h) as Hcl by (intros b Hb; rewrite <- types_dom; by apply (go_closed _ Hg ref)).
  assert (forall zs, children ts ref = omap Z_COLLECTABLE zs -> forall h' N, visit_zvals visit zs h = (h', N) ->
    exists h1 pushed found tables, (h', ([], N)) = (h1, (pushed, found)) /\
    let N := (if push then [] else tables) ++ pushed ++ found in
    visited delta todo c h h1 N (edges ts (ref :: tables)) /\ (forall b, b ∈ edges ts (ref :: tables) -> todo (GC_REF_COLOR h1 b) = false) /\
    (forall b, b ∈ N -> succ ts ref b \/ exists a, a ∈ tables /\ a ∈ N /\ succ ts ref a /\ succ ts a b) /\
    (forall a, a ∈ tables -> a ∈ N /\ exists obj, ts !! ref = Some (IS_OBJECT obj) /\ IS_OBJ_FREE_CALLED obj = false /\ (get_gc obj).1 = Some a)) as Hplain.
  { intros zs Hzs h' N Hvz. destruct (visit_zvals_ok zs h Ho) as (h1 & N1 & E1 & H1 & HN1 & Hs1).
    { intros b Hb. apply Hcl. unfold succ. by rewrite Hzs. }
    rewrite Hvz in E1. injection E1 as <- <-. exists h', [], N, []. split; [done|]. cbv zeta. rewrite edges_cons, edges_nil, app_nil_r, Hzs.
    replace ((if push then [] else []) ++ [] ++ N) with N by (by destruct push).
    split; [done|]. split; [done|]. split; [intros b Hb; left; unfold succ; rewrite Hzs; by apply HN1|]. intros a Ha. by apply elem_of_nil in Ha. }
  unfold visit_children. rewrite <- types_lookup. fold ts.
  destruct (ts !! ref) as [[t|obj|val|]|] eqn:Ht.
  - destruct (visit_zvals visit (ht_zvals w t) h) as [h' N] eqn:Ez. apply (Hplain (ht_zvals w t)); [|done]. unfold children. by rewrite Ht.
  - assert (children ts ref = if IS_OBJ_FREE_CALLED obj then [] else option_list (get_gc obj).1 ++ omap Z_COLLECTABLE (get_gc obj).2) as Hch
      by (unfold children; by rewrite Ht).
    destruct (IS_OBJ_FREE_CALLED obj) eqn:Hfree.
    { apply (Hplain []); [by rewrite Hch|done]. }
    destruct (get_gc obj) as [[ht|] zs] eqn:Hget; cbn [fst snd option_list] in Hch.
    2: { destruct (visit_zvals visit zs h) as [h' N] eqn:Ez. by apply (Hplain zs). }
    destruct (Hv ht h) as [H1 Hn]; [apply Hcl; unfold succ; rewrite Hch; by left|done|].
    destruct (visit ht h) as [h1 new]. cbn in H1, Hn. subst new.
    assert (types_of h1 = ts) as Ets1 by apply H1.
    destruct (visit_zvals_ok zs h1) as (h2 & N2 & E2 & H2 & HN2 & Hs2).
    { apply H1. } { intros b Hb. rewrite (visited_dom _ _ _ _ _ _ _ H1). apply Hcl. unfold succ. rewrite Hch. by right. }
    pose proof (visited_trans _ _ _ _ _ _ _ _ _ _ Htc H1 H2) as H12.
    destruct (todo (GC_REF_COLOR h ht)) eqn:Et.
    + rewrite E2. destruct (go_table _ Hg ref obj ht Ht) as [t Htab]; [done|by rewrite Hget|].
      assert (table_zvals w h2 ht = ht_zvals w t) as Etz.
      { unfold table_zvals. rewrite <- types_lookup, (vs_types _ _ _ _ _ _ _ H2), Ets1, Htab. done. }
      assert (children ts ht = omap Z_COLLECTABLE (ht_zvals w t)) as Hcht by (unfold children; by rewrite Htab).
      destruct (visit_zvals_ok (ht_zvals w t) h2) as (h3 & N3 & E3 & H3 & HN3 & Hs3).
      { apply H2. } { intros b Hb. rewrite (visited_dom _ _ _ _ _ _ _ H12), <- types_dom. apply (go_closed _ Hg ht). unfold succ. by rewrite Hcht. }
      rewrite Etz, E3. exists h3, (if push then ht :: N2 else N2), N3, [ht]. split; [done|]. cbv zeta.
      assert ((if push then [] else [ht]) ++ (if push then ht :: N2 else N2) ++ N3 = ([ht] ++ N2) ++ N3) as -> by (by destruct push).
      pose proof (visited_trans _ _ _ _ _ _ _ _ _ _ Htc H12 H3) as H123.
      assert (edges ts [ref; ht] = ([ht] ++ omap Z_COLLECTABLE zs) ++ omap Z_COLLECTABLE (ht_zvals w t)) as Eed
        by (rewrite !edges_cons, edges_nil, app_nil_r, Hch, Hcht; done).
      rewrite Eed. split; [done|]. split; [|split].
      * intros b [[Hb|Hb]%elem_of_app|Hb]%elem_of_app; [| |by apply Hs3];
          (apply (visited_seen delta todo c h2 h3 _ _ b Htc H3); left).
        -- apply (visited_seen delta todo c h1 h2 _ _ b Htc H2). left. apply (visited_seen delta todo c h h1 _ _ b Htc H1). by right.
        -- by apply Hs2.
      * intros b [[Hb|Hb]%elem_of_app|Hb]%elem_of_app.
        -- left. unfold succ. rewrite Hch. apply list_elem_of_singleton in Hb as ->. by left.
        -- left. unfold succ. rewrite Hch. right. by apply HN2.
        -- right. exists ht. split; [by left|]. split; [by apply elem_of_app; left; left|]. split; [unfold succ; rewrite Hch; by left|].
           unfold succ. rewrite Hcht. by apply HN3.
      * intros a ->%list_elem_of_singleton. split; [by apply elem_of_app; left; left|]. exists obj. by rewrite Hget.
    + rewrite E2. exists h2, [], N2, []. split; [done|]. cbv zeta. rewrite edges_cons, edges_nil, app_nil_r, Hch.
      replace ((if push then [] else []) ++ [] ++ N2) with N2 by (by destruct push). cbn [app] in H12. split; [done|]. split; [|split].
      * intros b [Hb|Hb]%elem_of_app; [|by apply Hs2]. apply list_elem_of_singleton in Hb as ->.
        apply (visited_seen delta todo c h1 h2 _ _ ht Htc H2). left. apply (visited_seen delta todo c h h1 _ _ ht Htc H1). by left.
      * intros b Hb. left. unfold succ. rewrite Hch. right. by apply HN2.
      * intros a Ha. by apply elem_of_nil in Ha.
  - destruct (visit_zvals visit [val] h) as [h' N] eqn:Ez. apply (Hplain [val]); [|done]. unfold children. by rewrite Ht.
  - apply (Hplain []); [unfold children; by rewrite Ht|done].
  - exfalso. rewrite <- types_dom in Hin. fold ts in Hin. by apply not_elem_of_dom in Ht.
Qed.

(** * Whole traversals *)

(** A path over nodes that need a visit. *)
Definition todo_step h (a b : Z) : Prop := succ (types_of h) a b /\ todo (GC_REF_COLOR h b) = true.

Lemma rtc_todo_mono h h' N L a b : visited delta todo c h h' N L -> rtc (todo_step h') a b -> rtc (todo_step h) a b.
Proof.
  intros Hv. destruct Hvisit as (_ & Htc & _). apply rtc_subrel. intros x y [Hs Ht]. rewrite (vs_types _ _ _ _ _ _ _ Hv) in Hs. split; [done|].
  rewrite (vs_color _ _ _ _ _ _ _ Hv) in Ht. destruct (decide (y ∈ N)); [congruence|done].
Qed.

(** What is left to be visited, as a bound. *)
Definition todo_within h (U : gset Z) : Prop := forall b, b ∈ dom h -> todo (GC_REF_COLOR h b) = true -> b ∈ U.

Lemma visited_within h h' N L U : visited delta todo c h h' N L -> todo_within h U ->
  todo_within h' (U ∖ list_to_set N) /\ (size (U ∖ list_to_set N) + length N = size U)%nat.
Proof.
  intros Hv HU. destruct Hvisit as (_ & Htc & _). split.
  - intros b Hb Ht. rewrite (visited_dom _ _ _ _ _ _ _ Hv) in Hb. rewrite (vs_color _ _ _ _ _ _ _ Hv) in Ht.
    destruct (decide (b ∈ N)) as [|Hn]; [congruence|]. apply elem_of_difference. split; [by apply HU|]. by rewrite elem_of_list_to_set.
  - assert (list_to_set N ⊆ U) as Hs by (intros b Hb%elem_of_list_to_set; destruct (vs_new _ _ _ _ _ _ _ Hv b Hb); by apply HU).
    rewrite size_difference by done. rewrite size_list_to_set by apply Hv. apply subseteq_size in Hs.
    rewrite size_list_to_set in Hs by apply Hv. lia.
Qed.

Lemma next_refs_perm pushed found stack : next_refs pushed found stack ≡ₚ pushed ++ found ++ stack.
Proof.
  unfold next_refs. destruct found as [|ref found]; [by rewrite reverse_Permutation|]. rewrite !reverse_Permutation.
  change (pushed ++ (ref :: found) ++ stack) with (pushed ++ [ref] ++ found ++ stack). solve_Permutation.
Qed.

(** The nodes [refs] are visited along with those discovered on the way, [N]:
    every edge of these is counted once, none of them leads to a node that
    needs a visit, and each is reached over nodes that needed one. *)
Definition traversed h h' (refs N : list Z) : Prop :=
  visited delta todo c h h' N (edges (types_of h) (refs ++ N)) /\
  (forall a b, a ∈ refs ++ N -> succ (types_of h) a b -> todo (GC_REF_COLOR h' b) = false) /\
  (forall b, b ∈ N -> exists a, a ∈ refs /\ rtc (todo_step h) a b).

Lemma traversed_perm h h' refs refs' N : refs ≡ₚ refs' -> traversed h h' refs N -> traversed h h' refs' N.
Proof.
  intros HP (Hv & Hs & Hr). split; [|split].
  - destruct Hv. split; try done. intros b. rewrite vs_count0. do 3 f_equal. apply occ_perm, edges_perm. by rewrite HP.
  - intros a b. rewrite <- HP. apply Hs.
  - intros b Hb. destruct (Hr b Hb) as (a & Ha & Hp). exists a. by rewrite <- HP.
Qed.

(** One node and its table, then the rest. *)
Lemma traversed_step h h1 h2 ref tables rest stack N1 N2 : graph_ok (types_of h) ->
  N1 ≡ₚ tables ++ rest ->
  visited delta todo c h h1 N1 (edges (types_of h) (ref :: tables)) ->
  (forall b, b ∈ edges (types_of h) (ref :: tables) -> todo (GC_REF_COLOR h1 b) = false) ->
  (forall b, b ∈ N1 -> succ (types_of h) ref b \/ exists a, a ∈ tables /\ a ∈ N1 /\ succ (types_of h) ref a /\ succ (types_of h) a b) ->
  traversed h1 h2 (rest ++ stack) N2 -> traversed h h2 (ref :: stack) (N1 ++ N2).
Proof.
  intros Hg HN1 H1 Hs1 HN (H2 & Hs2 & Hr2). destruct Hvisit as (_ & Htc & _). pose proof (vs_types _ _ _ _ _ _ _ H1) as Ets.
  rewrite Ets in *.
  assert (forall b, b ∈ N1 -> rtc (todo_step h) ref b) as HrN1.
  { intros b Hb. destruct (HN b Hb) as [Hb'|(a & _ & Ha & Hra & Hab)].
    - apply rtc_once. split; [done|]. by apply (vs_new _ _ _ _ _ _ _ H1).
    - apply (rtc_l _ _ a); [split; [done|by apply (vs_new _ _ _ _ _ _ _ H1)]|]. apply rtc_once. split; [done|]. by apply (vs_new _ _ _ _ _ _ _ H1). }
  split; [|split].
  - pose proof (visited_trans _ _ _ _ _ _ _ _ _ _ Htc H1 H2) as H12. destruct H12. split; try done.
    intros b. rewrite vs_count0. do 3 f_equal. apply occ_perm. rewrite <- edges_app. apply edges_perm. rewrite HN1. solve_Permutation.
  - intros a b Ha Hab. assert (a ∈ ref :: tables \/ a ∈ (rest ++ stack) ++ N2) as [Hin|Hin].
    { revert Ha. cbn [app]. rewrite !elem_of_cons, !elem_of_app, HN1, !elem_of_app. tauto. }
    + apply (visited_seen delta todo c h1 h2 _ _ b Htc H2). left. apply Hs1, elem_of_edges. by exists a.
    + by apply (Hs2 a).
  - intros b [Hb|Hb]%elem_of_app; [exists ref; split; [by left|by apply HrN1]|].
    destruct (Hr2 b Hb) as (a & [Ha|Ha]%elem_of_app & Hp); apply (rtc_todo_mono h h1 _ _ _ _ H1) in Hp.
    + exists ref. split; [by left|]. etrans; [|exact Hp]. apply HrN1. rewrite HN1. by apply elem_of_app; right.
    + exists a. split; [by right|done].
Qed.

Lemma traverse_ok n : forall ref stack h U, graph_ok (types_of h) -> heap_ok h -> (forall a, a ∈ ref :: stack -> a ∈ dom h) ->
  todo_within h U -> (size U + length stack < n)%nat ->
  exists h' N, traverse_from w visit n ref stack h = Some h' /\ traversed h h' (ref :: stack) N.
Proof.
  induction n as [|n IH]; intros ref stack h U Hg Ho Hin HU Hn; [lia|]. cbn [traverse_from].
  destruct (visit_children_ok false ref h Hg Ho (Hin ref ltac:(by left)))
    as (h1 & pushed & found & tables & Ev & H1 & Hs1 & HN1 & Htab). rewrite Ev. cbv zeta in *.
  set (N1 := tables ++ pushed ++ found) in *.
  assert (types_of h1 = types_of h) as Ets by apply H1.
  destruct (visited_within _ _ _ _ U H1 HU) as [HU1 Hsize].
  pose proof (next_refs_perm pushed found stack) as HP.
  destruct (next_refs pushed found stack) as [|ref' stack'] eqn:En.
  - apply Permutation_nil_l in HP. symmetry in HP. exists h1, (N1 ++ []). split; [done|].
    apply app_nil in HP as [Hp0 HP]. apply app_nil in HP as [Hf0 Hst]. subst.
    apply (traversed_step h h1 h1 ref tables [] [] N1 []); [done|by unfold N1|done|done|done|].
    split; [|split].
    + apply visited_refl, H1.
    + intros a b Ha. by apply elem_of_nil in Ha.
    + intros b Hb. by apply elem_of_nil in Hb.
  - destruct (IH ref' stack' h1 (U ∖ list_to_set N1)) as (h2 & N2 & E2 & H2).
    + by rewrite Ets.
    + apply H1.
    + intros a. rewrite HP, (visited_dom _ _ _ _ _ _ _ H1). intros [Ha|[Ha|Ha]%elem_of_app]%elem_of_app; [| |apply Hin; by right];
        destruct (vs_new _ _ _ _ _ _ _ H1 a) as [_ ?]; try done; unfold N1; set_solver.
    + done.
    + apply Permutation_length in HP. assert (length N1 = length tables + (length pushed + length found))%nat by (unfold N1; by rewrite !length_app).
      rewrite !length_app in HP. cbn [length] in HP. lia.
    + exists h2, (N1 ++ N2). split; [done|].
      apply (traversed_step h h1 h2 ref tables (pushed ++ found) stack N1 N2); try done.
      apply (traversed_perm h1 h2 (ref' :: stack')); [|done]. rewrite HP. by rewrite <- app_assoc.
Qed.
End Visitor.

(** * The four visitors *)

Lemma visited_node delta (todo : Z -> bool) c h ref r r' : h !! ref = Some r -> heap_ok h -> GC_TYPE r' = GC_TYPE r -> node_ok r' ->
  Z.land (GC_INFO r') GC_ADDRESS = Z.land (GC_INFO r) GC_ADDRESS ->
  Z.land (GC_INFO r') GC_COLOR = (if todo (Z.land (GC_INFO r) GC_COLOR) then c else Z.land (GC_INFO r) GC_COLOR) ->
  GC_REFCOUNT r' = u32 (GC_REFCOUNT r + delta) ->
  visited delta todo c h (<[ref := r']> h) (if todo (GC_REF_COLOR h ref) then [ref] else []) [ref].
Proof.
  intros Hr Ho Ht Hok Ha Hc Hn.
  assert (forall b, info_of (<[ref := r']> h) b = if decide (b = ref) then GC_INFO r' else info_of h b) as Hi.
  { intros b. unfold info_of. destruct (decide (b = ref)) as [->|]; [by rewrite lookup_insert_eq|by rewrite lookup_insert_ne]. }
  assert (info_of h ref = GC_INFO r) as Hir by (unfold info_of; by rewrite Hr).
  split.
  - apply map_eq. intros b. rewrite !types_lookup. destruct (decide (b = ref)) as [->|]; [rewrite lookup_insert_eq, Hr; cbn; by rewrite Ht|by rewrite lookup_insert_ne].
  - intros b rb [[<- <-]|[_ Hb]]%lookup_insert_Some; [done|by apply (Ho b)].
  - intros b. unfold GC_REF_ADDRESS. rewrite Hi. destruct (decide (b = ref)) as [->|]; [by rewrite Hir|done].
  - destruct (todo (GC_REF_COLOR h ref)); [apply NoDup_singleton|constructor].
  - intros b Hb. destruct (todo (GC_REF_COLOR h ref)) eqn:Et; [|by apply elem_of_nil in Hb]. apply list_elem_of_singleton in Hb as ->.
    split; [done|by apply elem_of_dom_2 in Hr].
  - intros b. unfold GC_REF_COLOR at 1. rewrite Hi. unfold GC_REF_COLOR. rewrite Hir. destruct (todo (Z.land (GC_INFO r) GC_COLOR)) eqn:Et.
    + destruct (decide (b = ref)) as [->|Hne]; [by rewrite decide_True by (by left)|].
      rewrite decide_False; [done|]. by intros ?%list_elem_of_singleton.
    + rewrite (decide_False (P := b ∈ [])) by (by intros ?%elem_of_nil). destruct (decide (b = ref)) as [->|]; [by rewrite Hc, Hir|done].
  - intros b. rewrite occ_cons, occ_nil, Z.add_0_r. unfold refcount_of. destruct (decide (b = ref)) as [->|Hne].
    + rewrite lookup_insert_eq, Hr, decide_True by done. cbn. rewrite Hn. f_equal. lia.
    + rewrite lookup_insert_ne, decide_False by done. rewrite Z.mul_0_r, Z.add_0_r. symmetry. apply u32_small. by apply heap_ok_count.
Qed.

Lemma alter_lookup (f : zend_refcounted V -> zend_refcounted V) a r h : h !! a = Some r -> alter f a h = <[a := f r]> h.
Proof.
  intros Ha. apply map_eq. intros b. destruct (decide (a = b)) as [<-|].
  - by rewrite lookup_alter_eq, lookup_insert_eq, Ha.
  - by rewrite lookup_alter_ne, lookup_insert_ne.
Qed.

Lemma recolor_range x cl : 0 <= x < 2 ^ 22 -> is_color cl -> 0 <= Z.lor (Z.ldiff x GC_COLOR) cl < 2 ^ 22.
Proof.
  intros Hx Hc. apply lor_range; [lia| |destruct Hc as [->|[->|[->| ->]]]; done].
  split; [apply Z.ldiff_nonneg; left; lia|]. apply (Z.le_lt_trans _ x); [|lia]. apply Z.ldiff_le; [lia|].
  apply Z.bits_inj_0. intros i. rewrite !Z.ldiff_spec. destruct (Z.testbit x i), (Z.testbit GC_COLOR i); done.
Qed.

Lemma set_color_black ref h : GC_REF_SET_BLACK ref h = GC_REF_SET_COLOR ref GC_BLACK h.
Proof. unfold GC_REF_SET_BLACK, GC_REF_SET_COLOR, GC_BLACK. apply map_eq. intros b. destruct (decide (ref = b)) as [<-|]; [|by rewrite !lookup_alter_ne].
  rewrite !lookup_alter_eq. destruct (h !! ref); cbn; [by rewrite Z.lor_0_r|done]. Qed.

(** Change the count, then perhaps the colour. *)
Lemma count_color_visitor delta (todo : Z -> bool) c h ref : is_color c -> todo c = false -> ref ∈ dom h -> heap_ok h ->
  let h1 := alter (fun r => set_GC_REFCOUNT (u32 (GC_REFCOUNT r + delta)) r) ref h in
  let color := GC_REF_COLOR h ref in
  GC_REF_COLOR h1 ref = color /\
  visited delta todo c h (if todo color then GC_REF_SET_COLOR ref c h1 else h1) (if todo color then [ref] else []) [ref].
Proof.
  intros Hc Htc [r Hr]%elem_of_dom Ho h1 color. pose proof (Ho ref r Hr) as [Hrc Hri].
  unfold h1. rewrite (alter_lookup _ ref r h Hr). set (r1 := set_GC_REFCOUNT _ r). set (h2 := <[ref := r1]> h).
  assert (h2 !! ref = Some r1) as Hr2 by apply lookup_insert_eq.
  assert (color = Z.land (GC_INFO r) GC_COLOR) as Ecol by (unfold color, GC_REF_COLOR, info_of; by rewrite Hr).
  split; [unfold GC_REF_COLOR at 1, info_of; by rewrite Hr2|]. rewrite Ecol.
  destruct (todo (Z.land (GC_INFO r) GC_COLOR)) eqn:Et.
  - unfold GC_REF_SET_COLOR. rewrite (alter_lookup _ ref r1 h2 Hr2). unfold h2. rewrite insert_insert_eq.
    set (r2 := set_GC_INFO _ r1). replace [ref] with (if todo (GC_REF_COLOR h ref) then [ref] else []) at 1 by (fold color; by rewrite Ecol, Et).
    destruct (info_recolor (GC_INFO r) c Hc) as [E1 E2].
    apply (visited_node _ _ _ _ ref r r2 Hr Ho); [done|split; [apply u32_range|by apply recolor_range]|exact E1|rewrite Et; exact E2|done].
  - replace (@nil Z) with (if todo (GC_REF_COLOR h ref) then [ref] else []) at 1 by (fold color; by rewrite Ecol, Et).
    apply (visited_node _ _ _ _ ref r r1 Hr Ho); [done|split; [apply u32_range|done]|done|by rewrite Et|done].
Qed.

Definition not_color (c d : Z) : bool := negb (d =? c).
Definition same_color (c d : Z) : bool := d =? c.

Lemma grey_visitor : visitor (-1) (not_color GC_GREY) GC_GREY grey_child.
Proof.
  split; [unfold is_color; tauto|]. split; [done|]. intros ref h Hin Ho.
  destruct (count_color_visitor (-1) (not_color GC_GREY) GC_GREY h ref ltac:(unfold is_color; tauto) eq_refl Hin Ho) as [Ec Hv].
  unfold grey_child, GC_DELREF, GC_REF_CHECK_COLOR. change (fun r : zend_refcounted V => set_GC_REFCOUNT (u32 (GC_REFCOUNT r - 1)) r)
    with (fun r : zend_refcounted V => set_GC_REFCOUNT (u32 (GC_REFCOUNT r + -1)) r). cbv zeta in *. rewrite Ec. unfold not_color in *. by destruct (negb _).
Qed.

Lemma black_visitor : visitor 1 (not_color GC_BLACK) GC_BLACK black_child.
Proof.
  split; [unfold is_color; tauto|]. split; [done|]. intros ref h Hin Ho.
  destruct (count_color_visitor 1 (not_color GC_BLACK) GC_BLACK h ref ltac:(unfold is_color; tauto) eq_refl Hin Ho) as [Ec Hv].
  unfold black_child, GC_ADDREF, GC_REF_CHECK_COLOR. cbv zeta in *. rewrite Ec. unfold not_color in *. rewrite set_color_black. by destruct (negb _).
Qed.

Lemma garbage_visitor : visitor 1 (same_color GC_WHITE) GC_BLACK garbage_child.
Proof.
  split; [unfold is_color; tauto|]. split; [done|]. intros ref h Hin Ho.
  destruct (count_color_visitor 1 (same_color GC_WHITE) GC_BLACK h ref ltac:(unfold is_color; tauto) eq_refl Hin Ho) as [Ec Hv].
  unfold garbage_child, GC_ADDREF, GC_REF_CHECK_COLOR. cbv zeta in *. rewrite Ec. unfold same_color in *. rewrite set_color_black. by destruct (_ =? _).
Qed.

Lemma white_visitor : visitor 0 (same_color GC_GREY) GC_WHITE white_child.
Proof.
  split; [unfold is_color; tauto|]. split; [done|]. intros ref h Hin Ho.
  destruct (count_color_visitor 0 (same_color GC_GREY) GC_WHITE h ref ltac:(unfold is_color; tauto) eq_refl Hin Ho) as [Ec Hv].
  assert (alter (fun r => set_GC_REFCOUNT (u32 (GC_REFCOUNT r + 0)) r) ref h = h) as Eh.
  { apply map_eq. intros b. destruct (decide (ref = b)) as [<-|]; [|by rewrite lookup_alter_ne]. rewrite lookup_alter_eq.
    destruct (h !! ref) as [r|] eqn:Hr; [|done]. cbn. destruct (Ho ref r Hr). rewrite Z.add_0_r, u32_small by done. by destruct r. }
  unfold white_child, GC_REF_CHECK_COLOR. cbv zeta in *. rewrite Eh in *. unfold same_color in *. by destruct (_ =? _).
Qed.
End Visit.
