(* ===== verification/GcMark.v ===== *)
(** Marking and scanning (Zend/zend_gc.c, [gc_mark_roots] and [gc_scan_roots]):
    after the first pass the grey nodes are those reachable from the roots, less
    the counts of their inner references; after the second one, white are those
    that nothing outside of them holds. *)

From stdpp Require Import base numbers list gmap relations.
From S2P Require Import Prelude ZendTypes HashTable HashOps GcBuffer GcRoots GcCompact GcGraph GcVisit.

Section Mark.
Context {V : Type} {E : ZEnv V} {C : Collectable V} (w : EG V).
Implicit Types (h : gmap Z (zend_refcounted V)).

(** * Traversing from a node that has just been coloured *)

Lemma visited_recolor delta (todo : Z -> bool) c h ref : is_color c -> todo (GC_REF_COLOR h ref) = true -> ref ∈ dom h -> heap_ok h ->
  visited delta todo c h (GC_REF_SET_COLOR ref c h) [ref] [].
Proof.
  intros Hc Ht [r Hr]%elem_of_dom Ho. pose proof (Ho ref r Hr) as [Hrc Hri].
  assert (todo (Z.land (GC_INFO r) GC_COLOR) = true) as Ht' by (unfold GC_REF_COLOR, info_of in Ht; by rewrite Hr in Ht).
  unfold GC_REF_SET_COLOR. rewrite (alter_lookup _ ref r h Hr). destruct (info_recolor (GC_INFO r) c Hc) as [E1 E2].
  pose proof (visited_node 0 todo c h ref r (set_GC_INFO (Z.lor (Z.ldiff (GC_INFO r) GC_COLOR) c) r) Hr Ho eq_refl) as Hv.
  rewrite Ht, Ht' in Hv. destruct Hv; [split; [done|by apply recolor_range]|done|done|cbn; by rewrite Z.add_0_r, u32_small|].
  split; try done. intros b. rewrite vs_count. f_equal. rewrite occ_nil. lia.
Qed.

Lemma traverse_start delta todo c visit n ref h (U : gset Z) : visitor delta todo c visit ->
  graph_ok w (types_of h) -> heap_ok h -> ref ∈ dom h -> todo (GC_REF_COLOR h ref) = true -> todo_within todo h U -> (size U <= n)%nat ->
  exists h' N, traverse_from w visit n ref [] (GC_REF_SET_COLOR ref c h) = Some h' /\
    visited delta todo c h h' (ref :: N) (edges w (types_of h) (ref :: N)) /\
    (forall a b, a ∈ ref :: N -> succ w (types_of h) a b -> todo (GC_REF_COLOR h' b) = false) /\
    (forall b, b ∈ N -> rtc (todo_step w todo h) ref b).
Proof.
  intros Hvis Hg Ho Hin Ht HU Hn. pose proof (visited_recolor delta todo c h ref (proj1 Hvis) Ht Hin Ho) as H1.
  pose proof (vs_types _ _ _ _ _ _ _ H1) as Ets. set (h1 := GC_REF_SET_COLOR ref c h) in *.
  destruct (visited_within delta todo c visit Hvis h h1 _ _ U H1 HU) as [HU1 Hs1]. cbn [length] in Hs1.
  destruct (traverse_ok w delta todo c visit Hvis n ref [] h1 (U ∖ list_to_set [ref])) as (h2 & N & E2 & (H2 & Hs2 & Hr2)).
  - by rewrite Ets.
  - apply H1.
  - intros a Ha%list_elem_of_singleton. subst a. by rewrite (visited_dom _ _ _ _ _ _ _ H1).
  - done.
  - cbn [length]. lia.
  - exists h2, N. split; [done|]. rewrite Ets in *. cbn [app] in *. split; [|split; [done|]].
    + exact (visited_trans _ _ _ _ _ _ _ _ _ _ (proj1 (proj2 Hvis)) H1 H2).
    + intros b Hb. destruct (Hr2 b Hb) as (a & ->%list_elem_of_singleton & Hp). by apply (rtc_todo_mono w delta todo c visit Hvis _ _ _ _ _ _ H1) in Hp.
Qed.

Lemma dom_within todo h : todo_within todo h (dom h).
Proof. by intros b Hb _. Qed.
Lemma fuel_dom h : (size (dom h) <= fuel_of h)%nat.
Proof. unfold fuel_of. rewrite size_dom. lia. Qed.

Lemma succ_rtc_closed ts (P : Z -> Prop) a b : (forall x y, P x -> succ w ts x y -> P y) -> P a -> rtc (succ w ts) a b -> P b.
Proof. intros Hc Ha Hp. induction Hp as [|x y z Hxy _ IH]; [done|]. apply IH. by apply (Hc x). Qed.

Lemma todo_step_succ todo h a b : rtc (todo_step w todo h) a b -> rtc (succ w (types_of h)) a b.
Proof. apply rtc_subrel. by intros x y [? _]. Qed.

(** * Marking *)

(** The roots at the indices [cur, ..., cur + n - 1]. *)
Definition root_in g (cur : Z) (n : nat) (r : Z) : Prop := exists i, cur <= i < cur + Z.of_nat n /\ entry g i = r.

(** The nodes [S] have been marked; [R] are roots. *)
Record marked (R : Z -> Prop) h0 h (S : list Z) : Prop := {
  md_visited : visited (-1) (not_color GC_GREY) GC_GREY h0 h S (edges w (types_of h0) S);
  md_closed a b : a ∈ S -> succ w (types_of h0) a b -> b ∈ S;
  md_reach b : b ∈ S -> exists r, R r /\ rtc (succ w (types_of h0)) r b
}.

Lemma mark_roots_loop_ok (R : Z -> Prop) h0 g n : forall cur h S, graph_ok w (types_of h0) ->
  (forall b, GC_REF_COLOR h0 b <> GC_GREY) ->
  (forall r, root_in g cur n r -> R r /\ r ∈ dom h0 /\ GC_IS_ROOT r = true /\ GC_REF_COLOR h0 r = GC_PURPLE) ->
  marked R h0 h S ->
  exists h' S', mark_roots_loop w n cur (h, g) = Some (h', g) /\ marked R h0 h' (S ++ S') /\ (forall r, root_in g cur n r -> r ∈ S ++ S').
Proof.
  induction n as [|n IH]; intros cur h S Hg Hng HR [Hv Hc Hr]; cbn [mark_roots_loop].
  { exists h, []. rewrite app_nil_r. split; [done|]. split; [done|]. intros r (i & Hi & _). lia. }
  pose proof (vs_types _ _ _ _ _ _ _ Hv) as Ets.
  destruct (HR (entry g cur)) as (HRr & Hin & Hroot & Hpurple); [exists cur; split; [lia|done]|]. set (ref := entry g cur) in *.
  assert (forall r, root_in g (cur + 1) n r -> root_in g cur (Datatypes.S n) r) as Hsub by (intros r (i & Hi & Er); exists i; split; [lia|done]).
  assert (forall r (S' : list Z), ref ∈ S' -> (forall r, root_in g (cur + 1) n r -> r ∈ S') -> root_in g cur (Datatypes.S n) r -> r ∈ S') as Hall.
  { intros r S' Hin' Hrest (i & Hi & <-). destruct (decide (i = cur)) as [->|]; [done|]. apply Hrest. exists i. split; [lia|done]. }
  rewrite Hroot. unfold GC_REF_CHECK_COLOR. rewrite (vs_color _ _ _ _ _ _ _ Hv), Hpurple.
  destruct (decide (ref ∈ S)) as [Hs|Hs]; cbn [andb].
  - change (GC_GREY =? GC_PURPLE) with false. cbn match. rewrite some_bind.
    destruct (IH (cur + 1) h S Hg Hng) as (h' & S' & -> & Hm & Hroots); [intros r Hr'; by apply HR, Hsub|by split|].
    exists h', S'. split; [done|]. split; [done|]. intros r. apply Hall; [|done]. apply elem_of_app. by left.
  - rewrite Z.eqb_refl. unfold gc_mark_grey.
    destruct (traverse_start (-1) (not_color GC_GREY) GC_GREY grey_child (fuel_of h) ref h (dom h) grey_visitor) as (h1 & N & -> & H1 & Hs1 & Hr1).
    + by rewrite Ets.
    + apply Hv.
    + by rewrite (visited_dom _ _ _ _ _ _ _ Hv).
    + rewrite (vs_color _ _ _ _ _ _ _ Hv), decide_False, Hpurple by done. done.
    + apply dom_within.
    + apply fuel_dom.
    + rewrite some_bind. rewrite Ets in *.
      assert (visited (-1) (not_color GC_GREY) GC_GREY h0 h1 (S ++ ref :: N) (edges w (types_of h0) (S ++ ref :: N))) as Hv1.
      { rewrite edges_app. exact (visited_trans _ _ GC_GREY _ _ _ _ _ _ _ eq_refl Hv H1). }
      destruct (IH (cur + 1) h1 (S ++ ref :: N) Hg Hng) as (h' & S' & -> & Hm & Hroots); [intros r Hr'; by apply HR, Hsub| |].
      * split; [done| |].
        -- intros a b [Ha|Ha]%elem_of_app Hab; [apply elem_of_app; left; by apply (Hc a)|].
           specialize (Hs1 a b Ha Hab). rewrite (vs_color _ _ _ _ _ _ _ Hv1) in Hs1. destruct (decide (b ∈ S ++ ref :: N)); [done|].
           unfold not_color in Hs1. apply negb_false_iff, Z.eqb_eq in Hs1. by apply Hng in Hs1.
        -- intros b [Hb|[->|Hb]%elem_of_cons]%elem_of_app; [by apply Hr|by exists ref|]. exists ref. split; [done|].
           apply Hr1, todo_step_succ in Hb. by rewrite Ets in Hb.
      * exists h', ((ref :: N) ++ S'). rewrite app_assoc. split; [done|]. split; [done|]. intros r. apply Hall; [|done].
        apply elem_of_app. left. apply elem_of_app. right. by left.
Qed.
End Mark.
