(* ===== verification/GcScan.v ===== *)
(** Scanning (Zend/zend_gc.c, [gc_scan] and [gc_scan_roots]): of the grey nodes
    those that are held from outside, and what they reach, become black and get
    the counts of their references back; the others become white. *)

From stdpp Require Import base numbers list gmap relations.
From S2P Require Import Prelude ZendTypes HashTable HashOps GcBuffer GcRoots GcCompact GcGraph GcVisit GcMark.

Section Scan.
Context {V : Type} {E : ZEnv V} {C : Collectable V} (w : EG V).
Implicit Types (h : gmap Z (zend_refcounted V)).

(** The heap [h1] after marking, the grey nodes [S]; counts that do not overflow
    when references of marked nodes are given back. *)
Context (h1 : gmap Z (zend_refcounted V)) (S : list Z).
Local Notation ts := (types_of h1).

Record greyed : Prop := {
  gy_graph : graph_ok w ts;
  gy_dom a : a ∈ S -> a ∈ dom h1;
  gy_color b : GC_REF_COLOR h1 b = if decide (b ∈ S) then GC_GREY else GC_BLACK;
  gy_closed a b : a ∈ S -> succ w ts a b -> b ∈ S;
  gy_room (B : list Z) b : NoDup B -> (forall x, x ∈ B -> x ∈ S) -> refcount_of h1 b + occ b (edges w ts B) < 2 ^ 32
}.
Context (Hgrey : greyed).

(** Held from outside of the marked nodes. *)
Definition held (e : Z) : Prop := e ∈ S /\ 0 < refcount_of h1 e.
Definition saved (b : Z) : Prop := exists e, held e /\ rtc (succ w ts) e b.

(** Black nodes [B], white nodes [W], of which [P] have to be scanned yet. *)
Record scanned h (B W P : list Z) : Prop := {
  sc_types : types_of h = ts;
  sc_ok : heap_ok h;
  sc_address b : GC_REF_ADDRESS h b = GC_REF_ADDRESS h1 b;
  sc_color b : GC_REF_COLOR h b = if decide (b ∈ B) then GC_BLACK else if decide (b ∈ W) then GC_WHITE else GC_REF_COLOR h1 b;
  sc_nodup : NoDup (B ++ W);
  sc_sub b : b ∈ B ++ W -> b ∈ S;
  sc_count b : refcount_of h b = u32 (refcount_of h1 b + occ b (edges w ts B));
  sc_closed a b : a ∈ B -> succ w ts a b -> b ∈ B;
  sc_saved b : b ∈ B -> saved b;
  sc_done a : a ∈ W -> a ∉ P -> refcount_of h1 a = 0 /\ (forall b, succ w ts a b -> b ∈ B ++ W);
  sc_pending a : a ∈ P -> a ∈ B ++ W
}.

Lemma sc_dom h B W P : scanned h B W P -> dom h = dom h1.
Proof. intros Hs. by rewrite <- !types_dom, (sc_types _ _ _ _ Hs). Qed.

Lemma sc_grey h B W P b : scanned h B W P -> GC_REF_COLOR h b = GC_GREY <-> b ∈ S /\ b ∉ B ++ W.
Proof.
  intros Hs. rewrite (sc_color _ _ _ _ Hs), (gy_color Hgrey), not_elem_of_app.
  destruct (decide (b ∈ B)), (decide (b ∈ W)), (decide (b ∈ S)); unfold GC_GREY, GC_BLACK, GC_WHITE; split; tauto || (intros; lia) || done.
Qed.

(** The count of a node that is not black is what marking left of it. *)
Lemma sc_outer h B W P a : scanned h B W P -> a ∉ B -> heap_ok h1 -> refcount_of h a = refcount_of h1 a.
Proof.
  intros Hs Ha Ho. rewrite (sc_count _ _ _ _ Hs), occ_not_elem, Z.add_0_r by
    (intros (b & Hb & Hab)%elem_of_edges; by apply Ha, (sc_closed _ _ _ _ Hs b)).
  apply u32_small. by apply heap_ok_count.
Qed.

(** ** A held node: it is saved with all it reaches *)

Lemma scan_black_step h B W P ref n : scanned h B W P -> heap_ok h1 -> ref ∈ W -> 0 < refcount_of h ref -> (size (dom h) <= n)%nat ->
  exists h' B' W', gc_scan_black w n ref [] (GC_REF_SET_BLACK ref h) = Some h' /\ scanned h' B' W' P /\
    (forall a, a ∈ B ++ W -> a ∈ B' ++ W') /\ ref ∉ W'.
Proof.
  intros Hs Ho Hw Hrc Hn. pose proof (sc_nodup _ _ _ _ Hs) as Hnd. apply NoDup_app in Hnd as (HnB & Hdis & HnW).
  assert (ref ∉ B) as HrB by (intros Hb; by apply (Hdis ref)).
  assert (GC_REF_COLOR h ref = GC_WHITE) as Ecol by (rewrite (sc_color _ _ _ _ Hs), decide_False, decide_True by done; done).
  assert (ref ∈ S) as HrS by (apply (sc_sub _ _ _ _ Hs), elem_of_app; by right).
  rewrite set_color_black. unfold gc_scan_black.
  destruct (traverse_start w 1 (not_color GC_BLACK) GC_BLACK black_child n ref h (dom h) black_visitor) as (h' & N & E' & Hv & Hcl & Hr).
  { rewrite (sc_types _ _ _ _ Hs). apply (gy_graph Hgrey). } { apply Hs. } { rewrite (sc_dom _ _ _ _ Hs). by apply (gy_dom Hgrey). } { by rewrite Ecol. } { apply dom_within. } { done. }
  rewrite (sc_types _ _ _ _ Hs) in *.
  assert (forall b, b ∈ ref :: N -> b ∈ S /\ b ∉ B) as HN.
  { intros b Hb. split.
    - apply (succ_rtc_closed w ts (fun x => x ∈ S) ref b); [intros x y; apply (gy_closed Hgrey)|done|].
      apply elem_of_cons in Hb as [->|Hb]; [done|]. apply Hr, todo_step_succ in Hb. by rewrite (sc_types _ _ _ _ Hs) in Hb.
    - intros HbB. destruct (vs_new _ _ _ _ _ _ _ Hv b Hb) as [Ht _]. rewrite (sc_color _ _ _ _ Hs), decide_True in Ht by done. done. }
  set (B' := B ++ ref :: N). set (W' := filter (fun b => b ∉ ref :: N) W).
  assert (forall b, b ∈ W' <-> b ∈ W /\ b ∉ ref :: N) as HW' by (intros b; unfold W'; rewrite list_elem_of_filter; tauto).
  assert (forall b, b ∈ B' <-> b ∈ B \/ b ∈ ref :: N) as HB' by (intros b; unfold B'; by rewrite elem_of_app).
  assert (saved ref) as Hsaved.
  { exists ref. split; [split; [done|]|done]. by rewrite <- (sc_outer _ _ _ _ ref Hs HrB Ho). }
  assert (forall a, a ∈ B ++ W -> a ∈ B' ++ W') as Hmono.
  { intros a. rewrite !elem_of_app, HB', HW'. destruct (decide (a ∈ ref :: N)); tauto. }
  exists h', B', W'. split; [exact E'|]. split; [|split; [done|]].
  2: { rewrite HW'. intros [_ Hf]. apply Hf. by left. }
  split.
  - rewrite (vs_types _ _ _ _ _ _ _ Hv). apply Hs.
  - apply Hv.
  - intros b. rewrite (vs_address _ _ _ _ _ _ _ Hv). apply Hs.
  - intros b. rewrite (vs_color _ _ _ _ _ _ _ Hv), (sc_color _ _ _ _ Hs).
    destruct (decide (b ∈ ref :: N)) as [Hb|Hb].
    + rewrite (decide_True (P := b ∈ B')); [done|]. apply HB'. by right.
    + destruct (decide (b ∈ B)); [rewrite decide_True; [done|apply HB'; by left]|].
      rewrite (decide_False (P := b ∈ B')) by (rewrite HB'; tauto).
      destruct (decide (b ∈ W)); [rewrite decide_True; [done|by apply HW']|]. rewrite decide_False; [done|]. rewrite HW'. tauto.
  - apply NoDup_app. split; [|split; [|by apply NoDup_filter]].
    + apply NoDup_app. split; [done|]. split; [|apply Hv]. intros b Hb Hb'. by apply (HN b Hb').
    + intros b [Hb|Hb]%HB' [HbW HbN]%HW'; [by apply (Hdis b)|done].
  - intros b [[Hb|Hb]%HB'|[Hb _]%HW']%elem_of_app; [apply (sc_sub _ _ _ _ Hs), elem_of_app; by left|by apply HN|].
    apply (sc_sub _ _ _ _ Hs), elem_of_app. by right.
  - intros b. rewrite (vs_count _ _ _ _ _ _ _ Hv), (sc_count _ _ _ _ Hs), u32_add. unfold B'. rewrite edges_app, occ_app. f_equal. lia.
  - intros a b [Ha|Ha]%HB' Hab; [apply HB'; left; by apply (sc_closed _ _ _ _ Hs a)|].
    specialize (Hcl a b Ha Hab). unfold not_color in Hcl. apply negb_false_iff, Z.eqb_eq in Hcl.
    rewrite (vs_color _ _ _ _ _ _ _ Hv) in Hcl. apply HB'. destruct (decide (b ∈ ref :: N)) as [|Hb]; [by right|left].
    rewrite (sc_color _ _ _ _ Hs) in Hcl. destruct (decide (b ∈ B)); [done|]. destruct (decide (b ∈ W)); [done|].
    rewrite (gy_color Hgrey), decide_True in Hcl; [done|]. apply (gy_closed Hgrey a); [by apply HN|done].
  - intros b [Hb|Hb]%HB'; [by apply (sc_saved _ _ _ _ Hs)|]. destruct Hsaved as (e & He & Hp). exists e. split; [done|].
    apply elem_of_cons in Hb as [->|Hb]; [done|]. etrans; [exact Hp|]. apply Hr, todo_step_succ in Hb. by rewrite (sc_types _ _ _ _ Hs) in Hb.
  - intros a [Ha _]%HW' HaP. destruct (sc_done _ _ _ _ Hs a Ha HaP) as [Hz Hc]. split; [done|]. intros b Hb. by apply Hmono, Hc.
  - intros a Ha. by apply Hmono, (sc_pending _ _ _ _ Hs).
Qed.

(** ** A node without outer references: its children are next *)

Lemma scan_white_step h B W P ref : scanned h B W (ref :: P) -> heap_ok h1 -> ref ∈ W -> refcount_of h ref = 0 ->
  exists h' pushed found, visit_children w white_child true ref h = (h', (pushed, found)) /\
    visited 0 (same_color GC_GREY) GC_WHITE h h' (pushed ++ found) (edges w ts [ref]) /\
    scanned h' B (W ++ pushed ++ found) (pushed ++ found ++ P).
Proof.
  intros Hs Ho Hw Hrc. pose proof (sc_nodup _ _ _ _ Hs) as Hnd. apply NoDup_app in Hnd as (HnB & Hdis & HnW).
  assert (ref ∉ B) as HrB by (intros Hb; by apply (Hdis ref)).
  assert (ref ∈ S) as HrS by (apply (sc_sub _ _ _ _ Hs), elem_of_app; by right).
  assert (refcount_of h1 ref = 0) as Hrc1 by (by rewrite <- (sc_outer _ _ _ _ ref Hs HrB Ho)).
  destruct (visit_children_ok w 0 (same_color GC_GREY) GC_WHITE white_child white_visitor true ref h) as (h' & pushed & found & tables & E' & Hv & Hcl & HN & Htab).
  { rewrite (sc_types _ _ _ _ Hs). apply (gy_graph Hgrey). } { apply Hs. } { rewrite (sc_dom _ _ _ _ Hs). by apply (gy_dom Hgrey). }
  cbv zeta in *. cbn [app] in *. set (N := pushed ++ found) in *. rewrite (sc_types _ _ _ _ Hs) in *.
  assert (forall b, b ∈ N -> b ∈ S /\ b ∉ B ++ W) as HNS.
  { intros b Hb. apply (sc_grey _ _ _ _ b Hs). destruct (vs_new _ _ _ _ _ _ _ Hv b Hb) as [Ht _]. by apply Z.eqb_eq in Ht. }
  exists h', pushed, found. split; [done|].
  assert (visited 0 (same_color GC_GREY) GC_WHITE h h' N (edges w ts [ref])) as Hv'.
  { destruct Hv. split; try done. }
  split; [done|]. rewrite (app_assoc pushed found P). fold N. split.
  - rewrite (vs_types _ _ _ _ _ _ _ Hv). apply Hs.
  - apply Hv.
  - intros b. rewrite (vs_address _ _ _ _ _ _ _ Hv). apply Hs.
  - intros b. rewrite (vs_color _ _ _ _ _ _ _ Hv), (sc_color _ _ _ _ Hs). destruct (decide (b ∈ N)) as [Hb|Hb].
    + destruct (HNS b Hb) as [_ Hn]. rewrite not_elem_of_app in Hn. rewrite decide_False by tauto. rewrite decide_True; [done|]. apply elem_of_app. by right.
    + destruct (decide (b ∈ B)); [done|]. destruct (decide (b ∈ W)), (decide (b ∈ W ++ N)) as [Hi|Hi]; try done; rewrite elem_of_app in Hi; tauto.
  - rewrite app_assoc. apply NoDup_app. split; [apply Hs|]. split; [|apply Hv]. intros b Hb Hb'. by apply (HNS b Hb').
  - intros b. rewrite app_assoc. intros [Hb|Hb]%elem_of_app; [by apply (sc_sub _ _ _ _ Hs)|by apply HNS].
  - intros b. rewrite (vs_count _ _ _ _ _ _ _ Hv'), (sc_count _ _ _ _ Hs), u32_add. f_equal. lia.
  - apply Hs.
  - apply Hs.
  - intros a Ha HaP. rewrite app_assoc. destruct (decide (a = ref)) as [->|Hne].
    + split; [done|]. intros b Hb. assert (b ∈ S) as HbS by (by apply (gy_closed Hgrey ref)).
      destruct (decide (b ∈ (B ++ W) ++ N)) as [|Hn]; [done|exfalso]. apply not_elem_of_app in Hn as [Hn1 Hn2].
      assert (same_color GC_GREY (GC_REF_COLOR h' b) = false) as Hc by (apply Hcl, elem_of_edges; exists ref; split; [by left|done]).
      rewrite (vs_color _ _ _ _ _ _ _ Hv), decide_False in Hc by done.
      assert (GC_REF_COLOR h b = GC_GREY) as Eg by (by apply (sc_grey _ _ _ _ b Hs)). by rewrite Eg in Hc.
    + apply elem_of_app in Ha as [Ha|Ha]; [|exfalso; apply HaP, elem_of_app; by left].
      destruct (sc_done _ _ _ _ Hs a Ha) as [Hz Hc]; [intros [?|?]%elem_of_cons; [done|]; apply HaP, elem_of_app; by right|].
      split; [done|]. intros b Hb. apply elem_of_app. left. by apply Hc.
  - intros a [Ha|Ha]%elem_of_app; rewrite app_assoc; apply elem_of_app; [by right|left]. apply (sc_pending _ _ _ _ Hs). by right.
Qed.

(** ** The loop *)

Lemma scanned_pending h B W P P' : scanned h B W P -> (forall a, a ∈ P -> a ∈ W -> a ∈ P') -> (forall a, a ∈ P' -> a ∈ B ++ W) -> scanned h B W P'.
Proof.
  intros Hs Hin Hsub. destruct Hs. split; try done. intros a Ha Hn. apply sc_done0; [done|]. intros HP. by apply Hn, Hin.
Qed.

Lemma gc_scan_ok fuel n : forall ref stack h B W (U : gset Z), scanned h B W (ref :: stack) -> heap_ok h1 ->
  (size (dom h1) <= fuel)%nat -> (forall b, b ∈ S -> b ∉ B ++ W -> b ∈ U) -> (size U + length stack < n)%nat ->
  exists h' B' W', gc_scan w fuel n ref stack h = Some h' /\ scanned h' B' W' [] /\ (forall a, a ∈ B ++ W -> a ∈ B' ++ W').
Proof.
  induction n as [|n IH]; intros ref stack h B W U Hs Ho Hfuel HU Hn; [lia|]. cbn [gc_scan].
  assert (forall h0 B0 W0, scanned h0 B0 W0 stack -> (forall a, a ∈ B ++ W -> a ∈ B0 ++ W0) ->
    exists h' B' W', match stack with [] => Some h0 | ref :: stack => gc_scan w fuel n ref stack h0 end = Some h' /\
      scanned h' B' W' [] /\ (forall a, a ∈ B ++ W -> a ∈ B' ++ W')) as Hnext.
  { intros h0 B0 W0 Hs0 Hm. destruct stack as [|r stack]; [by exists h0, B0, W0|].
    destruct (IH r stack h0 B0 W0 U Hs0 Ho Hfuel) as (h' & B' & W' & ? & ? & Hm'); [|cbn in Hn; lia|].
    - intros b Hb Hnb. apply HU; [done|]. intros Hin. by apply Hnb, Hm.
    - exists h', B', W'. split; [done|]. split; [done|]. intros a Ha. by apply Hm', Hm. }
  pose proof (sc_pending _ _ _ _ Hs ref ltac:(by left)) as Href. unfold GC_REF_CHECK_COLOR.
  pose proof (sc_color _ _ _ _ Hs ref) as Ecol. pose proof (sc_nodup _ _ _ _ Hs) as Hnd. apply NoDup_app in Hnd as (_ & Hdis & _).
  destruct (decide (ref ∈ B)) as [HB|HB].
  - rewrite Ecol. change (GC_BLACK =? GC_WHITE) with false. cbn [negb]. apply (Hnext h B W); [|done].
    apply (scanned_pending _ _ _ _ _ Hs); [|intros a Ha; apply (sc_pending _ _ _ _ Hs); by right].
    intros a [->|Ha]%elem_of_cons HaW; [by exfalso; apply (Hdis ref)|done].
  - assert (ref ∈ W) as HW by (apply elem_of_app in Href as [|]; done). rewrite decide_True in Ecol by done. rewrite Ecol, Z.eqb_refl. cbn [negb].
    destruct (Z.ltb_spec 0 (refcount_of h ref)) as [Hpos|Hzero].
    + change (GC_WHITE =? GC_BLACK) with false. cbn [negb].
      destruct (scan_black_step h B W (ref :: stack) ref fuel Hs Ho HW Hpos) as (h' & B' & W' & -> & Hs' & Hm & Hr'); [by rewrite (sc_dom _ _ _ _ Hs)|].
      rewrite some_bind. apply (Hnext h' B' W'); [|done].
      apply (scanned_pending _ _ _ _ _ Hs'); [|intros a Ha; apply (sc_pending _ _ _ _ Hs'); by right].
      intros a [->|Ha]%elem_of_cons HaW; done.
    + assert (refcount_of h ref = 0) as Hz by (pose proof (heap_ok_count h ref (sc_ok _ _ _ _ Hs)); lia).
      destruct (scan_white_step h B W stack ref Hs Ho HW Hz) as (h' & pushed & found & -> & Hv & Hs').
      pose proof (next_refs_perm pushed found stack) as HP.
      assert (forall a, a ∈ B ++ W -> a ∈ B ++ W ++ pushed ++ found) as Hm by (intros a; rewrite !elem_of_app; tauto).
      assert (forall b, b ∈ pushed ++ found -> b ∈ S /\ b ∉ B ++ W) as HN.
      { intros b Hb. apply (sc_grey _ _ _ _ b Hs). destruct (vs_new _ _ _ _ _ _ _ Hv b Hb) as [Ht _]. by apply Z.eqb_eq in Ht. }
      assert (scanned h' B (W ++ pushed ++ found) (next_refs pushed found stack)) as Hs2.
      { apply (scanned_pending _ _ _ _ _ Hs'); [intros a Ha _; by rewrite HP|]. intros a. rewrite HP. apply (sc_pending _ _ _ _ Hs'). }
      destruct (next_refs pushed found stack) as [|r stack'] eqn:En.
      * exists h', B, (W ++ pushed ++ found). split; [done|]. by split.
      * destruct (IH r stack' h' B (W ++ pushed ++ found) (U ∖ list_to_set (pushed ++ found)) Hs2 Ho Hfuel) as (h2 & B2 & W2 & E2 & Hs3 & Hm2).
        -- intros b Hb Hnb. apply elem_of_difference. rewrite elem_of_list_to_set. rewrite !not_elem_of_app in Hnb. split; [apply HU; [done|]; rewrite not_elem_of_app; tauto|].
           rewrite elem_of_app. tauto.
        -- assert (list_to_set (pushed ++ found) ⊆ U) as Hsub by (intros b Hb%elem_of_list_to_set; destruct (HN b Hb); by apply HU).
           rewrite size_difference by done. rewrite size_list_to_set by apply Hv. apply subseteq_size in Hsub.
           rewrite size_list_to_set in Hsub by apply Hv. apply Permutation_length in HP. rewrite !length_app in *. cbn [length] in HP. lia.
        -- exists h2, B2, W2. split; [done|]. split; [done|]. intros a Ha. by apply Hm2, Hm.
Qed.

(** ** All roots *)

Lemma scan_start h B W ref : scanned h B W [] -> ref ∈ S -> ref ∉ B ++ W -> scanned (GC_REF_SET_COLOR ref GC_WHITE h) B (W ++ [ref]) [ref].
Proof.
  intros Hs Hr Hn. assert (GC_REF_COLOR h ref = GC_GREY) as Eg by (by apply (sc_grey _ _ _ _ ref Hs)).
  assert (visited 0 (same_color GC_GREY) GC_WHITE h (GC_REF_SET_COLOR ref GC_WHITE h) [ref] []) as Hv.
  { apply visited_recolor; [unfold is_color; tauto|by rewrite Eg| |apply Hs]. rewrite (sc_dom _ _ _ _ Hs). by apply (gy_dom Hgrey). }
  assert (forall b, b ∈ B ++ W ++ [ref] <-> b ∈ B ++ W \/ b = ref) as Hin by (intros b; rewrite !elem_of_app, list_elem_of_singleton; tauto).
  destruct Hv as [Hv1 Hv2 Hv3 _ _ Hv6 Hv7]. pose proof Hn as [HnB HnW]%not_elem_of_app. split.
  - rewrite Hv1. apply Hs.
  - done.
  - intros b. rewrite Hv3. apply Hs.
  - intros b. rewrite Hv6, (sc_color _ _ _ _ Hs). destruct (decide (b ∈ [ref])) as [->%list_elem_of_singleton|Hb].
    + rewrite decide_False by done. rewrite decide_True; [done|]. apply elem_of_app. right. by left.
    + destruct (decide (b ∈ B)); [done|]. destruct (decide (b ∈ W)), (decide (b ∈ W ++ [ref])) as [Hi|Hi]; try done; rewrite elem_of_app in Hi; tauto.
  - rewrite app_assoc. apply NoDup_app. split; [apply Hs|]. split; [|apply NoDup_singleton]. intros b Hb ->%list_elem_of_singleton. done.
  - intros b [Hb| ->]%Hin; [by apply (sc_sub _ _ _ _ Hs)|done].
  - intros b. rewrite Hv7, occ_nil, (sc_count _ _ _ _ Hs), u32_add. f_equal. lia.
  - apply Hs.
  - apply Hs.
  - intros a [Ha| ->%list_elem_of_singleton]%elem_of_app Hna; [|exfalso; apply Hna; by left].
    destruct (sc_done _ _ _ _ Hs a Ha) as [Hz Hc]; [by intros ?%elem_of_nil|]. split; [done|]. intros b Hb. apply Hin. left. by apply Hc.
  - intros a ->%list_elem_of_singleton. apply Hin. by right.
Qed.

Lemma scan_roots_loop_ok g n : heap_ok h1 -> forall cur h B W, scanned h B W [] ->
  (forall r, root_in g cur n r -> r ∈ S /\ GC_IS_ROOT r = true) ->
  exists h' B' W', scan_roots_loop w n cur (h, g) = Some (h', g) /\ scanned h' B' W' [] /\
    (forall a, a ∈ B ++ W -> a ∈ B' ++ W') /\ (forall r, root_in g cur n r -> r ∈ B' ++ W').
Proof.
  intros Ho. induction n as [|n IH]; intros cur h B W Hs HR; cbn [scan_roots_loop].
  { exists h, B, W. split; [done|]. split; [done|]. split; [done|]. intros r (i & Hi & _). lia. }
  destruct (HR (entry g cur)) as [Hin Hroot]; [exists cur; split; [lia|done]|]. set (ref := entry g cur) in *.
  assert (forall r, root_in g (cur + 1) n r -> r ∈ S /\ GC_IS_ROOT r = true) as HR'.
  { intros r (i & Hi & Er). apply HR. exists i. split; [lia|done]. }
  assert (forall r (X : list Z), ref ∈ X -> (forall r, root_in g (cur + 1) n r -> r ∈ X) -> root_in g cur (Datatypes.S n) r -> r ∈ X) as Hall.
  { intros r X Hin' Hrest (i & Hi & <-). destruct (decide (i = cur)) as [->|]; [done|]. apply Hrest. exists i. split; [lia|done]. }
  rewrite Hroot. unfold GC_REF_CHECK_COLOR. cbn [andb]. destruct (Z.eqb_spec (GC_REF_COLOR h ref) GC_GREY) as [Eg|Hng].
  - apply (sc_grey _ _ _ _ ref Hs) in Eg as [_ Hn]. pose proof (scan_start h B W ref Hs Hin Hn) as Hs1.
    assert (fuel_of h = Datatypes.S (size (dom h1))) as Ef by (unfold fuel_of; rewrite <- (sc_dom _ _ _ _ Hs), size_dom; done).
    rewrite Ef. destruct (gc_scan_ok (Datatypes.S (size (dom h1))) (Datatypes.S (size (dom h1))) ref [] _ B (W ++ [ref]) (dom h1) Hs1 Ho) as (h2 & B2 & W2 & -> & Hs2 & Hm2);
      [lia|intros b Hb _; by apply (gy_dom Hgrey)|cbn; lia|].
    rewrite some_bind. destruct (IH (cur + 1) h2 B2 W2 Hs2 HR') as (h' & B' & W' & -> & Hs' & Hm' & Hr').
    exists h', B', W'. split; [done|]. split; [done|]. split; [intros a Ha; apply Hm', Hm2; revert Ha; rewrite !elem_of_app; tauto|].
    intros r. apply Hall; [|done]. apply Hm', Hm2. rewrite !elem_of_app. right. right. by left.
  - rewrite some_bind. destruct (IH (cur + 1) h B W Hs HR') as (h' & B' & W' & -> & Hs' & Hm' & Hr').
    exists h', B', W'. split; [done|]. split; [done|]. split; [done|]. intros r. apply Hall; [|done]. apply Hm'.
    destruct (decide (ref ∈ B ++ W)) as [|Hn]; [done|]. exfalso. apply Hng. by apply (sc_grey _ _ _ _ ref Hs).
Qed.

(** Afterwards no grey node is left. *)
Lemma scanned_all h B W (R : Z -> Prop) : scanned h B W [] -> (forall b, b ∈ S -> exists r, R r /\ rtc (succ w ts) r b) ->
  (forall r, R r -> r ∈ B ++ W) -> forall b, b ∈ S -> b ∈ B ++ W.
Proof.
  intros Hs Hreach HR b Hb. destruct (Hreach b Hb) as (r & Hr & Hp).
  apply (succ_rtc_closed w ts (fun x => x ∈ B ++ W) r b); [|by apply HR|done].
  intros x y [Hx|Hx]%elem_of_app Hxy; [apply elem_of_app; left; by apply (sc_closed _ _ _ _ Hs x)|].
  destruct (sc_done _ _ _ _ Hs x Hx) as [_ Hc]; [by intros ?%elem_of_nil|]. by apply Hc.
Qed.
End Scan.
