(* ===== verification/GcCollect.v ===== *)
(** Collecting the white nodes (Zend/zend_gc.c, [gc_collect_roots] and
    [gc_collect_white]): black roots leave the buffer, white nodes get their
    counts back and the containers among them enter the buffer as garbage. *)

From stdpp Require Import base numbers list gmap relations.
From S2P Require Import Prelude ZendTypes HashTable HashOps GcBuffer GcRoots GcCompact GcGraph GcVisit GcMark GcScan.

Section Collect.
Context {V : Type} {E : ZEnv V} {C : Collectable V} (w : EG V) (junk_word : nat -> Z).
Implicit Types (h : gmap Z (zend_refcounted V)).

(** * The buffer while colours and counts change *)

Definition info_ok h : Prop := forall a, 0 <= info_of h a < 2 ^ 22.

Lemma heap_ok_info h : heap_ok h -> info_ok h.
Proof. intros Ho a. unfold info_of. destruct (h !! a) as [r|] eqn:Ha; cbn; [by destruct (Ho a r Ha)|lia]. Qed.

Lemma heap_ok_bodies h h' : same_bodies h h' -> heap_ok h -> info_ok h' -> heap_ok h'.
Proof.
  intros Hs Ho Hi a r Ha. specialize (Hi a). unfold info_of in Hi. rewrite Ha in Hi. split; [|done].
  pose proof (same_bodies_refcount _ _ a Hs) as Hr. unfold refcount_of at 1 in Hr. rewrite Ha in Hr. cbn in Hr. rewrite Hr. by apply heap_ok_count.
Qed.

Lemma same_bodies_types h h' : same_bodies h h' -> types_of h' = types_of h.
Proof.
  intros Hs. apply map_eq. intros a. rewrite !types_lookup. assert (snd <$> (body <$> h' !! a) = snd <$> (body <$> h !! a)) as H.
  { by rewrite <- !lookup_fmap, Hs. } by rewrite <- !option_fmap_compose in H.
Qed.

Lemma buf_ok_heap h h' g l : dom h' = dom h -> (forall b, GC_REF_ADDRESS h' b = GC_REF_ADDRESS h b) -> buf_ok h g l -> buf_ok h' g l.
Proof.
  intros Hd Ha Hok. destruct Hok. split; try done.
  - intros i Hi. destruct (bo_node i Hi) as (r & Hr & Hra). assert (GC_GET_PTR (entry g i) ∈ dom h') as [r' Hr']%elem_of_dom
      by (rewrite Hd; by apply elem_of_dom_2 in Hr). exists r'. split; [done|]. specialize (Ha (GC_GET_PTR (entry g i))).
    unfold GC_REF_ADDRESS, info_of in Ha. by rewrite Hr, Hr' in Ha; cbn in Ha; rewrite Ha.
  - intros a r' Ha' Hne. assert (a ∈ dom h) as [r Hr]%elem_of_dom by (rewrite <- Hd; by apply elem_of_dom_2 in Ha').
    apply (bo_address a r Hr). specialize (Ha a). unfold GC_REF_ADDRESS, info_of in Ha. rewrite Hr, Ha' in Ha. cbn in Ha. by rewrite <- Ha.
Qed.

(** Changing the tag of an entry. *)
Lemma retag_ok h g l i p : buf_ok h g l -> is_used g i -> GC_GET_PTR p = GC_GET_PTR (entry g i) -> GC_IS_UNUSED p = false ->
  buf_ok h (set_entry i p g) l /\ entry (set_entry i p g) i = p /\
  (forall j, j <> i -> 1 <= j < first_unused g -> entry (set_entry i p g) j = entry g j).
Proof.
  intros Hok Hi Hp Hu. set (g' := set_entry i p g). pose proof (bo_first _ _ _ Hok) as Hf. pose proof (bo_size _ _ _ Hok) as Hs. destruct Hi as [Hir Hiu].
  assert (entry g' i = p) as Ei by (apply entry_set_eq; lia).
  assert (forall j, j <> i -> 1 <= j < first_unused g -> entry g' j = entry g j) as Eo by (intros; apply entry_set_ne; lia).
  assert (forall j, is_used g' j <-> is_used g j) as Hused.
  { intros j. unfold is_used. change (first_unused g') with (first_unused g). destruct (decide (j = i)) as [->|Hne]; [by rewrite Ei, Hu, Hiu|].
    split; intros [Hj Hju]; (split; [done|]); [rewrite <- Eo|rewrite Eo]; done. }
  assert (forall j, is_used g j -> GC_GET_PTR (entry g' j) = GC_GET_PTR (entry g j)) as Hptr.
  { intros j Hj. destruct (decide (j = i)) as [->|Hne]; [by rewrite Ei|]. rewrite Eo; [done|done|apply Hj]. }
  split; [|by split]. destruct Hok. split; try done.
  - unfold g'. cbn. by rewrite llen_lset.
  - apply (unused_list_ext g); [done|]. intros j [Hj Hju]%bo_unused. apply Eo; [intros ->; congruence|done].
  - intros j. change (first_unused g') with (first_unused g). rewrite bo_unused. destruct (decide (j = i)) as [->|Hne]; [by rewrite Ei, Hu, Hiu|].
    split; intros [Hj Hju]; (split; [done|]); [rewrite Eo|rewrite <- Eo]; done.
  - intros j Hj%Hused. rewrite Hptr by done. by apply bo_node.
  - intros a r Ha Hne. destruct (bo_address a r Ha Hne) as (j & Hj & Hpj). exists j. split; [by apply Hused|]. by rewrite Hptr.
  - intros j k Hj%Hused Hk%Hused. rewrite !Hptr by done. by apply bo_inj.
Qed.

Lemma all_used h g i : buf_ok h g [] -> 1 <= i < first_unused g -> is_used g i.
Proof.
  intros Hok Hi. split; [done|]. apply not_true_iff_false. intros Hu.
  assert (i ∈ []) as Hin by (by apply (bo_unused _ _ _ Hok)). by apply elem_of_nil in Hin.
Qed.

(** The buffer has at most one entry for each node. *)
Lemma roots_le_nodes h g : buf_ok h g [] -> num_roots g <= Z.of_nat (size h).
Proof.
  intros Hok. pose proof (bo_count _ _ _ Hok) as Hcnt. unfold llen in Hcnt. cbn in Hcnt. pose proof (roots_nonneg _ _ _ Hok).
  set (l := (fun i => GC_GET_PTR (entry g i)) <$> zrange 1 (Z.to_nat (num_roots g))).
  assert (forall i, i ∈ zrange 1 (Z.to_nat (num_roots g)) -> is_used g i) as Hus.
  { intros i Hi%elem_of_zrange. apply (all_used h); [done|lia]. }
  assert (NoDup l) as Hnd.
  { apply NoDup_fmap_2_strong; [|apply NoDup_zrange]. intros i j Hi Hj. apply (bo_inj _ _ _ Hok); by apply Hus. }
  assert (list_to_set l ⊆ dom h) as Hsub.
  { intros a (i & -> & Hi)%elem_of_list_to_set%list_elem_of_fmap. destruct (bo_node _ _ _ Hok i (Hus i Hi)) as (r & Hr & _). by apply elem_of_dom_2 in Hr. }
  apply subseteq_size in Hsub. rewrite size_list_to_set in Hsub by done. rewrite size_dom in Hsub.
  unfold l in Hsub. rewrite length_fmap, length_zrange in Hsub. lia.
Qed.

Lemma info_zero x : 0 <= x < 2 ^ 22 -> Z.land x GC_ADDRESS = 0 -> Z.land x GC_COLOR = GC_BLACK -> x = 0.
Proof.
  intros Hx Ha Hc. assert (Z.land x (Z.lor GC_ADDRESS GC_COLOR) = 0) as H by (rewrite Z.land_lor_distr_r, Ha, Hc; done).
  change (Z.lor GC_ADDRESS GC_COLOR) with (Z.ones 22) in H. rewrite Z.land_ones in H by lia. rewrite Z.mod_small in H by lia. done.
Qed.

(** * Removing black roots *)

Lemma remove_black_ok n : forall cur h g l, buf_ok h g l -> info_ok h -> 1 <= cur ->
  (forall i, cur <= i < cur + Z.of_nat n -> is_used g i /\ GC_IS_ROOT (entry g i) = true) ->
  exists h' g' l', remove_black_loop n cur (h, g) = (h', g') /\ buf_ok h' g' l' /\ same_bodies h h' /\ info_ok h' /\
    (forall a, GC_REF_COLOR h' a = GC_REF_COLOR h a) /\
    (forall q, buffered g' q <-> buffered g q /\ ~ (root_in g cur n q /\ GC_REF_COLOR h q = GC_BLACK)).
Proof.
  induction n as [|n IH]; intros cur h g l Hok Hi Hcur Hroots; cbn [remove_black_loop].
  { exists h, g, l. split; [done|]. split; [done|]. split; [done|]. split; [done|]. split; [done|]. intros q.
    split; [|by intros [? _]]. intros Hq. split; [done|]. intros [(i & Hr & _) _]. lia. }
  destruct (Hroots cur ltac:(lia)) as [Huc Hrc]. rewrite Hrc. unfold GC_REF_CHECK_COLOR. set (ref := entry g cur) in *. cbn [andb].
  assert (aligned ref) as Hal by (by apply Z.eqb_eq in Hrc). destruct (aligned_root ref Hal) as (_ & Hptr & _).
  assert (forall q, root_in g cur (S n) q <-> q = ref \/ root_in g (cur + 1) n q) as Hin.
  { intros q. split.
    - intros (i & Hr & <-). destruct (decide (i = cur)) as [->|]; [by left|right]. exists i. split; [lia|done].
    - intros [->|(i & Hr & <-)]; [exists cur|exists i]; (split; [lia|done]). }
  destruct (Z.eqb_spec (GC_REF_COLOR h ref) GC_BLACK) as [Hb|Hb].
  - destruct (unlink_ok h g l cur Hok Huc) as (Hok1 & Hs1 & Hi1 & Hq1 & Hf1 & He1 & _). fold ref in Hok1, Hs1, Hi1, Hq1. rewrite Hptr in *.
    set (h1 := GC_REF_SET_INFO ref 0 h) in *. set (g1 := gc_remove_from_roots cur g) in *.
    assert (forall a, GC_REF_COLOR h1 a = GC_REF_COLOR h a) as Hc1.
    { intros a. unfold GC_REF_COLOR at 1. rewrite Hi1. destruct (decide (ref = a)) as [<-|]; [by rewrite Hb|done]. }
    destruct (IH (cur + 1) h1 g1 (cur :: l) Hok1) as (h' & g' & l' & -> & Hok' & Hs' & Hi' & Hc' & Hq'); [|lia| |].
    + intros a. rewrite Hi1. destruct (decide (ref = a)); [lia|apply Hi].
    + intros i Hr. destruct (Hroots i ltac:(lia)) as [[Hir Hiu] Hroot].
      unfold is_used. rewrite Hf1, He1 by lia. done.
    + exists h', g', l'. split; [done|]. split; [done|]. split; [by eapply same_bodies_trans|]. split; [done|].
      split; [intros a; by rewrite Hc'|]. intros q. rewrite Hq', Hq1, Hin, Hc1.
      assert (root_in g1 (cur + 1) n q <-> root_in g (cur + 1) n q) as ->.
      { unfold root_in. split; intros (i & Hr & Ei); exists i; (split; [done|]); destruct (Hroots i ltac:(lia)) as [[Hir _] _];
          [rewrite <- Ei, He1 by lia|rewrite He1 by lia]; done. }
      split.
      * intros [[Hbq Hne] Hn]. split; [done|]. intros [[->|Hr] Hbl]; [done|by apply Hn].
      * intros [Hbq Hn]. split; [split; [done|]|intros [Hr Hbl]; apply Hn; split; [by right|done]].
        intros Hpq. apply Hn. assert (q = ref) as ->; [|split; [by left|done]].
        destruct Hbq as (i & Hiu & Ei). assert (i = cur) as ->; [|by rewrite <- Ei].
        apply (bo_inj _ _ _ Hok); [done|done|]. fold ref. by rewrite Ei, Hpq, Hptr.
  - destruct (IH (cur + 1) h g l Hok Hi) as (h' & g' & l' & -> & Hok' & Hs' & Hi' & Hc' & Hq'); [lia|intros i Hr; apply Hroots; lia|].
    exists h', g', l'. split; [done|]. split; [done|]. split; [done|]. split; [done|]. split; [done|]. intros q. rewrite Hq', Hin.
    split; intros [Hbq Hn]; (split; [done|]); [|tauto]. intros [[->|Hr] Hbl]; [done|by apply Hn].
Qed.

(** * Collecting *)

(** Nodes that get an entry of their own: objects, and arrays other than the
    properties table of a white object, which goes with the object. *)
Definition container (ts : gmap Z (gc_type V)) (white : Z -> Prop) (a : Z) : Prop :=
  match ts !! a with
  | Some (IS_OBJECT obj) => IS_OBJ_FREE_CALLED obj = false
  | Some (IS_ARRAY _) => forall o obj, white o -> ts !! o = Some (IS_OBJECT obj) -> (get_gc obj).1 <> Some a
  | _ => False
  end.

(** What may be a root: "GC_TYPE(ref) == IS_OBJECT || GC_TYPE(ref) == IS_ARRAY". *)
Definition rootable (ts : gmap Z (gc_type V)) (a : Z) : Prop :=
  match ts !! a with Some (IS_ARRAY _) | Some (IS_OBJECT _) => True | _ => False end.

(** No destructor has yet to be called. *)
Definition no_destructors (ts : gmap Z (gc_type V)) (a : Z) : Prop :=
  forall obj, ts !! a = Some (IS_OBJECT obj) -> IS_OBJ_FREE_CALLED obj = false -> IS_OBJ_DESTRUCTOR_CALLED obj = true \/ has_destructor obj = false.

(** Before: the roots at the indices below [end_], in [W]; the white nodes are [W]. *)
Section White.
Context (h3 : gmap Z (zend_refcounted V)) (g3 : zend_gc_globals) (W : list Z).
Local Notation ts := (types_of h3).
Local Notation end_ := (first_unused g3).

Record whitened : Prop := {
  wh_graph : graph_ok w ts;
  wh_ok : heap_ok h3;
  wh_dom a : a ∈ W -> a ∈ dom h3;
  wh_aligned a : a ∈ W -> aligned a;
  wh_color b : GC_REF_COLOR h3 b = if decide (b ∈ W) then GC_WHITE else GC_BLACK;
  wh_buf : buf_ok h3 g3 [];
  wh_roots i : is_used g3 i -> entry g3 i ∈ W /\ rootable ts (entry g3 i);
  wh_small : Z.of_nat (size h3) < GC_SAFE_SIZE - 1
}.
Context (Hwhite : whitened).

(** The nodes [D] have been collected and [P] discovered; roots below [cur] are tagged. *)
Record collecting h g (cur : Z) (D P : list Z) : Prop := {
  ct_cur : 1 <= cur;
  ct_types : types_of h = ts;
  ct_ok : heap_ok h;
  ct_color b : GC_REF_COLOR h b = if decide (b ∈ D ++ P) then GC_BLACK else GC_REF_COLOR h3 b;
  ct_nodup : NoDup (D ++ P);
  ct_white a : a ∈ D ++ P -> a ∈ W;
  ct_count b : refcount_of h b = u32 (refcount_of h3 b + occ b (edges w ts D));
  ct_closed a b : a ∈ D -> succ w ts a b -> b ∈ W -> b ∈ D ++ P;
  ct_buf : buf_ok h g [];
  ct_end : end_ <= first_unused g;
  ct_old i : cur <= i < end_ -> entry g i = entry g3 i;
  ct_garbage i : is_used g i -> ~ cur <= i < end_ -> exists a, a ∈ W /\ rootable ts a /\ entry g i = GC_MAKE_GARBAGE a;
  ct_have a : a ∈ D -> container ts (fun o => o ∈ W) a -> exists i, is_used g i /\ GC_GET_PTR (entry g i) = a
}.

Lemma ct_dom h g cur D P : collecting h g cur D P -> dom h = dom h3.
Proof. intros Hc. by rewrite <- !types_dom, (ct_types _ _ _ _ _ Hc). Qed.

Lemma ct_room h g cur D P : collecting h g cur D P -> first_unused g < GC_SAFE_SIZE.
Proof.
  intros Hc. pose proof (roots_le_nodes h g (ct_buf _ _ _ _ _ Hc)). pose proof (bo_count _ _ _ (ct_buf _ _ _ _ _ Hc)) as Hcnt.
  unfold llen in Hcnt. cbn in Hcnt. pose proof (wh_small Hwhite). rewrite <- (size_dom h), (ct_dom _ _ _ _ _ Hc), size_dom in *. lia.
Qed.

(** ** A node enters the buffer as garbage *)

Lemma add_garbage_step h g cur D P a : collecting h g cur D P -> a ∈ D ++ P -> rootable ts a -> info_of h a = 0 ->
  exists h' g', gc_add_garbage junk_word a (h, g) = (h', g') /\ collecting h' g' cur D P /\ (exists i, is_used g' i /\ GC_GET_PTR (entry g' i) = a).
Proof.
  intros Hc Ha Hra Hi0. pose proof (ct_buf _ _ _ _ _ Hc) as Hok. pose proof (ct_white _ _ _ _ _ Hc a Ha) as HaW.
  pose proof (wh_aligned Hwhite a HaW) as Hal. destruct (aligned_garbage a Hal) as (_ & _ & Hptr & Hu).
  unfold gc_add_garbage. cbn [fst snd].
  destruct (fetch_entry_opened junk_word h g [] Hok) as (idx & g1 & l' & Ef & Ho & Hlim & _); [right; by apply (ct_room h g cur D P)|].
  assert (l' = []) as -> by (destruct Ho as (_ & _ & _ & _ & _ & [(Hl & _)|(-> & _)]); done).
  assert (a ∈ dom h) as Had by (rewrite (ct_dom _ _ _ _ _ Hc); by apply (wh_dom Hwhite)).
  destruct (put_ok h g [] idx g1 [] a (GC_MAKE_GARBAGE a) GC_BLACK Hok Ho Hlim Had) as (h' & g' & Ep & Hok' & Hs & Hio & Hcol & Hq & Hfu & _ & Hir & Hold).
  { unfold GC_REF_ADDRESS. by rewrite Hi0. } { done. } { done. } { unfold is_color; tauto. }
  rewrite Ef, Ep. exists h', g'. split; [done|].
  assert (first_unused g <= first_unused g1) as Hmono by (destruct Ho as (_ & _ & _ & _ & _ & [(_ & -> & _)|(_ & _ & -> & _)]); lia).
  assert (info_ok h') as Hinfo.
  { intros b. destruct (decide (b = a)) as [->|Hne]; [done|]. rewrite Hio by done. apply heap_ok_info, Hc. }
  split.
  - split.
    + apply Hc.
    + rewrite (same_bodies_types _ _ Hs). apply Hc.
    + apply (heap_ok_bodies h); [done|apply Hc|done].
    + intros b. destruct (decide (b = a)) as [->|Hne]; [by rewrite Hcol, decide_True|].
      unfold GC_REF_COLOR at 1. rewrite Hio by done. apply (ct_color _ _ _ _ _ Hc).
    + apply Hc.
    + apply Hc.
    + intros b. rewrite (same_bodies_refcount _ _ b Hs). apply Hc.
    + apply Hc.
    + done.
    + pose proof (ct_end _ _ _ _ _ Hc). lia.
    + intros i Hi. rewrite <- (ct_old _ _ _ _ _ Hc i Hi). apply Hold, (all_used h); [done|]. pose proof (ct_end _ _ _ _ _ Hc). pose proof (ct_cur _ _ _ _ _ Hc). lia.
    + intros i Hi Hni. destruct (proj1 (Hq (entry g' i))) as [(j & Hj & Ej)|Ep']; [by exists i| |by exists a].
      destruct (Hold j Hj) as [Hj' Ej']. assert (j = i) as ->; [apply (bo_inj _ _ _ Hok'); [done|done|congruence]|].
      rewrite <- Ej. by apply (ct_garbage _ _ _ _ _ Hc).
    + intros b Hb Hcont. destruct (ct_have _ _ _ _ _ Hc b Hb Hcont) as (i & Hi & Epi). exists i. destruct (Hold i Hi) as [? ->]. by split.
  - destruct (proj2 (Hq (GC_MAKE_GARBAGE a)) ltac:(by right)) as (i & Hi & Ei). exists i. split; [done|]. by rewrite Ei.
Qed.

(** ** One node *)

Lemma collecting_children h g cur D P ref : collecting h g cur D (ref :: P) ->
  (container ts (fun o => o ∈ W) ref -> exists i, is_used g i /\ GC_GET_PTR (entry g i) = ref) ->
  exists h' pushed found tables, visit_children w garbage_child false ref h = (h', (pushed, found)) /\
    visited 1 (same_color GC_WHITE) GC_BLACK h h' (tables ++ pushed ++ found) (edges w ts (ref :: tables)) /\
    collecting h' g cur (D ++ ref :: tables) (pushed ++ found ++ P).
Proof.
  intros Hc Hhave. assert (ref ∈ W) as HrW by (apply (ct_white _ _ _ _ _ Hc), elem_of_app; right; by left).
  destruct (visit_children_ok w 1 (same_color GC_WHITE) GC_BLACK garbage_child garbage_visitor false ref h)
    as (h' & pushed & found & tables & Ev & Hv & Hcl & HN & Htab).
  { rewrite (ct_types _ _ _ _ _ Hc). apply (wh_graph Hwhite). } { apply Hc. } { rewrite (ct_dom _ _ _ _ _ Hc). by apply (wh_dom Hwhite). }
  cbv zeta in *. rewrite (ct_types _ _ _ _ _ Hc) in *. set (N := tables ++ pushed ++ found) in *.
  exists h', pushed, found, tables. split; [done|]. split; [done|].
  set (D' := D ++ ref :: tables). set (P' := pushed ++ found ++ P).
  assert (D' ++ P' ≡ₚ (D ++ ref :: P) ++ N) as HP by (unfold D', P', N; cbn [app]; solve_Permutation).
  assert (forall b, b ∈ N -> b ∈ W /\ b ∉ D ++ ref :: P) as HNW.
  { intros b Hb. destruct (vs_new _ _ _ _ _ _ _ Hv b Hb) as [Ht _]. apply Z.eqb_eq in Ht. rewrite (ct_color _ _ _ _ _ Hc) in Ht.
    destruct (decide (b ∈ D ++ ref :: P)); [done|]. split; [|done]. rewrite (wh_color Hwhite) in Ht. by destruct (decide (b ∈ W)). }
  split.
  - apply Hc.
  - rewrite (vs_types _ _ _ _ _ _ _ Hv). apply Hc.
  - apply Hv.
  - intros b. rewrite (vs_color _ _ _ _ _ _ _ Hv), (ct_color _ _ _ _ _ Hc).
    destruct (decide (b ∈ N)), (decide (b ∈ D ++ ref :: P)), (decide (b ∈ D' ++ P')) as [Hi|Hi]; try done; rewrite HP, elem_of_app in Hi; tauto.
  - rewrite HP. apply NoDup_app. split; [apply Hc|]. split; [|apply Hv]. intros b Hb Hb'. by apply (HNW b Hb').
  - intros b. rewrite HP. intros [Hb|Hb]%elem_of_app; [by apply (ct_white _ _ _ _ _ Hc)|by apply HNW].
  - intros b. rewrite (vs_count _ _ _ _ _ _ _ Hv), (ct_count _ _ _ _ _ Hc), u32_add. unfold D'. rewrite edges_app, occ_app. f_equal. lia.
  - intros a b Ha Hab HbW. rewrite HP. apply elem_of_app. unfold D' in Ha. apply elem_of_app in Ha as [Ha|Ha].
    { left. by apply (ct_closed _ _ _ _ _ Hc a b). }
    destruct (decide (b ∈ N)) as [|HbN]; [by right|left].
    assert (same_color GC_WHITE (GC_REF_COLOR h' b) = false) as Hb by (apply Hcl, elem_of_edges; by exists a).
    rewrite (vs_color _ _ _ _ _ _ _ Hv), decide_False, (ct_color _ _ _ _ _ Hc) in Hb by done.
    destruct (decide (b ∈ D ++ ref :: P)); [done|]. rewrite (wh_color Hwhite), decide_True in Hb; done.
  - apply (buf_ok_heap h); [by apply (visited_dom _ _ _ _ _ _ _ Hv)|apply Hv|apply Hc].
  - apply Hc.
  - apply Hc.
  - apply Hc.
  - intros a Ha Hcont. unfold D' in Ha. apply elem_of_app in Ha as [Ha|[->|Ha]%elem_of_cons]; [by apply (ct_have _ _ _ _ _ Hc)|by apply Hhave|].
    exfalso. destruct (Htab a Ha) as (_ & obj & Ho & Hfree & Hg). destruct (go_table _ _ (wh_graph Hwhite) ref obj a Ho) as [t Ht]; [done|done|].
    unfold container in Hcont. rewrite Ht in Hcont. by apply (Hcont ref obj).
Qed.

(** The entry of a node, before its children are visited. *)
Lemma collecting_node h g cur D P ref flags : collecting h g cur D (ref :: P) ->
  exists h1 g1 flags1, enter_garbage junk_word ref (h, g) flags = ((h1, g1), flags1) /\
    (no_destructors ts ref -> flags1 = flags) /\ collecting h1 g1 cur D (ref :: P) /\ (container ts (fun o => o ∈ W) ref -> exists i, is_used g1 i /\ GC_GET_PTR (entry g1 i) = ref).
Proof.
  intros Hc. assert (ref ∈ D ++ ref :: P) as Hin by (apply elem_of_app; right; by left).
  assert (rootable ts ref -> exists h1 g1, (if info_of h ref =? 0 then gc_add_garbage junk_word ref (h, g) else (h, g)) = (h1, g1) /\
    collecting h1 g1 cur D (ref :: P) /\ (exists i, is_used g1 i /\ GC_GET_PTR (entry g1 i) = ref)) as Hadd.
  { intros Hroot. destruct (Z.eqb_spec (info_of h ref) 0) as [E0|Hne]; [by apply (add_garbage_step h g cur D (ref :: P))|].
    exists h, g. split; [done|]. split; [done|].
    assert (ref ∈ dom h) as [r Hr]%elem_of_dom by (rewrite (ct_dom _ _ _ _ _ Hc); apply (wh_dom Hwhite); by apply (ct_white _ _ _ _ _ Hc)).
    apply (bo_address _ _ _ (ct_buf _ _ _ _ _ Hc) ref r Hr). intros Ha. apply Hne.
    assert (info_of h ref = GC_INFO r) as Er by (unfold info_of; by rewrite Hr).
    apply info_zero; [apply heap_ok_info, Hc|by rewrite Er|]. pose proof (ct_color _ _ _ _ _ Hc ref) as Ecol. by rewrite decide_True in Ecol. }
  unfold enter_garbage. cbn [fst]. rewrite <- types_lookup, (ct_types _ _ _ _ _ Hc). unfold container, rootable, no_destructors in *.
  destruct (ts !! ref) as [[t|obj|val|]|] eqn:Et; try by exists h, g, flags.
  - destruct (Hadd I) as (h1 & g1 & -> & Hc1 & Hi1). by exists h1, g1, flags.
  - destruct (IS_OBJ_FREE_CALLED obj) eqn:Ef; [by exists h, g, flags|]. destruct (Hadd I) as (h1 & g1 & -> & Hc1 & Hi1).
    eexists h1, g1, _. split; [reflexivity|]. split; [|by split]. intros Hnd. destruct (Hnd obj eq_refl Ef) as [-> | ->]; [done|by rewrite andb_false_r].
Qed.

Lemma gc_collect_white_ok n : forall ref stack h g cur D flags count (U : gset Z), collecting h g cur D (ref :: stack) ->
  (forall b, b ∈ W -> b ∉ D ++ ref :: stack -> b ∈ U) -> (size U + length stack < n)%nat ->
  exists h' g' D' flags' count', gc_collect_white w junk_word n ref stack (h, g) flags count = Some ((h', g'), flags', count') /\
    ((forall a, a ∈ W -> no_destructors ts a) -> flags' = flags) /\ collecting h' g' cur D' [] /\ (forall a, a ∈ D ++ ref :: stack -> a ∈ D').
Proof.
  induction n as [|n IH]; intros ref stack h g cur D flags count U Hc HU Hn; [lia|]. cbn [gc_collect_white fst].
  destruct (collecting_node h g cur D stack ref flags Hc) as (h1 & g1 & flags1 & -> & Hfl1 & Hc1 & Hi1). cbn [fst snd].
  assert (ref ∈ W) as HrW by (apply (ct_white _ _ _ _ _ Hc), elem_of_app; right; by left).
  destruct (collecting_children h1 g1 cur D stack ref Hc1 Hi1) as (h2 & pushed & found & tables & -> & Hv & Hc2).
  pose proof (next_refs_perm pushed found stack) as HP. set (count' := match GC_TYPE <$> h !! ref with Some (IS_REFERENCE _) => _ | _ => _ end).
  assert (forall a, a ∈ D ++ ref :: stack -> a ∈ (D ++ ref :: tables) ++ pushed ++ found ++ stack) as Hm.
  { intros a. rewrite !elem_of_app, !elem_of_cons. tauto. }
  assert (forall P, P ≡ₚ pushed ++ found ++ stack -> collecting h2 g1 cur (D ++ ref :: tables) P) as Hperm.
  { intros P HP'. destruct Hc2. split; try done.
    - intros b. rewrite ct_color0. destruct (decide (b ∈ (D ++ ref :: tables) ++ pushed ++ found ++ stack)) as [Hi|Hi],
        (decide (b ∈ (D ++ ref :: tables) ++ P)) as [Hi'|Hi']; try done; rewrite HP' in Hi'; done.
    - by rewrite HP'.
    - intros a. rewrite HP'. apply ct_white0.
    - intros a b Ha Hab Hb. rewrite HP'. by apply (ct_closed0 a). }
  specialize (Hperm _ HP). destruct (next_refs pushed found stack) as [|r stack'] eqn:En.
  - exists h2, g1, (D ++ ref :: tables), flags1, count'. split; [done|]. split; [intros Hnd; by apply Hfl1, Hnd|]. split; [done|]. intros a Ha. specialize (Hm a Ha).
    apply Permutation_nil_l in HP. rewrite <- HP, app_nil_r in Hm. done.
  - destruct (IH r stack' h2 g1 cur (D ++ ref :: tables) flags1 count' (U ∖ list_to_set (tables ++ pushed ++ found)) Hperm)
      as (h' & g' & D' & fl & ct & E' & Hfl' & Hc' & Hm').
    + intros b Hb Hnb. rewrite HP in Hnb. apply elem_of_difference. rewrite elem_of_list_to_set. rewrite !not_elem_of_app, not_elem_of_cons in Hnb.
      split; [apply HU; [done|]; rewrite not_elem_of_app, not_elem_of_cons; tauto|]. rewrite !elem_of_app. tauto.
    + assert (list_to_set (tables ++ pushed ++ found) ⊆ U) as Hsub.
      { intros b Hb%elem_of_list_to_set. apply HU.
        - apply (ct_white _ _ _ _ _ Hc2). rewrite !elem_of_app, elem_of_cons. rewrite !elem_of_app in Hb. tauto.
        - intros Hin. destruct (vs_new _ _ _ _ _ _ _ Hv b Hb) as [Ht _]. rewrite (ct_color _ _ _ _ _ Hc1), decide_True in Ht by done. done. }
      rewrite size_difference by done. rewrite size_list_to_set by apply Hv. apply subseteq_size in Hsub.
      rewrite size_list_to_set in Hsub by apply Hv. apply Permutation_length in HP. rewrite !length_app in *. cbn [length] in HP. lia.
    + exists h', g', D', fl, ct. split; [done|]. split; [intros Hnd; rewrite Hfl' by done; by apply Hfl1, Hnd|]. split; [done|]. intros a Ha. apply Hm'. rewrite HP. by apply Hm.
Qed.

(** ** All roots *)

Lemma collecting_start h g cur D : collecting h g cur D [] -> cur < end_ ->
  let ref := entry g3 cur in
  entry g cur = ref /\ ref ∈ W /\
  let g1 := set_entry cur (GC_MAKE_GARBAGE ref) g in
  if decide (ref ∈ D) then collecting h g1 (cur + 1) D [] else collecting (GC_REF_SET_BLACK ref h) g1 (cur + 1) D [ref].
Proof.
  intros Hc Hlt ref. pose proof (ct_cur _ _ _ _ _ Hc) as Hcur. pose proof (ct_end _ _ _ _ _ Hc) as Hend. pose proof (ct_buf _ _ _ _ _ Hc) as Hok.
  assert (entry g cur = ref) as Ecur by (apply (ct_old _ _ _ _ _ Hc); lia). split; [done|].
  assert (ref ∈ W /\ rootable ts ref) as [HrW Hrr] by (apply (wh_roots Hwhite), (all_used h3); [apply (wh_buf Hwhite)|lia]). split; [done|]. intros g1.
  pose proof (wh_aligned Hwhite ref HrW) as Hal. destruct (aligned_garbage ref Hal) as (_ & _ & Hptr & Hu). destruct (aligned_root ref Hal) as (_ & Hptr0 & _).
  assert (is_used g cur) as Hus by (apply (all_used h); [done|lia]).
  destruct (retag_ok h g [] cur (GC_MAKE_GARBAGE ref) Hok Hus) as (Hok1 & E1 & Eo1); [by rewrite Hptr, Ecur|done|]. fold g1 in Hok1, E1, Eo1.
  assert (collecting h g1 (cur + 1) D []) as Hc1.
  { destruct Hc. split; try done.
    - lia.
    - intros i Hi. rewrite Eo1 by lia. apply ct_old0. lia.
    - intros i Hi Hni. destruct (decide (i = cur)) as [->|Hne]; [by exists ref|]. destruct Hi as [Hir Hiu]. change (first_unused g1) with (first_unused g) in Hir.
      rewrite Eo1 in Hiu |- * by lia. apply ct_garbage0; [by split|lia].
    - intros a Ha Hcont. destruct (ct_have0 a Ha Hcont) as (i & Hi & Epi). destruct (decide (i = cur)) as [->|Hne].
      + exists cur. split; [split; [apply Hi|by rewrite E1]|]. by rewrite E1, Hptr, <- Epi, Ecur.
      + exists i. destruct Hi as [Hir Hiu]. rewrite Eo1 by done. split; [|done]. split; [done|]. by rewrite Eo1. }
  destruct (decide (ref ∈ D)) as [|Hn]; [done|].
  rewrite set_color_black.
  assert (visited 1 (same_color GC_WHITE) GC_BLACK h (GC_REF_SET_COLOR ref GC_BLACK h) [ref] []) as [Hv1 Hv2 Hv3 _ _ Hv6 Hv7].
  { apply visited_recolor; [unfold is_color; tauto| |rewrite (ct_dom _ _ _ _ _ Hc); by apply (wh_dom Hwhite)|apply Hc].
    rewrite (ct_color _ _ _ _ _ Hc), app_nil_r, decide_False, (wh_color Hwhite), decide_True by done. done. }
  assert (dom (GC_REF_SET_COLOR ref GC_BLACK h) = dom h) as Hdom by (by rewrite <- !types_dom, Hv1).
  destruct Hc1. split; try done.
  - by rewrite Hv1.
  - intros b. rewrite Hv6, ct_color0, app_nil_r. destruct (decide (b ∈ [ref])) as [Hb|Hb], (decide (b ∈ D)), (decide (b ∈ D ++ [ref])) as [Hi|Hi]; try done;
      rewrite elem_of_app in Hi; tauto.
  - rewrite app_nil_r in ct_nodup0. apply NoDup_app. split; [done|]. split; [|apply NoDup_singleton]. intros b Hb ->%list_elem_of_singleton. done.
  - intros a [Ha| ->%list_elem_of_singleton]%elem_of_app; [apply ct_white0; by rewrite app_nil_r|done].
  - intros b. rewrite Hv7, occ_nil, ct_count0, u32_add. f_equal. lia.
  - intros a b Ha Hab Hb. apply elem_of_app. left. specialize (ct_closed0 a b Ha Hab Hb). by rewrite app_nil_r in ct_closed0.
  - by apply (buf_ok_heap h).
Qed.

Lemma collect_roots_loop_ok n : forall cur h g D flags count, collecting h g cur D [] -> cur + Z.of_nat n = end_ ->
  exists h' g' D' flags' count', collect_roots_loop w junk_word n cur (h, g) flags count = Some ((h', g'), flags', count') /\
    ((forall a, a ∈ W -> no_destructors ts a) -> flags' = flags) /\ collecting h' g' end_ D' [] /\ (forall a, a ∈ D -> a ∈ D') /\ (forall i, cur <= i < end_ -> entry g3 i ∈ D').
Proof.
  induction n as [|n IH]; intros cur h g D flags count Hc Hend; cbn [collect_roots_loop].
  { exists h, g, D, flags, count. split; [done|]. split; [done|]. replace end_ with cur by lia. split; [done|]. split; [done|]. intros. lia. }
  destruct (collecting_start h g cur D Hc ltac:(lia)) as (Ecur & HrW & Hstart). rewrite Ecur. set (ref := entry g3 cur) in *. cbv zeta in Hstart.
  assert (forall D' : list Z, ref ∈ D' -> (forall i, cur + 1 <= i < end_ -> entry g3 i ∈ D') -> forall i, cur <= i < end_ -> entry g3 i ∈ D') as Hall.
  { intros D' H1 H2 i Hi. destruct (decide (i = cur)) as [->|]; [done|apply H2; lia]. }
  unfold GC_REF_CHECK_COLOR. rewrite (ct_color _ _ _ _ _ Hc), app_nil_r. destruct (decide (ref ∈ D)) as [HD|HD].
  - change (GC_BLACK =? GC_WHITE) with false. cbn match. rewrite some_bind.
    destruct (IH (cur + 1) h _ D flags count Hstart) as (h' & g' & D' & fl & ct & E' & Hfl' & Hc' & Hm' & Hr'); [lia|].
    exists h', g', D', fl, ct. split; [exact E'|]. split; [done|]. split; [done|]. split; [done|]. apply Hall; [by apply Hm'|done].
  - rewrite (wh_color Hwhite), decide_True by done. rewrite Z.eqb_refl.
    destruct (gc_collect_white_ok (fuel_of h) ref [] _ _ _ D flags count (list_to_set W ∖ {[ref]}) Hstart) as (h1 & g1 & D1 & fl1 & ct1 & -> & Hfl1 & Hc1 & Hm1).
    + intros b Hb Hnb. apply elem_of_difference. rewrite elem_of_list_to_set, elem_of_singleton. split; [done|]. intros ->. apply Hnb, elem_of_app. right. by left.
    + assert (list_to_set W ∖ {[ref]} ⊆ dom h) as Hsub.
      { intros b [Hb%elem_of_list_to_set _]%elem_of_difference. rewrite (ct_dom _ _ _ _ _ Hc). by apply (wh_dom Hwhite). }
      apply subseteq_size in Hsub. unfold fuel_of. rewrite size_dom in Hsub. cbn [length]. lia.
    + rewrite some_bind. destruct (IH (cur + 1) h1 g1 D1 fl1 ct1 Hc1) as (h' & g' & D' & fl & ct & E' & Hfl' & Hc' & Hm' & Hr'); [lia|].
      exists h', g', D', fl, ct. split; [exact E'|]. split; [intros Hnd; rewrite Hfl' by done; by apply Hfl1|]. split; [done|]. split.
      * intros a Ha. apply Hm', Hm1, elem_of_app. by left.
      * apply Hall; [|done]. apply Hm', Hm1, elem_of_app. right. by left.
Qed.
End White.
End Collect.
