(* ===== verification/GcCycles.v ===== *)
(** The three passes of a collection together ([zend_gc_collect_cycles] in
    Zend/zend_gc.c up to the destructors): what is garbage, that it is found,
    and that nothing else changes. *)

From stdpp Require Import base numbers list gmap relations.
From S2P Require Import Prelude ZendTypes HashTable HashOps GcBuffer GcRoots GcCompact GcGraph GcVisit GcMark GcScan GcCollect.

Section Cycles.
Context {V : Type} {E : ZEnv V} {C : Collectable V} (w : EG V) (junk_word : nat -> Z).
Implicit Types (h : gmap Z (zend_refcounted V)).

(** * The state between collections *)

(** Every reference from a node is counted; other parts of the program may hold more. *)
Record collector_ok h g (l : list Z) : Prop := {
  co_buf : buf_ok h g l;
  co_graph : graph_ok w (types_of h);
  co_heap : heap_ok h;
  co_aligned a : a ∈ dom h -> aligned a;
  co_roots i : is_used g i -> GC_IS_ROOT (entry g i) = true /\ GC_REF_COLOR h (entry g i) = GC_PURPLE;
  co_rootable i : is_used g i -> rootable (types_of h) (entry g i);
  co_color a : GC_REF_COLOR h a = GC_BLACK \/ GC_REF_COLOR h a = GC_PURPLE /\ buffered g a;
  co_counts a : occ a (edges w (types_of h) (elements (dom h))) <= refcount_of h a;
  co_small : Z.of_nat (size h) < GC_SAFE_SIZE - 1
}.

(** * Garbage *)

(** The nodes that the buffered roots reach. *)
Definition candidates h g (S : list Z) : Prop :=
  NoDup S /\ forall a, a ∈ S <-> exists r, buffered g r /\ rtc (succ w (types_of h)) r a.

(** A candidate that no candidate with a reference from elsewhere reaches. *)
Definition dead h (S : list Z) (a : Z) : Prop :=
  a ∈ S /\ ~ exists e, e ∈ S /\ occ e (edges w (types_of h) S) < refcount_of h e /\ rtc (succ w (types_of h)) e a.

(** * Counting edges *)

Lemma occ_submseteq b (l k : list Z) : l ⊆+ k -> occ b l <= occ b k.
Proof. intros (x & Hx)%submseteq_Permutation. rewrite (occ_perm b _ _ Hx), occ_app. pose proof (occ_nonneg b x). lia. Qed.

Lemma edges_submseteq ts (l k : list Z) : l ⊆+ k -> edges w ts l ⊆+ edges w ts k.
Proof.
  intros (x & Hx)%submseteq_Permutation. rewrite (edges_perm w ts _ _ Hx), edges_app. apply submseteq_inserts_r. reflexivity.
Qed.

Lemma occ_edges_sub ts b (l k : list Z) : NoDup l -> (forall a, a ∈ l -> a ∈ k) -> occ b (edges w ts l) <= occ b (edges w ts k).
Proof. intros Hnd Hs. by apply occ_submseteq, edges_submseteq, NoDup_submseteq. Qed.

Lemma occ_edges_all h g l b (S : list Z) : collector_ok h g l -> NoDup S -> (forall a, a ∈ S -> a ∈ dom h) ->
  0 <= occ b (edges w (types_of h) S) <= refcount_of h b.
Proof.
  intros Hok Hnd Hs. split; [apply occ_nonneg|]. etrans; [|apply (co_counts _ _ _ Hok)]. apply occ_edges_sub; [done|].
  intros a Ha. by apply elem_of_elements, Hs.
Qed.

Lemma same_bodies_of h h' : types_of h' = types_of h -> (forall a, refcount_of h' a = refcount_of h a) -> same_bodies h h'.
Proof.
  intros Ht Hr. apply map_eq. intros a. rewrite !lookup_fmap. specialize (Hr a). pose proof (f_equal (lookup a) Ht) as Ha.
  rewrite !types_lookup in Ha. unfold refcount_of in Hr. destruct (h !! a) as [r|], (h' !! a) as [r'|]; try done.
  cbn in *. unfold body. congruence.
Qed.

(** * Marking *)

Lemma marking_ok h0 g : buf_ok h0 g [] -> graph_ok w (types_of h0) -> heap_ok h0 ->
  (forall i, is_used g i -> GC_IS_ROOT (entry g i) = true /\ GC_REF_COLOR h0 (entry g i) = GC_PURPLE) ->
  (forall a, GC_REF_COLOR h0 a = GC_BLACK \/ GC_REF_COLOR h0 a = GC_PURPLE /\ buffered g a) ->
  let n := Z.to_nat (first_unused g - GC_FIRST_ROOT) in
  exists h1 S, mark_roots_loop w n GC_FIRST_ROOT (h0, g) = Some (h1, g) /\ marked w (buffered g) h0 h1 S /\
    candidates h0 g S /\ (forall r, buffered g r <-> root_in g GC_FIRST_ROOT n r) /\
    (forall b, GC_REF_COLOR h1 b = if decide (b ∈ S) then GC_GREY else GC_BLACK).
Proof.
  intros Hok Hg Ho Hroots Hcol n. pose proof (bo_first _ _ _ Hok) as Hf.
  assert (forall r, buffered g r <-> root_in g GC_FIRST_ROOT n r) as Hrin.
  { intros r. unfold GC_FIRST_ROOT, n, buffered, root_in. split; intros (i & Hi & Er); exists i; (split; [|done]).
    - destruct Hi as [? _]. unfold GC_FIRST_ROOT. lia.
    - apply (all_used h0); [done|]. unfold GC_FIRST_ROOT in Hi. lia. }
  destruct (mark_roots_loop_ok w (buffered g) h0 g n GC_FIRST_ROOT h0 [] Hg) as (h1 & S & E1 & Hm & Hall).
  - intros b Hb. destruct (Hcol b) as [H|[H _]]; rewrite Hb in H; done.
  - intros r Hr. apply Hrin in Hr as (i & Hi & <-). destruct (Hroots i Hi) as [Hr Hp]. split; [by exists i|]. split; [|done].
    destruct (bo_node _ _ _ Hok i Hi) as (x & Hx & _). apply Z.eqb_eq in Hr. destruct (aligned_root _ Hr) as (_ & Hptr & _).
    rewrite Hptr in Hx. by apply elem_of_dom_2 in Hx.
  - split; [by apply visited_refl| |]; intros a; [intros b Ha|intros Ha]; by apply elem_of_nil in Ha.
  - exists h1, S. cbn [app] in *. split; [done|]. split; [done|]. destruct Hm as [Hv Hcl Hre]. split; [|split; [done|]].
    + split; [apply Hv|]. intros a. split; [by apply Hre|]. intros (r & Hr & Hp).
      apply (succ_rtc_closed w (types_of h0) (fun x => x ∈ S) r a); [intros x y; apply Hcl|by apply Hall, Hrin|done].
    + intros b. rewrite (vs_color _ _ _ _ _ _ _ Hv). destruct (decide (b ∈ S)) as [|Hn]; [done|].
      destruct (Hcol b) as [|[_ Hb]]; [done|]. exfalso. apply Hn, Hall. by apply Hrin.
Qed.

(** * Marking and scanning: the white nodes are the dead ones *)

Lemma white_dead h h1 h2 S B W : greyed w h1 S -> scanned w h1 S h2 B W [] -> (forall b, b ∈ S -> b ∈ B ++ W) ->
  types_of h1 = types_of h -> (forall b, refcount_of h1 b = refcount_of h b - occ b (edges w (types_of h) S)) ->
  forall a, a ∈ W <-> dead h S a.
Proof.
  intros Hg Hs Hall Ht Hr a. pose proof (sc_nodup _ _ _ _ _ _ _ Hs) as Hnd. apply NoDup_app in Hnd as (_ & Hdis & _).
  assert (forall e, e ∈ S -> 0 < refcount_of h1 e -> e ∈ B) as Hheld.
  { intros e He Hp. apply Hall in He as [He|He]%elem_of_app; [done|]. destruct (sc_done _ _ _ _ _ _ _ Hs e He) as [Hz _]; [by intros ?%elem_of_nil|lia]. }
  split.
  - intros Ha. split; [apply (sc_sub _ _ _ _ _ _ _ Hs), elem_of_app; by right|]. intros (e & He & Hlt & Hp). apply (Hdis a); [|done].
    apply (succ_rtc_closed w (types_of h1) (fun x => x ∈ B) e a); [intros x y; apply (sc_closed _ _ _ _ _ _ _ Hs)| |by rewrite Ht].
    apply Hheld; [done|]. rewrite Hr. lia.
  - intros [Ha Hn]. apply Hall in Ha as [Ha|Ha]%elem_of_app; [|done]. exfalso. apply Hn.
    destruct (sc_saved _ _ _ _ _ _ _ Hs a Ha) as (e & [He Hp] & Hpath). rewrite Hr in Hp. rewrite Ht in Hpath.
    exists e. split; [done|]. split; [lia|done].
Qed.

(** * Collecting *)

(** What marking and scanning leave: black roots and white nodes [W], the latter closed in
    the sense that a path from a root to a white node is white. *)
Record analysed h2 g (W : list Z) : Prop := {
  an_buf : buf_ok h2 g [];
  an_graph : graph_ok w (types_of h2);
  an_heap : heap_ok h2;
  an_nodup : NoDup W;
  an_dom a : a ∈ W -> a ∈ dom h2;
  an_aligned a : a ∈ dom h2 -> aligned a;
  an_color b : GC_REF_COLOR h2 b = if decide (b ∈ W) then GC_WHITE else GC_BLACK;
  an_roots i : is_used g i -> GC_IS_ROOT (entry g i) = true /\ rootable (types_of h2) (entry g i);
  an_reach a : a ∈ W -> exists r, buffered g r /\ rtc (fun x y => succ w (types_of h2) x y /\ y ∈ W) r a /\ r ∈ W;
  an_small : Z.of_nat (size h2) < GC_SAFE_SIZE - 1
}.

Lemma collecting_ok h2 g W flags : analysed h2 g W ->
  exists h' g' flags' count', gc_collect_roots w junk_word (h2, g) flags = Some ((h', g'), flags', count') /\
    types_of h' = types_of h2 /\ buf_ok h' g' [] /\ heap_ok h' /\
    (forall b, refcount_of h' b = u32 (refcount_of h2 b + occ b (edges w (types_of h2) W))) /\
    (forall b, GC_REF_COLOR h' b = GC_BLACK) /\
    (forall q, buffered g' q -> exists a, q = GC_MAKE_GARBAGE a /\ a ∈ W /\ rootable (types_of h2) a) /\
    (forall a, a ∈ W -> container (types_of h2) (fun o => o ∈ W) a -> buffered g' (GC_MAKE_GARBAGE a)) /\
    ((forall a, a ∈ W -> no_destructors (types_of h2) a) -> flags' = flags).
Proof.
  intros Han. pose proof (an_buf _ _ _ Han) as Hok. pose proof (bo_first _ _ _ Hok) as Hf.
  unfold gc_collect_roots. cbn [snd]. set (n := Z.to_nat (first_unused g - GC_FIRST_ROOT)).
  destruct (remove_black_ok junk_word n GC_FIRST_ROOT h2 g [] Hok (heap_ok_info _ (an_heap _ _ _ Han)) ltac:(done)) as (h2' & g2' & l2 & -> & Hok2 & Hs2 & Hi2 & Hc2 & Hq2).
  { intros i Hi. assert (is_used g i) as Hu by (apply (all_used h2); [done|unfold n, GC_FIRST_ROOT in Hi; lia]). split; [done|]. by apply (an_roots _ _ _ Han). }
  destruct (gc_compact_ok h2' g2' l2 Hok2) as (h3 & g3 & -> & Hok3 & Hq3 & Hs3 & Hc3 & _ & Hi3). rewrite some_bind. cbn [snd].
  pose proof (same_bodies_trans _ _ _ Hs2 Hs3) as Hs. assert (types_of h3 = types_of h2) as Ht by (by apply same_bodies_types).
  assert (forall b, GC_REF_COLOR h3 b = if decide (b ∈ W) then GC_WHITE else GC_BLACK) as Hcol by (intros b; rewrite Hc3, Hc2; apply (an_color _ _ _ Han)).
  assert (forall q, buffered g3 q <-> buffered g q /\ q ∈ W) as Hq.
  { intros q. rewrite Hq3, Hq2. split; intros [Hb Hn]; (split; [done|]).
    - destruct (decide (q ∈ W)) as [|Hnw]; [done|]. exfalso. apply Hn. split; [|by rewrite (an_color _ _ _ Han), decide_False].
      destruct Hb as (i & Hi & <-). exists i. split; [|done]. destruct Hi as [? _]. unfold n, GC_FIRST_ROOT. lia.
    - intros [_ Hb']. by rewrite (an_color _ _ _ Han), decide_True in Hb'. }
  assert (whitened w h3 g3 W) as Hw.
  { split.
    - rewrite Ht. apply Han.
    - apply (heap_ok_bodies h2); [done|exact (an_heap _ _ _ Han)|exact (Hi3 Hi2)].
    - intros a Ha. rewrite (same_bodies_dom _ _ Hs). by apply (an_dom _ _ _ Han).
    - intros a Ha. by apply (an_aligned _ _ _ Han), (an_dom _ _ _ Han).
    - done.
    - done.
    - intros i Hi. assert (buffered g3 (entry g3 i)) as [Hb HW]%Hq by (by exists i). split; [done|]. rewrite Ht. destruct Hb as (j & Hj & <-). by apply (an_roots _ _ _ Han).
    - rewrite <- size_dom, (same_bodies_dom _ _ Hs), size_dom. apply Han. }
  assert (collecting w h3 g3 W h3 g3 GC_FIRST_ROOT [] []) as Hstart.
  { split; try done.
    - apply Hw.
    - constructor.
    - intros a Ha. by apply elem_of_nil in Ha.
    - intros b. rewrite edges_nil, occ_nil, Z.add_0_r. symmetry. apply u32_small, heap_ok_count, Hw.
    - intros a b Ha. by apply elem_of_nil in Ha.
    - intros i [Hi _] Hni. unfold GC_FIRST_ROOT in Hni. lia.
    - intros a Ha. by apply elem_of_nil in Ha. }
  pose proof (bo_first _ _ _ Hok3) as Hf3.
  destruct (collect_roots_loop_ok w junk_word h3 g3 W Hw (Z.to_nat (first_unused g3 - GC_FIRST_ROOT)) GC_FIRST_ROOT h3 g3 [] flags 0 Hstart)
    as (h' & g' & D & fl & ct & -> & Hfl & Hc' & _ & Hroots); [unfold GC_FIRST_ROOT; lia|].
  exists h', g', fl, ct. split; [done|]. rewrite <- Ht. split; [apply Hc'|]. split; [apply Hc'|]. split; [apply Hc'|].
  pose proof (ct_white _ _ _ _ _ _ _ _ _ Hc') as HDW. pose proof (ct_nodup _ _ _ _ _ _ _ _ _ Hc') as HDn. rewrite app_nil_r in *.
  assert (forall a, a ∈ W -> a ∈ D) as HWD.
  { intros a Ha. destruct (an_reach _ _ _ Han a Ha) as (r & Hr & Hp & HrW). rewrite <- Ht in Hp.
    assert (r ∈ D) as HrD.
    { destruct (proj2 (Hq r) (conj Hr HrW)) as (i & [Hi _] & <-). apply Hroots. unfold GC_FIRST_ROOT. lia. }
    clear Hr HrW. induction Hp as [|x y z [Hxy Hy] _ IH]; [done|]. apply IH; [done|].
    pose proof (ct_closed _ _ _ _ _ _ _ _ _ Hc' x y HrD Hxy Hy) as Hin. by rewrite app_nil_r in Hin. }
  assert (D ≡ₚ W) as HP by (apply NoDup_Permutation; [done|apply Han|intros a; split; [apply HDW|apply HWD]]).
  split; [|split; [|split; [|split]]]; [| | | |exact Hfl].
  - intros b. rewrite (ct_count _ _ _ _ _ _ _ _ _ Hc'), (same_bodies_refcount _ _ b Hs). do 2 f_equal. by apply occ_perm, edges_perm.
  - intros b. rewrite (ct_color _ _ _ _ _ _ _ _ _ Hc'), app_nil_r. destruct (decide (b ∈ D)) as [|Hn]; [done|].
    rewrite Hcol, decide_False; [done|]. intros Hb. by apply Hn, HWD.
  - intros q (i & Hi & <-). destruct (ct_garbage _ _ _ _ _ _ _ _ _ Hc' i Hi) as (a & Ha & Hra & Ea); [lia|]. by exists a.
  - intros a Ha Hcont. destruct (ct_have _ _ _ _ _ _ _ _ _ Hc' a (HWD a Ha) Hcont) as (i & Hi & Hp).
    exists i. split; [done|]. destruct (ct_garbage _ _ _ _ _ _ _ _ _ Hc' i Hi) as (b & Hb & _ & Eb); [lia|].
    rewrite Eb in Hp |- *. destruct (aligned_garbage b (wh_aligned _ _ _ _ Hw b Hb)) as (_ & _ & Hpb & _). congruence.
Qed.

(** * The whole analysis *)

Lemma analyse_ok h g l : collector_ok h g l ->
  exists h' g' flags count S W, gc_analyse w junk_word (h, g) = Some ((h', g'), flags, count) /\
    candidates h g S /\ same_bodies h h' /\ (forall a, GC_REF_COLOR h' a = GC_BLACK) /\ buf_ok h' g' [] /\
    (forall q, buffered g' q -> exists a, q = GC_MAKE_GARBAGE a /\ dead h S a /\ rootable (types_of h) a) /\
    (forall a, dead h S a -> container (types_of h) (dead h S) a -> buffered g' (GC_MAKE_GARBAGE a)) /\
    NoDup W /\ (forall a, a ∈ W <-> dead h S a) /\ heap_ok h' /\ ((forall a, a ∈ W -> no_destructors (types_of h) a) -> flags = 0).
Proof.
  intros Hco. unfold gc_analyse, gc_mark_roots.
  destruct (gc_compact_ok h g l (co_buf _ _ _ Hco)) as (h0 & g0 & -> & Hok0 & Hq0 & Hs0 & Hc0 & _ & Hi0).
  rewrite some_bind. cbn [snd]. pose proof (same_bodies_types _ _ Hs0) as Ht0.
  assert (heap_ok h0) as Ho0 by (apply (heap_ok_bodies h); [done|exact (co_heap _ _ _ Hco)|exact (Hi0 (heap_ok_info _ (co_heap _ _ _ Hco)))]).
  assert (graph_ok w (types_of h0)) as Hg0 by (rewrite Ht0; apply Hco).
  assert (forall i, is_used g0 i -> rootable (types_of h) (entry g0 i)) as Hrr0.
  { intros i Hi. destruct (proj1 (Hq0 (entry g0 i))) as (j & Hj & <-); [by exists i|]. by apply (co_rootable _ _ _ Hco). }
  assert (forall i, is_used g0 i -> GC_IS_ROOT (entry g0 i) = true /\ GC_REF_COLOR h0 (entry g0 i) = GC_PURPLE) as Hr0.
  { intros i Hi. destruct (proj1 (Hq0 (entry g0 i))) as (j & Hj & <-); [by exists i|]. rewrite Hc0. by apply (co_roots _ _ _ Hco). }
  destruct (marking_ok h0 g0 Hok0 Hg0 Ho0 Hr0) as (h1 & S & -> & Hm & Hcand & Hrin & Hcol1).
  { intros a. rewrite Hc0. destruct (co_color _ _ _ Hco a) as [|[? ?]]; [by left|right; split; [done|by apply Hq0]]. }
  rewrite some_bind. destruct Hm as [Hv1 Hcl1 Hre1]. pose proof (vs_types _ _ _ _ _ _ _ Hv1) as Ht1.
  assert (candidates h g S) as HcandS.
  { destruct Hcand as [Hnd HS]. split; [done|]. intros a. rewrite HS, Ht0. split; intros (r & Hr & Hp); exists r; (split; [by apply Hq0|done]). }
  assert (forall a, a ∈ S -> a ∈ dom h) as HSd.
  { intros a Ha. rewrite <- (same_bodies_dom _ _ Hs0). by apply (vs_new _ _ _ _ _ _ _ Hv1). }
  assert (forall b, refcount_of h1 b = refcount_of h b - occ b (edges w (types_of h) S)) as Hrc1.
  { intros b. rewrite (vs_count _ _ _ _ _ _ _ Hv1), (same_bodies_refcount _ _ b Hs0), Ht0.
    pose proof (occ_edges_all h g l b S Hco (proj1 HcandS) HSd). pose proof (heap_ok_count h b (co_heap _ _ _ Hco)). rewrite u32_small; lia. }
  assert (greyed w h1 S) as Hgrey.
  { split; rewrite ?Ht1; try done.
    - intros a Ha. by apply (vs_new _ _ _ _ _ _ _ Hv1) in Ha as [_ ?]; rewrite (visited_dom _ _ _ _ _ _ _ Hv1).
    - intros B b HnB HB. rewrite Hrc1, Ht0. pose proof (heap_ok_count h b (co_heap _ _ _ Hco)).
      pose proof (occ_edges_sub (types_of h) b B S HnB HB). lia. }
  assert (scanned w h1 S h1 [] [] []) as Hsc1.
  { split; try done; try (intros a Ha; by apply elem_of_nil in Ha); try (intros a b Ha; by apply elem_of_nil in Ha); [apply Hv1|apply NoDup_nil_2|].
    intros b. rewrite edges_nil, occ_nil, Z.add_0_r. symmetry. apply u32_small, heap_ok_count, Hv1. }
  unfold gc_scan_roots. cbn [snd].
  destruct (scan_roots_loop_ok w h1 S Hgrey g0 (Z.to_nat (first_unused g0 - GC_FIRST_ROOT)) (vs_ok _ _ _ _ _ _ _ Hv1) GC_FIRST_ROOT h1 [] [] Hsc1)
    as (h2 & B & W & -> & Hsc & _ & Hroots2).
  { intros r Hr. apply Hrin in Hr. split; [apply (proj2 Hcand); by exists r|]. destruct Hr as (i & Hi & <-). by apply Hr0. }
  rewrite some_bind. pose proof (sc_types _ _ _ _ _ _ _ Hsc) as Ht2. rewrite Ht1, Ht0 in Ht2.
  assert (forall b, b ∈ S -> b ∈ B ++ W) as Hall.
  { apply (scanned_all w h1 S h2 B W (buffered g0) Hsc).
    - intros b Hb. rewrite Ht1. by apply Hre1.
    - intros r Hr. by apply Hroots2, Hrin. }
  pose proof (sc_nodup _ _ _ _ _ _ _ Hsc) as HndBW. pose proof HndBW as (HnB & Hdis & HnW)%NoDup_app.
  assert (forall a, a ∈ W <-> dead h S a) as Hdead by (apply (white_dead h h1 h2 S B W); [done|done|done|by rewrite Ht1|done]).
  assert (buf_ok h2 g0 []) as Hok2.
  { apply (buf_ok_heap h0); [|intros b; rewrite (sc_address _ _ _ _ _ _ _ Hsc); apply Hv1|done].
    rewrite <- !types_dom. by rewrite Ht2, Ht0. }
  assert (analysed h2 g0 W) as Han.
  { split; rewrite ?Ht2; try done.
    - apply Hco.
    - apply Hsc.
    - intros a Ha. rewrite <- types_dom, Ht2, types_dom. apply HSd, (sc_sub _ _ _ _ _ _ _ Hsc), elem_of_app. by right.
    - intros a. rewrite <- types_dom, Ht2, types_dom. apply (co_aligned _ _ _ Hco).
    - intros b. rewrite (sc_color _ _ _ _ _ _ _ Hsc), Hcol1. destruct (decide (b ∈ B)) as [Hb|Hb]; [by rewrite decide_False by (by apply Hdis)|].
      destruct (decide (b ∈ W)); [done|]. rewrite decide_False; [done|]. intros Hs%Hall%elem_of_app. tauto.
    - intros i Hi. split; [by apply Hr0|by apply Hrr0].
    - intros a Ha. assert (a ∈ S) as HaS by (apply (sc_sub _ _ _ _ _ _ _ Hsc), elem_of_app; by right).
      destruct (proj1 (proj2 Hcand a) HaS) as (r & Hr & Hp). rewrite Ht0 in Hp.
      assert (r ∈ S) as HrS by (apply (proj2 Hcand); by exists r). exists r. split; [done|].
      assert (forall x, rtc (succ w (types_of h)) x a -> x ∈ S -> x ∈ W /\ rtc (fun x y => succ w (types_of h) x y /\ y ∈ W) x a) as Hwalk.
      { intros x Hx. induction Hx as [z|x y z Hxy Hyz IH]; intros HxS; [by split|].
        assert (y ∈ S) as HyS by (apply (Hcl1 x); [done|by rewrite Ht0]). destruct (IH Ha HaS Hp HyS) as [HyW Hpath]. split; [|by eapply rtc_l].
        apply Hall in HxS as [HxB|]%elem_of_app; [|done]. exfalso. apply (Hdis y); [|done].
        apply (sc_closed _ _ _ _ _ _ _ Hsc x y HxB). by rewrite Ht1, Ht0. }
      destruct (Hwalk r Hp HrS). by split.
    - rewrite <- size_dom, <- types_dom, Ht2, types_dom, size_dom. apply Hco. }
  destruct (collecting_ok h2 g0 W 0 Han) as (h' & g' & fl & ct & -> & Ht' & Hok' & Ho' & Hrc' & Hcol' & Hq' & Hhave' & Hfl').
  exists h', g', fl, ct, S, W. split; [done|]. split; [done|]. rewrite Ht2 in Hfl'. split; [|split; [done|split; [done|split; [|split; [|by split_and!]]]]].
  - apply same_bodies_of; [by rewrite Ht', Ht2|]. intros b. rewrite Hrc', (sc_count _ _ _ _ _ _ _ Hsc), u32_add, Hrc1, Ht2, Ht1, Ht0.
    rewrite <- (u32_small (refcount_of h b)) by (apply heap_ok_count, Hco). f_equal.
    assert (occ b (edges w (types_of h) S) = occ b (edges w (types_of h) B) + occ b (edges w (types_of h) W)) as ->.
    { rewrite <- occ_app, <- edges_app. apply occ_perm, edges_perm. apply NoDup_Permutation; [apply HcandS|done|].
      intros a. split; [apply Hall|apply (sc_sub _ _ _ _ _ _ _ Hsc)]. }
    rewrite u32_small by (apply heap_ok_count, Hco). lia.
  - intros q Hq. destruct (Hq' q Hq) as (a & -> & Ha & Hra). rewrite Ht2 in Hra. exists a. split; [done|]. split; [by apply Hdead|done].
  - intros a Ha Hcont. apply Hhave'; [by apply Hdead|]. rewrite Ht2. unfold container in *. destruct (types_of h !! a) as [[t|obj|val|]|]; try done.
    intros o obj Ho. apply Hcont. by apply Hdead.
Qed.

(** A node that something outside of the heap refers to. *)
Definition held_outside h (e : Z) : Prop := e ∈ dom h /\ occ e (edges w (types_of h) (elements (dom h))) < refcount_of h e.

Lemma candidates_dom h g l S a : collector_ok h g l -> candidates h g S -> a ∈ S -> a ∈ dom h.
Proof.
  intros Hco [_ HS] (r & (i & Hi & <-) & Hp)%HS. rewrite <- types_dom.
  apply (succ_rtc_closed w (types_of h) (fun x => x ∈ dom (types_of h)) (entry g i) a); [intros x y _; apply (go_closed _ _ (co_graph _ _ _ Hco))| |done].
  destruct (co_roots _ _ _ Hco i Hi) as [Hr _]. apply Z.eqb_eq in Hr. destruct (aligned_root _ Hr) as (_ & Hptr & _).
  destruct (bo_node _ _ _ (co_buf _ _ _ Hco) i Hi) as (x & Hx & _). rewrite Hptr in Hx. rewrite types_dom. by apply elem_of_dom_2 in Hx.
Qed.

Lemma occ_two_parts h g l x y (G : list Z) : collector_ok h g l -> NoDup G -> (forall a, a ∈ G -> a ∈ dom h) -> x ∈ dom h -> x ∉ G ->
  succ w (types_of h) x y -> occ y (edges w (types_of h) G) < refcount_of h y.
Proof.
  intros Hco Hnd Hd Hx Hn Hxy. pose proof (occ_elem y (children w (types_of h) x) Hxy).
  destruct (occ_edges_all h g l y (x :: G) Hco) as [_ Hle].
  - by apply NoDup_cons.
  - intros a [->|Ha]%elem_of_cons; [done|by apply Hd].
  - rewrite edges_cons, occ_app in Hle. lia.
Qed.

(** What an outside reference reaches is not dead. *)
Lemma held_alive h g l S e x : collector_ok h g l -> candidates h g S -> held_outside h e -> rtc (succ w (types_of h)) e x -> ~ dead h S x.
Proof.
  intros Hco Hc [Hed He] Hp [HxS Hn]. apply Hn. pose proof (candidates_dom h g l S) as Hdom.
  assert (e ∈ S -> occ e (edges w (types_of h) S) < refcount_of h e) as Hhe.
  { intros _. eapply Z.le_lt_trans; [|exact He]. apply occ_edges_sub; [apply Hc|]. intros a Ha. apply elem_of_elements. by apply Hdom. }
  clear He Hn. induction Hp as [x|y z x Hyz Hzx IH].
  - exists x. split; [done|]. split; [by apply Hhe|done].
  - destruct (decide (y ∈ S)) as [Hy|Hy]; [exists y; split; [done|]; split; [by apply Hhe|by eapply rtc_l]|].
    apply IH; [|done|].
    + rewrite <- types_dom. by apply (go_closed _ _ (co_graph _ _ _ Hco) y).
    + intros Hz. apply (occ_two_parts h g l y z S); [done|apply Hc|intros a Ha; by apply Hdom|done|done|done].
Qed.

(** Candidates whose references all come from one another are dead. *)
Lemma isolated_dead h g l S G : collector_ok h g l -> candidates h g S -> NoDup G -> (forall a, a ∈ G -> a ∈ S) ->
  (forall a, a ∈ G -> refcount_of h a = occ a (edges w (types_of h) G)) -> forall a, a ∈ G -> dead h S a.
Proof.
  intros Hco Hc Hnd HGS Hrc a Ha. split; [by apply HGS|]. intros (e & HeS & Hlt & Hp).
  assert (e ∈ G) as HeG.
  { assert (forall x y, x ∈ S -> succ w (types_of h) x y -> y ∈ S) as Hcl.
    { intros x y (r & Hr & Hpr)%(proj2 Hc) Hxy. apply (proj2 Hc). exists r. split; [done|]. by eapply rtc_r. }
    clear Hlt. induction Hp as [x|x y z Hxy _ IH]; [done|]. specialize (IH Ha (Hcl x y HeS Hxy)).
    destruct (decide (x ∈ G)) as [|Hx]; [done|exfalso].
    assert (occ y (edges w (types_of h) G) < refcount_of h y); [|rewrite Hrc in * by done; lia].
    apply (occ_two_parts h g l x y G); [done|done| |by apply (candidates_dom h g l S)|done|done].
    intros b Hb. apply (candidates_dom h g l S); [done|done|by apply HGS]. }
  rewrite (Hrc e HeG) in Hlt. pose proof (occ_edges_sub (types_of h) e G S Hnd HGS). lia.
Qed.

(** C8: the analysis of a collection ends and decides exactly which nodes are
    garbage: those that buffered roots reach and that no candidate with a
    reference from elsewhere reaches.  The buffer then holds, tagged, the
    objects and arrays among them and nothing else; counts and contents of all
    nodes are what they were, and every colour is black. *)
Theorem gc_analyse_correct h g l : collector_ok h g l ->
  exists h' g' flags count S, gc_analyse w junk_word (h, g) = Some ((h', g'), flags, count) /\
    candidates h g S /\ same_bodies h h' /\ (forall a, GC_REF_COLOR h' a = GC_BLACK) /\ buf_ok h' g' [] /\
    (forall q, buffered g' q -> exists a, q = GC_MAKE_GARBAGE a /\ dead h S a /\ rootable (types_of h) a) /\
    (forall a, dead h S a -> container (types_of h) (dead h S) a -> buffered g' (GC_MAKE_GARBAGE a)).
Proof.
  intros Hco. destruct (analyse_ok h g l Hco) as (h' & g' & fl & ct & S & W & H1 & H2 & H3 & H4 & H5 & H6 & H7 & _). by exists h', g', fl, ct, S.
Qed.

(** A node that the program can still reach is never among the garbage: not
    a node with a reference from outside of the counted heap, nor anything
    reachable from it. *)
Theorem gc_analyse_safe h g l : collector_ok h g l ->
  exists h' g' flags count, gc_analyse w junk_word (h, g) = Some ((h', g'), flags, count) /\
    forall e x, held_outside h e -> rtc (succ w (types_of h)) e x -> forall q, buffered g' q -> GC_GET_PTR q <> x.
Proof.
  intros Hco. destruct (analyse_ok h g l Hco) as (h' & g' & fl & ct & S & W & Ea & Hc & _ & _ & _ & Hq & _).
  exists h', g', fl, ct. split; [done|]. intros e x He Hp q Hb Hx. destruct (Hq q Hb) as (a & -> & Ha & _).
  assert (aligned a) as Hal by (apply (co_aligned _ _ _ Hco), (candidates_dom h g l S); [done|done|apply Ha]).
  destruct (aligned_garbage a Hal) as (_ & _ & Hptr & _). rewrite Hptr in Hx. subst x. by apply (held_alive h g l S e a).
Qed.

(** C9: every cycle that only its own members refer to is found once a buffered
    root reaches all of it: its objects, and its arrays other than properties
    tables, are in the buffer as garbage. *)
Theorem gc_analyse_complete h g l : collector_ok h g l ->
  exists h' g' flags count, gc_analyse w junk_word (h, g) = Some ((h', g'), flags, count) /\
    forall G, NoDup G -> (forall a, a ∈ G -> exists r, buffered g r /\ rtc (succ w (types_of h)) r a) ->
      (forall a, a ∈ G -> refcount_of h a = occ a (edges w (types_of h) G)) ->
      forall a, a ∈ G -> container (types_of h) (fun _ => True) a -> buffered g' (GC_MAKE_GARBAGE a).
Proof.
  intros Hco. destruct (analyse_ok h g l Hco) as (h' & g' & fl & ct & S & W & Ea & Hc & _ & _ & _ & _ & Hg & _).
  exists h', g', fl, ct. split; [done|]. intros G Hnd HG Hrc a Ha Hcont.
  apply Hg; [apply (isolated_dead h g l S G); try done; intros b Hb; by apply (proj2 Hc), HG|].
  unfold container in *. destruct (types_of h !! a) as [[t|obj|val|]|]; try done. intros o obj _. by apply Hcont.
Qed.
End Cycles.
