(* ===== verification/GcFree.v ===== *)
(** The second half of a collection (Zend/zend_gc.c): destructors, destruction
    of the garbage and its release, on top of the destruction of values by
    reference counts (Zend/zend_variables.c, Zend/zend_objects.c,
    Zend/zend_objects_API.c, Zend/zend_hash.c).  Freed nodes leave the heap;
    [None] is an access to a freed node.  Object handles and weak references
    are not represented. *)

From stdpp Require Import base numbers list gmap.
From S2P Require Import Prelude ZendTypes HashTable HashOps GcBuffer GcRoots GcCompact GcGraph GcVisit.

Section Free.
Context {V : Type} {E : ZEnv V} {C : Collectable V} (w : EG V) (junk_word : nat -> Z).
(** The function behind the pointer [gc_collect_cycles], and the handler
    [dtor_obj] of objects, which runs the destructor of the class. *)
Context (gc_collect_cycles : gc_state (V := V) -> option (gc_state (V := V) * Z)) (dtor_obj : Z -> gc_state (V := V) -> option (gc_state (V := V))).
Implicit Types (h : gmap Z (zend_refcounted V)) (s : gc_state (V := V)).

(** * Nodes *)

Definition set_GC_TYPE (ty : gc_type V) (r : zend_refcounted V) := mk_refcounted (GC_REFCOUNT r) (GC_INFO r) ty.
Definition type_at s (ref : Z) : option (gc_type V) := GC_TYPE <$> s.1 !! ref.
Definition on_node (f : zend_refcounted V -> zend_refcounted V) (ref : Z) s : option (gc_state (V := V)) :=
  r ← s.1 !! ref; Some (<[ref := f r]> s.1, s.2).

(** [GC_TYPE_INFO(p) = GC_NULL | (GC_TYPE_INFO(p) & ~GC_TYPE_MASK)]; and without the rest. *)
Definition set_null : Z -> gc_state (V := V) -> option (gc_state (V := V)) := on_node (set_GC_TYPE GC_NULL).
Definition reset_null : Z -> gc_state (V := V) -> option (gc_state (V := V)) := on_node (fun r => set_GC_INFO 0 (set_GC_TYPE GC_NULL r)).
Definition addref : Z -> gc_state (V := V) -> option (gc_state (V := V)) := on_node (fun r => set_GC_REFCOUNT (u32 (GC_REFCOUNT r + 1)) r).
Definition delref : Z -> gc_state (V := V) -> option (gc_state (V := V)) := on_node (fun r => set_GC_REFCOUNT (u32 (GC_REFCOUNT r - 1)) r).
Definition set_refcount (n : Z) : Z -> gc_state (V := V) -> option (gc_state (V := V)) := on_node (set_GC_REFCOUNT n).

Definition efree (ref : Z) s : option (gc_state (V := V)) := _ ← s.1 !! ref; Some (delete ref s.1, s.2).

Definition set_IS_OBJ_DESTRUCTOR_CALLED (obj : zend_object V) := mk_zend_object (IS_OBJ_FREE_CALLED obj) true (has_destructor obj) (get_gc obj).
Definition set_IS_OBJ_FREE_CALLED (obj : zend_object V) := mk_zend_object true (IS_OBJ_DESTRUCTOR_CALLED obj) (has_destructor obj) (get_gc obj).
Definition on_object (f : zend_object V -> zend_object V) : Z -> gc_state (V := V) -> option (gc_state (V := V)) :=
  on_node (fun r => set_GC_TYPE (match GC_TYPE r with IS_OBJECT obj => IS_OBJECT (f obj) | ty => ty end) r).

(** [GC_REMOVE_FROM_BUFFER] *)
Definition GC_REMOVE_FROM_BUFFER (ref : Z) s : option (gc_state (V := V)) :=
  r ← s.1 !! ref; if negb (GC_INFO r =? 0) then gc_remove_from_buffer ref s else Some s.

(** * Destruction by reference counts *)

Section Dtor.
(** [rc_dtor_func], which the operations below call again. *)
Context (rc_dtor_func : Z -> gc_state (V := V) -> option (gc_state (V := V))).

(** [GC_MAY_LEAK] and what follows from it; the type [GC_NULL] and references are not collectable. *)
Definition gc_check_leak (ref : Z) s : option (gc_state (V := V)) :=
  r ← s.1 !! ref;
  match GC_TYPE r with
  | IS_ARRAY _ | IS_OBJECT _ => if GC_INFO r =? 0 then gc_possible_root junk_word gc_collect_cycles rc_dtor_func ref s else Some s
  | IS_REFERENCE _ | GC_NULL => Some s
  end.

Definition gc_check_possible_root (ref : Z) s : option (gc_state (V := V)) :=
  r ← s.1 !! ref;
  match GC_TYPE r with
  | IS_REFERENCE val =>
      if GC_INFO r =? 0 then match Z_COLLECTABLE val with None => Some s | Some ref => gc_check_leak ref s end
      else gc_check_leak ref s
  | _ => gc_check_leak ref s
  end.

(** For values that are not collectable, strings among them, nothing happens here. *)
Definition i_zval_ptr_dtor (zv : zval V) s : option (gc_state (V := V)) :=
  match Z_COLLECTABLE zv with
  | None => Some s
  | Some ref =>
      s ← delref ref s;
      if refcount_of s.1 ref =? 0 then rc_dtor_func ref s else gc_check_possible_root ref s
  end.

Fixpoint zvals_dtor (zs : list (zval V)) s : option (gc_state (V := V)) :=
  match zs with [] => Some s | zv :: zs => s ← i_zval_ptr_dtor zv s; zvals_dtor zs s end.

(** The values of a table as they stand in it: indirect ones are not followed. *)
Definition table_vals (t : HashTable V) : list (zval V) := pos_val t <$> zrange 0 (Z.to_nat (nNumUsed t)).

(** The values of a table whose destructor is [ZVAL_PTR_DTOR]; the keys, the iterators
    and the memory of the table do not concern other nodes. *)
Definition zend_hash_destroy (t : HashTable V) : gc_state (V := V) -> option (gc_state (V := V)) := zvals_dtor (table_vals t).

(** For arrays whose destructor is [ZVAL_PTR_DTOR]. *)
Definition zend_array_destroy (ref : Z) (t : HashTable V) s : option (gc_state (V := V)) :=
  s ← GC_REMOVE_FROM_BUFFER ref s;
  s ← reset_null ref s;
  s ← (if negb (nNumUsed t =? 0) then zvals_dtor (table_vals t) s else Some s);
  efree ref s.

Definition zend_reference_destroy (ref : Z) (val : zval V) s : option (gc_state (V := V)) :=
  s ← i_zval_ptr_dtor val s;
  efree ref s.

Definition zend_object_dtor_dynamic_properties (ht : option Z) s : option (gc_state (V := V)) :=
  match ht with
  | None => Some s
  | Some ht =>
      s ← delref ht s;
      if refcount_of s.1 ht =? 0 then
        match type_at s ht with
        | Some (IS_ARRAY t) => zend_array_destroy ht t s
        | Some GC_NULL => Some s
        | _ => None
        end
      else Some s
  end.

(** The standard handler [free_obj], for objects whose properties are the ones [get_gc] reports:
    all of them in a table, or the declared ones in slots of the object. *)
Definition zend_object_std_dtor (obj : zend_object V) s : option (gc_state (V := V)) :=
  s ← zend_object_dtor_dynamic_properties (get_gc obj).1 s;
  zvals_dtor (get_gc obj).2 s.

Definition zend_objects_store_del (ref : Z) (obj : zend_object V) s : option (gc_state (V := V)) :=
  s ← (if negb (IS_OBJ_DESTRUCTOR_CALLED obj) then
         s ← on_object set_IS_OBJ_DESTRUCTOR_CALLED ref s;
         if has_destructor obj then
           s ← set_refcount 1 ref s; s ← dtor_obj ref s; delref ref s
         else Some s
       else Some s);
  if refcount_of s.1 ref =? 0 then
    s ← match type_at s ref with
        | Some (IS_OBJECT obj) =>
            if negb (IS_OBJ_FREE_CALLED obj) then
              s ← on_object set_IS_OBJ_FREE_CALLED ref s;
              s ← set_refcount 1 ref s;
              zend_object_std_dtor obj s
            else Some s
        | _ => None
        end;
    s ← GC_REMOVE_FROM_BUFFER ref s;
    efree ref s
  else Some s.
End Dtor.

(** The table [zend_rc_dtor_func]; [n] bounds the depth of the recursion. *)
Fixpoint rc_dtor_func (n : nat) (ref : Z) s : option (gc_state (V := V)) :=
  match n with
  | O => None
  | S n =>
      match type_at s ref with
      | None => None
      | Some GC_NULL => Some s
      | Some (IS_ARRAY t) => zend_array_destroy (rc_dtor_func n) ref t s
      | Some (IS_OBJECT obj) => zend_objects_store_del (rc_dtor_func n) ref obj s
      | Some (IS_REFERENCE val) => zend_reference_destroy (rc_dtor_func n) ref val s
      end
  end.

(** * Destruction of the garbage *)

(** "Destroy zvals."  A node of type [GC_NULL] is opaque: the flags of the object
    (FREE_CALLED is set there) are not looked at any more. *)
Definition destroy_garbage (n : nat) (idx p : Z) s : option (gc_state (V := V)) :=
  match type_at s p with
  | None => None
  | Some (IS_OBJECT obj) =>
      s ← set_null p s;
      let s := (s.1, set_entry idx (GC_MAKE_GARBAGE p) s.2) in
      if negb (IS_OBJ_FREE_CALLED obj) then
        s ← addref p s;
        s ← zend_object_std_dtor (rc_dtor_func n) obj s;
        delref p s
      else Some s
  | Some (IS_ARRAY t) => s ← set_null p s; zend_hash_destroy (rc_dtor_func n) t s
  | Some _ => Some s
  end.

Fixpoint destroy_loop (fuel n : nat) (idx : Z) s : option (gc_state (V := V)) :=
  match n with
  | O => Some s
  | S n =>
      s ← (if GC_IS_GARBAGE (entry s.2 idx) then destroy_garbage fuel idx (GC_GET_PTR (entry s.2 idx)) s else Some s);
      destroy_loop fuel n (idx + 1) s
  end.

(** "Free objects" *)
Fixpoint free_loop (n : nat) (current : Z) s : option (gc_state (V := V)) :=
  match n with
  | O => Some s
  | S n =>
      s ← (if GC_IS_GARBAGE (entry s.2 current) then
             efree (GC_GET_PTR (entry s.2 current)) (s.1, gc_remove_from_roots current s.2)
           else Some s);
      free_loop n (current + 1) s
  end.

(** * Destructors *)

(** Garbage whose destructor will be called becomes purple. *)
Fixpoint mark_dtor_loop (n : nat) (idx : Z) s : option (gc_state (V := V)) :=
  match n with
  | O => Some s
  | S n =>
      let p := GC_GET_PTR (entry s.2 idx) in
      s ← (if GC_IS_GARBAGE (entry s.2 idx) then
             match type_at s p with
             | Some (IS_OBJECT obj) =>
                 if negb (IS_OBJ_DESTRUCTOR_CALLED obj) then
                   if has_destructor obj
                   then Some (GC_REF_SET_COLOR p GC_PURPLE s.1, set_entry idx (GC_MAKE_DTOR_GARBAGE p) s.2)
                   else on_object set_IS_OBJ_DESTRUCTOR_CALLED p s
                 else Some s
             | Some _ => Some s
             | None => None
             end
           else Some s);
      mark_dtor_loop n (idx + 1) s
  end.

(** The nodes next to [ref] in the traversal that takes nested data out of the
    buffer: those pushed, and those found by the last loop.  The properties
    table of an object is taken out with it. *)
Definition nested_children (ref : Z) s : option (gc_state (V := V) * (list Z * list Z)) :=
  match type_at s ref with
  | Some (IS_OBJECT obj) =>
      if IS_OBJ_FREE_CALLED obj then Some (s, ([], []))
      else
        match (get_gc obj).1 with
        | Some ht =>
            s ← (if negb (GC_REF_ADDRESS s.1 ht =? 0) && GC_REF_CHECK_COLOR s.1 ht GC_BLACK then gc_remove_from_buffer ht s else Some s);
            Some (s, (omap Z_COLLECTABLE (get_gc obj).2, omap Z_COLLECTABLE (table_zvals w s.1 ht)))
        | None => Some (s, ([], omap Z_COLLECTABLE (get_gc obj).2))
        end
  | Some (IS_ARRAY t) => Some (s, ([], omap Z_COLLECTABLE (ht_zvals w t)))
  | Some _ => Some (s, ([], []))
  | None => None
  end.

(** [root]: the first node, which stays in the buffer. *)
Fixpoint gc_remove_nested_data_from_buffer (n : nat) (ref : Z) (root : bool) (stack : list Z) s (count : Z) : option (gc_state (V := V) * Z) :=
  match n with
  | O => None
  | S n =>
      let next (stack : list Z) s (count : Z) :=
        match stack with [] => Some (s, count) | ref :: stack => gc_remove_nested_data_from_buffer n ref false stack s count end in
      if root || negb (GC_REF_ADDRESS s.1 ref =? 0) && GC_REF_CHECK_COLOR s.1 ref GC_BLACK then
        s ← (if root then Some s else gc_remove_from_buffer ref s);
        '(s, (pushed, found)) ← nested_children ref s;
        next (next_refs pushed found stack) s (count + 1)
      else
        match type_at s ref with
        | Some (IS_REFERENCE val) =>
            match Z_COLLECTABLE val with
            | Some ref => gc_remove_nested_data_from_buffer n ref false stack s count
            | None => next stack s count
            end
        | Some _ => next stack s count
        | None => None
        end
  end.

(** Each node is entered at most once and then its children are pushed, some
    through a reference. *)
Definition nested_fuel s : nat := 2 * S (length (edges w (types_of s.1) (elements (dom s.1)))).

Fixpoint remove_nested_loop (n : nat) (idx : Z) s (count : Z) : option (gc_state (V := V) * Z) :=
  match n with
  | O => Some (s, count)
  | S n =>
      '(s, count) ← (if GC_IS_DTOR_GARBAGE (entry s.2 idx) then
          '(s, removed) ← gc_remove_nested_data_from_buffer (nested_fuel s) (GC_GET_PTR (entry s.2 idx)) true [] s 0;
          Some (s, count - removed)
        else Some (s, count));
      remove_nested_loop n (idx + 1) s count
  end.

(** [gc_call_destructors] without a fiber, as the runtime calls it. *)
Fixpoint gc_call_destructors (n : nat) (idx : Z) s : option (gc_state (V := V)) :=
  match n with
  | O => Some s
  | S n =>
      s ← (if GC_IS_DTOR_GARBAGE (entry s.2 idx) then
             let p := GC_GET_PTR (entry s.2 idx) in
             let s := (s.1, set_entry idx p s.2) in
             match type_at s p with
             | Some (IS_OBJECT obj) =>
                 if negb (IS_OBJ_DESTRUCTOR_CALLED obj) then
                   s ← on_object set_IS_OBJ_DESTRUCTOR_CALLED p s;
                   s ← addref p s; s ← dtor_obj p s; delref p s
                 else Some s
             | _ => None
             end
           else Some s);
      gc_call_destructors n (idx + 1) s
  end.

(** * A collection *)

(** The temporary values of the running functions, which are held without being
    counted as roots meanwhile. *)
Context (tmpvars : list (zval V)).

Fixpoint zend_gc_remove_root_tmpvars (vars : list (zval V)) s : option (gc_state (V := V)) :=
  match vars with
  | [] => Some s
  | var :: vars =>
      s ← match Z_COLLECTABLE var with Some ref => GC_REMOVE_FROM_BUFFER ref s | None => Some s end;
      zend_gc_remove_root_tmpvars vars s
  end.

Fixpoint zend_gc_check_root_tmpvars (n : nat) (vars : list (zval V)) s : option (gc_state (V := V)) :=
  match vars with
  | [] => Some s
  | var :: vars =>
      s ← match Z_COLLECTABLE var with Some ref => gc_check_possible_root (rc_dtor_func n) ref s | None => Some s end;
      zend_gc_check_root_tmpvars n vars s
  end.

(** What follows the analysis: all values of the garbage are destroyed before any node is freed. *)
Definition destroy_and_free (end_ count : Z) s : option (gc_state (V := V)) :=
  let n := Z.to_nat (end_ - GC_FIRST_ROOT) in
  s ← destroy_loop (S (size s.1)) n GC_FIRST_ROOT s;
  s ← free_loop n GC_FIRST_ROOT s;
  Some (s.1, set_gc_active false (set_collected (u32 (collected s.2 + count)) s.2)).

Definition call_destructors (end_ count : Z) s : option (gc_state (V := V) * Z) :=
  let n := Z.to_nat (end_ - GC_FIRST_ROOT) in
  s ← mark_dtor_loop n GC_FIRST_ROOT s;
  '(s, count) ← remove_nested_loop n GC_FIRST_ROOT s count;
  s ← gc_call_destructors n GC_FIRST_ROOT s;
  Some (s, count).

(** How one run from the label [rerun_gc] ends. *)
Inductive run_result :=
| RunReturn (s : gc_state (V := V))                                (* [return 0] *)
| RunFinish (s : gc_state (V := V))                                (* [goto finish] *)
| RunDone (s : gc_state (V := V)) (count : Z) (should_rerun : bool).

Definition gc_run s : option run_result :=
  if negb (num_roots s.2 =? 0) then
    if gc_active s.2 then Some (RunReturn s)
    else
      let s := (s.1, set_gc_active true (set_gc_runs (u32 (gc_runs s.2 + 1)) s.2)) in
      '(s, flags, count) ← gc_analyse w junk_word s;
      if num_roots s.2 =? 0 then Some (RunFinish (s.1, set_gc_active false s.2))
      else
        let end_ := first_unused s.2 in
        if negb (Z.land flags GC_HAS_DESTRUCTORS =? 0) then
          '(s, count) ← call_destructors end_ count s;
          if gc_protected s.2 then Some (RunReturn s)
          else
            s ← destroy_and_free end_ count s;
            s ← gc_compact s;
            Some (RunDone s count true)
        else
          s ← destroy_and_free end_ count s;
          s ← gc_compact s;
          Some (RunDone s count false)
  else s ← gc_compact s; Some (RunDone s 0 false).

Definition gc_finish s (total_count : Z) : option (gc_state (V := V) * Z) :=
  let s := (s.1, set_gc_active true s.2) in
  s ← zend_gc_check_root_tmpvars (S (size s.1)) tmpvars s;
  Some ((s.1, set_gc_active false s.2), total_count).

(** The second run follows only a run that called destructors. *)
Definition zend_gc_collect_cycles s : option (gc_state (V := V) * Z) :=
  s ← (if negb (num_roots s.2 =? 0) && negb (gc_active s.2) then zend_gc_remove_root_tmpvars tmpvars s else Some s);
  r ← gc_run s;
  match r with
  | RunReturn s => Some (s, 0)
  | RunFinish s => gc_finish s 0
  | RunDone s count should_rerun =>
      if should_rerun then
        r ← gc_run s;
        match r with
        | RunReturn s => Some (s, 0)
        | RunFinish s => gc_finish s count
        | RunDone s count' _ => gc_finish s (count + count')
        end
      else gc_finish s count
  end.
End Free.
