(* ===== verification/GcRelease.v ===== *)
(** Destruction of garbage by reference counts: what the counts, the contents
    and the buffer are while values are destroyed, nested in one another. *)

From stdpp Require Import base numbers list gmap sets relations.
From S2P Require Import Prelude ZendTypes HashTable HashOps GcBuffer GcRoots GcCompact GcGraph GcVisit GcMark GcScan GcCollect GcFree.

Lemma smaller (J : gset Z) b : b ∈ J -> (size (J ∖ {[b]}) + 1 = size J)%nat.
Proof. intros Hb. rewrite size_difference by set_solver. rewrite size_singleton. assert (size J <> 0)%nat; [|lia]. intros Hz%size_empty_inv. set_solver. Qed.

Section Release.
Context {V : Type} {E : ZEnv V} {C : Collectable V} (w : EG V) (junk_word : nat -> Z).
Context (gc_collect_cycles : gc_state (V := V) -> option (gc_state (V := V) * Z)) (dtor_obj : Z -> gc_state (V := V) -> option (gc_state (V := V))).
Implicit Types (h : gmap Z (zend_refcounted V)) (J N F : gset Z) (P : list Z).

(** The heap before, and the garbage. *)
Context (h0 : gmap Z (zend_refcounted V)) (G : list Z).
Local Notation ts := (types_of h0).
Local Notation rc_dtor := (rc_dtor_func junk_word gc_collect_cycles dtor_obj).

(** The properties table of a garbage object. *)
Definition table_of (a : Z) : Prop := exists o obj, o ∈ G /\ ts !! o = Some (IS_OBJECT obj) /\ (get_gc obj).1 = Some a.
Definition direct (t : HashTable V) : Prop := forall v, v ∈ table_vals t -> match v with IS_INDIRECT _ => False | _ => True end.

Record garbage_ok : Prop := {
  gb_graph : graph_ok w ts;
  gb_nodup : NoDup G;
  gb_dom a : a ∈ G -> a ∈ dom h0;
  gb_count a : a ∈ G -> refcount_of h0 a = occ a (edges w ts G);
  gb_le b : occ b (edges w ts G) <= refcount_of h0 b;
  gb_pred a b : succ w ts a b -> b ∈ G -> a ∈ G;
  gb_live a b : a ∈ G -> succ w ts a b -> b ∉ G -> occ b (edges w ts G) < refcount_of h0 b;
  gb_direct a t : a ∈ G -> ts !! a = Some (IS_ARRAY t) -> direct t;
  gb_ref a val b t : a ∈ G -> ts !! a = Some (IS_REFERENCE val) -> Z_COLLECTABLE val = Some b -> ts !! b <> Some (IS_REFERENCE t);
  gb_table t : table_of t -> refcount_of h0 t = 1;
  gb_obj a obj : a ∈ G -> ts !! a = Some (IS_OBJECT obj) ->
    IS_OBJ_FREE_CALLED obj = false /\ (IS_OBJ_DESTRUCTOR_CALLED obj = true \/ has_destructor obj = false);
  gb_whole a : a ∈ G -> ts !! a <> Some GC_NULL;
  gb_held a val : a ∈ G -> ts !! a = Some (IS_REFERENCE val) -> 0 < refcount_of h0 a;
  gb_room a : a ∈ G -> refcount_of h0 a < 2 ^ 32 - 1;
  gb_aligned a : a ∈ dom h0 -> aligned a;
  gb_above : heap_above h0;
  gb_small : Z.of_nat (size h0) < GC_SAFE_SIZE - 1
}.
Context (Hgb : garbage_ok).

(** References from nodes that are no garbage, and from elsewhere. *)
Definition base (b : Z) : Z := refcount_of h0 b - occ b (edges w ts G).
Definition refs J : list Z := edges w ts (elements J).

(** The garbage consists of the nodes [J] that are whole, the nodes [N] that
    are destroyed and wait to be freed, the nodes [F] that are just being freed,
    and those that are freed.  [P]: references out of destroyed values that
    have yet to be dropped. *)
Record releasing h g (l : list Z) J N F P : Prop := {
  rl_dom a : a ∈ dom h <-> (a ∈ dom h0 /\ a ∉ G) \/ a ∈ J \/ a ∈ N \/ a ∈ F;
  rl_garbage a : a ∈ J \/ a ∈ N \/ a ∈ F -> a ∈ G;
  rl_disjoint a : (a ∈ J -> a ∉ N /\ a ∉ F) /\ (a ∈ N -> a ∉ F);
  rl_types a : (a ∈ dom h0 /\ a ∉ G) \/ a ∈ J -> types_of h !! a = ts !! a;
  rl_null a : a ∈ N -> types_of h !! a = Some GC_NULL;
  rl_count a : a ∈ dom h -> a ∉ F -> refcount_of h a = base a + occ a (refs J) + occ a P;
  rl_pos a : a ∈ J -> 0 < refcount_of h0 a -> 0 < refcount_of h a;
  rl_le a : a ∈ J -> refcount_of h a <= refcount_of h0 a;
  rl_pending a : a ∈ P \/ a ∈ refs J -> a ∈ dom h /\ a ∉ F /\ (a ∈ G \/ 0 < base a);
  rl_heap : heap_ok h;
  rl_buf : buf_ok h g l;
  rl_active : gc_active g = true;
  rl_color a : GC_REF_COLOR h a = GC_BLACK \/ GC_REF_COLOR h a = GC_PURPLE /\ a ∉ G /\ buffered g a;
  rl_entries i : is_used g i -> (exists a, (a ∈ J \/ a ∈ N \/ a ∈ F) /\ entry g i = GC_MAKE_GARBAGE a) \/
    (entry g i ∉ G /\ aligned (entry g i) /\ GC_REF_COLOR h (entry g i) = GC_PURPLE /\ rootable ts (entry g i));
  rl_entered a : a ∈ J -> match ts !! a with Some (IS_REFERENCE _) => False | _ => True end -> ~ table_of a -> info_of h a <> 0;
  rl_waiting a : a ∈ N -> info_of h a <> 0;
  rl_plain a val : a ∈ J -> ts !! a = Some (IS_REFERENCE val) -> info_of h a = 0
}.

(** No entry is newly tagged as garbage. *)
Definition tags_kept g g' : Prop := first_unused g <= first_unused g' /\ forall i, is_used g' i -> GC_IS_GARBAGE (entry g' i) = true -> is_used g i /\ entry g i = entry g' i.

Lemma tags_kept_refl g : tags_kept g g.
Proof. split; [lia|]. by intros i. Qed.

Lemma tags_kept_trans g1 g2 g3 : tags_kept g1 g2 -> tags_kept g2 g3 -> tags_kept g1 g3.
Proof. intros [Hf1 H1] [Hf2 H2]. split; [lia|]. intros i Hi Hg. destruct (H2 i Hi Hg) as [Hi2 E2]. destruct (H1 i Hi2) as [Hi1 E1]; [by rewrite E2|]. split; [done|congruence]. Qed.

(** ** Edges of sets *)

Lemma refs_take J b : b ∈ J -> refs J ≡ₚ children w ts b ++ refs (J ∖ {[b]}).
Proof.
  intros Hb. unfold refs. rewrite <- edges_cons. apply edges_perm.
  rewrite <- elements_union_singleton by set_solver. rewrite <- union_difference_L by set_solver. done.
Qed.

Lemma elem_of_refs J b : b ∈ refs J <-> exists a, a ∈ J /\ succ w ts a b.
Proof. unfold refs. rewrite elem_of_edges. by setoid_rewrite elem_of_elements. Qed.

Lemma occ_refs_le J b : (forall a, a ∈ J -> a ∈ G) -> occ b (refs J) <= occ b (edges w ts G).
Proof.
  intros Hs. assert (elements J ⊆+ G) as (k & Hk)%submseteq_Permutation.
  { apply NoDup_submseteq; [apply NoDup_elements|]. intros a Ha%elem_of_elements. by apply Hs. }
  unfold refs. rewrite (occ_perm b _ _ (edges_perm w ts _ _ Hk)), edges_app, occ_app. pose proof (occ_nonneg b (edges w ts k)). lia.
Qed.

Lemma base_nonneg b : 0 <= base b.
Proof. unfold base. pose proof (gb_le Hgb b). lia. Qed.

Lemma base_garbage b : b ∈ G -> base b = 0.
Proof. intros Hb. unfold base. rewrite (gb_count Hgb) by done. lia. Qed.

Lemma occ_perm_app b (l k : list Z) : occ b (l ++ k) = occ b (k ++ l).
Proof. rewrite !occ_app. lia. Qed.

(** ** The children of garbage *)

Lemma direct_children a t : a ∈ G -> ts !! a = Some (IS_ARRAY t) -> omap Z_COLLECTABLE (table_vals t) = children w ts a.
Proof.
  intros Ha Ht. unfold children. rewrite Ht. f_equal. unfold ht_zvals, table_vals. pose proof (gb_direct Hgb a t Ha Ht) as Hd.
  apply list_fmap_ext. intros i x Hx. destruct (fl_PACKED t); [done|]. specialize (Hd (pos_val t x)).
  unfold deref_indirect. destruct (pos_val t x) eqn:Ev; try done. exfalso. apply Hd. rewrite <- Ev. apply list_elem_of_fmap_2. by eapply list_elem_of_lookup_2.
Qed.

Lemma table_garbage t : table_of t -> t ∈ G /\ exists tab, ts !! t = Some (IS_ARRAY tab).
Proof.
  intros Hto. pose proof (gb_table Hgb t Hto) as Hc. destruct Hto as (o & obj & Ho & Hobj & Hg). destruct (gb_obj Hgb o obj Ho Hobj) as [Hfree _].
  split; [|by apply (go_table _ _ (gb_graph Hgb) o obj)]. destruct (decide (t ∈ G)) as [|Hn]; [done|exfalso].
  assert (succ w ts o t) as Hs by (unfold succ, children; rewrite Hobj, Hfree, Hg; by left).
  pose proof (gb_live Hgb o t Ho Hs Hn). assert (0 < occ t (edges w ts G)); [|lia]. apply occ_elem, elem_of_edges. by exists o.
Qed.

Lemma children_garbage a b : a ∈ G -> succ w ts a b -> b ∈ G \/ 0 < base b.
Proof.
  intros Ha Hs. destruct (decide (b ∈ G)) as [|Hn]; [by left|right]. unfold base. pose proof (gb_live Hgb a b Ha Hs Hn). lia.
Qed.

(** A reference does not hold a properties table: the only count is the object's. *)
Lemma table_held_once t a : table_of t -> a ∈ G -> succ w ts a t -> exists obj, ts !! a = Some (IS_OBJECT obj) /\ (get_gc obj).1 = Some t.
Proof.
  intros Hto Ha Hs. pose proof (gb_table Hgb t Hto) as Hc. pose proof (table_garbage t Hto) as [HtG _]. destruct Hto as (o & obj & Ho & Hobj & Hg).
  destruct (decide (a = o)) as [->|Hne]; [by exists obj|exfalso]. destruct (gb_obj Hgb o obj Ho Hobj) as [Hfree _].
  assert (succ w ts o t) as Hso by (unfold succ, children; rewrite Hobj, Hfree, Hg; by left).
  rewrite (gb_count Hgb) in Hc by done. assert ([a; o] ⊆+ G) as Hsub.
  { apply NoDup_submseteq; [|by intros x [->|[->|Hx%elem_of_nil]%elem_of_cons]%elem_of_cons].
    apply NoDup_cons. split; [by intros ->%list_elem_of_singleton|apply NoDup_singleton]. }
  apply submseteq_Permutation in Hsub as (k & Hk). rewrite (occ_perm t _ _ (edges_perm w ts _ _ Hk)) in Hc. cbn [app] in Hc.
  rewrite !edges_cons, !occ_app in Hc. pose proof (occ_elem t _ Hs). pose proof (occ_elem t _ Hso). pose proof (occ_nonneg t (edges w ts k)). lia.
Qed.

(** ** Facts about the state *)

Section State.
Context {h : gmap Z (zend_refcounted V)} {g : zend_gc_globals} {l : list Z} {J N F : gset Z} {P : list Z}.
Context (Hr : releasing h g l J N F P).

Lemma rl_dom0 a : a ∈ dom h -> a ∈ dom h0.
Proof. intros [[? _]|Ha]%(rl_dom _ _ _ _ _ _ _ Hr); [done|]. by apply (gb_dom Hgb), (rl_garbage _ _ _ _ _ _ _ Hr). Qed.

Lemma rl_room : l <> [] \/ first_unused g < GC_SAFE_SIZE.
Proof.
  pose proof (rl_buf _ _ _ _ _ _ _ Hr) as Hok. pose proof (bo_count _ _ _ Hok) as Hcnt. destruct (decide (l = [])) as [El|]; [right|by left].
  rewrite El in Hok, Hcnt. pose proof (roots_le_nodes h g Hok). unfold llen in Hcnt. cbn in Hcnt. pose proof (gb_small Hgb).
  assert (size h <= size h0)%nat; [|lia]. rewrite <- !(size_dom (D:=gset Z)). apply subseteq_size. intros a. apply rl_dom0.
Qed.

Lemma rl_above : heap_above h.
Proof. intros a Ha. by apply (gb_above Hgb), rl_dom0. Qed.

Lemma rl_black a : a ∈ G -> GC_REF_COLOR h a = GC_BLACK.
Proof. intros Ha. by destruct (rl_color _ _ _ _ _ _ _ Hr a) as [|(_ & ? & _)]. Qed.

Lemma rl_node a : a ∈ dom h -> exists r, h !! a = Some r /\ GC_INFO r = info_of h a /\ types_of h !! a = Some (GC_TYPE r) /\ GC_REFCOUNT r = refcount_of h a.
Proof. intros [r Ha]%elem_of_dom. exists r. unfold info_of, refcount_of. rewrite types_lookup, Ha. done. Qed.

(** A garbage node with an info has an entry. *)
Lemma rl_address a : a ∈ G -> a ∈ dom h -> info_of h a <> 0 -> GC_REF_ADDRESS h a <> 0.
Proof.
  intros Ha Had Hi Hz. apply Hi, info_zero; [apply heap_ok_info, Hr|done|]. by apply rl_black.
Qed.

Lemma rl_entry a : a ∈ G -> a ∈ dom h -> info_of h a <> 0 -> exists i, is_used g i /\ entry g i = GC_MAKE_GARBAGE a.
Proof.
  intros Ha Had Hi. pose proof (rl_address a Ha Had Hi) as Hz. destruct (rl_node a Had) as (r & Er & Ei & _).
  destruct (bo_address _ _ _ (rl_buf _ _ _ _ _ _ _ Hr) a r Er) as (i & Hiu & Hp); [unfold GC_REF_ADDRESS in Hz; by rewrite Ei|].
  exists i. split; [done|]. destruct (rl_entries _ _ _ _ _ _ _ Hr i Hiu) as [(b & Hb & Eb)|(Hn & Hal & _)].
  - rewrite Eb in Hp |- *. destruct (aligned_garbage b) as (_ & _ & Hpb & _); [|congruence].
    apply (gb_aligned Hgb), (gb_dom Hgb). by apply (rl_garbage _ _ _ _ _ _ _ Hr).
  - destruct (aligned_root _ Hal) as (_ & Hptr & _). rewrite Hptr in Hp. by rewrite Hp in Hn.
Qed.
End State.

(** ** Possible roots *)

Lemma same_node h h' a : same_bodies h h' -> info_of h' a = info_of h a -> h' !! a = h !! a.
Proof.
  intros Hs Hi. pose proof (f_equal (lookup a) Hs) as Hb. rewrite !lookup_fmap in Hb. unfold info_of in Hi.
  destruct (h !! a) as [[]|], (h' !! a) as [[]|]; cbn in *; try done. unfold body in Hb. cbn in Hb. congruence.
Qed.

(** A node that is no garbage has become a root. *)
Lemma releasing_rooted h g l h' g' l' J N F P b : releasing h g l J N F P -> b ∈ dom h -> b ∉ G -> aligned b -> rootable ts b ->
  buf_ok h' g' l' -> same_bodies h h' -> gc_active g' = true -> GC_REF_COLOR h' b = GC_PURPLE -> 0 <= info_of h' b < 2 ^ 22 ->
  (forall a, a <> b -> info_of h' a = info_of h a) -> (forall q, buffered g' q <-> buffered g q \/ q = b) ->
  (forall i, is_used g i -> is_used g' i /\ entry g' i = entry g i) -> first_unused g <= first_unused g' ->
  releasing h' g' l' J N F P /\ tags_kept g g' /\ (forall a, a ∈ F -> h' !! a = h !! a).
Proof.
  intros Hr Hb Hn Hal Hrb Hok Hs Hact Hcb Hib Hi Hq Hold Hfu. pose proof (same_bodies_types _ _ Hs) as Ht. pose proof (same_bodies_dom _ _ Hs) as Hd.
  assert (forall a, a ∈ G -> a <> b) as Hgb' by (intros a Ha ->; done).
  assert (forall i, is_used g' i -> entry g' i = b \/ is_used g i /\ entry g i = entry g' i) as Hent.
  { intros i Hiu. destruct (proj1 (Hq (entry g' i)) (ex_intro _ i (conj Hiu eq_refl))) as [(j & Hj & Ej)|?]; [right|by left].
    destruct (Hold j Hj) as [Hj' Ej']. assert (j = i) as ->; [apply (bo_inj _ _ _ Hok); [done|done|congruence]|]. by split. }
  assert (forall a, a <> b -> GC_REF_COLOR h' a = GC_REF_COLOR h a) as Hcol by (intros a Ha; unfold GC_REF_COLOR; by rewrite Hi).
  split; [|split].
  - split.
    + intros a. rewrite Hd. apply Hr.
    + apply Hr.
    + apply Hr.
    + intros a. rewrite Ht. apply Hr.
    + intros a. rewrite Ht. apply Hr.
    + intros a. rewrite Hd, (same_bodies_refcount _ _ a Hs). apply Hr.
    + intros a. rewrite (same_bodies_refcount _ _ a Hs). apply Hr.
    + intros a. rewrite (same_bodies_refcount _ _ a Hs). apply Hr.
    + intros a. rewrite Hd. apply Hr.
    + apply (heap_ok_bodies h); [done|apply Hr|]. intros a. destruct (decide (a = b)) as [->|Ha]; [done|]. rewrite Hi by done. apply heap_ok_info, Hr.
    + done.
    + done.
    + intros a. destruct (decide (a = b)) as [->|Ha]; [right; split; [done|]; split; [done|]; apply Hq; by right|].
      rewrite Hcol by done. destruct (rl_color _ _ _ _ _ _ _ Hr a) as [|(? & ? & ?)]; [by left|right]. split; [done|]. split; [done|]. apply Hq. by left.
    + intros i Hiu. destruct (Hent i Hiu) as [Eb|[Hig Eg]]; [right; by rewrite Eb|]. rewrite <- Eg.
      destruct (rl_entries _ _ _ _ _ _ _ Hr i Hig) as [|(H1 & H2 & H3 & H4)]; [by left|right]. split; [done|]. split; [done|]. split; [|done].
      destruct (decide (entry g i = b)) as [->|Hne]; [done|]. by rewrite Hcol.
    + intros a Ha Hk Hto. rewrite Hi by (apply Hgb', (rl_garbage _ _ _ _ _ _ _ Hr); by left). by apply (rl_entered _ _ _ _ _ _ _ Hr).
    + intros a Ha. rewrite Hi by (apply Hgb', (rl_garbage _ _ _ _ _ _ _ Hr); by right; left). by apply (rl_waiting _ _ _ _ _ _ _ Hr).
    + intros a val Ha. rewrite Hi by (apply Hgb', (rl_garbage _ _ _ _ _ _ _ Hr); by left). by apply (rl_plain _ _ _ _ _ _ _ Hr).
  - split; [done|]. intros i Hiu Hgt. destruct (Hent i Hiu) as [Eb|[Hig Eg]]; [|by split]. rewrite Eb in Hgt.
    unfold GC_IS_GARBAGE in Hgt. by rewrite Hal in Hgt.
  - intros a Ha. apply same_node; [done|]. apply Hi, Hgb', (rl_garbage _ _ _ _ _ _ _ Hr). by right; right.
Qed.

(** What a step of the destruction leaves: the same nodes are being freed. *)
Definition step_to h g J N F P (s' : gc_state (V := V)) (J' : gset Z) : Prop :=
  exists l', releasing s'.1 s'.2 l' J' N F P /\ tags_kept g s'.2 /\ (forall a, a ∈ F -> s'.1 !! a = h !! a) /\ J' ⊆ J.

Lemma check_leak_ok dtor h g l J N F P b : releasing h g l J N F P -> b ∈ dom h -> b ∉ F -> (b ∈ J -> table_of b -> False) ->
  exists s', gc_check_leak junk_word gc_collect_cycles dtor b (h, g) = Some s' /\ step_to h g J N F P s' J.
Proof.
  intros Hr Hb HF Htab. destruct (rl_node b Hb) as (r & Er & Ei & Et & _). unfold gc_check_leak. cbn [fst]. rewrite Er, some_bind.
  assert (step_to h g J N F P (h, g) J) as Hsame by (exists l; split; [exact Hr|]; by split).
  assert (match GC_TYPE r with IS_REFERENCE _ | GC_NULL => False | _ => True end -> GC_INFO r = 0 ->
    exists s', gc_possible_root junk_word gc_collect_cycles dtor b (h, g) = Some s' /\ step_to h g J N F P s' J) as Hroot.
  { intros Hty Hi0. rewrite Ei in Hi0. assert (b ∉ G) as HnG.
    { intros HG. apply (rl_dom _ _ _ _ _ _ _ Hr) in Hb as [[_ ?]|[HJ|[HN|?]]]; [done| | |done].
      - apply (rl_entered _ _ _ _ _ _ _ Hr b HJ); [|by intros ?; apply Htab|done]. pose proof (rl_types _ _ _ _ _ _ _ Hr b (or_intror HJ)) as Ety.
        rewrite Et in Ety. rewrite <- Ety. by destruct (GC_TYPE r).
      - pose proof (rl_null _ _ _ _ _ _ _ Hr b HN) as Enull. rewrite Et in Enull. injection Enull as Enull. by rewrite Enull in Hty. }
    pose proof (gb_aligned Hgb b (rl_dom0 Hr b Hb)) as Hal.
    assert (rootable ts b) as Hrb.
    { unfold rootable. rewrite <- (rl_types _ _ _ _ _ _ _ Hr b), Et by (left; split; [by apply (rl_dom0 Hr)|done]). by destruct (GC_TYPE r). }
    destruct (possible_root_active junk_word gc_collect_cycles dtor h g l b (rl_buf _ _ _ _ _ _ _ Hr) (rl_room Hr) (rl_active _ _ _ _ _ _ _ Hr) Hb Hal Hi0)
      as (h' & g' & l' & -> & Hok & Hs & Hact & Hfu & [(-> & ->)|(Hc & Hir & Hio & Hq & Hold)]); [by exists (h, g)|].
    destruct (releasing_rooted h g l h' g' l' J N F P b Hr Hb HnG Hal Hrb Hok Hs Hact Hc Hir Hio Hq Hold Hfu) as (Hr' & Htk & HFl).
    exists (h', g'). split; [done|]. by exists l'. }
  destruct (GC_TYPE r); try by exists (h, g).
  - destruct (Z.eqb_spec (GC_INFO r) 0); [by apply Hroot|by exists (h, g)].
  - destruct (Z.eqb_spec (GC_INFO r) 0); [by apply Hroot|by exists (h, g)].
Qed.

Lemma check_possible_root_ok dtor h g l J N F P b : releasing h g l J N F P -> b ∈ dom h -> b ∉ F -> (b ∈ J -> table_of b -> False) ->
  exists s', gc_check_possible_root junk_word gc_collect_cycles dtor b (h, g) = Some s' /\ step_to h g J N F P s' J.
Proof.
  intros Hr Hb HF Htab. destruct (rl_node b Hb) as (r & Er & Ei & Et & _). unfold gc_check_possible_root. cbn [fst]. rewrite Er, some_bind.
  assert (step_to h g J N F P (h, g) J) as Hsame by (exists l; split; [exact Hr|]; by split).
  destruct (GC_TYPE r) as [t|obj|val|] eqn:Ety; try by eapply check_leak_ok.
  destruct (Z.eqb_spec (GC_INFO r) 0); [|by eapply check_leak_ok].
  destruct (Z_COLLECTABLE val) as [c|] eqn:Ec; [|by exists (h, g)].
  assert (b ∉ N) as HbN by (intros HN; pose proof (rl_null _ _ _ _ _ _ _ Hr b HN) as En; by rewrite Et in En).
  assert ((b ∈ dom h0 /\ b ∉ G) \/ b ∈ J) as HbJ by (apply (rl_dom _ _ _ _ _ _ _ Hr) in Hb; tauto).
  pose proof (rl_types _ _ _ _ _ _ _ Hr b HbJ) as Ets. rewrite Et in Ets. symmetry in Ets.
  assert (succ w ts b c) as Hs by (unfold succ, children; rewrite Ets; cbn; rewrite Ec; by left).
  destruct HbJ as [[Hb0 HnG]|HJ].
  - assert (c ∉ G) as HcG by (intros HcG; by apply HnG, (gb_pred Hgb b c)). eapply check_leak_ok; [exact Hr| | |].
    + apply (rl_dom _ _ _ _ _ _ _ Hr). left. split; [|done]. rewrite <- types_dom. by apply (go_closed _ _ (gb_graph Hgb) b c).
    + intros HcF. apply HcG, (rl_garbage _ _ _ _ _ _ _ Hr). by right; right.
    + intros HcJ. exfalso. apply HcG, (rl_garbage _ _ _ _ _ _ _ Hr). by left.
  - destruct (rl_pending _ _ _ _ _ _ _ Hr c) as (Hcd & HcF & _); [right; apply elem_of_refs; by exists b|].
    eapply check_leak_ok; [exact Hr|done|done|]. intros HcJ Hto.
    destruct (table_held_once c b Hto) as (obj & Eo & _); [by apply (rl_garbage _ _ _ _ _ _ _ Hr); left|done|]. congruence.
Qed.

(** ** Changes of one node that keep its info *)

Lemma releasing_update h g l J N F P h1 J1 N1 F1 P1 : releasing h g l J N F P -> (forall a, info_of h1 a = info_of h a) -> dom h1 = dom h -> heap_ok h1 ->
  (forall a, a ∈ J1 \/ a ∈ N1 \/ a ∈ F1 <-> a ∈ J \/ a ∈ N \/ a ∈ F) -> (forall a, (a ∈ J1 -> a ∉ N1 /\ a ∉ F1) /\ (a ∈ N1 -> a ∉ F1)) ->
  (forall a, a ∈ J1 -> a ∈ J) -> (forall a, a ∈ N1 -> a ∈ N \/ info_of h a <> 0) ->
  (forall a, (a ∈ dom h0 /\ a ∉ G) \/ a ∈ J1 -> types_of h1 !! a = types_of h !! a) -> (forall a, a ∈ N1 -> types_of h1 !! a = Some GC_NULL) ->
  (forall a, a ∈ dom h -> a ∉ F1 -> refcount_of h1 a = base a + occ a (refs J1) + occ a P1) ->
  (forall a, a ∈ J1 -> 0 < refcount_of h a -> 0 < refcount_of h1 a <= refcount_of h a) ->
  (forall a, a ∈ J1 -> refcount_of h1 a <= refcount_of h a) ->
  (forall a, a ∈ P1 \/ a ∈ refs J1 -> (a ∈ P \/ a ∈ refs J) /\ a ∉ F1) ->
  releasing h1 g l J1 N1 F1 P1.
Proof.
  intros Hr Hi Hd Hok HU Hdis HJ HN Hty Hnull Hcnt Hpos Hle Hpend.
  assert (forall a, GC_REF_COLOR h1 a = GC_REF_COLOR h a) as Hcol by (intros a; unfold GC_REF_COLOR; by rewrite Hi).
  split.
  - intros a. rewrite Hd, (rl_dom _ _ _ _ _ _ _ Hr a), <- (HU a). done.
  - intros a Ha%HU. by apply (rl_garbage _ _ _ _ _ _ _ Hr).
  - done.
  - intros a Ha. rewrite Hty by done. apply (rl_types _ _ _ _ _ _ _ Hr). destruct Ha as [|Ha%HJ]; [by left|by right].
  - done.
  - intros a. rewrite Hd. apply Hcnt.
  - intros a Ha Hp. apply Hpos; [done|]. apply (rl_pos _ _ _ _ _ _ _ Hr); [by apply HJ|done].
  - intros a Ha. etrans; [by apply Hle|]. apply (rl_le _ _ _ _ _ _ _ Hr). by apply HJ.
  - intros a [Ha Hn]%Hpend. rewrite Hd. destruct (rl_pending _ _ _ _ _ _ _ Hr a Ha) as (? & _ & ?). by split_and!.
  - done.
  - apply (buf_ok_heap h); [done| |apply Hr]. intros a. unfold GC_REF_ADDRESS. by rewrite Hi.
  - apply Hr.
  - intros a. rewrite Hcol. apply Hr.
  - intros i Hiu. rewrite Hcol. destruct (rl_entries _ _ _ _ _ _ _ Hr i Hiu) as [(a & Ha & Ea)|]; [left; exists a; split; [by apply HU|done]|by right].
  - intros a Ha. rewrite Hi. apply (rl_entered _ _ _ _ _ _ _ Hr). by apply HJ.
  - intros a Ha. rewrite Hi. destruct (HN a Ha) as [Ha'|]; [|done]. by apply (rl_waiting _ _ _ _ _ _ _ Hr).
  - intros a val Ha. rewrite Hi. apply (rl_plain _ _ _ _ _ _ _ Hr). by apply HJ.
Qed.

Lemma on_node_ok f b h (g : zend_gc_globals) r : h !! b = Some r -> heap_ok h -> node_ok (f r) -> GC_INFO (f r) = GC_INFO r ->
  exists h1, on_node f b (h, g) = Some (h1, g) /\ (forall a, info_of h1 a = info_of h a) /\ dom h1 = dom h /\ heap_ok h1 /\
    types_of h1 !! b = Some (GC_TYPE (f r)) /\ refcount_of h1 b = GC_REFCOUNT (f r) /\
    (forall a, a <> b -> h1 !! a = h !! a /\ types_of h1 !! a = types_of h !! a /\ refcount_of h1 a = refcount_of h a).
Proof.
  intros Hb Hok Hn Hi. exists (<[b := f r]> h). unfold on_node. cbn [fst snd]. rewrite Hb, some_bind. split; [done|].
  split; [|split; [|split; [|split; [|split]]]].
  - intros a. unfold info_of. destruct (decide (a = b)) as [->|Hne]; [by rewrite lookup_insert_eq, Hb|by rewrite lookup_insert_ne].
  - rewrite dom_insert_L. apply elem_of_dom_2 in Hb. set_solver.
  - intros a x. destruct (decide (a = b)) as [->|Hne]; [rewrite lookup_insert_eq; by intros [= <-]|rewrite lookup_insert_ne by done; apply Hok].
  - by rewrite types_lookup, lookup_insert_eq.
  - unfold refcount_of. by rewrite lookup_insert_eq.
  - intros a Ha. unfold refcount_of. rewrite !types_lookup, lookup_insert_ne by done. done.
Qed.

(** A whole node of the garbage to which nothing refers is to be freed. *)
Lemma no_refs_left J P b : b ∈ J -> occ b (refs J) + occ b P = 0 ->
  (forall a, a ∈ (children w ts b ++ P) \/ a ∈ refs (J ∖ {[b]}) -> (a ∈ P \/ a ∈ refs J) /\ a <> b) /\
  (forall a, occ a (refs (J ∖ {[b]})) + occ a (children w ts b ++ P) = occ a (refs J) + occ a P).
Proof.
  intros Hb Hz. pose proof (refs_take J b Hb) as Hp. split.
  - intros a Ha. assert (a ∈ P \/ a ∈ refs J) as Ha'.
    { rewrite Hp, elem_of_app. rewrite elem_of_app in Ha. tauto. }
    split; [done|]. intros ->. pose proof (occ_nonneg b P). pose proof (occ_nonneg b (refs J)). destruct Ha' as [Ha'|Ha']; apply occ_elem in Ha'; lia.
  - intros a. rewrite (occ_perm a _ _ Hp), !occ_app. lia.
Qed.

Lemma delref_ok h g l J N F P b : releasing h g l J N F (b :: P) ->
  exists h1, delref b (h, g) = Some (h1, g) /\ (forall a, a ∈ F -> h1 !! a = h !! a) /\ b ∉ F /\ (forall a, info_of h1 a = info_of h a) /\
   (refcount_of h1 b <> 0 /\ releasing h1 g l J N F P /\ (b ∈ J -> table_of b -> False) \/
    refcount_of h1 b = 0 /\ b ∈ N /\ releasing h1 g l J N F P \/
    refcount_of h1 b = 0 /\ b ∈ J /\ types_of h1 !! b = ts !! b /\ releasing h1 g l (J ∖ {[b]}) N ({[b]} ∪ F) (children w ts b ++ P)).
Proof.
  intros Hr. destruct (rl_pending _ _ _ _ _ _ _ Hr b) as (Hb & HbF & Hbase); [left; by left|].
  destruct (rl_node b Hb) as (r & Er & Ei & Et & Ec). pose proof (rl_count _ _ _ _ _ _ _ Hr b Hb HbF) as Hcnt. rewrite occ_cons, decide_True in Hcnt by done.
  pose proof (occ_nonneg b (refs J)). pose proof (occ_nonneg b P). pose proof (base_nonneg b). pose proof (heap_ok_count h b (rl_heap _ _ _ _ _ _ _ Hr)).
  assert (u32 (GC_REFCOUNT r - 1) = refcount_of h b - 1) as Eu by (rewrite Ec; apply u32_small; lia).
  destruct (on_node_ok (fun r => set_GC_REFCOUNT (u32 (GC_REFCOUNT r - 1)) r) b h g r Er (rl_heap _ _ _ _ _ _ _ Hr)) as (h1 & E1 & Hi1 & Hd1 & Hok1 & Et1 & Ec1 & Ho1).
  { split; cbn; [rewrite Eu; lia|]. by destruct (rl_heap _ _ _ _ _ _ _ Hr b r Er). } { done. }
  cbn in Et1, Ec1. rewrite Eu in Ec1. rewrite <- Et in Et1.
  assert (forall a, types_of h1 !! a = types_of h !! a) as Hty by (intros a; destruct (decide (a = b)) as [->|Hne]; [done|by apply Ho1]).
  assert (forall a, refcount_of h1 a = refcount_of h a - (if decide (b = a) then 1 else 0)) as Hrc.
  { intros a. destruct (decide (b = a)) as [<-|Hne]; [done|]. destruct (Ho1 a) as (_ & _ & ->); [done|lia]. }
  exists h1. split; [exact E1|]. split; [intros a Ha; apply Ho1; by intros ->|]. split; [done|]. split; [done|].
  assert ((forall a, a ∈ J -> 0 < refcount_of h a -> 0 < refcount_of h1 a <= refcount_of h a) -> releasing h1 g l J N F P) as Hkeep.
  { intros Hpos. apply (releasing_update h g l J N F (b :: P)); try done.
    - apply Hr.
    - intros a Ha. by left.
    - intros a Ha. rewrite Hty. by apply (rl_null _ _ _ _ _ _ _ Hr).
    - intros a Ha HaF. rewrite Hrc, (rl_count _ _ _ _ _ _ _ Hr a Ha HaF), occ_cons. lia.
    - intros a Ha. rewrite Hrc. destruct (decide (b = a)); lia.
    - intros a Ha. assert (a ∈ b :: P \/ a ∈ refs J) as Ha' by (rewrite elem_of_cons; tauto). split; [done|]. by destruct (rl_pending _ _ _ _ _ _ _ Hr a Ha') as (_ & ? & _). }
  destruct (decide (refcount_of h1 b = 0)) as [Hz|Hz].
  - right. assert (b ∈ G) as HbG by (destruct Hbase as [|Hpos]; [done|lia]).
    apply (rl_dom _ _ _ _ _ _ _ Hr) in Hb as [[_ ?]|[HJ|[HN|?]]]; [done| | |done].
    + right. split; [done|]. split; [done|]. split; [rewrite Hty; apply (rl_types _ _ _ _ _ _ _ Hr); by right|].
      destruct (no_refs_left J P b HJ) as [Hsub Hocc]; [lia|]. assert (forall a, a ∈ J ∖ {[b]} <-> a ∈ J /\ a <> b) as HJd by (intros a; set_solver).
      assert (forall a, a ∈ {[b]} ∪ F <-> a = b \/ a ∈ F) as HFd by (intros a; set_solver).
      pose proof (rl_disjoint _ _ _ _ _ _ _ Hr) as Hdis.
      apply (releasing_update h g l J N F (b :: P)); try done.
      * intros a. rewrite HJd, HFd. destruct (decide (a = b)) as [->|Hne]; [split; [by left|intros _; right; right; by left]|]. split.
        -- intros [[? _]|[?|[?|?]]]; [by left|by right; left|done|by right; right].
        -- intros [?|[?|?]]; [by left|by right; left|right; right; by right].
      * intros a. rewrite HJd, HFd. destruct (Hdis b) as [Hdb _]. destruct (Hdis a) as [Hda1 Hda2]. split; [intros [Ha Hne]; destruct (Hda1 Ha) as [? ?]; split; [done|]; by intros [?|?]|].
        intros Ha [->|?]; [by destruct (Hdb HJ)|by apply Hda2].
      * intros a [? _]%HJd. done.
      * intros a Ha. by left.
      * intros a Ha. rewrite Hty. by apply (rl_null _ _ _ _ _ _ _ Hr).
      * intros a Ha HaF. rewrite HFd in HaF. rewrite Hrc, (rl_count _ _ _ _ _ _ _ Hr a Ha) by tauto. rewrite occ_cons. pose proof (Hocc a). lia.
      * intros a [Ha Hne]%HJd Hp. rewrite Hrc, decide_False by done. lia.
      * intros a Ha. rewrite Hrc. destruct (decide (b = a)); lia.
      * intros a Ha. destruct (Hsub a Ha) as [Ha' Hne]. assert (a ∈ b :: P \/ a ∈ refs J) as Hpa by (rewrite elem_of_cons; tauto). split; [done|].
        destruct (rl_pending _ _ _ _ _ _ _ Hr a Hpa) as (_ & ? & _). rewrite HFd. tauto.
    + left. split; [done|]. split; [done|]. apply Hkeep. intros a Ha Hp. rewrite Hrc. destruct (decide (b = a)) as [<-|]; [|lia].
      exfalso. by destruct (rl_disjoint _ _ _ _ _ _ _ Hr b) as [[? _] _].
  - left. split; [done|]. split.
    + apply Hkeep. intros a Ha Hp. rewrite Hrc. destruct (decide (b = a)) as [<-|]; [|lia]. rewrite Hrc, decide_True in Hz by done. lia.
    + intros HJ Hto. pose proof (rl_le _ _ _ _ _ _ _ Hr b HJ). rewrite (gb_table Hgb b Hto) in *. rewrite Hrc, decide_True in Hz by done. lia.
Qed.

(** ** Freeing a node *)

Lemma releasing_unrooted h g l h' g' l' J N F P b : releasing h g l J N F P -> b ∈ F -> buf_ok h' g' l' -> same_bodies h h' -> gc_active g' = true ->
  (forall a, info_of h' a = if decide (b = a) then 0 else info_of h a) ->
  (forall q, buffered g' q <-> buffered g q /\ GC_GET_PTR q <> b) -> (forall j, is_used g' j -> is_used g j /\ entry g j = entry g' j) ->
  releasing h' g' l' J N F P.
Proof.
  intros Hr Hb Hok Hs Hact Hi Hq Hent. pose proof (same_bodies_types _ _ Hs) as Ht. pose proof (same_bodies_dom _ _ Hs) as Hd.
  pose proof (rl_disjoint _ _ _ _ _ _ _ Hr) as Hdis. assert (b ∈ G) as HbG by (apply (rl_garbage _ _ _ _ _ _ _ Hr); tauto).
  assert (forall a, a <> b -> info_of h' a = info_of h a) as Hio by (intros a Ha; by rewrite Hi, decide_False).
  split.
  - intros a. rewrite Hd. apply Hr.
  - apply Hr.
  - done.
  - intros a. rewrite Ht. apply Hr.
  - intros a. rewrite Ht. apply Hr.
  - intros a. rewrite Hd, (same_bodies_refcount _ _ a Hs). apply Hr.
  - intros a. rewrite (same_bodies_refcount _ _ a Hs). apply Hr.
  - intros a. rewrite (same_bodies_refcount _ _ a Hs). apply Hr.
  - intros a. rewrite Hd. apply Hr.
  - apply (heap_ok_bodies h); [done|apply Hr|]. intros a. rewrite Hi. destruct (decide (b = a)); [lia|apply heap_ok_info, Hr].
  - done.
  - done.
  - intros a. unfold GC_REF_COLOR. rewrite Hi. destruct (decide (b = a)) as [<-|Hne]; [by left|].
    destruct (rl_color _ _ _ _ _ _ _ Hr a) as [|(Hc & Hn & Hbuf)]; [by left|right]. split; [done|]. split; [done|]. apply Hq. split; [done|].
    intros Hp. destruct Hbuf as (i & Hiu & Ei). destruct (rl_entries _ _ _ _ _ _ _ Hr i Hiu) as [(c & Hc' & Ec)|(_ & Hal & _)].
    + destruct (bo_node _ _ _ (rl_buf _ _ _ _ _ _ _ Hr) i Hiu) as (r & Er & Ea). rewrite Ei, Hp in Er.
      assert (GC_GET_PTR (GC_MAKE_GARBAGE c) = c) as Hpc.
      { apply aligned_garbage, (gb_aligned Hgb), (gb_dom Hgb). by apply (rl_garbage _ _ _ _ _ _ _ Hr). }
      assert (aligned a) as Hal.
      { destruct (h !! a) as [ra|] eqn:Era; [apply (gb_aligned Hgb), (rl_dom0 Hr); by apply elem_of_dom_2 in Era|]. unfold GC_REF_COLOR, info_of in Hc. by rewrite Era in Hc. }
      destruct (aligned_root a Hal) as (_ & Hpa & _). congruence.
    + rewrite Ei in Hal. destruct (aligned_root a Hal) as (_ & Hpa & _). congruence.
  - intros i Hiu. destruct (Hent i Hiu) as [Hig Eg]. rewrite <- Eg. destruct (rl_entries _ _ _ _ _ _ _ Hr i Hig) as [|(H1 & H2 & H3)]; [by left|right].
    split; [done|]. split; [done|]. unfold GC_REF_COLOR in *. rewrite Hio; [done|]. intros Eb. by rewrite Eb in H1.
  - intros a Ha. rewrite Hio by (intros ->; by destruct (Hdis b) as [[? ?] _]). by apply (rl_entered _ _ _ _ _ _ _ Hr).
  - intros a Ha. rewrite Hio by (intros ->; by apply (Hdis b)). by apply (rl_waiting _ _ _ _ _ _ _ Hr).
  - intros a val Ha. rewrite Hio by (intros ->; by destruct (Hdis b) as [[? ?] _]). by apply (rl_plain _ _ _ _ _ _ _ Hr).
Qed.

Lemma remove_freed_ok h g l J N F P b : releasing h g l J N F P -> b ∈ F ->
  exists h1 g1 l1, GC_REMOVE_FROM_BUFFER b (h, g) = Some (h1, g1) /\ releasing h1 g1 l1 J N F P /\ tags_kept g g1 /\ info_of h1 b = 0 /\
    types_of h1 = types_of h /\ (forall a, a <> b -> h1 !! a = h !! a).
Proof.
  intros Hr HbF. assert (b ∈ dom h) as Hb by (apply (rl_dom _ _ _ _ _ _ _ Hr); tauto). destruct (rl_node b Hb) as (r & Er & Ei & _).
  unfold GC_REMOVE_FROM_BUFFER. cbn [fst]. rewrite Er, some_bind, Ei.
  destruct (Z.eqb_spec (info_of h b) 0) as [Hz|Hz]; cbn [negb]; [by exists h, g, l|].
  assert (b ∈ G) as HbG by (apply (rl_garbage _ _ _ _ _ _ _ Hr); tauto).
  destruct (gc_remove_from_buffer_ok h g l b (rl_buf _ _ _ _ _ _ _ Hr) (rl_above Hr) Hb (rl_address Hr b HbG Hb Hz))
    as (h1 & g1 & l1 & -> & Hok & Hs & Hi & Hq & _ & Hent & Hact & Hfu). rewrite (rl_active _ _ _ _ _ _ _ Hr) in Hact.
  exists h1, g1, l1. split; [done|]. split; [by apply (releasing_unrooted h g l h1 g1 l1 J N F P b)|]. split; [split; [lia|]; intros i Hiu _; by apply Hent|].
  split; [by rewrite Hi, decide_True|]. split; [by apply same_bodies_types|]. intros a Ha. apply same_node; [done|]. by rewrite Hi, decide_False.
Qed.

Lemma efree_ok h g l J N F P b : releasing h g l J N ({[b]} ∪ F) P -> b ∉ F -> info_of h b = 0 ->
  efree b (h, g) = Some (delete b h, g) /\ releasing (delete b h) g l J N F P.
Proof.
  intros Hr HbF Hz. assert (forall a, a ∈ {[b]} ∪ F <-> a = b \/ a ∈ F) as HFd by (intros a; set_solver).
  pose proof (rl_disjoint _ _ _ _ _ _ _ Hr) as Hdis. assert (b ∈ dom h) as Hb by (apply (rl_dom _ _ _ _ _ _ _ Hr); rewrite HFd; tauto).
  assert (b ∈ G) as HbG by (apply (rl_garbage _ _ _ _ _ _ _ Hr); rewrite HFd; tauto).
  assert (forall a, a <> b -> delete b h !! a = h !! a) as Hl by (intros a Ha; by rewrite lookup_delete_ne).
  assert (forall a, info_of (delete b h) a = info_of h a) as Hi.
  { intros a. unfold info_of at 1. destruct (decide (a = b)) as [->|Hne]; [by rewrite lookup_delete_eq|by rewrite Hl]. }
  assert (forall a, GC_REF_COLOR (delete b h) a = GC_REF_COLOR h a) as Hcol by (intros a; unfold GC_REF_COLOR; by rewrite Hi).
  assert (forall a, a <> b -> types_of (delete b h) !! a = types_of h !! a) as Ht by (intros a Ha; rewrite !types_lookup; by rewrite Hl).
  assert (forall a, a <> b -> refcount_of (delete b h) a = refcount_of h a) as Hc by (intros a Ha; unfold refcount_of; by rewrite Hl).
  assert (forall a, a ∈ J \/ a ∈ N -> a <> b) as Hne.
  { intros a Ha ->. destruct (Hdis b) as [H1 H2]. rewrite HFd in *. tauto. }
  pose proof (rl_buf _ _ _ _ _ _ _ Hr) as Hok.
  assert (forall i, is_used g i -> GC_GET_PTR (entry g i) <> b) as Hnb.
  { intros i Hiu Hp. destruct (bo_node _ _ _ Hok i Hiu) as (r & Er & Ea). rewrite Hp in Er. unfold info_of in Hz. rewrite Er in Hz. cbn in Hz. rewrite Hz in Ea.
    pose proof (compress_range i). destruct Hiu. rewrite Z.land_0_l in Ea. lia. }
  split; [unfold efree; cbn [fst]; destruct (rl_node b Hb) as (r & -> & _); done|]. split.
  - intros a. rewrite dom_delete_L. pose proof (rl_dom _ _ _ _ _ _ _ Hr a) as Hda. rewrite HFd in Hda.
    assert (a ∈ dom h ∖ {[b]} <-> a ∈ dom h /\ a <> b) as -> by set_solver. rewrite Hda. destruct (decide (a = b)) as [->|]; [|tauto].
    split; [tauto|]. intros [[_ ?]|[?|[?|?]]]; [done| | |done]; exfalso; apply (Hne b); tauto.
  - intros a Ha. apply (rl_garbage _ _ _ _ _ _ _ Hr). rewrite HFd. tauto.
  - intros a. destruct (Hdis a) as [H1 H2]. rewrite HFd in *. tauto.
  - intros a Ha. rewrite Ht; [by apply (rl_types _ _ _ _ _ _ _ Hr)|]. destruct Ha as [[_ Ha]|Ha]; [by intros ->|apply Hne; tauto].
  - intros a Ha. rewrite Ht by (apply Hne; tauto). by apply (rl_null _ _ _ _ _ _ _ Hr).
  - intros a Ha HaF. rewrite dom_delete_L in Ha. assert (a ∈ dom h /\ a <> b) as [Had Hab] by set_solver. rewrite Hc by done.
    apply (rl_count _ _ _ _ _ _ _ Hr); [done|]. rewrite HFd. tauto.
  - intros a Ha. rewrite Hc by (apply Hne; tauto). by apply (rl_pos _ _ _ _ _ _ _ Hr).
  - intros a Ha. rewrite Hc by (apply Hne; tauto). by apply (rl_le _ _ _ _ _ _ _ Hr).
  - intros a Ha. destruct (rl_pending _ _ _ _ _ _ _ Hr a Ha) as (H1 & H2 & H3). rewrite HFd in H2. rewrite dom_delete_L. split; [set_solver|]. tauto.
  - intros a r Ha. apply (rl_heap _ _ _ _ _ _ _ Hr a). by apply lookup_delete_Some in Ha as [_ ?].
  - destruct Hok. split; try done.
    + intros i Hiu. destruct (bo_node i Hiu) as (r & Er & Ea). exists r. rewrite Hl; [done|]. by apply Hnb.
    + intros a r Ha. apply lookup_delete_Some in Ha as [_ Ha]. by apply bo_address.
  - apply Hr.
  - intros a. rewrite Hcol. apply Hr.
  - intros i Hiu. rewrite Hcol. destruct (rl_entries _ _ _ _ _ _ _ Hr i Hiu) as [(a & Ha & Ea)|]; [left|by right]. exists a. split; [|done].
    rewrite HFd in Ha. destruct Ha as [|[|[->|]]]; [by left|by right; left| |by right; right]. exfalso. apply (Hnb i Hiu). rewrite Ea.
    apply aligned_garbage, (gb_aligned Hgb), (gb_dom Hgb), HbG.
  - intros a Ha. rewrite Hi. by apply (rl_entered _ _ _ _ _ _ _ Hr).
  - intros a Ha. rewrite Hi. by apply (rl_waiting _ _ _ _ _ _ _ Hr).
  - intros a val Ha. rewrite Hi. by apply (rl_plain _ _ _ _ _ _ _ Hr).
Qed.

(** The node that is being freed may change otherwise. *)
Lemma touch_freed f h g l J N F P b r : releasing h g l J N F P -> b ∈ F -> h !! b = Some r -> node_ok (f r) -> GC_INFO (f r) = GC_INFO r ->
  exists h1, on_node f b (h, g) = Some (h1, g) /\ releasing h1 g l J N F P /\ h1 !! b = Some (f r) /\ (forall a, a <> b -> h1 !! a = h !! a).
Proof.
  intros Hr HbF Er Hn Hi. destruct (on_node_ok f b h g r Er (rl_heap _ _ _ _ _ _ _ Hr) Hn Hi) as (h1 & E1 & Hi1 & Hd1 & Hok1 & _ & _ & Ho1).
  assert (h1 !! b = Some (f r)) as Eb.
  { unfold on_node in E1. cbn [fst snd] in E1. rewrite Er, some_bind in E1. injection E1 as <-. by rewrite lookup_insert_eq. }
  exists h1. split; [done|]. split; [|split; [done|intros a Ha; by apply Ho1]]. pose proof (rl_disjoint _ _ _ _ _ _ _ Hr) as Hdis.
  assert (forall a, a ∈ J \/ a ∈ N \/ a ∉ F -> a <> b) as Hne by (intros a Ha ->; destruct (Hdis b); tauto).
  apply (releasing_update h g l J N F P); try done.
  - intros a Ha. by left.
  - intros a Ha. apply Ho1. destruct Ha as [[_ Ha]|Ha]; [|apply Hne; tauto]. intros ->. apply Ha, (rl_garbage _ _ _ _ _ _ _ Hr). tauto.
  - intros a Ha. destruct (Ho1 a) as (_ & -> & _); [apply Hne; tauto|]. by apply (rl_null _ _ _ _ _ _ _ Hr).
  - intros a Ha HaF. destruct (Ho1 a) as (_ & _ & ->); [apply Hne; tauto|]. by apply (rl_count _ _ _ _ _ _ _ Hr).
  - intros a Ha Hp. destruct (Ho1 a) as (_ & _ & ->); [apply Hne; tauto|]. lia.
  - intros a Ha. destruct (Ho1 a) as (_ & _ & ->); [apply Hne; tauto|]. lia.
  - intros a Ha. split; [done|]. by destruct (rl_pending _ _ _ _ _ _ _ Hr a Ha) as (_ & ? & _).
Qed.

Lemma step_trans h g J N F P1 P2 s1 J1 s2 J2 : step_to h g J N F P1 s1 J1 -> step_to s1.1 s1.2 J1 N F P2 s2 J2 -> step_to h g J N F P2 s2 J2.
Proof.
  intros (l1 & _ & Ht1 & HF1 & HJ1) (l2 & Hr2 & Ht2 & HF2 & HJ2). exists l2. split; [done|]. split; [by eapply tags_kept_trans|].
  split; [intros a Ha; rewrite HF2 by done; by apply HF1|]. by etrans.
Qed.

(** * The destruction of one value *)

Section Values.
Context (n : nat).

Definition node_dtor_ok : Prop := forall h g l J N F P b, releasing h g l J N ({[b]} ∪ F) (children w ts b ++ P) -> b ∉ F ->
  types_of h !! b = ts !! b -> refcount_of h b = 0 -> (forall val, ts !! b = Some (IS_REFERENCE val) -> info_of h b = 0) -> (size J + 2 <= n)%nat ->
  exists s' J', rc_dtor n b (h, g) = Some s' /\ step_to h g J N F P s' J'.
Context (Hdtor : node_dtor_ok).

Lemma zval_dtor_ok zv h g l J N F P : releasing h g l J N F (option_list (Z_COLLECTABLE zv) ++ P) -> (size J + 1 <= n)%nat ->
  exists s' J', i_zval_ptr_dtor junk_word gc_collect_cycles (rc_dtor n) zv (h, g) = Some s' /\ step_to h g J N F P s' J'.
Proof.
  intros Hr Hn. unfold i_zval_ptr_dtor. destruct (Z_COLLECTABLE zv) as [b|]; cbn [option_list app] in Hr.
  2: { exists (h, g), J. split; [done|]. exists l. split; [done|]. split; [apply tags_kept_refl|]. by split. }
  destruct (delref_ok h g l J N F P b Hr) as (h1 & -> & HF1 & HbF & Hi1 & Hcase). rewrite some_bind. cbn [fst].
  destruct Hcase as [(Hnz & Hr1 & Htab)|[(Hz & HbN & Hr1)|(Hz & HbJ & Ht & Hr1)]].
  - destruct (Z.eqb_spec (refcount_of h1 b) 0); [done|]. assert (b ∈ dom h1) as Hb.
    { destruct (rl_pending _ _ _ _ _ _ _ Hr b) as (Hb & _); [left; by left|]. apply (rl_dom _ _ _ _ _ _ _ Hr1). by apply (rl_dom _ _ _ _ _ _ _ Hr). }
    destruct (check_possible_root_ok (rc_dtor n) h1 g l J N F P b Hr1 Hb HbF Htab) as (s' & Es & l' & Hr' & Htk & HF' & HJ').
    exists s', J. split; [done|]. exists l'. split; [done|]. split; [done|]. split; [|done]. intros a Ha. rewrite HF' by done. by apply HF1.
  - rewrite Hz. cbn [Z.eqb]. exists (h1, g), J. split; [|exists l; split; [done|]; by split].
    destruct n as [|n']; [lia|]. cbn [rc_dtor_func]. change (type_at (h1, g) b) with (GC_TYPE <$> h1 !! b).
    by rewrite <- types_lookup, (rl_null _ _ _ _ _ _ _ Hr1 b HbN).
  - rewrite Hz. cbn [Z.eqb]. pose proof (smaller J b HbJ).
    destruct (Hdtor h1 g l (J ∖ {[b]}) N F P b Hr1 HbF Ht Hz) as (s' & J' & Es & l' & Hr' & Htk & HF' & HJ').
    + intros val Hval. rewrite Hi1. by apply (rl_plain _ _ _ _ _ _ _ Hr b val).
    + lia.
    + exists s', J'. split; [done|]. exists l'. split; [done|]. split; [done|]. split; [intros a Ha; rewrite HF' by done; by apply HF1|set_solver].
Qed.

Lemma zvals_dtor_ok zs : forall h g l J N F P, releasing h g l J N F (omap Z_COLLECTABLE zs ++ P) -> (size J + 1 <= n)%nat ->
  exists s' J', zvals_dtor junk_word gc_collect_cycles (rc_dtor n) zs (h, g) = Some s' /\ step_to h g J N F P s' J'.
Proof.
  induction zs as [|zv zs IH]; intros h g l J N F P Hr Hn; cbn [zvals_dtor].
  { exists (h, g), J. split; [done|]. exists l. split; [done|]. split; [apply tags_kept_refl|]. by split. }
  assert (omap Z_COLLECTABLE (zv :: zs) ++ P = option_list (Z_COLLECTABLE zv) ++ omap Z_COLLECTABLE zs ++ P) as Eo by (cbn; by destruct (Z_COLLECTABLE zv)).
  rewrite Eo in Hr. destruct (zval_dtor_ok zv h g l J N F _ Hr Hn) as ([h1 g1] & J1 & -> & Hs1). rewrite some_bind.
  pose proof Hs1 as (l1 & Hr1 & _ & _ & HJ1). apply subseteq_size in HJ1.
  destruct (IH h1 g1 l1 J1 N F P Hr1) as (s2 & J2 & -> & Hs2); [lia|]. exists s2, J2. split; [done|]. by eapply step_trans.
Qed.

(** ** The nodes *)

Lemma node_ok_null (r : zend_refcounted V) : node_ok r -> node_ok (set_GC_INFO 0 (set_GC_TYPE GC_NULL r)).
Proof. intros [? _]. split; [done|]. cbn. lia. Qed.

Lemma array_destroy_ok h g l J N F P b t : releasing h g l J N ({[b]} ∪ F) (children w ts b ++ P) -> b ∉ F -> ts !! b = Some (IS_ARRAY t) -> (size J + 1 <= n)%nat ->
  exists s' J', zend_array_destroy junk_word gc_collect_cycles (rc_dtor n) b t (h, g) = Some s' /\ step_to h g J N F P s' J'.
Proof.
  intros Hr HbF Ht Hn. assert (b ∈ ({[b]} : gset Z) ∪ F) as Hb by set_solver. assert (forall a, a ∈ F -> a <> b) as HFb by (intros a Ha ->; done).
  assert (b ∈ G) as HbG by (apply (rl_garbage _ _ _ _ _ _ _ Hr); tauto).
  unfold zend_array_destroy. destruct (remove_freed_ok h g l J N _ _ b Hr Hb) as (h1 & g1 & l1 & -> & Hr1 & Htk1 & Hi1 & _ & Ho1). rewrite some_bind.
  assert (b ∈ dom h1) as Hb1 by (apply (rl_dom _ _ _ _ _ _ _ Hr1); tauto). destruct (rl_node b Hb1) as (r & Er & Ei & _).
  destruct (touch_freed (fun r => set_GC_INFO 0 (set_GC_TYPE GC_NULL r)) h1 g1 l1 J N _ _ b r Hr1 Hb Er) as (h2 & E2 & Hr2 & Eb2 & Ho2).
  { apply node_ok_null. by apply (rl_heap _ _ _ _ _ _ _ Hr1 b). } { cbn. by rewrite Ei, Hi1. }
  unfold reset_null. rewrite E2, some_bind. rewrite <- (direct_children b t HbG Ht) in Hr2.
  destruct (zvals_dtor_ok (table_vals t) h2 g1 l1 J N _ P Hr2 Hn) as ([h3 g3] & J3 & E3 & l3 & Hr3 & Htk3 & HF3 & HJ3). cbn [fst snd] in *.
  match goal with |- context [if ?c then ?x else ?y] => assert ((if c then x else y) = Some (h3, g3)) as -> end.
  { destruct (Z.eqb_spec (nNumUsed t) 0) as [E0|]; cbn [negb]; [|done]. unfold table_vals in E3. by rewrite E0 in E3. }
  rewrite some_bind. destruct (efree_ok h3 g3 l3 J3 N F P b Hr3 HbF) as [-> Hr4].
  { unfold info_of. by rewrite HF3, Eb2. }
  exists (delete b h3, g3), J3. split; [done|]. exists l3. split; [done|]. split; [by eapply tags_kept_trans|]. split; [|done]. intros a Ha. cbn [fst].
  rewrite lookup_delete_ne by (intros ->; by apply (HFb a)). rewrite HF3 by set_solver. rewrite Ho2, Ho1; [done|by apply HFb|by apply HFb].
Qed.

Lemma reference_destroy_ok h g l J N F P b val : releasing h g l J N ({[b]} ∪ F) (children w ts b ++ P) -> b ∉ F -> ts !! b = Some (IS_REFERENCE val) ->
  info_of h b = 0 -> (size J + 1 <= n)%nat ->
  exists s' J', zend_reference_destroy junk_word gc_collect_cycles (rc_dtor n) b val (h, g) = Some s' /\ step_to h g J N F P s' J'.
Proof.
  intros Hr HbF Ht Hi Hn. unfold zend_reference_destroy. unfold children at 1 in Hr. rewrite Ht in Hr.
  assert (omap Z_COLLECTABLE [val] = option_list (Z_COLLECTABLE val)) as Eo by (cbn; by destruct (Z_COLLECTABLE val)). rewrite Eo in Hr.
  destruct (zval_dtor_ok val h g l J N _ P Hr Hn) as ([h1 g1] & J1 & -> & l1 & Hr1 & Htk1 & HF1 & HJ1). rewrite some_bind. cbn [fst snd] in *.
  destruct (efree_ok h1 g1 l1 J1 N F P b Hr1 HbF) as [-> Hr2].
  { unfold info_of. rewrite HF1 by set_solver. exact Hi. }
  exists (delete b h1, g1), J1. split; [done|]. exists l1. split; [done|]. split; [done|]. split; [|done]. intros a Ha. cbn [fst].
  rewrite lookup_delete_ne by (intros ->; done). apply HF1. set_solver.
Qed.

Lemma dynamic_properties_ok ht h g l J N F P : releasing h g l J N F (option_list ht ++ P) -> (forall t, ht = Some t -> table_of t) -> (size J + 1 <= n)%nat ->
  exists s' J', zend_object_dtor_dynamic_properties junk_word gc_collect_cycles (rc_dtor n) ht (h, g) = Some s' /\ step_to h g J N F P s' J'.
Proof.
  intros Hr Hto Hn. unfold zend_object_dtor_dynamic_properties. destruct ht as [b|]; cbn [option_list app] in Hr.
  2: { exists (h, g), J. split; [done|]. exists l. split; [done|]. split; [apply tags_kept_refl|]. by split. }
  destruct (table_garbage b (Hto b eq_refl)) as [HbG [tab Htab]].
  destruct (delref_ok h g l J N F P b Hr) as (h1 & -> & HF1 & HbF & Hi1 & Hcase). rewrite some_bind. cbn [fst].
  destruct Hcase as [(Hnz & Hr1 & _)|[(Hz & HbN & Hr1)|(Hz & HbJ & Ht & Hr1)]].
  - destruct (Z.eqb_spec (refcount_of h1 b) 0); [done|]. exists (h1, g), J. split; [done|]. exists l. split; [done|]. by split.
  - rewrite Hz. cbn [Z.eqb]. unfold type_at. cbn [fst]. rewrite <- types_lookup, (rl_null _ _ _ _ _ _ _ Hr1 b HbN).
    exists (h1, g), J. split; [done|]. exists l. split; [done|]. by split.
  - rewrite Hz. cbn [Z.eqb]. unfold type_at. cbn [fst]. rewrite <- types_lookup, Ht, Htab. pose proof (smaller J b HbJ).
    destruct (array_destroy_ok h1 g l (J ∖ {[b]}) N F P b tab Hr1 HbF Htab) as (s' & J' & -> & l' & Hr' & Htk & HF' & HJ'); [lia|].
    exists s', J'. split; [done|]. exists l'. split; [done|]. split; [done|]. split; [intros a Ha; rewrite HF' by done; by apply HF1|set_solver].
Qed.

Lemma object_std_dtor_ok obj h g l J N F P : releasing h g l J N F (option_list (get_gc obj).1 ++ omap Z_COLLECTABLE (get_gc obj).2 ++ P) ->
  (forall t, (get_gc obj).1 = Some t -> table_of t) -> (size J + 1 <= n)%nat ->
  exists s' J', zend_object_std_dtor junk_word gc_collect_cycles (rc_dtor n) obj (h, g) = Some s' /\ step_to h g J N F P s' J'.
Proof.
  intros Hr Hto Hn. unfold zend_object_std_dtor.
  destruct (dynamic_properties_ok _ h g l J N F _ Hr Hto Hn) as ([h1 g1] & J1 & -> & Hs1). rewrite some_bind. cbn [fst snd].
  pose proof Hs1 as (l1 & Hr1 & _ & _ & HJ1). apply subseteq_size in HJ1.
  destruct (zvals_dtor_ok (get_gc obj).2 h1 g1 l1 J1 N F P Hr1) as (s2 & J2 & -> & Hs2); [lia|]. exists s2, J2. split; [done|]. by eapply step_trans.
Qed.

Lemma objects_store_del_ok h g l J N F P b obj : releasing h g l J N ({[b]} ∪ F) (children w ts b ++ P) -> b ∉ F -> ts !! b = Some (IS_OBJECT obj) ->
  types_of h !! b = ts !! b -> refcount_of h b = 0 -> (size J + 1 <= n)%nat ->
  exists s' J', zend_objects_store_del junk_word gc_collect_cycles dtor_obj (rc_dtor n) b obj (h, g) = Some s' /\ step_to h g J N F P s' J'.
Proof.
  intros Hr HbF Ht Hty Hz Hn. assert (b ∈ ({[b]} : gset Z) ∪ F) as Hb by set_solver. assert (forall a, a ∈ F -> a <> b) as HFb by (intros a Ha ->; done).
  assert (b ∈ G) as HbG by (apply (rl_garbage _ _ _ _ _ _ _ Hr); tauto). destruct (gb_obj Hgb b obj HbG Ht) as [Hfree Hdt].
  unfold zend_objects_store_del.
  match goal with |- context [if negb (IS_OBJ_DESTRUCTOR_CALLED obj) then ?x else ?y] =>
    assert (exists obj1 h1, (if negb (IS_OBJ_DESTRUCTOR_CALLED obj) then x else y) = Some (h1, g) /\
       releasing h1 g l J N ({[b]} ∪ F) (children w ts b ++ P) /\ types_of h1 !! b = Some (IS_OBJECT obj1) /\
       refcount_of h1 b = 0 /\ IS_OBJ_FREE_CALLED obj1 = false /\ get_gc obj1 = get_gc obj /\ (forall a, a <> b -> h1 !! a = h !! a))
    as (obj1 & h1 & -> & Hr1 & Ht1 & Hz1 & Hfree1 & Hget1 & Ho1) end.
  { destruct Hdt as [Hdt|Hdt].
    - rewrite Hdt. cbn [negb]. exists obj, h. rewrite Hty, Ht. by split_and!.
    - destruct (IS_OBJ_DESTRUCTOR_CALLED obj); cbn [negb]; [exists obj, h; rewrite Hty, Ht; by split_and!|].
      assert (b ∈ dom h) as Hbd by (apply (rl_dom _ _ _ _ _ _ _ Hr); tauto). destruct (rl_node b Hbd) as (r & Er & _ & Et & Ec).
      rewrite Hty, Ht in Et. injection Et as Et. unfold on_object.
      destruct (touch_freed (fun r => set_GC_TYPE (match GC_TYPE r with IS_OBJECT obj => IS_OBJECT (set_IS_OBJ_DESTRUCTOR_CALLED obj) | ty => ty end) r)
        h g l J N _ _ b r Hr Hb Er) as (h1 & -> & Hr1 & Eb1 & Ho1).
      { by destruct (rl_heap _ _ _ _ _ _ _ Hr b r Er). } { done. }
      rewrite some_bind, Hdt. exists (set_IS_OBJ_DESTRUCTOR_CALLED obj), h1. split; [done|]. split; [done|].
      rewrite types_lookup, Eb1. unfold refcount_of. rewrite Eb1. cbn. rewrite <- Et. by rewrite Ec. }
  rewrite some_bind. cbn [fst]. rewrite Hz1. cbn [Z.eqb]. unfold type_at. cbn [fst]. rewrite <- types_lookup, Ht1, Hfree1. cbn [negb].
  assert (b ∈ dom h1) as Hbd1 by (apply (rl_dom _ _ _ _ _ _ _ Hr1); tauto). destruct (rl_node b Hbd1) as (r1 & Er1 & _ & Et1 & _).
  unfold on_object, set_refcount.
  destruct (touch_freed (fun r => set_GC_TYPE (match GC_TYPE r with IS_OBJECT obj => IS_OBJECT (set_IS_OBJ_FREE_CALLED obj) | ty => ty end) r)
    h1 g l J N _ _ b r1 Hr1 Hb Er1) as (h2 & -> & Hr2 & Eb2 & Ho2).
  { by destruct (rl_heap _ _ _ _ _ _ _ Hr1 b r1 Er1). } { done. }
  rewrite some_bind.
  destruct (touch_freed (set_GC_REFCOUNT 1) h2 g l J N _ _ b _ Hr2 Hb Eb2) as (h3 & -> & Hr3 & Eb3 & Ho3).
  { split; [cbn; lia|]. by destruct (rl_heap _ _ _ _ _ _ _ Hr1 b r1 Er1). } { done. }
  rewrite some_bind. unfold children at 1 in Hr3. rewrite Ht, Hfree, <- app_assoc, <- Hget1 in Hr3.
  destruct (object_std_dtor_ok obj1 h3 g l J N _ P Hr3) as ([h4 g4] & J4 & -> & l4 & Hr4 & Htk4 & HF4 & HJ4); [|done|].
  { intros t Hgt. exists b, obj. by rewrite <- Hget1. }
  rewrite some_bind. cbn [fst snd] in *. destruct (remove_freed_ok h4 g4 l4 J4 N _ P b Hr4 Hb) as (h5 & g5 & l5 & -> & Hr5 & Htk5 & Hi5 & _ & Ho5). rewrite some_bind.
  destruct (efree_ok h5 g5 l5 J4 N F P b Hr5 HbF Hi5) as [-> Hr6].
  exists (delete b h5, g5), J4. split; [done|]. exists l5. split; [done|]. split; [by eapply tags_kept_trans|]. split; [|done]. intros a Ha. cbn [fst].
  rewrite lookup_delete_ne by (intros ->; by apply (HFb a)). pose proof (HFb a Ha). rewrite Ho5 by done. rewrite HF4 by set_solver. by rewrite Ho3, Ho2, Ho1.
Qed.
End Values.

Lemma node_dtor_all n : node_dtor_ok n.
Proof.
  induction n as [|n IH]; intros h g l J N F P b Hr HbF Ht Hz Hi Hn; [lia|]. cbn [rc_dtor_func]. unfold type_at. cbn [fst]. rewrite <- types_lookup, Ht.
  assert (b ∈ G) as HbG by (apply (rl_garbage _ _ _ _ _ _ _ Hr); set_solver).
  destruct (ts !! b) as [[t|obj|val|]|] eqn:Ets.
  - apply (array_destroy_ok n IH h g l J N F P b t); [done|done|done|lia].
  - apply (objects_store_del_ok n IH h g l J N F P b obj); [done|done|done|by rewrite Ets|done|lia].
  - apply (reference_destroy_ok n IH h g l J N F P b val); [done|done|done|by apply (Hi val)|lia].
  - by destruct (gb_whole Hgb b HbG).
  - exfalso. apply (gb_dom Hgb) in HbG. rewrite <- types_dom in HbG. by apply not_elem_of_dom in Ets.
Qed.
End Release.
