(* ===== verification/GcDestroy.v ===== *)
(** Destruction and release of the garbage (Zend/zend_gc.c, the loops after the
    analysis): every garbage node is destroyed once and freed, and the other
    nodes lose exactly the references that came from garbage. *)

From stdpp Require Import base numbers list gmap sets relations.
From S2P Require Import Prelude ZendTypes HashTable HashOps GcBuffer GcRoots GcCompact GcGraph GcVisit GcMark GcScan GcCollect GcFree GcRelease.

(** What the invariant of the buffer reads of the globals. *)
Definition same_buffer (g g' : zend_gc_globals) : Prop :=
  buf g' = buf g /\ first_unused g' = first_unused g /\ unused g' = unused g /\ buf_size g' = buf_size g /\
  num_roots g' = num_roots g /\ gc_threshold g' = gc_threshold g.

Lemma unused_list_same g g' l : forall i, buf g' = buf g -> unused_list g i l -> unused_list g' i l.
Proof.
  induction l as [|j l IH]; intros i Hb; cbn [unused_list]; [done|]. intros [-> (k & Hk & He & Hl)]. split; [done|]. exists k.
  split; [done|]. split; [unfold entry in *; by rewrite Hb|]. by apply IH.
Qed.

Lemma buf_ok_same {V : Type} (h : gmap Z (zend_refcounted V)) g g' l : same_buffer g g' -> buf_ok h g l -> buf_ok h g' l.
Proof.
  intros (Hb & Hf & Hu & Hs & Hn & Ht) Hok.
  assert (forall i, entry g' i = entry g i) as He by (intros i; unfold entry; by rewrite Hb).
  assert (forall i, is_used g' i <-> is_used g i) as Hused by (intros i; unfold is_used; by rewrite Hf, He).
  destruct Hok. split; rewrite ?Hb, ?Hf, ?Hu, ?Hs, ?Hn, ?Ht; try done.
  - by apply (unused_list_same g).
  - intros i. rewrite He. by apply bo_unused.
  - intros i. rewrite Hused, He. by apply bo_node.
  - intros a r Ha Hz. destruct (bo_address a r Ha Hz) as (i & Hi & Ei). exists i. by rewrite Hused, He.
  - intros i j. rewrite !Hused, !He. by apply bo_inj.
Qed.

Lemma entry_info {V : Type} (h : gmap Z (zend_refcounted V)) g l idx p : buf_ok h g l -> is_used g idx -> GC_GET_PTR (entry g idx) = p -> info_of h p <> 0.
Proof.
  intros Hok Hu Hp Hz. destruct (bo_node _ _ _ Hok idx Hu) as (r & Er & Ea). rewrite Hp in Er.
  unfold info_of in Hz. rewrite Er in Hz. cbn in Hz. rewrite Hz in Ea. destruct Hu as [Hu _]. pose proof (compress_range idx). rewrite Z.land_0_l in Ea. lia.
Qed.

Section Destroy.
Context {V : Type} {E : ZEnv V} {C : Collectable V} (w : EG V) (junk_word : nat -> Z).
Context (gc_collect_cycles : gc_state (V := V) -> option (gc_state (V := V) * Z)) (dtor_obj : Z -> gc_state (V := V) -> option (gc_state (V := V))).
Implicit Types (h : gmap Z (zend_refcounted V)) (J N F : gset Z) (P : list Z).
Context (h0 : gmap Z (zend_refcounted V)) (G : list Z) (Hgb : garbage_ok w h0 G).
Local Notation ts := (types_of h0).
Local Notation rel := (releasing w h0 G).
Local Notation on_node_ok := (on_node_ok w dtor_obj h0 G Hgb).
Local Notation refs_take := (refs_take w dtor_obj h0 G Hgb).
Local Notation delref_ok := (delref_ok w dtor_obj h0 G Hgb).
Local Notation efree_ok := (efree_ok w dtor_obj h0 G Hgb).
Local Notation releasing_unrooted := (releasing_unrooted w dtor_obj h0 G Hgb).
Local Notation zvals_dtor_ok := (zvals_dtor_ok w junk_word gc_collect_cycles dtor_obj h0 G Hgb).
Local Notation object_std_dtor_ok := (object_std_dtor_ok w junk_word gc_collect_cycles dtor_obj h0 G Hgb).
Local Notation node_dtor_all := (node_dtor_all w junk_word gc_collect_cycles dtor_obj h0 G Hgb).

(** * A node is taken for destruction *)

Lemma set_null_ok h g l J N P a : rel h g l J N ∅ P -> a ∈ J -> info_of h a <> 0 ->
  exists h1, set_null a (h, g) = Some (h1, g) /\ rel h1 g l (J ∖ {[a]}) (N ∪ {[a]}) ∅ (children w ts a ++ P) /\ refcount_of h1 a = refcount_of h a.
Proof.
  intros Hr Ha Hi. assert (a ∈ dom h) as Had by (apply (rl_dom _ _ _ _ _ _ _ _ _ _ Hr); tauto).
  destruct (rl_node a Had) as (r & Er & _ & _ & Ec). pose proof (rl_heap _ _ _ _ _ _ _ _ _ _ Hr) as Hok.
  destruct (on_node_ok (set_GC_TYPE GC_NULL) a h g r Er Hok) as (h1 & E1 & Hi1 & Hd1 & Hok1 & Et1 & Ec1 & Ho1).
  { by destruct (Hok a r Er). } { done. }
  cbn in Et1, Ec1. rewrite Ec in Ec1. exists h1. split; [exact E1|]. split; [|done].
  assert (forall b, refcount_of h1 b = refcount_of h b) as Hrc by (intros b; destruct (decide (b = a)) as [->|Hne]; [done|by apply Ho1]).
  pose proof (refs_take J a Ha) as Hp. pose proof (rl_disjoint _ _ _ _ _ _ _ _ _ _ Hr) as Hdis.
  assert (forall b, b ∈ J ∖ {[a]} <-> b ∈ J /\ b <> a) as HJ by (intros b; set_solver).
  assert (forall b, b ∈ N ∪ {[a]} <-> b ∈ N \/ b = a) as HN by (intros b; set_solver).
  apply (releasing_update w h0 G h g l J N ∅ P); try done.
  - intros b. rewrite HJ, HN. destruct (decide (b = a)) as [->|]; tauto.
  - intros b. rewrite HJ, HN. destruct (Hdis b) as [H1 H2]. split; [intros [H3 H4]; destruct (H1 H3); split; [by intros [|]|done]|].
    intros [H3| ->]; [by apply H2|by apply H1].
  - intros b [? _]%HJ. done.
  - intros b [?| ->]%HN; [by left|by right].
  - intros b Hb. destruct (Ho1 b) as (_ & -> & _); [|done]. intros ->. destruct Hb as [[_ Hn]|[_ Hn]%HJ]; [|done].
    apply Hn, (rl_garbage _ _ _ _ _ _ _ _ _ _ Hr). by left.
  - intros b [Hb| ->]%HN; [|done]. destruct (Ho1 b) as (_ & -> & _); [intros ->; by destruct (Hdis a) as [H1 _]; destruct (H1 Ha)|].
    by apply (rl_null _ _ _ _ _ _ _ _ _ _ Hr).
  - intros b Hb HbF. rewrite Hrc, (rl_count _ _ _ _ _ _ _ _ _ _ Hr b Hb HbF), (occ_perm b _ _ Hp), !occ_app. lia.
  - intros b _ Hpos. rewrite Hrc. lia.
  - intros b _. rewrite Hrc. lia.
  - intros b Hb. split; [|done]. rewrite Hp, elem_of_app. rewrite elem_of_app in Hb. tauto.
Qed.

Lemma addref_ok h g l J N F P b : rel h g l J N F P -> b ∈ N -> refcount_of h b < 2 ^ 32 - 1 ->
  exists h1, addref b (h, g) = Some (h1, g) /\ rel h1 g l J N F (P ++ [b]).
Proof.
  intros Hr Hb Hlt. pose proof (rl_disjoint _ _ _ _ _ _ _ _ _ _ Hr) as Hdis. pose proof (rl_heap _ _ _ _ _ _ _ _ _ _ Hr) as Hok.
  assert (b ∈ dom h) as Hbd by (apply (rl_dom _ _ _ _ _ _ _ _ _ _ Hr); tauto). destruct (rl_node b Hbd) as (r & Er & _ & _ & Ec).
  pose proof (heap_ok_count h b Hok). assert (u32 (GC_REFCOUNT r + 1) = refcount_of h b + 1) as Eu by (rewrite Ec; apply u32_small; lia).
  destruct (on_node_ok (fun r => set_GC_REFCOUNT (u32 (GC_REFCOUNT r + 1)) r) b h g r Er Hok) as (h1 & E1 & Hi1 & Hd1 & Hok1 & Et1 & Ec1 & Ho1).
  { split; cbn; [rewrite Eu; lia|]. by destruct (Hok b r Er). } { done. }
  cbn in Et1, Ec1. rewrite Eu in Ec1. exists h1. split; [exact E1|].
  assert (forall a, types_of h1 !! a = types_of h !! a) as Hty.
  { intros a. destruct (decide (a = b)) as [->|Hne]; [|by apply Ho1]. by rewrite Et1, types_lookup, Er. }
  assert (forall a, a <> b -> refcount_of h1 a = refcount_of h a) as Hrc by (intros a Ha; by apply Ho1).
  assert (forall a, a ∈ J -> a <> b) as Hne by (intros a Ha ->; by destruct (Hdis b) as [H1 _]; destruct (H1 Ha)).
  assert (b ∉ F) as HbF by (by apply (Hdis b)).
  split; try apply Hr; try done.
  - intros a. rewrite Hd1. apply Hr.
  - intros a Ha. rewrite Hty. by apply Hr.
  - intros a Ha. rewrite Hty. by apply (rl_null _ _ _ _ _ _ _ _ _ _ Hr).
  - intros a Ha HaF. rewrite Hd1 in Ha. pose proof (rl_count _ _ _ _ _ _ _ _ _ _ Hr a Ha HaF) as Hc. rewrite occ_app, occ_cons, occ_nil.
    destruct (decide (b = a)) as [<-|]; [lia|]. rewrite Hrc by done. lia.
  - intros a Ha. rewrite Hrc by (by apply Hne). by apply (rl_pos _ _ _ _ _ _ _ _ _ _ Hr).
  - intros a Ha. rewrite Hrc by (by apply Hne). by apply (rl_le _ _ _ _ _ _ _ _ _ _ Hr).
  - intros a Ha. rewrite Hd1. destruct (decide (a = b)) as [->|Hab].
    + split; [done|]. split; [done|]. left. apply (rl_garbage _ _ _ _ _ _ _ _ _ _ Hr). tauto.
    + apply (rl_pending _ _ _ _ _ _ _ _ _ _ Hr). rewrite elem_of_app, list_elem_of_singleton in Ha. tauto.
  - apply (buf_ok_heap h); [done| |apply Hr]. intros a. unfold GC_REF_ADDRESS. by rewrite Hi1.
  - intros a. unfold GC_REF_COLOR. rewrite Hi1. apply Hr.
  - intros i Hiu. unfold GC_REF_COLOR. rewrite Hi1. by apply Hr.
  - intros a Ha. rewrite Hi1. by apply (rl_entered _ _ _ _ _ _ _ _ _ _ Hr).
  - intros a Ha. rewrite Hi1. by apply (rl_waiting _ _ _ _ _ _ _ _ _ _ Hr).
  - intros a val Ha. rewrite Hi1. by apply (rl_plain _ _ _ _ _ _ _ _ _ _ Hr).
Qed.

Lemma set_entry_same idx p g : 0 <= idx < llen (buf g) -> entry g idx = p -> set_entry idx p g = g.
Proof.
  intros Hi <-. unfold set_entry, entry, lset, lget. rewrite list_insert_id; [by destruct g|]. unfold llen in Hi.
  destruct (lookup_lt_is_Some_2 (buf g) (Z.to_nat idx)) as [x Hx]; [lia|]. by rewrite Hx.
Qed.

Lemma size_garbage h g l J N F P p : rel h g l J N F P -> p ∈ J -> (size (J ∖ {[p]}) + 1 <= size h0)%nat.
Proof.
  intros Hr Hp. rewrite smaller by done. rewrite <- (size_dom (D:=gset Z)). apply subseteq_size. intros a Ha.
  apply (gb_dom _ _ _ Hgb), (rl_garbage _ _ _ _ _ _ _ _ _ _ Hr). by left.
Qed.

(** One garbage entry. *)
Lemma destroy_garbage_ok fuel idx p h g l J N : rel h g l J N ∅ [] -> is_used g idx -> entry g idx = GC_MAKE_GARBAGE p -> p ∈ J -> (size h0 < fuel)%nat ->
  exists h' g' l' J', destroy_garbage junk_word gc_collect_cycles dtor_obj fuel idx p (h, g) = Some (h', g') /\ rel h' g' l' J' (N ∪ {[p]}) ∅ [] /\
    tags_kept g g' /\ J' ⊆ J ∖ {[p]}.
Proof.
  intros Hr Hu Hent HpJ Hfuel. assert (p ∈ G) as HpG by (apply (rl_garbage _ _ _ _ _ _ _ _ _ _ Hr); by left).
  assert (info_of h p <> 0) as Hinfo.
  { apply (entry_info h g l idx p (rl_buf _ _ _ _ _ _ _ _ _ _ Hr) Hu). rewrite Hent. apply aligned_garbage, (gb_aligned _ _ _ Hgb). by apply (gb_dom _ _ _ Hgb). }
  pose proof (size_garbage h g l J N ∅ [] p Hr HpJ) as Hsize.
  destruct (set_null_ok h g l J N [] p Hr HpJ Hinfo) as (h1 & E1 & Hr1 & Hc1). rewrite app_nil_r in Hr1.
  unfold destroy_garbage, type_at. cbn [fst]. rewrite <- types_lookup, (rl_types _ _ _ _ _ _ _ _ _ _ Hr p) by (by right).
  destruct (ts !! p) as [[t|obj|val|]|] eqn:Ets.
  - rewrite E1, some_bind. unfold zend_hash_destroy. rewrite <- (direct_children _ _ _ Hgb p t HpG Ets), <- (app_nil_r (omap _ _)) in Hr1.
    destruct (zvals_dtor_ok fuel (node_dtor_all fuel) _ h1 g l _ _ _ [] Hr1) as ([h2 g2] & J2 & -> & l2 & Hr2 & Htk & _ & HJ2); [lia|].
    by exists h2, g2, l2, J2.
  - rewrite E1, some_bind. cbn [fst snd]. destruct (gb_obj _ _ _ Hgb p obj HpG Ets) as [Hfree _]. rewrite Hfree. cbn [negb].
    pose proof (bo_size _ _ _ (rl_buf _ _ _ _ _ _ _ _ _ _ Hr)). pose proof (bo_first _ _ _ (rl_buf _ _ _ _ _ _ _ _ _ _ Hr)).
    rewrite set_entry_same by (done || (destruct Hu; lia)).
    pose proof (rl_le _ _ _ _ _ _ _ _ _ _ Hr p HpJ). pose proof (gb_room _ _ _ Hgb p HpG).
    destruct (addref_ok h1 g l _ _ _ _ p Hr1) as (h2 & -> & Hr2); [set_solver|lia|]. rewrite some_bind.
    unfold children in Hr2. rewrite Ets, Hfree, <- app_assoc in Hr2.
    destruct (object_std_dtor_ok fuel (node_dtor_all fuel) obj h2 g l _ _ _ [p] Hr2) as ([h3 g3] & J3 & -> & l3 & Hr3 & Htk & _ & HJ3); [|lia|].
    { intros t Hg. by exists p, obj. }
    rewrite some_bind. cbn [fst snd] in *. destruct (delref_ok h3 g3 l3 J3 _ _ [] p Hr3) as (h4 & -> & _ & _ & _ & Hcase).
    exists h4, g3, l3, J3. split; [done|]. split; [|done]. destruct Hcase as [(_ & ? & _)|[(_ & _ & ?)|(_ & HpJ3 & _)]]; [done|done|]. set_solver.
  - by destruct (Hinfo (rl_plain _ _ _ _ _ _ _ _ _ _ Hr p val HpJ Ets)).
  - by destruct (gb_whole _ _ _ Hgb p HpG).
  - exfalso. apply (gb_dom _ _ _ Hgb) in HpG. rewrite <- types_dom in HpG. by apply not_elem_of_dom in Ets.
Qed.

(** * All garbage entries *)

(** Entries below [cur] are destroyed, those from [cur] on are whole. *)
Definition tagged g J N (cur end_ : Z) : Prop :=
  end_ <= first_unused g /\
  forall i, is_used g i -> GC_IS_GARBAGE (entry g i) = true ->
    i < end_ /\ exists a, entry g i = GC_MAKE_GARBAGE a /\ aligned a /\ (i < cur -> a ∈ N) /\ (cur <= i -> a ∈ J).

Lemma garbage_used g i : 1 <= i < first_unused g -> GC_IS_GARBAGE (entry g i) = true -> is_used g i.
Proof.
  intros Hi Hg. split; [done|]. unfold GC_IS_GARBAGE, GC_IS_UNUSED in *. apply Z.eqb_eq in Hg. by rewrite Hg.
Qed.

Lemma garbage_of h g l J N F P i : rel h g l J N F P -> is_used g i -> GC_IS_GARBAGE (entry g i) = true ->
  exists a, entry g i = GC_MAKE_GARBAGE a /\ GC_GET_PTR (entry g i) = a /\ aligned a /\ (a ∈ J \/ a ∈ N \/ a ∈ F).
Proof.
  intros Hr Hu Hg. destruct (rl_entries _ _ _ _ _ _ _ _ _ _ Hr i Hu) as [(a & Ha & Ea)|(_ & Hal & _)].
  - assert (aligned a) as Hal by (apply (gb_aligned _ _ _ Hgb), (gb_dom _ _ _ Hgb), (rl_garbage _ _ _ _ _ _ _ _ _ _ Hr a Ha)).
    exists a. split; [done|]. split; [rewrite Ea; by apply aligned_garbage|done].
  - unfold GC_IS_GARBAGE in Hg. by rewrite Hal in Hg.
Qed.

Lemma destroy_loop_ok fuel end_ n : (size h0 < fuel)%nat -> forall idx h g l J N, rel h g l J N ∅ [] -> 1 <= idx -> idx + Z.of_nat n = end_ -> tagged g J N idx end_ ->
  exists h' g' l' J' N', destroy_loop junk_word gc_collect_cycles dtor_obj fuel n idx (h, g) = Some (h', g') /\ rel h' g' l' J' N' ∅ [] /\ tagged g' J' N' end_ end_.
Proof.
  intros Hfuel. induction n as [|n IH]; intros idx h g l J N Hr Hidx Hend Htag; cbn [destroy_loop snd].
  { exists h, g, l, J, N. replace end_ with idx in * by lia. done. }
  destruct Htag as [Hfu Htag]. destruct (GC_IS_GARBAGE (entry g idx)) eqn:Hg.
  - assert (is_used g idx) as Hu by (apply garbage_used; [lia|done]).
    destruct (Htag idx Hu Hg) as (_ & p & Ep & Hal & _ & HpJ). specialize (HpJ ltac:(lia)).
    destruct (aligned_garbage p Hal) as (_ & _ & Hptr & _).
    destruct (destroy_garbage_ok fuel idx p h g l J N Hr Hu Ep HpJ Hfuel) as (h1 & g1 & l1 & J1 & E1 & Hr1 & [Hf1 Hk1] & HJ1).
    rewrite Ep, Hptr, E1, some_bind. apply (IH (idx + 1) h1 g1 l1 J1 _ Hr1); [lia|lia|]. split; [lia|]. intros i Hi Hgi.
    destruct (Hk1 i Hi Hgi) as [Hig Ei]. rewrite <- Ei in Hgi. destruct (Htag i Hig Hgi) as (Hlt & a & Ea & Hala & HaN & HaJ).
    split; [done|]. exists a. rewrite <- Ei. split; [done|]. split; [done|].
    assert (GC_GET_PTR (entry g i) = a) as Hpa by (rewrite Ea; by apply aligned_garbage).
    assert (a = p -> i = idx) as Hinj.
    { intros ->. apply (bo_inj _ _ _ (rl_buf _ _ _ _ _ _ _ _ _ _ Hr)); [done|done|]. by rewrite Hpa, Ep, Hptr. }
    split.
    + intros Hle. apply elem_of_union. destruct (decide (i = idx)) as [->|Hne]; [right|left; apply HaN; lia]. rewrite Ep in Ea.
      apply elem_of_singleton. rewrite <- Hpa, Ep, Hptr. done.
    + intros Hle. specialize (HaJ ltac:(lia)). destruct (garbage_of _ _ _ _ _ _ _ i Hr1 Hi) as (b & _ & Hpb & _ & Hb); [by rewrite <- Ei|].
      rewrite <- Ei, Hpa in Hpb. subst b. destruct (rl_disjoint _ _ _ _ _ _ _ _ _ _ Hr a) as [Hd _].
      destruct Hb as [|[[Hb|Hb%elem_of_singleton]%elem_of_union|Hb]]; [done|by destruct (Hd HaJ)|apply Hinj in Hb; lia|set_solver].
  - rewrite some_bind. apply (IH (idx + 1) h g l J N Hr); [lia|lia|]. split; [done|]. intros i Hi Hgi.
    destruct (Htag i Hi Hgi) as (Hlt & a & Ea & Hala & HaN & HaJ). split; [done|]. exists a. split; [done|]. split; [done|].
    split; intros Hle; [|apply HaJ; lia]. apply HaN. destruct (decide (i = idx)) as [->|]; [congruence|lia].
Qed.

Definition names_table (a o : Z) : bool :=
  match ts !! o with Some (IS_OBJECT obj) => bool_decide ((get_gc obj).1 = Some a) | _ => false end.

Lemma table_of_names a : table_of h0 G a <-> Exists (fun o => names_table a o = true) G.
Proof.
  rewrite Exists_exists. unfold names_table. split.
  - intros (o & obj & Ho & Eo & Hg). exists o. split; [done|]. rewrite Eo. by apply bool_decide_eq_true.
  - intros (o & Ho & Hn). destruct (ts !! o) as [[|obj| |]|] eqn:Eo; try done. exists o, obj. split; [done|]. split; [done|]. by apply bool_decide_eq_true in Hn.
Qed.

#[local] Instance table_of_dec a : Decision (table_of h0 G a).
Proof. destruct (decide (Exists (fun o => names_table a o = true) G)); [left|right]; by rewrite table_of_names. Defined.

(** What is left has been destroyed. *)
Lemma nothing_whole h g l J N end_ : rel h g l J N ∅ [] -> tagged g J N end_ end_ -> J = ∅.
Proof.
  intros Hr [_ Htag]. pose proof (rl_disjoint _ _ _ _ _ _ _ _ _ _ Hr) as Hdis.
  assert (forall a, a ∈ J -> (exists val, ts !! a = Some (IS_REFERENCE val)) \/ table_of h0 G a) as Hkind.
  { intros a Ha. destruct (ts !! a) as [[t|obj|val|]|] eqn:Et; [| |left; by exists val| |].
    all: right; apply dec_stable; intros Hto.
    all: assert (a ∈ G) as HaG by (apply (rl_garbage _ _ _ _ _ _ _ _ _ _ Hr); by left).
    3: { by apply (gb_whole _ _ _ Hgb a HaG). }
    3: { apply (gb_dom _ _ _ Hgb) in HaG. rewrite <- types_dom in HaG. by apply not_elem_of_dom in Et. }
    all: pose proof (rl_entered _ _ _ _ _ _ _ _ _ _ Hr a Ha) as He; rewrite Et in He; specialize (He I Hto).
    all: assert (a ∈ dom h) as Had by (apply (rl_dom _ _ _ _ _ _ _ _ _ _ Hr); tauto).
    all: destruct (rl_entry _ _ _ Hgb Hr a HaG Had He) as (i & Hi & Ei); assert (aligned a) as Hal by (by apply (gb_aligned _ _ _ Hgb), (gb_dom _ _ _ Hgb)).
    all: destruct (aligned_garbage a Hal) as (_ & Hg & Hp & _); destruct (Htag i Hi) as (Hlt & b & Eb & Halb & HbN & _); [by rewrite Ei|].
    all: assert (a = b) as <- by (rewrite <- Hp, <- Ei, Eb; by apply aligned_garbage); destruct (Hdis a) as [Hd _]; destruct (Hd Ha) as [HnN _]; apply HnN; by apply HbN. }
  assert (forall a, a ∈ J -> 0 < refcount_of h a -> exists b, b ∈ J /\ succ w ts b a) as Hpred.
  { intros a Ha Hpos. assert (a ∈ dom h) as Had by (apply (rl_dom _ _ _ _ _ _ _ _ _ _ Hr); tauto).
    assert (a ∈ G) as HaG by (apply (rl_garbage _ _ _ _ _ _ _ _ _ _ Hr); by left).
    pose proof (rl_count _ _ _ _ _ _ _ _ _ _ Hr a Had ltac:(set_solver)) as Hc. rewrite (base_garbage _ _ _ Hgb a HaG), occ_nil in Hc.
    apply elem_of_refs, dec_stable. intros Hn. rewrite (occ_not_elem a _ Hn) in Hc. lia. }
  assert (forall a, a ∈ J -> ~ table_of h0 G a) as Hnt.
  { intros a Ha Hto. destruct (Hpred a Ha) as (b & Hb & Hs).
    { apply (rl_pos _ _ _ _ _ _ _ _ _ _ Hr a Ha). by rewrite (gb_table _ _ _ Hgb a Hto). }
    destruct (table_held_once _ _ _ Hgb a b Hto) as (obj & Eo & _); [apply (rl_garbage _ _ _ _ _ _ _ _ _ _ Hr); by left|done|].
    destruct (Hkind b Hb) as [[val Ev]|Htb]; [congruence|]. destruct (table_garbage _ _ _ Hgb b Htb) as [_ [tab Etab]]. congruence. }
  apply set_eq. intros a. split; [|set_solver]. intros Ha. exfalso. destruct (Hkind a Ha) as [[val Ev]|]; [|by apply (Hnt a)].
  assert (a ∈ G) as HaG by (apply (rl_garbage _ _ _ _ _ _ _ _ _ _ Hr); by left).
  destruct (Hpred a Ha) as (b & Hb & Hs); [by apply (rl_pos _ _ _ _ _ _ _ _ _ _ Hr), (gb_held _ _ _ Hgb a val)|].
  destruct (Hkind b Hb) as [[val' Ev']|Htb]; [|by apply (Hnt b)]. unfold succ, children in Hs. rewrite Ev' in Hs. cbn in Hs.
  destruct (Z_COLLECTABLE val') as [c|] eqn:Ec; [|by apply elem_of_nil in Hs]. apply list_elem_of_singleton in Hs as ->.
  apply (gb_ref _ _ _ Hgb b val' c val); [apply (rl_garbage _ _ _ _ _ _ _ _ _ _ Hr); by left|done|done|done].
Qed.

(** * Freeing *)

Lemma free_step h g l N idx a : rel h g l ∅ N ∅ [] -> is_used g idx -> entry g idx = GC_MAKE_GARBAGE a -> a ∈ N ->
  let g' := gc_remove_from_roots idx g in
  efree a (h, g') = Some (delete a h, g') /\ rel (delete a h) g' (idx :: l) ∅ (N ∖ {[a]}) ∅ [] /\ first_unused g' = first_unused g /\
  (forall i, is_used g' i -> i <> idx /\ is_used g i /\ entry g i = entry g' i).
Proof.
  intros Hr Hu Ent HaN g'. assert (a ∈ G) as HaG by (apply (rl_garbage _ _ _ _ _ _ _ _ _ _ Hr); tauto).
  assert (aligned a) as Hal by (by apply (gb_aligned _ _ _ Hgb), (gb_dom _ _ _ Hgb)). destruct (aligned_garbage a Hal) as (_ & _ & Hptr & _).
  assert (a ∈ dom h) as [r Er]%elem_of_dom by (apply (rl_dom _ _ _ _ _ _ _ _ _ _ Hr); tauto).
  destruct (unlink_ok h g l idx (rl_buf _ _ _ _ _ _ _ _ _ _ Hr) Hu) as (Hok & Hs & Hi & Hq & Hf & He & _). fold g' in Hok, Hq, Hf, He.
  rewrite Ent, Hptr in *. set (h1 := GC_REF_SET_INFO a 0 h) in *.
  assert (delete a h1 = delete a h) as Hdel.
  { apply map_eq. intros b. destruct (decide (b = a)) as [->|Hne]; [by rewrite !lookup_delete_eq|]. rewrite !lookup_delete_ne by done.
    unfold h1, GC_REF_SET_INFO. by rewrite lookup_alter_ne. }
  assert (forall i, is_used g' i -> i <> idx /\ is_used g i /\ entry g i = entry g' i) as Hused.
  { intros i [Hiu Hun]. rewrite Hf in Hiu. assert (i <> idx) as Hne.
    { intros ->. destruct (proj1 (bo_unused _ _ _ Hok idx)) as [_ Hun']; [by left|congruence]. }
    rewrite He in Hun |- * by done. done. }
  assert (rel h g l ∅ (N ∖ {[a]}) ({[a]} ∪ ∅) []) as Hr1.
  { assert (forall b, b ∈ N ∖ {[a]} <-> b ∈ N /\ b <> a) as HN by (intros b; set_solver). assert (forall b, b ∈ {[a]} ∪ (∅ : gset Z) <-> b = a) as HF by (intros b; set_solver).
    apply (releasing_update w h0 G h g l ∅ N ∅ []); try done; try apply Hr.
    - intros b. rewrite HN, HF. destruct (decide (b = a)) as [->|]; [tauto|set_solver].
    - intros b. rewrite HN, HF. split; [set_solver|tauto].
    - intros b [? _]%HN. by left.
    - intros b [? _]%HN. by apply (rl_null _ _ _ _ _ _ _ _ _ _ Hr).
    - intros b Hb HbF. rewrite (rl_count _ _ _ _ _ _ _ _ _ _ Hr b Hb) by set_solver. done.
    - intros b [Hb|Hb]; [by apply elem_of_nil in Hb|]. apply elem_of_refs in Hb as (x & Hx & _). set_solver. }
  assert (rel h1 g' (idx :: l) ∅ (N ∖ {[a]}) ({[a]} ∪ ∅) []) as Hr2.
  { apply (releasing_unrooted h g l h1 g' (idx :: l) ∅ _ _ [] a Hr1); [set_solver|done|done|apply (rl_active _ _ _ _ _ _ _ _ _ _ Hr)|done|done|].
    intros i Hiu. by destruct (Hused i Hiu) as (_ & ? & ?). }
  destruct (efree_ok h1 g' (idx :: l) ∅ _ ∅ [] a Hr2) as [_ Hr3]; [set_solver|by rewrite Hi, decide_True|]. rewrite Hdel in Hr3.
  split; [unfold efree; cbn [fst snd]; by rewrite Er|]. by split.
Qed.

Lemma free_loop_ok end_ n : forall cur h g l N, rel h g l ∅ N ∅ [] -> 1 <= cur -> cur + Z.of_nat n = end_ -> end_ <= first_unused g ->
  (forall i, is_used g i -> GC_IS_GARBAGE (entry g i) = true -> cur <= i < end_) ->
  exists h' g' l', free_loop n cur (h, g) = Some (h', g') /\ rel h' g' l' ∅ ∅ ∅ [].
Proof.
  induction n as [|n IH]; intros cur h g l N Hr Hcur Hend Hfu Htag; cbn [free_loop fst snd].
  { exists h, g, l. split; [done|]. assert (N = ∅) as ->; [|done]. apply set_eq. intros a. split; [|set_solver]. intros Ha. exfalso.
    assert (a ∈ G) as HaG by (apply (rl_garbage _ _ _ _ _ _ _ _ _ _ Hr); tauto). assert (a ∈ dom h) as Had by (apply (rl_dom _ _ _ _ _ _ _ _ _ _ Hr); tauto).
    destruct (rl_entry _ _ _ Hgb Hr a HaG Had (rl_waiting _ _ _ _ _ _ _ _ _ _ Hr a Ha)) as (i & Hi & Ei).
    assert (cur <= i < end_); [|lia]. apply Htag; [done|]. rewrite Ei. by apply aligned_garbage, (gb_aligned _ _ _ Hgb), (gb_dom _ _ _ Hgb). }
  destruct (GC_IS_GARBAGE (entry g cur)) eqn:Hg.
  - assert (is_used g cur) as Hu by (apply garbage_used; [lia|done]). destruct (garbage_of _ _ _ _ _ _ _ cur Hr Hu Hg) as (a & Ea & Hp & _ & Ha).
    assert (a ∈ N) as HaN by set_solver. destruct (free_step h g l N cur a Hr Hu Ea HaN) as (E1 & Hr1 & Hf1 & Hu1). rewrite Hp, E1, some_bind.
    apply (IH (cur + 1) _ _ _ _ Hr1); [lia|lia|lia|]. intros i Hi Hgi. destruct (Hu1 i Hi) as (Hne & Hig & Ei). rewrite <- Ei in Hgi.
    specialize (Htag i Hig Hgi). lia.
  - rewrite some_bind. apply (IH (cur + 1) h g l N Hr); [lia|lia|lia|]. intros i Hi Hgi. specialize (Htag i Hi Hgi).
    destruct (decide (i = cur)) as [->|]; [congruence|lia].
Qed.

(** * From the state after the analysis to the end *)

(** The garbage is gone, and the other nodes have lost the references from it. *)
Record released h g (l : list Z) : Prop := {
  rd_dom a : a ∈ dom h <-> a ∈ dom h0 /\ a ∉ G;
  rd_types a : a ∈ dom h -> types_of h !! a = ts !! a;
  rd_count a : a ∈ dom h -> refcount_of h a = refcount_of h0 a - occ a (edges w ts G);
  rd_heap : heap_ok h;
  rd_buf : buf_ok h g l;
  rd_active : gc_active g = true;
  rd_color a : GC_REF_COLOR h a = GC_BLACK \/ GC_REF_COLOR h a = GC_PURPLE /\ buffered g a;
  rd_entries i : is_used g i -> entry g i ∉ G /\ aligned (entry g i) /\ GC_REF_COLOR h (entry g i) = GC_PURPLE /\ rootable ts (entry g i)
}.

Lemma destroy_and_free_ok h g l J count : rel h g l J ∅ ∅ [] -> size h0 = size h ->
  exists h' g' l', destroy_and_free junk_word gc_collect_cycles dtor_obj (first_unused g) count (h, g) = Some (h', set_gc_active false g') /\
    released h' g' l'.
Proof.
  intros Hr Hsz. unfold destroy_and_free. cbn [fst]. set (end_ := first_unused g). pose proof (bo_first _ _ _ (rl_buf _ _ _ _ _ _ _ _ _ _ Hr)) as Hf. fold end_ in Hf.
  destruct (destroy_loop_ok (S (size h)) end_ (Z.to_nat (end_ - GC_FIRST_ROOT)) ltac:(lia) GC_FIRST_ROOT h g l J ∅ Hr)
    as (h1 & g1 & l1 & J1 & N1 & -> & Hr1 & Htag); [unfold GC_FIRST_ROOT; lia|unfold GC_FIRST_ROOT; lia| |].
  { split; [done|]. intros i Hi Hg. split; [apply Hi|]. destruct (garbage_of _ _ _ _ _ _ _ i Hr Hi Hg) as (a & Ea & _ & Hal & Ha).
    exists a. split; [done|]. split; [done|]. split; [intros Hlt; destruct Hi as [Hi _]; unfold GC_FIRST_ROOT in Hlt; lia|set_solver]. }
  rewrite some_bind. rewrite (nothing_whole h1 g1 l1 J1 N1 end_ Hr1 Htag) in Hr1. destruct Htag as [Hfu Htag].
  destruct (free_loop_ok end_ (Z.to_nat (end_ - GC_FIRST_ROOT)) GC_FIRST_ROOT h1 g1 l1 N1 Hr1) as (h2 & g2 & l2 & -> & Hr2);
    [unfold GC_FIRST_ROOT; lia|unfold GC_FIRST_ROOT; lia|done| |].
  { intros i Hi Hg. destruct (Htag i Hi Hg) as (Hlt & _). destruct Hi. unfold GC_FIRST_ROOT. lia. }
  rewrite some_bind. cbn [fst snd]. exists h2, (set_collected (u32 (collected g2 + count)) g2), l2. split; [done|].
  assert (forall a, a ∈ dom h2 <-> a ∈ dom h0 /\ a ∉ G) as Hd by (intros a; rewrite (rl_dom _ _ _ _ _ _ _ _ _ _ Hr2 a); set_solver).
  split; [done| | |apply Hr2| |apply Hr2| |].
  - intros a Ha%Hd. apply (rl_types _ _ _ _ _ _ _ _ _ _ Hr2). by left.
  - intros a Ha. rewrite (rl_count _ _ _ _ _ _ _ _ _ _ Hr2 a Ha) by set_solver. unfold refs, base. rewrite elements_empty, edges_nil, occ_nil. lia.
  - by apply (buf_ok_same h2 g2), Hr2.
  - intros a. destruct (rl_color _ _ _ _ _ _ _ _ _ _ Hr2 a) as [|(? & _ & ?)]; [by left|by right].
  - intros i Hi. destruct (rl_entries _ _ _ _ _ _ _ _ _ _ Hr2 i Hi) as [(a & Ha & _)|?]; [set_solver|done].
Qed.
End Destroy.
