(* ===== verification/GcCollectCycles.v ===== *)
(** A whole collection ([zend_gc_collect_cycles] in Zend/zend_gc.c) where no
    destructor has to run: from the invariant of the collector, through the
    analysis, the destruction and the release of the garbage, back to the
    invariant on a heap without it. *)

From stdpp Require Import base numbers list gmap sets relations.
From S2P Require Import Prelude ZendTypes HashTable HashOps GcBuffer GcRoots GcCompact GcGraph GcVisit GcMark GcScan GcCollect GcCycles GcFree GcRelease GcDestroy.

(** * The collector stays active *)

Section Active.
Context {V : Type} {E : ZEnv V} {C : Collectable V} (w : EG V) (junk_word : nat -> Z).
Implicit Types (h : gmap Z (zend_refcounted V)) (s : gc_state (V := V)).

Lemma move_root_active free scan s : gc_active (move_root free scan s).2 = gc_active s.2.
Proof. by destruct s. Qed.

Lemma compact_loop_active n : forall free scan end_ s s', compact_loop n free scan end_ s = Some s' -> gc_active s'.2 = gc_active s.2.
Proof.
  induction n as [|n IH]; intros free scan end_ s s' Hs; cbn [compact_loop] in Hs; [done|]. destruct (free <? scan); [|by injection Hs as <-].
  destruct (free_up _ _ _) as [free'|]; [|done]. rewrite some_bind in Hs. destruct (scan_down _ _ _) as [scan'|]; [|done]. rewrite some_bind in Hs.
  destruct (free' <? scan'); [|by apply IH in Hs]. rewrite <- (move_root_active free' scan' s).
  destruct (scan' - 1 <=? end_); [by injection Hs as <-|by apply IH in Hs].
Qed.

Lemma gc_compact_active s s' : gc_compact s = Some s' -> gc_active s'.2 = gc_active s.2.
Proof.
  unfold gc_compact. destruct (negb (num_roots s.2 + GC_FIRST_ROOT =? first_unused s.2)); [|by intros [= <-]].
  destruct (negb (num_roots s.2 =? 0)).
  - destruct (compact_loop _ _ _ _ s) as [[h g]|] eqn:Ec; [|done]. intros [= <-]. by apply compact_loop_active in Ec.
  - destruct s as [h g]. by intros [= <-].
Qed.

Lemma mark_roots_buffer n : forall current s s', mark_roots_loop w n current s = Some s' -> s'.2 = s.2.
Proof.
  induction n as [|n IH]; intros current [h g] s' Hs; cbn [mark_roots_loop] in Hs; [by injection Hs as <-|].
  destruct (if _ && _ then _ else _) as [h'|]; [|done]. by apply IH in Hs.
Qed.

Lemma scan_roots_buffer n : forall idx s s', scan_roots_loop w n idx s = Some s' -> s'.2 = s.2.
Proof.
  induction n as [|n IH]; intros current [h g] s' Hs; cbn [scan_roots_loop] in Hs; [by injection Hs as <-|].
  destruct (if _ && _ then _ else _) as [h'|]; [|done]. by apply IH in Hs.
Qed.

Lemma remove_black_active n : forall current s, gc_active (remove_black_loop n current s).2 = gc_active s.2.
Proof. induction n as [|n IH]; intros current [h g]; cbn [remove_black_loop]; [done|]. rewrite IH. by destruct (_ && _). Qed.

Lemma gc_add_garbage_active ref s : gc_active s.2 = true -> gc_active (gc_add_garbage junk_word ref s).2 = true.
Proof.
  intros Ha. unfold gc_add_garbage. pose proof (fetch_entry_active junk_word s.2 Ha) as Hf. by destruct (fetch_entry junk_word s.2) as [[idx|] g].
Qed.

Lemma enter_garbage_active ref s flags : gc_active s.2 = true -> gc_active (enter_garbage junk_word ref s flags).1.2 = true.
Proof.
  intros Ha. unfold enter_garbage. pose proof (gc_add_garbage_active ref s Ha). destruct (GC_TYPE <$> s.1 !! ref) as [[t|obj|val|]|]; cbn [fst]; try done.
  - by destruct (info_of s.1 ref =? 0).
  - destruct (IS_OBJ_FREE_CALLED obj); cbn [fst]; [done|]. by destruct (info_of s.1 ref =? 0).
Qed.

Lemma collect_white_active n : forall ref stack s flags count r, gc_collect_white w junk_word n ref stack s flags count = Some r -> gc_active s.2 = true -> gc_active r.1.1.2 = true.
Proof.
  induction n as [|n IH]; intros ref stack s flags count r Hr Ha; cbn [gc_collect_white] in Hr; [done|].
  pose proof (enter_garbage_active ref s flags Ha) as He. destruct (enter_garbage junk_word ref s flags) as [s1 flags1]. cbn [fst] in He.
  destruct (visit_children _ _ _ _ _) as [h [pushed found]]. destruct (next_refs pushed found stack) as [|r1 rs]; [by injection Hr as <-|]. by apply IH in Hr.
Qed.

Lemma collect_roots_active n : forall idx s flags count r, collect_roots_loop w junk_word n idx s flags count = Some r -> gc_active s.2 = true -> gc_active r.1.1.2 = true.
Proof.
  induction n as [|n IH]; intros idx [h g] flags count r Hr Ha; cbn [collect_roots_loop] in Hr; [by injection Hr as <-|].
  destruct (GC_REF_CHECK_COLOR h (entry g idx) GC_WHITE).
  - destruct (gc_collect_white _ _ _ _ _ _ _ _) as [[[s1 flags1] count1]|] eqn:Ew; [|done]. rewrite some_bind in Hr.
    apply collect_white_active in Ew; [|done]. by apply IH in Hr.
  - rewrite some_bind in Hr. by apply IH in Hr.
Qed.

Lemma gc_analyse_active s s' flags count : gc_analyse w junk_word s = Some (s', flags, count) -> gc_active s.2 = true -> gc_active s'.2 = true.
Proof.
  unfold gc_analyse, gc_mark_roots, gc_scan_roots, gc_collect_roots. intros Hs Ha.
  destruct (gc_compact s) as [s1|] eqn:E1; [|done]. rewrite some_bind in Hs. apply gc_compact_active in E1.
  destruct (mark_roots_loop _ _ _ s1) as [s2|] eqn:E2; [|done]. rewrite some_bind in Hs. apply mark_roots_buffer in E2.
  destruct (scan_roots_loop _ _ _ s2) as [s3|] eqn:E3; [|done]. rewrite some_bind in Hs. apply scan_roots_buffer in E3.
  destruct (gc_compact (remove_black_loop _ _ s3)) as [s4|] eqn:E4; [|done]. rewrite some_bind in Hs. apply gc_compact_active in E4. rewrite remove_black_active in E4.
  apply collect_roots_active in Hs; [done|]. congruence.
Qed.
End Active.

Section Trash.
Context {V : Type} {E : ZEnv V} {C : Collectable V} (w : EG V).
Implicit Types (h : gmap Z (zend_refcounted V)).

Lemma edges_ext ts ts' (l : list Z) : (forall a, a ∈ l -> children w ts a = children w ts' a) -> edges w ts l = edges w ts' l.
Proof.
  induction l as [|a l IH]; intros Hc; [done|]. rewrite !edges_cons, IH, Hc; [done|by left|]. intros b Hb. apply Hc. by right.
Qed.

(** All references to [b] out of [T] come from [S]. *)
Lemma occ_preds ts b (S T : list Z) : NoDup S -> NoDup T -> (forall a, a ∈ S -> a ∈ T) -> (forall a, a ∈ T -> succ w ts a b -> a ∈ S) ->
  occ b (edges w ts T) = occ b (edges w ts S).
Proof.
  intros HnS HnT Hsub Hpred. destruct (submseteq_Permutation S T) as (k & Hk); [by apply NoDup_submseteq|].
  rewrite (occ_perm b _ _ (edges_perm w ts _ _ Hk)), edges_app, occ_app, (occ_not_elem b (edges w ts k)); [lia|].
  intros (a & Ha & Hab)%elem_of_edges. rewrite Hk, NoDup_app in HnT. destruct HnT as (_ & Hdis & _).
  apply (Hdis a); [|done]. apply Hpred; [|done]. rewrite Hk. apply elem_of_app. by right.
Qed.

(** * Garbage, in terms of the whole graph *)

Definition reached h g (a : Z) : Prop := exists r, buffered g r /\ rtc (succ w (types_of h)) r a.

(** Roots reach the node, and whatever refers to it, directly or not, is reached
    as well and not held from outside. *)
Definition trash h g (a : Z) : Prop :=
  reached h g a /\ forall e, e ∈ dom h -> rtc (succ w (types_of h)) e a -> reached h g e /\ ~ held_outside w h e.

(** Nodes that nothing held from outside reaches. *)
Definition unreached h (a : Z) : Prop := a ∈ dom h /\ forall e, held_outside w h e -> ~ rtc (succ w (types_of h)) e a.

(** What the rest of the program keeps true of nodes that nothing reaches from
    outside: objects whose destructor has run, or that have none, and that are
    not freed; tables without indirect values; references to something else
    than a reference; properties tables held by their object only; counts that
    leave room for one more. *)
Record freeable h : Prop := {
  fr_object a obj : unreached h a -> types_of h !! a = Some (IS_OBJECT obj) ->
    IS_OBJ_FREE_CALLED obj = false /\ (IS_OBJ_DESTRUCTOR_CALLED obj = true \/ has_destructor obj = false);
  fr_table o obj t : unreached h o -> types_of h !! o = Some (IS_OBJECT obj) -> (get_gc obj).1 = Some t -> refcount_of h t = 1;
  fr_direct a t : unreached h a -> types_of h !! a = Some (IS_ARRAY t) -> direct t;
  fr_reference a val b val' : unreached h a -> types_of h !! a = Some (IS_REFERENCE val) -> Z_COLLECTABLE val = Some b ->
    types_of h !! b <> Some (IS_REFERENCE val');
  fr_held a val : unreached h a -> types_of h !! a = Some (IS_REFERENCE val) -> 0 < refcount_of h a;
  fr_whole a : unreached h a -> types_of h !! a <> Some GC_NULL;
  fr_room a : unreached h a -> refcount_of h a < 2 ^ 32 - 1
}.

Section Graph.
Context (h : gmap Z (zend_refcounted V)) (g : zend_gc_globals) (l : list Z) (Hco : collector_ok w h g l).
Local Notation ts := (types_of h).

Lemma root_dom r : buffered g r -> r ∈ dom h.
Proof.
  intros (i & Hi & <-). destruct (co_roots _ _ _ _ Hco i Hi) as [Hr _]. apply Z.eqb_eq in Hr. destruct (aligned_root _ Hr) as (_ & Hptr & _).
  destruct (bo_node _ _ _ (co_buf _ _ _ _ Hco) i Hi) as (x & Hx & _). rewrite Hptr in Hx. by apply elem_of_dom_2 in Hx.
Qed.

Lemma succ_dom a b : succ w ts a b -> a ∈ dom h /\ b ∈ dom h.
Proof.
  intros Hs. split; [|rewrite <- types_dom; by apply (go_closed _ _ (co_graph _ _ _ _ Hco) a)]. rewrite <- types_dom. apply elem_of_dom.
  unfold succ, children in Hs. destruct (ts !! a); [by eexists|by apply elem_of_nil in Hs].
Qed.

Lemma rtc_dom a b : rtc (succ w ts) a b -> a ∈ dom h -> b ∈ dom h.
Proof. intros Hp. induction Hp as [|x y z Hxy _ IH]; [done|]. intros _. apply IH. by apply (succ_dom x y). Qed.

Lemma reached_dom a : reached h g a -> a ∈ dom h.
Proof. intros (r & Hr & Hp). by apply (rtc_dom r a Hp), root_dom. Qed.

Lemma reached_closed a b : reached h g a -> rtc (succ w ts) a b -> reached h g b.
Proof. intros (r & Hr & Hp) Hq. exists r. split; [done|]. by etrans. Qed.

(** ** What the analysis takes for garbage *)

Context (S : list Z) (HS : candidates w h g S).

Lemma candidates_reached a : a ∈ S <-> reached h g a.
Proof. apply HS. Qed.

(** Of two neighbours of which only the second is a candidate, the second has a reference from elsewhere. *)
Lemma outer_edge x y : x ∉ S -> succ w ts x y -> occ y (edges w ts S) < refcount_of h y.
Proof.
  intros Hx Hs. apply (occ_two_parts w h g l x y S); [done|apply HS| |by apply (succ_dom x y)|done|done].
  intros a Ha. by apply reached_dom, candidates_reached.
Qed.

Lemma dead_trash a : dead w h S a <-> trash h g a.
Proof.
  split.
  - intros [HaS Hn]. split; [by apply candidates_reached|]. intros e He Hp.
    assert (forall x, rtc (succ w ts) x a -> x ∈ S /\ ~ held_outside w h x) as Hwalk; [|by destruct (Hwalk e Hp); split; [apply candidates_reached|]].
    assert (forall x, x ∈ S -> rtc (succ w ts) x a -> ~ held_outside w h x) as Hout.
    { intros x HxS Hx [_ Ho]. apply Hn. exists x. split; [done|]. split; [|done]. eapply Z.le_lt_trans; [|exact Ho].
      apply occ_edges_sub; [apply HS|]. intros b Hb. by apply elem_of_elements, reached_dom, candidates_reached. }
    intros x Hx. cut (x ∈ S); [intros HxS; split; [done|by apply Hout]|]. clear Hout He Hp e. induction Hx as [|x y z Hxy Hyz IH]; [done|].
    specialize (IH HaS Hn). destruct (decide (x ∈ S)) as [|HxS]; [done|exfalso]. apply Hn. exists y. split; [done|]. split; [by apply (outer_edge x)|done].
  - intros [Hr Hall]. split; [by apply candidates_reached|]. intros (e & HeS & Hlt & Hp).
    assert (e ∈ dom h) as Hed by (by apply reached_dom, candidates_reached). destruct (Hall e Hed Hp) as [_ Hno]. apply Hno. split; [done|].
    eapply Z.le_lt_trans; [|exact Hlt]. rewrite (occ_preds ts e S); [lia|apply HS|apply NoDup_elements| |].
    + intros a' Ha'. by apply elem_of_elements, reached_dom, candidates_reached.
    + intros x Hx Hxe. apply candidates_reached. apply (Hall x); [by apply elem_of_elements|]. by eapply rtc_l.
Qed.

(** ** The garbage can be destroyed *)

Lemma trash_unreached a : trash h g a -> unreached h a.
Proof.
  intros [Hr Hall]. split; [by apply reached_dom|]. intros e He Hp. by apply (Hall e); [apply He| |].
Qed.

Lemma trash_pred a b : succ w ts a b -> trash h g b -> trash h g a.
Proof.
  intros Hab [_ Hall]. destruct (succ_dom a b Hab) as [Had _]. split; [by apply (Hall a); [|apply rtc_once]|].
  intros e He Hp. apply Hall; [done|]. by eapply rtc_r.
Qed.

(** The references to garbage come from garbage, and other nodes that garbage
    refers to have a reference from elsewhere. *)
Lemma trash_counts W : NoDup W -> (forall a, a ∈ W <-> trash h g a) ->
  (forall a, a ∈ W -> refcount_of h a = occ a (edges w ts W)) /\
  (forall a b, a ∈ W -> succ w ts a b -> b ∉ W -> occ b (edges w ts W) < refcount_of h b).
Proof.
  intros HnW HW. assert (forall a, a ∈ W -> a ∈ S) as HWS by (intros a [Hr _]%HW; by apply candidates_reached).
  assert (forall a, a ∈ S -> a ∈ dom h) as HSd by (intros a Ha; by apply reached_dom, candidates_reached).
  split.
  - intros a Ha. pose proof Ha as Htr. apply HW, dead_trash in Htr as [HaS Hn].
    assert (occ a (edges w ts S) = occ a (edges w ts W)) as Eo.
    { apply occ_preds; [done|apply HS|done|]. intros b _ Hba. apply HW. apply (trash_pred b a Hba). by apply HW. }
    destruct (occ_edges_all w h g l a S Hco (proj1 HS) HSd) as [_ Hle]. rewrite Eo in Hle.
    destruct (decide (occ a (edges w ts S) < refcount_of h a)) as [Hlt|]; [|lia]. exfalso. apply Hn. by exists a.
  - intros a b Ha Hab Hb. pose proof (HWS a Ha) as HaS.
    assert (b ∈ S) as HbS by (apply candidates_reached, (reached_closed a); [by apply candidates_reached|by apply rtc_once]).
    pose proof (occ_edges_sub w ts b W S HnW HWS) as Hle.
    destruct (decide (occ b (edges w ts S) < refcount_of h b)) as [|Hnlt]; [lia|].
    (* some candidate that is no garbage refers to [b] *)
    destruct (decide (Exists (fun c => c ∉ W /\ b ∈ children w ts c) S)) as [(c & HcS & HcW & Hcb)%Exists_exists|Hno].
    + apply (occ_two_parts w h g l c b W); [done|done| |by apply HSd|done|exact Hcb]. intros x Hx. by apply HSd, HWS.
    + exfalso. apply Hb, HW, dead_trash. split; [done|]. intros (e & HeS & Hlt & Hp).
      apply rtc_inv_r in Hp as [->|(c & Hec & Hcb)]; [done|]. apply Hno, Exists_exists. exists c.
      assert (c ∈ S) as HcS by (apply candidates_reached, (reached_closed e); [by apply candidates_reached|done]). split; [done|]. split; [|done].
      intros Hc%HW%dead_trash. apply Hc. by exists e.
Qed.

Context (Hfr : freeable h) (Habove : heap_above h).

Lemma trash_garbage_ok W : NoDup W -> (forall a, a ∈ W <-> trash h g a) -> garbage_ok w h W.
Proof.
  intros HnW HW. destruct (trash_counts W HnW HW) as [Hcount Hlive]. assert (forall a, a ∈ W -> unreached h a) as Hun by (intros a Ha%HW; by apply trash_unreached).
  split; try done.
  - apply Hco.
  - intros a Ha. by apply Hun.
  - intros b. apply (occ_edges_all w h g l b W Hco HnW). intros a Ha. by apply Hun.
  - intros a b Hab Hb%HW. apply HW. by apply (trash_pred a b).
  - intros a t Ha. by apply (fr_direct _ Hfr a t), Hun.
  - intros a val b t Ha. by apply (fr_reference _ Hfr a val b t), Hun.
  - intros t (o & obj & Ho & Hobj & Hg). by apply (fr_table _ Hfr o obj), Hg; [apply Hun|].
  - intros a obj Ha. by apply (fr_object _ Hfr a obj), Hun.
  - intros a Ha. by apply (fr_whole _ Hfr a), Hun.
  - intros a val Ha. by apply (fr_held _ Hfr a val), Hun.
  - intros a Ha. by apply (fr_room _ Hfr a), Hun.
  - apply Hco.
  - apply Hco.
Qed.

(** The state after the analysis, seen as the start of the destruction. *)
Lemma analysed_releasing W h' g' : NoDup W -> (forall a, a ∈ W <-> trash h g a) -> same_bodies h h' -> (forall a, GC_REF_COLOR h' a = GC_BLACK) ->
  buf_ok h' g' [] -> heap_ok h' -> gc_active g' = true ->
  (forall q, buffered g' q -> exists a, q = GC_MAKE_GARBAGE a /\ dead w h S a /\ rootable ts a) ->
  (forall a, dead w h S a -> container ts (dead w h S) a -> buffered g' (GC_MAKE_GARBAGE a)) ->
  releasing w h W h' g' [] (list_to_set W) ∅ ∅ [].
Proof.
  intros HnW HW Hs Hc Hok Ho Hact Hq Hhave. pose proof (trash_garbage_ok W HnW HW) as Hgb.
  assert (forall a, a ∈ (list_to_set W : gset Z) <-> a ∈ W) as HJ by (intros a; apply elem_of_list_to_set).
  assert (elements (list_to_set W : gset Z) ≡ₚ W) as HP by (by apply elements_list_to_set).
  assert (forall b, occ b (refs w h (list_to_set W)) = occ b (edges w ts W)) as Href by (intros b; by apply occ_perm, edges_perm).
  assert (forall a, a ∈ W <-> dead w h S a) as Hdead by (intros a; by rewrite HW, dead_trash).
  split; try done.
  - intros a. rewrite (same_bodies_dom _ _ Hs), HJ. split; [intros Ha; destruct (decide (a ∈ W)); tauto|].
    intros [[? _]|[Ha|[Ha|Ha]]]; [done|by apply (gb_dom _ _ _ Hgb)|set_solver|set_solver].
  - intros a [Ha|[Ha|Ha]]; [by apply HJ|set_solver|set_solver].
  - intros a _. by rewrite (same_bodies_types _ _ Hs).
  - intros a _ _. rewrite (same_bodies_refcount _ _ a Hs), Href, occ_nil. unfold base. lia.
  - intros a _. by rewrite (same_bodies_refcount _ _ a Hs).
  - intros a _. by rewrite (same_bodies_refcount _ _ a Hs).
  - intros a [Ha|Ha]; [by apply elem_of_nil in Ha|]. apply elem_of_refs in Ha as (x & Hx & Hxa). rewrite (same_bodies_dom _ _ Hs).
    split; [by apply (succ_dom x a)|]. split; [set_solver|]. apply (children_garbage _ _ _ Hgb x a); [by apply HJ|done].
  - intros a. by left.
  - intros i Hi. left. destruct (Hq (entry g' i)) as (a & Ea & Ha & _); [by exists i|]. exists a. split; [left; by apply HJ, Hdead|done].
  - intros a Ha Hty Hto. apply HJ in Ha. destruct (Hhave a) as (i & Hi & Ei); [by apply Hdead| |].
    + unfold container. destruct (ts !! a) as [[t|obj|val|]|] eqn:Ea; [|by apply (gb_obj _ _ _ Hgb a obj)|done|by apply (gb_whole _ _ _ Hgb a)|].
      * intros o obj Ho' Hobj Hg. apply Hto. exists o, obj. split; [by apply Hdead|done].
      * apply (gb_dom _ _ _ Hgb) in Ha. rewrite <- types_dom in Ha. by apply not_elem_of_dom in Ea.
    + apply (entry_info h' g' [] i a Hok Hi). rewrite Ei. by apply aligned_garbage, (gb_aligned _ _ _ Hgb), (gb_dom _ _ _ Hgb).
  - intros a val Ha Hval. apply HJ in Ha. apply info_zero; [by apply heap_ok_info| |apply Hc].
    apply dec_stable. intros Hz. destruct (h' !! a) as [r|] eqn:Er; [|unfold info_of in Hz; by rewrite Er in Hz].
    destruct (bo_address _ _ _ Hok a r Er) as (i & Hi & Hp); [unfold info_of in Hz; by rewrite Er in Hz|].
    destruct (Hq (entry g' i)) as (b & Eb & Hb & Hrb); [by exists i|]. rewrite Eb in Hp.
    assert (aligned b) as Hal by (by apply (gb_aligned _ _ _ Hgb), (gb_dom _ _ _ Hgb), Hdead).
    destruct (aligned_garbage b Hal) as (_ & _ & Hpb & _). rewrite Hpb in Hp. subst b. unfold rootable in Hrb. by rewrite Hval in Hrb.
Qed.

(** Garbage has a root that is garbage. *)
Lemma trash_root a : trash h g a -> exists r, trash h g r /\ rootable ts r.
Proof.
  intros [(r & (i & Hi & Ei) & Hp) Hall]. exists r. split; [|rewrite <- Ei; by apply (co_rootable _ _ _ _ Hco)].
  assert (buffered g r) as Hb by (by exists i). split; [exists r; by split|]. intros e He Hq. apply Hall; [done|]. by etrans.
Qed.

(** Whether there is garbage can be read off the buffer after the analysis. *)
Lemma no_roots_no_trash W h' g' : (forall a, a ∈ W <-> trash h g a) -> buf_ok h' g' [] -> num_roots g' = 0 ->
  (forall a, dead w h S a -> container ts (dead w h S) a -> buffered g' (GC_MAKE_GARBAGE a)) -> W = [].
Proof.
  intros HW Hok Hn Hhave. assert (forall q, ~ buffered g' q) as Hnone.
  { intros q (i & [Hi _] & _). pose proof (bo_count _ _ _ Hok) as Hc. change (llen []) with 0 in Hc. lia. }
  destruct W as [|a W]; [done|exfalso]. destruct (trash_root a) as (r & Hr & Hrr); [apply HW; by left|].
  assert (forall o obj, dead w h S o -> ts !! o <> Some (IS_OBJECT obj)) as Hno.
  { intros o obj Ho Hobj. apply (Hnone (GC_MAKE_GARBAGE o)), Hhave; [done|]. unfold container. rewrite Hobj.
    apply (fr_object _ Hfr o obj); [|done]. by apply trash_unreached, dead_trash. }
  apply dead_trash in Hr. apply (Hnone (GC_MAKE_GARBAGE r)), Hhave; [done|]. unfold rootable, container in *.
  destruct (ts !! r) as [[t|obj|val|]|] eqn:Er; try done.
  - intros o obj Ho Hobj. by destruct (Hno o obj).
  - by destruct (Hno r obj).
Qed.

(** ** The invariant afterwards *)

Section After.
Context (W : list Z) (HnW : NoDup W) (HW : forall a, a ∈ W <-> trash h g a).

Lemma released_collector_ok h' g' l' : released w h W h' g' l' -> collector_ok w h' g' l'.
Proof.
  intros Hrd. pose proof (trash_garbage_ok W HnW HW) as Hgb.
  assert (forall a, a ∈ dom h' <-> a ∈ dom h /\ a ∉ W) as Hd by apply Hrd.
  assert (forall a, a ∈ dom h' -> types_of h' !! a = ts !! a) as Ht by apply Hrd.
  assert (forall a, a ∈ dom h' -> children w (types_of h') a = children w ts a) as Hch by (intros a Ha; unfold children; by rewrite Ht).
  assert (forall a b, succ w (types_of h') a b -> a ∈ dom h' /\ succ w ts a b) as Hsucc.
  { intros a b Hs. assert (a ∈ dom h') as Ha; [|split; [done|]; unfold succ in *; by rewrite <- Hch].
    rewrite <- types_dom. apply elem_of_dom. unfold succ, children in Hs. destruct (types_of h' !! a); [by eexists|by apply elem_of_nil in Hs]. }
  assert (forall a b, a ∈ dom h' -> succ w ts a b -> b ∈ dom h') as Hcl.
  { intros a b Ha Hs. apply Hd. split; [by apply (succ_dom a b)|]. intros Hb. apply Hd in Ha as [_ Ha]. by apply Ha, (gb_pred _ _ _ Hgb a b). }
  split.
  - apply Hrd.
  - split.
    + intros a b [Ha Hs]%Hsucc. rewrite types_dom. by apply (Hcl a).
    + intros a obj ht Hobj Hf Hg. assert (a ∈ dom h') as Ha by (rewrite <- types_dom; apply elem_of_dom; by eexists).
      rewrite Ht in Hobj by done. destruct (go_table _ _ (co_graph _ _ _ _ Hco) a obj ht Hobj Hf Hg) as [t Htab]. exists t. rewrite Ht; [done|].
      apply (Hcl a); [done|]. unfold succ, children. rewrite Hobj, Hf, Hg. by left.
  - apply Hrd.
  - intros a [Ha _]%Hd. by apply (co_aligned _ _ _ _ Hco).
  - intros i Hi. destruct (rd_entries _ _ _ _ _ _ Hrd i Hi) as (_ & Hal & Hp & _). split; [by apply aligned_root|done].
  - intros i Hi. destruct (rd_entries _ _ _ _ _ _ Hrd i Hi) as (Hn & Hal & Hp & Hr). unfold rootable. rewrite Ht; [done|].
    apply dec_stable. intros Hnd. unfold GC_REF_COLOR, info_of in Hp. apply not_elem_of_dom in Hnd. by rewrite Hnd in Hp.
  - apply Hrd.
  - intros a. assert (edges w (types_of h') (elements (dom h')) = edges w ts (elements (dom h'))) as ->.
    { apply edges_ext. intros x Hx%elem_of_elements. by apply Hch. }
    destruct (decide (a ∈ dom h')) as [Ha|Ha].
    + rewrite (rd_count _ _ _ _ _ _ Hrd a Ha). cut (occ a (edges w ts (elements (dom h') ++ W)) <= refcount_of h a); [rewrite edges_app, occ_app; lia|].
      apply (occ_edges_all w h g l a _ Hco).
      * apply NoDup_app. split; [apply NoDup_elements|]. split; [|done]. by intros x [_ ?]%elem_of_elements%Hd.
      * intros x [[? _]%elem_of_elements%Hd|Hx]%elem_of_app; [done|]. by apply (gb_dom _ _ _ Hgb).
    + rewrite occ_not_elem; [apply heap_ok_count, Hrd|]. intros (x & Hx%elem_of_elements & Hs)%elem_of_edges. by apply Ha, (Hcl x).
  - pose proof (co_small _ _ _ _ Hco) as Hsm. cut (size h' <= size h)%nat; [lia|]. rewrite <- !(size_dom (D:=gset Z)). apply subseteq_size. by intros a [? _]%Hd.
Qed.
End After.
End Graph.
End Trash.

(** * Steps that keep the invariant and the nodes *)

Lemma used_num_roots {V : Type} (h : gmap Z (zend_refcounted V)) g l i : buf_ok h g l -> is_used g i -> 0 < num_roots g.
Proof.
  intros Hok [Hi Hu]. assert (NoDup (i :: l)) as Hnd.
  { apply NoDup_cons. split; [|apply Hok]. intros [_ Hil]%(bo_unused _ _ _ Hok). congruence. }
  assert (llen (i :: l) <= first_unused g - 1) as Hle; [|rewrite llen_cons in Hle; pose proof (bo_count _ _ _ Hok); lia].
  unfold llen. rewrite <- (Z2Nat.id (first_unused g - 1)) by lia. apply Nat2Z.inj_le.
  rewrite <- (length_zrange 1 (Z.to_nat (first_unused g - 1))). apply submseteq_length, NoDup_submseteq; [done|].
  intros j [->|Hj%(bo_unused _ _ _ Hok)]%elem_of_cons; apply elem_of_zrange; lia.
Qed.

Section Steps.
Context {V : Type} {E : ZEnv V} {C : Collectable V} (w : EG V) (junk_word : nat -> Z).
Implicit Types (h : gmap Z (zend_refcounted V)) (s : gc_state (V := V)).

Lemma held_outside_bodies h h' a : same_bodies h h' -> held_outside w h' a <-> held_outside w h a.
Proof.
  intros Hs. unfold held_outside. rewrite (same_bodies_types _ _ Hs), (same_bodies_dom _ _ Hs), (same_bodies_refcount _ _ a Hs). done.
Qed.

Lemma unreached_bodies h h' a : same_bodies h h' -> unreached w h' a <-> unreached w h a.
Proof.
  intros Hs. unfold unreached. rewrite (same_bodies_types _ _ Hs), (same_bodies_dom _ _ Hs). by setoid_rewrite (held_outside_bodies h h' _ Hs).
Qed.

Lemma freeable_bodies h h' : same_bodies h h' -> freeable w h -> freeable w h'.
Proof.
  intros Hs Hf. assert (forall a, unreached w h' a -> unreached w h a) as Hu by (intros a; by apply unreached_bodies).
  split; rewrite ?(same_bodies_types _ _ Hs).
  - intros a obj Ha. by apply (fr_object _ _ Hf a), Hu.
  - intros o obj t Ho Hobj Hg. rewrite (same_bodies_refcount _ _ t Hs). by apply (fr_table _ _ Hf o obj t); [apply Hu| |].
  - intros a t Ha. by apply (fr_direct _ _ Hf a), Hu.
  - intros a val b val' Ha. by apply (fr_reference _ _ Hf a val b val'), Hu.
  - intros a val Ha Hv. rewrite (same_bodies_refcount _ _ a Hs). by apply (fr_held _ _ Hf a val); [apply Hu|].
  - intros a Ha. by apply (fr_whole _ _ Hf a), Hu.
  - intros a Ha. rewrite (same_bodies_refcount _ _ a Hs). by apply (fr_room _ _ Hf a), Hu.
Qed.

(** Roots that are held from outside do not matter. *)
Lemma trash_transfer h g h' g' a : same_bodies h h' -> (forall q, buffered g' q -> buffered g q) ->
  (forall q, buffered g q -> q ∈ dom h /\ (buffered g' q \/ held_outside w h q)) -> trash w h' g' a <-> trash w h g a.
Proof.
  intros Hs Hless Hmore. unfold trash, reached. rewrite (same_bodies_types _ _ Hs), (same_bodies_dom _ _ Hs). setoid_rewrite (held_outside_bodies h h' _ Hs).
  split.
  - intros [(r & Hr & Hp) Hall]. split; [exists r; split; [by apply Hless|done]|]. intros e He Hq. destruct (Hall e He Hq) as [(r' & Hr' & Hp') Hn].
    split; [|done]. exists r'. split; [by apply Hless|done].
  - intros [Hr Hall]. assert (forall e, rtc (succ w (types_of h)) e a -> (exists r, buffered g r /\ rtc (succ w (types_of h)) r e) ->
      exists r, buffered g' r /\ rtc (succ w (types_of h)) r e) as Hkeep.
    { intros e He (r & Hb & Hp). exists r. split; [|done]. destruct (Hmore r Hb) as [Hrd [|Ho]]; [done|exfalso].
      destruct (Hall r Hrd) as [_ Hn]; [by etrans|done]. }
    split; [by apply Hkeep|]. intros e He Hq. destruct (Hall e He Hq). split; [by apply Hkeep|done].
Qed.

Lemma collector_ok_transfer h g l h' g' l' : collector_ok w h g l -> same_bodies h h' -> buf_ok h' g' l' -> info_ok h' ->
  (forall i, is_used g' i -> GC_IS_ROOT (entry g' i) = true /\ GC_REF_COLOR h' (entry g' i) = GC_PURPLE /\ rootable (types_of h) (entry g' i)) ->
  (forall a, GC_REF_COLOR h' a = GC_BLACK \/ GC_REF_COLOR h' a = GC_PURPLE /\ buffered g' a) -> collector_ok w h' g' l'.
Proof.
  intros Hco Hs Hok Hi Hroots Hcol. pose proof (same_bodies_types _ _ Hs) as Ht. pose proof (same_bodies_dom _ _ Hs) as Hd.
  split; rewrite ?Ht, ?Hd; try done.
  - apply Hco.
  - apply (heap_ok_bodies h); [done|apply Hco|done].
  - apply Hco.
  - intros i Hu. by destruct (Hroots i Hu) as (? & ? & ?).
  - intros i Hu. by destruct (Hroots i Hu) as (? & ? & ?).
  - intros a. rewrite (same_bodies_refcount _ _ a Hs). apply Hco.
  - rewrite <- (size_dom (D:=gset Z)), Hd, (size_dom (D:=gset Z)). apply Hco.
Qed.

Lemma collector_ok_globals h g g' l : same_buffer g g' -> collector_ok w h g l -> collector_ok w h g' l.
Proof.
  intros Hg Hco. pose proof Hg as (Hb & Hf & _). assert (forall i, entry g' i = entry g i) as He by (intros i; unfold entry; by rewrite Hb).
  assert (forall i, is_used g' i <-> is_used g i) as Hu by (intros i; unfold is_used; by rewrite Hf, He).
  apply (collector_ok_transfer h g l); try done.
  - by apply (buf_ok_same h g), Hco.
  - by apply heap_ok_info, Hco.
  - intros i Hi%Hu. rewrite He. split_and!; [by apply (co_roots _ _ _ _ Hco)|by apply (co_roots _ _ _ _ Hco)|by apply (co_rootable _ _ _ _ Hco)].
  - intros a. destruct (co_color _ _ _ _ Hco a) as [|[Hp (i & Hi & Ei)]]; [by left|right]. split; [done|]. exists i. by rewrite Hu, He.
Qed.

Lemma collector_ok_compact h g l : collector_ok w h g l ->
  exists h' g', gc_compact (h, g) = Some (h', g') /\ collector_ok w h' g' [] /\ same_bodies h h' /\ gc_active g' = gc_active g.
Proof.
  intros Hco. destruct (gc_compact_ok h g l (co_buf _ _ _ _ Hco)) as (h' & g' & Ec & Hok & Hq & Hs & Hc & _ & Hi). exists h', g'. split; [done|].
  split; [|split; [done|by apply gc_compact_active in Ec]]. apply (collector_ok_transfer h g l); try done.
  - exact (Hi (heap_ok_info _ (co_heap _ _ _ _ Hco))).
  - intros i Hu. destruct (proj1 (Hq (entry g' i))) as (j & Hj & <-); [by exists i|]. rewrite Hc.
    split_and!; [by apply (co_roots _ _ _ _ Hco)|by apply (co_roots _ _ _ _ Hco)|by apply (co_rootable _ _ _ _ Hco)].
  - intros a. rewrite Hc. destruct (co_color _ _ _ _ Hco a) as [|[Hp Hb]]; [by left|right]. split; [done|by apply Hq].
Qed.

(** ** Temporary values of running functions *)

Lemma address_buffered h g l a : collector_ok w h g l -> GC_REF_ADDRESS h a <> 0 -> buffered g a.
Proof.
  intros Hco Hz. destruct (h !! a) as [r|] eqn:Er; [|unfold GC_REF_ADDRESS, info_of in Hz; by rewrite Er in Hz].
  destruct (bo_address _ _ _ (co_buf _ _ _ _ Hco) a r Er) as (i & Hi & Hp); [unfold GC_REF_ADDRESS, info_of in Hz; by rewrite Er in Hz|].
  exists i. split; [done|]. destruct (co_roots _ _ _ _ Hco i Hi) as [Hr _]. apply Z.eqb_eq, aligned_root in Hr as (_ & Hptr & _). congruence.
Qed.

Lemma info_address h g l a : collector_ok w h g l -> info_of h a <> 0 -> GC_REF_ADDRESS h a <> 0.
Proof.
  intros Hco Hi Hz. assert (forall i, is_used g i -> entry g i = a -> False) as Hno.
  { intros i Hu Ei. destruct (bo_node _ _ _ (co_buf _ _ _ _ Hco) i Hu) as (r & Hr & Ha). destruct (co_roots _ _ _ _ Hco i Hu) as [Hroot _].
    apply Z.eqb_eq, aligned_root in Hroot as (_ & Hptr & _). rewrite Hptr, Ei in Hr. unfold GC_REF_ADDRESS, info_of in Hz. rewrite Hr in Hz. cbn in Hz.
    destruct Hu as [Hu _]. pose proof (compress_range i). lia. }
  destruct (co_color _ _ _ _ Hco a) as [Hb|[_ (i & Hu & Ei)]]; [|by apply (Hno i)].
  apply Hi, info_zero; [apply (heap_ok_info _ (co_heap _ _ _ _ Hco))|done|done].
Qed.

Lemma remove_tmpvar_ok h g l ref : collector_ok w h g l -> heap_above h -> held_outside w h ref ->
  exists h' g' l', GC_REMOVE_FROM_BUFFER ref (h, g) = Some (h', g') /\ collector_ok w h' g' l' /\ same_bodies h h' /\ gc_active g' = gc_active g /\
    (forall q, buffered g' q -> buffered g q) /\ (forall q, buffered g q -> q ∈ dom h /\ (buffered g' q \/ held_outside w h q)).
Proof.
  intros Hco Hab Hheld. destruct (Hheld) as [[r Hr]%elem_of_dom _]. unfold GC_REMOVE_FROM_BUFFER. cbn [fst]. rewrite Hr, some_bind.
  assert (GC_INFO r = info_of h ref) as Ei by (unfold info_of; by rewrite Hr).
  destruct (Z.eqb_spec (GC_INFO r) 0) as [E0|Hn0]; cbn [negb].
  { exists h, g, l. split_and!; try done. intros q Hq. split; [by apply (root_dom w h g l)|by left]. }
  rewrite Ei in Hn0. pose proof (info_address h g l ref Hco Hn0) as Hz.
  destruct (gc_remove_from_buffer_ok h g l ref (co_buf _ _ _ _ Hco) Hab) as (h' & g' & l' & -> & Hok & Hs & Hi & Hq & _ & Hent & Hact & _); [by apply elem_of_dom|done|].
  assert (forall q, buffered g q -> GC_GET_PTR q = q) as Hptr.
  { intros q (i & Hu & <-). destruct (co_roots _ _ _ _ Hco i Hu) as [Hroot _]. by apply Z.eqb_eq, aligned_root in Hroot as (_ & ? & _). }
  exists h', g', l'. split; [done|]. split; [|split; [done|]; split; [done|]; split].
  - apply (collector_ok_transfer h g l); try done.
    + intros a. rewrite Hi. destruct (decide (ref = a)); [lia|apply (heap_ok_info _ (co_heap _ _ _ _ Hco))].
    + intros i Hu. destruct (Hent i Hu) as [Hu0 Ee]. rewrite <- Ee. destruct (co_roots _ _ _ _ Hco i Hu0) as [Hroot Hp].
      split; [done|]. split; [|by apply (co_rootable _ _ _ _ Hco)]. unfold GC_REF_COLOR in *. rewrite Hi. rewrite decide_False; [done|]. intros Er.
      destruct (proj1 (Hq (entry g' i))) as [Hb Hne]; [by exists i|]. apply Hne. by rewrite Hptr, <- Ee.
    + intros a. unfold GC_REF_COLOR. rewrite Hi. destruct (decide (ref = a)) as [->|Hne]; [by left|].
      destruct (co_color _ _ _ _ Hco a) as [|[Hp Hb]]; [by left|right]. split; [done|]. apply Hq. split; [done|]. by rewrite Hptr.
  - by intros q [? _]%Hq.
  - intros q Hb. split; [by apply (root_dom w h g l)|]. destruct (decide (q = ref)) as [->|Hne]; [by right|left]. apply Hq. split; [done|]. by rewrite Hptr.
Qed.

Definition vars_held h (vars : list (zval V)) : Prop := Forall (fun v => forall ref, Z_COLLECTABLE v = Some ref -> held_outside w h ref) vars.

Lemma remove_tmpvars_ok vars : forall h g l, collector_ok w h g l -> heap_above h -> vars_held h vars ->
  exists h' g' l', zend_gc_remove_root_tmpvars vars (h, g) = Some (h', g') /\ collector_ok w h' g' l' /\ same_bodies h h' /\ gc_active g' = gc_active g /\
    (forall q, buffered g' q -> buffered g q) /\ (forall q, buffered g q -> q ∈ dom h /\ (buffered g' q \/ held_outside w h q)).
Proof.
  induction vars as [|v vars IH]; intros h g l Hco Hab Hv; cbn [zend_gc_remove_root_tmpvars].
  { exists h, g, l. split_and!; try done. intros q Hq. split; [by apply (root_dom w h g l)|by left]. }
  apply Forall_cons in Hv as [Hv Hvs].
  match goal with |- context [?m ≫= _] => assert (exists h1 g1 l1, m = Some (h1, g1) /\
    collector_ok w h1 g1 l1 /\ same_bodies h h1 /\ gc_active g1 = gc_active g /\
    (forall q, buffered g1 q -> buffered g q) /\ (forall q, buffered g q -> q ∈ dom h /\ (buffered g1 q \/ held_outside w h q))) as (h1 & g1 & l1 & -> & Hco1 & Hs1 & Ha1 & Hl1 & Hm1) end.
  { destruct (Z_COLLECTABLE v) as [ref|]; [by apply (remove_tmpvar_ok h g l); [| |apply Hv]|].
    exists h, g, l. split_and!; try done. intros q Hq. split; [by apply (root_dom w h g l)|by left]. }
  rewrite some_bind. destruct (IH h1 g1 l1 Hco1) as (h2 & g2 & l2 & -> & Hco2 & Hs2 & Ha2 & Hl2 & Hm2).
  { intros a. rewrite (same_bodies_dom _ _ Hs1). apply Hab. }
  { eapply Forall_impl; [exact Hvs|]. intros x Hx ref Hr. apply (held_outside_bodies h h1); [done|by apply Hx]. }
  exists h2, g2, l2. split; [done|]. split; [done|]. split; [by eapply same_bodies_trans|]. split; [congruence|]. split; [auto|].
  intros q Hq. destruct (Hm1 q Hq) as [Hd [Hq1|]]; [|by split; [|right]]. split; [done|]. destruct (Hm2 q Hq1) as [_ [|Ho]]; [by left|right].
  by apply (held_outside_bodies h h1).
Qed.

(** ** Possible roots, while a collection is active *)

Context (gc_collect_cycles : gc_state (V := V) -> option (gc_state (V := V) * Z)).

Lemma root_room h g l : collector_ok w h g l -> l <> [] \/ first_unused g < GC_SAFE_SIZE.
Proof.
  intros Hco. pose proof (co_buf _ _ _ _ Hco) as Hok. pose proof (bo_count _ _ _ Hok) as Hcnt. destruct (decide (l = [])) as [El|]; [right|by left].
  rewrite El in Hok, Hcnt. pose proof (roots_le_nodes h g Hok). change (llen []) with 0 in Hcnt. pose proof (co_small _ _ _ _ Hco). lia.
Qed.

Definition keeps (f : gc_state (V := V) -> option (gc_state (V := V))) h g : Prop :=
  exists h' g' l', f (h, g) = Some (h', g') /\ collector_ok w h' g' l' /\ same_bodies h h' /\ gc_active g' = true.

Lemma possible_root_keeps dtor h g l b : collector_ok w h g l -> gc_active g = true -> b ∈ dom h -> rootable (types_of h) b -> info_of h b = 0 ->
  keeps (gc_possible_root junk_word gc_collect_cycles dtor b) h g.
Proof.
  intros Hco Hact Hb Hrb Hi0. pose proof (co_aligned _ _ _ _ Hco b Hb) as Hal.
  destruct (possible_root_active junk_word gc_collect_cycles dtor h g l b (co_buf _ _ _ _ Hco) (root_room h g l Hco) Hact Hb Hal Hi0)
    as (h' & g' & l' & E1 & Hok & Hs & Hact' & _ & [[-> ->]|(Hc & Hir & Hio & Hq & Hold)]); [by exists h, g, l|].
  exists h', g', l'. split; [done|]. split; [|done]. apply (collector_ok_transfer h g l); try done.
  - intros a. destruct (decide (a = b)) as [->|Hne]; [done|]. rewrite Hio by done. apply (heap_ok_info _ (co_heap _ _ _ _ Hco)).
  - intros i Hu. destruct (proj1 (Hq (entry g' i))) as [(j & Hj & <-)|Eb]; [by exists i| |rewrite Eb; split; [by apply aligned_root|done]].
    destruct (co_roots _ _ _ _ Hco j Hj) as [Hroot Hp]. split; [done|]. split; [|by apply (co_rootable _ _ _ _ Hco)].
    destruct (decide (entry g j = b)) as [->|Hne]; [done|]. unfold GC_REF_COLOR in *. by rewrite Hio.
  - intros a. destruct (decide (a = b)) as [->|Hne]; [right; split; [done|]; apply Hq; by right|].
    unfold GC_REF_COLOR. rewrite Hio by done. destruct (co_color _ _ _ _ Hco a) as [|[Hp Hbuf]]; [by left|right]. split; [done|]. apply Hq. by left.
Qed.

Lemma check_leak_keeps dtor h g l b : collector_ok w h g l -> gc_active g = true -> b ∈ dom h ->
  keeps (gc_check_leak junk_word gc_collect_cycles dtor b) h g.
Proof.
  intros Hco Hact Hb. assert (keeps Some h g) as (h0 & g0 & l0 & [= <- <-] & Hsame) by (by exists h, g, l). unfold keeps, gc_check_leak. cbn [fst].
  pose proof Hb as [r Er]%elem_of_dom. rewrite Er, some_bind. assert (info_of h b = GC_INFO r) as Ei by (unfold info_of; by rewrite Er).
  assert (types_of h !! b = Some (GC_TYPE r)) as Et by (by rewrite types_lookup, Er).
  destruct (GC_TYPE r) eqn:Ety; try by exists h, g, l0.
  all: destruct (Z.eqb_spec (GC_INFO r) 0); [|by exists h, g, l0]; apply (possible_root_keeps dtor h g l b); [done|done|done|unfold rootable; by rewrite Et|congruence].
Qed.

Lemma check_possible_root_keeps dtor h g l b : collector_ok w h g l -> gc_active g = true -> b ∈ dom h ->
  keeps (gc_check_possible_root junk_word gc_collect_cycles dtor b) h g.
Proof.
  intros Hco Hact Hb. unfold keeps, gc_check_possible_root. cbn [fst]. pose proof Hb as [r Er]%elem_of_dom. rewrite Er, some_bind.
  destruct (GC_TYPE r) as [t|obj|val|] eqn:Ety; try by apply (check_leak_keeps dtor h g l b).
  destruct (GC_INFO r =? 0); [|by apply (check_leak_keeps dtor h g l b)].
  destruct (Z_COLLECTABLE val) as [c|] eqn:Ec; [|by exists h, g, l]. apply (check_leak_keeps dtor h g l c); [done|done|].
  apply (succ_dom w h g l Hco b c). unfold succ, children. rewrite types_lookup, Er. cbn. rewrite Ety. cbn. rewrite Ec. by left.
Qed.

Lemma check_tmpvars_keep dtor_obj n vars : forall h g l, collector_ok w h g l -> gc_active g = true ->
  Forall (fun v => forall ref, Z_COLLECTABLE v = Some ref -> ref ∈ dom h) vars ->
  keeps (zend_gc_check_root_tmpvars junk_word gc_collect_cycles dtor_obj n vars) h g.
Proof.
  induction vars as [|v vars IH]; intros h g l Hco Hact Hv; unfold keeps; cbn [zend_gc_check_root_tmpvars]; [by exists h, g, l|].
  apply Forall_cons in Hv as [Hv Hvs].
  match goal with |- context [?m ≫= _] => assert (exists h1 g1 l1, m = Some (h1, g1) /\ collector_ok w h1 g1 l1 /\ same_bodies h h1 /\ gc_active g1 = true)
    as (h1 & g1 & l1 & -> & Hco1 & Hs1 & Ha1) end.
  { destruct (Z_COLLECTABLE v) as [ref|]; [apply (check_possible_root_keeps _ h g l ref Hco Hact); by apply Hv|by exists h, g, l]. }
  rewrite some_bind. destruct (IH h1 g1 l1 Hco1 Ha1) as (h2 & g2 & l2 & E2 & Hco2 & Hs2 & Ha2).
  { eapply Forall_impl; [exact Hvs|]. intros x Hx ref Hr. rewrite (same_bodies_dom _ _ Hs1). by apply Hx. }
  exists h2, g2, l2. split; [done|]. split; [done|]. split; [by eapply same_bodies_trans|done].
Qed.
End Steps.

(** * A collection *)

Section Collection.
Context {V : Type} {E : ZEnv V} {C : Collectable V} (w : EG V) (junk_word : nat -> Z).
Context (gc_collect_cycles : gc_state (V := V) -> option (gc_state (V := V) * Z)) (dtor_obj : Z -> gc_state (V := V) -> option (gc_state (V := V))).
Implicit Types (h : gmap Z (zend_refcounted V)) (s : gc_state (V := V)).
Local Notation run := (gc_run w junk_word gc_collect_cycles dtor_obj).

(** [h'] is [h] without the nodes [W] and the references from them. *)
Record without h (W : list Z) h' : Prop := {
  wo_dom a : a ∈ dom h' <-> a ∈ dom h /\ a ∉ W;
  wo_types a : a ∈ dom h' -> types_of h' !! a = types_of h !! a;
  wo_count a : a ∈ dom h' -> refcount_of h' a = refcount_of h a - occ a (edges w (types_of h) W)
}.

Lemma without_bodies h0 h W h1 h2 : same_bodies h0 h -> same_bodies h1 h2 -> without h W h1 -> without h0 W h2.
Proof.
  intros Hs0 Hs Hw. split; intros a; rewrite (same_bodies_dom _ _ Hs).
  - rewrite (wo_dom _ _ _ Hw), (same_bodies_dom _ _ Hs0). done.
  - intros Ha. rewrite (same_bodies_types _ _ Hs), <- (same_bodies_types _ _ Hs0). by apply Hw.
  - intros Ha. rewrite (same_bodies_refcount _ _ a Hs), (wo_count _ _ _ Hw a Ha), (same_bodies_types _ _ Hs0), (same_bodies_refcount _ _ a Hs0). done.
Qed.

Lemma without_nothing h : without h [] h.
Proof. split; intros a; [split; [intros; split; [done|by intros ?%elem_of_nil]|by intros [? _]]|done|]. intros _. rewrite edges_nil, occ_nil. lia. Qed.

(** A run without destructors, from and to the invariant. *)
Definition run_ok h g (r : run_result (V := V)) : Prop :=
  exists W h' g' l', (r = RunFinish (h', g') \/ exists count, r = RunDone (h', g') count false) /\ gc_active g' = false /\
    NoDup W /\ (forall a, a ∈ W <-> trash w h g a) /\ without h W h' /\ collector_ok w h' g' l'.

Lemma gc_run_ok h g l : collector_ok w h g l -> gc_active g = false -> freeable w h -> heap_above h -> exists r, run (h, g) = Some r /\ run_ok h g r.
Proof.
  intros Hco Hact Hfr Hab. unfold gc_run. cbn [fst snd].
  destruct (Z.eqb_spec (num_roots g) 0) as [E0|Hn0]; cbn [negb].
  { destruct (collector_ok_compact w h g l Hco) as (h' & g' & -> & Hco' & Hs & Ha). rewrite some_bind. eexists. split; [done|].
    exists [], h', g', []. split; [right; by exists 0|]. split; [congruence|]. split; [apply NoDup_nil_2|]. split.
    - intros a. split; [by intros ?%elem_of_nil|]. intros [(r & (i & Hi & _) & _) _]. exfalso.
      pose proof (used_num_roots h g l i (co_buf _ _ _ _ Hco) Hi). lia.
    - split; [|done]. by apply (without_bodies h h _ h); [|done|apply without_nothing]. }
  rewrite Hact. set (g1 := set_gc_active true _). assert (same_buffer g g1) as Hsame by done. pose proof (collector_ok_globals w h g g1 l Hsame Hco) as Hco1.
  destruct (analyse_ok w junk_word h g1 l Hco1) as (h2 & g2 & flags & count & S & W & Ea & HS & Hs2 & Hblack & Hok2 & Hq & Hhave & HnW & HWd & Ho2 & Hfl).
  assert (forall a, a ∈ W <-> trash w h g a) as HW by (intros a; rewrite HWd; by apply (dead_trash w h g1 l)).
  rewrite Ea, some_bind. assert (flags = 0) as -> by (apply Hfl; intros a Ha obj Hobj _; apply (fr_object _ _ Hfr a obj); [by apply (trash_unreached w h g l), HW|done]).
  apply gc_analyse_active in Ea; [|done]. cbn [snd] in Ea |- *.
  destruct (Z.eqb_spec (num_roots g2) 0) as [E2|Hn2].
  - assert (W = []) as -> by (by apply (no_roots_no_trash w h g1 l Hco1 S HS Hfr W h2 g2)). eexists. split; [done|].
    exists [], h2, (set_gc_active false g2), []. split; [by left|]. split; [done|]. split; [done|]. split; [done|]. split; [by apply (without_bodies h h _ h); [|done|apply without_nothing]|].
    assert (forall i, ~ is_used g2 i) as Hnone by (intros i Hi; pose proof (used_num_roots h2 g2 [] i Hok2 Hi); lia).
    apply (collector_ok_transfer w h g1 l); [done|done|by apply (buf_ok_same h2 g2)|by apply heap_ok_info| |intros a; by left]. intros i Hi. by destruct (Hnone i).
  - change (Z.land 0 GC_HAS_DESTRUCTORS) with 0. cbn [Z.eqb negb].
    pose proof (analysed_releasing w h g1 l Hco1 S HS Hfr Hab W h2 g2 HnW HW Hs2 Hblack Hok2 Ho2 Ea Hq Hhave) as Hrel.
    pose proof (trash_garbage_ok w h g1 l Hco1 S HS Hfr Hab W HnW HW) as Hgb.
    destruct (destroy_and_free_ok w junk_word gc_collect_cycles dtor_obj h W Hgb h2 g2 [] _ count Hrel) as (h3 & g3 & l3 & -> & Hrd).
    { rewrite <- !(size_dom (D:=gset Z)). by rewrite (same_bodies_dom _ _ Hs2). }
    rewrite some_bind. pose proof (released_collector_ok w h g1 l Hco1 S HS Hfr Hab W HnW HW h3 g3 l3 Hrd) as Hco3.
    assert (same_buffer g3 (set_gc_active false g3)) as Hsame3 by done. pose proof (collector_ok_globals w h3 g3 _ l3 Hsame3 Hco3) as Hco3'.
    destruct (collector_ok_compact w h3 _ l3 Hco3') as (h4 & g4 & -> & Hco4 & Hs4 & Ha4). rewrite some_bind. eexists. split; [done|].
    exists W, h4, g4, []. split; [right; by exists count|]. split; [done|]. split; [done|]. split; [done|]. split; [|done].
    apply (without_bodies h h _ h3); [done|done|]. split; apply Hrd.
Qed.

Lemma trash_not_held h g a : trash w h g a -> ~ held_outside w h a.
Proof. intros [_ Hall] Ha. by destruct (Hall a (proj1 Ha) (rtc_refl _ a)). Qed.

Lemma gc_finish_ok tmpvars h g l count : collector_ok w h g l -> Forall (fun v => forall ref, Z_COLLECTABLE v = Some ref -> ref ∈ dom h) tmpvars ->
  exists h' g' l', gc_finish junk_word gc_collect_cycles dtor_obj tmpvars (h, g) count = Some ((h', g'), count) /\
    collector_ok w h' g' l' /\ same_bodies h h' /\ gc_active g' = false.
Proof.
  intros Hco Hv. unfold gc_finish. cbn [fst snd]. set (g1 := set_gc_active true g). assert (same_buffer g g1) as Hsame by done.
  pose proof (collector_ok_globals w h g g1 l Hsame Hco) as Hco1.
  destruct (check_tmpvars_keep w junk_word gc_collect_cycles dtor_obj (S (size h)) tmpvars h g1 l Hco1 eq_refl Hv) as (h2 & g2 & l2 & -> & Hco2 & Hs2 & _).
  rewrite some_bind. exists h2, (set_gc_active false g2), l2. split; [done|]. split; [|done]. by apply (collector_ok_globals w h2 g2).
Qed.

(** C7: a collection, at any point where the invariant of the collector holds
    and with no destructor to run, ends; it frees exactly the nodes that are
    garbage in terms of the whole graph of references: roots reach them, and
    whatever refers to them, directly or not, is reached too and not held from
    outside.  The other nodes keep their contents and lose the references from
    the freed ones, no freed node is accessed or freed again, and the invariant
    holds afterwards, with the temporary values of running functions back in
    the buffer of possible roots. *)
Theorem zend_gc_collect_cycles_correct tmpvars h g l : collector_ok w h g l -> gc_active g = false -> freeable w h -> heap_above h -> vars_held w h tmpvars ->
  exists W h' g' l' count, zend_gc_collect_cycles w junk_word gc_collect_cycles dtor_obj tmpvars (h, g) = Some ((h', g'), count) /\
    NoDup W /\ (forall a, a ∈ W <-> trash w h g a) /\ without h W h' /\ collector_ok w h' g' l' /\ gc_active g' = false.
Proof.
  intros Hco Hact Hfr Hab Hv. unfold zend_gc_collect_cycles. cbn [snd]. rewrite Hact, andb_true_r.
  match goal with |- context [?m ≫= _] => assert (exists h1 g1 l1, m = Some (h1, g1) /\ collector_ok w h1 g1 l1 /\ same_bodies h h1 /\ gc_active g1 = gc_active g /\
    (forall q, buffered g1 q -> buffered g q) /\ (forall q, buffered g q -> q ∈ dom h /\ (buffered g1 q \/ held_outside w h q)))
    as (h1 & g1 & l1 & -> & Hco1 & Hs1 & Ha1 & Hless & Hmore) end.
  { destruct (negb (num_roots g =? 0)); [by apply (remove_tmpvars_ok w tmpvars h g l)|]. exists h, g, l. split_and!; try done.
    intros q Hq. split; [by apply (root_dom w h g l)|by left]. }
  rewrite some_bind. destruct (gc_run_ok h1 g1 l1 Hco1) as (r & -> & W & h2 & g2 & l2 & Hr & Ha2 & HnW & HW & Hwo & Hco2).
  { by rewrite Ha1. } { by apply (freeable_bodies w h). } { intros a. rewrite (same_bodies_dom _ _ Hs1). apply Hab. }
  assert (forall a, a ∈ W <-> trash w h g a) as HW0 by (intros a; rewrite HW; by apply trash_transfer).
  assert (Forall (fun v => forall ref, Z_COLLECTABLE v = Some ref -> ref ∈ dom h2) tmpvars) as Hv2.
  { eapply Forall_impl; [exact Hv|]. intros v Hx ref Href. specialize (Hx ref Href). apply (wo_dom _ _ _ Hwo). rewrite (same_bodies_dom _ _ Hs1).
    split; [apply Hx|]. intros Hin. apply HW0 in Hin. by apply (trash_not_held h g ref). }
  assert (exists count, (r = RunFinish (h2, g2) /\ count = 0) \/ r = RunDone (h2, g2) count false) as [count Hcase]
    by (destruct Hr as [->|[c ->]]; [exists 0; by left|exists c; by right]).
  destruct (gc_finish_ok tmpvars h2 g2 l2 count Hco2 Hv2) as (h3 & g3 & l3 & Ef & Hco3 & Hs3 & Ha3).
  exists W, h3, g3, l3, count. rewrite some_bind. split; [by destruct Hcase as [[-> ->]| ->]|].
  split; [done|]. split; [done|]. split; [|done]. by apply (without_bodies h h1 W h2).
Qed.
End Collection.
