(* ===== verification/GcWitnesses.v ===== *)
(** A small heap for the cycle collector: an object and an array that refer to
    each other, both reached from one root, and an array that the program holds. *)

From stdpp Require Import base numbers list gmap relations.
From S2P Require Import Prelude ZendTypes HashTable HashOps GcBuffer GcRoots GcCompact GcGraph GcVisit GcMark GcScan GcCollect GcCycles GcFree GcRelease GcDestroy GcCollectCycles.

#[local] Instance gc_env : ZEnv Z := {
  junk := fun _ => mk_Bucket IS_UNDEF 0 0 None;
  ZSTR := fun _ => mk_zend_string [] true
}.

(** Values from 2^33 on are addresses of nodes. *)
#[local] Instance gc_values : Collectable Z := fun x => if 2 ^ 33 <=? x then Some x else None.

Definition no_memory : EG Z := mk_EG [] 0 ∅ [].
Definition junk_zero : nat -> Z := fun _ => 0.

Definition packed_array (xs : list Z) : HashTable Z :=
  mk_HashTable 0 true false true false 0 HT_MIN_MASK [HT_INVALID_IDX; HT_INVALID_IDX] []
    (IS_VALUE <$> xs) (llen xs) (llen xs) 8 0 (llen xs) true.

Definition obj_a : Z := 2 ^ 33.
Definition arr_b : Z := 2 ^ 33 + 8.
Definition arr_l : Z := 2 ^ 33 + 16.
Definition arr_m : Z := 2 ^ 33 + 24.

Definition node_a : zend_refcounted Z := mk_refcounted 1 (Z.lor 1 GC_PURPLE) (IS_OBJECT (mk_zend_object false true true (None, [IS_VALUE arr_b]))).
Definition node_b : zend_refcounted Z := mk_refcounted 1 0 (IS_ARRAY (packed_array [obj_a])).
Definition node_l : zend_refcounted Z := mk_refcounted 2 (Z.lor 3 GC_PURPLE) (IS_ARRAY (packed_array [arr_m; 5])).
Definition node_m : zend_refcounted Z := mk_refcounted 1 0 (IS_ARRAY (packed_array [])).

Definition heap : gmap Z (zend_refcounted Z) := {[obj_a := node_a; arr_b := node_b; arr_l := node_l; arr_m := node_m]}.
Definition heap_addresses : list Z := [obj_a; arr_b; arr_l; arr_m].

(** Entry 2 is unused. *)
Definition globals : zend_gc_globals :=
  mk_gc ([0; obj_a; GC_IDX2LIST 0; arr_l] ++ replicate 12 0) true false false false 2 4 10 16 2 0 0.

Lemma heap_cases a r : heap !! a = Some r -> (a, r) ∈ [(obj_a, node_a); (arr_b, node_b); (arr_l, node_l); (arr_m, node_m)].
Proof.
  unfold heap. rewrite !lookup_insert_Some, lookup_singleton_Some.
  intros [[<- <-]|[_ [[<- <-]|[_ [[<- <-]|[_ [<- <-]]]]]]]; set_solver.
Qed.

Lemma used_cases i : is_used globals i -> i = 1 \/ i = 3.
Proof. intros [Hi Hu]. cbn in Hi. assert (i = 1 \/ i = 2 \/ i = 3) as [->|[->| ->]] by lia; [by left|done|by right]. Qed.

Lemma buf_ok_globals : buf_ok heap globals [2].
Proof.
  split; try done.
  - cbn. split; [done|]. exists 0. done.
  - apply NoDup_singleton.
  - intros i. rewrite list_elem_of_singleton. split; [intros ->; done|]. intros [Hi Hu]. cbn in Hi.
    assert (i = 1 \/ i = 2 \/ i = 3) as [->|[->| ->]] by lia; done.
  - intros i [->| ->]%used_cases; [exists node_a|exists node_l]; vm_compute; by split.
  - intros a r Ha Hne. apply heap_cases in Ha.
    repeat (apply elem_of_cons in Ha as [[= -> ->]|Ha]; [first [by exfalso; apply Hne|exists 1; vm_compute; by repeat split|exists 3; vm_compute; by repeat split]|]).
    by apply elem_of_nil in Ha.
  - intros i j [->| ->]%used_cases [->| ->]%used_cases; vm_compute; done.
Qed.

Lemma graph_ok_heap : graph_ok no_memory (types_of heap).
Proof.
  split.
  - intros a b Hs. unfold succ, children in Hs. rewrite types_lookup in Hs. destruct (heap !! a) as [r|] eqn:Ha; [|by apply elem_of_nil in Hs].
    apply heap_cases in Ha. rewrite types_dom.
    repeat (apply elem_of_cons in Ha as [[= -> ->]|Ha]; [vm_compute in Hs;
      first [by apply elem_of_nil in Hs|apply list_elem_of_singleton in Hs as ->; apply elem_of_dom; vm_compute; by eexists]|]).
    by apply elem_of_nil in Ha.
  - intros a obj ht Ha _ Hg. rewrite types_lookup in Ha. destruct (heap !! a) as [r|] eqn:Hr; [|done]. apply heap_cases in Hr.
    repeat (apply elem_of_cons in Hr as [[= -> ->]|Hr]; [cbn in Ha; try discriminate Ha; injection Ha as <-; discriminate Hg|]).
    by apply elem_of_nil in Hr.
Qed.

Lemma heap_ok_heap : heap_ok heap.
Proof.
  intros a r Ha. apply heap_cases in Ha.
  repeat (apply elem_of_cons in Ha as [[= -> ->]|Ha]; [vm_compute; by repeat split|]). by apply elem_of_nil in Ha.
Qed.

Lemma collector_ok_heap : collector_ok no_memory heap globals [2].
Proof.
  split; [apply buf_ok_globals|apply graph_ok_heap|apply heap_ok_heap| | | | | |done].
  - intros a [r Ha]%elem_of_dom. apply heap_cases in Ha.
    repeat (apply elem_of_cons in Ha as [[= -> ->]|Ha]; [done|]). by apply elem_of_nil in Ha.
  - intros i [->| ->]%used_cases; vm_compute; by split.
  - intros i [->| ->]%used_cases; vm_compute; exact I.
  - intros a. unfold GC_REF_COLOR, info_of. destruct (heap !! a) as [r|] eqn:Ha; [|by left]. apply heap_cases in Ha.
    repeat (apply elem_of_cons in Ha as [[= -> ->]|Ha]; [first [by left|right; split; [done|];
      first [exists 1; vm_compute; by repeat split|exists 3; vm_compute; by repeat split]]|]). by apply elem_of_nil in Ha.
  - intros a. rewrite (occ_perm a _ [arr_b; obj_a; arr_m]) by (vm_compute; solve_Permutation).
    rewrite !occ_cons, occ_nil.
    destruct (decide (arr_b = a)) as [<-|]; [vm_compute; done|]. destruct (decide (obj_a = a)) as [<-|]; [vm_compute; done|].
    destruct (decide (arr_m = a)) as [<-|]; [vm_compute; done|]. cbn. by apply heap_ok_count, heap_ok_heap.
Qed.

(** The garbage cycle is found, the array the program holds is not. *)
Example analyse_heap : (fun r => take 4 (buf r.1.1.2)) <$> gc_analyse no_memory junk_zero (heap, globals) =
  Some [0; GC_MAKE_GARBAGE obj_a; GC_MAKE_GARBAGE arr_b; arr_l].
Proof. vm_compute. reflexivity. Qed.

(** * The theorems at this heap *)

Lemma gc_analyse_correct_witness :
  exists h' g' flags count S, gc_analyse no_memory junk_zero (heap, globals) = Some ((h', g'), flags, count) /\
    candidates no_memory heap globals S /\ (forall a, dead no_memory heap S a -> a ∈ S) /\ same_bodies heap h'.
Proof.
  destruct (gc_analyse_correct no_memory junk_zero heap globals [2] collector_ok_heap) as (h' & g' & fl & ct & S & H1 & H2 & H3 & _).
  exists h', g', fl, ct, S. split; [exact H1|]. split; [exact H2|]. split; [intros a Ha; exact (proj1 Ha)|exact H3].
Defined.

Lemma gc_analyse_safe_witness :
  exists h' g' flags count, gc_analyse no_memory junk_zero (heap, globals) = Some ((h', g'), flags, count) /\
    forall q, buffered g' q -> GC_GET_PTR q <> arr_m.
Proof.
  destruct (gc_analyse_safe no_memory junk_zero heap globals [2] collector_ok_heap) as (h' & g' & fl & ct & H1 & H2).
  exists h', g', fl, ct. split; [exact H1|]. apply (H2 arr_l arr_m).
  - split; [apply elem_of_dom; vm_compute; by eexists|vm_compute; reflexivity].
  - apply rtc_once. vm_compute. by left.
Defined.

Lemma gc_analyse_complete_witness :
  exists h' g' flags count, gc_analyse no_memory junk_zero (heap, globals) = Some ((h', g'), flags, count) /\
    buffered g' (GC_MAKE_GARBAGE obj_a).
Proof.
  destruct (gc_analyse_complete no_memory junk_zero heap globals [2] collector_ok_heap) as (h' & g' & fl & ct & H1 & H2).
  exists h', g', fl, ct. split; [exact H1|]. apply (H2 [obj_a; arr_b]).
  - apply NoDup_cons. split; [|apply NoDup_singleton]. intros Hin%list_elem_of_singleton. discriminate Hin.
  - assert (buffered globals obj_a) as Hb by (exists 1; vm_compute; by repeat split).
    intros a [->|Ha]%elem_of_cons; [exists obj_a; by split|]. apply list_elem_of_singleton in Ha as ->.
    exists obj_a. split; [done|]. apply rtc_once. vm_compute. by left.
  - intros a [->|Ha]%elem_of_cons; [vm_compute; reflexivity|]. apply list_elem_of_singleton in Ha as ->. vm_compute. reflexivity.
  - by left.
  - vm_compute. reflexivity.
Defined.

Lemma gc_compact_correct_witness :
  exists h' g', gc_compact (heap, globals) = Some (h', g') /\ buf_ok h' g' [] /\ num_roots g' = 2 /\ buffered g' arr_l.
Proof.
  destruct (gc_compact_correct heap globals [2] buf_ok_globals) as (h' & g' & H1 & H2 & H3 & _ & _ & H4 & _).
  exists h', g'. split; [exact H1|]. split; [exact H2|]. split; [exact H4|]. apply H3. exists 3. vm_compute. by repeat split.
Defined.

Lemma heap_above_heap : heap_above heap.
Proof.
  intros a [r Ha]%elem_of_dom. apply heap_cases in Ha.
  repeat (apply elem_of_cons in Ha as [[= -> ->]|Ha]; [vm_compute; discriminate|]). by apply elem_of_nil in Ha.
Qed.

Lemma gc_remove_from_buffer_correct_witness :
  exists h' g' l', gc_remove_from_buffer arr_l (heap, globals) = Some (h', g') /\ buf_ok h' g' l' /\ num_roots g' = 1.
Proof.
  assert (arr_l ∈ dom heap) as Hd by (apply elem_of_dom; vm_compute; by eexists).
  assert (GC_REF_ADDRESS heap arr_l <> 0) as Hn by (vm_compute; discriminate).
  destruct (gc_remove_from_buffer_correct heap globals [2] arr_l buf_ok_globals heap_above_heap Hd Hn) as (h' & g' & l' & H1 & H2 & _ & _ & _ & H3).
  exists h', g', l'. split; [exact H1|]. split; [exact H2|exact H3].
Defined.

Lemma gc_possible_root_correct_witness :
  exists h' g' l', gc_possible_root junk_zero (fun s => Some (s, 0)) (fun _ s => Some s) arr_m (heap, globals) = Some (h', g') /\ buf_ok h' g' l' /\
    GC_REF_COLOR h' arr_m = GC_PURPLE.
Proof.
  assert (first_unused globals < GC_SAFE_SIZE) as H1 by (vm_compute; reflexivity).
  assert (arr_m ∈ dom heap) as H2 by (apply elem_of_dom; vm_compute; by eexists).
  assert (aligned arr_m) as H3 by (vm_compute; reflexivity).
  assert (info_of heap arr_m = 0) as H4 by (vm_compute; reflexivity).
  assert ([2] <> ([] : list Z) \/ first_unused globals < gc_threshold globals) as H5 by (by left).
  destruct (gc_possible_root_correct junk_zero (fun s => Some (s, 0)) (fun _ s => Some s) heap globals [2] arr_m buf_ok_globals H1 H2 H3 H4 H5)
    as (h' & g' & l' & E1 & E2 & _ & E3 & _).
  exists h', g', l'. split; [exact E1|]. split; [exact E2|exact E3].
Defined.

(** * A whole collection *)

Lemma arr_l_held : held_outside no_memory heap arr_l.
Proof. split; [apply elem_of_dom; vm_compute; by eexists|vm_compute; reflexivity]. Qed.

Lemma packed_direct xs : direct (packed_array xs).
Proof.
  intros v (i & -> & _)%list_elem_of_fmap. unfold pos_val, packed, packed_array, lget. cbn [fl_PACKED arPacked].
  rewrite list_lookup_fmap. by destruct (xs !! Z.to_nat i).
Qed.

Lemma freeable_heap : freeable no_memory heap.
Proof.
  assert (forall a ty, types_of heap !! a = Some ty -> exists r, (a, r) ∈ [(obj_a, node_a); (arr_b, node_b); (arr_l, node_l); (arr_m, node_m)] /\ ty = GC_TYPE r) as Hty.
  { intros a ty. rewrite types_lookup. destruct (heap !! a) as [r|] eqn:Ha; [|done]. intros [= <-]. exists r. split; [by apply heap_cases|done]. }
  split.
  - intros a obj _ (r & Hr & E)%Hty. repeat (apply elem_of_cons in Hr as [[= -> ->]|Hr]; [first [by injection E as ->; split; [|left]|discriminate E]|]). by apply elem_of_nil in Hr.
  - intros a obj t _ (r & Hr & E)%Hty. repeat (apply elem_of_cons in Hr as [[= -> ->]|Hr]; [first [by injection E as ->|discriminate E]|]). by apply elem_of_nil in Hr.
  - intros a t _ (r & Hr & E)%Hty. repeat (apply elem_of_cons in Hr as [[= -> ->]|Hr]; [first [injection E as ->; apply packed_direct|discriminate E]|]). by apply elem_of_nil in Hr.
  - intros a val b val' _ (r & Hr & E)%Hty. repeat (apply elem_of_cons in Hr as [[= -> ->]|Hr]; [discriminate E|]). by apply elem_of_nil in Hr.
  - intros a val _ (r & Hr & E)%Hty. repeat (apply elem_of_cons in Hr as [[= -> ->]|Hr]; [discriminate E|]). by apply elem_of_nil in Hr.
  - intros a _ (r & Hr & E)%Hty. repeat (apply elem_of_cons in Hr as [[= -> ->]|Hr]; [discriminate E|]). by apply elem_of_nil in Hr.
  - intros a [[r Ha]%elem_of_dom _]. unfold refcount_of. rewrite Ha. apply heap_cases in Ha.
    repeat (apply elem_of_cons in Ha as [[= -> ->]|Ha]; [vm_compute; reflexivity|]). by apply elem_of_nil in Ha.
Qed.

Definition collect (dtor_obj : Z -> gc_state -> option gc_state) (s : gc_state) : option (gc_state * Z) :=
  zend_gc_collect_cycles no_memory junk_zero (fun s => Some (s, 0)) dtor_obj [IS_VALUE arr_l] s.

(** The cycle is freed; the array a running function holds is a possible root again. *)
Example collect_heap : (fun r => (elements (dom r.1.1), buf r.1.2 !! 1%nat, num_roots r.1.2, r.2)) <$> collect (fun _ s => Some s) (heap, globals) =
  Some ([arr_m; arr_l], Some arr_l, 1, 2).
Proof. vm_compute. reflexivity. Qed.

(** With a destructor to run: it is called, and the second run frees the cycle. *)
Definition node_a_new : zend_refcounted Z := mk_refcounted 1 (Z.lor 1 GC_PURPLE) (IS_OBJECT (mk_zend_object false false true (None, [IS_VALUE arr_b]))).

Example collect_destructor : (fun r => (elements (dom r.1.1), gc_runs r.1.2, r.2)) <$> collect (fun _ s => Some s) (<[obj_a := node_a_new]> heap, globals) =
  Some ([arr_m; arr_l], 2, 2).
Proof. vm_compute. reflexivity. Qed.

(** A destructor that stores the object keeps the cycle alive. *)
Example collect_resurrected : (fun r => (elements (dom r.1.1), refcount_of r.1.1 obj_a, refcount_of r.1.1 arr_b, r.2)) <$>
    collect addref (<[obj_a := node_a_new]> heap, globals) = Some ([arr_m; arr_b; arr_l; obj_a], 2, 1, 0).
Proof. vm_compute. reflexivity. Qed.

Lemma zend_gc_collect_cycles_correct_witness :
  exists W h' g' l' count, collect (fun _ s => Some s) (heap, globals) = Some ((h', g'), count) /\ (forall a, a ∈ W <-> trash no_memory heap globals a) /\
    without no_memory heap W h' /\ collector_ok no_memory h' g' l'.
Proof.
  assert (vars_held no_memory heap [IS_VALUE arr_l]) as Hv by (apply Forall_singleton; intros ref [= <-]; exact arr_l_held).
  destruct (zend_gc_collect_cycles_correct no_memory junk_zero (fun s => Some (s, 0)) (fun _ s => Some s) [IS_VALUE arr_l] heap globals [2]
    collector_ok_heap eq_refl freeable_heap heap_above_heap Hv) as (W & h' & g' & l' & count & H1 & _ & H2 & H3 & H4 & _).
  exists W, h', g', l', count. split; [exact H1|]. split; [exact H2|]. split; [exact H3|exact H4].
Defined.
