(* ===== verification/RandomRange.v ===== *)
(** Uniform integers in a range (src/ext/random/random.c): the interface of a
    random engine, [php_random_range32], [php_random_range64] and
    [php_random_range], with their rejection of biased values. *)

From stdpp Require Import base numbers list gmap.
From S2P Require Import Prelude.

(** * Engines *)

Record php_random_result := mk_result { r_result : Z; r_size : Z }.

(** [generate] of [php_random_algo]; [has_exception] is [EG(exception)], part of the state. *)
Class php_random_algo (St : Type) := {
  generate : St -> php_random_result * St;
  has_exception : St -> bool
}.

(** What [php_random_range] relies on: every call on a valid state yields at
    least one byte of a 64-bit result and a valid state. *)
Class engine_ok (St : Type) `{php_random_algo St} := {
  engine_inv : St -> Prop;
  generate_inv : forall st, engine_inv st -> engine_inv (generate st).2;
  generate_size : forall st, engine_inv st -> 0 < r_size (generate st).1;
  generate_result : forall st, engine_inv st -> 0 <= r_result (generate st).1 < 2 ^ 64
}.

Definition PHP_RANDOM_RANGE_ATTEMPTS : Z := 50.

(** How a draw ends: normally, with an exception of the engine, or with
    [BrokenRandomEngineError] after too many attempts. *)
Inductive range_status := RangeOk | EngineException | BrokenEngine.

Section Range.
Context {St : Type} {algo : php_random_algo St}.

(** ** One word of [bytes] bytes *)

(** [uint32_t] or [uint64_t]. *)
Definition uw (bytes z : Z) : Z := z mod 2 ^ (8 * bytes).

(** The [do ... while (total_size < sizeof(...))] loop; [None]: out of fuel,
    [Some (None, _)]: an exception. *)
Fixpoint draw_loop (n : nat) (bytes result total_size : Z) (st : St) : option (option Z * St) :=
  match n with
  | O => None
  | S n =>
      let (r, st) := generate st in
      let result := Z.lor result (uw bytes (Z.shiftl (uw bytes (r_result r)) (total_size * 8))) in
      let total_size := total_size + r_size r in
      if has_exception st then Some (None, st)
      else if total_size <? bytes then draw_loop n bytes result total_size st
      else Some (Some result, st)
  end.
Definition draw (bytes : Z) (st : St) : option (option Z * St) := draw_loop (Z.to_nat bytes) bytes 0 0 st.

(** ** Rejection *)

(** [while (result > limit) { if (++count > ATTEMPTS) ...; draw }], then [result % umax]. *)
Fixpoint reject_loop (n : nat) (bytes umax limit count result : Z) (st : St) : option (Z * range_status * St) :=
  if limit <? result then
    match n with
    | O => None
    | S n =>
        let count := count + 1 in
        if PHP_RANDOM_RANGE_ATTEMPTS <? count then Some (0, BrokenEngine, st)
        else
          d ← draw bytes st;
          match d with
          | (None, st) => Some (0, EngineException, st)
          | (Some result, st) => reject_loop n bytes umax limit count result st
          end
    end
  else Some (result mod umax, RangeOk, st).

(** The two functions differ in the width only. *)
Definition range_w (bytes umax : Z) (st : St) : option (Z * range_status * St) :=
  let MAX := 2 ^ (8 * bytes) - 1 in
  d ← draw bytes st;
  match d with
  | (None, st) => Some (0, EngineException, st)
  | (Some result, st) =>
      if umax =? MAX then Some (result, RangeOk, st)
      else
        let umax := uw bytes (umax + 1) in
        if Z.land umax (uw bytes (umax - 1)) =? 0 then Some (Z.land result (uw bytes (umax - 1)), RangeOk, st)
        else
          let limit := MAX - MAX mod umax - 1 in
          reject_loop 51 bytes umax limit 0 result st
  end.

Definition php_random_range32 (umax : Z) (st : St) := range_w 4 umax st.
Definition php_random_range64 (umax : Z) (st : St) := range_w 8 umax st.

Definition php_random_range (min max : Z) (st : St) : option (Z * range_status * St) :=
  let umax := u64 (u64 max - u64 min) in
  r ← (if 2 ^ 32 - 1 <? umax then php_random_range64 umax st else php_random_range32 umax st);
  let '(v, status, st) := r in
  Some (s64 (v + u64 min), status, st).

(** * Properties *)

(** What the code does with one drawn word: a value, or [None] to draw again. *)
Definition word_value (bytes umax x : Z) : option Z :=
  let n := umax + 1 in
  if Z.land n (n - 1) =? 0 then Some (x mod n)
  else if x <? n * ((2 ^ (8 * bytes) - 1) / n) then Some (x mod n) else None.

(** Consecutive draws. *)
Inductive draws (bytes : Z) : St -> list Z -> St -> Prop :=
| draws_nil st : draws bytes st [] st
| draws_cons st x st1 xs st2 : draw bytes st = Some (Some x, st1) -> draws bytes st1 xs st2 ->
    draws bytes st (x :: xs) st2.

Lemma uw_range bytes z : 0 < bytes -> 0 <= uw bytes z < 2 ^ (8 * bytes).
Proof. intros. apply Z.mod_pos_bound. apply Z.pow_pos_nonneg; lia. Qed.

Context {ok : engine_ok St}.

Lemma draw_loop_ok bytes n : forall result total st, 0 < bytes -> 0 <= total ->
  bytes <= total + Z.of_nat n -> (0 < n)%nat -> 0 <= result < 2 ^ (8 * bytes) -> engine_inv st ->
  exists r st', draw_loop n bytes result total st = Some (r, st') /\ engine_inv st' /\
    (forall x, r = Some x -> 0 <= x < 2 ^ (8 * bytes)).
Proof.
  induction n as [|n IH]; intros result total st Hb Ht Hn Hpos Hr Hi; [lia|]. cbn [draw_loop].
  pose proof (generate_size st Hi) as Hs. pose proof (generate_inv st Hi) as Hi1.
  destruct (generate st) as [r st1]. cbn in Hs, Hi1.
  set (result' := Z.lor result _). assert (0 <= result' < 2 ^ (8 * bytes)) as Hr'.
  { apply lor_range; [lia|done|]. by apply uw_range. }
  destruct (has_exception st1); [by eexists _, _|].
  destruct (Z.ltb_spec (total + r_size r) bytes); [apply IH; try done; lia|].
  eexists _, _. split; [reflexivity|]. split; [done|]. by intros x [= <-].
Qed.

Lemma draw_ok bytes st : 0 < bytes -> engine_inv st ->
  exists r st', draw bytes st = Some (r, st') /\ engine_inv st' /\ (forall x, r = Some x -> 0 <= x < 2 ^ (8 * bytes)).
Proof.
  intros Hb Hi. apply draw_loop_ok; done || lia.
Qed.

(** The test for a power of two. *)
Lemma land_pred_pow2 n : 0 < n -> Z.land n (n - 1) = 0 -> exists k, 0 <= k /\ n = 2 ^ k.
Proof.
  intros Hn H0. exists (Z.log2 n). split; [apply Z.log2_nonneg|].
  destruct (Z.log2_spec n Hn) as [Hlo Hhi]. destruct (decide (n = 2 ^ Z.log2 n)) as [|Hne]; [done|exfalso].
  assert (Z.testbit (Z.land n (n - 1)) (Z.log2 n) = true) as Hbit.
  { rewrite Z.land_spec, Z.bit_log2 by done.
    assert (Z.log2 (n - 1) = Z.log2 n) as <- by (apply Z.log2_unique; [apply Z.log2_nonneg|lia]).
    rewrite Z.bit_log2; [done|]. pose proof (Z.pow_pos_nonneg 2 (Z.log2 n) ltac:(lia) (Z.log2_nonneg n)). lia. }
  rewrite H0, Z.bits_0 in Hbit. done.
Qed.


Lemma draws_app bytes st1 xs st2 ys st3 : draws bytes st1 xs st2 -> draws bytes st2 ys st3 -> draws bytes st1 (xs ++ ys) st3.
Proof. induction 1; intros; cbn [app]; [done|]. econstructor; eauto. Qed.

Lemma draws_snoc bytes st1 xs st2 x st3 : draws bytes st1 xs st2 -> draw bytes st2 = Some (Some x, st3) ->
  draws bytes st1 (xs ++ [x]) st3.
Proof. intros H1 H2. apply (draws_app _ _ _ _ _ _ H1). econstructor; [done|constructor]. Qed.

(** The possible ends of a range request. *)
Inductive range_outcome (bytes umax : Z) (st : St) : Z -> range_status -> St -> Prop :=
| outcome_ok xs x v st' : draws bytes st (xs ++ [x]) st' -> (length xs <= 50)%nat ->
    Forall (fun y => word_value bytes umax y = None) xs -> word_value bytes umax x = Some v ->
    range_outcome bytes umax st v RangeOk st'
| outcome_exception xs st1 st' : draws bytes st xs st1 -> (length xs <= 50)%nat ->
    Forall (fun y => word_value bytes umax y = None) xs -> draw bytes st1 = Some (None, st') ->
    range_outcome bytes umax st 0 EngineException st'
| outcome_broken xs st' : draws bytes st xs st' -> length xs = 51%nat ->
    Forall (fun y => word_value bytes umax y = None) xs ->
    range_outcome bytes umax st 0 BrokenEngine st'.

Section Word.
Context (bytes umax : Z) (Hb : 0 < bytes) (Humax : 0 <= umax < 2 ^ (8 * bytes)).
Local Notation MAX := (2 ^ (8 * bytes) - 1).

Lemma word_value_range x v : word_value bytes umax x = Some v -> 0 <= v <= umax.
Proof.
  unfold word_value. intros H.
  assert (Some (x mod (umax + 1)) = Some v) as E.
  { destruct (_ =? 0); [done|]. by destruct (x <? _). }
  injection E as <-. pose proof (Z.mod_pos_bound x (umax + 1) ltac:(lia)). lia.
Qed.

Lemma limit_accept x : umax <> MAX -> MAX - MAX mod (umax + 1) - 1 <? x = negb (x <? (umax + 1) * (MAX / (umax + 1))).
Proof.
  intros Hne. pose proof (Z.div_mod MAX (umax + 1) ltac:(lia)).
  destruct (Z.ltb_spec x ((umax + 1) * (MAX / (umax + 1)))), (Z.ltb_spec (MAX - MAX mod (umax + 1) - 1) x); cbn; lia || done.
Qed.

Lemma reject_loop_spec n : forall count result st0 xs st, umax <> MAX -> Z.land (umax + 1) umax <> 0 ->
  draws bytes st0 (xs ++ [result]) st -> Forall (fun y => word_value bytes umax y = None) xs ->
  count = llen xs -> count + Z.of_nat n = 51 -> (0 < n)%nat -> engine_inv st ->
  exists v status st', reject_loop n bytes (umax + 1) (MAX - MAX mod (umax + 1) - 1) count result st = Some (v, status, st') /\
    range_outcome bytes umax st0 v status st'.
Proof.
  induction n as [|n IH]; intros count result st0 xs st Hne Hl Hd Hxs Hc Hn Hpos Hi; [lia|].
  unfold llen in Hc. cbn [reject_loop]. rewrite limit_accept by done.
  assert (word_value bytes umax result =
    if result <? (umax + 1) * (MAX / (umax + 1)) then Some (result mod (umax + 1)) else None) as Hv.
  { unfold word_value. replace (umax + 1 - 1) with umax by lia. by destruct (Z.eqb_spec (Z.land (umax + 1) umax) 0). }
  destruct (result <? _); cbn [negb].
  { eexists _, _, _. split; [reflexivity|]. eapply outcome_ok; [done|lia|done|done]. }
  assert (Forall (fun y => word_value bytes umax y = None) (xs ++ [result])) as Hxs' by (apply Forall_app; split; [done|by constructor]).
  unfold PHP_RANDOM_RANGE_ATTEMPTS. destruct (Z.ltb_spec 50 (count + 1)).
  { eexists _, _, _. split; [reflexivity|]. eapply outcome_broken; [done|rewrite length_app; cbn; lia|done]. }
  destruct (draw_ok bytes st Hb Hi) as (r & st1 & Hdr & Hi1 & Hr). rewrite Hdr. cbn [mbind option_bind].
  destruct r as [x|].
  - apply (IH _ _ _ (xs ++ [result])); try done; try lia; [by eapply draws_snoc|].
    unfold llen. rewrite length_app. cbn. lia.
  - eexists _, _, _. split; [reflexivity|]. eapply outcome_exception; [done|rewrite length_app; cbn; lia|done|done].
Qed.

Lemma range_w_spec st : engine_inv st -> exists v status st', range_w bytes umax st = Some (v, status, st') /\
  range_outcome bytes umax st v status st'.
Proof.
  intros Hi. unfold range_w. destruct (draw_ok bytes st Hb Hi) as (r & st1 & Hdr & Hi1 & Hr). rewrite Hdr. cbn [mbind option_bind].
  destruct r as [x|].
  2:{ eexists _, _, _. split; [reflexivity|]. by eapply (outcome_exception _ _ _ []); [constructor|cbn; lia|constructor|]. }
  specialize (Hr x eq_refl).
  assert (draws bytes st ([] ++ [x]) st1) as Hd by (econstructor; [done|constructor]).
  assert (forall v, word_value bytes umax x = Some v -> range_outcome bytes umax st v RangeOk st1) as Hok.
  { intros v Hv. eapply outcome_ok; [done|cbn; lia|constructor|done]. }
  unfold word_value in Hok. replace (umax + 1 - 1) with umax in Hok by lia.
  destruct (Z.eqb_spec umax MAX) as [->|Hne].
  { eexists _, _, _. split; [reflexivity|]. apply Hok. replace (MAX + 1) with (2 ^ (8 * bytes)) by lia.
    rewrite land_pred_mod, Z_mod_same_full by lia. cbn [Z.eqb]. by rewrite Z.mod_small. }
  assert (uw bytes (umax + 1) = umax + 1) as -> by (apply Z.mod_small; lia).
  assert (uw bytes (umax + 1 - 1) = umax) as -> by (unfold uw; rewrite Z.mod_small; lia).
  destruct (Z.eqb_spec (Z.land (umax + 1) umax) 0) as [Hl|Hl].
  { eexists _, _, _. split; [reflexivity|]. apply Hok. destruct (land_pred_pow2 (umax + 1)) as (k & Hk & Hp); [lia| |].
    - by replace (umax + 1 - 1) with umax by lia.
    - replace umax with (2 ^ k - 1) at 2 by lia. by rewrite land_pred_mod, Hp. }
  apply (reject_loop_spec 51 0 x st []); [done|done|exact Hd|constructor|done|lia|lia|done].
Qed.

Lemma outcome_range st v status st' : range_outcome bytes umax st v status st' -> 0 <= v <= umax.
Proof. destruct 1; [by eapply word_value_range|lia|lia]. Qed.

End Word.

(** every request for a number up to [umax] ends, in one of three ways:
    the value of the first acceptable word among at most 51 draws; an exception
    of the engine; or, after exactly 51 words that all had to be rejected, the
    error about a broken engine.  Words are taken in the order the engine
    produces them and none is skipped. *)
Theorem php_random_range_outcome umax st : engine_inv st ->
  (0 <= umax < 2 ^ 32 -> exists v status st', php_random_range32 umax st = Some (v, status, st') /\
     range_outcome 4 umax st v status st') /\
  (0 <= umax < 2 ^ 64 -> exists v status st', php_random_range64 umax st = Some (v, status, st') /\
     range_outcome 8 umax st v status st').
Proof. intros Hi. split; intros Hu; by apply range_w_spec. Qed.

(** [php_random_range] terminates and stays between the bounds for every
    pair of bounds of the platform, however far apart, on every engine, also
    when the request fails: then it returns the lower bound. *)
Theorem php_random_range_bounds min max st : engine_inv st ->
  ZEND_LONG_MIN <= min -> min <= max -> max <= ZEND_LONG_MAX ->
  exists v status st', php_random_range min max st = Some (v, status, st') /\
    min <= v <= max /\ (status <> RangeOk -> v = min).
Proof.
  intros Hi H1 H2 H3. unfold php_random_range. cbv zeta.
  assert (u64 (u64 max - u64 min) = max - min) as ->.
  { unfold u64, ZEND_LONG_MIN, ZEND_LONG_MAX in *. zlia. }
  assert (exists v status st', (if 2 ^ 32 - 1 <? max - min then php_random_range64 (max - min) st
     else php_random_range32 (max - min) st) = Some (v, status, st') /\ 0 <= v <= max - min /\
     (status <> RangeOk -> v = 0)) as (v & status & st' & -> & Hv & Hs).
  { destruct (Z.ltb_spec (2 ^ 32 - 1) (max - min)).
    - destruct (range_w_spec 8 (max - min) ltac:(lia) ltac:(unfold ZEND_LONG_MIN, ZEND_LONG_MAX in *; lia) st Hi)
        as (v & status & st' & Heq & Ho). exists v, status, st'. split; [exact Heq|].
      split; [|destruct Ho; congruence].
      eapply outcome_range, Ho. unfold ZEND_LONG_MIN, ZEND_LONG_MAX in *. lia.
    - destruct (range_w_spec 4 (max - min) ltac:(lia) ltac:(lia) st Hi)
        as (v & status & st' & Heq & Ho). exists v, status, st'. split; [exact Heq|].
      split; [|destruct Ho; congruence].
      eapply outcome_range, Ho. unfold ZEND_LONG_MIN, ZEND_LONG_MAX in *. lia. }
  cbn [mbind option_bind]. eexists _, _, _. split; [reflexivity|].
  assert (s64 (v + u64 min) = v + min) as ->.
  { unfold s64, u64, ZEND_LONG_MIN, ZEND_LONG_MAX in *. zlia. }
  split; [lia|]. intros Hst. rewrite (Hs Hst). lia.
Qed.

End Range.

(** * Uniformity *)

(** An engine that produces the words of a list and then throws. *)
Definition word_stream (bytes : Z) : php_random_algo (list Z * bool) := {|
  generate := fun st => match st with
    | ([], _) => (mk_result 0 bytes, ([], true))
    | (x :: s, e) => (mk_result (uw bytes x) bytes, (s, e))
    end;
  has_exception := snd
|}.

Lemma uw_u64 bytes z : bytes = 4 \/ bytes = 8 -> 0 <= uw bytes z < 2 ^ 64.
Proof.
  intros Hb. pose proof (uw_range bytes z ltac:(lia)). destruct Hb as [-> | ->]; [|done].
  change (8 * 4) with 32 in *. lia.
Qed.

Definition word_stream_ok bytes (Hb : bytes = 4 \/ bytes = 8) : @engine_ok _ (word_stream bytes).
Proof.
  refine (@Build_engine_ok _ (word_stream bytes) (fun _ => True) _ _ _); intros [[|x s] e] _; cbn; try lia; try done.
  by apply uw_u64.
Defined.

Section Uniform.
Context (bytes umax : Z) (Hb : bytes = 4 \/ bytes = 8) (Humax : 0 <= umax < 2 ^ (8 * bytes)).

(** How many words give each value. *)
Definition words_per_value : Z :=
  if Z.land (umax + 1) umax =? 0 then 2 ^ (8 * bytes) / (umax + 1) else (2 ^ (8 * bytes) - 1) / (umax + 1).

Lemma stream_draw x s : 0 <= x < 2 ^ (8 * bytes) ->
  draw (algo:=word_stream bytes) bytes (x :: s, false) = Some (Some x, (s, false)).
Proof.
  intros Hx. assert (uw bytes x = x) as E by (by apply Z.mod_small). unfold draw.
  destruct (Z.to_nat bytes) as [|n] eqn:En; [lia|]. cbn [draw_loop generate word_stream has_exception r_result r_size snd].
  rewrite E, Z.shiftl_0_r, E, Z.lor_0_l. destruct (Z.ltb_spec (0 + bytes) bytes); [lia|by rewrite ?E].
Qed.

Lemma stream_end : draw (algo:=word_stream bytes) bytes ([], false) = Some (None, ([], true)).
Proof. destruct Hb as [-> | ->]; reflexivity. Qed.

Lemma draws_single x xs st : 0 <= x < 2 ^ (8 * bytes) ->
  draws (algo:=word_stream bytes) bytes ([x], false) xs st ->
  (xs = [] /\ st = ([x], false)) \/ (xs = [x] /\ st = ([], false)).
Proof.
  intros Hx H. inversion H as [|? y st1 ys ? H1 H2]; subst; [by left|].
  rewrite stream_draw in H1 by done. injection H1 as <- <-. right.
  inversion H2 as [|? z ? ? ? H3 ?]; subst; [done|]. rewrite stream_end in H3. done.
Qed.

Lemma pow2_divides n k w : 0 <= k -> n = 2 ^ k -> n <= 2 ^ w -> 2 ^ w = n * (2 ^ w / n).
Proof.
  intros Hk Hp Hn. subst n. assert (0 < 2 ^ k) by (apply Z.pow_pos_nonneg; lia).
  destruct (Z.le_gt_cases 0 w) as [Hw|Hw]; [|rewrite (Z.pow_neg_r 2 w) in Hn by lia; lia].
  destruct (Z.le_gt_cases k w) as [Hkw|Hkw].
  - replace (2 ^ w) with (2 ^ k * 2 ^ (w - k)) by (rewrite <- Z.pow_add_r by lia; f_equal; lia).
    by rewrite (Z.mul_comm (2 ^ k) (2 ^ (w - k))), Z.div_mul, Z.mul_comm by lia.
  - assert (2 ^ w < 2 ^ k) by (apply Z.pow_lt_mono_r; lia). lia.
Qed.

Lemma word_value_words x v : 0 <= x < 2 ^ (8 * bytes) -> 0 <= v <= umax ->
  word_value bytes umax x = Some v <-> exists q, 0 <= q < words_per_value /\ x = q * (umax + 1) + v.
Proof.
  intros Hx Hv. unfold word_value, words_per_value. cbv zeta. replace (umax + 1 - 1) with umax by lia.
  set (n := umax + 1). assert (0 < n) by lia. pose proof (Z.div_mod x n ltac:(lia)).
  pose proof (Z.mod_pos_bound x n ltac:(lia)). pose proof (Z.div_pos x n ltac:(lia) ltac:(lia)).
  assert (forall q, x = q * n + v -> q = x / n /\ v = x mod n) as Huniq.
  { intros q Hq. split; [apply (Z.div_unique_pos x n q v); lia|apply (Z.mod_unique_pos x n q v); lia]. }
  destruct (Z.eqb_spec (Z.land n umax) 0) as [Hl|Hl].
  - destruct (land_pred_pow2 n ltac:(lia)) as (k & Hk & Hp); [by replace (n - 1) with umax by lia|].
    pose proof (pow2_divides n k (8 * bytes) Hk Hp ltac:(lia)) as Hq. split.
    + intros [= <-]. exists (x / n). split; [|lia]. split; [done|]. apply Z.div_lt_upper_bound; lia.
    + intros (q & _ & E). by destruct (Huniq q E) as [_ ->].
  - set (K := (2 ^ (8 * bytes) - 1) / n). destruct (Z.ltb_spec x (n * K)) as [Hlt|Hge]; split.
    + intros [= <-]. exists (x / n). split; [|lia]. split; [done|]. apply Z.div_lt_upper_bound; lia.
    + intros (q & _ & E). by destruct (Huniq q E) as [_ ->].
    + done.
    + intros (q & Hq & E). nia.
Qed.

Lemma range_single x v : 0 <= x < 2 ^ (8 * bytes) ->
  (exists st, range_w (algo:=word_stream bytes) bytes umax ([x], false) = Some (v, RangeOk, st)) <->
  word_value bytes umax x = Some v.
Proof.
  intros Hx. assert (0 < bytes) as Hb0 by (destruct Hb as [-> | ->]; lia).
  destruct (range_w_spec (ok:=word_stream_ok bytes Hb) bytes umax Hb0 Humax ([x], false) I) as (v' & status & st' & -> & Ho).
  inversion Ho as [xs y v'' st'' Hd Hl Hr Hv|xs st1 st'' Hd Hl Hr He|xs st'' Hd Hl Hr]; subst.
  - apply draws_single in Hd as [[Hd _]|[Hd _]]; [by destruct xs| |done].
    change [x] with ([] ++ [x]) in Hd. apply app_inj_tail in Hd as [_ ->]. split.
    + intros (st & [= <- _]). done.
    + intros Hv'. rewrite Hv in Hv'. injection Hv' as ->. by eexists.
  - split; [by intros (st & ?)|]. intros Hv. apply draws_single in Hd as [[-> ->]|[-> _]]; [| |done].
    + by rewrite stream_draw in He.
    + apply Forall_cons in Hr as [Hr _]. congruence.
  - apply draws_single in Hd as [[-> _]|[-> _]]; done.
Qed.

(** C34: the numbers are uniform.  Exactly [words_per_value] of the words that
    an engine can produce are turned into each number from 0 to [umax], so
    uniform words give uniform numbers; and at least half of all words are
    accepted, so that each attempt with uniform words succeeds with a
    probability of one half or more. *)
Theorem php_random_range_uniform v : 0 <= v <= umax ->
  (forall x, 0 <= x < 2 ^ (8 * bytes) ->
     (exists st, range_w (algo:=word_stream bytes) bytes umax ([x], false) = Some (v, RangeOk, st)) <->
     exists q, 0 <= q < words_per_value /\ x = q * (umax + 1) + v) /\
  2 ^ (8 * bytes) <= 2 * (words_per_value * (umax + 1)) <= 2 * 2 ^ (8 * bytes).
Proof.
  intros Hv. split; [intros x Hx; rewrite range_single by done; by apply word_value_words|].
  unfold words_per_value. set (n := umax + 1). assert (0 < n <= 2 ^ (8 * bytes)) as Hn by lia.
  destruct (Z.eqb_spec (Z.land n umax) 0) as [Hl|Hl].
  - destruct (land_pred_pow2 n ltac:(lia)) as (k & Hk & Hp); [by replace (n - 1) with umax by lia|].
    pose proof (pow2_divides n k (8 * bytes) Hk Hp ltac:(lia)) as Hd. lia.
  - assert (n <> 2 ^ (8 * bytes)).
    { intros E. apply Hl. replace umax with (2 ^ (8 * bytes) - 1) by lia. rewrite E.
      rewrite land_pred_mod by (destruct Hb as [-> | ->]; lia). apply Z_mod_same_full. }
    set (M := 2 ^ (8 * bytes) - 1) in *. pose proof (Z.div_mod M n ltac:(lia)).
    pose proof (Z.mod_pos_bound M n ltac:(lia)).
    assert (1 <= M / n) by (apply Z.div_le_lower_bound; lia).
    assert (2 ^ (8 * bytes) = M + 1) as -> by lia.
    assert (n * 1 <= n * (M / n)) by (apply Z.mul_le_mono_nonneg_l; lia).
    rewrite (Z.mul_comm (M / n)). lia.
Qed.
End Uniform.

(** * Concrete instances *)

(** Bounds 1 and 6 on words of which the first is above the limit. *)
Lemma php_random_range_bounds_witness :
  let algo := word_stream 4 in
  php_random_range (algo:=algo) 1 6 ([4294967295; 10; 3], false) = Some (5, RangeOk, ([3], false)) /\
  exists v status st', php_random_range (algo:=algo) 1 6 ([4294967295; 10; 3], false) = Some (v, status, st') /\
    1 <= v <= 6 /\ (status <> RangeOk -> v = 1).
Proof.
  intros algo. split; [vm_compute; reflexivity|].
  set (Hok := word_stream_ok 4 (or_introl eq_refl)).
  assert (ZEND_LONG_MIN <= 1) as H1 by (unfold ZEND_LONG_MIN; lia).
  assert (1 <= 6) as H2 by lia. assert (6 <= ZEND_LONG_MAX) as H3 by (unfold ZEND_LONG_MAX; lia).
  exact (php_random_range_bounds (ok:=Hok) 1 6 ([4294967295; 10; 3], false) I H1 H2 H3).
Defined.

Lemma php_random_range_outcome_witness :
  exists v status st', php_random_range32 (algo:=word_stream 4) 5 ([4294967295; 10; 3], false) = Some (v, status, st') /\
    range_outcome (algo:=word_stream 4) 4 5 ([4294967295; 10; 3], false) v status st'.
Proof.
  set (Hok := word_stream_ok 4 (or_introl eq_refl)).
  assert (0 <= 5 < 2 ^ 32) as H5 by lia.
  exact (proj1 (php_random_range_outcome (ok:=Hok) 5 ([4294967295; 10; 3], false) I) H5).
Defined.

Lemma php_random_range_uniform_witness :
  words_per_value 4 5 = 715827882 /\
  ((exists st, range_w (algo:=word_stream 4) 4 5 ([10], false) = Some (4, RangeOk, st)) <->
   exists q, 0 <= q < words_per_value 4 5 /\ 10 = q * (5 + 1) + 4).
Proof.
  split; [vm_compute; reflexivity|].
  assert (0 <= 5 < 2 ^ (8 * 4)) as H5 by lia. assert (0 <= 4 <= 5) as H4 by lia.
  assert (0 <= 10 < 2 ^ (8 * 4)) as H10 by lia.
  exact (proj1 (php_random_range_uniform 4 5 (or_introl eq_refl) H5 4 H4) 10 H10).
Defined.
