(* ===== verification/RandomPcg.v ===== *)
(** The PCG engine (src/ext/random/engine_pcgoneseq128xslrr64.c) and its
    128-bit arithmetic (src/ext/random/php_random_uint128.h), native and
    emulated with pairs of 64-bit words. *)

From stdpp Require Import base numbers list gmap.
From S2P Require Import Prelude.
From S2P Require Import RandomRange.

(** * 128-bit arithmetic, native: [__uint128_t] *)

Definition u128 (z : Z) : Z := z mod 2 ^ 128.

Module Native.
Definition php_random_uint128_t : Type := Z.
Definition php_random_uint128_hi (num : php_random_uint128_t) : Z := u64 (Z.shiftr num 64).
Definition php_random_uint128_lo (num : php_random_uint128_t) : Z := u64 num.
Definition php_random_uint128_constant (hi lo : Z) : php_random_uint128_t := u128 (u128 (Z.shiftl hi 64) + lo).
Definition php_random_uint128_add (num1 num2 : php_random_uint128_t) : php_random_uint128_t := u128 (num1 + num2).
Definition php_random_uint128_multiply (num1 num2 : php_random_uint128_t) : php_random_uint128_t := u128 (num1 * num2).
Definition php_random_pcgoneseq128xslrr64_rotr64 (num : php_random_uint128_t) : Z :=
  let v := Z.lxor (u64 (Z.shiftr num 64)) (u64 num) in
  let s := u64 (Z.shiftr num 122) in
  Z.lor (Z.shiftr v s) (u64 (Z.shiftl v (Z.land (u64 (- s)) 63))).
End Native.

(** * 128-bit arithmetic, emulated *)

Module Emulated.
Record php_random_uint128_t := mk_uint128 { hi : Z; lo : Z }.
Definition php_random_uint128_hi (num : php_random_uint128_t) : Z := hi num.
Definition php_random_uint128_lo (num : php_random_uint128_t) : Z := lo num.
Definition php_random_uint128_constant (h l : Z) : php_random_uint128_t := mk_uint128 h l.

Definition php_random_uint128_add (num1 num2 : php_random_uint128_t) : php_random_uint128_t :=
  let r_lo := u64 (lo num1 + lo num2) in
  mk_uint128 (u64 (hi num1 + hi num2 + (if r_lo <? lo num1 then 1 else 0))) r_lo.

Definition php_random_uint128_multiply (num1 num2 : php_random_uint128_t) : php_random_uint128_t :=
  let x0 := Z.land (lo num1) (2 ^ 32 - 1) in
  let x1 := Z.shiftr (lo num1) 32 in
  let y0 := Z.land (lo num2) (2 ^ 32 - 1) in
  let y1 := Z.shiftr (lo num2) 32 in
  let z0 := u64 (Z.land (u64 (u64 (x1 * y0) + Z.shiftr (u64 (x0 * y0)) 32)) (2 ^ 32 - 1) + u64 (x0 * y1)) in
  let r_hi := u64 (u64 (hi num1 * lo num2) + u64 (lo num1 * hi num2)) in
  let r_lo := u64 (lo num1 * lo num2) in
  mk_uint128
    (u64 (r_hi + u64 (u64 (u64 (x1 * y1) + Z.shiftr (u64 (u64 (x1 * y0) + Z.shiftr (u64 (x0 * y0)) 32)) 32)
                      + Z.shiftr z0 32)))
    r_lo.

Definition php_random_pcgoneseq128xslrr64_rotr64 (num : php_random_uint128_t) : Z :=
  let v := Z.lxor (hi num) (lo num) in
  let s := Z.shiftr (hi num) 58 in
  Z.lor (Z.shiftr v s) (u64 (Z.shiftl v (Z.land (u64 (- s)) 63))).

(** A pair of 64-bit words and the number it stands for. *)
Definition uint128_ok (num : php_random_uint128_t) : Prop := 0 <= hi num < 2 ^ 64 /\ 0 <= lo num < 2 ^ 64.
Definition uint128_val (num : php_random_uint128_t) : Z := hi num * 2 ^ 64 + lo num.
End Emulated.

(** * The engine *)

Definition PCG_MULT : Z := Native.php_random_uint128_constant 2549297995355413924 4865540595714422341.
Definition PCG_PLUS : Z := Native.php_random_uint128_constant 6364136223846793005 1442695040888963407.

Definition step (s : Z) : Z :=
  Native.php_random_uint128_add (Native.php_random_uint128_multiply s PCG_MULT) PCG_PLUS.

Definition php_random_pcgoneseq128xslrr64_seed128 (seed : Z) : Z :=
  let s := Native.php_random_uint128_constant 0 0 in
  let s := step s in
  let s := Native.php_random_uint128_add s seed in
  step s.

Definition pcg_generate (s : Z) : php_random_result * Z :=
  let s := step s in (mk_result (Native.php_random_pcgoneseq128xslrr64_rotr64 s) 8, s).

#[export] Instance pcgoneseq128xslrr64 : php_random_algo Z := {| generate := pcg_generate; has_exception := fun _ => false |}.

(** [while (advance > 0)]; [None]: out of fuel. *)
Fixpoint advance_loop (n : nat) (advance cur_mult cur_plus acc_mult acc_plus : Z) : option (Z * Z) :=
  if 0 <? advance then
    match n with
    | O => None
    | S n =>
        let '(acc_mult, acc_plus) :=
          if negb (Z.land advance 1 =? 0)
          then (Native.php_random_uint128_multiply acc_mult cur_mult,
                Native.php_random_uint128_add (Native.php_random_uint128_multiply acc_plus cur_mult) cur_plus)
          else (acc_mult, acc_plus) in
        let cur_plus := Native.php_random_uint128_multiply
          (Native.php_random_uint128_add cur_mult (Native.php_random_uint128_constant 0 1)) cur_plus in
        let cur_mult := Native.php_random_uint128_multiply cur_mult cur_mult in
        advance_loop n (advance / 2) cur_mult cur_plus acc_mult acc_plus
    end
  else Some (acc_mult, acc_plus).

Definition php_random_pcgoneseq128xslrr64_advance (s advance : Z) : option Z :=
  acc ← advance_loop 64 advance PCG_MULT PCG_PLUS (Native.php_random_uint128_constant 0 1)
          (Native.php_random_uint128_constant 0 0);
  Some (Native.php_random_uint128_add (Native.php_random_uint128_multiply acc.1 s) acc.2).

(** * Emulation *)

Lemma land_32 x : Z.land x (2 ^ 32 - 1) = x mod 2 ^ 32.
Proof. by rewrite (land_pred_mod x 32). Qed.

Lemma shiftr_32 x : Z.shiftr x 32 = x / 2 ^ 32.
Proof. by rewrite Z.shiftr_div_pow2. Qed.

(** The schoolbook high word of a 64-bit product. *)
Lemma mul_high_word a b : 0 <= a < 2 ^ 64 -> 0 <= b < 2 ^ 64 ->
  let x0 := a mod 2 ^ 32 in let x1 := a / 2 ^ 32 in let y0 := b mod 2 ^ 32 in let y1 := b / 2 ^ 32 in
  let A := x1 * y0 + x0 * y0 / 2 ^ 32 in
  let z0 := A mod 2 ^ 32 + x0 * y1 in
  0 <= A < 2 ^ 64 /\ 0 <= z0 < 2 ^ 64 /\ 0 <= x0 * y0 < 2 ^ 64 /\ 0 <= x1 * y0 < 2 ^ 64 /\ 0 <= x0 * y1 < 2 ^ 64 /\
  0 <= x1 * y1 < 2 ^ 64 /\ 0 <= x1 * y1 + A / 2 ^ 32 < 2 ^ 64 /\ x1 * y1 + A / 2 ^ 32 + z0 / 2 ^ 32 = a * b / 2 ^ 64.
Proof.
  intros Ha Hb x0 x1 y0 y1 A z0.
  assert (0 <= x0 < 2 ^ 32 /\ 0 <= x1 < 2 ^ 32 /\ a = x1 * 2 ^ 32 + x0) as (Hx0 & Hx1 & Ea) by (unfold x0, x1; zlia).
  assert (0 <= y0 < 2 ^ 32 /\ 0 <= y1 < 2 ^ 32 /\ b = y1 * 2 ^ 32 + y0) as (Hy0 & Hy1 & Eb) by (unfold y0, y1; zlia).
  clearbody x0 x1 y0 y1. subst a b. clear Ha Hb.
  assert (forall p q, 0 <= p < 2 ^ 32 -> 0 <= q < 2 ^ 32 -> 0 <= p * q <= 2 ^ 64 - 2 ^ 33 + 1) as Hpq.
  { intros p q Hp Hq. split; [lia|]. assert (p * q <= (2 ^ 32 - 1) * (2 ^ 32 - 1)) by (apply Z.mul_le_mono_nonneg; lia). lia. }
  pose proof (Hpq x0 y0 Hx0 Hy0). pose proof (Hpq x1 y0 Hx1 Hy0). pose proof (Hpq x0 y1 Hx0 Hy1). pose proof (Hpq x1 y1 Hx1 Hy1).
  assert ((x1 * 2 ^ 32 + x0) * (y1 * 2 ^ 32 + y0) = x1 * y1 * 2 ^ 64 + (x1 * y0 + x0 * y1) * 2 ^ 32 + x0 * y0) as -> by lia.
  revert z0. subst A. generalize dependent (x0 * y0). generalize dependent (x1 * y0). generalize dependent (x0 * y1).
  generalize dependent (x1 * y1). clear. intros p11 H11 p01 H01 p10 H10 p00 H00 z0.
  assert (x1_y1 : 0 <= p11) by lia. subst z0.
  pose proof (Z.div_mod p00 (2 ^ 32) ltac:(lia)). pose proof (Z.mod_pos_bound p00 (2 ^ 32) ltac:(lia)).
  set (A := p10 + p00 / 2 ^ 32). pose proof (Z.div_mod A (2 ^ 32) ltac:(lia)). pose proof (Z.mod_pos_bound A (2 ^ 32) ltac:(lia)).
  set (B := A mod 2 ^ 32 + p01) in *. pose proof (Z.div_mod B (2 ^ 32) ltac:(lia)). pose proof (Z.mod_pos_bound B (2 ^ 32) ltac:(lia)).
  assert (0 <= A < 2 ^ 64) by lia. assert (0 <= B < 2 ^ 64) by lia.
  do 6 (split; [lia|]). split; [lia|]. apply (Z.div_unique_pos _ _ _ (B mod 2 ^ 32 * 2 ^ 32 + p00 mod 2 ^ 32)); lia.
Qed.

Lemma u128_words h l : 0 <= l < 2 ^ 64 -> u128 (h * 2 ^ 64 + l) = u64 h * 2 ^ 64 + l.
Proof. intros. unfold u128, u64. zlia. Qed.

(** the arithmetic emulated with pairs of words on platforms without
    128-bit integers agrees with the native one: the sum, the product, the
    halves, and the output permutation of the engine. *)
Theorem php_random_uint128_emulated a b : Emulated.uint128_ok a -> Emulated.uint128_ok b ->
  let val := Emulated.uint128_val in
  Emulated.uint128_ok (Emulated.php_random_uint128_add a b) /\
  val (Emulated.php_random_uint128_add a b) = Native.php_random_uint128_add (val a) (val b) /\
  Emulated.uint128_ok (Emulated.php_random_uint128_multiply a b) /\
  val (Emulated.php_random_uint128_multiply a b) = Native.php_random_uint128_multiply (val a) (val b) /\
  Emulated.php_random_pcgoneseq128xslrr64_rotr64 a = Native.php_random_pcgoneseq128xslrr64_rotr64 (val a) /\
  Emulated.php_random_uint128_hi a = Native.php_random_uint128_hi (val a) /\
  Emulated.php_random_uint128_lo a = Native.php_random_uint128_lo (val a).
Proof.
  destruct a as [h1 l1], b as [h2 l2]. unfold Emulated.uint128_ok, Emulated.uint128_val. cbn [Emulated.hi Emulated.lo].
  intros [Hh1 Hl1] [Hh2 Hl2].
  assert (u64 (Z.shiftr (h1 * 2 ^ 64 + l1) 64) = h1) as Ehi.
  { rewrite Z.shiftr_div_pow2 by lia. unfold u64. zlia. }
  assert (u64 (h1 * 2 ^ 64 + l1) = l1) as Elo by (unfold u64; zlia).
  split; [split; apply u64_range|]. split.
  { unfold Emulated.php_random_uint128_add, Native.php_random_uint128_add. cbn [Emulated.hi Emulated.lo].
    unfold u128, u64. destruct (Z.ltb_spec ((l1 + l2) mod 2 ^ 64) l1); zlia. }
  split; [split; apply u64_range|]. split.
  { unfold Emulated.php_random_uint128_multiply, Native.php_random_uint128_multiply. cbn [Emulated.hi Emulated.lo].
    rewrite !land_32, !shiftr_32.
    destruct (mul_high_word l1 l2 Hl1 Hl2) as (H1 & H2 & H3 & H4 & H5 & H6 & H7 & H8).
    rewrite (u64_small (l1 / 2 ^ 32 * (l2 mod 2 ^ 32))) by done.
    rewrite (u64_small (l1 mod 2 ^ 32 * (l2 mod 2 ^ 32))) by done.
    rewrite (u64_small (l1 / 2 ^ 32 * (l2 mod 2 ^ 32) + _)) by done.
    rewrite (u64_small (l1 mod 2 ^ 32 * (l2 / 2 ^ 32))) by done.
    rewrite (u64_small ((l1 / 2 ^ 32 * (l2 mod 2 ^ 32) + _) mod 2 ^ 32 + _)) by done.
    rewrite (u64_small (l1 / 2 ^ 32 * (l2 / 2 ^ 32))) by done.
    rewrite (u64_small (l1 / 2 ^ 32 * (l2 / 2 ^ 32) + _)) by done. rewrite H8.
    destruct (u64_split (h1 * l2)) as [k1 ->]. destruct (u64_split (l1 * h2)) as [k2 ->].
    destruct (u64_split (l1 * l2 / 2 ^ 64)) as [k3 ->].
    destruct (u64_split (h1 * l2 + k1 * 2 ^ 64 + (l1 * h2 + k2 * 2 ^ 64))) as [k4 ->].
    rewrite <- u128_words by apply u64_range. unfold u128.
    assert (l1 * l2 = l1 * l2 / 2 ^ 64 * 2 ^ 64 + u64 (l1 * l2)) as E by (unfold u64; zlia).
    replace ((h1 * 2 ^ 64 + l1) * (h2 * 2 ^ 64 + l2)) with
      ((h1 * l2 + l1 * h2 + l1 * l2 / 2 ^ 64) * 2 ^ 64 + u64 (l1 * l2) + h1 * h2 * 2 ^ 128) by lia.
    rewrite Z_mod_plus_full. generalize (h1 * l2) (l1 * h2) (l1 * l2 / 2 ^ 64) (u64 (l1 * l2)). intros p q r s.
    replace ((p + k1 * 2 ^ 64 + (q + k2 * 2 ^ 64) + k4 * 2 ^ 64 + (r + k3 * 2 ^ 64)) * 2 ^ 64 + s) with
      ((p + q + r) * 2 ^ 64 + s + (k1 + k2 + k3 + k4) * 2 ^ 128) by lia.
    apply Z_mod_plus_full. }
  split; [|by split].
  unfold Emulated.php_random_pcgoneseq128xslrr64_rotr64, Native.php_random_pcgoneseq128xslrr64_rotr64.
  cbn [Emulated.hi Emulated.lo]. rewrite Ehi, Elo.
  replace (u64 (Z.shiftr (h1 * 2 ^ 64 + l1) 122)) with (Z.shiftr h1 58); [done|].
  rewrite !Z.shiftr_div_pow2 by lia. unfold u64. zlia.
Qed.

(** * Advancing *)

(** The affine map [x -> m * x + p] is [k] steps. *)
Definition steps (k : nat) (m p : Z) : Prop := forall s, u128 (m * s + p) = u128 (Nat.iter k step s).

Lemma u128_mod_l a b : u128 (u128 a + b) = u128 (a + b).
Proof. unfold u128. by rewrite Zplus_mod_idemp_l. Qed.
Lemma u128_mod_r a b : u128 (a + u128 b) = u128 (a + b).
Proof. unfold u128. by rewrite Zplus_mod_idemp_r. Qed.
Lemma u128_mul_l a b : u128 (u128 a * b) = u128 (a * b).
Proof. unfold u128. by rewrite Zmult_mod_idemp_l. Qed.
Lemma u128_mul_r a b : u128 (a * u128 b) = u128 (a * b).
Proof. unfold u128. by rewrite Zmult_mod_idemp_r. Qed.
Lemma u128_idemp a : u128 (u128 a) = u128 a.
Proof. unfold u128. by rewrite Zmod_mod. Qed.

Lemma step_affine s : step s = u128 (PCG_MULT * s + PCG_PLUS).
Proof.
  unfold step, Native.php_random_uint128_add, Native.php_random_uint128_multiply. by rewrite u128_mod_l, Z.mul_comm.
Qed.

Lemma step_u128 s : step (u128 s) = step s.
Proof. rewrite !step_affine. rewrite <- u128_mod_l, u128_mul_r, u128_mod_l. done. Qed.

Lemma iter_u128 k s : u128 (Nat.iter k step (u128 s)) = u128 (Nat.iter k step s).
Proof.
  destruct k as [|k]; [by cbn; rewrite u128_idemp|]. rewrite !Nat.iter_succ_r, step_u128. done.
Qed.

Lemma steps_one : steps 1 PCG_MULT PCG_PLUS.
Proof. intros s. cbn. by rewrite step_affine, u128_idemp. Qed.

Lemma steps_zero : steps 0 1 0.
Proof. intros s. cbn. f_equal. lia. Qed.

Lemma steps_congr k m p m' p' : u128 m = u128 m' -> u128 p = u128 p' -> steps k m p -> steps k m' p'.
Proof.
  intros Hm Hp H s. rewrite <- (H s). rewrite <- u128_mod_r, <- Hp, u128_mod_r.
  by rewrite <- u128_mod_l, <- u128_mul_l, <- Hm, u128_mul_l, u128_mod_l.
Qed.

(** Composition. *)
Lemma steps_add k1 m1 p1 k2 m2 p2 : steps k1 m1 p1 -> steps k2 m2 p2 -> steps (k1 + k2) (m1 * m2) (p1 * m2 + p2).
Proof.
  intros H1 H2 s. replace (m1 * m2 * s + (p1 * m2 + p2)) with (m2 * (m1 * s + p1) + p2) by lia.
  rewrite Nat.add_comm, Nat.iter_add. rewrite <- (iter_u128 k2 (Nat.iter k1 step s)), <- (H1 s), iter_u128.
  apply H2.
Qed.

Lemma advance_loop_spec total n : forall adv cm cp am ap c a, 0 <= adv < 2 ^ Z.of_nat n ->
  steps c cm cp -> steps a am ap -> (a + c * Z.to_nat adv)%nat = total ->
  exists m p, advance_loop n adv cm cp am ap = Some (m, p) /\ steps total m p.
Proof.
  induction n as [|n IH]; intros adv cm cp am ap c a Hadv Hc Ha Ht; cbn [advance_loop];
    destruct (Z.ltb_spec 0 adv) as [Hpos|Hpos].
  - cbn in Hadv. lia.
  - exists am, ap. split; [done|]. assert (adv = 0) as -> by lia. by rewrite Nat.mul_0_r, Nat.add_0_r in Ht; subst.
  - assert (2 ^ Z.of_nat (S n) = 2 * 2 ^ Z.of_nat n) as Hp by (rewrite Nat2Z.inj_succ, Z.pow_succ_r by lia; done).
    assert (Z.land adv 1 = adv mod 2) as -> by (change 1 with (Z.ones 1); by rewrite Z.land_ones).
    pose proof (Z.div_mod adv 2 ltac:(lia)) as Hdm. pose proof (Z.mod_pos_bound adv 2 ltac:(lia)).
    assert (steps (c + c) (Native.php_random_uint128_multiply cm cm)
      (Native.php_random_uint128_multiply (Native.php_random_uint128_add cm (Native.php_random_uint128_constant 0 1)) cp)) as Hc2.
    { pose proof (steps_add _ _ _ _ _ _ Hc Hc) as H2. eapply steps_congr, H2;
        unfold Native.php_random_uint128_multiply, Native.php_random_uint128_add; rewrite u128_idemp; [done|].
      change (Native.php_random_uint128_constant 0 1) with 1. rewrite u128_mul_l. f_equal. lia. }
    destruct (Z.eqb_spec (adv mod 2) 0) as [Hm|Hm]; cbn [negb].
    + apply (IH _ _ _ _ _ (c + c)%nat a); try done; [lia|]. rewrite <- Ht. nia.
    + apply (IH _ _ _ _ _ (c + c)%nat (a + c)%nat); try done; [lia| |].
      * pose proof (steps_add _ _ _ _ _ _ Ha Hc) as H2. eapply steps_congr, H2;
          unfold Native.php_random_uint128_multiply, Native.php_random_uint128_add; rewrite u128_idemp; [done|].
        by rewrite u128_mod_l.
      * rewrite <- Ht. nia.
  - exists am, ap. split; [done|]. assert (adv = 0) as -> by lia. by rewrite Nat.mul_0_r, Nat.add_0_r in Ht; subst.
Qed.

(** C35: advancing the engine by any 64-bit distance, in at most 64 rounds of
    squaring, reaches exactly the state of that many single steps. *)
Theorem php_random_pcgoneseq128xslrr64_advance_correct s advance : 0 <= s < 2 ^ 128 -> 0 <= advance < 2 ^ 64 ->
  php_random_pcgoneseq128xslrr64_advance s advance = Some (Nat.iter (Z.to_nat advance) step s).
Proof.
  intros Hs Ha. unfold php_random_pcgoneseq128xslrr64_advance.
  destruct (advance_loop_spec (Z.to_nat advance) 64 advance PCG_MULT PCG_PLUS
    (Native.php_random_uint128_constant 0 1) (Native.php_random_uint128_constant 0 0) 1 0)
    as (m & p & -> & Hst); [done|apply steps_one|apply steps_zero|lia|].
  cbn [mbind option_bind fst snd]. unfold Native.php_random_uint128_add, Native.php_random_uint128_multiply.
  rewrite u128_mod_l, (Hst s). f_equal. destruct (Z.to_nat advance) as [|k].
  - by apply Z.mod_small.
  - cbn. by rewrite step_affine, u128_idemp.
Qed.

(** * The engine as an engine *)

#[export, refine] Instance pcg_ok : engine_ok Z := {| engine_inv := fun _ => True |}.
Proof.
  all: intros s _. 1-2: done. cbn [generate pcgoneseq128xslrr64 pcg_generate fst r_result].
  unfold Native.php_random_pcgoneseq128xslrr64_rotr64. generalize (step s). intros t.
  set (v := Z.lxor _ _). assert (0 <= v < 2 ^ 64) as Hv.
  { apply lxor_range; [lia|apply u64_range|apply u64_range]. }
  apply (lor_range _ _ 64); [lia| |apply u64_range].
  rewrite Z.shiftr_div_pow2 by apply u64_range. pose proof (u64_range (Z.shiftr t 122)).
  assert (0 < 2 ^ u64 (Z.shiftr t 122)) by (apply Z.pow_pos_nonneg; lia).
  split; [apply Z.div_pos; lia|]. apply Z.div_lt_upper_bound; [done|]. nia.
Defined.

(** * Concrete instances *)

Lemma php_random_pcgoneseq128xslrr64_advance_correct_witness :
  php_random_pcgoneseq128xslrr64_advance 42 5 = Some (Nat.iter 5 step 42) /\
  php_random_pcgoneseq128xslrr64_advance 42 1000000 = Some (Nat.iter (Z.to_nat 1000000) step 42).
Proof.
  assert (0 <= 42 < 2 ^ 128) as Hs by lia. assert (0 <= 5 < 2 ^ 64) as H5 by lia. assert (0 <= 1000000 < 2 ^ 64) as Hm by lia.
  split; [exact (php_random_pcgoneseq128xslrr64_advance_correct 42 5 Hs H5)|].
  exact (php_random_pcgoneseq128xslrr64_advance_correct 42 1000000 Hs Hm).
Defined.

Lemma php_random_uint128_emulated_witness :
  let a := Emulated.mk_uint128 12345678901234567890 9876543210987654321 in
  let b := Emulated.mk_uint128 2549297995355413924 4865540595714422341 in
  Emulated.uint128_val (Emulated.php_random_uint128_multiply a b) =
    Native.php_random_uint128_multiply (Emulated.uint128_val a) (Emulated.uint128_val b).
Proof.
  intros a b.
  assert (Emulated.uint128_ok a) as Ha by (unfold Emulated.uint128_ok; cbn; lia).
  assert (Emulated.uint128_ok b) as Hb by (unfold Emulated.uint128_ok; cbn; lia).
  destruct (php_random_uint128_emulated a b Ha Hb) as (_ & _ & _ & H & _). exact H.
Defined.
