(* ===== verification/RandomXoshiro.v ===== *)
(** The xoshiro256** engine (src/ext/random/engine_xoshiro256starstar.c):
    seeding with splitmix64, generation and jumps. *)

From stdpp Require Import base numbers list gmap.
From S2P Require Import Prelude.
From S2P Require Import RandomRange.

(** * The engine *)

Record xoshiro := mk_xoshiro { st0 : Z; st1 : Z; st2 : Z; st3 : Z }.

(** The output and the advanced seed. *)
Definition splitmix64 (seed : Z) : Z * Z :=
  let seed := u64 (seed + 0x9e3779b97f4a7c15) in
  let r := seed in
  let r := u64 (Z.lxor r (Z.shiftr r 30) * 0xbf58476d1ce4e5b9) in
  let r := u64 (Z.lxor r (Z.shiftr r 27) * 0x94d049bb133111eb) in
  (Z.lxor r (Z.shiftr r 31), seed).

Definition rotl (x k : Z) : Z := Z.lor (u64 (Z.shiftl x k)) (Z.shiftr x (64 - k)).

Definition generate_state (s : xoshiro) : Z * xoshiro :=
  let r := u64 (rotl (u64 (st1 s * 5)) 7 * 9) in
  let t := u64 (Z.shiftl (st1 s) 17) in
  let s2 := Z.lxor (st2 s) (st0 s) in
  let s3 := Z.lxor (st3 s) (st1 s) in
  let s1 := Z.lxor (st1 s) s2 in
  let s0 := Z.lxor (st0 s) s3 in
  let s2 := Z.lxor s2 t in
  let s3 := rotl s3 45 in
  (r, mk_xoshiro s0 s1 s2 s3).

Definition php_random_xoshiro256starstar_seed256 (s0 s1 s2 s3 : Z) : xoshiro := mk_xoshiro s0 s1 s2 s3.

Definition php_random_xoshiro256starstar_seed64 (seed : Z) : xoshiro :=
  let (s0, seed) := splitmix64 seed in
  let (s1, seed) := splitmix64 seed in
  let (s2, seed) := splitmix64 seed in
  let (s3, seed) := splitmix64 seed in
  php_random_xoshiro256starstar_seed256 s0 s1 s2 s3.

Definition xor_state (a b : xoshiro) : xoshiro :=
  mk_xoshiro (Z.lxor (st0 a) (st0 b)) (Z.lxor (st1 a) (st1 b)) (Z.lxor (st2 a) (st2 b)) (Z.lxor (st3 a) (st3 b)).

(** The loop over the 64 bits of one word of the polynomial, and over its words. *)
Fixpoint jump_bits (n : nat) (j w : Z) (acc state : xoshiro) : xoshiro * xoshiro :=
  match n with
  | O => (acc, state)
  | S n =>
      let acc := if negb (Z.land w (Z.shiftl 1 j) =? 0) then xor_state acc state else acc in
      jump_bits n (j + 1) w acc (generate_state state).2
  end.
Fixpoint jump_words (jmp : list Z) (acc state : xoshiro) : xoshiro * xoshiro :=
  match jmp with
  | [] => (acc, state)
  | w :: jmp => let (acc, state) := jump_bits 64 0 w acc state in jump_words jmp acc state
  end.
Definition jump (state : xoshiro) (jmp : list Z) : xoshiro := (jump_words jmp (mk_xoshiro 0 0 0 0) state).1.

Definition php_random_xoshiro256starstar_jump (state : xoshiro) : xoshiro :=
  jump state [0x180ec6d33cfd0aba; 0xd5a61266f0c9392c; 0xa9582618e03fc9aa; 0x39abdc4529b1661c].
Definition php_random_xoshiro256starstar_jump_long (state : xoshiro) : xoshiro :=
  jump state [0x76e15d3efefdcbbf; 0xc5004e441c522fb3; 0x77710069854ee241; 0x39109bb02acbe635].

Definition xoshiro_generate (s : xoshiro) : php_random_result * xoshiro :=
  let (r, s) := generate_state s in (mk_result r 8, s).

#[export] Instance xoshiro256starstar : php_random_algo xoshiro :=
  {| generate := xoshiro_generate; has_exception := fun _ => false |}.

(** * Linear operations on words *)

Definition word (z : Z) : Prop := 0 <= z < 2 ^ 64.
Definition words (s : xoshiro) : Prop := word (st0 s) /\ word (st1 s) /\ word (st2 s) /\ word (st3 s).
Definition nonzero (s : xoshiro) : Prop := s <> mk_xoshiro 0 0 0 0.

Lemma word_u64 z : word (u64 z).
Proof. apply u64_range. Qed.

Lemma word_lxor a b : word a -> word b -> word (Z.lxor a b).
Proof. intros. by apply lxor_range. Qed.

Lemma word_shiftr x k : word x -> 0 <= k -> word (Z.shiftr x k).
Proof.
  intros [H1 H2] Hk. rewrite Z.shiftr_div_pow2 by done. assert (0 < 2 ^ k) by (apply Z.pow_pos_nonneg; lia).
  split; [apply Z.div_pos; lia|]. apply Z.div_lt_upper_bound; [done|]. nia.
Qed.

Lemma word_rotl x k : word x -> 0 <= k <= 64 -> word (rotl x k).
Proof. intros Hx Hk. apply lor_range; [lia|apply word_u64|apply word_shiftr; [done|lia]]. Qed.

#[local] Hint Resolve word_u64 word_lxor word_shiftr word_rotl : nano.

(** Bits of a truncated left shift. *)
Lemma u64_shiftl_spec x k i : 0 <= k -> 0 <= i ->
  Z.testbit (u64 (Z.shiftl x k)) i = (i <? 64) && Z.testbit x (i - k).
Proof.
  intros Hk Hi. unfold u64. destruct (Z.ltb_spec i 64); cbn [andb].
  - rewrite Z.mod_pow2_bits_low by lia. by rewrite Z.shiftl_spec.
  - by rewrite Z.mod_pow2_bits_high by lia.
Qed.

Lemma rotl_lxor a b k : word a -> word b -> 0 <= k <= 64 -> rotl (Z.lxor a b) k = Z.lxor (rotl a k) (rotl b k).
Proof.
  unfold word. intros Ha Hb Hk. apply Z.bits_inj'. intros i Hi. unfold rotl.
  rewrite Z.lxor_spec, !Z.lor_spec, !u64_shiftl_spec, !Z.shiftr_spec, !Z.lxor_spec by lia.
  destruct (Z.ltb_spec i 64); cbn [andb orb]; [|done].
  destruct (Z.ltb_spec i k).
  - rewrite !(Z.testbit_neg_r _ (i - k)) by lia. by cbn.
  - assert (forall x, 0 <= x < 2 ^ 64 -> Z.testbit x (i + (64 - k)) = false) as Hz.
    { intros x Hx. destruct (decide (x = 0)) as [->|]; [apply Z.bits_0|]. apply Z.bits_above_log2; [lia|].
      assert (Z.log2 x < 64) by (apply Z.log2_lt_pow2; lia). lia. }
    rewrite (Hz a), (Hz b) by done. by rewrite !orb_false_r.
Qed.

Lemma u64_shiftl_lxor a b k : 0 <= k -> u64 (Z.shiftl (Z.lxor a b) k) = Z.lxor (u64 (Z.shiftl a k)) (u64 (Z.shiftl b k)).
Proof.
  intros Hk. apply Z.bits_inj'. intros i Hi. rewrite Z.lxor_spec, !u64_shiftl_spec, Z.lxor_spec by lia.
  by destruct (i <? 64).
Qed.

(** * Injectivity *)

Lemma lxor_shiftr_zero d k : 0 <= d -> 0 < k -> d = Z.shiftr d k -> d = 0.
Proof.
  intros Hd Hk E. rewrite Z.shiftr_div_pow2 in E by lia. assert (2 ^ 1 <= 2 ^ k) by (apply Z.pow_le_mono_r; lia).
  destruct (decide (d = 0)) as [|Hn]; [done|]. assert (d / 2 ^ k < d) by (apply Z.div_lt; lia). lia.
Qed.

Lemma xorshift_inj x y k : 0 <= x -> 0 <= y -> 0 < k ->
  Z.lxor x (Z.shiftr x k) = Z.lxor y (Z.shiftr y k) -> x = y.
Proof.
  intros Hx Hy Hk E. apply Z.lxor_eq. apply (lxor_shiftr_zero _ k); [apply Z.lxor_nonneg; lia|done|].
  apply Z.lxor_eq. rewrite Z.shiftr_lxor.
  transitivity (Z.lxor (Z.lxor x (Z.shiftr x k)) (Z.lxor y (Z.shiftr y k))); [|by rewrite E, Z.lxor_nilpotent].
  apply Z.bits_inj'. intros i _. rewrite !Z.lxor_spec.
  destruct (Z.testbit x i), (Z.testbit y i), (Z.testbit (Z.shiftr x k) i), (Z.testbit (Z.shiftr y k) i); done.
Qed.

(** Multiplication by an odd number, given its inverse. *)
Lemma mul_odd_inj c inv x y : u64 (inv * c) = 1 -> word x -> word y -> u64 (x * c) = u64 (y * c) -> x = y.
Proof.
  unfold word, u64. intros Hinv Hx Hy E.
  assert (forall z, 0 <= z < 2 ^ 64 -> z = inv * (z * c mod 2 ^ 64) mod 2 ^ 64) as Hz.
  { intros z Hz. rewrite Zmult_mod_idemp_r. replace (inv * (z * c)) with (z * (inv * c)) by lia.
    rewrite <- Zmult_mod_idemp_r, Hinv, Z.mul_1_r. by rewrite Z.mod_small. }
  rewrite (Hz x Hx), (Hz y Hy). by rewrite E.
Qed.

Lemma splitmix_inj a b : (splitmix64 a).1 = (splitmix64 b).1 -> u64 a = u64 b.
Proof.
  unfold splitmix64. cbn [fst]. set (x := u64 (a + _)). set (y := u64 (b + _)).
  assert (word x) by apply word_u64. assert (word y) by apply word_u64.
  intros E. apply xorshift_inj in E; [|apply u64_range|apply u64_range|lia].
  apply (mul_odd_inj _ 0x319642b2d24d8ec3) in E; [|vm_compute; reflexivity|auto with nano|auto with nano].
  2: { apply word_lxor; [apply word_u64|]. apply word_shiftr; [apply word_u64|lia]. }
  2: { apply word_lxor; [apply word_u64|]. apply word_shiftr; [apply word_u64|lia]. }
  apply xorshift_inj in E; [|apply u64_range|apply u64_range|lia].
  apply (mul_odd_inj _ 0x96de1b173f119089) in E; [|vm_compute; reflexivity| |].
  2: { apply word_lxor; [done|]. apply word_shiftr; [done|lia]. }
  2: { apply word_lxor; [done|]. apply word_shiftr; [done|lia]. }
  apply xorshift_inj in E; [|apply u64_range|apply u64_range|lia].
  unfold x, y, u64 in *. zlia.
Qed.

Lemma word_splitmix seed : word (splitmix64 seed).1.
Proof.
  unfold splitmix64. cbn [fst]. apply word_lxor; [apply word_u64|]. apply word_shiftr; [apply word_u64|lia].
Qed.

(** * The state is never zero *)

(** States that seeding and generation reach. *)
Inductive reachable : xoshiro -> Prop :=
| reach_seed64 seed : word seed -> reachable (php_random_xoshiro256starstar_seed64 seed)
| reach_seed256 s0 s1 s2 s3 : words (mk_xoshiro s0 s1 s2 s3) -> nonzero (mk_xoshiro s0 s1 s2 s3) ->
    reachable (php_random_xoshiro256starstar_seed256 s0 s1 s2 s3)
| reach_generate s : reachable s -> reachable (xoshiro_generate s).2.

Lemma seed64_ok seed : word seed ->
  words (php_random_xoshiro256starstar_seed64 seed) /\ nonzero (php_random_xoshiro256starstar_seed64 seed).
Proof.
  intros Hs. unfold php_random_xoshiro256starstar_seed64, php_random_xoshiro256starstar_seed256.
  destruct (splitmix64 seed) as [a sa] eqn:Ea. destruct (splitmix64 sa) as [b sb] eqn:Eb.
  destruct (splitmix64 sb) as [c sc] eqn:Ec. destruct (splitmix64 sc) as [d sd] eqn:Ed.
  pose proof (word_splitmix seed) as Ha. rewrite Ea in Ha. pose proof (word_splitmix sa) as Hb. rewrite Eb in Hb.
  pose proof (word_splitmix sb) as Hc. rewrite Ec in Hc. pose proof (word_splitmix sc) as Hd. rewrite Ed in Hd.
  split; [done|]. intros [= -> -> _ _].
  assert (u64 seed = u64 sa) as E by (apply splitmix_inj; by rewrite Ea, Eb).
  assert (sa = u64 (seed + 0x9e3779b97f4a7c15)) as -> by (unfold splitmix64 in Ea; congruence).
  unfold u64 in E. zlia.
Qed.

Lemma generate_words s : words s -> words (generate_state s).2 /\ word (generate_state s).1.
Proof.
  intros (H0 & H1 & H2 & H3). unfold generate_state, words. cbn [fst snd st0 st1 st2 st3].
  split; [|apply word_u64]. repeat split; repeat first [apply word_rotl; [|lia]|apply word_lxor]; try done; apply word_u64.
Qed.

Lemma rotl_zero x k : word x -> 0 < k < 64 -> rotl x k = 0 -> x = 0.
Proof.
  intros Hx Hk H. unfold rotl in H. apply Z.lor_eq_0_iff in H as [Hl Hr]. unfold word in Hx.
  rewrite Z.shiftr_div_pow2 in Hr by lia. rewrite Z.shiftl_mul_pow2 in Hl by lia.
  pose proof (Z.div_mod x (2 ^ (64 - k)) ltac:(lia)) as Hd.
  assert (0 < 2 ^ (64 - k)) by (apply Z.pow_pos_nonneg; lia). assert (0 < 2 ^ k) by (apply Z.pow_pos_nonneg; lia).
  pose proof (Z.mod_pos_bound x (2 ^ (64 - k)) ltac:(lia)).
  assert (2 ^ 64 = 2 ^ (64 - k) * 2 ^ k) as Hp by (rewrite <- Z.pow_add_r by lia; f_equal; lia).
  unfold u64 in Hl. rewrite Z.mod_small in Hl; nia.
Qed.

Lemma shift_fixed x : word x -> x = u64 (Z.shiftl x 17) -> x = 0.
Proof.
  intros Hx E. apply (mul_odd_inj (2 ^ 17 - 1) 0xfff7fffbfffdffff); [vm_compute; reflexivity|done|split; lia|].
  rewrite Z.shiftl_mul_pow2 in E by lia. unfold word, u64 in *. zlia.
Qed.

Lemma generate_nonzero s : words s -> nonzero s -> nonzero (generate_state s).2.
Proof.
  intros (H0 & H1 & H2 & H3) Hn Hz. apply Hn. unfold generate_state in Hz. cbn [snd] in Hz.
  destruct s as [a b c d]. cbn [st0 st1 st2 st3] in *. injection Hz as E0 E1 E2 E3.
  apply rotl_zero in E3; [|by apply word_lxor|lia]. rewrite E3, Z.lxor_0_r in E0. subst a.
  rewrite Z.lxor_0_r in *. apply Z.lxor_eq in E1. subst c. apply Z.lxor_eq in E2.
  apply shift_fixed in E2; [|done]. subst b. rewrite Z.lxor_0_r in E3. by subst d.
Qed.

Lemma xoshiro_reachable_ok s : reachable s ->
  words s /\ nonzero s /\ word (r_result (xoshiro_generate s).1).
Proof.
  assert (forall s, (xoshiro_generate s).2 = (generate_state s).2 /\
    r_result (xoshiro_generate s).1 = (generate_state s).1) as Hg.
  { intros t. unfold xoshiro_generate. by destruct (generate_state t). }
  intros Hr. assert (words s /\ nonzero s) as [Hw Hn].
  { induction Hr as [seed Hs|s0 s1 s2 s3 Hw Hn|s Hr [Hw Hn]]; [by apply seed64_ok|done|].
    rewrite (proj1 (Hg s)). split; [by apply generate_words|by apply generate_nonzero]. }
  split; [done|]. split; [done|]. rewrite (proj2 (Hg s)). by apply generate_words.
Qed.

(** From every seed, the 256-bit state of the engine never becomes the
    fixed point zero, keeps to 64-bit words, and yields 64-bit outputs.  In
    particular the expansion of a 64-bit seed, which the constructor does not
    check, cannot produce the forbidden state. *)
Theorem xoshiro_state_invariant s : reachable s ->
  words s /\ nonzero s /\ word (r_result (xoshiro_generate s).1).
Proof. apply xoshiro_reachable_ok. Qed.

(** * Jumps *)

Lemma generate_linear a b : words a -> words b ->
  (generate_state (xor_state a b)).2 = xor_state (generate_state a).2 (generate_state b).2.
Proof.
  intros (A0 & A1 & A2 & A3) (B0 & B1 & B2 & B3). unfold generate_state, xor_state. cbn [snd st0 st1 st2 st3].
  f_equal; try (apply Z.bits_inj'; intros i Hi; rewrite ?u64_shiftl_lxor by lia; rewrite !Z.lxor_spec;
    repeat match goal with |- context [Z.testbit ?x i] => destruct (Z.testbit x i) end; done).
  rewrite <- rotl_lxor by (lia || by apply word_lxor). f_equal.
  apply Z.bits_inj'; intros i Hi; rewrite !Z.lxor_spec.
  repeat match goal with |- context [Z.testbit ?x i] => destruct (Z.testbit x i) end; done.
Qed.

Lemma xor_words a b : words a -> words b -> words (xor_state a b).
Proof. intros (A0 & A1 & A2 & A3) (B0 & B1 & B2 & B3). unfold words, xor_state. cbn [st0 st1 st2 st3]. auto using word_lxor. Qed.

Definition next (s : xoshiro) : xoshiro := (generate_state s).2.

Lemma next_words s : words s -> words (next s).
Proof. intros H. by apply generate_words. Qed.

Lemma jump_bits_next n : forall j w acc s, words acc -> words s ->
  words (jump_bits n j w acc s).1 /\ words (jump_bits n j w acc s).2 /\
  jump_bits n j w (next acc) (next s) = (next (jump_bits n j w acc s).1, next (jump_bits n j w acc s).2).
Proof.
  induction n as [|n IH]; intros j w acc s Ha Hs; cbn [jump_bits]; [done|].
  fold (next s). fold (next (next s)). destruct (negb _).
  - destruct (IH (j + 1) w (xor_state acc s) (next s)) as (H1 & H2 & H3); [by apply xor_words|by apply next_words|].
    split; [done|]. split; [done|]. rewrite <- H3. f_equal. symmetry. by apply generate_linear.
  - apply IH; [done|by apply next_words].
Qed.

Lemma jump_words_next jmp : forall acc s, words acc -> words s ->
  words (jump_words jmp acc s).1 /\ words (jump_words jmp acc s).2 /\
  jump_words jmp (next acc) (next s) = (next (jump_words jmp acc s).1, next (jump_words jmp acc s).2).
Proof.
  induction jmp as [|w jmp IH]; intros acc s Ha Hs; cbn [jump_words]; [done|].
  destruct (jump_bits_next 64 0 w acc s Ha Hs) as (H1 & H2 & H3). rewrite H3.
  destruct (jump_bits 64 0 w acc s) as [acc' s']. by apply IH.
Qed.

(** A jump commutes with generation: after a jump the engine goes through the
    jumped images of the states it would have gone through. *)
Theorem xoshiro_jump_generate s jmp : words s ->
  words (jump s jmp) /\ jump (xoshiro_generate s).2 jmp = (xoshiro_generate (jump s jmp)).2.
Proof.
  intros Hs. assert (words (mk_xoshiro 0 0 0 0)) as H0 by (unfold words, word; cbn [st0 st1 st2 st3]; lia).
  destruct (jump_words_next jmp (mk_xoshiro 0 0 0 0) s H0 Hs) as (H1 & _ & H3). split; [done|].
  assert (forall t, (xoshiro_generate t).2 = next t) as E by (intros t; unfold xoshiro_generate, next; by destruct (generate_state t)).
  rewrite !E. unfold jump. change (mk_xoshiro 0 0 0 0) with (next (mk_xoshiro 0 0 0 0)) at 1. by rewrite H3.
Qed.

(** * The engine as an engine *)

#[export, refine] Instance xoshiro_ok : engine_ok xoshiro := {| engine_inv := reachable |}.
Proof.
  - intros s. apply reach_generate.
  - done.
  - intros s Hs. apply (xoshiro_reachable_ok s Hs).
Defined.

(** Five steps from the seed 42. *)
Lemma xoshiro_state_invariant_witness :
  let s := Nat.iter 5 (fun s => (xoshiro_generate s).2) (php_random_xoshiro256starstar_seed64 42) in
  words s /\ nonzero s /\ word (r_result (xoshiro_generate s).1).
Proof.
  assert (forall n, reachable (Nat.iter n (fun s => (xoshiro_generate s).2) (php_random_xoshiro256starstar_seed64 42))) as Hr.
  { induction n as [|n IH]; [apply reach_seed64; unfold word; lia|]. by apply reach_generate. }
  exact (xoshiro_state_invariant (Nat.iter 5 (fun s => (xoshiro_generate s).2) (php_random_xoshiro256starstar_seed64 42)) (Hr 5%nat)).
Defined.
