(* ===== verification/RandomMt.v ===== *)
(** The Mersenne Twister (src/ext/random/engine_mt19937.c): in-place reload of
    the state vector, seeding and generation, as a refinement of a shift
    register that advances one word at a time. *)

From stdpp Require Import base numbers list gmap.
From S2P Require Import Prelude.
From S2P Require Import RandomRange.

Definition N : Z := 624.
Definition M : Z := 397.
Definition hiBit (u : Z) : Z := Z.land u 0x80000000.
Definition loBit (u : Z) : Z := Z.land u 1.
Definition loBits (u : Z) : Z := Z.land u 0x7FFFFFFF.
Definition mixBits (u v : Z) : Z := Z.lor (hiBit u) (loBits v).
Definition twist (m u v : Z) : Z :=
  Z.lxor (Z.lxor m (Z.shiftr (mixBits u v) 1)) (Z.land (u32 (- loBit v)) 0x9908b0df).
Definition twist_php (m u v : Z) : Z :=
  Z.lxor (Z.lxor m (Z.shiftr (mixBits u v) 1)) (Z.land (u32 (- loBit u)) 0x9908b0df).

Inductive mt_mode := MT_RAND_MT19937 | MT_RAND_PHP.

Record mt19937 := mk_mt { mt_count : Z; mt_rand_mode : mt_mode; mt_state : list Z }.
Definition set_count (c : Z) (s : mt19937) := mk_mt c (mt_rand_mode s) (mt_state s).
Definition set_state (l : list Z) (s : mt19937) := mk_mt (mt_count s) (mt_rand_mode s) l.

(** [for (i = n; i--; ++p) *p = twist(p[off], p[0], p[1])], from index [p]. *)
Fixpoint reload_loop (tw : Z -> Z -> Z -> Z) (n : nat) (p off : Z) (st : list Z) : list Z :=
  match n with
  | O => st
  | S n => reload_loop tw n (p + 1) off (lset st p (tw (lget 0 st (p + off)) (lget 0 st p) (lget 0 st (p + 1))))
  end.

(** The two loops, of [N - M] and [M - 1] iterations, and the last word. *)
Definition reload_state (tw : Z -> Z -> Z -> Z) (st : list Z) : list Z :=
  let st := reload_loop tw (Z.to_nat (N - M)) 0 M st in
  let st := reload_loop tw (Z.to_nat (M - 1)) (N - M) (M - N) st in
  let p := N - 1 in
  lset st p (tw (lget 0 st (p + (M - N))) (lget 0 st p) (lget 0 st 0)).

Definition mt_twist (m : mt_mode) : Z -> Z -> Z -> Z :=
  match m with MT_RAND_MT19937 => twist | MT_RAND_PHP => twist_php end.

Definition mt19937_reload (s : mt19937) : mt19937 :=
  set_count 0 (set_state (reload_state (mt_twist (mt_rand_mode s)) (mt_state s)) s).

(** [for (i = 1; i < N; i++)] of the seeding. *)
Fixpoint seed_loop (n : nat) (i : Z) (st : list Z) : list Z :=
  match n with
  | O => st
  | S n =>
      let prev_state := lget 0 st (i - 1) in
      seed_loop n (i + 1)
        (lset st i (Z.land (u32 (u32 (1812433253 * Z.lxor prev_state (Z.shiftr prev_state 30)) + i)) 0xffffffff))
  end.

Definition php_random_mt19937_seed32 (seed : Z) (s : mt19937) : mt19937 :=
  let st := seed_loop (Z.to_nat (N - 1)) 1 (lset (mt_state s) 0 seed) in
  mt19937_reload (set_count N (set_state st s)).

(** The tempering of an output word. *)
Definition temper (s1 : Z) : Z :=
  let s1 := Z.lxor s1 (Z.shiftr s1 11) in
  let s1 := Z.lxor s1 (Z.land (u32 (Z.shiftl s1 7)) 0x9d2c5680) in
  let s1 := Z.lxor s1 (Z.land (u32 (Z.shiftl s1 15)) 0xefc60000) in
  Z.lxor s1 (Z.shiftr s1 18).

Definition mt_generate (s : mt19937) : php_random_result * mt19937 :=
  let s := if N <=? mt_count s then mt19937_reload s else s in
  let s1 := lget 0 (mt_state s) (mt_count s) in
  (mk_result (temper s1) 4, set_count (u32 (mt_count s + 1)) s).

#[export] Instance php_random_algo_mt19937 : php_random_algo mt19937 :=
  {| generate := mt_generate; has_exception := fun _ => false |}.

(** * The shift register *)

(** The defining recurrence of the generator: drop the oldest word, append the next. *)
Definition shift (tw : Z -> Z -> Z -> Z) (w : list Z) : list Z :=
  tail w ++ [tw (lget 0 w M) (lget 0 w 0) (lget 0 w 1)].

(** The register after [p] words of an in-place pass: the part not yet
    overwritten, then the new words. *)
Definition rotation (p : Z) (st : list Z) : list Z := drop (Z.to_nat p) st ++ take (Z.to_nat p) st.

Lemma rotation_get p st k : 0 <= p <= llen st -> 0 <= k < llen st ->
  lget 0 (rotation p st) k = lget 0 st (if p + k <? llen st then p + k else p + k - llen st).
Proof.
  unfold rotation, llen, lget. intros Hp Hk. destruct (Z.ltb_spec (p + k) (Z.of_nat (length st))).
  - rewrite lookup_app_l by (rewrite length_drop; lia). rewrite lookup_drop. do 2 f_equal. lia.
  - rewrite lookup_app_r by (rewrite length_drop; lia). rewrite length_drop, lookup_take_lt by lia. do 2 f_equal. lia.
Qed.

(** One in-place word is one shift of the register. *)
Lemma rotation_step tw p st i1 i2 : llen st = N -> 0 <= p < N ->
  i1 = (if p + M <? N then p + M else p + M - N) -> i2 = (if p + 1 <? N then p + 1 else 0) ->
  rotation (p + 1) (lset st p (tw (lget 0 st i1) (lget 0 st p) (lget 0 st i2))) = shift tw (rotation p st).
Proof.
  intros Hl Hp H1 H2. unfold shift. unfold N, M in *.
  rewrite !rotation_get by lia. rewrite Hl. rewrite H1, H2.
  assert ((if p + 0 <? 624 then p + 0 else p + 0 - 624) = p) as -> by (destruct (Z.ltb_spec (p + 0) 624); lia).
  assert ((if p + 1 <? 624 then p + 1 else p + 1 - 624) = (if p + 1 <? 624 then p + 1 else 0)) as ->
    by (destruct (Z.ltb_spec (p + 1) 624); lia).
  set (v := tw _ _ _). clearbody v. unfold llen, lset, rotation in *.
  assert (exists a x b, st = a ++ x :: b /\ length a = Z.to_nat p) as (a & x & b & -> & Ha).
  { destruct (lookup_lt_is_Some_2 st (Z.to_nat p)) as [x Hx]; [lia|]. exists (take (Z.to_nat p) st), x, (drop (S (Z.to_nat p)) st).
    rewrite take_drop_middle by done. split; [done|]. rewrite length_take. lia. }
  replace (Z.to_nat (p + 1)) with (S (Z.to_nat p)) by lia. rewrite <- Ha.
  rewrite insert_app_r_alt by lia. rewrite Nat.sub_diag. cbn [insert list_insert].
  rewrite drop_app_length, take_app_length. cbn [app tail].
  replace (a ++ v :: b) with ((a ++ [v]) ++ b) by (by rewrite <- app_assoc).
  rewrite drop_app_length', take_app_length' by (rewrite length_app; cbn; lia). by rewrite app_assoc.
Qed.

Lemma reload_loop_spec tw n : forall p off st, llen st = N -> 0 <= p -> p + Z.of_nat n < N ->
  (forall q, p <= q < p + Z.of_nat n -> q + off = (if q + M <? N then q + M else q + M - N)) ->
  llen (reload_loop tw n p off st) = N /\
  rotation (p + Z.of_nat n) (reload_loop tw n p off st) = Nat.iter n (shift tw) (rotation p st).
Proof.
  induction n as [|n IH]; intros p off st Hl Hp Hn Hoff; cbn [reload_loop]; [by rewrite Z.add_0_r|].
  set (st' := lset st p _). assert (llen st' = N) as Hl' by (unfold st'; by rewrite llen_lset).
  destruct (IH (p + 1) off st' Hl' ltac:(lia) ltac:(lia)) as [H1 H2]; [intros; apply Hoff; lia|].
  split; [done|]. replace (p + Z.of_nat (S n)) with (p + 1 + Z.of_nat n) by lia. rewrite H2, Nat.iter_succ_r. f_equal.
  unfold st'. apply rotation_step; [done|lia|apply Hoff; lia|]. by destruct (Z.ltb_spec (p + 1) N); [|lia].
Qed.

(** Both loops, with the counts abstracted. *)
Lemma reload_loops_spec tw n1 n2 st : llen st = N -> Z.of_nat n1 = N - M -> Z.of_nat n2 = M - 1 ->
  let s2 := reload_loop tw n2 (N - M) (M - N) (reload_loop tw n1 0 M st) in
  llen s2 = N /\ rotation (N - 1) s2 = Nat.iter (n2 + n1) (shift tw) st.
Proof.
  intros Hl Hn1 Hn2 s2. unfold N, M in Hn1, Hn2.
  destruct (reload_loop_spec tw n1 0 M st Hl ltac:(lia)) as [H1 H2]; [unfold N; lia| |].
  { unfold N, M. intros q Hq. destruct (Z.ltb_spec (q + 397) 624); lia. }
  destruct (reload_loop_spec tw n2 (N - M) (M - N) _ H1) as [H3 H4]; [unfold N, M; lia|unfold N, M; lia| |].
  { unfold N, M. intros q Hq. destruct (Z.ltb_spec (q + 397) 624); lia. }
  split; [exact H3|]. replace (N - 1) with (N - M + Z.of_nat n2) by (unfold N, M; lia). unfold s2. rewrite H4, Nat.iter_add.
  replace (N - M) with (0 + Z.of_nat n1) at 1 by (unfold N, M; lia). rewrite H2.
  unfold rotation. cbn [Z.to_nat drop take]. by rewrite app_nil_r.
Qed.

(** A reload is [N] shifts. *)
Lemma reload_state_shift tw st : llen st = N ->
  llen (reload_state tw st) = N /\ reload_state tw st = Nat.iter (Z.to_nat N) (shift tw) st.
Proof.
  intros Hl. unfold reload_state. cbn zeta.
  destruct (reload_loops_spec tw (Z.to_nat (N - M)) (Z.to_nat (M - 1)) st Hl) as [H3 H4]; [unfold N, M; lia|unfold N, M; lia|].
  assert (Z.to_nat N = S (Z.to_nat (M - 1) + Z.to_nat (N - M))) as -> by (unfold N, M; lia).
  rewrite Nat.iter_succ, <- H4. clear H4.
  generalize dependent (reload_loop tw (Z.to_nat (M - 1)) (N - M) (M - N) (reload_loop tw (Z.to_nat (N - M)) 0 M st)).
  intros s2 H3. split; [by rewrite llen_lset|].
  pose proof (rotation_step tw (N - 1) s2 (N - 1 + (M - N)) 0 H3 ltac:(unfold N; lia) eq_refl eq_refl) as H5.
  rewrite <- H5. replace (N - 1 + 1) with N by lia. set (s3 := lset s2 _ _).
  assert (llen s3 = N) as Hl3 by (unfold s3; by rewrite llen_lset).
  unfold rotation, llen in *. rewrite drop_ge, take_ge by lia. done.
Qed.

(** The register a state stands for: its words from the counter on. *)
Definition register (s : mt19937) : list Z :=
  Nat.iter (Z.to_nat (mt_count s)) (shift (mt_twist (mt_rand_mode s))) (mt_state s).

Definition mt_ok (s : mt19937) : Prop :=
  llen (mt_state s) = N /\ 0 <= mt_count s <= N /\ Forall (fun x => 0 <= x < 2 ^ 32) (mt_state s).

(** * The state is well-formed *)

Definition word32 (x : Z) : Prop := 0 <= x < 2 ^ 32.

Lemma word32_lxor a b : word32 a -> word32 b -> word32 (Z.lxor a b).
Proof. intros. by apply lxor_range. Qed.

Lemma word32_land a b : 0 <= a -> word32 b -> word32 (Z.land a b).
Proof.
  intros Ha [Hb1 Hb2]. split; [apply Z.land_nonneg; lia|]. apply (Z.le_lt_trans _ b); [|done].
  apply Z.ldiff_le; [done|]. apply Z.bits_inj'. intros i _. rewrite Z.ldiff_spec, Z.land_spec, Z.bits_0.
  destruct (Z.testbit a i), (Z.testbit b i); done.
Qed.

Lemma word32_shiftr x k : word32 x -> 0 <= k -> word32 (Z.shiftr x k).
Proof.
  intros [H1 H2] Hk. rewrite Z.shiftr_div_pow2 by done. assert (0 < 2 ^ k) by (apply Z.pow_pos_nonneg; lia).
  split; [apply Z.div_pos; lia|]. apply Z.div_lt_upper_bound; [done|]. nia.
Qed.

Lemma word32_twist m a b c : word32 a -> word32 b -> word32 c -> word32 (mt_twist m a b c).
Proof.
  intros Ha Hb Hc. assert (word32 (mixBits b c)) as Hm.
  { apply lor_range; [lia| |]; apply word32_land; try lia; first [apply Hb|apply Hc|split; lia]. }
  destruct m; apply word32_lxor; try (apply word32_lxor; [done|apply word32_shiftr; [done|lia]]);
    apply word32_land; try (split; lia); apply u32_range.
Qed.

Lemma word32_lget st i : Forall word32 st -> word32 (lget 0 st i).
Proof.
  intros Hf. unfold lget. destruct (st !! Z.to_nat i) as [x|] eqn:E; cbn; [|split; lia].
  by apply (Forall_lookup_1 _ _ _ _ Hf E).
Qed.

Lemma word32_temper x : word32 x -> word32 (temper x).
Proof.
  intros Hx. unfold temper. cbv zeta. set (a := Z.lxor x _). assert (word32 a) as Ha.
  { apply word32_lxor; [done|]. apply word32_shiftr; [done|lia]. }
  set (b := Z.lxor a _). assert (word32 b) as Hb.
  { apply word32_lxor; [done|]. apply word32_land; [apply u32_range|split; lia]. }
  set (c := Z.lxor b _). assert (word32 c) as Hc.
  { apply word32_lxor; [done|]. apply word32_land; [apply u32_range|split; lia]. }
  apply word32_lxor; [done|]. apply word32_shiftr; [done|lia].
Qed.

Lemma shift_ok m w : llen w = N -> Forall word32 w -> llen (shift (mt_twist m) w) = N /\ Forall word32 (shift (mt_twist m) w).
Proof.
  intros Hl Hf. unfold shift, N in *. split.
  - destruct w as [|x w]; [done|]. cbn [tail]. rewrite llen_app. rewrite llen_cons in Hl. unfold llen at 2. cbn [length]. lia.
  - apply Forall_app. split; [by destruct Hf|]. constructor; [|constructor]. apply word32_twist; by apply word32_lget.
Qed.

Lemma iter_shift_ok m n w : llen w = N -> Forall word32 w ->
  llen (Nat.iter n (shift (mt_twist m)) w) = N /\ Forall word32 (Nat.iter n (shift (mt_twist m)) w).
Proof. intros Hl Hf. induction n as [|n [IH1 IH2]]; [done|]. rewrite Nat.iter_succ. by apply shift_ok. Qed.

Lemma shift_get tw w k : 0 <= k -> k + 1 < llen w -> lget 0 (shift tw w) k = lget 0 w (k + 1).
Proof.
  intros Hk Hl. unfold shift. destruct w as [|x w]; [unfold llen in Hl; cbn in Hl; lia|]. cbn [tail].
  rewrite llen_cons in Hl. rewrite lget_app_l by lia. unfold lget. by replace (Z.to_nat (k + 1)) with (S (Z.to_nat k)) by lia.
Qed.

Lemma iter_shift_get m n : forall w k, llen w = N -> Forall word32 w -> 0 <= k -> k + Z.of_nat n < N ->
  lget 0 (Nat.iter n (shift (mt_twist m)) w) k = lget 0 w (k + Z.of_nat n).
Proof.
  induction n as [|n IH]; intros w k Hl Hf Hk Hn; [by rewrite Z.add_0_r|]. rewrite Nat.iter_succ.
  rewrite shift_get; [|done|destruct (iter_shift_ok m n w Hl Hf) as [-> _]; lia].
  rewrite IH by (done || lia). f_equal. lia.
Qed.

Lemma reload_ok s : llen (mt_state s) = N -> Forall word32 (mt_state s) ->
  mt_ok (mt19937_reload s) /\ mt_rand_mode (mt19937_reload s) = mt_rand_mode s /\ mt_count (mt19937_reload s) = 0 /\
  mt_state (mt19937_reload s) = Nat.iter (Z.to_nat N) (shift (mt_twist (mt_rand_mode s))) (mt_state s).
Proof.
  intros Hl Hf. unfold mt19937_reload. destruct (reload_state_shift (mt_twist (mt_rand_mode s)) (mt_state s) Hl) as [H1 H2].
  destruct (iter_shift_ok (mt_rand_mode s) (Z.to_nat N) (mt_state s) Hl Hf) as [H3 H4]. rewrite <- H2 in H4.
  unfold mt_ok. cbn [mt_state mt_count mt_rand_mode set_count set_state].
  split; [split; [exact H1|split; [unfold N; lia|exact H4]]|]. split; [reflexivity|]. split; [reflexivity|exact H2].
Qed.

Lemma iter_zero {A} (f : A -> A) x : Nat.iter (Z.to_nat 0) f x = x.
Proof. reflexivity. Qed.

(** One call of the code is one shift of the register. *)
Lemma mt_generate_step s : mt_ok s ->
  mt_ok (mt_generate s).2 /\ mt_rand_mode (mt_generate s).2 = mt_rand_mode s /\
  (mt_generate s).1 = mk_result (temper (lget 0 (register s) 0)) 4 /\
  register (mt_generate s).2 = shift (mt_twist (mt_rand_mode s)) (register s).
Proof.
  intros (Hl & Hc & Hf). unfold mt_generate. cbn zeta.
  set (s1 := if N <=? mt_count s then mt19937_reload s else s).
  assert (mt_ok s1 /\ mt_rand_mode s1 = mt_rand_mode s /\ mt_count s1 < N /\ register s1 = register s) as ((Hl1 & Hc1 & Hf1) & Hm & Hc' & Hr).
  { unfold s1. destruct (Z.leb_spec N (mt_count s)) as [Hle|]; [|by split].
    destruct (reload_ok s Hl Hf) as (H1 & H2 & H3 & H4). split; [done|]. split; [done|]. unfold register. rewrite H3, H2, H4.
    split; [done|]. rewrite iter_zero. assert (mt_count s = N) as -> by lia. reflexivity. }
  clearbody s1. rewrite <- Hr, <- Hm. clear s Hl Hc Hf Hr Hm.
  assert (u32 (mt_count s1 + 1) = mt_count s1 + 1) as Hu by (apply u32_small; unfold N in *; lia).
  cbn [fst snd]. rewrite Hu. split; [by split; [|split; [cbn; lia|]]|]. split; [done|]. split.
  - do 2 f_equal. unfold register. rewrite iter_shift_get by (done || lia). f_equal. lia.
  - unfold register. cbn [mt_count mt_rand_mode mt_state set_count].
    by replace (Z.to_nat (mt_count s1 + 1)) with (S (Z.to_nat (mt_count s1))) by lia.
Qed.

(** C36: the Mersenne Twister of the runtime, which rewrites its 624 words in
    place every 624 outputs, refines the shift register of the recurrence: the
    state keeps its shape and, for both variants, the [n]-th output is the
    tempered front word of the register after [n] shifts. *)
Theorem mt19937_refines n s : mt_ok s ->
  let sn := Nat.iter n (fun s => (mt_generate s).2) s in
  let reg := Nat.iter n (shift (mt_twist (mt_rand_mode s))) (register s) in
  mt_ok sn /\ register sn = reg /\ (mt_generate sn).1 = mk_result (temper (lget 0 reg 0)) 4.
Proof.
  intros Hs. cbv zeta.
  assert (mt_ok (Nat.iter n (fun s => (mt_generate s).2) s) /\
    mt_rand_mode (Nat.iter n (fun s => (mt_generate s).2) s) = mt_rand_mode s /\
    register (Nat.iter n (fun s => (mt_generate s).2) s) = Nat.iter n (shift (mt_twist (mt_rand_mode s))) (register s)) as (H1 & H2 & H3).
  { induction n as [|n (IH1 & IH2 & IH3)]; [done|]. rewrite !Nat.iter_succ.
    destruct (mt_generate_step _ IH1) as (H1 & H2 & _ & H3). rewrite H2, H3, IH2, IH3. done. }
  split; [done|]. split; [done|]. destruct (mt_generate_step _ H1) as (_ & _ & -> & _). by rewrite H3.
Qed.

#[export, refine] Instance mt19937_ok : engine_ok mt19937 := {| engine_inv := mt_ok |}.
Proof.
  - intros s Hs. by apply mt_generate_step.
  - done.
  - intros s Hs. cbn [generate php_random_algo_mt19937]. destruct (mt_generate_step s Hs) as (_ & _ & -> & _). cbn [r_result].
    assert (word32 (temper (lget 0 (register s) 0))) as [H1 H2].
    { apply word32_temper, word32_lget. destruct Hs as (? & ? & ?). by apply iter_shift_ok. }
    lia.
Defined.

(** * Seeding *)

Lemma seed_loop_ok n : forall i st, 0 <= i -> Forall word32 st ->
  llen (seed_loop n i st) = llen st /\ Forall word32 (seed_loop n i st).
Proof.
  induction n as [|n IH]; intros i st Hi Hf; cbn [seed_loop]; [done|].
  destruct (IH (i + 1) (lset st i (Z.land (u32 (u32 (1812433253 * Z.lxor (lget 0 st (i - 1)) (Z.shiftr (lget 0 st (i - 1)) 30)) + i)) 4294967295)))
    as [H1 H2]; [lia| |by rewrite H1, llen_lset].
  apply Forall_insert; [done|]. apply word32_land; [apply u32_range|split; lia].
Qed.

Lemma seed32_ok seed s : word32 seed -> llen (mt_state s) = N -> Forall word32 (mt_state s) ->
  mt_ok (php_random_mt19937_seed32 seed s).
Proof.
  intros Hs Hl Hf. unfold php_random_mt19937_seed32.
  destruct (seed_loop_ok (Z.to_nat (N - 1)) 1 (lset (mt_state s) 0 seed)) as [H1 H2]; [lia|by apply Forall_insert|].
  rewrite llen_lset in H1. apply reload_ok; [cbn; lia|done].
Qed.

Definition zero_state : mt19937 := mk_mt 0 MT_RAND_MT19937 (replicate 624 0).

(** The thousandth output from the seed 5489, in the second block of words. *)
Lemma mt19937_refines_witness :
  let s := php_random_mt19937_seed32 5489 zero_state in
  r_result (mt_generate s).1 = 3499211612 /\
  r_result (mt_generate (Nat.iter 700 (fun s => (mt_generate s).2) s)).1 =
    temper (lget 0 (Nat.iter 700 (shift twist) (register s)) 0).
Proof.
  intros s. split; [vm_compute; reflexivity|].
  assert (mt_ok s) as Hs.
  { apply seed32_ok; [split; lia|vm_compute; reflexivity|]. apply Forall_replicate. split; lia. }
  destruct (mt19937_refines 700 s Hs) as (_ & _ & H). rewrite H. reflexivity.
Defined.
