(* ===== verification/RandomSerialize.v ===== *)
(** Serialised engine states (src/ext/random): words as little-endian
    hexadecimal strings in a PHP array.  The arrays are built and read through
    the hash table of the engine. *)

From stdpp Require Import base numbers list gmap.
From S2P Require Import Prelude ZendTypes HashTable HashDict HashInv.
From S2P Require Import HashFind HashAdd HashIndex HashList.
From S2P Require Import RandomRange RandomPcg RandomXoshiro RandomMt.

(** * Hexadecimal, little endian *)

(** ["0123456789abcdef"] *)
Definition hexconvtab : list Z := [48; 49; 50; 51; 52; 53; 54; 55; 56; 57; 97; 98; 99; 100; 101; 102].

(** The memory of a word of [n] bytes, and back. *)
Fixpoint le_bytes (n : nat) (x : Z) : list Z :=
  match n with O => [] | S n => u8 x :: le_bytes n (Z.shiftr x 8) end.
Fixpoint le_word (l : list Z) : Z :=
  match l with [] => 0 | b :: l => b + 256 * le_word l end.

Fixpoint php_random_bin2hex_le (ptr : list Z) : list Z :=
  match ptr with
  | [] => []
  | c :: ptr => lget 0 hexconvtab (Z.shiftr c 4) :: lget 0 hexconvtab (Z.land c 15) :: php_random_bin2hex_le ptr
  end.

(** The test of one character and its value. *)
Definition hex_letter (c : Z) : Z :=
  let l := Z.land c (255 - 32) in Z.shiftr (u32 (Z.lxor (l - 65) (l - 70 - 1))) 31.
Definition hex_valid (c : Z) : bool := negb (Z.lor (Z.shiftr (Z.lxor c 48 - 10) 31) (hex_letter c) =? 0).
Definition hex_digit (c : Z) : Z := Z.land c (255 - 32) - 0x10 - 0x27 * hex_letter c.

(** [None]: [false] is returned. *)
Fixpoint php_random_hex2bin_le (str : list Z) : option (list Z) :=
  match str with
  | c1 :: c2 :: str =>
      if negb (hex_valid c1) then None
      else
        let d := u8 (Z.shiftl (hex_digit c1) 4) in
        if negb (hex_valid c2) then None
        else
          let d := u8 (Z.lor d (hex_digit c2)) in
          rest ← php_random_hex2bin_le str; Some (d :: rest)
  | _ => Some []
  end.

(** * Arrays of words *)

(** The payloads that appear in a serialised state. *)
Inductive pval := PStr (s : list Z) | PLong (n : Z).

Section Serialize.
Context {E : ZEnv pval}.
Implicit Types (data : HashTable pval) (w : EG pval).

(** [ZVAL_STR(&t, php_random_bin2hex_le(&x, n))] *)
Definition hex_zval (n : nat) (x : Z) : zval pval := IS_VALUE (PStr (php_random_bin2hex_le (le_bytes n x))).

Definition insert (v : zval pval) (s : state pval) : option (state pval) :=
  r ← zend_hash_next_index_insert v s; Some r.1.

(** [for (i = 0; ...) { ZVAL_STR(...); zend_hash_next_index_insert(data, &t); }] *)
Fixpoint insert_words (n : nat) (words : list Z) (s : state pval) : option (state pval) :=
  match words with
  | [] => Some s
  | x :: words => s ← insert (hex_zval n x) s; insert_words n words s
  end.

Definition zend_hash_num_elements data : Z := nNumOfElements data.

(** One word at index [i]; [None]: unserialize returns [false]. *)
Definition find_word (n : nat) (i : Z) (s : state pval) : option Z :=
  p ← zend_hash_index_find s.1 i;
  match zload s p with
  | IS_VALUE (PStr str) =>
      if negb (llen str =? 2 * Z.of_nat n) then None
      else bytes ← php_random_hex2bin_le str; Some (le_word bytes)
  | _ => None
  end.
Definition find_long (i : Z) (s : state pval) : option Z :=
  p ← zend_hash_index_find s.1 i;
  match zload s p with IS_VALUE (PLong l) => Some l | _ => None end.

Fixpoint find_words (n count : nat) (i : Z) (s : state pval) : option (list Z) :=
  match count with
  | O => Some []
  | S count => x ← find_word n i s; l ← find_words n count (i + 1) s; Some (x :: l)
  end.

(** ** The engines *)

Definition pcg_serialize (st : Z) (s : state pval) : option (state pval) :=
  s ← insert (hex_zval 8 (Native.php_random_uint128_hi st)) s;
  insert (hex_zval 8 (Native.php_random_uint128_lo st)) s.

Definition pcg_unserialize (s : state pval) : option Z :=
  if negb (zend_hash_num_elements s.1 =? 2) then None
  else
    u ← find_words 8 2 0 s;
    Some (Native.php_random_uint128_constant (lget 0 u 0) (lget 0 u 1)).

Definition xoshiro_serialize (st : xoshiro) (s : state pval) : option (state pval) :=
  insert_words 8 [st0 st; st1 st; st2 st; st3 st] s.

Definition xoshiro_unserialize (s : state pval) : option xoshiro :=
  if negb (zend_hash_num_elements s.1 =? 4) then None
  else
    u ← find_words 8 4 0 s;
    let st := mk_xoshiro (lget 0 u 0) (lget 0 u 1) (lget 0 u 2) (lget 0 u 3) in
    if (st0 st =? 0) && (st1 st =? 0) && (st2 st =? 0) && (st3 st =? 0) then None else Some st.

Definition mode_long (m : mt_mode) : Z := match m with MT_RAND_MT19937 => 0 | MT_RAND_PHP => 1 end.

Definition mt_serialize (st : mt19937) (s : state pval) : option (state pval) :=
  s ← insert_words 4 (mt_state st) s;
  s ← insert (IS_VALUE (PLong (mt_count st))) s;
  insert (IS_VALUE (PLong (mode_long (mt_rand_mode st)))) s.

(** [count] and [mode] are 32-bit fields: the integers are truncated. *)
Definition mt_unserialize (s : state pval) : option mt19937 :=
  if negb (zend_hash_num_elements s.1 =? N + 2) then None
  else
    words ← find_words 4 (Z.to_nat N) 0 s;
    l ← find_long N s;
    let count := u32 l in
    if N <? count then None
    else
      m ← find_long (N + 1) s;
      if u32 m =? 0 then Some (mk_mt count MT_RAND_MT19937 words)
      else if u32 m =? 1 then Some (mk_mt count MT_RAND_PHP words)
      else None.

(** * Hexadecimal round trip *)

Lemma hex_byte : Forall (fun c => php_random_hex2bin_le (php_random_bin2hex_le [c]) = Some [c]) (zrange 0 256).
Proof. refine (bool_decide_unpack _ _). vm_compute. exact I. Qed.

Lemma hex2bin_bin2hex l : Forall (fun b => 0 <= b < 256) l ->
  php_random_hex2bin_le (php_random_bin2hex_le l) = Some l.
Proof.
  induction 1 as [|c l Hc _ IH]; [done|].
  pose proof (proj1 (Forall_forall _ _) hex_byte c (proj2 (elem_of_zrange 0 256 c) ltac:(lia))) as Hb.
  cbn [php_random_bin2hex_le php_random_hex2bin_le] in *.
  destruct (negb (hex_valid _)); [done|]. destruct (negb (hex_valid _)); [done|]. cbn [mbind option_bind] in *.
  rewrite IH. cbn. by injection Hb as ->.
Qed.

Lemma length_bin2hex l : llen (php_random_bin2hex_le l) = 2 * llen l.
Proof. induction l as [|c l IH]; [done|]. cbn [php_random_bin2hex_le]. rewrite !llen_cons, IH. lia. Qed.

Lemma le_bytes_ok n : forall x, Forall (fun b => 0 <= b < 256) (le_bytes n x) /\ length (le_bytes n x) = n.
Proof.
  induction n as [|n IH]; intros x; cbn [le_bytes]; [done|]. destruct (IH (Z.shiftr x 8)) as [H1 H2].
  split; [constructor; [apply u8_range|done]|]. cbn [length]. by rewrite H2.
Qed.

Lemma le_word_bytes n : forall x, 0 <= x < 2 ^ (8 * Z.of_nat n) -> le_word (le_bytes n x) = x.
Proof.
  induction n as [|n IH]; intros x Hx; cbn [le_bytes le_word].
  - change (2 ^ (8 * Z.of_nat 0)) with 1 in Hx. lia.
  - assert (2 ^ (8 * Z.of_nat (S n)) = 256 * 2 ^ (8 * Z.of_nat n)) as Hp.
    { replace (8 * Z.of_nat (S n)) with (8 + 8 * Z.of_nat n) by lia. by rewrite Z.pow_add_r by lia. }
    rewrite Z.shiftr_div_pow2 by lia. change (2 ^ 8) with 256. rewrite IH by zlia. unfold u8. zlia.
Qed.

Lemma le_word_range l : Forall (fun b => 0 <= b < 256) l -> 0 <= le_word l < 2 ^ (8 * llen l).
Proof.
  induction 1 as [|b l Hb _ IH]; cbn [le_word]; [by unfold llen|].
  rewrite llen_cons. pose proof (llen_nonneg l). replace (8 * (1 + llen l)) with (8 + 8 * llen l) by lia.
  rewrite Z.pow_add_r by lia. lia.
Qed.

(** What [php_random_hex2bin_le] writes. *)
Lemma hex2bin_bytes n : forall str l, (length str <= n)%nat -> php_random_hex2bin_le str = Some l ->
  Forall (fun b => 0 <= b < 256) l /\ 2 * llen l <= llen str.
Proof.
  induction n as [|n IH]; intros [|c1 [|c2 str]] l Hn H; cbn [length] in Hn; try lia;
    try (injection H as <-; split; [constructor|unfold llen; cbn; lia]).
  cbn [php_random_hex2bin_le] in H. destruct (negb _); [done|]. destruct (negb _); [done|].
  destruct (php_random_hex2bin_le str) as [rest|] eqn:Hr; [|done]. injection H as <-.
  destruct (IH str rest) as [H1 H2]; [lia|done|]. rewrite !llen_cons. split; [|lia].
  constructor; [apply u8_range|done].
Qed.

(** * Building the array *)

Lemma insert_ok vs t w v : list_table vs t -> llen vs <= 2 ^ 28 -> Z_ISUNDEF v = false ->
  exists t', insert v (t, w) = Some (t', w) /\ list_table (vs ++ [v]) t'.
Proof.
  intros Ht Hl Hv. unfold insert. destruct (list_append vs t w v Ht Hl Hv) as (t' & p & -> & Ht').
  cbn [mbind option_bind fst]. by exists t'.
Qed.

Lemma insert_words_ok n l : forall vs t w, list_table vs t -> llen vs + llen l <= 2 ^ 28 ->
  exists t', insert_words n l (t, w) = Some (t', w) /\ list_table (vs ++ (hex_zval n <$> l)) t'.
Proof.
  induction l as [|x l IH]; intros vs t w Ht Hl; cbn [insert_words].
  { exists t. by rewrite fmap_nil, app_nil_r. }
  rewrite llen_cons in Hl. pose proof (llen_nonneg l).
  destruct (insert_ok vs t w (hex_zval n x) Ht) as (t1 & -> & Ht1); [lia|done|]. cbn [mbind option_bind].
  destruct (IH _ t1 w Ht1) as (t' & Heq & Ht'); [rewrite llen_app; change (llen [hex_zval n x]) with 1; lia|].
  exists t'. split; [done|]. by rewrite <- app_assoc in Ht'.
Qed.

(** * Reading the array *)

Lemma find_word_ok vs t w n i x : list_table vs t -> 0 <= i -> vs !! Z.to_nat i = Some (hex_zval n x) ->
  0 <= x < 2 ^ (8 * Z.of_nat n) -> find_word n i (t, w) = Some x.
Proof.
  intros Ht Hi Hv Hx. pose proof (list_table_find vs t w i Ht Hi) as Hf. rewrite Hv in Hf.
  unfold find_word. cbn [fst]. destruct (zend_hash_index_find t i) as [p|]; [|done].
  injection Hf as Hf. cbn [mbind option_bind]. rewrite Hf. unfold hex_zval.
  rewrite length_bin2hex. destruct (le_bytes_ok n x) as [Hb Hlen]. unfold llen. rewrite Hlen, Z.eqb_refl. cbn [negb].
  rewrite hex2bin_bin2hex by done. cbn [mbind option_bind]. by rewrite le_word_bytes.
Qed.

Lemma find_long_ok vs t w i l : list_table vs t -> 0 <= i -> vs !! Z.to_nat i = Some (IS_VALUE (PLong l)) ->
  find_long i (t, w) = Some l.
Proof.
  intros Ht Hi Hv. pose proof (list_table_find vs t w i Ht Hi) as Hf. rewrite Hv in Hf.
  unfold find_long. cbn [fst]. destruct (zend_hash_index_find t i) as [p|]; [|done].
  injection Hf as Hf. cbn [mbind option_bind]. by rewrite Hf.
Qed.

Lemma find_words_ok vs t w n l : forall i, list_table vs t -> 0 <= i ->
  (forall k x, l !! k = Some x -> vs !! (Z.to_nat i + k)%nat = Some (hex_zval n x)) ->
  Forall (fun x => 0 <= x < 2 ^ (8 * Z.of_nat n)) l -> find_words n (length l) i (t, w) = Some l.
Proof.
  induction l as [|x l IH]; intros i Ht Hi Hv Hf; cbn [find_words length]; [done|].
  apply Forall_cons in Hf as [Hx Hf].
  rewrite (find_word_ok vs t w n i x) by (done || (rewrite <- (Hv 0%nat x eq_refl); f_equal; lia)). cbn [mbind option_bind].
  rewrite (IH (i + 1)); try done; [lia|]. intros k y Hy. rewrite <- (Hv (S k) y Hy). f_equal. lia.
Qed.

Lemma find_word_range n i s x : find_word n i s = Some x -> 0 <= x < 2 ^ (8 * Z.of_nat n).
Proof.
  unfold find_word. destruct (zend_hash_index_find _ _) as [p|]; [|done]. cbn [mbind option_bind].
  destruct (zload s p) as [| | |[str|]]; try done. destruct (Z.eqb_spec (llen str) (2 * Z.of_nat n)) as [Hl|]; [|done]. cbn [negb].
  destruct (php_random_hex2bin_le str) as [l|] eqn:Hh; [|done]. cbn. intros [= <-].
  destruct (hex2bin_bytes (length str) str l (le_n _) Hh) as [H1 H2]. pose proof (le_word_range l H1).
  assert (2 ^ (8 * llen l) <= 2 ^ (8 * Z.of_nat n)) by (apply Z.pow_le_mono_r; lia). lia.
Qed.

Lemma find_words_range n count : forall i s l, find_words n count i s = Some l ->
  length l = count /\ Forall (fun x => 0 <= x < 2 ^ (8 * Z.of_nat n)) l.
Proof.
  induction count as [|count IH]; intros i s l H; cbn [find_words] in H; [by injection H as <-|].
  destruct (find_word n i s) as [x|] eqn:Hx; [|done]. cbn [mbind option_bind] in H.
  destruct (find_words n count (i + 1) s) as [l'|] eqn:Hl; [|done]. injection H as <-.
  destruct (IH _ _ _ Hl) as [H1 H2]. cbn [length]. split; [lia|]. constructor; [|done]. by apply find_word_range in Hx.
Qed.

(** * Round trips *)

Lemma pcg_roundtrip st t w : 0 <= st < 2 ^ 128 -> list_table [] t ->
  exists t', pcg_serialize st (t, w) = Some (t', w) /\ pcg_unserialize (t', w) = Some st.
Proof.
  intros Hst Ht. unfold pcg_serialize, Native.php_random_uint128_hi, Native.php_random_uint128_lo.
  set (h := u64 (Z.shiftr st 64)). set (l := u64 st).
  destruct (insert_words_ok 8 [h; l] [] t w Ht) as (t' & Heq & Ht'); [done|].
  exists t'. cbn [insert_words] in Heq. split.
  { destruct (insert (hex_zval 8 h) (t, w)) as [s1|]; [|done]. cbn [mbind option_bind] in *. by destruct (insert (hex_zval 8 l) s1). }
  unfold pcg_unserialize. cbn [fst]. unfold zend_hash_num_elements. rewrite (list_table_count _ _ Ht').
  change (llen ([] ++ (hex_zval 8 <$> [h; l]))) with 2. cbn [Z.eqb Pos.eqb negb].
  assert (Forall (fun x => 0 <= x < 2 ^ (8 * Z.of_nat 8)) [h; l]) as Hf by (repeat constructor; apply u64_range).
  change (find_words 8 2 0 (t', w)) with (find_words 8 (length [h; l]) 0 (t', w)).
  rewrite (find_words_ok _ t' w 8 [h; l] 0 Ht'); [|lia| |done].
  - cbn [mbind option_bind]. change (lget 0 [h; l] 0) with h. change (lget 0 [h; l] 1) with l.
    f_equal. unfold Native.php_random_uint128_constant, h, l. rewrite !Z.shiftl_mul_pow2, Z.shiftr_div_pow2 by lia.
    unfold u128, u64. zlia.
  - intros k x Hx. change (Z.to_nat 0 + k)%nat with k. cbn [app]. by rewrite list_lookup_fmap, Hx.
Qed.

Lemma xoshiro_roundtrip st t w : words st -> nonzero st -> list_table [] t ->
  exists t', xoshiro_serialize st (t, w) = Some (t', w) /\ xoshiro_unserialize (t', w) = Some st.
Proof.
  intros (H0 & H1 & H2 & H3) Hn Ht. destruct st as [a b c d]. cbn [st0 st1 st2 st3] in *. unfold xoshiro_serialize. cbn [st0 st1 st2 st3].
  destruct (insert_words_ok 8 [a; b; c; d] [] t w Ht) as (t' & Heq & Ht'); [done|].
  exists t'. split; [done|]. unfold xoshiro_unserialize. cbn [fst]. unfold zend_hash_num_elements. rewrite (list_table_count _ _ Ht').
  change (llen ([] ++ (hex_zval 8 <$> [a; b; c; d]))) with 4. cbn [Z.eqb Pos.eqb negb].
  assert (Forall (fun x => 0 <= x < 2 ^ (8 * Z.of_nat 8)) [a; b; c; d]) as Hf by (repeat constructor; apply H0 || apply H1 || apply H2 || apply H3).
  change (find_words 8 4 0 (t', w)) with (find_words 8 (length [a; b; c; d]) 0 (t', w)).
  rewrite (find_words_ok _ t' w 8 [a; b; c; d] 0 Ht'); [|lia| |done].
  - cbn [mbind option_bind]. change (lget 0 [a; b; c; d] 0) with a. change (lget 0 [a; b; c; d] 1) with b.
    change (lget 0 [a; b; c; d] 2) with c. change (lget 0 [a; b; c; d] 3) with d. cbn [st0 st1 st2 st3].
    destruct (Z.eqb_spec a 0), (Z.eqb_spec b 0), (Z.eqb_spec c 0), (Z.eqb_spec d 0); cbn [andb]; try done.
    exfalso. apply Hn. by subst.
  - intros k x Hx. change (Z.to_nat 0 + k)%nat with k. cbn [app]. by rewrite list_lookup_fmap, Hx.
Qed.

Lemma mt_roundtrip st t w : mt_ok st -> list_table [] t ->
  exists t', mt_serialize st (t, w) = Some (t', w) /\ mt_unserialize (t', w) = Some st.
Proof.
  intros (Hl & Hc & Hf) Ht. unfold N in *. unfold mt_serialize.
  destruct (insert_words_ok 4 (mt_state st) [] t w Ht) as (t1 & -> & Ht1); [change (llen (@nil (zval pval))) with 0; lia|].
  cbn [mbind option_bind app] in *. set (ws := hex_zval 4 <$> mt_state st) in *.
  assert (llen ws = 624) as Hws by (unfold ws, llen in *; by rewrite length_fmap).
  destruct (insert_ok ws t1 w (IS_VALUE (PLong (mt_count st))) Ht1) as (t2 & -> & Ht2); [lia|done|]. cbn [mbind option_bind].
  destruct (insert_ok _ t2 w (IS_VALUE (PLong (mode_long (mt_rand_mode st)))) Ht2) as (t3 & -> & Ht3);
    [rewrite llen_app, Hws; change (llen [_]) with 1; lia|done|].
  exists t3. split; [done|]. rewrite <- app_assoc in Ht3. cbn [app] in Ht3. set (vs := ws ++ _) in Ht3.
  assert (llen vs = 626) as Hvs by (unfold vs; by rewrite llen_app, Hws).
  unfold mt_unserialize. cbn [fst]. unfold zend_hash_num_elements. rewrite (list_table_count _ _ Ht3), Hvs. unfold N.
  change (626 =? 624 + 2) with true. cbn [negb].
  assert (Z.to_nat 624 = length (mt_state st)) as -> by (unfold llen in Hl; lia).
  rewrite (find_words_ok vs t3 w 4 (mt_state st) 0 Ht3); [|lia| |done].
  - cbn [mbind option_bind].
    rewrite (find_long_ok vs t3 w 624 (mt_count st) Ht3); [|lia|].
    2:{ unfold vs. rewrite lookup_app_r by (unfold llen in Hws; lia). replace (Z.to_nat 624 - length ws)%nat with 0%nat by (unfold llen in Hws; lia). done. }
    cbn [mbind option_bind]. rewrite u32_small by lia. destruct (Z.ltb_spec 624 (mt_count st)); [lia|].
    rewrite (find_long_ok vs t3 w (624 + 1) (mode_long (mt_rand_mode st)) Ht3); [|lia|].
    2:{ unfold vs. rewrite lookup_app_r by (unfold llen in Hws; lia). replace (Z.to_nat (624 + 1) - length ws)%nat with 1%nat by (unfold llen in Hws; lia). done. }
    cbn [mbind option_bind]. destruct st as [c [] l]; reflexivity.
  - intros k x Hx. change (Z.to_nat 0 + k)%nat with k. unfold vs, ws.
    assert (k < length (mt_state st))%nat by (by eapply lookup_lt_Some). rewrite lookup_app_l by (by rewrite length_fmap).
    by rewrite list_lookup_fmap, Hx.
Qed.

(** C37: the state of each engine survives serialisation: writing it into an
    empty array and reading the array back gives the same state, so a restored
    engine continues the same sequence. *)
Theorem random_serialize_roundtrip t w : list_table [] t ->
  (forall st, 0 <= st < 2 ^ 128 -> exists t', pcg_serialize st (t, w) = Some (t', w) /\ pcg_unserialize (t', w) = Some st) /\
  (forall st, words st -> nonzero st ->
     exists t', xoshiro_serialize st (t, w) = Some (t', w) /\ xoshiro_unserialize (t', w) = Some st) /\
  (forall st, mt_ok st -> exists t', mt_serialize st (t, w) = Some (t', w) /\ mt_unserialize (t', w) = Some st).
Proof.
  intros Ht. split; [intros; by apply pcg_roundtrip|]. split; [intros; by apply xoshiro_roundtrip|].
  intros; by apply mt_roundtrip.
Qed.

(** C38: no array, whatever it holds, makes [unserialize] accept a state that
    the engine could not be in: words keep their width, the forbidden zero
    state is refused, and the position in the state vector is within it. *)
Theorem random_unserialize_valid (s : state pval) :
  (forall st, pcg_unserialize s = Some st -> 0 <= st < 2 ^ 128) /\
  (forall st, xoshiro_unserialize s = Some st -> words st /\ nonzero st) /\
  (forall st, mt_unserialize s = Some st -> mt_ok st).
Proof.
  split; [|split]; intros st.
  - unfold pcg_unserialize. destruct (negb _); [done|]. destruct (find_words _ _ _ _) as [u|]; [|done].
    cbn [mbind option_bind]. intros [= <-]. unfold Native.php_random_uint128_constant, u128. apply Z.mod_pos_bound. lia.
  - unfold xoshiro_unserialize. destruct (negb _); [done|]. destruct (find_words _ _ _ _) as [u|] eqn:Hu; [|done].
    apply find_words_range in Hu as [Hl Hf]. cbn [mbind option_bind]. cbv zeta.
    assert (forall i, 0 <= lget 0 u i < 2 ^ 64) as Hw.
    { intros i. unfold lget. destruct (u !! Z.to_nat i) as [x|] eqn:Hx; cbn; [|lia]. by apply (Forall_lookup_1 _ _ _ _ Hf Hx). }
    cbn [st0 st1 st2 st3]. intros H. assert (st = mk_xoshiro (lget 0 u 0) (lget 0 u 1) (lget 0 u 2) (lget 0 u 3)) as ->.
    { destruct (_ && _) in H; [done|]. by injection H as <-. }
    split; [exact (conj (Hw 0) (conj (Hw 1) (conj (Hw 2) (Hw 3))))|]. intros Hz. injection Hz as H0 H1 H2 H3. by rewrite H0, H1, H2, H3 in H.
  - unfold mt_unserialize. destruct (negb _); [done|]. destruct (find_words _ _ _ _) as [ws|] eqn:Hu; [|done].
    apply find_words_range in Hu as [Hl Hf]. cbn [mbind option_bind]. destruct (find_long N s) as [l|]; [|done]. cbn [mbind option_bind].
    destruct (Z.ltb_spec N (u32 l)); [done|]. destruct (find_long (N + 1) s) as [m|]; [|done]. cbn [mbind option_bind].
    pose proof (u32_range l). assert (llen ws = N) by (unfold llen; lia).
    assert (forall mode, mt_ok (mk_mt (u32 l) mode ws)) as Hok by (intros mode; split; [done|split; [cbn; lia|done]]).
    destruct (u32 m =? 0); [intros [= <-]; apply Hok|]. destruct (u32 m =? 1); [intros [= <-]; apply Hok|done].
Qed.

End Serialize.

(** * Concrete instances *)

#[local] Instance env : ZEnv pval := { junk := fun n => mk_Bucket IS_NULL 0 0 None; ZSTR := fun _ => mk_zend_string [] true }.

Lemma random_serialize_roundtrip_witness :
  exists t, zend_new_array 1 HT_MIN_SIZE = Some t /\
    forall w, exists t', xoshiro_serialize (php_random_xoshiro256starstar_seed64 7) (t, w) = Some (t', w) /\
      xoshiro_unserialize (t', w) = Some (php_random_xoshiro256starstar_seed64 7).
Proof.
  destruct (list_new (V:=pval) 1) as (t & Heq & Ht). exists t. split; [exact Heq|]. intros w.
  assert (word 7) as H7 by (unfold word; lia). destruct (seed64_ok 7 H7) as [Hw Hn].
  destruct (random_serialize_roundtrip t w Ht) as (_ & Hx & _).
  exact (Hx (php_random_xoshiro256starstar_seed64 7) Hw Hn).
Defined.

Lemma random_unserialize_valid_witness :
  exists (s : state pval) st, mt_unserialize s = Some st /\ mt_ok st.
Proof.
  destruct (list_new (V:=pval) 1) as (t & _ & Ht).
  assert (mt_ok zero_state) as Hz.
  { split; [reflexivity|]. split; [split; [done|by unfold N]|]. apply Forall_replicate. split; lia. }
  destruct (mt_roundtrip zero_state t (mk_EG [] 0 ∅ []) Hz Ht) as (t' & _ & Hu).
  exists (t', mk_EG [] 0 ∅ []), zero_state. split; [exact Hu|].
  destruct (random_unserialize_valid (t', mk_EG [] 0 ∅ [])) as (_ & _ & H). exact (H zero_state Hu).
Defined.
