(* ===== verification/MmBitset.v ===== *)
(** The page bitset of the memory manager (src/Zend/zend_alloc.c,
    src/Zend/zend_bitset.h): one bit for each page of a chunk, in 64-bit words.
    Accesses are checked: [None] is an access outside of the bitset, or a loop
    that runs out of fuel; the lemmas show that neither happens. *)

From stdpp Require Import base numbers list gmap.
From S2P Require Import Prelude.

(** * Operations *)

Definition ZEND_MM_PAGES : Z := 512.
Definition ZEND_MM_BITSET_LEN : Z := 64.
Definition ZEND_MM_PAGE_MAP_LEN : Z := ZEND_MM_PAGES / ZEND_MM_BITSET_LEN.

(** [(zend_mm_bitset)-1] *)
Definition ALL_BITS : Z := 18446744073709551615.

(** Trailing set bits of a word, and trailing clear bits (the portable code). *)
Definition nts_step (mask k : Z) (s : Z * Z) : Z * Z :=
  let '(n, bitset) := s in
  if Z.land bitset mask =? mask then (n + k, Z.shiftr bitset k) else (n, bitset).
Definition zend_mm_bitset_nts (bitset : Z) : Z :=
  if bitset =? ALL_BITS then ZEND_MM_BITSET_LEN
  else
    let '(n, bitset) := nts_step 0x3 2 (nts_step 0xf 4 (nts_step 0xff 8
                          (nts_step 0xffff 16 (nts_step 0xffffffff 32 (0, bitset))))) in
    n + Z.land bitset 1.

Definition ntz_step (mask k : Z) (s : Z * Z) : Z * Z :=
  let '(n, num) := s in
  if Z.land num mask =? 0 then (n + k, Z.shiftr num k) else (n, num).
Definition zend_ulong_ntz (num : Z) : Z :=
  if num =? 0 then 64
  else
    let '(n, num) := ntz_step 0x3 2 (ntz_step 0xf 4 (ntz_step 0xff 8
                       (ntz_step 0xffff 16 (ntz_step 0xffffffff 32 (1, num))))) in
    n - Z.land num 1.

(** [bitset[pos] = f(bitset[pos])] *)
Definition update_word (bitset : list Z) (pos : Z) (f : Z -> Z) : option (list Z) :=
  w ← lload bitset pos; lstore bitset pos (f w).

Definition zend_mm_bitset_is_set (bitset : list Z) (bit : Z) : option bool :=
  w ← lload bitset (bit / ZEND_MM_BITSET_LEN);
  Some (negb (Z.land (Z.shiftr w (Z.land bit (ZEND_MM_BITSET_LEN - 1))) 1 =? 0)).

Definition zend_mm_bitset_set_bit (bitset : list Z) (bit : Z) : option (list Z) :=
  update_word bitset (bit / ZEND_MM_BITSET_LEN)
    (fun w => Z.lor w (u64 (Z.shiftl 1 (Z.land bit (ZEND_MM_BITSET_LEN - 1))))).

(** [~x] on a word *)
Definition not64 (x : Z) : Z := Z.lxor x ALL_BITS.

Definition zend_mm_bitset_reset_bit (bitset : list Z) (bit : Z) : option (list Z) :=
  update_word bitset (bit / ZEND_MM_BITSET_LEN)
    (fun w => Z.land w (not64 (u64 (Z.shiftl 1 (Z.land bit (ZEND_MM_BITSET_LEN - 1)))))).

(** [while (pos != end) bitset[pos++] = v;] *)
Fixpoint fill_words (n : nat) (bitset : list Z) (pos end_ v : Z) : option (list Z * Z) :=
  if pos =? end_ then Some (bitset, pos)
  else match n with
       | O => None
       | S n => bitset ← lstore bitset pos v; fill_words n bitset (pos + 1) end_ v
       end.

(** The masks "from [bit] to the last bit" and "from bit 0 to [end]". *)
Definition mask_from (bit : Z) : Z := u64 (Z.shiftl ALL_BITS bit).
Definition mask_to (end_ : Z) : Z := Z.shiftr ALL_BITS (ZEND_MM_BITSET_LEN - 1 - end_).

Definition zend_mm_bitset_set_range (bitset : list Z) (start len : Z) : option (list Z) :=
  if len =? 1 then zend_mm_bitset_set_bit bitset start
  else
    let pos := start / ZEND_MM_BITSET_LEN in
    let end_ := (start + len - 1) / ZEND_MM_BITSET_LEN in
    let bit := Z.land start (ZEND_MM_BITSET_LEN - 1) in
    let last := Z.land (start + len - 1) (ZEND_MM_BITSET_LEN - 1) in
    if negb (pos =? end_) then
      bitset ← update_word bitset pos (fun w => Z.lor w (mask_from bit));
      '(bitset, pos) ← fill_words 8 bitset (pos + 1) end_ ALL_BITS;
      update_word bitset pos (fun w => Z.lor w (mask_to last))
    else update_word bitset pos (fun w => Z.lor w (Z.land (mask_from bit) (mask_to last))).

Definition zend_mm_bitset_reset_range (bitset : list Z) (start len : Z) : option (list Z) :=
  if len =? 1 then zend_mm_bitset_reset_bit bitset start
  else
    let pos := start / ZEND_MM_BITSET_LEN in
    let end_ := (start + len - 1) / ZEND_MM_BITSET_LEN in
    let bit := Z.land start (ZEND_MM_BITSET_LEN - 1) in
    let last := Z.land (start + len - 1) (ZEND_MM_BITSET_LEN - 1) in
    if negb (pos =? end_) then
      let tmp := not64 (u64 (u64 (Z.shiftl 1 bit) - 1)) in
      bitset ← update_word bitset pos (fun w => Z.land w (not64 tmp));
      '(bitset, pos) ← fill_words 8 bitset (pos + 1) end_ 0;
      update_word bitset pos (fun w => Z.land w (not64 (mask_to last)))
    else update_word bitset pos (fun w => Z.land w (not64 (Z.land (mask_from bit) (mask_to last)))).

(** [while (pos != end) if (bitset[pos++] != 0) return 0;] *)
Fixpoint zero_words (n : nat) (bitset : list Z) (pos end_ : Z) : option bool :=
  if pos =? end_ then Some true
  else match n with
       | O => None
       | S n => w ← lload bitset pos; if negb (w =? 0) then Some false else zero_words n bitset (pos + 1) end_
       end.

Definition zend_mm_bitset_is_free_range (bitset : list Z) (start len : Z) : option bool :=
  if len =? 1 then s ← zend_mm_bitset_is_set bitset start; Some (negb s)
  else
    let pos := start / ZEND_MM_BITSET_LEN in
    let end_ := (start + len - 1) / ZEND_MM_BITSET_LEN in
    let bit := Z.land start (ZEND_MM_BITSET_LEN - 1) in
    let last := Z.land (start + len - 1) (ZEND_MM_BITSET_LEN - 1) in
    if negb (pos =? end_) then
      w ← lload bitset pos;
      if negb (Z.land w (mask_from bit) =? 0) then Some false
      else
        z ← zero_words 8 bitset (pos + 1) end_;
        if negb z then Some false
        else w ← lload bitset end_; Some (Z.land w (mask_to last) =? 0)
    else w ← lload bitset pos; Some (Z.land w (Z.land (mask_from bit) (mask_to last)) =? 0).

(** * Bits of words *)

Definition word64 (w : Z) : Prop := 0 <= w < 2 ^ 64.

Lemma word64_high w j : word64 w -> 64 <= j -> Z.testbit w j = false.
Proof.
  intros Hw Hj. destruct (decide (w = 0)) as [->|]; [apply Z.bits_0|].
  apply Z.bits_above_log2; [apply Hw|]. assert (Z.log2 w < 64); [|lia].
  apply Z.log2_lt_pow2; [unfold word64 in Hw; lia|apply Hw].
Qed.

Lemma word64_eq a b : word64 a -> word64 b -> (forall j, 0 <= j < 64 -> Z.testbit a j = Z.testbit b j) -> a = b.
Proof.
  intros Ha Hb H. apply Z.bits_inj'. intros j Hj. destruct (decide (j < 64)); [apply H; lia|].
  by rewrite !word64_high by (done || lia).
Qed.

Lemma word64_bits w : 0 <= w -> (forall j, 64 <= j -> Z.testbit w j = false) -> word64 w.
Proof.
  intros H0 H. split; [done|]. destruct (decide (w = 0)) as [->|Hn]; [lia|].
  apply Z.log2_lt_pow2; [lia|]. destruct (decide (Z.log2 w < 64)); [done|].
  specialize (H (Z.log2 w) ltac:(lia)). rewrite Z.bit_log2 in H by lia. done.
Qed.

Lemma ALL_BITS_ones : ALL_BITS = Z.ones 64.
Proof. reflexivity. Qed.

Lemma testbit_ALL_BITS j : 0 <= j -> Z.testbit ALL_BITS j = bool_decide (j < 64).
Proof. intros. rewrite ALL_BITS_ones, Z.testbit_ones by lia. case_bool_decide; zbool; done || lia. Qed.

Lemma testbit_u64 z j : 0 <= j -> Z.testbit (u64 z) j = bool_decide (j < 64) && Z.testbit z j.
Proof.
  intros. unfold u64. case_bool_decide.
  - by rewrite Z.mod_pow2_bits_low by lia.
  - by rewrite Z.mod_pow2_bits_high by lia.
Qed.

Lemma testbit_not64 w j : 0 <= j -> Z.testbit (not64 w) j = if bool_decide (j < 64) then negb (Z.testbit w j) else Z.testbit w j.
Proof. intros. unfold not64. rewrite Z.lxor_spec, testbit_ALL_BITS by done. case_bool_decide; by destruct (Z.testbit w j). Qed.

Lemma testbit_mask_from bit j : 0 <= bit -> 0 <= j < 64 -> Z.testbit (mask_from bit) j = bool_decide (bit <= j).
Proof.
  intros Hb Hj. unfold mask_from. rewrite testbit_u64, Z.shiftl_spec by lia. case_bool_decide; [|lia]. cbn [andb].
  case_bool_decide.
  - rewrite testbit_ALL_BITS by lia. by case_bool_decide; [|lia].
  - by rewrite Z.testbit_neg_r by lia.
Qed.

Lemma testbit_mask_to e j : 0 <= e < 64 -> 0 <= j < 64 -> Z.testbit (mask_to e) j = bool_decide (j <= e).
Proof.
  intros He Hj. unfold mask_to. rewrite Z.shiftr_spec, testbit_ALL_BITS by (unfold ZEND_MM_BITSET_LEN; lia).
  unfold ZEND_MM_BITSET_LEN. do 2 case_bool_decide; done || lia.
Qed.

Lemma word64_lor a b : word64 a -> word64 b -> word64 (Z.lor a b).
Proof. intros. by apply lor_range. Qed.

Lemma word64_land a b : word64 a -> word64 (Z.land a b).
Proof.
  intros Ha. apply word64_bits; [apply Z.land_nonneg; left; apply Ha|].
  intros j Hj. by rewrite Z.land_spec, word64_high.
Qed.

Lemma word64_u64 z : word64 (u64 z).
Proof. apply u64_range. Qed.

Lemma word64_mask_to e : word64 (mask_to e) \/ ~ (0 <= e < 64).
Proof.
  destruct (decide (0 <= e < 64)) as [He|]; [left|by right]. apply word64_bits.
  - apply Z.shiftr_nonneg. done.
  - intros j Hj. unfold mask_to, ZEND_MM_BITSET_LEN. rewrite Z.shiftr_spec, testbit_ALL_BITS by lia.
    by case_bool_decide; [lia|].
Qed.

(** * Trailing bits *)

(** Below [n] all bits of [x0] are [b]; the remaining word [x] has a bit
    different from [b] in its first [w] ones. *)
Definition scan_inv (b : bool) (x0 w n x : Z) : Prop :=
  0 <= n /\ x = Z.shiftr x0 n /\ (forall j, 0 <= j < n -> Z.testbit x0 j = b) /\
  exists j, 0 <= j < w /\ Z.testbit x j = negb b.

Lemma scan_inv_step b x0 k n x : 0 < k -> scan_inv b x0 (2 * k) n x ->
  (forall j, 0 <= j < k -> Z.testbit x j = b) -> scan_inv b x0 k (n + k) (Z.shiftr x k).
Proof.
  intros Hk (Hn & -> & Hb & j & Hj & Hjb) Hlow. split; [lia|]. split; [by rewrite Z.shiftr_shiftr by lia|]. split.
  - intros i Hi. destruct (decide (i < n)); [apply Hb; lia|].
    specialize (Hlow (i - n) ltac:(lia)). rewrite Z.shiftr_spec in Hlow by lia. by replace (i - n + n) with i in Hlow by lia.
  - destruct (decide (j < k)); [rewrite Hlow in Hjb by lia; by destruct b|].
    exists (j - k). split; [lia|]. rewrite Z.shiftr_spec by lia. by replace (j - k + k) with j by lia.
Qed.

Lemma scan_inv_stay b x0 k n x : scan_inv b x0 (2 * k) n x ->
  (exists j, 0 <= j < k /\ Z.testbit x j = negb b) -> scan_inv b x0 k n x.
Proof. intros (Hn & -> & Hb & _) Hj. by repeat split. Qed.

(** The tests on the low half. *)
Lemma land_ones_test x k : 0 <= k ->
  if Z.land x (Z.ones k) =? Z.ones k then (forall j, 0 <= j < k -> Z.testbit x j = true)
  else exists j, 0 <= j < k /\ Z.testbit x j = false.
Proof.
  intros Hk. destruct (Z.eqb_spec (Z.land x (Z.ones k)) (Z.ones k)) as [E|E].
  - intros j Hj. assert (Z.testbit (Z.land x (Z.ones k)) j = Z.testbit (Z.ones k) j) as H by (by rewrite E).
    rewrite Z.land_spec, Z.ones_spec_low, andb_true_r in H by lia. done.
  - destruct (decide (Forall (fun j => Z.testbit x j = true) (zrange 0 (Z.to_nat k)))) as [F|F].
    + destruct E. apply Z.bits_inj'. intros j Hj. rewrite Z.land_spec. destruct (decide (j < k)).
      * rewrite Z.ones_spec_low, andb_true_r by lia. rewrite Forall_forall in F. apply (F j), elem_of_zrange. lia.
      * by rewrite Z.ones_spec_high, andb_false_r by lia.
    + apply not_Forall_Exists, Exists_exists in F as (j & Hj%elem_of_zrange & F); [|apply _].
      exists j. split; [lia|]. by apply not_true_is_false.
Qed.

Lemma land_zero_test x k : 0 <= k ->
  if Z.land x (Z.ones k) =? 0 then (forall j, 0 <= j < k -> Z.testbit x j = false)
  else exists j, 0 <= j < k /\ Z.testbit x j = true.
Proof.
  intros Hk. destruct (Z.eqb_spec (Z.land x (Z.ones k)) 0) as [E|E].
  - intros j Hj. assert (Z.testbit (Z.land x (Z.ones k)) j = Z.testbit 0 j) as H by (by rewrite E).
    rewrite Z.land_spec, Z.ones_spec_low, andb_true_r, Z.bits_0 in H by lia. done.
  - destruct (decide (Forall (fun j => Z.testbit x j = false) (zrange 0 (Z.to_nat k)))) as [F|F].
    + destruct E. apply Z.bits_inj'. intros j Hj. rewrite Z.land_spec, Z.bits_0. destruct (decide (j < k)).
      * rewrite Forall_forall in F. rewrite F; [done|]. apply elem_of_zrange. lia.
      * by rewrite Z.ones_spec_high, andb_false_r by lia.
    + apply not_Forall_Exists, Exists_exists in F as (j & Hj%elem_of_zrange & F); [|apply _].
      exists j. split; [lia|]. by apply not_false_is_true.
Qed.

Lemma nts_step_inv x0 k s : 0 < k -> scan_inv true x0 (2 * k) s.1 s.2 ->
  scan_inv true x0 k (nts_step (Z.ones k) k s).1 (nts_step (Z.ones k) k s).2.
Proof.
  destruct s as [n x]. intros Hk Hi. unfold nts_step. pose proof (land_ones_test x k ltac:(lia)) as Ht.
  destruct (_ =? _); [by apply scan_inv_step|by apply scan_inv_stay].
Qed.

Lemma ntz_step_inv x0 k n x : 0 < k -> scan_inv false x0 (2 * k) (n - 1) x ->
  scan_inv false x0 k ((ntz_step (Z.ones k) k (n, x)).1 - 1) (ntz_step (Z.ones k) k (n, x)).2.
Proof.
  intros Hk Hi. unfold ntz_step. pose proof (land_zero_test x k ltac:(lia)) as Ht.
  destruct (_ =? _); cbn [fst snd]; [|by apply scan_inv_stay].
  replace (n + k - 1) with (n - 1 + k) by lia. by apply scan_inv_step.
Qed.

Lemma land_1 x : Z.land x 1 = Z.b2z (Z.testbit x 0).
Proof.
  change 1 with (Z.ones 1) at 1. rewrite Z.land_ones by lia. rewrite Z.bit0_mod. done.
Qed.

(** The position of the first bit that is not [b]. *)
Lemma scan_inv_end b x0 n x : scan_inv b x0 2 n x ->
  let t := n + Z.b2z (Bool.eqb (Z.testbit x 0) b) in
  0 <= t /\ Z.testbit x0 t = negb b /\ (forall j, 0 <= j < t -> Z.testbit x0 j = b).
Proof.
  intros (Hn & -> & Hb & j & Hj & Hjb). cbv zeta. rewrite Z.shiftr_spec in Hjb |- * by lia.
  rewrite Z.add_0_l. destruct (Bool.eqb_spec (Z.testbit x0 n) b) as [E|E]; cbn [Z.b2z].
  - assert (j = 1) as ->. { destruct (decide (j = 0)) as [->|]; [|lia]. rewrite Z.add_0_l, E in Hjb. by destruct b. }
    replace (n + 1) with (1 + n) by lia. split; [lia|]. split; [done|].
    intros i Hi. destruct (decide (i = n)) as [->|]; [done|]. apply Hb. lia.
  - rewrite Z.add_0_r. split; [done|]. split; [by destruct (Z.testbit x0 n), b|done].
Qed.

Lemma some_clear_bit x : word64 x -> x <> ALL_BITS -> exists j, 0 <= j < 64 /\ Z.testbit x j = false.
Proof.
  intros Hx Hn. pose proof (land_ones_test x 64 ltac:(lia)) as H.
  destruct (Z.eqb_spec (Z.land x (Z.ones 64)) (Z.ones 64)) as [E|E]; [|done].
  destruct Hn. rewrite ALL_BITS_ones, <- E, Z.land_ones by lia. unfold word64 in Hx. by rewrite Z.mod_small.
Qed.

Lemma some_set_bit x : word64 x -> x <> 0 -> exists j, 0 <= j < 64 /\ Z.testbit x j = true.
Proof.
  intros Hx Hn. exists (Z.log2 x). unfold word64 in Hx. split; [|apply Z.bit_log2; lia].
  split; [apply Z.log2_nonneg|]. apply Z.log2_lt_pow2; lia.
Qed.

Lemma nts_spec x : word64 x -> x <> ALL_BITS ->
  let t := zend_mm_bitset_nts x in
  0 <= t < 64 /\ Z.testbit x t = false /\ (forall j, 0 <= j < t -> Z.testbit x j = true).
Proof.
  intros Hx Hn. unfold zend_mm_bitset_nts. destruct (Z.eqb_spec x ALL_BITS) as [|_]; [done|].
  assert (scan_inv true x (2 * 32) 0 x) as Hi.
  { split; [done|]. split; [done|]. split; [lia|]. by apply some_clear_bit. }
  apply (nts_step_inv x 32 (0, x)) in Hi; [|done]. apply (nts_step_inv x 16) in Hi; [|done].
  apply (nts_step_inv x 8) in Hi; [|done]. apply (nts_step_inv x 4) in Hi; [|done]. apply (nts_step_inv x 2) in Hi; [|done].
  change (Z.ones 32) with 0xffffffff in Hi. change (Z.ones 16) with 0xffff in Hi. change (Z.ones 8) with 0xff in Hi.
  change (Z.ones 4) with 0xf in Hi. change (Z.ones 2) with 0x3 in Hi.
  destruct (nts_step 0x3 2 _) as [n y]. cbn [fst snd] in Hi. apply scan_inv_end in Hi. cbv zeta in Hi |- *.
  rewrite land_1. replace (Bool.eqb (Z.testbit y 0) true) with (Z.testbit y 0) in Hi by (by destruct (Z.testbit y 0)).
  destruct Hi as (H0 & Ht & Hl). repeat split; try done.
  destruct (some_clear_bit x Hx Hn) as (j & Hj & Hjf). destruct (decide (n + Z.b2z (Z.testbit y 0) <= j)); [lia|].
  rewrite Hl in Hjf by lia. done.
Qed.

Lemma ntz_spec x : word64 x -> x <> 0 ->
  let t := zend_ulong_ntz x in
  0 <= t < 64 /\ Z.testbit x t = true /\ (forall j, 0 <= j < t -> Z.testbit x j = false).
Proof.
  intros Hx Hn. unfold zend_ulong_ntz. destruct (Z.eqb_spec x 0) as [|_]; [done|].
  assert (scan_inv false x (2 * 32) (1 - 1) x) as Hi.
  { split; [done|]. split; [done|]. split; [lia|]. by apply some_set_bit. }
  apply ntz_step_inv in Hi; [|done]. change (Z.ones 32) with 0xffffffff in Hi. destruct (ntz_step 0xffffffff 32 _) as [n1 y1].
  apply (ntz_step_inv x 16) in Hi; [|done]. change (Z.ones 16) with 0xffff in Hi. cbn [fst snd] in Hi.
  destruct (ntz_step 0xffff 16 _) as [n2 y2].
  apply (ntz_step_inv x 8) in Hi; [|done]. change (Z.ones 8) with 0xff in Hi. cbn [fst snd] in Hi.
  destruct (ntz_step 0xff 8 _) as [n3 y3].
  apply (ntz_step_inv x 4) in Hi; [|done]. change (Z.ones 4) with 0xf in Hi. cbn [fst snd] in Hi.
  destruct (ntz_step 0xf 4 _) as [n4 y4].
  apply (ntz_step_inv x 2) in Hi; [|done]. change (Z.ones 2) with 0x3 in Hi. cbn [fst snd] in Hi.
  destruct (ntz_step 0x3 2 _) as [n y]. cbn [fst snd] in Hi. apply scan_inv_end in Hi. cbv zeta in Hi |- *.
  rewrite land_1. replace (n - 1 + Z.b2z (Bool.eqb (Z.testbit y 0) false)) with (n - Z.b2z (Z.testbit y 0)) in Hi
    by (destruct (Z.testbit y 0); cbn; lia).
  destruct Hi as (H0 & Ht & Hl). repeat split; try done.
  destruct (some_set_bit x Hx Hn) as (j & Hj & Hjt). destruct (decide (n - Z.b2z (Z.testbit y 0) <= j)); [lia|].
  rewrite Hl in Hjt by lia. done.
Qed.

(** * Pages *)

Definition page_set (m : list Z) (p : Z) : bool := Z.testbit (lget 0 m (p / 64)) (p mod 64).
Definition map_ok (m : list Z) : Prop := length m = 8%nat /\ Forall word64 m.
Definition in_range (start len p : Z) : bool := bool_decide (start <= p < start + len).

Lemma land_63 x : Z.land x (ZEND_MM_BITSET_LEN - 1) = x mod 64.
Proof. apply (land_pred_mod x 6). lia. Qed.

Lemma map_word m k : map_ok m -> 0 <= k < 8 -> lload m k = Some (lget 0 m k) /\ word64 (lget 0 m k).
Proof.
  intros [Hl Hf] Hk. assert (m !! Z.to_nat k = Some (lget 0 m k)) as E by (apply lget_lookup; unfold llen; lia).
  split; [|by eapply Forall_lookup_1 in Hf]. unfold lload. destruct (Z.ltb_spec k 0); [lia|done].
Qed.

Lemma map_store m k w : map_ok m -> 0 <= k < 8 -> word64 w ->
  lstore m k w = Some (lset m k w) /\ map_ok (lset m k w) /\
  forall p, 0 <= p < 512 -> page_set (lset m k w) p = if p / 64 =? k then Z.testbit w (p mod 64) else page_set m p.
Proof.
  intros [Hl Hf] Hk Hw. unfold lstore, llen. rewrite Hl. split; [zbool; lia || done|]. split.
  - split; [unfold lset; by rewrite length_insert|]. by apply Forall_insert.
  - intros p Hp. unfold page_set. destruct (Z.eqb_spec (p / 64) k) as [->|E].
    + by rewrite lget_lset_eq by (unfold llen; lia).
    + rewrite lget_lset_ne; [done|lia|zlia|lia].
Qed.

Lemma update_word_spec m k f : map_ok m -> 0 <= k < 8 -> (forall w, word64 w -> word64 (f w)) ->
  exists m', update_word m k f = Some m' /\ map_ok m' /\
    forall p, 0 <= p < 512 -> page_set m' p = if p / 64 =? k then Z.testbit (f (lget 0 m k)) (p mod 64) else page_set m p.
Proof.
  intros Hm Hk Hf. destruct (map_word m k Hm Hk) as [E Hw].
  destruct (map_store m k _ Hm Hk (Hf _ Hw)) as (Es & Hm' & Hp).
  exists (lset m k (f (lget 0 m k))). split; [|done]. unfold update_word. rewrite E. exact Es.
Qed.

Lemma fill_words_spec n v : forall m pos end_, map_ok m -> word64 v -> 0 <= pos <= end_ -> end_ <= 8 ->
  end_ - pos <= Z.of_nat n ->
  exists m', fill_words n m pos end_ v = Some (m', end_) /\ map_ok m' /\
    forall p, 0 <= p < 512 ->
      page_set m' p = if bool_decide (pos <= p / 64 < end_) then Z.testbit v (p mod 64) else page_set m p.
Proof.
  induction n as [|n IH]; intros m pos end_ Hm Hv Hpos He Hn; cbn [fill_words];
    destruct (Z.eqb_spec pos end_) as [->|Hne]; try lia.
  1, 2: exists m; split; [done|]; split; [done|]; intros p Hp; by case_bool_decide; [lia|].
  destruct (map_store m pos v Hm ltac:(lia) Hv) as (-> & Hm1 & Hp1). cbn [mbind option_bind].
  destruct (IH (lset m pos v) (pos + 1) end_ Hm1 Hv ltac:(lia) He ltac:(lia)) as (m' & -> & Hm' & Hp').
  exists m'. split; [done|]. split; [done|]. intros p Hp. rewrite Hp' by done.
  case_bool_decide; case_bool_decide; try lia; try done.
  - rewrite Hp1 by done. destruct (Z.eqb_spec (p / 64) pos); [done|lia].
  - rewrite Hp1 by done. destruct (Z.eqb_spec (p / 64) pos); [lia|done].
Qed.

Lemma word64_not64 w : word64 w -> word64 (not64 w).
Proof. intros. by apply lxor_range. Qed.

Lemma page_index p : 0 <= p < 512 -> 0 <= p / 64 < 8 /\ 0 <= p mod 64 < 64 /\ p = 64 * (p / 64) + p mod 64.
Proof. zlia. Qed.

(** The mask used to clear from a bit on is the same mask. *)
Lemma reset_mask bit j : 0 <= bit < 64 -> 0 <= j < 64 ->
  Z.testbit (not64 (u64 (u64 (Z.shiftl 1 bit) - 1))) j = bool_decide (bit <= j).
Proof.
  intros Hb Hj. rewrite testbit_not64 by lia. case_bool_decide; [|lia].
  rewrite Z.shiftl_1_l. assert (2 ^ bit < 2 ^ 64) by (apply Z.pow_lt_mono_r; lia).
  assert (0 < 2 ^ bit) by (apply Z.pow_pos_nonneg; lia).
  rewrite (u64_small (2 ^ bit)), (u64_small (2 ^ bit - 1)) by lia.
  rewrite Z.sub_1_r, <- Z.ones_equiv, Z.testbit_ones by lia. case_bool_decide; zbool; done || lia.
Qed.


Ltac page_cases p :=
  let H := fresh "H" in
  intros p H; pose proof (page_index p H).

Lemma testbit_one_bit bit j : 0 <= bit < 64 -> 0 <= j < 64 ->
  Z.testbit (u64 (Z.shiftl 1 bit)) j = bool_decide (bit = j).
Proof.
  intros Hb Hj. rewrite testbit_u64, Z.shiftl_1_l by lia. case_bool_decide; [|lia]. cbn [andb].
  destruct (decide (bit = j)) as [->|Hn].
  - by rewrite Z.pow2_bits_true, bool_decide_true by lia.
  - by rewrite Z.pow2_bits_false, bool_decide_false by lia.
Qed.

Lemma set_bit_spec m start : map_ok m -> 0 <= start < 512 ->
  exists m', zend_mm_bitset_set_bit m start = Some m' /\ map_ok m' /\
    forall p, 0 <= p < 512 -> page_set m' p = page_set m p || in_range start 1 p.
Proof.
  intros Hm Hs. unfold zend_mm_bitset_set_bit. rewrite land_63. change ZEND_MM_BITSET_LEN with 64.
  pose proof (page_index start Hs).
  destruct (update_word_spec m (start / 64) (fun w => Z.lor w (u64 (Z.shiftl 1 (start mod 64)))) Hm ltac:(lia))
    as (m' & -> & Hm' & Hp'); [intros; apply word64_lor; [done|apply word64_u64]|].
  exists m'. split; [done|]. split; [done|]. page_cases p. rewrite Hp' by done. unfold in_range.
  destruct (Z.eqb_spec (p / 64) (start / 64)) as [E|E].
  - rewrite Z.lor_spec, testbit_one_bit by lia. unfold page_set. rewrite E. f_equal. apply bool_decide_ext. lia.
  - by rewrite bool_decide_false, orb_false_r by lia.
Qed.

Lemma reset_bit_spec m start : map_ok m -> 0 <= start < 512 ->
  exists m', zend_mm_bitset_reset_bit m start = Some m' /\ map_ok m' /\
    forall p, 0 <= p < 512 -> page_set m' p = page_set m p && negb (in_range start 1 p).
Proof.
  intros Hm Hs. unfold zend_mm_bitset_reset_bit. rewrite land_63. change ZEND_MM_BITSET_LEN with 64.
  pose proof (page_index start Hs).
  destruct (update_word_spec m (start / 64) (fun w => Z.land w (not64 (u64 (Z.shiftl 1 (start mod 64))))) Hm ltac:(lia))
    as (m' & -> & Hm' & Hp'); [intros; by apply word64_land|].
  exists m'. split; [done|]. split; [done|]. page_cases p. rewrite Hp' by done. unfold in_range.
  destruct (Z.eqb_spec (p / 64) (start / 64)) as [E|E].
  - rewrite Z.land_spec, testbit_not64, testbit_one_bit, (bool_decide_true (p mod 64 < 64)) by lia.
    unfold page_set. rewrite E. do 2 f_equal. apply bool_decide_ext. lia.
  - by rewrite bool_decide_false, andb_true_r by lia.
Qed.

(** A range that ends in another word than it starts in. *)
Ltac range_words start len :=
  let s := constr:(start) in let e := constr:(start + len - 1) in
  pose proof (Z.div_mod s 64 ltac:(lia)); pose proof (Z.mod_pos_bound s 64 ltac:(lia));
  pose proof (Z.div_mod e 64 ltac:(lia)); pose proof (Z.mod_pos_bound e 64 ltac:(lia)).

Lemma set_range_spec m start len : map_ok m -> 0 <= start -> 1 <= len -> start + len <= 512 ->
  exists m', zend_mm_bitset_set_range m start len = Some m' /\ map_ok m' /\
    forall p, 0 <= p < 512 -> page_set m' p = page_set m p || in_range start len p.
Proof.
  intros Hm Hs Hl He. unfold zend_mm_bitset_set_range. destruct (Z.eqb_spec len 1) as [->|Hl1].
  { apply set_bit_spec; done || lia. }
  rewrite !land_63. change ZEND_MM_BITSET_LEN with 64. range_words start len.
  set (a := start / 64) in *. set (b := start mod 64) in *. set (c := (start + len - 1) / 64) in *.
  set (d := (start + len - 1) mod 64) in *. clearbody a b c d.
  assert (word64 (mask_to d)) as Hw by (by destruct (word64_mask_to d)).
  destruct (Z.eqb_spec a c) as [->|Hac]; cbn [negb].
  - destruct (update_word_spec m c (fun w => Z.lor w (Z.land (mask_from b) (mask_to d))) Hm ltac:(lia))
      as (m' & -> & Hm' & Hp'); [intros; apply word64_lor; [done|apply word64_land, word64_u64]|].
    exists m'. split; [done|]. split; [done|]. page_cases p. rewrite Hp' by done. unfold in_range.
    destruct (Z.eqb_spec (p / 64) c) as [E|E].
    + rewrite Z.lor_spec, Z.land_spec, testbit_mask_from, testbit_mask_to by lia. unfold page_set. rewrite E. f_equal.
      repeat case_bool_decide; done || lia.
    + by rewrite bool_decide_false, orb_false_r by lia.
  - destruct (update_word_spec m a (fun w => Z.lor w (mask_from b)) Hm ltac:(lia))
      as (m1 & -> & Hm1 & Hp1); [intros; apply word64_lor; [done|apply word64_u64]|]. cbn [mbind option_bind].
    destruct (fill_words_spec 8 ALL_BITS m1 (a + 1) c Hm1 ltac:(done) ltac:(lia) ltac:(lia) ltac:(lia))
      as (m2 & -> & Hm2 & Hp2). cbn [mbind option_bind].
    destruct (update_word_spec m2 c (fun w => Z.lor w (mask_to d)) Hm2 ltac:(lia))
      as (m' & -> & Hm' & Hp'); [intros; by apply word64_lor|].
    exists m'. split; [done|]. split; [done|]. page_cases p. rewrite Hp' by done. unfold in_range.
    destruct (Z.eqb_spec (p / 64) c) as [E|E].
    + rewrite Z.lor_spec, testbit_mask_to by lia.
      assert (Z.testbit (lget 0 m2 c) (p mod 64) = page_set m2 p) as -> by (unfold page_set; by rewrite E).
      rewrite Hp2, bool_decide_false, Hp1 by lia. destruct (Z.eqb_spec (p / 64) a); [lia|]. f_equal.
      apply bool_decide_ext. lia.
    + rewrite Hp2 by done. case_bool_decide.
      * rewrite testbit_ALL_BITS, (bool_decide_true (start <= p < _)), bool_decide_true by lia. by rewrite orb_true_r.
      * rewrite Hp1 by done. destruct (Z.eqb_spec (p / 64) a) as [E2|E2].
        -- rewrite Z.lor_spec, testbit_mask_from by lia. unfold page_set. rewrite E2. f_equal. apply bool_decide_ext. lia.
        -- by rewrite bool_decide_false, orb_false_r by lia.
Qed.

Lemma reset_range_spec m start len : map_ok m -> 0 <= start -> 1 <= len -> start + len <= 512 ->
  exists m', zend_mm_bitset_reset_range m start len = Some m' /\ map_ok m' /\
    forall p, 0 <= p < 512 -> page_set m' p = page_set m p && negb (in_range start len p).
Proof.
  intros Hm Hs Hl He. unfold zend_mm_bitset_reset_range. destruct (Z.eqb_spec len 1) as [->|Hl1].
  { apply reset_bit_spec; done || lia. }
  rewrite !land_63. change ZEND_MM_BITSET_LEN with 64. range_words start len.
  set (a := start / 64) in *. set (b := start mod 64) in *. set (c := (start + len - 1) / 64) in *.
  set (d := (start + len - 1) mod 64) in *. clearbody a b c d.
  destruct (Z.eqb_spec a c) as [->|Hac]; cbn [negb].
  - destruct (update_word_spec m c (fun w => Z.land w (not64 (Z.land (mask_from b) (mask_to d)))) Hm ltac:(lia))
      as (m' & -> & Hm' & Hp'); [intros; by apply word64_land|].
    exists m'. split; [done|]. split; [done|]. page_cases p. rewrite Hp' by done. unfold in_range.
    destruct (Z.eqb_spec (p / 64) c) as [E|E].
    + rewrite Z.land_spec, testbit_not64, Z.land_spec, testbit_mask_from, testbit_mask_to, (bool_decide_true (p mod 64 < 64)) by lia.
      unfold page_set. rewrite E. do 2 f_equal. repeat case_bool_decide; done || lia.
    + by rewrite bool_decide_false, andb_true_r by lia.
  - destruct (update_word_spec m a (fun w => Z.land w (not64 (not64 (u64 (u64 (Z.shiftl 1 b) - 1))))) Hm ltac:(lia))
      as (m1 & -> & Hm1 & Hp1); [intros; by apply word64_land|]. cbn [mbind option_bind].
    destruct (fill_words_spec 8 0 m1 (a + 1) c Hm1 ltac:(done) ltac:(lia) ltac:(lia) ltac:(lia))
      as (m2 & -> & Hm2 & Hp2). cbn [mbind option_bind].
    destruct (update_word_spec m2 c (fun w => Z.land w (not64 (mask_to d))) Hm2 ltac:(lia))
      as (m' & -> & Hm' & Hp'); [intros; by apply word64_land|].
    exists m'. split; [done|]. split; [done|]. page_cases p. rewrite Hp' by done. unfold in_range.
    destruct (Z.eqb_spec (p / 64) c) as [E|E].
    + rewrite Z.land_spec, testbit_not64, testbit_mask_to, (bool_decide_true (p mod 64 < 64)) by lia.
      assert (Z.testbit (lget 0 m2 c) (p mod 64) = page_set m2 p) as -> by (unfold page_set; by rewrite E).
      rewrite Hp2, bool_decide_false, Hp1 by lia. destruct (Z.eqb_spec (p / 64) a); [lia|]. do 2 f_equal.
      apply bool_decide_ext. lia.
    + rewrite Hp2 by done. case_bool_decide.
      * rewrite Z.bits_0, (bool_decide_true (start <= p < _)) by lia. by rewrite andb_false_r.
      * rewrite Hp1 by done. destruct (Z.eqb_spec (p / 64) a) as [E2|E2].
        -- rewrite Z.land_spec, testbit_not64, reset_mask, (bool_decide_true (p mod 64 < 64)) by lia.
           unfold page_set. rewrite E2. do 2 f_equal. apply bool_decide_ext. lia.
        -- by rewrite bool_decide_false, andb_true_r by lia.
Qed.

Lemma is_set_spec m p : map_ok m -> 0 <= p < 512 -> zend_mm_bitset_is_set m p = Some (page_set m p).
Proof.
  intros Hm Hp. pose proof (page_index p Hp). unfold zend_mm_bitset_is_set. rewrite land_63.
  change ZEND_MM_BITSET_LEN with 64. destruct (map_word m (p / 64) Hm ltac:(lia)) as [-> _]. cbn. f_equal.
  rewrite land_1, Z.shiftr_spec, Z.add_0_l by lia. unfold page_set. by destruct (Z.testbit _ _).
Qed.

(** A masked word is zero when its bits under the mask are. *)
Lemma masked_zero w k : word64 k -> (Z.land w k =? 0) = true <-> forall j, 0 <= j < 64 -> Z.testbit k j = true -> Z.testbit w j = false.
Proof.
  intros Hk. rewrite Z.eqb_eq. split.
  - intros E j Hj Hkj. assert (Z.testbit (Z.land w k) j = false) as H by (by rewrite E, Z.bits_0).
    rewrite Z.land_spec, Hkj, andb_true_r in H. done.
  - intros H. apply Z.bits_inj'. intros j Hj. rewrite Z.land_spec, Z.bits_0.
    destruct (decide (j < 64)); [|by rewrite (word64_high k), andb_false_r by (done || lia)].
    destruct (Z.testbit k j) eqn:E; [rewrite (H j) by (done || lia); done|apply andb_false_r].
Qed.

Lemma zero_words_spec n m : forall pos end_, map_ok m -> 0 <= pos <= end_ -> end_ <= 8 -> end_ - pos <= Z.of_nat n ->
  exists b, zero_words n m pos end_ = Some b /\
    (b = true <-> forall p, 0 <= p < 512 -> pos <= p / 64 < end_ -> page_set m p = false).
Proof.
  induction n as [|n IH]; intros pos end_ Hm Hp He Hn; cbn [zero_words];
    destruct (Z.eqb_spec pos end_) as [->|Hne]; try lia.
  1, 2: exists true; split; [done|]; split; [intros; lia|done].
  destruct (map_word m pos Hm ltac:(lia)) as [-> Hw]. cbn [mbind option_bind].
  destruct (Z.eqb_spec (lget 0 m pos) 0) as [E|E]; cbn [negb].
  - destruct (IH (pos + 1) end_ Hm ltac:(lia) ltac:(lia) ltac:(lia)) as (b & -> & Hb). exists b. split; [done|].
    rewrite Hb. split; intros H p Hp1 Hp2; [|apply H; lia]. destruct (decide (p / 64 = pos)) as [Ep|].
    + unfold page_set. by rewrite Ep, E, Z.bits_0.
    + apply H; lia.
  - exists false. split; [done|]. split; [done|]. intros H. destruct E. apply word64_eq; [done|done|].
    intros j Hj. rewrite Z.bits_0. specialize (H (64 * pos + j) ltac:(lia)). unfold page_set in H.
    assert ((64 * pos + j) / 64 = pos) as E1 by zlia. assert ((64 * pos + j) mod 64 = j) as E2 by zlia.
    rewrite E1, E2 in H. apply H. lia.
Qed.

Lemma word_bits m k (P : Z -> Prop) : 0 <= k < 8 ->
  (forall j, 0 <= j < 64 -> P j -> Z.testbit (lget 0 m k) j = false) <->
  (forall p, 0 <= p < 512 -> p / 64 = k -> P (p mod 64) -> page_set m p = false).
Proof.
  intros Hk. split.
  - intros H p Hp E HP. unfold page_set. rewrite E. apply H; [|done]. by apply page_index.
  - intros H j Hj HP. specialize (H (64 * k + j) ltac:(lia)). unfold page_set in H.
    assert ((64 * k + j) / 64 = k) as E1 by zlia. assert ((64 * k + j) mod 64 = j) as E2 by zlia.
    rewrite E1, E2 in H. by apply H.
Qed.

Lemma is_free_range_spec m start len : map_ok m -> 0 <= start -> 1 <= len -> start + len <= 512 ->
  exists b, zend_mm_bitset_is_free_range m start len = Some b /\
    (b = true <-> forall p, start <= p < start + len -> page_set m p = false).
Proof.
  intros Hm Hs Hl He. unfold zend_mm_bitset_is_free_range. destruct (Z.eqb_spec len 1) as [->|Hl1].
  { rewrite is_set_spec by (done || lia). cbn. eexists. split; [done|]. rewrite negb_true_iff. split.
    - intros H p Hp. by replace p with start by lia.
    - intros H. apply H. lia. }
  rewrite !land_63. change ZEND_MM_BITSET_LEN with 64. range_words start len.
  set (a := start / 64) in *. set (b := start mod 64) in *. set (c := (start + len - 1) / 64) in *.
  set (d := (start + len - 1) mod 64) in *. clearbody a b c d.
  assert (word64 (mask_to d)) as Hw by (by destruct (word64_mask_to d)).
  assert (word64 (mask_from b)) as Hw' by apply word64_u64.
  destruct (map_word m a Hm ltac:(lia)) as [Ea _]. destruct (map_word m c Hm ltac:(lia)) as [Ec _].
  assert ((Z.land (lget 0 m a) (mask_from b) =? 0) = true <->
    forall p, 0 <= p < 512 -> p / 64 = a -> b <= p mod 64 -> page_set m p = false) as Hfrom.
  { rewrite masked_zero, <- (word_bits m a (fun j => b <= j)) by (done || lia).
    split; intros H' j Hj Hm'; apply H'; try done.
    - rewrite testbit_mask_from by lia. by apply bool_decide_true.
    - rewrite testbit_mask_from in Hm' by lia. by apply bool_decide_eq_true in Hm'. }
  assert ((Z.land (lget 0 m c) (mask_to d) =? 0) = true <->
    forall p, 0 <= p < 512 -> p / 64 = c -> p mod 64 <= d -> page_set m p = false) as Hto.
  { rewrite masked_zero, <- (word_bits m c (fun j => j <= d)) by (done || lia).
    split; intros H' j Hj Hm'; apply H'; try done.
    - rewrite testbit_mask_to by lia. by apply bool_decide_true.
    - rewrite testbit_mask_to in Hm' by lia. by apply bool_decide_eq_true in Hm'. }
  destruct (Z.eqb_spec a c) as [<-|Hac]; cbn [negb].
  - rewrite Ea. cbn [mbind option_bind]. eexists. split; [done|].
    rewrite masked_zero by (by apply word64_land).
    rewrite (word_bits m a (fun j => Z.testbit (Z.land (mask_from b) (mask_to d)) j = true)) by lia. split.
    + intros H' p Hp. pose proof (page_index p ltac:(lia)). apply H'; [lia..|].
      rewrite Z.land_spec, testbit_mask_from, testbit_mask_to, !bool_decide_true by lia. done.
    + intros H' p Hp Ep Hb. pose proof (page_index p Hp).
      rewrite Z.land_spec, testbit_mask_from, testbit_mask_to in Hb by lia.
      apply andb_true_iff in Hb as [?%bool_decide_eq_true ?%bool_decide_eq_true]. apply H'. lia.
  - rewrite Ea. cbn [mbind option_bind]. destruct (Z.land (lget 0 m a) (mask_from b) =? 0) eqn:Ef; cbn [negb].
    + destruct (zero_words_spec 8 m (a + 1) c Hm ltac:(lia) ltac:(lia) ltac:(lia)) as (z & -> & Hz).
      cbn [mbind option_bind]. destruct z; cbn [negb].
      * rewrite Ec. cbn [mbind option_bind]. eexists. split; [done|]. rewrite Hto. split.
        -- intros H' p Hp. pose proof (page_index p ltac:(lia)). destruct (decide (p / 64 = a)).
           { apply (proj1 Hfrom); done || lia. }
           destruct (decide (p / 64 = c)); [apply H'; lia|]. apply (proj1 Hz); done || lia.
        -- intros H' p Hp Ep Hd. pose proof (page_index p Hp). apply H'. lia.
      * eexists. split; [done|]. split; [done|]. intros H'. apply Hz. intros p Hp Hpc. pose proof (page_index p Hp).
        apply H'. lia.
    + eexists. split; [done|]. split; [done|]. intros H'. apply (proj2 Hfrom). intros p Hp Ep Hb.
      pose proof (page_index p Hp). apply H'. lia.
Qed.
