(* ===== verification/MmBins.v ===== *)
(** The size classes of the memory manager (src/Zend/zend_alloc_sizes.h and the
    size functions of src/Zend/zend_alloc.c): 30 bins of fixed slot sizes for
    requests of up to 3072 bytes. *)

From stdpp Require Import base numbers list gmap.
From S2P Require Import Prelude.

Definition ZEND_MM_PAGE_SIZE : Z := 4096.
Definition ZEND_MM_MAX_SMALL_SIZE : Z := 3072.
Definition ZEND_MM_BINS : Z := 30.
Definition ZEND_MM_MIN_USEABLE_BIN_SIZE : Z := 16.

(** [ZEND_MM_BINS_INFO]: slot size, number of slots, number of pages. *)
Definition ZEND_MM_BINS_INFO : list (Z * Z * Z) :=
  [(8, 512, 1); (16, 256, 1); (24, 170, 1); (32, 128, 1); (40, 102, 1);
   (48, 85, 1); (56, 73, 1); (64, 64, 1); (80, 51, 1); (96, 42, 1);
   (112, 36, 1); (128, 32, 1); (160, 25, 1); (192, 21, 1); (224, 18, 1);
   (256, 16, 1); (320, 64, 5); (384, 32, 3); (448, 9, 1); (512, 8, 1);
   (640, 32, 5); (768, 16, 3); (896, 9, 2); (1024, 8, 2); (1280, 16, 5);
   (1536, 8, 3); (1792, 16, 7); (2048, 8, 4); (2560, 8, 5); (3072, 4, 3)].

Definition bin_data_size (bin_num : Z) : Z := (lget (0, 0, 0) ZEND_MM_BINS_INFO bin_num).1.1.
Definition bin_elements (bin_num : Z) : Z := (lget (0, 0, 0) ZEND_MM_BINS_INFO bin_num).1.2.
Definition bin_pages (bin_num : Z) : Z := (lget (0, 0, 0) ZEND_MM_BINS_INFO bin_num).2.

(** The number of the highest set bit (the portable code, for sizes below 2^16). *)
Definition zend_mm_small_size_to_bit (size : Z) : Z :=
  let n := 16 in
  let '(n, size) := if size <=? 0x00ff then (n - 8, Z.shiftl size 8) else (n, size) in
  let '(n, size) := if size <=? 0x0fff then (n - 4, Z.shiftl size 4) else (n, size) in
  let '(n, size) := if size <=? 0x3fff then (n - 2, Z.shiftl size 2) else (n, size) in
  if size <=? 0x7fff then n - 1 else n.

Definition zend_mm_small_size_to_bin (size : Z) : Z :=
  if size <=? 64 then Z.shiftr (size - Z.b2z (negb (size =? 0))) 3
  else
    let t1 := size - 1 in
    let t2 := zend_mm_small_size_to_bit t1 - 3 in
    let t1 := Z.shiftr t1 t2 in
    let t2 := Z.shiftl (t2 - 3) 2 in
    t1 + t2.

(** * Properties *)

Definition is_bin (b : Z) : Prop := 0 <= b < ZEND_MM_BINS.

(** A check of all values of a range. *)
Fixpoint check_from (n : nat) (i : Z) (f : Z -> bool) : bool :=
  match n with O => true | S n => f i && check_from n (i + 1) f end.
Definition check_range (n : nat) (f : Z -> bool) : bool := check_from n 0 f.

Lemma check_from_sound n f : forall i k, check_from n i f = true -> i <= k < i + Z.of_nat n -> f k = true.
Proof.
  induction n as [|n IH]; intros i k H Hk; [lia|]. cbn [check_from] in H. apply andb_true_iff in H as [H1 H2].
  destruct (decide (k = i)) as [->|]; [done|]. apply (IH (i + 1)); [done|lia].
Qed.

Lemma check_range_sound n f k : check_range n f = true -> 0 <= k < Z.of_nat n -> f k = true.
Proof. intros. by apply (check_from_sound n f 0). Qed.

(** Each bin: a multiple of 8, its slots fit into its pages, and there is no room for one more. *)
Definition bin_check (b : Z) : bool :=
  (8 <=? bin_data_size b) && (bin_data_size b mod 8 =? 0) && (2 <=? bin_elements b) && (bin_elements b <? 1024) &&
  (1 <=? bin_pages b) && (bin_pages b <? 8) &&
  (bin_data_size b * bin_elements b <=? bin_pages b * ZEND_MM_PAGE_SIZE) &&
  (bin_pages b * ZEND_MM_PAGE_SIZE <? bin_data_size b * (bin_elements b + 1)).

Lemma bin_facts b : is_bin b ->
  8 <= bin_data_size b /\ bin_data_size b mod 8 = 0 /\ 2 <= bin_elements b < 1024 /\ 1 <= bin_pages b < 8 /\
  bin_data_size b * bin_elements b <= bin_pages b * ZEND_MM_PAGE_SIZE < bin_data_size b * (bin_elements b + 1).
Proof.
  intros Hb. assert (check_range 30 bin_check = true) as H by (vm_compute; reflexivity).
  apply (check_range_sound _ _ b) in H; [|done]. unfold bin_check in H. repeat (apply andb_true_iff in H as [H ?]). lia.
Qed.

Lemma bin_size_usable b : is_bin b -> 1 <= b -> ZEND_MM_MIN_USEABLE_BIN_SIZE <= bin_data_size b.
Proof.
  intros Hb H1. assert (check_range 30 (fun b => (b =? 0) || (ZEND_MM_MIN_USEABLE_BIN_SIZE <=? bin_data_size b)) = true) as H
    by (vm_compute; reflexivity).
  apply (check_range_sound _ _ b) in H; [|done]. apply orb_true_iff in H as [H|H]; lia.
Qed.

Definition size_check (size : Z) : bool :=
  let b := zend_mm_small_size_to_bin size in
  (0 <=? b) && (b <? ZEND_MM_BINS) && (size <=? bin_data_size b) &&
  ((b =? 0) || (bin_data_size (b - 1) <? size)) &&
  ((size <=? 64) || (4 * (bin_data_size b - size) <? size)).

Lemma size_facts size : 0 <= size <= ZEND_MM_MAX_SMALL_SIZE ->
  let b := zend_mm_small_size_to_bin size in
  is_bin b /\ size <= bin_data_size b /\ (b = 0 \/ bin_data_size (b - 1) < size) /\
  (64 < size -> 4 * (bin_data_size b - size) < size).
Proof.
  intros Hs. assert (check_range 3073 size_check = true) as H by (vm_compute; reflexivity).
  apply (check_range_sound _ _ size) in H; [|unfold ZEND_MM_MAX_SMALL_SIZE in Hs; lia].
  unfold size_check in H. cbv zeta in H |- *. set (b := zend_mm_small_size_to_bin size) in *. clearbody b.
  repeat (apply andb_true_iff in H as [H ?]). rewrite !orb_true_iff in *. unfold is_bin. lia.
Qed.

Lemma bin_sizes_increase b b' : is_bin b -> is_bin b' -> b < b' -> bin_data_size b < bin_data_size b'.
Proof.
  assert (check_range 29 (fun b => bin_data_size b <? bin_data_size (b + 1)) = true) as H by (vm_compute; reflexivity).
  unfold is_bin, ZEND_MM_BINS. intros Hb Hb' Hlt.
  assert (forall k : nat, b + 1 + Z.of_nat k < 30 -> bin_data_size b < bin_data_size (b + 1 + Z.of_nat k)) as Hk.
  { induction k as [|k IH]; intros Hbound.
    - apply (check_range_sound _ _ b) in H; [|lia]. cbn beta in H. rewrite Z.add_0_r. lia.
    - apply (check_range_sound _ _ (b + 1 + Z.of_nat k)) in H; [|lia]. cbn beta in H. specialize (IH ltac:(lia)).
      replace (b + 1 + Z.of_nat (S k)) with (b + 1 + Z.of_nat k + 1) by lia. lia. }
  specialize (Hk (Z.to_nat (b' - b - 1)) ltac:(lia)). replace (b + 1 + Z.of_nat _) with b' in Hk by lia. done.
Qed.

(** C33: a request of up to 3072 bytes gets the bin with the smallest slots
    that are large enough, found without a search; at most a quarter of the
    request is wasted above 64 bytes; and the slots of every bin fit into its
    pages, with no room for another one. *)
Theorem zend_mm_small_size_to_bin_correct size : 0 <= size <= ZEND_MM_MAX_SMALL_SIZE ->
  let b := zend_mm_small_size_to_bin size in
  is_bin b /\ size <= bin_data_size b /\
  (forall b', is_bin b' -> size <= bin_data_size b' -> b <= b') /\
  (64 < size -> 4 * (bin_data_size b - size) < size) /\
  bin_data_size b * bin_elements b <= bin_pages b * ZEND_MM_PAGE_SIZE < bin_data_size b * (bin_elements b + 1).
Proof.
  intros Hs. cbv zeta. destruct (size_facts size Hs) as (Hb & Hfit & Hmin & Hw).
  set (b := zend_mm_small_size_to_bin size) in *. clearbody b. split; [done|]. split; [done|].
  split; [|split; [done|by apply bin_facts]]. intros b' Hb' Hfit'. destruct Hmin as [->|Hmin]; [unfold is_bin in Hb'; lia|].
  destruct (Z.le_gt_cases b b') as [|Hlt]; [done|]. destruct (decide (b' = b - 1)) as [->|Hne]; [lia|].
  pose proof (bin_sizes_increase b' (b - 1) Hb' ltac:(unfold is_bin in *; lia) ltac:(lia)). lia.
Qed.
