(* ===== verification/MmChunk.v ===== *)
(** Pages of a chunk (src/Zend/zend_alloc.c): the best-fit search of
    [zend_mm_alloc_pages], the marking of the found pages, and their release.
    The abstract state of a chunk is the finite map of its runs. *)

From stdpp Require Import base numbers list gmap.
From S2P Require Import Prelude.
From S2P Require Import MmBitset.
From S2P Require Import MmBins.

(** * State *)

(** The page accounting of [struct _zend_mm_chunk]; its place in the list of
    chunks is kept by the heap. *)
Record zend_mm_chunk := mk_chunk {
  free_pages : Z; free_tail : Z; free_map : list Z; chunk_map : list Z
}.

Definition ZEND_MM_FIRST_PAGE : Z := 1.

(** Page information words. *)
Definition ZEND_MM_IS_LRUN : Z := 0x40000000.
Definition ZEND_MM_IS_SRUN : Z := 0x80000000.
Definition ZEND_MM_LRUN_PAGES (info : Z) : Z := Z.land info 0x3ff.
Definition ZEND_MM_SRUN_BIN_NUM (info : Z) : Z := Z.land info 0x1f.
Definition ZEND_MM_SRUN_FREE_COUNTER (info : Z) : Z := Z.shiftr (Z.land info 0x03ff0000) 16.
Definition ZEND_MM_NRUN_OFFSET (info : Z) : Z := Z.shiftr (Z.land info 0x01ff0000) 16.
Definition ZEND_MM_LRUN (count : Z) : Z := Z.lor ZEND_MM_IS_LRUN count.
Definition ZEND_MM_SRUN (bin_num : Z) : Z := Z.lor ZEND_MM_IS_SRUN bin_num.
Definition ZEND_MM_SRUN_EX (bin_num count : Z) : Z := Z.lor (Z.lor ZEND_MM_IS_SRUN bin_num) (Z.shiftl count 16).
Definition ZEND_MM_NRUN (bin_num offset : Z) : Z :=
  Z.lor (Z.lor (Z.lor ZEND_MM_IS_SRUN ZEND_MM_IS_LRUN) bin_num) (Z.shiftl offset 16).
Definition is_set (info flag : Z) : bool := negb (Z.land info flag =? 0).

(** * Best-fit search *)

(** [page_num] and the new [free_tail]. *)
Inductive search_result := Found (page_num tail : Z) | NotFound (tail : Z).

(** The loops work on the current word [tmp], whose first bit stands for page
    [i]; [b] is the position of the pointer [bitset] into the words. *)

(** [while (tmp == -1)]; [Some None]: the last word was reached. *)
Fixpoint skip_allocated (n : nat) (m : list Z) (b i tmp : Z) : option (option (Z * Z * Z)) :=
  if tmp =? ALL_BITS then
    match n with
    | O => None
    | S n =>
        let i := i + ZEND_MM_BITSET_LEN in
        if i =? ZEND_MM_PAGES then Some None
        else tmp ← lload m b; skip_allocated n m (b + 1) i tmp
    end
  else Some (Some (b, i, tmp)).

(** [while (tmp == 0)]; [Some None]: the free pages reach the end of the chunk. *)
Fixpoint skip_free (n : nat) (m : list Z) (tail b i tmp : Z) : option (option (Z * Z * Z)) :=
  if tmp =? 0 then
    match n with
    | O => None
    | S n =>
        let i := i + ZEND_MM_BITSET_LEN in
        if (tail <=? i) || (i =? ZEND_MM_PAGES) then Some None
        else tmp ← lload m b; skip_free n m tail (b + 1) i tmp
    end
  else Some (Some (b, i, tmp)).

Fixpoint best_fit (n : nat) (m : list Z) (tail pages_count best best_len b i tmp : Z) : option search_result :=
  match n with
  | O => None
  | S n =>
      r ← skip_allocated 8 m b i tmp;
      match r with
      | None => Some (if 0 <? best then Found best tail else NotFound tail)
      | Some (b, i, tmp) =>
          let page_num := i + zend_mm_bitset_nts tmp in
          let tmp := Z.land tmp (u64 (tmp + 1)) in
          r ← skip_free 8 m tail b i tmp;
          match r with
          | None =>
              let len := ZEND_MM_PAGES - page_num in
              Some (if (pages_count <=? len) && (len <? best_len) then Found page_num (page_num + pages_count)
                    else if 0 <? best then Found best page_num else NotFound page_num)
          | Some (b, i, tmp) =>
              let len := i + zend_ulong_ntz tmp - page_num in
              let next := best_fit n m tail pages_count in
              let tmp' := Z.lor tmp (u64 (tmp - 1)) in
              if pages_count <=? len then
                if len =? pages_count then Some (Found page_num tail)
                else if len <? best_len then next page_num len b i tmp'
                else next best best_len b i tmp'
              else next best best_len b i tmp'
          end
      end
  end.

(** The search in one chunk. *)
Definition search_chunk (c : zend_mm_chunk) (pages_count : Z) : option search_result :=
  if free_pages c <? pages_count then Some (NotFound (free_tail c))
  else
    tmp ← lload (free_map c) 0;
    best_fit 512 (free_map c) (free_tail c) pages_count (-1) ZEND_MM_PAGES 1 0 tmp.

(** * Marking and releasing pages *)

Definition set_chunk_tail (ft : Z) (c : zend_mm_chunk) : zend_mm_chunk :=
  mk_chunk (free_pages c) ft (free_map c) (chunk_map c).

(** After [found:]: mark run as allocated. *)
Definition mark_run (c : zend_mm_chunk) (page_num pages_count : Z) : option zend_mm_chunk :=
  let free_pages := u32 (free_pages c - pages_count) in
  free_map ← zend_mm_bitset_set_range (free_map c) page_num pages_count;
  map ← lstore (chunk_map c) page_num (ZEND_MM_LRUN pages_count);
  Some (mk_chunk free_pages (if page_num =? free_tail c then page_num + pages_count else free_tail c) free_map map).

(** [zend_mm_chunk_init] on the memory [c]: zeroed pages of the system, or a cached chunk. *)
Definition zend_mm_chunk_init (c : zend_mm_chunk) : zend_mm_chunk :=
  mk_chunk (ZEND_MM_PAGES - ZEND_MM_FIRST_PAGE) ZEND_MM_FIRST_PAGE
    (lset (free_map c) 0 (Z.shiftl 1 ZEND_MM_FIRST_PAGE - 1)) (lset (chunk_map c) 0 (ZEND_MM_LRUN ZEND_MM_FIRST_PAGE)).
Definition zeroed_chunk : zend_mm_chunk := mk_chunk 0 0 (replicate 8 0) (replicate 512 0).

(** The part of [zend_mm_free_pages_ex] that concerns the chunk itself. *)
Definition zend_mm_free_pages (c : zend_mm_chunk) (page_num pages_count : Z) : option zend_mm_chunk :=
  let free_pages := u32 (free_pages c + pages_count) in
  free_map ← zend_mm_bitset_reset_range (free_map c) page_num pages_count;
  map ← lstore (chunk_map c) page_num 0;
  Some (mk_chunk free_pages (if free_tail c =? page_num + pages_count then page_num else free_tail c) free_map map).

(** The in-place branches of [zend_mm_realloc_heap] for a large run. *)
Definition truncate_run (c : zend_mm_chunk) (page_num new_pages_count rest_pages_count : Z) : option zend_mm_chunk :=
  map ← lstore (chunk_map c) page_num (ZEND_MM_LRUN new_pages_count);
  let free_pages := u32 (free_pages c + rest_pages_count) in
  free_map ← zend_mm_bitset_reset_range (free_map c) (page_num + new_pages_count) rest_pages_count;
  Some (mk_chunk free_pages (free_tail c) free_map map).

(** [Some None]: the pages after the run are not free. *)
Definition extend_run (c : zend_mm_chunk) (page_num old_pages_count new_pages_count : Z) : option (option zend_mm_chunk) :=
  if page_num + new_pages_count <=? ZEND_MM_PAGES then
    free ← zend_mm_bitset_is_free_range (free_map c) (page_num + old_pages_count) (new_pages_count - old_pages_count);
    if (free : bool) then
      let free_pages := u32 (free_pages c - (new_pages_count - old_pages_count)) in
      free_map ← zend_mm_bitset_set_range (free_map c) (page_num + old_pages_count) (new_pages_count - old_pages_count);
      map ← lstore (chunk_map c) page_num (ZEND_MM_LRUN new_pages_count);
      Some (Some (mk_chunk free_pages (free_tail c) free_map map))
    else Some None
  else Some None.

(** A request served by one chunk: the search, [found:] and [not_found:]. *)
Definition alloc_in_chunk (c : zend_mm_chunk) (pages_count : Z) : option (option Z * zend_mm_chunk) :=
  r ← search_chunk c pages_count;
  match r with
  | Found page_num ft => c ← mark_run (set_chunk_tail ft c) page_num pages_count; Some (Some page_num, c)
  | NotFound ft => Some (None, set_chunk_tail ft c)
  end.

(** The page information of a small run, written by [zend_mm_alloc_small_slow]:
    [do { map[page_num + i] = NRUN(bin_num, i); i++; } while (i < bin_pages[bin_num])]. *)
Fixpoint mark_nruns (n : nat) (map : list Z) (page_num bin_num i : Z) : option (list Z) :=
  match n with
  | O => None
  | S n =>
      map ← lstore map (page_num + i) (ZEND_MM_NRUN bin_num i);
      if i + 1 <? bin_pages bin_num then mark_nruns n map page_num bin_num (i + 1) else Some map
  end.

Definition mark_small_run (c : zend_mm_chunk) (page_num bin_num : Z) : option zend_mm_chunk :=
  map ← lstore (chunk_map c) page_num (ZEND_MM_SRUN bin_num);
  map ← (if 1 <? bin_pages bin_num then mark_nruns 8 map page_num bin_num 1 else Some map);
  Some (mk_chunk (free_pages c) (free_tail c) (free_map c) map).

(** The branch of [zend_mm_free_heap] for an address inside a chunk, at [page_offset] from its start. *)
Inductive free_result := Released (c : zend_mm_chunk) (pages_count : Z) | SmallSlot (bin_num : Z) | Corrupted.

Definition free_in_chunk (c : zend_mm_chunk) (page_offset : Z) : option free_result :=
  let page_num := page_offset / ZEND_MM_PAGE_SIZE in
  info ← lload (chunk_map c) page_num;
  if is_set info ZEND_MM_IS_SRUN then Some (SmallSlot (ZEND_MM_SRUN_BIN_NUM info))
  else if negb (is_set info ZEND_MM_IS_LRUN) then Some Corrupted
  else
    let pages_count := ZEND_MM_LRUN_PAGES info in
    if negb (page_offset mod ZEND_MM_PAGE_SIZE =? 0) then Some Corrupted
    else c ← zend_mm_free_pages c page_num pages_count; Some (Released c pages_count).

(** The branch of [zend_mm_realloc_heap] for a large run; [MustMove]: the slow reallocation. *)
Inductive realloc_result := InPlace (c : zend_mm_chunk) | MustMove | ReallocCorrupted.
Definition ZEND_MM_MAX_LARGE_SIZE : Z := 2 * 1024 * 1024 - ZEND_MM_PAGE_SIZE * ZEND_MM_FIRST_PAGE.

Definition ZEND_MM_ALIGNED_SIZE_EX (size alignment : Z) : Z :=
  Z.land (u64 (size + (alignment - 1))) (not64 (alignment - 1)).

Definition realloc_large (c : zend_mm_chunk) (page_offset size : Z) : option realloc_result :=
  let page_num := page_offset / ZEND_MM_PAGE_SIZE in
  info ← lload (chunk_map c) page_num;
  if negb (is_set info ZEND_MM_IS_LRUN) then Some ReallocCorrupted
  else if negb (page_offset mod ZEND_MM_PAGE_SIZE =? 0) then Some ReallocCorrupted
  else
    let old_size := ZEND_MM_LRUN_PAGES info * ZEND_MM_PAGE_SIZE in
    if (ZEND_MM_MAX_SMALL_SIZE <? size) && (size <=? ZEND_MM_MAX_LARGE_SIZE) then
      let new_size := ZEND_MM_ALIGNED_SIZE_EX size ZEND_MM_PAGE_SIZE in
      if new_size =? old_size then Some (InPlace c)
      else if new_size <? old_size then
        let new_pages_count := new_size / ZEND_MM_PAGE_SIZE in
        let rest_pages_count := (old_size - new_size) / ZEND_MM_PAGE_SIZE in
        c ← truncate_run c page_num new_pages_count rest_pages_count; Some (InPlace c)
      else
        let new_pages_count := new_size / ZEND_MM_PAGE_SIZE in
        let old_pages_count := old_size / ZEND_MM_PAGE_SIZE in
        o ← extend_run c page_num old_pages_count new_pages_count;
        match o with Some c => Some (InPlace c) | None => Some MustMove end
    else Some MustMove.

(** * The search *)

(** Maximal runs of free pages, and the one that best fits: the leftmost of the
    shortest that are long enough. *)
Definition free_run (m : list Z) (s n : Z) : Prop :=
  1 <= n /\ 1 <= s /\ s + n <= 512 /\ page_set m (s - 1) = true /\
  (forall p, s <= p < s + n -> page_set m p = false) /\ (s + n = 512 \/ page_set m (s + n) = true).

Definition best_run (m : list Z) (count s n : Z) : Prop :=
  free_run m s n /\ count <= n /\
  forall s' n', free_run m s' n' -> count <= n' -> n < n' \/ (n = n' /\ s <= s').

(** What [free_tail] promises: from it on, pages are allocated without a gap up to [e]
    and free after [e]; and if there are such pages, the one before is allocated as well. *)
Definition tail_split (m : list Z) (ft e : Z) : Prop :=
  1 <= ft <= e /\ e <= 512 /\ (forall p, ft <= p < e -> page_set m p = true) /\
  (forall p, e <= p < 512 -> page_set m p = false) /\ (ft < e -> page_set m (ft - 1) = true).

Lemma free_run_unique m s n s' n' p : free_run m s n -> free_run m s' n' ->
  s <= p < s + n -> s' <= p < s' + n' -> s = s' /\ n = n'.
Proof.
  intros (Hn & Hs & He & Hb & Hf & Ha) (Hn' & Hs' & He' & Hb' & Hf' & Ha') Hp Hp'.
  assert (s = s') as <-.
  { destruct (Z.lt_trichotomy s s') as [H|[H|H]]; [|done|].
    - rewrite Hf in Hb' by lia. done.
    - rewrite Hf' in Hb by lia. done. }
  split; [done|]. destruct (Z.lt_trichotomy n n') as [H|[H|H]]; [|done|].
  - destruct Ha as [Ha|Ha]; [lia|]. rewrite Hf' in Ha by lia. done.
  - destruct Ha' as [Ha'|Ha']; [lia|]. rewrite Hf in Ha' by lia. done.
Qed.

(** The word [tmp] of the pages from [i] on, with the pages before [c] counted as allocated or as free. *)
Definition word_alloc (m : list Z) (c i tmp : Z) : Prop :=
  word64 tmp /\ forall j, 0 <= j < 64 -> Z.testbit tmp j = bool_decide (i + j < c) || page_set m (i + j).
Definition word_free (m : list Z) (c i tmp : Z) : Prop :=
  word64 tmp /\ forall j, 0 <= j < 64 -> Z.testbit tmp j = bool_decide (c <= i + j) && page_set m (i + j).
(** [i] is the first page of a word, [b] the position of the next word. *)
Definition at_word (b i : Z) : Prop := 0 <= i < 512 /\ i mod 64 = 0 /\ b = i / 64 + 1.

Lemma load_word m b i : map_ok m -> at_word b i -> i + 64 <> 512 ->
  exists w, lload m b = Some w /\ word64 w /\ at_word (b + 1) (i + 64) /\
    forall j, 0 <= j < 64 -> Z.testbit w j = page_set m (i + 64 + j).
Proof.
  intros Hm (Hi & Hi64 & ->) Hne. assert (i + 64 < 512) by zlia.
  destruct (map_word m (i / 64 + 1) Hm ltac:(zlia)) as [E Hw]. eexists. split; [exact E|]. split; [done|].
  split; [split; [lia|zlia]|]. intros j Hj. unfold page_set.
  assert ((i + 64 + j) / 64 = i / 64 + 1) as -> by zlia. assert ((i + 64 + j) mod 64 = j) as -> by zlia. done.
Qed.

Lemma skip_allocated_spec n m : forall c b i tmp, map_ok m -> at_word b i -> word_alloc m c i tmp -> c < i + 64 ->
  512 - i <= 64 * Z.of_nat n ->
  exists r, skip_allocated n m b i tmp = Some r /\
    match r with
    | None => forall p, c <= p < 512 -> i <= p -> page_set m p = true
    | Some (b', i', tmp') =>
        at_word b' i' /\ i <= i' /\ word_alloc m c i' tmp' /\ tmp' <> ALL_BITS /\
        forall p, c <= p < i' -> i <= p -> page_set m p = true
    end.
Proof.
  induction n as [|n IH]; intros c b i tmp Hm Ha [Hw Ht] Hc Hn; cbn [skip_allocated].
  { destruct Ha as (Hi & _). lia. }
  destruct (Z.eqb_spec tmp ALL_BITS) as [->|Hne]; last first.
  { exists (Some (b, i, tmp)). split; [done|]. split; [done|]. split; [lia|]. split; [done|]. split; [done|lia]. }
  assert (forall p, c <= p < i + 64 -> i <= p -> page_set m p = true) as Hset.
  { intros p Hp Hip. specialize (Ht (p - i) ltac:(lia)). rewrite testbit_ALL_BITS, bool_decide_true in Ht by lia.
    replace (i + (p - i)) with p in Ht by lia. rewrite bool_decide_false in Ht by lia. done. }
  change ZEND_MM_BITSET_LEN with 64. change ZEND_MM_PAGES with 512. destruct (Z.eqb_spec (i + 64) 512) as [E|E].
  { exists None. split; [done|]. intros p Hp Hip. apply Hset; lia. }
  destruct (load_word m b i Hm Ha E) as (w & -> & Hww & Ha' & Hwb). cbn [mbind option_bind].
  destruct (IH c (b + 1) (i + 64) w Hm Ha') as (r & -> & Hr); [|lia..|].
  { split; [done|]. intros j Hj. rewrite Hwb, bool_decide_false by lia. done. }
  exists r. split; [done|]. destruct r as [[[b' i'] tmp']|].
  - destruct Hr as (? & ? & ? & ? & Hr). split; [done|]. split; [lia|]. split; [done|]. split; [done|].
    intros p Hp Hip. destruct (decide (i + 64 <= p)); [apply Hr; lia|apply Hset; lia].
  - intros p Hp Hip. destruct (decide (i + 64 <= p)); [apply Hr; lia|apply Hset; lia].
Qed.

Lemma skip_free_spec n m ft : forall c b i tmp, map_ok m -> at_word b i -> word_free m c i tmp -> c < i + 64 ->
  512 - i <= 64 * Z.of_nat n ->
  exists r, skip_free n m ft b i tmp = Some r /\
    match r with
    | None => exists i', i + 64 <= i' /\ (ft <= i' \/ i' = 512) /\ (forall p, c <= p < i' -> i <= p -> page_set m p = false) /\ i' <= 512
    | Some (b', i', tmp') =>
        at_word b' i' /\ i <= i' /\ word_free m c i' tmp' /\ tmp' <> 0 /\
        forall p, c <= p < i' -> i <= p -> page_set m p = false
    end.
Proof.
  induction n as [|n IH]; intros c b i tmp Hm Ha [Hw Ht] Hc Hn; cbn [skip_free].
  { destruct Ha as (Hi & _). lia. }
  destruct (Z.eqb_spec tmp 0) as [->|Hne]; last first.
  { exists (Some (b, i, tmp)). split; [done|]. split; [done|]. split; [lia|]. split; [done|]. split; [done|lia]. }
  assert (forall p, c <= p < i + 64 -> i <= p -> page_set m p = false) as Hset.
  { intros p Hp Hip. specialize (Ht (p - i) ltac:(lia)). rewrite Z.bits_0 in Ht.
    replace (i + (p - i)) with p in Ht by lia. rewrite bool_decide_true in Ht by lia. done. }
  assert (i + 64 <= 512) by (destruct Ha as (? & ? & _); zlia).
  change ZEND_MM_BITSET_LEN with 64. change ZEND_MM_PAGES with 512.
  destruct (Z.leb_spec ft (i + 64)) as [Hft|Hft]; cbn [orb].
  { exists None. split; [done|]. exists (i + 64). split; [lia|]. split; [by left|]. done. }
  destruct (Z.eqb_spec (i + 64) 512) as [E|E].
  { exists None. split; [done|]. exists 512. rewrite E in Hset. split; [lia|]. split; [by right|]. done. }
  destruct (load_word m b i Hm Ha E) as (w & -> & Hww & Ha' & Hwb). cbn [mbind option_bind].
  destruct (IH c (b + 1) (i + 64) w Hm Ha') as (r & -> & Hr); [|lia..|].
  { split; [done|]. intros j Hj. rewrite Hwb, bool_decide_true by lia. done. }
  exists r. split; [done|]. destruct r as [[[b' i'] tmp']|].
  - destruct Hr as (? & ? & ? & ? & Hr). split; [done|]. split; [lia|]. split; [done|]. split; [done|].
    intros p Hp Hip. destruct (decide (i + 64 <= p)); [apply Hr; lia|apply Hset; lia].
  - destruct Hr as (i' & ? & ? & Hr & ?). exists i'. split; [lia|]. split; [done|]. split; [|done].
    intros p Hp Hip. destruct (decide (i + 64 <= p)); [apply Hr; lia|apply Hset; lia].
Qed.

(** [tmp & (tmp + 1)] clears the trailing set bits, [tmp | (tmp - 1)] sets the trailing clear ones. *)
Lemma clear_trailing x t : word64 x -> 0 <= t < 64 -> Z.testbit x t = false ->
  (forall j, 0 <= j < t -> Z.testbit x j = true) ->
  word64 (Z.land x (u64 (x + 1))) /\
  forall j, 0 <= j < 64 -> Z.testbit (Z.land x (u64 (x + 1))) j = bool_decide (t < j) && Z.testbit x j.
Proof.
  intros Hx Ht Hclear Hset. split; [by apply word64_land|].
  assert (x mod 2 ^ t = 2 ^ t - 1) as Hlow.
  { replace (2 ^ t - 1) with (Z.ones t) by (rewrite Z.ones_equiv; lia). apply Z.bits_inj'. intros j Hj.
    destruct (decide (j < t)).
    - by rewrite Z.mod_pow2_bits_low, Hset, Z.ones_spec_low by lia.
    - by rewrite Z.mod_pow2_bits_high, Z.ones_spec_high by lia. }
  set (k := x / 2 ^ (t + 1)).
  assert (0 < 2 ^ t) by (apply Z.pow_pos_nonneg; lia).
  assert (x = k * 2 ^ (t + 1) + (2 ^ t - 1)) as Hxk.
  { assert (x / 2 ^ t mod 2 = 0) as E.
    { assert (Z.odd (x / 2 ^ t) = false) as Ho by (rewrite <- Z.bit0_odd, Z.div_pow2_bits by lia; by rewrite Z.add_0_l).
      rewrite Zmod_odd, Ho. done. }
    unfold k. rewrite Z.pow_add_r, <- Z.div_div by lia.
    pose proof (Z.div_mod x (2 ^ t) ltac:(lia)) as Hq. pose proof (Z.div_mod (x / 2 ^ t) 2 ltac:(lia)).
    change (2 ^ 1) with 2. remember (x / 2 ^ t) as A eqn:EA. remember (A / 2) as B eqn:EB.
    clear EA EB. assert (A = 2 * B + A mod 2) as HA by lia. rewrite E in HA. subst A. lia. }
  assert (x + 1 = k * 2 ^ (t + 1) + 2 ^ t) as Hx1 by lia.
  intros j Hj. rewrite Z.land_spec, testbit_u64, bool_decide_true by lia. cbn [andb].
  destruct (Z.lt_trichotomy j t) as [Hjt|[->|Hjt]].
  - rewrite (bool_decide_false (t < j)) by lia. cbn [andb].
    assert (Z.testbit (x + 1) j = false) as ->; [|by rewrite andb_false_r].
    rewrite <- (Z.mod_pow2_bits_low (x + 1) t) by lia.
    assert ((x + 1) mod 2 ^ t = 0) as ->; [|apply Z.bits_0].
    rewrite Hx1, Z.pow_add_r by lia. replace (k * (2 ^ t * 2 ^ 1) + 2 ^ t) with ((k * 2 + 1) * 2 ^ t) by lia.
    apply Z.mod_mul. lia.
  - by rewrite Hclear, andb_false_r.
  - rewrite (bool_decide_true (t < j)) by lia. cbn [andb].
    assert (forall y, 0 <= y < 2 ^ (t + 1) -> Z.testbit (k * 2 ^ (t + 1) + y) j = Z.testbit k (j - (t + 1))) as Hhigh.
    { intros y Hy. replace j with (j - (t + 1) + (t + 1)) at 1 by lia. rewrite <- Z.div_pow2_bits by lia.
      rewrite Z.div_add_l, Z.div_small, Z.add_0_r by lia. done. }
    assert (2 ^ t < 2 ^ (t + 1)) by (apply Z.pow_lt_mono_r; lia).
    rewrite Hx1, (Hhigh (2 ^ t)), Hxk, Hhigh by lia. by rewrite andb_diag.
Qed.

Lemma set_trailing x t : word64 x -> 0 <= t < 64 -> Z.testbit x t = true ->
  (forall j, 0 <= j < t -> Z.testbit x j = false) ->
  word64 (Z.lor x (u64 (x - 1))) /\
  forall j, 0 <= j < 64 -> Z.testbit (Z.lor x (u64 (x - 1))) j = bool_decide (j < t) || Z.testbit x j.
Proof.
  intros Hx Ht Hset Hclear. split; [apply word64_lor; [done|apply word64_u64]|].
  set (k := x / 2 ^ (t + 1)). assert (0 < 2 ^ t) by (apply Z.pow_pos_nonneg; lia).
  assert (x = k * 2 ^ (t + 1) + 2 ^ t) as Hxk.
  { assert (x mod 2 ^ t = 0) as Hlow.
    { apply Z.bits_inj'. intros j Hj. rewrite Z.bits_0. destruct (decide (j < t)).
      - by rewrite Z.mod_pow2_bits_low, Hclear by lia.
      - by rewrite Z.mod_pow2_bits_high by lia. }
    assert (x / 2 ^ t mod 2 = 1) as E.
    { assert (Z.odd (x / 2 ^ t) = true) as Ho by (rewrite <- Z.bit0_odd, Z.div_pow2_bits by lia; by rewrite Z.add_0_l).
      rewrite Zmod_odd, Ho. done. }
    unfold k. rewrite Z.pow_add_r, <- Z.div_div by lia.
    pose proof (Z.div_mod x (2 ^ t) ltac:(lia)) as Hq. pose proof (Z.div_mod (x / 2 ^ t) 2 ltac:(lia)).
    change (2 ^ 1) with 2. remember (x / 2 ^ t) as A eqn:EA. remember (A / 2) as B eqn:EB.
    clear EA EB. assert (A = 2 * B + A mod 2) as HA by lia. rewrite E in HA. subst A. lia. }
  assert (x - 1 = k * 2 ^ (t + 1) + (2 ^ t - 1)) as Hx1 by lia.
  intros j Hj. rewrite Z.lor_spec, testbit_u64, (bool_decide_true (j < 64)) by lia. cbn [andb].
  destruct (Z.lt_trichotomy j t) as [Hjt|[->|Hjt]].
  - rewrite (bool_decide_true (j < t)) by lia. cbn [orb].
    assert (Z.testbit (x - 1) j = true) as ->; [|by rewrite orb_true_r].
    rewrite <- (Z.mod_pow2_bits_low (x - 1) t) by lia.
    assert ((x - 1) mod 2 ^ t = Z.ones t) as ->; [|apply Z.ones_spec_low; lia].
    rewrite Hx1, Z.ones_equiv, Z.pow_add_r by lia. replace (k * (2 ^ t * 2 ^ 1)) with ((k * 2) * 2 ^ t) by lia.
    rewrite Z.add_comm, Z.mod_add, Z.mod_small by lia. lia.
  - by rewrite Hset, orb_true_r.
  - rewrite (bool_decide_false (j < t)) by lia. cbn [orb].
    assert (forall y, 0 <= y < 2 ^ (t + 1) -> Z.testbit (k * 2 ^ (t + 1) + y) j = Z.testbit k (j - (t + 1))) as Hhigh.
    { intros y Hy. replace j with (j - (t + 1) + (t + 1)) at 1 by lia. rewrite <- Z.div_pow2_bits by lia.
      rewrite Z.div_add_l, Z.div_small, Z.add_0_r by lia. done. }
    assert (2 ^ t < 2 ^ (t + 1)) by (apply Z.pow_lt_mono_r; lia).
    rewrite Hx1, (Hhigh (2 ^ t - 1)), Hxk, Hhigh by lia. by rewrite orb_diag.
Qed.

(** What the search knows about the runs that start before [c]. *)
Definition processed (m : list Z) (count best best_len c : Z) : Prop :=
  (best = -1 /\ best_len = 512 /\ forall s n, free_run m s n -> s <= c -> n < count) \/
  (free_run m best best_len /\ best <= c /\ count < best_len /\
   forall s n, free_run m s n -> s <= c -> count <= n -> best_len < n \/ (best_len = n /\ best <= s)).

Definition search_ok (m : list Z) (ft count : Z) (r : search_result) : Prop :=
  match r with
  | Found s ft' => exists n, best_run m count s n /\
      ((s + n = 512 /\ ft' = s + count) \/
       (s + n < 512 /\ (ft' = ft \/ (ft' < 512 /\ page_set m (ft' - 1) = true /\ forall p, ft' <= p < 512 -> page_set m p = false))))
  | NotFound ft' => (forall s n, free_run m s n -> n < count) /\
      (ft' = ft \/ (1 <= ft' < 512 /\ page_set m (ft' - 1) = true /\ forall p, ft' <= p < 512 -> page_set m p = false))
  end.

(** The first free page after [c]. *)
Lemma first_free m c i tmp : word_alloc m c i tmp -> tmp <> ALL_BITS -> page_set m c = true -> 0 <= c ->
  (forall p, c <= p < i -> page_set m p = true) -> c < i + 64 -> 0 <= i -> i mod 64 = 0 ->
  let page_num := i + zend_mm_bitset_nts tmp in
  c < page_num < i + 64 /\ i <= page_num /\ page_set m page_num = false /\
  (forall p, c <= p < page_num -> page_set m p = true) /\
  word_free m page_num i (Z.land tmp (u64 (tmp + 1))).
Proof.
  intros [Hw Ht] Hne Hc Hc0 Hpre Hci Hi0 Hi. cbv zeta. destruct (nts_spec tmp Hw Hne) as (Hr & Hclear & Hset).
  set (t := zend_mm_bitset_nts tmp) in *. clearbody t.
  pose proof (Ht t Hr) as H0. rewrite Hclear in H0. symmetry in H0. apply orb_false_iff in H0 as [H0%bool_decide_eq_false H1].
  assert (c <> i + t) by (intros ->; congruence).
  split; [lia|]. split; [lia|]. split; [done|]. split.
  - intros p Hp. destruct (decide (p < i)); [apply Hpre; lia|]. specialize (Hset (p - i) ltac:(lia)).
    rewrite Ht, bool_decide_false in Hset by lia. by replace (i + (p - i)) with p in Hset by lia.
  - destruct (clear_trailing tmp t Hw Hr Hclear Hset) as [Hw' Hb]. split; [done|]. intros j Hj. rewrite Hb by done.
    rewrite Ht by done. destruct (decide (t < j)).
    + rewrite (bool_decide_true (t < j)), (bool_decide_true (i + t <= i + j)), (bool_decide_false (i + j < c)) by lia. done.
    + rewrite (bool_decide_false (t < j)) by lia. cbn [andb]. case_bool_decide; [|done]. cbn [andb].
      replace (i + j) with (i + t) by lia. by rewrite H1.
Qed.

(** The first allocated page after the free page [c]. *)
Lemma first_allocated m c i tmp : word_free m c i tmp -> tmp <> 0 -> c < i + 64 ->
  (forall p, c <= p < i -> page_set m p = false) ->
  let q := i + zend_ulong_ntz tmp in
  c <= q < i + 64 /\ i <= q /\ page_set m q = true /\ (forall p, c <= p < q -> page_set m p = false) /\
  word_alloc m q i (Z.lor tmp (u64 (tmp - 1))).
Proof.
  intros [Hw Ht] Hne Hci Hpre. cbv zeta. destruct (ntz_spec tmp Hw Hne) as (Hr & Hset & Hclear).
  set (t := zend_ulong_ntz tmp) in *. clearbody t.
  pose proof (Ht t Hr) as H0. rewrite Hset in H0. symmetry in H0. apply andb_true_iff in H0 as [H0%bool_decide_eq_true H1].
  split; [lia|]. split; [lia|]. split; [done|]. split.
  - intros p Hp. destruct (decide (p < i)); [apply Hpre; lia|]. specialize (Hclear (p - i) ltac:(lia)).
    rewrite Ht, bool_decide_true in Hclear by lia. by replace (i + (p - i)) with p in Hclear by lia.
  - destruct (set_trailing tmp t Hw Hr Hset Hclear) as [Hw' Hb]. split; [done|]. intros j Hj. rewrite Hb by done.
    rewrite Ht by done. destruct (decide (j < t)).
    + by rewrite (bool_decide_true (j < t)), (bool_decide_true (i + j < i + t)) by lia.
    + by rewrite (bool_decide_false (j < t)), (bool_decide_false (i + j < i + t)), (bool_decide_true (c <= i + j)) by lia.
Qed.

(** The run found between [c] and [q] is the only new one. *)
Lemma runs_between m c s q s' n' : (forall p, c <= p < s -> page_set m p = true) ->
  (forall p, s <= p < q -> page_set m p = false) -> free_run m s' n' -> c < s' -> s' < q -> s' = s.
Proof.
  intros Hset Hclear (Hn & Hs & He & Hb & Hf & _) Hc Hq. destruct (decide (s' < s)).
  - specialize (Hf s' ltac:(lia)). rewrite Hset in Hf by lia. done.
  - destruct (decide (s' = s)); [done|]. rewrite Hclear in Hb by lia. done.
Qed.

Lemma processed_step m count best best_len c s n : free_run m s n -> 1 <= count ->
  (forall p, c <= p < s -> page_set m p = true) -> c < s -> page_set m (s + n) = true -> n < 512 ->
  processed m count best best_len c -> n <> count ->
  processed m count (if count <=? n then if n <? best_len then s else best else best)
    (if count <=? n then if n <? best_len then n else best_len else best_len) (s + n).
Proof.
  intros Hrun Hcount Hset Hc Hq Hn Hp Hne.
  assert (forall s' n', free_run m s' n' -> s' <= s + n -> s' <= c \/ (s' = s /\ n' = n)) as Hnew.
  { intros s' n' Hr Hle. destruct (decide (s' <= c)); [by left|]. right.
    assert (s' <> s + n) by (intros ->; destruct Hr as (? & _ & _ & _ & Hf & _); rewrite Hf in Hq by lia; done).
    destruct Hrun as (? & ? & ? & ? & Hf & ?).
    assert (s' = s) as -> by (eapply (runs_between m c s (s + n)); [done|done|done|lia|lia]).
    split; [done|]. eapply (free_run_unique m s n' s n s); [done| |destruct Hr; lia|lia]. by repeat split. }
  destruct Hrun as (? & ? & ? & ? & Hf & ?). unfold processed.
  destruct Hp as [(-> & -> & Hall)|(Hb & Hbc & Hbl & Hall)].
  - destruct (Z.leb_spec count n); [|left].
    + destruct (Z.ltb_spec n 512); [|lia]. right. split; [by repeat split|]. split; [lia|]. split; [lia|].
      intros s' n' Hr Hle Hcn. destruct (Hnew s' n' Hr Hle) as [Hle'|[-> ->]]; [|by right].
      specialize (Hall s' n' Hr Hle'). lia.
    + split; [done|]. split; [done|]. intros s' n' Hr Hle.
      destruct (Hnew s' n' Hr Hle) as [Hle'|[-> ->]]; [by apply (Hall s')|done].
  - right. destruct (Z.leb_spec count n); [destruct (Z.ltb_spec n best_len)|].
    + split; [by repeat split|]. split; [lia|]. split; [lia|].
      intros s' n' Hr Hle Hcn. destruct (Hnew s' n' Hr Hle) as [Hle'|[-> ->]]; [|by right].
      specialize (Hall s' n' Hr Hle' Hcn). lia.
    + split; [done|]. split; [lia|]. split; [done|]. intros s' n' Hr Hle Hcn.
      destruct (Hnew s' n' Hr Hle) as [Hle'|[-> ->]]; [by apply Hall|]. lia.
    + split; [done|]. split; [lia|]. split; [done|]. intros s' n' Hr Hle Hcn.
      destruct (Hnew s' n' Hr Hle) as [Hle'|[-> ->]]; [by apply Hall|]. lia.
Qed.

(** The run that reaches the free tail. *)
Lemma tail_run m ft e s i : tail_split m ft e -> 1 <= s < i -> i <= 512 -> page_set m (s - 1) = true ->
  (forall p, s <= p < i -> page_set m p = false) -> (ft <= i \/ i = 512) ->
  free_run m s (512 - s) /\ forall p, s <= p < 512 -> page_set m p = false.
Proof.
  intros (Hft & He & Hset & Hclear & Hprev) Hs Hi Hb Hf Hi'.
  assert (forall p, s <= p < 512 -> page_set m p = false) as Hall.
  { intros p Hp. destruct (decide (p < i)); [apply Hf; lia|]. destruct (decide (e <= p)); [apply Hclear; lia|].
    exfalso. assert (page_set m (i - 1) = false) as H by (apply Hf; lia). destruct (decide (ft <= i - 1)).
    - rewrite Hset in H by lia. done.
    - replace (i - 1) with (ft - 1) in H by lia. rewrite Hprev in H by lia. done. }
  split; [|done]. split; [lia|]. split; [lia|]. split; [lia|]. split; [done|]. split; [|left; lia].
  intros p Hp. apply Hall. lia.
Qed.

(** When only the final run is left, the search ends. *)
Lemma finish_tail m ft count best best_len c s : free_run m s (512 - s) -> 1 <= count ->
  (forall p, c <= p < s -> page_set m p = true) -> c < s -> processed m count best best_len c ->
  search_ok m ft count
    (if (count <=? 512 - s) && (512 - s <? best_len) then Found s (s + count)
     else if 0 <? best then Found best s else NotFound s).
Proof.
  intros Hrun Hcount Hset Hc Hp.
  assert (forall s' n', free_run m s' n' -> s' <= c \/ (s' = s /\ n' = 512 - s)) as Hnew.
  { intros s' n' Hr. destruct (decide (s' <= c)); [by left|]. right. destruct Hrun as (? & ? & ? & ? & Hf & ?).
    assert (s' = s) as -> by (eapply (runs_between m c s 512); [done| |done|lia|destruct Hr; lia]; intros; apply Hf; lia).
    split; [done|]. eapply (free_run_unique m s n' s (512 - s) s); [done| |destruct Hr; lia|lia]. by repeat split. }
  pose proof Hrun as (Hn & Hs & _ & Hb & Hf & _).
  assert (s < 512 /\ page_set m (s - 1) = true /\ forall p, s <= p < 512 -> page_set m p = false) as Htail.
  { split; [lia|]. split; [done|]. intros p Hp'. apply Hf. lia. }
  assert (1 <= s < 512 /\ page_set m (s - 1) = true /\ forall p, s <= p < 512 -> page_set m p = false) as Htail'.
  { split; [lia|]. apply Htail. }
  destruct Hp as [(-> & -> & Hall)|(Hbr & Hbc & Hbl & Hall)].
  - cbn [Z.ltb Z.compare]. destruct (Z.leb_spec count (512 - s)); cbn [andb].
    + destruct (Z.ltb_spec (512 - s) 512); [|lia]. exists (512 - s). split; [|left; lia].
      split; [done|]. split; [done|]. intros s' n' Hr Hcn. destruct (Hnew s' n' Hr) as [Hle|[-> ->]]; [|right; lia].
      specialize (Hall s' n' Hr Hle). lia.
    + split; [|by right]. intros s' n' Hr. destruct (Hnew s' n' Hr) as [Hle|[-> ->]]; [by apply (Hall s')|done].
  - assert (0 < best) by (destruct Hbr as (? & ? & _); lia). destruct (Z.ltb_spec 0 best); [|lia].
    assert (best + best_len < 512) as Hbend.
    { destruct Hbr as (? & ? & ? & _ & Hbf & _). destruct (decide (best + best_len < 512)); [done|].
      rewrite (Hbf (s - 1)) in Hb by lia. done. }
    destruct ((count <=? 512 - s) && (512 - s <? best_len)) eqn:E.
    + apply andb_true_iff in E as [E1 E2]. exists (512 - s). split; [|left; lia].
      split; [done|]. split; [lia|]. intros s' n' Hr Hcn. destruct (Hnew s' n' Hr) as [Hle|[-> ->]]; [|right; lia].
      specialize (Hall s' n' Hr Hle Hcn). lia.
    + exists best_len. split; [|right; split; [done|by right]]. split; [done|]. split; [lia|].
      intros s' n' Hr Hcn. destruct (Hnew s' n' Hr) as [Hle|[-> ->]]; [by apply Hall|].
      apply andb_false_iff in E as [E|E]; [lia|]. destruct (decide (best_len = 512 - s)); [right; split; [done|lia]|left; lia].
Qed.

Lemma finish_full m ft count best best_len c : c < 512 ->
  (forall p, c <= p < 512 -> page_set m p = true) -> processed m count best best_len c ->
  search_ok m ft count (if 0 <? best then Found best ft else NotFound ft).
Proof.
  intros Hc Hset Hp.
  assert (forall s n, free_run m s n -> s <= c) as Hnew.
  { intros s n (Hn & Hs & He & _ & Hf & _). destruct (decide (s <= c)); [done|].
    specialize (Hf s ltac:(lia)). rewrite Hset in Hf by lia. done. }
  destruct Hp as [(-> & -> & Hall)|(Hbr & Hbc & Hbl & Hall)].
  - cbn [Z.ltb Z.compare]. split; [|by left]. intros s n Hr. apply (Hall s); [done|by apply (Hnew s n)].
  - pose proof Hbr as (Hn & Hs & He & _ & Hf & Hend). destruct (Z.ltb_spec 0 best); [|lia].
    exists best_len. split; [|right].
    + split; [done|]. split; [lia|]. intros s n Hr Hcn. apply Hall; [done|by eapply Hnew|done].
    + split; [|by left]. destruct (decide (best + best_len < 512)); [done|].
      specialize (Hf 511 ltac:(lia)). rewrite Hset in Hf by lia. done.
Qed.

Lemma best_fit_spec m ft e count : map_ok m -> tail_split m ft e -> 1 <= count ->
  forall n best best_len b i tmp c, at_word b i -> word_alloc m c i tmp -> i <= c -> c < i + 64 -> page_set m c = true ->
  processed m count best best_len c -> 512 - c <= Z.of_nat n ->
  exists r, best_fit n m ft count best best_len b i tmp = Some r /\ search_ok m ft count r.
Proof.
  intros Hm Htail Hcount. induction n as [|n IH]; intros best best_len b i tmp c Ha Hw Hic Hci Hc Hp Hn.
  { destruct Ha as (? & ? & _). zlia. }
  assert (0 <= i < 512 /\ i mod 64 = 0 /\ c < 512) as (Hi & Hi64 & Hc512) by (destruct Ha as (? & ? & _); split; [done|split; [done|zlia]]).
  cbn [best_fit]. destruct (skip_allocated_spec 8 m c b i tmp Hm Ha Hw Hci ltac:(lia)) as (r & -> & Hr).
  cbn [mbind option_bind]. destruct r as [[[b1 i1] tmp1]|]; last first.
  { eexists. split; [done|]. apply (finish_full m ft count best best_len c); [done| |done]. intros p Hp'. apply Hr; lia. }
  destruct Hr as (Ha1 & Hi1 & Hw1 & Hne1 & Hset1). destruct Ha1 as (Hi1r & Hi1m & Hb1).
  destruct (first_free m c i1 tmp1 Hw1 Hne1 Hc ltac:(lia)) as (Hpn & Hpn' & Hpclear & Hpset & Hwf);
    [intros p Hp'; apply Hset1; lia|lia|lia|done|].
  set (s := i1 + zend_mm_bitset_nts tmp1) in *. clearbody s.
  assert (page_set m (s - 1) = true) as Hsb by (apply Hpset; lia).
  destruct (skip_free_spec 8 m ft s b1 i1 (Z.land tmp1 (u64 (tmp1 + 1))) Hm) as (r & -> & Hr);
    [by split|done|lia|lia|]. cbn [mbind option_bind]. change ZEND_MM_PAGES with 512.
  assert (forall q, s <= q -> (forall p, s <= p < q -> i1 <= p -> page_set m p = false) ->
    forall p, s <= p < q -> page_set m p = false) as Hfrom by (intros q Hq H p Hp'; apply H; lia).
  destruct r as [[[b2 i2] tmp2]|].
  - destruct Hr as (Ha2 & Hi2 & Hw2 & Hne2 & Hclear2).
    assert (0 <= i2 < 512 /\ i2 mod 64 = 0) as [Hi2r Hi2m] by (by destruct Ha2 as (? & ? & _)).
    destruct (first_allocated m s i2 tmp2 Hw2 Hne2 ltac:(lia)) as (Hq & Hq' & Hqset & Hqclear & Hwa);
      [intros p Hp'; apply Hclear2; lia|].
    set (q := i2 + zend_ulong_ntz tmp2) in *. clearbody q.
    assert (s < q) by (destruct (decide (s = q)) as [->|]; [congruence|lia]).
    assert (q < 512) by zlia.
    assert (free_run m s (q - s)) as Hrun.
    { split; [lia|]. split; [lia|]. split; [lia|]. split; [done|]. replace (s + (q - s)) with q by lia.
      split; [done|by right]. }
    destruct (Z.eqb_spec (q - s) count) as [Eq|Ne].
    + subst count. rewrite Z.leb_refl. eexists. split; [done|]. exists (q - s).
      split; [|right; split; [lia|by left]]. split; [done|]. split; [lia|]. intros s' n' Hr' Hcn.
      destruct (decide (n' = q - s)) as [->|]; [|left; lia]. right. split; [done|].
      destruct (decide (s' <= c)) as [Hle|].
      * destruct Hp as [(_ & _ & Hall)|(_ & _ & Hbl & Hall)]; [specialize (Hall s' _ Hr' Hle); lia|].
        specialize (Hall s' _ Hr' Hle Hcn). lia.
      * destruct (decide (s <= s')); [done|]. destruct Hr' as (? & ? & ? & ? & Hf & ?).
        specialize (Hf s' ltac:(lia)). rewrite Hpset in Hf by lia. done.
    + pose proof (processed_step m count best best_len c s (q - s) Hrun Hcount Hpset ltac:(lia)) as Hstep.
      replace (s + (q - s)) with q in Hstep by lia. specialize (Hstep Hqset ltac:(lia) Hp Ne).
      destruct (Z.leb_spec count (q - s)); [destruct (Z.ltb_spec (q - s) best_len)|];
        eapply IH; try done; lia.
  - destruct Hr as (i' & Hi' & Hft & Hclear & Hi'512). eexists. split; [done|].
    destruct (tail_run m ft e s i' Htail ltac:(lia) Hi'512 Hsb) as [Hrun _]; [intros p Hp'; apply Hclear; lia|done|].
    eapply finish_tail; try done. lia.
Qed.
