(* ===== verification/MmRuns.v ===== *)
(** The contract of the page allocator of a chunk (src/Zend/zend_alloc.c): a
    chunk represents a finite map of disjoint runs, and allocation, release and
    resizing in place update that map. *)

From stdpp Require Import base numbers list gmap.
From S2P Require Import Prelude.
From S2P Require Import MmBitset.
From S2P Require Import MmBins.
From S2P Require Import MmChunk.

(** * The abstract state *)

Inductive run := Large (pages : Z) | Small (bin_num : Z).

#[export] Instance run_eq_dec : EqDecision run.
Proof. solve_decision. Defined.

Definition run_pages (r : run) : Z := match r with Large n => n | Small b => bin_pages b end.
Definition in_run (s : Z) (r : run) (p : Z) : Prop := s <= p < s + run_pages r.

(** The page information of a run: its first page, and the other pages of a small run. *)
Definition run_info (m : list Z) (s : Z) (r : run) : Prop :=
  match r with
  | Large n => lget 0 m s = ZEND_MM_LRUN n
  | Small b => is_bin b /\ (exists k, 0 <= k < 1024 /\ lget 0 m s = ZEND_MM_SRUN_EX b k) /\
               forall i, 1 <= i < bin_pages b -> lget 0 m (s + i) = ZEND_MM_NRUN b i
  end.

Definition clear_pages (m : list Z) : Z := llen (filter (fun p => page_set m p = false) (zrange 0 512)).

(** Runs lie inside the chunk, after its header, and do not overlap. *)
Definition runs_ok (runs : gmap Z run) : Prop :=
  (forall s r, runs !! s = Some r -> 1 <= s /\ 1 <= run_pages r /\ s + run_pages r <= 512) /\
  (forall s1 r1 s2 r2 p, runs !! s1 = Some r1 -> runs !! s2 = Some r2 -> in_run s1 r1 p -> in_run s2 r2 p -> s1 = s2).

Definition owned (runs : gmap Z run) (p : Z) : Prop := exists s r, runs !! s = Some r /\ in_run s r p.

(** [free_tail]: every run starts before it.  Pages from it on can belong to a
    run that was extended over it in place, so they need not be free. *)
Definition tail_ok (runs : gmap Z run) (ft : Z) : Prop :=
  1 <= ft <= 512 /\ forall s r, runs !! s = Some r -> s < ft.

Record chunk_ok (c : zend_mm_chunk) (runs : gmap Z run) : Prop := mk_chunk_ok {
  ok_map : map_ok (free_map c);
  ok_info : length (chunk_map c) = 512%nat;
  ok_header : page_set (free_map c) 0 = true;
  ok_runs : runs_ok runs;
  ok_run_info : forall s r, runs !! s = Some r -> run_info (chunk_map c) s r;
  ok_pages : forall p, 1 <= p < 512 -> page_set (free_map c) p = true <-> owned runs p;
  ok_free : free_pages c = clear_pages (free_map c);
  ok_tail : tail_ok runs (free_tail c)
}.

Section Chunk.
Context (c : zend_mm_chunk) (runs : gmap Z run) (Hc : chunk_ok c runs).

(** * What the search relies on *)

Lemma run_bounds s r : runs !! s = Some r -> 1 <= s /\ 1 <= run_pages r /\ s + run_pages r <= 512.
Proof. destruct Hc as [_ _ _ [H _] _ _ _ _]. apply H. Qed.

Lemma run_unique s1 r1 s2 r2 p : runs !! s1 = Some r1 -> runs !! s2 = Some r2 -> in_run s1 r1 p -> in_run s2 r2 p -> s1 = s2.
Proof. destruct Hc as [_ _ _ [_ H] _ _ _ _]. apply H. Qed.

Lemma run_set s r p : runs !! s = Some r -> in_run s r p -> page_set (free_map c) p = true.
Proof.
  intros Hr Hp. pose proof (run_bounds s r Hr). apply (ok_pages c runs Hc); [unfold in_run in Hp; lia|by exists s, r].
Qed.

Lemma chunk_tail_split : exists e, tail_split (free_map c) (free_tail c) e.
Proof.
  destruct (ok_tail c runs Hc) as [Hft Hs]. set (ft := free_tail c) in *.
  assert (forall p, ft <= p < 512 -> page_set (free_map c) p = true ->
    exists s r, runs !! s = Some r /\ in_run s r p /\ in_run s r (ft - 1) /\ in_run s r ft) as Hover.
  { intros p Hp Hset. apply (ok_pages c runs Hc) in Hset as (s & r & Hr & Hin); [|lia].
    exists s, r. split; [done|]. specialize (Hs s r Hr). unfold in_run in *. lia. }
  destruct (decide (ft < 512 /\ page_set (free_map c) ft = true)) as [[Hlt Hset]|Hnot].
  - destruct (Hover ft ltac:(lia) Hset) as (s & r & Hr & Hin & Hprev & _). pose proof (run_bounds s r Hr).
    exists (s + run_pages r). split; [unfold in_run in Hin; lia|]. split; [lia|]. split; [|split].
    + intros p Hp. eapply run_set; [done|]. unfold in_run in *. lia.
    + intros p Hp. apply not_true_is_false. intros Hset'.
      destruct (Hover p ltac:(unfold in_run in Hin; lia) Hset') as (s' & r' & Hr' & Hin' & _ & Hft').
      assert (s' = s) as -> by (eapply run_unique; done). rewrite Hr in Hr'. injection Hr' as <-. unfold in_run in *. lia.
    + intros _. by eapply run_set.
  - exists ft. split; [lia|]. split; [lia|]. split; [lia|]. split; [|lia].
    intros p Hp. apply not_true_is_false. intros Hset'. destruct (Hover p Hp Hset') as (s & r & Hr & _ & _ & Hft').
    apply Hnot. split; [lia|]. by eapply run_set.
Qed.

(** A free run has no more pages than the counter. *)
Lemma free_run_counter s n : free_run (free_map c) s n -> n <= free_pages c.
Proof.
  intros (Hn & Hs & He & _ & Hf & _). rewrite (ok_free c runs Hc). unfold clear_pages, llen.
  replace 512%nat with (Z.to_nat s + (Z.to_nat n + Z.to_nat (512 - s - n)))%nat by lia.
  rewrite zrange_app, zrange_app, !filter_app, !length_app.
  rewrite (filter_true _ (zrange (0 + Z.of_nat (Z.to_nat s)) (Z.to_nat n))), length_zrange; [lia|].
  intros p Hp%elem_of_zrange. apply Hf. lia.
Qed.

Lemma search_chunk_spec count : 1 <= count ->
  exists r, search_chunk c count = Some r /\ search_ok (free_map c) (free_tail c) count r.
Proof.
  intros Hcount. unfold search_chunk. destruct (Z.ltb_spec (free_pages c) count).
  { eexists. split; [done|]. split; [|by left]. intros s n Hr. pose proof (free_run_counter s n Hr). lia. }
  destruct chunk_tail_split as [e He]. pose proof (ok_map c runs Hc) as Hm.
  destruct (map_word (free_map c) 0 Hm ltac:(lia)) as [-> Hw]. cbn [mbind option_bind].
  apply (best_fit_spec _ _ e _ Hm He Hcount 512 (-1) 512 1 0 _ 0); try lia.
  - split; [lia|]. split; [done|]. done.
  - split; [done|]. intros j Hj. rewrite bool_decide_false by lia. unfold page_set.
    assert ((0 + j) / 64 = 0) as -> by zlia. assert ((0 + j) mod 64 = j) as -> by zlia. done.
  - apply (ok_header c runs Hc).
  - left. split; [done|]. split; [done|]. intros s n (? & ? & _) ?. lia.
Qed.
End Chunk.

(** * Updating the runs *)

Lemma filter_ext_in {A} (P Q : A -> Prop) `{!forall x, Decision (P x)} `{!forall x, Decision (Q x)} (l : list A) :
  (forall x, x ∈ l -> P x <-> Q x) -> filter P l = filter Q l.
Proof.
  induction l as [|x l IH]; intros Hl; [done|]. rewrite !filter_cons, IH by (intros; apply Hl; by right).
  assert (P x <-> Q x) by (apply Hl; by left). repeat case_decide; naive_solver.
Qed.

Lemma filter_false {A} (P : A -> Prop) `{!forall x, Decision (P x)} (l : list A) :
  (forall x, x ∈ l -> ~ P x) -> filter P l = [].
Proof.
  induction l as [|x l IH]; intros Hl; [done|]. rewrite filter_cons_False by (apply Hl; by left).
  apply IH. intros. apply Hl. by right.
Qed.

Lemma clear_pages_change m m' s n : 0 <= s -> 1 <= n -> s + n <= 512 ->
  (forall p, 0 <= p < 512 -> ~ (s <= p < s + n) -> page_set m' p = page_set m p) ->
  (forall p, s <= p < s + n -> page_set m p = false) -> (forall p, s <= p < s + n -> page_set m' p = true) ->
  clear_pages m = clear_pages m' + n.
Proof.
  intros Hs Hn He Hout Hf Ht. unfold clear_pages, llen.
  replace 512%nat with (Z.to_nat s + (Z.to_nat n + Z.to_nat (512 - s - n)))%nat by lia.
  rewrite !zrange_app, !filter_app, !length_app.
  rewrite (filter_true _ (zrange (0 + Z.of_nat (Z.to_nat s)) (Z.to_nat n)))
    by (intros p Hp%elem_of_zrange; apply Hf; lia).
  rewrite (filter_false _ (zrange (0 + Z.of_nat (Z.to_nat s)) (Z.to_nat n)))
    by (intros p Hp%elem_of_zrange; rewrite Ht by lia; done).
  rewrite (filter_ext_in (fun p => page_set m' p = false) (fun p => page_set m p = false) (zrange 0 (Z.to_nat s)))
    by (intros p Hp%elem_of_zrange; rewrite Hout by lia; done).
  rewrite (filter_ext_in (fun p => page_set m' p = false) (fun p => page_set m p = false) (zrange (0 + _ + _) _))
    by (intros p Hp%elem_of_zrange; rewrite Hout by lia; done).
  rewrite length_zrange. cbn [length]. lia.
Qed.

Lemma clear_pages_all m : page_set m 0 = true -> (forall p, 1 <= p < 512 -> page_set m p = false) -> clear_pages m = 511.
Proof.
  intros H0 Hc. unfold clear_pages, llen. change 512%nat with (1 + 511)%nat. rewrite zrange_app, filter_app, length_app.
  rewrite filter_false, filter_true; [by rewrite length_zrange|..].
  - intros p Hp%elem_of_zrange. apply Hc. lia.
  - intros p Hp%elem_of_zrange. replace p with 0 by lia. by rewrite H0.
Qed.

Lemma clear_pages_bound m : page_set m 0 = true -> 0 <= clear_pages m <= 511.
Proof.
  intros H0. unfold clear_pages, llen. change 512%nat with (1 + 511)%nat. rewrite zrange_app, filter_app, length_app.
  rewrite (filter_false _ (zrange 0 1)) by (intros p Hp%elem_of_zrange; replace p with 0 by lia; by rewrite H0).
  pose proof (length_filter (fun p => page_set m p = false) (zrange (0 + Z.of_nat 1) 511)) as H.
  rewrite length_zrange in H. cbn [length]. lia.
Qed.

Lemma owned_insert runs s r o p : runs_ok runs -> runs !! s = o ->
  owned (<[s := r]> runs) p <-> in_run s r p \/ (owned runs p /\ ~ exists r0, o = Some r0 /\ in_run s r0 p).
Proof.
  intros [_ Hu] Ho. split.
  - intros (s' & r' & Hr & Hin). apply lookup_insert_Some in Hr as [[<- <-]|[Hne Hr]]; [by left|].
    right. split; [by exists s', r'|]. intros (r0 & -> & Hin0). apply Hne. by eapply Hu.
  - intros [Hin|[(s' & r' & Hr & Hin) Hno]].
    + exists s, r. split; [apply lookup_insert_eq|done].
    + exists s', r'. split; [|done]. apply lookup_insert_Some. right. split; [|done].
      intros ->. apply Hno. exists r'. by rewrite <- Ho.
Qed.

Lemma owned_delete runs s r p : runs_ok runs -> runs !! s = Some r ->
  owned (delete s runs) p <-> owned runs p /\ ~ in_run s r p.
Proof.
  intros [_ Hu] Hr. split.
  - intros (s' & r' & H & Hin). apply lookup_delete_Some in H as [Hne H]. split; [by exists s', r'|].
    intros Hin'. apply Hne. by eapply Hu.
  - intros [(s' & r' & H & Hin) Hno]. exists s', r'. split; [|done]. apply lookup_delete_Some. split; [|done].
    intros ->. apply Hno. by simplify_eq.
Qed.

Lemma runs_ok_insert runs s r : runs_ok runs -> 1 <= s -> 1 <= run_pages r -> s + run_pages r <= 512 ->
  (forall s' r' p, runs !! s' = Some r' -> s' <> s -> in_run s' r' p -> ~ in_run s r p) ->
  runs_ok (<[s := r]> runs).
Proof.
  intros [Hb Hu] Hs Hn He Hd. split.
  - intros s' r' Hr. apply lookup_insert_Some in Hr as [[<- <-]|[_ Hr]]; [done|by apply Hb].
  - intros s1 r1 s2 r2 p H1 H2 Hp1 Hp2.
    apply lookup_insert_Some in H1 as [[<- <-]|[Hn1 H1]], H2 as [[<- <-]|[Hn2 H2]]; try done.
    + exfalso. by eapply (Hd s2 r2 p).
    + exfalso. by eapply (Hd s1 r1 p).
    + by eapply Hu.
Qed.

Lemma runs_ok_delete runs s : runs_ok runs -> runs_ok (delete s runs).
Proof.
  intros [Hb Hu]. split.
  - intros s' r' [_ Hr]%lookup_delete_Some. by apply Hb.
  - intros s1 r1 s2 r2 p [_ H1]%lookup_delete_Some [_ H2]%lookup_delete_Some. by eapply Hu.
Qed.

Lemma run_info_lset m p x s r : 0 <= p -> 1 <= s -> 1 <= run_pages r -> ~ in_run s r p -> run_info m s r ->
  run_info (lset m p x) s r.
Proof.
  intros Hp Hs Hn Hno Hi. unfold in_run in Hno. destruct r as [n|b]; cbn [run_info run_pages] in *.
  - rewrite lget_lset_ne by lia. done.
  - destruct Hi as (Hb & (k & Hk & Hh) & Hi). split; [done|]. split.
    + exists k. split; [done|]. by rewrite lget_lset_ne by lia.
    + intros i Hi'. rewrite lget_lset_ne by lia. by apply Hi.
Qed.

(** * Operations *)

Lemma lstore_512 (l : list Z) i x : length l = 512%nat -> 0 <= i < 512 ->
  lstore l i x = Some (lset l i x) /\ length (lset l i x) = 512%nat /\ lget 0 (lset l i x) i = x.
Proof.
  intros Hl Hi. unfold lstore, llen. rewrite Hl. split; [zbool; lia || done|].
  split; [unfold lset; by rewrite length_insert|]. apply lget_lset_eq. unfold llen. lia.
Qed.

(** All operations keep [chunk_ok] by this lemma: run [s] becomes [r] (its old
    pages, if it had any, are given up), the bits and the counter follow. *)
Lemma chunk_ok_update c runs s r o m' x ft : chunk_ok c runs -> runs !! s = o ->
  1 <= s -> 1 <= run_pages r -> s + run_pages r <= 512 ->
  (forall s' r' p, runs !! s' = Some r' -> s' <> s -> in_run s' r' p -> ~ in_run s r p) ->
  map_ok m' -> page_set m' 0 = true ->
  (forall p, 1 <= p < 512 -> page_set m' p = true <-> in_run s r p \/ (owned runs p /\ ~ exists r0, o = Some r0 /\ in_run s r0 p)) ->
  run_info (lset (chunk_map c) s x) s r -> tail_ok (<[s := r]> runs) ft ->
  chunk_ok (mk_chunk (clear_pages m') ft m' (lset (chunk_map c) s x)) (<[s := r]> runs).
Proof.
  intros Hc Ho Hs Hn He Hd Hm' H0 Hp Hi Hft. pose proof (lstore_512 (chunk_map c) s x (ok_info c runs Hc) ltac:(lia)) as (_ & Hl & _).
  split; cbn; try done.
  - apply runs_ok_insert; try done. apply (ok_runs c runs Hc).
  - intros s' r' Hr. apply lookup_insert_Some in Hr as [[<- <-]|[Hne Hr]]; [done|].
    destruct (run_bounds c runs Hc s' r' Hr) as (? & ? & ?).
    apply run_info_lset; try lia; [|by apply (ok_run_info c runs Hc)].
    intros Hin. eapply (Hd s' r' s); [done|done|done|]. unfold in_run. lia.
  - intros p Hp'. rewrite Hp by done. symmetry. apply owned_insert; [apply (ok_runs c runs Hc)|done].
Qed.

Lemma in_range_spec s n p : in_range s n p = true <-> s <= p < s + n.
Proof. unfold in_range. apply bool_decide_eq_true. Qed.

Lemma mark_run_ok c runs ft s n : chunk_ok c runs -> 1 <= n -> 1 <= s -> s + n <= 512 ->
  (forall p, s <= p < s + n -> page_set (free_map c) p = false) ->
  tail_ok (<[s := Large n]> runs) (if s =? ft then s + n else ft) ->
  exists c', mark_run (set_chunk_tail ft c) s n = Some c' /\ chunk_ok c' (<[s := Large n]> runs) /\ runs !! s = None.
Proof.
  intros Hc Hn Hs He Hf Hft.
  assert (runs !! s = None) as Hnone.
  { destruct (runs !! s) as [r|] eqn:E; [|done]. destruct (run_bounds c runs Hc s r E) as (? & ? & ?).
    specialize (Hf s ltac:(lia)). rewrite (run_set c runs Hc s r s) in Hf; [done|done|unfold in_run; lia]. }
  unfold mark_run, set_chunk_tail. cbn [free_pages free_tail free_map chunk_map].
  destruct (set_range_spec (free_map c) s n (ok_map c runs Hc) ltac:(lia) Hn ltac:(lia)) as (m' & -> & Hm' & Hp').
  cbn [mbind option_bind].
  destruct (lstore_512 (chunk_map c) s (ZEND_MM_LRUN n) (ok_info c runs Hc) ltac:(lia)) as (-> & Hl & Hg).
  cbn [mbind option_bind]. eexists. split; [reflexivity|]. split; [|done].
  assert (clear_pages (free_map c) = clear_pages m' + n) as Hclear.
  { apply (clear_pages_change _ _ s); [lia..| |done|].
    - intros p Hp Hout. rewrite Hp' by done. destruct (in_range s n p) eqn:E; [|by rewrite orb_false_r].
      apply in_range_spec in E. done.
    - intros p Hp. rewrite Hp', (proj2 (in_range_spec s n p)), orb_true_r by lia. done. }
  assert (page_set m' 0 = true) as H0 by (rewrite Hp', (ok_header c runs Hc) by lia; done).
  pose proof (clear_pages_bound m' H0). pose proof (clear_pages_bound _ (ok_header c runs Hc)).
  rewrite (ok_free c runs Hc), Hclear. replace (clear_pages m' + n - n) with (clear_pages m') by lia.
  rewrite u32_small by lia. apply (chunk_ok_update c runs s (Large n) None); try done.
  - intros s' r' p Hr _ Hin Hin'. specialize (Hf p Hin'). by rewrite (run_set c runs Hc s' r' p) in Hf.
  - intros p Hp. rewrite Hp', orb_true_iff, in_range_spec, (ok_pages c runs Hc p) by lia.
    unfold in_run. cbn. naive_solver.
Qed.

Lemma tail_ok_after_search c runs count s ft' :
  chunk_ok c runs -> 1 <= count -> search_ok (free_map c) (free_tail c) count (Found s ft') ->
  tail_ok (<[s := Large count]> runs) (if s =? ft' then s + count else ft').
Proof.
  intros Hc Hcount (n & ((Hn & Hs & He & Hb & Hf & Hend) & Hcn & _) & Hcase).
  assert (forall f, (forall s' r', runs !! s' = Some r' -> s' < f) -> s < f -> 1 <= f <= 512 -> tail_ok (<[s := Large count]> runs) f) as Hins.
  { intros f H1 H2 H3. split; [done|]. intros s' r' Hr. apply lookup_insert_Some in Hr as [[<- _]|[_ Hr]]; [done|by eapply H1]. }
  assert (forall s' r', runs !! s' = Some r' -> s' < s \/ s + n <= s') as Hstarts.
  { intros s' r' Hr. destruct (decide (s' < s)); [by left|]. destruct (decide (s + n <= s')); [by right|].
    destruct (run_bounds c runs Hc s' r' Hr) as (? & ? & ?).
    specialize (Hf s' ltac:(lia)). rewrite (run_set c runs Hc s' r' s') in Hf; [done|done|unfold in_run; lia]. }
  assert (forall s' r', runs !! s' = Some r' -> s' < 512) as Hlt by (intros s' r' Hr; destruct (run_bounds c runs Hc s' r' Hr) as (? & ? & ?); lia).
  destruct (ok_tail c runs Hc) as [Hft Hts].
  destruct Hcase as [[Hsn ->]|[Hsn Hcase]].
  - destruct (Z.eqb_spec s (s + count)); [lia|]. apply Hins; [|lia|lia]. intros s' r' Hr.
    specialize (Hstarts s' r' Hr). specialize (Hlt s' r' Hr). lia.
  - assert (exists s1 r1, runs !! s1 = Some r1 /\ s + n <= s1) as (s1 & r1 & Hr1 & Hs1).
    { destruct Hend as [|Hend]; [lia|]. apply (ok_pages c runs Hc) in Hend as (s1 & r1 & Hr1 & Hin); [|lia].
      exists s1, r1. split; [done|]. destruct (Hstarts s1 r1 Hr1) as [Hlt1|]; [|done].
      specialize (Hf s ltac:(lia)). rewrite (run_set c runs Hc s1 r1 s) in Hf; [done|done|unfold in_run in *; lia]. }
    destruct Hcase as [->|(Hft' & Hb' & Hclear)].
    + specialize (Hts s1 r1 Hr1) as Hs1ft. destruct (Z.eqb_spec s (free_tail c)) as [E|E]; [lia|].
      apply Hins; [done|lia|lia].
    + assert (forall s' r', runs !! s' = Some r' -> s' < ft') as Hlt'.
      { intros s' r' Hr. destruct (decide (s' < ft')); [done|]. destruct (run_bounds c runs Hc s' r' Hr) as (? & ? & ?).
        pose proof (run_set c runs Hc s' r' s' Hr ltac:(unfold in_run; lia)) as Hset. rewrite Hclear in Hset by lia. done. }
      specialize (Hlt' s1 r1 Hr1) as Hs1ft. destruct (Z.eqb_spec s ft') as [E|E]; [lia|]. apply Hins; [done|lia|lia].
Qed.

(** The page search is a best-fit search.  On a well-formed chunk it ends
    without an access outside of the bitset, and finds the leftmost of the
    shortest maximal runs of free pages that are long enough; it fails exactly
    when no run is long enough.  Marking the pages adds the run to the abstract
    state and keeps the chunk well-formed. *)
Lemma alloc_in_chunk_ok c runs count : chunk_ok c runs -> 1 <= count ->
  exists r c', alloc_in_chunk c count = Some (r, c') /\
    match r with
    | Some s => (exists n, best_run (free_map c) count s n) /\ runs !! s = None /\ chunk_ok c' (<[s := Large count]> runs)
    | None => (forall s n, free_run (free_map c) s n -> n < count) /\ chunk_ok c' runs
    end.
Proof.
  intros Hc Hcount. unfold alloc_in_chunk. destruct (search_chunk_spec c runs Hc count Hcount) as (r & -> & Hr).
  cbn [mbind option_bind]. destruct r as [s ft|ft].
  - pose proof (tail_ok_after_search c runs count s ft Hc Hcount Hr) as Hft.
    destruct Hr as (n & Hbest & _). pose proof Hbest as ((Hn & Hs & He & _ & Hf & _) & Hcn & _).
    destruct (mark_run_ok c runs ft s count Hc) as (c' & -> & Hc' & Hnone); try done; try lia.
    { intros p Hp. apply Hf. lia. }
    exists (Some s), c'. split; [done|]. split; [by exists n|]. done.
  - exists None, (set_chunk_tail ft c). split; [done|]. destruct Hr as [Hno Hft]. split; [done|].
    destruct Hc as [H1 H2 H3 H4 H5 H6 H7 H8]. split; try done. cbn.
    destruct Hft as [->|(Hft & Hb & Hclear)]; [done|]. split; [lia|]. intros s r Hr.
    destruct (decide (s < ft)); [done|]. destruct (proj1 H4 s r Hr) as (? & ? & ?).
    assert (page_set (free_map c) s = true) as Hset by (apply H6; [lia|]; exists s, r; split; [done|unfold in_run; lia]).
    rewrite Hclear in Hset by lia. done.
Qed.


(** Releasing a run. *)
Lemma free_pages_ok c runs s r : chunk_ok c runs -> runs !! s = Some r ->
  exists c', zend_mm_free_pages c s (run_pages r) = Some c' /\ chunk_ok c' (delete s runs) /\ lget 0 (chunk_map c') s = 0 /\
    free_pages c' = free_pages c + run_pages r.
Proof.
  intros Hc Hr. destruct (run_bounds c runs Hc s r Hr) as (Hs & Hn & He). unfold zend_mm_free_pages.
  destruct (reset_range_spec (free_map c) s (run_pages r) (ok_map c runs Hc) ltac:(lia) Hn ltac:(lia)) as (m' & -> & Hm' & Hp').
  cbn [mbind option_bind]. destruct (lstore_512 (chunk_map c) s 0 (ok_info c runs Hc) ltac:(lia)) as (-> & Hl & Hg).
  cbn [mbind option_bind]. eexists. split; [reflexivity|].
  assert (clear_pages m' = clear_pages (free_map c) + run_pages r) as Hclear.
  { apply (clear_pages_change _ _ s); [lia..| | |].
    - intros p Hp Hout. rewrite Hp' by done. destruct (in_range s (run_pages r) p) eqn:E; [|by rewrite andb_true_r].
      apply in_range_spec in E. done.
    - intros p Hp. rewrite Hp', (proj2 (in_range_spec s (run_pages r) p)), andb_false_r by lia. done.
    - intros p Hp. by eapply run_set. }
  assert (page_set m' 0 = true) as H0.
  { rewrite Hp', (ok_header c runs Hc) by lia. unfold in_range. by rewrite bool_decide_false by lia. }
  pose proof (clear_pages_bound m' H0). destruct (ok_tail c runs Hc) as [Hft Hts].
  assert (u32 (free_pages c + run_pages r) = clear_pages m') as Hfree.
  { rewrite (ok_free c runs Hc), <- Hclear. apply u32_small. lia. }
  split; [|split; [done|]]; last first.
  { cbn. by rewrite Hfree, Hclear, (ok_free c runs Hc). }
  split; cbn; try done.
  - apply runs_ok_delete, (ok_runs c runs Hc).
  - intros s' r' [Hne Hr']%lookup_delete_Some. destruct (run_bounds c runs Hc s' r' Hr') as (? & ? & ?).
    apply run_info_lset; try lia; [|by apply (ok_run_info c runs Hc)].
    intros Hin. apply Hne. eapply (run_unique c runs Hc s r s' r' s); [done|done|unfold in_run; lia|done].
  - intros p Hp. rewrite (owned_delete runs s r) by (apply (ok_runs c runs Hc) || done).
    rewrite Hp', andb_true_iff, negb_true_iff, (ok_pages c runs Hc) by lia.
    rewrite <- (not_true_iff_false (in_range _ _ _)), in_range_spec. done.
  - destruct (Z.eqb_spec (free_tail c) (s + run_pages r)) as [E|E].
    + split; [lia|]. intros s' r' [Hne Hr']%lookup_delete_Some. specialize (Hts s' r' Hr').
      destruct (decide (s' < s)); [done|]. destruct Hne.
      eapply (run_unique c runs Hc s r s' r' s'); [done|done|unfold in_run; lia|].
      destruct (run_bounds c runs Hc s' r' Hr') as (? & ? & ?). unfold in_run. lia.
    + split; [done|]. intros s' r' [_ Hr']%lookup_delete_Some. by eapply Hts.
Qed.

(** Shortening a large run in place. *)
Lemma truncate_run_ok c runs s n k : chunk_ok c runs -> runs !! s = Some (Large n) -> 1 <= k < n ->
  exists c', truncate_run c s k (n - k) = Some c' /\ chunk_ok c' (<[s := Large k]> runs).
Proof.
  intros Hc Hr Hk. destruct (run_bounds c runs Hc s _ Hr) as (Hs & Hn & He). cbn in Hn, He. unfold truncate_run.
  destruct (lstore_512 (chunk_map c) s (ZEND_MM_LRUN k) (ok_info c runs Hc) ltac:(lia)) as (-> & Hl & Hg).
  cbn [mbind option_bind].
  destruct (reset_range_spec (free_map c) (s + k) (n - k) (ok_map c runs Hc) ltac:(lia) ltac:(lia) ltac:(lia)) as (m' & -> & Hm' & Hp').
  cbn [mbind option_bind]. eexists. split; [reflexivity|].
  assert (forall p, s <= p < s + n -> page_set (free_map c) p = true) as Hset by (intros; by eapply run_set).
  assert (clear_pages m' = clear_pages (free_map c) + (n - k)) as Hclear.
  { apply (clear_pages_change _ _ (s + k)); [lia..| | |].
    - intros p Hp Hout. rewrite Hp' by done. destruct (in_range (s + k) (n - k) p) eqn:E; [|by rewrite andb_true_r].
      apply in_range_spec in E. done.
    - intros p Hp. rewrite Hp', (proj2 (in_range_spec (s + k) (n - k) p)), andb_false_r by lia. done.
    - intros p Hp. apply Hset. lia. }
  assert (page_set m' 0 = true) as H0.
  { rewrite Hp', (ok_header c runs Hc) by lia. unfold in_range. by rewrite bool_decide_false by lia. }
  pose proof (clear_pages_bound m' H0). destruct (ok_tail c runs Hc) as [Hft Hts].
  rewrite (ok_free c runs Hc), <- Hclear, u32_small by lia.
  apply (chunk_ok_update c runs s (Large k) (Some (Large n))); try done; cbn; try lia.
  - intros s' r' p Hr' Hne Hin Hin'. apply Hne. eapply (run_unique c runs Hc s' r' s _ p); [done|done|done|].
    unfold in_run in *. cbn in *. lia.
  - intros p Hp. rewrite Hp', andb_true_iff, negb_true_iff, <- (not_true_iff_false (in_range _ _ _)), in_range_spec by lia.
    rewrite (ok_pages c runs Hc) by lia. unfold in_run at 1. cbn. split.
    + intros [Ho Hno]. destruct (decide (s <= p < s + k)); [by left|]. right. split; [done|].
      intros (r0 & [= <-] & Hin). unfold in_run in Hin. cbn in Hin. lia.
    + intros [Hin|[Ho Hno]].
      * split; [|lia]. exists s, (Large n). split; [done|]. unfold in_run. cbn. lia.
      * split; [done|]. intros Hin. apply Hno. exists (Large n). split; [done|]. unfold in_run. cbn. lia.
  - split; [done|]. intros s' r' Hr'. apply lookup_insert_Some in Hr' as [[<- _]|[_ Hr']]; by eapply Hts.
Qed.

(** Extending a large run in place: possible exactly when the pages after it are free. *)
Lemma extend_run_ok c runs s n k : chunk_ok c runs -> runs !! s = Some (Large n) -> n < k ->
  exists o, extend_run c s n k = Some o /\
    match o with
    | Some c' => (forall p, s + n <= p < s + k -> ~ owned runs p) /\ chunk_ok c' (<[s := Large k]> runs)
    | None => s + k <= 512 -> exists p, s + n <= p < s + k /\ owned runs p
    end.
Proof.
  intros Hc Hr Hk. destruct (run_bounds c runs Hc s _ Hr) as (Hs & Hn & He). cbn in Hn, He. unfold extend_run.
  change ZEND_MM_PAGES with 512. destruct (Z.leb_spec (s + k) 512); [|exists None; split; [done|lia]].
  destruct (is_free_range_spec (free_map c) (s + n) (k - n) (ok_map c runs Hc) ltac:(lia) ltac:(lia) ltac:(lia)) as (b & -> & Hb).
  cbn [mbind option_bind]. destruct b; last first.
  { exists None. split; [done|]. intros _.
    destruct (decide (Exists (fun p => page_set (free_map c) p = true) (zrange (s + n) (Z.to_nat (k - n))))) as [E|E].
    - apply Exists_exists in E as (p & Hp%elem_of_zrange & Hset). exists p. split; [lia|]. apply (ok_pages c runs Hc); [lia|done].
    - apply not_Exists_Forall in E; [|apply _]. rewrite Forall_forall in E.
      exfalso. enough (false = true) by done. apply Hb. intros p Hp. apply not_true_is_false.
      apply (E p), elem_of_zrange. lia. }
  assert (forall p, s + n <= p < s + k -> page_set (free_map c) p = false) as Hf by (intros p Hp; apply Hb; [done|lia]).
  destruct (set_range_spec (free_map c) (s + n) (k - n) (ok_map c runs Hc) ltac:(lia) ltac:(lia) ltac:(lia)) as (m' & -> & Hm' & Hp').
  cbn [mbind option_bind].
  destruct (lstore_512 (chunk_map c) s (ZEND_MM_LRUN k) (ok_info c runs Hc) ltac:(lia)) as (-> & Hl & Hg).
  cbn [mbind option_bind]. eexists. split; [reflexivity|].
  assert (forall p, s + n <= p < s + k -> ~ owned runs p) as Hnot.
  { intros p Hp Ho. apply (ok_pages c runs Hc) in Ho; [|lia]. by rewrite Hf in Ho. }
  split; [done|].
  assert (clear_pages (free_map c) = clear_pages m' + (k - n)) as Hclear.
  { apply (clear_pages_change _ _ (s + n)); [lia..| | |].
    - intros p Hp Hout. rewrite Hp' by done. destruct (in_range (s + n) (k - n) p) eqn:E; [|by rewrite orb_false_r].
      apply in_range_spec in E. done.
    - intros p Hp. apply Hf. lia.
    - intros p Hp. rewrite Hp', (proj2 (in_range_spec (s + n) (k - n) p)), orb_true_r by lia. done. }
  assert (page_set m' 0 = true) as H0 by (rewrite Hp', (ok_header c runs Hc) by lia; done).
  pose proof (clear_pages_bound m' H0). pose proof (clear_pages_bound _ (ok_header c runs Hc)).
  destruct (ok_tail c runs Hc) as [Hft Hts].
  rewrite (ok_free c runs Hc), Hclear. replace (clear_pages m' + (k - n) - (k - n)) with (clear_pages m') by lia.
  rewrite u32_small by lia. apply (chunk_ok_update c runs s (Large k) (Some (Large n))); try done; cbn; try lia.
  - intros s' r' p Hr' Hne Hin Hin'. unfold in_run in Hin'. cbn in Hin'. destruct (decide (p < s + n)).
    + apply Hne. eapply (run_unique c runs Hc s' r' s _ p); [done|done|done|]. unfold in_run. cbn. lia.
    + apply (Hnot p); [lia|]. by exists s', r'.
  - intros p Hp. rewrite Hp', orb_true_iff, in_range_spec by lia. rewrite (ok_pages c runs Hc) by lia.
    unfold in_run at 1. cbn. split.
    + intros [Ho|Hin]; [|left; lia]. destruct (decide (s <= p < s + k)); [by left|]. right. split; [done|].
      intros (r0 & [= <-] & Hin). unfold in_run in Hin. cbn in Hin. lia.
    + intros [Hin|[Ho _]]; [|by left]. destruct (decide (p < s + n)); [left|right; lia].
      exists s, (Large n). split; [done|]. unfold in_run. cbn. lia.
  - split; [done|]. intros s' r' Hr'. apply lookup_insert_Some in Hr' as [[<- _]|[_ Hr']]; by eapply Hts.
Qed.

(** Turning the pages of a large run into a small run. *)
Lemma mark_nruns_ok n : forall m s b i, length m = 512%nat -> is_bin b -> 1 <= s -> s + bin_pages b <= 512 ->
  1 <= i < bin_pages b -> bin_pages b - i <= Z.of_nat n ->
  exists m', mark_nruns n m s b i = Some m' /\ length m' = 512%nat /\
    (forall j, i <= j < bin_pages b -> lget 0 m' (s + j) = ZEND_MM_NRUN b j) /\
    forall p, 0 <= p -> ~ (s + i <= p < s + bin_pages b) -> lget 0 m' p = lget 0 m p.
Proof.
  induction n as [|n IH]; intros m s b i Hm Hb Hs He Hi Hn; [lia|]. cbn [mark_nruns].
  destruct (lstore_512 m (s + i) (ZEND_MM_NRUN b i) Hm ltac:(lia)) as (-> & Hm1 & Hg). cbn [mbind option_bind].
  destruct (Z.ltb_spec (i + 1) (bin_pages b)).
  - destruct (IH (lset m (s + i) (ZEND_MM_NRUN b i)) s b (i + 1)) as (m' & -> & Hm' & Hin & Hout); try done; try lia.
    exists m'. split; [done|]. split; [done|]. split.
    + intros j Hj. destruct (decide (j = i)) as [->|]; [|apply Hin; lia]. rewrite Hout by lia. done.
    + intros p Hp Hno. rewrite Hout by lia. apply lget_lset_ne; lia.
  - eexists. split; [done|]. split; [done|]. split.
    + intros j Hj. by replace j with i by lia.
    + intros p Hp Hno. apply lget_lset_ne; lia.
Qed.

Lemma srun_ex_0 b : ZEND_MM_SRUN b = ZEND_MM_SRUN_EX b 0.
Proof. unfold ZEND_MM_SRUN_EX, ZEND_MM_SRUN. by rewrite Z.shiftl_0_l, Z.lor_0_r. Qed.

Lemma mark_small_run_ok c runs s b : chunk_ok c runs -> is_bin b -> runs !! s = Some (Large (bin_pages b)) ->
  exists c', mark_small_run c s b = Some c' /\ chunk_ok c' (<[s := Small b]> runs) /\
    lget 0 (chunk_map c') s = ZEND_MM_SRUN b /\
    forall p, 0 <= p -> ~ in_run s (Small b) p -> lget 0 (chunk_map c') p = lget 0 (chunk_map c) p.
Proof.
  intros Hc Hb Hr. destruct (run_bounds c runs Hc s _ Hr) as (Hs & Hn & He). cbn in Hn, He. unfold mark_small_run.
  destruct (lstore_512 (chunk_map c) s (ZEND_MM_SRUN b) (ok_info c runs Hc) ltac:(lia)) as (-> & Hl & Hg).
  cbn [mbind option_bind].
  assert (exists m', (if 1 <? bin_pages b then mark_nruns 8 (lset (chunk_map c) s (ZEND_MM_SRUN b)) s b 1
                      else Some (lset (chunk_map c) s (ZEND_MM_SRUN b))) = Some m' /\ length m' = 512%nat /\
    (forall j, 1 <= j < bin_pages b -> lget 0 m' (s + j) = ZEND_MM_NRUN b j) /\
    lget 0 m' s = ZEND_MM_SRUN b /\
    forall p, 0 <= p -> ~ (s <= p < s + bin_pages b) -> lget 0 m' p = lget 0 (chunk_map c) p) as (m' & -> & Hm' & Hin & Hh & Hout).
  { destruct (bin_facts b Hb) as (_ & _ & _ & Hpg & _). destruct (Z.ltb_spec 1 (bin_pages b)).
    - destruct (mark_nruns_ok 8 (lset (chunk_map c) s (ZEND_MM_SRUN b)) s b 1 Hl Hb Hs He ltac:(lia) ltac:(lia))
        as (m' & -> & Hm' & Hin & Hout). exists m'. split; [done|]. split; [done|]. split; [done|].
      split; [by rewrite Hout by lia|]. intros p Hp Hno. rewrite Hout by lia. apply lget_lset_ne; lia.
    - eexists. split; [done|]. split; [done|]. split; [lia|]. split; [done|]. intros p Hp Hno. apply lget_lset_ne; lia. }
  cbn [mbind option_bind]. eexists. split; [reflexivity|].
  assert (forall p, owned (<[s := Small b]> runs) p <-> owned runs p) as Hown.
  { intros p. rewrite (owned_insert runs s (Small b) (Some (Large (bin_pages b)))) by (apply (ok_runs c runs Hc) || done).
    unfold in_run at 1. cbn. split.
    - intros [Hin'|[Ho _]]; [|done]. by exists s, (Large (bin_pages b)).
    - intros Ho. destruct (decide (s <= p < s + bin_pages b)); [by left|]. right. split; [done|].
      intros (r0 & [= <-] & Hin'). done. }
  assert (forall s' r' p, runs !! s' = Some r' -> s' <> s -> in_run s' r' p -> ~ (s <= p < s + bin_pages b)) as Hdis.
  { intros s' r' p Hr' Hne Hin' Hp. apply Hne. by eapply (run_unique c runs Hc s' r' s _ p). }
  split; [|split; [exact Hh|exact Hout]].
  destruct Hc as [H1 H2 H3 H4 H5 H6 H7 H8]. split; cbn; try done.
  - by apply runs_ok_insert.
  - intros s' r' Hr'. apply lookup_insert_Some in Hr' as [[<- <-]|[Hne Hr']].
    + split; [done|]. split; [|done]. exists 0. by rewrite <- srun_ex_0.
    + destruct (proj1 H4 s' r' Hr') as (Hs' & Hn' & He'). specialize (H5 s' r' Hr').
      assert (forall p, in_run s' r' p -> lget 0 m' p = lget 0 (chunk_map c) p) as Hsame.
      { intros p Hp. apply Hout; [unfold in_run in Hp; lia|]. by eapply Hdis. }
      destruct r' as [n|b']; cbn in *.
      * rewrite Hsame; [done|]. unfold in_run. cbn. lia.
      * destruct H5 as (Hb' & (k & Hk & Hh') & Hi'). split; [done|]. split.
        -- exists k. split; [done|]. rewrite Hsame; [done|]. unfold in_run. cbn. lia.
        -- intros i Hi. rewrite Hsame; [by apply Hi'|]. unfold in_run. cbn. lia.
  - intros p Hp. rewrite Hown. by apply H6.
  - destruct H8 as [Hft Hts]. split; [done|]. intros s' r' Hr'.
    apply lookup_insert_Some in Hr' as [[<- _]|[_ Hr']]; by eapply Hts.
Qed.

(** A new chunk has no runs: on zeroed memory, and on a chunk whose runs were all released. *)
Lemma chunk_init_ok c : map_ok (free_map c) -> length (chunk_map c) = 512%nat ->
  (forall p, 1 <= p < 512 -> page_set (free_map c) p = false) -> chunk_ok (zend_mm_chunk_init c) ∅.
Proof.
  intros Hm Hl Hf. unfold zend_mm_chunk_init.
  destruct (map_store (free_map c) 0 (Z.shiftl 1 ZEND_MM_FIRST_PAGE - 1) Hm ltac:(lia) ltac:(done)) as (_ & Hm' & Hp').
  assert (forall p, 0 <= p < 512 -> page_set (lset (free_map c) 0 (Z.shiftl 1 ZEND_MM_FIRST_PAGE - 1)) p = bool_decide (p = 0)) as Hp.
  { intros p Hp. rewrite Hp' by done. change (Z.shiftl 1 ZEND_MM_FIRST_PAGE - 1) with 1.
    destruct (Z.eqb_spec (p / 64) 0) as [E|E].
    - pose proof (page_index p Hp). assert (p = p mod 64) as Ep by lia. rewrite <- Ep. case_bool_decide as Ep0; [by rewrite Ep0|].
      change 1 with (2 ^ 0). apply Z.pow2_bits_false. lia.
    - rewrite bool_decide_false by zlia. apply Hf. zlia. }
  split; cbn; try done.
  - unfold lset. by rewrite length_insert.
  - rewrite Hp by lia. done.
  - intros p Hp1. rewrite Hp by lia. rewrite bool_decide_eq_true. split; [lia|]. by intros (s & r & Hr & _).
  - unfold clear_pages, llen. change 512%nat with (1 + 511)%nat. rewrite zrange_app, filter_app, length_app.
    rewrite (filter_false _ (zrange 0 1)) by (intros p Hp1%elem_of_zrange; rewrite Hp, bool_decide_true by lia; done).
    rewrite (filter_true _ (zrange (0 + Z.of_nat 1) 511)), length_zrange; [done|].
    intros p Hp1%elem_of_zrange. rewrite Hp by lia. by apply bool_decide_eq_false; lia.
Qed.

(** What the operations write into the page information. *)
Lemma alloc_in_chunk_map c n r c' : alloc_in_chunk c n = Some (r, c') ->
  chunk_map c' = match r with Some p => lset (chunk_map c) p (ZEND_MM_LRUN n) | None => chunk_map c end.
Proof.
  unfold alloc_in_chunk. destruct (search_chunk c n) as [[p ft|ft]|]; [|by intros [= <- <-]|done]. unfold mark_run.
  cbn [mbind option_bind set_chunk_tail free_map chunk_map]. destruct (zend_mm_bitset_set_range _ _ _) as [m|]; [|done].
  cbn [mbind option_bind]. unfold lstore. destruct (_ || _); [done|]. cbn. by intros [= <- <-].
Qed.

Lemma free_pages_map c s n c' : zend_mm_free_pages c s n = Some c' -> chunk_map c' = lset (chunk_map c) s 0.
Proof.
  unfold zend_mm_free_pages. destruct (zend_mm_bitset_reset_range _ _ _) as [m|]; [|done].
  cbn [mbind option_bind]. unfold lstore. destruct (_ || _); [done|]. cbn. by intros [= <-].
Qed.

Lemma free_in_chunk_map c o c' n : free_in_chunk c o = Some (Released c' n) ->
  chunk_map c' = lset (chunk_map c) (o / ZEND_MM_PAGE_SIZE) 0.
Proof.
  unfold free_in_chunk. destruct (lload _ _) as [info|]; [|done]. cbn [mbind option_bind].
  destruct (is_set info ZEND_MM_IS_SRUN); [done|]. destruct (negb _); [done|]. destruct (negb _); [done|].
  destruct (zend_mm_free_pages c _ _) as [c1|] eqn:E; [|done]. cbn. intros [= <- _]. by eapply free_pages_map.
Qed.

(** * Page information words *)

Definition lrun_check (n : Z) : bool :=
  is_set (ZEND_MM_LRUN n) ZEND_MM_IS_LRUN && negb (is_set (ZEND_MM_LRUN n) ZEND_MM_IS_SRUN) &&
  (ZEND_MM_LRUN_PAGES (ZEND_MM_LRUN n) =? n).

Lemma lrun_facts n : 0 <= n < 1024 ->
  is_set (ZEND_MM_LRUN n) ZEND_MM_IS_LRUN = true /\ is_set (ZEND_MM_LRUN n) ZEND_MM_IS_SRUN = false /\
  ZEND_MM_LRUN_PAGES (ZEND_MM_LRUN n) = n.
Proof.
  intros Hn. assert (check_range 1024 lrun_check = true) as H by (vm_compute; reflexivity).
  apply (check_range_sound _ _ n) in H; [|done]. unfold lrun_check in H.
  apply andb_true_iff in H as [H ?]. apply andb_true_iff in H as [? ?%negb_true_iff]. split; [done|]. split; [done|lia].
Qed.

Lemma lload_512 (l : list Z) i : length l = 512%nat -> 0 <= i < 512 -> lload l i = Some (lget 0 l i).
Proof.
  intros Hl Hi. unfold lload. destruct (Z.ltb_spec i 0); [lia|]. apply lget_lookup. unfold llen. lia.
Qed.

Lemma align_down x k : word64 x -> 0 <= k < 64 -> Z.land x (not64 (2 ^ k - 1)) = x / 2 ^ k * 2 ^ k.
Proof.
  intros Hx Hk. rewrite <- Z.shiftr_div_pow2, <- Z.shiftl_mul_pow2 by lia. apply Z.bits_inj'. intros j Hj.
  replace (2 ^ k - 1) with (Z.ones k) by (rewrite Z.ones_equiv; lia).
  rewrite Z.land_spec, testbit_not64, Z.shiftl_spec by lia. destruct (decide (j < k)).
  - rewrite (Z.testbit_neg_r _ (j - k)), Z.ones_spec_low, bool_decide_true by lia. apply andb_false_r.
  - rewrite Z.shiftr_spec, Z.ones_spec_high by lia. replace (j - k + k) with j by lia.
    case_bool_decide; [apply andb_true_r|]. by rewrite (word64_high x) by (done || lia).
Qed.

Definition pages_of (size : Z) : Z := (size + 4095) / 4096.

Lemma aligned_size size : 0 <= size <= ZEND_MM_MAX_LARGE_SIZE ->
  ZEND_MM_ALIGNED_SIZE_EX size ZEND_MM_PAGE_SIZE = pages_of size * ZEND_MM_PAGE_SIZE.
Proof.
  intros Hs. unfold ZEND_MM_MAX_LARGE_SIZE, ZEND_MM_PAGE_SIZE, ZEND_MM_FIRST_PAGE in Hs.
  unfold ZEND_MM_ALIGNED_SIZE_EX, ZEND_MM_PAGE_SIZE, pages_of. rewrite (u64_small (size + (4096 - 1))) by lia.
  change (4096 - 1) with (2 ^ 12 - 1). rewrite align_down by (unfold word64; lia).
  change (2 ^ 12) with 4096. by replace (size + (4096 - 1)) with (size + 4095) by lia.
Qed.

(** * Releasing and resizing by address *)

Definition srun_check (x : Z) : bool :=
  let b := x / 1024 in let k := x mod 1024 in
  is_set (ZEND_MM_SRUN_EX b k) ZEND_MM_IS_SRUN && (ZEND_MM_SRUN_BIN_NUM (ZEND_MM_SRUN_EX b k) =? b).

Lemma srun_facts b k : is_bin b -> 0 <= k < 1024 ->
  is_set (ZEND_MM_SRUN_EX b k) ZEND_MM_IS_SRUN = true /\ ZEND_MM_SRUN_BIN_NUM (ZEND_MM_SRUN_EX b k) = b.
Proof.
  unfold is_bin, ZEND_MM_BINS. intros Hb Hk.
  assert (check_range (Z.to_nat (30 * 1024)) srun_check = true) as H by (vm_compute; reflexivity).
  apply (check_range_sound _ _ (b * 1024 + k)) in H; [|lia]. unfold srun_check in H.
  assert ((b * 1024 + k) / 1024 = b) as E1 by zlia. assert ((b * 1024 + k) mod 1024 = k) as E2 by zlia.
  rewrite E1, E2 in H. apply andb_true_iff in H as [H ?]. split; [done|lia].
Qed.

Definition nrun_check (x : Z) : bool :=
  let b := x / 8 in let i := x mod 8 in
  is_set (ZEND_MM_NRUN b i) ZEND_MM_IS_SRUN && is_set (ZEND_MM_NRUN b i) ZEND_MM_IS_LRUN &&
  (ZEND_MM_SRUN_BIN_NUM (ZEND_MM_NRUN b i) =? b) && (ZEND_MM_NRUN_OFFSET (ZEND_MM_NRUN b i) =? i).

Lemma nrun_facts b i : is_bin b -> 0 <= i < 8 ->
  is_set (ZEND_MM_NRUN b i) ZEND_MM_IS_SRUN = true /\ is_set (ZEND_MM_NRUN b i) ZEND_MM_IS_LRUN = true /\
  ZEND_MM_SRUN_BIN_NUM (ZEND_MM_NRUN b i) = b /\ ZEND_MM_NRUN_OFFSET (ZEND_MM_NRUN b i) = i.
Proof.
  unfold is_bin, ZEND_MM_BINS. intros Hb Hi.
  assert (check_range (Z.to_nat (30 * 8)) nrun_check = true) as H by (vm_compute; reflexivity).
  apply (check_range_sound _ _ (b * 8 + i)) in H; [|lia]. unfold nrun_check in H.
  assert ((b * 8 + i) / 8 = b) as E1 by zlia. assert ((b * 8 + i) mod 8 = i) as E2 by zlia.
  rewrite E1, E2 in H. repeat (apply andb_true_iff in H as [H ?]). repeat split; done || lia.
Qed.

(** The information of every page of a small run names its bin. *)
Lemma small_page_info c runs s b p : chunk_ok c runs -> runs !! s = Some (Small b) -> in_run s (Small b) p ->
  is_set (lget 0 (chunk_map c) p) ZEND_MM_IS_SRUN = true /\ ZEND_MM_SRUN_BIN_NUM (lget 0 (chunk_map c) p) = b.
Proof.
  intros Hc Hr Hp. destruct (ok_run_info c runs Hc s _ Hr) as (Hb & (k & Hk & Hh) & Hi). unfold in_run in Hp. cbn in Hp.
  destruct (decide (p = s)) as [->|Hne]; [rewrite Hh; by apply srun_facts|].
  replace p with (s + (p - s)) by lia. rewrite Hi by lia. destruct (bin_facts b Hb) as (_ & _ & _ & Hpg & _).
  destruct (nrun_facts b (p - s) Hb ltac:(lia)) as (? & _ & ? & _). done.
Qed.

Lemma offset_in_page s o : 0 <= s -> 0 <= o < ZEND_MM_PAGE_SIZE ->
  (s * ZEND_MM_PAGE_SIZE + o) / ZEND_MM_PAGE_SIZE = s /\ (s * ZEND_MM_PAGE_SIZE + o) mod ZEND_MM_PAGE_SIZE = o.
Proof. unfold ZEND_MM_PAGE_SIZE. intros. zlia. Qed.

(** Releasing the address of a live large run; a second release is detected. *)
Lemma free_large_ok c runs s n : chunk_ok c runs -> runs !! s = Some (Large n) ->
  exists c', free_in_chunk c (s * ZEND_MM_PAGE_SIZE) = Some (Released c' n) /\ chunk_ok c' (delete s runs) /\
    free_in_chunk c' (s * ZEND_MM_PAGE_SIZE) = Some Corrupted.
Proof.
  intros Hc Hr. destruct (run_bounds c runs Hc s _ Hr) as (Hs & Hn & He). cbn in Hn, He.
  pose proof (ok_run_info c runs Hc s _ Hr) as Hi. cbn in Hi. destruct (lrun_facts n ltac:(lia)) as (Hl & Hsr & Hpg).
  pose proof (lload_512 (chunk_map c) s (ok_info c runs Hc) ltac:(lia)) as Hload.
  destruct (offset_in_page s 0 ltac:(lia) ltac:(done)) as [E1 E2]. rewrite Z.add_0_r in E1, E2.
  destruct (free_pages_ok c runs s _ Hc Hr) as (c' & Hf & Hc' & Hz & _). cbn in Hf. exists c'. split; [|split; [done|]].
  - unfold free_in_chunk. rewrite E1, Hload, Hi. cbn [mbind option_bind]. rewrite Hsr, Hl, E2, Hpg, Hf. done.
  - unfold free_in_chunk. rewrite E1, (lload_512 (chunk_map c')) by (apply (ok_info c' _ Hc') || lia). rewrite Hz. done.
Qed.

(** Every address inside of a small run is handed to its bin. *)
Lemma free_small_address c runs s b o : chunk_ok c runs -> runs !! s = Some (Small b) ->
  0 <= o < bin_pages b * ZEND_MM_PAGE_SIZE -> free_in_chunk c (s * ZEND_MM_PAGE_SIZE + o) = Some (SmallSlot b).
Proof.
  intros Hc Hr Ho. destruct (run_bounds c runs Hc s _ Hr) as (Hs & Hn & He). cbn in Hn, He.
  set (p := s + o / ZEND_MM_PAGE_SIZE).
  assert ((s * ZEND_MM_PAGE_SIZE + o) / ZEND_MM_PAGE_SIZE = p) as E by (unfold p, ZEND_MM_PAGE_SIZE; zlia).
  assert (in_run s (Small b) p) as Hp by (unfold in_run, p, ZEND_MM_PAGE_SIZE in *; cbn; zlia).
  destruct (small_page_info c runs s b p Hc Hr Hp) as [H1 H2]. unfold free_in_chunk.
  rewrite E, (lload_512 (chunk_map c)) by (apply (ok_info c _ Hc) || (unfold in_run in Hp; cbn in Hp; lia)).
  cbn [mbind option_bind]. rewrite H1, H2. done.
Qed.

(** releasing the address of a live large run releases exactly its pages,
    and releasing it again is detected; an address inside of its first page is
    refused; and every address inside of a small run is handed to its bin. *)
Theorem free_in_chunk_correct c runs s r : chunk_ok c runs -> runs !! s = Some r ->
  match r with
  | Large n =>
      (exists c', free_in_chunk c (s * ZEND_MM_PAGE_SIZE) = Some (Released c' n) /\ chunk_ok c' (delete s runs) /\
         free_in_chunk c' (s * ZEND_MM_PAGE_SIZE) = Some Corrupted) /\
      forall o, 0 < o < ZEND_MM_PAGE_SIZE -> free_in_chunk c (s * ZEND_MM_PAGE_SIZE + o) = Some Corrupted
  | Small b =>
      forall o, 0 <= o < bin_pages b * ZEND_MM_PAGE_SIZE -> free_in_chunk c (s * ZEND_MM_PAGE_SIZE + o) = Some (SmallSlot b)
  end.
Proof.
  intros Hc Hr. destruct (run_bounds c runs Hc s r Hr) as (Hs & Hn & He). destruct r as [n|b]; cbn in Hn, He.
  - split; [by eapply free_large_ok|]. intros o Ho.
    pose proof (ok_run_info c runs Hc s _ Hr) as Hi. cbn in Hi. destruct (lrun_facts n ltac:(lia)) as (Hl & Hsr & Hpg).
    destruct (offset_in_page s o ltac:(lia) ltac:(lia)) as [E1 E2]. unfold free_in_chunk.
    rewrite E1, (lload_512 (chunk_map c)) by (apply (ok_info c _ Hc) || lia). cbn [mbind option_bind].
    rewrite Hi, Hsr, Hl, E2. cbn. by destruct (Z.eqb_spec o 0); [lia|].
  - intros o Ho. by eapply free_small_address.
Qed.

(** When a large run of [n] pages at [s] can be resized to [size] bytes in place. *)
Definition resizable (runs : gmap Z run) (s n size : Z) : Prop :=
  ZEND_MM_MAX_SMALL_SIZE < size <= ZEND_MM_MAX_LARGE_SIZE /\ s + pages_of size <= 512 /\
  forall p, s + n <= p < s + pages_of size -> ~ owned runs p.

(** Resizing a live large run by address.  The run is resized in place
    exactly when the new size is large and it shrinks, stays, or grows over
    free pages of the chunk; then it has exactly the pages for the new size and
    the chunk stays well-formed.  In every other case the run must be moved. *)
Lemma realloc_large_ok c runs s n size : chunk_ok c runs -> runs !! s = Some (Large n) ->
  (exists c', realloc_large c (s * ZEND_MM_PAGE_SIZE) size = Some (InPlace c') /\
     resizable runs s n size /\ chunk_ok c' (<[s := Large (pages_of size)]> runs)) \/
  (realloc_large c (s * ZEND_MM_PAGE_SIZE) size = Some MustMove /\ ~ resizable runs s n size).
Proof.
  intros Hc Hr. destruct (run_bounds c runs Hc s _ Hr) as (Hs & Hn & He). cbn in Hn, He.
  pose proof (ok_run_info c runs Hc s _ Hr) as Hi. cbn in Hi. destruct (lrun_facts n ltac:(lia)) as (Hl & Hsr & Hpg).
  pose proof (lload_512 (chunk_map c) s (ok_info c runs Hc) ltac:(lia)) as Hload.
  destruct (offset_in_page s 0 ltac:(lia) ltac:(done)) as [E1 E2]. rewrite Z.add_0_r in E1, E2.
  unfold realloc_large. rewrite E1, Hload, Hi. cbn [mbind option_bind]. rewrite Hl, E2, Hpg. cbn [negb Z.eqb].
  destruct (Z.ltb_spec ZEND_MM_MAX_SMALL_SIZE size) as [Hlo|Hlo]; cbn [andb];
    [|right; split; [done|]; intros (? & _); lia].
  destruct (Z.leb_spec size ZEND_MM_MAX_LARGE_SIZE) as [Hhi|Hhi]; [|right; split; [done|]; intros (? & _); lia].
  unfold ZEND_MM_MAX_SMALL_SIZE in Hlo. rewrite aligned_size by lia.
  assert (1 <= pages_of size) as Hk by (unfold pages_of; zlia).
  assert (forall a, a * ZEND_MM_PAGE_SIZE / ZEND_MM_PAGE_SIZE = a) as Ediv by (intros; by apply Z.div_mul).
  rewrite <- Z.mul_sub_distr_r, !Ediv. set (k := pages_of size) in *.
  assert (s + k <= 512 -> (forall p, s + n <= p < s + k -> ~ owned runs p) -> resizable runs s n size) as Hres.
  { intros H1 H2. split; [unfold ZEND_MM_MAX_SMALL_SIZE; lia|]. by split. }
  destruct (Z.eqb_spec (k * ZEND_MM_PAGE_SIZE) (n * ZEND_MM_PAGE_SIZE)) as [E|E].
  { assert (k = n) as Ek by (unfold ZEND_MM_PAGE_SIZE in E; lia). left. exists c. split; [done|].
    split; [apply Hres; lia|]. rewrite Ek, insert_id by done. done. }
  destruct (Z.ltb_spec (k * ZEND_MM_PAGE_SIZE) (n * ZEND_MM_PAGE_SIZE)) as [Hlt|Hge].
  - assert (k < n) by (unfold ZEND_MM_PAGE_SIZE in Hlt; lia).
    destruct (truncate_run_ok c runs s n k Hc Hr ltac:(lia)) as (c' & -> & Hc'). left. exists c'. split; [done|].
    split; [apply Hres; lia|done].
  - assert (n < k) by (unfold ZEND_MM_PAGE_SIZE in *; lia).
    destruct (extend_run_ok c runs s n k Hc Hr ltac:(lia)) as (o & -> & Ho). cbn [mbind option_bind].
    destruct o as [c'|].
    + destruct Ho as [Hfree Hc']. left. exists c'. split; [done|]. split; [|done].
      destruct (run_bounds c' _ Hc' s _ ltac:(apply lookup_insert_eq)) as (_ & _ & Hb). cbn in Hb. by apply Hres.
    + right. split; [done|]. intros (_ & H1 & H2). destruct (Ho H1) as (p & Hp & Hown). by apply (H2 p).
Qed.

(** * Histories *)

(** What a client can do with the pages of a chunk: ask for pages, release or
    resize what it was given.  The finite map is the client's view. *)
Inductive page_step : zend_mm_chunk * gmap Z run -> zend_mm_chunk * gmap Z run -> Prop :=
| step_alloc c runs n s c' : 1 <= n -> alloc_in_chunk c n = Some (Some s, c') ->
    page_step (c, runs) (c', <[s := Large n]> runs)
| step_refused c runs n c' : 1 <= n -> alloc_in_chunk c n = Some (None, c') -> page_step (c, runs) (c', runs)
| step_free c runs s n c' : runs !! s = Some (Large n) ->
    free_in_chunk c (s * ZEND_MM_PAGE_SIZE) = Some (Released c' n) -> page_step (c, runs) (c', delete s runs)
| step_resize c runs s n size c' : runs !! s = Some (Large n) ->
    realloc_large c (s * ZEND_MM_PAGE_SIZE) size = Some (InPlace c') ->
    page_step (c, runs) (c', <[s := Large (pages_of size)]> runs).

Lemma page_step_ok a b : page_step a b -> chunk_ok a.1 a.2 -> chunk_ok b.1 b.2.
Proof.
  intros H Hc. destruct H as [c runs n s c' Hn H|c runs n c' Hn H|c runs s n c' Hr H|c runs s n size c' Hr H]; cbn in *.
  - destruct (alloc_in_chunk_ok c runs n Hc Hn) as (r & c1 & E & Hr). rewrite E in H. injection H as -> ->. apply Hr.
  - destruct (alloc_in_chunk_ok c runs n Hc Hn) as (r & c1 & E & Hr). rewrite E in H. injection H as -> ->. apply Hr.
  - destruct (free_large_ok c runs s n Hc Hr) as (c1 & E & Hc1 & _). rewrite E in H. by injection H as <-.
  - destruct (realloc_large_ok c runs s n size Hc Hr) as [(c1 & E & _ & Hc1)|(E & _)]; rewrite E in H; by simplify_eq.
Qed.

(** A new chunk on zeroed memory. *)
Definition fresh_chunk : zend_mm_chunk := zend_mm_chunk_init zeroed_chunk.

Lemma fresh_chunk_ok : chunk_ok fresh_chunk ∅.
Proof.
  apply chunk_init_ok; [split; [done|by repeat constructor]|done|]. intros p Hp.
  unfold page_set, zeroed_chunk. cbn [free_map]. rewrite lget_replicate by zlia. apply Z.bits_0.
Qed.

Lemma reachable_ok c runs : rtc page_step (fresh_chunk, ∅) (c, runs) -> chunk_ok c runs.
Proof.
  intros H. apply (rtc_ind_r (fun st => chunk_ok st.1 st.2) (fresh_chunk, ∅) fresh_chunk_ok) in H; [done|].
  intros a b _ Hab Ha. by eapply page_step_ok.
Qed.

(** C10: safety of the pages of a chunk, for every history of requests,
    releases and resizings of live runs.  Live runs lie behind the header and
    inside the chunk and never share a page; the counter is exact; every
    request is answered, with the best fit when there is one; and every release
    of a live run succeeds. *)
Theorem chunk_pages_safe c runs : rtc page_step (fresh_chunk, ∅) (c, runs) ->
  (forall s r, runs !! s = Some r -> 1 <= s /\ s + run_pages r <= 512) /\
  (forall s1 r1 s2 r2 p, runs !! s1 = Some r1 -> runs !! s2 = Some r2 -> in_run s1 r1 p -> in_run s2 r2 p -> s1 = s2) /\
  (forall p, 1 <= p < 512 -> page_set (free_map c) p = true <-> owned runs p) /\
  free_pages c = clear_pages (free_map c) /\
  (forall n, 1 <= n -> exists r c', alloc_in_chunk c n = Some (r, c') /\
     match r with
     | Some s => (exists k, best_run (free_map c) n s k) /\ forall p, s <= p < s + n -> ~ owned runs p
     | None => forall s k, free_run (free_map c) s k -> k < n
     end) /\
  (forall s n, runs !! s = Some (Large n) -> exists c', free_in_chunk c (s * ZEND_MM_PAGE_SIZE) = Some (Released c' n)).
Proof.
  intros Hc%reachable_ok. split.
  { intros s r Hr. destruct (run_bounds c runs Hc s r Hr) as (? & ? & ?). done. }
  split; [apply (run_unique c runs Hc)|]. split; [apply (ok_pages c runs Hc)|]. split; [apply (ok_free c runs Hc)|]. split.
  - intros n Hn. destruct (alloc_in_chunk_ok c runs n Hc Hn) as (r & c' & E & Hr). exists r, c'. split; [done|].
    destruct r as [s|]; [|apply Hr]. destruct Hr as ((k & Hk) & _ & _). split; [by exists k|]. intros p Hp Ho.
    destruct Hk as ((_ & Hs & He & _ & Hf & _) & Hnk & _).
    apply (ok_pages c runs Hc) in Ho; [|lia]. rewrite Hf in Ho by lia. done.
  - intros s n Hr. destruct (free_large_ok c runs s n Hc Hr) as (c' & E & _). by exists c'.
Qed.
