(* ===== verification/MmSlots.v ===== *)
(** Small allocations of the memory manager (src/Zend/zend_alloc.c): free slots
    of equal size are linked through their first words, and each link is
    mirrored by an encoded shadow in the last word of the slot.  The pages come
    from a page source, an interface that [MmHeap] implements. *)

From stdpp Require Import base numbers list gmap.
From S2P Require Import Prelude.
From S2P Require Import MmBitset.
From S2P Require Import MmBins.
From S2P Require Import MmChunk.
From S2P Require Import MmRuns.

(** * Encoded links *)

(** The portable [ZEND_BYTES_SWAP64]. *)
Definition ZEND_BYTES_SWAP64 (u : Z) : Z :=
  Z.lor (Z.lor (Z.lor (Z.lor (Z.lor (Z.lor (Z.lor
    (Z.shiftr (Z.land u 0xff00000000000000) 56)
    (Z.shiftr (Z.land u 0x00ff000000000000) 40))
    (Z.shiftr (Z.land u 0x0000ff0000000000) 24))
    (Z.shiftr (Z.land u 0x000000ff00000000) 8))
    (u64 (Z.shiftl (Z.land u 0x00000000ff000000) 8)))
    (u64 (Z.shiftl (Z.land u 0x0000000000ff0000) 24)))
    (u64 (Z.shiftl (Z.land u 0x000000000000ff00) 40)))
    (u64 (Z.shiftl (Z.land u 0x00000000000000ff) 56)).

Definition zend_mm_encode_free_slot (key holder next : Z) : Z :=
  Z.lxor (Z.lxor (ZEND_BYTES_SWAP64 next) key) holder.
Definition zend_mm_decode_free_slot_key (key holder shadow : Z) : Z :=
  ZEND_BYTES_SWAP64 (Z.lxor (Z.lxor shadow key) holder).

Definition byte_mask (k : Z) : Z := Z.shiftl 255 (8 * k).

Lemma testbit_byte u k j : 0 <= k -> 0 <= j ->
  Z.testbit (Z.land u (byte_mask k)) j = bool_decide (8 * k <= j < 8 * k + 8) && Z.testbit u j.
Proof.
  intros Hk Hj. unfold byte_mask. rewrite Z.land_spec, Z.shiftl_spec by lia. change 255 with (Z.ones 8).
  rewrite andb_comm. f_equal. destruct (decide (j < 8 * k)).
  - by rewrite Z.testbit_neg_r, bool_decide_false by lia.
  - rewrite Z.testbit_ones by lia. case_bool_decide; zbool; done || lia.
Qed.

Definition swap_index (j : Z) : Z := 8 * (7 - j / 8) + j mod 8.

Lemma testbit_swap u j : 0 <= j ->
  Z.testbit (ZEND_BYTES_SWAP64 u) j = bool_decide (j < 64) && Z.testbit u (swap_index j).
Proof.
  intros Hj. unfold ZEND_BYTES_SWAP64.
  change 0xff00000000000000 with (byte_mask 7). change 0x00ff000000000000 with (byte_mask 6).
  change 0x0000ff0000000000 with (byte_mask 5). change 0x000000ff00000000 with (byte_mask 4).
  change 0x00000000ff000000 with (byte_mask 3). change 0x0000000000ff0000 with (byte_mask 2).
  change 0x000000000000ff00 with (byte_mask 1). change 0x00000000000000ff with (byte_mask 0).
  rewrite !Z.lor_spec, !testbit_u64, !Z.shiftr_spec, !Z.shiftl_spec by done.
  assert (forall k s, 0 <= k -> Z.testbit (Z.land u (byte_mask k)) (j - s) =
    bool_decide (8 * k <= j - s < 8 * k + 8) && Z.testbit u (j - s)) as Hneg.
  { intros k s Hk. destruct (decide (0 <= j - s)); [by apply testbit_byte|].
    by rewrite Z.testbit_neg_r, bool_decide_false by lia. }
  rewrite !Hneg, !testbit_byte by lia. unfold swap_index.
  destruct (decide (j < 64)) as [Hlt|Hge].
  - rewrite (bool_decide_true (j < 64)) by lia. cbn [andb].
    assert (exists q r, 0 <= q < 8 /\ 0 <= r < 8 /\ j = 8 * q + r) as (q & r & Hq & Hr & ->) by (exists (j / 8), (j mod 8); zlia).
    assert ((8 * q + r) / 8 = q) as -> by zlia. assert ((8 * q + r) mod 8 = r) as -> by zlia.
    repeat match goal with
    | |- context [bool_decide (?a <= ?b < ?c)] =>
        destruct (decide (a <= b < c));
        [rewrite (bool_decide_true (a <= b < c)) by done|rewrite (bool_decide_false (a <= b < c)) by done]
    end; cbn [andb orb]; rewrite ?orb_false_r; try (f_equal; lia); try lia.
  - rewrite (bool_decide_false (j < 64)) by lia. cbn [andb].
    repeat match goal with
    | |- context [bool_decide (?a <= ?b < ?c)] => rewrite (bool_decide_false (a <= b < c)) by lia
    end. done.
Qed.

Lemma word64_swap u : 0 <= u -> word64 (ZEND_BYTES_SWAP64 u).
Proof.
  intros Hu. apply word64_bits.
  - unfold ZEND_BYTES_SWAP64. repeat (apply Z.lor_nonneg; split); try apply u64_range;
      apply Z.shiftr_nonneg, Z.land_nonneg; by left.
  - intros j Hj. rewrite testbit_swap by lia. by rewrite bool_decide_false by lia.
Qed.

Lemma swap_swap u : word64 u -> ZEND_BYTES_SWAP64 (ZEND_BYTES_SWAP64 u) = u.
Proof.
  intros Hu. apply word64_eq; [apply word64_swap, word64_swap, Hu|done|]. intros j Hj. unfold word64 in Hu.
  assert (0 <= swap_index j < 64 /\ swap_index (swap_index j) = j) as [H1 H2] by (unfold swap_index; zlia).
  rewrite testbit_swap, bool_decide_true, testbit_swap, bool_decide_true, H2 by lia. done.
Qed.

Lemma decode_encode key holder next : word64 next ->
  zend_mm_decode_free_slot_key key holder (zend_mm_encode_free_slot key holder next) = next.
Proof.
  intros Hn. unfold zend_mm_decode_free_slot_key, zend_mm_encode_free_slot.
  assert (Z.lxor (Z.lxor (Z.lxor (Z.lxor (ZEND_BYTES_SWAP64 next) key) holder) key) holder = ZEND_BYTES_SWAP64 next) as ->.
  { apply Z.bits_inj'. intros j _. rewrite !Z.lxor_spec.
    destruct (Z.testbit (ZEND_BYTES_SWAP64 next) j), (Z.testbit key j), (Z.testbit holder j); done. }
  by apply swap_swap.
Qed.

(** * The page source *)

(** The page information written for a new small run. *)
Class page_source (St : Type) := { mark_small_pages : Z -> Z -> St -> option St }.

(** The runs that the state of the pages represents, by the address of their first page. *)
Class page_spec (St : Type) := { page_runs : St -> gmap Z run -> Prop }.

Definition run_bytes (r : run) : Z := run_pages r * ZEND_MM_PAGE_SIZE.

(** What the operations on pages and slots leave as it is: the head of the list
    of huge blocks, the regions mapped for them, and the bytes that [real_size]
    counts for them. *)
Class heap_frame := { fr_list : Z; fr_maps : list (Z * Z); fr_real : Z }.

Class page_source_ok (St : Type) `{page_source St, page_spec St, heap_frame} := {
  page_runs_addr st runs a r : page_runs st runs -> runs !! a = Some r ->
    0 < a /\ a mod 8 = 0 /\ 0 < run_bytes r /\ a + run_bytes r <= 2 ^ 64;
  page_runs_disjoint st runs a1 r1 a2 r2 : page_runs st runs -> runs !! a1 = Some r1 -> runs !! a2 = Some r2 ->
    a1 <> a2 -> a1 + run_bytes r1 <= a2 \/ a2 + run_bytes r2 <= a1;
  page_runs_apart st runs a r b k : page_runs st runs -> runs !! a = Some r -> (b, k) ∈ fr_maps ->
    a + run_bytes r <= b \/ b + k <= a;
  mark_small_pages_ok st runs a b : page_runs st runs -> is_bin b -> runs !! a = Some (Large (bin_pages b)) ->
    exists st', mark_small_pages a b st = Some st' /\ page_runs st' (<[a := Small b]> runs)
}.

(** * State and operations *)

Record zend_mm_heap := mk_heap {
  heap_size : Z; heap_peak : Z; shadow_key : Z;
  free_slot : list Z;
  huge_list : Z                        (* the address of the first node *)
}.

(** Memory is a function from the addresses of 64-bit words to their values;
    all addresses used are multiples of 8. *)
Record mm (St : Type) := mk_mm { hp : zend_mm_heap; mem : Z -> Z; pages : St }.
Arguments mk_mm {St}. Arguments hp {St}. Arguments mem {St}. Arguments pages {St}.

(** [Panic] is [zend_mm_panic]; the null pointer is 0; [NoMemory]: a fatal error, there are no pages. *)
Inductive outcome (A : Type) := Ret (x : A) | Panic | NoMemory.
Arguments Ret {A}. Arguments Panic {A}. Arguments NoMemory {A}.

(** [zend_mm_alloc_pages], which may collect the free slots of all bins. *)
Class page_alloc (St : Type) := {
  zend_mm_alloc_pages : Z -> mm St -> option (outcome Z * mm St)
}.

Definition shadow_addr (slot bin_num : Z) : Z := slot + bin_data_size bin_num - 8.

Definition set_free_slot (h : zend_mm_heap) (bin_num p : Z) : zend_mm_heap :=
  mk_heap (heap_size h) (heap_peak h) (shadow_key h) (lset (free_slot h) bin_num p) (huge_list h).

Definition zend_mm_set_next_free_slot (h : zend_mm_heap) (bin_num slot next : Z) (m : Z -> Z) : Z -> Z :=
  let m := fset m slot next in
  fset m (shadow_addr slot bin_num) (zend_mm_encode_free_slot (shadow_key h) (shadow_addr slot bin_num) next).

(** [None]: the link and its shadow differ. *)
Definition zend_mm_get_next_free_slot (h : zend_mm_heap) (bin_num slot : Z) (m : Z -> Z) : option Z :=
  let next := m slot in
  if negb (next =? 0) then
    if negb (next =? zend_mm_decode_free_slot_key (shadow_key h) (shadow_addr slot bin_num) (m (shadow_addr slot bin_num)))
    then None else Some next
  else Some next.

(** [do { set_next(p, p + size); p += size; } while (p != end);] *)
Fixpoint link_slots (n : nat) (h : zend_mm_heap) (bin_num p end_ : Z) (m : Z -> Z) : option (Z * (Z -> Z)) :=
  match n with
  | O => None
  | S n =>
      let m := zend_mm_set_next_free_slot h bin_num p (p + bin_data_size bin_num) m in
      let p := p + bin_data_size bin_num in
      if negb (p =? end_) then link_slots n h bin_num p end_ m else Some (p, m)
  end.

Section Operations.
Context {St : Type} {ps : page_source St} {pa : page_alloc St}.

(** The new run at [bin]: its page information, the list of its slots but the first, the end of the list. *)
Definition init_small_run (bin bin_num : Z) (s : mm St) : option (mm St) :=
  st ← mark_small_pages bin bin_num (pages s);
  let end_ := bin + bin_data_size bin_num * (bin_elements bin_num - 1) in
  let p := bin + bin_data_size bin_num in
  let h := set_free_slot (hp s) bin_num p in
  l ← link_slots 1024 h bin_num p end_ (mem s);
  let '(p, m) := l in
  Some (mk_mm h (fset m p 0) st).

Definition zend_mm_alloc_small_slow (bin_num : Z) (s : mm St) : option (outcome Z * mm St) :=
  r ← zend_mm_alloc_pages (bin_pages bin_num) s;
  match r with
  | (Ret bin, s) => s ← init_small_run bin bin_num s; Some (Ret bin, s)
  | r => Some r
  end.

Definition zend_mm_alloc_small (bin_num : Z) (s : mm St) : option (outcome Z * mm St) :=
  let h := hp s in
  let size := u64 (heap_size h + bin_data_size bin_num) in
  let peak := Z.max (heap_peak h) size in
  let h := mk_heap size peak (shadow_key h) (free_slot h) (huge_list h) in
  p ← lload (free_slot h) bin_num;
  if negb (p =? 0) then
    match zend_mm_get_next_free_slot h bin_num p (mem s) with
    | None => Some (Panic, mk_mm h (mem s) (pages s))
    | Some next => Some (Ret p, mk_mm (set_free_slot h bin_num next) (mem s) (pages s))
    end
  else zend_mm_alloc_small_slow bin_num (mk_mm h (mem s) (pages s)).

Definition zend_mm_free_small (ptr bin_num : Z) (s : mm St) : option (outcome unit * mm St) :=
  let h := hp s in
  let h := mk_heap (u64 (heap_size h - bin_data_size bin_num)) (heap_peak h) (shadow_key h) (free_slot h) (huge_list h) in
  head ← lload (free_slot h) bin_num;
  if ptr =? head then Some (Panic, mk_mm h (mem s) (pages s))
  else
    let m := zend_mm_set_next_free_slot h bin_num ptr head (mem s) in
    Some (Ret (), mk_mm (set_free_slot h bin_num ptr) m (pages s)).

End Operations.

(** * Slots *)

Section Slots.
Context {fr : heap_frame}.
Context {St : Type} {ps : page_source St} {pspec : page_spec St} {ok : page_source_ok St}.

(** A slot of bin [b] at address [a]. *)
Definition slot_at (runs : gmap Z run) (b a : Z) : Prop :=
  exists base i, runs !! base = Some (Small b) /\ is_bin b /\ 1 <= b /\
    0 <= i < bin_elements b /\ a = base + i * bin_data_size b.

Lemma slot_size b : is_bin b -> 1 <= b -> 16 <= bin_data_size b /\ bin_data_size b mod 8 = 0 /\ 3 <= bin_elements b < 1024.
Proof.
  intros Hb H1. destruct (bin_facts b Hb) as (_ & H8 & _). pose proof (bin_size_usable b Hb H1) as Hu.
  split; [done|]. split; [done|].
  assert (check_range 30 (fun b => (3 <=? bin_elements b) && (bin_elements b <? 1024)) = true) as H by (vm_compute; reflexivity).
  apply (check_range_sound _ _ b) in H; [|done]. cbn beta in H. lia.
Qed.

(** A slot lies inside of its run. *)
Lemma slot_in_run (runs : gmap Z run) b base i : runs !! base = Some (Small b) -> is_bin b -> 1 <= b -> 0 <= i < bin_elements b ->
  base <= base + i * bin_data_size b /\ base + i * bin_data_size b + bin_data_size b <= base + run_bytes (Small b).
Proof.
  intros Hr Hb H1 Hi. destruct (slot_size b Hb H1) as (Hs & _ & _). destruct (bin_facts b Hb) as (_ & _ & _ & _ & Hfit & _).
  unfold run_bytes. cbn. assert (i * bin_data_size b + bin_data_size b <= bin_data_size b * bin_elements b) by nia. lia.
Qed.

Lemma slot_facts st runs b a : page_runs st runs -> slot_at runs b a ->
  is_bin b /\ 1 <= b /\ 0 < a /\ a mod 8 = 0 /\ a + bin_data_size b <= 2 ^ 64 /\
  16 <= bin_data_size b /\ bin_data_size b mod 8 = 0.
Proof.
  intros Hp (base & i & Hr & Hb & H1 & Hi & ->). destruct (slot_size b Hb H1) as (Hs & Hs8 & _).
  destruct (page_runs_addr st runs base _ Hp Hr) as (Ha & Ha8 & _ & Hend).
  destruct (slot_in_run runs b base i Hr Hb H1 Hi).
  split; [done|]. split; [done|]. split; [lia|]. split; [|split; [lia|done]].
  apply Z.mod_divide in Ha8, Hs8; try done. apply Z.mod_divide; [done|]. apply Z.divide_add_r; [done|].
  by apply Z.divide_mul_r.
Qed.

(** Different slots do not overlap. *)
Lemma slots_disjoint st runs b1 a1 b2 a2 : page_runs st runs -> slot_at runs b1 a1 -> slot_at runs b2 a2 ->
  (a1 = a2 /\ b1 = b2) \/ a1 + bin_data_size b1 <= a2 \/ a2 + bin_data_size b2 <= a1.
Proof.
  intros Hp (base1 & i1 & Hr1 & Hb1 & H1 & Hi1 & ->) (base2 & i2 & Hr2 & Hb2 & H2 & Hi2 & ->).
  destruct (slot_in_run runs b1 base1 i1 Hr1 Hb1 H1 Hi1). destruct (slot_in_run runs b2 base2 i2 Hr2 Hb2 H2 Hi2).
  destruct (decide (base1 = base2)) as [->|Hne].
  - rewrite Hr1 in Hr2. injection Hr2 as <-. destruct (slot_size b1 Hb1 H1) as (Hs & _ & _).
    destruct (Z.lt_trichotomy i1 i2) as [Hlt|[->|Hlt]]; [right; left; nia|by left|right; right; nia].
  - destruct (page_runs_disjoint st runs base1 _ base2 _ Hp Hr1 Hr2 Hne); lia.
Qed.

(** A slot does not meet the region of a huge block. *)
Lemma slot_apart st runs b a c k : page_runs st runs -> slot_at runs b a -> (c, k) ∈ fr_maps ->
  a + bin_data_size b <= c \/ c + k <= a.
Proof.
  intros Hp (base & i & Hr & Hb & H1 & Hi & ->) Hc. destruct (slot_in_run runs b base i Hr Hb H1 Hi).
  destruct (page_runs_apart st runs base _ c k Hp Hr Hc); lia.
Qed.

(** * Free lists *)

Fixpoint chain (key b : Z) (m : Z -> Z) (head : Z) (l : list Z) : Prop :=
  match l with
  | [] => head = 0
  | a :: l => head = a /\ (m a <> 0 -> m (shadow_addr a b) = zend_mm_encode_free_slot key (shadow_addr a b) (m a)) /\
              chain key b m (m a) l
  end.

Lemma chain_frame key b m m' l : forall head, (forall a, a ∈ l -> m' a = m a /\ m' (shadow_addr a b) = m (shadow_addr a b)) ->
  chain key b m head l -> chain key b m' head l.
Proof.
  induction l as [|a l IH]; intros head Hf Hch; [done|]. destruct Hch as (-> & Hs & Hch). cbn.
  destruct (Hf a ltac:(by left)) as [E1 E2]. rewrite E1, E2. split; [done|]. split; [done|].
  apply IH; [|done]. intros a' Ha'. apply Hf. by right.
Qed.

Lemma fset_eq {A} (f : Z -> A) i x : fset f i x i = x.
Proof. unfold fset. by rewrite Z.eqb_refl. Qed.
Lemma fset_ne {A} (f : Z -> A) i j x : j <> i -> fset f i x j = f j.
Proof. unfold fset. intros. by destruct (Z.eqb_spec j i). Qed.

Lemma set_next_slot h b slot next m : 16 <= bin_data_size b ->
  zend_mm_set_next_free_slot h b slot next m slot = next /\
  zend_mm_set_next_free_slot h b slot next m (shadow_addr slot b) =
    zend_mm_encode_free_slot (shadow_key h) (shadow_addr slot b) next /\
  forall x, x <> slot -> x <> shadow_addr slot b -> zend_mm_set_next_free_slot h b slot next m x = m x.
Proof.
  intros Hs. unfold zend_mm_set_next_free_slot. split; [|split].
  - rewrite fset_ne, fset_eq by (unfold shadow_addr; lia). done.
  - by rewrite fset_eq.
  - intros x H1 H2. by rewrite !fset_ne.
Qed.

(** The loop that links the slots of a new run. *)
Lemma link_slots_spec n h b : forall p k m, 16 <= bin_data_size b -> 1 <= k <= Z.of_nat n ->
  exists m', link_slots n h b p (p + k * bin_data_size b) m = Some (p + k * bin_data_size b, m') /\
    (forall j, 0 <= j < k ->
       m' (p + j * bin_data_size b) = p + (j + 1) * bin_data_size b /\
       m' (shadow_addr (p + j * bin_data_size b) b) =
         zend_mm_encode_free_slot (shadow_key h) (shadow_addr (p + j * bin_data_size b) b) (p + (j + 1) * bin_data_size b)) /\
    forall x, x < p \/ p + k * bin_data_size b <= x -> m' x = m x.
Proof.
  induction n as [|n IH]; intros p k m Hs Hk; [lia|]. cbn [link_slots].
  set (size := bin_data_size b) in *.
  destruct (set_next_slot h b p (p + size) m Hs) as (E1 & E2 & E3).
  set (m1 := zend_mm_set_next_free_slot h b p (p + size) m) in *. clearbody m1.
  destruct (Z.eqb_spec (p + size) (p + k * size)) as [E|E]; cbn [negb].
  - assert (k = 1) as -> by nia. exists m1. split; [do 2 f_equal; lia|]. split.
    + intros j Hj. replace j with 0 by lia. replace (p + 0 * size) with p by lia. replace (p + (0 + 1) * size) with (p + size) by lia.
      done.
    + intros x Hx. apply E3; unfold shadow_addr; fold size; lia.
  - assert (1 < k) by nia. destruct (IH (p + size) (k - 1) m1 Hs ltac:(lia)) as (m' & Hl & Hin & Hout).
    replace (p + size + (k - 1) * size) with (p + k * size) in Hl, Hout by lia. exists m'. split; [exact Hl|]. split.
    + intros j Hj. destruct (decide (j = 0)) as [->|Hj0].
      * replace (p + 0 * size) with p by lia. replace (p + (0 + 1) * size) with (p + size) by lia.
        rewrite !Hout by (unfold shadow_addr; fold size; lia). by split.
      * specialize (Hin (j - 1) ltac:(lia)). replace (p + size + (j - 1) * size) with (p + j * size) in Hin by lia.
        replace (p + size + (j - 1 + 1) * size) with (p + (j + 1) * size) in Hin by lia. done.
    + intros x Hx. rewrite Hout by nia. apply E3; unfold shadow_addr; fold size; nia.
Qed.

(** The head of a well-formed free list passes the check of its link. *)
Lemma get_next_ok h b a l m : chain (shadow_key h) b m a (a :: l) -> (forall x, x ∈ l -> word64 x) ->
  zend_mm_get_next_free_slot h b a m = Some (m a).
Proof.
  intros (_ & Hsh & Hch) Hl. unfold zend_mm_get_next_free_slot. destruct (Z.eqb_spec (m a) 0) as [E|E]; cbn [negb]; [done|].
  rewrite (Hsh E), decode_encode; [by rewrite Z.eqb_refl|].
  destruct l as [|x l]; [done|]. destruct Hch as (-> & _). apply Hl. by left.
Qed.

(** The first part of a list, up to the link [tail]. *)
Fixpoint segment (key b : Z) (m : Z -> Z) (head : Z) (l : list Z) (tail : Z) : Prop :=
  match l with
  | [] => head = tail
  | a :: l => head = a /\ (m a <> 0 -> m (shadow_addr a b) = zend_mm_encode_free_slot key (shadow_addr a b) (m a)) /\
              segment key b m (m a) l tail
  end.

Lemma chain_app key b m l1 l2 : forall head, chain key b m head (l1 ++ l2) <->
  exists tail, segment key b m head l1 tail /\ chain key b m tail l2.
Proof.
  induction l1 as [|a l1 IH]; intros head; cbn.
  - split; [intros H; by exists head|]. by intros (tail & -> & H).
  - rewrite IH. naive_solver.
Qed.

Lemma segment_snoc key b m l a tail : forall head, segment key b m head (l ++ [a]) tail <->
  segment key b m head l a /\ (m a <> 0 -> m (shadow_addr a b) = zend_mm_encode_free_slot key (shadow_addr a b) (m a)) /\ m a = tail.
Proof.
  induction l as [|x l IH]; intros head; cbn; [naive_solver|]. rewrite IH. naive_solver.
Qed.

Lemma segment_frame key b m m' l tail : forall head, (forall a, a ∈ l -> m' a = m a /\ m' (shadow_addr a b) = m (shadow_addr a b)) ->
  segment key b m head l tail -> segment key b m' head l tail.
Proof.
  induction l as [|a l IH]; intros head Hf Hch; [done|]. destruct Hch as (-> & Hs & Hch). cbn.
  destruct (Hf a ltac:(by left)) as [E1 E2]. rewrite E1, E2. split; [done|]. split; [done|].
  apply IH; [|done]. intros a' Ha'. apply Hf. by right.
Qed.

(** Consecutive slots from [p] on. *)
Definition slot_list (b p : Z) (k : nat) : list Z := (fun j => p + j * bin_data_size b) <$> zrange 0 k.

Lemma slot_list_S b p k : slot_list b p (S k) = p :: slot_list b (p + bin_data_size b) k.
Proof.
  unfold slot_list. rewrite zrange_cons, fmap_cons. f_equal; [lia|].
  apply list_eq. intros i. rewrite !list_lookup_fmap. unfold zrange. rewrite !list_lookup_fmap.
  destruct (seq 0 k !! i) as [x|]; cbn; [|done]. f_equal. lia.
Qed.

Lemma chain_slot_list key b m : forall k p, 16 <= bin_data_size b ->
  (forall j, 0 <= j < Z.of_nat k ->
     m (p + j * bin_data_size b) = p + (j + 1) * bin_data_size b /\
     m (shadow_addr (p + j * bin_data_size b) b) =
       zend_mm_encode_free_slot key (shadow_addr (p + j * bin_data_size b) b) (p + (j + 1) * bin_data_size b)) ->
  m (p + Z.of_nat k * bin_data_size b) = 0 -> chain key b m p (slot_list b p (S k)).
Proof.
  set (size := bin_data_size b). induction k as [|k IH]; intros p Hs Hj Hz.
  - rewrite slot_list_S. cbn. replace (p + Z.of_nat 0 * size) with p in Hz by lia. by rewrite Hz.
  - rewrite slot_list_S. destruct (Hj 0 ltac:(lia)) as [E1 E2].
    replace (p + 0 * size) with p in E1, E2 by lia. replace (p + (0 + 1) * size) with (p + size) in E1, E2 by lia.
    split; [done|]. rewrite E1. split; [done|]. apply IH; [done| |].
    + intros j Hj'. specialize (Hj (j + 1) ltac:(lia)).
      replace (p + (j + 1) * size) with (p + size + j * size) in Hj by lia.
      replace (p + (j + 1 + 1) * size) with (p + size + (j + 1) * size) in Hj by lia. done.
    + fold size. rewrite <- Hz. f_equal. rewrite Nat2Z.inj_succ. ring.
Qed.

(** * The invariant *)

(** Every slot of every small run is either in the free list of its bin or
    live, that is, in the hands of the client. *)
Record mm_ok (s : mm St) (runs : gmap Z run) (free : Z -> list Z) (live : gmap Z Z) : Prop := mk_mm_ok {
  mm_pages : page_runs (pages s) runs;
  mm_len : length (free_slot (hp s)) = 30%nat;
  mm_chain b : is_bin b -> chain (shadow_key (hp s)) b (mem s) (lget 0 (free_slot (hp s)) b) (free b);
  mm_free b a : a ∈ free b -> slot_at runs b a;
  mm_nodup b : NoDup (free b);
  mm_live a b : live !! a = Some b -> slot_at runs b a /\ a ∉ free b;
  mm_all b a : slot_at runs b a -> a ∈ free b \/ live !! a = Some b;
  mm_list : huge_list (hp s) = fr_list
}.

(** What belongs to the client: the live slots, the large runs and the regions of the huge blocks. *)
Definition client_word (runs : gmap Z run) (live : gmap Z Z) (x : Z) : Prop :=
  (exists a b, live !! a = Some b /\ a <= x < a + bin_data_size b) \/
  (exists a n, runs !! a = Some (Large n) /\ a <= x < a + run_bytes (Large n)) \/
  (exists a n, (a, n) ∈ fr_maps /\ a <= x < a + n).

Lemma lload_bin (l : list Z) b : length l = 30%nat -> is_bin b -> lload l b = Some (lget 0 l b).
Proof.
  unfold is_bin, ZEND_MM_BINS. intros Hl Hb. unfold lload. destruct (Z.ltb_spec b 0); [lia|].
  apply lget_lookup. unfold llen. lia.
Qed.

Lemma lget_lset_bin (l : list Z) b b' x : length l = 30%nat -> is_bin b -> is_bin b' ->
  lget 0 (lset l b x) b' = if decide (b' = b) then x else lget 0 l b'.
Proof.
  unfold is_bin, ZEND_MM_BINS. intros Hl Hb Hb'. case_decide as E; [subst|].
  - apply lget_lset_eq. unfold llen. lia.
  - apply lget_lset_ne; lia.
Qed.

Lemma slot_words b a : is_bin b -> 1 <= b -> a <= a < a + bin_data_size b /\ a <= shadow_addr a b < a + bin_data_size b.
Proof. intros Hb H1. destruct (slot_size b Hb H1) as (? & _). unfold shadow_addr. lia. Qed.

(** A client word is outside of every free slot and of every page that is in no run. *)
Lemma client_not_free s runs free live b a x : mm_ok s runs free live -> a ∈ free b -> client_word runs live x ->
  ~ (a <= x < a + bin_data_size b).
Proof.
  intros Hok Ha Hx Hin. pose proof (mm_free _ _ _ _ Hok b a Ha) as Hslot. pose proof (mm_pages _ _ _ _ Hok) as Hp.
  destruct Hx as [(a' & b' & Hl & Hx)|[(a' & n & Hr & Hx)|(a' & n & Ha' & Hx)]].
  - destruct (mm_live _ _ _ _ Hok a' b' Hl) as [Hslot' Hno].
    destruct (slots_disjoint _ _ b a b' a' Hp Hslot Hslot') as [[-> ->]|[|]]; [done|lia|lia].
  - destruct Hslot as (base & i & Hrb & Hb & H1 & Hi & ->). destruct (slot_in_run runs b base i Hrb Hb H1 Hi).
    assert (base <> a') as Hne by (intros ->; congruence).
    destruct (page_runs_disjoint _ _ base _ a' _ Hp Hrb Hr Hne); lia.
  - destruct (slot_apart _ _ b a a' n Hp Hslot Ha'); lia.
Qed.

Lemma slot_at_insert runs base b b' a : runs !! base = None -> is_bin b -> 1 <= b ->
  slot_at (<[base := Small b]> runs) b' a <->
  slot_at runs b' a \/ (b' = b /\ exists i, 0 <= i < bin_elements b /\ a = base + i * bin_data_size b).
Proof.
  intros Hnone Hb H1. split.
  - intros (base' & i & Hr & Hb' & H1' & Hi & ->). apply lookup_insert_Some in Hr as [[<- [= ->]]|[Hne Hr]].
    + right. split; [done|]. by exists i.
    + left. by exists base', i.
  - intros [(base' & i & Hr & Hb' & H1' & Hi & ->)|[-> (i & Hi & ->)]].
    + exists base', i. split; [|done]. rewrite lookup_insert_ne; [done|]. intros ->. congruence.
    + exists base, i. split; [apply lookup_insert_eq|done].
Qed.

(** Replacing the pages by those with one large run made small. *)
Lemma mark_pages_ok st runs base b : page_runs st (<[base := Large (bin_pages b)]> runs) -> is_bin b ->
  exists st', mark_small_pages base b st = Some st' /\ page_runs st' (<[base := Small b]> runs).
Proof.
  intros Hp Hb. destruct (mark_small_pages_ok st _ base b Hp Hb ltac:(apply lookup_insert_eq)) as (st' & Hm & Hp').
  exists st'. split; [done|]. by rewrite insert_insert_eq in Hp'.
Qed.

(** * Operations *)

(** Taking a slot from the free list. *)
Lemma pop_ok s runs free live b p l size peak : mm_ok s runs free live -> is_bin b -> 1 <= b -> free b = p :: l ->
  let h := mk_heap size peak (shadow_key (hp s)) (free_slot (hp s)) (huge_list (hp s)) in
  lget 0 (free_slot (hp s)) b = p /\ p <> 0 /\
  zend_mm_get_next_free_slot h b p (mem s) = Some (mem s p) /\ live !! p = None /\ slot_at runs b p /\
  mm_ok (mk_mm (set_free_slot h b (mem s p)) (mem s) (pages s)) runs (fset free b l) (<[p := b]> live).
Proof.
  intros Hok Hb H1 Hf h. pose proof (mm_chain _ _ _ _ Hok b Hb) as Hch. rewrite Hf in Hch. destruct Hch as (Hhead & Hsh & Hch).
  pose proof (mm_pages _ _ _ _ Hok) as Hp. pose proof (mm_nodup _ _ _ _ Hok b) as Hnd. rewrite Hf in Hnd.
  apply NoDup_cons in Hnd as [Hpl Hnd]. pose proof (mm_free _ _ _ _ Hok b p ltac:(rewrite Hf; by left)) as Hslot.
  destruct (slot_facts _ _ b p Hp Hslot) as (_ & _ & Hp0 & _).
  split; [done|]. split; [lia|]. split; [|split; [|split; [done|]]].
  - unfold zend_mm_get_next_free_slot. destruct (Z.eqb_spec (mem s p) 0) as [E|E]; cbn [negb]; [done|].
    cbn [shadow_key h]. rewrite (Hsh E), decode_encode; [by rewrite Z.eqb_refl|].
    destruct l as [|p' l]; [done|]. destruct Hch as (-> & _).
    destruct (slot_facts _ _ b p' Hp (mm_free _ _ _ _ Hok b p' ltac:(rewrite Hf; right; by left))) as (Hb' & _ & ? & _ & ? & ? & _).
    unfold word64. lia.
  - destruct (live !! p) as [b'|] eqn:E; [|done]. destruct (mm_live _ _ _ _ Hok p b' E) as [Hslot' Hno].
    destruct (slots_disjoint _ _ b p b' p Hp Hslot Hslot') as [[_ ->]|Hd].
    + destruct Hno. rewrite Hf. by left.
    + destruct (slot_facts _ _ b' p Hp Hslot') as (_ & _ & _ & _ & _ & ? & _). destruct (slot_size b Hb H1). lia.
  - destruct Hok as [K1 K2 K3 K4 K5 K6 K7 K8]. split; cbn; try done.
    + unfold lset. by rewrite length_insert.
    + intros b' Hb'. rewrite lget_lset_bin by done. unfold fset. case_decide as E; zbool; try done; subst; try done.
      by apply K3.
    + intros b' a. unfold fset. destruct (Z.eqb_spec b' b) as [->|]; [|by apply K4]. intros Ha. apply K4. rewrite Hf. by right.
    + intros b'. unfold fset. by destruct (Z.eqb_spec b' b).
    + intros a b' Hl. apply lookup_insert_Some in Hl as [[<- <-]|[Hne Hl]].
      * split; [done|]. by rewrite fset_eq.
      * destruct (K6 a b' Hl) as [Hs Hno]. split; [done|]. unfold fset. destruct (Z.eqb_spec b' b) as [->|]; [|done].
        rewrite Hf in Hno. intros Ha. apply Hno. by right.
    + intros b' a Hs. destruct (decide (a = p)) as [->|Hne].
      * right. rewrite lookup_insert_eq. f_equal. destruct (slots_disjoint _ _ b p b' p Hp Hslot Hs) as [[_ ->]|Hd]; [done|].
        destruct (slot_facts _ _ b' p Hp Hs) as (_ & _ & _ & _ & _ & ? & _). destruct (slot_size b Hb H1). lia.
      * destruct (K7 b' a Hs) as [Ha|Ha]; [left|right; by rewrite lookup_insert_ne].
        unfold fset. destruct (Z.eqb_spec b' b) as [->|]; [|done]. rewrite Hf in Ha.
        apply elem_of_cons in Ha as [->|Ha]; done.
Qed.

Lemma elem_slot_list b p k a : a ∈ slot_list b p k <-> exists j, 0 <= j < Z.of_nat k /\ a = p + j * bin_data_size b.
Proof.
  unfold slot_list. rewrite list_elem_of_fmap. split.
  - intros (j & -> & Hj%elem_of_zrange). exists j. split; [lia|done].
  - intros (j & Hj & ->). exists j. split; [done|]. apply elem_of_zrange. lia.
Qed.

Lemma NoDup_slot_list b p k : 16 <= bin_data_size b -> NoDup (slot_list b p k).
Proof. intros Hs. unfold slot_list. apply NoDup_fmap_2_strong; [|apply NoDup_zrange]. intros; nia. Qed.

(** A small run none of whose slots is live. *)
Definition idle_run (live : gmap Z Z) (ar : Z * run) : Prop :=
  match ar.2 with
  | Small b => 1 <= b /\ Forall (fun a => live !! a = None) (slot_list b ar.1 (Z.to_nat (bin_elements b)))
  | Large _ => False
  end.
#[global] Instance idle_run_dec live ar : Decision (idle_run live ar).
Proof. unfold idle_run. destruct ar.2; apply _. Defined.

Definition idle_runs (live : gmap Z Z) (runs : gmap Z run) : gmap Z run := filter (idle_run live) runs.
Definition kept_runs (live : gmap Z Z) (runs : gmap Z run) : gmap Z run := filter (fun ar => ~ idle_run live ar) runs.

Lemma lookup_kept live runs a r : kept_runs live runs !! a = Some r <-> runs !! a = Some r /\ ~ idle_run live (a, r).
Proof. unfold kept_runs. by rewrite map_lookup_filter_Some. Qed.

Lemma slot_at_kept live runs b a : slot_at (kept_runs live runs) b a -> slot_at runs b a.
Proof. intros (base & j & [Hr _]%lookup_kept & H). by exists base, j. Qed.

(** What an allocation of pages promises: large runs and the words of the
    client stay, and the new run was not in use.  Small runs without a live slot
    may disappear, with their slots; all of them are gone when there is no memory. *)
Class page_alloc_ok {pa : page_alloc St} := {
  alloc_pages_ok s runs free live n : mm_ok s runs free live -> 1 <= n < 512 ->
    exists r s' runs' free', zend_mm_alloc_pages n s = Some (r, s') /\
      (forall a k, runs' !! a = Some (Large k) <-> runs !! a = Some (Large k)) /\
      (forall b, free b = [] -> free' b = []) /\
      (forall x, client_word runs live x -> mem s' x = mem s x) /\
      match r with
      | Ret a => runs' !! a = None /\ mm_ok s' (<[a := Large n]> runs') free' live
      | NoMemory => mm_ok s' runs' free' live /\ idle_runs live runs' = ∅
      | Panic => False
      end
}.
Context {pa : page_alloc St} {pok : page_alloc_ok}.

Lemma slot_at_large_insert runs a n b x : runs !! a = None ->
  slot_at (<[a := Large n]> runs) b x <-> slot_at runs b x.
Proof.
  intros Hnone. split; intros (base & i & Hr & ?).
  - apply lookup_insert_Some in Hr as [[_ ?]|[_ Hr]]; [done|]. by exists base, i.
  - exists base, i. rewrite lookup_insert_ne; [done|]. intros ->. congruence.
Qed.

(** A new run for a bin without free slots. *)
Lemma init_small_run_ok s runs free live b p : mm_ok s (<[p := Large (bin_pages b)]> runs) free live ->
  runs !! p = None -> is_bin b -> 1 <= b -> free b = [] ->
  exists s', init_small_run p b s = Some s' /\ p <> 0 /\ live !! p = None /\
    mm_ok s' (<[p := Small b]> runs) (fset free b (slot_list b (p + bin_data_size b) (Z.to_nat (bin_elements b - 1)))) (<[p := b]> live) /\
    forall x, x < p \/ p + run_bytes (Small b) <= x -> mem s' x = mem s x.
Proof.
  intros Hok Hnone Hb H1 Hf. destruct (bin_facts b Hb) as (_ & _ & _ & Hpg & Hfit & _). destruct (slot_size b Hb H1) as (Hs16 & Hs8 & Hel).
  unfold init_small_run. remember 1024%nat as fuel eqn:Efuel.
  assert (bin_elements b - 2 <= Z.of_nat fuel) as Hfuel by (rewrite Efuel; lia). clear Efuel.
  pose proof (mm_pages _ _ _ _ Hok) as Hpages. destruct (mark_pages_ok (pages s) runs p b Hpages Hb) as (st' & -> & Hpages').
  rewrite some_bind. cbv beta zeta.
  set (runs' := <[p := Small b]> runs) in *.
  destruct (page_runs_addr st' runs' p _ Hpages' ltac:(apply lookup_insert_eq)) as (Hp0 & Hp8 & _ & Hpend).
  unfold run_bytes in Hpend. cbn [run_pages] in Hpend. set (size := bin_data_size b) in *. set (el := bin_elements b) in *.
  set (h := set_free_slot (hp s) b (p + size)).
  destruct (link_slots_spec fuel h b (p + size) (el - 2) (mem s) Hs16 ltac:(lia)) as (m & Hlink & Hin & Hout).
  fold size in Hlink, Hin, Hout. replace (p + size + (el - 2) * size) with (p + size * (el - 1)) in Hlink, Hout by lia.
  rewrite Hlink, some_bind. cbv beta iota. eexists. split; [reflexivity|].
  pose proof (fun b' a => slot_at_large_insert runs p (bin_pages b) b' a Hnone) as Hins.
  assert (forall b' a, slot_at runs b' a -> 16 <= bin_data_size b') as H16.
  { intros b' a (base & i & _ & Hb' & H1' & _). by apply slot_size. }
  assert (forall a b', slot_at runs b' a -> a + bin_data_size b' <= p \/ p + bin_pages b * ZEND_MM_PAGE_SIZE <= a) as Hold.
  { intros a b' (base & i & Hrb & Hb' & H1' & Hi & ->). destruct (slot_in_run runs b' base i Hrb Hb' H1' Hi).
    assert (runs' !! base = Some (Small b')) as Hrb' by (unfold runs'; rewrite lookup_insert_ne; [done|congruence]).
    destruct (page_runs_disjoint st' runs' base _ p _ Hpages' Hrb' ltac:(apply lookup_insert_eq) ltac:(congruence)) as [Hd|Hd];
      unfold run_bytes in *; cbn [run_pages] in *; lia. }
  assert (live !! p = None) as Hlive.
  { destruct (live !! p) as [b'|] eqn:E; [|done]. destruct (mm_live _ _ _ _ Hok p b' E) as [Hsl _].
    apply Hins in Hsl. pose proof (H16 b' p Hsl). destruct (Hold p b' Hsl); [lia|]. unfold ZEND_MM_PAGE_SIZE in *. lia. }
  split; [lia|]. split; [done|]. split; last first.
  { intros x Hx. cbn. unfold run_bytes in Hx. cbn in Hx. rewrite fset_ne by nia. apply Hout. nia. }
  set (l := slot_list b (p + size) (Z.to_nat (el - 1))).
  assert (forall a, a ∈ l <-> exists i, 1 <= i < el /\ a = p + i * size) as Hl.
  { intros a. unfold l. rewrite elem_slot_list. fold size. split.
    - intros (j & Hj & ->). exists (j + 1). split; [lia|ring].
    - intros (i & Hi & ->). exists (i - 1). split; [lia|ring]. }
  destruct Hok as [K1 K2 K3 K4 K5 K6 K7 K8]. setoid_rewrite Hins in K4. setoid_rewrite Hins in K6. setoid_rewrite Hins in K7.
  split; cbn; try done.
  - unfold lset. by rewrite length_insert.
  - intros b' Hb'. rewrite lget_lset_bin by done. destruct (decide (b' = b)) as [->|Hne].
    + rewrite fset_eq. unfold l. replace (Z.to_nat (el - 1)) with (S (Z.to_nat (el - 2))) by lia.
      apply chain_slot_list; [done| |]; fold size.
      * intros j Hj. destruct (Hin j ltac:(lia)) as [E1 E2]. rewrite !fset_ne; [by split|unfold shadow_addr; fold size; nia|nia].
      * replace (p + size + Z.of_nat (Z.to_nat (el - 2)) * size) with (p + size * (el - 1)) by (rewrite Z2Nat.id by lia; ring).
        apply fset_eq.
    + rewrite fset_ne by done. apply (chain_frame _ _ (mem s)); [|by apply K3]. intros a Ha.
      pose proof (K4 b' a Ha) as Hsl. pose proof (H16 b' a Hsl).
      destruct (Hold a b' Hsl); split; (rewrite fset_ne; [apply Hout|]); unfold shadow_addr; nia.
  - intros b' a Ha. apply slot_at_insert; [done..|]. unfold fset in Ha. destruct (Z.eqb_spec b' b) as [->|]; [|left; by apply K4].
    right. split; [done|]. apply Hl in Ha as (i & Hi & ->). exists i. split; [lia|done].
  - intros b'. unfold fset. destruct (Z.eqb_spec b' b); [by apply NoDup_slot_list|done].
  - intros a b' Ha. apply lookup_insert_Some in Ha as [[<- <-]|[Hne Ha]].
    + split; [apply slot_at_insert; [done..|]; right; split; [done|]; exists 0; split; [lia|lia]|]. rewrite fset_eq.
      intros (i & Hi & E)%Hl. nia.
    + destruct (K6 a b' Ha) as [Hsl Hno]. split; [apply slot_at_insert; [done..|by left]|].
      unfold fset. destruct (Z.eqb_spec b' b) as [->|]; [|done]. intros (i & Hi & ->)%Hl.
      destruct (Hold _ b Hsl) as [Hd|Hd]; [fold size in Hd; nia|]. nia.
  - intros b' a Ha. apply slot_at_insert in Ha as [Ha|[-> (i & Hi & ->)]]; [..|done|done|done].
    + destruct (decide (a = p)) as [->|Hne].
      { pose proof (H16 b' p Ha). destruct (Hold p b' Ha); [lia|]. unfold ZEND_MM_PAGE_SIZE in *. lia. }
      destruct (K7 b' a Ha) as [H|H]; [|right; by rewrite lookup_insert_ne]. left. unfold fset.
      destruct (Z.eqb_spec b' b) as [->|]; [|done]. rewrite Hf in H. by apply not_elem_of_nil in H.
    + destruct (decide (i = 0)) as [->|Hi0].
      * right. replace (p + 0 * bin_data_size b) with p by lia. apply lookup_insert_eq.
      * left. rewrite fset_eq. apply Hl. exists i. split; [lia|done].
Qed.

Lemma slot_at_large_delete runs a n b x : runs !! a = Some (Large n) ->
  slot_at (delete a runs) b x <-> slot_at runs b x.
Proof.
  intros Ha. split; intros (base & i & Hr & ?).
  - apply lookup_delete_Some in Hr as [_ Hr]. by exists base, i.
  - exists base, i. rewrite lookup_delete_ne; [done|]. intros ->. congruence.
Qed.

(** Large runs come and go without an effect on the slots. *)
Lemma mm_ok_pages s runs runs' free live st h : mm_ok s runs free live -> page_runs st runs' ->
  (forall b x, slot_at runs' b x <-> slot_at runs b x) ->
  shadow_key h = shadow_key (hp s) -> free_slot h = free_slot (hp s) -> huge_list h = huge_list (hp s) -> mm_ok (mk_mm h (mem s) st) runs' free live.
Proof.
  intros [K1 K2 K3 K4 K5 K6 K7 K8] Hp Hs Ek Ef El. split; cbn; rewrite ?Ek, ?Ef, ?El; try done.
  - intros b a Ha. apply Hs. by apply K4.
  - intros a b Ha. destruct (K6 a b Ha). split; [by apply Hs|done].
  - intros b a Ha. apply K7. by apply Hs.
Qed.

Lemma mm_ok_stats s runs free live size peak : mm_ok s runs free live ->
  mm_ok (mk_mm (mk_heap size peak (shadow_key (hp s)) (free_slot (hp s)) (huge_list (hp s))) (mem s) (pages s)) runs free live.
Proof. intros [K1 K2 K3 K4 K5 K6 K7 K8]. by split. Qed.

(** The other words of the client are outside of a new run. *)
Lemma client_not_new s runs free live p n x : mm_ok s (<[p := Large n]> runs) free live -> runs !! p = None ->
  client_word runs live x -> x < p \/ p + n * ZEND_MM_PAGE_SIZE <= x.
Proof.
  intros Hok Hnone Hx. pose proof (mm_pages _ _ _ _ Hok) as Hpg.
  assert (forall base r, runs !! base = Some r -> base + run_bytes r <= p \/ p + run_bytes (Large n) <= base) as Hd.
  { intros base r Hr. assert (base <> p) as Hne by congruence.
    apply (page_runs_disjoint _ _ base r p (Large n) Hpg); [by rewrite lookup_insert_ne|apply lookup_insert_eq|done]. }
  unfold run_bytes in Hd at 2. cbn [run_pages] in Hd.
  destruct Hx as [(a & b' & Hl & Hx)|[(a & k & Hr & Hx)|(a & k & Ha & Hx)]]; [|destruct (Hd a _ Hr); lia|].
  2: { pose proof (page_runs_apart _ _ p _ a k Hpg ltac:(apply lookup_insert_eq) Ha) as Hap. unfold run_bytes in Hap. cbn [run_pages] in Hap. lia. }
  destruct (mm_live _ _ _ _ Hok a b' Hl) as [Hsl _]. apply (slot_at_large_insert runs p n b' a Hnone) in Hsl as (base & i & Hrb & Hb' & H1' & Hi & ->).
  destruct (slot_in_run runs b' base i Hrb Hb' H1' Hi). destruct (Hd base _ Hrb); lia.
Qed.

(** What an allocation guarantees: large runs and the words of the client stay,
    and the slot was not in use. *)
Definition small_allocated (s s' : mm St) (runs : gmap Z run) (live : gmap Z Z) (b : Z) (r : outcome Z) : Prop :=
  exists runs' free', (forall a n, runs' !! a = Some (Large n) <-> runs !! a = Some (Large n)) /\
    (forall x, client_word runs live x -> mem s' x = mem s x) /\
    match r with
    | Ret p => live !! p = None /\ p <> 0 /\ slot_at runs' b p /\ mm_ok s' runs' free' (<[p := b]> live)
    | NoMemory => mm_ok s' runs' free' live /\ idle_runs live runs' = ∅
    | Panic => False
    end.

Lemma slow_ok s runs free live b : mm_ok s runs free live -> is_bin b -> 1 <= b -> free b = [] ->
  exists r s', zend_mm_alloc_small_slow b s = Some (r, s') /\ small_allocated s s' runs live b r.
Proof.
  intros Hok Hb H1 Hf. destruct (bin_facts b Hb) as (_ & _ & _ & Hpg & _). unfold zend_mm_alloc_small_slow.
  destruct (alloc_pages_ok s runs free live (bin_pages b) Hok ltac:(lia)) as (r & s1 & runs1 & free1 & -> & Hlarge & Hf1 & Hm & Hr).
  rewrite some_bind. destruct r as [p| |]; [|done|].
  - destruct Hr as [Hnone Hok1].
    destruct (init_small_run_ok s1 runs1 free1 live b p Hok1 Hnone Hb H1 (Hf1 b Hf)) as (s2 & -> & Hp0 & Hlive & Hok2 & Hm2).
    rewrite some_bind. exists (Ret p), s2. split; [done|]. eexists (<[p := Small b]> runs1), _.
    assert (forall x, client_word runs live x -> client_word runs1 live x) as Hcw.
    { intros x [Hx|[(a & n & Ha & Hx)|Hx]]; [by left|right; left|by right; right]. exists a, n. by rewrite Hlarge. }
    split; [|split; [|split; [done|split; [done|split; [|exact Hok2]]]]].
    + intros a n. rewrite <- Hlarge. split.
      * intros [[_ ?]|[_ ?]]%lookup_insert_Some; done.
      * intros Ha. rewrite lookup_insert_ne; [done|]. intros ->. congruence.
    + intros x Hx. rewrite <- Hm by done. apply Hm2. by eapply client_not_new; [|done|apply Hcw].
    + destruct (mm_live _ _ _ _ Hok2 p b ltac:(apply lookup_insert_eq)) as [Hslot _]. done.
  - exists NoMemory, s1. split; [done|]. by exists runs1, free1.
Qed.

Lemma alloc_small_ok s runs free live b : mm_ok s runs free live -> is_bin b -> 1 <= b ->
  exists r s', zend_mm_alloc_small b s = Some (r, s') /\ small_allocated s s' runs live b r.
Proof.
  intros Hok Hb H1. unfold zend_mm_alloc_small. cbn [free_slot].
  rewrite (lload_bin _ b (mm_len _ _ _ _ Hok) Hb), some_bind.
  set (size := u64 _). set (peak := Z.max _ _). clearbody size peak.
  destruct (free b) as [|p l] eqn:Hf.
  - pose proof (mm_chain _ _ _ _ Hok b Hb) as Hch. rewrite Hf in Hch. cbn in Hch. rewrite Hch. cbn [negb Z.eqb].
    apply (slow_ok _ runs free live b (mm_ok_stats _ _ _ _ size peak Hok) Hb H1 Hf).
  - destruct (pop_ok s runs free live b p l size peak Hok Hb H1 Hf) as (-> & Hp0 & Hnext & Hlive & Hslot & Hok').
    destruct (Z.eqb_spec p 0) as [|_]; [done|]. cbn [negb]. rewrite Hnext. eexists (Ret p), _. split; [reflexivity|].
    exists runs, (fset free b l). done.
Qed.

(** The other words of the client are outside of the slot [p]. *)
Lemma client_not_released s runs free live p b x : mm_ok s runs free live -> live !! p = Some b ->
  client_word runs (delete p live) x -> ~ (p <= x < p + bin_data_size b).
Proof.
  intros Hok Hl Hx Hin. destruct (mm_live _ _ _ _ Hok p b Hl) as [Hslot _]. pose proof (mm_pages _ _ _ _ Hok) as Hp.
  destruct Hx as [(a & b' & [Hap Hla]%lookup_delete_Some & Hx)|[(a & n & Hr & Hx)|(a & n & Ha & Hx)]].
  - destruct (mm_live _ _ _ _ Hok a b' Hla) as [Hsl _].
    destruct (slots_disjoint _ _ b' a b p Hp Hsl Hslot) as [[? _]|Hd]; [done|lia].
  - destruct Hslot as (base & i & Hrb & Hb & H1 & Hi & ->). destruct (slot_in_run runs b base i Hrb Hb H1 Hi).
    assert (base <> a) as Hba by (intros ->; congruence).
    destruct (page_runs_disjoint _ _ base _ a _ Hp Hrb Hr Hba); lia.
  - destruct (slot_apart _ _ b p a n Hp Hslot Ha); lia.
Qed.

(** Giving a slot back. *)
Lemma free_small_ok s runs free live p b : mm_ok s runs free live -> live !! p = Some b ->
  exists s', zend_mm_free_small p b s = Some (Ret (), s') /\
    mm_ok s' runs (fset free b (p :: free b)) (delete p live) /\ lget 0 (free_slot (hp s')) b = p /\
    forall x, client_word runs (delete p live) x -> mem s' x = mem s x.
Proof.
  intros Hok Hl. destruct (mm_live _ _ _ _ Hok p b Hl) as [Hslot Hno]. pose proof (mm_pages _ _ _ _ Hok) as Hp.
  destruct (slot_facts _ _ b p Hp Hslot) as (Hb & H1 & Hp0 & _ & _ & Hs16 & _).
  unfold zend_mm_free_small. cbn [free_slot shadow_key]. rewrite (lload_bin _ b (mm_len _ _ _ _ Hok) Hb), some_bind.
  set (head := lget 0 (free_slot (hp s)) b). pose proof (mm_chain _ _ _ _ Hok b Hb) as Hch. fold head in Hch.
  assert (p <> head) as Hne.
  { intros E. destruct (free b) as [|a l]; cbn in Hch; [lia|]. destruct Hch as (E' & _). apply Hno. rewrite E, E'. by left. }
  destruct (Z.eqb_spec p head) as [|_]; [done|].
  set (h := mk_heap _ _ _ _ _). destruct (set_next_slot h b p head (mem s) Hs16) as (E1 & E2 & E3).
  set (m := zend_mm_set_next_free_slot h b p head (mem s)) in *. clearbody m. cbn [shadow_key h] in E2.
  eexists. split; [reflexivity|]. cbn [hp mem pages set_free_slot free_slot h].
  assert (forall a b', slot_at runs b' a -> a <> p -> m a = mem s a /\ m (shadow_addr a b') = mem s (shadow_addr a b')) as Hother.
  { intros a b' Hsl Hap. destruct (slot_facts _ _ b' a Hp Hsl) as (_ & _ & _ & _ & _ & Hs' & _).
    destruct (slots_disjoint _ _ b' a b p Hp Hsl Hslot) as [[? _]|Hd]; [done|].
    split; apply E3; unfold shadow_addr; lia. }
  split; [|split].
  - pose proof Hok as [K1 K2 K3 K4 K5 K6 K7 K8]. split; cbn [hp mem pages set_free_slot free_slot shadow_key h]; try done.
    + unfold lset. by rewrite length_insert.
    + intros b' Hb'. rewrite lget_lset_bin by done. destruct (decide (b' = b)) as [->|Hbne].
      * rewrite fset_eq. split; [done|]. rewrite E1. split; [done|]. apply (chain_frame _ _ (mem s)); [|done].
        intros a Ha. apply Hother; [by apply K4|]. intros ->. done.
      * rewrite fset_ne by done. apply (chain_frame _ _ (mem s)); [|by apply K3].
        intros a Ha. apply Hother; [by apply K4|]. intros ->.
        destruct (slots_disjoint _ _ b' p b p Hp (K4 _ _ Ha) Hslot) as [[_ ->]|Hd]; [done|].
        destruct (slot_facts _ _ b' p Hp (K4 _ _ Ha)) as (_ & _ & _ & _ & _ & ? & _). lia.
    + intros b' a. unfold fset. destruct (Z.eqb_spec b' b) as [->|]; [|by apply K4].
      intros [->|Ha]%elem_of_cons; [done|by apply K4].
    + intros b'. unfold fset. destruct (Z.eqb_spec b' b) as [->|]; [|done]. by apply NoDup_cons.
    + intros a b' [Hap Ha]%lookup_delete_Some. destruct (K6 a b' Ha) as [Hsl Hna]. split; [done|].
      unfold fset. destruct (Z.eqb_spec b' b) as [->|]; [|done]. intros [->|?]%elem_of_cons; done.
    + intros b' a Hsl. destruct (decide (a = p)) as [->|Hap].
      * left. destruct (slots_disjoint _ _ b' p b p Hp Hsl Hslot) as [[_ ->]|Hd]; [rewrite fset_eq; by left|].
        destruct (slot_facts _ _ b' p Hp Hsl) as (_ & _ & _ & _ & _ & ? & _). lia.
      * destruct (K7 b' a Hsl) as [Ha|Ha]; [left|right; by rewrite lookup_delete_ne].
        unfold fset. destruct (Z.eqb_spec b' b) as [->|]; [by right|done].
  - rewrite lget_lset_bin by (apply (mm_len _ _ _ _ Hok) || done). by case_decide.
  - intros x Hx. pose proof (client_not_released _ _ _ _ _ _ x Hok Hl Hx). apply E3; unfold shadow_addr; lia.
Qed.
End Slots.
