(* ===== verification/MmHeap.v ===== *)
(** The chunks of the memory manager (src/Zend/zend_alloc.c): the list of chunks
    with its search, the cache of empty chunks, the deletion of chunks, and the
    release of large runs by address.  The ring of chunks is the list that
    starts at [main_chunk]; the system call behind [zend_mm_chunk_alloc] is a
    parameter. *)

From stdpp Require Import base numbers list gmap.
From S2P Require Import Prelude.
From S2P Require Import MmBitset.
From S2P Require Import MmBins.
From S2P Require Import MmChunk.
From S2P Require Import MmRuns.
From S2P Require Import MmSlots.

Definition ZEND_MM_CHUNK_SIZE : Z := 2 * 1024 * 1024.
Definition ZEND_MM_ALIGNED_OFFSET (size alignment : Z) : Z := Z.land size (alignment - 1).
Definition ZEND_MM_ALIGNED_BASE (size alignment : Z) : Z := Z.land size (not64 (alignment - 1)).
Definition ZEND_MM_PAGE_ADDR (chunk page_num : Z) : Z := chunk + page_num * ZEND_MM_PAGE_SIZE.

(** A chunk in the list: its address, its number, its pages. *)
Record chunk_entry := mk_entry { ce_addr : Z; ce_num : Z; ce_chunk : zend_mm_chunk }.

Record chunk_heap := mk_chunk_heap {
  ring : list chunk_entry;             (* main_chunk first *)
  cached_chunks : list chunk_entry;
  chunks_count : Z; peak_chunks_count : Z; cached_chunks_count : Z;
  last_chunks_delete_boundary : Z; last_chunks_delete_count : Z;
  real_size : Z; real_peak : Z; limit : Z;
  huge_maps : list (Z * Z);            (* the system: regions mapped for huge blocks *)
  sys_calls : nat                      (* and the calls of it so far *)
}.

Definition set_ring (l : list chunk_entry) (h : chunk_heap) : chunk_heap :=
  mk_chunk_heap l (cached_chunks h) (chunks_count h) (peak_chunks_count h) (cached_chunks_count h)
    (last_chunks_delete_boundary h) (last_chunks_delete_count h) (real_size h) (real_peak h) (limit h) (huge_maps h) (sys_calls h).
Definition set_cached (l : list chunk_entry) (n : Z) (h : chunk_heap) : chunk_heap :=
  mk_chunk_heap (ring h) l (chunks_count h) (peak_chunks_count h) n
    (last_chunks_delete_boundary h) (last_chunks_delete_count h) (real_size h) (real_peak h) (limit h) (huge_maps h) (sys_calls h).
Definition set_counts (count peak : Z) (h : chunk_heap) : chunk_heap :=
  mk_chunk_heap (ring h) (cached_chunks h) count peak (cached_chunks_count h)
    (last_chunks_delete_boundary h) (last_chunks_delete_count h) (real_size h) (real_peak h) (limit h) (huge_maps h) (sys_calls h).
Definition set_deletes (boundary count : Z) (h : chunk_heap) : chunk_heap :=
  mk_chunk_heap (ring h) (cached_chunks h) (chunks_count h) (peak_chunks_count h) (cached_chunks_count h)
    boundary count (real_size h) (real_peak h) (limit h) (huge_maps h) (sys_calls h).
Definition set_real (size peak : Z) (h : chunk_heap) : chunk_heap :=
  mk_chunk_heap (ring h) (cached_chunks h) (chunks_count h) (peak_chunks_count h) (cached_chunks_count h)
    (last_chunks_delete_boundary h) (last_chunks_delete_count h) size peak (limit h) (huge_maps h) (sys_calls h).
Definition count_call (h : chunk_heap) : chunk_heap :=
  mk_chunk_heap (ring h) (cached_chunks h) (chunks_count h) (peak_chunks_count h) (cached_chunks_count h)
    (last_chunks_delete_boundary h) (last_chunks_delete_count h) (real_size h) (real_peak h) (limit h) (huge_maps h) (S (sys_calls h)).
Definition set_huge_maps (l : list (Z * Z)) (h : chunk_heap) : chunk_heap :=
  mk_chunk_heap (ring h) (cached_chunks h) (chunks_count h) (peak_chunks_count h) (cached_chunks_count h)
    (last_chunks_delete_boundary h) (last_chunks_delete_count h) (real_size h) (real_peak h) (limit h) l (sys_calls h).

(** The chunks, and all regions of memory that the system has given out. *)
Definition chunk_addrs (h : chunk_heap) : list Z := (ce_addr <$> ring h) ++ (ce_addr <$> cached_chunks h).
Definition mapped (h : chunk_heap) : list (Z * Z) := ((fun a => (a, ZEND_MM_CHUNK_SIZE)) <$> chunk_addrs h) ++ huge_maps h.

Section Heap.
Context {fr : heap_frame}.

(** The test [chunks_count + cached_chunks_count < avg_chunks_count + 0.1],
    whose right-hand side is fixed during a request. *)
Context (below_average : Z -> bool).

(** * Allocation of pages *)

(** The loop over the chunks: the chunks before, the number of steps, the chunk
    with the pages marked and the page number; or all chunks, with their new [free_tail]. *)
Fixpoint search_ring (before l : list chunk_entry) (pages_count : Z)
    : option (list chunk_entry + list chunk_entry * chunk_entry * list chunk_entry * Z) :=
  match l with
  | [] => Some (inl before)
  | e :: l =>
      r ← alloc_in_chunk (ce_chunk e) pages_count;
      let e := mk_entry (ce_addr e) (ce_num e) (snd r) in
      match fst r with
      | Some page_num => Some (inr (before, e, l, page_num))
      | None => search_ring (before ++ [e]) l pages_count
      end
  end.

(** [if (steps > 2 && pages_count < 8)]: move chunk into the head of the linked-list, behind the main chunk. *)
Definition move_to_head (before : list chunk_entry) (e : chunk_entry) (after : list chunk_entry) (steps pages_count : Z)
    : list chunk_entry :=
  match before with
  | m :: before' => if (2 <? steps) && (pages_count <? 8) then m :: e :: before' ++ after else before ++ e :: after
  | [] => e :: after
  end.

(** * Release of pages *)

Definition zend_mm_delete_chunk (before : list chunk_entry) (e : chunk_entry) (after : list chunk_entry)
    (h : chunk_heap) : chunk_heap :=
  let h := set_ring (before ++ after) h in
  let h := set_counts (chunks_count h - 1) (peak_chunks_count h) h in
  if below_average (chunks_count h + cached_chunks_count h) ||
     ((chunks_count h =? last_chunks_delete_boundary h) && (4 <=? last_chunks_delete_count h))
  then set_cached (e :: cached_chunks h) (cached_chunks_count h + 1) h
  else
    let h := set_real (u64 (real_size h - ZEND_MM_CHUNK_SIZE)) (real_peak h) h in
    match cached_chunks h with
    | [] =>
        if negb (chunks_count h =? last_chunks_delete_boundary h)
        then set_deletes (chunks_count h) 0 h
        else set_deletes (last_chunks_delete_boundary h) (last_chunks_delete_count h + 1) h
    | e' :: l =>
        if ce_num e' <? ce_num e then h else set_cached (e :: l) (cached_chunks_count h) h
    end.

(** The chunk at an address. *)
Fixpoint find_chunk (before l : list chunk_entry) (a : Z) : option (list chunk_entry * chunk_entry * list chunk_entry) :=
  match l with
  | [] => None
  | e :: l => if ce_addr e =? a then Some (before, e, l) else find_chunk (before ++ [e]) l a
  end.

Inductive heap_result := HeapFreed (h : chunk_heap) (pages_count : Z) | HeapSlot (bin_num : Z) | HeapCorrupted.

(** [zend_mm_free_heap] for an address inside a chunk of the heap. *)
Definition heap_free (ptr : Z) (h : chunk_heap) : option heap_result :=
  let page_offset := ZEND_MM_ALIGNED_OFFSET ptr ZEND_MM_CHUNK_SIZE in
  f ← find_chunk [] (ring h) (ZEND_MM_ALIGNED_BASE ptr ZEND_MM_CHUNK_SIZE);
  let '(before, e, after) := f in
  r ← free_in_chunk (ce_chunk e) page_offset;
  match r with
  | Released c n =>
      let e := mk_entry (ce_addr e) (ce_num e) c in
      if negb (bool_decide (before = [])) && (free_pages c =? ZEND_MM_PAGES - ZEND_MM_FIRST_PAGE)
      then Some (HeapFreed (zend_mm_delete_chunk before e after h) n)
      else Some (HeapFreed (set_ring (before ++ e :: after) h) n)
  | SmallSlot b => Some (HeapSlot b)
  | Corrupted => Some HeapCorrupted
  end.

(** The page information of a new small run. *)
Definition heap_mark_small (bin bin_num : Z) (h : chunk_heap) : option chunk_heap :=
  let page_num := ZEND_MM_ALIGNED_OFFSET bin ZEND_MM_CHUNK_SIZE / ZEND_MM_PAGE_SIZE in
  f ← find_chunk [] (ring h) (ZEND_MM_ALIGNED_BASE bin ZEND_MM_CHUNK_SIZE);
  let '(before, e, after) := f in
  c ← mark_small_run (ce_chunk e) page_num bin_num;
  Some (set_ring (before ++ mk_entry (ce_addr e) (ce_num e) c :: after) h).

(** * What the chunks represent *)

Definition chunk_addr (a : Z) : Prop := 0 < a /\ a mod ZEND_MM_CHUNK_SIZE = 0 /\ a + ZEND_MM_CHUNK_SIZE <= 2 ^ 64.

(** The runs of the chunk at [a] among all runs. *)
Definition runs_of_chunk (runs : gmap Z run) (a : Z) (cr : gmap Z run) : Prop :=
  forall s, 0 <= s < 512 -> runs !! ZEND_MM_PAGE_ADDR a s = cr !! s.

Definition entry_ok (runs : gmap Z run) (e : chunk_entry) : Prop :=
  exists cr, chunk_ok (ce_chunk e) cr /\ runs_of_chunk runs (ce_addr e) cr.

Record chunks_ok (l cached : list chunk_entry) (runs : gmap Z run) : Prop := mk_chunks_ok {
  ck_nodup : NoDup ((ce_addr <$> l) ++ (ce_addr <$> cached));
  ck_addr a : a ∈ (ce_addr <$> l) ++ (ce_addr <$> cached) -> chunk_addr a;
  ck_entry e : e ∈ l -> entry_ok runs e;
  ck_dom a r : runs !! a = Some r -> exists e s, e ∈ l /\ 0 <= s < 512 /\ a = ZEND_MM_PAGE_ADDR (ce_addr e) s;
  ck_cached e : e ∈ cached -> chunk_ok (ce_chunk e) ∅
}.

Lemma page_addr_inj a s a' s' : chunk_addr a -> chunk_addr a' -> 0 <= s < 512 -> 0 <= s' < 512 ->
  ZEND_MM_PAGE_ADDR a s = ZEND_MM_PAGE_ADDR a' s' -> a = a' /\ s = s'.
Proof.
  clear below_average.
  unfold chunk_addr, ZEND_MM_PAGE_ADDR, ZEND_MM_CHUNK_SIZE, ZEND_MM_PAGE_SIZE. intros (_ & Ha & _) (_ & Ha' & _) Hs Hs' E. zlia.
Qed.

Lemma chunks_ok_perm l l' cached runs : l ≡ₚ l' -> chunks_ok l cached runs -> chunks_ok l' cached runs.
Proof.
  intros Hl [H1 H2 H3 H4 H5]. split.
  - by rewrite <- Hl.
  - intros a. rewrite <- Hl. apply H2.
  - intros e. rewrite <- Hl. apply H3.
  - intros a r Hr. destruct (H4 a r Hr) as (e & s & He & ?). exists e, s. by rewrite <- Hl.
  - done.
Qed.

Lemma chunks_addr l cached runs e : chunks_ok l cached runs -> e ∈ l -> chunk_addr (ce_addr e).
Proof. intros H He. apply (ck_addr _ _ _ H), elem_of_app. left. by apply list_elem_of_fmap_2. Qed.

#[local] Instance page_of_chunk_dec a x : Decision (exists s, 0 <= s < 512 /\ x = ZEND_MM_PAGE_ADDR a s).
Proof.
  destruct (decide (Exists (fun s => x = ZEND_MM_PAGE_ADDR a s) (zrange 0 512))) as [H|H]; [left|right].
  - apply Exists_exists in H as (s & Hs%elem_of_zrange & ->). exists s. split; [lia|done].
  - intros (s & Hs & ->). apply H, Exists_exists. exists s. split; [|done]. apply elem_of_zrange. lia.
Qed.

(** One chunk changes, and the runs with it. *)
Lemma chunks_ok_replace l e num c cached runs runs' cr' : chunks_ok (e :: l) cached runs -> chunk_ok c cr' ->
  runs_of_chunk runs' (ce_addr e) cr' ->
  (forall a, (forall s, 0 <= s < 512 -> a <> ZEND_MM_PAGE_ADDR (ce_addr e) s) -> runs' !! a = runs !! a) ->
  chunks_ok (mk_entry (ce_addr e) num c :: l) cached runs'.
Proof.
  intros Hok Hc Hin Hout. pose proof (chunks_addr _ _ _ e Hok ltac:(by left)) as Hae.
  pose proof Hok as [H1 H2 H3 H4 H5]. split.
  - done.
  - done.
  - intros e' [->|He']%elem_of_cons; [by exists cr'|]. destruct (H3 e' ltac:(by right)) as (cr & Hcr & Hr).
    exists cr. split; [done|]. intros s Hs. rewrite <- Hr by done. apply Hout. intros s' Hs' E.
    apply page_addr_inj in E as [E _]; [|by eapply chunks_addr; [done|right]|done..].
    apply NoDup_app in H1 as (Hnd & _ & _). cbn in Hnd. apply NoDup_cons in Hnd as [Hno _]. apply Hno.
    rewrite <- E. by apply list_elem_of_fmap_2.
  - intros a r Hr. destruct (decide (exists s, 0 <= s < 512 /\ a = ZEND_MM_PAGE_ADDR (ce_addr e) s)) as [(s & Hs & ->)|Hno].
    + exists (mk_entry (ce_addr e) num c), s. split; [by left|done].
    + rewrite Hout in Hr by (intros s Hs ->; apply Hno; by exists s). destruct (H4 a r Hr) as (e' & s & He' & Hs & ->).
      apply elem_of_cons in He' as [->|He']; [destruct Hno; by exists s|]. exists e', s. split; [by right|done].
  - done.
Qed.

Lemma page_addr_other a s s' : 0 <= s < 512 -> 0 <= s' < 512 -> s' <> s -> ZEND_MM_PAGE_ADDR a s' <> ZEND_MM_PAGE_ADDR a s.
Proof. unfold ZEND_MM_PAGE_ADDR, ZEND_MM_PAGE_SIZE. lia. Qed.

Lemma runs_of_chunk_insert runs a cr s r : 0 <= s < 512 -> runs_of_chunk runs a cr ->
  runs_of_chunk (<[ZEND_MM_PAGE_ADDR a s := r]> runs) a (<[s := r]> cr).
Proof.
  intros Hs Hr s' Hs'. destruct (decide (s' = s)) as [->|Hne]; [by rewrite !lookup_insert_eq|].
  rewrite !lookup_insert_ne by (done || by apply not_eq_sym, page_addr_other). by apply Hr.
Qed.

Lemma runs_of_chunk_delete runs a cr s : 0 <= s < 512 -> runs_of_chunk runs a cr ->
  runs_of_chunk (delete (ZEND_MM_PAGE_ADDR a s) runs) a (delete s cr).
Proof.
  intros Hs Hr s' Hs'. destruct (decide (s' = s)) as [->|Hne]; [by rewrite !lookup_delete_eq|].
  rewrite !lookup_delete_ne by (done || by apply not_eq_sym, page_addr_other). by apply Hr.
Qed.

(** A run of one chunk is inserted or replaced. *)
Lemma chunks_ok_insert l e num c cached runs cr s r : chunks_ok (e :: l) cached runs ->
  runs_of_chunk runs (ce_addr e) cr -> 0 <= s < 512 -> chunk_ok c (<[s := r]> cr) ->
  chunks_ok (mk_entry (ce_addr e) num c :: l) cached (<[ZEND_MM_PAGE_ADDR (ce_addr e) s := r]> runs).
Proof.
  intros Hok Hcr Hs Hc. eapply chunks_ok_replace; [done|done|by apply runs_of_chunk_insert|].
  intros a Ha. apply lookup_insert_ne. intros <-. by eapply Ha.
Qed.

Lemma perm_middle (b : list chunk_entry) e a : b ++ e :: a ≡ₚ e :: b ++ a.
Proof. symmetry. apply Permutation_middle. Qed.

(** The runs of an entry of the list. *)
Lemma entry_runs l cached runs e : chunks_ok l cached runs -> e ∈ l ->
  exists cr, chunk_ok (ce_chunk e) cr /\ runs_of_chunk runs (ce_addr e) cr.
Proof. intros Hok He. by apply (ck_entry _ _ _ Hok). Qed.

(** The counters of free slots in the page information of small runs. *)
Definition free_counters (l : list chunk_entry) (runs : gmap Z run) (cnt : Z -> Z) : Prop :=
  forall e s b, e ∈ l -> 0 <= s < 512 -> runs !! ZEND_MM_PAGE_ADDR (ce_addr e) s = Some (Small b) ->
    lget 0 (chunk_map (ce_chunk e)) s = ZEND_MM_SRUN_EX b (cnt (ZEND_MM_PAGE_ADDR (ce_addr e) s)).

Lemma counters_perm l l' runs cnt : l ≡ₚ l' -> free_counters l runs cnt -> free_counters l' runs cnt.
Proof. intros Hl H e s b He. apply H. by rewrite Hl. Qed.

(** Runs disappear or change, but no small run is new. *)
Lemma counters_mono l runs runs' cnt : (forall a b, runs' !! a = Some (Small b) -> runs !! a = Some (Small b)) ->
  free_counters l runs cnt -> free_counters l runs' cnt.
Proof. intros Hr H e s b He Hs Hb. apply H; [done..|]. by apply Hr. Qed.

Lemma large_insert_small (runs : gmap Z run) a n x b : <[a := Large n]> runs !! x = Some (Small b) -> x <> a /\ runs !! x = Some (Small b).
Proof. intros [[_ ?]|[Hne Hx]]%lookup_insert_Some; [done|]. split; [congruence|done]. Qed.

(** One chunk changes. *)
Lemma counters_replace e num c l runs cnt : free_counters (e :: l) runs cnt ->
  (forall s b, 0 <= s < 512 -> runs !! ZEND_MM_PAGE_ADDR (ce_addr e) s = Some (Small b) ->
     lget 0 (chunk_map c) s = lget 0 (chunk_map (ce_chunk e)) s) ->
  free_counters (mk_entry (ce_addr e) num c :: l) runs cnt.
Proof.
  intros H Hc e' s b [->|He']%elem_of_cons Hs Hb; cbn [ce_chunk ce_addr] in *.
  - rewrite (Hc s b) by done. apply H; [by left|done..].
  - apply H; [by right|done..].
Qed.

Lemma search_ring_counters l n cnt r : forall before runs, free_counters (before ++ l) runs cnt -> search_ring before l n = Some r ->
  match r with
  | inl l' => free_counters l' runs cnt
  | inr (b, e, a, p) => 0 <= p -> free_counters (b ++ e :: a) (<[ZEND_MM_PAGE_ADDR (ce_addr e) p := Large n]> runs) cnt
  end.
Proof.
  induction l as [|e l IH]; intros before runs H; cbn [search_ring].
  { intros [= <-]. by rewrite app_nil_r in H. }
  destruct (alloc_in_chunk (ce_chunk e) n) as [[o c']|] eqn:E; [|done]. rewrite some_bind. cbn [fst snd].
  apply alloc_in_chunk_map in E. apply (counters_perm _ (e :: before ++ l)) in H; [|apply perm_middle].
  destruct o as [p|].
  - intros [= <-] Hp. eapply counters_perm; [symmetry; apply perm_middle|]. cbn [ce_addr].
    apply counters_replace; [eapply counters_mono; [|exact H]; by intros x b [_ ?]%large_insert_small|].
    intros s b Hs [Hne _]%large_insert_small. rewrite E. apply lget_lset_ne; [lia|lia|]. intros ->. done.
  - apply IH. rewrite <- app_assoc. eapply counters_perm; [symmetry; apply perm_middle|]. apply counters_replace; [done|].
    intros s b _ _. by rewrite E.
Qed.

Lemma search_ring_ok l n cached runs : 1 <= n -> forall before, chunks_ok (before ++ l) cached runs ->
  exists r, search_ring before l n = Some r /\
    match r with
    | inl l' => chunks_ok l' cached runs /\ ce_addr <$> l' = ce_addr <$> before ++ l
    | inr (b, e, a, p) => 1 <= p /\ p + n <= 512 /\ runs !! ZEND_MM_PAGE_ADDR (ce_addr e) p = None /\
        chunks_ok (b ++ e :: a) cached (<[ZEND_MM_PAGE_ADDR (ce_addr e) p := Large n]> runs) /\
        ce_addr <$> b ++ e :: a = ce_addr <$> before ++ l
    end.
Proof.
  intros Hn. induction l as [|e l IH]; intros before Hok; cbn [search_ring].
  { eexists. split; [done|]. by rewrite app_nil_r in *. }
  destruct (entry_runs _ _ _ e Hok) as (cr & Hc & Hcr); [apply elem_of_app; right; by left|].
  destruct (alloc_in_chunk_ok (ce_chunk e) cr n Hc Hn) as (r & c' & -> & Hr). rewrite some_bind. cbn [fst snd].
  apply (chunks_ok_perm _ (e :: before ++ l)) in Hok; [|apply perm_middle].
  destruct r as [p|].
  - destruct Hr as ((k & (Hk & Hp & Hpk & _) & Hnk & _) & Hnone & Hc'). eexists. split; [done|]. cbn [ce_addr].
    split; [done|]. split; [lia|]. split; [rewrite Hcr by lia; done|]. split; [|by rewrite !fmap_app].
    eapply chunks_ok_perm; [symmetry; apply perm_middle|]. eapply chunks_ok_insert; try done. lia.
  - destruct Hr as [_ Hc'].
    assert (chunks_ok (mk_entry (ce_addr e) (ce_num e) c' :: before ++ l) cached runs) as Hok' by (by eapply chunks_ok_replace).
    destruct (IH (before ++ [mk_entry (ce_addr e) (ce_num e) c'])) as (r & -> & Hr).
    { rewrite <- app_assoc. eapply chunks_ok_perm; [symmetry; apply perm_middle|done]. }
    exists r. split; [done|]. rewrite <- app_assoc, fmap_app in Hr. rewrite fmap_app. by destruct r as [l'|[[[b e'] a] p]].
Qed.

Lemma move_to_head_perm b e a steps n : move_to_head b e a steps n ≡ₚ b ++ e :: a.
Proof.
  unfold move_to_head. destruct b as [|m b]; [done|]. destruct (_ && _); [|done]. cbn.
  constructor. symmetry. apply perm_middle.
Qed.

Lemma zeroed_map_ok : map_ok (free_map zeroed_chunk) /\ length (chunk_map zeroed_chunk) = 512%nat /\
  forall p, 1 <= p < 512 -> page_set (free_map zeroed_chunk) p = false.
Proof.
  clear below_average.
  split; [split; [done|by repeat constructor]|]. split; [done|]. intros p Hp.
  unfold page_set, zeroed_chunk. cbn [free_map]. rewrite lget_replicate by zlia. apply Z.bits_0.
Qed.

Lemma empty_chunk_map c : chunk_ok c ∅ -> map_ok (free_map c) /\ length (chunk_map c) = 512%nat /\
  forall p, 1 <= p < 512 -> page_set (free_map c) p = false.
Proof.
  intros Hc. split; [apply (ok_map _ _ Hc)|]. split; [apply (ok_info _ _ Hc)|]. intros p Hp.
  apply not_true_is_false. intros (s & r & Hr & _)%(ok_pages _ _ Hc); done.
Qed.

Lemma no_runs_free c : chunk_ok c ∅ -> free_pages c = 511.
Proof.
  intros Hc. rewrite (ok_free _ _ Hc). apply clear_pages_all; [apply (ok_header _ _ Hc)|apply (empty_chunk_map c Hc)].
Qed.

(** Chunks do not meet the regions of huge blocks; [real_size] counts both. *)
Definition apart (chunks : list Z) (maps : list (Z * Z)) : Prop :=
  forall a b k, a ∈ chunks -> (b, k) ∈ maps -> a + ZEND_MM_CHUNK_SIZE <= b \/ b + k <= a.
Definition real_rest (h : chunk_heap) : Z := u64 (real_size h - ZEND_MM_CHUNK_SIZE * llen (chunk_addrs h)).

Record heap_runs (h : chunk_heap) (runs : gmap Z run) : Prop := mk_heap_runs {
  hr_chunks : chunks_ok (ring h) (cached_chunks h) runs;
  hr_apart : apart (chunk_addrs h) fr_maps;
  hr_maps : huge_maps h = fr_maps;
  hr_real : real_rest h = fr_real;
  hr_range : 0 <= real_size h < 2 ^ 64;
  hr_cached : cached_chunks_count h = llen (cached_chunks h)
}.

(** A change of the chunks that keeps their addresses. *)
Lemma heap_runs_same h h' runs runs' : heap_runs h runs -> chunks_ok (ring h') (cached_chunks h') runs' ->
  chunk_addrs h' ≡ₚ chunk_addrs h -> huge_maps h' = huge_maps h -> real_size h' = real_size h ->
  cached_chunks_count h' = llen (cached_chunks h') -> heap_runs h' runs'.
Proof.
  intros [_ Ha Hm Hr Hrg _] Hck Hp Em Er Ec. split; [done| | | |by rewrite Er|done].
  - intros a b k Hin. apply Ha. by rewrite <- Hp.
  - by rewrite Em.
  - unfold real_rest, llen in *. by rewrite Er, Hp.
Qed.

Lemma heap_runs_ring h runs l runs' : heap_runs h runs -> chunks_ok l (cached_chunks h) runs' ->
  ce_addr <$> l ≡ₚ ce_addr <$> ring h -> heap_runs (set_ring l h) runs'.
Proof. intros Hh Hck Hp. eapply heap_runs_same; [done|done| |done|done|apply Hh]. unfold chunk_addrs. cbn. by rewrite Hp. Qed.

Lemma no_chunk_run l cached runs a s : chunks_ok l cached runs -> chunk_addr a -> a ∉ ce_addr <$> l -> 0 <= s < 512 ->
  runs !! ZEND_MM_PAGE_ADDR a s = None.
Proof.
  intros Hok Ha Hno Hs. destruct (runs !! _) as [r|] eqn:E; [|done].
  destruct (ck_dom _ _ _ Hok _ _ E) as (e & s' & He & Hs' & Eq).
  apply page_addr_inj in Eq as [-> _]; [|done|by apply (chunks_addr l cached runs)|done..].
  destruct Hno. by apply list_elem_of_fmap_2.
Qed.

(** A new chunk joins the list. *)
Lemma chunks_ok_new l cached runs a num c : chunks_ok l cached runs -> chunk_addr a ->
  a ∉ ce_addr <$> l -> a ∉ ce_addr <$> cached -> chunk_ok c ∅ ->
  chunks_ok (mk_entry a num c :: l) cached runs.
Proof.
  intros Hcks Ha Hl Hc Hok. pose proof Hcks as [H1 H2 H3 H4 H5]. split.
  - cbn. apply NoDup_cons. split; [|done]. by rewrite elem_of_app; intros [|].
  - intros x. cbn. intros [->|Hx]%elem_of_cons; [done|by apply H2].
  - intros e [->|He]%elem_of_cons; [|by apply H3]. exists ∅. split; [done|]. intros s Hs. rewrite lookup_empty. by eapply no_chunk_run.
  - intros x r Hr. destruct (H4 x r Hr) as (e & s & He & ?). exists e, s. split; [by right|done].
  - done.
Qed.

(** * Addresses *)

Lemma aligned_parts a x : chunk_addr a -> 0 <= x < ZEND_MM_CHUNK_SIZE ->
  ZEND_MM_ALIGNED_BASE (a + x) ZEND_MM_CHUNK_SIZE = a /\ ZEND_MM_ALIGNED_OFFSET (a + x) ZEND_MM_CHUNK_SIZE = x.
Proof.
  clear below_average.
  unfold chunk_addr, ZEND_MM_ALIGNED_BASE, ZEND_MM_ALIGNED_OFFSET. intros (Ha0 & Ha & Hend) Hx.
  change (ZEND_MM_CHUNK_SIZE - 1) with (2 ^ 21 - 1).
  rewrite align_down, land_pred_mod by (unfold word64; lia).
  change (2 ^ 21) with ZEND_MM_CHUNK_SIZE in *. unfold ZEND_MM_CHUNK_SIZE in *. split; zlia.
Qed.

Lemma find_chunk_ok l a : forall before, NoDup (ce_addr <$> before ++ l) -> a ∈ ce_addr <$> l ->
  exists b e aft, find_chunk before l a = Some (b, e, aft) /\ ce_addr e = a /\ b ++ e :: aft = before ++ l.
Proof.
  induction l as [|e l IH]; intros before Hnd Ha; [by apply not_elem_of_nil in Ha|]. cbn [find_chunk].
  destruct (Z.eqb_spec (ce_addr e) a) as [E|E]; [by exists before, e, l|].
  apply elem_of_cons in Ha as [Ha|Ha]; [done|].
  destruct (IH (before ++ [e])) as (b & e' & aft & Hf & He' & Hl); [by rewrite <- app_assoc|done|].
  exists b, e', aft. split; [done|]. split; [done|]. by rewrite Hl, <- app_assoc.
Qed.

(** The chunk of a run, found by the address of one of its bytes. *)
Lemma find_run h runs a r x : heap_runs h runs -> runs !! a = Some r -> 0 <= x < run_bytes r ->
  exists b e aft cr s, find_chunk [] (ring h) (ZEND_MM_ALIGNED_BASE (a + x) ZEND_MM_CHUNK_SIZE) = Some (b, e, aft) /\
    ring h = b ++ e :: aft /\ chunks_ok (e :: b ++ aft) (cached_chunks h) runs /\
    chunk_ok (ce_chunk e) cr /\ runs_of_chunk runs (ce_addr e) cr /\ cr !! s = Some r /\ 0 <= s < 512 /\
    a = ZEND_MM_PAGE_ADDR (ce_addr e) s /\
    ZEND_MM_ALIGNED_OFFSET (a + x) ZEND_MM_CHUNK_SIZE = s * ZEND_MM_PAGE_SIZE + x.
Proof.
  intros [Hok _ _ _ _] Hr Hx. destruct (ck_dom _ _ _ Hok a r Hr) as (e & s & He & Hs & ->).
  destruct (entry_runs _ _ _ e Hok He) as (cr & Hc & Hcr). rewrite Hcr in Hr by done.
  destruct (run_bounds _ _ Hc s r Hr) as (Hs1 & Hn & Hend).
  pose proof (chunks_addr _ _ _ e Hok He) as Hae.
  destruct (aligned_parts (ce_addr e) (s * ZEND_MM_PAGE_SIZE + x) Hae) as [Eb Eo].
  { unfold run_bytes in Hx. unfold ZEND_MM_CHUNK_SIZE, ZEND_MM_PAGE_SIZE in *. lia. }
  assert (ZEND_MM_PAGE_ADDR (ce_addr e) s + x = ce_addr e + (s * ZEND_MM_PAGE_SIZE + x)) as Eax by (unfold ZEND_MM_PAGE_ADDR; lia).
  rewrite Eax, Eb, Eo.
  destruct (find_chunk_ok (ring h) (ce_addr e) []) as (b & e' & aft & Hf & He' & Hl).
  { pose proof (ck_nodup _ _ _ Hok) as Hnd. by apply NoDup_app in Hnd as [Hnd _]. }
  { by apply list_elem_of_fmap_2. }
  cbn in Hl. assert (e' = e) as ->.
  { pose proof (ck_nodup _ _ _ Hok) as Hnd. apply NoDup_app in Hnd as [Hnd _].
    assert (e' ∈ ring h) as He2 by (rewrite <- Hl; apply elem_of_app; right; by left).
    apply list_elem_of_lookup in He as [i Hi], He2 as [j Hj].
    assert (i = j) as <-; [|congruence]. apply (NoDup_lookup _ _ _ (ce_addr e) Hnd); rewrite list_lookup_fmap.
    - by rewrite Hi.
    - rewrite Hj. cbn. by rewrite He'. }
  exists b, e, aft, cr, s. split; [done|]. split; [done|]. split; [|done].
  eapply chunks_ok_perm; [|exact Hok]. rewrite <- Hl. apply perm_middle.
Qed.

Lemma heap_mark_small_ok h runs a b : heap_runs h runs -> is_bin b -> runs !! a = Some (Large (bin_pages b)) ->
  exists h', heap_mark_small a b h = Some h' /\ heap_runs h' (<[a := Small b]> runs) /\
    forall cnt, free_counters (ring h) runs cnt -> cnt a = 0 -> free_counters (ring h') (<[a := Small b]> runs) cnt.
Proof.
  intros Hok Hb Hr. destruct (bin_facts b Hb) as (_ & _ & _ & Hpg & _).
  destruct (find_run h runs a _ 0 Hok Hr) as (bf & e & aft & cr & s & Hf & Hring & Hck & Hc & Hcr & Hs & Hs512 & -> & Ho).
  { unfold run_bytes, ZEND_MM_PAGE_SIZE. cbn [run_pages]. lia. }
  rewrite Z.add_0_r in Hf, Ho. unfold heap_mark_small. rewrite Hf, Ho, some_bind, Z.add_0_r, Z.div_mul by done.
  destruct (mark_small_run_ok (ce_chunk e) cr s b Hc Hb Hs) as (c' & -> & Hc' & Hm & Hout). rewrite some_bind.
  eexists. split; [reflexivity|].
  split; [apply (heap_runs_ring h runs); [done| |by rewrite Hring, !fmap_app]; eapply chunks_ok_perm; [symmetry; apply perm_middle|]; by eapply chunks_ok_insert|].
  cbn [ring cached_chunks set_ring].
  intros cnt Hcnt Hz. rewrite Hring in Hcnt. eapply counters_perm; [symmetry; apply perm_middle|].
  eapply (counters_perm _ _ _ _ (perm_middle _ _ _)) in Hcnt.
  intros e' s' b' [->|He']%elem_of_cons Hs' Hb'; cbn [ce_chunk ce_addr] in *.
  - apply lookup_insert_Some in Hb' as [[E [= <-]]|[Hne Hb']].
    + apply page_addr_inj in E as [_ <-]; [|by eapply chunks_addr; [exact Hck|left]..|done|done].
      by rewrite Hm, Hz, srun_ex_0.
    + rewrite Hout; [apply Hcnt; [by left|done..]|lia|]. intros Hin. apply Hne. f_equal. rewrite Hcr in Hb' by done.
      apply (run_unique _ _ Hc s _ s' _ s' Hs Hb'); [done|]. destruct (run_bounds _ _ Hc s' _ Hb') as (_ & ? & _). unfold in_run. lia.
  - apply lookup_insert_Some in Hb' as [[E _]|[Hne Hb']]; [|apply Hcnt; [by right|done..]]. exfalso.
    apply page_addr_inj in E as [E _]; [|by eapply chunks_addr; [exact Hck|(by left) || by right]..|done|done].
    pose proof (ck_nodup _ _ _ Hck) as Hnd. cbn in Hnd. apply NoDup_cons in Hnd as [Hno _]. apply Hno.
    rewrite E. apply elem_of_app. left. by apply list_elem_of_fmap_2.
Qed.

(** An empty chunk leaves the list. *)
Lemma chunks_ok_remove e l cached runs cr : chunks_ok (e :: l) cached runs -> chunk_ok (ce_chunk e) cr ->
  runs_of_chunk runs (ce_addr e) cr -> cr = ∅ -> chunks_ok l cached runs.
Proof.
  intros [H1 H2 H3 H4 H5] Hc Hr ->. split.
  - cbn in H1. by apply NoDup_cons in H1 as [_ H1].
  - intros a Ha. apply H2. cbn. by right.
  - intros e' He'. apply H3. by right.
  - intros a r Ha. destruct (H4 a r Ha) as (e' & s & He' & Hs & ->). apply elem_of_cons in He' as [->|He'].
    + rewrite Hr in Ha by done. by rewrite lookup_empty in Ha.
    + by exists e', s.
  - done.
Qed.

Lemma chunks_ok_cached l cached e runs : chunks_ok l cached runs -> chunk_ok (ce_chunk e) ∅ -> chunk_addr (ce_addr e) ->
  ce_addr e ∉ ce_addr <$> l -> ce_addr e ∉ ce_addr <$> cached -> chunks_ok l (e :: cached) runs.
Proof.
  intros [H1 H2 H3 H4 H5] Hc Ha Hl Hca. apply NoDup_app in H1 as (Hn1 & Hd & Hn2). split; try done.
  - apply NoDup_app. split; [done|]. split; [|by apply NoDup_cons]. cbn. intros x Hx [->|Hx']%elem_of_cons; [done|].
    by apply (Hd x).
  - intros x. cbn. rewrite elem_of_app, elem_of_cons. intros [Hx|[->|Hx]]; [|done|]; apply H2, elem_of_app; [by left|by right].
  - intros e' [->|He']%elem_of_cons; [done|by apply H5].
Qed.

Lemma chunks_ok_drop_cached l e cached runs : chunks_ok l (e :: cached) runs -> chunks_ok l cached runs.
Proof.
  intros [H1 H2 H3 H4 H5]. apply NoDup_app in H1 as (Hn1 & Hd & Hn2). cbn in Hn2. apply NoDup_cons in Hn2 as [_ Hn2].
  split; try done.
  - apply NoDup_app. split; [done|]. split; [|done]. intros x Hx Hx'. apply (Hd x Hx). by right.
  - intros x Hx. apply H2. rewrite elem_of_app in Hx |- *. destruct Hx; [by left|]. right. by right.
  - intros e' He'. apply H5. by right.
Qed.

Lemma delete_chunk_chunks b e aft h runs cr : chunks_ok (e :: b ++ aft) (cached_chunks h) runs ->
  chunk_ok (ce_chunk e) cr -> runs_of_chunk runs (ce_addr e) cr -> cr = ∅ ->
  let h' := zend_mm_delete_chunk b e aft h in chunks_ok (ring h') (cached_chunks h') runs.
Proof.
  intros Hok Hc Hr Hcr h'. subst h'. pose proof (chunks_ok_remove e _ _ _ cr Hok Hc Hr Hcr) as Hrest. subst cr.
  pose proof (chunks_addr _ _ _ e Hok ltac:(by left)) as Ha.
  assert (ce_addr e ∉ ce_addr <$> b ++ aft /\ ce_addr e ∉ ce_addr <$> cached_chunks h) as [Hn1 Hn2].
  { pose proof (ck_nodup _ _ _ Hok) as Hnd. cbn in Hnd. apply NoDup_cons in Hnd as [Hno _]. rewrite elem_of_app in Hno. tauto. }
  unfold zend_mm_delete_chunk. cbn [set_ring set_counts chunks_count cached_chunks_count last_chunks_delete_boundary
    last_chunks_delete_count set_real cached_chunks ring real_size real_peak].
  destruct (_ || _); [by apply chunks_ok_cached|].
  destruct (cached_chunks h) as [|e' cl] eqn:E.
  - destruct (negb _); cbn [ring cached_chunks set_deletes set_real set_counts set_ring]; by rewrite E.
  - destruct (_ <? _); cbn [ring cached_chunks set_cached set_real set_counts set_ring]; [by rewrite E|].
    apply chunks_ok_cached; try done; [by eapply chunks_ok_drop_cached|]. intros Hin. apply Hn2. by right.
Qed.

(** The chunk stays mapped and is cached, or one chunk less is mapped and counted. *)
Lemma delete_chunk_space b e aft h : let h' := zend_mm_delete_chunk b e aft h in
  huge_maps h' = huge_maps h /\
  (chunk_addrs h' ≡ₚ ce_addr e :: (ce_addr <$> b ++ aft) ++ (ce_addr <$> cached_chunks h) /\ real_size h' = real_size h \/
   exists a, a :: chunk_addrs h' ≡ₚ ce_addr e :: (ce_addr <$> b ++ aft) ++ (ce_addr <$> cached_chunks h) /\
     real_size h' = u64 (real_size h - ZEND_MM_CHUNK_SIZE)).
Proof.
  cbv zeta. unfold zend_mm_delete_chunk, chunk_addrs. cbn [set_ring set_counts chunks_count cached_chunks_count last_chunks_delete_boundary
    last_chunks_delete_count set_real cached_chunks ring real_size real_peak].
  destruct (_ || _).
  { split; [done|]. left. split; [|done]. cbn. by rewrite <- Permutation_middle. }
  destruct (cached_chunks h) as [|e' cl] eqn:E.
  - destruct (negb _); (split; [done|]); right; exists (ce_addr e); cbn [ring cached_chunks set_deletes set_real set_counts set_ring real_size]; by rewrite E.
  - destruct (_ <? _); (split; [done|]); right; cbn [ring cached_chunks set_cached set_real set_counts set_ring real_size].
    + exists (ce_addr e). by rewrite E.
    + exists (ce_addr e'). split; [|done]. cbn. rewrite <- !Permutation_middle. apply perm_swap.
Qed.

Lemma delete_chunk_count b e aft h : cached_chunks_count h = llen (cached_chunks h) ->
  cached_chunks_count (zend_mm_delete_chunk b e aft h) = llen (cached_chunks (zend_mm_delete_chunk b e aft h)).
Proof.
  unfold zend_mm_delete_chunk, llen. cbn. destruct (_ || _); cbn; [lia|]. destruct (cached_chunks h) eqn:E; cbn.
  - destruct (negb _); cbn; by rewrite E.
  - destruct (_ <? _); cbn; by rewrite ?E.
Qed.

Lemma delete_chunk_ok h0 b e aft h runs0 runs cr : heap_runs h0 runs0 -> chunks_ok (e :: b ++ aft) (cached_chunks h) runs ->
  chunk_ok (ce_chunk e) cr -> runs_of_chunk runs (ce_addr e) cr -> cr = ∅ ->
  ce_addr e :: (ce_addr <$> b ++ aft) ≡ₚ ce_addr <$> ring h0 -> cached_chunks h = cached_chunks h0 ->
  huge_maps h = huge_maps h0 -> real_size h = real_size h0 -> cached_chunks_count h = cached_chunks_count h0 ->
  heap_runs (zend_mm_delete_chunk b e aft h) runs.
Proof.
  intros [_ Ha Hm Hrr Hrg Hcc] Hok Hc Hr Hcr Hp Ec Em Er En. rewrite <- Ec, <- En in Hcc. apply (delete_chunk_count b e aft) in Hcc. pose proof (delete_chunk_chunks b e aft h runs cr Hok Hc Hr Hcr) as Hck.
  destruct (delete_chunk_space b e aft h) as [Em' Hsp]. set (h' := zend_mm_delete_chunk b e aft h) in *. clearbody h'.
  assert (ce_addr e :: (ce_addr <$> b ++ aft) ++ (ce_addr <$> cached_chunks h) ≡ₚ chunk_addrs h0) as Hq.
  { unfold chunk_addrs. by rewrite <- Hp, Ec. }
  split; [done| |congruence| |destruct Hsp as [[_ ->]|(? & _ & ->)]; [by rewrite Er|apply u64_range]|done].
  - intros a x k Hin. apply Ha. rewrite <- Hq. destruct Hsp as [[<- _]|(c & <- & _)]; [done|by right].
  - rewrite <- Hrr. unfold real_rest, llen. rewrite <- Hq, <- Er. destruct Hsp as [[-> ->]|(c & <- & ->)]; [done|].
    cbn [length]. destruct (u64_split (real_size h - ZEND_MM_CHUNK_SIZE)) as [q Eq]. apply (u64_congr _ _ q). rewrite Eq. lia.
Qed.

Lemma delete_chunk_ring b e aft h : ring (zend_mm_delete_chunk b e aft h) = b ++ aft.
Proof.
  unfold zend_mm_delete_chunk. cbn. destruct (_ || _); [done|]. destruct (cached_chunks h); [by destruct (negb _)|].
  by destruct (_ <? _).
Qed.

(** A chunk whose counter says that all pages are free has no runs. *)
Lemma all_free_empty c cr : chunk_ok c cr -> free_pages c = 511 -> cr = ∅.
Proof.
  intros Hc Hfree. apply map_empty. intros s. destruct (cr !! s) as [r|] eqn:E; [|done]. exfalso.
  destruct (run_bounds c cr Hc s r E) as (Hs & Hn & He). rewrite (ok_free c cr Hc) in Hfree.
  assert (page_set (free_map c) s = true) as Hset by (eapply run_set; [done|done|unfold in_run; lia]).
  unfold clear_pages, llen in Hfree. replace 512%nat with (1 + (Z.to_nat (s - 1) + (1 + Z.to_nat (511 - s))))%nat in Hfree by lia.
  rewrite !zrange_app, !filter_app, !length_app in Hfree.
  rewrite (filter_false _ (zrange 0 1)) in Hfree by (intros p Hp%elem_of_zrange; replace p with 0 by lia; by rewrite (ok_header c cr Hc)).
  rewrite (filter_false _ (zrange (0 + Z.of_nat 1 + Z.of_nat (Z.to_nat (s - 1))) 1)) in Hfree
    by (intros p Hp%elem_of_zrange; replace p with s by lia; by rewrite Hset).
  pose proof (length_filter (fun p => page_set (free_map c) p = false) (zrange (0 + Z.of_nat 1) (Z.to_nat (s - 1)))) as L1.
  pose proof (length_filter (fun p => page_set (free_map c) p = false) (zrange (0 + Z.of_nat 1 + Z.of_nat (Z.to_nat (s - 1)) + Z.of_nat 1) (Z.to_nat (511 - s)))) as L2.
  rewrite length_zrange in L1, L2. cbn [length] in Hfree. lia.
Qed.

(** Releasing by address. *)
Lemma heap_free_large_ok h runs a n : heap_runs h runs -> runs !! a = Some (Large n) ->
  exists h', heap_free a h = Some (HeapFreed h' n) /\ heap_runs h' (delete a runs) /\
    forall cnt, free_counters (ring h) runs cnt -> free_counters (ring h') (delete a runs) cnt.
Proof.
  intros Hok Hr.
  destruct (find_run h runs a _ 0 Hok Hr) as (b & e & aft & cr & s & Hf & Hring & Hck & Hc & Hcr & Hs & Hs512 & -> & Ho).
  { destruct Hok as [Hok _ _ _ _]. destruct (ck_dom _ _ _ Hok a _ Hr) as (e & s & He & Hs & ->). destruct (entry_runs _ _ _ e Hok He) as (cr & Hc & Hcr).
    rewrite Hcr in Hr by done. destruct (run_bounds _ _ Hc s _ Hr) as (_ & Hn & _). unfold run_bytes, ZEND_MM_PAGE_SIZE. lia. }
  rewrite Z.add_0_r in Hf, Ho. unfold heap_free. rewrite Hf, Ho, some_bind, Z.add_0_r.
  destruct (free_large_ok (ce_chunk e) cr s n Hc Hs) as (c' & Ef & Hc' & _). rewrite Ef, some_bind.
  apply free_in_chunk_map in Ef. rewrite Z.div_mul in Ef by done.
  set (runs' := delete (ZEND_MM_PAGE_ADDR (ce_addr e) s) runs).
  assert (chunks_ok (mk_entry (ce_addr e) (ce_num e) c' :: b ++ aft) (cached_chunks h) runs') as Hck'.
  { eapply chunks_ok_replace; [done|done|by apply runs_of_chunk_delete|].
    intros x Hx. apply lookup_delete_ne. intros <-. by eapply Hx. }
  assert (forall cnt, free_counters (ring h) runs cnt -> free_counters (mk_entry (ce_addr e) (ce_num e) c' :: b ++ aft) runs' cnt) as Hcnt.
  { intros cnt Hcnt. rewrite Hring in Hcnt. eapply (counters_perm _ _ _ _ (perm_middle _ _ _)) in Hcnt.
    apply counters_replace; [eapply counters_mono; [|exact Hcnt]; by intros x b' [_ ?]%lookup_delete_Some|].
    intros s' b' Hs' [Hne _]%lookup_delete_Some. rewrite Ef. apply lget_lset_ne; [lia|lia|]. intros ->. done. }
  destruct (negb _ && _) eqn:E.
  - eexists. split; [reflexivity|]. apply andb_true_iff in E as [_ E%Z.eqb_eq].
    change (ZEND_MM_PAGES - ZEND_MM_FIRST_PAGE) with 511 in E. split.
    + eapply (delete_chunk_ok h); [exact Hok|exact Hck'|exact Hc'|by apply runs_of_chunk_delete|by eapply all_free_empty| |done..].
      rewrite Hring, perm_middle. done.
    + intros cnt Hc0. rewrite delete_chunk_ring. intros e' s' b' He'. apply (Hcnt cnt Hc0). by right.
  - eexists. split; [reflexivity|]. split.
    + apply (heap_runs_ring h runs); [done| |by rewrite Hring, !fmap_app]. eapply chunks_ok_perm; [symmetry; apply perm_middle|done].
    + cbn [ring cached_chunks set_ring]. intros cnt Hc0. eapply counters_perm; [symmetry; apply perm_middle|]. by apply Hcnt.
Qed.

Lemma heap_free_small_ok h runs a b x : heap_runs h runs -> runs !! a = Some (Small b) -> 0 <= x < run_bytes (Small b) ->
  heap_free (a + x) h = Some (HeapSlot b).
Proof.
  intros Hok Hr Hx.
  destruct (find_run h runs a _ x Hok Hr Hx) as (bf & e & aft & cr & s & Hf & Hring & Hck & Hc & Hcr & Hs & Hs512 & -> & Ho).
  unfold heap_free. rewrite Hf, Ho, some_bind.
  rewrite (free_small_address (ce_chunk e) cr s b x Hc Hs Hx). done.
Qed.

(** * The page source *)

(** Between two calls all counters are zero. *)
Definition heap_at_rest (h : chunk_heap) (runs : gmap Z run) : Prop :=
  heap_runs h runs /\ free_counters (ring h) runs (fun _ => 0).

#[export] Instance chunk_source : page_source chunk_heap := {| mark_small_pages := heap_mark_small |}.
#[export] Instance chunk_spec : page_spec chunk_heap := {| page_runs := heap_at_rest |}.

#[export] Instance chunk_source_ok : page_source_ok chunk_heap.
Proof.
  clear below_average. split.
  - intros h runs a r [[Hok _ _ _ _ _] _] Hr. destruct (ck_dom _ _ _ Hok a r Hr) as (e & s & He & Hs & ->).
    destruct (entry_runs _ _ _ e Hok He) as (cr & Hc & Hcr). rewrite Hcr in Hr by done.
    destruct (run_bounds _ _ Hc s r Hr) as (Hs1 & Hn & Hend). destruct (chunks_addr _ _ _ e Hok He) as (Ha & Ha2 & Ha3).
    unfold run_bytes, ZEND_MM_PAGE_ADDR, ZEND_MM_PAGE_SIZE, ZEND_MM_CHUNK_SIZE in *. split; [lia|]. split; [zlia|lia].
  - intros h runs a1 r1 a2 r2 [[Hok _ _ _ _ _] _] Hr1 Hr2 Hne.
    destruct (ck_dom _ _ _ Hok a1 r1 Hr1) as (e1 & s1 & He1 & Hs1 & ->).
    destruct (ck_dom _ _ _ Hok a2 r2 Hr2) as (e2 & s2 & He2 & Hs2 & ->).
    destruct (entry_runs _ _ _ e1 Hok He1) as (cr1 & Hc1 & Hcr1). rewrite Hcr1 in Hr1 by done.
    destruct (entry_runs _ _ _ e2 Hok He2) as (cr2 & Hc2 & Hcr2). rewrite Hcr2 in Hr2 by done.
    destruct (run_bounds _ _ Hc1 s1 r1 Hr1) as (? & ? & ?). destruct (run_bounds _ _ Hc2 s2 r2 Hr2) as (? & ? & ?).
    destruct (chunks_addr _ _ _ e1 Hok He1) as (_ & Ha1 & _). destruct (chunks_addr _ _ _ e2 Hok He2) as (_ & Ha2 & _).
    unfold run_bytes, ZEND_MM_PAGE_ADDR, ZEND_MM_PAGE_SIZE, ZEND_MM_CHUNK_SIZE in *.
    destruct (decide (ce_addr e1 = ce_addr e2)) as [E|E]; [|zlia]. rewrite E in Hne, Hcr1 |- *.
    assert (cr1 !! s2 = Some r2) as Hr2' by (rewrite <- Hcr1, Hcr2 by done; done).
    destruct (decide (s1 + run_pages r1 <= s2)); [left; lia|]. destruct (decide (s2 + run_pages r2 <= s1)); [right; lia|].
    exfalso. apply Hne. f_equal. f_equal.
    apply (run_unique _ _ Hc1 s1 r1 s2 r2 (Z.max s1 s2)); [done|done|unfold in_run; lia|unfold in_run; lia].
  - intros h runs a r c k [[Hok Hap _ _ _ _] _] Hr Hc. destruct (ck_dom _ _ _ Hok a r Hr) as (e & s & He & Hs & ->).
    destruct (entry_runs _ _ _ e Hok He) as (cr & Hcr & Hr'). rewrite Hr' in Hr by done. destruct (run_bounds _ _ Hcr s r Hr) as (? & ? & ?).
    assert (ce_addr e ∈ chunk_addrs h) as Ha by (apply elem_of_app; left; by apply list_elem_of_fmap_2).
    unfold run_bytes, ZEND_MM_PAGE_ADDR. destruct (Hap _ c k Ha Hc); unfold ZEND_MM_CHUNK_SIZE, ZEND_MM_PAGE_SIZE in *; lia.
  - intros h runs a b [Hok Hcnt] Hb Hr. destruct (heap_mark_small_ok h runs a b Hok Hb Hr) as (h' & E & Hok' & Hcnt').
    exists h'. split; [done|]. split; [done|]. by apply Hcnt'.
Defined.
End Heap.
