(* ===== verification/MmGc.v ===== *)
(** The collector of the memory manager ([zend_mm_gc] in src/Zend/zend_alloc.c):
    it counts the free slots of every small run in the page information of the
    run, takes the slots of runs that are free as a whole out of the free lists,
    and gives the pages of these runs and the empty chunks back. *)

From stdpp Require Import base numbers list gmap.
From S2P Require Import Prelude.
From S2P Require Import MmBitset.
From S2P Require Import MmBins.
From S2P Require Import MmChunk.
From S2P Require Import MmRuns.
From S2P Require Import MmSlots.
From S2P Require Import MmHeap.

(** * The collector *)

(** The information word of the first page of the small run around [p]: the
    chunk in the list, the number of that page, the word. *)
Definition small_run_of (p : Z) (h : chunk_heap) : option (list chunk_entry * chunk_entry * list chunk_entry * Z * Z) :=
  f ← find_chunk [] (ring h) (ZEND_MM_ALIGNED_BASE p ZEND_MM_CHUNK_SIZE);
  let '(before, e, after) := f in
  let page_num := ZEND_MM_ALIGNED_OFFSET p ZEND_MM_CHUNK_SIZE / ZEND_MM_PAGE_SIZE in
  info ← lload (chunk_map (ce_chunk e)) page_num;
  if is_set info ZEND_MM_IS_LRUN then
    let page_num := page_num - ZEND_MM_NRUN_OFFSET info in
    info ← lload (chunk_map (ce_chunk e)) page_num;
    Some (before, e, after, page_num, info)
  else Some (before, e, after, page_num, info).

Definition set_chunk_map (c : zend_mm_chunk) (m : list Z) : zend_mm_chunk := mk_chunk (free_pages c) (free_tail c) (free_map c) m.

(** The first loop over a free list: [free_counter] of the run of each slot is
    incremented; the flag is [has_free_pages]. *)
Fixpoint count_free (n : nat) (i p : Z) (has_free_pages : bool) (s : mm chunk_heap) : option (outcome bool * mm chunk_heap) :=
  if p =? 0 then Some (Ret has_free_pages, s)
  else
    match n with
    | O => None
    | S n =>
        r ← small_run_of p (pages s);
        let '(before, e, after, page_num, info) := r in
        let free_counter := ZEND_MM_SRUN_FREE_COUNTER info + 1 in
        let has_free_pages := if free_counter =? bin_elements i then true else has_free_pages in
        map ← lstore (chunk_map (ce_chunk e)) page_num (ZEND_MM_SRUN_EX i free_counter);
        let e := mk_entry (ce_addr e) (ce_num e) (set_chunk_map (ce_chunk e) map) in
        let s := mk_mm (hp s) (mem s) (set_ring (before ++ e :: after) (pages s)) in
        match zend_mm_get_next_free_slot (hp s) i p (mem s) with
        | None => Some (Panic, s)
        | Some p => count_free n i p has_free_pages s
        end
    end.

(** The second loop: the slots of runs that are free as a whole leave the list.
    [q] is the slot before [p] in the list, if [p] is not its head. *)
Fixpoint remove_free (n : nat) (i : Z) (q : option Z) (p : Z) (s : mm chunk_heap) : option (outcome unit * mm chunk_heap) :=
  if p =? 0 then Some (Ret (), s)
  else
    match n with
    | O => None
    | S n =>
        r ← small_run_of p (pages s);
        let '(_, _, _, _, info) := r in
        match zend_mm_get_next_free_slot (hp s) i p (mem s) with
        | None => Some (Panic, s)
        | Some next =>
            if ZEND_MM_SRUN_FREE_COUNTER info =? bin_elements i then
              let s := match q with
                | None => mk_mm (set_free_slot (hp s) i next) (mem s) (pages s)
                | Some q => mk_mm (hp s) (zend_mm_set_next_free_slot (hp s) i q next (mem s)) (pages s)
                end in
              remove_free n i q next s
            else remove_free n i (Some p) next s
        end
    end.

(** One bin; [n] bounds the length of its free list. *)
Definition gc_bin (n : nat) (i : Z) (s : mm chunk_heap) : option (outcome unit * mm chunk_heap) :=
  p ← lload (free_slot (hp s)) i;
  r ← count_free n i p false s;
  match r with
  | (Ret true, s) => remove_free n i None p s
  | (Ret false, s) => Some (Ret (), s)
  | (_, s) => Some (Panic, s)
  end.

Fixpoint gc_bins (n : nat) (k : nat) (i : Z) (s : mm chunk_heap) : option (outcome unit * mm chunk_heap) :=
  match k with
  | O => Some (Ret (), s)
  | S k =>
      r ← gc_bin n i s;
      match r with
      | (Ret _, s) => gc_bins n k (i + 1) s
      | r => Some r
      end
  end.

(** The loop over the pages of a chunk: [while (i < chunk->free_tail)]. *)
Fixpoint sweep_pages (n : nat) (c : zend_mm_chunk) (i collected : Z) : option (zend_mm_chunk * Z) :=
  if i <? free_tail c then
    match n with
    | O => None
    | S n =>
        set ← zend_mm_bitset_is_set (free_map c) i;
        if (set : bool) then
          info ← lload (chunk_map c) i;
          if is_set info ZEND_MM_IS_SRUN then
            let bin_num := ZEND_MM_SRUN_BIN_NUM info in
            let pages_count := bin_pages bin_num in
            if ZEND_MM_SRUN_FREE_COUNTER info =? bin_elements bin_num then
              c ← zend_mm_free_pages c i pages_count;
              sweep_pages n c (i + bin_pages bin_num) (collected + pages_count)
            else
              map ← lstore (chunk_map c) i (ZEND_MM_SRUN bin_num);
              sweep_pages n (set_chunk_map c map) (i + bin_pages bin_num) collected
          else sweep_pages n c (i + ZEND_MM_LRUN_PAGES info) collected
        else sweep_pages n c (i + 1) collected
    end
  else Some (c, collected).

Section Gc.
Context (below_average : Z -> bool).

(** The loop over the chunks, the main chunk first. *)
Fixpoint sweep_ring (before l : list chunk_entry) (h : chunk_heap) (collected : Z) : option (chunk_heap * Z) :=
  match l with
  | [] => Some (set_ring before h, collected)
  | e :: l =>
      r ← sweep_pages 512 (ce_chunk e) ZEND_MM_FIRST_PAGE collected;
      let '(c, collected) := r in
      let e := mk_entry (ce_addr e) (ce_num e) c in
      if (free_pages c =? ZEND_MM_PAGES - ZEND_MM_FIRST_PAGE) && negb (bool_decide (before = [])) then
        sweep_ring before l (zend_mm_delete_chunk below_average before e l h) collected
      else sweep_ring (before ++ [e]) l h collected
  end.

(** A bound of the length of a free list: the 8-byte words of all chunks. *)
Definition gc_fuel (h : chunk_heap) : nat := Z.to_nat (llen (ring h) * 262144).

(** The number of collected bytes. *)
Definition zend_mm_gc (s : mm chunk_heap) : option (outcome Z * mm chunk_heap) :=
  r ← gc_bins (gc_fuel (pages s)) 30 0 s;
  match r with
  | (Ret _, s) =>
      r ← sweep_ring [] (ring (pages s)) (pages s) 0;
      Some (Ret (r.2 * ZEND_MM_PAGE_SIZE), mk_mm (hp s) (mem s) r.1)
  | (_, s) => Some (Panic, s)
  end.
End Gc.

(** * Page information of counted runs *)

Definition counter_check (x : Z) : bool :=
  let b := x / 1024 in let k := x mod 1024 in
  negb (is_set (ZEND_MM_SRUN_EX b k) ZEND_MM_IS_LRUN) && (ZEND_MM_SRUN_FREE_COUNTER (ZEND_MM_SRUN_EX b k) =? k).

Lemma counter_facts b k : is_bin b -> 0 <= k < 1024 ->
  is_set (ZEND_MM_SRUN_EX b k) ZEND_MM_IS_LRUN = false /\ ZEND_MM_SRUN_FREE_COUNTER (ZEND_MM_SRUN_EX b k) = k.
Proof.
  unfold is_bin, ZEND_MM_BINS. intros Hb Hk.
  assert (check_range (Z.to_nat (30 * 1024)) counter_check = true) as H by (vm_compute; reflexivity).
  apply (check_range_sound _ _ (b * 1024 + k)) in H; [|lia]. unfold counter_check in H.
  assert ((b * 1024 + k) / 1024 = b) as E1 by zlia. assert ((b * 1024 + k) mod 1024 = k) as E2 by zlia.
  rewrite E1, E2 in H. apply andb_true_iff in H as [H ?]. apply negb_true_iff in H. split; [done|lia].
Qed.

Lemma set_counter_ok c cr s b k : chunk_ok c cr -> cr !! s = Some (Small b) -> 0 <= k < 1024 ->
  chunk_ok (set_chunk_map c (lset (chunk_map c) s (ZEND_MM_SRUN_EX b k))) cr.
Proof.
  intros Hc Hs Hk. destruct (run_bounds c cr Hc s _ Hs) as (Hs1 & Hn & He). pose proof (run_unique c cr Hc) as Hu.
  destruct Hc as [H1 H2 H3 H4 H5 H6 H7 H8]. split; cbn; try done.
  - unfold lset. by rewrite length_insert.
  - intros s' r Hr. destruct (decide (s' = s)) as [->|Hne].
    + rewrite Hs in Hr. injection Hr as <-. destruct (H5 s _ Hs) as (Hb & _ & Hi). split; [done|]. split.
      * exists k. split; [done|]. apply lget_lset_eq. unfold llen. lia.
      * intros i Hi'. rewrite lget_lset_ne by lia. by apply Hi.
    + destruct (proj1 H4 s' r Hr) as (? & ? & ?). apply run_info_lset; [lia..| |by apply H5].
      intros Hin. apply Hne. apply (Hu s' r s (Small b) s); [done|done|done|]. unfold in_run. lia.
Qed.

Section Frame.
Context {fr : heap_frame}.

(** The run around an address, as the collector finds it. *)
Lemma small_run_of_ok h runs cnt a b x : heap_runs h runs -> free_counters (ring h) runs cnt ->
  runs !! a = Some (Small b) -> 0 <= x < run_bytes (Small b) -> 0 <= cnt a < 1024 ->
  exists bf e aft cr s, small_run_of (a + x) h = Some (bf, e, aft, s, ZEND_MM_SRUN_EX b (cnt a)) /\
    ring h = bf ++ e :: aft /\ chunks_ok (e :: bf ++ aft) (cached_chunks h) runs /\
    chunk_ok (ce_chunk e) cr /\ runs_of_chunk runs (ce_addr e) cr /\ cr !! s = Some (Small b) /\ 1 <= s < 512 /\
    a = ZEND_MM_PAGE_ADDR (ce_addr e) s.
Proof.
  intros Hok Hcnt Hr Hx Hk.
  destruct (find_run h runs a _ x Hok Hr Hx) as (bf & e & aft & cr & s & Hf & Hring & Hck & Hc & Hcr & Hs & Hs512 & -> & Ho).
  destruct (run_bounds _ _ Hc s _ Hs) as (Hs1 & Hn & He). cbn in Hn, He. destruct (ok_run_info _ _ Hc s _ Hs) as (Hb & _ & Hi).
  exists bf, e, aft, cr, s. split; [|do 5 (split; [done|]); split; [lia|done]].
  assert (lget 0 (chunk_map (ce_chunk e)) s = ZEND_MM_SRUN_EX b (cnt (ZEND_MM_PAGE_ADDR (ce_addr e) s))) as Hhead.
  { apply (Hcnt e s b); [rewrite Hring; apply elem_of_app; right; by left|done|done]. }
  set (k := cnt (ZEND_MM_PAGE_ADDR (ce_addr e) s)) in *.
  unfold run_bytes, ZEND_MM_PAGE_SIZE in Hx. cbn [run_pages] in Hx.
  assert ((s * ZEND_MM_PAGE_SIZE + x) / ZEND_MM_PAGE_SIZE = s + x / ZEND_MM_PAGE_SIZE) as Ep by (unfold ZEND_MM_PAGE_SIZE; zlia).
  assert (0 <= x / ZEND_MM_PAGE_SIZE < bin_pages b) as Hp by (unfold ZEND_MM_PAGE_SIZE; zlia).
  unfold small_run_of. rewrite Hf, Ho, some_bind, Ep. cbv zeta.
  rewrite (lload_512 (chunk_map (ce_chunk e))) by (apply (ok_info _ _ Hc) || lia). rewrite some_bind.
  destruct (decide (x / ZEND_MM_PAGE_SIZE = 0)) as [E|E].
  - rewrite E, Z.add_0_r, Hhead. by rewrite (proj1 (counter_facts b k Hb Hk)).
  - rewrite Hi by lia. destruct (bin_facts b Hb) as (_ & _ & _ & Hpg & _).
    destruct (nrun_facts b (x / ZEND_MM_PAGE_SIZE) Hb ltac:(lia)) as (_ & -> & _ & ->).
    replace (s + x / ZEND_MM_PAGE_SIZE - x / ZEND_MM_PAGE_SIZE) with s by lia.
    rewrite (lload_512 (chunk_map (ce_chunk e))) by (apply (ok_info _ _ Hc) || lia). rewrite some_bind. by rewrite Hhead.
Qed.

(** Pages in use, without the headers of the chunks. *)
Definition used (l : list chunk_entry) : Z := foldr (fun e n => 511 - free_pages (ce_chunk e) + n) 0 l.

Lemma used_app l1 l2 : used (l1 ++ l2) = used l1 + used l2.
Proof. induction l1 as [|e l1 IH]; cbn [app]; [done|]. unfold used in *. cbn [foldr]. rewrite IH. lia. Qed.

(** The counter of one run is set. *)
Lemma counter_step h runs cnt bf e aft cr s b k : heap_runs h runs -> ring h = bf ++ e :: aft -> chunks_ok (e :: bf ++ aft) (cached_chunks h) runs ->
  free_counters (ring h) runs cnt -> chunk_ok (ce_chunk e) cr -> runs_of_chunk runs (ce_addr e) cr ->
  cr !! s = Some (Small b) -> 1 <= s < 512 -> 0 <= k < 1024 ->
  exists map, lstore (chunk_map (ce_chunk e)) s (ZEND_MM_SRUN_EX b k) = Some map /\
    let h' := set_ring (bf ++ mk_entry (ce_addr e) (ce_num e) (set_chunk_map (ce_chunk e) map) :: aft) h in
    heap_runs h' runs /\ free_counters (ring h') runs (fset cnt (ZEND_MM_PAGE_ADDR (ce_addr e) s) k) /\
    used (ring h') = used (ring h).
Proof.
  intros Hh Hring Hck Hcnt Hc Hcr Hs Hs1 Hk.
  destruct (lstore_512 (chunk_map (ce_chunk e)) s (ZEND_MM_SRUN_EX b k) (ok_info _ _ Hc) ltac:(lia)) as (E & Hl & Hg).
  eexists. split; [exact E|]. cbv zeta. pose proof (set_counter_ok _ _ s b k Hc Hs Hk) as Hc'. split.
  - apply (heap_runs_ring h runs); [done| |by rewrite Hring, !fmap_app]. eapply chunks_ok_perm; [symmetry; apply perm_middle|].
    eapply chunks_ok_replace; done.
  - split; last first.
    { cbn [ring set_ring]. rewrite Hring, !used_app. unfold used. cbn. lia. }
    cbn [ring set_ring]. eapply counters_perm; [symmetry; apply perm_middle|].
    rewrite Hring in Hcnt. eapply (counters_perm _ _ _ _ (perm_middle _ _ _)) in Hcnt.
    assert (forall e' s' b', e' ∈ e :: bf ++ aft -> 0 <= s' < 512 -> runs !! ZEND_MM_PAGE_ADDR (ce_addr e') s' = Some (Small b') ->
      ZEND_MM_PAGE_ADDR (ce_addr e') s' = ZEND_MM_PAGE_ADDR (ce_addr e) s -> ce_addr e' = ce_addr e /\ s' = s) as Hinj.
    { intros e' s' b' He' Hs' _ E'. apply page_addr_inj in E'; [done|..|done|lia];
        (eapply chunks_addr; [exact Hck|]; done || by left). }
    intros e' s' b' [->|He']%elem_of_cons Hs' Hb'; cbn [ce_chunk ce_addr set_chunk_map chunk_map] in *; unfold fset; match goal with |- context [?x =? ?y] => destruct (Z.eqb_spec x y) as [Ee|Ee] end.
    + destruct (Hinj e s' b' ltac:(by left) Hs' Hb' Ee) as [_ ->]. rewrite Hcr in Hb' by done. rewrite Hs in Hb'. injection Hb' as <-. done.
    + rewrite lget_lset_ne; [apply Hcnt; [by left|done..]|lia|lia|]. intros ->. done.
    + destruct (Hinj e' s' b' ltac:(by right) Hs' Hb' Ee) as [Ea _].
      pose proof (ck_nodup _ _ _ Hck) as Hnd. cbn in Hnd. apply NoDup_cons in Hnd as [Hno _]. destruct Hno.
      rewrite <- Ea. apply elem_of_app. left. by apply list_elem_of_fmap_2.
    + apply Hcnt; [by right|done..].
Qed.

(** * Counting *)

Definition in_block (b base a : Z) : Prop := base <= a < base + run_bytes (Small b).
#[global] Instance in_block_dec b base a : Decision (in_block b base a).
Proof. unfold in_block. apply _. Defined.

Definition count_in (b base : Z) (l : list Z) : Z := llen (filter (in_block b base) l).

Lemma count_in_cons b base a l : count_in b base (a :: l) = (if decide (in_block b base a) then 1 else 0) + count_in b base l.
Proof. unfold count_in, llen. rewrite filter_cons. case_decide; cbn [length]; lia. Qed.
Lemma count_in_nonneg b base l : 0 <= count_in b base l.
Proof. unfold count_in, llen. lia. Qed.

Lemma slot_list_length b p k : length (slot_list b p k) = k.
Proof. unfold slot_list. by rewrite length_fmap, length_zrange. Qed.

(** What is known of the heap when the collector starts. *)
Section Collect.
Context (s0 : mm chunk_heap) (runs : gmap Z run) (free : Z -> list Z) (live : gmap Z Z).
Context (Hok : mm_ok s0 runs free live).

Lemma slot_base b a : slot_at runs b a -> exists base, runs !! base = Some (Small b) /\ in_block b base a /\
  0 <= a - base < run_bytes (Small b) /\ a ∈ slot_list b base (Z.to_nat (bin_elements b)) /\
  forall base', runs !! base' = Some (Small b) -> in_block b base' a -> base' = base.
Proof.
  intros (base & j & Hr & Hb & H1 & Hj & ->). destruct (slot_in_run runs b base j Hr Hb H1 Hj).
  destruct (slot_size b Hb H1) as (Hs & _ & He). exists base. split; [done|]. split; [unfold in_block; lia|]. split; [lia|]. split.
  - apply elem_slot_list. exists j. split; [lia|done].
  - intros base' Hr' Hin. destruct (decide (base' = base)) as [|Hne]; [done|]. unfold in_block in Hin.
    destruct (page_runs_disjoint _ _ base' _ base _ (mm_pages _ _ _ _ Hok) Hr' Hr Hne); lia.
Qed.

Lemma slot_elem b base a : is_bin b -> 1 <= b -> runs !! base = Some (Small b) ->
  a ∈ slot_list b base (Z.to_nat (bin_elements b)) -> slot_at runs b a.
Proof.
  intros Hb H1 Hr (j & Hj & ->)%elem_slot_list. destruct (slot_size b Hb H1) as (_ & _ & He).
  exists base, j. split; [done|]. split; [done|]. split; [done|]. split; [lia|done].
Qed.

Lemma slot_word64 b a : slot_at runs b a -> word64 a.
Proof.
  intros Ha. destruct (slot_facts _ _ b a (mm_pages _ _ _ _ Hok) Ha) as (_ & _ & ? & _ & ? & ? & _). unfold word64. lia.
Qed.

(** The slots of a list that lie in one run are among the slots of this run. *)
Lemma count_in_bound b base l : is_bin b -> 1 <= b -> runs !! base = Some (Small b) -> NoDup l -> Forall (slot_at runs b) l ->
  count_in b base l <= bin_elements b /\
  (count_in b base l = bin_elements b -> forall a, a ∈ slot_list b base (Z.to_nat (bin_elements b)) -> a ∈ l).
Proof.
  intros Hb H1 Hr Hnd Hl. destruct (slot_size b Hb H1) as (Hs & _ & He).
  set (f := filter (in_block b base) l). set (sl := slot_list b base (Z.to_nat (bin_elements b))).
  assert (f ⊆+ sl) as Hsub.
  { apply NoDup_submseteq; [by apply NoDup_filter|]. intros a [Hin Ha]%list_elem_of_filter.
    rewrite Forall_forall in Hl. destruct (slot_base b a (Hl a Ha)) as (base' & Hr' & _ & _ & Hsl & Hu).
    by rewrite <- (Hu base Hr Hin) in Hsl. }
  pose proof (submseteq_length _ _ Hsub) as Hlen. unfold sl in Hlen. rewrite slot_list_length in Hlen.
  unfold count_in, llen. fold f. split; [lia|]. intros E a Ha.
  assert (f ≡ₚ sl) as Hp by (apply submseteq_length_Permutation; [done|]; unfold sl; rewrite slot_list_length; lia).
  rewrite <- Hp in Ha. by apply list_elem_of_filter in Ha as [_ Ha].
Qed.

Lemma count_free_ok i : is_bin i -> 1 <= i -> forall n l p has s cnt, (length l <= n)%nat ->
  heap_runs (pages s) runs -> free_counters (ring (pages s)) runs cnt ->
  chain (shadow_key (hp s)) i (mem s) p l -> Forall (slot_at runs i) l ->
  (forall base b, runs !! base = Some (Small b) -> 0 <= cnt base < 1024) ->
  (forall base, runs !! base = Some (Small i) -> cnt base + count_in i base l <= bin_elements i) ->
  (forall base, runs !! base = Some (Small i) -> cnt base = bin_elements i -> has = true) ->
  exists h' cnt' has', count_free n i p has s = Some (Ret has', mk_mm (hp s) (mem s) h') /\
    heap_runs h' runs /\ free_counters (ring h') runs cnt' /\ used (ring h') = used (ring (pages s)) /\
    (forall base b, runs !! base = Some (Small b) -> cnt' base = cnt base + if b =? i then count_in i base l else 0) /\
    (forall base, runs !! base = Some (Small i) -> cnt' base = bin_elements i -> has' = true).
Proof.
  intros Hi H1. destruct (slot_size i Hi H1) as (_ & _ & Hel).
  induction n as [|n IH]; intros l p has s cnt Hn Hr Hcnt Hch Hl Hk Hb Hhas.
  all: destruct l as [|a l]; [cbn in Hch; subst p; exists (pages s), cnt, has|].
  1,3: destruct s as [h0 m0 p0]; cbn [hp mem pages] in *; split; [done|]; split; [done|]; split; [done|]; split; [done|]; split; [|done]; intros base b _; change (count_in i base []) with 0; destruct (_ =? _); lia.
  { cbn in Hn. lia. }
  pose proof Hch as (-> & _ & Hch'). inversion_clear Hl as [|? ? Ha Hl'].
  destruct (slot_facts _ _ i a (mm_pages _ _ _ _ Hok) Ha) as (_ & _ & Ha0 & _).
  destruct (slot_base i a Ha) as (base & Hbase & Hin & Hx & _ & Hu).
  cbn [count_free]. destruct (Z.eqb_spec a 0); [lia|].
  destruct (small_run_of_ok (pages s) runs cnt base i (a - base) Hr Hcnt Hbase Hx (Hk base i Hbase))
    as (bf & e & aft & cr & q & Hsm & Hring & Hck & Hc & Hcr & Hq & Hq1 & Ebase).
  replace (base + (a - base)) with a in Hsm by lia. rewrite Hsm, some_bind.
  rewrite (proj2 (counter_facts i (cnt base) Hi (Hk base i Hbase))).
  pose proof (Hb base Hbase) as Hbb. rewrite count_in_cons, decide_True in Hbb by done. pose proof (count_in_nonneg i base l).
  pose proof (Hk base i Hbase).
  destruct (counter_step (pages s) runs cnt bf e aft cr q i (cnt base + 1) Hr Hring Hck Hcnt Hc Hcr Hq Hq1 ltac:(lia))
    as (map & -> & Hr' & Hcnt' & Hused). rewrite some_bind. cbv zeta. cbn [hp mem].
  assert (forall x, x ∈ l -> word64 x) as Hw.
  { intros x Hx'. rewrite Forall_forall in Hl'. by apply (slot_word64 i), Hl'. }
  rewrite (get_next_ok _ _ _ l _ Hch Hw).
  rewrite <- Ebase in Hcnt'.
  destruct (IH l (mem s a) (if cnt base + 1 =? bin_elements i then true else has)
    (mk_mm (hp s) (mem s) (set_ring (bf ++ mk_entry (ce_addr e) (ce_num e) (set_chunk_map (ce_chunk e) map) :: aft) (pages s)))
    (fset cnt base (cnt base + 1))) as (h' & cnt' & has' & E & Hh & Hc' & Hused' & Hcount & Hhas'); cbn [hp mem pages]; try done.
  { cbn in Hn. lia. }
  { intros base' b Hb'. unfold fset. destruct (Z.eqb_spec base' base); [lia|by eapply Hk]. }
  { intros base' Hb'. specialize (Hb base' Hb'). rewrite count_in_cons in Hb. unfold fset.
    destruct (Z.eqb_spec base' base) as [->|Hne]; [lia|]. rewrite decide_False in Hb; [lia|].
    intros Hin'. apply Hne. by apply Hu. }
  { intros base' Hb'. unfold fset. destruct (Z.eqb_spec base' base) as [->|Hne].
    - intros E. by destruct (Z.eqb_spec (cnt base + 1) (bin_elements i)).
    - intros E. destruct (_ =? _); [done|]. by eapply Hhas. }
  exists h', cnt', has'. split; [exact E|]. split; [done|]. split; [done|]. split; [by rewrite Hused'|]. split; [|done].
  intros base' b Hb'. rewrite (Hcount base' b Hb'). unfold fset. destruct (Z.eqb_spec b i) as [->|Hne].
  - rewrite count_in_cons. destruct (Z.eqb_spec base' base) as [->|Hne].
    + rewrite decide_True by done. lia.
    + rewrite decide_False; [lia|]. intros Hin'. apply Hne. by apply Hu.
  - destruct (Z.eqb_spec base' base) as [->|]; [congruence|done].
Qed.

(** * Removing *)

(** The run around a slot is free as a whole, by the counters. *)
Definition in_free_run (cnt : Z -> Z) (b a : Z) : Prop :=
  exists base, runs !! base = Some (Small b) /\ in_block b base a /\ cnt base = bin_elements b.

(** Writing the link of one slot does not touch the words of another. *)
Lemma set_next_other h i q next m a : slot_at runs i q -> slot_at runs i a -> a <> q ->
  zend_mm_set_next_free_slot h i q next m a = m a /\
  zend_mm_set_next_free_slot h i q next m (shadow_addr a i) = m (shadow_addr a i).
Proof.
  intros Hq Ha Hne. destruct (slot_facts _ _ i q (mm_pages _ _ _ _ Hok) Hq) as (_ & _ & _ & _ & _ & Hs & _).
  destruct (set_next_slot h i q next m Hs) as (_ & _ & H).
  destruct (slots_disjoint _ _ i a i q (mm_pages _ _ _ _ Hok) Ha Hq) as [[? _]|Hd]; [done|].
  split; apply H; unfold shadow_addr; lia.
Qed.

Lemma relink_ok h i R0 q p next head m : Forall (slot_at runs i) (R0 ++ [q]) -> NoDup (R0 ++ [q]) ->
  segment (shadow_key h) i m head (R0 ++ [q]) p ->
  segment (shadow_key h) i (zend_mm_set_next_free_slot h i q next m) head (R0 ++ [q]) next.
Proof.
  intros Hsl Hnd Hseg. apply segment_snoc in Hseg as (Hseg & _ & _). apply segment_snoc.
  apply Forall_app in Hsl as [Hsl Hq]. inversion_clear Hq as [|? ? Hq' _].
  destruct (slot_facts _ _ i q (mm_pages _ _ _ _ Hok) Hq') as (_ & _ & _ & _ & _ & Hs & _).
  destruct (set_next_slot h i q next m Hs) as (E1 & E2 & _). rewrite E1, E2. split; [|done].
  eapply segment_frame; [|exact Hseg]. intros a Ha. rewrite Forall_forall in Hsl.
  apply set_next_other; [done|by apply Hsl|]. intros ->.
  apply NoDup_app in Hnd as (_ & Hd & _). apply (Hd q Ha). by left.
Qed.

Record removed_ok (cnt : Z -> Z) (i : Z) (s s' : mm chunk_heap) (R l l' : list Z) : Prop := mk_removed {
  rm_pages : pages s' = pages s;
  rm_key : shadow_key (hp s') = shadow_key (hp s);
  rm_len : length (free_slot (hp s')) = length (free_slot (hp s));
  rm_other b : is_bin b -> b <> i -> lget 0 (free_slot (hp s')) b = lget 0 (free_slot (hp s)) b;
  rm_chain : chain (shadow_key (hp s)) i (mem s') (lget 0 (free_slot (hp s')) i) (R ++ l');
  rm_elem a : a ∈ l' <-> a ∈ l /\ ~ in_free_run cnt i a;
  rm_nodup : NoDup (R ++ l');
  rm_mem x : (forall a, a ∈ R ++ l -> x <> a /\ x <> shadow_addr a i) -> mem s' x = mem s x;
  rm_list : huge_list (hp s') = huge_list (hp s)
}.

Lemma removed_nil cnt i s R : segment (shadow_key (hp s)) i (mem s) (lget 0 (free_slot (hp s)) i) R 0 ->
  NoDup (R ++ []) -> removed_ok cnt i s s R [] [].
Proof.
  intros Hseg Hnd. split; try done.
  - apply chain_app. by exists 0.
  - intros a. split; [by intros ?%not_elem_of_nil|by intros [?%not_elem_of_nil _]].
Qed.

(** The next slot leaves the list, or stays. *)
Lemma removed_drop cnt i s s1 s' R a l l' : removed_ok cnt i s1 s' R l l' -> in_free_run cnt i a ->
  pages s1 = pages s -> shadow_key (hp s1) = shadow_key (hp s) -> length (free_slot (hp s1)) = length (free_slot (hp s)) ->
  huge_list (hp s1) = huge_list (hp s) -> (forall b, is_bin b -> b <> i -> lget 0 (free_slot (hp s1)) b = lget 0 (free_slot (hp s)) b) ->
  (forall x, (forall a', a' ∈ R -> x <> a' /\ x <> shadow_addr a' i) -> mem s1 x = mem s x) ->
  removed_ok cnt i s s' R (a :: l) l'.
Proof.
  intros [K1 K2 K3 K4 K5 K6 K7 K8 K9] Ha Hp Hk Hl Hlist Ho Hm. split.
  - congruence.
  - congruence.
  - congruence.
  - intros b Hb Hne. rewrite K4 by done. by apply Ho.
  - by rewrite <- Hk.
  - intros x. rewrite K6, elem_of_cons. naive_solver.
  - done.
  - intros x Hx. rewrite K8; [apply Hm|]; intros a' Ha'; apply Hx, elem_of_app; [by left|].
    apply elem_of_app in Ha' as [?|?]; [by left|right; by right].
  - congruence.
Qed.

Lemma removed_keep cnt i s s' R a l l' : removed_ok cnt i s s' (R ++ [a]) l l' -> ~ in_free_run cnt i a ->
  removed_ok cnt i s s' R (a :: l) (a :: l').
Proof.
  intros [K1 K2 K3 K4 K5 K6 K7 K8 K9] Ha. rewrite <- app_assoc in *. split; try done.
  intros x. rewrite !elem_of_cons, K6. naive_solver.
Qed.

Lemma remove_free_ok i cnt : is_bin i -> 1 <= i -> forall n l R q p s, (length l <= n)%nat -> q = last R ->
  length (free_slot (hp s)) = 30%nat -> heap_runs (pages s) runs -> free_counters (ring (pages s)) runs cnt ->
  (forall base b, runs !! base = Some (Small b) -> 0 <= cnt base < 1024) ->
  segment (shadow_key (hp s)) i (mem s) (lget 0 (free_slot (hp s)) i) R p ->
  chain (shadow_key (hp s)) i (mem s) p l -> Forall (slot_at runs i) (R ++ l) -> NoDup (R ++ l) ->
  exists s' l', remove_free n i q p s = Some (Ret (), s') /\ removed_ok cnt i s s' R l l'.
Proof.
  intros Hi H1. induction n as [|n IH]; intros l R q p s Hn Hq Hlen Hr Hcnt Hk Hseg Hch Hsl Hnd.
  all: destruct l as [|a l]; [cbn in Hch; subst p; exists s, []; split; [done|by apply removed_nil]|].
  { cbn in Hn. lia. }
  pose proof Hch as (-> & _ & Hch'). pose proof Hsl as Hsl0. apply Forall_app in Hsl as [HslR Hsl]. inversion_clear Hsl as [|? ? Ha Hsl'].
  destruct (slot_facts _ _ i a (mm_pages _ _ _ _ Hok) Ha) as (_ & _ & Ha0 & _).
  destruct (slot_base i a Ha) as (base & Hbase & Hin & Hx & _ & Hu).
  cbn [remove_free]. destruct (Z.eqb_spec a 0); [lia|].
  destruct (small_run_of_ok (pages s) runs cnt base i (a - base) Hr Hcnt Hbase Hx (Hk base i Hbase))
    as (bf & e & aft & cr & t & Hsm & _ & _ & _).
  replace (base + (a - base)) with a in Hsm by lia. rewrite Hsm, some_bind.
  rewrite (proj2 (counter_facts i (cnt base) Hi (Hk base i Hbase))).
  assert (forall x, x ∈ l -> word64 x) as Hw.
  { intros x Hx'. rewrite Forall_forall in Hsl'. by apply (slot_word64 i), Hsl'. }
  rewrite (get_next_ok _ _ _ l _ Hch Hw).
  destruct (Z.eqb_spec (cnt base) (bin_elements i)) as [Efull|Enot].
  - (* the slot leaves the list *)
    assert (in_free_run cnt i a) as Hfree by (by exists base).
    destruct q as [q|].
    + symmetry in Hq. apply last_Some in Hq as (R0 & ->).
      pose proof (NoDup_app (R0 ++ [q]) (a :: l)) as Hndapp. apply Hndapp in Hnd as Hnd'. destruct Hnd' as (HndR & HdR & Hndl).
      apply NoDup_cons in Hndl as [Hal Hndl].
      assert (slot_at runs i q) as Hqs by (rewrite Forall_forall in HslR; apply HslR, elem_of_app; right; by left).
      set (s1 := mk_mm (hp s) (zend_mm_set_next_free_slot (hp s) i q (mem s a) (mem s)) (pages s)).
      destruct (IH l (R0 ++ [q]) (Some q) (mem s a) s1) as (s' & l' & E & Hrm); cbn [s1 hp mem pages]; try done.
      * cbn in Hn. lia.
      * by rewrite last_snoc.
      * by eapply relink_ok.
      * eapply chain_frame; [|exact Hch']. intros x Hx'. rewrite Forall_forall in Hsl'. apply set_next_other; [done|by apply Hsl'|].
        intros ->. apply (HdR q); [apply elem_of_app; right; by left|by right].
      * by apply Forall_app.
      * apply NoDup_app. split; [done|]. split; [|done]. intros x HxR Hxl. apply (HdR x HxR). by right.
      * exists s', l'. split; [exact E|]. eapply removed_drop; [exact Hrm|done..|]. intros x Hx'. cbn [s1 mem].
        destruct (slot_facts _ _ i q (mm_pages _ _ _ _ Hok) Hqs) as (_ & _ & _ & _ & _ & Hs & _).
        destruct (Hx' q) as [? ?]; [apply elem_of_app; right; by left|]. by apply (set_next_slot (hp s) i q (mem s a) (mem s) Hs).
    + symmetry in Hq. apply last_None in Hq as ->.
      set (s1 := mk_mm (set_free_slot (hp s) i (mem s a)) (mem s) (pages s)).
      assert (forall b, is_bin b -> lget 0 (free_slot (hp s1)) b = if decide (b = i) then mem s a else lget 0 (free_slot (hp s)) b) as Hget.
      { intros b Hb. cbn. by apply lget_lset_bin. }
      destruct (IH l [] None (mem s a) s1) as (s' & l' & E & Hrm); cbn [s1 hp mem pages set_free_slot free_slot shadow_key]; try done.
      * cbn in Hn. lia.
      * unfold lset. by rewrite length_insert.
      * cbn. rewrite lget_lset_bin by done. by case_decide.
      * by apply NoDup_cons in Hnd as [_ Hnd].
      * exists s', l'. split; [exact E|]. eapply removed_drop; [exact Hrm|done..| | | |done].
        -- cbn. unfold lset. by rewrite length_insert.
        -- done.
        -- intros b Hb Hne. rewrite Hget by done. by case_decide.
  - (* the slot stays *)
    destruct (IH l (R ++ [a]) (Some a) (mem s a) s) as (s' & l' & E & Hrm); try done.
    + cbn in Hn. lia.
    + by rewrite last_snoc.
    + apply segment_snoc. by destruct Hch as (_ & ? & _).
    + by rewrite <- app_assoc.
    + by rewrite <- app_assoc.
    + exists s', (a :: l'). split; [exact E|]. apply removed_keep; [done|].
      intros (base' & Hb' & Hin' & Hfull). rewrite (Hu base' Hb' Hin') in Hfull. done.
Qed.

(** * All bins *)

(** The number of free slots of a run, and the runs that are free as a whole. *)
Definition final_count (base : Z) : Z :=
  match runs !! base with Some (Small b) => count_in b base (free b) | _ => 0 end.
Definition slot_words (b a x : Z) : Prop := x = a \/ x = shadow_addr a b.

Record bins_ok (i : Z) (s : mm chunk_heap) (cnt : Z -> Z) (free' : Z -> list Z) : Prop := mk_bins_ok {
  bo_runs : heap_runs (pages s) runs;
  bo_cnt : free_counters (ring (pages s)) runs cnt;
  bo_key : shadow_key (hp s) = shadow_key (hp s0);
  bo_len : length (free_slot (hp s)) = 30%nat;
  bo_count base b : runs !! base = Some (Small b) -> cnt base = if b <? i then final_count base else 0;
  bo_chain b : is_bin b -> chain (shadow_key (hp s0)) b (mem s) (lget 0 (free_slot (hp s)) b) (free' b);
  bo_elem b a : a ∈ free' b <-> a ∈ free b /\ (b < i -> ~ in_free_run final_count b a);
  bo_nodup b : NoDup (free' b);
  bo_rest b : i <= b -> free' b = free b;
  bo_used : used (ring (pages s)) = used (ring (pages s0));
  bo_mem x : (forall b a, a ∈ free b -> ~ slot_words b a x) -> mem s x = mem s0 x;
  bo_list : huge_list (hp s) = fr_list
}.

Lemma final_count_eq base b : runs !! base = Some (Small b) -> final_count base = count_in b base (free b).
Proof. unfold final_count. by intros ->. Qed.

Lemma free_slots b : Forall (slot_at runs b) (free b).
Proof. apply Forall_forall. intros a. apply (mm_free _ _ _ _ Hok). Qed.

Lemma free_bin0 : free 0 = [].
Proof.
  destruct (free 0) as [|a l] eqn:E; [done|]. pose proof (mm_free _ _ _ _ Hok 0 a ltac:(rewrite E; by left)) as (base & j & _ & _ & ? & _). lia.
Qed.

Lemma final_count_bound base b : runs !! base = Some (Small b) -> is_bin b -> 1 <= b ->
  0 <= final_count base <= bin_elements b.
Proof.
  intros Hr Hb H1. rewrite (final_count_eq base b Hr). split; [apply count_in_nonneg|].
  by apply count_in_bound; [..|apply (mm_nodup _ _ _ _ Hok)|apply free_slots].
Qed.

Lemma small_bin base b : runs !! base = Some (Small b) -> is_bin b.
Proof.
  intros Hr. destruct (mm_pages _ _ _ _ Hok) as [[Hh _ _ _ _ _] _]. destruct (ck_dom _ _ _ Hh base _ Hr) as (e & s & He & Hs & ->).
  destruct (entry_runs _ _ _ e Hh He) as (cr & Hc & Hcr). rewrite Hcr in Hr by done. by destruct (ok_run_info _ _ Hc s _ Hr).
Qed.

Lemma bins_ok_init : bins_ok 0 s0 (fun _ => 0) free.
Proof.
  destruct (mm_pages _ _ _ _ Hok) as [Hh Hc]. pose proof Hok as [K1 K2 K3 K4 K5 K6 K7 K8]. split; try done.
  - intros base b Hr. destruct (Z.ltb_spec b 0); [|done]. pose proof (small_bin base b Hr) as Hb. unfold is_bin in Hb. lia.
  - intros b a. split; [|by intros [? _]]. intros Ha. split; [done|]. intros Hb.
    destruct (K4 b a Ha) as (? & ? & _ & _ & ? & _). lia.
Qed.

(** Different free slots have no word in common, whatever their bins. *)
Lemma free_words b a b' a' x : slot_at runs b a -> slot_at runs b' a' -> (b, a) <> (b', a') ->
  slot_words b a x -> slot_words b' a' x -> False.
Proof.
  intros Ha Ha' Hne Hx Hx'.
  destruct (slot_facts _ _ b a (mm_pages _ _ _ _ Hok) Ha) as (_ & _ & _ & _ & _ & Hs & _).
  destruct (slot_facts _ _ b' a' (mm_pages _ _ _ _ Hok) Ha') as (_ & _ & _ & _ & _ & Hs' & _).
  destruct (slots_disjoint _ _ b a b' a' (mm_pages _ _ _ _ Hok) Ha Ha') as [[-> ->]|Hd]; [done|].
  unfold slot_words, shadow_addr in *. lia.
Qed.

Lemma counts_small i s cnt free' : bins_ok i s cnt free' -> forall base b, runs !! base = Some (Small b) -> 0 <= cnt base < 1024.
Proof.
  intros Hb base b Hr. rewrite (bo_count _ _ _ _ Hb base b Hr). destruct (_ <? _); [|lia].
  pose proof (small_bin base b Hr) as Hbin. destruct (decide (1 <= b)) as [H1|H1].
  - pose proof (final_count_bound base b Hr Hbin H1). destruct (slot_size b Hbin H1). lia.
  - assert (b = 0) as -> by (unfold is_bin in Hbin; lia). rewrite (final_count_eq base 0 Hr), free_bin0. done.
Qed.

(** The list of a bin without a run that is free as a whole stays. *)
Lemma bin_stays i s cnt free' h' cnt' : bins_ok i s cnt free' ->
  heap_runs h' runs -> free_counters (ring h') runs cnt' -> used (ring h') = used (ring (pages s)) ->
  (forall base b, runs !! base = Some (Small b) -> cnt' base = cnt base + if b =? i then count_in i base (free i) else 0) ->
  (forall a, a ∈ free i -> ~ in_free_run final_count i a) ->
  bins_ok (i + 1) (mk_mm (hp s) (mem s) h') cnt' free'.
Proof.
  intros [K1 K2 K3 K4 K5 K6 K7 K8 K9 K11 K10 K12] Hh Hc Hu Hcount Hno. split; cbn [hp mem pages]; try done.
  - intros base b Hr. rewrite (Hcount base b Hr), (K5 base b Hr). destruct (Z.eqb_spec b i) as [->|Hne].
    + destruct (Z.ltb_spec i i); [lia|]. destruct (Z.ltb_spec i (i + 1)); [|lia]. by rewrite (final_count_eq base i Hr).
    + destruct (Z.ltb_spec b i), (Z.ltb_spec b (i + 1)); lia.
  - intros b a. rewrite K7. split; intros [Ha Hf]; (split; [done|]); intros Hb.
    + destruct (decide (b < i)) as [|]; [by apply Hf|]. replace b with i in * by lia. by apply Hno.
    + apply Hf. lia.
  - intros b Hb. apply K9. lia.
  - by rewrite Hu.
Qed.

Lemma gc_bin_ok n i s cnt free' : is_bin i -> (length (free i) <= n)%nat -> bins_ok i s cnt free' ->
  exists s' cnt' free'', gc_bin n i s = Some (Ret (), s') /\ bins_ok (i + 1) s' cnt' free''.
Proof.
  intros Hi Hn Hb. pose proof Hb as [K1 K2 K3 K4 K5 K6 K7 K8 K9 K11 K10 K12]. unfold gc_bin.
  rewrite (lload_bin _ i K4 Hi), some_bind. pose proof (K6 i Hi) as Hch. rewrite (K9 i ltac:(lia)) in Hch.
  destruct (decide (i = 0)) as [->|Hi0].
  { rewrite free_bin0 in Hch. cbn in Hch. rewrite Hch.
    assert (count_free n 0 0 false s = Some (Ret false, s)) as -> by (by destruct n). rewrite some_bind.
    exists s, cnt, free'. split; [done|]. replace s with (mk_mm (hp s) (mem s) (pages s)) by (by destruct s).
    apply (bin_stays 0 s cnt free'); try done.
    - intros base b _. rewrite free_bin0. change (count_in 0 base []) with 0. destruct (_ =? _); lia.
    - rewrite free_bin0. by intros a ?%not_elem_of_nil. }
  assert (1 <= i) as H1 by (unfold is_bin in Hi; lia). destruct (slot_size i Hi H1) as (_ & _ & Hel).
  assert (forall base, runs !! base = Some (Small i) -> cnt base = 0) as Hz.
  { intros base Hr. rewrite (K5 base i Hr). by destruct (Z.ltb_spec i i); [lia|]. }
  rewrite <- K3 in Hch.
  destruct (count_free_ok i Hi H1 n (free i) _ false s cnt Hn K1 K2 Hch (free_slots i) (counts_small i s cnt free' Hb))
    as (h' & cnt' & has & -> & Hh & Hc & Hu & Hcount & Hhas).
  { intros base Hr. rewrite (Hz base Hr), Z.add_0_l, <- (final_count_eq base i Hr). by apply final_count_bound. }
  { intros base Hr E. rewrite (Hz base Hr) in E. lia. }
  assert (forall base, runs !! base = Some (Small i) -> cnt' base = final_count base) as Hfin.
  { intros base Hr. rewrite (Hcount base i Hr), Z.eqb_refl, (Hz base Hr), (final_count_eq base i Hr). lia. }
  rewrite some_bind. destruct has; last first.
  { eexists _, cnt', free'. split; [reflexivity|]. eapply bin_stays; try done.
    intros a _ (base & Hr & _ & E). specialize (Hhas base Hr). rewrite Hfin in Hhas by done. by specialize (Hhas E). }
  set (s1 := mk_mm (hp s) (mem s) h').
  assert (forall base b, runs !! base = Some (Small b) -> 0 <= cnt' base < 1024) as Hk'.
  { intros base b Hr. rewrite (Hcount base b Hr). pose proof (counts_small i s cnt free' Hb base b Hr).
    destruct (Z.eqb_spec b i) as [->|]; [|lia]. rewrite (Hz base Hr), <- (final_count_eq base i Hr).
    pose proof (final_count_bound base i Hr Hi H1). lia. }
  destruct (remove_free_ok i cnt' Hi H1 n (free i) [] None (lget 0 (free_slot (hp s)) i) s1)
    as (s' & l' & -> & [R1 R2 R3 R4 R5 R6 R7 R8 R9]); cbn [s1 hp mem pages] in *; try done.
  { apply free_slots. } { apply (mm_nodup _ _ _ _ Hok). }
  exists s', cnt', (fset free' i l'). split; [done|]. split; try done.
  - by rewrite R1.
  - by rewrite R1.
  - congruence.
  - congruence.
  - intros base b Hr. rewrite (Hcount base b Hr), (K5 base b Hr). destruct (Z.eqb_spec b i) as [->|Hne].
    + destruct (Z.ltb_spec i i); [lia|]. destruct (Z.ltb_spec i (i + 1)); [|lia]. by rewrite (final_count_eq base i Hr).
    + destruct (Z.ltb_spec b i), (Z.ltb_spec b (i + 1)); lia.
  - intros b Hb'. unfold fset. destruct (Z.eqb_spec b i) as [->|Hne]; [by rewrite <- K3|].
    rewrite R4 by done. apply (chain_frame _ _ (mem s)); [|by apply K6]. intros a Ha. apply K7 in Ha as [Ha _].
    assert (forall x, slot_words b a x -> forall a', a' ∈ free i -> x <> a' /\ x <> shadow_addr a' i) as Hd.
    { intros x Hx a' Ha'. pose proof (mm_free _ _ _ _ Hok b a Ha). pose proof (mm_free _ _ _ _ Hok i a' Ha').
      assert (~ slot_words i a' x) as Hno by (intros Hx'; eapply (free_words b a i a' x); [done|done|congruence|done|done]).
      unfold slot_words in Hno. tauto. }
    split; apply R8, Hd; [by left|by right].
  - intros b a. unfold fset. destruct (Z.eqb_spec b i) as [->|Hne].
    + rewrite R6. split; intros [Ha Hf]; (split; [done|]).
      * intros _ (base & Hr & Hin & E). apply Hf. exists base. by rewrite Hfin.
      * intros (base & Hr & Hin & E). apply Hf; [lia|]. exists base. by rewrite <- Hfin.
    + rewrite K7. split; intros [Ha Hf]; (split; [done|]); intros Hlt; apply Hf; lia.
  - intros b. unfold fset. by destruct (Z.eqb_spec b i).
  - intros b Hb'. rewrite fset_ne by lia. apply K9. lia.
  - rewrite R1. by rewrite Hu.
  - intros x Hx. rewrite R8; [by apply K10|]. intros a Ha. specialize (Hx i a Ha). unfold slot_words in Hx. tauto.
  - by rewrite R9.
Qed.

Lemma gc_bins_ok n : (forall b, (length (free b) <= n)%nat) -> forall k i s cnt free', 0 <= i -> i + Z.of_nat k = ZEND_MM_BINS ->
  bins_ok i s cnt free' -> exists s' cnt' free'', gc_bins n k i s = Some (Ret (), s') /\ bins_ok ZEND_MM_BINS s' cnt' free''.
Proof.
  intros Hn. induction k as [|k IH]; intros i s cnt free' H0 Hk Hb; cbn [gc_bins].
  { replace i with ZEND_MM_BINS in Hb by lia. by exists s, cnt, free'. }
  destruct (gc_bin_ok n i s cnt free') as (s1 & cnt1 & free1 & -> & Hb1); [unfold is_bin; lia|apply Hn|done|].
  rewrite some_bind. apply (IH (i + 1) s1 cnt1 free1); [lia|lia|done].
Qed.
End Collect.

(** * Sweeping *)

(** A small run all of whose slots were counted. *)
Definition counted_full (cnt : Z -> Z) (s : Z) (r : run) : Prop :=
  match r with Small b => cnt s = bin_elements b | Large _ => False end.

(** The counters of a chunk, by page. *)
Definition page_counters (c : zend_mm_chunk) (cr : gmap Z run) (cnt : Z -> Z) : Prop :=
  forall s b, cr !! s = Some (Small b) -> lget 0 (chunk_map c) s = ZEND_MM_SRUN_EX b (cnt s).

Lemma page_start c cr i : chunk_ok c cr -> (forall s r, cr !! s = Some r -> s + run_pages r <= i \/ i <= s) ->
  1 <= i < 512 -> if page_set (free_map c) i then exists r, cr !! i = Some r else cr !! i = None.
Proof.
  intros Hc Hi H1. destruct (page_set (free_map c) i) eqn:E.
  - apply (ok_pages c cr Hc) in E as (s & r & Hr & Hin); [|done]. unfold in_run in Hin.
    destruct (Hi s r Hr); [lia|]. replace i with s by lia. by exists r.
  - destruct (cr !! i) as [r|] eqn:Er; [|done]. destruct (run_bounds c cr Hc i r Er) as (? & ? & ?).
    rewrite (run_set c cr Hc i r i Er) in E; [done|]. unfold in_run. lia.
Qed.

Lemma sweep_pages_ok cnt : forall n c cr i col, chunk_ok c cr -> (forall s b, cr !! s = Some (Small b) -> 0 <= cnt s < 1024) ->
  page_counters c cr (fun s => if s <? i then 0 else cnt s) ->
  (forall s r, cr !! s = Some r -> s + run_pages r <= i \/ i <= s) -> 1 <= i -> 512 - i <= Z.of_nat n ->
  exists c' cr', sweep_pages n c i col = Some (c', col + (free_pages c' - free_pages c)) /\ chunk_ok c' cr' /\
    page_counters c' cr' (fun _ => 0) /\
    (forall s r, cr' !! s = Some r <-> cr !! s = Some r /\ (i <= s -> ~ counted_full cnt s r)).
Proof.
  induction n as [|n IH]; intros c cr i col Hc Hcnt Hpc Hi H1 Hn; cbn [sweep_pages].
  all: destruct (ok_tail c cr Hc) as [Hft Hts]; destruct (Z.ltb_spec i (free_tail c)) as [Hlt|Hge]; try lia.
  1,3: exists c, cr; split; [do 2 f_equal; lia|]; split; [done|]; split;
    [intros s b Hs; rewrite (Hpc s b Hs); specialize (Hts s _ Hs); by destruct (Z.ltb_spec s i); [|lia]
    |intros s r; split; [|by intros [? _]]; intros Hs; split; [done|]; specialize (Hts s r Hs); lia].
  assert (1 <= i < 512) as Hi512 by lia. rewrite (is_set_spec _ i (ok_map c cr Hc)) by lia. rewrite some_bind.
  pose proof (page_start c cr i Hc Hi Hi512) as Hstart. destruct (page_set (free_map c) i).
  2: { (* a free page *)
    destruct (IH c cr (i + 1) col Hc Hcnt) as (c' & cr' & E & Hc' & Hpc' & Hcr'); [| |lia|lia|].
    - intros s b Hs. rewrite (Hpc s b Hs). destruct (Z.ltb_spec s i), (Z.ltb_spec s (i + 1)); try done; [lia|].
      replace s with i in Hs by lia. congruence.
    - intros s r Hs. destruct (Hi s r Hs); [left; lia|]. right. destruct (decide (s = i)) as [->|]; [congruence|lia].
    - exists c', cr'. split; [done|]. split; [done|]. split; [done|]. intros s r. rewrite Hcr'. split; intros [Hs Hf]; (split; [done|]); intros Hle; apply Hf; [|lia].
      destruct (decide (s = i)) as [->|]; [congruence|lia]. }
  destruct Hstart as (r & Hr). destruct (run_bounds c cr Hc i r Hr) as (_ & Hn1 & He). pose proof (run_unique c cr Hc) as Hu.
  rewrite (lload_512 (chunk_map c)) by (apply (ok_info c cr Hc) || lia). rewrite some_bind.
  (* the runs after this one *)
  assert (forall s r', cr !! s = Some r' -> s <> i -> s + run_pages r' <= i \/ i + run_pages r <= s) as Hnext.
  { intros s r' Hs Hne. destruct (Hi s r' Hs) as [|Hle]; [by left|]. right. destruct (decide (i + run_pages r <= s)); [done|].
    destruct Hne. destruct (run_bounds c cr Hc s r' Hs) as (_ & ? & _). apply (Hu s r' i r s); [done..|unfold in_run; lia|unfold in_run; lia]. }
  assert (forall s, i + run_pages r <= s -> i <= s) as Hle by lia.
  assert (is_set (lget 0 (chunk_map c) i) ZEND_MM_IS_SRUN = true \/ forall b, r <> Small b) as Hkind.
  { destruct r as [k|b]; [by right|left]. rewrite (Hpc i b Hr). destruct (ok_run_info c cr Hc i _ Hr) as (Hb & _).
    apply srun_facts; [done|]. destruct (_ <? _); [lia|by eapply Hcnt]. }
  destruct r as [k|b].
  - (* a large run *)
    pose proof (ok_run_info c cr Hc i _ Hr) as Hinfo. cbn in Hinfo, Hn1, He, Hnext. rewrite Hinfo.
    destruct (lrun_facts k ltac:(lia)) as (_ & -> & ->).
    destruct (IH c cr (i + k) col Hc Hcnt) as (c' & cr' & E & Hc' & Hpc' & Hcr'); [| |lia|lia|].
    + intros s b Hs. rewrite (Hpc s b Hs). assert (s <> i) by congruence.
      destruct (Hnext s _ Hs ltac:(done)) as [?|?], (Z.ltb_spec s i), (Z.ltb_spec s (i + k)); try done; try lia.
      destruct (run_bounds c cr Hc s _ Hs). lia.
    + intros s r Hs. destruct (decide (s = i)) as [->|Hne]; [left; rewrite Hr in Hs; by injection Hs as <-|].
      destruct (Hnext s r Hs Hne); [left; lia|by right].
    + exists c', cr'. split; [done|]. split; [done|]. split; [done|]. intros s r. rewrite Hcr'.
      split; intros [Hs Hf]; (split; [done|]); intros Hles; [|apply Hf; lia].
      destruct (decide (s = i)) as [->|Hne]; [rewrite Hr in Hs; injection Hs as <-; by intros []|].
      destruct (Hnext s r Hs Hne) as [?|?]; [|by apply Hf]. destruct (run_bounds c cr Hc s r Hs). lia.
  - destruct Hkind as [Hsrun|Hno]; [|by destruct (Hno b)]. destruct (ok_run_info c cr Hc i _ Hr) as (Hb & _).
    assert (lget 0 (chunk_map c) i = ZEND_MM_SRUN_EX b (cnt i)) as Hinfo by (rewrite (Hpc i b Hr); by rewrite Z.ltb_irrefl).
    cbn in Hn1, He, Hnext.
    rewrite Hsrun, Hinfo, (proj2 (srun_facts b _ Hb (Hcnt i b Hr))), (proj2 (counter_facts b _ Hb (Hcnt i b Hr))).
    destruct (Z.eqb_spec (cnt i) (bin_elements b)) as [Efull|Enot].
    + (* all elements are free *)
      destruct (free_pages_ok c cr i _ Hc Hr) as (c1 & E1 & Hc1 & _ & Hfp). cbn in E1, Hfp. rewrite E1, some_bind.
      apply free_pages_map in E1.
      destruct (IH c1 (delete i cr) (i + bin_pages b) (col + bin_pages b) Hc1) as (c' & cr' & E & Hc' & Hpc' & Hcr'); [| | |lia|lia|].
      * intros s b' [_ Hs]%lookup_delete_Some. by eapply Hcnt.
      * intros s b' [Hne Hs]%lookup_delete_Some. destruct (run_bounds c cr Hc s _ Hs) as (? & ? & ?).
        rewrite E1, lget_lset_ne, (Hpc s b' Hs) by lia.
        destruct (Hnext s _ Hs ltac:(done)) as [?|?], (Z.ltb_spec s i), (Z.ltb_spec s (i + bin_pages b)); try done; lia.
      * intros s r [Hne Hs]%lookup_delete_Some. destruct (Hnext s r Hs ltac:(done)); [left; lia|by right].
      * exists c', cr'. split; [rewrite E; do 2 f_equal; lia|]. split; [done|]. split; [done|]. intros s r. rewrite Hcr', lookup_delete_Some.
        split.
        -- intros [[Hne Hs] Hf]. split; [done|]. intros Hles. destruct (Hnext s r Hs ltac:(done)) as [?|?]; [|by apply Hf].
           destruct (run_bounds c cr Hc s r Hs). lia.
        -- intros [Hs Hf]. split; [|intros ?; apply Hf; lia]. split; [|done]. intros <-. rewrite Hr in Hs. injection Hs as <-.
           by apply Hf.
    + (* reset counter *)
      destruct (lstore_512 (chunk_map c) i (ZEND_MM_SRUN b) (ok_info c cr Hc) ltac:(lia)) as (-> & Hl & Hg). rewrite some_bind.
      pose proof (set_counter_ok c cr i b 0 Hc Hr ltac:(lia)) as Hc1. rewrite <- srun_ex_0 in Hc1.
      destruct (IH _ cr (i + bin_pages b) col Hc1 Hcnt) as (c' & cr' & E & Hc' & Hpc' & Hcr'); [| |lia|lia|].
      * intros s b' Hs. cbn [set_chunk_map chunk_map]. destruct (run_bounds c cr Hc s _ Hs) as (? & ? & ?).
        destruct (decide (s = i)) as [->|Hne].
        -- rewrite Hg. rewrite Hr in Hs. injection Hs as <-. destruct (Z.ltb_spec i (i + bin_pages b)); [apply srun_ex_0|lia].
        -- rewrite lget_lset_ne, (Hpc s b' Hs) by lia.
           destruct (Hnext s _ Hs Hne) as [?|?], (Z.ltb_spec s i), (Z.ltb_spec s (i + bin_pages b)); try done; lia.
      * intros s r Hs. destruct (decide (s = i)) as [->|Hne]; [left; rewrite Hr in Hs; by injection Hs as <-|].
        destruct (Hnext s r Hs Hne); [left; lia|by right].
      * exists c', cr'. split; [done|]. split; [done|]. split; [done|]. intros s r. rewrite Hcr'.
        split; intros [Hs Hf]; (split; [done|]); intros Hles; [|apply Hf; lia].
        destruct (decide (s = i)) as [->|Hne]; [rewrite Hr in Hs; by injection Hs as <-|].
        destruct (Hnext s r Hs Hne) as [?|?]; [|by apply Hf]. destruct (run_bounds c cr Hc s r Hs). lia.
Qed.

#[global] Instance counted_full_dec cnt a r : Decision (counted_full cnt a r).
Proof. destruct r; cbn; apply _. Defined.

Definition in_chunk (base a : Z) : Prop := base <= a < base + ZEND_MM_CHUNK_SIZE.
#[global] Instance in_chunk_dec base a : Decision (in_chunk base a).
Proof. unfold in_chunk. apply _. Defined.

(** The runs that are left when the chunk at [base] was swept. *)
Definition swept_runs (cnt : Z -> Z) (base : Z) (runs : gmap Z run) : gmap Z run :=
  filter (fun ar => ~ (in_chunk base ar.1 /\ counted_full cnt ar.1 ar.2)) runs.

Lemma lookup_swept cnt base runs a r : swept_runs cnt base runs !! a = Some r <->
  runs !! a = Some r /\ ~ (in_chunk base a /\ counted_full cnt a r).
Proof. unfold swept_runs. by rewrite map_lookup_filter_Some. Qed.

Lemma page_in_chunk base s : 0 <= s < 512 -> in_chunk base (ZEND_MM_PAGE_ADDR base s).
Proof. unfold in_chunk, ZEND_MM_PAGE_ADDR, ZEND_MM_PAGE_SIZE, ZEND_MM_CHUNK_SIZE. lia. Qed.

(** One chunk is swept. *)
Lemma sweep_chunk_ok cnt e l cached runs col : chunks_ok (e :: l) cached runs -> free_counters [e] runs cnt ->
  (forall a b, runs !! a = Some (Small b) -> 0 <= cnt a < 1024) ->
  exists c' cr', sweep_pages 512 (ce_chunk e) ZEND_MM_FIRST_PAGE col = Some (c', col + (free_pages c' - free_pages (ce_chunk e))) /\
    chunk_ok c' cr' /\ runs_of_chunk (swept_runs cnt (ce_addr e) runs) (ce_addr e) cr' /\
    chunks_ok (mk_entry (ce_addr e) (ce_num e) c' :: l) cached (swept_runs cnt (ce_addr e) runs) /\
    free_counters [mk_entry (ce_addr e) (ce_num e) c'] (swept_runs cnt (ce_addr e) runs) (fun _ => 0).
Proof.
  intros Hok Hcnt Hk. destruct (entry_runs _ _ _ e Hok ltac:(by left)) as (cr & Hc & Hcr).
  assert (forall s r, cr !! s = Some r -> 1 <= s < 512 /\ runs !! ZEND_MM_PAGE_ADDR (ce_addr e) s = Some r) as Hlift.
  { intros s r Hs. destruct (run_bounds _ _ Hc s r Hs) as (? & ? & ?). split; [lia|]. by rewrite Hcr by lia. }
  destruct (sweep_pages_ok (fun s => cnt (ZEND_MM_PAGE_ADDR (ce_addr e) s)) 512 (ce_chunk e) cr ZEND_MM_FIRST_PAGE col Hc)
    as (c' & cr' & E & Hc' & Hpc' & Hcr'); unfold ZEND_MM_FIRST_PAGE; [| | |lia|lia|].
  { intros s b Hs. destruct (Hlift s _ Hs) as [_ Hs']. by eapply Hk. }
  { intros s b Hs. destruct (Hlift s _ Hs) as [Hs1 Hs']. destruct (Z.ltb_spec s 1); [lia|].
    apply (Hcnt e s b); [by left|lia|done]. }
  { intros s r Hs. right. destruct (Hlift s _ Hs). lia. }
  assert (runs_of_chunk (swept_runs cnt (ce_addr e) runs) (ce_addr e) cr') as Hcr1.
  { intros s Hs. apply option_eq. intros r. rewrite lookup_swept, Hcr', Hcr by done.
    pose proof (page_in_chunk (ce_addr e) s Hs) as Hin.
    assert (counted_full (fun s => cnt (ZEND_MM_PAGE_ADDR (ce_addr e) s)) s r <-> counted_full cnt (ZEND_MM_PAGE_ADDR (ce_addr e) s) r) as Hf by done.
    split; intros [Hr Hno]; (split; [done|]).
    - intros _ Hfull. apply Hno. split; [done|by apply Hf].
    - intros [_ Hfull]. apply Hno; [destruct (Hlift s r Hr); unfold ZEND_MM_FIRST_PAGE; lia|by apply Hf]. }
  exists c', cr'. split; [exact E|]. split; [done|]. split; [done|]. split.
  - eapply chunks_ok_replace; [done|exact Hc'|done|]. intros a Ha. apply option_eq. intros r. rewrite lookup_swept.
    split; [by intros [? _]|]. intros Hr. split; [done|]. intros [Hin _].
    destruct (ck_dom _ _ _ Hok a r Hr) as (e' & s & He' & Hs & ->).
    pose proof (chunks_addr _ _ _ e' Hok He') as (_ & Ha1 & _). pose proof (chunks_addr _ _ _ e Hok ltac:(by left)) as (_ & Ha2 & _).
    assert (ce_addr e' = ce_addr e) as E'.
    { unfold in_chunk, ZEND_MM_PAGE_ADDR, ZEND_MM_PAGE_SIZE, ZEND_MM_CHUNK_SIZE in *. zlia. }
    apply (Ha s Hs). by rewrite E'.
  - intros e' s b He' Hs Hb. apply list_elem_of_singleton in He' as ->. cbn [ce_addr ce_chunk] in *. rewrite Hcr1 in Hb by done. by apply Hpc'.
Qed.

Section Ring.
Context (below_average : Z -> bool).

Lemma counters_app l1 l2 runs cnt : free_counters (l1 ++ l2) runs cnt <-> free_counters l1 runs cnt /\ free_counters l2 runs cnt.
Proof.
  split.
  - intros H. split; intros e s b He; apply H, elem_of_app; [by left|by right].
  - intros [H1 H2] e s b [He|He]%elem_of_app; [by apply H1|by apply H2].
Qed.

Lemma sweep_ring_ok cnt l : forall before h runs col, heap_runs (set_ring (before ++ l) h) runs ->
  free_counters before runs (fun _ => 0) -> free_counters l runs cnt ->
  (forall a b, runs !! a = Some (Small b) -> 0 <= cnt a < 1024) ->
  exists h' runs', sweep_ring below_average before l h col = Some (h', col + used (before ++ l) - used (ring h')) /\
    heap_runs h' runs' /\ free_counters (ring h') runs' (fun _ => 0) /\
    forall a r, runs' !! a = Some r <-> runs !! a = Some r /\ ~ ((exists e, e ∈ l /\ in_chunk (ce_addr e) a) /\ counted_full cnt a r).
Proof.
  induction l as [|e l IH]; intros before h runs col Hh0 Hbef Hl Hk; cbn [sweep_ring].
  { rewrite app_nil_r in *. exists (set_ring before h), runs. split; [cbn [ring set_ring]; rewrite ?app_nil_r; do 2 f_equal; lia|]. split; [done|]. split; [done|].
    intros a r. split; [|by intros [? _]]. intros Hr. split; [done|]. by intros [(e & He%not_elem_of_nil & _) _]. }
  pose proof (hr_chunks _ _ Hh0) as Hck. cbn [ring cached_chunks set_ring] in Hck.
  apply (chunks_ok_perm _ (e :: before ++ l)) in Hck; [|apply perm_middle].
  assert (free_counters [e] runs cnt /\ free_counters l runs cnt) as [He Hl'] by (by apply (counters_app [e] l)).
  destruct (sweep_chunk_ok cnt e _ _ runs col Hck He Hk) as (c & cr & -> & Hc & Hcr & Hck' & He').
  rewrite some_bind. cbn [fst snd]. set (runs1 := swept_runs cnt (ce_addr e) runs) in *.
  set (e1 := mk_entry (ce_addr e) (ce_num e) c) in *.
  assert (forall a b, runs1 !! a = Some (Small b) -> runs !! a = Some (Small b)) as Hsub by (by intros a b [? _]%lookup_swept).
  pose proof (counters_mono _ _ runs1 _ Hsub Hbef) as Hbef1. pose proof (counters_mono _ _ runs1 _ Hsub Hl') as Hl1.
  assert (forall a b, runs1 !! a = Some (Small b) -> 0 <= cnt a < 1024) as Hk1 by (intros a b Hr; by eapply Hk, Hsub).
  assert (forall (runs' : gmap Z run), (forall a r, runs' !! a = Some r <-> runs1 !! a = Some r /\
      ~ ((exists e, e ∈ l /\ in_chunk (ce_addr e) a) /\ counted_full cnt a r)) ->
    forall a r, runs' !! a = Some r <-> runs !! a = Some r /\
      ~ ((exists e', e' ∈ e :: l /\ in_chunk (ce_addr e') a) /\ counted_full cnt a r)) as Hruns.
  { intros runs' H a r. rewrite H. unfold runs1. rewrite lookup_swept. setoid_rewrite elem_of_cons. naive_solver. }
  destruct (_ && _) eqn:Edel.
  - apply andb_true_iff in Edel as [Efree%Z.eqb_eq _]. change (ZEND_MM_PAGES - ZEND_MM_FIRST_PAGE) with 511 in Efree.
    assert (heap_runs (zend_mm_delete_chunk below_average before e1 l h) runs1) as Hdel.
    { eapply (delete_chunk_ok below_average _ before e1 l h); [exact Hh0|exact Hck'|exact Hc|exact Hcr|by eapply all_free_empty| |done..].
      cbn [ring set_ring]. by rewrite (perm_middle before e l). }
    apply (heap_runs_ring _ _ (before ++ l) runs1) in Hdel; [|rewrite <- (delete_chunk_ring below_average before e1 l h); apply (hr_chunks _ _ Hdel)|by rewrite delete_chunk_ring].
    destruct (IH before _ runs1 (col + (free_pages c - free_pages (ce_chunk e))) Hdel Hbef1 Hl1 Hk1) as (h' & runs' & -> & Hh & Hc' & Hr').
    exists h', runs'. split; [|split; [done|]; split; [done|by apply Hruns]].
    do 2 f_equal. rewrite !used_app. cbn [used foldr].
    rewrite Efree. unfold used. lia.
  - destruct (IH (before ++ [e1]) h runs1 (col + (free_pages c - free_pages (ce_chunk e)))) as (h' & runs' & -> & Hh & Hc' & Hr'); try done.
    + rewrite <- app_assoc. apply (heap_runs_ring (set_ring (before ++ e :: l) h) runs); [done| |by cbn; rewrite !fmap_app].
      eapply chunks_ok_perm; [symmetry; apply perm_middle|done].
    + by apply counters_app.
    + exists h', runs'. split; [|split; [done|]; split; [done|by apply Hruns]].
      do 2 f_equal. rewrite <- app_assoc, !used_app.
      unfold e1, used. cbn [app foldr ce_chunk]. lia.
Qed.

End Ring.

(** * Pages in use *)

(** The pages of all runs. *)
Definition total_pages (runs : gmap Z run) : Z := map_fold (fun _ r n => run_pages r + n) 0 runs.

Lemma total_insert runs a r : runs !! a = None -> total_pages (<[a := r]> runs) = run_pages r + total_pages runs.
Proof. intros Ha. unfold total_pages. rewrite map_fold_insert_L; [done| |done]. intros. lia. Qed.

Lemma total_delete runs a r : runs !! a = Some r -> total_pages runs = run_pages r + total_pages (delete a runs).
Proof. intros Ha. rewrite <- (insert_delete_id runs a r Ha) at 1. apply total_insert, lookup_delete_eq. Qed.

Lemma total_filter (P : Z * run -> Prop) `{!forall x, Decision (P x)} runs :
  total_pages runs = total_pages (filter P runs) + total_pages (filter (fun ar => ~ P ar) runs).
Proof.
  induction runs as [|a r runs Ha IH] using map_ind; [done|]. rewrite total_insert, IH by done.
  destruct (decide (P (a, r))) as [Hp|Hp].
  - rewrite map_filter_insert_True, map_filter_insert_False, delete_id, total_insert by (done || tauto || by apply map_lookup_filter_None; left). lia.
  - rewrite map_filter_insert_False, map_filter_insert_True, delete_id, total_insert by (done || by apply map_lookup_filter_None; left). lia.
Qed.

(** A counter of free pages is what the runs leave. *)
Lemma used_total l cached runs : chunks_ok l cached runs -> used l = total_pages runs.
Proof.
  remember (size runs) as n eqn:En. revert l runs En. induction n as [|n IH]; intros l runs En Hok.
  - symmetry in En. apply map_size_empty_inv in En as ->. assert (forall e, e ∈ l -> free_pages (ce_chunk e) = 511) as H511.
    { intros e He. destruct (entry_runs _ _ _ e Hok He) as (cr & Hc & Hcr). assert (cr = ∅) as ->.
      { apply map_empty. intros s. destruct (cr !! s) as [r|] eqn:E; [|done]. destruct (run_bounds _ _ Hc s r E) as (? & ? & ?).
        rewrite <- Hcr in E by lia. by rewrite lookup_empty in E. }
      by apply no_runs_free. }
    clear Hok. unfold used. induction l as [|e l IHl]; cbn [foldr]; [done|]. rewrite H511 by (by left).
    rewrite IHl; [done|]. intros e' He'. apply H511. by right.
  - destruct (map_choose runs) as (a & r & Ha). { intros ->. by rewrite map_size_empty in En. }
    destruct (ck_dom _ _ _ Hok a r Ha) as (e & s & He & Hs & ->). apply list_elem_of_split in He as (bf & aft & ->).
    apply (chunks_ok_perm _ _ _ _ (perm_middle bf e aft)) in Hok.
    destruct (entry_runs _ _ _ e Hok ltac:(by left)) as (cr & Hc & Hcr). pose proof Ha as Ha'. rewrite Hcr in Ha' by done.
    destruct (free_pages_ok _ _ s r Hc Ha') as (c' & _ & Hc' & _ & Hfp).
    rewrite (total_delete _ _ _ Ha), <- (IH (mk_entry (ce_addr e) (ce_num e) c' :: bf ++ aft)).
    + rewrite (used_app bf). change (used (e :: aft)) with (511 - free_pages (ce_chunk e) + used aft).
      change (used (mk_entry (ce_addr e) (ce_num e) c' :: bf ++ aft)) with (511 - free_pages c' + used (bf ++ aft)).
      rewrite used_app, Hfp. lia.
    + rewrite map_size_delete_Some by (by eexists). lia.
    + eapply chunks_ok_replace; [done|done|by apply runs_of_chunk_delete|]. intros a Hne. rewrite lookup_delete_ne; [done|].
      intros <-. by apply (Hne s).
Qed.

(** * The collector as a whole *)

Lemma length_bind_const {A B} (f : A -> list B) n l : (forall x, length (f x) = n) -> length (l ≫= f) = (length l * n)%nat.
Proof. intros Hf. induction l as [|x l IH]; cbn; [done|]. by rewrite length_app, Hf, IH. Qed.

(** The fuel is enough. *)
Lemma free_short s runs free live b : mm_ok s runs free live -> (length (free b) <= gc_fuel (pages s))%nat.
Proof.
  intros Hok. set (words := fun e => (fun k => ce_addr e + 8 * k) <$> zrange 0 (Z.to_nat 262144)).
  assert (length (free b) <= length (ring (pages s) ≫= words))%nat as Hle.
  { apply submseteq_length, NoDup_submseteq; [apply (mm_nodup _ _ _ _ Hok)|]. intros a Ha.
    pose proof (mm_free _ _ _ _ Hok b a Ha) as Hslot. pose proof (mm_pages _ _ _ _ Hok) as Hp.
    destruct (slot_facts _ _ b a Hp Hslot) as (_ & _ & _ & Ha8 & _ & Hs & _).
    destruct Hslot as (base & j & Hr & Hb & H1 & Hj & ->). destruct (slot_in_run runs b base j Hr Hb H1 Hj).
    destruct Hp as [Hh _]. destruct (find_run _ _ base _ 0 Hh Hr) as (bf & e & aft & cr & q & _ & Hring & Hck & Hc & _ & Hq & Hq1 & -> & _).
    { unfold run_bytes in *. destruct (bin_facts b Hb) as (_ & _ & _ & ? & _). unfold ZEND_MM_PAGE_SIZE. cbn. lia. }
    destruct (run_bounds _ _ Hc q _ Hq) as (? & ? & ?).
    pose proof (chunks_addr _ _ _ e Hck ltac:(by left)) as (_ & Hea & _).
    apply list_elem_of_bind. exists e. split; [|rewrite Hring; apply elem_of_app; right; by left].
    unfold words. apply list_elem_of_fmap. exists ((ZEND_MM_PAGE_ADDR (ce_addr e) q + j * bin_data_size b - ce_addr e) / 8).
    rewrite elem_of_zrange, Z2Nat.id by lia.
    unfold run_bytes, ZEND_MM_PAGE_ADDR, ZEND_MM_PAGE_SIZE, ZEND_MM_CHUNK_SIZE in *. cbn [run_pages] in *. zlia. }
  rewrite (length_bind_const words (Z.to_nat 262144)) in Hle by (intros e; unfold words; by rewrite length_fmap, length_zrange).
  unfold gc_fuel, llen. lia.
Qed.

(** By the counters that the first part leaves, a run is full when it is idle. *)
Lemma counted_idle s runs free live cnt a r : mm_ok s runs free live -> runs !! a = Some r ->
  (forall base b, runs !! base = Some (Small b) -> cnt base = final_count runs free base) ->
  counted_full cnt a r <-> idle_run live (a, r).
Proof.
  intros Hok Hr Hcnt. destruct r as [n|b]; [done|]. unfold counted_full, idle_run. cbn [fst snd]. rewrite (Hcnt a b Hr).
  rewrite (final_count_eq runs free a b Hr), Forall_forall. pose proof (small_bin s runs free live Hok a b Hr) as Hb.
  assert (Forall (slot_at runs b) (free b)) as Hsl by (apply (free_slots s runs free live Hok)).
  destruct (decide (1 <= b)) as [H1|H1].
  - destruct (count_in_bound s runs free live Hok b a (free b) Hb H1 Hr (mm_nodup _ _ _ _ Hok b) Hsl) as [Hle Hfull].
    destruct (slot_size b Hb H1) as (Hsz & _ & He). split.
    + intros E. split; [done|]. intros x Hx. destruct (live !! x) as [b'|] eqn:El; [|done]. exfalso.
      destruct (mm_live _ _ _ _ Hok x b' El) as [Hs' Hno]. pose proof (slot_elem runs b a x Hb H1 Hr Hx) as Hs.
      destruct (slots_disjoint _ _ b x b' x (mm_pages _ _ _ _ Hok) Hs Hs') as [[_ <-]|Hd]; [by apply Hno, Hfull|].
      destruct (slot_facts _ _ b x (mm_pages _ _ _ _ Hok) Hs) as (_ & _ & _ & _ & _ & ? & _).
      destruct (slot_facts _ _ b' x (mm_pages _ _ _ _ Hok) Hs') as (_ & _ & _ & _ & _ & ? & _). lia.
    + intros [_ Hidle]. enough (bin_elements b <= count_in b a (free b)) by lia.
      unfold count_in, llen. rewrite <- (Z2Nat.id (bin_elements b)), <- (slot_list_length b a (Z.to_nat (bin_elements b))) by lia.
      apply inj_le, submseteq_length, NoDup_submseteq; [apply (NoDup_slot_list b a _ Hsz)|]. intros x Hx.
      pose proof (slot_elem runs b a x Hb H1 Hr Hx) as Hs. apply list_elem_of_filter.
      destruct (slot_base s runs free live Hok b x Hs) as (base & Hr' & Hin & _ & _ & Hu).
      split.
      * unfold in_block. apply elem_slot_list in Hx as (j & Hj & ->). destruct (slot_in_run runs b a j Hr Hb H1 ltac:(lia)). lia.
      * destruct (mm_all _ _ _ _ Hok b x Hs) as [|El]; [done|]. by rewrite Hidle in El.
  - assert (b = 0) as -> by (unfold is_bin in Hb; lia). rewrite (free_bin0 s runs free live Hok).
    split; [done|by intros [? _]].
Qed.

(** The free slots of the remaining runs are in the remaining lists. *)
Lemma gc_mm_ok s runs free live s1 cnt free1 h' : mm_ok s runs free live -> bins_ok s runs free ZEND_MM_BINS s1 cnt free1 ->
  (forall base b, runs !! base = Some (Small b) -> cnt base = final_count runs free base) ->
  heap_at_rest h' (kept_runs live runs) -> mm_ok (mk_mm (hp s1) (mem s1) h') (kept_runs live runs) free1 live.
Proof.
  intros Hok Hb Hcnt Hrest. pose proof Hb as [_ _ K3 K4 _ K6 K7 K8 _ _ _ K12].
  assert (forall b a base, runs !! base = Some (Small b) -> in_block b base a -> a ∈ free b ->
    a ∈ free1 b <-> kept_runs live runs !! base = Some (Small b)) as Hkept.
  { intros b a base Hr Hin Ha. rewrite K7, lookup_kept.
    pose proof (small_bin s runs free live Hok base b Hr) as Hbin. unfold is_bin in Hbin.
    rewrite <- (counted_idle s runs free live cnt base (Small b) Hok Hr Hcnt). cbn. rewrite (Hcnt base b Hr).
    destruct (slot_base s runs free live Hok b a (mm_free _ _ _ _ Hok b a Ha)) as (base' & _ & _ & _ & _ & Hu).
    split; intros [_ Hno]; (split; [done|]).
    - intros E. apply Hno; [lia|]. by exists base.
    - intros _ (base2 & Hr2 & Hin2 & E2). rewrite (Hu base2 Hr2 Hin2), <- (Hu base Hr Hin) in E2. done. }
  split; cbn [hp mem pages].
  - done.
  - done.
  - intros b Hbin. rewrite K3. by apply K6.
  - intros b a Ha. pose proof Ha as Ha'. apply K7 in Ha' as [Ha' _]. pose proof (mm_free _ _ _ _ Hok b a Ha') as Hslot.
    destruct (slot_base s runs free live Hok b a Hslot) as (base & Hr & Hin & _ & Hsl & _).
    destruct Hslot as (_ & _ & _ & Hbin & H1 & _). eapply slot_elem; [done|done| |exact Hsl]. by eapply Hkept.
  - done.
  - intros a b Hl. destruct (mm_live _ _ _ _ Hok a b Hl) as [Hslot Hno]. split; [|by intros [? _]%K7].
    destruct (slot_base s runs free live Hok b a Hslot) as (base & Hr & _ & _ & Hsl & _).
    destruct Hslot as (_ & _ & _ & Hbin & H1 & _). eapply slot_elem; [done|done| |exact Hsl]. apply lookup_kept. split; [done|].
    intros [_ Hidle]. cbn in Hidle. rewrite Forall_forall in Hidle. by rewrite Hidle in Hl.
  - intros b a Hslot. pose proof (slot_at_kept live runs b a Hslot) as Hslot0.
    destruct (mm_all _ _ _ _ Hok b a Hslot0) as [Ha|]; [left|by right].
    destruct (slot_base s runs free live Hok b a Hslot0) as (base & Hr & Hin & _ & _ & Hu).
    apply (Hkept b a base Hr Hin Ha). destruct Hslot as (base' & j & Hr' & Hbin & H1 & Hj & ->).
    pose proof Hr' as Hr0. apply lookup_kept in Hr0 as [Hr0 _].
    destruct (slot_in_run runs b base' j Hr0 Hbin H1 Hj). destruct (slot_size b Hbin H1) as (Hs & _).
    rewrite <- (Hu base' Hr0); [done|]. unfold in_block. lia.
  - done.
Qed.

Section Total.
Context (below_average : Z -> bool).

(** What the collector does: it returns the size of the idle runs, and these
    runs and their free slots are gone. *)
Lemma zend_mm_gc_ok s runs free live : mm_ok s runs free live ->
  exists s' free', zend_mm_gc below_average s = Some (Ret (total_pages (idle_runs live runs) * ZEND_MM_PAGE_SIZE), s') /\
    mm_ok s' (kept_runs live runs) free' live /\
    (forall b a, a ∈ free' b <-> a ∈ free b /\ slot_at (kept_runs live runs) b a) /\
    forall x, client_word runs live x -> mem s' x = mem s x.
Proof.
  intros Hok. unfold zend_mm_gc.
  destruct (gc_bins_ok s runs free live Hok (gc_fuel (pages s)) (fun b => free_short s runs free live b Hok) 30 0 s (fun _ => 0) free)
    as (s1 & cnt & free1 & -> & Hb); [lia|done|by apply (bins_ok_init s runs free live)|].
  rewrite some_bind. pose proof Hb as [K1 K2 K3 K4 K5 _ K7 _ _ K9 K10 _].
  assert (forall base b, runs !! base = Some (Small b) -> cnt base = final_count runs free base) as Hcnt.
  { intros base b Hr. rewrite (K5 base b Hr). pose proof (small_bin s runs free live Hok base b Hr) as Hbin.
    unfold is_bin in Hbin. by destruct (Z.ltb_spec b ZEND_MM_BINS); [|lia]. }
  destruct (sweep_ring_ok below_average cnt (ring (pages s1)) [] (pages s1) runs 0) as (h' & runs' & -> & Hh & Hc & Hr').
  { by apply (heap_runs_ring (pages s1) runs); [|apply K1|]. }
  { by intros e q b ?%not_elem_of_nil. } { done. }
  { intros a b Hr. rewrite (Hcnt a b Hr). pose proof (small_bin s runs free live Hok a b Hr) as Hbin.
    destruct (decide (1 <= b)) as [H1|].
    - pose proof (final_count_bound s runs free live Hok a b Hr Hbin H1). destruct (slot_size b Hbin H1). lia.
    - assert (b = 0) as -> by (unfold is_bin in Hbin; lia).
      rewrite (final_count_eq runs free a 0 Hr), (free_bin0 s runs free live Hok). done. }
  assert (runs' = kept_runs live runs) as ->.
  { apply map_eq. intros a. apply option_eq. intros r. rewrite Hr', lookup_kept.
    split; intros [Hr Hno]; (split; [done|]); rewrite <- ?(counted_idle s runs free live cnt a r Hok Hr Hcnt) in *.
    - intros Hfull. apply Hno. split; [|done]. destruct (ck_dom _ _ _ (hr_chunks _ _ K1) a r Hr) as (e & q & He & Hq & ->).
      exists e. split; [done|by apply page_in_chunk].
    - tauto. }
  rewrite some_bind. cbn [fst snd app]. eexists _, free1. split.
  - do 3 f_equal. rewrite (used_total _ _ _ (hr_chunks _ _ K1)), (used_total _ _ _ (hr_chunks _ _ Hh)), (total_filter (idle_run live) runs).
    unfold idle_runs, kept_runs. f_equal. lia.
  - pose proof (gc_mm_ok s runs free live s1 cnt free1 h' Hok Hb Hcnt (conj Hh Hc)) as Hok'. split; [done|]. split.
    + intros b a. split.
      * intros Ha. split; [by apply K7|]. by apply (mm_free _ _ _ _ Hok').
      * intros [Ha Hslot]. destruct (mm_all _ _ _ _ Hok' b a Hslot) as [|Hl]; [done|].
        by destruct (mm_live _ _ _ _ Hok a b Hl).
    + intros x Hx. cbn [mem]. apply K10. intros b a Ha Hw.
      destruct (slot_facts _ _ b a (mm_pages _ _ _ _ Hok) (mm_free _ _ _ _ Hok b a Ha)) as (_ & _ & _ & _ & _ & ? & _).
      apply (client_not_free s runs free live b a x Hok Ha Hx). unfold slot_words, shadow_addr in Hw. lia.
Qed.
End Total.
End Frame.
