(* ===== verification/MmPages.v ===== *)
(** Page allocation over all chunks ([zend_mm_alloc_pages] in
    src/Zend/zend_alloc.c): the search of the ring, a chunk from the cache or
    from the system, and the collector where the memory limit or the system
    refuses a new chunk.  This is the page source of the small allocations. *)

From stdpp Require Import base numbers list gmap.
From S2P Require Import Prelude.
From S2P Require Import MmBitset.
From S2P Require Import MmBins.
From S2P Require Import MmChunk.
From S2P Require Import MmRuns.
From S2P Require Import MmSlots.
From S2P Require Import MmHeap.
From S2P Require Import MmGc.

Definition set_pages (h : chunk_heap) (s : mm chunk_heap) : mm chunk_heap := mk_mm (hp s) (mem s) h.

Section Pages.
(** The address the system returns on the [n]-th call for a number of bytes at a
    multiple of the chunk size, given the regions it has mapped. *)
Context (chunk_alloc : nat -> list (Z * Z) -> Z -> option Z) (below_average : Z -> bool).

(** A chunk was mapped at [a]: the statistics. *)
Definition new_chunk (a : Z) (s : mm chunk_heap) : outcome (Z * zend_mm_chunk) * mm chunk_heap :=
  let size := u64 (real_size (pages s) + ZEND_MM_CHUNK_SIZE) in
  (Ret (a, zeroed_chunk), set_pages (set_real size (Z.max (real_peak (pages s)) size) (pages s)) s).

(** The label [get_chunk:]; [n] bounds the jumps to it, which follow a
    collection.  [overflow] is 0 (it is set only while the error is reported). *)
Fixpoint get_chunk (n : nat) (s : mm chunk_heap) : option (outcome (Z * zend_mm_chunk) * mm chunk_heap) :=
  let h := pages s in
  match cached_chunks h with
  | e :: l => Some (Ret (ce_addr e, ce_chunk e), set_pages (set_cached l (cached_chunks_count h - 1) h) s)
  | [] =>
      if u64 (limit h - real_size h) <? ZEND_MM_CHUNK_SIZE then
        match n with
        | O => None
        | S n =>
            r ← zend_mm_gc below_average s;
            match r with
            | (Ret collected, s) => if negb (collected =? 0) then get_chunk n s else Some (NoMemory, s)
            | (_, s) => Some (Panic, s)
            end
        end
      else
        let s1 := set_pages (count_call h) s in
        match chunk_alloc (sys_calls h) (mapped h) ZEND_MM_CHUNK_SIZE with
        | Some a => Some (new_chunk a s1)
        | None =>
            r ← zend_mm_gc below_average s1;
            match r with
            | (Ret collected, s) =>
                if negb (collected =? 0) then
                  match chunk_alloc (sys_calls (pages s)) (mapped (pages s)) ZEND_MM_CHUNK_SIZE with
                  | Some a => Some (new_chunk a (set_pages (count_call (pages s)) s))
                  | None => Some (NoMemory, set_pages (count_call (pages s)) s)
                  end
                else Some (NoMemory, s)
            | (_, s) => Some (Panic, s)
            end
        end
  end.

Definition heap_alloc_pages (pages_count : Z) (s : mm chunk_heap) : option (outcome Z * mm chunk_heap) :=
  r ← search_ring [] (ring (pages s)) pages_count;
  match r with
  | inr (before, e, after, page_num) =>
      Some (Ret (ZEND_MM_PAGE_ADDR (ce_addr e) page_num),
            set_pages (set_ring (move_to_head before e after (llen before) pages_count) (pages s)) s)
  | inl l =>
      g ← get_chunk 2 (set_pages (set_ring l (pages s)) s);
      match g with
      | (Ret (a, c), s) =>
          let h := pages s in
          let h := set_counts (chunks_count h + 1) (Z.max (peak_chunks_count h) (chunks_count h + 1)) h in
          let num := match last (ring h) with Some e => ce_num e + 1 | None => 0 end in
          let c := zend_mm_chunk_init c in
          c ← mark_run c ZEND_MM_FIRST_PAGE pages_count;
          Some (Ret (ZEND_MM_PAGE_ADDR a ZEND_MM_FIRST_PAGE),
                set_pages (set_ring (move_to_head (ring h) (mk_entry a num c) [] (llen l - 1) pages_count) h) s)
      | (NoMemory, s) => Some (NoMemory, s)
      | (Panic, s) => Some (Panic, s)
      end
  end.

#[export] Instance chunk_pages : page_alloc chunk_heap := {| zend_mm_alloc_pages := heap_alloc_pages |}.

(** What is known of the system: it returns memory that is not in use, at a multiple of the chunk size. *)
Context (chunk_alloc_ok : forall n used size a, chunk_alloc n used size = Some a -> 0 < size ->
  0 < a /\ a mod ZEND_MM_CHUNK_SIZE = 0 /\ a + size <= 2 ^ 64 /\
  forall b k, (b, k) ∈ used -> a + size <= b \/ b + k <= a).
Context {fr : heap_frame}.

(** * What a collection in between leaves to the caller *)

Record collected (s s' : mm chunk_heap) (runs runs' : gmap Z run) (free free' : Z -> list Z) (live : gmap Z Z) : Prop := mk_collected {
  gc_ok : mm_ok s' runs' free' live;
  gc_large a k : runs' !! a = Some (Large k) <-> runs !! a = Some (Large k);
  gc_free b : free b = [] -> free' b = [];
  gc_words x : client_word runs live x -> mem s' x = mem s x
}.

Lemma collected_refl s runs free live : mm_ok s runs free live -> collected s s runs runs free free live.
Proof. by split. Qed.

Lemma collected_trans s1 s2 s3 r1 r2 r3 f1 f2 f3 live : collected s1 s2 r1 r2 f1 f2 live -> collected s2 s3 r2 r3 f2 f3 live ->
  collected s1 s3 r1 r3 f1 f3 live.
Proof.
  intros [A1 A2 A3 A4] [B1 B2 B3 B4]. split; [done|..].
  - intros a k. by rewrite B2.
  - auto.
  - intros x Hx. rewrite B4; [by apply A4|]. destruct Hx as [Hx|[(a & n & Ha & Hx)|Hx]]; [by left|right; left|by right; right].
    exists a, n. by rewrite A2.
Qed.

Lemma collected_pages s s' h runs runs' free free' live : collected s s' runs runs' free free' live -> heap_at_rest h runs' ->
  collected s (set_pages h s') runs runs' free free' live.
Proof. intros [H1 H2 H3 H4] Hh. split; try done. by eapply mm_ok_pages. Qed.

Lemma lookup_kept_large live runs a k : kept_runs live runs !! a = Some (Large k) <-> runs !! a = Some (Large k).
Proof. rewrite lookup_kept. split; [by intros [? _]|]. intros Ha. split; [done|]. by intros []. Qed.

Lemma idle_kept live runs : idle_runs live (kept_runs live runs) = ∅.
Proof.
  apply map_empty. intros a. unfold idle_runs. apply map_lookup_filter_None. right. intros r [_ Hr]%lookup_kept. done.
Qed.

Lemma gc_collected s runs free live : mm_ok s runs free live ->
  exists s' free' n, zend_mm_gc below_average s = Some (Ret n, s') /\ (n <> 0 -> idle_runs live runs <> ∅) /\
    collected s s' runs (kept_runs live runs) free free' live.
Proof.
  intros Hok. destruct (zend_mm_gc_ok below_average s runs free live Hok) as (s' & free' & E & Hok' & Hf & Hw).
  exists s', free', (total_pages (idle_runs live runs) * ZEND_MM_PAGE_SIZE). split; [done|]. split; [intros Hn E0; by rewrite E0 in Hn|].
  split; [done|apply lookup_kept_large| |done].
  intros b Hb. destruct (free' b) as [|a l] eqn:Ef; [done|]. assert (a ∈ free b) as Ha by (apply Hf; rewrite Ef; by left).
  rewrite Hb in Ha. by apply not_elem_of_nil in Ha.
Qed.

(** * A chunk for new pages *)

Definition unused_chunk (c : zend_mm_chunk) : Prop :=
  map_ok (free_map c) /\ length (chunk_map c) = 512%nat /\ forall p, 1 <= p < 512 -> page_set (free_map c) p = false.

(** The state with the chunk found back in the cache. *)
Definition put_back (a : Z) (c : zend_mm_chunk) (h : chunk_heap) : chunk_heap :=
  set_cached (mk_entry a 0 (zend_mm_chunk_init c) :: cached_chunks h) (cached_chunks_count h + 1) h.

Definition chunk_found (s : mm chunk_heap) (runs : gmap Z run) (free : Z -> list Z) (live : gmap Z Z)
    (r : outcome (Z * zend_mm_chunk)) (s' : mm chunk_heap) : Prop :=
  exists runs' free', match r with
    | Ret (a, c) => unused_chunk c /\ collected s (set_pages (put_back a c (pages s')) s') runs runs' free free' live
    | NoMemory => collected s s' runs runs' free free' live /\ idle_runs live runs' = ∅
    | Panic => False
    end.

Lemma chunk_found_trans s s1 runs runs1 free free1 live r s' : collected s s1 runs runs1 free free1 live ->
  chunk_found s1 runs1 free1 live r s' -> chunk_found s runs free live r s'.
Proof.
  intros Hc (runs' & free' & Hr). exists runs', free'. destruct r as [[a c]| |]; [|done|].
  - destruct Hr as [H1 H2]. split; [done|]. by eapply collected_trans.
  - destruct Hr as [H1 H2]. split; [|done]. by eapply collected_trans.
Qed.

Lemma init_unused c : unused_chunk c -> chunk_ok (zend_mm_chunk_init c) ∅.
Proof. intros (? & ? & ?). by apply chunk_init_ok. Qed.

(** What the system returns meets no region in use. *)
Lemma fresh_region h size a : chunk_alloc (sys_calls h) (mapped h) size = Some a -> 0 < size ->
  0 < a /\ a mod ZEND_MM_CHUNK_SIZE = 0 /\ a + size <= 2 ^ 64 /\
  (forall c, c ∈ chunk_addrs h -> a + size <= c \/ c + ZEND_MM_CHUNK_SIZE <= a) /\
  (forall b k, (b, k) ∈ huge_maps h -> a + size <= b \/ b + k <= a).
Proof.
  intros Ha Hs. destruct (chunk_alloc_ok _ _ _ _ Ha Hs) as (H0 & Hm & He & Hd). do 3 (split; [done|]). split.
  - intros c Hc. apply Hd, elem_of_app. left. apply list_elem_of_fmap. by exists c.
  - intros b k Hb. by apply Hd, elem_of_app; right.
Qed.

Lemma new_chunk_ok s runs free live a h : mm_ok s runs free live ->
  h = count_call (pages s) -> chunk_alloc (sys_calls (pages s)) (mapped (pages s)) ZEND_MM_CHUNK_SIZE = Some a ->
  chunk_found s runs free live (new_chunk a (set_pages h s)).1 (new_chunk a (set_pages h s)).2.
Proof.
  intros Hok -> Ha. destruct (fresh_region _ _ _ Ha ltac:(done)) as (H0 & Hm & He & Hc & Hd).
  destruct (mm_pages _ _ _ _ Hok) as [[Hck Hap Hmaps Hreal Hrg Hcc] Hcnt].
  assert (a ∉ chunk_addrs (pages s)) as Hno by (intros Hin; destruct (Hc a Hin); unfold ZEND_MM_CHUNK_SIZE in *; lia).
  unfold chunk_addrs in Hno. rewrite elem_of_app in Hno. exists runs, free. split; [apply zeroed_map_ok|].
  apply (collected_pages s s); [by apply collected_refl|]. split; [|done]. split.
  - apply (chunks_ok_cached _ _ (mk_entry a 0 _)); [done|apply init_unused, zeroed_map_ok|done|tauto..].
  - intros x b k. unfold chunk_addrs. cbn. rewrite <- Permutation_middle. intros [->|Hx]%elem_of_cons Hb; [|by apply Hap].
    apply Hd. by rewrite Hmaps.
  - done.
  - rewrite <- Hreal. unfold real_rest, llen, chunk_addrs. cbn. rewrite <- Permutation_middle. cbn [length].
    destruct (u64_split (real_size (pages s) + ZEND_MM_CHUNK_SIZE)) as [q Eq]. apply (u64_congr _ _ q). rewrite Eq. lia.
  - apply u64_range.
  - unfold llen in *. cbn in *. lia.
Qed.

Lemma cached_chunk_ok s runs free live e l : mm_ok s runs free live -> cached_chunks (pages s) = e :: l ->
  chunk_found s runs free live (Ret (ce_addr e, ce_chunk e)) (set_pages (set_cached l (cached_chunks_count (pages s) - 1) (pages s)) s).
Proof.
  intros Hok E. destruct (mm_pages _ _ _ _ Hok) as [Hh Hc]. pose proof (hr_chunks _ _ Hh) as Hck. rewrite E in Hck.
  pose proof (empty_chunk_map (ce_chunk e) (ck_cached _ _ _ Hck e ltac:(by left))) as Hun. exists runs, free. split; [done|].
  apply (collected_pages s s); [by apply collected_refl|]. split; [|done].
  apply (heap_runs_same (pages s) _ runs); [done| | |done|done|].
  - destruct Hck as [H1 H2 H3 H4 H5]. split; try done. intros e' [->|He']%elem_of_cons; [by apply init_unused|]. apply H5. by right.
  - unfold chunk_addrs. cbn. by rewrite E.
  - pose proof (hr_cached _ _ Hh) as Hcc. rewrite E in Hcc. unfold llen in *. cbn in *. lia.
Qed.

Lemma at_rest_call h runs : heap_at_rest h runs -> heap_at_rest (count_call h) runs.
Proof. intros [[] Hc]. done. Qed.

(** After the first collection there is nothing left to collect: two visits are enough. *)
Lemma get_chunk_ok live n : forall s runs free, mm_ok s runs free live -> (1 <= n)%nat -> idle_runs live runs = ∅ \/ (2 <= n)%nat ->
  exists r s', get_chunk n s = Some (r, s') /\ chunk_found s runs free live r s'.
Proof.
  induction n as [|n IH]; intros s runs free Hok H1 Hidle; [lia|]. cbn [get_chunk].
  destruct (cached_chunks (pages s)) as [|e l] eqn:E; [|by eexists _, _; split; [done|by apply cached_chunk_ok]].
  assert (mm_ok (set_pages (count_call (pages s)) s) runs free live) as Hok1 by (eapply mm_ok_pages; [done|apply at_rest_call, (mm_pages _ _ _ _ Hok)|done..]).
  destruct (_ <? _).
  - destruct (gc_collected s runs free live Hok) as (s1 & free1 & k & -> & Hk & Hc). rewrite some_bind.
    destruct (Z.eqb_spec k 0) as [|Hk0]; cbn [negb]; [eexists _, _; split; [done|by exists (kept_runs live runs), free1; split; [|apply idle_kept]]|].
    specialize (Hk Hk0). destruct Hidle as [|Hn]; [done|].
    destruct (IH s1 _ free1 (gc_ok _ _ _ _ _ _ _ Hc) ltac:(lia) (or_introl (idle_kept live runs))) as (r & s' & -> & Hf).
    exists r, s'. split; [done|]. by eapply chunk_found_trans.
  - destruct (chunk_alloc (sys_calls (pages s)) (mapped (pages s)) ZEND_MM_CHUNK_SIZE) as [a|] eqn:Ea.
    { eexists _, _. split; [by rewrite <- surjective_pairing|]. by apply new_chunk_ok. }
    destruct (gc_collected _ runs free live Hok1) as (s1 & free1 & k & -> & _ & Hc). rewrite some_bind.
    assert (collected s s1 runs (kept_runs live runs) free free1 live) as Hc' by (destruct Hc; by split).
    pose proof (gc_ok _ _ _ _ _ _ _ Hc) as Hok2.
    destruct (Z.eqb_spec k 0) as [|Hk0]; cbn [negb]; [eexists _, _; split; [done|by exists (kept_runs live runs), free1; split; [|apply idle_kept]]|].
    destruct (chunk_alloc (sys_calls (pages s1)) (mapped (pages s1)) ZEND_MM_CHUNK_SIZE) as [a|] eqn:Ea1.
    + eexists _, _. split; [by rewrite <- surjective_pairing|]. eapply chunk_found_trans; [exact Hc'|]. by apply new_chunk_ok.
    + eexists _, _. split; [done|]. exists (kept_runs live runs), free1. split; [|apply idle_kept].
      apply collected_pages; [done|]. apply at_rest_call, (mm_pages _ _ _ _ Hok2).
Qed.
(** * The new run *)

(** A chunk that was in the cache, with its first pages taken. *)
Lemma mark_new_chunk h runs a c n : heap_at_rest (put_back a c h) runs -> unused_chunk c -> 1 <= n < 512 ->
  exists c', mark_run (zend_mm_chunk_init c) ZEND_MM_FIRST_PAGE n = Some c' /\
    runs !! ZEND_MM_PAGE_ADDR a ZEND_MM_FIRST_PAGE = None /\
    forall num l k1 k2, l ≡ₚ mk_entry a num c' :: ring h ->
      heap_at_rest (set_ring l (set_counts k1 k2 h)) (<[ZEND_MM_PAGE_ADDR a ZEND_MM_FIRST_PAGE := Large n]> runs).
Proof.
  intros [Hh Hcnt] Hun Hn. pose proof (init_unused c Hun) as Hinit. pose proof (hr_chunks _ _ Hh) as Hck.
  cbn [put_back ring cached_chunks set_cached] in Hck, Hcnt.
  pose proof (ck_nodup _ _ _ Hck) as (_ & Hdis & Hnd)%NoDup_app. cbn in Hnd. apply NoDup_cons in Hnd as [Hnc _].
  assert (a ∉ ce_addr <$> ring h) as Hnl by (intros Hin; apply (Hdis a Hin); by left).
  assert (chunk_addr a) as Ha by (apply (ck_addr _ _ _ Hck), elem_of_app; right; by left).
  apply chunks_ok_drop_cached in Hck.
  destruct (mark_run_ok (zend_mm_chunk_init c) ∅ ZEND_MM_FIRST_PAGE ZEND_MM_FIRST_PAGE n Hinit) as (c' & Hm & Hc' & _);
    unfold ZEND_MM_FIRST_PAGE in *; try lia.
  { intros p Hp. apply not_true_is_false. intros (s & r & Hr & _)%(ok_pages _ _ Hinit); [done|lia]. }
  { cbn. split; [lia|]. intros s r Hr. apply lookup_insert_Some in Hr as [[<- _]|[_ Hr]]; [lia|done]. }
  exists c'. split; [exact Hm|].
  assert (forall s, 0 <= s < 512 -> runs !! ZEND_MM_PAGE_ADDR a s = None) as Hno by (intros s Hs; by eapply no_chunk_run).
  split; [by apply Hno|]. intros num l k1 k2 Hl. split.
  - apply (heap_runs_same (put_back a c h) _ runs); [done| | |done|done|]; cbn [ring cached_chunks set_ring set_counts].
    + eapply chunks_ok_perm; [symmetry; exact Hl|].
      apply (chunks_ok_insert (ring h) (mk_entry a 0 (zend_mm_chunk_init c)) num c' (cached_chunks h) runs ∅ 1 (Large n)); try done.
      by apply chunks_ok_new.
    + unfold chunk_addrs. cbn. rewrite Hl, <- Permutation_middle. done.
    + pose proof (hr_cached _ _ Hh) as Hcc. unfold llen in *. cbn in *. lia.
  - cbn [ring set_ring set_counts]. eapply counters_perm; [symmetry; exact Hl|]. intros e s b He Hs [_ Hr]%large_insert_small.
    apply elem_of_cons in He as [->|He]; [cbn in Hr; by rewrite Hno in Hr|by apply Hcnt].
Qed.

Lemma heap_alloc_pages_ok s runs free live n : mm_ok s runs free live -> 1 <= n < 512 ->
  exists r s' runs' free', heap_alloc_pages n s = Some (r, s') /\
    (forall a k, runs' !! a = Some (Large k) <-> runs !! a = Some (Large k)) /\
    (forall b, free b = [] -> free' b = []) /\
    (forall x, client_word runs live x -> mem s' x = mem s x) /\
    match r with
    | Ret a => runs' !! a = None /\ mm_ok s' (<[a := Large n]> runs') free' live
    | NoMemory => mm_ok s' runs' free' live /\ idle_runs live runs' = ∅
    | Panic => False
    end.
Proof.
  intros Hok Hn. destruct (mm_pages _ _ _ _ Hok) as [Hh Hcnt]. unfold heap_alloc_pages.
  destruct (search_ring_ok (ring (pages s)) n (cached_chunks (pages s)) runs ltac:(lia) [] (hr_chunks _ _ Hh)) as (r & E & Hr).
  pose proof (search_ring_counters (ring (pages s)) n _ r [] runs Hcnt E) as Hsc. rewrite E, some_bind. destruct r as [l|[[[bf e] aft] p]].
  - destruct Hr as [Hl Hla]. assert (mm_ok (set_pages (set_ring l (pages s)) s) runs free live) as Hok1.
    { eapply mm_ok_pages; [done|split; [|exact Hsc]|done..]. apply (heap_runs_ring _ runs); [done|done|]. by rewrite Hla. }
    destruct (get_chunk_ok live 2 _ runs free Hok1 ltac:(lia) ltac:(by right)) as (g & s1 & -> & runs' & free' & Hg).
    rewrite some_bind. destruct g as [[a c]| |]; [|done|].
    + destruct Hg as [Hun [Hok2 Hlarge Hf Hm]].
      destruct (mark_new_chunk _ runs' a c n (mm_pages _ _ _ _ Hok2) Hun Hn) as (c' & Em & Hnone & Hnew).
      cbv zeta. rewrite Em, some_bind. eexists (Ret _), _, runs', free'. split; [reflexivity|]. do 3 (split; [done|]).
      split; [done|]. eapply (mm_ok_pages _ _ _ _ _ _ _ Hok2); [|by intros; apply slot_at_large_insert|done..].
      apply (Hnew (match last (ring (pages s1)) with Some e => ce_num e + 1 | None => 0 end)).
      etrans; [apply move_to_head_perm|]. by rewrite <- Permutation_middle, app_nil_r.
    + destruct Hg as [[Hok2 Hlarge Hf Hm] Hidle]. by exists NoMemory, s1, runs', free'.
  - destruct Hr as (Hp & Hpn & Hnone & Hck & Hla). eexists (Ret _), _, runs, free. split; [reflexivity|]. do 3 (split; [done|]).
    split; [done|]. eapply mm_ok_pages; [done| |by intros; apply slot_at_large_insert|done..]. split.
    + apply (heap_runs_ring _ runs); [done| |].
      * eapply chunks_ok_perm; [symmetry; apply move_to_head_perm|done].
      * rewrite move_to_head_perm, Hla. done.
    + cbn [ring set_ring]. eapply counters_perm; [symmetry; apply move_to_head_perm|]. apply Hsc. lia.
Qed.

#[export] Instance chunk_pages_ok : page_alloc_ok.
Proof. split. intros s runs free live n Hok Hn. by apply heap_alloc_pages_ok. Qed.

End Pages.
