(* ===== verification/MmAlloc.v ===== *)
(** Blocks inside of the chunks (src/Zend/zend_alloc.c): small and large requests
    and their release by address, over all chunks, bins and free lists.  They are
    the branches of [zend_mm_alloc_heap] and [zend_mm_free_heap] for requests that
    fit into a chunk; [MmHuge] adds the others. *)

From stdpp Require Import base numbers list gmap.
From S2P Require Import Prelude.
From S2P Require Import MmBitset.
From S2P Require Import MmBins.
From S2P Require Import MmChunk.
From S2P Require Import MmRuns.
From S2P Require Import MmSlots.
From S2P Require Import MmHeap.
From S2P Require Import MmGc.
From S2P Require Import MmPages.

Definition ZEND_MM_SIZE_TO_NUM (size alignment : Z) : Z := u64 (size + (alignment - 1)) / alignment.

(** The statistics of the heap after [delta] more bytes are in use. *)
Definition add_size (delta : Z) (h : zend_mm_heap) : zend_mm_heap :=
  let size := u64 (heap_size h + delta) in
  mk_heap size (Z.max (heap_peak h) size) (shadow_key h) (free_slot h) (huge_list h).
Definition sub_size (delta : Z) (h : zend_mm_heap) : zend_mm_heap :=
  mk_heap (u64 (heap_size h - delta)) (heap_peak h) (shadow_key h) (free_slot h) (huge_list h).

Definition set_hp (h : zend_mm_heap) (s : mm chunk_heap) : mm chunk_heap := mk_mm h (mem s) (pages s).

Section Alloc.
Context (chunk_alloc : nat -> list (Z * Z) -> Z -> option Z) (below_average : Z -> bool).
#[local] Instance source : page_alloc chunk_heap := chunk_pages chunk_alloc below_average.

Definition zend_mm_alloc_large (size : Z) (s : mm chunk_heap) : option (outcome Z * mm chunk_heap) :=
  let pages_count := ZEND_MM_SIZE_TO_NUM size ZEND_MM_PAGE_SIZE in
  r ← zend_mm_alloc_pages pages_count s;
  match r with
  | (Ret ptr, s) => Some (Ret ptr, set_hp (add_size (pages_count * ZEND_MM_PAGE_SIZE) (hp s)) s)
  | r => Some r
  end.

(** [if (size < ZEND_MM_MIN_USEABLE_BIN_SIZE) size = ZEND_MM_MIN_USEABLE_BIN_SIZE;] *)
Definition usable (size : Z) : Z := if size <? ZEND_MM_MIN_USEABLE_BIN_SIZE then ZEND_MM_MIN_USEABLE_BIN_SIZE else size.

Definition alloc_in_chunks (size : Z) (s : mm chunk_heap) : option (outcome Z * mm chunk_heap) :=
  if size <=? ZEND_MM_MAX_SMALL_SIZE then zend_mm_alloc_small (zend_mm_small_size_to_bin size) s
  else zend_mm_alloc_large size s.

(** [zend_mm_free_heap] for an address that is not a multiple of the chunk size. *)
Definition free_in_chunks (ptr : Z) (s : mm chunk_heap) : option (outcome unit * mm chunk_heap) :=
  r ← heap_free below_average ptr (pages s);
  match r with
  | HeapFreed st pages_count =>
      Some (Ret (), mk_mm (sub_size (pages_count * ZEND_MM_PAGE_SIZE) (hp s)) (mem s) st)
  | HeapSlot b => zend_mm_free_small ptr b s
  | HeapCorrupted => Some (Panic, s)
  end.

(** [zend_mm_init], with the address of the main chunk, the random key and the content of memory. *)
Definition zend_mm_init (main_chunk key : Z) (m : Z -> Z) : mm chunk_heap :=
  let e := mk_entry main_chunk 0 (zend_mm_chunk_init zeroed_chunk) in
  mk_mm (mk_heap 0 0 key (replicate 30 0) 0) m
    (mk_chunk_heap [e] [] 1 1 0 0 0 ZEND_MM_CHUNK_SIZE ZEND_MM_CHUNK_SIZE (2 ^ 63 - 1) [] 1).

(** * Blocks *)

Context (chunk_alloc_ok : forall n used size a, chunk_alloc n used size = Some a -> 0 < size ->
  0 < a /\ a mod ZEND_MM_CHUNK_SIZE = 0 /\ a + size <= 2 ^ 64 /\
  forall b k, (b, k) ∈ used -> a + size <= b \/ b + k <= a).
Context {fr : heap_frame}.
#[local] Instance source_ok : page_alloc_ok := chunk_pages_ok chunk_alloc below_average chunk_alloc_ok.

Definition is_small (size : Z) : bool := size <=? ZEND_MM_MAX_SMALL_SIZE.

(** The bytes handed out for a request of [size] bytes inside of the chunks. *)
Definition block_bytes (size : Z) : Z :=
  if is_small size then bin_data_size (zend_mm_small_size_to_bin size) else pages_of size * ZEND_MM_PAGE_SIZE.

(** A block: a live slot or a large run. *)
Definition block_at (runs : gmap Z run) (slots : gmap Z Z) (p n : Z) : Prop :=
  (exists b, slots !! p = Some b /\ n = bin_data_size b) \/
  (exists k, runs !! p = Some (Large k) /\ n = k * ZEND_MM_PAGE_SIZE).

(** The finite map [blocks] has the sizes of exactly the blocks in use. *)
Record heap_inv_at (s : mm chunk_heap) (runs : gmap Z run) (free : Z -> list Z) (slots blocks : gmap Z Z) : Prop := mk_heap_inv {
  hi_ok : mm_ok s runs free slots;
  hi_blocks p n : blocks !! p = Some n <-> block_at runs slots p n
}.
Definition heap_inv (s : mm chunk_heap) (blocks : gmap Z Z) : Prop :=
  exists runs free slots, heap_inv_at s runs free slots blocks.

Lemma small_bin_facts size : 16 <= size -> is_small size = true ->
  let b := zend_mm_small_size_to_bin size in is_bin b /\ 1 <= b /\ size <= bin_data_size b.
Proof.
  unfold is_small. intros Hs Hsm%Z.leb_le. cbv zeta. destruct (size_facts size ltac:(lia)) as (Hb & Hfit & _).
  split; [done|]. split; [|done]. destruct (decide (zend_mm_small_size_to_bin size = 0)) as [E|]; [|unfold is_bin in Hb; lia].
  rewrite E in Hfit. change (bin_data_size 0) with 8 in Hfit. lia.
Qed.

Lemma large_pages size : size <= ZEND_MM_MAX_LARGE_SIZE -> is_small size = false ->
  1 <= pages_of size < 512 /\ size <= pages_of size * ZEND_MM_PAGE_SIZE /\
  ZEND_MM_SIZE_TO_NUM size ZEND_MM_PAGE_SIZE = pages_of size.
Proof.
  unfold is_small, ZEND_MM_MAX_LARGE_SIZE, ZEND_MM_MAX_SMALL_SIZE, ZEND_MM_PAGE_SIZE, ZEND_MM_FIRST_PAGE. intros Hs Hsm%Z.leb_gt.
  unfold pages_of, ZEND_MM_SIZE_TO_NUM. rewrite u64_small by lia. replace (size + (4096 - 1)) with (size + 4095) by lia.
  split; [zlia|]. split; [zlia|done].
Qed.

Lemma block_bytes_fit size : 16 <= size <= ZEND_MM_MAX_LARGE_SIZE -> size <= block_bytes size <= ZEND_MM_MAX_LARGE_SIZE.
Proof.
  intros [H16 Hs]. unfold block_bytes. destruct (is_small size) eqn:E.
  - destruct (small_bin_facts size H16 E) as (Hb & _ & ?). split; [done|]. destruct (bin_facts _ Hb) as (_ & _ & ? & ? & ? & _).
    unfold ZEND_MM_MAX_LARGE_SIZE, ZEND_MM_PAGE_SIZE, ZEND_MM_FIRST_PAGE in *. nia.
  - destruct (large_pages size Hs E) as (? & ? & _). split; [done|]. unfold ZEND_MM_MAX_LARGE_SIZE, ZEND_MM_PAGE_SIZE, ZEND_MM_FIRST_PAGE in *. lia.
Qed.

(** The words of a block belong to the client, as those of a region do. *)
Lemma region_client runs slots p n x : (p, n) ∈ fr_maps -> p <= x < p + n -> client_word runs slots x.
Proof. intros Hp Hx. right; right. by exists p, n. Qed.
Lemma block_client runs slots p n x : block_at runs slots p n -> p <= x < p + n -> client_word runs slots x.
Proof.
  intros [(b & Hb & ->)|(k & Hk & ->)] Hx; [left; eauto|]. right; left. exists p, k. by split.
Qed.

(** A slot never meets a large run. *)
Lemma slot_large_disjoint s runs free slots p b a n : mm_ok s runs free slots -> slot_at runs b p ->
  runs !! a = Some (Large n) -> p + bin_data_size b <= a \/ a + n * ZEND_MM_PAGE_SIZE <= p.
Proof.
  intros Hok (base & i & Hr & Hb & H1 & Hi & ->) Ha. destruct (slot_in_run runs b base i Hr Hb H1 Hi).
  assert (base <> a) as Hne by (intros ->; congruence).
  pose proof (page_runs_disjoint _ _ base _ a _ (mm_pages _ _ _ _ Hok) Hr Ha Hne) as Hd.
  unfold run_bytes in *. cbn [run_pages] in *. lia.
Qed.

Lemma slot_no_large s runs free slots p b n : mm_ok s runs free slots -> slot_at runs b p -> runs !! p = Some (Large n) -> False.
Proof.
  intros Hok Hat Hr. pose proof (mm_pages _ _ _ _ Hok) as Hp. destruct (slot_facts _ _ b p Hp Hat) as (_ & _ & _ & _ & _ & ? & _).
  destruct (page_runs_addr _ _ p _ Hp Hr) as (_ & _ & Hn & _). unfold run_bytes in Hn. cbn [run_pages] in Hn.
  destruct (slot_large_disjoint _ _ _ _ _ _ _ _ Hok Hat Hr); lia.
Qed.

Lemma blocks_disjoint s runs free slots p1 n1 p2 n2 : mm_ok s runs free slots ->
  block_at runs slots p1 n1 -> block_at runs slots p2 n2 -> p1 <> p2 -> p1 + n1 <= p2 \/ p2 + n2 <= p1.
Proof.
  intros Hok H1 H2 Hne. pose proof (mm_pages _ _ _ _ Hok) as Hp.
  destruct H1 as [(b1 & Hb1 & ->)|(k1 & Hk1 & ->)], H2 as [(b2 & Hb2 & ->)|(k2 & Hk2 & ->)].
  - destruct (mm_live _ _ _ _ Hok p1 _ Hb1) as [Hsl1 _], (mm_live _ _ _ _ Hok p2 _ Hb2) as [Hsl2 _].
    by destruct (slots_disjoint _ _ _ _ _ _ Hp Hsl1 Hsl2) as [[-> _]|].
  - destruct (mm_live _ _ _ _ Hok p1 _ Hb1) as [Hsl1 _]. by eapply slot_large_disjoint.
  - destruct (mm_live _ _ _ _ Hok p2 _ Hb2) as [Hsl2 _].
    destruct (slot_large_disjoint _ _ _ _ _ _ _ _ Hok Hsl2 Hk1); [right|left]; done.
  - apply (page_runs_disjoint _ _ p1 _ p2 _ Hp Hk1 Hk2 Hne).
Qed.

Lemma inv_disjoint s blocks : heap_inv s blocks -> forall p1 n1 p2 n2, blocks !! p1 = Some n1 -> blocks !! p2 = Some n2 -> p1 <> p2 ->
  p1 + n1 <= p2 \/ p2 + n2 <= p1.
Proof.
  intros (runs & free & slots & [Hok Hb]) p1 n1 p2 n2 H1 H2 Hne. apply Hb in H1, H2. by eapply blocks_disjoint.
Qed.

(** A block lies inside of one chunk, behind its first page. *)
Lemma block_addr s blocks p n : heap_inv s blocks -> blocks !! p = Some n ->
  p mod 8 = 0 /\ n mod 8 = 0 /\ 16 <= n <= ZEND_MM_MAX_LARGE_SIZE /\
  exists c, c ∈ ce_addr <$> ring (pages s) /\ chunk_addr c /\ c + ZEND_MM_PAGE_SIZE <= p /\ p + n <= c + ZEND_MM_CHUNK_SIZE.
Proof.
  clear below_average. intros (runs & free & slots & [Hok Hb]) Hp%Hb. pose proof (mm_pages _ _ _ _ Hok) as Hpg. pose proof Hpg as [[Hck _ _ _ _ _] _].
  assert (exists a r, runs !! a = Some r /\ a <= p /\ p + n <= a + run_bytes r /\ p mod 8 = 0 /\ n mod 8 = 0 /\ 16 <= n)
    as (a & r & Hr & Hlo & Hhi & H8 & Hn8 & H16).
  { destruct Hp as [(b & Hsl & ->)|(k & Hk & ->)].
    - destruct (mm_live _ _ _ _ Hok p b Hsl) as [Hat _]. destruct (slot_facts _ _ b p Hpg Hat) as (_ & _ & _ & ? & _ & ? & ?).
      destruct Hat as (base & i & Hr & Hbin & Hb1 & Hi & ->). destruct (slot_in_run runs b base i Hr Hbin Hb1 Hi).
      by exists base, (Small b).
    - destruct (page_runs_addr _ _ p _ Hpg Hk) as (_ & ? & Hn & _). unfold run_bytes in Hn. cbn [run_pages] in Hn. exists p, (Large k).
      unfold run_bytes, ZEND_MM_PAGE_SIZE in *. cbn [run_pages]. split; [done|]. split; [lia|]. split; [lia|]. split; [done|]. split; [zlia|lia]. }
  split; [done|]. split; [done|]. destruct (ck_dom _ _ _ Hck a r Hr) as (e & s1 & He & Hs1 & ->).
  destruct (entry_runs _ _ _ e Hck He) as (cr & Hc & Hcr). rewrite Hcr in Hr by done.
  destruct (run_bounds _ _ Hc s1 r Hr) as (? & ? & ?). unfold run_bytes, ZEND_MM_PAGE_ADDR in *.
  unfold ZEND_MM_MAX_LARGE_SIZE, ZEND_MM_CHUNK_SIZE, ZEND_MM_PAGE_SIZE, ZEND_MM_FIRST_PAGE in *. split; [lia|].
  exists (ce_addr e). split; [by apply list_elem_of_fmap_2|]. split; [by apply (chunks_addr _ _ _ e Hck)|]. lia.
Qed.

(** A small run that is not idle holds a block. *)
Lemma kept_live s runs free slots blocks a b : heap_inv_at s runs free slots blocks -> runs !! a = Some (Small b) ->
  ~ idle_run slots (a, Small b) -> 1 <= b -> exists p n, blocks !! p = Some n /\ a <= p < a + run_bytes (Small b).
Proof.
  intros [Hok Hbl] Hr Hno H1. unfold idle_run in Hno. cbn [fst snd] in Hno.
  destruct (decide (Forall (fun p => slots !! p = None) (slot_list b a (Z.to_nat (bin_elements b))))) as [|Hex]; [by destruct Hno|].
  apply not_Forall_Exists, Exists_exists in Hex as (p & Hp & Hl); [|apply _].
  destruct (slots !! p) as [b'|] eqn:E; [|done]. exists p, (bin_data_size b'). split; [apply Hbl; left; by exists b'|].
  pose proof (small_bin s runs free slots Hok a b Hr) as Hb. destruct (slot_size b Hb H1) as (? & _ & ?).
  apply elem_slot_list in Hp as (j & Hj & ->). pose proof (slot_in_run runs b a j Hr Hb H1). lia.
Qed.

(** * Changes of the blocks *)

(** The contents of the blocks and of the regions for huge blocks are not changed. *)
Definition in_use (blocks : gmap Z Z) (p n : Z) : Prop := blocks !! p = Some n \/ (p, n) ∈ fr_maps.
Definition same_blocks (s s' : mm chunk_heap) (blocks : gmap Z Z) : Prop :=
  forall p n x, in_use blocks p n -> p <= x < p + n -> mem s' x = mem s x.

Lemma same_words s0 s s' runs free slots blocks : heap_inv_at s0 runs free slots blocks ->
  (forall x, client_word runs slots x -> mem s' x = mem s x) -> same_blocks s s' blocks.
Proof. intros [_ Hb] Hm p n x [Hp%Hb|Hp] Hx; apply Hm; [by eapply block_client|by eapply region_client]. Qed.

(** The large runs stay, and the small runs and free slots change. *)
Lemma inv_same s s' runs runs' free free' slots blocks : heap_inv_at s runs free slots blocks -> mm_ok s' runs' free' slots ->
  (forall a n, runs' !! a = Some (Large n) <-> runs !! a = Some (Large n)) -> heap_inv_at s' runs' free' slots blocks.
Proof.
  intros [_ Hb] Hok' Hsame. split; [done|]. intros p n. rewrite Hb. unfold block_at. by setoid_rewrite Hsame.
Qed.

(** A new slot; it is not the address of a block. *)
Lemma inv_new_slot s s' runs runs' free free' slots blocks p b : heap_inv_at s runs free slots blocks ->
  (forall a n, runs' !! a = Some (Large n) <-> runs !! a = Some (Large n)) -> slots !! p = None -> slot_at runs' b p ->
  mm_ok s' runs' free' (<[p := b]> slots) ->
  blocks !! p = None /\ heap_inv_at s' runs' free' (<[p := b]> slots) (<[p := bin_data_size b]> blocks).
Proof.
  intros [Hok Hb] Hsame Hnone Hat Hok'. assert (forall k, runs !! p = Some (Large k) -> False) as Hno.
  { intros k Hk%Hsame. by eapply slot_no_large. }
  split.
  - destruct (blocks !! p) as [n|] eqn:E; [|done]. apply Hb in E as [(b' & Hs & _)|(k & Hk & _)]; [congruence|by destruct (Hno k)].
  - split; [done|]. intros q n. unfold block_at. setoid_rewrite Hsame. destruct (decide (q = p)) as [->|Hne].
    + rewrite !lookup_insert_eq. split; [intros [= <-]; left; by exists b|]. intros [(b' & [= <-] & ->)|(k & Hk & _)]; [done|by destruct (Hno k)].
    + rewrite !lookup_insert_ne by done. apply Hb.
Qed.

Lemma inv_del_slot s s' runs free free' slots blocks p b : heap_inv_at s runs free slots blocks -> slots !! p = Some b ->
  mm_ok s' runs free' (delete p slots) -> heap_inv_at s' runs free' (delete p slots) (delete p blocks).
Proof.
  intros [Hok Hb] Hp Hok'. split; [done|]. intros q n. unfold block_at. destruct (decide (q = p)) as [->|Hne].
  - rewrite !lookup_delete_eq. split; [done|]. intros [(b' & ? & _)|(k & Hk & _)]; [done|].
    destruct (mm_live _ _ _ _ Hok p b Hp) as [Hat _]. exfalso. by eapply (slot_no_large s).
  - rewrite !lookup_delete_ne by done. apply Hb.
Qed.

(** A large run that is new, or has another length. *)
Lemma inv_set_large s s' runs runs' free free' slots blocks a k : heap_inv_at s runs free slots blocks ->
  (forall x n, x <> a -> runs' !! x = Some (Large n) <-> runs !! x = Some (Large n)) -> runs' !! a = Some (Large k) ->
  mm_ok s' runs' free' slots -> heap_inv_at s' runs' free' slots (<[a := k * ZEND_MM_PAGE_SIZE]> blocks).
Proof.
  intros [Hok Hb] Hsame Hk Hok'. split; [done|]. intros q n. unfold block_at. destruct (decide (q = a)) as [->|Hne].
  - rewrite lookup_insert_eq, Hk. split; [intros [= <-]; right; by exists k|]. intros [(b & Hs & _)|(k' & [= <-] & ->)]; [|done].
    destruct (mm_live _ _ _ _ Hok' a b Hs) as [Hat _]. exfalso. by eapply (slot_no_large s').
  - rewrite !lookup_insert_ne by done. rewrite Hb. unfold block_at. by setoid_rewrite Hsame.
Qed.

Lemma inv_del_large s s' runs free free' slots blocks a k : heap_inv_at s runs free slots blocks -> runs !! a = Some (Large k) ->
  mm_ok s' (delete a runs) free' slots -> heap_inv_at s' (delete a runs) free' slots (delete a blocks).
Proof.
  intros [Hok Hb] Ha Hok'. split; [done|]. intros q n. unfold block_at. destruct (decide (q = a)) as [->|Hne].
  - rewrite !lookup_delete_eq. split; [done|]. intros [(b & Hs & _)|(? & ? & _)]; [|done].
    destruct (mm_live _ _ _ _ Hok a b Hs) as [Hat _]. exfalso. by eapply (slot_no_large s).
  - rewrite !lookup_delete_ne by done. apply Hb.
Qed.

(** * Operations *)

(** Either a block that was not in use, or no memory and nothing left to
    collect, that is, every small run holds a block. *)
Definition alloc_post (s s' : mm chunk_heap) (blocks : gmap Z Z) (size : Z) (r : outcome Z) : Prop :=
  same_blocks s s' blocks /\
  match r with
  | Ret p => blocks !! p = None /\ heap_inv s' (<[p := block_bytes size]> blocks)
  | NoMemory => exists runs free slots, heap_inv_at s' runs free slots blocks /\ idle_runs slots runs = ∅
  | Panic => False
  end.

Lemma alloc_in_chunks_ok s blocks size : heap_inv s blocks -> 16 <= size <= ZEND_MM_MAX_LARGE_SIZE ->
  exists r s', alloc_in_chunks size s = Some (r, s') /\ alloc_post s s' blocks size r.
Proof.
  intros (runs & free & slots & Hinv) [H16 Hsize]. pose proof (hi_ok _ _ _ _ _ Hinv) as Hok. unfold alloc_in_chunks, alloc_post, block_bytes.
  fold (is_small size). destruct (is_small size) eqn:Hsm.
  - destruct (small_bin_facts size H16 Hsm) as (Hb & H1 & _).
    destruct (alloc_small_ok s runs free slots _ Hok Hb H1) as (r & s' & E & runs' & free' & Hsame & Hm & Hr).
    exists r, s'. split; [exact E|]. split; [by eapply same_words|]. destruct r as [p| |]; [|done|].
    + destruct Hr as (Hnone & _ & Hat & Hok').
      destruct (inv_new_slot s s' runs runs' free free' slots blocks p _ Hinv Hsame Hnone Hat Hok') as [Hpl Hinv'].
      split; [done|]. by exists runs', free', (<[p := zend_mm_small_size_to_bin size]> slots).
    + destruct Hr as [Hok' Hidle]. exists runs', free', slots. split; [by eapply inv_same|done].
  - destruct (large_pages size Hsize Hsm) as (Hpg & _ & Enum). unfold zend_mm_alloc_large. rewrite Enum.
    destruct (alloc_pages_ok s runs free slots _ Hok Hpg) as (r & s1 & runs' & free' & -> & Hsame & _ & Hm & Hr). rewrite some_bind.
    destruct r as [a| |]; [|done|].
    + destruct Hr as [Hnone Hok']. eexists (Ret a), _. split; [reflexivity|]. split; [by eapply same_words|].
      assert (heap_inv_at (set_hp (add_size (pages_of size * ZEND_MM_PAGE_SIZE) (hp s1)) s1) (<[a := Large (pages_of size)]> runs') free' slots
        (<[a := pages_of size * ZEND_MM_PAGE_SIZE]> blocks)) as Hinv'.
      { apply (inv_set_large s _ runs _ free); [done| |apply lookup_insert_eq|].
        - intros x n Hne. by rewrite lookup_insert_ne.
        - eapply mm_ok_pages; [exact Hok'|apply (mm_pages _ _ _ _ Hok')|done..]. }
      split; [|by eexists _, _, _]. destruct (blocks !! a) as [n|] eqn:E; [|done].
      apply (hi_blocks _ _ _ _ _ Hinv) in E as [(b & Hs & _)|(k & Hk%Hsame & _)]; [|congruence].
      destruct (mm_live _ _ _ _ Hok' a b Hs) as [Hat _]. exfalso. eapply (slot_no_large s1); [done|done|apply lookup_insert_eq].
    + destruct Hr as [Hok' Hidle]. eexists NoMemory, s1. split; [done|]. split; [by eapply same_words|].
      exists runs', free', slots. split; [by eapply inv_same|done].
Qed.

(** What is found at the address of a block. *)
Lemma find_block s runs free slots blocks p n : heap_inv_at s runs free slots blocks -> blocks !! p = Some n ->
  ZEND_MM_ALIGNED_OFFSET p ZEND_MM_CHUNK_SIZE <> 0 /\
  ((exists b, slots !! p = Some b /\ n = bin_data_size b /\ is_bin b /\ 1 <= b /\
      exists base, runs !! base = Some (Small b) /\ base <= p /\ p + n <= base + run_bytes (Small b)) \/
   (exists k, runs !! p = Some (Large k) /\ n = k * ZEND_MM_PAGE_SIZE)).
Proof.
  intros Hinv Hp. destruct (block_addr s blocks p n ltac:(by exists runs, free, slots) Hp) as (_ & _ & Hn & c & _ & Hc & Hlo & Hhi). split.
  - replace p with (c + (p - c)) by lia. destruct (aligned_parts c (p - c) Hc) as [_ ->]; unfold ZEND_MM_PAGE_SIZE in *; lia.
  - apply (hi_blocks _ _ _ _ _ Hinv) in Hp as [(b & Hs & ->)|Hk]; [left|by right]. pose proof (hi_ok _ _ _ _ _ Hinv) as Hok.
    destruct (mm_live _ _ _ _ Hok p b Hs) as [(base & i & Hr & Hb & H1 & Hi & ->) _]. destruct (slot_in_run runs b base i Hr Hb H1 Hi).
    exists b. do 4 (split; [done|]). by exists base.
Qed.

(** The address of a slot is given to its bin. *)
Lemma free_slot_eq s runs free slots blocks p b : heap_inv_at s runs free slots blocks -> slots !! p = Some b ->
  free_in_chunks p s = zend_mm_free_small p b s.
Proof.
  intros [Hok _] Hs. destruct (mm_pages _ _ _ _ Hok) as [Hp _]. destruct (mm_live _ _ _ _ Hok p b Hs) as [(base & i & Hr & Hb & H1 & Hi & ->) _].
  destruct (slot_in_run runs b base i Hr Hb H1 Hi). destruct (slot_size b Hb H1) as (Hs16 & _). unfold free_in_chunks.
  by rewrite (heap_free_small_ok below_average _ _ _ _ (i * bin_data_size b) Hp Hr) by lia.
Qed.

Lemma free_in_chunks_ok s blocks p n : heap_inv s blocks -> blocks !! p = Some n ->
  exists s', free_in_chunks p s = Some (Ret (), s') /\ heap_inv s' (delete p blocks) /\ same_blocks s s' (delete p blocks).
Proof.
  intros (runs & free & slots & Hinv) Hl. pose proof Hinv as [Hok Hb]. destruct (mm_pages _ _ _ _ Hok) as [Hp Hcnt].
  destruct (find_block s runs free slots blocks p n Hinv Hl) as [_ [(b & Hs & -> & _)|(k & Hk & ->)]].
  - rewrite (free_slot_eq s runs free slots blocks p b Hinv Hs).
    destruct (free_small_ok s runs free slots p b Hok Hs) as (s' & E & Hok' & _ & Hm). exists s'. split; [exact E|].
    pose proof (inv_del_slot s s' runs free _ slots blocks p b Hinv Hs Hok') as Hinv'. split; [by eexists _, _, _|].
    by eapply same_words.
  - unfold free_in_chunks. destruct (heap_free_large_ok below_average _ _ _ _ Hp Hk) as (st & -> & Hp' & Hcnt'). rewrite some_bind.
    eexists. split; [reflexivity|]. split; [|by intros ????]. exists (delete p runs), free, slots.
    eapply inv_del_large; [done|done|]. eapply mm_ok_pages; [done|split; [exact Hp'|by apply Hcnt']| |done..].
    intros. by eapply slot_at_large_delete.
Qed.

Lemma gc_heap_ok s runs free slots blocks : heap_inv_at s runs free slots blocks ->
  exists s' free', zend_mm_gc below_average s = Some (Ret (total_pages (idle_runs slots runs) * ZEND_MM_PAGE_SIZE), s') /\
    heap_inv_at s' (kept_runs slots runs) free' slots blocks /\ same_blocks s s' blocks.
Proof.
  intros Hinv. destruct (zend_mm_gc_ok below_average s runs free slots (hi_ok _ _ _ _ _ Hinv)) as (s' & free' & E & Hok' & _ & Hm).
  exists s', free'. split; [done|]. split; [|by eapply same_words]. eapply inv_same; [done|done|apply lookup_kept_large].
Qed.

(** * Writing into blocks *)

(** Memory is changed inside of blocks and regions only. *)
Lemma inv_mem s blocks m : heap_inv s blocks ->
  (forall x, m x <> mem s x -> exists p n, in_use blocks p n /\ p <= x < p + n) -> heap_inv (mk_mm (hp s) m (pages s)) blocks.
Proof.
  intros (runs & free & slots & [Hok Hb]) Hm. exists runs, free, slots. split; [|done]. pose proof Hok as [K1 K2 K3 K4 K5 K6 K7 K8].
  split; cbn; try done. intros b Hbin. apply (chain_frame _ _ (mem s)); [|by apply K3]. intros a Ha.
  pose proof (K4 b a Ha) as (_ & _ & _ & _ & H1 & _). destruct (slot_size b Hbin H1) as (Hs & _).
  assert (forall x, a <= x < a + bin_data_size b -> m x = mem s x) as Hout.
  { intros x Hx. destruct (decide (m x = mem s x)) as [|Hne]; [done|]. destruct (Hm x Hne) as (p & n & Hp & Hpx).
    exfalso. eapply (client_not_free s runs free slots b a x); [done..| |done].
    destruct Hp as [Hp%Hb|Hp]; [by eapply block_client|by eapply region_client]. }
  split; apply Hout; unfold shadow_addr; lia.
Qed.

Lemma inv_stats s blocks h : heap_inv s blocks -> shadow_key h = shadow_key (hp s) -> free_slot h = free_slot (hp s) ->
  huge_list h = huge_list (hp s) -> heap_inv (set_hp h s) blocks.
Proof.
  intros (runs & free & slots & [Hok Hb]) H1 H2 H3. exists runs, free, slots. split; [|done].
  eapply mm_ok_pages; [done|apply (mm_pages _ _ _ _ Hok)|done..].
Qed.
End Alloc.
