(* ===== verification/MmHuge.v ===== *)
(** Huge blocks of the memory manager (src/Zend/zend_alloc.c): requests that do
    not fit into a chunk are mapped by the system one by one, and a linked list
    whose nodes are small blocks of the same heap remembers their sizes.  With
    them [zend_mm_alloc_heap], [zend_mm_free_heap] and [zend_mm_size] are complete. *)

From stdpp Require Import base numbers list gmap.
From S2P Require Import Prelude.
From S2P Require Import MmBitset.
From S2P Require Import MmBins.
From S2P Require Import MmChunk.
From S2P Require Import MmRuns.
From S2P Require Import MmSlots.
From S2P Require Import MmHeap.
From S2P Require Import MmGc.
From S2P Require Import MmPages.
From S2P Require Import MmAlloc.

Definition REAL_PAGE_SIZE : Z := ZEND_MM_PAGE_SIZE.

(** [AllocNoMemory]: the fatal error that is raised when the memory limit or the
    system refuses memory and [zend_mm_gc] does not help; [AllocOverflow]: the
    size cannot be rounded up to whole pages. *)
Inductive alloc_outcome := AllocPtr (ptr : Z) | AllocNoMemory | AllocOverflow | AllocPanic.
Inductive free_outcome := FreeDone | FreePanic.

Definition alloc_status (r : outcome Z) : alloc_outcome :=
  match r with Ret p => AllocPtr p | NoMemory => AllocNoMemory | Panic => AllocPanic end.
Definition free_status (r : outcome unit) : free_outcome := match r with Ret _ => FreeDone | _ => FreePanic end.

(** The fields of a node [zend_mm_huge_list] of the list, at its address. *)
Definition SIZEOF_HUGE_LIST : Z := 24.
Definition node_ptr (m : Z -> Z) (list : Z) : Z := m list.
Definition node_size (m : Z -> Z) (list : Z) : Z := m (list + 8).
Definition node_next (m : Z -> Z) (list : Z) : Z := m (list + 16).
Definition set_node_ptr (list x : Z) (m : Z -> Z) : Z -> Z := fset m list x.
Definition set_node_size (list x : Z) (m : Z -> Z) : Z -> Z := fset m (list + 8) x.
Definition set_node_next (list x : Z) (m : Z -> Z) : Z -> Z := fset m (list + 16) x.

Definition set_mem (m : Z -> Z) (s : mm chunk_heap) : mm chunk_heap := mk_mm (hp s) m (pages s).
Definition set_huge_list (list : Z) (h : zend_mm_heap) : zend_mm_heap :=
  mk_heap (heap_size h) (heap_peak h) (shadow_key h) (free_slot h) list.

(** More steps than the list has nodes: each node has a mapping of its own. *)
Definition huge_fuel (s : mm chunk_heap) : nat := S (length (huge_maps (pages s))).

Section Huge.
Context (chunk_alloc : nat -> list (Z * Z) -> Z -> option Z) (below_average : Z -> bool).

(** * The list of huge blocks *)

Definition zend_mm_check_huge_block_size (size : Z) (s : mm chunk_heap) : bool :=
  negb (size =? 0) && (ZEND_MM_ALIGNED_OFFSET size REAL_PAGE_SIZE =? 0) && (size <=? real_size (pages s)).

(** A node is a small request, so the call of [zend_mm_alloc_heap] takes its first branch. *)
Definition zend_mm_add_huge_block (ptr size : Z) (s : mm chunk_heap) : option (outcome unit * mm chunk_heap) :=
  r ← alloc_in_chunks chunk_alloc below_average (usable SIZEOF_HUGE_LIST) s;
  match r with
  | (Ret list, s) =>
      let m := set_node_ptr list ptr (mem s) in
      let m := set_node_size list size m in
      let m := set_node_next list (huge_list (hp s)) m in
      Some (Ret (), mk_mm (set_huge_list list (hp s)) m (pages s))
  | (NoMemory, s) => Some (NoMemory, s)
  | (Panic, s) => Some (Panic, s)
  end.

Definition unlink_huge (prev list : Z) (s : mm chunk_heap) : mm chunk_heap :=
  if negb (prev =? 0) then set_mem (set_node_next prev (node_next (mem s) list) (mem s)) s
  else set_hp (set_huge_list (node_next (mem s) list) (hp s)) s.

(** The node is taken out of the list and released. *)
Definition release_node (prev list : Z) (s : mm chunk_heap) : option (outcome Z * mm chunk_heap) :=
  let s := unlink_huge prev list s in
  let size := node_size (mem s) list in
  r ← free_in_chunks below_average list s;
  match r with
  | (Ret _, s) => Some (Ret size, s)
  | (_, s) => Some (Panic, s)
  end.

Fixpoint del_huge_loop (n : nat) (prev list ptr : Z) (s : mm chunk_heap) : option (outcome Z * mm chunk_heap) :=
  match n with
  | O => None
  | S n =>
      if list =? 0 then Some (Panic, s)
      else if node_ptr (mem s) list =? ptr then release_node prev list s
      else del_huge_loop n list (node_next (mem s) list) ptr s
  end.
Definition zend_mm_del_huge_block (ptr : Z) (s : mm chunk_heap) : option (outcome Z * mm chunk_heap) :=
  del_huge_loop (huge_fuel s) 0 (huge_list (hp s)) ptr s.

Fixpoint huge_size_loop (n : nat) (list ptr : Z) (s : mm chunk_heap) : option (outcome Z) :=
  match n with
  | O => None
  | S n =>
      if list =? 0 then Some Panic
      else if node_ptr (mem s) list =? ptr then
        if zend_mm_check_huge_block_size (node_size (mem s) list) s then Some (Ret (node_size (mem s) list)) else Some Panic
      else huge_size_loop n (node_next (mem s) list) ptr s
  end.
Definition zend_mm_get_huge_block_size (ptr : Z) (s : mm chunk_heap) : option (outcome Z) :=
  huge_size_loop (huge_fuel s) (huge_list (hp s)) ptr s.

Fixpoint change_size_loop (n : nat) (list ptr size : Z) (m : Z -> Z) : option (Z -> Z) :=
  match n with
  | O => None
  | S n =>
      if list =? 0 then Some m
      else if node_ptr m list =? ptr then Some (set_node_size list size m)
      else change_size_loop n (node_next m list) ptr size m
  end.
Definition zend_mm_change_huge_block_size (ptr size : Z) (s : mm chunk_heap) : option (mm chunk_heap) :=
  m ← change_size_loop (huge_fuel s) (huge_list (hp s)) ptr size (mem s);
  Some (set_mem m s).

(** * Allocation *)

(** [if (UNEXPECTED(need > heap->limit - heap->real_size))] and what follows; [overflow] is 0. *)
Definition check_limit (need : Z) (s : mm chunk_heap) : option (outcome unit * mm chunk_heap) :=
  if u64 (limit (pages s) - real_size (pages s)) <? need then
    r ← zend_mm_gc below_average s;
    match r with
    | (Ret collected, s) =>
        if negb (collected =? 0) && (need <=? u64 (limit (pages s) - real_size (pages s)))
        then Some (Ret (), s) else Some (NoMemory, s)
    | (_, s) => Some (Panic, s)
    end
  else Some (Ret (), s).

(** One call of [zend_mm_chunk_alloc]. *)
Definition map_region (size : Z) (s : mm chunk_heap) : option Z * mm chunk_heap :=
  let h := pages s in
  match chunk_alloc (sys_calls h) (mapped h) size with
  | Some a => (Some a, set_pages (set_huge_maps ((a, size) :: huge_maps h) (count_call h)) s)
  | None => (None, set_pages (count_call h) s)
  end.

Definition map_huge (size : Z) (s : mm chunk_heap) : option (outcome Z * mm chunk_heap) :=
  match map_region size s with
  | (Some a, s) => Some (Ret a, s)
  | (None, s) =>
      r ← zend_mm_gc below_average s;
      match r with
      | (Ret collected, s) =>
          if negb (collected =? 0) then
            match map_region size s with
            | (Some a, s) => Some (Ret a, s)
            | (None, s) => Some (NoMemory, s)
            end
          else Some (NoMemory, s)
      | (_, s) => Some (Panic, s)
      end
  end.

Definition count_huge (size : Z) (s : mm chunk_heap) : mm chunk_heap :=
  let h := pages s in
  let real := u64 (real_size h + size) in
  mk_mm (add_size size (hp s)) (mem s) (set_real real (Z.max (real_peak h) real) h).

Definition zend_mm_alloc_huge (size : Z) (s : mm chunk_heap) : option (alloc_outcome * mm chunk_heap) :=
  let new_size := ZEND_MM_ALIGNED_SIZE_EX size REAL_PAGE_SIZE in
  if new_size <? size then Some (AllocOverflow, s)
  else
    l ← check_limit new_size s;
    match l with
    | (Ret _, s) =>
        a ← map_huge new_size s;
        match a with
        | (Ret ptr, s) =>
            r ← zend_mm_add_huge_block ptr new_size s;
            match r with
            | (Ret _, s) => Some (AllocPtr ptr, count_huge new_size s)
            | (NoMemory, s) => Some (AllocNoMemory, s)
            | (Panic, s) => Some (AllocPanic, s)
            end
        | (NoMemory, s) => Some (AllocNoMemory, s)
        | (Panic, s) => Some (AllocPanic, s)
        end
    | (NoMemory, s) => Some (AllocNoMemory, s)
    | (Panic, s) => Some (AllocPanic, s)
    end.

Definition zend_mm_alloc_heap (size : Z) (s : mm chunk_heap) : option (alloc_outcome * mm chunk_heap) :=
  let size := usable size in
  if size <=? ZEND_MM_MAX_LARGE_SIZE then
    r ← alloc_in_chunks chunk_alloc below_average size s;
    Some (alloc_status r.1, r.2)
  else zend_mm_alloc_huge size s.

(** * Release *)

(** [zend_mm_chunk_free]: the region is no longer mapped. *)
Definition unmap (ptr size : Z) (maps : list (Z * Z)) : list (Z * Z) := filter (fun r => r <> (ptr, size)) maps.

Definition zend_mm_free_huge (ptr : Z) (s : mm chunk_heap) : option (free_outcome * mm chunk_heap) :=
  if negb (ZEND_MM_ALIGNED_OFFSET ptr ZEND_MM_CHUNK_SIZE =? 0) then Some (FreePanic, s)
  else
    r ← zend_mm_del_huge_block ptr s;
    match r with
    | (Ret size, s) =>
        if negb (zend_mm_check_huge_block_size size s) then Some (FreePanic, s)
        else
          let h := set_huge_maps (unmap ptr size (huge_maps (pages s))) (pages s) in
          let h := set_real (u64 (real_size h - size)) (real_peak h) h in
          Some (FreeDone, mk_mm (sub_size size (hp s)) (mem s) h)
    | (_, s) => Some (FreePanic, s)
    end.

Definition zend_mm_free_heap (ptr : Z) (s : mm chunk_heap) : option (free_outcome * mm chunk_heap) :=
  if ZEND_MM_ALIGNED_OFFSET ptr ZEND_MM_CHUNK_SIZE =? 0 then
    if negb (ptr =? 0) then zend_mm_free_huge ptr s else Some (FreeDone, s)
  else
    r ← free_in_chunks below_average ptr s;
    Some (free_status r.1, r.2).

(** * Sizes *)

Definition size_in_chunk (c : zend_mm_chunk) (page_offset : Z) : option (outcome Z) :=
  info ← lload (chunk_map c) (page_offset / ZEND_MM_PAGE_SIZE);
  if is_set info ZEND_MM_IS_SRUN then Some (Ret (bin_data_size (ZEND_MM_SRUN_BIN_NUM info)))
  else if negb (is_set info ZEND_MM_IS_LRUN) then Some Panic
  else Some (Ret (ZEND_MM_LRUN_PAGES info * ZEND_MM_PAGE_SIZE)).

Definition zend_mm_size (ptr : Z) (s : mm chunk_heap) : option (outcome Z) :=
  let page_offset := ZEND_MM_ALIGNED_OFFSET ptr ZEND_MM_CHUNK_SIZE in
  if page_offset =? 0 then zend_mm_get_huge_block_size ptr s
  else
    f ← find_chunk [] (ring (pages s)) (ZEND_MM_ALIGNED_BASE ptr ZEND_MM_CHUNK_SIZE);
    size_in_chunk (ce_chunk f.1.2) page_offset.

End Huge.
