(* ===== verification/MmRegions.v ===== *)
(** The invariant of the whole heap (src/Zend/zend_alloc.c): the blocks inside of
    the chunks, the list of huge blocks, whose nodes are such blocks, the regions
    mapped for them, and the statistics that count them. *)

From stdpp Require Import base numbers list gmap.
From S2P Require Import Prelude.
From S2P Require Import MmBitset.
From S2P Require Import MmBins.
From S2P Require Import MmChunk.
From S2P Require Import MmRuns.
From S2P Require Import MmSlots.
From S2P Require Import MmHeap.
From S2P Require Import MmGc.
From S2P Require Import MmPages.
From S2P Require Import MmAlloc.
From S2P Require Import MmHuge.

(** * Disjoint regions *)

Definition sizes (l : list (Z * Z)) : Z := foldr (fun r n => r.2 + n) 0 l.

Lemma sizes_perm l l' : l ≡ₚ l' -> sizes l = sizes l'.
Proof. induction 1; unfold sizes in *; cbn [foldr]; lia. Qed.
Lemma sizes_app l l' : sizes (l ++ l') = sizes l + sizes l'.
Proof. induction l as [|r l IH]; [done|]. cbn [app]. unfold sizes in *. cbn [foldr]. rewrite IH. lia. Qed.
Lemma sizes_chunks (l : list Z) : sizes ((fun a => (a, ZEND_MM_CHUNK_SIZE)) <$> l) = ZEND_MM_CHUNK_SIZE * llen l.
Proof. induction l as [|a l IH]; [done|]. rewrite fmap_cons. unfold sizes, llen in *. cbn [foldr snd length]. rewrite IH. lia. Qed.

(** Regions inside of an interval that do not meet. *)
Record regions_ok (lo hi : Z) (l : list (Z * Z)) : Prop := mk_regions {
  rg_nodup : NoDup l.*1;
  rg_in a n : (a, n) ∈ l -> lo <= a /\ 0 < n /\ a + n <= hi;
  rg_disjoint a n b k : (a, n) ∈ l -> (b, k) ∈ l -> a <> b -> a + n <= b \/ b + k <= a
}.

Lemma regions_sub lo hi l l' : regions_ok lo hi l -> NoDup l'.*1 -> (forall r, r ∈ l' -> r ∈ l) -> regions_ok lo hi l'.
Proof. intros [_ Hin Hd] Hnd Hsub. split; [done|by intros a n ?%Hsub%Hin|]. intros a n b k ?%Hsub ?%Hsub. by apply Hd. Qed.

Lemma regions_perm lo hi l l' : l ≡ₚ l' -> regions_ok lo hi l -> regions_ok lo hi l'.
Proof. intros Hp Hl. eapply regions_sub; [done|rewrite <- Hp; apply Hl|]. intros r. by rewrite Hp. Qed.

Lemma regions_cons lo hi a n l : regions_ok lo hi l -> lo <= a -> 0 < n -> a + n <= hi ->
  (forall b k, (b, k) ∈ l -> a + n <= b \/ b + k <= a) -> regions_ok lo hi ((a, n) :: l).
Proof.
  intros [Hnd Hin Hd] Hlo Hn Hhi Ha. split.
  - cbn. apply NoDup_cons. split; [|done]. intros ([b k] & -> & Hb)%list_elem_of_fmap. cbn in *.
    destruct (Hin b k Hb) as (_ & ? & _). destruct (Ha b k Hb); lia.
  - intros b k [[= -> ->]|Hb]%elem_of_cons; [done|by apply Hin].
  - intros b k b' k' [[= -> ->]|Hb]%elem_of_cons [[= -> ->]|Hb']%elem_of_cons Hne; [done|by apply Ha|destruct (Ha b k Hb); [by right|by left]|by apply Hd].
Qed.

(** They fit into the interval together. *)
Lemma regions_total k : forall lo hi l, (length l <= k)%nat -> lo <= hi -> regions_ok lo hi l -> sizes l <= hi - lo.
Proof.
  induction k as [|k IH]; intros lo hi l Hk Hle Hl; (destruct l as [|[a n] l]; [unfold sizes; cbn; lia|cbn in Hk]); [lia|].
  destruct (rg_in _ _ _ Hl a n ltac:(by left)) as (Hlo & Hn & Hhi).
  pose proof (filter_app_complement (fun r : Z * Z => r.1 < a) l) as Hp.
  set (l1 := filter (fun r : Z * Z => r.1 < a) l) in *. set (l2 := filter (fun r : Z * Z => ~ r.1 < a) l) in *.
  pose proof (rg_nodup _ _ _ Hl) as Hnd. cbn in Hnd. apply NoDup_cons in Hnd as [Hna Hnd].
  rewrite <- Hp, fmap_app in Hnd. apply NoDup_app in Hnd as (Hnd1 & _ & Hnd2).
  assert (length l1 + length l2 = length l)%nat as Hlen by (rewrite <- length_app; by rewrite Hp).
  assert (regions_ok lo a l1) as Hl1.
  { split; [done| |].
    - intros b m [Hb Hin]%list_elem_of_filter. cbn in Hb. destruct (rg_in _ _ _ Hl b m ltac:(by right)) as (? & ? & ?).
      destruct (rg_disjoint _ _ _ Hl a n b m ltac:(by left) ltac:(by right) ltac:(lia)); lia.
    - intros b m b' m' [_ Hb]%list_elem_of_filter [_ Hb']%list_elem_of_filter. apply (rg_disjoint _ _ _ Hl); by right. }
  assert (regions_ok (a + n) hi l2) as Hl2.
  { split; [done| |].
    - intros b m [Hb Hin]%list_elem_of_filter. cbn in Hb. destruct (rg_in _ _ _ Hl b m ltac:(by right)) as (? & ? & ?).
      assert (a <> b) as Hab by (intros <-; apply Hna, list_elem_of_fmap; by exists (a, m)).
      destruct (rg_disjoint _ _ _ Hl a n b m ltac:(by left) ltac:(by right) Hab); lia.
    - intros b m b' m' [_ Hb]%list_elem_of_filter [_ Hb']%list_elem_of_filter. apply (rg_disjoint _ _ _ Hl); by right. }
  apply (IH lo a l1) in Hl1; [|lia|lia]. apply (IH (a + n) hi l2) in Hl2; [|lia|lia].
  change (sizes ((a, n) :: l)) with (n + sizes l). rewrite <- (sizes_perm _ _ Hp), sizes_app. lia.
Qed.

(** * The invariant *)

(** What the operations inside of the chunks leave as it is, in this state. *)
Definition frame_of (s : mm chunk_heap) : heap_frame :=
  {| fr_list := huge_list (hp s); fr_maps := huge_maps (pages s); fr_real := real_rest (pages s) |}.

Lemma frame_eq {fr : heap_frame} s blocks : heap_inv s blocks -> fr = frame_of s.
Proof.
  intros (runs & free & slots & [Hok _]). destruct (mm_pages _ _ _ _ Hok) as [[_ _ Hm Hr _ _] _].
  pose proof (mm_list _ _ _ _ Hok) as Hl. unfold frame_of. rewrite Hl, Hm, Hr. by destruct fr.
Qed.

(** The state of the blocks depends on the chunks, the free lists and memory only. *)
Record same_chunks (s s' : mm chunk_heap) : Prop := mk_same_chunks {
  sc_mem : mem s' = mem s;
  sc_key : shadow_key (hp s') = shadow_key (hp s);
  sc_slots : free_slot (hp s') = free_slot (hp s);
  sc_ring : ring (pages s') = ring (pages s);
  sc_cached : cached_chunks (pages s') = cached_chunks (pages s);
  sc_count : cached_chunks_count (pages s') = cached_chunks_count (pages s);
  sc_apart : apart (chunk_addrs (pages s)) (huge_maps (pages s'));
  sc_range : 0 <= real_size (pages s') < 2 ^ 64
}.

Lemma inv_frame_at s s' runs free slots blocks : heap_inv_at (fr := frame_of s) s runs free slots blocks -> same_chunks s s' ->
  heap_inv_at (fr := frame_of s') s' runs free slots blocks.
Proof.
  intros [Hok Hb] [Em Ek Ef Er Ec En Hap Hrg]. split; [|done].
  destruct Hok as [[[Hck _ _ _ _ Hcc] Hcnt] K2 K3 K4 K5 K6 K7 K8]. split; rewrite ?Em, ?Ek, ?Ef; try done.
  split; [|by rewrite Er]. split; [by rewrite Er, Ec| |done..|by rewrite Ec, En]. unfold chunk_addrs. by rewrite Er, Ec.
Qed.

Lemma inv_frame s s' blocks : heap_inv (fr := frame_of s) s blocks -> same_chunks s s' -> heap_inv (fr := frame_of s') s' blocks.
Proof. intros (runs & free & slots & Hinv) Hs. exists runs, free, slots. by eapply inv_frame_at. Qed.

(** Every small run holds a block: there is nothing left for the collector of free slots. *)
Definition all_kept (s : mm chunk_heap) (blocks : gmap Z Z) : Prop :=
  exists runs free slots, heap_inv_at (fr := frame_of s) s runs free slots blocks /\ idle_runs slots runs = ∅.

Lemma all_kept_intro {fr : heap_frame} s runs free slots blocks : heap_inv_at s runs free slots blocks -> idle_runs slots runs = ∅ ->
  all_kept s blocks.
Proof.
  intros Hinv Hidle. assert (fr = frame_of s) as -> by (eapply frame_eq; by exists runs, free, slots). by exists runs, free, slots.
Qed.

Lemma all_kept_frame s s' blocks : all_kept s blocks -> same_chunks s s' -> all_kept s' blocks.
Proof. intros (runs & free & slots & Hinv & Hidle) Hs. exists runs, free, slots. split; [by eapply inv_frame_at|done]. Qed.

(** The list of huge blocks in memory: node, address and size of the block. *)
Fixpoint huge_chain (m : Z -> Z) (head : Z) (nodes : list (Z * (Z * Z))) : Prop :=
  match nodes with
  | [] => head = 0
  | (a, (p, n)) :: nodes => head = a /\ a <> 0 /\ node_ptr m a = p /\ node_size m a = n /\ huge_chain m (node_next m a) nodes
  end.

Definition node_words (a x : Z) : Prop := x = a \/ x = a + 8 \/ x = a + 16.

Lemma huge_chain_frame m m' nodes : forall head, (forall a x, a ∈ nodes.*1 -> node_words a x -> m' x = m x) ->
  huge_chain m head nodes -> huge_chain m' head nodes.
Proof.
  induction nodes as [|[a [p n]] nodes IH]; intros head Hm Hch; [done|]. destruct Hch as (-> & Ha & Hp & Hn & Hch).
  unfold node_ptr, node_size, node_next in *. unfold node_words in Hm. cbn in Hm |- *. unfold node_ptr, node_size, node_next.
  assert (forall x, x = a \/ x = a + 8 \/ x = a + 16 -> m' x = m x) as Hx by (intros x Hx; apply (Hm a); [by left|done]).
  rewrite !Hx by tauto. do 4 (split; [done|]). apply IH; [|done]. intros b x Hb. apply Hm. by right.
Qed.

(** [counted]: the regions that [real_size] counts.  Between two requests they
    are those of the list; a region that is mapped but not in the list is lost,
    after a fatal error in between. *)
Record huge_inv (s : mm chunk_heap) (blocks : gmap Z Z) (nodes : list (Z * (Z * Z))) (counted : list (Z * Z)) : Prop := mk_huge_inv {
  hv_heap : heap_inv (fr := frame_of s) s blocks;
  hv_chain : huge_chain (mem s) (huge_list (hp s)) nodes;
  hv_nodup : NoDup nodes.*1;
  hv_node a : a ∈ nodes.*1 -> blocks !! a = Some SIZEOF_HUGE_LIST;
  hv_maps : regions_ok 1 (2 ^ 64) (huge_maps (pages s));
  hv_aligned a n : (a, n) ∈ huge_maps (pages s) -> a mod ZEND_MM_CHUNK_SIZE = 0 /\ n mod REAL_PAGE_SIZE = 0;
  hv_mapped : nodes.*2 ⊆+ huge_maps (pages s);
  hv_counted : counted ⊆+ huge_maps (pages s);
  hv_real : real_rest (pages s) = sizes counted
}.

Lemma counted_perm s blocks nodes counted counted' : counted ≡ₚ counted' -> huge_inv s blocks nodes counted -> huge_inv s blocks nodes counted'.
Proof. intros Hp []. split; try done; [by rewrite <- Hp|by rewrite <- (sizes_perm _ _ Hp)]. Qed.

Lemma chunks_regions l cached runs : chunks_ok l cached runs ->
  let addrs := (ce_addr <$> l) ++ (ce_addr <$> cached) in
  regions_ok 1 (2 ^ 64) ((fun a => (a, ZEND_MM_CHUNK_SIZE)) <$> addrs).
Proof.
  intros Hck addrs. split.
  - rewrite <- list_fmap_compose. change (fst ∘ _) with (fun a : Z => a). rewrite list_fmap_id. apply (ck_nodup _ _ _ Hck).
  - intros a n (c & [= -> ->] & Hc)%list_elem_of_fmap. destruct (ck_addr _ _ _ Hck c Hc) as (? & ? & ?).
    unfold ZEND_MM_CHUNK_SIZE in *. lia.
  - intros a n b k (c & [= -> ->] & Hc)%list_elem_of_fmap (d & [= -> ->] & Hd)%list_elem_of_fmap Hne.
    destruct (ck_addr _ _ _ Hck c Hc) as (_ & ? & _), (ck_addr _ _ _ Hck d Hd) as (_ & ? & _). unfold ZEND_MM_CHUNK_SIZE in *. zlia.
Qed.

(** All memory in use, as the system sees it, is disjoint. *)
Lemma mapped_regions {fr : heap_frame} h runs : heap_runs h runs -> regions_ok 1 (2 ^ 64) (huge_maps h) ->
  regions_ok 1 (2 ^ 64) (mapped h).
Proof.
  intros [Hck Hap Hm _ _] Hmaps. pose proof (chunks_regions _ _ _ Hck) as Hc. cbv zeta in Hc. fold (chunk_addrs h) in Hc. rewrite <- Hm in Hap.
  assert (forall a n b k, (a, n) ∈ ((fun a => (a, ZEND_MM_CHUNK_SIZE)) <$> chunk_addrs h) -> (b, k) ∈ huge_maps h -> a + n <= b \/ b + k <= a) as Hx.
  { intros a n b k (c & [= -> ->] & Hin)%list_elem_of_fmap Hb. by apply Hap. }
  split.
  - unfold mapped. rewrite fmap_app. apply NoDup_app. split; [apply Hc|]. split; [|apply Hmaps].
    intros a ([c n] & -> & Ha)%list_elem_of_fmap ([b k] & Eb & Hb)%list_elem_of_fmap. cbn in Eb. subst c.
    destruct (rg_in _ _ _ Hc b n Ha) as (_ & ? & _), (rg_in _ _ _ Hmaps b k Hb) as (_ & ? & _). destruct (Hx b n b k Ha Hb); lia.
  - intros a n [Ha|Ha]%elem_of_app; [by apply (rg_in _ _ _ Hc)|by apply (rg_in _ _ _ Hmaps)].
  - intros a n b k [Ha|Ha]%elem_of_app [Hb|Hb]%elem_of_app Hne; [by apply (rg_disjoint _ _ _ Hc)|by apply Hx| |by apply (rg_disjoint _ _ _ Hmaps)].
    destruct (Hx b k a n Hb Ha); [by right|by left].
Qed.

Lemma sizes_sub l l' : l ⊆+ l' -> (forall a n, (a, n) ∈ l' -> 0 < n) -> sizes l <= sizes l'.
Proof.
  intros (k & Hk)%submseteq_Permutation Hpos. rewrite (sizes_perm _ _ Hk), sizes_app.
  assert (forall a n, (a, n) ∈ k -> 0 < n) as H by (intros a n Hin; apply (Hpos a); rewrite Hk; apply elem_of_app; by right).
  clear Hk Hpos. induction k as [|[a n] k IH]; [unfold sizes; cbn; lia|]. change (sizes ((a, n) :: k)) with (n + sizes k).
  pose proof (H a n ltac:(by left)). assert (sizes l <= sizes l + sizes k) by (apply IH; intros b m Hb; apply (H b); by right). lia.
Qed.

Lemma real_total s blocks nodes counted counted' : huge_inv s blocks nodes counted -> counted' ⊆+ huge_maps (pages s) ->
  0 <= sizes counted' /\ ZEND_MM_CHUNK_SIZE * llen (chunk_addrs (pages s)) + sizes counted' < 2 ^ 64.
Proof.
  intros [(runs & free & slots & [Hok _]) _ _ _ Hmaps _ _ _ _] Hsub. destruct (mm_pages _ _ _ _ Hok) as [Hh _].
  assert (forall a n, (a, n) ∈ huge_maps (pages s) -> 0 < n) as Hpos by (intros a n Hin; apply (rg_in _ _ _ Hmaps a n Hin)).
  pose proof (regions_total _ 1 (2 ^ 64) _ (Nat.le_refl _) ltac:(lia) (mapped_regions _ _ Hh Hmaps)) as Htot.
  unfold mapped in Htot. rewrite sizes_app, sizes_chunks in Htot. pose proof (sizes_sub _ _ Hsub Hpos).
  split; [|lia]. apply (sizes_sub [] counted'); [apply submseteq_nil_l|]. intros a n Hin. apply (Hpos a). by eapply elem_of_submseteq.
Qed.

(** The statistics count exactly the chunks and these regions. *)
Lemma real_size_eq s blocks nodes counted : huge_inv s blocks nodes counted ->
  real_size (pages s) = ZEND_MM_CHUNK_SIZE * llen (chunk_addrs (pages s)) + sizes counted.
Proof.
  intros Hv. destruct (real_total _ _ _ _ counted Hv (hv_counted _ _ _ _ Hv)).
  destruct Hv as [(runs & free & slots & [Hok _]) _ _ _ _ _ _ _ Hreal]. destruct (mm_pages _ _ _ _ Hok) as [Hh _].
  pose proof (hr_range _ _ Hh) as Hrg. unfold real_rest in Hreal. pose proof (llen_nonneg (chunk_addrs (pages s))).
  destruct (u64_split (real_size (pages s) - ZEND_MM_CHUNK_SIZE * llen (chunk_addrs (pages s)))) as [q Eq]. rewrite Eq in Hreal.
  unfold ZEND_MM_CHUNK_SIZE in *. nia.
Qed.

(** A huge block of the list passes the check of its size. *)
Lemma huge_region s blocks nodes counted p n : huge_inv s blocks nodes counted -> (p, n) ∈ huge_maps (pages s) ->
  ZEND_MM_ALIGNED_OFFSET p ZEND_MM_CHUNK_SIZE = 0 /\ 0 < p /\ 0 < n /\ p + n <= 2 ^ 64 /\ p mod ZEND_MM_CHUNK_SIZE = 0 /\ n mod REAL_PAGE_SIZE = 0.
Proof.
  intros Hv Hin. destruct (rg_in _ _ _ (hv_maps _ _ _ _ Hv) p n Hin) as (? & ? & ?). destruct (hv_aligned _ _ _ _ Hv p n Hin) as [Hp Hn].
  split; [|repeat split; try done; lia]. unfold ZEND_MM_ALIGNED_OFFSET. change (ZEND_MM_CHUNK_SIZE - 1) with (2 ^ 21 - 1).
  by rewrite land_pred_mod by lia.
Qed.

Lemma check_size_ok s blocks nodes counted p n : huge_inv s blocks nodes counted -> (p, n) ∈ counted ->
  zend_mm_check_huge_block_size n s = true.
Proof.
  intros Hv Hin. assert ((p, n) ∈ huge_maps (pages s)) as Hm by (eapply elem_of_submseteq; [done|apply Hv]).
  destruct (huge_region _ _ _ _ p n Hv Hm) as (_ & _ & Hn & _ & _ & Hal).
  pose proof (real_size_eq _ _ _ _ Hv) as Er. pose proof (llen_nonneg (chunk_addrs (pages s))).
  assert (n <= sizes counted) as Hle.
  { replace n with (sizes [(p, n)]) by (unfold sizes; cbn; lia). apply sizes_sub; [by apply singleton_submseteq_l|].
    intros a k Hk. apply (rg_in _ _ _ (hv_maps _ _ _ _ Hv) a). eapply elem_of_submseteq; [exact Hk|apply Hv]. }
  unfold zend_mm_check_huge_block_size, ZEND_MM_ALIGNED_OFFSET, REAL_PAGE_SIZE in *. change (ZEND_MM_PAGE_SIZE - 1) with (2 ^ 12 - 1).
  rewrite land_pred_mod by lia. change (2 ^ 12) with ZEND_MM_PAGE_SIZE. rewrite Hal.
  destruct (Z.eqb_spec n 0); [lia|]. destruct (Z.leb_spec n (real_size (pages s))); [done|]. unfold ZEND_MM_CHUNK_SIZE in *. lia.
Qed.

(** Rounding up to whole pages. *)
Lemma page_round size : 0 < size < 2 ^ 64 -> let n := ZEND_MM_ALIGNED_SIZE_EX size REAL_PAGE_SIZE in
  (size <= n /\ n < size + REAL_PAGE_SIZE /\ n mod REAL_PAGE_SIZE = 0) \/ (n = 0 /\ 2 ^ 64 - REAL_PAGE_SIZE < size).
Proof.
  intros Hs. cbv zeta. unfold ZEND_MM_ALIGNED_SIZE_EX, REAL_PAGE_SIZE, ZEND_MM_PAGE_SIZE. change (4096 - 1) with (2 ^ 12 - 1).
  rewrite align_down by (lia || apply u64_range). change (2 ^ 12) with 4096.
  destruct (decide (size + (4096 - 1) < 2 ^ 64)); [left; rewrite u64_small by lia; split; [zlia|split; zlia]|right].
  assert (u64 (size + (4096 - 1)) = size + 4095 - 2 ^ 64) as -> by (rewrite (u64_congr _ (size + 4095 - 2 ^ 64) 1) by lia; apply u64_small; lia).
  split; [zlia|lia].
Qed.
