(* ===== verification/MmHugeList.v ===== *)
(** The list of huge blocks (src/Zend/zend_alloc.c): finding a block by its
    address, taking its node out and changing its size, on the list as it is in
    memory and as a Rocq list. *)

From stdpp Require Import base numbers list gmap.
From S2P Require Import Prelude.
From S2P Require Import MmBitset.
From S2P Require Import MmBins.
From S2P Require Import MmChunk.
From S2P Require Import MmRuns.
From S2P Require Import MmSlots.
From S2P Require Import MmHeap.
From S2P Require Import MmGc.
From S2P Require Import MmPages.
From S2P Require Import MmAlloc.
From S2P Require Import MmHuge.
From S2P Require Import MmRegions.

(** * The list in memory *)

(** Different nodes have different words. *)
Definition spread (nodes : list Z) : Prop :=
  forall a b, a ∈ nodes -> b ∈ nodes -> a <> b -> a + SIZEOF_HUGE_LIST <= b \/ b + SIZEOF_HUGE_LIST <= a.

Lemma spread_frame a nodes b x y : spread nodes -> a ∈ nodes -> b ∈ nodes -> a <> b -> node_words a x -> node_words b y -> x <> y.
Proof. intros Hs Ha Hb Hne Hx Hy. unfold node_words, SIZEOF_HUGE_LIST in *. destruct (Hs a b Ha Hb Hne) as [H|H]; unfold SIZEOF_HUGE_LIST in H; lia. Qed.

Lemma chain_set_other m nodes head a y v : a ∉ nodes.*1 -> spread (a :: nodes.*1) -> node_words a y ->
  huge_chain m head nodes -> huge_chain (fset m y v) head nodes.
Proof.
  intros Ha Hs Hy. apply huge_chain_frame. intros b x Hb Hx. apply fset_ne.
  eapply (spread_frame b _ a); [exact Hs|by right|by left|congruence|done|done].
Qed.

Lemma chain_cons_inv m head a p n nodes : huge_chain m head ((a, (p, n)) :: nodes) ->
  head = a /\ a <> 0 /\ node_ptr m a = p /\ node_size m a = n /\ huge_chain m (node_next m a) nodes.
Proof. done. Qed.

(** The head of a changed list. *)
Lemma chain_cons_same m m' a p n x nodes : a <> 0 -> node_ptr m a = p -> m' a = m a -> m' (a + 8) = n -> m' (a + 16) = x ->
  huge_chain m' x nodes -> huge_chain m' a ((a, (p, n)) :: nodes).
Proof. intros Ha Hp E1 E2 E3 Hch. unfold node_ptr in *. cbn. unfold node_ptr, node_size, node_next. by rewrite E1, E2, E3. Qed.

Lemma chain_unlink m l1 b q a r l2 : forall head, huge_chain m head (l1 ++ (b, q) :: (a, r) :: l2) ->
  NoDup (l1 ++ (b, q) :: (a, r) :: l2).*1 -> spread (l1 ++ (b, q) :: (a, r) :: l2).*1 ->
  huge_chain (set_node_next b (node_next m a) m) head (l1 ++ (b, q) :: l2).
Proof.
  induction l1 as [|[c [p n]] l1 IH]; intros head Hch Hnd Hs.
  - destruct q as [p n], r as [p' n']. apply chain_cons_inv in Hch as (-> & Hb & Hp & Hn & (Ea & _ & _ & _ & Hch)%chain_cons_inv).
    cbn [fmap list_fmap app fst] in *. apply NoDup_cons in Hnd as [Hbn Hnd]. unfold set_node_next.
    eapply chain_cons_same; [done|exact Hp|by apply fset_ne; lia|by rewrite fset_ne by lia|apply fset_eq|].
    apply (chain_set_other _ _ _ b); [set_solver| |unfold node_words; lia|done].
    intros x y Hx Hy. apply Hs; set_solver.
  - cbn [app] in *. apply chain_cons_inv in Hch as (-> & Hb & Hp & Hn & Hch). cbn [fmap list_fmap fst] in *.
    apply NoDup_cons in Hnd as [Hcn Hnd].
    assert (b ∈ (l1 ++ (b, q) :: (a, r) :: l2).*1) as Hbin by (rewrite fmap_app; set_solver).
    assert (forall x, node_words c x -> set_node_next b (node_next m a) m x = m x) as Hx.
    { intros x Hx. apply fset_ne. eapply (spread_frame c _ b); [exact Hs|by left|by right|congruence|done|unfold node_words; lia]. }
    eapply chain_cons_same; [done|exact Hp|apply Hx; by left|by rewrite Hx by (unfold node_words; lia)|apply Hx; unfold node_words; lia|].
    apply IH; [done|done|]. intros x y Hx' Hy. apply Hs; by right.
Qed.

Lemma chain_resize m l1 a p k l2 size : forall head, huge_chain m head (l1 ++ (a, (p, k)) :: l2) ->
  NoDup (l1 ++ (a, (p, k)) :: l2).*1 -> spread (l1 ++ (a, (p, k)) :: l2).*1 ->
  huge_chain (set_node_size a size m) head (l1 ++ (a, (p, size)) :: l2).
Proof.
  induction l1 as [|[c [q n]] l1 IH]; intros head Hch Hnd Hs.
  - apply chain_cons_inv in Hch as (-> & Hb & Hp & Hn & Hch). cbn [fmap list_fmap app fst] in *. apply NoDup_cons in Hnd as [Han Hnd].
    unfold set_node_size. eapply chain_cons_same; [done|exact Hp|by apply fset_ne; lia|apply fset_eq|by apply fset_ne; lia|].
    apply (chain_set_other _ _ _ a); [done|done|unfold node_words; lia|done].
  - cbn [app] in *. apply chain_cons_inv in Hch as (-> & Hb & Hp & Hn & Hch). cbn [fmap list_fmap fst] in *.
    apply NoDup_cons in Hnd as [Hcn Hnd].
    assert (a ∈ (l1 ++ (a, (p, k)) :: l2).*1) as Hain by (rewrite fmap_app; set_solver).
    assert (forall x, node_words c x -> set_node_size a size m x = m x) as Hx.
    { intros x Hx. apply fset_ne. eapply (spread_frame c _ a); [exact Hs|by left|by right|congruence|done|unfold node_words; lia]. }
    eapply chain_cons_same; [done|exact Hp|apply Hx; by left|by rewrite Hx by (unfold node_words; lia)|apply Hx; unfold node_words; lia|].
    apply IH; [done|done|]. intros x y Hx' Hy. apply Hs; by right.
Qed.

(** * Searching *)

Lemma node_other m (c q n p : Z) (l1 : list (Z * (Z * Z))) : p ∉ ((c, (q, n)) :: l1).*2.*1 -> node_ptr m c = q -> c <> 0 ->
  (c =? 0) = false /\ (node_ptr m c =? p) = false /\ p ∉ l1.*2.*1.
Proof. cbn. intros Hp -> Hc. split; [lia|]. split; [|set_solver]. apply Z.eqb_neq. set_solver. Qed.

Lemma size_loop_ok s a p k l2 l1 : forall n head, (length l1 < n)%nat ->
  huge_chain (mem s) head (l1 ++ (a, (p, k)) :: l2) -> p ∉ l1.*2.*1 ->
  huge_size_loop n head p s = Some (if zend_mm_check_huge_block_size k s then Ret k else Panic).
Proof.
  induction l1 as [|[c [q m]] l1 IH]; intros [|n] head Hn Hch Hp; try (cbn in Hn; lia); cbn [app] in Hch; cbn [huge_size_loop].
  - apply chain_cons_inv in Hch as (-> & Ha & -> & -> & _). rewrite (proj2 (Z.eqb_neq a 0) Ha), Z.eqb_refl.
    by destruct (zend_mm_check_huge_block_size k s).
  - apply chain_cons_inv in Hch as (-> & Hc & Hq & _ & Hch). destruct (node_other _ _ _ _ _ _ Hp Hq Hc) as (-> & -> & Hp').
    apply IH; [cbn in Hn; lia|done|done].
Qed.

Lemma resize_loop_ok m a p k l2 size l1 : forall n head, (length l1 < n)%nat ->
  huge_chain m head (l1 ++ (a, (p, k)) :: l2) -> p ∉ l1.*2.*1 -> change_size_loop n head p size m = Some (set_node_size a size m).
Proof.
  induction l1 as [|[c [q j]] l1 IH]; intros [|n] head Hn Hch Hp; try (cbn in Hn; lia); cbn [app] in Hch; cbn [change_size_loop].
  - apply chain_cons_inv in Hch as (-> & Ha & -> & _). by rewrite (proj2 (Z.eqb_neq a 0) Ha), Z.eqb_refl.
  - apply chain_cons_inv in Hch as (-> & Hc & Hq & _ & Hch). destruct (node_other _ _ _ _ _ _ Hp Hq Hc) as (-> & -> & Hp').
    apply IH; [cbn in Hn; lia|done|done].
Qed.

Lemma del_loop_ok below_average s a p k l2 l1 : forall n prev head, (length l1 < n)%nat ->
  huge_chain (mem s) head (l1 ++ (a, (p, k)) :: l2) -> p ∉ l1.*2.*1 ->
  del_huge_loop below_average n prev head p s = release_node below_average (default prev (last l1.*1)) a s.
Proof.
  induction l1 as [|[c [q m]] l1 IH]; intros [|n] prev head Hn Hch Hp; try (cbn in Hn; lia); cbn [app] in Hch; cbn [del_huge_loop].
  - apply chain_cons_inv in Hch as (-> & Ha & -> & _). by rewrite (proj2 (Z.eqb_neq a 0) Ha), Z.eqb_refl.
  - apply chain_cons_inv in Hch as (-> & Hc & Hq & _ & Hch). destruct (node_other _ _ _ _ _ _ Hp Hq Hc) as (-> & -> & Hp').
    rewrite (IH n c) by (cbn in Hn; done || lia). cbn [fmap list_fmap fst]. rewrite last_cons. by destruct (last l1.*1).
Qed.
