(* ===== verification/MmHugeOps.v ===== *)
(** Allocation and release of huge blocks (src/Zend/zend_alloc.c): every operation
    keeps the invariant of [MmRegions], and does what it says on the blocks and
    the list. *)

From stdpp Require Import base numbers list gmap.
From S2P Require Import Prelude.
From S2P Require Import MmBitset.
From S2P Require Import MmBins.
From S2P Require Import MmChunk.
From S2P Require Import MmRuns.
From S2P Require Import MmSlots.
From S2P Require Import MmHeap.
From S2P Require Import MmGc.
From S2P Require Import MmPages.
From S2P Require Import MmAlloc.
From S2P Require Import MmHuge.
From S2P Require Import MmRegions.
From S2P Require Import MmHugeList.

(** * Parts of the invariant *)

Lemma frame_parts s s' : frame_of s' = frame_of s ->
  huge_list (hp s') = huge_list (hp s) /\ huge_maps (pages s') = huge_maps (pages s) /\ real_rest (pages s') = real_rest (pages s).
Proof. unfold frame_of. by intros [= -> -> ->]. Qed.

Lemma heap_apart {fr : heap_frame} s blocks : heap_inv s blocks ->
  apart (chunk_addrs (pages s)) (huge_maps (pages s)) /\ 0 <= real_size (pages s) < 2 ^ 64.
Proof. intros (runs & free & slots & [Hok _]). destruct (mm_pages _ _ _ _ Hok) as [[_ Hap -> _ Hrg] _]. done. Qed.

Lemma nodes_spread s blocks nodes counted : huge_inv s blocks nodes counted -> spread nodes.*1.
Proof.
  intros Hv a b Ha Hb Hne. apply (inv_disjoint s blocks (hv_heap _ _ _ _ Hv)); [by apply Hv|by apply Hv|done].
Qed.

(** Changes inside of the chunks, which leave the list of nodes and its words. *)
Lemma huge_inv_step s s' blocks blocks' nodes counted : huge_inv s blocks nodes counted ->
  heap_inv (fr := frame_of s) s' blocks' -> (forall a, a ∈ nodes.*1 -> blocks' !! a = Some SIZEOF_HUGE_LIST) ->
  (forall a x, a ∈ nodes.*1 -> a <= x < a + SIZEOF_HUGE_LIST -> mem s' x = mem s x) -> huge_inv s' blocks' nodes counted.
Proof.
  intros [H1 H2 H3 H4 H5 H6 H7 H8 H9] Hinv Hnodes Hm. pose proof (frame_eq s' blocks' Hinv) as Ef. rewrite Ef in Hinv.
  symmetry in Ef. apply frame_parts in Ef as (El & Em & Er). split; rewrite ?El, ?Em, ?Er; try done.
  eapply huge_chain_frame; [|done]. intros a x Ha Hx. apply (Hm a x Ha). unfold node_words, SIZEOF_HUGE_LIST in *. lia.
Qed.

(** What an operation of the list keeps: blocks that are no nodes, and all regions. *)
Definition data (s : mm chunk_heap) (blocks : gmap Z Z) (nodes : list (Z * (Z * Z))) (p n : Z) : Prop :=
  (blocks !! p = Some n /\ p ∉ nodes.*1) \/ (p, n) ∈ huge_maps (pages s).
Definition data_same (s s' : mm chunk_heap) (blocks : gmap Z Z) (nodes : list (Z * (Z * Z))) : Prop :=
  forall p n x, data s blocks nodes p n -> p <= x < p + n -> mem s' x = mem s x.

Lemma data_in_use s blocks nodes p n : data s blocks nodes p n -> in_use (fr := frame_of s) blocks p n.
Proof. intros [[? _]|?]; [by left|by right]. Qed.

(** The words of a node are outside of the data. *)
Lemma node_no_data s blocks nodes counted a p n x : huge_inv s blocks nodes counted -> a ∈ nodes.*1 -> data s blocks nodes p n ->
  a <= x < a + SIZEOF_HUGE_LIST -> ~ (p <= x < p + n).
Proof.
  intros Hv Ha Hp Hx Hpx. pose proof (hv_heap _ _ _ _ Hv) as Hinv. pose proof (hv_node _ _ _ _ Hv a Ha) as Hab. destruct Hp as [[Hp Hno]|Hp].
  - destruct (inv_disjoint s blocks Hinv a _ p n Hab Hp ltac:(by intros ->)); lia.
  - destruct (block_addr s blocks a _ Hinv Hab) as (_ & _ & _ & c & Hc & _ & Hlo & Hhi). destruct (heap_apart s blocks Hinv) as [Hap _].
    destruct (Hap c p n ltac:(by apply elem_of_app; left) Hp); unfold ZEND_MM_PAGE_SIZE in *; lia.
Qed.

Lemma regions_nodup s blocks nodes counted : huge_inv s blocks nodes counted -> NoDup nodes.*2.*1.
Proof.
  intros Hv. pose proof (hv_mapped _ _ _ _ Hv) as [k Hk]%submseteq_Permutation. pose proof (rg_nodup _ _ _ (hv_maps _ _ _ _ Hv)) as Hnd.
  rewrite Hk, fmap_app in Hnd. by apply NoDup_app in Hnd as [Hnd _].
Qed.

(** A region of the list, and its node. *)
Lemma node_split s blocks nodes counted p k : huge_inv s blocks nodes counted -> (p, k) ∈ nodes.*2 ->
  exists l1 a l2, nodes = l1 ++ (a, (p, k)) :: l2 /\ p ∉ l1.*2.*1 /\ (length l1 < huge_fuel s)%nat.
Proof.
  intros Hv ([a [p' k']] & E & (l1 & l2 & ->)%list_elem_of_split)%list_elem_of_fmap. cbn in E. injection E as <- <-. exists l1, a, l2.
  pose proof (hv_mapped _ _ _ _ Hv) as Hsub. split; [done|]. split.
  - pose proof (regions_nodup _ _ _ _ Hv) as Hnd.
    rewrite !fmap_app in Hnd. apply NoDup_app in Hnd as (_ & Hnd & _). intros Hp. apply (Hnd p Hp). cbn. by left.
  - apply submseteq_length in Hsub. rewrite length_fmap, length_app in Hsub. unfold huge_fuel. cbn in Hsub. lia.
Qed.

(** * Reading a size *)

Lemma get_size_ok s blocks nodes counted p k : huge_inv s blocks nodes counted -> (p, k) ∈ nodes.*2 -> (p, k) ∈ counted ->
  zend_mm_get_huge_block_size p s = Some (Ret k).
Proof.
  intros Hv Hp Hcnt. destruct (node_split _ _ _ _ p k Hv Hp) as (l1 & a & l2 & -> & Hl1 & Hn). unfold zend_mm_get_huge_block_size.
  rewrite (size_loop_ok s a p k l2 l1) by (done || apply Hv). by rewrite (check_size_ok _ _ _ _ p k Hv Hcnt).
Qed.

(** * Taking a node out *)

Lemma unlink_huge_ok s blocks l1 a p k l2 counted : huge_inv s blocks (l1 ++ (a, (p, k)) :: l2) counted ->
  let s1 := unlink_huge (default 0 (last l1.*1)) a s in
  heap_inv (fr := frame_of s1) s1 blocks /\ huge_chain (mem s1) (huge_list (hp s1)) (l1 ++ l2) /\ pages s1 = pages s /\
  node_size (mem s1) a = k /\ data_same s s1 blocks (l1 ++ (a, (p, k)) :: l2).
Proof.
  intros Hv. pose proof Hv as [Hinv Hch Hnd Hnode _ _ _ _ _]. destruct (heap_apart _ _ Hinv) as [Hap Hrg]. cbv zeta.
  pose proof (nodes_spread _ _ _ _ Hv) as Hs. destruct (decide (l1 = [])) as [->|Hl1].
  - cbn [app] in Hch. apply chain_cons_inv in Hch as (Eh & Ha & Ep & Ek & Hch). cbn. split; [|done]. by apply (inv_frame s _ blocks Hinv).
  - apply exists_last in Hl1 as (l & [b q] & ->). rewrite fmap_app. cbn [fmap list_fmap fst]. rewrite last_snoc. cbn [default id]. rewrite <- app_assoc in Hch, Hnd, Hs, Hnode.
    cbn [app] in Hch, Hnd, Hs, Hnode. assert (b ∈ (l ++ (b, q) :: (a, (p, k)) :: l2).*1) as Hb by (rewrite fmap_app; set_solver).
    assert (a ∈ (l ++ (b, q) :: (a, (p, k)) :: l2).*1) as Ha by (rewrite fmap_app; set_solver).
    assert (b <> a) as Hba by (rewrite fmap_app in Hnd; apply NoDup_app in Hnd as (_ & _ & Hnd); apply NoDup_cons in Hnd as [Hnd _]; set_solver).
    assert (b <> 0) as Hb0.
    { destruct (block_addr s blocks b _ Hinv (Hnode b Hb)) as (_ & _ & _ & c & _ & (? & _) & ? & _). unfold ZEND_MM_PAGE_SIZE in *. lia. }
    change (default 0 (Some b)) with b. unfold unlink_huge. rewrite (proj2 (Z.eqb_neq b 0) Hb0). cbn [negb].
    assert (forall x, set_node_next b (node_next (mem s) a) (mem s) x <> mem s x -> x = b + 16) as Hx.
    { intros x Hx. destruct (decide (x = b + 16)); [done|]. destruct Hx. by apply fset_ne. }
    split; [|split; [|split; [done|split]]].
    + apply (inv_mem (fr := frame_of s) s blocks _ Hinv). intros x Hne%Hx. exists b, SIZEOF_HUGE_LIST. split; [left; by apply Hnode|].
      unfold SIZEOF_HUGE_LIST. lia.
    + rewrite <- app_assoc. by apply chain_unlink with (r := (p, k)).
    + assert (node_size (mem s) a = k) as <-.
      { clear -Hch. revert Hch. generalize (huge_list (hp s)). induction l as [|[c [x y]] l IH]; intros h Hch; [|by eapply IH, Hch].
        destruct q as [x y]. apply Hch. }
      unfold node_size, set_mem, set_node_next. cbn [mem]. apply fset_ne. intros E.
      apply (spread_frame b _ a (b + 16) (a + 8) Hs Hb Ha Hba); [by right; right|by right; left|done].
    + intros c n x Hc Hcx. destruct (decide (x = b + 16)) as [->|Hne]; [|by apply fset_ne]. exfalso.
      eapply (node_no_data s blocks _ counted b c n _ Hv); [|exact Hc| |exact Hcx]; [by rewrite <- app_assoc|unfold SIZEOF_HUGE_LIST; lia].
Qed.

(** * Adding a node *)

Definition link_node (l a size : Z) (s : mm chunk_heap) : mm chunk_heap :=
  mk_mm (set_huge_list l (hp s)) (set_node_next l (huge_list (hp s)) (set_node_size l size (set_node_ptr l a (mem s)))) (pages s).

Lemma link_node_ok s blocks nodes counted l a size : huge_inv s blocks nodes counted -> blocks !! l = Some SIZEOF_HUGE_LIST -> l ∉ nodes.*1 ->
  (a, size) :: nodes.*2 ⊆+ huge_maps (pages s) -> huge_inv (link_node l a size s) blocks ((l, (a, size)) :: nodes) counted.
Proof.
  intros Hv Hl Hno Hm. pose proof Hv as [Hinv Hch Hnd Hnode Hmaps Hali Hsub Hcnt Hreal]. destruct (heap_apart _ _ Hinv) as [Hap Hrg].
  set (m := set_node_next l (huge_list (hp s)) (set_node_size l size (set_node_ptr l a (mem s)))).
  assert (forall x, ~ node_words l x -> m x = mem s x) as Hx.
  { intros x Hx. unfold m, node_words, set_node_ptr, set_node_size, set_node_next in *. by rewrite !fset_ne by lia. }
  assert (heap_inv (fr := frame_of s) (set_mem m s) blocks) as Hinv1.
  { apply (inv_mem (fr := frame_of s) s blocks m Hinv). intros x Hne. exists l, SIZEOF_HUGE_LIST. split; [by left|].
    destruct (decide (l <= x < l + SIZEOF_HUGE_LIST)) as [|Hlx]; [done|]. destruct Hne. apply Hx. unfold node_words, SIZEOF_HUGE_LIST in *. lia. }
  assert (l <> 0) as Hl0.
  { destruct (block_addr s blocks l _ Hinv Hl) as (_ & _ & _ & c & _ & (? & _) & ? & _). unfold ZEND_MM_PAGE_SIZE in *. lia. }
  split; try done.
  - by apply (inv_frame (set_mem m s) _ blocks Hinv1).
  - cbn [huge_chain]. split; [done|]. split; [done|]. unfold node_ptr, node_size, node_next. cbn [link_node mem].
    unfold set_node_ptr, set_node_size, set_node_next. rewrite !fset_eq, !fset_ne, !fset_eq by lia. split; [done|]. split; [by rewrite fset_ne, fset_eq by lia|].
    eapply huge_chain_frame; [|exact Hch]. intros b x Hb Hbx. apply Hx. intros Hlx.
    assert (b <> l) as Hbl by (by intros ->). destruct (inv_disjoint s blocks Hinv b _ l _ (Hnode b Hb) Hl Hbl);
      unfold node_words, SIZEOF_HUGE_LIST in *; lia.
  - cbn. by apply NoDup_cons.
  - cbn. by intros b [->|Hb]%elem_of_cons; [|apply Hnode].
Qed.

Section Operations.
Context (chunk_alloc : nat -> list (Z * Z) -> Z -> option Z) (below_average : Z -> bool).

Lemma del_huge_ok s blocks nodes counted p k : huge_inv s blocks nodes counted -> (p, k) ∈ nodes.*2 ->
  exists l1 a l2 s', nodes = l1 ++ (a, (p, k)) :: l2 /\ zend_mm_del_huge_block below_average p s = Some (Ret k, s') /\
    huge_inv s' (delete a blocks) (l1 ++ l2) counted /\ huge_maps (pages s') = huge_maps (pages s) /\ data_same s s' blocks nodes.
Proof.
  intros Hv Hp. destruct (node_split _ _ _ _ p k Hv Hp) as (l1 & a & l2 & -> & Hl1 & Hn). unfold zend_mm_del_huge_block.
  rewrite (del_loop_ok below_average s a p k l2 l1) by (done || apply Hv). unfold release_node.
  pose proof (unlink_huge_ok s blocks l1 a p k l2 counted Hv) as Hun. cbv zeta in Hun |- *.
  set (s1 := unlink_huge (default 0 (last l1.*1)) a s) in *. clearbody s1. destruct Hun as (Hinv1 & Hch1 & Epg & -> & Hd1).
  pose proof Hv as [_ _ Hnd Hnode Hmaps Hal Hmapped Hcounted Hreal].
  assert (a ∈ (l1 ++ (a, (p, k)) :: l2).*1) as Ha by (rewrite fmap_app; set_solver).
  assert (a ∉ (l1 ++ l2).*1 /\ NoDup (l1 ++ l2).*1) as [Han Hnd'] by (apply NoDup_cons; by rewrite <- Permutation_middle in Hnd).
  destruct (free_in_chunks_ok below_average (fr := frame_of s1) s1 blocks a _ Hinv1 (Hnode a Ha)) as (s' & -> & Hinv' & Hsame). rewrite some_bind.
  assert (huge_inv s1 blocks (l1 ++ l2) counted) as Hv1.
  { split; rewrite ?Epg; try done.
    - intros b Hb. apply Hnode. rewrite fmap_app in Hb |- *. set_solver.
    - etrans; [|exact Hmapped]. rewrite !fmap_app. apply submseteq_app; [done|]. by apply submseteq_cons. }
  assert (huge_inv s' (delete a blocks) (l1 ++ l2) counted) as Hv'.
  { apply (huge_inv_step s1 _ blocks); [done|done| |].
    - intros b Hb. rewrite lookup_delete_ne by (intros ->; done). by apply (hv_node _ _ _ _ Hv1).
    - intros b x Hb Hx. apply (Hsame b SIZEOF_HUGE_LIST); [|done]. left. rewrite lookup_delete_ne by (intros ->; done). by apply (hv_node _ _ _ _ Hv1). }
  exists l1, a, l2, s'. split; [done|]. split; [done|]. split; [done|]. split.
  - pose proof (frame_eq s' _ Hinv') as Ef. symmetry in Ef. apply frame_parts in Ef as (_ & -> & _). by rewrite Epg.
  - intros q n x Hq Hx. rewrite <- (Hd1 q n x Hq Hx). apply (Hsame q n); [|done]. destruct Hq as [[Hq Hno]|Hq]; [left|right].
    + rewrite lookup_delete_ne; [done|]. by intros ->.
    + cbn. by rewrite Epg.
Qed.

(** * Allocation *)

Context (chunk_alloc_ok : forall n used size a, chunk_alloc n used size = Some a -> 0 < size ->
  0 < a /\ a mod ZEND_MM_CHUNK_SIZE = 0 /\ a + size <= 2 ^ 64 /\
  forall b k, (b, k) ∈ used -> a + size <= b \/ b + k <= a).

Lemma huge_gc_ok s blocks nodes counted : huge_inv s blocks nodes counted ->
  exists n s', zend_mm_gc below_average s = Some (Ret n, s') /\ huge_inv s' blocks nodes counted /\ all_kept s' blocks /\
    huge_maps (pages s') = huge_maps (pages s) /\ data_same s s' blocks nodes.
Proof.
  intros Hv. destruct (hv_heap _ _ _ _ Hv) as (runs & free & slots & Hinv).
  destruct (gc_heap_ok below_average (fr := frame_of s) s runs free slots blocks Hinv) as (s' & free' & E & Hinv' & Hsame).
  assert (heap_inv (fr := frame_of s) s' blocks) as Hi by (by eexists _, _, _).
  eexists _, s'. split; [exact E|]. split; [|split; [|split]].
  - apply (huge_inv_step s _ blocks); [done|done|apply Hv|]. intros a x Ha. apply Hsame. left. by apply Hv.
  - eapply all_kept_intro; [exact Hinv'|apply idle_kept].
  - pose proof (frame_eq s' _ Hi) as Ef. symmetry in Ef. by apply frame_parts in Ef as (_ & -> & _).
  - intros p n x Hp. apply Hsame. by eapply data_in_use.
Qed.

(** A request that the limit refuses is tried again after a collection. *)
Definition attempt {A} (s : mm chunk_heap) (blocks : gmap Z Z) (nodes : list (Z * (Z * Z))) (counted : list (Z * Z))
    (r : outcome A) (s' : mm chunk_heap) : Prop :=
  huge_inv s' blocks nodes counted /\ data_same s s' blocks nodes /\ (forall r, r ∈ huge_maps (pages s) -> r ∈ huge_maps (pages s')) /\
  match r with Ret _ => True | NoMemory => all_kept s' blocks | Panic => False end.

Lemma check_limit_ok s blocks nodes counted need : huge_inv s blocks nodes counted ->
  exists r s', check_limit below_average need s = Some (r, s') /\ attempt s blocks nodes counted r s'.
Proof.
  intros Hv. unfold check_limit, attempt. case_match; [|exists (Ret ()), s; split; [done|]; split; [done|]; by split; [intros ????|]].
  destruct (huge_gc_ok s blocks nodes counted Hv) as (n & s' & -> & Hv' & Hk & Em & Hd). rewrite some_bind.
  assert (forall r, r ∈ huge_maps (pages s) -> r ∈ huge_maps (pages s')) as Hsub by (intros r; by rewrite Em). destruct (_ && _); [exists (Ret ()), s'|exists NoMemory, s']; done.
Qed.

(** A region that is mapped, and not yet in the list. *)
Definition fresh_region (s : mm chunk_heap) (nodes : list (Z * (Z * Z))) (counted : list (Z * Z)) (a size : Z) : Prop :=
  (a, size) :: nodes.*2 ⊆+ huge_maps (pages s) /\ (a, size) :: counted ⊆+ huge_maps (pages s).

Lemma map_region_ok s blocks nodes counted size r s' : huge_inv s blocks nodes counted -> 0 < size -> size mod REAL_PAGE_SIZE = 0 ->
  map_region chunk_alloc size s = (r, s') -> huge_inv s' blocks nodes counted /\ mem s' = mem s /\
    match r with
    | Some a => huge_maps (pages s') = (a, size) :: huge_maps (pages s) /\ fresh_region s' nodes counted a size
    | None => huge_maps (pages s') = huge_maps (pages s) /\ (all_kept s blocks -> all_kept s' blocks)
    end.
Proof.
  intros Hv Hs Hal. pose proof Hv as [Hinv Hch Hnd Hnode Hmaps Hali Hsub Hcnt Hreal]. unfold map_region.
  destruct (heap_apart _ _ Hinv) as [Hap Hrg].
  destruct (chunk_alloc _ _ _) as [a|] eqn:E; intros [= <- <-]; [|split; [|split; [done|split; [done|]]]].
  - destruct (chunk_alloc_ok _ _ _ _ E Hs) as (Ha & Ham & Hend & Hd).
    assert (forall b k, (b, k) ∈ huge_maps (pages s) -> a + size <= b \/ b + k <= a) as Hdm by (intros b k Hb; apply Hd, elem_of_app; by right).
    split; [|split; [done|split; [done|by split; apply submseteq_skip]]]. split; try done.
    + apply (inv_frame s _ blocks Hinv). split; try done. cbn. intros b c k Hb [[= -> ->]|Hc]%elem_of_cons; [|by apply Hap].
      assert ((b, ZEND_MM_CHUNK_SIZE) ∈ mapped (pages s)) as Hbm by (apply elem_of_app; left; apply list_elem_of_fmap; by exists b).
      destruct (Hd _ _ Hbm); [by right|by left].
    + cbn. apply regions_cons; [done|lia|done|done|done].
    + cbn. intros b n [[= -> ->]|Hb]%elem_of_cons; [done|by apply Hali].
    + cbn. by apply submseteq_cons.
    + cbn. by apply submseteq_cons.
  - split; try done. by apply (inv_frame s _ blocks Hinv).
  - intros Hk. by apply (all_kept_frame s).
Qed.

Lemma map_huge_ok s blocks nodes counted size : huge_inv s blocks nodes counted -> 0 < size -> size mod REAL_PAGE_SIZE = 0 ->
  exists r s', map_huge chunk_alloc below_average size s = Some (r, s') /\ attempt s blocks nodes counted r s' /\
    match r with Ret a => fresh_region s' nodes counted a size | _ => True end.
Proof.
  intros Hv Hs Hal. unfold map_huge, attempt. destruct (map_region chunk_alloc size s) as [[a|] s1] eqn:E1;
    destruct (map_region_ok s blocks nodes counted size _ s1 Hv Hs Hal E1) as (Hv1 & Hm1 & Hr1).
  - destruct Hr1 as [Em Hf]. exists (Ret a), s1. split; [done|]. split; [|done]. split; [done|]. split; [intros ????; by rewrite Hm1|].
    split; [|done]. rewrite Em. by right.
  - destruct (huge_gc_ok s1 blocks nodes counted Hv1) as (n & s2 & -> & Hv2 & Hk & Em & Hd). rewrite some_bind. destruct Hr1 as [Hr1 _]. rewrite Hr1 in Em.
    assert (data_same s s2 blocks nodes) as Hd2.
    { intros p k x Hp Hx. rewrite <- Hm1. apply (Hd p k); [|done]. unfold data in *. by rewrite Hr1. }
    destruct (negb _); [|exists NoMemory, s2; split; [done|]; split; [|done]; do 2 (split; [done|]); by rewrite Em].
    destruct (map_region chunk_alloc size s2) as [[a|] s3] eqn:E3;
      destruct (map_region_ok s2 blocks nodes counted size _ s3 Hv2 Hs Hal E3) as (Hv3 & Hm3 & Hr3).
    + destruct Hr3 as [Em3 Hf]. exists (Ret a), s3. split; [done|]. split; [|done]. split; [done|].
      split; [intros p k x Hp Hx; rewrite Hm3; by apply (Hd2 p k)|]. split; [|done]. rewrite Em3, Em. by right.
    + destruct Hr3 as [Em3 Hk3]. exists NoMemory, s3. split; [done|]. split; [|done]. split; [done|].
      split; [intros p k x Hp Hx; rewrite Hm3; by apply (Hd2 p k)|]. rewrite Em3, Em. split; [done|by apply Hk3].
Qed.

(** The node is a new block, in front of the list. *)
Lemma add_huge_ok s blocks nodes counted a size : huge_inv s blocks nodes counted -> fresh_region s nodes counted a size ->
  exists r s', zend_mm_add_huge_block chunk_alloc below_average a size s = Some (r, s') /\ data_same s s' blocks nodes /\
    huge_maps (pages s') = huge_maps (pages s) /\
    match r with
    | Ret _ => exists l, blocks !! l = None /\
        huge_inv s' (<[l := SIZEOF_HUGE_LIST]> blocks) ((l, (a, size)) :: nodes) counted
    | NoMemory => huge_inv s' blocks nodes counted /\ all_kept s' blocks
    | Panic => False
    end.
Proof.
  intros Hv [Hf Hfc]. unfold zend_mm_add_huge_block. change (usable SIZEOF_HUGE_LIST) with SIZEOF_HUGE_LIST.
  destruct (alloc_in_chunks_ok chunk_alloc below_average chunk_alloc_ok (fr := frame_of s) s blocks SIZEOF_HUGE_LIST (hv_heap _ _ _ _ Hv) ltac:(done))
    as (r & s1 & -> & Hsame & Hr). rewrite some_bind.
  assert (data_same s s1 blocks nodes) as Hd by (intros p n x Hp; apply Hsame; by eapply data_in_use).
  assert (forall b x, b ∈ nodes.*1 -> b <= x < b + SIZEOF_HUGE_LIST -> mem s1 x = mem s x) as Hnw.
  { intros b x Hb. apply (Hsame b). left. by apply Hv. }
  destruct r as [l| |]; [|done|].
  - destruct Hr as [Hnone Hinv]. change (block_bytes SIZEOF_HUGE_LIST) with SIZEOF_HUGE_LIST in Hinv.
    eexists (Ret ()), _. split; [reflexivity|].
    assert (forall b, b ∈ nodes.*1 -> b <> l) as Hbl by (intros b Hb ->; rewrite (hv_node _ _ _ _ Hv l Hb) in Hnone; done).
    assert (huge_inv s1 (<[l := SIZEOF_HUGE_LIST]> blocks) nodes counted) as Hv1.
    { apply (huge_inv_step s _ blocks); [done|done| |done]. intros b Hb. rewrite lookup_insert_ne by (intros ->; by destruct (Hbl b)). by apply Hv. }
    pose proof (frame_eq s1 _ Hinv) as Ef. symmetry in Ef. apply frame_parts in Ef as (_ & Em & _).
    pose proof (link_node_ok s1 _ nodes counted l a size Hv1 ltac:(apply lookup_insert_eq) ltac:(by intros Hb%Hbl) ltac:(by rewrite Em)) as Hv2.
    split; [|split; [exact Em|by exists l]]. intros p n x Hp Hx. rewrite <- (Hd p n x Hp Hx). cbn [mem].
    assert (~ (l <= x < l + SIZEOF_HUGE_LIST)) as Hno.
    { intros Hlx. eapply (node_no_data _ _ _ _ l p n x Hv2); [by left| |exact Hlx|exact Hx]. destruct Hp as [[Hp Hno]|Hp].
      - left. assert (p <> l) as Hpl by congruence. split; [by rewrite lookup_insert_ne|]. cbn. by intros [->|?]%elem_of_cons.
      - right. cbn. by rewrite Em. }
    unfold set_node_ptr, set_node_size, set_node_next, SIZEOF_HUGE_LIST in *. by rewrite !fset_ne by lia.
  - destruct Hr as (runs & free & slots & Hinv & Hidle). assert (heap_inv (fr := frame_of s) s1 blocks) as Hi by (by exists runs, free, slots).
    pose proof (frame_eq s1 _ Hi) as Ef. symmetry in Ef. apply frame_parts in Ef as (_ & Em & _).
    exists NoMemory, s1. split; [done|]. split; [done|]. split; [done|]. split; [|by eapply all_kept_intro].
    apply (huge_inv_step s _ blocks); [done|done|by apply Hv|done].
Qed.

(** The statistics count the new region. *)
Lemma count_huge_ok s blocks nodes counted a size : huge_inv s blocks nodes counted -> (a, size) :: counted ⊆+ huge_maps (pages s) ->
  huge_inv (count_huge size s) blocks nodes ((a, size) :: counted).
Proof.
  intros Hv Hc. pose proof (real_size_eq _ _ _ _ Hv) as Er. destruct (real_total _ _ _ _ _ Hv Hc) as [_ Ht].
  destruct (real_total _ _ _ _ _ Hv (hv_counted _ _ _ _ Hv)) as [Hc0 _].
  pose proof (llen_nonneg (chunk_addrs (pages s))) as Hlen. pose proof Hv as [Hinv Hch Hnd Hnode Hmaps Hali Hsub Hcnt Hreal].
  destruct (heap_apart _ _ Hinv) as [Hap Hrg]. change (sizes ((a, size) :: counted)) with (size + sizes counted) in *.
  assert (0 < size) as Hpos by (apply (rg_in _ _ _ Hmaps a); eapply elem_of_submseteq; [by left|exact Hc]).
  assert (real_size (pages (count_huge size s)) = ZEND_MM_CHUNK_SIZE * llen (chunk_addrs (pages s)) + (size + sizes counted)) as En.
  { cbn. rewrite Er. rewrite u64_small; unfold ZEND_MM_CHUNK_SIZE in *; lia. }
  split; try done.
  - apply (inv_frame s _ blocks Hinv). split; try done. rewrite En. unfold ZEND_MM_CHUNK_SIZE in *. lia.
  - unfold real_rest. rewrite En. change (chunk_addrs (pages (count_huge size s))) with (chunk_addrs (pages s)).
    change (sizes ((a, size) :: counted)) with (size + sizes counted). rewrite u64_small; unfold ZEND_MM_CHUNK_SIZE in *; lia.
Qed.

Lemma data_trans s1 s2 s3 blocks nodes : data_same s1 s2 blocks nodes -> data_same s2 s3 blocks nodes ->
  (forall r, r ∈ huge_maps (pages s1) -> r ∈ huge_maps (pages s2)) -> data_same s1 s3 blocks nodes.
Proof.
  intros H1 H2 Hm p n x Hp Hx. rewrite <- (H1 p n x Hp Hx). apply (H2 p n x); [|done]. destruct Hp as [Hp|Hp]; [by left|right; by apply Hm].
Qed.

(** A huge request: a new region, or no memory and nothing left to collect, or
    a size that cannot be rounded up. *)
Lemma alloc_huge_ok s blocks nodes size : huge_inv s blocks nodes nodes.*2 -> 0 < size < 2 ^ 64 ->
  exists r s', zend_mm_alloc_huge chunk_alloc below_average size s = Some (r, s') /\ data_same s s' blocks nodes /\
    match r with
    | AllocPtr p => exists n l, size <= n /\ blocks !! l = None /\
        huge_inv s' (<[l := SIZEOF_HUGE_LIST]> blocks) ((l, (p, n)) :: nodes) ((l, (p, n)) :: nodes).*2
    | AllocNoMemory => huge_inv s' blocks nodes nodes.*2 /\ all_kept s' blocks
    | AllocOverflow => s' = s /\ 2 ^ 64 - REAL_PAGE_SIZE < size
    | AllocPanic => False
    end.
Proof.
  intros Hv Hs. unfold zend_mm_alloc_huge. pose proof (page_round size Hs) as Hn. cbv zeta in Hn |- *.
  set (n := ZEND_MM_ALIGNED_SIZE_EX size REAL_PAGE_SIZE) in *. clearbody n.
  destruct Hn as [(Hn & _ & Hal)|[-> Ho]]; [|rewrite (proj2 (Z.ltb_lt 0 size)) by lia; by exists AllocOverflow, s].
  rewrite (proj2 (Z.ltb_ge n size)) by done.
  destruct (check_limit_ok s blocks nodes nodes.*2 n Hv) as (r1 & s1 & -> & Hv1 & Hd1 & Hm1 & Hr1). rewrite some_bind.
  destruct r1 as [[]| |]; [|done|by exists AllocNoMemory, s1]. clear Hr1.
  destruct (map_huge_ok s1 blocks nodes nodes.*2 n Hv1 ltac:(lia) Hal) as (r2 & s2 & -> & (Hv2 & Hd2 & Hm2 & Hr2) & Hf). rewrite some_bind.
  pose proof (data_trans s s1 s2 blocks nodes Hd1 Hd2 Hm1) as Hd12.
  destruct r2 as [p| |]; [|done|by exists AllocNoMemory, s2]. clear Hr2.
  destruct (add_huge_ok s2 blocks nodes nodes.*2 p n Hv2 Hf) as (r3 & s3 & -> & Hd3 & Em3 & Hr3). rewrite some_bind.
  assert (data_same s s3 blocks nodes) as Hd by (apply (data_trans s s2 s3); [done|done|intros r Hr; by apply Hm2, Hm1]).
  destruct r3 as [[]| |]; [|done|by exists AllocNoMemory, s3]. destruct Hr3 as (l & Hl & Hv3).
  exists (AllocPtr p), (count_huge n s3). split; [done|]. split; [exact Hd|]. exists n, l. split; [done|]. split; [done|].
  apply (count_huge_ok s3 _ _ nodes.*2 p n Hv3). rewrite Em3. apply Hf.
Qed.

(** * Release *)

Lemma unmap_perm p n maps : NoDup maps -> (p, n) ∈ maps -> maps ≡ₚ (p, n) :: unmap p n maps.
Proof.
  intros Hnd (l1 & l2 & ->)%list_elem_of_split. unfold unmap. rewrite filter_app, filter_cons_False by tauto.
  rewrite <- Permutation_middle. apply NoDup_app in Hnd as (_ & H1 & [H2 _]%NoDup_cons).
  assert (forall l : list (Z * Z), (p, n) ∉ l -> filter (fun r => r <> (p, n)) l = l) as Hf.
  { intros l Hl. induction l as [|r l IH]; [done|]. rewrite filter_cons_True by (intros ->; apply Hl; by left).
    f_equal. apply IH. intros Hr. apply Hl. by right. }
  rewrite !Hf; [done|done|]. intros Hp. apply (H1 _ Hp). by left.
Qed.

Lemma uncount_ok s blocks nodes p n : huge_inv s blocks nodes ((p, n) :: nodes.*2) -> forall h, shadow_key h = shadow_key (hp s) ->
  free_slot h = free_slot (hp s) -> huge_list h = huge_list (hp s) ->
  let st := set_huge_maps (unmap p n (huge_maps (pages s))) (pages s) in
  huge_inv (mk_mm h (mem s) (set_real (u64 (real_size st - n)) (real_peak st) st)) blocks nodes nodes.*2.
Proof.
  intros Hv h Ek Ef El st. pose proof (real_size_eq _ _ _ _ Hv) as Er. destruct (real_total _ _ _ _ _ Hv (hv_counted _ _ _ _ Hv)) as [_ Ht].
  pose proof (llen_nonneg (chunk_addrs (pages s))) as Hlen. pose proof Hv as [Hinv Hch Hnd Hnode Hmaps Hali Hsub Hcnt Hreal].
  destruct (heap_apart _ _ Hinv) as [Hap Hrg]. change (sizes ((p, n) :: nodes.*2)) with (n + sizes nodes.*2) in *.
  assert ((p, n) ∈ huge_maps (pages s)) as Hp by (eapply elem_of_submseteq; [by left|exact Hcnt]).
  assert (0 < n) as Hpos by (apply (rg_in _ _ _ Hmaps p n Hp)).
  assert (NoDup (huge_maps (pages s))) as Hndm by (eapply NoDup_fmap_1, Hmaps).
  pose proof (unmap_perm p n _ Hndm Hp) as Hperm. set (maps := unmap p n (huge_maps (pages s))) in *.
  assert (nodes.*2 ⊆+ maps) as Hn2 by (rewrite Hperm in Hcnt; by apply (submseteq_app_inv_l _ _ [(p, n)])).
  destruct (real_total _ _ _ _ nodes.*2 Hv ltac:(rewrite Hperm; by apply submseteq_cons)) as [Hn0 _].
  assert (u64 (real_size (pages s) - n) = ZEND_MM_CHUNK_SIZE * llen (chunk_addrs (pages s)) + sizes nodes.*2) as En.
  { rewrite Er, u64_small; unfold ZEND_MM_CHUNK_SIZE in *; lia. }
  assert (forall r, r ∈ maps -> r ∈ huge_maps (pages s)) as Hin by (intros r Hr; rewrite Hperm; by right).
  split; cbn [hp mem pages st huge_maps set_real set_huge_maps]; rewrite ?El; try done.
  - apply (inv_frame s _ blocks Hinv). split; try done; cbn; rewrite ?En; [|unfold ZEND_MM_CHUNK_SIZE in *; lia].
    intros a b k Ha Hb%Hin. by apply Hap.
  - eapply regions_sub; [exact Hmaps| |exact Hin]. pose proof (rg_nodup _ _ _ Hmaps) as H1. rewrite Hperm in H1. by apply NoDup_cons in H1 as [_ H1].
  - intros a k Ha%Hin. by apply Hali.
  - unfold real_rest. cbn. rewrite En, u64_small; unfold chunk_addrs, ZEND_MM_CHUNK_SIZE in *; cbn in *; lia.
Qed.

Lemma free_huge_ok s blocks nodes p n : huge_inv s blocks nodes nodes.*2 -> (p, n) ∈ nodes.*2 ->
  exists l1 a l2 s', nodes = l1 ++ (a, (p, n)) :: l2 /\ zend_mm_free_huge below_average p s = Some (FreeDone, s') /\
    huge_inv s' (delete a blocks) (l1 ++ l2) (l1 ++ l2).*2 /\ data_same s s' blocks nodes.
Proof.
  intros Hv Hp. pose proof (elem_of_submseteq _ _ _ Hp (hv_mapped _ _ _ _ Hv)) as Hm.
  destruct (huge_region _ _ _ _ p n Hv Hm) as (Ho & _). unfold zend_mm_free_huge. rewrite Ho. cbn [Z.eqb negb].
  destruct (del_huge_ok s blocks nodes nodes.*2 p n Hv Hp) as (l1 & a & l2 & s1 & -> & -> & Hv1 & Em1 & Hd1). rewrite some_bind.
  assert ((l1 ++ (a, (p, n)) :: l2).*2 ≡ₚ (p, n) :: (l1 ++ l2).*2) as Hperm by (by rewrite <- Permutation_middle).
  rewrite (check_size_ok s1 _ _ _ p n Hv1 Hp). cbn [negb].
  exists l1, a, l2. eexists. split; [done|]. split; [reflexivity|]. split; [|exact Hd1].
  apply uncount_ok; [|done..]. by eapply counted_perm.
Qed.
End Operations.
