(* ===== verification/MmClient.v ===== *)
(** The heap as its clients see it (src/Zend/zend_alloc.c): a finite map from the
    addresses of the blocks in use, whatever their size, to the bytes they have.
    Allocation, release and [zend_mm_size] are specified on that map. *)

From stdpp Require Import base numbers list gmap.
From S2P Require Import Prelude.
From S2P Require Import MmBitset.
From S2P Require Import MmBins.
From S2P Require Import MmChunk.
From S2P Require Import MmRuns.
From S2P Require Import MmSlots.
From S2P Require Import MmHeap.
From S2P Require Import MmGc.
From S2P Require Import MmPages.
From S2P Require Import MmAlloc.
From S2P Require Import MmHuge.
From S2P Require Import MmRegions.
From S2P Require Import MmHugeList.
From S2P Require Import MmHugeOps.

(** * The client's map *)

(** The blocks inside of the chunks that are not nodes of the list, and the huge blocks. *)
Definition client_view (blocks : gmap Z Z) (nodes : list (Z * (Z * Z))) (live : gmap Z Z) : Prop :=
  forall p n, live !! p = Some n <-> (blocks !! p = Some n /\ p ∉ nodes.*1) \/ (p, n) ∈ nodes.*2.

Definition client_inv_at (s : mm chunk_heap) (blocks : gmap Z Z) (nodes : list (Z * (Z * Z))) (live : gmap Z Z) : Prop :=
  huge_inv s blocks nodes nodes.*2 /\ client_view blocks nodes live.
Definition client_inv (s : mm chunk_heap) (live : gmap Z Z) : Prop := exists blocks nodes, client_inv_at s blocks nodes live.

(** The contents of the client's blocks are not changed. *)
Definition same_contents (s s' : mm chunk_heap) (live : gmap Z Z) : Prop :=
  forall p n x, live !! p = Some n -> p <= x < p + n -> mem s' x = mem s x.

Lemma same_contents_trans s1 s2 s3 live : same_contents s1 s2 live -> same_contents s2 s3 live -> same_contents s1 s3 live.
Proof. intros H1 H2 p n x Hp Hx. rewrite <- (H1 p n x Hp Hx). by apply (H2 p n x). Qed.

Lemma same_contents_sub s s' live live' : same_contents s s' live -> live' ⊆ live -> same_contents s s' live'.
Proof. intros H Hsub p n x Hp. apply H. by eapply lookup_weaken. Qed.

Lemma live_data s blocks nodes live p n : client_inv_at s blocks nodes live -> live !! p = Some n -> data s blocks nodes p n.
Proof. intros [Hv Hw] [Hp|Hp]%Hw; [by left|right]. eapply elem_of_submseteq; [exact Hp|apply Hv]. Qed.

Lemma data_contents s s' blocks nodes live : client_inv_at s blocks nodes live -> data_same s s' blocks nodes -> same_contents s s' live.
Proof. intros Hc Hd p n x Hp. apply Hd. by eapply live_data. Qed.

(** A block of a chunk and a region of a huge block do not meet. *)
Lemma block_apart s blocks nodes counted p n q k : huge_inv s blocks nodes counted -> blocks !! p = Some n -> (q, k) ∈ huge_maps (pages s) ->
  p + n <= q \/ q + k <= p.
Proof.
  intros Hv Hp Hq. pose proof (hv_heap _ _ _ _ Hv) as Hinv. destruct (block_addr s blocks p n Hinv Hp) as (_ & _ & _ & c & Hc & _ & Hlo & Hhi).
  destruct (heap_apart s blocks Hinv) as [Hap _]. destruct (Hap c q k ltac:(by apply elem_of_app; left) Hq); unfold ZEND_MM_PAGE_SIZE in *; lia.
Qed.

Lemma region_no_block s blocks nodes counted p k : huge_inv s blocks nodes counted -> (p, k) ∈ huge_maps (pages s) -> blocks !! p = None.
Proof.
  intros Hv Hp. destruct (blocks !! p) as [n|] eqn:E; [|done]. destruct (block_addr s blocks p n (hv_heap _ _ _ _ Hv) E) as (_ & _ & ? & _).
  destruct (huge_region s _ _ _ p k Hv Hp) as (_ & _ & ? & _). destruct (block_apart _ _ _ _ _ _ _ _ Hv E Hp); lia.
Qed.

(** The blocks in use do not meet. *)
Lemma client_disjoint s live p n q k : client_inv s live -> live !! p = Some n -> live !! q = Some k -> p <> q ->
  p + n <= q \/ q + k <= p.
Proof.
  intros (blocks & nodes & Hc) Hp Hq Hne. pose proof Hc as [Hv _]. apply (live_data _ _ _ _ _ _ Hc) in Hp as [[Hp _]|Hp], Hq as [[Hq _]|Hq].
  - by apply (inv_disjoint s blocks (hv_heap _ _ _ _ Hv)).
  - by apply (block_apart _ _ _ _ _ _ _ _ Hv).
  - destruct (block_apart _ _ _ _ _ _ _ _ Hv Hq Hp); [by right|by left].
  - by apply (rg_disjoint _ _ _ (hv_maps _ _ _ _ Hv)).
Qed.

(** They are aligned words of the address space, and never at the null pointer. *)
Lemma client_addr s live p n : client_inv s live -> live !! p = Some n ->
  0 < p /\ p mod 8 = 0 /\ 16 <= n /\ n mod 8 = 0 /\ p + n <= 2 ^ 64.
Proof.
  intros (blocks & nodes & Hc) Hp. pose proof Hc as [Hv _]. apply (live_data _ _ _ _ _ _ Hc) in Hp as [[Hp _]|Hp].
  - destruct (block_addr s blocks p n (hv_heap _ _ _ _ Hv) Hp) as (? & ? & ? & c & _ & (? & ? & ?) & ? & ?).
    unfold ZEND_MM_PAGE_SIZE, ZEND_MM_CHUNK_SIZE in *. repeat split; try done; lia.
  - destruct (huge_region s _ _ _ p n Hv Hp) as (_ & ? & ? & ? & H1 & H2). unfold ZEND_MM_CHUNK_SIZE, REAL_PAGE_SIZE, ZEND_MM_PAGE_SIZE in *.
    repeat split; try done; zlia.
Qed.

(** The whole request is inside of one chunk exactly if its address is not a multiple of the chunk size. *)
Lemma client_offset s blocks nodes live p n : client_inv_at s blocks nodes live -> live !! p = Some n ->
  (ZEND_MM_ALIGNED_OFFSET p ZEND_MM_CHUNK_SIZE <> 0 /\ blocks !! p = Some n /\ p ∉ nodes.*1) \/
  (ZEND_MM_ALIGNED_OFFSET p ZEND_MM_CHUNK_SIZE = 0 /\ 0 < p /\ (p, n) ∈ nodes.*2).
Proof.
  intros [Hv Hw] [[Hp Hno]|Hp]%Hw.
  - left. destruct (hv_heap _ _ _ _ Hv) as (runs & free & slots & Hinv). destruct (find_block s runs free slots blocks p n Hinv Hp) as [? _]. done.
  - right. destruct (huge_region s _ _ _ p n Hv ltac:(eapply elem_of_submseteq; [exact Hp|apply Hv])) as (? & ? & _). done.
Qed.

(** * Changes of the map *)

(** A change inside of the chunks, at a block that is no node. *)
Lemma client_update s s' blocks nodes live p (n : option Z) : client_inv_at s blocks nodes live -> p ∉ nodes.*1 -> p ∉ nodes.*2.*1 ->
  heap_inv (fr := frame_of s) s' (partial_alter (fun _ => n) p blocks) ->
  (forall a x, a ∈ nodes.*1 -> a <= x < a + SIZEOF_HUGE_LIST -> mem s' x = mem s x) ->
  client_inv_at s' (partial_alter (fun _ => n) p blocks) nodes (partial_alter (fun _ => n) p live).
Proof.
  intros [Hv Hw] H1 H2 Hinv Hm. split.
  - apply (huge_inv_step s _ blocks); [done|done| |done]. intros a Ha. rewrite lookup_partial_alter_ne by (by intros ->). by apply Hv.
  - intros q k. destruct (decide (q = p)) as [->|Hne]; [|by rewrite !lookup_partial_alter_ne].
    rewrite !lookup_partial_alter_eq. split; [by left|]. intros [[? _]|Hp]; [done|]. destruct H2. apply list_elem_of_fmap. by exists (p, k).
Qed.

(** No change of the map. *)
Lemma client_keep s s' blocks nodes live : client_inv_at s blocks nodes live -> heap_inv (fr := frame_of s) s' blocks ->
  same_blocks (fr := frame_of s) s s' blocks -> client_inv_at s' blocks nodes live /\ same_contents s s' live.
Proof.
  intros Hc Hinv Hsame. pose proof Hc as [Hv Hw]. split.
  - split; [|done]. apply (huge_inv_step s _ blocks); [done|done|apply Hv|]. intros a x Ha. apply (Hsame a). left. by apply Hv.
  - eapply data_contents; [exact Hc|]. intros p n x Hp. apply Hsame. by eapply data_in_use.
Qed.

(** A fresh block is neither a node nor a region. *)
Lemma fresh_block s s' blocks nodes live p n : client_inv_at s blocks nodes live -> blocks !! p = None ->
  heap_inv (fr := frame_of s) s' (<[p := n]> blocks) -> p ∉ nodes.*1 /\ p ∉ nodes.*2.*1 /\ live !! p = None.
Proof.
  intros [Hv Hw] Hp Hinv. assert (p ∉ nodes.*1) as H1 by (intros Hin; rewrite (hv_node _ _ _ _ Hv p Hin) in Hp; done).
  assert (p ∉ nodes.*2.*1) as H2.
  { intros ([q k] & -> & Hq)%list_elem_of_fmap. cbn in *. assert ((q, k) ∈ huge_maps (pages s)) as Hm by (eapply elem_of_submseteq; [exact Hq|apply Hv]).
    pose proof (frame_eq s' _ Hinv) as Ef. symmetry in Ef. pose proof Ef as (_ & Em & _)%frame_parts.
    destruct (heap_apart s' _ Hinv) as [Hap _]. rewrite Em in Hap.
    destruct (block_addr s' _ q n Hinv ltac:(apply lookup_insert_eq)) as (_ & _ & ? & c & Hc & _ & Hlo & Hhi).
    destruct (huge_region s _ _ _ q k Hv Hm) as (_ & _ & ? & _).
    destruct (Hap c q k ltac:(by apply elem_of_app; left) Hm); unfold ZEND_MM_PAGE_SIZE in *; lia. }
  split; [done|]. split; [done|]. destruct (live !! p) as [k|] eqn:E; [|done]. apply Hw in E as [[? _]|E]; [congruence|].
  destruct H2. apply list_elem_of_fmap. by exists (p, k).
Qed.

(** A node and its region come and go together. *)
Lemma view_insert s blocks nodes live l p n counted : huge_inv s (<[l := SIZEOF_HUGE_LIST]> blocks) ((l, (p, n)) :: nodes) counted -> blocks !! l = None ->
  client_view blocks nodes live -> live !! p = None /\ client_view (<[l := SIZEOF_HUGE_LIST]> blocks) ((l, (p, n)) :: nodes) (<[p := n]> live).
Proof.
  intros Hv Hl Hw. assert ((p, n) ∈ huge_maps (pages s)) as Hm by (eapply elem_of_submseteq; [|apply (hv_mapped _ _ _ _ Hv)]; by left).
  pose proof (region_no_block _ _ _ _ p n Hv Hm) as Hpb. assert (p <> l) as Hpl by (intros ->; by rewrite lookup_insert_eq in Hpb).
  rewrite lookup_insert_ne in Hpb by done. pose proof (regions_nodup _ _ _ _ Hv) as [Hpn _]%NoDup_cons.
  assert (forall k, (p, k) ∉ nodes.*2) as Hpk by (intros k Hk; apply Hpn, list_elem_of_fmap; by exists (p, k)).
  split; [destruct (live !! p) as [k|] eqn:E; [|done]; apply Hw in E as [[? _]|E]; [congruence|by destruct (Hpk k)]|].
  intros q k. cbn [fmap list_fmap fst snd]. rewrite !elem_of_cons. destruct (decide (q = p)) as [->|Hq].
  - rewrite lookup_insert_eq, lookup_insert_ne by done. rewrite Hpb. split; [intros [= ->]; by right; left|].
    intros [[? _]|[[= ->]|H]]; [done|done|by destruct (Hpk k)].
  - rewrite lookup_insert_ne, (Hw q k) by done. destruct (decide (q = l)) as [->|Hql].
    + rewrite lookup_insert_eq, Hl. split; [intros [[? _]|H]; [done|right; by right]|].
      intros [[_ H]|[[= -> _]|H]]; [destruct H; by left|done|by right].
    + rewrite lookup_insert_ne by done. split; [intros [[H1 H2]|H]; [left; split; [done|by intros [?|?]]|right; by right]|].
      intros [[H1 H2]|[[= -> _]|H]]; [left; split; [done|tauto]|done|by right].
Qed.

Lemma view_delete s blocks l1 a p n l2 live counted : huge_inv s blocks (l1 ++ (a, (p, n)) :: l2) counted ->
  client_view blocks (l1 ++ (a, (p, n)) :: l2) live -> client_view (delete a blocks) (l1 ++ l2) (delete p live).
Proof.
  intros Hv Hw. assert ((p, n) ∈ (l1 ++ (a, (p, n)) :: l2).*2) as Hp by (rewrite fmap_app; set_solver).
  pose proof (region_no_block _ _ _ _ p n Hv ltac:(eapply elem_of_submseteq; [exact Hp|apply Hv])) as Hpb.
  pose proof (regions_nodup _ _ _ _ Hv) as Hnd. pose proof (hv_nodup _ _ _ _ Hv) as Hnd1.
  assert (p ∉ (l1 ++ l2).*2.*1) as Hpn.
  { assert (NoDup (p :: (l1 ++ l2).*2.*1)) as [? _]%NoDup_cons; [|done]. eapply NoDup_Permutation_proper; [|exact Hnd].
    rewrite <- Permutation_middle. done. }
  assert (a ∉ (l1 ++ l2).*1) as Han.
  { assert (NoDup (a :: (l1 ++ l2).*1)) as [? _]%NoDup_cons; [|done]. eapply NoDup_Permutation_proper; [|exact Hnd1].
    rewrite <- Permutation_middle. done. }
  intros q k. destruct (decide (q = p)) as [->|Hq].
  - rewrite lookup_delete_eq, lookup_delete_ne by (intros ->; by rewrite (hv_node _ _ _ _ Hv) in Hpb by (rewrite fmap_app; set_solver)).
    rewrite Hpb. split; [done|]. intros [[? _]|H]; [done|]. destruct Hpn. apply list_elem_of_fmap. by exists (p, k).
  - rewrite lookup_delete_ne, (Hw q k) by done. rewrite !fmap_app, !elem_of_app. cbn [fmap list_fmap fst snd]. rewrite !elem_of_cons.
    destruct (decide (q = a)) as [->|Hqa].
    + rewrite lookup_delete_eq. split; [intros [[_ H]|[H|[[= ->]|H]]]; [destruct H; tauto|tauto|done|tauto]|].
      intros [[? _]|H]; [done|tauto].
    + rewrite lookup_delete_ne by done. split; [intros [[H1 H2]|[H|[[= -> ->]|H]]]; tauto|]. tauto.
Qed.

(** * Operations *)

Section Client.
Context (chunk_alloc : nat -> list (Z * Z) -> Z -> option Z) (below_average : Z -> bool).
Context (chunk_alloc_ok : forall n used size a, chunk_alloc n used size = Some a -> 0 < size ->
  0 < a /\ a mod ZEND_MM_CHUNK_SIZE = 0 /\ a + size <= 2 ^ 64 /\
  forall b k, (b, k) ∈ used -> a + size <= b \/ b + k <= a).

(** Nothing left to collect: every small run holds a block in use, of the client or a node of the list. *)
Definition exhausted (s : mm chunk_heap) (live : gmap Z Z) : Prop :=
  exists blocks nodes, client_inv_at s blocks nodes live /\ all_kept s blocks.

(** A request inside of the chunks. *)
Lemma chunk_request_ok s live size : client_inv s live -> 16 <= size <= ZEND_MM_MAX_LARGE_SIZE ->
  exists r s', alloc_in_chunks chunk_alloc below_average size s = Some (r, s') /\ same_contents s s' live /\
    match r with
    | Ret p => live !! p = None /\ client_inv s' (<[p := block_bytes size]> live)
    | NoMemory => exhausted s' live
    | Panic => False
    end.
Proof.
  intros (blocks & nodes & Hc) Hs. pose proof Hc as [Hv Hw].
  destruct (alloc_in_chunks_ok chunk_alloc below_average chunk_alloc_ok (fr := frame_of s) s blocks size (hv_heap _ _ _ _ Hv) Hs)
    as (r & s' & E & Hsame & Hr). exists r, s'. split; [done|]. split.
  - eapply data_contents; [exact Hc|]. intros p n x Hp. apply Hsame. by eapply data_in_use.
  - destruct r as [p| |]; [|done|].
    + destruct Hr as [Hp Hinv]. destruct (fresh_block s s' blocks nodes live p _ Hc Hp Hinv) as (H1 & H2 & H3). split; [done|].
      eexists _, nodes. apply (client_update s s' blocks nodes live p (Some (block_bytes size)) Hc H1 H2 Hinv).
      intros a x Ha. apply (Hsame a). left. by apply Hv.
    + destruct Hr as (runs & free & slots & Hinv & Hidle). exists blocks, nodes. split; [|by eapply all_kept_intro].
      eapply client_keep; [exact Hc|by exists runs, free, slots|done].
Qed.

Lemma usable_facts size : 0 <= size -> size <= usable size /\ 16 <= usable size /\ (usable size = size \/ usable size = 16).
Proof. intros Hs. unfold usable, ZEND_MM_MIN_USEABLE_BIN_SIZE. case_match; lia. Qed.

(** What a request promises.  [AllocNoMemory]: nothing is left to collect;
    [AllocOverflow]: the size cannot be rounded up to whole pages. *)
Definition alloc_promise (s s' : mm chunk_heap) (live : gmap Z Z) (size : Z) (r : alloc_outcome) : Prop :=
  same_contents s s' live /\
  match r with
  | AllocPtr p => live !! p = None /\ exists n, size <= n /\ client_inv s' (<[p := n]> live)
  | AllocNoMemory => exhausted s' live
  | AllocOverflow => s' = s /\ 2 ^ 64 - REAL_PAGE_SIZE < size
  | AllocPanic => False
  end.

Lemma alloc_heap_ok s live size : client_inv s live -> 0 <= size < 2 ^ 64 ->
  exists r s', zend_mm_alloc_heap chunk_alloc below_average size s = Some (r, s') /\ alloc_promise s s' live size r.
Proof.
  intros Hi Hs. destruct (usable_facts size ltac:(lia)) as (Hu & H16 & Hcase). unfold zend_mm_alloc_heap, alloc_promise. cbv zeta.
  destruct (Z.leb_spec (usable size) ZEND_MM_MAX_LARGE_SIZE) as [Hle|Hgt].
  - destruct (chunk_request_ok s live (usable size) Hi ltac:(lia)) as (r & s' & -> & Hsame & Hr). rewrite some_bind.
    exists (alloc_status r), s'. split; [done|]. split; [done|]. destruct r as [p| |]; cbn; [|done|done].
    destruct Hr as [Hp Hc]. split; [done|]. exists (block_bytes (usable size)). split; [|done].
    destruct (block_bytes_fit below_average (usable size) (conj H16 Hle)); lia.
  - destruct Hcase as [Eu|Eu]; [|rewrite Eu in Hgt; unfold ZEND_MM_MAX_LARGE_SIZE, ZEND_MM_PAGE_SIZE, ZEND_MM_FIRST_PAGE in Hgt; lia].
    rewrite Eu in *. destruct Hi as (blocks & nodes & Hc). pose proof Hc as [Hv Hw].
    destruct (alloc_huge_ok chunk_alloc below_average chunk_alloc_ok s blocks nodes size Hv ltac:(lia)) as (r & s' & -> & Hd & Hr).
    exists r, s'. split; [done|]. split; [by eapply data_contents|]. destruct r as [p| | |]; [|destruct Hr as [Hv' Hk]; by exists blocks, nodes|done|done].
    destruct Hr as (n & l & Hn & Hl & Hv').
    destruct (view_insert s' blocks nodes live l p n _ Hv' Hl Hw) as [Hnone Hw']. split; [done|]. exists n. split; [done|]. by eexists _, _.
Qed.

Lemma free_heap_ok s live p n : client_inv s live -> live !! p = Some n ->
  exists s', zend_mm_free_heap below_average p s = Some (FreeDone, s') /\ client_inv s' (delete p live) /\ same_contents s s' (delete p live).
Proof.
  intros (blocks & nodes & Hc) Hp. pose proof Hc as [Hv Hw]. unfold zend_mm_free_heap.
  destruct (client_offset s blocks nodes live p n Hc Hp) as [(Ho & Hb & Hno)|(Ho & Hp0 & Hn)].
  - rewrite (proj2 (Z.eqb_neq _ _) Ho). destruct (free_in_chunks_ok below_average (fr := frame_of s) s blocks p n (hv_heap _ _ _ _ Hv) Hb) as (s' & -> & Hinv & Hsame).
    rewrite some_bind. exists s'. split; [done|].
    assert (p ∉ nodes.*2.*1) as Hno2.
    { intros ([q k] & -> & Hq)%list_elem_of_fmap. cbn in *. rewrite (region_no_block _ _ _ _ q k Hv) in Hb; [done|].
      eapply elem_of_submseteq; [exact Hq|apply Hv]. }
    split.
    + eexists _, nodes. apply (client_update s s' blocks nodes live p None Hc Hno Hno2 Hinv). intros a x Ha. apply (Hsame a). left.
      rewrite lookup_delete_ne by (by intros ->). by apply Hv.
    + intros q k x [Hne Hq]%lookup_delete_Some Hx. apply (Hsame q k); [|done]. destruct (live_data _ _ _ _ _ _ Hc Hq) as [[? _]|?]; [left|by right].
      by rewrite lookup_delete_ne.
  - rewrite Ho. cbn [Z.eqb]. rewrite (proj2 (Z.eqb_neq p 0)) by lia. cbn [negb].
    destruct (free_huge_ok below_average s blocks nodes p n Hv Hn) as (l1 & a & l2 & s' & -> & -> & Hv' & Hd). exists s'. split; [done|]. split.
    + eexists _, _. split; [exact Hv'|]. by eapply view_delete.
    + eapply same_contents_sub; [by eapply data_contents|apply delete_subseteq].
Qed.
End Client.

(** * Sizes *)

(** The page information at the address of a block. *)
Lemma block_info {fr : heap_frame} s runs free slots blocks p n : heap_inv_at s runs free slots blocks -> blocks !! p = Some n ->
  exists bf e aft info, find_chunk [] (ring (pages s)) (ZEND_MM_ALIGNED_BASE p ZEND_MM_CHUNK_SIZE) = Some (bf, e, aft) /\
    lload (chunk_map (ce_chunk e)) (ZEND_MM_ALIGNED_OFFSET p ZEND_MM_CHUNK_SIZE / ZEND_MM_PAGE_SIZE) = Some info /\
    ((is_set info ZEND_MM_IS_SRUN = true /\ slots !! p = Some (ZEND_MM_SRUN_BIN_NUM info) /\ n = bin_data_size (ZEND_MM_SRUN_BIN_NUM info) /\
        is_bin (ZEND_MM_SRUN_BIN_NUM info) /\ 1 <= ZEND_MM_SRUN_BIN_NUM info) \/
     (is_set info ZEND_MM_IS_SRUN = false /\ is_set info ZEND_MM_IS_LRUN = true /\ runs !! p = Some (Large (ZEND_MM_LRUN_PAGES info)) /\
        n = ZEND_MM_LRUN_PAGES info * ZEND_MM_PAGE_SIZE)).
Proof.
  intros Hinv Hp. pose proof (hi_ok _ _ _ _ _ Hinv) as Hok. destruct (mm_pages _ _ _ _ Hok) as [Hh _].
  destruct (find_block s runs free slots blocks p n Hinv Hp) as [_ [(b & Hs & -> & Hb & H1 & base & Hr & Hlo & Hhi)|(k & Hk & ->)]].
  - destruct (slot_size b Hb H1) as (Hs16 & _).
    destruct (find_run _ runs base _ (p - base) Hh Hr ltac:(lia)) as (bf & e & aft & cr & q & Hf & _ & _ & Hc & _ & Hcr & Hq & _ & Ho).
    replace (base + (p - base)) with p in Hf, Ho by lia. destruct (run_bounds _ _ Hc q _ Hcr) as (Hq1 & Hn & Hend). cbn in Hn, Hend.
    unfold run_bytes in Hhi. cbn in Hhi. exists bf, e, aft.
    assert (in_run q (Small b) (q + (p - base) / ZEND_MM_PAGE_SIZE)) as Hin by (unfold in_run, ZEND_MM_PAGE_SIZE in *; cbn; zlia).
    assert (ZEND_MM_ALIGNED_OFFSET p ZEND_MM_CHUNK_SIZE / ZEND_MM_PAGE_SIZE = q + (p - base) / ZEND_MM_PAGE_SIZE) as -> by (rewrite Ho; unfold ZEND_MM_PAGE_SIZE; zlia).
    destruct (small_page_info _ cr q b _ Hc Hcr Hin) as [I1 I2]. eexists. split; [done|]. split.
    { apply lload_512; [apply (ok_info _ _ Hc)|unfold in_run in Hin; cbn in Hin; lia]. }
    left. rewrite I2. done.
  - destruct (find_run _ runs p _ 0 Hh Hk) as (bf & e & aft & cr & q & Hf & _ & _ & Hc & _ & Hcr & Hq & _ & Ho).
    { destruct (page_runs_addr _ _ p _ (mm_pages _ _ _ _ Hok) Hk) as (_ & _ & ? & _). lia. }
    rewrite Z.add_0_r in Hf, Ho. rewrite Z.add_0_r in Ho. destruct (run_bounds _ _ Hc q _ Hcr) as (Hq1 & Hn & Hend). cbn in Hn, Hend.
    exists bf, e, aft. rewrite Ho, Z.div_mul by done. pose proof (ok_run_info _ _ Hc q _ Hcr) as Hi. cbn in Hi.
    destruct (lrun_facts k ltac:(lia)) as (I1 & I2 & I3). exists (ZEND_MM_LRUN k). split; [done|]. split.
    { rewrite <- Hi. apply lload_512; [apply (ok_info _ _ Hc)|lia]. }
    right. rewrite I3. done.
Qed.

Lemma mm_size_ok s live p n : client_inv s live -> live !! p = Some n -> zend_mm_size p s = Some (Ret n).
Proof.
  intros (blocks & nodes & Hc) Hp. pose proof Hc as [Hv Hw]. unfold zend_mm_size.
  destruct (client_offset s blocks nodes live p n Hc Hp) as [(Ho & Hb & Hno)|(Ho & Hp0 & Hn)].
  - rewrite (proj2 (Z.eqb_neq _ _) Ho). destruct (hv_heap _ _ _ _ Hv) as (runs & free & slots & Hinv).
    destruct (block_info s runs free slots blocks p n Hinv Hb) as (bf & e & aft & info & -> & Hi & Hcase). rewrite some_bind.
    cbn [fst snd]. unfold size_in_chunk. rewrite Hi, some_bind. destruct Hcase as [(-> & _ & -> & _)|(-> & -> & _ & ->)]; done.
  - rewrite Ho. cbn [Z.eqb]. by eapply get_size_ok.
Qed.
