(* ===== verification/MmCopy.v ===== *)
(** Bytes of memory: the memory of the heap is a function from the addresses of
    64-bit words, on a little-endian machine.  [memcpy] on such words, which the
    reallocations of src/Zend/zend_alloc.c call. *)

From stdpp Require Import base numbers list.
From S2P Require Import Prelude.

(** [memcpy(dst, src, n)] for aligned addresses; of the last word [n mod 8] bytes are copied. *)
Definition merge_word (k new old : Z) : Z := Z.lor (Z.land new (2 ^ (8 * k) - 1)) (Z.ldiff old (2 ^ (8 * k) - 1)).
Definition memcpy_words (dst src n : Z) (m : Z -> Z) : Z -> Z := fun x =>
  let full := n / 8 * 8 in
  if (dst <=? x) && (x <? dst + full) then m (src + (x - dst))
  else if (x =? dst + full) && (0 <? n mod 8) then merge_word (n mod 8) (m (src + full)) (m x)
  else m x.

(** The byte at any address. *)
Definition byte_at (m : Z -> Z) (a : Z) : Z := Z.land (Z.shiftr (m (a / 8 * 8)) (8 * (a mod 8))) (2 ^ 8 - 1).

Lemma byte_ext v w k : (forall j, 0 <= j < 8 -> Z.testbit v (j + k) = Z.testbit w (j + k)) -> 0 <= k ->
  Z.land (Z.shiftr v k) (2 ^ 8 - 1) = Z.land (Z.shiftr w k) (2 ^ 8 - 1).
Proof.
  intros H Hk. apply Z.bits_inj'. intros j Hj. rewrite !Z.land_spec, !Z.shiftr_spec by lia.
  rewrite Z.sub_1_r, <- Z.ones_equiv, Z.testbit_ones by lia. destruct (Z.ltb_spec j 8); [|by rewrite !andb_false_r].
  by rewrite H.
Qed.

Lemma merge_word_bits k v w j : 0 <= k -> 0 <= j -> Z.testbit (merge_word k v w) j = if j <? 8 * k then Z.testbit v j else Z.testbit w j.
Proof.
  intros Hk Hj. unfold merge_word. rewrite Z.sub_1_r, <- Z.ones_equiv, Z.lor_spec, Z.land_spec, Z.ldiff_spec, Z.testbit_ones by lia.
  destruct (Z.ltb_spec j (8 * k)); rewrite (proj2 (Z.leb_le 0 j)) by lia; cbn; [by rewrite andb_true_r, andb_false_r, orb_false_r|].
  by rewrite andb_false_r, andb_true_r.
Qed.

(** The first [n] bytes are those of the source. *)
Lemma memcpy_bytes dst src n m i : dst mod 8 = 0 -> src mod 8 = 0 -> 0 <= i < n ->
  byte_at (memcpy_words dst src n m) (dst + i) = byte_at m (src + i).
Proof.
  intros Hd Hs Hi. unfold byte_at. assert ((dst + i) mod 8 = i mod 8) as -> by zlia. assert ((src + i) mod 8 = i mod 8) as -> by zlia.
  assert ((dst + i) / 8 * 8 = dst + i / 8 * 8) as -> by zlia. assert ((src + i) / 8 * 8 = src + i / 8 * 8) as -> by zlia.
  unfold memcpy_words. destruct (decide (i / 8 < n / 8)) as [Hlt|Hge].
  - rewrite (proj2 (Z.leb_le _ _)), (proj2 (Z.ltb_lt _ _)) by zlia. cbn [andb]. do 3 f_equal. lia.
  - assert (i / 8 = n / 8) as -> by zlia. rewrite (proj2 (Z.ltb_ge (dst + n / 8 * 8) _)) by lia. rewrite andb_false_r, Z.eqb_refl.
    rewrite (proj2 (Z.ltb_lt 0 (n mod 8))) by zlia. cbn [andb]. apply byte_ext; [|zlia]. intros j Hj.
    rewrite merge_word_bits by zlia. by rewrite (proj2 (Z.ltb_lt _ _)) by zlia.
Qed.

(** Words outside of the destination are not changed. *)
Lemma memcpy_outside dst src n m x : 0 <= n -> x < dst \/ dst + n <= x -> memcpy_words dst src n m x = m x.
Proof.
  intros Hn Hx. unfold memcpy_words. destruct (Z.leb_spec dst x); cbn [andb].
  - rewrite (proj2 (Z.ltb_ge _ _)) by zlia. destruct (Z.eqb_spec x (dst + n / 8 * 8)) as [E|]; [|done]. cbn [andb].
    by rewrite (proj2 (Z.ltb_ge _ _)) by zlia.
  - destruct (Z.eqb_spec x (dst + n / 8 * 8)) as [E|]; [zlia|done].
Qed.

(** The bytes of a range are determined by its words. *)
Lemma byte_same m m' p n i : p mod 8 = 0 -> (forall x, p <= x < p + n -> m' x = m x) -> 0 <= i < n -> byte_at m' (p + i) = byte_at m (p + i).
Proof. intros Hp Hm Hi. unfold byte_at. rewrite Hm; [done|zlia]. Qed.
