(* ===== verification/MmRealloc.v ===== *)
(** Reallocation (src/Zend/zend_alloc.c): blocks are resized in place when they
    can be, and otherwise a new block is allocated, the bytes are copied and the
    old block is released. *)

From stdpp Require Import base numbers list gmap.
From S2P Require Import Prelude.
From S2P Require Import MmBitset.
From S2P Require Import MmBins.
From S2P Require Import MmChunk.
From S2P Require Import MmRuns.
From S2P Require Import MmSlots.
From S2P Require Import MmHeap.
From S2P Require Import MmGc.
From S2P Require Import MmPages.
From S2P Require Import MmAlloc.
From S2P Require Import MmHuge.
From S2P Require Import MmRegions.
From S2P Require Import MmHugeList.
From S2P Require Import MmHugeOps.
From S2P Require Import MmClient.
From S2P Require Import MmCopy.

(** The peak of before the temporary use of two blocks. *)
Definition restore_peak (orig_peak : Z) (h : zend_mm_heap) : zend_mm_heap :=
  mk_heap (heap_size h) (Z.max orig_peak (heap_size h)) (shadow_key h) (free_slot h) (huge_list h).

(** Without storage handlers the runtime cannot unmap or map the end of a region. *)
Definition zend_mm_chunk_truncate (addr old_size new_size : Z) : bool := false.
Definition zend_mm_chunk_extend (addr old_size new_size : Z) : bool := false.

(** The statistics after a large run got another size. *)
Definition resize_stats (old_size new_size : Z) (h : zend_mm_heap) : zend_mm_heap :=
  if new_size =? old_size then h
  else if new_size <? old_size then sub_size ((old_size - new_size) / ZEND_MM_PAGE_SIZE * ZEND_MM_PAGE_SIZE) h
  else add_size (new_size - old_size) h.

Section Realloc.
Context (chunk_alloc : nat -> list (Z * Z) -> Z -> option Z) (below_average : Z -> bool).
#[local] Instance page_source_here : page_alloc chunk_heap := source chunk_alloc below_average.

Definition zend_mm_realloc_slow (ptr size copy_size : Z) (s : mm chunk_heap) : option (alloc_outcome * mm chunk_heap) :=
  let orig_peak := heap_peak (hp s) in
  r ← zend_mm_alloc_heap chunk_alloc below_average size s;
  match r with
  | (AllocPtr ret, s) =>
      let s := set_mem (memcpy_words ret ptr copy_size (mem s)) s in
      f ← zend_mm_free_heap below_average ptr s;
      match f with
      | (FreeDone, s) => Some (AllocPtr ret, set_hp (restore_peak orig_peak (hp s)) s)
      | (FreePanic, s) => Some (AllocPanic, s)
      end
  | r => Some r
  end.

Definition zend_mm_realloc_huge (ptr size copy_size : Z) (s : mm chunk_heap) : option (alloc_outcome * mm chunk_heap) :=
  o ← zend_mm_get_huge_block_size ptr s;
  match o with
  | Ret old_size =>
      let slow := zend_mm_realloc_slow ptr size (Z.min old_size copy_size) in
      if ZEND_MM_MAX_LARGE_SIZE <? size then
        let new_size := ZEND_MM_ALIGNED_SIZE_EX size REAL_PAGE_SIZE in
        if new_size =? old_size then
          s ← zend_mm_change_huge_block_size ptr new_size s; Some (AllocPtr ptr, s)
        else if new_size <? old_size then
          if zend_mm_chunk_truncate ptr old_size new_size then
            let h := pages s in
            let h := set_real (u64 (real_size h - (old_size - new_size))) (real_peak h) h in
            let s := mk_mm (sub_size (old_size - new_size) (hp s)) (mem s) h in
            s ← zend_mm_change_huge_block_size ptr new_size s; Some (AllocPtr ptr, s)
          else slow s
        else
          l ← check_limit below_average (new_size - old_size) s;
          match l with
          | (Ret _, s) =>
              if zend_mm_chunk_extend ptr old_size new_size then
                let s := count_huge (new_size - old_size) s in
                s ← zend_mm_change_huge_block_size ptr new_size s; Some (AllocPtr ptr, s)
              else slow s
          | (NoMemory, s) => Some (AllocNoMemory, s)
          | (Panic, s) => Some (AllocPanic, s)
          end
      else slow s
  | _ => Some (AllocPanic, s)
  end.

(** [ret = zend_mm_alloc_small(..); memcpy(ret, ptr, copy_size); zend_mm_free_small(heap, ptr, old_bin_num);] *)
Definition move_small (ptr old_bin_num size copy_size : Z) (s : mm chunk_heap) : option (alloc_outcome * mm chunk_heap) :=
  r ← zend_mm_alloc_small (zend_mm_small_size_to_bin size) s;
  match r with
  | (Ret ret, s) =>
      f ← zend_mm_free_small ptr old_bin_num (set_mem (memcpy_words ret ptr copy_size (mem s)) s);
      match f with
      | (Ret _, s) => Some (AllocPtr ret, s)
      | (_, s) => Some (AllocPanic, s)
      end
  | (r, s) => Some (alloc_status r, s)
  end.

Definition realloc_small (ptr old_bin_num size : Z) (use_copy_size : bool) (copy_size : Z) (s : mm chunk_heap) : option (alloc_outcome * mm chunk_heap) :=
  let old_size := bin_data_size old_bin_num in
  if size <=? old_size then
    if (0 <? old_bin_num) && (size <? bin_data_size (old_bin_num - 1)) then
      move_small ptr old_bin_num size (if use_copy_size then Z.min size copy_size else size) s
    else Some (AllocPtr ptr, s)
  else if size <=? ZEND_MM_MAX_SMALL_SIZE then
    let orig_peak := heap_peak (hp s) in
    r ← move_small ptr old_bin_num size (if use_copy_size then Z.min old_size copy_size else old_size) s;
    match r with
    | (AllocPtr ret, s) => Some (AllocPtr ret, set_hp (restore_peak orig_peak (hp s)) s)
    | r => Some r
    end
  else zend_mm_realloc_slow ptr size (Z.min old_size copy_size) s.

Definition zend_mm_realloc_heap (ptr size : Z) (use_copy_size : bool) (copy_size : Z) (s : mm chunk_heap) : option (alloc_outcome * mm chunk_heap) :=
  let page_offset := ZEND_MM_ALIGNED_OFFSET ptr ZEND_MM_CHUNK_SIZE in
  if page_offset =? 0 then
    if ptr =? 0 then zend_mm_alloc_heap chunk_alloc below_average size s
    else zend_mm_realloc_huge ptr size copy_size s
  else
    f ← find_chunk [] (ring (pages s)) (ZEND_MM_ALIGNED_BASE ptr ZEND_MM_CHUNK_SIZE);
    let '(before, e, after) := f in
    info ← lload (chunk_map (ce_chunk e)) (page_offset / ZEND_MM_PAGE_SIZE);
    let size := usable size in
    if is_set info ZEND_MM_IS_SRUN then
      realloc_small ptr (ZEND_MM_SRUN_BIN_NUM info) size use_copy_size copy_size s
    else
      let old_size := ZEND_MM_LRUN_PAGES info * ZEND_MM_PAGE_SIZE in
      r ← realloc_large (ce_chunk e) page_offset size;
      match r with
      | InPlace c =>
          let h := set_ring (before ++ mk_entry (ce_addr e) (ce_num e) c :: after) (pages s) in
          Some (AllocPtr ptr, mk_mm (resize_stats old_size (ZEND_MM_ALIGNED_SIZE_EX size ZEND_MM_PAGE_SIZE) (hp s)) (mem s) h)
      | MustMove => zend_mm_realloc_slow ptr size (Z.min old_size copy_size) s
      | ReallocCorrupted => Some (AllocPanic, s)
      end.

(** * Moving a block *)

Context (chunk_alloc_ok : forall n used size a, chunk_alloc n used size = Some a -> 0 < size ->
  0 < a /\ a mod ZEND_MM_CHUNK_SIZE = 0 /\ a + size <= 2 ^ 64 /\
  forall b k, (b, k) ∈ used -> a + size <= b \/ b + k <= a).

(** The first [n] bytes of the block at [p] are now at [q]. *)
Definition copied (s s' : mm chunk_heap) (p q n : Z) : Prop := forall i, 0 <= i < n -> byte_at (mem s') (q + i) = byte_at (mem s) (p + i).

(** What a reallocation promises.  The block is replaced by one of the new size,
    at the same or at another address, with the first [kept] bytes of the old
    one; or it stays as it is. *)
Definition realloc_promise (s s' : mm chunk_heap) (live : gmap Z Z) (p size kept : Z) (r : alloc_outcome) : Prop :=
  match r with
  | AllocPtr q => delete p live !! q = None /\ (exists k, size <= k /\ client_inv s' (<[q := k]> (delete p live))) /\
      same_contents s s' (delete p live) /\ copied s s' p q kept
  | AllocNoMemory => exhausted s' live /\ same_contents s s' live
  | AllocOverflow => client_inv s' live /\ same_contents s s' live /\ 2 ^ 64 - REAL_PAGE_SIZE < size
  | AllocPanic => False
  end.

(** Writing into blocks in use. *)
Lemma client_write s live m : client_inv s live -> (forall x, m x <> mem s x -> exists p n, live !! p = Some n /\ p <= x < p + n) ->
  client_inv (set_mem m s) live.
Proof.
  intros (blocks & nodes & Hc) Hm. pose proof Hc as [Hv Hw]. exists blocks, nodes. split; [|done].
  apply (huge_inv_step s _ blocks); [done| |apply Hv|].
  - apply (inv_mem (fr := frame_of s) s blocks m (hv_heap _ _ _ _ Hv)). intros x (p & n & Hp & Hx)%Hm. exists p, n. split; [|done].
    apply data_in_use with (nodes := nodes). by eapply live_data.
  - intros a x Ha Hx. destruct (decide (m x = mem s x)) as [|(p & n & Hp & Hpx)%Hm]; [done|]. exfalso.
    eapply (node_no_data s blocks nodes _ a p n x Hv Ha); [by eapply live_data|done|done].
Qed.

Lemma client_stats s live h : client_inv s live -> shadow_key h = shadow_key (hp s) -> free_slot h = free_slot (hp s) ->
  huge_list h = huge_list (hp s) -> client_inv (set_hp h s) live.
Proof.
  intros (blocks & nodes & [Hv Hw]) E1 E2 E3. exists blocks, nodes. split; [|done]. apply (huge_inv_step s _ blocks); [done| |apply Hv|done].
  by apply (inv_stats (fr := frame_of s) s blocks h (hv_heap _ _ _ _ Hv)).
Qed.

Lemma copy_free_ok s live p n q k copy : client_inv s (<[q := k]> live) -> live !! q = None -> live !! p = Some n ->
  0 <= copy <= n -> copy <= k ->
  exists s', zend_mm_free_heap below_average p (set_mem (memcpy_words q p copy (mem s)) s) = Some (FreeDone, s') /\
    client_inv (set_mem (memcpy_words q p copy (mem s)) s) (<[q := k]> live) /\
    client_inv s' (<[q := k]> (delete p live)) /\ same_contents s s' (delete p live) /\ copied s s' p q copy.
Proof.
  intros Hc Hq Hp Hcn Hck. assert (p <> q) as Hpq by congruence. set (m := memcpy_words q p copy (mem s)).
  assert (<[q := k]> live !! q = Some k) as Hq' by apply lookup_insert_eq.
  assert (<[q := k]> live !! p = Some n) as Hp' by (by rewrite lookup_insert_ne).
  destruct (client_addr _ _ _ _ Hc Hq') as (_ & Hq8 & _). destruct (client_addr _ _ _ _ Hc Hp') as (_ & Hp8 & _).
  assert (forall x, x < q \/ q + copy <= x -> m x = mem s x) as Hm by (intros x Hx; apply memcpy_outside; lia).
  assert (client_inv (set_mem m s) (<[q := k]> live)) as Hc1.
  { apply client_write; [done|]. intros x Hx. exists q, k. split; [done|]. destruct (decide (q <= x < q + k)); [done|].
    destruct Hx. apply Hm. lia. }
  destruct (free_heap_ok below_average _ _ p n Hc1 Hp') as (s' & E & Hc' & Hsame). exists s'. split; [done|]. split; [done|].
  rewrite delete_insert_ne in Hc', Hsame by done. split; [done|]. split.
  - intros a j x Ha Hx. pose proof Ha as [Hap Ha']%lookup_delete_Some. assert (a <> q) as Haq by congruence.
    rewrite (Hsame a j x) by (done || by rewrite lookup_insert_ne). apply Hm.
    destruct (client_disjoint s _ a j q k Hc ltac:(by rewrite lookup_insert_ne) Hq' Haq); lia.
  - intros i Hi. rewrite (byte_same m (mem s') q k i Hq8) by (lia || (intros x Hx; apply (Hsame q k x); [apply lookup_insert_eq|done])).
    by apply memcpy_bytes.
Qed.

Lemma copied_weaken s s' p q n n' : copied s s' p q n -> n' <= n -> copied s s' p q n'.
Proof. intros H Hn i Hi. apply H. lia. Qed.

Lemma copied_before s s1 s' p n q copy live : client_inv s live -> same_contents s s1 live -> live !! p = Some n -> copy <= n ->
  copied s1 s' p q copy -> copied s s' p q copy.
Proof.
  intros Hc Hsame Hp Hn H i Hi. rewrite H by done. destruct (client_addr _ _ _ _ Hc Hp) as (_ & Hp8 & _).
  apply (byte_same _ _ p n); [done|by intros x; apply Hsame|lia].
Qed.

Lemma realloc_slow_ok s live p n size copy : client_inv s live -> live !! p = Some n -> 0 <= size < 2 ^ 64 -> 0 <= copy <= n -> copy <= size ->
  exists r s', zend_mm_realloc_slow p size copy s = Some (r, s') /\ realloc_promise s s' live p size copy r.
Proof.
  intros Hc Hp Hs Hcn Hcs. unfold zend_mm_realloc_slow.
  destruct (alloc_heap_ok chunk_alloc below_average chunk_alloc_ok s live size Hc Hs) as (r & s1 & -> & Hsame & Hr). rewrite some_bind.
  destruct r as [q| | |]; [|by exists AllocNoMemory, s1| |done].
  - destruct Hr as (Hq & k & Hk & Hc1). destruct (copy_free_ok s1 live p n q k copy Hc1 Hq Hp Hcn ltac:(lia)) as (s2 & -> & _ & Hc2 & Hsame2 & Hcp).
    rewrite some_bind. eexists (AllocPtr q), _. split; [reflexivity|]. split; [by rewrite lookup_delete_ne by congruence|]. split.
    + exists k. split; [done|]. by apply client_stats.
    + split; [|eapply copied_before; [exact Hc|exact Hsame|exact Hp|lia|done]]. eapply same_contents_trans; [eapply same_contents_sub; [exact Hsame|apply delete_subseteq]|done].
  - destruct Hr as [-> Ho]. by exists AllocOverflow, s.
Qed.

(** * Small blocks *)

Lemma bin_size_inj b b' : is_bin b -> is_bin b' -> bin_data_size b = bin_data_size b' -> b = b'.
Proof.
  intros Hb Hb' E. assert (check_range 30 (fun b => check_range 30 (fun b' => (b =? b') || negb (bin_data_size b =? bin_data_size b'))) = true) as H
    by (vm_compute; reflexivity).
  apply (check_range_sound _ _ b) in H; [|done]. apply (check_range_sound _ _ b') in H; [|done]. cbn beta in H.
  rewrite E, Z.eqb_refl in H. destruct (Z.eqb_spec b b'); [done|]. by rewrite orb_false_r in H.
Qed.

Lemma bin_size_max b : is_bin b -> 8 <= bin_data_size b <= ZEND_MM_MAX_SMALL_SIZE.
Proof.
  intros Hb. assert (check_range 30 (fun b => (8 <=? bin_data_size b) && (bin_data_size b <=? ZEND_MM_MAX_SMALL_SIZE)) = true) as H by (vm_compute; reflexivity).
  apply (check_range_sound _ _ b) in H; [|done]. cbn beta in H. lia.
Qed.

(** A block with the size of a bin is a slot of that bin. *)
Lemma free_small_eq s live p b : client_inv s live -> is_bin b -> live !! p = Some (bin_data_size b) ->
  zend_mm_free_heap below_average p s = r ← zend_mm_free_small p b s; Some (free_status r.1, r.2).
Proof.
  intros (blocks & nodes & Hc) Hb Hp. pose proof Hc as [Hv Hw]. pose proof (bin_size_max b Hb) as Hmax.
  unfold zend_mm_free_heap. destruct (client_offset s blocks nodes live p _ Hc Hp) as [(Ho & Hpb & _)|(Ho & _ & Hn)].
  - rewrite (proj2 (Z.eqb_neq _ _) Ho). destruct (hv_heap _ _ _ _ Hv) as (runs & free & slots & Hinv).
    destruct (find_block s runs free slots blocks p _ Hinv Hpb) as [_ [(b' & Hs & E & Hb' & _)|(k & Hk & E)]].
    + apply bin_size_inj in E as <-; [|done|done]. by rewrite (free_slot_eq below_average s runs free slots blocks p b Hinv Hs).
    + exfalso. unfold ZEND_MM_MAX_SMALL_SIZE, ZEND_MM_PAGE_SIZE in *. lia.
  - exfalso. destruct (huge_region s _ _ _ p _ Hv ltac:(eapply elem_of_submseteq; [exact Hn|apply Hv])) as (_ & _ & _ & _ & _ & Hal).
    unfold ZEND_MM_MAX_SMALL_SIZE, REAL_PAGE_SIZE, ZEND_MM_PAGE_SIZE in *. zlia.
Qed.

Lemma move_small_ok s live p b size copy : client_inv s live -> is_bin b -> live !! p = Some (bin_data_size b) ->
  16 <= size <= ZEND_MM_MAX_SMALL_SIZE -> 0 <= copy <= bin_data_size b -> copy <= size ->
  exists r s', move_small p b size copy s = Some (r, s') /\ realloc_promise s s' live p size copy r.
Proof.
  intros Hc Hb Hp Hs Hcn Hcs. unfold move_small.
  assert (zend_mm_alloc_small (zend_mm_small_size_to_bin size) s = alloc_in_chunks chunk_alloc below_average size s) as ->.
  { unfold alloc_in_chunks. by rewrite (proj2 (Z.leb_le _ _)) by lia. }
  assert (16 <= size <= ZEND_MM_MAX_LARGE_SIZE) as Hs2.
  { unfold ZEND_MM_MAX_SMALL_SIZE, ZEND_MM_MAX_LARGE_SIZE, ZEND_MM_PAGE_SIZE, ZEND_MM_FIRST_PAGE in *. lia. }
  destruct (chunk_request_ok chunk_alloc below_average chunk_alloc_ok s live size Hc Hs2) as (r & s1 & -> & Hsame & Hr). rewrite some_bind.
  destruct (block_bytes_fit below_average size Hs2) as [Hfit _].
  destruct r as [q| |]; [|done|by exists AllocNoMemory, s1]. destruct Hr as [Hq Hc1].
  destruct (copy_free_ok s1 live p _ q _ copy Hc1 Hq Hp Hcn ltac:(lia)) as (s2 & E & Hcm & Hc2 & Hsame2 & Hcp).
  rewrite (free_small_eq _ _ p b Hcm Hb) in E by (rewrite lookup_insert_ne by congruence; done).
  destruct (zend_mm_free_small _ _ _) as [[[u| |] s']|]; cbn in E; try done. injection E as ->. rewrite some_bind.
  exists (AllocPtr q), s2. split; [done|]. split; [by rewrite lookup_delete_ne by congruence|]. split; [by exists (block_bytes size)|].
  split; [|eapply copied_before; [exact Hc|exact Hsame|exact Hp|lia|done]].
  eapply same_contents_trans; [eapply same_contents_sub; [exact Hsame|apply delete_subseteq]|done].
Qed.

(** The block stays where it is. *)
Lemma in_place_ok s s' live p n k size kept : client_inv s live -> live !! p = Some n -> client_inv s' (<[p := k]> live) -> mem s' = mem s ->
  size <= k -> realloc_promise s s' live p size kept (AllocPtr p).
Proof.
  intros Hc Hp Hc' Hm Hk. split; [apply lookup_delete_eq|]. split; [|split; [intros q j x _ _; by rewrite Hm|intros i Hi; by rewrite Hm]].
  exists k. by rewrite insert_delete_eq.
Qed.

Lemma promise_weaken s s' live p size kept kept' r : realloc_promise s s' live p size kept r -> kept' <= kept -> realloc_promise s s' live p size kept' r.
Proof. intros H Hk. destruct r; [|done..]. destruct H as (H1 & H2 & H3 & H4). do 3 (split; [done|]). by eapply copied_weaken. Qed.

Lemma promise_stats s s' live p size kept q h : realloc_promise s s' live p size kept (AllocPtr q) -> shadow_key h = shadow_key (hp s') ->
  free_slot h = free_slot (hp s') -> huge_list h = huge_list (hp s') -> realloc_promise s (set_hp h s') live p size kept (AllocPtr q).
Proof. intros (H1 & (k & Hk & Hc) & H3 & H4) E1 E2 E3. split; [done|]. split; [exists k; split; [done|by apply client_stats]|done]. Qed.

Lemma realloc_small_ok s live p b size use copy : client_inv s live -> is_bin b -> live !! p = Some (bin_data_size b) ->
  16 <= size < 2 ^ 64 -> 0 <= copy <= size ->
  exists r s', realloc_small p b size use copy s = Some (r, s') /\ realloc_promise s s' live p size (Z.min (bin_data_size b) copy) r.
Proof.
  intros Hc Hb Hp Hs Hcp. unfold realloc_small. pose proof (bin_size_max b Hb) as Hmax. cbv zeta.
  destruct (Z.leb_spec size (bin_data_size b)) as [Hle|Hgt].
  - destruct (_ && _).
    + destruct (move_small_ok s live p b size (if use then Z.min size copy else size) Hc Hb Hp) as (r & s' & -> & Hr);
        [lia|destruct use; lia|destruct use; lia|]. exists r, s'. split; [done|]. eapply promise_weaken; [done|]. destruct use; lia.
    + exists (AllocPtr p), s. split; [done|]. eapply in_place_ok; [done|done|by rewrite insert_id|done|done].
  - destruct (Z.leb_spec size ZEND_MM_MAX_SMALL_SIZE) as [Hsm|Hbig].
    + destruct (move_small_ok s live p b size (if use then Z.min (bin_data_size b) copy else bin_data_size b) Hc Hb Hp) as (r & s' & -> & Hr);
        [lia|destruct use; lia|destruct use; lia|]. rewrite some_bind.
      assert (realloc_promise s s' live p size (Z.min (bin_data_size b) copy) r) as Hr' by (eapply promise_weaken; [done|]; destruct use; lia).
      destruct r as [q| | |]; [eexists (AllocPtr q), _; split; [reflexivity|by apply promise_stats]|by exists AllocNoMemory, s'|by exists AllocOverflow, s'|done].
    + apply (realloc_slow_ok s live p (bin_data_size b)); [done|done|lia|lia|lia].
Qed.

(** * Large blocks *)

(** Resizing writes one word of page information, that of the first page. *)
Lemma realloc_map c page_offset size c' s : realloc_large c page_offset size = Some (InPlace c') -> 0 <= s -> s <> page_offset / ZEND_MM_PAGE_SIZE ->
  lget 0 (chunk_map c') s = lget 0 (chunk_map c) s.
Proof.
  intros E Hs Hne. unfold realloc_large in E. destruct (lload _ _) as [info|] eqn:Hl; [|done]. cbn [mbind option_bind] in E.
  assert (0 <= page_offset / ZEND_MM_PAGE_SIZE) as Hp by (unfold lload in Hl; destruct (Z.ltb_spec (page_offset / ZEND_MM_PAGE_SIZE) 0); [done|lia]).
  assert (forall m' v, lstore (chunk_map c) (page_offset / ZEND_MM_PAGE_SIZE) v = Some m' -> lget 0 m' s = lget 0 (chunk_map c) s) as Hst.
  { intros m' v Hm. unfold lstore in Hm. case_match; [done|]. injection Hm as <-. apply lget_lset_ne; lia. }
  destruct (negb _); [done|]. destruct (negb _); [done|]. destruct (_ && _); [|done]. destruct (_ =? _); [by simplify_eq|]. destruct (_ <? _).
  - unfold truncate_run in E. destruct (lstore _ _ _) eqn:Hm; [|done]. cbn [mbind option_bind] in E.
    destruct (zend_mm_bitset_reset_range _ _ _); [|done]. cbn [mbind option_bind] in E. injection E as <-. by eapply Hst.
  - unfold extend_run in E. destruct (_ <=? _); [|done]. destruct (zend_mm_bitset_is_free_range _ _ _) as [[]|]; try done.
    cbn [mbind option_bind] in E. destruct (zend_mm_bitset_set_range _ _ _); [|done]. cbn [mbind option_bind] in E.
    destruct (lstore _ _ _) eqn:Hm; [|done]. cbn [mbind option_bind] in E. injection E as <-. by eapply Hst.
Qed.

Lemma heap_realloc_large_ok {fr : heap_frame} h runs a n size : heap_at_rest h runs -> runs !! a = Some (Large n) ->
  exists bf e aft, find_chunk [] (ring h) (ZEND_MM_ALIGNED_BASE a ZEND_MM_CHUNK_SIZE) = Some (bf, e, aft) /\
    ((exists c, realloc_large (ce_chunk e) (ZEND_MM_ALIGNED_OFFSET a ZEND_MM_CHUNK_SIZE) size = Some (InPlace c) /\
        ZEND_MM_MAX_SMALL_SIZE < size <= ZEND_MM_MAX_LARGE_SIZE /\
        heap_at_rest (set_ring (bf ++ mk_entry (ce_addr e) (ce_num e) c :: aft) h) (<[a := Large (pages_of size)]> runs)) \/
     realloc_large (ce_chunk e) (ZEND_MM_ALIGNED_OFFSET a ZEND_MM_CHUNK_SIZE) size = Some MustMove).
Proof.
  intros Hrest Hr. pose proof Hrest as [Hok Hcnt]. assert (page_runs h runs) as Hpr by done. destruct (page_runs_addr h runs a _ Hpr Hr) as (_ & _ & Hpos & _).
  destruct (find_run h runs a _ 0 Hok Hr ltac:(lia)) as (bf & e & aft & cr & s & Hf & Hring & Hck & Hc & Hcr & Hs & Hs512 & -> & Ho).
  rewrite Z.add_0_r in Hf, Ho. rewrite Z.add_0_r in Ho. exists bf, e, aft. split; [done|]. rewrite Ho.
  destruct (realloc_large_ok (ce_chunk e) cr s n size Hc Hs) as [(c & E & (Hsz & _) & Hc')|[E _]]; [left|by right].
  exists c. split; [done|]. split; [done|]. split.
  - apply (heap_runs_ring h runs); [done| |by rewrite Hring, !fmap_app]. eapply chunks_ok_perm; [symmetry; apply perm_middle|].
    by eapply chunks_ok_insert.
  - cbn [ring set_ring]. rewrite Hring in Hcnt. eapply counters_perm; [symmetry; apply perm_middle|].
    eapply (counters_perm _ _ _ _ (perm_middle _ _ _)) in Hcnt.
    eapply counters_mono; [by intros x b [_ ?]%large_insert_small|]. apply counters_replace; [done|]. intros s' b Hs' Hb.
    apply (realloc_map _ _ _ _ s' E); [lia|]. rewrite Z.div_mul by done. intros ->. rewrite Hcr in Hb by done. congruence.
Qed.

(** * Huge blocks *)

Lemma resize_huge_ok s blocks nodes live p n : client_inv_at s blocks nodes live -> (p, n) ∈ nodes.*2 ->
  exists s', zend_mm_change_huge_block_size p n s = Some s' /\ client_inv s' live /\ same_contents s s' live.
Proof.
  intros Hc Hp. pose proof Hc as [Hv Hw]. destruct (node_split _ _ _ _ p n Hv Hp) as (l1 & a & l2 & -> & Hl1 & Hfuel).
  pose proof Hv as [Hinv Hch Hnd Hnode _ _ _ _ _]. assert (a ∈ (l1 ++ (a, (p, n)) :: l2).*1) as Ha by (rewrite fmap_app; set_solver).
  unfold zend_mm_change_huge_block_size. rewrite (resize_loop_ok (mem s) a p n l2 n l1) by done. rewrite some_bind.
  eexists. split; [reflexivity|]. set (m := set_node_size a n (mem s)).
  assert (forall x, m x <> mem s x -> x = a + 8) as Hm by (intros x Hx; destruct (decide (x = a + 8)); [done|destruct Hx; by apply fset_ne]).
  split.
  - eexists blocks, _. split; [|exact Hw]. split; try apply Hv.
    + apply (inv_mem (fr := frame_of s) s blocks m Hinv). intros x ->%Hm. exists a, SIZEOF_HUGE_LIST. split; [left; by apply Hnode|].
      unfold SIZEOF_HUGE_LIST. lia.
    + apply chain_resize with (k := n); [done|done|]. eapply nodes_spread, Hv.
  - intros q k x Hq Hx. destruct (decide (x = a + 8)) as [->|Hne]; [|by apply fset_ne]. exfalso.
    eapply (node_no_data s blocks _ _ a q k (a + 8) Hv Ha); [by eapply live_data|unfold SIZEOF_HUGE_LIST; lia|done].
Qed.

Lemma promise_before s s1 s' live p n size kept r : client_inv s live -> live !! p = Some n -> kept <= n -> same_contents s s1 live ->
  realloc_promise s1 s' live p size kept r -> realloc_promise s s' live p size kept r.
Proof.
  intros Hc Hp Hk Hs H. destruct r.
  - destruct H as (H1 & H2 & H3 & H4). do 2 (split; [done|]). split; [|by eapply copied_before].
    eapply same_contents_trans; [eapply same_contents_sub; [exact Hs|apply delete_subseteq]|done].
  - destruct H as [H1 H2]. split; [done|]. by eapply same_contents_trans.
  - destruct H as (H1 & H2 & H3). split; [done|]. split; [by eapply same_contents_trans|done].
  - done.
Qed.

Lemma realloc_huge_ok s live p n size copy : client_inv s live -> live !! p = Some n -> ZEND_MM_ALIGNED_OFFSET p ZEND_MM_CHUNK_SIZE = 0 ->
  0 <= size < 2 ^ 64 -> 0 <= copy <= size ->
  exists r s', zend_mm_realloc_huge p size copy s = Some (r, s') /\ realloc_promise s s' live p size (Z.min n copy) r.
Proof.
  intros Hc Hp Ho Hs Hcp. pose proof (mm_size_ok s live p n Hc Hp) as Hsz. unfold zend_mm_size in Hsz. rewrite Ho in Hsz. cbn [Z.eqb] in Hsz.
  destruct (client_addr s live p n Hc Hp) as (_ & _ & Hn16 & _). unfold zend_mm_realloc_huge. rewrite Hsz, some_bind. cbv zeta.
  assert (forall s1, client_inv s1 live -> exists r s', zend_mm_realloc_slow p size (Z.min n copy) s1 = Some (r, s') /\
    realloc_promise s1 s' live p size (Z.min n copy) r) as Hslow.
  { intros s1 Hc1. apply (realloc_slow_ok s1 live p n); [done|done|lia|lia|lia]. }
  destruct (Z.ltb_spec ZEND_MM_MAX_LARGE_SIZE size) as [Hbig|]; [|by apply Hslow].
  assert (0 < size) as Hpos by (unfold ZEND_MM_MAX_LARGE_SIZE, ZEND_MM_PAGE_SIZE, ZEND_MM_FIRST_PAGE in Hbig; lia).
  pose proof (page_round size ltac:(lia)) as Hnew. cbv zeta in Hnew. set (new := ZEND_MM_ALIGNED_SIZE_EX size REAL_PAGE_SIZE) in *. clearbody new.
  destruct Hc as (blocks & nodes & Hc). pose proof Hc as [Hv Hw].
  destruct (Z.eqb_spec new n) as [->|Hne].
  - destruct (client_offset s blocks nodes live p n Hc Hp) as [(? & _)|(_ & _ & Hn)]; [done|].
    destruct (resize_huge_ok s blocks nodes live p n Hc Hn) as (s' & -> & Hc' & Hsame). rewrite some_bind. exists (AllocPtr p), s'.
    split; [done|]. split; [apply lookup_delete_eq|]. split; [exists n; split; [lia|by rewrite insert_delete_eq, insert_id]|].
    split; [eapply same_contents_sub; [done|apply delete_subseteq]|]. intros i Hi.
    destruct (client_addr s live p n ltac:(by exists blocks, nodes) Hp) as (_ & Hp8 & _).
    apply (byte_same _ _ p n); [done|intros x; by apply Hsame|lia].
  - destruct (Z.ltb_spec new n); [apply Hslow; by exists blocks, nodes|].
    destruct (check_limit_ok below_average s blocks nodes nodes.*2 (new - n) Hv) as (r & s1 & -> & Hv1 & Hd & Hm & Hr). rewrite some_bind.
    pose proof (data_contents _ _ _ _ _ Hc Hd) as Hsame. destruct r as [[]| |]; [|done|by exists AllocNoMemory, s1; split; [|split; [exists blocks, nodes|]]].
    destruct (Hslow s1 ltac:(by exists blocks, nodes)) as (r & s' & -> & Hpr). exists r, s'. split; [done|].
    eapply promise_before; [by exists blocks, nodes|exact Hp|lia|done|done].
Qed.

(** * Any block *)

Lemma promise_usable s s' live p size kept r : 0 <= size -> realloc_promise s s' live p (usable size) kept r -> realloc_promise s s' live p size kept r.
Proof.
  intros Hs H. destruct (usable_facts size Hs) as (H1 & _ & H2). destruct r; [|done| |done].
  - destruct H as (H3 & (k & Hk & Hc) & H4). split; [done|]. split; [|done]. exists k. split; [lia|done].
  - destruct H as (H3 & H4 & H5). split; [done|]. split; [done|]. destruct H2 as [<-|E]; [done|]. rewrite E in H5. unfold REAL_PAGE_SIZE, ZEND_MM_PAGE_SIZE in H5. lia.
Qed.

Lemma realloc_heap_ok s live p n size use copy : client_inv s live -> live !! p = Some n -> 0 <= size < 2 ^ 64 -> 0 <= copy <= size ->
  exists r s', zend_mm_realloc_heap p size use copy s = Some (r, s') /\ realloc_promise s s' live p size (Z.min n copy) r.
Proof.
  intros Hci Hp Hs Hcp. destruct (client_addr s live p n Hci Hp) as (Hp0 & _ & Hn16 & _). unfold zend_mm_realloc_heap.
  pose proof Hci as (blocks & nodes & Hc). pose proof Hc as [Hv Hw].
  destruct (client_offset s blocks nodes live p n Hc Hp) as [(Ho & Hb & Hno)|(Ho & _)].
  2: { rewrite Ho. cbn [Z.eqb]. rewrite (proj2 (Z.eqb_neq p 0)) by lia. by apply realloc_huge_ok. }
  rewrite (proj2 (Z.eqb_neq _ _) Ho). destruct (hv_heap _ _ _ _ Hv) as (runs & free & slots & Hinv).
  destruct (block_info (fr := frame_of s) s runs free slots blocks p n Hinv Hb) as (bf & e & aft & info & Hf & Hi & Hcase). rewrite Hf, some_bind, Hi, some_bind.
  destruct (usable_facts size ltac:(lia)) as (Hus & Hu16 & Hueq). cbv zeta.
  assert (forall r s', realloc_promise s s' live p (usable size) (Z.min n copy) r -> realloc_promise s s' live p size (Z.min n copy) r) as Hup
    by (intros r s'; apply promise_usable; lia).
  destruct Hcase as [(-> & Hsl & -> & Hbin & H1)|(-> & Hl & Hr & ->)].
  - destruct (realloc_small_ok s live p _ (usable size) use copy Hci Hbin Hp ltac:(lia) ltac:(lia)) as (r & s' & -> & Hpr). exists r, s'. split; [done|]. by apply Hup.
  - destruct (heap_realloc_large_ok (fr := frame_of s) (pages s) runs p _ (usable size) (mm_pages _ _ _ _ (hi_ok _ _ _ _ _ Hinv)) Hr) as (bf' & e' & aft' & Hf' & Hcase).
    rewrite Hf in Hf'. injection Hf' as <- <- <-. set (k := ZEND_MM_LRUN_PAGES info) in *.
    destruct Hcase as [(c & -> & Hsz & Hrest)| ->]; rewrite some_bind.
    + eexists (AllocPtr p), _. split; [reflexivity|]. apply Hup.
      destruct (large_pages below_average (usable size) ltac:(lia) ltac:(apply Z.leb_gt; lia)) as (_ & Hfit & _).
      eapply in_place_ok; [exact Hci|exact Hp| |done|exact Hfit]. eexists _, nodes.
      apply (client_update s _ blocks nodes live p (Some (pages_of (usable size) * ZEND_MM_PAGE_SIZE)) Hc Hno); [|eexists _, free, slots|done].
      * intros ([q j] & E & Hq)%list_elem_of_fmap. cbn in E. subst q. rewrite (region_no_block _ _ _ _ p j Hv) in Hb; [done|].
        eapply elem_of_submseteq; [exact Hq|apply Hv].
      * apply (inv_set_large (fr := frame_of s) s _ runs (<[p := Large (pages_of (usable size))]> runs) free); [done| |apply lookup_insert_eq|].
        { intros x j Hx. by rewrite lookup_insert_ne. }
        eapply mm_ok_pages; [apply (hi_ok _ _ _ _ _ Hinv)|exact Hrest| | | |]; try (unfold resize_stats; by repeat case_match).
        intros b x. rewrite <- (insert_delete_eq runs p), slot_at_large_insert by apply lookup_delete_eq. by eapply slot_at_large_delete.
    + destruct (realloc_slow_ok s live p _ (usable size) (Z.min (k * ZEND_MM_PAGE_SIZE) copy) Hci Hp ltac:(lia) ltac:(lia) ltac:(lia)) as (r & s' & -> & Hpr).
      exists r, s'. split; [done|]. by apply Hup.
Qed.
End Realloc.
