(* ===== verification/MmLimit.v ===== *)
(** The memory limit (src/Zend/zend_alloc.c): [zend_set_memory_limit], which
    gives cached chunks back to the system when the new limit asks for it. *)

From stdpp Require Import base numbers list gmap.
From S2P Require Import Prelude.
From S2P Require Import MmBitset.
From S2P Require Import MmBins.
From S2P Require Import MmChunk.
From S2P Require Import MmRuns.
From S2P Require Import MmSlots.
From S2P Require Import MmHeap.
From S2P Require Import MmGc.
From S2P Require Import MmPages.
From S2P Require Import MmAlloc.
From S2P Require Import MmHuge.
From S2P Require Import MmRegions.
From S2P Require Import MmHugeList.
From S2P Require Import MmHugeOps.
From S2P Require Import MmClient.

Definition set_limit (memory_limit : Z) (h : chunk_heap) : chunk_heap :=
  mk_chunk_heap (ring h) (cached_chunks h) (chunks_count h) (peak_chunks_count h) (cached_chunks_count h)
    (last_chunks_delete_boundary h) (last_chunks_delete_count h) (real_size h) (real_peak h) memory_limit (huge_maps h) (sys_calls h).

(** [zend_mm_chunk_free] of the first cached chunk. *)
Definition drop_chunk (l : list chunk_entry) (h : chunk_heap) : chunk_heap :=
  set_real (u64 (real_size h - ZEND_MM_CHUNK_SIZE)) (real_peak h) (set_cached l (cached_chunks_count h - 1) h).

(** [do .. while (memory_limit < heap->real_size)]; [None]: the list has ended. *)
Fixpoint drop_cached (memory_limit : Z) (l : list chunk_entry) (h : chunk_heap) : option chunk_heap :=
  match l with
  | [] => None
  | _ :: l =>
      let h := drop_chunk l h in
      if memory_limit <? real_size h then drop_cached memory_limit l h else Some h
  end.

Definition zend_set_memory_limit (memory_limit : Z) (s : mm chunk_heap) : option (bool * mm chunk_heap) :=
  let h := pages s in
  if memory_limit <? real_size h then
    if u64 (real_size h - u64 (cached_chunks_count h * ZEND_MM_CHUNK_SIZE)) <=? memory_limit then
      h ← drop_cached memory_limit (cached_chunks h) h; Some (true, set_pages h s)
    else Some (false, s)
  else Some (true, set_pages (set_limit memory_limit h) s).

Lemma drop_chunk_ok {fr : heap_frame} h runs e l : heap_at_rest h runs -> cached_chunks h = e :: l -> heap_at_rest (drop_chunk l h) runs.
Proof.
  intros [[Hck Hap Hm Hr Hrg Hcc] Hcnt] E. split; [|done]. rewrite E in Hck, Hcc.
  assert (chunk_addrs h ≡ₚ ce_addr e :: chunk_addrs (drop_chunk l h)) as Hp.
  { unfold chunk_addrs. cbn. rewrite E, Permutation_middle. done. }
  split; [by eapply chunks_ok_drop_cached| |done| |apply u64_range|].
  - intros a b k Ha. apply Hap. rewrite Hp. by right.
  - rewrite <- Hr. unfold real_rest, llen. rewrite Hp. cbn [length drop_chunk real_size set_real].
    destruct (u64_split (real_size h - ZEND_MM_CHUNK_SIZE)) as [q Eq]. apply (u64_congr _ _ q). rewrite Eq. lia.
  - unfold llen in *. cbn in *. lia.
Qed.

(** The loop ends before the list does. *)
Lemma drop_cached_ok {fr : heap_frame} ml runs l : forall h, heap_at_rest h runs -> cached_chunks h = l ->
  real_size h < 2 ^ 64 -> ZEND_MM_CHUNK_SIZE * llen l <= real_size h -> real_size h - ZEND_MM_CHUNK_SIZE * llen l <= ml < real_size h ->
  exists h', drop_cached ml l h = Some h' /\ heap_at_rest h' runs /\ real_size h' <= ml /\ limit h' = limit h.
Proof.
  induction l as [|e l IH]; intros h Hh El H64 Hlen Hml; [unfold llen in Hml; cbn in Hml; lia|]. cbn [drop_cached].
  pose proof (drop_chunk_ok h runs e l Hh El) as Hh'. pose proof (llen_nonneg l).
  assert (llen (e :: l) = 1 + llen l) as El' by (unfold llen; cbn [length]; lia). rewrite El' in Hlen, Hml.
  assert (real_size (drop_chunk l h) = real_size h - ZEND_MM_CHUNK_SIZE) as Er by (cbn; apply u64_small; unfold ZEND_MM_CHUNK_SIZE in *; lia).
  destruct (Z.ltb_spec ml (real_size (drop_chunk l h))) as [Hlt|Hge]; [|by exists (drop_chunk l h)].
  destruct (IH (drop_chunk l h) Hh' eq_refl) as (h' & E & H1 & H2 & H3); rewrite ?Er; [unfold ZEND_MM_CHUNK_SIZE in *; lia|lia|lia|].
  by exists h'.
Qed.

Lemma set_limit_rest {fr : heap_frame} ml h runs : heap_at_rest h runs -> heap_at_rest (set_limit ml h) runs.
Proof. intros [[] Hc]. done. Qed.

(** The call succeeds exactly if the memory in use, without the cached chunks,
    is within the new limit.  It changes no block. *)
Lemma set_memory_limit_ok s live ml : client_inv s live -> 0 <= ml < 2 ^ 64 ->
  exists ok s', zend_set_memory_limit ml s = Some (ok, s') /\ client_inv s' live /\ mem s' = mem s /\
    ok = bool_decide (real_size (pages s) - cached_chunks_count (pages s) * ZEND_MM_CHUNK_SIZE <= ml) /\
    (ok = true -> real_size (pages s') <= ml) /\ (ok = false -> s' = s) /\
    limit (pages s') = if real_size (pages s) <=? ml then ml else limit (pages s).
Proof.
  intros (blocks & nodes & Hc) Hml. pose proof Hc as [Hv Hw]. pose proof (real_size_eq _ _ _ _ Hv) as Er.
  destruct (real_total _ _ _ _ _ Hv (hv_counted _ _ _ _ Hv)) as [Hs0 Ht]. rewrite <- Er in Ht.
  pose proof (hv_heap _ _ _ _ Hv) as (runs & free & slots & [Hok Hb]). pose proof (mm_pages _ _ _ _ Hok) as Hrest.
  pose proof Hrest as [Hh _]. pose proof (hr_cached _ _ Hh) as Hcc. pose proof (llen_nonneg (cached_chunks (pages s))) as Hl0.
  assert (llen (cached_chunks (pages s)) <= llen (chunk_addrs (pages s))) as Hle.
  { unfold chunk_addrs, llen. rewrite length_app, !length_fmap. lia. }
  assert (forall h, heap_at_rest (fr := frame_of s) h runs -> client_inv (set_pages h s) live) as Hkeep.
  { intros h Hh'. exists blocks, nodes. split; [|done]. apply (huge_inv_step s _ blocks); [done| |apply Hv|done].
    exists runs, free, slots. split; [|done]. by eapply mm_ok_pages. }
  unfold zend_set_memory_limit. rewrite Hcc. rewrite (u64_small (llen _ * _)) by (unfold ZEND_MM_CHUNK_SIZE in *; lia).
  rewrite u64_small by (unfold ZEND_MM_CHUNK_SIZE in *; lia).
  destruct (Z.ltb_spec ml (real_size (pages s))) as [Hlt|Hge].
  - rewrite (proj2 (Z.leb_gt (real_size (pages s)) ml)) by lia. case_bool_decide as Hd.
    + rewrite (proj2 (Z.leb_le _ _)) by lia.
      destruct (drop_cached_ok (fr := frame_of s) ml runs (cached_chunks (pages s)) (pages s) Hrest eq_refl) as (h' & -> & Hr' & Hsz & Hlim);
        [lia|unfold ZEND_MM_CHUNK_SIZE in *; lia|lia|]. rewrite some_bind. eexists true, _. split; [reflexivity|]. by split; [apply Hkeep|].
    + rewrite (proj2 (Z.leb_gt _ _)) by lia. exists false, s. by split; [|split; [exists blocks, nodes|]].
  - rewrite (proj2 (Z.leb_le (real_size (pages s)) ml)) by lia. rewrite bool_decide_true by (unfold ZEND_MM_CHUNK_SIZE in *; lia).
    eexists true, _. split; [reflexivity|]. split; [by apply Hkeep, set_limit_rest|done].
Qed.
