(* ===== verification/MmHistory.v ===== *)
(** Histories of the memory manager (src/Zend/zend_alloc.c): whatever a program
    does with the heap - requests, releases, reallocations, collections, changes
    of the limit, writes into its blocks - the blocks are safe. *)

From stdpp Require Import base numbers list gmap.
From S2P Require Import Prelude.
From S2P Require Import MmBitset.
From S2P Require Import MmBins.
From S2P Require Import MmChunk.
From S2P Require Import MmRuns.
From S2P Require Import MmSlots.
From S2P Require Import MmHeap.
From S2P Require Import MmGc.
From S2P Require Import MmPages.
From S2P Require Import MmAlloc.
From S2P Require Import MmHuge.
From S2P Require Import MmRegions.
From S2P Require Import MmHugeList.
From S2P Require Import MmHugeOps.
From S2P Require Import MmClient.
From S2P Require Import MmCopy.
From S2P Require Import MmRealloc.
From S2P Require Import MmLimit.

Lemma init_ok base key m : chunk_addr base -> client_inv (zend_mm_init base key m) ∅.
Proof.
  intros Hbase. exists ∅, []. split; [|intros p n; rewrite !lookup_empty; split; [done|intros [[? _]|H]; [done|by apply not_elem_of_nil in H]]].
  split; cbn [zend_mm_init hp mem pages huge_list huge_maps huge_chain]; try done.
  2: { apply NoDup_nil_2. }
  2: { intros a Ha. by apply not_elem_of_nil in Ha. }
  2: { split; [apply NoDup_nil_2|intros ?? H; by apply not_elem_of_nil in H|intros ???? H; by apply not_elem_of_nil in H]. }
  2: { intros a n H. by apply not_elem_of_nil in H. }
  exists ∅, (fun _ => []), ∅. split; [|intros p n; rewrite lookup_empty; split; [done|intros [(b & Hs & _)|(k & Hk & _)]; by rewrite lookup_empty in *]].
  assert (chunk_ok (zend_mm_chunk_init zeroed_chunk) ∅) as Hc by (apply chunk_init_ok; apply zeroed_map_ok).
  split; cbn [zend_mm_init hp mem pages free_slot shadow_key]; try done.
  - split; [split|intros e s b _ _ Hr; by rewrite lookup_empty in Hr]; cbn [ring cached_chunks fmap list_fmap ce_addr app]; try done.
    2: { intros a b k _ Hk. by apply not_elem_of_nil in Hk. }
    split.
    + by apply NoDup_singleton.
    + intros a [->|Ha]%elem_of_cons; [done|by apply not_elem_of_nil in Ha].
    + intros e [->|He]%elem_of_cons; [|by apply not_elem_of_nil in He]. exists ∅. split; [exact Hc|]. intros s Hs. by rewrite !lookup_empty.
    + intros a r Ha. by rewrite lookup_empty in Ha.
    + intros e He. by apply not_elem_of_nil in He.
  - intros b Hb. cbn [chain]. apply lget_replicate. unfold is_bin, ZEND_MM_BINS in Hb. lia.
  - intros b a Ha. by apply not_elem_of_nil in Ha.
  - intros b. apply NoDup_nil_2.
  - intros b a (base' & i & Hr & _). by rewrite lookup_empty in Hr.
Qed.

Section History.
Context (chunk_alloc : nat -> list (Z * Z) -> Z -> option Z) (below_average : Z -> bool).

(** The finite map holds the blocks in use and the bytes that [zend_mm_size]
    reports for them.  A request or a reallocation may be refused; the client
    may write any word of its blocks. *)
Inductive mm_step : mm chunk_heap * gmap Z Z -> mm chunk_heap * gmap Z Z -> Prop :=
| step_alloc s live size p n s' : 0 <= size < 2 ^ 64 ->
    zend_mm_alloc_heap chunk_alloc below_average size s = Some (AllocPtr p, s') -> zend_mm_size p s' = Some (Ret n) ->
    mm_step (s, live) (s', <[p := n]> live)
| step_refused s live size r s' : 0 <= size < 2 ^ 64 -> r = AllocNoMemory \/ r = AllocOverflow ->
    zend_mm_alloc_heap chunk_alloc below_average size s = Some (r, s') -> mm_step (s, live) (s', live)
| step_free s live p n s' : live !! p = Some n ->
    zend_mm_free_heap below_average p s = Some (FreeDone, s') -> mm_step (s, live) (s', delete p live)
| step_realloc s live p n size use copy q k s' : live !! p = Some n -> 0 <= size < 2 ^ 64 -> 0 <= copy <= size ->
    zend_mm_realloc_heap chunk_alloc below_average p size use copy s = Some (AllocPtr q, s') -> zend_mm_size q s' = Some (Ret k) ->
    mm_step (s, live) (s', <[q := k]> (delete p live))
| step_realloc_refused s live p n size use copy r s' : live !! p = Some n -> 0 <= size < 2 ^ 64 -> 0 <= copy <= size ->
    r = AllocNoMemory \/ r = AllocOverflow ->
    zend_mm_realloc_heap chunk_alloc below_average p size use copy s = Some (r, s') -> mm_step (s, live) (s', live)
| step_gc s live n s' : zend_mm_gc below_average s = Some (Ret n, s') -> mm_step (s, live) (s', live)
| step_limit s live memory_limit ok s' : 0 <= memory_limit < 2 ^ 64 ->
    zend_set_memory_limit memory_limit s = Some (ok, s') -> mm_step (s, live) (s', live)
| step_write s live p n x v : live !! p = Some n -> p <= x < p + n -> mm_step (s, live) (set_mem (fset (mem s) x v) s, live).

Context (chunk_alloc_ok : forall n used size a, chunk_alloc n used size = Some a -> 0 < size ->
  0 < a /\ a mod ZEND_MM_CHUNK_SIZE = 0 /\ a + size <= 2 ^ 64 /\
  forall b k, (b, k) ∈ used -> a + size <= b \/ b + k <= a).

Lemma sized s live p n k : client_inv s (<[p := n]> live) -> zend_mm_size p s = Some (Ret k) -> k = n.
Proof. intros Hc H. rewrite (mm_size_ok s _ p n Hc) in H by apply lookup_insert_eq. by injection H as <-. Qed.

Lemma client_gc_ok s live : client_inv s live ->
  exists n s', zend_mm_gc below_average s = Some (Ret n, s') /\ client_inv s' live /\ same_contents s s' live.
Proof.
  intros (blocks & nodes & Hc). pose proof Hc as [Hv Hw]. destruct (huge_gc_ok below_average s blocks nodes _ Hv) as (n & s' & E & Hv' & _ & _ & Hd).
  exists n, s'. split; [done|]. split; [by exists blocks, nodes|by eapply data_contents].
Qed.

Lemma mm_step_ok a b : mm_step a b -> client_inv a.1 a.2 -> client_inv b.1 b.2.
Proof.
  intros H Hi. destruct H as [s live size p n s' Hs H Hn|s live size r s' Hs Hr H|s live p n s' Hl H|s live p n size use copy q k s' Hl Hs Hcp H Hn|
    s live p n size use copy r s' Hl Hs Hcp Hr H|s live n s' H|s live ml ok s' Hml H|s live p n x v Hl Hx]; cbn in *.
  - destruct (alloc_heap_ok chunk_alloc below_average chunk_alloc_ok s live size Hi Hs) as (r & s1 & E & _ & Hr). rewrite E in H. injection H as -> ->.
    destruct Hr as (_ & k & _ & Hc). by rewrite (sized _ _ _ _ _ Hc Hn).
  - destruct (alloc_heap_ok chunk_alloc below_average chunk_alloc_ok s live size Hi Hs) as (r1 & s1 & E & _ & Hr1). rewrite E in H. injection H as -> ->.
    destruct Hr as [-> | ->]; [|by destruct Hr1 as [-> _]]. destruct Hr1 as (blocks & nodes & Hc & _). by exists blocks, nodes.
  - destruct (free_heap_ok below_average s live p n Hi Hl) as (s1 & E & Hi' & _). rewrite E in H. by injection H as <-.
  - destruct (realloc_heap_ok chunk_alloc below_average chunk_alloc_ok s live p n size use copy Hi Hl Hs Hcp) as (r & s1 & E & Hr).
    rewrite E in H. injection H as -> ->. destruct Hr as (_ & (j & _ & Hc) & _). by rewrite (sized _ _ _ _ _ Hc Hn).
  - destruct (realloc_heap_ok chunk_alloc below_average chunk_alloc_ok s live p n size use copy Hi Hl Hs Hcp) as (r1 & s1 & E & Hr1).
    rewrite E in H. injection H as -> ->. destruct Hr as [-> | ->]; [|by destruct Hr1]. destruct Hr1 as ((blocks & nodes & Hc & _) & _). by exists blocks, nodes.
  - destruct (client_gc_ok s live Hi) as (k & s1 & E & Hi' & _). by injection (eq_trans (eq_sym H) E) as _ ->.
  - destruct (set_memory_limit_ok s live ml Hi Hml) as (b & s1 & E & Hi' & _). by injection (eq_trans (eq_sym H) E) as _ ->.
  - apply client_write; [done|]. intros y Hy. exists p, n. split; [done|]. destruct (decide (y = x)) as [->|Hne]; [done|]. destruct Hy. by apply fset_ne.
Qed.

Lemma mm_reachable base key m s live : chunk_addr base -> rtc mm_step (zend_mm_init base key m, ∅) (s, live) -> client_inv s live.
Proof.
  intros Hb H. apply (rtc_ind_r (fun st => client_inv st.1 st.2) (zend_mm_init base key m, ∅) (init_ok base key m Hb)) in H; [done|].
  intros a b _ Hab Ha. by eapply mm_step_ok.
Qed.

(** A collection of an exhausted heap releases nothing. *)
Lemma exhausted_gc s live : exhausted s live -> exists s', zend_mm_gc below_average s = Some (Ret 0, s').
Proof.
  intros (blocks & nodes & _ & runs & free & slots & Hinv & Hidle).
  destruct (gc_heap_ok below_average (fr := frame_of s) s runs free slots blocks Hinv) as (s' & ? & E & _). rewrite Hidle in E. by exists s'.
Qed.

(** The new block of [n] bytes overlaps no other one. *)
Definition new_block (s : mm chunk_heap) (live : gmap Z Z) (p n : Z) : Prop :=
  zend_mm_size p s = Some (Ret n) /\ forall p' n', live !! p' = Some n' -> p + n <= p' \/ p' + n' <= p.

Lemma new_block_ok s live p n : client_inv s (<[p := n]> live) -> live !! p = None -> new_block s live p n.
Proof.
  intros Hc Hp. split; [apply (mm_size_ok s _ p n Hc), lookup_insert_eq|]. intros p' n' Hp'.
  apply (client_disjoint s _ p n p' n' Hc); [apply lookup_insert_eq| |congruence]. rewrite lookup_insert_ne; [done|congruence].
Qed.

(** C3: memory safety of the allocator, for every history of requests of any size,
    releases, reallocations, collections, changes of the memory limit and writes
    into blocks in use, and for all answers of the system.  The blocks in use
    are aligned to 8 bytes, disjoint, and [zend_mm_size] reports their size.  A
    further request ends with a block that is large enough and overlaps none of
    them; or because there is no memory and a collection releases nothing more; or
    because the size cannot be rounded up to pages.  A release of a block in use
    ends without a false alarm of the heap protection.  Neither changes a word
    of another block in use. *)
Theorem zend_mm_heap_safe base key m s live : chunk_addr base ->
  rtc mm_step (zend_mm_init base key m, ∅) (s, live) ->
  (forall p n, live !! p = Some n -> 0 < p /\ p mod 8 = 0 /\ p + n <= 2 ^ 64 /\ zend_mm_size p s = Some (Ret n)) /\
  (forall p n q k, live !! p = Some n -> live !! q = Some k -> p <> q -> p + n <= q \/ q + k <= p) /\
  (forall size, 0 <= size < 2 ^ 64 ->
     exists r s', zend_mm_alloc_heap chunk_alloc below_average size s = Some (r, s') /\ same_contents s s' live /\
       match r with
       | AllocPtr p => exists n, size <= n /\ new_block s' live p n
       | AllocNoMemory => exists s'', zend_mm_gc below_average s' = Some (Ret 0, s'')
       | AllocOverflow => 2 ^ 64 - REAL_PAGE_SIZE < size
       | AllocPanic => False
       end) /\
  (forall p n, live !! p = Some n ->
     exists s', zend_mm_free_heap below_average p s = Some (FreeDone, s') /\ same_contents s s' (delete p live)).
Proof.
  intros Hb Hi%mm_reachable; [|done]. split; [|split; [by intros p n q k; apply (client_disjoint s live)|split]].
  - intros p n Hp. destruct (client_addr s live p n Hi Hp) as (? & ? & _ & _ & ?). do 3 (split; [done|]). by eapply mm_size_ok.
  - intros size Hs. destruct (alloc_heap_ok chunk_alloc below_average chunk_alloc_ok s live size Hi Hs) as (r & s' & E & Hm & Hr). exists r, s'.
    split; [done|]. split; [done|]. destruct r as [p| | |]; [|by eapply exhausted_gc|apply Hr|done].
    destruct Hr as (Hp & n & Hn & Hc). exists n. split; [done|]. by apply new_block_ok.
  - intros p n Hp. destruct (free_heap_ok below_average s live p n Hi Hp) as (s' & E & _ & Hm). by exists s'.
Qed.

(** C4: reallocation of a block in use, at any point of such a history.  It ends
    with a block of at least the requested size, at the same or at another
    address, that overlaps no other block and whose first bytes, up to the old
    size and [copy_size], are those of the old block; or it ends because there is no
    memory, or because the size cannot be rounded up, and then the old block is
    still there, unchanged.  No other block changes in any case. *)
Theorem zend_mm_realloc_heap_correct base key m s live p n size use copy_size : chunk_addr base ->
  rtc mm_step (zend_mm_init base key m, ∅) (s, live) -> live !! p = Some n -> 0 <= copy_size <= size -> size < 2 ^ 64 ->
  exists r s', zend_mm_realloc_heap chunk_alloc below_average p size use copy_size s = Some (r, s') /\
    match r with
    | AllocPtr q => (exists k, size <= k /\ new_block s' (delete p live) q k) /\ same_contents s s' (delete p live) /\
        forall i, 0 <= i < Z.min n copy_size -> byte_at (mem s') (q + i) = byte_at (mem s) (p + i)
    | AllocNoMemory => same_contents s s' live /\ zend_mm_size p s' = Some (Ret n) /\
        exists s'', zend_mm_gc below_average s' = Some (Ret 0, s'')
    | AllocOverflow => same_contents s s' live /\ zend_mm_size p s' = Some (Ret n) /\ 2 ^ 64 - REAL_PAGE_SIZE < size
    | AllocPanic => False
    end.
Proof.
  intros Hb Hi%mm_reachable Hp Hcp Hs; [|done].
  destruct (realloc_heap_ok chunk_alloc below_average chunk_alloc_ok s live p n size use copy_size Hi Hp ltac:(lia) Hcp) as (r & s' & E & Hr).
  exists r, s'. split; [done|]. destruct r as [q| | |]; [| | |done].
  - destruct Hr as (Hq & (k & Hk & Hc) & Hm & Hcopy). split; [|done]. exists k. split; [done|]. by apply new_block_ok.
  - destruct Hr as [He Hm]. split; [done|]. split; [|by eapply exhausted_gc]. destruct He as (blocks & nodes & Hc & _).
    eapply mm_size_ok; [by exists blocks, nodes|done].
  - destruct Hr as (Hc & Hm & Ho). split; [done|]. split; [by eapply mm_size_ok|done].
Qed.

(** C5: a collection at any point of such a history ends without a false alarm
    and changes no block in use; it returns the number of bytes by which the
    pages in use shrink, and the work is complete: afterwards each small run
    holds a block in use or a node of the list of huge blocks, and a second
    collection releases nothing. *)
Theorem zend_mm_gc_correct base key m s live : chunk_addr base ->
  rtc mm_step (zend_mm_init base key m, ∅) (s, live) ->
  exists n s' (fr : heap_frame) runs nodes, zend_mm_gc below_average s = Some (Ret n, s') /\ same_contents s s' live /\
    n = (used (ring (pages s)) - used (ring (pages s'))) * ZEND_MM_PAGE_SIZE /\
    page_runs (pages s') runs /\ huge_chain (mem s') (huge_list (hp s')) nodes /\
    (forall a b, runs !! a = Some (Small b) -> 1 <= b ->
       exists p, (p ∈ nodes.*1 \/ is_Some (live !! p)) /\ a <= p < a + run_bytes (Small b)) /\
    exists s'', zend_mm_gc below_average s' = Some (Ret 0, s'').
Proof.
  intros Hb (blocks & nodes & Hc)%mm_reachable; [|done]. pose proof Hc as [Hv Hw]. pose proof (hv_heap _ _ _ _ Hv) as (runs & free & slots & Hinv).
  destruct (gc_heap_ok below_average (fr := frame_of s) s runs free slots blocks Hinv) as (s' & free' & E & Hinv' & Hm).
  destruct (client_keep s s' blocks nodes live Hc ltac:(by eexists _, _, _) Hm) as [[Hv' _] Hsame].
  eexists _, s', (frame_of s), (kept_runs slots runs), nodes. split; [exact E|]. split; [done|].
  destruct (mm_pages _ _ _ _ (hi_ok _ _ _ _ _ Hinv)) as [Hp _]. pose proof (mm_pages _ _ _ _ (hi_ok _ _ _ _ _ Hinv')) as Hrest'.
  pose proof Hrest' as [Hp' _]. split.
  { rewrite (used_total _ _ _ (hr_chunks _ _ Hp)), (used_total _ _ _ (hr_chunks _ _ Hp')), (total_filter (idle_run slots) runs).
    unfold idle_runs, kept_runs. f_equal. lia. }
  split; [exact Hrest'|]. split; [apply Hv'|]. split.
  - intros a b [Hr Hno]%lookup_kept H1. destruct (kept_live s runs free slots blocks a b Hinv Hr Hno H1) as (p & n & Hpb & Hin).
    exists p. split; [|done]. destruct (decide (p ∈ nodes.*1)) as [|Hn]; [by left|right]. exists n. apply Hw. by left.
  - destruct (gc_heap_ok below_average (fr := frame_of s) s' _ free' slots blocks Hinv') as (s'' & ? & E' & _). rewrite idle_kept in E'. by exists s''.
Qed.

(** C6: a change of the memory limit at any point of such a history.  It
    succeeds exactly if the memory in use, without the cached chunks, is within
    the new limit, and then all memory is; it changes no block in use.  The new
    limit is only stored when no cached chunk had to be released: in the other
    case success is reported with the old limit still in force. *)
Theorem zend_set_memory_limit_correct base key m s live memory_limit : chunk_addr base ->
  rtc mm_step (zend_mm_init base key m, ∅) (s, live) -> 0 <= memory_limit < 2 ^ 64 ->
  exists ok s', zend_set_memory_limit memory_limit s = Some (ok, s') /\ mem s' = mem s /\
    (forall p n, live !! p = Some n -> zend_mm_size p s' = Some (Ret n)) /\
    ok = bool_decide (real_size (pages s) - cached_chunks_count (pages s) * ZEND_MM_CHUNK_SIZE <= memory_limit) /\
    (ok = true -> real_size (pages s') <= memory_limit) /\ (ok = false -> s' = s) /\
    limit (pages s') = if real_size (pages s) <=? memory_limit then memory_limit else limit (pages s).
Proof.
  intros Hb Hi%mm_reachable Hml; [|done]. destruct (set_memory_limit_ok s live memory_limit Hi Hml) as (ok & s' & E & Hi' & Hm & Hr).
  exists ok, s'. split; [done|]. split; [done|]. split; [|done]. intros p n Hp. by eapply mm_size_ok.
Qed.
End History.
