(* ===== verification/MmWitnesses.v ===== *)
(** Concrete runs of the memory manager: the hypotheses of its theorems hold
    for histories that are computed here. *)

From stdpp Require Import base numbers list gmap.
From S2P Require Import Prelude.
From S2P Require Import MmBitset.
From S2P Require Import MmBins.
From S2P Require Import MmChunk.
From S2P Require Import MmRuns.
From S2P Require Import MmSlots.
From S2P Require Import MmHeap.
From S2P Require Import MmGc.
From S2P Require Import MmPages.
From S2P Require Import MmAlloc.
From S2P Require Import MmHuge.
From S2P Require Import MmRegions.
From S2P Require Import MmHugeOps.
From S2P Require Import MmClient.
From S2P Require Import MmCopy.
From S2P Require Import MmRealloc.
From S2P Require Import MmLimit.
From S2P Require Import MmHistory.

Lemma zend_mm_small_size_to_bin_correct_witness :
  (0 <= 100 <= ZEND_MM_MAX_SMALL_SIZE) /\ zend_mm_small_size_to_bin 100 = 10 /\
  let b := zend_mm_small_size_to_bin 100 in
  is_bin b /\ 100 <= bin_data_size b /\
  (forall b', is_bin b' -> 100 <= bin_data_size b' -> b <= b') /\
  (64 < 100 -> 4 * (bin_data_size b - 100) < 100) /\
  bin_data_size b * bin_elements b <= bin_pages b * ZEND_MM_PAGE_SIZE < bin_data_size b * (bin_elements b + 1).
Proof.
  assert (0 <= 100 <= ZEND_MM_MAX_SMALL_SIZE) as H by (unfold ZEND_MM_MAX_SMALL_SIZE; lia).
  split; [exact H|]. split; [vm_compute; reflexivity|]. exact (zend_mm_small_size_to_bin_correct 100 H).
Defined.

(** * Pages *)

Definition alloc_or (c : zend_mm_chunk) (n : Z) : zend_mm_chunk :=
  match alloc_in_chunk c n with Some (_, c') => c' | None => c end.
Definition free_or (c : zend_mm_chunk) (s : Z) : zend_mm_chunk :=
  match free_in_chunk c (s * ZEND_MM_PAGE_SIZE) with Some (Released c' _) => c' | _ => c end.
Definition resize_or (c : zend_mm_chunk) (s size : Z) : zend_mm_chunk :=
  match realloc_large c (s * ZEND_MM_PAGE_SIZE) size with Some (InPlace c') => c' | _ => c end.

(** Three pages at 1, two at 4, 70 at 6; the first run is released, the second one shrinks. *)
Definition chunk1 := alloc_or fresh_chunk 3.
Definition chunk2 := alloc_or chunk1 2.
Definition chunk3 := alloc_or chunk2 70.
Definition chunk4 := free_or chunk3 1.
Definition chunk5 := resize_or chunk4 4 4000.
Definition runs3 : gmap Z run := <[6 := Large 70]> (<[4 := Large 2]> (<[1 := Large 3]> ∅)).
Definition runs5 : gmap Z run := <[4 := Large (pages_of 4000)]> (delete 1 runs3).

Lemma chunk_history : rtc page_step (fresh_chunk, ∅) (chunk5, runs5).
Proof.
  eapply rtc_l; [apply (MmRuns.step_alloc _ _ 3 1 chunk1); [lia|vm_compute; reflexivity]|].
  eapply rtc_l; [apply (MmRuns.step_alloc _ _ 2 4 chunk2); [lia|vm_compute; reflexivity]|].
  eapply rtc_l; [apply (MmRuns.step_alloc _ _ 70 6 chunk3); [lia|vm_compute; reflexivity]|].
  eapply rtc_l; [apply (MmRuns.step_free _ _ 1 3 chunk4); vm_compute; reflexivity|].
  eapply rtc_l; [apply (step_resize _ _ 4 2 4000 chunk5); vm_compute; reflexivity|]. apply rtc_refl.
Qed.

Lemma free_in_chunk_correct_witness :
  chunk_ok chunk5 runs5 /\ runs5 !! 6 = Some (Large 70) /\
  (exists c', free_in_chunk chunk5 (6 * ZEND_MM_PAGE_SIZE) = Some (Released c' 70) /\ chunk_ok c' (delete 6 runs5) /\
     free_in_chunk c' (6 * ZEND_MM_PAGE_SIZE) = Some Corrupted) /\
  forall o, 0 < o < ZEND_MM_PAGE_SIZE -> free_in_chunk chunk5 (6 * ZEND_MM_PAGE_SIZE + o) = Some Corrupted.
Proof.
  pose proof (reachable_ok _ _ chunk_history) as Hc.
  assert (runs5 !! 6 = Some (Large 70)) as Hr by (vm_compute; reflexivity).
  split; [exact Hc|]. split; [exact Hr|]. exact (free_in_chunk_correct chunk5 runs5 6 (Large 70) Hc Hr).
Defined.

Lemma chunk_pages_safe_witness :
  rtc page_step (fresh_chunk, ∅) (chunk5, runs5) /\
  (exists r c', alloc_in_chunk chunk5 3 = Some (r, c') /\
     match r with
     | Some s => (exists k, best_run (free_map chunk5) 3 s k) /\ forall p, s <= p < s + 3 -> ~ owned runs5 p
     | None => forall s k, free_run (free_map chunk5) s k -> k < 3
     end).
Proof.
  split; [exact chunk_history|].
  destruct (chunk_pages_safe chunk5 runs5 chunk_history) as (_ & _ & _ & _ & H & _). apply H. lia.
Defined.

(** * The heap *)

#[global] Instance chunk_addr_dec a : Decision (chunk_addr a).
Proof. unfold chunk_addr. apply _. Defined.

(** A system that maps the regions one after the other. *)
Definition next_region (n : nat) (used : list (Z * Z)) (size : Z) : option Z :=
  let a := (Z.of_nat n + 1) * 2 ^ 30 in
  if decide ((0 < a /\ a mod ZEND_MM_CHUNK_SIZE = 0 /\ a + size <= 2 ^ 64) /\ Forall (fun r => a + size <= r.1 \/ r.1 + r.2 <= a) used)
  then Some a else None.
Definition always_cached (n : Z) : bool := true.

Lemma next_region_ok n used size a : next_region n used size = Some a -> 0 < size ->
  0 < a /\ a mod ZEND_MM_CHUNK_SIZE = 0 /\ a + size <= 2 ^ 64 /\
  forall b k, (b, k) ∈ used -> a + size <= b \/ b + k <= a.
Proof.
  unfold next_region. intros E Hs. case_decide as H; [|done]. injection E as <-. destruct H as [(H1 & H2 & H3) H4].
  do 3 (split; [done|]). intros b k Hb. rewrite Forall_forall in H4. apply (H4 (b, k) Hb).
Qed.

Definition heap0 : mm chunk_heap := zend_mm_init ZEND_MM_CHUNK_SIZE 0x1234567890abcdef (fun _ => 0).
Definition alloc_after (size : Z) (s : mm chunk_heap) : mm chunk_heap := default heap0 (snd <$> zend_mm_alloc_heap next_region always_cached size s).
Definition free_after (p : Z) (s : mm chunk_heap) : mm chunk_heap := default heap0 (snd <$> zend_mm_free_heap always_cached p s).
Definition realloc_after (p size : Z) (s : mm chunk_heap) : mm chunk_heap :=
  default heap0 (snd <$> zend_mm_realloc_heap next_region always_cached p size false size s).
Definition limit_after (memory_limit : Z) (s : mm chunk_heap) : mm chunk_heap := default heap0 (snd <$> zend_set_memory_limit memory_limit s).

Lemma fst_eq {A B} (r : option (A * B)) o d : fst <$> r = Some o -> r = Some (o, default d (snd <$> r)).
Proof. destruct r as [[o' s]|]; [|done]. by intros [= ->]. Qed.

Definition heap_steps := rtc (mm_step next_region always_cached) (heap0, ∅).

Lemma alloc_history s live size p n : heap_steps (s, live) -> 0 <= size < 2 ^ 64 ->
  fst <$> zend_mm_alloc_heap next_region always_cached size s = Some (AllocPtr p) -> zend_mm_size p (alloc_after size s) = Some (Ret n) ->
  heap_steps (alloc_after size s, <[p := n]> live).
Proof. intros H Hs E Hn. eapply rtc_r; [exact H|]. eapply MmHistory.step_alloc; [exact Hs| |exact Hn]. by apply fst_eq. Qed.

Lemma free_history s live p n : heap_steps (s, live) -> live !! p = Some n ->
  fst <$> zend_mm_free_heap always_cached p s = Some FreeDone -> heap_steps (free_after p s, delete p live).
Proof. intros H Hp E. eapply rtc_r; [exact H|]. eapply MmHistory.step_free; [exact Hp|]. by apply fst_eq. Qed.

Lemma realloc_history s live p n size q k : heap_steps (s, live) -> live !! p = Some n -> 0 <= size < 2 ^ 64 ->
  fst <$> zend_mm_realloc_heap next_region always_cached p size false size s = Some (AllocPtr q) -> zend_mm_size q (realloc_after p size s) = Some (Ret k) ->
  heap_steps (realloc_after p size s, <[q := k]> (delete p live)).
Proof. intros H Hp Hs E Hk. eapply rtc_r; [exact H|]. eapply step_realloc; [exact Hp|exact Hs| |by apply fst_eq|exact Hk]. lia. Qed.

Lemma limit_history s live memory_limit ok : heap_steps (s, live) -> 0 <= memory_limit < 2 ^ 64 ->
  fst <$> zend_set_memory_limit memory_limit s = Some ok -> heap_steps (limit_after memory_limit s, live).
Proof. intros H Hs E. eapply rtc_r; [exact H|]. eapply step_limit; [exact Hs|]. by apply fst_eq. Qed.

Ltac alloc_step := eapply alloc_history; [|lia|vm_compute; reflexivity|vm_compute; reflexivity].
Ltac free_step := eapply free_history; [|vm_compute; reflexivity|vm_compute; reflexivity].

(** A block of 100 bytes, one of 5000 bytes, a second one of 100 bytes; a write
    into the first; the second is released; then a chunk is filled, and a huge
    block of 3000000 bytes follows. *)
Definition block1 : Z := ZEND_MM_CHUNK_SIZE + 4096.
Definition block2 : Z := ZEND_MM_CHUNK_SIZE + 2 * 4096.
Definition block3 : Z := block1 + 112.
Definition block6 : Z := ZEND_MM_CHUNK_SIZE + 2 * 4096.
Definition block7 : Z := 2 * 2 ^ 30 + 4096.
Definition block8 : Z := 3 * 2 ^ 30.
Definition heap3 := alloc_after 100 (alloc_after 5000 (alloc_after 100 heap0)).
Definition heap4 : mm chunk_heap := set_mem (fset (mem heap3) (block1 + 8) 42) heap3.
Definition heap5 := free_after block2 heap4.
Definition heap8 := alloc_after 3000000 (alloc_after 2000000 (alloc_after 2000000 heap5)).
Definition live3 : gmap Z Z := <[block3 := 112]> (<[block2 := 8192]> (<[block1 := 112]> ∅)).
Definition live8 : gmap Z Z := <[block8 := 3002368]> (<[block7 := 2002944]> (<[block6 := 2002944]> (delete block2 live3))).

Lemma heap_history3 : heap_steps (heap3, live3).
Proof. unfold heap3, live3. alloc_step. alloc_step. alloc_step. apply rtc_refl. Qed.

Lemma heap_history5 : heap_steps (heap5, delete block2 live3).
Proof.
  unfold heap5. free_step. unfold heap4. eapply rtc_r; [exact heap_history3|]. eapply step_write with block1 112; [vm_compute; reflexivity|lia].
Qed.

Lemma heap_history8 : heap_steps (heap8, live8).
Proof. unfold heap8, live8. alloc_step. alloc_step. alloc_step. exact heap_history5. Qed.

Lemma main_chunk_addr : chunk_addr ZEND_MM_CHUNK_SIZE.
Proof. split; vm_compute; [reflexivity|split; [reflexivity|discriminate]]. Qed.

Lemma zend_mm_heap_safe_witness :
  heap_steps (heap8, live8) /\ live8 !! block8 = Some 3002368 /\
  zend_mm_size block8 heap8 = Some (Ret 3002368) /\
  (exists r s', zend_mm_alloc_heap next_region always_cached 4000000 heap8 = Some (r, s') /\ same_contents heap8 s' live8 /\
     match r with
     | AllocPtr p => exists n, 4000000 <= n /\ new_block s' live8 p n
     | AllocNoMemory => exists s'', zend_mm_gc always_cached s' = Some (Ret 0, s'')
     | AllocOverflow => 2 ^ 64 - REAL_PAGE_SIZE < 4000000
     | AllocPanic => False
     end) /\
  exists s', zend_mm_free_heap always_cached block8 heap8 = Some (FreeDone, s') /\ same_contents heap8 s' (delete block8 live8).
Proof.
  destruct (zend_mm_heap_safe next_region always_cached next_region_ok _ _ _ _ _ main_chunk_addr heap_history8) as (Hs & _ & Ha & Hf).
  assert (live8 !! block8 = Some 3002368) as Hl by (vm_compute; reflexivity).
  split; [exact heap_history8|]. split; [exact Hl|]. split; [apply (Hs _ _ Hl)|]. split; [apply Ha; lia|]. apply (Hf _ _ Hl).
Defined.

(** The block with the write grows to 200 bytes and to 5000000 bytes: it moves both times. *)
Definition heap9 := realloc_after block1 200 heap8.
Definition block9 : Z := ZEND_MM_CHUNK_SIZE + 492 * 4096.
Definition live9 : gmap Z Z := <[block9 := 224]> (delete block1 live8).

Lemma heap_history9 : heap_steps (heap9, live9).
Proof. unfold heap9, live9. eapply realloc_history; [exact heap_history8|vm_compute; reflexivity|lia|vm_compute; reflexivity|vm_compute; reflexivity]. Qed.

Lemma zend_mm_realloc_heap_correct_witness :
  heap_steps (heap9, live9) /\ live9 !! block9 = Some 224 /\
  exists q s', zend_mm_realloc_heap next_region always_cached block9 5000000 false 5000000 heap9 = Some (AllocPtr q, s') /\
    byte_at (mem s') (q + 8) = 42.
Proof.
  assert (live9 !! block9 = Some 224) as Hl by (vm_compute; reflexivity).
  split; [exact heap_history9|]. split; [exact Hl|].
  destruct (zend_mm_realloc_heap_correct next_region always_cached next_region_ok _ _ _ _ _ block9 224 5000000 false 5000000 main_chunk_addr heap_history9 Hl)
    as (r & s' & E & Hr); [lia|lia|].
  assert (exists q, fst <$> zend_mm_realloc_heap next_region always_cached block9 5000000 false 5000000 heap9 = Some (AllocPtr q)) as [q H] by (eexists; vm_compute; reflexivity).
  rewrite E in H. injection H as ->. exists q, s'. split; [exact E|]. destruct Hr as (_ & _ & Hb). rewrite (Hb 8) by lia. vm_compute. reflexivity.
Defined.

(** Both blocks of the first run are released: it is idle. *)
Definition heap11 := free_after block3 heap9.
Definition live11 : gmap Z Z := delete block3 live9.

Lemma heap_history11 : heap_steps (heap11, live11).
Proof. unfold heap11, live11. free_step. exact heap_history9. Qed.

Lemma zend_mm_gc_correct_witness :
  heap_steps (heap11, live11) /\
  exists s', zend_mm_gc always_cached heap11 = Some (Ret 4096, s') /\ same_contents heap11 s' live11 /\
    exists s'', zend_mm_gc always_cached s' = Some (Ret 0, s'').
Proof.
  split; [exact heap_history11|].
  destruct (zend_mm_gc_correct next_region always_cached next_region_ok _ _ _ _ _ main_chunk_addr heap_history11) as (n & s' & fr & runs & nodes & E & Hm & _ & _ & _ & _ & H2).
  assert (fst <$> zend_mm_gc always_cached heap11 = Some (Ret 4096)) as H by (vm_compute; reflexivity).
  rewrite E in H. injection H as ->. exists s'. split; [exact E|]. split; [exact Hm|exact H2].
Defined.

(** * The memory limit *)

(** The second chunk is released and cached.  To release it is enough for a
    limit of 5100000 bytes, which is reported as set and is not. *)
Definition heap12 := free_after block7 heap11.
Definition live12 : gmap Z Z := delete block7 live11.

Lemma heap_history12 : heap_steps (heap12, live12).
Proof. unfold heap12, live12. free_step. exact heap_history11. Qed.

Lemma zend_set_memory_limit_correct_witness :
  heap_steps (heap12, live12) /\ real_size (MmSlots.pages heap12) = 7196672 /\
  exists s', zend_set_memory_limit 5100000 heap12 = Some (true, s') /\ real_size (MmSlots.pages s') <= 5100000 /\
    limit (MmSlots.pages s') = 2 ^ 63 - 1.
Proof.
  split; [exact heap_history12|]. split; [vm_compute; reflexivity|].
  destruct (zend_set_memory_limit_correct next_region always_cached next_region_ok _ _ _ _ _ 5100000 main_chunk_addr heap_history12)
    as (ok & s' & E & _ & _ & Eok & Hr & _ & Hl); [lia|].
  assert (ok = true) as -> by (rewrite Eok; vm_compute; reflexivity). exists s'. split; [exact E|]. split; [by apply Hr|].
  rewrite Hl. vm_compute. reflexivity.
Defined.

(** The first chunk is full, and the limit leaves room for a huge block of two
    chunks, but not for the chunk of its node. *)
Definition heap_full := limit_after (3 * ZEND_MM_CHUNK_SIZE) (alloc_after (511 * 4096) heap0).
Definition heap_over := alloc_after (2 * ZEND_MM_CHUNK_SIZE) heap_full.
Definition live_over : gmap Z Z := <[2 ^ 31 := 2 * ZEND_MM_CHUNK_SIZE]> (<[ZEND_MM_CHUNK_SIZE + 4096 := 511 * 4096]> ∅).

Lemma heap_history_over : heap_steps (heap_over, live_over).
Proof.
  unfold heap_over, live_over. eapply alloc_history; [|unfold ZEND_MM_CHUNK_SIZE; lia|vm_compute; reflexivity|vm_compute; reflexivity].
  unfold heap_full. eapply limit_history with true; [|unfold ZEND_MM_CHUNK_SIZE; lia|vm_compute; reflexivity].
  alloc_step. apply rtc_refl.
Qed.

(** The memory limit can be passed.  After this history - a block that
    fills the first chunk, a limit of three chunks, a huge block of two chunks -
    four chunks are in use: the limit is checked before the node of the huge
    block takes a chunk of its own.  The difference [limit - real_size] has then
    wrapped around, and requests far beyond the limit pass its check. *)
Lemma memory_limit_passed : heap_steps (heap_over, live_over) /\
  limit (MmSlots.pages heap_over) = 3 * ZEND_MM_CHUNK_SIZE /\ real_size (MmSlots.pages heap_over) = 4 * ZEND_MM_CHUNK_SIZE /\
  check_limit always_cached (2 ^ 62) heap_over = Some (Ret (), heap_over) /\
  exists p s', zend_mm_alloc_heap next_region always_cached (2 ^ 62) heap_over = Some (AllocPtr p, s') /\
    limit (MmSlots.pages s') < real_size (MmSlots.pages s').
Proof.
  split; [exact heap_history_over|]. split; [vm_compute; reflexivity|]. split; [vm_compute; reflexivity|].
  split; [vm_compute; reflexivity|]. eexists _, _. split; [vm_compute; reflexivity|]. vm_compute. reflexivity.
Qed.
