(* ===== verification/Witnesses.v ===== *)
(** Concrete instances: a small environment, tables in each of the three
    states, and for every property with hypotheses an input at which they hold. *)

From stdpp Require Import base numbers list gmap.
From S2P Require Import Prelude ZendTypes NumericStr HashTable HashDict HashChain HashInv.
From S2P Require Import HashRehash HashFind HashAdd HashIndex HashDel HashOps HashTraverse.
From S2P Require Import HashSymtable ZendSort HashCopy HashSort HashRenumber HashPos HashMerge HashDup.

(** Values are integers; the allocator returns stale buckets; the string at
    address [k] is "7" for [k = 1], "ab" for [k = 2], "x" otherwise. *)
#[local] Instance env : ZEnv Z := {
  junk := fun n => mk_Bucket (IS_VALUE 77) 5 (Z.of_nat n) (Some 9);
  ZSTR := fun k => if k =? 1 then mk_zend_string [55] true
                   else if k =? 2 then mk_zend_string [97; 98] false
                   else mk_zend_string [120] false
}.

#[local] Instance plain_values : ZValue Z := {
  Z_OPT_REFCOUNTED := fun _ => false;
  Z_REFVAL_1 := fun _ => None;
  Z_ARRVAL := fun _ => None
}.

Definition w0 : EG Z := mk_EG [] 0 ∅ [].

Definition empty_table : HashTable Z :=
  mk_HashTable 16 false true false false 0 HT_MIN_MASK
    [HT_INVALID_IDX; HT_INVALID_IDX] [] [] 0 0 8 0 ZEND_LONG_MIN true.

Definition run (r : option (state Z * option zptr)) : state Z :=
  match r with Some (s, _) => s | None => (empty_table, w0) end.

(** One string key in a hash; two integer keys, one of them deleted, packed. *)
Definition mixed_1 : state Z := run (zend_hash_update 2 (IS_VALUE 5) (empty_table, w0)).
Definition mixed_2 : state Z := run (zend_hash_index_update 7 (IS_VALUE 6) mixed_1).
Definition packed_1 : state Z := run (zend_hash_index_update 0 (IS_VALUE 8) (empty_table, w0)).
Definition packed_2 : state Z := run (zend_hash_index_update 3 (IS_VALUE 9) packed_1).

Lemma size_ok_8 : size_ok 8.
Proof. exists 3. done. Qed.

Lemma wf_empty_table : wf empty_table.
Proof.
  split; [left; split; try reflexivity; exact size_ok_8|]. split; [done|]. intros h Hin. by apply elem_of_nil in Hin.
Qed.

Lemma wf_updated t w k v evs r : updated t w k v evs r -> wf (run r).1.
Proof. intros (t' & w' & p & -> & Hwf & _). exact Hwf. Qed.

Lemma wf_mixed_1 : wf mixed_1.1.
Proof. eapply wf_updated, update_ok; [apply wf_empty_table|done|done]. Qed.

Lemma wf_mixed_2 : wf mixed_2.1.
Proof.
  unfold mixed_2. replace mixed_1 with (mixed_1.1, mixed_1.2) by (vm_compute; reflexivity).
  eapply wf_updated, index_update_ok; [apply wf_mixed_1|vm_compute; reflexivity|lia|done].
Qed.

Lemma wf_packed_1 : wf packed_1.1.
Proof. eapply wf_updated, index_update_ok; [apply wf_empty_table|done|lia|done]. Qed.

Lemma wf_packed_2 : wf packed_2.1.
Proof.
  unfold packed_2. replace packed_1 with (packed_1.1, packed_1.2) by (vm_compute; reflexivity).
  eapply wf_updated, index_update_ok; [apply wf_packed_1|vm_compute; reflexivity|lia|done].
Qed.

Example mixed_2_elems : elems mixed_2.1 = [(KStr [97; 98], IS_VALUE 5); (KInt 7, IS_VALUE 6)].
Proof. vm_compute. reflexivity. Qed.

Example packed_2_elems : elems packed_2.1 = [(KInt 0, IS_VALUE 8); (KInt 3, IS_VALUE 9)].
Proof. vm_compute. reflexivity. Qed.

(** * Lookup, insertion, deletion *)

Lemma zend_hash_find_correct_witness :
  repr_ok mixed_2.1 /\
  (fun p => zload (mixed_2.1, mixed_2.2) p) <$> zend_hash_find mixed_2.1 2 = Some (IS_VALUE 5).
Proof.
  split; [apply wf_mixed_2|]. rewrite (zend_hash_find_correct mixed_2.1 mixed_2.2 2).
  - vm_compute. reflexivity.
  - apply wf_mixed_2.
Defined.

Lemma zend_hash_str_find_correct_witness :
  (fun p => zload (mixed_2.1, mixed_2.2) p) <$> zend_hash_str_find mixed_2.1 [97; 98] = Some (IS_VALUE 5) /\
  (fun p => zload (mixed_2.1, mixed_2.2) p) <$> zend_hash_str_find mixed_2.1 [97] = None.
Proof.
  rewrite (zend_hash_str_find_correct mixed_2.1 mixed_2.2 [97; 98]) by apply wf_mixed_2.
  rewrite (zend_hash_str_find_correct mixed_2.1 mixed_2.2 [97]) by apply wf_mixed_2.
  vm_compute. split; reflexivity.
Defined.

Lemma zend_hash_index_find_correct_witness :
  (fun p => zload (packed_2.1, packed_2.2) p) <$> zend_hash_index_find packed_2.1 3 = Some (IS_VALUE 9) /\
  (fun p => zload (mixed_2.1, mixed_2.2) p) <$> zend_hash_index_find mixed_2.1 7 = Some (IS_VALUE 6).
Proof.
  rewrite (zend_hash_index_find_correct packed_2.1 packed_2.2 3) by (apply wf_packed_2 || lia).
  rewrite (zend_hash_index_find_correct mixed_2.1 mixed_2.2 7) by (apply wf_mixed_2 || lia).
  vm_compute. split; reflexivity.
Defined.

Lemma zend_hash_update_correct_witness :
  updated mixed_2.1 mixed_2.2 (KStr [97; 98]) (IS_VALUE 11) [EvDtor (IS_VALUE 5)]
    (zend_hash_update 2 (IS_VALUE 11) (mixed_2.1, mixed_2.2)).
Proof.
  replace [EvDtor (IS_VALUE 5)] with (update_events mixed_2.1 2) by (vm_compute; reflexivity).
  change [97; 98] with (ZSTR_VAL 2).
  refine (zend_hash_update_correct 2 (IS_VALUE 11) mixed_2.1 mixed_2.2 wf_mixed_2 _ eq_refl).
  vm_compute. reflexivity.
Defined.

Lemma zend_hash_add_correct_witness :
  zend_hash_add 2 (IS_VALUE 11) (mixed_2.1, mixed_2.2) = Some ((mixed_2.1, mixed_2.2), None) /\
  exists t' w' p, zend_hash_add 1 (IS_VALUE 11) (mixed_2.1, mixed_2.2) = Some ((t', w'), Some p) /\
    wf t' /\ elems t' = elems mixed_2.1 ++ [(KStr (ZSTR_VAL 1), IS_VALUE 11)] /\
    zload (t', w') p = IS_VALUE 11 /\ slots w' = slots mixed_2.2 /\
    trace w' = trace mixed_2.2 ++ addref_events 1.
Proof.
  assert (nNumUsed mixed_2.1 < HT_MAX_SIZE) as Hlt by (vm_compute; reflexivity). split.
  - pose proof (zend_hash_add_correct 2 (IS_VALUE 11) mixed_2.1 mixed_2.2 wf_mixed_2 Hlt eq_refl) as H.
    apply (added_present _ _ _ _ _ _ (IS_VALUE 5) H). vm_compute. reflexivity.
  - pose proof (zend_hash_add_correct 1 (IS_VALUE 11) mixed_2.1 mixed_2.2 wf_mixed_2 Hlt eq_refl) as H.
    apply (added_fresh _ _ _ _ _ _ H). vm_compute. reflexivity.
Defined.

Lemma zend_hash_index_update_correct_witness :
  updated packed_2.1 packed_2.2 (KInt 1000000) (IS_VALUE 4) []
    (zend_hash_index_update 1000000 (IS_VALUE 4) (packed_2.1, packed_2.2)) /\
  updated packed_2.1 packed_2.2 (KInt 3) (IS_VALUE 4) [EvDtor (IS_VALUE 9)]
    (zend_hash_index_update 3 (IS_VALUE 4) (packed_2.1, packed_2.2)).
Proof.
  assert (nTableSize packed_2.1 < HT_MAX_SIZE) as Hlt by (vm_compute; reflexivity). split.
  - replace [] with (index_update_events packed_2.1 1000000) by (vm_compute; reflexivity).
    refine (zend_hash_index_update_correct 1000000 (IS_VALUE 4) packed_2.1 packed_2.2 wf_packed_2 Hlt _ eq_refl). lia.
  - replace [EvDtor (IS_VALUE 9)] with (index_update_events packed_2.1 3) by (vm_compute; reflexivity).
    refine (zend_hash_index_update_correct 3 (IS_VALUE 4) packed_2.1 packed_2.2 wf_packed_2 Hlt _ eq_refl). lia.
Defined.

Lemma zend_hash_index_add_correct_witness :
  zend_hash_index_add 7 (IS_VALUE 4) (mixed_2.1, mixed_2.2) = Some ((mixed_2.1, mixed_2.2), None).
Proof.
  assert (nTableSize mixed_2.1 < HT_MAX_SIZE) as Hlt by (vm_compute; reflexivity).
  assert (0 <= 7 < 2 ^ 64) as H7 by lia.
  pose proof (zend_hash_index_add_correct 7 (IS_VALUE 4) mixed_2.1 mixed_2.2 wf_mixed_2 Hlt H7 eq_refl) as H.
  apply (added_present _ _ _ _ _ _ (IS_VALUE 6) H). vm_compute. reflexivity.
Defined.

Lemma zend_hash_next_index_insert_correct_witness :
  KInt (next_key packed_2.1) ∉ (elems packed_2.1).*1 /\
  exists t' w' p, zend_hash_next_index_insert (IS_VALUE 4) (packed_2.1, packed_2.2) = Some ((t', w'), Some p) /\
    wf t' /\ elems t' = elems packed_2.1 ++ [(KInt (next_key packed_2.1), IS_VALUE 4)] /\
    zload (t', w') p = IS_VALUE 4 /\ slots w' = slots packed_2.2 /\ trace w' = trace packed_2.2.
Proof.
  assert (nTableSize packed_2.1 < HT_MAX_SIZE) as Hlt by (vm_compute; reflexivity).
  destruct (zend_hash_next_index_insert_correct (IS_VALUE 4) packed_2.1 packed_2.2 wf_packed_2 Hlt eq_refl)
    as [(_ & Hf & _)|H].
  - vm_compute in Hf. discriminate Hf.
  - exact H.
Defined.

Lemma zend_hash_del_correct_witness :
  (zend_hash_del 2 (mixed_2.1, mixed_2.2)).2 = SUCCESS /\
  exists k, ZSTR_VAL k = ZSTR_VAL 2 /\
    deleted mixed_2.1 mixed_2.2 (KStr (ZSTR_VAL 2)) (IS_VALUE 5) [EvRelease k] (zend_hash_del 2 (mixed_2.1, mixed_2.2)).1.
Proof.
  pose proof (zend_hash_del_correct 2 mixed_2.1 mixed_2.2 wf_mixed_2) as H.
  replace (dict_lookup _ _) with (Some (IS_VALUE 5)) in H by (vm_compute; reflexivity). exact H.
Defined.

Lemma zend_hash_str_del_correct_witness :
  (zend_hash_str_del [97; 98] (mixed_2.1, mixed_2.2)).2 = SUCCESS /\
  exists k, ZSTR_VAL k = [97; 98] /\
    deleted mixed_2.1 mixed_2.2 (KStr [97; 98]) (IS_VALUE 5) [EvRelease k]
      (zend_hash_str_del [97; 98] (mixed_2.1, mixed_2.2)).1.
Proof.
  pose proof (zend_hash_str_del_correct [97; 98] mixed_2.1 mixed_2.2 wf_mixed_2) as H.
  replace (dict_lookup _ _) with (Some (IS_VALUE 5)) in H by (vm_compute; reflexivity). exact H.
Defined.

Lemma zend_hash_index_del_correct_witness :
  (zend_hash_index_del 3 (packed_2.1, packed_2.2)).2 = SUCCESS /\
  deleted packed_2.1 packed_2.2 (KInt 3) (IS_VALUE 9) [] (zend_hash_index_del 3 (packed_2.1, packed_2.2)).1.
Proof.
  assert (0 <= 3) as H3 by lia.
  pose proof (zend_hash_index_del_correct 3 packed_2.1 packed_2.2 wf_packed_2 H3) as H.
  replace (dict_lookup _ _) with (Some (IS_VALUE 9)) in H by (vm_compute; reflexivity). exact H.
Defined.

Lemma holds_mixed_2 : holds mixed_2.1 1 (KInt 7).
Proof. split; [vm_compute; by split|]. split; vm_compute; reflexivity. Qed.

Lemma zend_hash_del_bucket_correct_witness :
  deleted mixed_2.1 mixed_2.2 (KInt 7) (IS_VALUE 6) [] (zend_hash_del_bucket 1 (mixed_2.1, mixed_2.2)).
Proof.
  assert (fl_PACKED mixed_2.1 = false) as Hp by (vm_compute; reflexivity).
  pose proof (zend_hash_del_bucket_correct 1 (KInt 7) mixed_2.1 mixed_2.2 wf_mixed_2 Hp holds_mixed_2) as H.
  replace (b_val _) with (IS_VALUE 6) in H by (vm_compute; reflexivity).
  replace (release_events _) with (@nil (event Z)) in H by (vm_compute; reflexivity). exact H.
Defined.

(** * Traversal, cleaning, applying *)

Lemma traverse_forward_correct_witness :
  traverse 8 packed_2.1 packed_2.2 (zend_hash_internal_pointer_reset_ex packed_2.1) =
  Some [(KInt 0, IS_VALUE 8); (KInt 3, IS_VALUE 9)].
Proof.
  assert (0 <= nNumUsed packed_2.1) as H0 by (vm_compute; congruence).
  assert (nNumUsed packed_2.1 <= Z.of_nat 8) as H8 by (vm_compute; congruence).
  rewrite (traverse_forward_correct packed_2.1 packed_2.2 8 H0 H8). vm_compute. reflexivity.
Defined.

Lemma traverse_backward_correct_witness :
  traverse_back 8 packed_2.1 packed_2.2 (zend_hash_internal_pointer_end_ex packed_2.1) =
  Some [(KInt 3, IS_VALUE 9); (KInt 0, IS_VALUE 8)].
Proof.
  assert (0 <= nNumUsed packed_2.1) as H0 by (vm_compute; congruence).
  assert (nNumUsed packed_2.1 <= Z.of_nat 8) as H8 by (vm_compute; congruence).
  rewrite (traverse_backward_correct packed_2.1 packed_2.2 8 H0 H8). vm_compute. reflexivity.
Defined.

Lemma zend_hash_clean_correct_witness :
  exists t' w' evs, zend_hash_clean (mixed_2.1, mixed_2.2) = (t', w') /\ wf t' /\ elems t' = [] /\
    trace w' = trace mixed_2.2 ++ evs /\ destroyed_values evs = [IS_VALUE 5; IS_VALUE 6] /\
    released_keys evs = [[97; 98]].
Proof.
  assert (pDestructor mixed_2.1 = true) as Hd by (vm_compute; reflexivity).
  destruct (zend_hash_clean_correct mixed_2.1 mixed_2.2 wf_mixed_2 Hd)
    as (t' & w' & evs & H1 & H2 & H3 & _ & _ & _ & H4 & H5 & H6).
  exists t', w', evs. do 4 (split; [assumption|]). split.
  - rewrite H5. vm_compute. reflexivity.
  - rewrite H6 by (vm_compute; reflexivity). vm_compute. reflexivity.
Defined.

(** Remove the value 8, stop at 9. *)
Definition decide_8_9 (v : zval Z) : Z :=
  match v with
  | IS_VALUE x => if x =? 8 then ZEND_HASH_APPLY_REMOVE else if x =? 9 then ZEND_HASH_APPLY_STOP else 0
  | _ => 0
  end.

Lemma zend_hash_apply_correct_witness :
  exists t' w', zend_hash_apply 8 (fun p s => (s, decide_8_9 (zload s p))) (packed_2.1, packed_2.2) = Some (t', w') /\
    wf t' /\ elems t' = [(KInt 3, IS_VALUE 9)].
Proof.
  assert (nNumUsed packed_2.1 <= Z.of_nat 8) as H8 by (vm_compute; congruence).
  destruct (zend_hash_apply_correct 8 (fun p s => (s, decide_8_9 (zload s p))) decide_8_9
    packed_2.1 packed_2.2 wf_packed_2 H8 (fun p s => eq_refl)) as (t' & w' & H1 & H2 & H3 & _).
  exists t', w'. split; [exact H1|]. split; [exact H2|]. rewrite H3. vm_compute. reflexivity.
Defined.

Lemma zend_array_is_list_correct_witness :
  zend_array_is_list packed_1.1 = true /\ (elems packed_1.1).*1 = [KInt 0].
Proof.
  assert (zend_array_is_list packed_1.1 = true) as H by (vm_compute; reflexivity).
  split; [exact H|].
  apply (zend_array_is_list_correct packed_1.1 (proj1 wf_packed_1)) in H. rewrite H. vm_compute. reflexivity.
Defined.

(** * Symbol tables and numeric strings *)

Lemma zend_handle_numeric_str_correct_witness :
  zend_handle_numeric_str [45; 57] = Some (u64 (-9)) /\
  zend_handle_numeric_str [48; 57] = None.
Proof.
  assert (byte_str [45; 57]) as B1 by (unfold byte_str; repeat constructor; lia).
  split.
  - apply (zend_handle_numeric_str_correct [45; 57] (u64 (-9)) B1). exists (-9).
    unfold ZEND_LONG_MIN, ZEND_LONG_MAX. split; [lia|]. split; vm_compute; reflexivity.
  - vm_compute. reflexivity.
Defined.

Lemma zend_symtable_update_correct_witness :
  exists evs, updated mixed_2.1 mixed_2.2 (KInt 7) (IS_VALUE 1) evs
    (zend_symtable_update 1 (IS_VALUE 1) (mixed_2.1, mixed_2.2)).
Proof.
  assert (nTableSize mixed_2.1 < HT_MAX_SIZE) as Hlt by (vm_compute; reflexivity).
  pose proof (zend_symtable_update_correct 1 (IS_VALUE 1) mixed_2.1 mixed_2.2 wf_mixed_2 Hlt eq_refl) as H.
  replace (sym_key _) with (KInt 7) in H by (vm_compute; reflexivity). exact H.
Defined.

Lemma zend_symtable_find_correct_witness :
  (fun p => zload (mixed_2.1, mixed_2.2) p) <$> zend_symtable_find mixed_2.1 1 = Some (IS_VALUE 6).
Proof.
  rewrite (zend_symtable_find_correct 1 mixed_2.1 mixed_2.2 (proj1 wf_mixed_2)). vm_compute. reflexivity.
Defined.

(** * Sorting *)

(** Twenty integers, so that the partition is used. *)
Definition unsorted : list Z := [5; 3; 9; 1; 7; 12; 4; 8; 2; 6; 11; 10; 20; 13; 19; 14; 18; 15; 17; 16].

Lemma zend_sort_correct_witness :
  zend_sort 0 Z.sub (fun a b => (b, a)) unsorted ≡ₚ unsorted /\
  zend_sort 0 Z.sub (fun a b => (b, a)) unsorted = zrange 1 20.
Proof.
  split; [|vm_compute; reflexivity].
  assert (forall a b c, a - b <= 0 -> b - c <= 0 -> a - c <= 0) as Ht by lia.
  assert (forall a b, 0 < a - b -> b - a <= 0) as Hc by lia.
  apply (zend_sort_correct 0 Z.sub (fun a b => (b, a)) (fun a b => eq_refl) Ht Hc unsorted).
Defined.

Lemma zend_insert_sort_correct_witness :
  zend_insert_sort 0 Z.sub (fun a b => (b, a)) 1 7 unsorted ≡ₚ unsorted /\
  zend_insert_sort 0 Z.sub (fun a b => (b, a)) 1 7 unsorted =
    [5; 1; 3; 4; 7; 8; 9; 12; 2; 6; 11; 10; 20; 13; 19; 14; 18; 15; 17; 16].
Proof.
  split; [|vm_compute; reflexivity].
  assert (forall a b c, a - b <= 0 -> b - c <= 0 -> a - c <= 0) as Ht by lia.
  assert (forall a b, 0 < a - b -> b - a <= 0) as Hc by lia.
  apply (zend_insert_sort_correct 0 Z.sub (fun a b => (b, a)) (fun a b => eq_refl) Ht Hc 1 7 unsorted); vm_compute; congruence.
Defined.

(** Compare the values as integers, then the original position. *)
Definition value_of (v : zval Z) : Z := match v with IS_VALUE x => x | _ => 0 end.
Definition compare_values (a b : Bucket Z) : Z :=
  if value_of (b_val a) =? value_of (b_val b) then b_next a - b_next b
  else value_of (b_val a) - value_of (b_val b).

Lemma compare_values_preorder : total_preorder compare_values.
Proof.
  unfold total_preorder, compare_values. split; intros *; zbool; lia.
Qed.

Lemma compare_values_by_value : by_value compare_values.
Proof. by intros a b. Qed.

Lemma zend_hash_sort_correct_witness :
  (exists t' w', zend_hash_sort compare_values false (mixed_2.1, mixed_2.2) = (t', w') /\ wf t' /\
    sorted_table compare_values mixed_2.1 t') /\
  (exists t' w', zend_hash_sort compare_values true (mixed_2.1, mixed_2.2) = (t', w') /\ wf t' /\
    renumbered compare_values mixed_2.1 t').
Proof.
  split.
  - apply (zend_hash_sort_correct compare_values false mixed_2.1 mixed_2.2 compare_values_preorder); [discriminate|apply wf_mixed_2].
  - apply (zend_hash_sort_correct compare_values true mixed_2.1 mixed_2.2 compare_values_preorder); [intros _; apply compare_values_by_value|apply wf_mixed_2].
Defined.

(** * Positions across compaction *)

(** Four buckets, the first two deleted; an iterator on the second (deleted)
    position and one on the third, which is live. *)
Definition w_iters (a b : Z) : EG Z := mk_EG [mk_iter 16 a 0; mk_iter 16 b 1] 2 ∅ [].
Definition four_1 : state Z := run (zend_hash_update 1 (IS_VALUE 10) (empty_table, w0)).
Definition four_2 : state Z := run (zend_hash_update 2 (IS_VALUE 11) four_1).
Definition four_3 : state Z := run (zend_hash_update 3 (IS_VALUE 12) four_2).
Definition four : state Z := run (zend_hash_index_update 5 (IS_VALUE 13) four_3).
Definition holes : HashTable Z :=
  set_nIteratorsCount 2 (zend_hash_del 2 (zend_hash_del 1 four).1).1.1.

(** Compaction can move an iterator past a live element.  Both iterators
    of [holes] stand before the same two remaining elements; after
    [zend_hash_rehash] the second one has lost the first of them, because the
    inner loop of the compaction stops when the next iterator position equals
    the current source index, and the next element then picks it up. *)
Theorem zend_hash_rehash_iterator_skips :
  let left := [(KStr [120], IS_VALUE 12); (KInt 5, IS_VALUE 13)] in
  elems_from holes <$> iter_positions holes (w_iters 1 2) = [left; left] /\
  let (t', w') := zend_hash_rehash (holes, w_iters 1 2) in
  elems t' = left /\ elems_from t' <$> iter_positions t' w' = [left; [(KInt 5, IS_VALUE 13)]].
Proof. vm_compute. split; [reflexivity|]. split; reflexivity. Qed.

Lemma wf_update_step s k v : wf s.1 -> nNumUsed s.1 < HT_MAX_SIZE -> Z_ISUNDEF v = false ->
  wf (run (zend_hash_update k v s)).1.
Proof. destruct s as [t w]. intros. eapply wf_updated, update_ok; done. Qed.

Lemma wf_index_update_step s h v : wf s.1 -> nTableSize s.1 < HT_MAX_SIZE -> 0 <= h < 2 ^ 64 ->
  Z_ISUNDEF v = false -> wf (run (zend_hash_index_update h v s)).1.
Proof. destruct s as [t w]. intros. eapply wf_updated, index_update_ok; done. Qed.

Lemma wf_four : wf four.1.
Proof.
  apply wf_index_update_step; [|vm_compute; reflexivity|lia|done].
  do 2 (apply wf_update_step; [|vm_compute; reflexivity|done]).
  apply wf_update_step; [apply wf_empty_table|done|done].
Qed.

Lemma wf_set_iterators_count x (t : HashTable Z) : wf t -> wf (set_nIteratorsCount x t).
Proof.
  intros [Hr Hn]. split; [|exact Hn]. destruct Hr as [H|[H|H]].
  - left. destruct H. by split.
  - right; left. destruct H. by split.
  - right; right. destruct H as [H1 H2 H3]. split; [destruct H1; by split|exact H2|by apply (linked_ext t)].
Qed.

Lemma mixed_of_wf (t : HashTable Z) : wf t -> fl_PACKED t = false -> fl_UNINITIALIZED t = false -> mixed_ok t.
Proof.
  intros [[H|[H|H]] _] Hp Hu; [rewrite (un_init _ H) in Hu; done|rewrite (pk_packed _ H) in Hp; done|done].
Qed.

Lemma wf_del_step s k : wf s.1 -> wf (zend_hash_del k s).1.1.
Proof.
  destruct s as [t w]. intros Hwf. pose proof (hash_del_ok k t w Hwf) as H.
  destruct (dict_lookup _ _) as [v|]; [|by rewrite H].
  destruct H as (_ & k' & _ & Hdel). apply Hdel.
Qed.

Lemma wf_holes : wf holes.
Proof. apply wf_set_iterators_count, wf_del_step, wf_del_step, wf_four. Qed.

Lemma mixed_holes : mixed_ok holes.
Proof. apply mixed_of_wf; [apply wf_holes|vm_compute; reflexivity|vm_compute; reflexivity]. Qed.

Lemma zend_hash_rehash_correct_witness :
  exists t' w', zend_hash_rehash (holes, w_iters 1 2) = (t', w') /\ wf t' /\
    elems t' = [(KStr [120], IS_VALUE 12); (KInt 5, IS_VALUE 13)] /\ nNumUsed t' = nNumOfElements t'.
Proof.
  assert (0 <= nInternalPointer holes) as Hip by (vm_compute; congruence).
  destruct (zend_hash_rehash_correct holes (w_iters 1 2) wf_holes mixed_holes Hip)
    as (t' & w' & H1 & H2 & H3 & H4 & _).
  exists t', w'. split; [exact H1|]. split; [exact H2|]. split; [|exact H4].
  rewrite H3. vm_compute. reflexivity.
Defined.

(** Iterators on the third and the fourth position, both live. *)
Lemma zend_hash_rehash_iterators_witness :
  let (t', w') := zend_hash_rehash (holes, w_iters 2 3) in
  elems_from t' <$> iter_positions t' w' = elems_from holes <$> iter_positions holes (w_iters 2 3).
Proof.
  apply (zend_hash_rehash_iterators holes (w_iters 2 3) wf_holes mixed_holes).
  - vm_compute. congruence.
  - vm_compute. reflexivity.
  - change (iter_positions holes (w_iters 2 3)) with [2; 3]. repeat constructor; lia.
  - change (iter_positions holes (w_iters 2 3)) with [2; 3].
    intros p q Hp Hq Hpq _ _. 
    assert (p = 2 /\ q = 3) as [-> ->] by (apply elem_of_cons in Hp as [->|Hp%list_elem_of_singleton]; apply elem_of_cons in Hq as [->|Hq%list_elem_of_singleton]; lia).
    vm_compute. reflexivity.
Defined.

(** * Copy, merge, duplicate *)

Lemma pure_none : pure_ctor (V:=Z) None.
Proof. intros f p s H. discriminate H. Qed.

(** A symbol table slot: key 7 of [mixed_2] becomes an indirection to slot 100. *)
Definition indirect_2 : state Z := run (zend_hash_index_update 7 (IS_INDIRECT 100) mixed_1).
Definition w_slots : EG Z := mk_EG [] 0 {[100 := IS_VALUE 33]} [].

Lemma wf_indirect_2 : wf indirect_2.1.
Proof. apply wf_index_update_step; [apply wf_mixed_1|vm_compute; reflexivity|lia|done]. Qed.

Lemma zend_hash_copy_correct_witness :
  exists t' w', zend_hash_copy None indirect_2.1 (packed_2.1, w_slots) = Some (t', w') /\ wf t' /\
    elems t' = [(KInt 0, IS_VALUE 8); (KInt 3, IS_VALUE 9); (KStr [97; 98], IS_VALUE 5); (KInt 7, IS_VALUE 33)].
Proof.
  assert (nTableSize packed_2.1 <= 2 ^ 28) as H1 by (vm_compute; congruence).
  assert (nNumOfElements packed_2.1 + nNumUsed indirect_2.1 <= 2 ^ 26) as H2 by (vm_compute; congruence).
  destruct (zend_hash_copy_correct None indirect_2.1 packed_2.1 w_slots wf_packed_2 (proj1 wf_indirect_2)
    pure_none H1 H2) as (t' & w' & Heq & Hwf & _ & He).
  exists t', w'. split; [exact Heq|]. split; [exact Hwf|]. rewrite He. vm_compute. reflexivity.
Defined.

(** The string key of [mixed_1] becomes an indirection to slot 100. *)
Definition indirect_key : state Z := run (zend_hash_update 2 (IS_INDIRECT 100) (empty_table, w0)).

Lemma wf_indirect_key : wf indirect_key.1.
Proof. eapply wf_updated, update_ok; [apply wf_empty_table|done|done]. Qed.

Lemma zend_hash_merge_correct_witness :
  (exists t' w', zend_hash_merge None true mixed_2.1 (indirect_key.1, w_slots) = Some (t', w') /\ wf t' /\
    elems t' = [(KStr [97; 98], IS_INDIRECT 100); (KInt 7, IS_VALUE 6)] /\ slot w' 100 = IS_VALUE 5) /\
  (exists t' w', zend_hash_merge None false mixed_2.1 (four.1, four.2) = Some (t', w') /\ wf t' /\
    elems t' = elems four.1 ++ [(KInt 7, IS_VALUE 6)] /\
    dict_lookup (KStr [97; 98]) (elems t') = Some (IS_VALUE 11)).
Proof.
  split.
  - assert (nTableSize indirect_key.1 <= 2 ^ 28) as H1 by (vm_compute; congruence).
    assert (nNumOfElements indirect_key.1 + nNumUsed mixed_2.1 <= 2 ^ 26) as H2 by (vm_compute; congruence).
    destruct (zend_hash_merge_correct None true mixed_2.1 indirect_key.1 w_slots wf_indirect_key (proj1 wf_mixed_2)
      pure_none H1 H2) as (t' & w' & Heq & Hwf & He & _).
    exists t', w'. split; [exact Heq|]. split; [exact Hwf|].
    replace (foldl (merge_elem true (fl_PACKED mixed_2.1)) (elems indirect_key.1, slots w_slots) (elems mixed_2.1))
      with ([(KStr [97; 98], IS_INDIRECT 100); (KInt 7, IS_VALUE 6)], ({[100 := IS_VALUE 5]} : gmap Z (zval Z))) in He by (vm_compute; reflexivity).
    injection He as He Hs. split; [exact He|]. unfold slot. rewrite Hs. vm_compute. reflexivity.
  - assert (nTableSize four.1 <= 2 ^ 28) as H1 by (vm_compute; congruence).
    assert (nNumOfElements four.1 + nNumUsed mixed_2.1 <= 2 ^ 26) as H2 by (vm_compute; congruence).
    assert (no_indirect (elems four.1)) as H3.
    { replace (elems four.1) with [(KStr [55], IS_VALUE 10); (KStr [97; 98], IS_VALUE 11); (KStr [120], IS_VALUE 12);
        (KInt 5, IS_VALUE 13)] by (vm_compute; reflexivity). by repeat constructor. }
    assert (no_indirect (source_elems four.2 mixed_2.1)) as H4.
    { replace (source_elems four.2 mixed_2.1) with [(KStr [97; 98], IS_VALUE 5); (KInt 7, IS_VALUE 6)]
        by (vm_compute; reflexivity). by repeat constructor. }
    destruct (zend_hash_merge_correct None false mixed_2.1 four.1 four.2 wf_four (proj1 wf_mixed_2)
      pure_none H1 H2) as (t' & w' & Heq & Hwf & _ & Hun). destruct (Hun H3 H4) as [_ He].
    exists t', w'. split; [exact Heq|]. split; [exact Hwf|]. rewrite He. split; vm_compute; reflexivity.
Defined.

Lemma zend_array_dup_correct_witness :
  exists t' w', zend_array_dup 99 false indirect_2.1 w_slots = (t', w') /\ wf t' /\
    elems t' = [(KStr [97; 98], IS_VALUE 5); (KInt 7, IS_VALUE 33)].
Proof.
  assert (refs_defined (V:=Z)) as Hr by (intros x y Hy; discriminate Hy).
  destruct (zend_array_dup_correct 99 false indirect_2.1 w_slots Hr wf_indirect_2) as (t' & w' & Heq & Hwf & _ & He).
  exists t', w'. split; [exact Heq|]. split; [exact Hwf|]. rewrite He. vm_compute. reflexivity.
Defined.
