(* ===== verification/CompareWitnesses.v ===== *)
(** Concrete inputs for renaming a key and for comparisons: arrays that contain
    each other, and an iterator of a table whose count of iterators is saturated. *)

From stdpp Require Import base numbers list gmap.
From S2P Require Import Prelude ZendTypes NumericStr HashTable HashDict HashChain HashInv.
From S2P Require Import HashRehash HashFind HashAdd HashIndex HashDel HashOps HashTraverse HashSymtable ZendSort HashCopy HashRename HashCompare.

(** Values are integers, those from 1000 on are arrays by their address. *)
#[local] Instance cmp_env : ZEnv Z := {
  junk := fun n => mk_Bucket (IS_VALUE 77) 5 (Z.of_nat n) (Some 9);
  ZSTR := fun k => if k =? 1 then mk_zend_string [55] true
                   else if k =? 2 then mk_zend_string [97; 98] false
                   else mk_zend_string [120] false
}.

#[local] Instance array_values : ZValue Z := {
  Z_OPT_REFCOUNTED := fun x => 1000 <=? x;
  Z_REFVAL_1 := fun _ => None;
  Z_ARRVAL := fun x => if 1000 <=? x then Some x else None
}.

Definition no_slots : EG Z := mk_EG [] 0 ∅ [].
Definition new_array (a : Z) : HashTable Z :=
  mk_HashTable a false true false false 0 HT_MIN_MASK
    [HT_INVALID_IDX; HT_INVALID_IDX] [] [] 0 0 8 0 ZEND_LONG_MIN true.
Definition result (r : option (state Z * option zptr)) : state Z :=
  match r with Some (s, _) => s | None => (new_array 0, no_slots) end.

(** ["ab" => x, 7 => y] at address [a]. *)
Definition pair_1 (a x : Z) : state Z := result (zend_hash_update 2 (IS_VALUE x) (new_array a, no_slots)).
Definition pair (a x y : Z) : state Z := result (zend_hash_index_update 7 (IS_VALUE y) (pair_1 a x)).

Lemma wf_new_array a : wf (new_array a).
Proof.
  split; [left; split; try reflexivity; by exists 3|]. split; [done|]. intros h Hin. by apply elem_of_nil in Hin.
Qed.

Lemma wf_result t w k v evs r : updated t w k v evs r -> wf (result r).1.
Proof. intros (t' & w' & p & -> & Hwf & _). exact Hwf. Qed.

Lemma wf_pair_1 a x : wf (pair_1 a x).1.
Proof. eapply wf_result, update_ok; [apply wf_new_array|done|done]. Qed.

Lemma wf_pair a x y : nNumUsed (pair_1 a x).1 <? HT_MAX_SIZE = true -> nTableSize (pair_1 a x).1 <? HT_MAX_SIZE = true -> wf (pair a x y).1.
Proof.
  intros H1 H2. unfold pair. rewrite (surjective_pairing (pair_1 a x)).
  eapply wf_result, index_update_ok; [apply wf_pair_1|apply Z.ltb_lt; assumption|lia|done].
Qed.

(** * Renaming *)

Lemma zend_hash_set_bucket_key_correct_witness :
  exists t' w', zend_hash_set_bucket_key 0 3 ((pair 16 5 6).1, (pair 16 5 6).2) = Some ((t', w'), Some (PBucket 0)) /\
    wf t' /\ elems t' = [(KStr [120], IS_VALUE 5); (KInt 7, IS_VALUE 6)].
Proof.
  assert (wf (pair 16 5 6).1) as Hw by (apply wf_pair; vm_compute; reflexivity).
  assert (fl_PACKED (pair 16 5 6).1 = false) as Hp by (vm_compute; reflexivity).
  assert (holds (pair 16 5 6).1 0 (KStr [97; 98])) as Hh.
  { split; [vm_compute; by split|]. split; vm_compute; reflexivity. }
  assert (b_key (bucket (pair 16 5 6).1 0) = Some 2) as Hk by (vm_compute; reflexivity).
  pose proof (zend_hash_set_bucket_key_correct 0 (KStr [97; 98]) 3 2 (pair 16 5 6).1 (pair 16 5 6).2 Hw Hp Hh Hk) as H.
  cbv zeta in H. replace (dict_lookup _ _) with (@None (zval Z)) in H by (vm_compute; reflexivity).
  destruct H as (t' & w' & H1 & H2 & H3 & _). exists t', w'. split; [exact H1|]. split; [exact H2|].
  rewrite H3. vm_compute. reflexivity.
Defined.

(** * Comparison *)

Definition int_order (a b : zval Z) : Z :=
  match a, b with IS_VALUE x, IS_VALUE y => if x <? y then -1 else if y <? x then 1 else 0 | _, _ => 0 end.
Definition compare_ints (g : guards) (a b : zval Z) : option (guards * Z) := Some (g, int_order a b).

Lemma zend_hash_compare_correct_witness :
  exists c, zend_hash_compare compare_ints true false false (pair 16 5 6).1 (pair 32 5 6).1 no_slots ∅ = Some (∅, c) /\
    (c = 0 <-> Forall2 (same_binding int_order no_slots) (elems (pair 16 5 6).1) (elems (pair 32 5 6).1)).
Proof.
  assert (wf (pair 16 5 6).1) as H1 by (apply wf_pair; vm_compute; reflexivity).
  assert (wf (pair 32 5 6).1) as H2 by (apply wf_pair; vm_compute; reflexivity).
  assert (ht_id (pair 16 5 6).1 <> ht_id (pair 32 5 6).1) as H3 by (vm_compute; discriminate).
  assert (ht_id (pair 16 5 6).1 ∉ (∅ : gset Z)) as H4 by (apply not_elem_of_empty).
  exact (zend_hash_compare_correct compare_ints int_order no_slots (fun _ _ _ => eq_refl)
    true false _ _ ∅ H1 H2 H3 H4).
Defined.

(** The same elements are found equal, in either mode; a different order is
    noticed only by the ordered comparison. *)
Definition pair_rev_1 : state Z := result (zend_hash_index_update 7 (IS_VALUE 6) (new_array 48, no_slots)).
Definition pair_rev : state Z := result (zend_hash_update 2 (IS_VALUE 5) pair_rev_1).

Example compare_equal : snd <$> zend_hash_compare compare_ints true false false (pair 16 5 6).1 (pair 32 5 6).1 no_slots ∅ = Some 0.
Proof. vm_compute. reflexivity. Qed.
Example compare_unordered_rev :
  snd <$> zend_hash_compare compare_ints false false false (pair 16 5 6).1 pair_rev.1 no_slots ∅ = Some 0.
Proof. vm_compute. reflexivity. Qed.
Example compare_ordered_rev :
  snd <$> zend_hash_compare compare_ints true false false (pair 16 5 6).1 pair_rev.1 no_slots ∅ = Some 1.
Proof. vm_compute. reflexivity. Qed.

(** Two arrays that contain each other under the same key. *)
Definition cycle : gmap Z (HashTable Z) := {[1000 := (pair 1000 1001 6).1; 1001 := (pair 1001 1000 6).1]}.

Lemma zend_compare_arrays_terminates_witness :
  exists c, zend_compare cycle (fun _ => false) (fun _ => false) int_order no_slots (0 + size (dom cycle) + 3)
    ∅ (IS_VALUE 1000) (IS_VALUE 1001) = Some (∅, c).
Proof.
  assert (forall a t, cycle !! a = Some t -> ht_id t = a) as Ha.
  { intros a t H. unfold cycle in H. apply lookup_insert_Some in H as [[<- <-]|[_ H]]; [vm_compute; reflexivity|].
    apply lookup_singleton_Some in H as [<- <-]. vm_compute. reflexivity. }
  apply (zend_compare_arrays_terminates cycle (fun _ => false) (fun _ => false) int_order no_slots (fun _ => 0%nat) 0 Ha).
  - intros. discriminate.
  - intros. apply le_n.
Defined.

Example compare_cycle : snd <$> zend_compare cycle (fun _ => false) (fun _ => false) int_order no_slots 6
    ∅ (IS_VALUE 1000) (IS_VALUE 1001) = Some ZEND_UNCOMPARABLE.
Proof. vm_compute. reflexivity. Qed.

(** * A saturated count of iterators *)

(** The count 255 means that it is not exact any more, and is never changed by
    the other iterator operations.  Here an iterator leaves such a table. *)
Definition crowded : HashTable Z := set_nIteratorsCount 255 (pair 16 5 6).1.
Definition two_tables : gmap Z (HashTable Z) := {[16 := crowded; 32 := (pair 32 5 6).1]}.
Definition one_iterator : EG Z := mk_EG [mk_iter 16 1 0] 1 ∅ [].
Definition count_of (s : tables (V:=Z)) : option Z := nIteratorsCount <$> s.1 !! 16.

Lemma zend_hash_iterator_pos_ex_saturated :
  HT_ITERATORS_OVERFLOW crowded = true /\
  count_of (zend_hash_iterator_pos_ex 0 32 false false 48 (two_tables, one_iterator)).1.1 = Some 254 /\
  count_of (zend_hash_iterator_pos 0 32 (two_tables, one_iterator)).1 = Some 255.
Proof. vm_compute. repeat split. Qed.
